(* ===== verification/_CoqProject ===== *)
-Q . S2P
Prelude.v
Text.v
Services.v
ServicesTheorems.v
Binary64.v
Schema.v
ScanLeases.v
CostControls.v
LiveCalls.v
CostControlsProofs.v
LedgerInvariant.v
LedgerSteps.v
LedgerTheorems.v
OpportunityReview.v
OpportunityReviewProofs.v
ScanWorker.v
ScanWorkerProofs.v
ScanWorkerTheorems.v
ProviderOperations.v
ProviderOperationsProofs.v
LeadRouting.v
LeadIntakeTheorems.v
LeadDelivery.v
LeadDeliveryProofs.v
LeadDeliveryInvariant.v
LeadDeliveryTheorems.v
LeadDeliveryLiveness.v
PropertyWorkflow.v
PropertyWorkflowProofs.v
PropertyWorkflowTheorems.v
BlobStorage.v
BlobStorageProofs.v
BlobStorageTheorems.v
ResponseCache.v
ResponseCacheTheorems.v
Numbers.v
Demand.v
Scoring.v
ScoringProofs.v
ScoringTheorems.v
Outcomes.v
OutcomesProofs.v
OutcomesTheorems.v
PublicData.v
PublicDataValidation.v
PublicDataLock.v
PublicDataProofs.v
PublicDataInvariant.v
PublicDataTheorems.v
LiveGates.v
LiveGatesTheorems.v
Planning.v
PlanningTheorems.v
DiscoveryBatches.v
DiscoveryBatchesProofs.v
DiscoveryBatchesInvariant.v
DiscoveryBatchesTheorems.v
MarketPrefilter.v
MarketPrefilterProofs.v
MarketPrefilterTheorems.v
Security.v
SecurityTheorems.v
AuditTrail.v
AuditTrailTheorems.v
ScanRequests.v
ScanRequestsTheorems.v
Similarity.v
Keywords.v
KeywordsTheorems.v
EvidenceQuality.v
EvidenceQualityTheorems.v
ProviderRating.v
ProviderRatingTheorems.v
SerpClassification.v
SerpClassificationTheorems.v
Competitors.v
CompetitorsTheorems.v
ScanPipeline.v
ScanPipelineTheorems.v
