(* ===== verification/Prelude.v ===== *)
(** * Digital Real Estate Engine: a verified model of its stateful core

    The repository finds local-service markets worth a lead-generation site
    (scans bought from a search-data provider), lets an operator review and
    approve them, builds and deploys one site per approved market, and routes
    the leads of the site to the provider who rents it.  This development models
    the parts of [src/rank_rent] that keep durable state and promise something
    about it, and proves the promises.

    ** Parts and files

    - Prelude: results, the session monad, tables, strings, times, tactics.
    - Text (slugify of domain/models.py), Services, ServicesTheorems
      (services/service_catalog.py): slugs, and the catalog that turns the text of a
      request into a service.
    - Binary64: Python's numbers.  Class [Amount] is what the accounting needs
      of money; its instances are binary64 and exact integers.
    - Schema: the rows of db/orm.py, opportunity_review/orm.py,
      lead_routing/orm.py, property_workflow/orm.py, and the database [Db].
    - ScanLeases (services/scan_leases.py), CostControls
      (services/cost_controls.py) and LiveCalls (the transactions of
      integrations/dataforseo/live.py around a paid call): the spend ledger.
      CostControlsProofs gives the effect of each handler, LedgerInvariant the
      accounting identities, LedgerSteps every interleaving of the handlers,
      LedgerTheorems the guarantees.
    - OpportunityReview, OpportunityReviewProofs (opportunity_review/services.py,
      models.py, approval evidence of services/discovery_report.py): the review
      state machine, its audit trail and evidence overrides.
    - ScanWorker, ScanWorkerProofs, ScanWorkerTheorems (services/scan_worker.py
      and the failure handlers of services/scanner.py): the scan queue.
    - ProviderOperations, ProviderOperationsProofs (lead_routing/services.py,
      ProviderOperationsService): who holds a property.
    - LeadRouting, LeadIntakeTheorems (lead_routing/services.py, privacy.py,
      adapters.py): intake, redaction, analytics, rate limits.
    - LeadDelivery, LeadDeliveryProofs, LeadDeliveryInvariant,
      LeadDeliveryTheorems, LeadDeliveryLiveness (lead_routing/worker.py,
      retention and deletion of privacy.py): the delivery queue, and that a
      polled queue is worked off.
    - PropertyWorkflow, PropertyWorkflowProofs, PropertyWorkflowTheorems
      (property_workflow/services.py): property, domain, provider, site
      configuration, build, compliance, deployment.
    - BlobStorage, BlobStorageProofs, BlobStorageTheorems (storage/blobs.py) and
      ResponseCache, ResponseCacheTheorems (services/cache.py): where paid
      responses are kept.
    - Numbers: class [Num], the arithmetic of scoring, on binary64 and on exact
      rationals.  Demand (services/demand.py, services/demand_estimation.py, the
      summary of services/providers.py, records of domain/models.py), Scoring,
      ScoringProofs, ScoringTheorems (scoring/score.py): the opportunity score.
    - Outcomes, OutcomesProofs, OutcomesTheorems (outcomes/services.py,
      models.py, orm.py): the outcomes of approved properties, the calibration
      report, the scoring-change guard.
    - PublicData, PublicDataLock, PublicDataProofs, PublicDataInvariant,
      PublicDataTheorems, PublicDataValidation (public_data/store.py,
      models.py): the registry of public data releases on disk,
      its process lock, and the validation of a release's rows.
    - MarketPrefilter, MarketPrefilterProofs, MarketPrefilterTheorems
      (services/market_prefilter.py): the assessment of a market before a scan
      is paid for.
    - LiveGates, LiveGatesTheorems (services/qualification.py,
      services/billing.py): the qualification and billing gates in front of
      live spending.
    - Planning, PlanningTheorems (planning.py) and
      DiscoveryBatches, DiscoveryBatchesProofs, DiscoveryBatchesInvariant,
      DiscoveryBatchesTheorems (opportunity_review/services.py): the plan of a
      scan, discovery templates, and the approval, refresh and queueing of a batch of scans.
    - Security, SecurityTheorems (security/auth.py, middleware.py,
      observability/context.py): sign-in, permissions, the request middleware.
      AuditTrail, AuditTrailTheorems (security/audit.py): the hash-chained log.
    - ScanRequests, ScanRequestsTheorems (the scan handlers of main.py,
      repositories.py, runtime.py): how an operator starts, retries, promotes and
      cancels a scan.
    - The stages of a scan, each a function from what the provider answered:
      Keywords, KeywordsTheorems (services/keywords.py), on Similarity (the standard
      library's SequenceMatcher); SerpClassification, SerpClassificationTheorems
      (scoring/serp.py); Competitors, CompetitorsTheorems (services/competitors.py);
      ProviderRating, ProviderRatingTheorems (services/providers.py);
      EvidenceQuality, EvidenceQualityTheorems (services/evidence_quality.py).
    - ScanPipeline, ScanPipelineTheorems (services/scanner.py, services/records.py): a run
      from its plan to its published score.  It calls the planner, the stages, the scorer,
      the review and the lease, and keeps one session open while it waits for the provider.

    The parts meet in the database.  The paid-call protocol and the scan worker
    share the lease columns of a scan; a property exists only for an opportunity
    the review approved, and its selection rests on the score and the evidence of
    one scan; deployment reads the assignment of
    ProviderOperations, the registration, build and compliance rows of the
    workflow; lead submission and delivery read the active assignment.  A batch
    snapshots the plans of its scans and queues them through the review state
    machine; a scan request resolves its service in the catalog, plans, moves the
    review and queues for the worker; the live gates read the attempts the paid-call protocol settled; a
    request reaches a handler only through the middleware of Security, whose
    operator names the actor of the audit entries and of the reviews.

    ** How the code is read

    A handler is a function of the session monad [M]: it reads and updates [Db]
    and returns a value or raises.  Updates made before a raise stay visible to
    the caller, as in Python; [transaction] undoes them, as [get_session] and
    [worker_session] do.  The session is created with autoflush and
    expire_on_commit off and serves one handler: an object read twice is the
    same object, and a query sees the handler's own updates because the code
    flushes before it queries where that matters.  A handler is atomic with
    respect to other transactions: row locks and unique constraints are what
    the code relies on, and the constraints are checked where rows are
    inserted.  Where the code commits in the middle (a network call, an
    adapter call, a submission prepared and then inserted) the model splits
    the handler and the step relations interleave the halves.  The run of a scan is
    long: ScanPipeline keeps the session's view, the committed state and the rows the
    session has loaded apart, and an answer of the provider is an arbitrary computation
    on the committed state.

    Row ids are integers, allocated in order; where the code draws a uuid the
    handler takes it as an argument and a theorem that needs it fresh says so.
    Instants are integers of microseconds and the clock is an argument.

    Parameters of the model, for code outside the repository or outside the
    model: HMAC-SHA256 and SHA-256, the canonical JSON text, the name and the
    text of an exception, the availability, DNS and deployment adapters, the
    site builder, the answer of the spam assessor, of the rate limiter and of
    the delivery adapter, the random draw of a retry delay, the encoding and
    parsing of release files, the parsers of numbers and times, the logarithm,
    the printing of floats, the executor of a qualification check, the trigonometric functions of a distance, the decoding
    of a token, the Redis commands of the shared limiter, the application
    behind the middleware, and for the scan requests the parsing and dump of a
    service and a market, the location search and the synchronous pipeline run (which
    ScanPipeline models on its own), and for the pipeline the answers of the provider and
    the dumps of a plan, a score and a verdict.  A theorem with a hypothesis about one of them has a witness with a concrete function.

    ** What the theorems show

    - Spend (LedgerTheorems): committed spend stays within the daily limit and the
      buckets hold what the attempts hold, in every interleaving of the handlers in
      which no worker settles an attempt that was taken for a retry meanwhile (the code
      does not check that; module LateWorker shows what happens then); a
      reservation is granted exactly when every gate is open; each attempt is
      settled once; stale attempts are all closed and an unknown outcome is
      never retried; a planned request is used once.
    - Review (OpportunityReviewProofs): a transition succeeds exactly when
      permitted; approval needs a human and complete evidence; between atomic
      handlers the audit trail replays to the current state; archived is final; conflicting reviewers
      are refused; an evidence override has one active version and is undone by
      its reversal.
    - Scans (ScanWorkerTheorems): attempts are bounded; a claim hands out a fresh
      lease, and once a scan is claimed again, under another token, the earlier worker
      writes nothing through the fenced operations, whatever happens in between; recovery is complete and spares live scans.
    - Providers (ProviderOperationsProofs): one active provider per property,
      ended assignments stay ended, a replacement hands over.
    - Leads (LeadIntakeTheorems, LeadDeliveryTheorems): redaction is complete,
      a submission is stored once per idempotency key, contact is bounded, a
      finished delivery is never sent again, the lead's status is what its
      deliveries say, a deleted lead is never contacted; (LeadDeliveryLiveness)
      a worker that keeps polling settles every delivery.
    - Properties (PropertyWorkflowTheorems): every production deployment in a history
      of the workflow, rollbacks included, goes back to a launch that passed every
      gate, one deployment is live, one configuration approved, one property
      per opportunity, the version log is complete, verified states have
      evidence, sites show the active provider.
    - Storage (BlobStorageTheorems, ResponseCacheTheorems): both blob stores
      refine one write-once map, a blob never changes while writers race, a
      cached response is served until it expires and nothing else is served.
    - Scoring (ScoringTheorems): every score stays in its range and under its cap,
      the calculation steps add up to the scores when no step is dropped as too small, scoring never raises under a
      sensible configuration, the confidence respects every cap, missing evidence
      is reported exactly, each competing domain is weighed once.
    - Outcomes (OutcomesTheorems): a selection is pinned to its score and evidence,
      outcomes are truthful and counted once, importing twice writes once, deletion
      is exact, a report's totals and segments add up, and no scoring change is
      recorded without a reviewed benchmark.
    - Public data (PublicDataTheorems, PublicDataValidation): the active release is
      on disk and intact in every history of imports, crashes and rollbacks, a
      rollback undoes an activation, one process at a time works on the
      registry, what is written are validated rows, and validating is idempotent.  The
      text of a file is a parameter, required to be read back only for validated rows.
    - Markets (MarketPrefilterTheorems): assessing never fails, a better signal
      never lowers the score.
    - Gates (LiveGatesTheorems): the runner's report decides the gate, an import
      never opens it, reconciliation matches each charge once.
    - Batches (PlanningTheorems, DiscoveryBatchesTheorems): plans are sound, and a call
      counts as cached exactly when the cache, as the plan found it, has a valid response; a batch
      stays within what was approved, queueing creates exactly the scans it
      reports.
    - Requests (SecurityTheorems, AuditTrailTheorems): discovery mutations need
      their permission, only admitted requests reach the application (of the
      body only the declared length is looked at), the
      limiter agrees with a reference over the whole history, the audit log is
      one chain and its last hash pins every entry.
    - Scan requests (ScanRequestsTheorems): a live scan is started and promoted
      only with its cost confirmed and, when it is a full scan and the request or the
      setting writes its depth in lower case, its approval given; this holds for queued
      scans and for those that are run at once.  A cancelled scan is never
      claimed, a retry continues the count.
    - Runs (ScanPipelineTheorems): whatever is answered and written meanwhile, every
      question of a run is the one its earlier answers lead to, within the limits of its
      profile, under its lease and not after a cancellation; what it publishes is the score of what it gathered, and only a
      complete score of a scan that is no live testing scan replaces an earlier one.  A run under a lease never
      completes: it writes the scan as completed before it checks that the scan is
      running.
    - Stages (KeywordsTheorems, CompetitorsTheorems, SerpClassificationTheorems,
      ProviderRatingTheorems, EvidenceQualityTheorems): grouping and ranking lose no
      keyword and count none twice, a rank is stored with the keyword it belongs to, the best placed domains are the ones that are paid
      for, the first rule that applies decides what a result is, every provider is rated, in
      range, and the evidence check never raises a score, lowers a high confidence on a
      warning and no other, and makes a score on failed evidence unusable.
    - Catalog (Text, ServicesTheorems): slugify ends and is canonical on Latin-1 text, and
      a slug matches the catalog's pattern exactly when it is ASCII; a query
      resolves to the one service it names, a search is ranked.

    ** Bounds and fuel

    Loops over rows are [for_each] over the list a query returned and recursion
    is structural; where a loop's length is not a list (digits of a number, the
    partials of a sum) the fuel is the length of its input, which the loop
    shortens in every round.  Integers of the program are Python's unbounded
    ones; money, rates and delays are binary64 ([SpecFloat], precision 53,
    maximal exponent 1024), and the accounting identities, which rounding
    breaks, are stated over the exact instance of [Amount]; so are the sums and
    bounds of scores, over the rational instance of [Num], which rounds decimals as
    the code does and is exact otherwise.

    ** Not modelled

    The web handlers other than the scan requests (main.py, the api modules), the command line,
    logging and metrics, HTTP and DNS adapters, templates and the frontend call
    what is modelled or do input and output.  The geography index, the parsers of
    public data files, the calibration runs and the report for the reader are data
    pipelines without state of their own.
    PROJECT.json lists every part with the reason. *)
From stdpp Require Export base gmap strings list fin_maps sorting.
From Stdlib Require Export ZArith Lia.

#[global] Open Scope Z_scope.
#[global] Set Default Goal Selector "!".

(** ** Results and the session monad

    A handler of the program runs against a database session: it reads and
    updates the session state and may raise.  Python does not undo the updates
    made before a [raise]; the transaction boundary ([get_session],
    [worker_session]) does, see [transaction]. *)

Inductive result (E A : Type) : Type :=
| Ok (a : A)
| Raise (e : E).
Arguments Ok {E A} a.
Arguments Raise {E A} e.

Definition M (S E A : Type) : Type := S → result E A * S.

#[global] Instance M_ret {S E} : MRet (M S E) := λ A a s, (Ok a, s).
#[global] Instance M_bind {S E} : MBind (M S E) := λ A B k m s,
  match m s with
  | (Ok a, s') => k a s'
  | (Raise e, s') => (Raise e, s')
  end.

Definition raise {S E A} (e : E) : M S E A := λ s, (Raise e, s).
Definition gets {S E A} (f : S → A) : M S E A := λ s, (Ok (f s), s).
Definition modify {S E} (f : S → S) : M S E unit := λ s, (Ok tt, f s).

(** [if c: raise e] *)
Definition raise_if {S E} (c : bool) (e : E) : M S E unit :=
  if c then raise e else mret tt.

(** [x = ...; if x is None: raise e] *)
Definition get_or_raise {S E A} (f : S → option A) (e : E) : M S E A :=
  λ s, match f s with Some a => (Ok a, s) | None => (Raise e, s) end.

(** [for x in l: f(x)] *)
Fixpoint for_each {S E A} (f : A → M S E unit) (l : list A) : M S E unit :=
  match l with
  | [] => mret tt
  | x :: l' => f x ≫= λ _, for_each f l'
  end.

(** [except E1 as exc: raise E2(exc) from exc] *)
Definition reraise {S E1 E2 A} (f : E1 → E2) (m : M S E1 A) : M S E2 A := λ s,
  match m s with
  | (Ok a, s') => (Ok a, s')
  | (Raise e, s') => (Raise (f e), s')
  end.

(** The session boundary: an exception rolls the session back. *)
Definition transaction {S E A} (m : M S E A) : M S E A := λ s,
  match m s with
  | (Ok a, s') => (Ok a, s')
  | (Raise e, _) => (Raise e, s)
  end.

Definition when {S E} (c : bool) (m : M S E unit) : M S E unit :=
  if c then m else mret tt.

(** A run whose result evaluates to [a]. *)
Lemma run_pair {S E A} (m : result E A * S) a : m.1 = a → m = (a, m.2).
Proof. destruct m. by intros <-. Qed.

(** *** Inversion of successful runs *)

Section monad.
Context {S E : Type}.
Implicit Types s : S.

Lemma bind_ok {A B} (m : M S E A) (k : A → M S E B) s b s' :
  (m ≫= k) s = (Ok b, s') ↔ ∃ a s1, m s = (Ok a, s1) ∧ k a s1 = (Ok b, s').
Proof.
  unfold mbind, M_bind. destruct (m s) as [[a|e] s1] eqn:Hm.
  - split; [eauto|]. by intros (?&?&[= <- <-]&?).
  - split; [done|]. by intros (?&?&?&?).
Qed.

Lemma ret_ok {A} (a b : A) s s' :
  (mret a : M S E A) s = (Ok b, s') ↔ b = a ∧ s' = s.
Proof. unfold mret, M_ret. split; [by intros [= -> ->]|by intros [-> ->]]. Qed.

Lemma raise_ok {A} (e : E) (a : A) s s' : (raise e : M S E A) s = (Ok a, s') ↔ False.
Proof. done. Qed.

Lemma gets_ok {A} (f : S → A) a s s' :
  (gets f : M S E A) s = (Ok a, s') ↔ a = f s ∧ s' = s.
Proof. unfold gets. split; [by intros [= -> ->]|by intros [-> ->]]. Qed.

Lemma modify_ok (f : S → S) u s s' :
  (modify f : M S E unit) s = (Ok u, s') ↔ s' = f s.
Proof. unfold modify. destruct u. split; [by intros [= ->]|by intros ->]. Qed.

Lemma raise_if_ok c (e : E) u s s' :
  (raise_if c e : M S E unit) s = (Ok u, s') ↔ c = false ∧ s' = s.
Proof.
  unfold raise_if, raise, mret, M_ret. destruct c, u; split; try naive_solver.
Qed.

Lemma get_or_raise_ok {A} (f : S → option A) (e : E) a s s' :
  get_or_raise f e s = (Ok a, s') ↔ f s = Some a ∧ s' = s.
Proof. unfold get_or_raise. destruct (f s); naive_solver. Qed.

Lemma when_ok c (m : M S E unit) u s s' :
  when c m s = (Ok u, s') ↔ (c = true ∧ m s = (Ok u, s')) ∨ (c = false ∧ s' = s).
Proof.
  unfold when, mret, M_ret. destruct c, u; naive_solver.
Qed.

Lemma reraise_ok {E1 A} (f : E1 → E) (m : M S E1 A) a s s' :
  reraise f m s = (Ok a, s') ↔ m s = (Ok a, s').
Proof. unfold reraise. destruct (m s) as [[?|?] ?]; naive_solver. Qed.

Lemma transaction_ok {A} (m : M S E A) a s s' :
  transaction m s = (Ok a, s') ↔ m s = (Ok a, s').
Proof. unfold transaction. destruct (m s) as [[?|?] ?]; naive_solver. Qed.

(** What a transaction leaves behind when it raises: nothing. *)
Lemma transaction_raise {A} (m : M S E A) e s s' :
  transaction m s = (Raise e, s') → s' = s.
Proof. unfold transaction. destruct (m s) as [[?|?] ?]; naive_solver. Qed.

(** A loop keeps what each iteration keeps. *)
Lemma for_each_ind {A} (P : S → Prop) (f : A → M S E unit) l :
  (∀ x s u s', x ∈ l → P s → f x s = (Ok u, s') → P s') →
  ∀ s u s', P s → for_each f l s = (Ok u, s') → P s'.
Proof.
  induction l as [|x l IH]; intros Hf s u s' HP Hrun; simpl in Hrun.
  - by apply ret_ok in Hrun as [_ ->].
  - apply bind_ok in Hrun as (v & s1 & Hx & Hl).
    eapply (IH ltac:(intros; eapply Hf; [by right|..]; done)); [|done].
    eapply Hf; [by left|done|done].
Qed.
End monad.

(** Take a successful run apart, one primitive at a time. *)
Ltac run_step :=
  match goal with
  | H : (_ ≫= _) _ = (Ok _, _) |- _ =>
      apply bind_ok in H as (? & ? & ? & ?)
  | H : mret _ _ = (Ok _, _) |- _ => apply ret_ok in H as [? ?]
  | H : raise _ _ = (Ok _, _) |- _ => by apply raise_ok in H
  | H : gets _ _ = (Ok _, _) |- _ => apply gets_ok in H as [? ?]
  | H : modify _ _ = (Ok _, _) |- _ => apply modify_ok in H
  | H : raise_if _ _ _ = (Ok _, _) |- _ => apply raise_if_ok in H as [? ?]
  | H : get_or_raise _ _ _ = (Ok _, _) |- _ => apply get_or_raise_ok in H as [? ?]
  | H : when _ _ _ = (Ok _, _) |- _ => apply when_ok in H as [[? ?]|[? ?]]
  | H : reraise _ _ _ = (Ok _, _) |- _ => apply reraise_ok in H
  end.
Ltac run_inv := repeat (run_step; subst).

(** ** Record updates

    [r <| f := v |>] is [r] with field [f] replaced; the setter is derived from
    the record's eta expansion, listed once per record in an [Eta] instance. *)

Class Eta (R : Type) : Type := eta : R → R.
#[global] Hint Mode Eta ! : typeclass_instances.

Class Setter {R T : Type} (proj : R → T) : Type := set_field : (T → T) → R → R.
#[global] Arguments set_field {R T} proj {_} f r : simpl nomatch.

Ltac derive_setter proj :=
  match type of proj with
  | ?R → ?T =>
      let inst := constr:(ltac:(typeclasses eauto) : Eta R) in
      let body := eval hnf in inst in
      match eval pattern proj in body with
      | ?g _ =>
          let t := eval cbv beta in
            (fun (f : T → T) => g (fun r : R => f (proj r))) in
          exact t
      end
  end.
#[global] Hint Extern 1 (Setter ?proj) => derive_setter proj : typeclass_instances.

Declare Scope record_scope.
#[global] Open Scope record_scope.
Notation "r <| p := v |>" := (set_field p (fun _ => v) r)
  (at level 1, left associativity, p at level 9, v at level 200,
   format "r <| p  :=  v |>") : record_scope.
Notation "r <| p ::= f |>" := (set_field p f r)
  (at level 1, left associativity, p at level 9, f at level 200,
   format "r <| p  ::=  f |>") : record_scope.

(** ** Tables

    A table is a finite map from its integer primary key.  A [SELECT ... WHERE]
    without [ORDER BY] is modelled in primary-key order (the order both
    back ends produce here); [ORDER BY id DESC] is its reverse. *)

Section tables.
Context {R : Type}.
Implicit Types t : gmap Z R.

Definition key_le : relation (Z * R) := λ x y, x.1 ≤ y.1.
#[global] Instance key_le_dec : RelDecision key_le.
Proof. intros x y. unfold key_le. apply _. Defined.
#[local] Instance key_le_total : Total key_le.
Proof. intros x y. unfold key_le. lia. Qed.
#[local] Instance key_le_trans : Transitive key_le.
Proof. intros x y z. unfold key_le. lia. Qed.

Definition table_rows t : list (Z * R) := merge_sort key_le (map_to_list t).

(** [select(R).where(p).order_by(R.id)] *)
Definition select (p : Z → R → bool) t : list (Z * R) :=
  List.filter (λ kr, p kr.1 kr.2) (table_rows t).

(** [.limit(1)] / [session.scalar] *)
Definition select_first (p : Z → R → bool) t : option (Z * R) := head (select p t).

(** [.order_by(R.id.desc()).limit(1)] *)
Definition select_last (p : Z → R → bool) t : option (Z * R) := last (select p t).

(** [.order_by(key.desc(), R.id.desc()).limit(1)] *)
Definition select_latest (key : R → Z) (p : Z → R → bool) t : option (Z * R) :=
  foldl (λ best kr,
    match best with
    | Some b => if key b.2 <=? key kr.2 then Some kr else best
    | None => Some kr
    end) None (select p t).

(** The key the database hands out for a new row. *)
Definition next_id t : Z := map_fold (λ i _ m, Z.max (i + 1) m) 1 t.

Lemma elem_of_select p t i r :
  (i, r) ∈ select p t ↔ t !! i = Some r ∧ p i r = true.
Proof.
  unfold select, table_rows. rewrite list_elem_of_In, filter_In, <- list_elem_of_In.
  rewrite merge_sort_Permutation, elem_of_map_to_list. done.
Qed.

Lemma select_first_Some p t i r :
  select_first p t = Some (i, r) → t !! i = Some r ∧ p i r = true.
Proof.
  unfold select_first. intros H%head_Some_elem_of. by apply elem_of_select.
Qed.

Lemma select_first_None p t :
  select_first p t = None ↔ ∀ i r, t !! i = Some r → p i r = false.
Proof.
  unfold select_first. rewrite head_None. split.
  - intros Hnil i r Hi. destruct (p i r) eqn:Hp; [|done].
    assert ((i, r) ∈ select p t) as Hin by by apply elem_of_select.
    rewrite Hnil in Hin. by apply not_elem_of_nil in Hin.
  - intros Hall. destruct (select p t) as [|[i r] l] eqn:Hs; [done|].
    assert ((i, r) ∈ select p t) as [Hi Hp]%elem_of_select by (rewrite Hs; left).
    by rewrite (Hall i r Hi) in Hp.
Qed.

Lemma select_last_Some p t i r :
  select_last p t = Some (i, r) → t !! i = Some r ∧ p i r = true.
Proof.
  unfold select_last. intros H%last_Some_elem_of. by apply elem_of_select.
Qed.

Lemma select_last_None p t :
  select_last p t = None ↔ ∀ i r, t !! i = Some r → p i r = false.
Proof.
  rewrite <- select_first_None. unfold select_last, select_first.
  rewrite last_None, head_None. done.
Qed.

Lemma foldl_latest (key : R → Z) (l : list (Z * R)) best :
  match foldl (λ best kr,
    match best with
    | Some b => if key b.2 <=? key kr.2 then Some kr else best
    | None => Some kr
    end) best l with
  | Some b => (b ∈ l ∨ best = Some b) ∧
              (∀ x, x ∈ l → key x.2 ≤ key b.2) ∧
              (∀ b0, best = Some b0 → key b0.2 ≤ key b.2)
  | None => l = [] ∧ best = None
  end.
Proof.
  revert best. induction l as [|x l IH]; intros best; simpl.
  - destruct best as [b|]; [|done].
    split; [by right|]. split; [by intros ? ?%not_elem_of_nil|]. by intros ? [= <-].
  - specialize (IH (match best with
      | Some b => if key b.2 <=? key x.2 then Some x else best | None => Some x end)).
    destruct (foldl _ _ l) as [b|].
    + destruct IH as (Hin & Hall & Hbest). split.
      { destruct Hin as [Hin|Hb]; [left; by right|].
        destruct best as [b0|].
        - destruct (key b0.2 <=? key x.2); [|by right]. left. injection Hb as ->. left.
        - left. injection Hb as ->. left. }
      split.
      * intros y [->|Hy]%elem_of_cons; [|by apply Hall].
        destruct best as [b0|]; [|by apply Hbest].
        destruct (Z.leb_spec (key b0.2) (key x.2)); [by apply Hbest|].
        assert (key b0.2 ≤ key b.2) by by apply Hbest. lia.
      * intros b0 ->. destruct (Z.leb_spec (key b0.2) (key x.2)); [|by apply Hbest].
        assert (key x.2 ≤ key b.2) by by apply Hbest. lia.
    + destruct IH as [_ Hn]. destruct best as [b0|]; [|done].
      by destruct (key b0.2 <=? key x.2).
Qed.

Lemma select_latest_Some key p t i r :
  select_latest key p t = Some (i, r) →
  t !! i = Some r ∧ p i r = true ∧
  ∀ j r', t !! j = Some r' → p j r' = true → key r' ≤ key r.
Proof.
  intros H. pose proof (foldl_latest key (select p t) None) as Hf.
  unfold select_latest in H. rewrite H in Hf.
  destruct Hf as ([Hin|?] & Hall & _); [|done].
  apply elem_of_select in Hin as [Hi Hp]. split; [done|]. split; [done|].
  intros j r' Hj Hp'. apply (Hall (j, r')). by apply elem_of_select.
Qed.

Lemma select_latest_None key p t :
  select_latest key p t = None ↔ ∀ i r, t !! i = Some r → p i r = false.
Proof.
  rewrite <- select_first_None. unfold select_first, select_latest.
  pose proof (foldl_latest key (select p t) None) as Hf.
  rewrite head_None. split.
  - intros H. rewrite H in Hf. by destruct Hf.
  - intros H. by rewrite H.
Qed.

Lemma select_NoDup p t : NoDup (select p t).*1.
Proof.
  unfold select, table_rows.
  assert (NoDup (merge_sort key_le (map_to_list t)).*1) as H.
  { rewrite merge_sort_Permutation. apply NoDup_fst_map_to_list. }
  induction (merge_sort key_le (map_to_list t)) as [|[i r] l IH]; simpl; [done|].
  apply NoDup_cons in H as [Hni Hl].
  destruct (p i r); simpl; [|by apply IH].
  apply NoDup_cons. split; [|by apply IH].
  intros ([j r'] & Heq & Hin)%list_elem_of_fmap. simpl in Heq. subst j.
  apply list_elem_of_In, filter_In in Hin as [Hin _]. apply Hni.
  apply list_elem_of_fmap. exists (i, r'). split; [done|]. by apply list_elem_of_In.
Qed.

Lemma next_id_gt t i r : t !! i = Some r → i < next_id t.
Proof.
  unfold next_id. revert i r. apply (map_fold_weak_ind
    (λ m t, ∀ i r, t !! i = Some r → i < m)).
  - intros i r H. by rewrite lookup_empty in H.
  - intros j x t' m _ IH i r. rewrite lookup_insert.
    case_decide; [lia|]. intros ?%IH. lia.
Qed.

Lemma next_id_fresh t : t !! next_id t = None.
Proof.
  destruct (t !! next_id t) eqn:H; [|done]. apply next_id_gt in H. lia.
Qed.

(** A new row comes last. *)
Definition key_lt : relation (Z * R) := λ x y, x.1 < y.1.
#[local] Instance key_lt_antisymm : AntiSymm (=) key_lt.
Proof. intros x y. unfold key_lt. lia. Qed.

Lemma sorted_keys (l : list (Z * R)) :
  NoDup l.*1 → StronglySorted key_le l → StronglySorted key_lt l.
Proof.
  induction l as [|x l IH]; intros Hnd Hs; [constructor|].
  apply NoDup_cons in Hnd as [Hx Hnd]. apply StronglySorted_inv in Hs as [Hs Hall].
  constructor; [by apply IH|]. apply Forall_forall. intros y Hy.
  rewrite Forall_forall in Hall. specialize (Hall y Hy). unfold key_le, key_lt in *.
  assert (x.1 ≠ y.1); [|lia]. intros Heq. apply Hx. rewrite Heq.
  by apply list_elem_of_fmap_2.
Qed.

Lemma table_rows_snoc t r :
  table_rows (<[next_id t := r]> t) = table_rows t ++ [(next_id t, r)].
Proof.
  assert (∀ t', StronglySorted key_lt (table_rows t')) as Hsorted.
  { intros t'. unfold table_rows. apply sorted_keys.
    - rewrite merge_sort_Permutation. apply NoDup_fst_map_to_list.
    - apply StronglySorted_merge_sort; apply _. }
  apply (StronglySorted_unique key_lt); [apply Hsorted| |].
  - apply StronglySorted_app_2; [|apply Hsorted|repeat constructor].
    intros [i x] y Hi Hy. apply list_elem_of_singleton in Hy as ->.
    unfold table_rows in Hi. rewrite merge_sort_Permutation in Hi.
    apply elem_of_map_to_list, next_id_gt in Hi. done.
  - unfold table_rows. rewrite !merge_sort_Permutation, map_to_list_insert
      by apply next_id_fresh. by rewrite Permutation_cons_append.
Qed.

Lemma select_snoc p t r :
  select p (<[next_id t := r]> t)
  = select p t ++ (if p (next_id t) r then [(next_id t, r)] else []).
Proof.
  unfold select. rewrite table_rows_snoc, List.filter_app. simpl.
  by destruct (p (next_id t) r).
Qed.
End tables.

(** ** Sorting *)

(** A stable insertion sort: [sorted(l, key=...)] for the order [leb] of the keys. *)
Fixpoint insert_by {T} (leb : T → T → bool) (x : T) (l : list T) : list T :=
  match l with
  | [] => [x]
  | y :: l' => if leb x y then x :: l else y :: insert_by leb x l'
  end.
Definition sort_by {T} (leb : T → T → bool) (l : list T) : list T := foldr (insert_by leb) [] l.

Lemma insert_by_perm {T} (leb : T → T → bool) x l : insert_by leb x l ≡ₚ x :: l.
Proof.
  induction l as [|y l IH]; simpl; [done|]. destruct (leb x y); [done|]. rewrite IH. constructor.
Qed.

Lemma sort_by_perm {T} (leb : T → T → bool) l : sort_by leb l ≡ₚ l.
Proof. induction l as [|x l IH]; simpl; [done|]. by rewrite insert_by_perm, IH. Qed.

(** For an order that is total and transitive the result is sorted. *)
Lemma insert_by_sorted {T} (leb : T → T → bool) x l :
  (∀ a b, leb a b = true ∨ leb b a = true) →
  (∀ a b c, leb a b = true → leb b c = true → leb a c = true) →
  StronglySorted (λ a b, leb a b = true) l → StronglySorted (λ a b, leb a b = true) (insert_by leb x l).
Proof.
  intros Htot Htrans. induction 1 as [|y l Hs IH Hall]; simpl; [repeat constructor|].
  destruct (leb x y) eqn:Hxy.
  - constructor; [by constructor|]. constructor; [done|]. eapply Forall_impl; [done|]. eauto.
  - constructor; [done|]. rewrite insert_by_perm. constructor; [|done].
    by destruct (Htot x y); [congruence|].
Qed.

Lemma sort_by_sorted {T} (leb : T → T → bool) l :
  (∀ a b, leb a b = true ∨ leb b a = true) →
  (∀ a b c, leb a b = true → leb b c = true → leb a c = true) →
  StronglySorted (λ a b, leb a b = true) (sort_by leb l).
Proof.
  intros Htot Htrans. induction l as [|x l IH]; simpl; [constructor|]. by apply insert_by_sorted.
Qed.

(** ** Sums over a table *)

Section sums.
Context {R : Type}.
Implicit Types (t : gmap Z R) (f : R → Z).

Definition table_sum f t : Z := map_fold (λ _ r acc, f r + acc) 0 t.

Lemma table_sum_empty f : table_sum f ∅ = 0.
Proof. apply map_fold_empty. Qed.

Lemma table_sum_new f t i r :
  t !! i = None → table_sum f (<[i := r]> t) = f r + table_sum f t.
Proof. intros Hi. unfold table_sum. rewrite map_fold_insert_L; [done|intros; lia|done]. Qed.

Lemma table_sum_delete f t i r :
  t !! i = Some r → table_sum f t = f r + table_sum f (delete i t).
Proof. intros Hi. unfold table_sum. rewrite (map_fold_delete_L _ _ i r t); [done|intros; lia|done]. Qed.

Lemma table_sum_update f t i r r' :
  t !! i = Some r → table_sum f (<[i := r']> t) = table_sum f t - f r + f r'.
Proof.
  intros Hi. rewrite (table_sum_delete f t i r Hi).
  rewrite <- insert_delete_eq, table_sum_new by apply lookup_delete_eq. lia.
Qed.

Lemma table_sum_nonneg f t :
  (∀ i r, t !! i = Some r → 0 ≤ f r) → 0 ≤ table_sum f t.
Proof.
  unfold table_sum. revert t. apply (map_fold_weak_ind
    (λ s t, (∀ i r, t !! i = Some r → 0 ≤ f r) → 0 ≤ s)); [lia|].
  intros i r t s Hi IH Hall.
  assert (0 ≤ f r) by (eapply Hall; apply lookup_insert_eq).
  assert (0 ≤ s); [|lia]. apply IH. intros j r' Hj. apply (Hall j).
  rewrite lookup_insert_ne; [done|]. congruence.
Qed.
End sums.

(** ** Strings

    The program's codes and keys are ASCII; [str.strip] and [str.lower] are
    modelled on that range. *)

Definition is_space (a : Ascii.ascii) : bool :=
  let n := Ascii.nat_of_ascii a in
  ((9 <=? n) && (n <=? 13) || (28 <=? n) && (n <=? 32))%nat.

Definition lower_ascii (a : Ascii.ascii) : Ascii.ascii :=
  let n := Ascii.nat_of_ascii a in
  if ((65 <=? n) && (n <=? 90))%nat then Ascii.ascii_of_nat (n + 32) else a.

Fixpoint py_lower (s : string) : string :=
  match s with
  | EmptyString => EmptyString
  | String a s' => String (lower_ascii a) (py_lower s')
  end.

Fixpoint lstrip (s : string) : string :=
  match s with
  | EmptyString => EmptyString
  | String a s' => if is_space a then lstrip s' else s
  end.

Fixpoint rstrip (s : string) : string :=
  match s with
  | EmptyString => EmptyString
  | String a s' =>
      match rstrip s' with
      | EmptyString => if is_space a then EmptyString else String a EmptyString
      | s'' => String a s''
      end
  end.

Definition py_strip (s : string) : string := rstrip (lstrip s).

(** The truth value of a string and of an optional string. *)
Definition str_truthy (s : string) : bool := negb (bool_decide (s = ""%string)).
Definition opt_truthy (s : option string) : bool :=
  match s with Some s => str_truthy s | None => false end.

(** [x or y] on optional strings *)
Definition str_or (x y : option string) : option string :=
  if opt_truthy x then x else y.

Lemma append_assoc (s1 s2 s3 : string) : ((s1 +:+ s2) +:+ s3 = s1 +:+ (s2 +:+ s3))%string.
Proof.
  induction s1 as [|a s1 IH]; [done|].
  change ((String a s1 +:+ s2) +:+ s3)%string with (String a ((s1 +:+ s2) +:+ s3)). by rewrite IH.
Qed.

Lemma append_nil (s : string) : (s +:+ "" = s)%string.
Proof.
  induction s as [|a s IH]; [done|].
  change (String a s +:+ "")%string with (String a (s +:+ "")). by rewrite IH.
Qed.

Lemma alter_as_insert {R} (f : R → R) (m : gmap Z R) i r :
  m !! i = Some r → alter f i m = <[i := f r]> m.
Proof.
  intros Hi. apply map_eq. intros j. rewrite lookup_alter, lookup_insert.
  case_decide; [subst; by rewrite Hi|done].
Qed.

Lemma alter_none {R} (f : R → R) (m : gmap Z R) i :
  m !! i = None → alter f i m = m.
Proof.
  intros Hi. apply map_eq. intros j. rewrite lookup_alter.
  case_decide; [subst; by rewrite Hi|done].
Qed.

(** Split a conjunction of boolean guards held in a hypothesis. *)
Ltac bools :=
  repeat match goal with
  | H : (_ && _) = true |- _ => apply andb_true_iff in H as [? ?]
  | H : (_ || _) = false |- _ => apply orb_false_iff in H as [? ?]
  | H : negb _ = true |- _ => apply negb_true_iff in H
  | H : negb _ = false |- _ => apply negb_false_iff in H
  | H : bool_decide _ = true |- _ => apply bool_decide_eq_true in H
  | H : bool_decide _ = false |- _ => apply bool_decide_eq_false in H
  | H : (_ <? _) = true |- _ => apply Z.ltb_lt in H
  | H : (_ <? _) = false |- _ => apply Z.ltb_ge in H
  | H : (_ <=? _) = true |- _ => apply Z.leb_le in H
  | H : (_ <=? _) = false |- _ => apply Z.leb_gt in H
  end.

(** ** Computations that only read *)

Class ReadOnly {S E A} (m : M S E A) : Prop := read_only s : (m s).2 = s.
#[global] Hint Mode ReadOnly - - - ! : typeclass_instances.

Section read_only.
Context {S E : Type}.

#[export] Instance ro_ret {A} (a : A) : ReadOnly (mret a : M S E A).
Proof. done. Qed.
#[export] Instance ro_raise {A} (e : E) : ReadOnly (raise e : M S E A).
Proof. done. Qed.
#[export] Instance ro_gets {A} (f : S → A) : ReadOnly (gets f : M S E A).
Proof. done. Qed.
#[export] Instance ro_raise_if c (e : E) : ReadOnly (raise_if c e : M S E unit).
Proof. by destruct c. Qed.
#[export] Instance ro_get_or_raise {A} (f : S → option A) (e : E) :
  ReadOnly (get_or_raise f e).
Proof. intros s. unfold get_or_raise. by destruct (f s). Qed.
#[export] Instance ro_when c (m : M S E unit) : ReadOnly m → ReadOnly (when c m).
Proof. by destruct c. Qed.
#[export] Instance ro_bind {A B} (m : M S E A) (k : A → M S E B) :
  ReadOnly m → (∀ a, ReadOnly (k a)) → ReadOnly (m ≫= k).
Proof.
  intros Hm Hk s. unfold mbind, M_bind. specialize (Hm s).
  destruct (m s) as [[a|e] s1]; simpl in *; subst; [apply Hk|done].
Qed.

Lemma read_only_ok {A} (m : M S E A) `{!ReadOnly m} s a s' :
  m s = (Ok a, s') → s' = s.
Proof. intros Hm. pose proof (@read_only S E A m _ s) as H. by rewrite Hm in H. Qed.

Lemma read_only_raise {A} (m : M S E A) `{!ReadOnly m} s e s' :
  m s = (Raise e, s') → s' = s.
Proof. intros Hm. pose proof (@read_only S E A m _ s) as H. by rewrite Hm in H. Qed.

(** Where a sequence raised. *)
Lemma bind_raise {A B} (m : M S E A) (k : A → M S E B) s e s' :
  (m ≫= k) s = (Raise e, s') ↔
  m s = (Raise e, s') ∨ ∃ a s1, m s = (Ok a, s1) ∧ k a s1 = (Raise e, s').
Proof.
  unfold mbind, M_bind. destruct (m s) as [[a|e1] s1] eqn:Hm.
  - split; [by eauto|]. intros [?|(?&?&[= <- <-]&?)]; [congruence|done].
  - split; [intros [= <- <-]; by left|]. intros [[= <- <-]|(?&?&?&?)]; [done|congruence].
Qed.

(** A guard passes exactly when its condition is false. *)
Lemma bind_raise_if {B} c (e : E) (k : unit → M S E B) s :
  (raise_if c e ≫= k) s = if c then (Raise e, s) else k tt s.
Proof. by destruct c. Qed.

Lemma bind_get_or_raise {A B} (f : S → option A) (e : E) (k : A → M S E B) s :
  (get_or_raise f e ≫= k) s = match f s with Some a => k a s | None => (Raise e, s) end.
Proof. unfold mbind, M_bind, get_or_raise. by destruct (f s). Qed.

Lemma bind_ret {A B} (a : A) (k : A → M S E B) s : (mret a ≫= k) s = k a s.
Proof. done. Qed.

Lemma bind_gets {A B} (f : S → A) (k : A → M S E B) s :
  (gets f ≫= k) s = k (f s) s.
Proof. done. Qed.

Lemma bind_raised {A B} (m : M S E A) (k : A → M S E B) s e s1 :
  m s = (Raise e, s1) → (m ≫= k) s = (Raise e, s1).
Proof. intros Hm. unfold mbind, M_bind. by rewrite Hm. Qed.

Lemma bind_run {A B} (m : M S E A) (k : A → M S E B) s a s1 :
  m s = (Ok a, s1) → (m ≫= k) s = k a s1.
Proof. intros Hm. unfold mbind, M_bind. by rewrite Hm. Qed.
End read_only.

(** ** Computations that leave a part of the state alone *)

Class Keeps {S T E A} (part : S → T) (m : M S E A) : Prop :=
  keeps s : part (m s).2 = part s.
#[global] Hint Mode Keeps - - - - ! ! : typeclass_instances.

Section keeps.
Context {S T E : Type} (part : S → T).

#[export] Instance keeps_read_only {A} (m : M S E A) : ReadOnly m → Keeps part m | 9.
Proof. intros Hm s. by rewrite Hm. Qed.
#[export] Instance keeps_bind {A B} (m : M S E A) (k : A → M S E B) :
  Keeps part m → (∀ a, Keeps part (k a)) → Keeps part (m ≫= k).
Proof.
  intros Hm Hk s. unfold mbind, M_bind. specialize (Hm s).
  destruct (m s) as [[a|e] s1]; simpl in *; [by rewrite Hk|done].
Qed.
#[export] Instance keeps_when c (m : M S E unit) : Keeps part m → Keeps part (when c m).
Proof. by destruct c. Qed.
#[export] Instance keeps_for_each {A} (f : A → M S E unit) l :
  (∀ x, Keeps part (f x)) → Keeps part (for_each f l).
Proof. intros Hf. induction l as [|x l IH]; simpl; apply _. Qed.

Lemma keeps_ok {A} (m : M S E A) `{!Keeps part m} s r s' : m s = (r, s') → part s' = part s.
Proof. intros Hm. pose proof (keeps (part := part) (m := m) s) as Hk. by rewrite Hm in Hk. Qed.
End keeps.
#[export] Hint Extern 1 (Keeps _ (modify _)) => intros ?; reflexivity : typeclass_instances.

(** ** Gates

    [Gate m p]: the computation [m] is a guard.  It lets the caller through
    exactly when [p] holds, raises otherwise, and never writes. *)

Class Gate {S E} (m : M S E unit) (p : S → bool) : Prop :=
  gate_run s : (p s = true ∧ m s = (Ok tt, s)) ∨ (p s = false ∧ ∃ e, m s = (Raise e, s)).

Section gates.
Context {S E : Type}.
Implicit Types m : M S E unit.

Lemma gate_ok m p `{!Gate m p} s u s' : m s = (Ok u, s') ↔ p s = true ∧ s' = s.
Proof.
  destruct u. destruct (gate_run (m := m) s) as [[-> ->]|(-> & e & ->)]; naive_solver.
Qed.

Lemma gate_raise m p `{!Gate m p} s e s' : m s = (Raise e, s') → p s = false ∧ s' = s.
Proof.
  destruct (gate_run (m := m) s) as [[-> ->]|(-> & e' & ->)]; naive_solver.
Qed.

(** A guard in front of a computation. *)
Lemma gate_cases {B} m p (k : unit → M S E B) s `{!Gate m p} :
  (p s = true ∧ (m ≫= k) s = k tt s) ∨ (p s = false ∧ ∃ e, (m ≫= k) s = (Raise e, s)).
Proof.
  unfold mbind, M_bind.
  destruct (gate_run (m := m) s) as [[-> ->]|(-> & e & ->)]; eauto.
Qed.

#[export] Instance gate_ret : Gate (mret tt : M S E unit) (λ _, true).
Proof. by left. Qed.

#[export] Instance gate_raise_if c (e : E) : Gate (raise_if c e) (λ _ : S, negb c).
Proof. intros s. destruct c; [right; eauto|by left]. Qed.

#[export] Instance gate_bind m1 p1 m2 p2 :
  Gate m1 p1 → Gate m2 p2 → Gate (m1 ≫= λ _, m2) (λ s, p1 s && p2 s).
Proof.
  intros H1 H2 s. unfold mbind, M_bind.
  destruct (H1 s) as [[-> ->]|(-> & e & ->)]; [apply H2|right; eauto].
Qed.

#[export] Instance gate_when c m p : Gate m p → Gate (when c m) (λ s, negb c || p s).
Proof. intros Hm s. destruct c; [apply Hm|by left]. Qed.

#[export] Instance gate_gets {A} (f : S → A) (k : A → M S E unit) p :
  (∀ a, Gate (k a) (p a)) → Gate (gets f ≫= k) (λ s, p (f s) s).
Proof. intros Hk s. apply Hk. Qed.

#[export] Instance gate_get_or_raise {A} (f : S → option A) (e : E) k p :
  (∀ a, Gate (k a) (p a)) →
  Gate (get_or_raise f e ≫= k) (λ s, match f s with Some a => p a s | None => false end).
Proof.
  intros Hk s. unfold mbind, M_bind, get_or_raise.
  destruct (f s); [apply Hk|right; eauto].
Qed.

Lemma gate_ext m p q : Gate m p → (∀ s, p s = q s) → Gate m q.
Proof. intros Hm Hpq s. rewrite <- Hpq. apply Hm. Qed.
End gates.

(** Run the goal's leading gate: it passes, or it raises [e]. *)
Ltac gate_case H e :=
  match goal with
  | |- context [(?m ≫= ?k) ?s] =>
      let Hg := fresh in
      pose proof (gate_cases m _ k s) as Hg; cbv beta in Hg;
      destruct Hg as [[H ->]|(H & e & ->)]
  end.

(** [negb c || p], the boolean of [if c: check p], as an implication. *)
Lemma implb_true (c p : bool) : negb c || p = true ↔ (c = true → p = true).
Proof. destruct c, p; naive_solver. Qed.

Lemma table_sum_ge {R} (f : R → Z) (t : gmap Z R) i r :
  (∀ j r', t !! j = Some r' → 0 ≤ f r') → t !! i = Some r → f r ≤ table_sum f t.
Proof.
  intros Hpos Hi. rewrite (table_sum_delete f t i r Hi).
  assert (0 ≤ table_sum f (delete i t)); [|lia].
  apply table_sum_nonneg. intros j r' [_ Hj]%lookup_delete_Some. by apply (Hpos j).
Qed.
