(* ===== verification/Text.v ===== *)
(** * Text: slugs and words (slugify of domain/models.py)

    A slug is made by replacing every character that is no letter or digit by a dash and
    then squeezing the dashes, in a loop that replaces two dashes by one until there are no
    two.  The loop is run with the length of the text as fuel, which is enough
    ([squeeze_done]); what it computes is the list of words of the text, joined by dashes
    ([slugify_words]).

    A character is a code point below 256, so slugs are modelled for every text of Latin-1,
    with Python's classes of these characters.  [py_split] and the functions of the other
    files that fold case or strip read ASCII.  In [slugify] that makes no difference: the two
    spaces beyond ASCII, U+0085 and U+00A0, become dashes, which are dropped at the ends. *)
From S2P Require Import Prelude.
#[global] Open Scope Z_scope.

(** ** Words between white space *)

(** [s.split()] *)
Fixpoint py_split_from (word s : string) : list string :=
  match s with
  | EmptyString => if str_truthy word then [word] else []
  | String a s' =>
      if is_space a then (if str_truthy word then [word] else []) ++ py_split_from "" s'
      else py_split_from (word +:+ String a "") s'
  end.
Definition py_split (s : string) : list string := py_split_from "" s.

(** [" ".join(l)] *)
Fixpoint join_words (l : list string) : string :=
  match l with
  | [] => ""
  | [w] => w
  | w :: l' => w +:+ " " +:+ join_words l'
  end.

(** ** Slugs *)

Definition dash : Ascii.ascii := Ascii.ascii_of_nat 45.

(** [c.isalnum()] below 256: the letters and digits of ASCII, the letters from [À] on but
    the multiplication and division signs, the ordinal indicators and the micro sign, the
    superscript digits and the vulgar fractions *)
Definition is_alnum (a : Ascii.ascii) : bool :=
  let n := Ascii.nat_of_ascii a in
  ((48 <=? n) && (n <=? 57) || (65 <=? n) && (n <=? 90) || (97 <=? n) && (n <=? 122)
   || (192 <=? n) && negb (n =? 215) && negb (n =? 247)
   || existsb (Nat.eqb n) [170; 178; 179; 181; 185; 186; 188; 189; 190])%nat.

(** [c.lower()] below 256: besides ASCII, the letters from [À] to [Þ] *)
Definition lower_latin1 (a : Ascii.ascii) : Ascii.ascii :=
  let n := Ascii.nat_of_ascii a in
  if ((192 <=? n) && (n <=? 222) && negb (n =? 215))%nat then Ascii.ascii_of_nat (n + 32) else lower_ascii a.

(** [c.lower() if c.isalnum() else "-"] *)
Definition slug_char (a : Ascii.ascii) : Ascii.ascii := if is_alnum a then lower_latin1 a else dash.

Fixpoint map_string (f : Ascii.ascii → Ascii.ascii) (s : string) : string :=
  match s with
  | EmptyString => EmptyString
  | String a s' => String (f a) (map_string f s')
  end.

(** ["--" in slug] *)
Fixpoint has_double_dash (s : string) : bool :=
  match s with
  | String a ((String b _) as s') => Ascii.eqb a dash && Ascii.eqb b dash || has_double_dash s'
  | _ => false
  end.

(** [slug.replace("--", "-")]: from the left, without overlap *)
Fixpoint halve_dashes (s : string) : string :=
  match s with
  | String a ((String b s'') as s') =>
      if Ascii.eqb a dash && Ascii.eqb b dash then String dash (halve_dashes s'')
      else String a (halve_dashes s')
  | _ => s
  end.

(** [while "--" in slug: slug = slug.replace("--", "-")]; [None] when the fuel runs out *)
Fixpoint squeeze (fuel : nat) (s : string) : option string :=
  if has_double_dash s then
    match fuel with
    | O => None
    | S fuel' => squeeze fuel' (halve_dashes s)
    end
  else Some s.

(** [slug.strip("-")] *)
Fixpoint lstrip_dash (s : string) : string :=
  match s with
  | EmptyString => EmptyString
  | String a s' => if Ascii.eqb a dash then lstrip_dash s' else s
  end.

Fixpoint rstrip_dash (s : string) : string :=
  match s with
  | EmptyString => EmptyString
  | String a s' =>
      match rstrip_dash s' with
      | EmptyString => if Ascii.eqb a dash then EmptyString else String a EmptyString
      | s'' => String a s''
      end
  end.

Definition strip_dash (s : string) : string := rstrip_dash (lstrip_dash s).

Definition slugify (value : string) : string :=
  let chars := map_string slug_char (py_strip value) in
  match squeeze (String.length chars) chars with
  | Some slug => strip_dash slug
  | None => ""
  end.

(** ** The loop ends *)

Lemma string_pairs (P : string → Prop) :
  P "" → (∀ a, P (String a "")) → (∀ a b s, P s → P (String b s) → P (String a (String b s))) → ∀ s, P s.
Proof.
  intros H0 H1 H2. assert (∀ s, P s ∧ ∀ a, P (String a s)) as H; [|intros s; apply H].
  induction s as [|b s [IH1 IH2]]; [by split|]. split; [by apply IH2|]. intros a. by apply H2.
Qed.

Lemma halve_cons a b s :
  halve_dashes (String a (String b s))
  = if Ascii.eqb a dash && Ascii.eqb b dash then String dash (halve_dashes s) else String a (halve_dashes (String b s)).
Proof. done. Qed.

Lemma double_cons a b s :
  has_double_dash (String a (String b s)) = Ascii.eqb a dash && Ascii.eqb b dash || has_double_dash (String b s).
Proof. done. Qed.

Lemma halve_length s :
  (String.length (halve_dashes s) ≤ String.length s)%nat
  ∧ (has_double_dash s = true → (String.length (halve_dashes s) < String.length s)%nat).
Proof.
  induction s as [|a|a b s [IH1 IH2] [IH3 IH4]] using string_pairs; [done|done|].
  rewrite halve_cons, double_cons.
  destruct (Ascii.eqb a dash && Ascii.eqb b dash); simpl String.length in *; [lia|].
  split; [lia|]. intros Hdd. specialize (IH4 Hdd). lia.
Qed.

(** The fuel [slugify] gives the loop is enough. *)
Lemma squeeze_done s fuel :
  (String.length s ≤ fuel)%nat → ∃ t, squeeze fuel s = Some t ∧ has_double_dash t = false.
Proof.
  revert s. induction fuel as [|fuel IH]; intros s Hlen.
  - destruct s; simpl in Hlen; [|lia]. by exists "".
  - cbn [squeeze]. destruct (has_double_dash s) eqn:Hd; [|by exists s].
    destruct (halve_length s) as [_ Hlt]. specialize (Hlt Hd). apply IH. lia.
Qed.

(** More fuel changes nothing. *)
Lemma squeeze_more s t fuel fuel' : squeeze fuel s = Some t → (fuel ≤ fuel')%nat → squeeze fuel' s = Some t.
Proof.
  revert s fuel'. induction fuel as [|fuel IH]; intros s fuel' Hs Hle.
  - cbn in Hs. destruct fuel'; cbn; by destruct (has_double_dash s).
  - destruct fuel' as [|fuel']; [lia|]. cbn in Hs |- *. destruct (has_double_dash s); [|done]. apply IH; [done|lia].
Qed.

(** ** Words *)

(** The maximal runs of characters other than dashes, the word read so far first *)
Fixpoint dash_words_from (word s : string) : list string :=
  match s with
  | EmptyString => if str_truthy word then [word] else []
  | String a s' =>
      if Ascii.eqb a dash then (if str_truthy word then [word] else []) ++ dash_words_from "" s'
      else dash_words_from (word +:+ String a "") s'
  end.
Definition dash_words (s : string) : list string := dash_words_from "" s.

(** ["-".join(l)] *)
Fixpoint join_dash (l : list string) : string :=
  match l with
  | [] => ""
  | [w] => w
  | w :: l' => w +:+ String dash (join_dash l')
  end.

Lemma dash_words_pair word s : dash_words_from word (String dash (String dash s)) = dash_words_from word (String dash s).
Proof. done. Qed.

Lemma halve_words s : ∀ word, dash_words_from word (halve_dashes s) = dash_words_from word s.
Proof.
  induction s as [|a|a b s IH1 IH2] using string_pairs; intros word; [done|done|].
  rewrite halve_cons. destruct (Ascii.eqb a dash && Ascii.eqb b dash) eqn:Hd.
  - apply andb_true_iff in Hd as [->%Ascii.eqb_eq ->%Ascii.eqb_eq]. rewrite dash_words_pair.
    cbn. by rewrite IH1.
  - cbn [dash_words_from]. by destruct (Ascii.eqb a dash); rewrite IH2.
Qed.

Lemma squeeze_words fuel s t : squeeze fuel s = Some t → dash_words t = dash_words s.
Proof.
  revert s. induction fuel as [|fuel IH]; intros s; cbn [squeeze]; destruct (has_double_dash s); try done;
    try (by intros [= ->]). intros Ht. rewrite (IH _ Ht). apply halve_words.
Qed.

Lemma lstrip_words s : dash_words (lstrip_dash s) = dash_words s.
Proof.
  induction s as [|a s IH]; [done|]. cbn [lstrip_dash]. destruct (Ascii.eqb a dash) eqn:Ha; [|done].
  rewrite IH. unfold dash_words. cbn. by rewrite Ha.
Qed.

Lemma rstrip_words s : ∀ word, dash_words_from word (rstrip_dash s) = dash_words_from word s.
Proof.
  induction s as [|a s IH]; intros word; [done|]. cbn [rstrip_dash].
  destruct (rstrip_dash s) as [|b t] eqn:Hr.
  - destruct (Ascii.eqb a dash) eqn:Ha; cbn [dash_words_from]; rewrite Ha, <- IH; cbn; [by rewrite app_nil_r|done].
  - cbn [dash_words_from]. by destruct (Ascii.eqb a dash); rewrite <- IH.
Qed.

(** ** What is left when nothing is to squeeze *)

Lemma lstrip_double s : has_double_dash s = false → has_double_dash (lstrip_dash s) = false.
Proof.
  induction s as [|a s IH]; [done|]. intros Hs. cbn [lstrip_dash]. destruct (Ascii.eqb a dash); [|done].
  apply IH. destruct s as [|b s]; [done|]. rewrite double_cons in Hs. by apply orb_false_iff in Hs as [_ ?].
Qed.

Lemma rstrip_cons a s :
  rstrip_dash (String a s) = String a (rstrip_dash s)
  ∨ rstrip_dash s = "" ∧ a = dash ∧ rstrip_dash (String a s) = "".
Proof.
  cbn [rstrip_dash]. destruct (rstrip_dash s); [|by left]. destruct (Ascii.eqb a dash) eqn:Ha; [|by left].
  right. by apply Ascii.eqb_eq in Ha.
Qed.

Lemma rstrip_head a s : a ≠ dash → rstrip_dash (String a s) = String a (rstrip_dash s).
Proof. intros Ha. by destruct (rstrip_cons a s) as [?|(_ & ? & _)]. Qed.

Lemma rstrip_double s : has_double_dash s = false → has_double_dash (rstrip_dash s) = false.
Proof.
  induction s as [|a|a b s _ IH] using string_pairs; intros Hs; [done|by cbn; destruct (Ascii.eqb a dash)|].
  rewrite double_cons in Hs. apply orb_false_iff in Hs as [Hab Hs]. specialize (IH Hs).
  destruct (rstrip_cons a (String b s)) as [->|(_ & _ & ->)]; [|done].
  destruct (rstrip_cons b s) as [Hb|(_ & _ & Hb)]; rewrite Hb in IH |- *; [|done].
  by rewrite double_cons, Hab, IH.
Qed.

Lemma rstrip_dash_idem s : rstrip_dash (rstrip_dash s) = rstrip_dash s.
Proof.
  induction s as [|a s IH]; [done|]. destruct (rstrip_cons a s) as [Hr|(_ & _ & ->)]; [|done].
  rewrite Hr. destruct (rstrip_dash s) as [|b t] eqn:Hs; cbn [rstrip_dash] in Hr |- *; rewrite ?Hs in Hr; [done|].
  cbn [rstrip_dash] in IH. by rewrite IH.
Qed.

Lemma dash_words_some word s : word ≠ "" → dash_words_from word s ≠ [].
Proof.
  revert word. induction s as [|a s IH]; intros word Hw; cbn [dash_words_from].
  - by destruct word.
  - destruct (Ascii.eqb a dash); [by destruct word|]. apply IH. by destruct word.
Qed.

Lemma join_dash_cons w l : l ≠ [] → join_dash (w :: l) = w +:+ String dash (join_dash l).
Proof. by destruct l. Qed.

Lemma join_words_of s : ∀ word, word ≠ "" → has_double_dash s = false → rstrip_dash s = s →
  join_dash (dash_words_from word s) = word +:+ s.
Proof.
  induction s as [|a|a b s IH1 IH2] using string_pairs; intros word Hw Hs Hr.
  - destruct word; [done|]. cbn. by rewrite append_nil.
  - cbn in Hr |- *. destruct (Ascii.eqb a dash); [done|]. by destruct word.
  - rewrite double_cons in Hs. apply orb_false_iff in Hs as [Hab Hs].
    assert (rstrip_dash (String b s) = String b s) as Hr'.
    { destruct (rstrip_cons a (String b s)) as [Hc|(_ & _ & Hc)]; rewrite Hc in Hr; [by injection Hr|done]. }
    change (dash_words_from word (String a (String b s))) with
      (if Ascii.eqb a dash then (if str_truthy word then [word] else []) ++ dash_words_from "" (String b s)
       else dash_words_from (word +:+ String a "") (String b s)).
    destruct (Ascii.eqb a dash) eqn:Ha.
    + simpl in Hab. apply Ascii.eqb_eq in Ha as ->.
      assert (dash_words_from "" (String b s) = dash_words_from (String b "") s) as Hd by by cbn; rewrite Hab.
      rewrite Hd. replace (str_truthy word) with true by by destruct word.
      change ([word] ++ ?l) with (word :: l). rewrite join_dash_cons by by apply dash_words_some.
      rewrite IH1; [done|done|by destruct s; [|rewrite double_cons in Hs; apply orb_false_iff in Hs as [_ ?]]|].
      destruct (rstrip_cons b s) as [Hc|(_ & _ & Hc)]; rewrite Hc in Hr'; [by injection Hr'|done].
    + rewrite IH2; [|by destruct word|done|done]. by rewrite append_assoc.
Qed.

Lemma lstrip_dash_head s : lstrip_dash s = "" ∨ ∃ a t, a ≠ dash ∧ lstrip_dash s = String a t.
Proof.
  induction s as [|a s IH]; [by left|]. cbn [lstrip_dash]. destruct (Ascii.eqb a dash) eqn:Ha; [done|].
  right. exists a, s. split; [|done]. by apply Ascii.eqb_neq.
Qed.

Lemma strip_is_join s : has_double_dash s = false → strip_dash s = join_dash (dash_words s).
Proof.
  intros Hs. unfold strip_dash.
  transitivity (join_dash (dash_words (rstrip_dash (lstrip_dash s)))).
  2: { unfold dash_words. rewrite rstrip_words. f_equal. apply lstrip_words. }
  pose proof (rstrip_double _ (lstrip_double _ Hs)) as Hd. pose proof (rstrip_dash_idem (lstrip_dash s)) as Hi.
  destruct (lstrip_dash_head s) as [->|(a & t & Ha & Hl)]; [done|]. rewrite Hl in Hd, Hi |- *.
  rewrite rstrip_head in Hd, Hi |- * by done. unfold dash_words. cbn [dash_words_from].
  rewrite (proj2 (Ascii.eqb_neq a dash)) by done. symmetry. apply join_words_of; [done| |].
  - destruct (rstrip_dash t); [done|]. rewrite double_cons in Hd. by apply orb_false_iff in Hd as [_ ?].
  - rewrite rstrip_head in Hi by done. by injection Hi.
Qed.

(** ** The words of a slug *)

Fixpoint all_chars (p : Ascii.ascii → bool) (s : string) : bool :=
  match s with
  | EmptyString => true
  | String a s' => p a && all_chars p s'
  end.

(** A letter or digit in lower case *)
Definition slug_alnum (a : Ascii.ascii) : bool := is_alnum a && Ascii.eqb (lower_latin1 a) a.

Definition slug_word (w : string) : bool := str_truthy w && all_chars slug_alnum w.

(** [s.split("-")] *)
Fixpoint split_dash (s : string) : list string :=
  match s with
  | EmptyString => [""]
  | String a s' =>
      if Ascii.eqb a dash then "" :: split_dash s'
      else match split_dash s' with
           | w :: l => String a w :: l
           | [] => [String a ""]
           end
  end%string.

(** [[a-z0-9]] *)
Definition pattern_alnum (a : Ascii.ascii) : bool :=
  let n := Ascii.nat_of_ascii a in ((48 <=? n) && (n <=? 57) || (97 <=? n) && (n <=? 122))%nat.

(** [SLUG_PATTERN.fullmatch]: [^[a-z0-9]+(?:-[a-z0-9]+)*$] *)
Definition slug_pattern (s : string) : bool :=
  forallb (λ w, str_truthy w && all_chars pattern_alnum w) (split_dash s).

Lemma byte_cases (p : Ascii.ascii → bool) :
  forallb p (map Ascii.ascii_of_nat (seq 0 256)) = true → ∀ a, p a = true.
Proof.
  intros Hall a. rewrite forallb_forall in Hall. apply Hall. rewrite <- (Ascii.ascii_nat_embedding a).
  apply in_map, in_seq. pose proof (Ascii.nat_ascii_bounded a). lia.
Qed.

Lemma slug_char_spec a :
  if is_alnum a then slug_alnum (slug_char a) = true ∧ slug_char a ≠ dash else slug_char a = dash.
Proof.
  pose proof (byte_cases (λ a, if is_alnum a then slug_alnum (slug_char a) && negb (Ascii.eqb (slug_char a) dash)
                               else Ascii.eqb (slug_char a) dash) eq_refl a) as H.
  cbn beta in H. destruct (is_alnum a); [|by apply Ascii.eqb_eq]. bools. split; [done|]. by apply Ascii.eqb_neq.
Qed.

Lemma slug_alnum_char a : slug_alnum a = true → slug_char a = a ∧ a ≠ dash.
Proof.
  intros Ha. pose proof (byte_cases (λ a, negb (slug_alnum a) || Ascii.eqb (slug_char a) a && negb (Ascii.eqb a dash)) eq_refl a) as H.
  cbn beta in H. rewrite Ha in H. simpl in H. bools. split; [by apply Ascii.eqb_eq|by apply Ascii.eqb_neq].
Qed.

Lemma space_is_dash a : is_space a = true → slug_char a = dash.
Proof.
  intros Ha. pose proof (byte_cases (λ a, negb (is_space a) || Ascii.eqb (slug_char a) dash) eq_refl a) as H.
  cbn beta in H. rewrite Ha in H. by apply Ascii.eqb_eq.
Qed.

(** Stripping white space first makes no difference. *)
Lemma words_strip v : dash_words (map_string slug_char (py_strip v)) = dash_words (map_string slug_char v).
Proof.
  unfold py_strip, dash_words. transitivity (dash_words_from "" (map_string slug_char (lstrip v))).
  - generalize (lstrip v) ""%string. clear v. intros s. induction s as [|a s IH]; intros word; [done|].
    cbn [rstrip]. destruct (rstrip s) as [|b t] eqn:Hr.
    + cbn [map_string] in IH. destruct (is_space a) eqn:Ha; cbn [map_string dash_words_from].
      * rewrite (space_is_dash a Ha), <- IH. cbn. by rewrite app_nil_r.
      * destruct (Ascii.eqb (slug_char a) dash); by rewrite <- IH.
    + cbn [map_string dash_words_from] in IH |- *. destruct (Ascii.eqb (slug_char a) dash); by rewrite <- IH.
  - induction v as [|a v IH]; [done|]. cbn [lstrip]. destruct (is_space a) eqn:Ha; [|done].
    rewrite IH. cbn [map_string dash_words_from]. by rewrite (space_is_dash a Ha).
Qed.

Lemma slugify_words v : slugify v = join_dash (dash_words (map_string slug_char v)).
Proof.
  unfold slugify. set (chars := map_string slug_char (py_strip v)).
  destruct (squeeze_done chars (String.length chars)) as (t & Ht & Hd); [lia|]. rewrite Ht.
  rewrite strip_is_join by done. by rewrite (squeeze_words _ _ _ Ht), <- words_strip.
Qed.

Lemma all_chars_app p s t : all_chars p (s +:+ t) = all_chars p s && all_chars p t.
Proof.
  induction s as [|a s IH]; [done|]. change (all_chars p (String a s +:+ t)) with (p a && all_chars p (s +:+ t)).
  by rewrite IH, andb_assoc.
Qed.

Lemma slug_words v word : all_chars slug_alnum word = true →
  Forall (λ w, slug_word w = true) (dash_words_from word (map_string slug_char v)).
Proof.
  revert word. induction v as [|a v IH]; intros word Hw; cbn [map_string dash_words_from].
  - destruct word; repeat constructor. exact Hw.
  - pose proof (slug_char_spec a) as Ha. destruct (is_alnum a).
    + destruct Ha as [Ha Hd]. rewrite (proj2 (Ascii.eqb_neq _ _) Hd). apply IH.
      rewrite all_chars_app, Hw. cbn. by rewrite Ha.
    + rewrite Ha, Ascii.eqb_refl. apply Forall_app. split; [|by apply IH].
      destruct word; repeat constructor. exact Hw.
Qed.

Lemma split_dash_word w s : all_chars slug_alnum w = true →
  split_dash (w +:+ s) = match split_dash s with x :: l => (w +:+ x) :: l | [] => [w] end.
Proof.
  induction w as [|a w IH]; intros Hw.
  - change ("" +:+ s)%string with s. destruct (split_dash s) eqn:Hs; [|done]. destruct s; cbn in Hs; [done|].
    destruct (Ascii.eqb _ dash); [done|]. by destruct (split_dash s).
  - change (all_chars slug_alnum (String a w)) with (slug_alnum a && all_chars slug_alnum w) in Hw.
    apply andb_true_iff in Hw as [Ha Hw].
    change (split_dash (String a w +:+ s)) with (split_dash (String a (w +:+ s))). cbn [split_dash].
    destruct (slug_alnum_char a Ha) as [_ Hd]. rewrite (proj2 (Ascii.eqb_neq _ _) Hd), (IH Hw).
    by destruct (split_dash s).
Qed.

Lemma split_join l : l ≠ [] → Forall (λ w, slug_word w = true) l → split_dash (join_dash l) = l.
Proof.
  intros Hne Hl. induction Hl as [|w l Hw _ IH]; [done|]. apply andb_true_iff in Hw as [_ Hw].
  destruct l as [|w' l].
  - cbn [join_dash]. rewrite <- (append_nil w) at 1. rewrite split_dash_word by done. cbn. by rewrite append_nil.
  - rewrite join_dash_cons, split_dash_word by done. cbn [split_dash]. rewrite Ascii.eqb_refl, IH by done.
    by rewrite append_nil.
Qed.

Lemma words_word w s : all_chars slug_alnum w = true → ∀ word,
  dash_words_from word (map_string slug_char (w +:+ s)) = dash_words_from (word +:+ w) (map_string slug_char s).
Proof.
  induction w as [|a w IH]; intros Hw word; [by rewrite append_nil|].
  change (all_chars slug_alnum (String a w)) with (slug_alnum a && all_chars slug_alnum w) in Hw.
  apply andb_true_iff in Hw as [Ha Hw]. destruct (slug_alnum_char a Ha) as [Hc Hd].
  change (String a w +:+ s)%string with (String a (w +:+ s)). cbn [map_string dash_words_from].
  rewrite Hc, (proj2 (Ascii.eqb_neq _ _) Hd), (IH Hw). by rewrite append_assoc.
Qed.

Lemma words_join l : Forall (λ w, slug_word w = true) l → dash_words (map_string slug_char (join_dash l)) = l.
Proof.
  intros Hl. unfold dash_words. induction Hl as [|w l Hw Hl IH]; [done|].
  assert (str_truthy w = true) as Ht by (apply andb_true_iff in Hw as [? _]; done).
  apply andb_true_iff in Hw as [_ Hw]. destruct l as [|w' l].
  - cbn [join_dash]. rewrite <- (append_nil w) at 1. rewrite words_word by done.
    change ("" +:+ w)%string with w. cbn [map_string dash_words_from]. by rewrite Ht.
  - rewrite join_dash_cons by done. rewrite words_word by done. cbn [map_string dash_words_from].
    change ("" +:+ w)%string with w. change (slug_char dash) with dash. by rewrite Ascii.eqb_refl, IH, Ht.
Qed.

(** [c.isascii()] *)
Definition is_ascii (a : Ascii.ascii) : bool := (Ascii.nat_of_ascii a <? 128)%nat.

Lemma ascii_alnum a : slug_alnum a = true → pattern_alnum a = is_ascii a.
Proof.
  intros Ha. pose proof (byte_cases (λ a, negb (slug_alnum a) || Bool.eqb (pattern_alnum a) (is_ascii a)) eq_refl a) as H.
  cbn beta in H. rewrite Ha in H. by apply Bool.eqb_prop.
Qed.

Lemma ascii_word w : slug_word w = true → str_truthy w && all_chars pattern_alnum w = all_chars is_ascii w.
Proof.
  intros [-> Hw]%andb_true_iff. simpl. induction w as [|a w IH]; [done|]. cbn in Hw |- *.
  apply andb_true_iff in Hw as [Ha Hw]. by rewrite ascii_alnum, IH.
Qed.

Lemma ascii_join l : all_chars is_ascii (join_dash l) = forallb (all_chars is_ascii) l.
Proof.
  induction l as [|w [|w' l] IH]; [done|cbn; by rewrite andb_true_r|].
  rewrite join_dash_cons, all_chars_app by done.
  change (all_chars is_ascii (String dash (join_dash (w' :: l)))) with (all_chars is_ascii (join_dash (w' :: l))).
  by rewrite IH.
Qed.

Lemma pattern_join l : l ≠ [] → Forall (λ w, slug_word w = true) l →
  slug_pattern (join_dash l) = all_chars is_ascii (join_dash l).
Proof.
  intros Hne Hl. unfold slug_pattern. rewrite split_join, ascii_join by done.
  clear Hne. induction Hl as [|w l Hw _ IH]; [done|]. cbn [forallb]. by rewrite ascii_word, IH.
Qed.

(** C22: For every text of Latin-1, [slugify] returns, and its result is canonical.  The loop
    that squeezes the dashes ends within as many rounds as the text has characters, and more
    fuel changes nothing; the slug is the words of the text (its maximal runs of letters and
    digits, in lower case) joined by single dashes; a slug is its own slug; and it matches
    the pattern that the service catalog demands of a slug exactly when it is not empty and
    has no letter or digit outside ASCII. *)
Theorem slugify_is_canonical v fuel :
  let chars := map_string slug_char (py_strip v) in
  (∃ slug, squeeze (String.length chars) chars = Some slug
     ∧ ((String.length chars ≤ fuel)%nat → squeeze fuel chars = Some slug) ∧ slugify v = strip_dash slug)
  ∧ slugify v = join_dash (dash_words (map_string slug_char v))
  ∧ Forall (λ w, slug_word w = true) (dash_words (map_string slug_char v))
  ∧ slugify (slugify v) = slugify v
  ∧ (slug_pattern (slugify v) = true ↔ slugify v ≠ "" ∧ all_chars is_ascii (slugify v) = true).
Proof.
  intros chars. assert (Forall (λ w, slug_word w = true) (dash_words (map_string slug_char v))) as Hw
    by by apply slug_words.
  split_and!; [| |done| |].
  - destruct (squeeze_done chars (String.length chars)) as (t & Ht & _); [lia|]. exists t. split_and!; [done| |].
    + by apply squeeze_more.
    + unfold slugify. fold chars. by rewrite Ht.
  - apply slugify_words.
  - rewrite (slugify_words (slugify v)), (slugify_words v). by rewrite words_join.
  - rewrite slugify_words. destruct (dash_words _) as [|w l] eqn:Hl; [by split; [|intros [? _]]|].
    rewrite pattern_join by done. split; [|by intros [_ ?]]. intros Ha. split; [|done].
    inversion Hw as [|? ? Hword _]; subst. by destruct w, l.
Qed.

(** An accented letter is a letter, and [slugify] keeps it: the slug of a draft service, or of a
    market, may not match the pattern of the catalog's slugs. *)
Example accented_slug :
  let coffee e := ("Caf" +:+ String e " 24")%string in
  slugify (coffee (Ascii.ascii_of_nat 201)) = ("caf" +:+ String (Ascii.ascii_of_nat 233) "-24")%string
  ∧ slug_pattern (slugify (coffee (Ascii.ascii_of_nat 201))) = false.
Proof. split; vm_compute; reflexivity. Qed.

(** ** Splitting at white space *)

Lemma map_string_app f s t : map_string f (s +:+ t) = (map_string f s +:+ map_string f t)%string.
Proof.
  induction s as [|a s IH]; [done|].
  change (map_string f (String a s +:+ t)) with (String (f a) (map_string f (s +:+ t))). by rewrite IH.
Qed.

Lemma py_lower_map s : py_lower s = map_string lower_ascii s.
Proof. induction s as [|a s IH]; [done|]. cbn. by rewrite IH. Qed.

(** A word of [py_split] *)
Definition plain_word (w : string) : bool := str_truthy w && all_chars (λ a, negb (is_space a)) w.

Lemma split_from_plain s : ∀ word, all_chars (λ a, negb (is_space a)) word = true →
  Forall (λ w, plain_word w = true) (py_split_from word s).
Proof.
  induction s as [|a s IH]; intros word Hw; cbn [py_split_from].
  - destruct word; repeat constructor. exact Hw.
  - destruct (is_space a) eqn:Ha.
    + apply Forall_app. split; [|by apply IH]. destruct word; repeat constructor. exact Hw.
    + apply IH. rewrite all_chars_app, Hw. cbn. by rewrite Ha.
Qed.

Lemma split_plain s : Forall (λ w, plain_word w = true) (py_split s).
Proof. by apply split_from_plain. Qed.

Lemma split_from_word w s : all_chars (λ a, negb (is_space a)) w = true → ∀ word,
  py_split_from word (w +:+ s) = py_split_from (word +:+ w) s.
Proof.
  induction w as [|a w IH]; intros Hw word; [by rewrite append_nil|].
  change (all_chars _ (String a w)) with (negb (is_space a) && all_chars (λ a, negb (is_space a)) w) in Hw.
  apply andb_true_iff in Hw as [Ha%negb_true_iff Hw].
  change (String a w +:+ s)%string with (String a (w +:+ s)). cbn [py_split_from]. rewrite Ha, (IH Hw).
  by rewrite append_assoc.
Qed.

Lemma split_join_words l : Forall (λ w, plain_word w = true) l → py_split (join_words l) = l.
Proof.
  intros Hl. unfold py_split. induction Hl as [|w l Hw Hl IH]; [done|].
  apply andb_true_iff in Hw as [Ht Hw]. destruct l as [|w' l].
  - cbn [join_words]. rewrite <- (append_nil w) at 1. rewrite split_from_word by done.
    change ("" +:+ w)%string with w. cbn [py_split_from]. by rewrite Ht.
  - change (join_words (w :: w' :: l)) with (w +:+ String (Ascii.ascii_of_nat 32) (join_words (w' :: l)))%string.
    rewrite split_from_word by done. change ("" +:+ w)%string with w. cbn [py_split_from].
    change (is_space (Ascii.ascii_of_nat 32)) with true. cbn match. by rewrite IH, Ht.
Qed.

Lemma join_words_inj l l' : Forall (λ w, plain_word w = true) l → Forall (λ w, plain_word w = true) l' →
  join_words l = join_words l' → l = l'.
Proof. intros Hl Hl' He. by rewrite <- (split_join_words l), He, split_join_words. Qed.

(** Replacing characters, white space by white space, acts on the words one by one. *)
Section replace.
Context (f : Ascii.ascii → Ascii.ascii) (f_space : ∀ a, is_space a = true → is_space (f a) = true).

Lemma split_from_map s : ∀ word w',
  w' = map_string f word →
  flat_map (λ w, py_split (map_string f w)) (py_split_from word s)
  = py_split (w' +:+ map_string f s)%string.
Proof.
  assert (∀ u v a, is_space a = true → py_split (u +:+ String a v) = py_split u ++ py_split v) as Hspace.
  { intros u v a Ha. unfold py_split. enough (∀ word, py_split_from word (u +:+ String a v)
      = py_split_from word u ++ py_split_from "" v) by auto. induction u as [|b u IH]; intros word.
    - change ("" +:+ String a v)%string with (String a v). cbn [py_split_from]. by rewrite Ha.
    - change (String b u +:+ String a v)%string with (String b (u +:+ String a v)). cbn [py_split_from].
      destruct (is_space b); rewrite IH; [by rewrite app_assoc|done]. }
  induction s as [|a s IH]; intros word w' ->; cbn [py_split_from map_string].
  - rewrite append_nil. destruct word as [|b word]; [done|]. change (str_truthy (String b word)) with true. cbn [flat_map]. by rewrite app_nil_r.
  - destruct (is_space a) eqn:Ha.
    + rewrite flat_map_app, (IH "" "") by done. rewrite Hspace by by apply f_space.
      change ("" +:+ map_string f s)%string with (map_string f s).
      destruct word as [|b word]; [done|]. change (str_truthy (String b word)) with true. cbn [flat_map]. by rewrite app_nil_r.
    + rewrite (IH _ (map_string f (word +:+ String a ""))) by done. by rewrite map_string_app, append_assoc.
Qed.

Lemma split_map s : py_split (map_string f s) = flat_map (λ w, py_split (map_string f w)) (py_split s).
Proof. symmetry. exact (split_from_map s "" "" eq_refl). Qed.

Lemma split_map_cong s t : py_split s = py_split t → py_split (map_string f s) = py_split (map_string f t).
Proof. intros He. by rewrite (split_map s), (split_map t), He. Qed.
End replace.

Lemma split_strip s : py_split (py_strip s) = py_split s.
Proof.
  unfold py_strip, py_split. transitivity (py_split_from "" (lstrip s)).
  - generalize (lstrip s) ""%string. clear s. intros s. induction s as [|a s IH]; intros word; [done|].
    cbn [rstrip]. destruct (rstrip s) as [|b t] eqn:Hr; cbn [py_split_from] in IH |- *.
    + destruct (is_space a) eqn:Ha; cbn [py_split_from]; rewrite ?Ha, <- IH; cbn; [by rewrite app_nil_r|done].
    + destruct (is_space a); by rewrite <- IH.
  - induction s as [|a s IH]; [done|]. cbn [lstrip]. destruct (is_space a) eqn:Ha; [|done].
    rewrite IH. cbn [py_split_from]. by rewrite Ha.
Qed.

Lemma split_from_some s : ∀ word, word ≠ "" → py_split_from word s ≠ [].
Proof.
  induction s as [|a s IH]; intros word Hw; cbn [py_split_from]; [by destruct word|].
  destruct (is_space a); [by destruct word|]. apply IH. by destruct word.
Qed.

Lemma strip_some s : py_strip s ≠ "" → py_split s ≠ [].
Proof.
  intros Hs. rewrite <- split_strip. unfold py_strip in *. induction s as [|a s IH]; [done|]. cbn [lstrip] in *.
  destruct (is_space a) eqn:Ha; [by apply IH|].
  assert (∀ x, py_split (String a x) ≠ []) as Hx.
  { intros x. unfold py_split. cbn [py_split_from]. rewrite Ha. by apply split_from_some. }
  cbn [rstrip]. destruct (rstrip s); rewrite ?Ha; apply Hx.
Qed.

Lemma lower_split s : py_split s ≠ [] → py_split (py_lower s) ≠ [].
Proof.
  assert (∀ a, is_space (lower_ascii a) = is_space a) as Hsp.
  { intros a. apply eqb_prop. exact (byte_cases (λ a, eqb (is_space (lower_ascii a)) (is_space a)) eq_refl a). }
  intros Hs He. apply Hs. unfold py_split in *. revert He. clear Hs. generalize ""%string. induction s as [|a s IH]; intros word; [done|].
  cbn [py_lower py_split_from]. rewrite Hsp. destruct (is_space a); [|intros He].
  - intros [-> He]%app_nil. rewrite (IH _ He). done.
  - exfalso. revert He. apply split_from_some. by destruct word.
Qed.

Lemma lower_split_cong s t : py_split s = py_split t → py_split (py_lower s) = py_split (py_lower t).
Proof.
  rewrite !py_lower_map. apply split_map_cong. intros a Ha.
  pose proof (byte_cases (λ a, negb (is_space a) || is_space (lower_ascii a)) eq_refl a) as H. cbn beta in H.
  by rewrite Ha in H.
Qed.
