(* ===== verification/Services.v ===== *)
(** * Services: service families and the service catalog (services/service_catalog.py)

    The catalog is a configuration file of service definitions.  Loading validates each
    definition and then, across definitions, that no lookup key belongs to two services;
    the loaded catalog lists, searches and resolves free text, and makes a draft of a text
    it does not know.  [_resolve_service] of main.py is how a request gets its service.

    The parsing of YAML is left out: [load] starts from the parsed fields.  Unknown fields
    are rejected by the parser.  Text is ASCII, so [casefold] is [lower]. *)
From S2P Require Import Prelude Text.
#[global] Open Scope Z_scope.

(** ** domain/models.py *)

Record ServiceFamily : Type := {
  fam_id : string;
  fam_slug : option string;
  fam_display_name : string;
  fam_description : string;
  fam_seed_queries : list string;
  fam_negative_terms : list string;
  fam_intent_modifiers : list string;
  fam_negative_product_terms : list string;
  fam_provider_categories : list string;
  fam_regulated : bool;
  fam_enabled : bool
}.
#[export] Instance eta_ServiceFamily : Eta ServiceFamily := λ r,
  Build_ServiceFamily (fam_id r) (fam_slug r) (fam_display_name r) (fam_description r) (fam_seed_queries r)
    (fam_negative_terms r) (fam_intent_modifiers r) (fam_negative_product_terms r) (fam_provider_categories r)
    (fam_regulated r) (fam_enabled r).

(** The validator that runs after every construction *)
Definition default_slug (family : ServiceFamily) : ServiceFamily :=
  family <| fam_slug := if opt_truthy (fam_slug family) then fam_slug family else Some (slugify (fam_id family)) |>.

(** ** services/keywords.py *)

Definition DEFAULT_AD_HOC_INTENT_MODIFIERS : list string :=
  ["repair"; "replacement"; "installation"; "emergency"]%string.
Definition DEFAULT_NEGATIVE_PRODUCT_TERMS : list string := ["parts"; "kit"; "manual"; "lowes"; "home depot"]%string.

(** ** Normalized text *)

(** [" ".join(value.split())] *)
Definition squash (value : string) : string := join_words (py_split value).

Definition normalize_service_text (value : string) : string := squash (py_lower (py_strip value)).

Definition space : Ascii.ascii := Ascii.ascii_of_nat 32.

Definition word_break (a : Ascii.ascii) : Ascii.ascii :=
  if Ascii.eqb a (Ascii.ascii_of_nat 95) || Ascii.eqb a dash then space else a.

Definition _search_text (value : string) : string := normalize_service_text (map_string word_break value).

(** ** Definitions *)

Record CatalogServiceDefinition : Type := {
  cd_id : string;
  cd_slug : string;
  cd_display_name : string;
  cd_aliases : list string;
  cd_description : string;
  cd_seed_queries : list string;
  cd_negative_terms : list string;
  cd_intent_modifiers : list string;
  cd_negative_product_terms : list string;
  cd_provider_categories : list string;
  cd_regulated : bool;
  cd_enabled : bool
}.

#[export] Instance eta_CatalogServiceDefinition : Eta CatalogServiceDefinition := λ r,
  Build_CatalogServiceDefinition (cd_id r) (cd_slug r) (cd_display_name r) (cd_aliases r) (cd_description r)
    (cd_seed_queries r) (cd_negative_terms r) (cd_intent_modifiers r) (cd_negative_product_terms r)
    (cd_provider_categories r) (cd_regulated r) (cd_enabled r).

(** [STABLE_ID_PATTERN.fullmatch]: [^[a-z][a-z0-9_-]*$] *)
Definition id_rest (a : Ascii.ascii) : bool :=
  pattern_alnum a || Ascii.eqb a (Ascii.ascii_of_nat 95) || Ascii.eqb a dash.
Definition stable_id_pattern (value : string) : bool :=
  match value with
  | EmptyString => false
  | String a rest => let n := Ascii.nat_of_ascii a in ((97 <=? n) && (n <=? 122))%nat && all_chars id_rest rest
  end.

(** [None] is the ValueError. *)
Definition _validated_string_list (values : list string) : option (list string) :=
  let normalized_values := map squash values in
  if negb (forallb str_truthy normalized_values) then None
  else if bool_decide (NoDup (map normalize_service_text normalized_values)) then Some normalized_values
  else None.

(** The model strips every text ([str_strip_whitespace]), then checks it. *)
Definition validate_definition (raw : CatalogServiceDefinition) : option CatalogServiceDefinition :=
  let strings values := _validated_string_list (map py_strip values) in
  let id := py_strip (cd_id raw) in
  let slug := py_strip (cd_slug raw) in
  let display_name := py_strip (cd_display_name raw) in
  guard (stable_id_pattern id = true) ;; guard (slug_pattern slug = true) ;; guard (str_truthy display_name = true) ;;
  aliases ← strings (cd_aliases raw);
  guard (cd_seed_queries raw ≠ []) ;; seed_queries ← strings (cd_seed_queries raw);
  negative_terms ← strings (cd_negative_terms raw);
  intent_modifiers ← strings (cd_intent_modifiers raw);
  negative_product_terms ← strings (cd_negative_product_terms raw);
  guard (cd_provider_categories raw ≠ []) ;; provider_categories ← strings (cd_provider_categories raw);
  Some {| cd_id := id; cd_slug := slug; cd_display_name := display_name; cd_aliases := aliases;
          cd_description := py_strip (cd_description raw); cd_seed_queries := seed_queries;
          cd_negative_terms := negative_terms; cd_intent_modifiers := intent_modifiers;
          cd_negative_product_terms := negative_product_terms; cd_provider_categories := provider_categories;
          cd_regulated := cd_regulated raw; cd_enabled := cd_enabled raw |}.

Definition to_service_family (definition : CatalogServiceDefinition) : ServiceFamily :=
  default_slug {|
    fam_id := cd_id definition; fam_slug := Some (cd_slug definition); fam_display_name := cd_display_name definition;
    fam_description := cd_description definition; fam_seed_queries := cd_seed_queries definition;
    fam_negative_terms := cd_negative_terms definition; fam_intent_modifiers := cd_intent_modifiers definition;
    fam_negative_product_terms := cd_negative_product_terms definition;
    fam_provider_categories := cd_provider_categories definition; fam_regulated := cd_regulated definition;
    fam_enabled := cd_enabled definition |}.

(** ** The configuration *)

Inductive catalog_error : Type :=
| InvalidDefinition
| NoServices
| NoVersion
| DuplicateServiceId (id : string)
| DuplicateLookupKey (value owner id : string).

Definition lookup_values (service : CatalogServiceDefinition) : list string :=
  cd_id service :: cd_slug service :: cd_display_name service :: cd_aliases service.

(** The inner loop: the lookup keys of one service *)
Fixpoint claim_keys (id : string) (values : list string) (seen_lookup_keys : gmap string string)
    : result catalog_error (gmap string string) :=
  match values with
  | [] => Ok seen_lookup_keys
  | value :: values' =>
      let key := _search_text value in
      match seen_lookup_keys !! key with
      | Some owner =>
          if bool_decide (owner = id) then claim_keys id values' (<[key := id]> seen_lookup_keys)
          else Raise (DuplicateLookupKey value owner id)
      | None => claim_keys id values' (<[key := id]> seen_lookup_keys)
      end
  end.

Fixpoint unique_lookup_keys (services : list CatalogServiceDefinition) (seen_ids seen_lookup_keys : gmap string string)
    : result catalog_error unit :=
  match services with
  | [] => Ok tt
  | service :: services' =>
      let normalized_id := py_lower (cd_id service) in
      if bool_decide (is_Some (seen_ids !! normalized_id)) then Raise (DuplicateServiceId (cd_id service))
      else match claim_keys (cd_id service) (lookup_values service) seen_lookup_keys with
           | Ok seen_lookup_keys' =>
               unique_lookup_keys services' (<[normalized_id := cd_id service]> seen_ids) seen_lookup_keys'
           | Raise e => Raise e
           end
  end.

Definition validate_unique_lookup_keys (services : list CatalogServiceDefinition) : result catalog_error unit :=
  unique_lookup_keys services ∅ ∅.

(** ** The catalog *)

Record ServiceCatalog : Type := {
  sct_version : string;
  sct_services : list CatalogServiceDefinition;
  sct_id_index : gmap string CatalogServiceDefinition;
  sct_slug_index : gmap string CatalogServiceDefinition;
  sct_display_index : gmap string CatalogServiceDefinition;
  sct_alias_index : gmap string CatalogServiceDefinition
}.

(** [{key: service for ...}]: the last of two equal keys stays *)
Definition dict_of {T} (l : list (string * T)) : gmap string T := foldl (λ m kv, <[kv.1 := kv.2]> m) ∅ l.

Definition index_by (keys : CatalogServiceDefinition → list string) (services : list CatalogServiceDefinition)
    : gmap string CatalogServiceDefinition :=
  dict_of (flat_map (λ service, map (λ key, (key, service)) (keys service)) services).

Definition new_catalog (version : string) (services : list CatalogServiceDefinition) : ServiceCatalog := {|
  sct_version := version;
  sct_services := services;
  sct_id_index := index_by (λ service, [py_lower (cd_id service)]) services;
  sct_slug_index := index_by (λ service, [py_lower (cd_slug service)]) services;
  sct_display_index := index_by (λ service, [normalize_service_text (cd_display_name service)]) services;
  sct_alias_index := index_by (λ service, map normalize_service_text (cd_aliases service)) services |}.

(** [ServiceCatalog.from_path] after parsing *)
Definition load (version : string) (raw : list CatalogServiceDefinition) : result catalog_error ServiceCatalog :=
  match mapM validate_definition raw with
  | None => Raise InvalidDefinition
  | Some services =>
      if negb (str_truthy (py_strip version)) then Raise NoVersion
      else if bool_decide (services = []) then Raise NoServices
      else match validate_unique_lookup_keys services with
           | Ok _ => Ok (new_catalog (py_strip version) services)
           | Raise e => Raise e
           end
  end.

Inductive ServiceMatchKind : Type := match_id | match_slug | match_display_name | match_alias | match_draft.
#[export] Instance ServiceMatchKind_eq_dec : EqDecision ServiceMatchKind.
Proof. solve_decision. Defined.

Record CatalogServiceRecord : Type := {
  csr_catalog_version : string;
  csr_configured : bool;
  csr_aliases : list string;
  csr_service : ServiceFamily
}.

Record ServiceResolution : Type := {
  res_catalog_version : string;
  res_configured : bool;
  res_match_kind : ServiceMatchKind;
  res_query : string;
  res_service : ServiceFamily
}.

Definition catalog_record (catalog : ServiceCatalog) (definition : CatalogServiceDefinition) : CatalogServiceRecord := {|
  csr_catalog_version := sct_version catalog; csr_configured := true; csr_aliases := cd_aliases definition;
  csr_service := to_service_family definition |}.

(** Order of two texts, then of the next component *)
Definition str_leb (s t : string) : bool := bool_decide (s ≤ t)%string.
Definition by_name (x y : string * string) : bool :=
  if bool_decide (x.1 = y.1) then str_leb x.2 y.2 else str_leb x.1 y.1.

Definition service_order (x y : CatalogServiceDefinition) : bool :=
  by_name (normalize_service_text (cd_display_name x), cd_id x) (normalize_service_text (cd_display_name y), cd_id y).

Definition list_services (catalog : ServiceCatalog) (include_disabled : bool) : list CatalogServiceRecord :=
  map (catalog_record catalog)
    (sort_by service_order (List.filter (λ service, include_disabled || cd_enabled service) (sct_services catalog))).

(** [sub in s] *)
Definition py_in (sub s : string) : bool :=
  match String.index 0 sub s with Some _ => true | None => false end.

Definition searchable_values (service : CatalogServiceDefinition) : list string :=
  map _search_text (lookup_values service ++ cd_seed_queries service).

(** The rank of a service, [None] when it does not match *)
Definition match_rank (normalized_query : string) (service : CatalogServiceDefinition) : option Z :=
  let values := searchable_values service in
  if bool_decide (normalized_query ∈ values) then Some 0
  else if existsb (String.prefix normalized_query) values then Some 1
  else if existsb (λ value, forallb (λ token, bool_decide (token ∈ py_split value)) (py_split normalized_query)) values
  then Some 2
  else if existsb (py_in normalized_query) values then Some 3
  else None.

Definition search_order (x y : Z * CatalogServiceDefinition) : bool :=
  if x.1 =? y.1 then service_order x.2 y.2 else x.1 <? y.1.

Definition search_matches (catalog : ServiceCatalog) (normalized_query : string) (include_disabled : bool)
    : list (Z * CatalogServiceDefinition) :=
  omap (λ service,
    if negb include_disabled && negb (cd_enabled service) then None
    else (λ rank, (rank, service)) <$> match_rank normalized_query service) (sct_services catalog).

(** [None] is the ValueError of a limit below one. *)
Definition search (catalog : ServiceCatalog) (query : string) (limit : Z) (include_disabled : bool)
    : option (list CatalogServiceRecord) :=
  if limit <? 1 then None
  else
    let normalized_query := _search_text query in
    if negb (str_truthy normalized_query) then Some (take (Z.to_nat limit) (list_services catalog include_disabled))
    else Some (map (catalog_record catalog) (take (Z.to_nat limit)
                 (sort_by search_order (search_matches catalog normalized_query include_disabled))).*2).

(** The first candidate that is not [None] *)
Fixpoint first_match (candidates : list (option CatalogServiceDefinition * ServiceMatchKind))
    : option (CatalogServiceDefinition * ServiceMatchKind) :=
  match candidates with
  | [] => None
  | (Some definition, kind) :: _ => Some (definition, kind)
  | (None, _) :: candidates' => first_match candidates'
  end.

Definition resolve (catalog : ServiceCatalog) (query : string) : option ServiceResolution :=
  let normalized_query := normalize_service_text query in
  if negb (str_truthy normalized_query) then None
  else
    '(definition, kind) ← first_match
      [(sct_id_index catalog !! py_lower (py_strip query), match_id);
       (sct_slug_index catalog !! py_lower (py_strip query), match_slug);
       (sct_display_index catalog !! normalized_query, match_display_name);
       (sct_alias_index catalog !! normalized_query, match_alias)];
    Some {| res_catalog_version := sct_version catalog; res_configured := true; res_match_kind := kind;
            res_query := squash query; res_service := to_service_family definition |}.

(** [None] is the ValueError. *)
Definition create_draft (catalog : ServiceCatalog) (service_text : string) : option ServiceResolution :=
  let display_name := squash service_text in
  let draft_slug := slugify display_name in
  if negb (str_truthy display_name) || negb (str_truthy draft_slug) then None
  else Some {| res_catalog_version := sct_version catalog; res_configured := false; res_match_kind := match_draft;
               res_query := display_name;
               res_service := default_slug {|
                 fam_id := "draft-" +:+ draft_slug; fam_slug := Some draft_slug; fam_display_name := display_name;
                 fam_description := ""; fam_seed_queries := [display_name]; fam_negative_terms := [];
                 fam_intent_modifiers := []; fam_negative_product_terms := []; fam_provider_categories := [];
                 fam_regulated := false; fam_enabled := true |} |}.

(** ** main.py *)

(** [HTTPException(status_code=422)] is [None]. *)
Definition _resolve_service (catalog : ServiceCatalog) (service_id : option string) (service_text : string)
    (allow_draft : bool) : option ServiceResolution :=
  if opt_truthy service_id then resolve catalog (default "" service_id)
  else match resolve catalog service_text with
  | Some resolution => Some resolution
  | None =>
      if negb allow_draft then None
      else
        draft ← create_draft catalog service_text;
        Some {| res_catalog_version := res_catalog_version draft; res_configured := res_configured draft;
                res_match_kind := res_match_kind draft; res_query := res_query draft;
                res_service := (res_service draft)
                  <| fam_negative_terms := ["diy"; "jobs"; "salary"]%string |>
                  <| fam_intent_modifiers := DEFAULT_AD_HOC_INTENT_MODIFIERS |>
                  <| fam_negative_product_terms := DEFAULT_NEGATIVE_PRODUCT_TERMS |> |}
  end.
