(* ===== verification/ServicesTheorems.v ===== *)
(** * ServicesTheorems: a loaded catalog resolves every query to at most one service

    The check of the lookup keys compares them with underscores and dashes as blanks; the
    indexes compare identifiers and slugs without their case and names without their
    spacing.  Two keys an index takes for equal are equal to the check ([found_same_key]),
    so no query finds two services. *)
From S2P Require Import Prelude Text Services.
#[global] Open Scope Z_scope.

(** ** Keys *)

Lemma normalize_words v : normalize_service_text v = join_words (py_split (py_lower v)).
Proof.
  unfold normalize_service_text, squash. f_equal.
  apply lower_split_cong. apply split_strip.
Qed.

Lemma normalize_same v w : normalize_service_text v = normalize_service_text w ↔ py_split (py_lower v) = py_split (py_lower w).
Proof.
  rewrite !normalize_words. split; [|by intros ->]. apply join_words_inj; apply split_plain.
Qed.

Lemma normalize_some v : py_split v ≠ [] → str_truthy (normalize_service_text v) = true.
Proof.
  intros Hv%lower_split. rewrite normalize_words. pose proof (split_plain (py_lower v)) as Hp.
  destruct (py_split (py_lower v)) as [|w l]; [done|]. inversion Hp as [|? ? Hw _]; subst.
  apply andb_true_iff in Hw as [Hw _]. destruct w; [done|]. by destruct l.
Qed.

Lemma search_same v w : py_split (py_lower v) = py_split (py_lower w) → _search_text v = _search_text w.
Proof.
  intros He. unfold _search_text. rewrite !normalize_words. f_equal. rewrite !py_lower_map.
  assert (∀ s, map_string lower_ascii (map_string word_break s) = map_string word_break (py_lower s)) as Hcomm.
  { induction s as [|a s IH]; [done|]. cbn [map_string py_lower]. rewrite IH. f_equal. apply Ascii.eqb_eq.
    exact (byte_cases (λ a, Ascii.eqb (lower_ascii (word_break a)) (word_break (lower_ascii a))) eq_refl a). }
  rewrite !Hcomm. apply split_map_cong; [|done]. intros a Ha.
  pose proof (byte_cases (λ a, negb (is_space a) || is_space (word_break a)) eq_refl a) as H. cbn beta in H.
  by rewrite Ha in H.
Qed.

(** How a query finds a service *)
Definition found_by (q : string) (s : CatalogServiceDefinition) (kind : ServiceMatchKind) : Prop :=
  match kind with
  | match_id => py_lower (py_strip q) = py_lower (cd_id s)
  | match_slug => py_lower (py_strip q) = py_lower (cd_slug s)
  | match_display_name => normalize_service_text q = normalize_service_text (cd_display_name s)
  | match_alias => ∃ alias, alias ∈ cd_aliases s ∧ normalize_service_text q = normalize_service_text alias
  | match_draft => False
  end.

Lemma found_same_key q s kind : found_by q s kind → ∃ v, v ∈ lookup_values s ∧ py_split (py_lower q) = py_split (py_lower v).
Proof.
  assert (∀ v, py_lower (py_strip q) = py_lower v → py_split (py_lower q) = py_split (py_lower v)) as Hl.
  { intros v <-. symmetry. apply lower_split_cong, split_strip. }
  unfold lookup_values. destruct kind; simpl; [| | |intros (alias & Ha & Hq)|done].
  - intros Hq. exists (cd_id s). split; [by left|by apply Hl].
  - intros Hq. exists (cd_slug s). split; [right; by left|by apply Hl].
  - intros Hq. exists (cd_display_name s). split; [right; right; by left|by apply normalize_same].
  - exists alias. split; [by do 3 right|by apply normalize_same].
Qed.

(** ** Validation *)

Record definition_ok (s : CatalogServiceDefinition) : Prop := {
  ok_keys : ∀ v, v ∈ lookup_values s → py_split v ≠ [];
  ok_slug : slug_pattern (cd_slug s) = true
}.

Lemma string_list_ok values l : _validated_string_list values = Some l → ∀ v, v ∈ l → py_split v ≠ [].
Proof.
  unfold _validated_string_list. intros Hl v Hv. destruct (forallb str_truthy (map squash values)) eqn:Hb; [|done].
  simpl in Hl. case_bool_decide; [|done]. injection Hl as <-. rewrite forallb_forall in Hb.
  apply list_elem_of_In in Hv. specialize (Hb v Hv). apply in_map_iff in Hv as (x & <- & _).
  unfold squash in *. rewrite split_join_words by apply split_plain. intros He. by rewrite He in Hb.
Qed.

Lemma validate_ok raw s : validate_definition raw = Some s → definition_ok s.
Proof.
  unfold validate_definition. intros Hs. cbv zeta in Hs.
  repeat (apply bind_Some in Hs as (? & ? & Hs)). simplify_eq/=. repeat case_guard; try done.
  all: repeat match goal with H : mret _ = Some _ |- _ => clear H end.
  all: split; [|done]; unfold lookup_values; cbn; intros v [->|[->|[->|Hv]%elem_of_cons]%elem_of_cons]%elem_of_cons.
  all: try (eapply string_list_ok; [|exact Hv]; eassumption).
  all: rewrite split_strip; apply strip_some; intros He; by rewrite He in *.
Qed.

Lemma claim_keys_ok id values m m' : claim_keys id values m = Ok m' →
  (∀ v, v ∈ values → m' !! _search_text v = Some id) ∧ (∀ k o, m !! k = Some o → m' !! k = Some o).
Proof.
  revert m. induction values as [|v values IH]; intros m; cbn [claim_keys].
  { intros [= <-]. split; [|done]. by intros v ?%elem_of_nil. }
  intros Hrun. assert (claim_keys id values (<[_search_text v := id]> m) = Ok m'
    ∧ (∀ o, m !! _search_text v = Some o → o = id)) as [Hrest Howner].
  { destruct (m !! _search_text v) as [o|]; [|done]. case_bool_decide; [|done]. split; [done|]. by intros ? [= <-]. }
  destruct (IH _ Hrest) as [Hin Hkeep]. split.
  - intros w [->|Hw]%elem_of_cons; [|by apply Hin]. apply Hkeep. apply lookup_insert_eq.
  - intros k o Hk. apply Hkeep. destruct (decide (k = _search_text v)) as [->|Hne].
    + rewrite lookup_insert_eq. by rewrite (Howner _ Hk).
    + by rewrite lookup_insert_ne.
Qed.

Lemma unique_keys_ok services ids m : unique_lookup_keys services ids m = Ok tt →
  NoDup (map (λ s, py_lower (cd_id s)) services)
  ∧ (∀ s, s ∈ services → ids !! py_lower (cd_id s) = None)
  ∧ ∃ m' : gmap string string, (∀ s v, s ∈ services → v ∈ lookup_values s → m' !! _search_text v = Some (cd_id s))
      ∧ (∀ k o, m !! k = Some o → m' !! k = Some o).
Proof.
  revert ids m. induction services as [|s services IH]; intros ids m Hrun; cbn [unique_lookup_keys] in Hrun.
  { split_and!; [constructor|by intros s ?%elem_of_nil|]. exists m. split; [|done]. by intros s v ?%elem_of_nil. }
  case_bool_decide as Hid; [done|]. destruct (claim_keys (cd_id s) (lookup_values s) m) as [m1|] eqn:Hc; [|done].
  destruct (claim_keys_ok _ _ _ _ Hc) as [Hin Hkeep].
  destruct (IH _ _ Hrun) as (Hnd & Hfresh & m' & Hall & Hmono). split_and!.
  - simpl. constructor; [|done]. intros (s' & He & Hs')%list_elem_of_In%in_map_iff.
    apply list_elem_of_In in Hs'. specialize (Hfresh s' Hs'). by rewrite He, lookup_insert_eq in Hfresh.
  - intros s' [->|Hs']%elem_of_cons; [by apply eq_None_not_Some|].
    specialize (Hfresh s' Hs'). rewrite lookup_insert in Hfresh. by case_decide.
  - exists m'. split; [|by auto]. intros s' v [->|Hs']%elem_of_cons Hv; auto.
Qed.

(** Services with a key in common are the same. *)
Lemma one_owner services s s' v v' : validate_unique_lookup_keys services = Ok tt →
  s ∈ services → s' ∈ services → v ∈ lookup_values s → v' ∈ lookup_values s' →
  _search_text v = _search_text v' → s = s'.
Proof.
  intros Hrun Hs Hs' Hv Hv' He. destruct (unique_keys_ok _ _ _ Hrun) as (Hnd & _ & m & Hm & _).
  pose proof (Hm s v Hs Hv) as H1. pose proof (Hm s' v' Hs' Hv') as H2. rewrite He, H2 in H1. injection H1 as Hid.
  apply list_elem_of_lookup in Hs as [i Hi]. apply list_elem_of_lookup in Hs' as [j Hj].
  assert (i = j) as ->; [|by simplify_eq]. eapply NoDup_lookup; [exact Hnd| |].
  - rewrite list_lookup_fmap, Hi. done.
  - rewrite list_lookup_fmap, Hj. simpl. by rewrite Hid.
Qed.

(** ** Indexes *)

Lemma dict_of_some {T} (l : list (string * T)) k x : dict_of l !! k = Some x → (k, x) ∈ l.
Proof.
  unfold dict_of. assert (∀ m : gmap string T, foldl (λ m kv, <[kv.1 := kv.2]> m) m l !! k = Some x →
    m !! k = Some x ∨ (k, x) ∈ l) as Hgen.
  { induction l as [|[k' x'] l IH]; intros m Hm; [by left|]. apply IH in Hm as [Hm|Hm]; [|right; by right].
    apply lookup_insert_Some in Hm as [[<- <-]|[_ Hm]]; [right; by left|by left]. }
  intros [H|H]%Hgen; [by rewrite lookup_empty in H|done].
Qed.

Lemma dict_of_in {T} (l : list (string * T)) k x : (k, x) ∈ l → is_Some (dict_of l !! k).
Proof.
  unfold dict_of. assert (∀ m : gmap string T, (k, x) ∈ l ∨ is_Some (m !! k) →
    is_Some (foldl (λ m kv, <[kv.1 := kv.2]> m) m l !! k)) as Hgen; [|by auto].
  induction l as [|[k' x'] l IH]; intros m [Hin|Hm]; simpl; [by apply elem_of_nil in Hin|done| |].
  - apply IH. apply elem_of_cons in Hin as [[= <- <-]|Hin]; [|by left]. right. rewrite lookup_insert_eq. by eexists.
  - apply IH. right. rewrite lookup_insert. case_decide; [by eexists|done].
Qed.

Lemma index_by_spec keys services k :
  (∀ s, index_by keys services !! k = Some s → s ∈ services ∧ k ∈ keys s)
  ∧ (∀ s, s ∈ services → k ∈ keys s → is_Some (index_by keys services !! k)).
Proof.
  unfold index_by. split.
  - intros s Hs%dict_of_some. apply list_elem_of_In, in_flat_map in Hs as (s' & Hs' & Hin).
    apply in_map_iff in Hin as (k' & [= -> ->] & Hk). by split; apply list_elem_of_In.
  - intros s Hs Hk. apply (dict_of_in _ _ s), list_elem_of_In, in_flat_map. exists s.
    split; [by apply list_elem_of_In|]. apply in_map_iff. exists k. split; [done|by apply list_elem_of_In].
Qed.

(** ** Loading and resolving *)

Lemma load_ok version raw catalog : load version raw = Ok catalog →
  ∃ services, catalog = new_catalog (py_strip version) services
    ∧ Forall definition_ok services ∧ validate_unique_lookup_keys services = Ok tt.
Proof.
  unfold load. destruct (mapM validate_definition raw) as [services|] eqn:Hm; [|done].
  destruct (negb (str_truthy (py_strip version))); [done|]. case_bool_decide; [done|].
  destruct (validate_unique_lookup_keys services) as [[]|] eqn:Hu; [|done]. intros [= <-].
  exists services. split_and!; [done| |done]. clear -Hm. apply mapM_Some_1 in Hm.
  induction Hm as [|r s raw services Hr _ IH]; constructor; [by eapply validate_ok|done].
Qed.

Lemma first_match_spec (l : list (option CatalogServiceDefinition * ServiceMatchKind)) :
  match first_match l with
  | Some (s, kind) => (Some s, kind) ∈ l
  | None => ∀ o kind, (o, kind) ∈ l → o = None
  end.
Proof.
  induction l as [|[[s|] kind] l IH]; simpl; [by intros ? ? ?%elem_of_nil|by left|].
  destruct (first_match l) as [[s kind']|]; [by right|].
  intros o kind' [[= -> ->]|Hin]%elem_of_cons; [done|by eapply IH].
Qed.

(** The candidates of a query *)
Definition candidates (catalog : ServiceCatalog) (q : string) : list (option CatalogServiceDefinition * ServiceMatchKind) :=
  [(sct_id_index catalog !! py_lower (py_strip q), match_id);
   (sct_slug_index catalog !! py_lower (py_strip q), match_slug);
   (sct_display_index catalog !! normalize_service_text q, match_display_name);
   (sct_alias_index catalog !! normalize_service_text q, match_alias)].

Lemma candidates_spec version services q :
  (∀ s kind, (Some s, kind) ∈ candidates (new_catalog version services) q → s ∈ services ∧ found_by q s kind)
  ∧ (∀ s kind, s ∈ services → found_by q s kind → ∃ s', (Some s', kind) ∈ candidates (new_catalog version services) q).
Proof.
  unfold candidates. cbn [new_catalog sct_id_index sct_slug_index sct_display_index sct_alias_index]. split.
  - intros s kind [[= Hs ->]|[[= Hs ->]|[[= Hs ->]|[[= Hs ->]|?%elem_of_nil]%elem_of_cons]%elem_of_cons]%elem_of_cons]%elem_of_cons;
      [..|done]; symmetry in Hs; apply (proj1 (index_by_spec _ _ _)) in Hs as [Hs Hk]; (split; [done|]).
    1-3: by apply list_elem_of_singleton in Hk.
    apply list_elem_of_In, in_map_iff in Hk as (alias & He & Ha). exists alias. split; [by apply list_elem_of_In|done].
  - intros s kind Hs Hf. assert (∀ keys k, k ∈ keys s → ∃ s', index_by keys services !! k = Some s') as Hidx.
    { intros keys k Hk. by apply (proj2 (index_by_spec keys services k) s). }
    destruct kind; [| | |destruct Hf as (alias & Ha & Hq)|done].
    1: destruct (Hidx (λ s, [py_lower (cd_id s)]) (py_lower (py_strip q))) as [s' ->];
         [by apply list_elem_of_singleton|exists s'; left].
    1: destruct (Hidx (λ s, [py_lower (cd_slug s)]) (py_lower (py_strip q))) as [s' ->];
         [by apply list_elem_of_singleton|exists s'; right; left].
    1: destruct (Hidx (λ s, [normalize_service_text (cd_display_name s)]) (normalize_service_text q)) as [s' ->];
         [by apply list_elem_of_singleton|exists s'; right; right; left].
    destruct (Hidx (λ s, map normalize_service_text (cd_aliases s)) (normalize_service_text q)) as [s' ->].
    { rewrite Hq. apply list_elem_of_In, in_map_iff. exists alias. split; [done|by apply list_elem_of_In]. }
    exists s'. do 3 right. left.
Qed.

(** C19: A catalog that loads resolves every query to the one service it names.  No query
    names two services, whatever keys of theirs it is compared with: the check of the keys
    is coarser than every index.  A query that names a service by its identifier or slug
    (in any case), or by its display name or an alias (in any case and spacing), resolves
    to that service, and one that names none resolves to nothing; the answer says how the
    service was found, and carries the fields of its definition. *)
Theorem catalog_resolves_exactly version raw catalog q :
  load version raw = Ok catalog →
  (∀ s s' kind kind', s ∈ sct_services catalog → s' ∈ sct_services catalog →
     found_by q s kind → found_by q s' kind' → s = s')
  ∧ match resolve catalog q with
    | Some r => res_configured r = true ∧ res_catalog_version r = py_strip version ∧ res_query r = squash q
        ∧ ∃ s, s ∈ sct_services catalog ∧ found_by q s (res_match_kind r) ∧ res_service r = to_service_family s
    | None => ∀ s kind, s ∈ sct_services catalog → ¬ found_by q s kind
    end.
Proof.
  intros (services & -> & Hok & Hu)%load_ok. split.
  - intros s s' kind kind' Hs Hs' (v & Hv & Hqv)%found_same_key (v' & Hv' & Hqv')%found_same_key.
    apply (one_owner services s s' v v'); try done. apply search_same. congruence.
  - unfold resolve. fold (candidates (new_catalog (py_strip version) services) q).
    destruct (candidates_spec (py_strip version) services q) as [Hsound Hcomplete].
    pose proof (first_match_spec (candidates (new_catalog (py_strip version) services) q)) as Hfirst.
    destruct (str_truthy (normalize_service_text q)) eqn:Ht; simpl negb; cbn match.
    + destruct (first_match _) as [[s kind]|]; simpl.
      * destruct (Hsound _ _ Hfirst) as [Hs Hf]. split_and!; [done..|]. by exists s.
      * intros s kind Hs Hf. destruct (Hcomplete s kind Hs Hf) as (s' & Hin). by specialize (Hfirst _ _ Hin).
    + intros s kind Hs (v & Hv & Hqv)%found_same_key. rewrite Forall_forall in Hok.
      pose proof (ok_keys s (Hok s Hs) v Hv) as Hne%normalize_some.
      apply normalize_same in Hqv. congruence.
Qed.

(** ** Searching *)

(** A search answers, in order of rank, name and identifier, with matching services that
    are enabled unless disabled ones are asked for, and leaves a match out only for lack of
    room. *)
Theorem search_is_ranked catalog query limit include_disabled l :
  search catalog query limit include_disabled = Some l → str_truthy (_search_text query) = true →
  ∃ matches, StronglySorted (λ x y, search_order x y = true) matches
    ∧ (∀ rank s, (rank, s) ∈ matches ↔ s ∈ sct_services catalog ∧ (include_disabled = true ∨ cd_enabled s = true)
         ∧ match_rank (_search_text query) s = Some rank)
    ∧ l = map (λ m, catalog_record catalog m.2) (take (Z.to_nat limit) matches).
Proof.
  unfold search. destruct (limit <? 1); [done|]. intros Hl Ht. rewrite Ht in Hl. simpl in Hl. injection Hl as <-.
  exists (sort_by search_order (search_matches catalog (_search_text query) include_disabled)). split_and!.
  - assert (∀ s t, str_leb s t = true ∨ str_leb t s = true) as Htot.
    { intros s t. unfold str_leb. destruct (total (≤)%string s t); [left|right]; by apply bool_decide_eq_true_2. }
    assert (∀ s t u, str_leb s t = true → str_leb t u = true → str_leb s u = true) as Htrans.
    { intros s t u Hs Hu. unfold str_leb in *. bools. apply bool_decide_eq_true_2. by trans t. }
    assert (∀ s t, str_leb s t = true → str_leb t s = true → s = t) as Hanti.
    { intros s t Hs Hu. unfold str_leb in *. bools. by apply (anti_symm (≤)%string). }
    assert (∀ x y, by_name x y = true ∨ by_name y x = true) as Hname.
    { intros x y. unfold by_name. rewrite (bool_decide_ext (y.1 = x.1) (x.1 = y.1)) by done. case_bool_decide; apply Htot. }
    assert (∀ x y z, by_name x y = true → by_name y z = true → by_name x z = true) as Hname3.
    { intros [x1 x2] [y1 y2] [z1 z2]. unfold by_name. simpl.
      destruct (decide (x1 = y1)) as [->|Hxy], (decide (y1 = z1)) as [->|Hyz];
        rewrite ?bool_decide_eq_true_2, ?(bool_decide_eq_false_2 _ Hxy), ?(bool_decide_eq_false_2 _ Hyz) by done; eauto.
      case_bool_decide as Hxz; [subst|by eauto]. intros H1 H2. by destruct Hxy; apply Hanti. }
    apply sort_by_sorted.
    + intros x y. unfold search_order, service_order. rewrite (Z.eqb_sym y.1 x.1). destruct (Z.eqb_spec x.1 y.1); [apply Hname|].
      rewrite !Z.ltb_lt. lia.
    + intros x y z. unfold search_order, service_order.
      destruct (Z.eqb_spec x.1 y.1), (Z.eqb_spec y.1 z.1), (Z.eqb_spec x.1 z.1); rewrite ?Z.ltb_lt; try lia; eauto.
  - intros rank s. rewrite sort_by_perm. unfold search_matches. rewrite list_elem_of_omap. split.
    + intros (s' & Hs' & Hm). destruct (negb include_disabled && negb (cd_enabled s')) eqn:He; [done|].
      destruct (match_rank (_search_text query) s') as [r|] eqn:Hr; [|done]. injection Hm as <- <-.
      split_and!; [done| |done]. apply andb_false_iff in He as [?|?]; bools; auto.
    + intros (Hs & He & Hr). exists s. split; [done|]. rewrite Hr.
      destruct He as [-> | ->]; [done|]. by rewrite andb_false_r.
  - by rewrite map_map.
Qed.

(** ** A catalog of two services *)
Module CatalogRun.
Definition gutters : CatalogServiceDefinition := {|
  cd_id := "gutter_cleaning"; cd_slug := "gutter-cleaning"; cd_display_name := "  Gutter  Cleaning ";
  cd_aliases := ["Gutter Repair"; "eavestrough care"]%string; cd_description := "";
  cd_seed_queries := ["gutter cleaning"]%string; cd_negative_terms := []; cd_intent_modifiers := [];
  cd_negative_product_terms := []; cd_provider_categories := ["gutter_service"]%string; cd_regulated := false;
  cd_enabled := true |}.
Definition pools : CatalogServiceDefinition := {|
  cd_id := "pool_care"; cd_slug := "pool-care"; cd_display_name := "Pool Care"; cd_aliases := ["swimming pools"]%string;
  cd_description := ""; cd_seed_queries := ["pool care"]%string; cd_negative_terms := []; cd_intent_modifiers := [];
  cd_negative_product_terms := []; cd_provider_categories := ["pool_service"]%string; cd_regulated := false;
  cd_enabled := false |}.
Definition loaded (raw : list CatalogServiceDefinition) : ServiceCatalog :=
  match load "2026.1" raw with Ok c => c | Raise _ => new_catalog "" [] end.

Lemma catalog_resolves_exactly_witness :
  (∃ c, load "2026.1" [gutters; pools] = Ok c ∧ length (sct_services c) = 2%nat)
  ∧ (res_match_kind <$> resolve (loaded [gutters; pools]) "EAVESTROUGH   Care") = Some match_alias
  ∧ ∀ s s' kind kind', s ∈ sct_services (loaded [gutters; pools]) → s' ∈ sct_services (loaded [gutters; pools]) →
      found_by "EAVESTROUGH   Care" s kind → found_by "EAVESTROUGH   Care" s' kind' → s = s'.
Proof.
  split_and!.
  - eexists. split; vm_compute; reflexivity.
  - vm_compute. reflexivity.
  - refine (proj1 (catalog_resolves_exactly "2026.1" [gutters; pools] (loaded [gutters; pools]) _ _)).
    vm_compute. reflexivity.
Defined.

(** A key of one service that differs from another's only by underscores is rejected. *)
Example shared_key_is_rejected :
  load "2026.1" [gutters; pools <| cd_id := "gutter_repair" |>]
  = Raise (DuplicateLookupKey "gutter_repair" "gutter_cleaning" "gutter_repair").
Proof. vm_compute. reflexivity. Qed.

(** A disabled service is hidden from the search, but a request for a full scan, which
    admits no draft, still resolves it. *)
Lemma disabled_service_is_resolved :
  let c := loaded [gutters; pools] in
  search c "pool" 20 false = Some []
  ∧ (fam_enabled ∘ res_service <$> _resolve_service c (Some "pool_care"%string) "" false) = Some false.
Proof. split; vm_compute; reflexivity. Qed.
End CatalogRun.
