(* ===== verification/Binary64.v ===== *)
(** * Binary64: Python numbers

    The program computes money, rates and delays with Python [float]s, which
    are IEEE 754 binary64 numbers rounded to nearest, ties to even.  They are
    modelled with the executable specification of the standard library
    ([SpecFloat] at precision 53 and maximal exponent 1024), so every guard of
    the model evaluates to the answer the program computes.

    The interface [Amount] is what the accounting code needs of money; it has
    two instances, [binary64] (what the program runs on) and exact integers
    (micro-dollars), and [ExactAmount] states the laws the second one has and
    floating point lacks.  Instants and durations are integers of
    microseconds. *)
From S2P Require Import Prelude.
From Stdlib Require Import SpecFloat.

Definition binary64 : Type := spec_float.

Module F64.
Definition prec : Z := 53.
Definition emax : Z := 1024.

Definition zero : binary64 := S754_zero false.
Definition of_Z (n : Z) : binary64 := binary_normalize prec emax n 0 false.
Definition add : binary64 → binary64 → binary64 := SFadd prec emax.
Definition sub : binary64 → binary64 → binary64 := SFsub prec emax.
Definition mul : binary64 → binary64 → binary64 := SFmul prec emax.
Definition div : binary64 → binary64 → binary64 := SFdiv prec emax.
Definition ltb : binary64 → binary64 → bool := SFltb.
Definition leb : binary64 → binary64 → bool := SFleb.

(** The literal [n/d] for a power of ten [d]: one correctly rounded division. *)
Definition lit (n d : Z) : binary64 := div (of_Z n) (of_Z d).

(** [max(a, b)] returns [a] unless [b > a]; [min(a, b)] returns [a] unless [b < a]. *)
Definition max (a b : binary64) : binary64 := if ltb a b then b else a.
Definition min (a b : binary64) : binary64 := if ltb b a then b else a.

(** [float(n)]: [None] is Python's OverflowError. *)
Definition float_of_int (n : Z) : option binary64 :=
  match of_Z n with
  | S754_infinity _ => None
  | f => Some f
  end.

(** Division with the remainder rounded half to even. *)
Definition div_half_even (m d : Z) : Z :=
  let q := m / d in
  let r := m mod d in
  if 2 * r <? d then q
  else if d <? 2 * r then q + 1
  else if Z.even q then q else q + 1.

(** [m * 2^e] rounded half to even to an integer. *)
Definition round_int (m e : Z) : Z :=
  if 0 <=? e then m * 2 ^ e else div_half_even m (2 ^ (- e)).

Definition max_timedelta_us : Z := 1000000000 * 86400 * 1000000 - 1.

(** [timedelta(seconds=f)] in microseconds: the integral seconds exactly, the
    fraction multiplied by 1e6 in floating point and rounded half to even.
    [None] is the exception for a non-finite or out-of-range argument. *)
Definition timedelta_seconds (f : binary64) : option Z :=
  let range (us : Z) := if Z.abs us <=? max_timedelta_us then Some us else None in
  match f with
  | S754_zero _ => Some 0
  | S754_infinity _ | S754_nan => None
  | S754_finite s m e =>
      let sgn (z : Z) := if s then - z else z in
      if 0 <=? e then range (sgn (Zpos m * 2 ^ e * 1000000))
      else
        let d := 2 ^ (- e) in
        let whole := Zpos m / d in
        let frac := binary_normalize prec emax (sgn (Zpos m mod d)) e s in
        match mul frac (of_Z 1000000) with
        | S754_finite s' m' e' =>
            range (sgn (whole * 1000000)
                   + (if s' then - round_int (Zpos m') e' else round_int (Zpos m') e'))
        | S754_zero _ => range (sgn (whole * 1000000))
        | _ => None
        end
  end.

(** [round(f, k)]: the double nearest to the decimal rounding (half to even) of the
    exact value; from 2^53 units of the last decimal on, that is the number itself. *)
Definition round_dec (k : Z) (f : binary64) : binary64 :=
  match f with
  | S754_finite s m e =>
      let n := round_int (Zpos m * 10 ^ k) e in
      if 2 ^ 53 <=? n then f
      else if n =? 0 then S754_zero s
      else div (of_Z (if s then - n else n)) (of_Z (10 ^ k))
  | f => f
  end.

Definition round6 : binary64 → binary64 := round_dec 6.

(** [n / d] of integers, [d > 0]: the double nearest to the quotient.  The quotient
    is computed to at least 56 bits; the last bit says whether anything was cut off. *)
Definition of_ratio (n d : Z) : binary64 :=
  let k := Z.max 0 (Z.log2 d - Z.log2 (Z.abs n) + 56) in
  let num := Z.abs n * 2 ^ k in
  let q := 2 * (num / d) + (if num mod d =? 0 then 0 else 1) in
  binary_normalize prec emax (if n <? 0 then - q else q) (- (k + 1)) false.

Example of_ratio_third : of_ratio 1 3 = lit 1 3 ∧ of_ratio (-7) 10 = lit (-7) 10.
Proof. by vm_compute. Qed.

Definition is_finite (f : binary64) : bool :=
  match f with S754_zero _ | S754_finite _ _ _ => true | _ => false end.

(** [sum(l)]: the running sum with its compensation (Neumaier), added at the end. *)
Definition sum_step (acc : binary64 * binary64) (x : binary64) : binary64 * binary64 :=
  let '(total, c) := acc in
  let t := add total x in
  (t, if SFleb (SFabs x) (SFabs total) then add c (add (sub total t) x)
      else add c (add (sub x t) total)).
Definition sum (l : list binary64) : binary64 :=
  let '(total, c) := foldl sum_step (zero, zero) l in
  if negb (SFeqb c zero) && is_finite c then add total c else total.

Example sum_compensated :
  (sum (replicate 10 (lit 1 10)), round6 (sum [lit 1 10; lit 2 10])) = (of_Z 1, lit 3 10).
Proof. by vm_compute. Qed.
End F64.

(** ** Money *)

(** [amt_micros z] is the literal of z millionths: the double nearest to it (the
    quotient of two exact integers is correctly rounded), or z itself; [amt_sum] and
    [amt_round6] are [sum(l)] and [round(a, 6)]. *)
Class Amount (A : Type) : Type := {
  amt_zero : A;
  amt_add : A → A → A;
  amt_sub : A → A → A;
  amt_ltb : A → A → bool;
  amt_eqb : A → A → bool;
  amt_ratio : A → A → binary64;
  amt_micros : Z → A;
  amt_sum : list A → A;
  amt_round6 : A → A
}.

Declare Scope amount_scope.
Delimit Scope amount_scope with amt.
Notation "a + b" := (amt_add a b) : amount_scope.
Notation "a - b" := (amt_sub a b) : amount_scope.
Notation "a <? b" := (amt_ltb a b) : amount_scope.
Notation "0" := amt_zero : amount_scope.

(** [max(0.0, a)] *)
Definition amt_max0 {A} `{Amount A} (a : A) : A :=
  (if (0 <? a)%amt then a else 0%amt).

#[export] Instance Amount_binary64 : Amount binary64 := {|
  amt_zero := F64.zero;
  amt_add := F64.add;
  amt_sub := F64.sub;
  amt_ltb := F64.ltb;
  amt_eqb := SpecFloat.SFeqb;
  amt_ratio := F64.div;
  amt_micros z := F64.div (F64.of_Z z) (F64.of_Z 1000000);
  amt_sum := F64.sum;
  amt_round6 := F64.round6
|}.

#[export] Instance Amount_micros : Amount Z := {|
  amt_zero := 0;
  amt_add := Z.add;
  amt_sub := Z.sub;
  amt_ltb := Z.ltb;
  amt_eqb := Z.eqb;
  amt_ratio a b := F64.div (F64.of_Z a) (F64.of_Z b);
  amt_micros z := z;
  amt_sum := foldl Z.add 0;
  amt_round6 z := z
|}.

(** The laws of exact money: it is ordered and added like the integers. *)
Class ExactAmount (A : Type) `{Amount A} : Type := {
  value : A → Z;
  value_zero : value 0%amt = 0;
  value_add a b : value (a + b)%amt = value a + value b;
  value_sub a b : value (a - b)%amt = value a - value b;
  value_ltb a b : (a <? b)%amt = (value a <? value b);
  value_micros z : 0 ≤ z → 0 ≤ value (amt_micros z)
}.

#[export] Program Instance ExactAmount_micros : ExactAmount Z := {| value := id |}.
Solve Obligations with done.

Create HintDb amount discriminated.
#[export] Hint Rewrite @value_zero @value_add @value_sub @value_ltb : amount.

Section exact.
Context {A : Type} `{ExactAmount A}.

Lemma value_max0 (a : A) : value (amt_max0 a) = Z.max 0 (value a).
Proof.
  unfold amt_max0. rewrite value_ltb, value_zero.
  destruct (Z.ltb_spec 0 (value a)); rewrite ?value_zero; lia.
Qed.
End exact.
#[export] Hint Rewrite @value_max0 : amount.

(** Turn a goal about exact amounts into one about integers. *)
Ltac amount := autorewrite with amount in *; try lia.

(** ** Instants *)

(** A [DateTime(timezone=True)] value read back from the database: SQLite drops
    the zone (the wall clock is UTC), PostgreSQL keeps an offset. *)
Inductive datetime : Type :=
| Naive (wall : Z)
| Aware (wall offset : Z).

Definition instant (d : datetime) : Z :=
  match d with Naive w => w | Aware w o => w - o end.

Inductive dialect : Type := sqlite | postgresql (session_offset : Z).

Definition column_read (d : dialect) (t : Z) : datetime :=
  match d with
  | sqlite => Naive t
  | postgresql o => Aware (t + o) o
  end.

(** [_aware_utc] of services/scan_leases.py and services/cost_controls.py *)
Definition aware_utc (d : datetime) : datetime :=
  match d with
  | Naive w => Aware w 0
  | Aware w o => Aware (w - o) 0
  end.

Lemma aware_utc_column_read d t : aware_utc (column_read d t) = Aware t 0.
Proof. destruct d; simpl; [done|]. f_equal; lia. Qed.
#[export] Hint Rewrite aware_utc_column_read : time.

Definition day_us : Z := 86400 * 1000000.
Definition hour_us : Z := 3600 * 1000000.

(** [t.date()] of a UTC instant, as a day number *)
Definition date_of (t : Z) : Z := t / day_us.

(** ** [datetime.isoformat] of a UTC instant *)

(** The last [w] decimal digits of [n]. *)
Fixpoint padded (w : nat) (n : Z) : string :=
  match w with
  | O => ""
  | S w' => padded w' (n / 10)
            +:+ String (Ascii.ascii_of_nat (48 + Z.to_nat (n mod 10))) EmptyString
  end.

(** Year, month and day of a day number (days since 1970-01-01) in the proleptic
    Gregorian calendar, counted in eras of 400 years that start in March. *)
Definition civil_of_days (days : Z) : Z * Z * Z :=
  let z := days + 719468 in
  let era := z / 146097 in
  let doe := z mod 146097 in
  let yoe := (doe - doe / 1460 + doe / 36524 - doe / 146096) / 365 in
  let doy := doe - (365 * yoe + yoe / 4 - yoe / 100) in
  let mp := (5 * doy + 2) / 153 in
  let d := doy - (153 * mp + 2) / 5 + 1 in
  let m := if mp <? 10 then mp + 3 else mp - 9 in
  (yoe + era * 400 + (if m <=? 2 then 1 else 0), m, d).

Definition isoformat (t : Z) : string :=
  let '(y, m, d) := civil_of_days (t / day_us) in
  let us := t mod day_us in
  let s := us / 1000000 in
  let f := us mod 1000000 in
  padded 4 y +:+ "-" +:+ padded 2 m +:+ "-" +:+ padded 2 d +:+ "T"
  +:+ padded 2 (s / 3600) +:+ ":" +:+ padded 2 (s / 60 mod 60) +:+ ":" +:+ padded 2 (s mod 60)
  +:+ (if f =? 0 then "" else "." +:+ padded 6 f) +:+ "+00:00".

Example isoformat_leap_day :
  isoformat (1709210096 * 1000000 + 5) = "2024-02-29T12:34:56.000005+00:00"%string.
Proof. by vm_compute. Qed.
