(* ===== verification/Schema.v ===== *)
(** * Schema: the tables of the program

    The SQLAlchemy models of db/orm.py, opportunity_review/orm.py and
    lead_routing/orm.py as records, one map per table, collected in the
    database record [Db] that a session reads and writes.  Columns no modelled
    operation reads are left out of the rows.  Columns whose values come from
    an enumeration (a [StrEnum], or a column only ever assigned literals) are
    the enumeration; [OpportunityORM.status] stays a string because the code
    parses it.  Money columns of the call ledger have the type parameter
    [USD]: [binary64] for the program, an exact type for the accounting
    identities. *)
From S2P Require Import Prelude Binary64.

(** ** JSON columns *)

Inductive json : Type :=
| JNull
| JBool (b : bool)
| JInt (z : Z)
| JFloat (f : binary64)
| JStr (s : string)
| JList (l : list json)
| JObj (l : list (string * json)).

(** Induction on a JSON value and the values inside it. *)
Lemma json_nested_ind (P : json → Prop) :
  P JNull → (∀ b, P (JBool b)) → (∀ z, P (JInt z)) → (∀ f, P (JFloat f)) → (∀ s, P (JStr s)) →
  (∀ l, Forall P l → P (JList l)) → (∀ l, Forall (λ kv, P kv.2) l → P (JObj l)) → ∀ v, P v.
Proof.
  intros Hn Hb Hi Hf Hs Hl Ho. fix IH 1.
  intros [|b|z|f|s|l|l]; [exact Hn|exact (Hb b)|exact (Hi z)|exact (Hf f)|exact (Hs s)| |].
  - apply Hl. induction l as [|x l IHl]; constructor; [apply IH|apply IHl].
  - apply Ho. induction l as [|[k x] l IHl]; constructor; [apply IH|apply IHl].
Qed.

(** The truth value Python gives a JSON value. *)
Definition json_truthy (v : json) : bool :=
  match v with
  | JNull => false
  | JBool b => b
  | JInt z => negb (z =? 0)
  | JFloat f => negb (SpecFloat.SFeqb f F64.zero)
  | JStr s => negb (bool_decide (s = ""%string))
  | JList l => match l with [] => false | _ => true end
  | JObj l => match l with [] => false | _ => true end
  end.

(** A Python [dict] with string keys: unique keys in insertion order. *)
Abbreviation dict := (list (string * json)).

Definition dict_get (k : string) (d : dict) : option json :=
  snd <$> head (List.filter (λ kv, bool_decide (kv.1 = k)) d).

(** [d[k] = v] *)
Definition dict_set (k : string) (v : json) (d : dict) : dict :=
  if existsb (λ kv, bool_decide (kv.1 = k)) d
  then map (λ kv, if bool_decide (kv.1 = k) then (k, v) else kv) d
  else d ++ [(k, v)].

(** ** Enumerations *)

(** The [source], [status] literals of [ScanRunORM]. *)
Inductive ScanStatus : Type :=
| SPending | SQueued | SRunning | SCompleted | SFailed | SCancelled | SQuarantined.
#[export] Instance ScanStatus_eq_dec : EqDecision ScanStatus.
Proof. solve_decision. Defined.

(** opportunity_review/models.py *)
Inductive ReviewRole : Type := operator | reviewer | admin | system.
#[export] Instance ReviewRole_eq_dec : EqDecision ReviewRole.
Proof. solve_decision. Defined.

Inductive EvidenceOverrideKind : Type :=
| serp_classification | provider_suitability
| geographic_interpretation | data_quality_warning.
#[export] Instance EvidenceOverrideKind_eq_dec : EqDecision EvidenceOverrideKind.
Proof. solve_decision. Defined.

Inductive OverrideAction : Type := ov_apply | ov_revert.
#[export] Instance OverrideAction_eq_dec : EqDecision OverrideAction.
Proof. solve_decision. Defined.

(** The literals assigned to the state columns of [ApiCallORM]. *)
Inductive CallStatus : Type :=
| CPlanned | CPrepared | CInFlight | CCompleted | CCacheHit | CFailed
| CFailedBeforeNetwork | CBlocked | CProviderOutcomeUnknown
| CProviderConfirmedNotBilled.
#[export] Instance CallStatus_eq_dec : EqDecision CallStatus.
Proof. solve_decision. Defined.

Inductive AttemptState : Type :=
| APrepared | AReserved | AInFlight | ACompleted | ACacheHit | AFailed
| AFailedBeforeNetwork | ABlocked | AProviderOutcomeUnknown | AReconciled.
#[export] Instance AttemptState_eq_dec : EqDecision AttemptState.
Proof. solve_decision. Defined.

Inductive ProviderOutcome : Type :=
| PNotSent | PSubmitted | PCompleted | PUnknown | PFailed | PBilled | PNotBilled.
#[export] Instance ProviderOutcome_eq_dec : EqDecision ProviderOutcome.
Proof. solve_decision. Defined.

Inductive ReservationState : Type :=
| RNone | RReserved | RFinalized | RReleased | RReconciledUnknown.
#[export] Instance ReservationState_eq_dec : EqDecision ReservationState.
Proof. solve_decision. Defined.

Inductive UsageClass : Type := production | testing.
#[export] Instance UsageClass_eq_dec : EqDecision UsageClass.
Proof. solve_decision. Defined.
#[export] Program Instance UsageClass_countable : Countable UsageClass :=
  inj_countable' (λ c, match c with production => true | testing => false end)
                 (λ b : bool, if b then production else testing) _.
Next Obligation. by intros []. Qed.

(** lead_routing/models.py *)
Inductive ProviderAssignmentStatus : Type :=
| candidate | pilot | active | paused | terminated | replaced.
#[export] Instance ProviderAssignmentStatus_eq_dec : EqDecision ProviderAssignmentStatus.
Proof. solve_decision. Defined.

Inductive LeadChannel : Type := lead_form | lead_phone.
#[export] Instance LeadChannel_eq_dec : EqDecision LeadChannel.
Proof. solve_decision. Defined.

Inductive DeliveryChannel : Type := ch_email | ch_phone.
#[export] Instance DeliveryChannel_eq_dec : EqDecision DeliveryChannel.
Proof. solve_decision. Defined.

Inductive LeadStatus : Type :=
| lead_received | lead_spam | lead_routing | lead_delivered
| lead_delivery_failed | lead_deleted.
#[export] Instance LeadStatus_eq_dec : EqDecision LeadStatus.
Proof. solve_decision. Defined.

Inductive DeliveryStatus : Type :=
| d_pending | d_leased | d_delivering | d_retrying | d_delivered
| d_failed | d_cancelled | d_outcome_unknown.
#[export] Instance DeliveryStatus_eq_dec : EqDecision DeliveryStatus.
Proof. solve_decision. Defined.

(** The [event_key] strings: [form:<idempotency key>], [delivery:<lead>],
    [delivery-failed:<lead>], [deleted:<event>]. *)
Inductive LeadEventKey : Type :=
| key_form (idempotency_key : string)
| key_delivery (lead_id : Z)
| key_delivery_failed (lead_id : Z)
| key_deleted (event_id : Z).
#[export] Instance LeadEventKey_eq_dec : EqDecision LeadEventKey.
Proof. solve_decision. Defined.

Inductive TruthBasis : Type :=
| observed | provider_reported | operator_verified | estimated.
#[export] Instance TruthBasis_eq_dec : EqDecision TruthBasis.
Proof. solve_decision. Defined.

Inductive AnalyticsSourceType : Type :=
| src_web_analytics | src_form | src_call_tracking | src_provider | src_operator | src_system.
#[export] Instance AnalyticsSourceType_eq_dec : EqDecision AnalyticsSourceType.
Proof. solve_decision. Defined.

Inductive AnalyticsEventType : Type :=
| organic_landing | form_start | form_submit | qualified_lead | call | answered_call
| missed_call | provider_delivery | provider_acceptance | appointment | won_job
| lost_job | revenue.
#[export] Instance AnalyticsEventType_eq_dec : EqDecision AnalyticsEventType.
Proof. solve_decision. Defined.

(** property_workflow/models.py *)
Inductive PropertyStatus : Type :=
| ps_draft | ps_staging | ps_production | ps_archived.
#[export] Instance PropertyStatus_eq_dec : EqDecision PropertyStatus.
Proof. solve_decision. Defined.

Inductive DomainCandidateStatus : Type :=
| dcs_generated | dcs_shortlisted | dcs_rejected.
#[export] Instance DomainCandidateStatus_eq_dec : EqDecision DomainCandidateStatus.
Proof. solve_decision. Defined.

Inductive DomainAvailability : Type :=
| da_unchecked | da_available | da_unavailable | da_unknown.
#[export] Instance DomainAvailability_eq_dec : EqDecision DomainAvailability.
Proof. solve_decision. Defined.

Inductive DomainRegistrationStatus : Type :=
| dr_purchase_approved | dr_manually_registered | dr_dns_verified.
#[export] Instance DomainRegistrationStatus_eq_dec : EqDecision DomainRegistrationStatus.
Proof. solve_decision. Defined.

Inductive SiteConfigStatus : Type :=
| scs_draft | scs_approved | scs_superseded.
#[export] Instance SiteConfigStatus_eq_dec : EqDecision SiteConfigStatus.
Proof. solve_decision. Defined.

Inductive BuildEnvironment : Type :=
| env_preview | env_staging | env_production.
#[export] Instance BuildEnvironment_eq_dec : EqDecision BuildEnvironment.
Proof. solve_decision. Defined.

Inductive DeploymentStatus : Type :=
| dep_deployed | dep_rolled_back | dep_failed.
#[export] Instance DeploymentStatus_eq_dec : EqDecision DeploymentStatus.
Proof. solve_decision. Defined.

Inductive ComplianceStatus : Type :=
| cmp_approved | cmp_rejected.
#[export] Instance ComplianceStatus_eq_dec : EqDecision ComplianceStatus.
Proof. solve_decision. Defined.

(** ** Rows *)

(** [OpportunityORM]: the status column is free text, read through [canonical_state] *)
Record Opportunity : Type := {
  opp_service_family_id : Z;
  opp_market_id : Z;
  opp_status : string;
  opp_latest_score : option binary64;
  opp_score_version : option string;
  opp_confidence : option string;
  opp_missing_data_flags : list string;
  opp_approved_at : option Z;
  opp_owner_user_id : option string;
  opp_review_version : Z
}.
#[export] Instance eta_Opportunity : Eta Opportunity := λ r,
  Build_Opportunity (opp_service_family_id r) (opp_market_id r) (opp_status r)
    (opp_latest_score r) (opp_score_version r) (opp_confidence r)
    (opp_missing_data_flags r) (opp_approved_at r) (opp_owner_user_id r)
    (opp_review_version r).

(** [OpportunityReviewORM] *)
Record OpportunityReview : Type := {
  rev_opportunity_id : Z;
  rev_prior_state : option string;
  rev_review_state : string;
  rev_owner_user_id : option string;
  rev_reviewer_user_id : string;
  rev_reviewer_role : ReviewRole;
  rev_decision : string;
  rev_decision_reason : string;
  rev_notes : string;
  rev_tags : list string;
  rev_review_version : Z;
  rev_approved_at : option Z;
  rev_rejected_at : option Z
}.
#[export] Instance eta_OpportunityReview : Eta OpportunityReview := λ r,
  Build_OpportunityReview (rev_opportunity_id r) (rev_prior_state r)
    (rev_review_state r) (rev_owner_user_id r) (rev_reviewer_user_id r)
    (rev_reviewer_role r) (rev_decision r) (rev_decision_reason r) (rev_notes r)
    (rev_tags r) (rev_review_version r) (rev_approved_at r) (rev_rejected_at r).

(** [EvidenceOverrideORM] *)
Record EvidenceOverride : Type := {
  ov_opportunity_id : Z;
  ov_kind : EvidenceOverrideKind;
  ov_target_record_id : Z;
  ov_field_name : string;
  ov_action : OverrideAction;
  ov_original_value : json;
  ov_new_value : json;
  ov_actor_user_id : string;
  ov_actor_role : ReviewRole;
  ov_reason : string;
  ov_score_impact : binary64;
  ov_score_impact_explanation : string;
  ov_reverses_override_id : option Z
}.
#[export] Instance eta_EvidenceOverride : Eta EvidenceOverride := λ r,
  Build_EvidenceOverride (ov_opportunity_id r) (ov_kind r) (ov_target_record_id r)
    (ov_field_name r) (ov_action r) (ov_original_value r) (ov_new_value r)
    (ov_actor_user_id r) (ov_actor_role r) (ov_reason r) (ov_score_impact r)
    (ov_score_impact_explanation r) (ov_reverses_override_id r).

(** [SerpSnapshotORM], the columns the review workflow reads *)
Record SerpSnapshot : Type := {
  snap_scan_run_id : option Z;
  snap_opportunity_id : option Z
}.
#[export] Instance eta_SerpSnapshot : Eta SerpSnapshot := λ r,
  Build_SerpSnapshot (snap_scan_run_id r) (snap_opportunity_id r).

(** [SerpResultORM], the columns the review workflow reads *)
Record SerpResult : Type := {
  sr_serp_snapshot_id : Z;
  sr_classification : json
}.
#[export] Instance eta_SerpResult : Eta SerpResult := λ r,
  Build_SerpResult (sr_serp_snapshot_id r) (sr_classification r).

(** [ProviderCandidateORM], the columns the review workflow reads *)
Record ProviderCandidate : Type := {
  pc_scan_run_id : option Z;
  pc_opportunity_id : option Z;
  pc_suitability_score : json;
  pc_business_status : json;
  pc_categories : json
}.
#[export] Instance eta_ProviderCandidate : Eta ProviderCandidate := λ r,
  Build_ProviderCandidate (pc_scan_run_id r) (pc_opportunity_id r)
    (pc_suitability_score r) (pc_business_status r) (pc_categories r).

(** [MarketORM], the columns a geographic override may target *)
Record Market : Type := {
  mk_display_name : json;
  mk_state : json;
  mk_county : json;
  mk_metro : json;
  mk_latitude : json;
  mk_longitude : json;
  mk_boundary_radius_km : json;
  mk_geography_id : json;
  mk_cities : list string
}.
#[export] Instance eta_Market : Eta Market := λ r,
  Build_Market (mk_display_name r) (mk_state r) (mk_county r) (mk_metro r)
    (mk_latitude r) (mk_longitude r) (mk_boundary_radius_km r) (mk_geography_id r)
    (mk_cities r).

(** [KeywordDecisionORM] / [CompetitorMetricORM]: only the owning scan is read *)
Record ScanEvidence : Type := {
  ev_scan_run_id : option Z
}.
#[export] Instance eta_ScanEvidence : Eta ScanEvidence := λ r,
  Build_ScanEvidence (ev_scan_run_id r).

(** [FullOpportunityScoreORM], with the TimestampMixin's [created_at] *)
Record FullOpportunityScore : Type := {
  fs_scan_run_id : Z;
  fs_opportunity_id : Z;
  fs_payload : gmap string json;
  fs_created_at : Z
}.
#[export] Instance eta_FullOpportunityScore : Eta FullOpportunityScore := λ r,
  Build_FullOpportunityScore (fs_scan_run_id r) (fs_opportunity_id r) (fs_payload r)
    (fs_created_at r).

(** [ScanRunORM]; its column [actual_cost_usd] is the table [scan_actual_costs] *)
Record ScanRun : Type := {
  sc_opportunity_id : option Z;
  sc_source : string;
  sc_status : ScanStatus;
  sc_started_at : option Z;
  sc_completed_at : option Z;
  sc_error_summary : option string;
  sc_request_parameters : gmap string json;
  sc_data_mode : string;
  sc_scan_profile : string;
  sc_source_scan_run_id : option Z;
  sc_progress_stage : string;
  sc_partial_outputs : gmap string json;
  sc_retry_count : Z;
  sc_max_attempts : Z;
  sc_next_attempt_at : option Z;
  sc_cancel_requested : bool;
  sc_worker_id : option string;
  sc_lease_token : option string;
  sc_claimed_at : option Z;
  sc_heartbeat_at : option Z;
  sc_lease_expires_at : option Z;
  sc_quarantined_at : option Z;
  sc_quarantine_reason : option string
}.
#[export] Instance eta_ScanRun : Eta ScanRun := λ r,
  Build_ScanRun (sc_opportunity_id r) (sc_source r) (sc_status r) (sc_started_at r)
    (sc_completed_at r) (sc_error_summary r) (sc_request_parameters r) (sc_data_mode r)
    (sc_scan_profile r) (sc_source_scan_run_id r) (sc_progress_stage r)
    (sc_partial_outputs r) (sc_retry_count r) (sc_max_attempts r) (sc_next_attempt_at r)
    (sc_cancel_requested r) (sc_worker_id r) (sc_lease_token r) (sc_claimed_at r)
    (sc_heartbeat_at r) (sc_lease_expires_at r) (sc_quarantined_at r)
    (sc_quarantine_reason r).

(** [ScanPlanCallORM], the columns the cost ledger and the live provider read *)
Record ScanPlanCall (USD : Type) : Type := {
  plan_scan_run_id : Z;
  plan_planned_request_id : option string;
  plan_provider : string;
  plan_endpoint : string;
  plan_cache_key : string;
  plan_request_known : bool;
  plan_estimated_cost_usd : USD
}.
Arguments Build_ScanPlanCall {USD}.
Arguments plan_scan_run_id {USD} _.
Arguments plan_planned_request_id {USD} _.
Arguments plan_provider {USD} _.
Arguments plan_endpoint {USD} _.
Arguments plan_cache_key {USD} _.
Arguments plan_request_known {USD} _.
Arguments plan_estimated_cost_usd {USD} _.
#[export] Instance eta_ScanPlanCall (USD : Type) : Eta (ScanPlanCall USD) := λ r,
  Build_ScanPlanCall (plan_scan_run_id r) (plan_planned_request_id r) (plan_provider r)
    (plan_endpoint r) (plan_cache_key r) (plan_request_known r)
    (plan_estimated_cost_usd r).

(** [ApiCallORM] *)
Record ApiCall (USD : Type) : Type := {
  ac_scan_run_id : option Z;
  ac_planned_request_id : option string;
  ac_provider : string;
  ac_endpoint : string;
  ac_estimated_cost_usd : USD;
  ac_actual_cost_usd : USD;
  ac_status : CallStatus;
  ac_error_type : option string;
  ac_error_summary : option string;
  ac_started_at : option Z;
  ac_completed_at : option Z;
  ac_attempt_state : AttemptState;
  ac_provider_outcome : ProviderOutcome;
  ac_reservation_state : ReservationState;
  ac_reservation_usage_date : option Z;
  ac_reservation_usage_class : option UsageClass;
  ac_reservation_estimated_cost_usd : USD;
  ac_network_started_at : option Z;
  ac_reconciled_at : option Z;
  ac_cache_key : string;
  ac_cache_hit : bool;
  ac_force_refresh : bool;
  ac_attempt_token : option string;
  ac_execution_worker_id : option string;
  ac_execution_lease_token : option string;
  ac_provider_task_id : option string;
  ac_provider_request_id : option string
}.
Arguments Build_ApiCall {USD}.
Arguments ac_scan_run_id {USD} _.
Arguments ac_planned_request_id {USD} _.
Arguments ac_provider {USD} _.
Arguments ac_endpoint {USD} _.
Arguments ac_estimated_cost_usd {USD} _.
Arguments ac_actual_cost_usd {USD} _.
Arguments ac_status {USD} _.
Arguments ac_error_type {USD} _.
Arguments ac_error_summary {USD} _.
Arguments ac_started_at {USD} _.
Arguments ac_completed_at {USD} _.
Arguments ac_attempt_state {USD} _.
Arguments ac_provider_outcome {USD} _.
Arguments ac_reservation_state {USD} _.
Arguments ac_reservation_usage_date {USD} _.
Arguments ac_reservation_usage_class {USD} _.
Arguments ac_reservation_estimated_cost_usd {USD} _.
Arguments ac_network_started_at {USD} _.
Arguments ac_reconciled_at {USD} _.
Arguments ac_cache_key {USD} _.
Arguments ac_cache_hit {USD} _.
Arguments ac_force_refresh {USD} _.
Arguments ac_attempt_token {USD} _.
Arguments ac_execution_worker_id {USD} _.
Arguments ac_execution_lease_token {USD} _.
Arguments ac_provider_task_id {USD} _.
Arguments ac_provider_request_id {USD} _.
#[export] Instance eta_ApiCall (USD : Type) : Eta (ApiCall USD) := λ r,
  Build_ApiCall (ac_scan_run_id r) (ac_planned_request_id r) (ac_provider r)
    (ac_endpoint r) (ac_estimated_cost_usd r) (ac_actual_cost_usd r) (ac_status r)
    (ac_error_type r) (ac_error_summary r) (ac_started_at r) (ac_completed_at r)
    (ac_attempt_state r) (ac_provider_outcome r) (ac_reservation_state r)
    (ac_reservation_usage_date r) (ac_reservation_usage_class r)
    (ac_reservation_estimated_cost_usd r) (ac_network_started_at r) (ac_reconciled_at r)
    (ac_cache_key r) (ac_cache_hit r) (ac_force_refresh r) (ac_attempt_token r)
    (ac_execution_worker_id r) (ac_execution_lease_token r) (ac_provider_task_id r)
    (ac_provider_request_id r).

(** [ProviderDailyUsageORM]; rows are keyed by the unique constraint [uq_provider_daily_usage_bucket] *)
Record ProviderDailyUsage (USD : Type) : Type := {
  u_request_count : Z;
  u_spend_usd : USD;
  u_reserved_spend_usd : USD;
  u_unreconciled_spend_usd : USD;
  u_cache_miss_count : Z;
  u_unexpected_call_count : Z;
  u_abnormal_cost_count : Z;
  u_provider_failure_count : Z;
  u_schema_drift_count : Z
}.
Arguments Build_ProviderDailyUsage {USD}.
Arguments u_request_count {USD} _.
Arguments u_spend_usd {USD} _.
Arguments u_reserved_spend_usd {USD} _.
Arguments u_unreconciled_spend_usd {USD} _.
Arguments u_cache_miss_count {USD} _.
Arguments u_unexpected_call_count {USD} _.
Arguments u_abnormal_cost_count {USD} _.
Arguments u_provider_failure_count {USD} _.
Arguments u_schema_drift_count {USD} _.
#[export] Instance eta_ProviderDailyUsage (USD : Type) : Eta (ProviderDailyUsage USD) := λ r,
  Build_ProviderDailyUsage (u_request_count r) (u_spend_usd r) (u_reserved_spend_usd r)
    (u_unreconciled_spend_usd r) (u_cache_miss_count r) (u_unexpected_call_count r)
    (u_abnormal_cost_count r) (u_provider_failure_count r) (u_schema_drift_count r).

(** [uq_provider_daily_usage_bucket]: date, class, provider, endpoint; the provider summary has the empty endpoint *)
Record BucketKey : Type := {
  bk_usage_date : Z;
  bk_usage_class : UsageClass;
  bk_provider : string;
  bk_endpoint : string
}.
#[export] Instance eta_BucketKey : Eta BucketKey := λ r,
  Build_BucketKey (bk_usage_date r) (bk_usage_class r) (bk_provider r) (bk_endpoint r).

(** [ProviderQualificationORM]; [q_checks] is a JSON object *)
Record ProviderQualification : Type := {
  q_provider : string;
  q_environment : string;
  q_adapter_version : string;
  q_status : string;
  q_qualified_at : Z;
  q_expires_at : Z;
  q_checks : list (string * json);
  q_notes : string;
  q_execution_method : string;
  q_gate_eligible : bool;
  q_evidence_sha256 : option string;
  q_executed_by : string;
  q_override_reason : string
}.
#[export] Instance eta_ProviderQualification : Eta ProviderQualification := λ r,
  Build_ProviderQualification (q_provider r) (q_environment r) (q_adapter_version r)
    (q_status r) (q_qualified_at r) (q_expires_at r) (q_checks r) (q_notes r)
    (q_execution_method r) (q_gate_eligible r) (q_evidence_sha256 r) (q_executed_by r)
    (q_override_reason r).

(** [ProviderCharge] of services/billing.py *)
Record ProviderCharge (USD : Type) : Type := {
  pch_provider_request_id : option string;
  pch_provider_task_id : option string;
  pch_endpoint : string;
  pch_cost_usd : USD;
  pch_billed_at : Z
}.
Arguments Build_ProviderCharge {USD}.
Arguments pch_provider_request_id {USD} _.
Arguments pch_provider_task_id {USD} _.
Arguments pch_endpoint {USD} _.
Arguments pch_cost_usd {USD} _.
Arguments pch_billed_at {USD} _.

(** [_call_payload] *)
Record UnmatchedCall (USD : Type) : Type := {
  uc_api_call_id : Z;
  uc_provider_request_id : option string;
  uc_provider_task_id : option string;
  uc_endpoint : string;
  uc_cost_usd : USD
}.
Arguments Build_UnmatchedCall {USD}.
Arguments uc_api_call_id {USD} _.
Arguments uc_provider_request_id {USD} _.
Arguments uc_provider_task_id {USD} _.
Arguments uc_endpoint {USD} _.
Arguments uc_cost_usd {USD} _.

(** [BillingReconciliationORM]; the period is two day numbers *)
Record BillingReconciliation (USD : Type) : Type := {
  br_provider : string;
  br_environment : string;
  br_period_start : Z;
  br_period_end : Z;
  br_reconciled_at : Z;
  br_status : string;
  br_internal_call_count : Z;
  br_provider_call_count : Z;
  br_internal_cost_usd : USD;
  br_provider_cost_usd : USD;
  br_unmatched_provider_charges : list (ProviderCharge USD);
  br_unmatched_internal_calls : list (UnmatchedCall USD);
  br_difference_usd : USD;
  br_source_filename : string
}.
Arguments Build_BillingReconciliation {USD}.
Arguments br_provider {USD} _.
Arguments br_environment {USD} _.
Arguments br_period_start {USD} _.
Arguments br_period_end {USD} _.
Arguments br_reconciled_at {USD} _.
Arguments br_status {USD} _.
Arguments br_internal_call_count {USD} _.
Arguments br_provider_call_count {USD} _.
Arguments br_internal_cost_usd {USD} _.
Arguments br_provider_cost_usd {USD} _.
Arguments br_unmatched_provider_charges {USD} _.
Arguments br_unmatched_internal_calls {USD} _.
Arguments br_difference_usd {USD} _.
Arguments br_source_filename {USD} _.
(** [PropertyRoutingProfileORM]; rows are keyed by the unique [property_id] *)
Record RoutingProfile : Type := {
  rp_opportunity_id : Z;
  rp_public_tracking_number : option string;
  rp_public_contact_email : option string;
  rp_recording_approved : bool;
  rp_recording_retention_days : option Z;
  rp_call_adapter_name : option string;
  rp_call_provider_route_id : option string;
  rp_routing_health_status : option string;
  rp_routing_health_checked_at : option Z;
  rp_active : bool
}.
#[export] Instance eta_RoutingProfile : Eta RoutingProfile := λ r,
  Build_RoutingProfile (rp_opportunity_id r) (rp_public_tracking_number r)
    (rp_public_contact_email r) (rp_recording_approved r)
    (rp_recording_retention_days r) (rp_call_adapter_name r)
    (rp_call_provider_route_id r) (rp_routing_health_status r)
    (rp_routing_health_checked_at r) (rp_active r).

(** [ProviderAssignmentORM] *)
Record ProviderAssignment : Type := {
  as_property_id : string;
  as_provider_candidate_id : option Z;
  as_status : ProviderAssignmentStatus;
  as_public_business_name : string;
  as_destination_phone : option string;
  as_destination_email : option string;
  as_coverage : dict;
  as_response_expectation_minutes : option Z;
  as_lead_acceptance_required : bool;
  as_agreement_started_at : option Z;
  as_agreement_ended_at : option Z;
  as_active_from : option Z;
  as_active_until : option Z;
  as_termination_reason : option string;
  as_replaced_assignment_id : option Z;
  as_claims_reviewed_by : option string;
  as_claims_reviewed_at : option Z;
  as_activation_approved_by : option string;
  as_activation_reason : option string;
  as_replacement_approved_by : option string;
  as_logo_asset_id : option Z;
  as_hours : dict;
  as_service_radius : dict;
  as_credentials : json;
  as_license_numbers : json;
  as_approved_claims : json;
  as_attributed_testimonials : json;
  as_provider_photos : list Z;
  as_claims_review_reason : option string
}.
#[export] Instance eta_ProviderAssignment : Eta ProviderAssignment := λ r,
  Build_ProviderAssignment (as_property_id r) (as_provider_candidate_id r) (as_status r)
    (as_public_business_name r) (as_destination_phone r) (as_destination_email r)
    (as_coverage r) (as_response_expectation_minutes r) (as_lead_acceptance_required r)
    (as_agreement_started_at r) (as_agreement_ended_at r) (as_active_from r)
    (as_active_until r) (as_termination_reason r) (as_replaced_assignment_id r)
    (as_claims_reviewed_by r) (as_claims_reviewed_at r) (as_activation_approved_by r)
    (as_activation_reason r) (as_replacement_approved_by r) (as_logo_asset_id r)
    (as_hours r) (as_service_radius r) (as_credentials r) (as_license_numbers r)
    (as_approved_claims r) (as_attributed_testimonials r) (as_provider_photos r)
    (as_claims_review_reason r).

(** [LeadORM]; the id is the 128-bit value of the row's UUID *)
Record Lead : Type := {
  ld_property_id : string;
  ld_opportunity_id : Z;
  ld_provider_assignment_id : option Z;
  ld_channel : LeadChannel;
  ld_status : LeadStatus;
  ld_name : string;
  ld_email : option string;
  ld_phone : option string;
  ld_postal_code : option string;
  ld_message : option string;
  ld_idempotency_key : string;
  ld_dedupe_hash : string;
  ld_subject_hash : string;
  ld_received_at : Z;
  ld_pii_deleted_at : option Z;
  ld_retention_expires_at : Z
}.
#[export] Instance eta_Lead : Eta Lead := λ r,
  Build_Lead (ld_property_id r) (ld_opportunity_id r) (ld_provider_assignment_id r)
    (ld_channel r) (ld_status r) (ld_name r) (ld_email r) (ld_phone r)
    (ld_postal_code r) (ld_message r) (ld_idempotency_key r) (ld_dedupe_hash r)
    (ld_subject_hash r) (ld_received_at r) (ld_pii_deleted_at r)
    (ld_retention_expires_at r).

(** [LeadEventORM] *)
Record LeadEvent : Type := {
  le_lead_id : Z;
  le_event_type : string;
  le_event_key : LeadEventKey;
  le_source_name : string;
  le_occurred_at : Z;
  le_truth_basis : TruthBasis;
  le_source_type : AnalyticsSourceType;
  le_payload : json
}.
#[export] Instance eta_LeadEvent : Eta LeadEvent := λ r,
  Build_LeadEvent (le_lead_id r) (le_event_type r) (le_event_key r) (le_source_name r)
    (le_occurred_at r) (le_truth_basis r) (le_source_type r) (le_payload r).

(** [ConsentRecordORM]; rows are keyed by the unique [lead_id] *)
Record ConsentRecord : Type := {
  cr_consent_granted : bool;
  cr_consent_text : string;
  cr_consent_text_version : string;
  cr_referral_disclosure_acknowledged : bool;
  cr_referral_disclosure_text : string;
  cr_referral_disclosure_version : string;
  cr_captured_at : Z;
  cr_request_fingerprint : string;
  cr_proof_metadata : json
}.
#[export] Instance eta_ConsentRecord : Eta ConsentRecord := λ r,
  Build_ConsentRecord (cr_consent_granted r) (cr_consent_text r)
    (cr_consent_text_version r) (cr_referral_disclosure_acknowledged r)
    (cr_referral_disclosure_text r) (cr_referral_disclosure_version r)
    (cr_captured_at r) (cr_request_fingerprint r) (cr_proof_metadata r).

(** [SpamAssessmentORM]; rows are keyed by the unique [lead_id] *)
Record SpamAssessmentRow : Type := {
  sa_score : binary64;
  sa_disposition : string;
  sa_signals : list string;
  sa_assessor_version : string
}.
#[export] Instance eta_SpamAssessmentRow : Eta SpamAssessmentRow := λ r,
  Build_SpamAssessmentRow (sa_score r) (sa_disposition r) (sa_signals r)
    (sa_assessor_version r).

(** [delivery_key]: the string [lead:assignment:channel] *)
Record DeliveryKey : Type := {
  dk_lead_id : Z;
  dk_assignment_id : Z;
  dk_channel : DeliveryChannel
}.
#[export] Instance eta_DeliveryKey : Eta DeliveryKey := λ r,
  Build_DeliveryKey (dk_lead_id r) (dk_assignment_id r) (dk_channel r).

(** [RoutingAttemptORM] *)
Record RoutingAttempt : Type := {
  ra_lead_id : Z;
  ra_provider_assignment_id : Z;
  ra_channel : DeliveryChannel;
  ra_delivery_key : DeliveryKey;
  ra_attempt_number : Z;
  ra_status : string;
  ra_error_code : option string;
  ra_error_summary : option string;
  ra_started_at : Z;
  ra_completed_at : option Z
}.
#[export] Instance eta_RoutingAttempt : Eta RoutingAttempt := λ r,
  Build_RoutingAttempt (ra_lead_id r) (ra_provider_assignment_id r) (ra_channel r)
    (ra_delivery_key r) (ra_attempt_number r) (ra_status r) (ra_error_code r)
    (ra_error_summary r) (ra_started_at r) (ra_completed_at r).

(** [ProviderDeliveryORM]; the id is the 128-bit value of the row's UUID *)
Record ProviderDelivery : Type := {
  pd_lead_id : Z;
  pd_provider_assignment_id : Z;
  pd_delivery_key : DeliveryKey;
  pd_channel : DeliveryChannel;
  pd_destination_reference : string;
  pd_adapter_name : string;
  pd_provider_message_id : option string;
  pd_status : DeliveryStatus;
  pd_attempt_count : Z;
  pd_max_attempts : Z;
  pd_next_attempt_at : option Z;
  pd_worker_id : option string;
  pd_lease_token : option string;
  pd_claimed_at : option Z;
  pd_heartbeat_at : option Z;
  pd_lease_expires_at : option Z;
  pd_last_error_code : option string;
  pd_last_error_summary : option string;
  pd_delivered_at : option Z;
  pd_completed_at : option Z
}.
#[export] Instance eta_ProviderDelivery : Eta ProviderDelivery := λ r,
  Build_ProviderDelivery (pd_lead_id r) (pd_provider_assignment_id r)
    (pd_delivery_key r) (pd_channel r) (pd_destination_reference r) (pd_adapter_name r)
    (pd_provider_message_id r) (pd_status r) (pd_attempt_count r) (pd_max_attempts r)
    (pd_next_attempt_at r) (pd_worker_id r) (pd_lease_token r) (pd_claimed_at r)
    (pd_heartbeat_at r) (pd_lease_expires_at r) (pd_last_error_code r)
    (pd_last_error_summary r) (pd_delivered_at r) (pd_completed_at r).
(** [LeadOutcomeORM] *)
Record LeadOutcome : Type := {
  lo_lead_id : Z;
  lo_outcome_type : AnalyticsEventType;
  lo_truth_basis : TruthBasis;
  lo_source_type : AnalyticsSourceType;
  lo_source_name : string;
  lo_source_event_id : string;
  lo_occurred_at : Z;
  lo_value_usd : option binary64;
  lo_notes : option string
}.
#[export] Instance eta_LeadOutcome : Eta LeadOutcome := λ r,
  Build_LeadOutcome (lo_lead_id r) (lo_outcome_type r) (lo_truth_basis r)
    (lo_source_type r) (lo_source_name r) (lo_source_event_id r) (lo_occurred_at r)
    (lo_value_usd r) (lo_notes r).

(** [AnalyticsEventORM] *)
Record AnalyticsEvent : Type := {
  an_property_id : string;
  an_lead_id : option Z;
  an_event_type : AnalyticsEventType;
  an_truth_basis : TruthBasis;
  an_source_type : AnalyticsSourceType;
  an_source_name : string;
  an_source_event_id : string;
  an_occurred_at : Z;
  an_value_usd : option binary64;
  an_payload : json
}.
#[export] Instance eta_AnalyticsEvent : Eta AnalyticsEvent := λ r,
  Build_AnalyticsEvent (an_property_id r) (an_lead_id r) (an_event_type r)
    (an_truth_basis r) (an_source_type r) (an_source_name r) (an_source_event_id r)
    (an_occurred_at r) (an_value_usd r) (an_payload r).

(** [ServiceFamilyORM], the column the domain generator reads *)
Record ServiceFamilyRow : Type := {
  sf_display_name : string
}.
#[export] Instance eta_ServiceFamilyRow : Eta ServiceFamilyRow := λ r,
  Build_ServiceFamilyRow (sf_display_name r).

(** [PropertyORM]; rows are keyed by [id] *)
Record Property : Type := {
  pr_opportunity_id : Z;
  pr_neutral_brand : string;
  pr_domain : option string;
  pr_service_family_id : Z;
  pr_market_id : Z;
  pr_public_tracking_number : option string;
  pr_public_contact_email : option string;
  pr_status : PropertyStatus;
  pr_active_site_config_version : option Z;
  pr_analytics_config : dict;
  pr_current_version : Z
}.
#[export] Instance eta_Property : Eta Property := λ r,
  Build_Property (pr_opportunity_id r) (pr_neutral_brand r) (pr_domain r)
    (pr_service_family_id r) (pr_market_id r) (pr_public_tracking_number r)
    (pr_public_contact_email r) (pr_status r) (pr_active_site_config_version r)
    (pr_analytics_config r) (pr_current_version r).

(** [PropertyVersionORM] *)
Record PropertyVersion : Type := {
  pv_property_id : string;
  pv_version : Z;
  pv_snapshot : json;
  pv_snapshot_sha256 : string;
  pv_changed_by : string;
  pv_change_reason : string
}.
#[export] Instance eta_PropertyVersion : Eta PropertyVersion := λ r,
  Build_PropertyVersion (pv_property_id r) (pv_version r) (pv_snapshot r)
    (pv_snapshot_sha256 r) (pv_changed_by r) (pv_change_reason r).

(** [DomainCandidateORM] *)
Record DomainCandidate : Type := {
  dc_property_id : string;
  dc_domain : string;
  dc_status : DomainCandidateStatus;
  dc_availability_status : DomainAvailability;
  dc_availability_checked_at : option Z;
  dc_availability_evidence : dict;
  dc_decision_by : option string;
  dc_decision_reason : option string;
  dc_decided_at : option Z
}.
#[export] Instance eta_DomainCandidate : Eta DomainCandidate := λ r,
  Build_DomainCandidate (dc_property_id r) (dc_domain r) (dc_status r)
    (dc_availability_status r) (dc_availability_checked_at r)
    (dc_availability_evidence r) (dc_decision_by r) (dc_decision_reason r)
    (dc_decided_at r).

(** [DomainRegistrationORM] *)
Record DomainRegistration : Type := {
  rg_property_id : string;
  rg_domain_candidate_id : Z;
  rg_domain : string;
  rg_registrar_name : string;
  rg_status : DomainRegistrationStatus;
  rg_purchase_approved : bool;
  rg_purchase_approved_by : string;
  rg_purchase_approval_reason : string;
  rg_purchase_approved_at : Z;
  rg_external_reference : option string;
  rg_registered_at : option Z;
  rg_expected_dns_records : gmap string string;
  rg_observed_dns_records : gmap string string;
  rg_dns_evidence_reference : option string;
  rg_dns_verified_at : option Z;
  rg_dns_verified_by : option string
}.
#[export] Instance eta_DomainRegistration : Eta DomainRegistration := λ r,
  Build_DomainRegistration (rg_property_id r) (rg_domain_candidate_id r) (rg_domain r)
    (rg_registrar_name r) (rg_status r) (rg_purchase_approved r)
    (rg_purchase_approved_by r) (rg_purchase_approval_reason r)
    (rg_purchase_approved_at r) (rg_external_reference r) (rg_registered_at r)
    (rg_expected_dns_records r) (rg_observed_dns_records r)
    (rg_dns_evidence_reference r) (rg_dns_verified_at r) (rg_dns_verified_by r).

(** [AssetORM] *)
Record Asset : Type := {
  at_property_id : string;
  at_asset_type : string;
  at_local_path : option string;
  at_source_provider : string;
  at_source_url : option string;
  at_attribution : option string;
  at_license_metadata : dict;
  at_alt_text : string;
  at_content_sha256 : option string;
  at_approved : bool;
  at_approved_by : option string;
  at_approval_reason : option string;
  at_approved_at : option Z
}.
#[export] Instance eta_Asset : Eta Asset := λ r,
  Build_Asset (at_property_id r) (at_asset_type r) (at_local_path r)
    (at_source_provider r) (at_source_url r) (at_attribution r) (at_license_metadata r)
    (at_alt_text r) (at_content_sha256 r) (at_approved r) (at_approved_by r)
    (at_approval_reason r) (at_approved_at r).

(** [SiteConfigORM] *)
Record SiteConfig : Type := {
  cf_property_id : string;
  cf_version : Z;
  cf_status : SiteConfigStatus;
  cf_config_payload : dict;
  cf_config_sha256 : string;
  cf_created_by : string;
  cf_change_reason : string;
  cf_approved_by : option string;
  cf_approval_reason : option string;
  cf_approved_at : option Z
}.
#[export] Instance eta_SiteConfig : Eta SiteConfig := λ r,
  Build_SiteConfig (cf_property_id r) (cf_version r) (cf_status r) (cf_config_payload r)
    (cf_config_sha256 r) (cf_created_by r) (cf_change_reason r) (cf_approved_by r)
    (cf_approval_reason r) (cf_approved_at r).

(** [SiteBuildORM] *)
Record SiteBuild : Type := {
  bd_property_id : string;
  bd_site_config_id : Z;
  bd_environment : BuildEnvironment;
  bd_build_sha256 : string;
  bd_output_path : string;
  bd_status : string;
  bd_file_count : Z;
  bd_total_bytes : Z;
  bd_validation_report : dict;
  bd_manifest : gmap string string
}.
#[export] Instance eta_SiteBuild : Eta SiteBuild := λ r,
  Build_SiteBuild (bd_property_id r) (bd_site_config_id r) (bd_environment r)
    (bd_build_sha256 r) (bd_output_path r) (bd_status r) (bd_file_count r)
    (bd_total_bytes r) (bd_validation_report r) (bd_manifest r).

(** [ComplianceReviewORM] *)
Record ComplianceReview : Type := {
  cp_property_id : string;
  cp_site_config_id : Z;
  cp_site_build_id : Z;
  cp_status : ComplianceStatus;
  cp_checklist : gmap string bool;
  cp_validation_snapshot : dict;
  cp_reviewer_user_id : string;
  cp_notes : string;
  cp_reviewed_at : Z
}.
#[export] Instance eta_ComplianceReview : Eta ComplianceReview := λ r,
  Build_ComplianceReview (cp_property_id r) (cp_site_config_id r) (cp_site_build_id r)
    (cp_status r) (cp_checklist r) (cp_validation_snapshot r) (cp_reviewer_user_id r)
    (cp_notes r) (cp_reviewed_at r).

(** [DeploymentORM] *)
Record Deployment : Type := {
  dp_property_id : string;
  dp_site_build_id : Z;
  dp_domain_registration_id : option Z;
  dp_provider_assignment_id : option Z;
  dp_compliance_review_id : option Z;
  dp_previous_deployment_id : option Z;
  dp_rollback_of_deployment_id : option Z;
  dp_environment : BuildEnvironment;
  dp_adapter_name : string;
  dp_status : DeploymentStatus;
  dp_url : string;
  dp_local_only : bool;
  dp_operator_user_id : string;
  dp_operator_confirmation : bool;
  dp_confirmation_reason : string;
  dp_neutral_pilot_mode : bool;
  dp_gate_snapshot : list (string * bool);
  dp_deployed_at : Z
}.
#[export] Instance eta_Deployment : Eta Deployment := λ r,
  Build_Deployment (dp_property_id r) (dp_site_build_id r) (dp_domain_registration_id r)
    (dp_provider_assignment_id r) (dp_compliance_review_id r)
    (dp_previous_deployment_id r) (dp_rollback_of_deployment_id r) (dp_environment r)
    (dp_adapter_name r) (dp_status r) (dp_url r) (dp_local_only r)
    (dp_operator_user_id r) (dp_operator_confirmation r) (dp_confirmation_reason r)
    (dp_neutral_pilot_mode r) (dp_gate_snapshot r) (dp_deployed_at r).

#[export] Instance BucketKey_eq_dec : EqDecision BucketKey.
Proof. solve_decision. Defined.
#[export] Program Instance BucketKey_countable : Countable BucketKey :=
  inj_countable' (λ k, (bk_usage_date k, bk_usage_class k, bk_provider k, bk_endpoint k))
                 (λ '(d, c, p, e), Build_BucketKey d c p e) _.
Next Obligation. by intros []. Qed.
#[export] Instance DeliveryKey_eq_dec : EqDecision DeliveryKey.
Proof. solve_decision. Defined.

(** ** The database *)

Record Db (USD : Type) : Type := {
  opportunities : gmap Z Opportunity;
  opportunity_reviews : gmap Z OpportunityReview;
  evidence_overrides : gmap Z EvidenceOverride;
  serp_snapshots : gmap Z SerpSnapshot;
  serp_results : gmap Z SerpResult;
  provider_candidates : gmap Z ProviderCandidate;
  markets : gmap Z Market;
  keyword_decisions : gmap Z ScanEvidence;
  competitor_metrics : gmap Z ScanEvidence;
  full_opportunity_scores : gmap Z FullOpportunityScore;
  scan_runs : gmap Z ScanRun;
  scan_actual_costs : gmap Z USD;
  scan_plan_calls : gmap Z (ScanPlanCall USD);
  api_calls : gmap Z (ApiCall USD);
  provider_daily_usage : gmap BucketKey (ProviderDailyUsage USD);
  provider_qualifications : gmap Z ProviderQualification;
  billing_reconciliations : gmap Z (BillingReconciliation USD);
  routing_profiles : gmap string RoutingProfile;
  provider_assignments : gmap Z ProviderAssignment;
  leads : gmap Z Lead;
  lead_events : gmap Z LeadEvent;
  consent_records : gmap Z ConsentRecord;
  spam_assessments : gmap Z SpamAssessmentRow;
  routing_attempts : gmap Z RoutingAttempt;
  provider_deliveries : gmap Z ProviderDelivery;
  lead_outcomes : gmap Z LeadOutcome;
  analytics_events : gmap Z AnalyticsEvent;
  service_families : gmap Z ServiceFamilyRow;
  properties : gmap string Property;
  property_versions : gmap Z PropertyVersion;
  domain_candidates : gmap Z DomainCandidate;
  domain_registrations : gmap Z DomainRegistration;
  assets : gmap Z Asset;
  site_configs : gmap Z SiteConfig;
  site_builds : gmap Z SiteBuild;
  compliance_reviews : gmap Z ComplianceReview;
  deployments : gmap Z Deployment;
  provider_runtime : gmap string json;
  db_dialect : dialect
}.
Arguments Build_Db {USD}.
Arguments opportunities {USD} _.
Arguments opportunity_reviews {USD} _.
Arguments evidence_overrides {USD} _.
Arguments serp_snapshots {USD} _.
Arguments serp_results {USD} _.
Arguments provider_candidates {USD} _.
Arguments markets {USD} _.
Arguments keyword_decisions {USD} _.
Arguments competitor_metrics {USD} _.
Arguments full_opportunity_scores {USD} _.
Arguments scan_runs {USD} _.
Arguments scan_actual_costs {USD} _.
Arguments scan_plan_calls {USD} _.
Arguments api_calls {USD} _.
Arguments provider_daily_usage {USD} _.
Arguments provider_qualifications {USD} _.
Arguments billing_reconciliations {USD} _.
Arguments routing_profiles {USD} _.
Arguments provider_assignments {USD} _.
Arguments leads {USD} _.
Arguments lead_events {USD} _.
Arguments consent_records {USD} _.
Arguments spam_assessments {USD} _.
Arguments routing_attempts {USD} _.
Arguments provider_deliveries {USD} _.
Arguments lead_outcomes {USD} _.
Arguments analytics_events {USD} _.
Arguments service_families {USD} _.
Arguments properties {USD} _.
Arguments property_versions {USD} _.
Arguments domain_candidates {USD} _.
Arguments domain_registrations {USD} _.
Arguments assets {USD} _.
Arguments site_configs {USD} _.
Arguments site_builds {USD} _.
Arguments compliance_reviews {USD} _.
Arguments deployments {USD} _.
Arguments provider_runtime {USD} _.
Arguments db_dialect {USD} _.
#[export] Instance eta_Db (USD : Type) : Eta (Db USD) := λ r,
  Build_Db (opportunities r) (opportunity_reviews r) (evidence_overrides r)
    (serp_snapshots r) (serp_results r) (provider_candidates r) (markets r)
    (keyword_decisions r) (competitor_metrics r) (full_opportunity_scores r)
    (scan_runs r) (scan_actual_costs r) (scan_plan_calls r) (api_calls r) (provider_daily_usage r)
    (provider_qualifications r) (billing_reconciliations r) (routing_profiles r)
    (provider_assignments r) (leads r) (lead_events r) (consent_records r)
    (spam_assessments r) (routing_attempts r) (provider_deliveries r) (lead_outcomes r)
    (analytics_events r) (service_families r) (properties r) (property_versions r)
    (domain_candidates r) (domain_registrations r) (assets r) (site_configs r)
    (site_builds r) (compliance_reviews r) (deployments r) (provider_runtime r)
    (db_dialect r).

(** An empty database (for the evaluated examples). *)
Definition empty_db {USD : Type} : Db USD :=
  Build_Db ∅ ∅ ∅ ∅ ∅ ∅ ∅ ∅ ∅ ∅ ∅ ∅ ∅ ∅ ∅ ∅ ∅ ∅ ∅ ∅ ∅ ∅ ∅ ∅ ∅ ∅ ∅ ∅ ∅ ∅ ∅ ∅ ∅ ∅ ∅ ∅ ∅ ∅ sqlite.

(** ** Exceptions *)

(** The ways [CircuitOpenError] is raised (services/cost_controls.py). *)
Inductive CircuitReason : Type :=
| live_calls_disabled | kill_switch_active | production_disabled | full_scans_disabled
| abnormal_call_cost | attempt_missing | attempt_not_eligible | attempt_not_reserved
| production_request_limit | production_spend_limit | testing_spend_limit
| repeated_unexpected_calls | failure_rate_exceeded | schema_drift_exceeded
| qualification_missing | billing_not_reconciled.

Inductive exn : Type :=
| ScanLeaseLost
| CircuitOpenError (reason : CircuitReason)
| ScanCancelled
| ConfigurationError
| TimeoutError
| TransportTimeout
| TransportError (name : string)
| OperationalError
| DataForSEOError (message : string)
| DataForSEOPlanError
| DataForSEOAuthenticationError
| DataForSEORateLimitError
| DataForSEOSchemaError
| RuntimeError
| ValueError (message : string)
| OverflowError
| IntegrityError
| OpportunityReviewError (code : string)
| ProviderAssignmentError (code : string)
| LeadRoutingError (code : string)
| LeadAccessDenied (code : string)
| LookupError (code : string)
| PropertyWorkflowError (code : string)
| AssertionError
| RateLimitExceeded (code : string).

(** A computation in a database session. *)
Abbreviation Session USD A := (M (Db USD) exn A).

(** ** settings.py, the settings the modelled code reads *)
Record Settings (USD : Type) : Type := {
  allow_live_api_calls : bool;
  allow_production_dataforseo : bool;
  paid_call_kill_switch : bool;
  allow_full_scans : bool;
  scan_worker_max_attempts : Z;
  scan_worker_retry_base_seconds : binary64;
  scan_worker_retry_max_seconds : binary64;
  scan_worker_stale_after_seconds : binary64;
  scan_worker_long_running_seconds : binary64;
  production_daily_request_limit : Z;
  production_daily_spend_usd : USD;
  testing_daily_spend_usd : USD;
  single_call_abnormal_cost_usd : USD;
  unexpected_call_breaker_threshold : Z;
  provider_failure_rate_threshold : binary64;
  schema_drift_rate_threshold : binary64;
  circuit_breaker_minimum_requests : Z;
  billing_reconciliation_max_age_hours : Z
}.
Arguments Build_Settings {USD}.
Arguments allow_live_api_calls {USD} _.
Arguments allow_production_dataforseo {USD} _.
Arguments paid_call_kill_switch {USD} _.
Arguments allow_full_scans {USD} _.
Arguments scan_worker_max_attempts {USD} _.
Arguments scan_worker_retry_base_seconds {USD} _.
Arguments scan_worker_retry_max_seconds {USD} _.
Arguments scan_worker_stale_after_seconds {USD} _.
Arguments scan_worker_long_running_seconds {USD} _.
Arguments production_daily_request_limit {USD} _.
Arguments production_daily_spend_usd {USD} _.
Arguments testing_daily_spend_usd {USD} _.
Arguments single_call_abnormal_cost_usd {USD} _.
Arguments unexpected_call_breaker_threshold {USD} _.
Arguments provider_failure_rate_threshold {USD} _.
Arguments schema_drift_rate_threshold {USD} _.
Arguments circuit_breaker_minimum_requests {USD} _.
Arguments billing_reconciliation_max_age_hours {USD} _.

(** [timedelta(seconds=f)] *)
Definition timedelta {USD : Type} (f : binary64) : Session USD Z :=
  get_or_raise (λ _, F64.timedelta_seconds f) OverflowError.
