(* ===== verification/ScanLeases.v ===== *)
(** * ScanLeases: the fencing check of services/scan_leases.py

    A worker that executes a scan holds a [ScanExecutionLease]; every write it
    makes on behalf of the scan is preceded by [assert_current_scan_lease]. *)
From S2P Require Import Prelude Binary64 Schema.

Record ScanExecutionLease : Type := {
  lease_scan_id : Z;
  lease_worker_id : string;
  lease_token : string
}.

(** The condition under which the lease is current at [checked_at].  The expiry
    is compared as the code compares it, after [_aware_utc] of the value the
    driver returns. *)
Definition lease_current (d : dialect) (scan : ScanRun) (lease : ScanExecutionLease)
    (checked_at : Z) : bool :=
  bool_decide (sc_status scan = SRunning)
  && bool_decide (sc_worker_id scan = Some (lease_worker_id lease))
  && bool_decide (sc_lease_token scan = Some (lease_token lease))
  && match sc_lease_expires_at scan with
     | Some e => checked_at <? instant (aware_utc (column_read d e))
     | None => false
     end.

Section leases.
Context {USD : Type}.

Definition assert_current_scan_lease (lease : ScanExecutionLease) (now : Z)
    : Session USD unit :=
  get_or_raise (λ db, scan_runs db !! lease_scan_id lease) ScanLeaseLost ≫= λ row,
  gets db_dialect ≫= λ d,
  raise_if (negb (lease_current d row lease now)) ScanLeaseLost.

(** The lease row as the model's clients use it: held, and not expired. *)
Definition holds_lease (db : Db USD) (lease : ScanExecutionLease) (now : Z) : Prop :=
  ∃ scan e, scan_runs db !! lease_scan_id lease = Some scan
    ∧ sc_status scan = SRunning
    ∧ sc_worker_id scan = Some (lease_worker_id lease)
    ∧ sc_lease_token scan = Some (lease_token lease)
    ∧ sc_lease_expires_at scan = Some e ∧ now < e.

Lemma lease_current_spec d scan lease now :
  lease_current d scan lease now = true ↔
  sc_status scan = SRunning ∧ sc_worker_id scan = Some (lease_worker_id lease)
  ∧ sc_lease_token scan = Some (lease_token lease)
  ∧ ∃ e, sc_lease_expires_at scan = Some e ∧ now < e.
Proof.
  unfold lease_current. rewrite !andb_true_iff, !bool_decide_eq_true.
  destruct (sc_lease_expires_at scan) as [e|].
  - rewrite aware_utc_column_read. simpl. rewrite Z.sub_0_r, Z.ltb_lt. naive_solver.
  - naive_solver.
Qed.

Lemma assert_lease_run (db : Db USD) lease now :
  (holds_lease db lease now ∧ assert_current_scan_lease lease now db = (Ok tt, db))
  ∨ (¬ holds_lease db lease now
     ∧ assert_current_scan_lease lease now db = (Raise ScanLeaseLost, db)).
Proof.
  unfold assert_current_scan_lease, get_or_raise, gets, raise_if, mbind, M_bind, raise.
  destruct (scan_runs db !! lease_scan_id lease) as [scan|] eqn:Hrow; simpl.
  - destruct (lease_current (db_dialect db) scan lease now) eqn:Hc; simpl.
    + left. split; [|done]. apply lease_current_spec in Hc.
      destruct Hc as (? & ? & ? & e & ? & ?). by exists scan, e.
    + right. split; [|done]. intros (s & e & Hs & H). rewrite Hrow in Hs.
      injection Hs as <-.
      assert (lease_current (db_dialect db) scan lease now = true); [|congruence].
      apply lease_current_spec. naive_solver.
  - right. split; [|done]. intros (s & e & Hs & _). congruence.
Qed.

Lemma assert_lease_ok (db : Db USD) lease now u db' :
  assert_current_scan_lease lease now db = (Ok u, db') ↔
  holds_lease db lease now ∧ db' = db.
Proof.
  destruct (assert_lease_run db lease now) as [[H ->]|[H ->]]; destruct u; naive_solver.
Qed.

(** The check never writes. *)
Lemma assert_lease_state (db : Db USD) lease now :
  (assert_current_scan_lease lease now db).2 = db.
Proof. by destruct (assert_lease_run db lease now) as [[_ ->]|[_ ->]]. Qed.

(** [if execution_lease is not None: assert_current_scan_lease(...)] *)
Definition assert_optional_lease (lease : option ScanExecutionLease) (now : Z)
    : Session USD unit :=
  match lease with
  | Some l => assert_current_scan_lease l now
  | None => mret tt
  end.

Lemma assert_optional_ok (db : Db USD) lease now u db' :
  assert_optional_lease lease now db = (Ok u, db') ↔
  (∀ l, lease = Some l → holds_lease db l now) ∧ db' = db.
Proof.
  destruct lease as [l|]; simpl.
  - rewrite assert_lease_ok. naive_solver.
  - rewrite ret_ok. destruct u. naive_solver.
Qed.

Lemma assert_optional_state (db : Db USD) lease now :
  (assert_optional_lease lease now db).2 = db.
Proof. destruct lease; [apply assert_lease_state|done]. Qed.
End leases.
