(* ===== verification/CostControls.v ===== *)
(** * CostControls: the durable spend ledger of services/cost_controls.py

    Every paid provider call takes a reservation in two usage buckets (the
    provider's daily summary, whose endpoint is empty, and the endpoint's own
    bucket), is submitted, and is settled: finished, reconciled after its
    worker died, or resolved by an operator.  The operations below are the
    handlers of the source; the theorems are in CostControlsProofs. *)
From S2P Require Import Prelude Binary64 Schema ScanLeases.

Section cost_controls.
Context {USD : Type} `{Amount USD}.
Implicit Types (db : Db USD) (settings : Settings USD).

Record UsageReservation : Type := {
  ur_usage_date : Z;
  ur_usage_class : UsageClass;
  ur_provider : string;
  ur_endpoint : string;
  ur_estimated_cost_usd : USD;
  ur_api_call_id : option Z
}.

(** ** Buckets *)

Definition zero_usage : ProviderDailyUsage USD :=
  Build_ProviderDailyUsage 0 0%amt 0%amt 0%amt 0 0 0 0 0.

Definition usage_row db (k : BucketKey) : ProviderDailyUsage USD :=
  default zero_usage (provider_daily_usage db !! k).

Definition set_bucket (k : BucketKey) (b : ProviderDailyUsage USD) db : Db USD :=
  db <| provider_daily_usage ::= <[k := b]> |>.

(** [_locked_bucket]: insert the row unless it exists, then read it. *)
Definition _locked_bucket (k : BucketKey) : Session USD (ProviderDailyUsage USD) :=
  modify (λ db, match provider_daily_usage db !! k with
                | Some _ => db
                | None => set_bucket k zero_usage db
                end) ≫= λ _,
  get_or_raise (λ db, provider_daily_usage db !! k) RuntimeError.

(** The bucket object is shared: an update goes to the stored row. *)
Definition update_bucket (k : BucketKey)
    (f : ProviderDailyUsage USD → ProviderDailyUsage USD) : Session USD unit :=
  _locked_bucket k ≫= λ _, modify (λ db, set_bucket k (f (usage_row db k)) db).

(** [session.get(ApiCallORM, id)] and attribute assignment on it. *)
Definition update_call (i : Z) (f : ApiCall USD → ApiCall USD) : Session USD unit :=
  modify (λ db, db <| api_calls ::= alter f i |>).

Definition _usage_class (environment : string) : UsageClass :=
  if bool_decide (py_lower (py_strip environment) = "production"%string)
  then production else testing.

(** ** The paid-call gates *)

Definition _assert_switches settings (environment scan_profile : string)
    : Session USD unit :=
  raise_if (negb (allow_live_api_calls settings))
    (CircuitOpenError live_calls_disabled) ≫= λ _,
  raise_if (paid_call_kill_switch settings)
    (CircuitOpenError kill_switch_active) ≫= λ _,
  raise_if (bool_decide (environment = "production"%string)
            && negb (allow_production_dataforseo settings))
    (CircuitOpenError production_disabled) ≫= λ _,
  raise_if (bool_decide (scan_profile = "full"%string)
            && negb (allow_full_scans settings))
    (CircuitOpenError full_scans_disabled).

(** [services/qualification.py: current_qualification] *)
Definition current_qualification db (provider environment adapter_version : string)
    (now : Z) : option (Z * ProviderQualification) :=
  match select_latest q_qualified_at
      (λ _ q, bool_decide (q_provider q = provider)
            && bool_decide (q_environment q = environment)
            && bool_decide (q_adapter_version q = adapter_version)
            && bool_decide (q_execution_method q = "executable_runner"%string))
      (provider_qualifications db) with
  | None => None
  | Some (i, latest) =>
      if negb (bool_decide (q_status latest = "passed"%string))
         || negb (q_gate_eligible latest)
         || (instant (aware_utc (column_read (db_dialect db) (q_expires_at latest)))
             <=? now)
      then None else Some (i, latest)
  end.

Definition latest_reconciliation db (p : BillingReconciliation USD → bool)
    : option (Z * BillingReconciliation USD) :=
  select_latest br_reconciled_at (λ _ r, p r) (billing_reconciliations db).

(** [select(func.min(ApiCallORM.completed_at)).where(...)] *)
Definition oldest_paid_call db (provider : string) : option Z :=
  foldr (λ kr acc,
    match ac_completed_at kr.2, acc with
    | Some t, Some u => Some (Z.min t u)
    | Some t, None => Some t
    | None, _ => acc
    end) None
    (select (λ _ c, bool_decide (ac_provider c = provider)
                  && bool_decide (ac_status c = CCompleted)
                  && (0 <? ac_actual_cost_usd c)%amt
                  && bool_decide (is_Some (ac_completed_at c))) (api_calls db)).

(** int / int is the correctly rounded quotient. *)
Definition rate (count requests : Z) : binary64 :=
  F64.div (F64.of_Z count) (F64.of_Z (Z.max 1 requests)).

Definition projected_spend (b : ProviderDailyUsage USD) (estimated : USD) : USD :=
  (u_spend_usd b + u_reserved_spend_usd b + u_unreconciled_spend_usd b + estimated)%amt.

Definition billing_unreconciled db settings (provider environment : string) (now : Z)
    : bool :=
  let cutoff := now - billing_reconciliation_max_age_hours settings * hour_us in
  let read t := instant (aware_utc (column_read (db_dialect db) t)) in
  match latest_reconciliation db
          (λ r, bool_decide (br_provider r = provider)
              && bool_decide (br_environment r = environment)) with
  | Some (_, r) =>
      negb (bool_decide (br_status r = "clean"%string))
      || (read (br_reconciled_at r) <? cutoff)
  | None =>
      match oldest_paid_call db provider with
      | Some t => read t <? cutoff
      | None => false
      end
  end.

Definition _assert_durable_breakers settings (summary : ProviderDailyUsage USD)
    (environment provider adapter_version : string) (usage_class : UsageClass)
    (estimated : USD) (require_current_qualification : bool) (now : Z)
    : Session USD unit :=
  let projected := projected_spend summary estimated in
  (match usage_class with
   | production =>
       raise_if (production_daily_request_limit settings <=? u_request_count summary)
         (CircuitOpenError production_request_limit) ≫= λ _,
       raise_if (production_daily_spend_usd settings <? projected)%amt
         (CircuitOpenError production_spend_limit)
   | testing =>
       raise_if (testing_daily_spend_usd settings <? projected)%amt
         (CircuitOpenError testing_spend_limit)
   end) ≫= λ _,
  raise_if (unexpected_call_breaker_threshold settings <=? u_unexpected_call_count summary)
    (CircuitOpenError repeated_unexpected_calls) ≫= λ _,
  when (circuit_breaker_minimum_requests settings <=? u_request_count summary)
    (raise_if (F64.ltb (provider_failure_rate_threshold settings)
                 (rate (u_provider_failure_count summary) (u_request_count summary)))
       (CircuitOpenError failure_rate_exceeded) ≫= λ _,
     raise_if (F64.ltb (schema_drift_rate_threshold settings)
                 (rate (u_schema_drift_count summary) (u_request_count summary)))
       (CircuitOpenError schema_drift_exceeded)) ≫= λ _,
  when (bool_decide (environment = "production"%string)
        && bool_decide (usage_class = production))
    (when require_current_qualification
       (gets (λ db, current_qualification db provider environment adapter_version now)
        ≫= λ q, raise_if (bool_decide (q = None)) (CircuitOpenError qualification_missing))
     ≫= λ _,
     gets (λ db, billing_unreconciled db settings provider environment now) ≫= λ bad,
     raise_if bad (CircuitOpenError billing_not_reconciled)).

(** ** Reservation *)

Definition eligible_call (c : ApiCall USD) : bool :=
  bool_decide (ac_reservation_state c = RNone)
  && bool_decide (ac_attempt_state c = APrepared).

Definition check_attempt (api_call_id : option Z) : Session USD unit :=
  match api_call_id with
  | None => mret tt
  | Some i =>
      get_or_raise (λ db, api_calls db !! i) (CircuitOpenError attempt_missing) ≫= λ c,
      raise_if (negb (eligible_call c)) (CircuitOpenError attempt_not_eligible)
  end.

Definition reserve_in (estimated : USD) (cache_miss : bool) (b : ProviderDailyUsage USD)
    : ProviderDailyUsage USD :=
  b <| u_request_count ::= Z.add 1 |>
    <| u_reserved_spend_usd ::= λ x, (x + estimated)%amt |>
    <| u_cache_miss_count ::= λ n, if cache_miss then n + 1 else n |>.

Definition mark_reserved (usage_date : Z) (usage_class : UsageClass) (estimated : USD)
    (c : ApiCall USD) : ApiCall USD :=
  c <| ac_reservation_state := RReserved |>
    <| ac_reservation_usage_date := Some usage_date |>
    <| ac_reservation_usage_class := Some usage_class |>
    <| ac_reservation_estimated_cost_usd := estimated |>
    <| ac_attempt_state := AReserved |>.

Definition reserve_provider_call settings
    (provider environment adapter_version endpoint : string) (estimated : USD)
    (scan_profile : string) (cache_miss require_current_qualification : bool)
    (api_call_id : option Z) (execution_lease : option ScanExecutionLease) (now : Z)
    : Session USD UsageReservation :=
  let usage_class := _usage_class environment in
  let key e := Build_BucketKey (date_of now) usage_class provider e in
  assert_optional_lease execution_lease now ≫= λ _,
  _assert_switches settings environment scan_profile ≫= λ _,
  raise_if (single_call_abnormal_cost_usd settings <? estimated)%amt
    (CircuitOpenError abnormal_call_cost) ≫= λ _,
  check_attempt api_call_id ≫= λ _,
  _locked_bucket (key ""%string) ≫= λ summary,
  _locked_bucket (key endpoint) ≫= λ _,
  _assert_durable_breakers settings summary environment provider adapter_version
    usage_class estimated require_current_qualification now ≫= λ _,
  update_bucket (key ""%string) (reserve_in estimated cache_miss) ≫= λ _,
  update_bucket (key endpoint) (reserve_in estimated cache_miss) ≫= λ _,
  match api_call_id with
  | Some i => update_call i (mark_reserved (date_of now) usage_class estimated)
  | None => mret tt
  end ≫= λ _,
  mret {| ur_usage_date := date_of now; ur_usage_class := usage_class;
          ur_provider := provider; ur_endpoint := endpoint;
          ur_estimated_cost_usd := estimated; ur_api_call_id := api_call_id |}.

(** ** Submission *)

Definition mark_submitted (now : Z) (c : ApiCall USD) : ApiCall USD :=
  c <| ac_attempt_state := AInFlight |>
    <| ac_provider_outcome := PSubmitted |>
    <| ac_network_started_at := Some now |>
    <| ac_status := CInFlight |>.

Definition mark_provider_call_submitted (r : UsageReservation)
    (execution_lease : option ScanExecutionLease) (now : Z) : Session USD unit :=
  assert_optional_lease execution_lease now ≫= λ _,
  match ur_api_call_id r with
  | None => mret tt
  | Some i =>
      get_or_raise (λ db, api_calls db !! i) (CircuitOpenError attempt_not_reserved)
      ≫= λ c,
      raise_if (negb (bool_decide (ac_reservation_state c = RReserved)
                      && bool_decide (ac_attempt_state c = AReserved)))
        (CircuitOpenError attempt_not_reserved) ≫= λ _,
      update_call i (mark_submitted now)
  end.

(** ** Settlement *)

Definition settled (s : ReservationState) : bool :=
  match s with RFinalized | RReleased | RReconciledUnknown => true | _ => false end.

Definition settle_in (estimated actual : USD)
    (failed schema_drift abnormal_cost outcome_unknown : bool)
    (b : ProviderDailyUsage USD) : ProviderDailyUsage USD :=
  let b := b <| u_reserved_spend_usd ::= λ x, amt_max0 (x - estimated)%amt |> in
  let b := if outcome_unknown
           then b <| u_unreconciled_spend_usd ::= λ x, (x + estimated)%amt |>
           else b <| u_spend_usd ::= λ x, (x + amt_max0 actual)%amt |> in
  b <| u_provider_failure_count ::= λ n, if failed then n + 1 else n |>
    <| u_schema_drift_count ::= λ n, if schema_drift then n + 1 else n |>
    <| u_abnormal_cost_count ::= λ n, if abnormal_cost then n + 1 else n |>.

Definition mark_finished (outcome_unknown : bool) (now : Z) (c : ApiCall USD)
    : ApiCall USD :=
  let c := c <| ac_reservation_state :=
                  if outcome_unknown then RReconciledUnknown else RFinalized |>
             <| ac_reconciled_at := Some now |> in
  if outcome_unknown
  then c <| ac_attempt_state := AProviderOutcomeUnknown |>
         <| ac_provider_outcome := PUnknown |>
         <| ac_status := CProviderOutcomeUnknown |>
  else c.

Definition reservation_call (r : UsageReservation) db : option (ApiCall USD) :=
  match ur_api_call_id r with Some i => api_calls db !! i | None => None end.

Definition reservation_key (r : UsageReservation) (endpoint : string) : BucketKey :=
  Build_BucketKey (ur_usage_date r) (ur_usage_class r) (ur_provider r) endpoint.

Definition finish_provider_call (r : UsageReservation) (actual : USD)
    (failed schema_drift abnormal_cost outcome_unknown : bool) (now : Z)
    : Session USD unit :=
  gets (reservation_call r) ≫= λ api_call,
  match api_call with
  | Some c =>
      if settled (ac_reservation_state c) then mret tt
      else
        for_each (λ e, update_bucket (reservation_key r e)
                        (settle_in (ur_estimated_cost_usd r) actual failed schema_drift
                           abnormal_cost outcome_unknown))
          [""%string; ur_endpoint r] ≫= λ _,
        match ur_api_call_id r with
        | Some i => update_call i (mark_finished outcome_unknown now)
        | None => mret tt
        end
  | None =>
      for_each (λ e, update_bucket (reservation_key r e)
                      (settle_in (ur_estimated_cost_usd r) actual failed schema_drift
                         abnormal_cost outcome_unknown))
        [""%string; ur_endpoint r]
  end.

(** ** Recovery of stale attempts *)

Definition class_or_testing (c : option UsageClass) : UsageClass := default testing c.

Definition release_in (estimated : USD) (unknown : bool) (b : ProviderDailyUsage USD)
    : ProviderDailyUsage USD :=
  let b := b <| u_reserved_spend_usd ::= λ x, amt_max0 (x - estimated)%amt |> in
  if unknown then b <| u_unreconciled_spend_usd ::= λ x, (x + estimated)%amt |> else b.

Definition call_key (c : ApiCall USD) (date : Z) (endpoint : string) : BucketKey :=
  Build_BucketKey date (class_or_testing (ac_reservation_usage_class c))
    (ac_provider c) endpoint.

Definition _reconcile_attempt_reservation (i : Z) (c : ApiCall USD) (unknown : bool)
    (now : Z) : Session USD unit :=
  match ac_reservation_state c, ac_reservation_usage_date c with
  | RReserved, Some date =>
      for_each (λ e, update_bucket (call_key c date e)
                      (release_in (ac_reservation_estimated_cost_usd c) unknown))
        [""%string; ac_endpoint c] ≫= λ _,
      update_call i (λ c,
        c <| ac_reservation_state := if unknown then RReconciledUnknown else RReleased |>
          <| ac_reconciled_at := Some now |>)
  | _, _ => mret tt
  end.

Definition unknown_outcome_summary : string :=
  "Worker stopped after provider submission; outcome requires billing or provider-side reconciliation and will not be retried automatically.".
Definition released_summary : string :=
  "Worker stopped before provider submission; reservation released.".

Definition mark_stale (sent : bool) (now : Z) (c : ApiCall USD) : ApiCall USD :=
  let c :=
    if sent
    then c <| ac_status := CProviderOutcomeUnknown |>
           <| ac_attempt_state := AProviderOutcomeUnknown |>
           <| ac_provider_outcome := PUnknown |>
           <| ac_error_type := Some "StaleProviderAttempt"%string |>
           <| ac_error_summary := Some unknown_outcome_summary |>
    else c <| ac_status := CFailedBeforeNetwork |>
           <| ac_attempt_state := AFailedBeforeNetwork |>
           <| ac_provider_outcome := PNotSent |>
           <| ac_error_type := Some "StaleProviderAttempt"%string |>
           <| ac_error_summary := Some released_summary |> in
  c <| ac_completed_at := Some now |> <| ac_reconciled_at := Some now |>.

Definition open_attempt (s : AttemptState) : bool :=
  match s with APrepared | AReserved | AInFlight => true | _ => false end.

Definition stale_attempt (stale_before : Z) (scan_run_id : option Z) (c : ApiCall USD)
    : bool :=
  open_attempt (ac_attempt_state c)
  && match ac_started_at c with Some t => t <? stale_before | None => false end
  && match scan_run_id with
     | Some s => bool_decide (ac_scan_run_id c = Some s)
     | None => true
     end.

(** [row.network_started_at is not None or row.attempt_state == "in_flight"] *)
Definition was_sent (c : ApiCall USD) : bool :=
  bool_decide (is_Some (ac_network_started_at c))
  || bool_decide (ac_attempt_state c = AInFlight).

Definition reconcile_one (now : Z) (i : Z) : Session USD unit :=
  get_or_raise (λ db, api_calls db !! i) RuntimeError ≫= λ c,
  _reconcile_attempt_reservation i c (was_sent c) now ≫= λ _,
  update_call i (mark_stale (was_sent c) now).

Definition reconcile_stale_api_call_attempts (stale_before : Z)
    (scan_run_id : option Z) (now : Z) : Session USD Z :=
  gets (λ db, (select (λ _ c, stale_attempt stale_before scan_run_id c)
                 (api_calls db)).*1) ≫= λ rows,
  for_each (reconcile_one now) rows ≫= λ _,
  mret (Z.of_nat (length rows)).

(** ** Operator resolution of an unknown outcome *)

Inductive Outcome : Type := billed | not_billed.

(** The request's [outcome] string; anything else is rejected. *)
Definition parse_outcome (s : string) : option Outcome :=
  if bool_decide (s = "billed"%string) then Some billed
  else if bool_decide (s = "not_billed"%string) then Some not_billed
  else None.

Definition awaiting_resolution (c : ApiCall USD) : bool :=
  bool_decide (ac_attempt_state c = AProviderOutcomeUnknown)
  && (bool_decide (ac_reservation_state c = RNone)
      || bool_decide (ac_reservation_state c = RReconciledUnknown)).

Definition resolve_in (estimated actual : USD) (b : ProviderDailyUsage USD)
    : ProviderDailyUsage USD :=
  b <| u_unreconciled_spend_usd ::= λ x, amt_max0 (x - estimated)%amt |>
    <| u_spend_usd ::= λ x, (x + actual)%amt |>.

Definition newline : string := String (Ascii.ascii_of_nat 10) EmptyString.

Definition mark_resolved (outcome : Outcome) (actual : USD) (note : string) (now : Z)
    (c : ApiCall USD) : ApiCall USD :=
  c <| ac_actual_cost_usd := actual |>
    <| ac_attempt_state := AReconciled |>
    <| ac_provider_outcome :=
         match outcome with billed => PBilled | not_billed => PNotBilled end |>
    <| ac_reservation_state := RFinalized |>
    <| ac_status :=
         match outcome with
         | billed => CCompleted
         | not_billed => CProviderConfirmedNotBilled
         end |>
    <| ac_reconciled_at := Some now |>
    <| ac_completed_at := Some now |>
    <| ac_error_summary ::= λ s,
         Some (py_strip (default ""%string s +:+ newline +:+ "Resolution: "%string
                         +:+ note)) |>.

Definition resolve_unknown_provider_call (api_call_id : Z) (outcome : string)
    (actual : USD) (note : string) (now : Z) : Session USD (ApiCall USD) :=
  get_or_raise (λ _, parse_outcome outcome)
    (ValueError "outcome must be 'billed' or 'not_billed'.") ≫= λ o,
  raise_if (actual <? 0)%amt (ValueError "actual_cost_usd cannot be negative.") ≫= λ _,
  raise_if (negb (str_truthy (py_strip note)))
    (ValueError "An auditable resolution note is required.") ≫= λ _,
  get_or_raise (λ db, api_calls db !! api_call_id)
    (ValueError "API call is not awaiting provider-outcome reconciliation.") ≫= λ c,
  raise_if (negb (awaiting_resolution c))
    (ValueError "API call is not awaiting provider-outcome reconciliation.") ≫= λ _,
  match ac_reservation_usage_date c with
  | Some date =>
      for_each (λ e, update_bucket (call_key c date e)
                      (resolve_in (ac_reservation_estimated_cost_usd c) actual))
        [""%string; ac_endpoint c]
  | None => mret tt
  end ≫= λ _,
  update_call api_call_id (mark_resolved o actual note now) ≫= λ _,
  mret (mark_resolved o actual note now c).

Definition record_unexpected_call (provider environment endpoint : string) (now : Z)
    : Session USD unit :=
  for_each (λ e, update_bucket
      (Build_BucketKey (date_of now) (_usage_class environment) provider e)
      (λ b, b <| u_unexpected_call_count ::= Z.add 1 |>))
    [""%string; endpoint].
End cost_controls.
Arguments UsageReservation : clear implicits.
