(* ===== verification/LiveCalls.v ===== *)
(** * LiveCalls: the paid-call protocol of integrations/dataforseo/live.py

    A request to the provider runs in three database transactions around the
    network call: the attempt row is prepared (or a failed one is reused), a
    reservation is taken and the attempt is marked submitted; when the network
    call is over the attempt and its reservation are settled together. *)
From S2P Require Import Prelude Binary64 Schema ScanLeases CostControls.

(** The attributes of [DataForSEOLiveProvider] the protocol reads. *)
Record LiveProvider : Type := {
  provider_name : string;
  api_environment : string;
  adapter_version : string;
  scan_depth : string;
  force_refresh : bool;
  allow_unplanned_requests : bool;
  current_scan_run_id : option Z;
  execution_lease : option ScanExecutionLease
}.

(** The identifiers the provider gave a task and its request *)
Record ProviderIds : Type := {
  task_id : option string;
  request_id : option string
}.

Section live.
Context {USD : Type} `{Amount USD}.
(** [type(error).__name__] and [str(error)] *)
Context (type_name error_text : exn → string).
Implicit Types (db : Db USD) (settings : Settings USD) (p : LiveProvider).

(** ** Matching a request with the scan plan *)

(** The statuses of an attempt whose planned request may be used again. *)
Definition retryable_status (s : CallStatus) : bool :=
  match s with CFailed | CFailedBeforeNetwork | CBlocked => true | _ => false end.

(** The attempts made for one planned request of a scan. *)
Definition attempts_for db (scan : Z) (planned : string) (q : CallStatus → bool)
    : list (Z * ApiCall USD) :=
  select (λ _ c, bool_decide (ac_scan_run_id c = Some scan)
               && bool_decide (ac_planned_request_id c = Some planned)
               && q (ac_status c)) (api_calls db).

Definition consumed db (scan : Z) (planned : string) : bool :=
  bool_decide (attempts_for db scan planned (λ s, negb (retryable_status s)) ≠ []).

Definition plan_matches p (scan : Z) (path : string) (c : ScanPlanCall USD) : bool :=
  bool_decide (plan_scan_run_id c = scan)
  && bool_decide (plan_provider c = provider_name p)
  && bool_decide (plan_endpoint c = path).

Definition _planned_call p (path cache_key : string) db : option (ScanPlanCall USD) :=
  match current_scan_run_id p with
  | None => None
  | Some scan =>
      let matching := (select (λ _ c, plan_matches p scan path c) (scan_plan_calls db)).*2 in
      let unused := List.filter (λ c,
        match plan_planned_request_id c with
        | Some planned => negb (consumed db scan planned)
        | None => false
        end) matching in
      match head (List.filter (λ c, plan_request_known c
                    && bool_decide (plan_cache_key c = cache_key)) unused) with
      | Some c => Some c
      | None =>
          if existsb plan_request_known matching then None
          else head (List.filter (λ c, negb (plan_request_known c)) unused)
      end
  end.

Definition lease_worker (l : option ScanExecutionLease) : option string :=
  lease_worker_id <$> l.
Definition lease_token_of (l : option ScanExecutionLease) : option string :=
  lease_token <$> l.

Definition _unplanned_estimated_cost p (path : string) : USD :=
  if negb (allow_unplanned_requests p)
     || negb (bool_decide (api_environment p = "production"%string)) then 0%amt
  else if bool_decide (path = "/v3/dataforseo_labs/google/keyword_suggestions/live"%string)
  then amt_micros 12000
  else if bool_decide (path = "/v3/dataforseo_labs/google/historical_search_volume/live"%string)
  then amt_micros 12000
  else if bool_decide (path = "/v3/serp/google/organic/live/advanced"%string)
  then amt_micros 2000
  else if bool_decide (path = "/v3/backlinks/summary/live"%string) then amt_micros 20000
  else if bool_decide (path = "/v3/business_data/business_listings/search/live"%string)
  then amt_micros 10000
  else 0%amt.

(** [float(plan.get("estimated_cost_usd") or self._unplanned_estimated_cost(path))] *)
Definition estimated_cost p (path : string) (plan : option (ScanPlanCall USD)) : USD :=
  match plan with
  | Some c =>
      if amt_eqb (plan_estimated_cost_usd c) 0%amt then _unplanned_estimated_cost p path
      else plan_estimated_cost_usd c
  | None => _unplanned_estimated_cost p path
  end.

(** ** Preparing an attempt *)

Definition prepared_row p (path cache_key token : string) (plan : option (ScanPlanCall USD))
    (raw : option ProviderIds) (cache_hit force : bool) (now : Z) : ApiCall USD := {|
  ac_scan_run_id := current_scan_run_id p;
  ac_planned_request_id := plan ≫= plan_planned_request_id;
  ac_provider := provider_name p;
  ac_endpoint := path;
  ac_estimated_cost_usd := estimated_cost p path plan;
  ac_actual_cost_usd := 0%amt;
  ac_status := if cache_hit then CCacheHit else CPrepared;
  ac_error_type := None;
  ac_error_summary := None;
  ac_started_at := Some now;
  ac_completed_at := if cache_hit then Some now else None;
  ac_attempt_state := if cache_hit then ACacheHit else APrepared;
  ac_provider_outcome := PNotSent;
  ac_reservation_state := RNone;
  ac_reservation_usage_date := None;
  ac_reservation_usage_class := None;
  ac_reservation_estimated_cost_usd := 0%amt;
  ac_network_started_at := None;
  ac_reconciled_at := None;
  ac_cache_key := cache_key;
  ac_cache_hit := cache_hit;
  ac_force_refresh := force;
  ac_attempt_token := Some token;
  ac_execution_worker_id := lease_worker (execution_lease p);
  ac_execution_lease_token := lease_token_of (execution_lease p);
  ac_provider_task_id := raw ≫= task_id;
  ac_provider_request_id := raw ≫= request_id
|}.

(** A failed attempt's row is used again; its estimate, recorded cost, stage
    and cache key stay. *)
Definition reuse_row p (token : string) (raw : option ProviderIds) (cache_hit force : bool) (now : Z)
    (c : ApiCall USD) : ApiCall USD :=
  c <| ac_provider_task_id := match raw with Some r => task_id r | None => ac_provider_task_id c end |>
    <| ac_provider_request_id :=
         match raw with Some r => request_id r | None => ac_provider_request_id c end |>
    <| ac_status := if cache_hit then CCacheHit else CPrepared |>
    <| ac_attempt_state := if cache_hit then ACacheHit else APrepared |>
    <| ac_provider_outcome := PNotSent |>
    <| ac_reservation_state := RNone |>
    <| ac_reservation_usage_date := None |>
    <| ac_reservation_usage_class := None |>
    <| ac_reservation_estimated_cost_usd := 0%amt |>
    <| ac_network_started_at := None |>
    <| ac_reconciled_at := None |>
    <| ac_attempt_token := Some token |>
    <| ac_execution_worker_id := lease_worker (execution_lease p) |>
    <| ac_execution_lease_token := lease_token_of (execution_lease p) |>
    <| ac_started_at := Some now |>
    <| ac_completed_at := if cache_hit then Some now else None |>
    <| ac_error_type := None |>
    <| ac_error_summary := None |>
    <| ac_cache_hit := cache_hit |>
    <| ac_force_refresh := force |>.

(** The row of the failed attempt to use again, if any. *)
Definition reusable_attempt p (plan : option (ScanPlanCall USD)) db
    : option (Z * ApiCall USD) :=
  match plan ≫= plan_planned_request_id, current_scan_run_id p with
  | Some planned, Some scan => head (attempts_for db scan planned retryable_status)
  | _, _ => None
  end.

(** A finished call of the same scan with the same cache key. *)
Definition existing_result p (path cache_key : string) db : option (Z * ApiCall USD) :=
  match current_scan_run_id p with
  | Some scan =>
      select_first (λ _ c, bool_decide (ac_scan_run_id c = Some scan)
        && bool_decide (ac_endpoint c = path) && bool_decide (ac_cache_key c = cache_key)
        && (bool_decide (ac_status c = CCompleted) || bool_decide (ac_status c = CCacheHit)))
        (api_calls db)
  | None => None
  end.

(** [uq_api_calls_scan_planned_request] *)
Definition planned_request_taken (row : ApiCall USD) db : bool :=
  match ac_scan_run_id row, ac_planned_request_id row with
  | Some scan, Some planned =>
      bool_decide (attempts_for db scan planned (λ _, true) ≠ [])
  | _, _ => false
  end.

(** [session.add(row); session.flush()], and the handling of the unique
    constraint's [IntegrityError]. *)
Definition insert_attempt (row : ApiCall USD) : Session USD Z :=
  gets (planned_request_taken row) ≫= λ taken,
  raise_if taken DataForSEOPlanError ≫= λ _,
  gets (λ db, next_id (api_calls db)) ≫= λ i,
  modify (λ db, db <| api_calls ::= <[i := row]> |>) ≫= λ _,
  mret i.

Definition prepare_attempt p (path cache_key token : string)
    (plan : option (ScanPlanCall USD)) (raw : option ProviderIds) (cache_hit force : bool) (now : Z)
    : Session USD Z :=
  gets (reusable_attempt p plan) ≫= λ retry,
  match retry with
  | Some (i, _) =>
      update_call i (reuse_row p token raw cache_hit force now) ≫= λ _, mret i
  | None => insert_attempt (prepared_row p path cache_key token plan raw cache_hit force now)
  end.

(** [raw] are the identifiers of the stored response a cache hit answers with. *)
Definition _reserve_api_call p (path cache_key token : string) (raw : option ProviderIds)
    (cache_hit force : bool) (now : Z) : Session USD Z :=
  gets (_planned_call p path cache_key) ≫= λ plan,
  gets (existing_result p path cache_key) ≫= λ existing,
  match (if cache_hit && bool_decide (is_Some (current_scan_run_id p))
            && bool_decide (plan = None) then existing else None) with
  | Some (i, _) => mret i
  | None =>
      when (bool_decide (is_Some (current_scan_run_id p)) && bool_decide (plan = None)
            && negb (allow_unplanned_requests p))
        (record_unexpected_call (provider_name p) (api_environment p) path now ≫= λ _,
         raise DataForSEOPlanError) ≫= λ _,
      prepare_attempt p path cache_key token plan raw cache_hit force now
  end.

(** ** Settling an attempt *)

Definition finish_states (status : CallStatus) (c : ApiCall USD) : ApiCall USD :=
  match status with
  | CCompleted => c <| ac_attempt_state := ACompleted |> <| ac_provider_outcome := PCompleted |>
  | CCacheHit => c <| ac_attempt_state := ACacheHit |> <| ac_provider_outcome := PNotSent |>
  | CProviderOutcomeUnknown =>
      c <| ac_attempt_state := AProviderOutcomeUnknown |> <| ac_provider_outcome := PUnknown |>
  | CFailedBeforeNetwork =>
      c <| ac_attempt_state := AFailedBeforeNetwork |> <| ac_provider_outcome := PNotSent |>
  | CBlocked => c <| ac_attempt_state := ABlocked |> <| ac_provider_outcome := PNotSent |>
  | CFailed => c <| ac_attempt_state := AFailed |> <| ac_provider_outcome := PFailed |>
  | _ => c
  end.

(** [payload]: the price and the identifiers found in it, when there is one *)
Definition finished_attempt (status : CallStatus) (payload : option (USD * ProviderIds))
    (error : option exn) (now : Z) (c : ApiCall USD) : ApiCall USD :=
  if bool_decide (ac_status c = CProviderOutcomeUnknown)
     && negb (bool_decide (status = CProviderOutcomeUnknown)) then c
  else
    let c := c <| ac_status := status |> <| ac_completed_at := Some now |> in
    let c := match payload with
             | Some (cost, ids) =>
                 c <| ac_actual_cost_usd := cost |> <| ac_provider_task_id := task_id ids |>
                   <| ac_provider_request_id := request_id ids |>
             | None => c
             end in
    let c := match error with
             | Some e => c <| ac_error_type := Some (type_name e) |>
                           <| ac_error_summary := Some (error_text e) |>
             | None => c
             end in
    finish_states status c.

Definition _finish_api_call (i : Z) (status : CallStatus) (payload : option (USD * ProviderIds))
    (error : option exn) (now : Z) : Session USD unit :=
  update_call i (finished_attempt status payload error now).

(** [_payload_cost] on the price found in the payload *)
Definition _payload_cost p (task_cost : option USD) : USD :=
  if bool_decide (api_environment p = "sandbox"%string) then 0%amt
  else default 0%amt task_cost.

(** [isinstance(exc, CircuitOpenError)] and the other tests on the exception *)
Definition is_circuit_open (e : exn) : bool :=
  match e with CircuitOpenError _ => true | _ => false end.
Definition is_lease_lost (e : exn) : bool :=
  match e with ScanLeaseLost => true | _ => false end.
Definition is_schema_error (e : exn) : bool :=
  match e with DataForSEOSchemaError => true | _ => false end.

(** The provider may have received the request and nothing tells its outcome. *)
Definition ambiguous (r : option (UsageReservation USD)) (c : ApiCall USD)
    (response : bool) (e : exn) : bool :=
  bool_decide (r ≠ None) && bool_decide (ac_network_started_at c ≠ None)
  && (negb response || is_lease_lost e).

Definition failure_status (r : option (UsageReservation USD)) (c : ApiCall USD)
    (response : bool) (e : exn) : CallStatus :=
  if ambiguous r c response e then CProviderOutcomeUnknown
  else if is_circuit_open e then CBlocked
  else if bool_decide (ac_network_started_at c = None) then CFailedBeforeNetwork
  else CFailed.

(** The [except Exception] branch of [_request]. *)
Definition fail_call (i : Z) (r : option (UsageReservation USD)) (response : bool)
    (payload : option USD) (e : exn) (now : Z) : Session USD unit :=
  get_or_raise (λ db, api_calls db !! i) RuntimeError ≫= λ c,
  _finish_api_call i (failure_status r c response e) None (Some e) now ≫= λ _,
  match r with
  | Some r =>
      finish_provider_call r (default 0%amt payload) (negb (is_circuit_open e))
        (is_schema_error e) false (ambiguous (Some r) c response e) now
  | None => mret tt
  end.

(** The [except asyncio.CancelledError] branch. *)
Definition _finish_unknown_attempt (i : Z) (r : option (UsageReservation USD)) (now : Z)
    : Session USD unit :=
  match r with
  | None => mret tt
  | Some r =>
      get_or_raise (λ db, api_calls db !! i) RuntimeError ≫= λ c,
      let sent := bool_decide (ac_network_started_at c ≠ None) in
      _finish_api_call i (if sent then CProviderOutcomeUnknown else CFailedBeforeNetwork)
        None (Some ScanLeaseLost) now ≫= λ _,
      finish_provider_call r 0%amt (negb sent) false false sent now
  end.

(** ** The request *)

(** [try: m except Exception as exc: h(exc); raise] *)
Definition try_except {A} (m : Session USD A) (h : exn → Session USD unit)
    : Session USD A := λ db,
  match m db with
  | (Ok a, db') => (Ok a, db')
  | (Raise e, db') => (h e ≫= λ _, raise e) db'
  end.

Definition _assert_execution_lease p (now : Z) : Session USD unit :=
  assert_optional_lease (execution_lease p) now.

Definition reserve_attempt settings p (path : string) (i : Z) (now : Z)
    : Session USD (UsageReservation USD) :=
  get_or_raise (λ db, api_calls db !! i) RuntimeError ≫= λ c,
  reserve_provider_call settings (provider_name p) (api_environment p) (adapter_version p)
    path (ac_estimated_cost_usd c)
    (if allow_unplanned_requests p then "testing"%string else scan_depth p)
    true (negb (allow_unplanned_requests p)) (Some i) (execution_lease p) now.

(** [_request] up to the network call. *)
Definition begin_request settings p (path cache_key token : string) (now : Z)
    : Session USD (Z * UsageReservation USD) :=
  _reserve_api_call p path cache_key token None false (force_refresh p) now ≫= λ i,
  try_except (reserve_attempt settings p path i now)
    (λ e, fail_call i None false None e now) ≫= λ r,
  try_except (mark_provider_call_submitted r (execution_lease p) now ≫= λ _,
              _assert_execution_lease p now)
    (λ e, fail_call i (Some r) false None e now) ≫= λ _,
  mret (i, r).

(** How the network call ended: an accepted payload with the price of its first
    task and its identifiers, a response [_parse_response] rejects, no response, or a cancelled
    task. *)
Inductive NetworkOutcome : Type :=
| response_accepted (task_cost : option USD) (ids : ProviderIds)
| response_rejected (e : exn)
| no_response (e : exn)
| request_cancelled.

(** [_request] after the network call. *)
Definition end_request settings p (i : Z) (r : UsageReservation USD)
    (outcome : NetworkOutcome) (now : Z) : Session USD unit :=
  match outcome with
  | request_cancelled => _finish_unknown_attempt i (Some r) now
  | no_response e => fail_call i (Some r) false None e now ≫= λ _, raise e
  | response_rejected e =>
      try_except (_assert_execution_lease p now ≫= λ _, raise e)
        (λ e, fail_call i (Some r) true None e now)
  | response_accepted task_cost ids =>
      let cost := _payload_cost p task_cost in
      try_except (_assert_execution_lease p now)
        (λ e, fail_call i (Some r) true None e now) ≫= λ _,
      _finish_api_call i CCompleted (Some (cost, ids)) None now ≫= λ _,
      finish_provider_call r cost false false
        (single_call_abnormal_cost_usd settings <? cost)%amt false now
  end.
End live.
