(* ===== verification/CostControlsProofs.v ===== *)
(** * CostControlsProofs: what the spend ledger guarantees

    First the effect of each handler as a plain function on the buckets and the
    calls, then the gates a reservation passes, the accounting identities of
    the reachable ledgers (in exact arithmetic), and the settlement theorems. *)
From S2P Require Import Prelude Binary64 Schema ScanLeases CostControls.

(** ** Bucket algebra *)
Section buckets.
Context {USD : Type} `{Amount USD}.
Implicit Types (db : Db USD) (k : BucketKey).

(** Update one bucket. *)
Definition apply_bucket (f : ProviderDailyUsage USD → ProviderDailyUsage USD)
    (k : BucketKey) db : Db USD :=
  set_bucket k (f (usage_row db k)) db.

(** Update the provider summary, then the endpoint's bucket. *)
Definition apply_pair (f : ProviderDailyUsage USD → ProviderDailyUsage USD)
    (k1 k2 : BucketKey) db : Db USD :=
  apply_bucket f k2 (apply_bucket f k1 db).

(** The same ledger: every bucket reads the same (an absent bucket reads as
    zero) and all other tables are equal. *)
Definition same_ledger db db' : Prop :=
  (∀ k, usage_row db k = usage_row db' k)
  ∧ db <| provider_daily_usage := ∅ |> = db' <| provider_daily_usage := ∅ |>.

#[export] Instance same_ledger_equiv : Equivalence same_ledger.
Proof.
  split.
  - done.
  - intros x y [Hk Hr]. split; [by intros k|done].
  - intros x y z [Hk Hr] [Hk' Hr']. split; [intros k; by rewrite Hk|congruence].
Qed.

#[export] Instance usage_row_proper : Proper (same_ledger ==> eq ==> eq) usage_row.
Proof. intros x y [Hk _] k ? <-. apply Hk. Qed.

#[export] Instance api_calls_proper : Proper (same_ledger ==> eq) (@api_calls USD).
Proof. intros x y [_ Hr]. exact (f_equal api_calls Hr). Qed.

Lemma usage_row_set db k b k' :
  usage_row (set_bucket k b db) k' = if decide (k = k') then b else usage_row db k'.
Proof.
  unfold usage_row, set_bucket. cbn. rewrite lookup_insert. by case_decide.
Qed.

Lemma usage_row_apply f k db k' :
  usage_row (apply_bucket f k db) k' =
  if decide (k = k') then f (usage_row db k') else usage_row db k'.
Proof. unfold apply_bucket. rewrite usage_row_set. by case_decide; subst. Qed.

Lemma usage_row_pair f k1 k2 db k :
  k1 ≠ k2 →
  usage_row (apply_pair f k1 k2 db) k =
  if decide (k1 = k ∨ k2 = k) then f (usage_row db k) else usage_row db k.
Proof.
  intros Hne. unfold apply_pair. rewrite !usage_row_apply.
  repeat case_decide; naive_solver.
Qed.

Lemma api_calls_pair f k1 k2 db : api_calls (apply_pair f k1 k2 db) = api_calls db.
Proof. done. Qed.

(** [_locked_bucket] reads the bucket and leaves the same ledger. *)
Definition touch k db : Db USD :=
  match provider_daily_usage db !! k with
  | Some _ => db
  | None => set_bucket k zero_usage db
  end.

Lemma touch_same k db : same_ledger (touch k db) db.
Proof.
  unfold touch. destruct (provider_daily_usage db !! k) eqn:Hk; [done|].
  split; [|done]. intros k'. rewrite usage_row_set. case_decide; [|done]. subst.
  unfold usage_row. by rewrite Hk.
Qed.

Lemma locked_bucket_run k db : _locked_bucket k db = (Ok (usage_row db k), touch k db).
Proof.
  unfold _locked_bucket, modify, mbind, M_bind, get_or_raise, touch, usage_row.
  destruct (provider_daily_usage db !! k) as [b|] eqn:Hk; [by rewrite Hk|].
  unfold set_bucket. cbn. by rewrite lookup_insert_eq.
Qed.

Lemma update_bucket_run k f db : update_bucket k f db = (Ok tt, apply_bucket f k db).
Proof.
  unfold update_bucket, mbind, M_bind. rewrite locked_bucket_run. unfold modify.
  do 2 f_equal. unfold apply_bucket.
  replace (usage_row (touch k db) k) with (usage_row db k)
    by (symmetry; by apply touch_same).
  unfold touch. destruct (provider_daily_usage db !! k) eqn:Hk; [done|].
  unfold set_bucket, set_field; cbn. by rewrite insert_insert_eq.
Qed.

Lemma update_pair_run (key : string → BucketKey) f e1 e2 db :
  for_each (λ e, update_bucket (key e) f) [e1; e2] db
  = (Ok tt, apply_pair f (key e1) (key e2) db).
Proof.
  unfold for_each, mbind, M_bind, mret, M_ret. by rewrite !update_bucket_run.
Qed.

Lemma update_call_run i (f : ApiCall USD → ApiCall USD) db :
  update_call i f db = (Ok tt, db <| api_calls ::= alter f i |>).
Proof. done. Qed.

Lemma usage_row_call i f db k :
  usage_row (db <| api_calls ::= alter f i |>) k = usage_row db k.
Proof. done. Qed.
End buckets.
#[export] Hint Rewrite @usage_row_apply @usage_row_call : ledger.

(** ** The gates of a reservation *)
Section gates.
Context {USD : Type} `{Amount USD}.
Implicit Types (db : Db USD) (settings : Settings USD).

Definition spend_limit settings (class : UsageClass) : USD :=
  match class with
  | production => production_daily_spend_usd settings
  | testing => testing_daily_spend_usd settings
  end.

(** What the durable breakers demand of the day's provider summary [b]. *)
Definition breakers_clear settings db (b : ProviderDailyUsage USD)
    (environment provider adapter_version : string) (class : UsageClass)
    (estimated : USD) (require_current_qualification : bool) (now : Z) : Prop :=
  (class = production → u_request_count b < production_daily_request_limit settings)
  ∧ (spend_limit settings class <? projected_spend b estimated)%amt = false
  ∧ u_unexpected_call_count b < unexpected_call_breaker_threshold settings
  ∧ (circuit_breaker_minimum_requests settings ≤ u_request_count b →
     F64.ltb (provider_failure_rate_threshold settings)
       (rate (u_provider_failure_count b) (u_request_count b)) = false
     ∧ F64.ltb (schema_drift_rate_threshold settings)
       (rate (u_schema_drift_count b) (u_request_count b)) = false)
  ∧ (environment = "production"%string → class = production →
     (require_current_qualification = true →
      current_qualification db provider environment adapter_version now ≠ None)
     ∧ billing_unreconciled db settings provider environment now = false).

(** Everything that must hold for a paid call to be let through, in terms of
    the database before the call. *)
Record admitted settings db (provider environment adapter_version : string)
    (estimated : USD) (scan_profile : string) (require_current_qualification : bool)
    (api_call_id : option Z) (lease : option ScanExecutionLease) (now : Z) : Prop := {
  adm_lease : ∀ l, lease = Some l → holds_lease db l now;
  adm_live : allow_live_api_calls settings = true;
  adm_no_kill : paid_call_kill_switch settings = false;
  adm_production : environment = "production"%string →
    allow_production_dataforseo settings = true;
  adm_full : scan_profile = "full"%string → allow_full_scans settings = true;
  adm_cost : (single_call_abnormal_cost_usd settings <? estimated)%amt = false;
  adm_attempt : ∀ i, api_call_id = Some i → ∃ c, api_calls db !! i = Some c
    ∧ ac_reservation_state c = RNone ∧ ac_attempt_state c = APrepared;
  adm_breakers : breakers_clear settings db
    (usage_row db (Build_BucketKey (date_of now) (_usage_class environment) provider ""))
    environment provider adapter_version (_usage_class environment) estimated
    require_current_qualification now
}.

(** *** The source's checks are gates *)

Definition switches_on settings (environment scan_profile : string) : bool :=
  allow_live_api_calls settings && negb (paid_call_kill_switch settings)
  && (negb (bool_decide (environment = "production"%string))
      || allow_production_dataforseo settings)
  && (negb (bool_decide (scan_profile = "full"%string)) || allow_full_scans settings).

#[export] Instance switches_gate settings environment scan_profile :
  Gate (_assert_switches settings environment scan_profile)
    (λ _, switches_on settings environment scan_profile).
Proof.
  eapply gate_ext; [apply _|]. intros s. simpl. unfold switches_on.
  by destruct (allow_live_api_calls settings), (paid_call_kill_switch settings),
    (bool_decide _), (allow_production_dataforseo settings), (bool_decide _),
    (allow_full_scans settings).
Qed.

Definition attempt_ready db (i : option Z) : bool :=
  match i with
  | Some i => match api_calls db !! i with Some c => eligible_call c | None => false end
  | None => true
  end.

#[export] Instance check_attempt_gate i :
  Gate (check_attempt i) (λ db, attempt_ready db i).
Proof.
  destruct i as [i|]; simpl; [|apply _].
  eapply gate_ext; [apply _|]. intros s. simpl.
  destruct (api_calls s !! i); [|done]. by rewrite negb_involutive.
Qed.

Definition lease_ok db (lease : option ScanExecutionLease) (now : Z) : bool :=
  match lease with
  | Some l =>
      match scan_runs db !! lease_scan_id l with
      | Some row => lease_current (db_dialect db) row l now
      | None => false
      end
  | None => true
  end.

#[export] Instance lease_gate lease now :
  Gate (assert_optional_lease lease now : Session USD unit) (λ db, lease_ok db lease now).
Proof.
  destruct lease as [l|]; simpl; [|apply _]. unfold assert_current_scan_lease.
  eapply gate_ext; [apply _|]. intros s. simpl.
  destruct (scan_runs s !! lease_scan_id l); [|done]. by rewrite negb_involutive.
Qed.

Definition breakers_pass settings (b : ProviderDailyUsage USD)
    (environment provider adapter : string) (class : UsageClass) (est : USD)
    (req : bool) (now : Z) db : bool :=
  (match class with
   | production =>
       negb (production_daily_request_limit settings <=? u_request_count b)
   | testing => true
   end && negb (spend_limit settings class <? projected_spend b est)%amt)
  && (negb (unexpected_call_breaker_threshold settings <=? u_unexpected_call_count b)
  && ((negb (circuit_breaker_minimum_requests settings <=? u_request_count b)
       || negb (F64.ltb (provider_failure_rate_threshold settings)
                  (rate (u_provider_failure_count b) (u_request_count b)))
          && negb (F64.ltb (schema_drift_rate_threshold settings)
                     (rate (u_schema_drift_count b) (u_request_count b))))
  && (negb (bool_decide (environment = "production"%string)
            && bool_decide (class = production))
      || (negb req
          || negb (bool_decide
                     (current_qualification db provider environment adapter now = None)))
         && negb (billing_unreconciled db settings provider environment now)))).

#[export] Instance breakers_gate settings b environment provider adapter class est req now :
  Gate (_assert_durable_breakers settings b environment provider adapter class est req now)
    (breakers_pass settings b environment provider adapter class est req now).
Proof. unfold _assert_durable_breakers. destruct class; eapply gate_ext; [apply _|done|apply _|done]. Qed.

(** *** The gates, read as propositions *)

Lemma lease_ok_spec db lease now :
  lease_ok db lease now = true ↔ ∀ l, lease = Some l → holds_lease db l now.
Proof.
  pose proof (gate_ok (assert_optional_lease lease now) _ db tt db) as Hg.
  rewrite assert_optional_ok in Hg. naive_solver.
Qed.

Lemma attempt_ready_spec db i :
  attempt_ready db i = true ↔ ∀ j, i = Some j → ∃ c, api_calls db !! j = Some c
    ∧ ac_reservation_state c = RNone ∧ ac_attempt_state c = APrepared.
Proof.
  unfold attempt_ready, eligible_call. destruct i as [i|]; [|naive_solver].
  destruct (api_calls db !! i) as [c|] eqn:Hc.
  - rewrite andb_true_iff, !bool_decide_eq_true. split; [naive_solver|].
    intros Hj. destruct (Hj i eq_refl) as (c' & Hc' & ?). congruence.
  - split; [done|]. intros Hj. destruct (Hj i eq_refl) as (c' & Hc' & ?). congruence.
Qed.

Lemma breakers_pass_spec settings b environment provider adapter class est req now db :
  breakers_pass settings b environment provider adapter class est req now db = true ↔
  breakers_clear settings db b environment provider adapter class est req now.
Proof.
  unfold breakers_pass, breakers_clear.
  rewrite !andb_true_iff, !implb_true, !andb_true_iff, !implb_true, !negb_true_iff,
    !bool_decide_eq_true, bool_decide_eq_false, Z.leb_le, !Z.leb_gt.
  destruct class; rewrite ?negb_true_iff, ?Z.leb_gt; naive_solver.
Qed.

Lemma switches_on_spec settings environment scan_profile :
  switches_on settings environment scan_profile = true ↔
  allow_live_api_calls settings = true ∧ paid_call_kill_switch settings = false
  ∧ (environment = "production"%string → allow_production_dataforseo settings = true)
  ∧ (scan_profile = "full"%string → allow_full_scans settings = true).
Proof.
  unfold switches_on.
  rewrite !andb_true_iff, !orb_true_iff, !negb_true_iff, !bool_decide_eq_false.
  destruct (decide (environment = "production"%string)),
    (decide (scan_profile = "full"%string)); naive_solver.
Qed.

(** The breakers read the other tables only. *)
#[export] Instance qualification_proper :
  Proper (same_ledger ==> eq ==> eq ==> eq ==> eq ==> eq) (@current_qualification USD).
Proof.
  intros x y [_ Hr] ? p -> ? e -> ? a -> ? t ->. unfold current_qualification.
  assert (provider_qualifications x = provider_qualifications y) as ->
    by exact (f_equal provider_qualifications Hr).
  by assert (db_dialect x = db_dialect y) as -> by exact (f_equal db_dialect Hr).
Qed.

#[export] Instance billing_proper :
  Proper (same_ledger ==> eq ==> eq ==> eq ==> eq ==> eq) (@billing_unreconciled USD _).
Proof.
  intros x y [_ Hr] ? s -> ? p -> ? e -> ? t ->.
  unfold billing_unreconciled, latest_reconciliation, oldest_paid_call.
  assert (billing_reconciliations x = billing_reconciliations y) as ->
    by exact (f_equal billing_reconciliations Hr).
  assert (api_calls x = api_calls y) as -> by exact (f_equal api_calls Hr).
  by assert (db_dialect x = db_dialect y) as -> by exact (f_equal db_dialect Hr).
Qed.

#[export] Instance breakers_pass_proper settings b environment provider adapter class est
    req now :
  Proper (same_ledger ==> eq)
    (breakers_pass settings b environment provider adapter class est req now).
Proof.
  intros x y Hs. unfold breakers_pass.
  rewrite (qualification_proper x y Hs provider _ eq_refl environment _ eq_refl
             adapter _ eq_refl now _ eq_refl).
  by rewrite (billing_proper x y Hs settings _ eq_refl provider _ eq_refl
                environment _ eq_refl now _ eq_refl).
Qed.
End gates.

(** ** The run of a reservation *)
Section reserve.
Context {USD : Type} `{Amount USD}.
Implicit Types (db : Db USD) (settings : Settings USD).

Lemma admitted_gates settings db provider environment adapter est profile req i lease now :
  admitted settings db provider environment adapter est profile req i lease now ↔
  lease_ok db lease now = true ∧ switches_on settings environment profile = true
  ∧ (single_call_abnormal_cost_usd settings <? est)%amt = false
  ∧ attempt_ready db i = true
  ∧ breakers_pass settings
      (usage_row db (Build_BucketKey (date_of now) (_usage_class environment) provider ""))
      environment provider adapter (_usage_class environment) est req now db = true.
Proof.
  rewrite lease_ok_spec, switches_on_spec, attempt_ready_spec, breakers_pass_spec.
  split; [by intros []|]. intros (? & (? & ? & ? & ?) & ? & ? & ?). by split.
Qed.

(** The database after an admitted reservation. *)
Definition reserved_db (provider environment endpoint : string) (est : USD)
    (cache_miss : bool) (i : option Z) (now : Z) db : Db USD :=
  let key e := Build_BucketKey (date_of now) (_usage_class environment) provider e in
  let db := apply_pair (reserve_in est cache_miss) (key ""%string) (key endpoint) db in
  match i with
  | Some i => db <| api_calls ::=
      alter (mark_reserved (date_of now) (_usage_class environment) est) i |>
  | None => db
  end.

Definition reservation_of (provider environment endpoint : string) (est : USD)
    (i : option Z) (now : Z) : UsageReservation USD :=
  {| ur_usage_date := date_of now; ur_usage_class := _usage_class environment;
     ur_provider := provider; ur_endpoint := endpoint;
     ur_estimated_cost_usd := est; ur_api_call_id := i |}.

#[export] Instance apply_bucket_proper f k :
  Proper (same_ledger ==> same_ledger) (apply_bucket (USD := USD) f k).
Proof.
  intros x y [Hk Hr]. split; [|exact Hr].
  intros k'. rewrite !usage_row_apply. case_decide; by rewrite Hk.
Qed.

#[export] Instance alter_call_proper i f :
  Proper (same_ledger ==> same_ledger) (λ db, db <| api_calls ::= alter f i |>).
Proof.
  intros x y [Hk Hr]. split; [exact Hk|].
  exact (f_equal (λ d : Db USD, d <| api_calls ::= alter f i |>) Hr).
Qed.

(** Either every gate is open and the reservation is recorded in both buckets
    and on the attempt, or it raises and the ledger reads as before. *)
Lemma reserve_run settings provider environment adapter endpoint est profile miss req i
    lease now db :
  (admitted settings db provider environment adapter est profile req i lease now
   ∧ ∃ db', reserve_provider_call settings provider environment adapter endpoint est
              profile miss req i lease now db
            = (Ok (reservation_of provider environment endpoint est i now), db')
     ∧ same_ledger db' (reserved_db provider environment endpoint est miss i now db))
  ∨ (¬ admitted settings db provider environment adapter est profile req i lease now
     ∧ ∃ e db', reserve_provider_call settings provider environment adapter endpoint est
                  profile miss req i lease now db = (Raise e, db')
       ∧ same_ledger db' db).
Proof.
  rewrite admitted_gates. unfold reserve_provider_call.
  set (class := _usage_class environment).
  set (key := λ e, Build_BucketKey (date_of now) class provider e).
  gate_case Hl e.
  2: { right. split; [intros (? & _); congruence|]. by exists e, db. }
  gate_case Hs e.
  2: { right. split; [intros (_ & ? & _); congruence|]. by exists e, db. }
  gate_case Hcost e; [apply negb_true_iff in Hcost|apply negb_false_iff in Hcost].
  2: { right. split; [intros (_ & _ & ? & _); congruence|]. by exists e, db. }
  gate_case Ha e.
  2: { right. split; [intros (_ & _ & _ & ? & _); congruence|]. by exists e, db. }
  rewrite (bind_run _ _ _ _ _ (locked_bucket_run (key ""%string) db)).
  set (db1 := touch (key ""%string) db).
  rewrite (bind_run _ _ _ _ _ (locked_bucket_run (key endpoint) db1)).
  set (db2 := touch (key endpoint) db1).
  assert (same_ledger db2 db) as Hsame.
  { unfold db2, db1. by rewrite !touch_same. }
  gate_case Hb e; rewrite Hsame in Hb.
  2: { right. split; [intros (_ & _ & _ & _ & ?); subst key class; simpl in Hb; congruence|].
       by exists e, db2. }
  left. split; [done|].
  rewrite (bind_run _ _ _ _ _ (update_bucket_run _ _ _)).
  rewrite (bind_run _ _ _ _ _ (update_bucket_run _ _ _)).
  destruct i as [i|].
  - rewrite (bind_run _ _ _ _ _ (update_call_run _ _ _)). eexists. split; [done|].
    unfold reserved_db. apply alter_call_proper. unfold apply_pair. by rewrite Hsame.
  - eexists. split; [done|]. unfold reserved_db, apply_pair. by rewrite Hsame.
Qed.

(** A successful reservation, inverted. *)
Lemma reserve_ok settings provider environment adapter endpoint est profile miss req i
    lease now db r db' :
  reserve_provider_call settings provider environment adapter endpoint est profile miss
    req i lease now db = (Ok r, db') →
  admitted settings db provider environment adapter est profile req i lease now
  ∧ r = reservation_of provider environment endpoint est i now
  ∧ same_ledger db' (reserved_db provider environment endpoint est miss i now db).
Proof.
  intros Hrun.
  destruct (reserve_run settings provider environment adapter endpoint est profile miss
    req i lease now db) as [(Hadm & db1 & Heq & Hs)|(_ & e & db1 & Heq & _)];
    rewrite Hrun in Heq; by simplify_eq.
Qed.
End reserve.

(** ** The runs of the other handlers *)
Section runs.
Context {USD : Type} `{Amount USD}.
Implicit Types (db : Db USD) (r : UsageReservation USD).

Definition settled_call r db : bool :=
  match reservation_call r db with
  | Some c => settled (ac_reservation_state c)
  | None => false
  end.

Definition finished_db r actual failed drift abnormal unknown now db : Db USD :=
  let db' := apply_pair (settle_in (ur_estimated_cost_usd r) actual failed drift abnormal
                           unknown)
               (reservation_key r "") (reservation_key r (ur_endpoint r)) db in
  match ur_api_call_id r with
  | Some i => db' <| api_calls ::= alter (mark_finished unknown now) i |>
  | None => db'
  end.

Lemma alter_call_none i f db :
  api_calls db !! i = None → db <| api_calls ::= alter f i |> = db.
Proof.
  intros Hi. destruct db. unfold set_field. cbn in *. by rewrite alter_none.
Qed.

Lemma finish_run r actual failed drift abnormal unknown now db :
  finish_provider_call r actual failed drift abnormal unknown now db =
  (Ok tt, if settled_call r db then db
          else finished_db r actual failed drift abnormal unknown now db).
Proof.
  unfold finish_provider_call, settled_call, finished_db. rewrite bind_gets.
  destruct (reservation_call r db) as [c|] eqn:Hc.
  - destruct (settled _); [done|].
    rewrite (bind_run _ _ _ _ _ (update_pair_run _ _ _ _ _)).
    by destruct (ur_api_call_id r).
  - rewrite update_pair_run. unfold reservation_call in Hc.
    destruct (ur_api_call_id r) as [i|]; [|done]. by rewrite alter_call_none.
Qed.

Lemma submit_ok r lease now db u db' :
  mark_provider_call_submitted r lease now db = (Ok u, db') →
  (∀ l, lease = Some l → holds_lease db l now)
  ∧ match ur_api_call_id r with
    | None => db' = db
    | Some i => ∃ c, api_calls db !! i = Some c ∧ ac_reservation_state c = RReserved
        ∧ ac_attempt_state c = AReserved
        ∧ db' = db <| api_calls ::= alter (mark_submitted now) i |>
    end.
Proof.
  intros Hrun. unfold mark_provider_call_submitted in Hrun. run_step.
  match goal with H : assert_optional_lease _ _ _ = _ |- _ =>
    apply assert_optional_ok in H as [Hl ->] end.
  split; [done|]. destruct (ur_api_call_id r) as [i|]; run_inv; [|done].
  bools. match goal with H : update_call _ _ _ = _ |- _ =>
    rewrite update_call_run in H; simplify_eq end. eauto.
Qed.

(** One stale attempt after [_reconcile_attempt_reservation]. *)
Definition released_db i (c : ApiCall USD) (unknown : bool) now db : Db USD :=
  match ac_reservation_state c, ac_reservation_usage_date c with
  | RReserved, Some date =>
      (apply_pair (release_in (ac_reservation_estimated_cost_usd c) unknown)
         (call_key c date "") (call_key c date (ac_endpoint c)) db)
      <| api_calls ::= alter (λ c, c <| ac_reservation_state :=
            if unknown then RReconciledUnknown else RReleased |>
            <| ac_reconciled_at := Some now |>) i |>
  | _, _ => db
  end.

Lemma reconcile_one_ok now i db u db' :
  reconcile_one now i db = (Ok u, db') ↔
  ∃ c, api_calls db !! i = Some c
    ∧ db' = (released_db i c (was_sent c) now db)
            <| api_calls ::= alter (mark_stale (was_sent c) now) i |>.
Proof.
  destruct u. unfold reconcile_one, mbind at 1, M_bind at 1, get_or_raise.
  destruct (api_calls db !! i) as [c|]; [|split; [done|by intros (?&?&?)]].
  assert (_reconcile_attempt_reservation i c (was_sent c) now db
          = (Ok tt, released_db i c (was_sent c) now db)) as Hrel.
  { unfold _reconcile_attempt_reservation, released_db.
    destruct (ac_reservation_state c), (ac_reservation_usage_date c); try done.
    by rewrite (bind_run _ _ _ _ _ (update_pair_run _ _ _ _ _)). }
  rewrite (bind_run _ _ _ _ _ Hrel), update_call_run.
  split.
  { intros [= <-]. eauto. }
  intros (c0 & Hc0 & ->). by injection Hc0 as <-.
Qed.

Lemma resolve_ok i outcome actual note now db c' db' :
  resolve_unknown_provider_call i outcome actual note now db = (Ok c', db') →
  ∃ c o, parse_outcome outcome = Some o ∧ (actual <? 0)%amt = false
    ∧ str_truthy (py_strip note) = true
    ∧ api_calls db !! i = Some c ∧ awaiting_resolution c = true
    ∧ c' = mark_resolved o actual note now c
    ∧ db' = match ac_reservation_usage_date c with
            | Some date =>
                apply_pair (resolve_in (ac_reservation_estimated_cost_usd c) actual)
                  (call_key c date "") (call_key c date (ac_endpoint c)) db
            | None => db
            end <| api_calls ::= alter (mark_resolved o actual note now) i |>.
Proof.
  intros Hrun. unfold resolve_unknown_provider_call in Hrun. run_inv. bools.
  eexists _, _. do 6 (split; [done|]).
  repeat match goal with
  | H : update_call _ _ _ = _ |- _ => rewrite update_call_run in H; simplify_eq
  | H : match _ with _ => _ end _ = _ |- _ => destruct (ac_reservation_usage_date _)
  | H : for_each _ _ _ = _ |- _ => rewrite update_pair_run in H; simplify_eq
  | H : mret _ _ = _ |- _ => apply ret_ok in H as [_ ->]
  end; done.
Qed.

Lemma record_unexpected_run provider environment endpoint now db :
  record_unexpected_call provider environment endpoint now db =
  (Ok tt, apply_pair (λ b, b <| u_unexpected_call_count ::= Z.add 1 |>)
     (Build_BucketKey (date_of now) (_usage_class environment) provider "")
     (Build_BucketKey (date_of now) (_usage_class environment) provider endpoint) db).
Proof. apply update_pair_run. Qed.
End runs.
