(* ===== verification/LedgerInvariant.v ===== *)
(** * LedgerInvariant: the accounting identities of the spend ledger

    In exact arithmetic the buckets always hold exactly what the attempts
    still have reserved (or unreconciled), and the day's committed spend never
    exceeds the configured limit by more than providers billed above their
    estimates.  Both are invariants of every interleaving of the handlers. *)
From S2P Require Import Prelude Binary64 Schema ScanLeases CostControls CostControlsProofs.

Section ledger.
Context {USD : Type} `{ExactAmount USD}.
Implicit Types (db : Db USD) (c : ApiCall USD) (k : BucketKey) (settings : Settings USD).

(** ** What the buckets should hold *)

Definition in_bucket k c : bool :=
  bool_decide (ac_reservation_usage_date c = Some (bk_usage_date k))
  && (bool_decide (class_or_testing (ac_reservation_usage_class c) = bk_usage_class k)
  && (bool_decide (ac_provider c = bk_provider k)
  && (bool_decide (bk_endpoint k = ""%string)
      || bool_decide (bk_endpoint k = ac_endpoint c)))).

(** What attempt [c] contributes to bucket [k] while in reservation state [s]. *)
Definition held (s : ReservationState) k c : Z :=
  if bool_decide (ac_reservation_state c = s) && in_bucket k c
  then value (ac_reservation_estimated_cost_usd c) else 0.

Definition call_wf c : Prop :=
  ac_endpoint c ≠ ""%string
  ∧ 0 ≤ value (ac_reservation_estimated_cost_usd c)
  ∧ (ac_reservation_state c = RReserved → is_Some (ac_reservation_usage_date c))
  ∧ (ac_reservation_state c = RNone → ac_reservation_usage_date c = None).

Definition reserved k db : Z := value (u_reserved_spend_usd (usage_row db k)).
Definition unreconciled k db : Z := value (u_unreconciled_spend_usd (usage_row db k)).
Definition spent k db : Z := value (u_spend_usd (usage_row db k)).
Definition committed k db : Z := spent k db + reserved k db + unreconciled k db.

Record balanced db : Prop := {
  bal_wf : ∀ i c, api_calls db !! i = Some c → call_wf c;
  bal_reserved : ∀ k, reserved k db = table_sum (held RReserved k) (api_calls db);
  bal_unreconciled : ∀ k,
    unreconciled k db = table_sum (held RReconciledUnknown k) (api_calls db)
}.

#[export] Instance balanced_proper : Proper (same_ledger ==> iff) balanced.
Proof.
  assert (∀ x y, same_ledger x y → balanced x → balanced y) as Himp.
  { intros x y Hs [Hwf Hr Hu].
    assert (api_calls x = api_calls y) as Hc by by rewrite Hs.
    split; [intros i c; rewrite <- Hc; apply Hwf|intros k; specialize (Hr k)|
            intros k; specialize (Hu k)];
      unfold reserved, unreconciled in *; rewrite <- Hc, <- Hs; done. }
  intros x y Hs. split; apply Himp; [done|by symmetry].
Qed.

Lemma held_nonneg s k c : call_wf c → 0 ≤ held s k c.
Proof. intros (_ & ? & _). unfold held. case_match; lia. Qed.

Lemma in_bucket_spec k c date :
  ac_reservation_usage_date c = Some date →
  in_bucket k c = true ↔ call_key c date "" = k ∨ call_key c date (ac_endpoint c) = k.
Proof.
  intros Hd. unfold in_bucket, call_key. rewrite !andb_true_iff, orb_true_iff,
    !bool_decide_eq_true, Hd. destruct k as [d cl p e]. simpl. naive_solver.
Qed.

Lemma keys_differ c date :
  call_wf c → call_key c date "" ≠ call_key c date (ac_endpoint c).
Proof. intros (? & _) [=]. congruence. Qed.

(** An attempt's reservation is inside its buckets. *)
Lemma reserved_ge db i c k :
  balanced db → api_calls db !! i = Some c → held RReserved k c ≤ reserved k db.
Proof.
  intros Hb Hi. rewrite (bal_reserved _ Hb). eapply table_sum_ge; [|done].
  intros j c' Hj. eapply held_nonneg, bal_wf; done.
Qed.

Lemma unreconciled_ge db i c k :
  balanced db → api_calls db !! i = Some c →
  held RReconciledUnknown k c ≤ unreconciled k db.
Proof.
  intros Hb Hi. rewrite (bal_unreconciled _ Hb). eapply table_sum_ge; [|done].
  intros j c' Hj. eapply held_nonneg, bal_wf; done.
Qed.

(** ** One attempt moves, its two buckets move by the same amount *)

Lemma balanced_move f k1 k2 i c g dr du db :
  k1 ≠ k2 → api_calls db !! i = Some c → balanced db → call_wf (g c) →
  (∀ k, k1 = k ∨ k2 = k →
     value (u_reserved_spend_usd (f (usage_row db k))) = reserved k db + dr
     ∧ value (u_unreconciled_spend_usd (f (usage_row db k))) = unreconciled k db + du) →
  (∀ k, held RReserved k (g c)
        = held RReserved k c + if decide (k1 = k ∨ k2 = k) then dr else 0) →
  (∀ k, held RReconciledUnknown k (g c)
        = held RReconciledUnknown k c + if decide (k1 = k ∨ k2 = k) then du else 0) →
  balanced ((apply_pair f k1 k2 db) <| api_calls ::= alter g i |>).
Proof.
  intros Hne Hi Hb Hwf Hf Hr Hu.
  split; intros k; unfold reserved, unreconciled; rewrite ?usage_row_call;
    cbn -[table_sum alter]; rewrite (alter_as_insert _ _ _ _ Hi).
  - intros c'. rewrite lookup_insert. case_decide; [by intros [= <-]|apply Hb].
  - rewrite usage_row_pair by done. rewrite (table_sum_update _ _ _ _ _ Hi), Hr.
    rewrite <- (bal_reserved _ Hb k).
    case_decide as Hk; [destruct (Hf k Hk) as [-> _]|]; unfold reserved; lia.
  - rewrite usage_row_pair by done. rewrite (table_sum_update _ _ _ _ _ Hi), Hu.
    rewrite <- (bal_unreconciled _ Hb k).
    case_decide as Hk; [destruct (Hf k Hk) as [_ ->]|]; unfold unreconciled; lia.
Qed.

(** An update of an attempt that leaves its reservation alone. *)
Definition keeps_reservation (g : ApiCall USD → ApiCall USD) c : Prop :=
  ac_endpoint (g c) = ac_endpoint c ∧ ac_provider (g c) = ac_provider c
  ∧ ac_reservation_state (g c) = ac_reservation_state c
  ∧ ac_reservation_usage_date (g c) = ac_reservation_usage_date c
  ∧ ac_reservation_usage_class (g c) = ac_reservation_usage_class c
  ∧ ac_reservation_estimated_cost_usd (g c) = ac_reservation_estimated_cost_usd c.

Lemma held_keeps g c s k : keeps_reservation g c → held s k (g c) = held s k c.
Proof.
  intros (He & Hp & Hs & Hd & Hcl & Hest). unfold held, in_bucket.
  by rewrite He, Hp, Hs, Hd, Hcl, Hest.
Qed.

Lemma balanced_call g i db :
  balanced db →
  (∀ c, api_calls db !! i = Some c → call_wf (g c)
     ∧ (∀ k, held RReserved k (g c) = held RReserved k c)
     ∧ (∀ k, held RReconciledUnknown k (g c) = held RReconciledUnknown k c)) →
  balanced (db <| api_calls ::= alter g i |>).
Proof.
  intros Hb Hg. destruct (api_calls db !! i) as [c|] eqn:Hi;
    [|by rewrite alter_call_none].
  destruct (Hg c eq_refl) as (Hwf & Hr & Hu).
  split; intros k; unfold reserved, unreconciled; rewrite ?usage_row_call;
    cbn -[table_sum alter]; rewrite (alter_as_insert _ _ _ _ Hi).
  - intros c'. rewrite lookup_insert. case_decide; [by intros [= <-]|apply Hb].
  - rewrite (table_sum_update _ _ _ _ _ Hi), Hr.
    rewrite <- (bal_reserved _ Hb k). unfold reserved. lia.
  - rewrite (table_sum_update _ _ _ _ _ Hi), Hu.
    rewrite <- (bal_unreconciled _ Hb k). unfold unreconciled. lia.
Qed.

Lemma balanced_keeps g i db :
  (∀ c, keeps_reservation g c) → balanced db →
  balanced (db <| api_calls ::= alter g i |>).
Proof.
  intros Hg Hb. apply balanced_call; [done|]. intros c Hi.
  split; [|split; intros k; by apply held_keeps].
  destruct (bal_wf _ Hb _ _ Hi) as (? & ? & ? & ?), (Hg c) as (He & _ & Hs & Hd & _ & Hv).
  unfold call_wf. by rewrite He, Hs, Hd, Hv.
Qed.

(** ** Each handler keeps the books balanced *)

Lemma held_other s k c : ac_reservation_state c ≠ s → held s k c = 0.
Proof. intros Hs. unfold held. by rewrite bool_decide_eq_false_2. Qed.

Lemma held_in s k c date :
  ac_reservation_state c = s → ac_reservation_usage_date c = Some date →
  held s k c = if decide (call_key c date "" = k ∨ call_key c date (ac_endpoint c) = k)
               then value (ac_reservation_estimated_cost_usd c) else 0.
Proof.
  intros Hs Hd. unfold held. rewrite bool_decide_eq_true_2 by done. simpl.
  pose proof (in_bucket_spec k c date Hd) as Hin.
  destruct (in_bucket k c); case_decide; naive_solver.
Qed.

Lemma balanced_reserve settings provider environment adapter endpoint est profile miss req
    i lease now db r db' c :
  reserve_provider_call settings provider environment adapter endpoint est profile miss
    req (Some i) lease now db = (Ok r, db') →
  api_calls db !! i = Some c → ac_provider c = provider → ac_endpoint c = endpoint →
  0 ≤ value est → balanced db → balanced db'.
Proof.
  intros (Hadm & _ & Hs)%reserve_ok Hi Hp He Hest Hb. rewrite Hs. unfold reserved_db.
  destruct (adm_attempt _ _ _ _ _ _ _ _ _ _ _ Hadm i eq_refl) as (c' & Hi' & Hnone & _).
  assert (c' = c) as -> by congruence. clear Hi'.
  destruct (bal_wf _ Hb _ _ Hi) as (Hend & _).
  set (g := mark_reserved (date_of now) (_usage_class environment) est).
  apply (balanced_move _ _ _ _ c _ (value est) 0); [|done|done|..].
  - intros [=]. congruence.
  - split; [done|]. split; [done|]. split; [by eexists|done].
  - intros k _. unfold reserve_in, reserved, unreconciled. cbn. amount.
  - intros k. rewrite (held_other _ _ c) by congruence.
    rewrite (held_in _ _ (g c) (date_of now)) by done.
    unfold call_key. simpl. rewrite Hp, He. done.
  - intros k. rewrite !held_other by (simpl; congruence). by case_decide.
Qed.

Lemma balanced_submit r lease now db u db' :
  mark_provider_call_submitted r lease now db = (Ok u, db') → balanced db → balanced db'.
Proof.
  intros [_ Hr]%submit_ok Hb. destruct (ur_api_call_id r); [|by subst].
  destruct Hr as (c & _ & _ & _ & ->). by apply balanced_keeps.
Qed.

(** The reservation is the one its attempt holds now. *)
Definition reservation_current (r : UsageReservation USD) db : Prop :=
  ∃ i c, ur_api_call_id r = Some i ∧ api_calls db !! i = Some c
    ∧ (settled (ac_reservation_state c) = false →
       ac_reservation_state c = RReserved
       ∧ ac_reservation_usage_date c = Some (ur_usage_date r)
       ∧ ac_reservation_usage_class c = Some (ur_usage_class r)
       ∧ ac_provider c = ur_provider r ∧ ac_endpoint c = ur_endpoint r
       ∧ ac_reservation_estimated_cost_usd c = ur_estimated_cost_usd r).

Lemma settle_in_reserved est actual failed drift abnormal unknown b :
  value est ≤ value (u_reserved_spend_usd b) →
  let b' := settle_in est actual failed drift abnormal unknown b in
  value (u_reserved_spend_usd b') = value (u_reserved_spend_usd b) - value est
  ∧ value (u_unreconciled_spend_usd b')
    = value (u_unreconciled_spend_usd b) + (if unknown then value est else 0)
  ∧ value (u_spend_usd b')
    = value (u_spend_usd b) + (if unknown then 0 else Z.max 0 (value actual)).
Proof.
  intros Hle. unfold settle_in. destruct unknown; cbn; amount.
Qed.

Lemma balanced_finish r actual failed drift abnormal unknown now db u db' :
  finish_provider_call r actual failed drift abnormal unknown now db = (Ok u, db') →
  reservation_current r db → balanced db → balanced db'.
Proof.
  rewrite finish_run. intros Hrun (i & c & Hid & Hi & Hcur) Hb.
  injection Hrun as _ <-. unfold settled_call, reservation_call. rewrite Hid, Hi.
  destruct (settled (ac_reservation_state c)); [done|].
  destruct (Hcur eq_refl) as (Hs & Hd & Hcl & Hp & He & Hest).
  pose proof (bal_wf _ Hb _ _ Hi) as Hwf.
  unfold finished_db. rewrite Hid.
  assert (∀ e, reservation_key r e = call_key c (ur_usage_date r) e) as Hkey.
  { intros e. unfold reservation_key, call_key. by rewrite Hcl, Hp. }
  rewrite !Hkey, <- He, <- Hest.
  set (est := ac_reservation_estimated_cost_usd c).
  apply (balanced_move _ _ _ _ c _ (- value est) (if unknown then value est else 0));
    [by apply keys_differ|done|done|..].
  - destruct Hwf as (Hend & Hpos & _ & _), unknown;
      split; simpl; (try done); split; (try done); split; done.
  - intros k Hk. pose proof (reserved_ge _ _ _ k Hb Hi) as Hge.
    rewrite (held_in _ _ _ _ Hs Hd), decide_True in Hge by done.
    destruct (settle_in_reserved est actual failed drift abnormal unknown (usage_row db k)
      Hge) as (-> & -> & _). unfold reserved, unreconciled. lia.
  - intros k. rewrite (held_in _ _ _ _ Hs Hd), (held_other _ _ (mark_finished _ _ c)) by
      (destruct unknown; simpl; congruence). fold est. case_decide; lia.
  - intros k. rewrite (held_other _ _ c) by congruence. destruct unknown.
    + rewrite (held_in _ _ (mark_finished true now c) (ur_usage_date r)) by done. done.
    + rewrite held_other by done. by case_decide.
Qed.

Lemma release_in_reserved est unknown b :
  value est ≤ value (u_reserved_spend_usd b) →
  let b' := release_in est unknown b in
  value (u_reserved_spend_usd b') = value (u_reserved_spend_usd b) - value est
  ∧ value (u_unreconciled_spend_usd b')
    = value (u_unreconciled_spend_usd b) + (if unknown then value est else 0)
  ∧ u_spend_usd b' = u_spend_usd b.
Proof. intros Hle. unfold release_in. destruct unknown; cbn; (split; [|split; [|done]]); amount. Qed.

Lemma balanced_reconcile_one now i db u db' :
  reconcile_one now i db = (Ok u, db') → balanced db → balanced db'.
Proof.
  rewrite reconcile_one_ok. intros (c & Hi & ->) Hb.
  apply balanced_keeps; [by intros c'; destruct (was_sent c)|].
  unfold released_db. pose proof (bal_wf _ Hb _ _ Hi) as Hwf.
  destruct (ac_reservation_state c) eqn:Hs; try done.
  destruct (ac_reservation_usage_date c) as [date|] eqn:Hd; [|done].
  set (est := ac_reservation_estimated_cost_usd c). set (unknown := was_sent c).
  apply (balanced_move _ _ _ _ c _ (- value est) (if unknown then value est else 0));
    [by apply keys_differ|done|done|..].
  - destruct Hwf as (Hend & Hpos & _ & _), unknown;
      split; simpl; (try done); split; (try done); split; done.
  - intros k Hk. pose proof (reserved_ge _ _ _ k Hb Hi) as Hge.
    rewrite (held_in _ _ _ _ Hs Hd), decide_True in Hge by done.
    destruct (release_in_reserved est unknown (usage_row db k) Hge) as (-> & -> & _).
    unfold reserved, unreconciled. lia.
  - intros k. rewrite (held_in _ _ _ _ Hs Hd), held_other by
      (destruct unknown; simpl; congruence). fold est. case_decide; lia.
  - intros k. rewrite (held_other _ _ c) by congruence. destruct unknown.
    + rewrite (held_in _ _ _ date) by done. done.
    + rewrite held_other by done. by case_decide.
Qed.

Lemma balanced_stale before scan now db n db' :
  reconcile_stale_api_call_attempts before scan now db = (Ok n, db') →
  balanced db → balanced db'.
Proof.
  intros Hrun Hb. unfold reconcile_stale_api_call_attempts in Hrun. run_inv.
  match goal with H : for_each _ _ _ = _ |- _ => revert H end.
  apply (for_each_ind balanced); [|done].
  intros s x u s' _ Hs Hone. by eapply balanced_reconcile_one.
Qed.

Lemma resolve_in_value est actual b :
  value est ≤ value (u_unreconciled_spend_usd b) →
  let b' := resolve_in est actual b in
  u_reserved_spend_usd b' = u_reserved_spend_usd b
  ∧ value (u_unreconciled_spend_usd b') = value (u_unreconciled_spend_usd b) - value est
  ∧ value (u_spend_usd b') = value (u_spend_usd b) + value actual.
Proof. intros Hle. unfold resolve_in. cbn. split; [done|]. amount. Qed.

Lemma balanced_resolve i outcome actual note now db c' db' :
  resolve_unknown_provider_call i outcome actual note now db = (Ok c', db') →
  balanced db → balanced db'.
Proof.
  intros (c & o & _ & _ & _ & Hi & Haw & _ & ->)%resolve_ok Hb.
  pose proof (bal_wf _ Hb _ _ Hi) as Hwf. unfold awaiting_resolution in Haw.
  apply andb_true_iff in Haw as [_ Haw]. apply orb_true_iff in Haw.
  rewrite !bool_decide_eq_true in Haw.
  set (est := ac_reservation_estimated_cost_usd c).
  assert (call_wf (mark_resolved o actual note now c)) as Hwf'.
  { destruct Hwf as (? & ? & _). by split. }
  destruct Haw as [Hs|Hs].
  - destruct Hwf as (Hend & Hpos & _ & Hnd). rewrite (Hnd Hs).
    apply balanced_call; [done|]. intros c0 Hi0. assert (c0 = c) as -> by congruence.
    split; [done|]. by split; intros k; rewrite !held_other by (simpl; congruence).
  - destruct (ac_reservation_usage_date c) as [date|] eqn:Hd.
    + apply (balanced_move _ _ _ _ c _ 0 (- value est)); [by apply keys_differ|done..| | |].
      * intros k Hk. pose proof (unreconciled_ge _ _ _ k Hb Hi) as Hge.
        rewrite (held_in _ _ _ _ Hs Hd), decide_True in Hge by done.
        destruct (resolve_in_value est actual (usage_row db k) Hge) as (-> & -> & _).
        unfold reserved, unreconciled. lia.
      * intros k. rewrite !held_other by (simpl; congruence). by case_decide.
      * intros k. rewrite (held_in _ _ _ _ Hs Hd), held_other by done. fold est.
        case_decide; lia.
    + apply balanced_call; [done|]. intros c0 Hi0. assert (c0 = c) as -> by congruence.
      split; [done|]. by split; intros k; unfold held, in_bucket; cbn; rewrite Hd;
        rewrite !andb_false_r.
Qed.
End ledger.
