(* ===== verification/LedgerSteps.v ===== *)
(** * LedgerSteps: every interleaving of the ledger's handlers

    The transactions of the paid-call protocol, of the recovery of stale
    attempts and of the operator's resolution as a step relation on the
    database, and the invariants of the databases it reaches: the buckets hold
    what the attempts hold, and the committed spend stays within the limit. *)
From S2P Require Import Prelude Binary64 Schema ScanLeases CostControls LiveCalls.
From S2P Require Import CostControlsProofs LedgerInvariant.

Section steps.
Context {USD : Type} `{ExactAmount USD}.
Context (type_name error_text : exn → string) (settings : Settings USD).
Implicit Types (db : Db USD) (c : ApiCall USD) (k : BucketKey) (p : LiveProvider)
  (r : UsageReservation USD).

(** ** The invariant of the attempt rows *)

(** How an attempt's status, state and reservation fit together: a row that may
    be used again holds nothing; an unknown outcome was really submitted. *)
Record row_ok c : Prop := {
  ok_wf : call_wf c;
  ok_estimate : 0 ≤ value (ac_estimated_cost_usd c);
  ok_retry : retryable_status (ac_status c) = true →
    ac_reservation_state c ≠ RReserved ∧ ac_reservation_state c ≠ RReconciledUnknown
    ∧ open_attempt (ac_attempt_state c) = false;
  ok_unknown : ac_reservation_state c = RReconciledUnknown →
    ac_status c = CProviderOutcomeUnknown ∧ is_Some (ac_network_started_at c);
  ok_in_flight : ac_attempt_state c = AInFlight → is_Some (ac_network_started_at c)
}.

Record books db : Prop := {
  bk_balanced : balanced db;
  bk_rows : ∀ i c, api_calls db !! i = Some c → row_ok c;
  bk_plans : ∀ i call, scan_plan_calls db !! i = Some call →
    0 ≤ value (plan_estimated_cost_usd call)
}.

#[export] Instance books_proper : Proper (same_ledger ==> iff) books.
Proof.
  assert (∀ x y, same_ledger x y → books x → books y) as Himp.
  { intros x y Hs [Hb Hr Hp]. pose proof Hs as [_ Ho].
    split; [by rewrite <- Hs|intros i c; rewrite <- Hs; apply Hr|].
    intros i call. pose proof (f_equal scan_plan_calls Ho) as Heq. simpl in Heq.
    rewrite <- Heq. apply Hp. }
  intros x y Hs. split; apply Himp; [done|by symmetry].
Qed.

(** The reservation an attempt is settled with, and what the settlement can
    add to the committed spend. *)
Definition excess (estimated actual : USD) : Z :=
  Z.max 0 (value actual - value estimated).

Definition outcome_cost p (o : NetworkOutcome) : USD :=
  match o with response_accepted cost _ => _payload_cost p cost | _ => 0%amt end.

(** ** The transactions *)

(** What a transaction may do to a reservation it does not own: settle one, or give up an
    attempt without one. *)
Inductive ledger_event : Type :=
| Settles (r : UsageReservation USD)
| GivesUp (api_call : Z)
| Other.

Inductive ledger_step db : ledger_event → Z → Db USD → Prop :=
| ls_prepare p path cache_key token raw cache_hit force now res db' :
    path ≠ ""%string →
    _reserve_api_call p path cache_key token raw cache_hit force now db = (res, db') →
    ledger_step db Other 0 db'
| ls_reserve p path i c now res db' :
    api_calls db !! i = Some c → ac_provider c = provider_name p → ac_endpoint c = path →
    reserve_attempt settings p path i now db = (res, db') →
    ledger_step db Other 0 db'
| ls_refused i c e now res db' :
    api_calls db !! i = Some c →
    fail_call type_name error_text i None false None e now db = (res, db') →
    ledger_step db (GivesUp i) 0 db'
| ls_submit r lease now res db' :
    mark_provider_call_submitted r lease now db = (res, db') →
    ledger_step db Other 0 db'
| ls_not_submitted i r e now res db' :
    ur_api_call_id r = Some i →
    fail_call type_name error_text i (Some r) false None e now db = (res, db') →
    ledger_step db (Settles r) 0 db'
| ls_end p i r o now res db' :
    ur_api_call_id r = Some i →
    end_request type_name error_text settings p i r o now db = (res, db') →
    ledger_step db (Settles r) (excess (ur_estimated_cost_usd r) (outcome_cost p o)) db'
| ls_stale stale_before scan now res db' :
    reconcile_stale_api_call_attempts stale_before scan now db = (res, db') →
    ledger_step db Other 0 db'
| ls_resolve i c outcome actual note now res db' :
    api_calls db !! i = Some c →
    resolve_unknown_provider_call i outcome actual note now db = (res, db') →
    ledger_step db Other (excess (ac_reservation_estimated_cost_usd c) actual) db'
| ls_unexpected provider environment endpoint now res db' :
    record_unexpected_call provider environment endpoint now db = (res, db') →
    ledger_step db Other 0 db'.

(** The worker is not late: the attempt it settles is settled already or still holds the
    reservation the worker made, and the attempt it gives up holds none.  The code does not
    check this. *)
Definition timely db (event : ledger_event) : Prop :=
  match event with
  | Settles r => reservation_current r db
  | GivesUp i => ∀ c, api_calls db !! i = Some c → ac_reservation_state c = RNone
  | Other => True
  end.

(** Any number of transactions whose events are [allowed], with the total excess *)
Inductive ledger_reach (allowed : Db USD → ledger_event → Prop) db : Z → Db USD → Prop :=
| lr_refl : ledger_reach allowed db 0 db
| lr_step x e y db1 db2 :
    ledger_reach allowed db x db1 → ledger_step db1 e y db2 → allowed db1 e → ledger_reach allowed db (x + y) db2.

(** ** The books after each transaction *)

Lemma books_step db db' :
  books db → balanced db' → scan_plan_calls db' = scan_plan_calls db →
  (∀ i c', api_calls db' !! i = Some c' → api_calls db !! i = Some c' ∨ row_ok c') →
  books db'.
Proof.
  intros Hb Hbal Hp Hrows. split; [done| |rewrite Hp; apply Hb].
  intros i c' Hi. destruct (Hrows _ _ Hi); [by eapply bk_rows|done].
Qed.

Lemma alter_rows g i db j c' :
  (∀ c, api_calls db !! i = Some c → row_ok (g c)) →
  alter g i (api_calls db) !! j = Some c' → api_calls db !! j = Some c' ∨ row_ok c'.
Proof.
  intros Hg. rewrite lookup_alter. case_decide as Hj; [|by left]. subst j.
  intros (c & Hi & ->)%fmap_Some. right. by apply Hg.
Qed.

Lemma row_ok_in db i c : books db → api_calls db !! i = Some c → row_ok c.
Proof. intros Hb. apply (bk_rows _ Hb). Qed.

(** A row that may be used again, or a fresh one, holds nothing. *)
Lemma prepared_ok p path cache_key token plan raw hit force now :
  path ≠ ""%string → (∀ call, plan = Some call → 0 ≤ value (plan_estimated_cost_usd call)) →
  row_ok (prepared_row p path cache_key token plan raw hit force now).
Proof.
  intros Hpath Hplan. split.
  - split; [done|]. simpl. rewrite value_zero. done.
  - simpl. assert (0 ≤ value (_unplanned_estimated_cost p path)) as Hu.
    { unfold _unplanned_estimated_cost.
      repeat case_match; rewrite ?value_zero; try lia; apply value_micros; lia. }
    unfold estimated_cost. destruct plan as [call|]; [|done]. case_match; [done|auto].
  - simpl. by destruct hit.
  - done.
  - simpl. by destruct hit.
Qed.

Lemma reuse_ok p token raw hit force now c :
  row_ok c → row_ok (reuse_row p token raw hit force now c).
Proof.
  intros [(Hend & _) Hest _ _ _]. split; unfold reuse_row; cbn; try done; try by destruct hit.
  split; [done|]. cbn. by rewrite value_zero.
Qed.

Lemma finished_attempt_ok status cost error now c :
  row_ok c →
  (retryable_status status = true →
     ac_reservation_state c ≠ RReserved
     ∧ (ac_status c ≠ CProviderOutcomeUnknown →
        ac_reservation_state c ≠ RReconciledUnknown)) →
  status ≠ CInFlight → status ≠ CPrepared →
  row_ok (finished_attempt type_name error_text status cost error now c).
Proof.
  intros [Hwf Hest Hretry Hunk Hfl] Hstatus Hn1 Hn2. unfold finished_attempt.
  destruct (decide (ac_status c = CProviderOutcomeUnknown)) as [Hc|Hc].
  - rewrite bool_decide_eq_true_2 by done. simpl.
    destruct (decide (status = CProviderOutcomeUnknown)) as [->|];
      [|by rewrite bool_decide_eq_false_2].
    rewrite bool_decide_eq_true_2 by done. simpl.
    destruct cost as [[]|], error; split; cbn; try done; intros Hr; destruct (Hunk Hr); done.
  - rewrite bool_decide_eq_false_2 by done. simpl.
    destruct status, cost as [[]|], error; try done; split; cbn; try done; naive_solver.
Qed.

Lemma held_none s k c :
  s ≠ RNone → ac_reservation_state c = RNone → held s k c = 0.
Proof. intros Hs Hc. apply held_other. congruence. Qed.

Lemma balanced_insert i row db :
  api_calls db !! i = None → call_wf row → ac_reservation_state row = RNone →
  balanced db → balanced (db <| api_calls ::= <[i := row]> |>).
Proof.
  intros Hi Hwf Hn [Hw Hr Hu].
  split; [intros j c'|intros k|intros k]; cbn -[table_sum].
  - rewrite lookup_insert. case_decide; [by intros [= <-]|apply Hw].
  - rewrite table_sum_new, held_none by done. apply Hr.
  - rewrite table_sum_new, held_none by done. apply Hu.
Qed.

(** An update of the buckets that leaves the three amounts alone. *)
Lemma balanced_counts f k1 k2 db :
  (∀ b, u_reserved_spend_usd (f b) = u_reserved_spend_usd b
      ∧ u_unreconciled_spend_usd (f b) = u_unreconciled_spend_usd b
      ∧ u_spend_usd (f b) = u_spend_usd b) →
  (∀ k, reserved k (apply_pair f k1 k2 db) = reserved k db
      ∧ unreconciled k (apply_pair f k1 k2 db) = unreconciled k db
      ∧ spent k (apply_pair f k1 k2 db) = spent k db)
  ∧ (balanced db → balanced (apply_pair f k1 k2 db)).
Proof.
  intros Hf.
  assert (∀ k, reserved k (apply_pair f k1 k2 db) = reserved k db
      ∧ unreconciled k (apply_pair f k1 k2 db) = unreconciled k db
      ∧ spent k (apply_pair f k1 k2 db) = spent k db) as Hsame.
  { intros k. unfold reserved, unreconciled, spent, apply_pair.
    rewrite !usage_row_apply. repeat case_decide;
      repeat match goal with |- context [f ?b] => destruct (Hf b) as (-> & -> & ->) end;
      done. }
  split; [done|]. intros [Hw Hr Hu].
  split; [done|intros k; by rewrite (proj1 (Hsame k))|].
  intros k. by rewrite (proj1 (proj2 (Hsame k))).
Qed.

Lemma counts_books f k1 k2 db :
  (∀ b, u_reserved_spend_usd (f b) = u_reserved_spend_usd b
      ∧ u_unreconciled_spend_usd (f b) = u_unreconciled_spend_usd b
      ∧ u_spend_usd (f b) = u_spend_usd b) →
  books db →
  books (apply_pair f k1 k2 db) ∧ ∀ k, committed k (apply_pair f k1 k2 db) = committed k db.
Proof.
  intros Hf Hb. destruct (balanced_counts f k1 k2 db Hf) as [Hsame Hbal]. split.
  - eapply books_step; [done|apply Hbal, Hb|done|]. by left.
  - intros k. destruct (Hsame k) as (Hr & Hu & Hs). unfold committed. lia.
Qed.

(** What a transaction may do to the books: keep them, and let every summary's
    committed spend grow by at most [x] or up to the limit. *)
Definition limit_of k : Z := value (spend_limit settings (bk_usage_class k)).

Record keeps_books (x : Z) db db' : Prop := {
  kb_books : books db';
  kb_committed : ∀ k, bk_endpoint k = ""%string →
    committed k db' ≤ Z.max (committed k db + x) (limit_of k)
}.

Lemma keeps_same db db' :
  books db' → (∀ k, committed k db' = committed k db) → keeps_books 0 db db'.
Proof. intros Hb Hc. split; [done|]. intros k _. rewrite Hc. lia. Qed.

(** ** Preparation *)

Lemma head_filter_Some {A} (f : A → bool) l (x : A) :
  head (List.filter f l) = Some x → x ∈ l ∧ f x = true.
Proof.
  intros Hx%head_Some_elem_of. by apply list_elem_of_In, filter_In in Hx as [?%list_elem_of_In ?].
Qed.

(** The planned call is a row of the scan's plan that no attempt consumed. *)
Lemma planned_call_Some p path cache_key db call :
  _planned_call p path cache_key db = Some call →
  ∃ scan j planned, current_scan_run_id p = Some scan
    ∧ scan_plan_calls db !! j = Some call ∧ plan_matches p scan path call = true
    ∧ plan_planned_request_id call = Some planned ∧ consumed db scan planned = false.
Proof.
  unfold _planned_call. destruct (current_scan_run_id p) as [scan|]; [|done].
  set (matching := (select _ _).*2). set (unused := List.filter _ matching).
  intros Hsel.
  assert (call ∈ unused) as Hin.
  { destruct (head _) eqn:Hh; [|destruct (existsb _ _); [done|]].
    - injection Hsel as ->. by apply head_filter_Some in Hh as [? _].
    - by apply head_filter_Some in Hsel as [? _]. }
  apply list_elem_of_In, filter_In in Hin as [Hm Hf]. apply list_elem_of_In in Hm.
  apply list_elem_of_fmap in Hm as ([j c] & -> & [Hj Hp]%elem_of_select).
  simpl in *.
  destruct (plan_planned_request_id c) as [planned|] eqn:Hid; [|done].
  apply negb_true_iff in Hf. by exists scan, j, planned.
Qed.

Lemma attempts_for_elem db scan planned q i c :
  (i, c) ∈ attempts_for db scan planned q ↔
  api_calls db !! i = Some c ∧ ac_scan_run_id c = Some scan
  ∧ ac_planned_request_id c = Some planned ∧ q (ac_status c) = true.
Proof.
  unfold attempts_for. rewrite elem_of_select, !andb_true_iff, !bool_decide_eq_true.
  naive_solver.
Qed.

Lemma reusable_Some p plan db i c :
  reusable_attempt p plan db = Some (i, c) →
  api_calls db !! i = Some c ∧ retryable_status (ac_status c) = true.
Proof.
  unfold reusable_attempt. destruct (plan ≫= _), (current_scan_run_id p); try done.
  intros Hh%head_Some_elem_of. by apply attempts_for_elem in Hh as (? & _ & _ & ?).
Qed.

Lemma reuse_books p token raw hit force now i c db :
  books db → api_calls db !! i = Some c → retryable_status (ac_status c) = true →
  books (db <| api_calls ::= alter (reuse_row p token raw hit force now) i |>).
Proof.
  intros Hb Hi Hs. pose proof (row_ok_in _ _ _ Hb Hi) as Hok.
  destruct (ok_retry _ Hok Hs) as (Hnr & Hnu & _).
  apply (books_step _ _ Hb); [|done|].
  - apply balanced_call; [apply Hb|]. intros c0 Hi0. assert (c0 = c) as -> by congruence.
    split; [by apply ok_wf, reuse_ok|].
    split; intros k; rewrite !held_other; done.
  - intros j c'. apply alter_rows. intros c0 Hi0. apply reuse_ok.
    by eapply row_ok_in.
Qed.

Lemma insert_books row db :
  books db → row_ok row → ac_reservation_state row = RNone →
  books (db <| api_calls ::= <[next_id (api_calls db) := row]> |>).
Proof.
  intros Hb Hok Hn. apply (books_step _ _ Hb); [|done|].
  - apply balanced_insert; [apply next_id_fresh|apply Hok|done|apply Hb].
  - intros j c'. cbn. rewrite lookup_insert. case_decide; [|by left].
    intros [= <-]. by right.
Qed.

Lemma prepare_books p path cache_key token raw hit force now db res db' :
  path ≠ ""%string → books db →
  _reserve_api_call p path cache_key token raw hit force now db = (res, db') →
  keeps_books 0 db db'.
Proof.
  intros Hpath Hb. unfold _reserve_api_call. rewrite !bind_gets.
  set (plan := _planned_call p path cache_key db).
  generalize (existing_result p path cache_key db) as found. intros found.
  destruct (if hit && _ && _ then found else None) as [[j c]|]; [intros [= _ <-]; by apply keeps_same|].
  destruct (_ && negb _); simpl.
  { unfold mbind, M_bind. simpl. rewrite record_unexpected_run. intros [= _ <-].
    edestruct counts_books as [Hb' Hc]; [|exact Hb|by apply keeps_same]. done. }
  unfold prepare_attempt. rewrite bind_ret, bind_gets.
  destruct (reusable_attempt p plan db) as [[i c]|] eqn:Hre.
  - apply reusable_Some in Hre as [Hi Hs]. intros [= _ <-].
    apply keeps_same; [by eapply reuse_books|done].
  - unfold insert_attempt. rewrite bind_gets, bind_raise_if.
    destruct (planned_request_taken _ _); intros [= _ <-]; [by apply keeps_same|].
    apply keeps_same; [|done]. apply insert_books; [done| |done].
    apply prepared_ok; [done|]. intros call Hcall.
    apply planned_call_Some in Hcall as (? & j & ? & _ & Hj & _).
    by eapply bk_plans.
Qed.

(** ** Reservation *)

Definition committed_in (b : ProviderDailyUsage USD) : Z :=
  value (u_spend_usd b) + value (u_reserved_spend_usd b)
  + value (u_unreconciled_spend_usd b).

Lemma committed_pair f k1 k2 k db :
  k1 ≠ k2 → committed k (apply_pair f k1 k2 db)
  = if decide (k1 = k ∨ k2 = k) then committed_in (f (usage_row db k))
    else committed k db.
Proof.
  intros Hne. unfold committed, spent, reserved, unreconciled.
  rewrite usage_row_pair by done. by case_decide.
Qed.

Lemma committed_call g k db : committed k (db <| api_calls ::= g |>) = committed k db.
Proof. done. Qed.

#[export] Instance committed_proper k : Proper (same_ledger ==> eq) (committed k).
Proof.
  intros x y Hs. unfold committed, spent, reserved, unreconciled. by rewrite Hs.
Qed.

Lemma reserve_books p path i c now res db db' :
  books db → api_calls db !! i = Some c → ac_provider c = provider_name p →
  ac_endpoint c = path → reserve_attempt settings p path i now db = (res, db') →
  keeps_books 0 db db'.
Proof.
  intros Hb Hi Hp He. unfold reserve_attempt.
  rewrite (bind_run _ _ db c db) by (unfold get_or_raise; by rewrite Hi).
  set (profile := if allow_unplanned_requests p then _ else _).
  pose proof (row_ok_in _ _ _ Hb Hi) as [(Hend & _) Hest Hretry _ _].
  set (est := ac_estimated_cost_usd c) in *.
  destruct (reserve_run settings (provider_name p) (api_environment p) (adapter_version p)
    path est profile true (negb (allow_unplanned_requests p)) (Some i) (execution_lease p)
    now db) as [(Hadm & db1 & Hrun & Hs)|(_ & e & db1 & Hrun & Hs)];
    rewrite Hrun; intros [= _ <-].
  2: { apply keeps_same; [by rewrite Hs|intros k; by rewrite Hs]. }
  destruct (adm_attempt _ _ _ _ _ _ _ _ _ _ _ Hadm i eq_refl) as (c' & Hi' & Hnone & Hst).
  assert (c' = c) as -> by congruence. clear Hi'.
  pose proof (balanced_reserve _ _ _ _ _ _ _ _ _ _ _ _ _ _ _ _ Hrun Hi Hp He Hest
    (bk_balanced _ Hb)) as Hbal.
  rewrite Hs in Hbal. split.
  - rewrite Hs. apply (books_step _ _ Hb Hbal); [done|].
    intros j c'. apply (alter_rows _ _ db). intros c0 Hi0. assert (c0 = c) as -> by congruence.
    split; cbn; try done.
    intros Hr. destruct (Hretry Hr) as (_ & _ & Ho). by rewrite Hst in Ho.
  - intros k Hk. rewrite Hs. unfold reserved_db.
    rewrite committed_call, committed_pair by (intros [=]; congruence).
    case_decide as Hkey; [|lia].
    assert (Build_BucketKey (date_of now) (_usage_class (api_environment p))
              (provider_name p) "" = k) as <-.
    { destruct Hkey as [|<-]; [done|]. simpl in Hk. congruence. }
    destruct (adm_breakers _ _ _ _ _ _ _ _ _ _ _ Hadm) as (_ & Hlim & _).
    unfold projected_spend in Hlim. rewrite value_ltb, !value_add in Hlim. bools.
    unfold committed_in, limit_of, reserve_in. cbn. rewrite value_add.
    etrans; [|apply Z.le_max_r]. lia.
Qed.

(** ** Settlement *)

Notation attempt := (finished_attempt type_name error_text).

Lemma attempt_keeps status cost error now c :
  keeps_reservation (attempt status cost error now) c
  ∧ ac_network_started_at (attempt status cost error now c) = ac_network_started_at c.
Proof.
  unfold keeps_reservation, finished_attempt. destruct (_ && _); [done|].
  by destruct status, cost as [[]|], error.
Qed.

Lemma reserved_attempt_settled status cost error unknown now c :
  row_ok c → (unknown = true → status = CProviderOutcomeUnknown
                             ∧ is_Some (ac_network_started_at c)) →
  status ≠ CInFlight → status ≠ CPrepared →
  row_ok (mark_finished unknown now (attempt status cost error now c)).
Proof.
  intros [(Hend & Hpos & Hdate & Hnone) Hest Hretry Hunk Hfl] Hu Hn1 Hn2.
  unfold finished_attempt. destruct (decide (ac_status c = CProviderOutcomeUnknown)) as [Hc|Hc].
  - rewrite bool_decide_eq_true_2 by done. simpl.
    destruct (decide (status = CProviderOutcomeUnknown)) as [->|].
    + rewrite bool_decide_eq_true_2 by done. simpl.
      destruct unknown, cost as [[]|], error; (split; [split; [done|split; [done|done]]|..]); cbn;
        try done; intros _; split; [done|by apply Hu|done|by apply Hu|done|by apply Hu|done
        |by apply Hu].
    + rewrite (bool_decide_eq_false_2 (status = _)) by done. simpl.
      destruct unknown; [by destruct Hu|].
      split; cbn; try done. by rewrite Hc.
  - rewrite bool_decide_eq_false_2 by done. simpl.
    destruct unknown.
    + destruct Hu as [-> Hnet]; [done|].
      destruct cost as [[]|], error; split; cbn; done.
    + destruct status, cost as [[]|], error; try done; split; cbn; try done; naive_solver.
Qed.

Lemma reservation_current_keeps g i r db :
  (∀ c, keeps_reservation g c) →
  reservation_current r db → reservation_current r (db <| api_calls ::= alter g i |>).
Proof.
  intros Hg (j & c & Hid & Hj & Hcur). destruct (decide (i = j)) as [->|Hne].
  - destruct (Hg c) as (He & Hp & Hs & Hd & Hcl & Hest). exists j, (g c). cbn.
    rewrite lookup_alter_eq, Hj, He, Hp, Hs, Hd, Hcl, Hest. done.
  - exists j, c. cbn. by rewrite lookup_alter_ne.
Qed.

Lemma committed_finish r i c actual failed drift abnormal unknown now k db :
  ur_api_call_id r = Some i → api_calls db !! i = Some c → reservation_current r db →
  balanced db → settled (ac_reservation_state c) = false →
  committed k (finished_db r actual failed drift abnormal unknown now db)
  ≤ committed k db + excess (ur_estimated_cost_usd r) actual.
Proof.
  intros Hid Hi (j & c' & Hid' & Hi' & Hcur) Hbal Hset.
  assert (j = i) as -> by congruence. assert (c' = c) as -> by congruence.
  destruct (Hcur Hset) as (Hs & Hd & Hcl & Hp & He & Hest).
  destruct (bal_wf _ Hbal _ _ Hi) as (Hend & Hpos & _).
  unfold finished_db. rewrite Hid, committed_call, committed_pair.
  2: { unfold reservation_key. rewrite <- He. intros [=]. congruence. }
  assert (∀ e, reservation_key r e = call_key c (ur_usage_date r) e) as Hkey.
  { intros e. unfold reservation_key, call_key. by rewrite Hcl, Hp. }
  rewrite !Hkey, <- He, <- Hest in *. unfold excess.
  case_decide as Hk; [|lia].
  pose proof (reserved_ge _ _ _ k Hbal Hi) as Hge.
  rewrite (held_in _ _ _ _ Hs Hd), decide_True in Hge by done.
  destruct (settle_in_reserved _ actual failed drift abnormal unknown (usage_row db k) Hge)
    as (Hr & Hu & Hsp).
  unfold committed_in. rewrite Hr, Hu, Hsp. unfold committed, spent, reserved, unreconciled.
  destruct unknown; lia.
Qed.

Lemma settle_books x i r status cost error actual failed drift abnormal unknown now c db :
  0 ≤ x → (0 ≤ value (ur_estimated_cost_usd r) →
           excess (ur_estimated_cost_usd r) actual ≤ x) →
  books db → ur_api_call_id r = Some i → reservation_current r db →
  api_calls db !! i = Some c →
  (unknown = true → status = CProviderOutcomeUnknown ∧ is_Some (ac_network_started_at c)) →
  status ≠ CInFlight → status ≠ CPrepared →
  let db1 := db <| api_calls ::= alter (attempt status cost error now) i |> in
  keeps_books x db
    (finish_provider_call r actual failed drift abnormal unknown now db1).2.
Proof.
  intros Hx Hexc Hb Hid Hcur Hi Hu Hn1 Hn2 db1. pose proof (row_ok_in _ _ _ Hb Hi) as Hok.
  assert (api_calls db1 !! i = Some (attempt status cost error now c)) as Hi1.
  { cbn. by rewrite lookup_alter_eq, Hi. }
  assert (ac_reservation_state (attempt status cost error now c)
          = ac_reservation_state c) as Hst by apply attempt_keeps.
  assert (balanced db1) as Hbal1.
  { apply balanced_keeps; [intros ?; apply attempt_keeps|apply Hb]. }
  assert (reservation_current r db1) as Hcur1.
  { apply reservation_current_keeps; [intros ?; apply attempt_keeps|done]. }
  pose proof (balanced_finish r actual failed drift abnormal unknown now db1) as Hbal.
  rewrite finish_run in *. specialize (Hbal _ _ eq_refl Hcur1 Hbal1). simpl in Hbal |- *.
  revert Hbal. unfold settled_call, reservation_call. rewrite Hid, Hi1, Hst.
  destruct (settled (ac_reservation_state c)) eqn:Hset; intros Hbal.
  - split; [|intros k _; unfold db1; rewrite committed_call; lia].
    apply (books_step _ _ Hb); [done|done|]. intros j c'. apply alter_rows.
    intros c0 Hi0. assert (c0 = c) as -> by congruence.
    apply finished_attempt_ok; try done. intros _. split; [by intros Hr; rewrite Hr in Hset|].
    intros Hne Hr. by destruct (ok_unknown _ Hok Hr).
  - split.
    + apply (books_step _ _ Hb); [done|unfold finished_db; by rewrite Hid|].
      intros j c'. unfold finished_db. rewrite Hid. cbn. rewrite alter_alter_eq.
      apply alter_rows. intros c0 Hi0. assert (c0 = c) as -> by congruence.
      by apply reserved_attempt_settled.
    + intros k _. rewrite <- Hst in Hset.
      assert (0 ≤ value (ur_estimated_cost_usd r)) as Hest.
      { destruct Hcur1 as (j & c1 & Hid1 & Hj1 & Hcur1).
        assert (j = i) as -> by congruence. rewrite Hi1 in Hj1. injection Hj1 as <-.
        destruct (Hcur1 Hset) as (_ & _ & _ & _ & _ & <-).
        apply (bal_wf _ Hbal1 _ _ Hi1). }
      specialize (Hexc Hest).
      pose proof (committed_finish r i _ actual failed drift abnormal unknown now k db1
        Hid Hi1 Hcur1 Hbal1 Hset) as Hc. unfold db1 in Hc at 2. rewrite committed_call in Hc.
      lia.
Qed.

(** Settling without a price adds nothing. *)
Lemma excess_zero est : 0 ≤ value est → excess est 0%amt ≤ 0.
Proof. unfold excess. rewrite value_zero. lia. Qed.

Lemma fail_books x i r response payload e now res db db' :
  0 ≤ x → (0 ≤ value (ur_estimated_cost_usd r) →
           excess (ur_estimated_cost_usd r) (default 0%amt payload) ≤ x) →
  books db → ur_api_call_id r = Some i → reservation_current r db →
  fail_call type_name error_text i (Some r) response payload e now db = (res, db') →
  keeps_books x db db'.
Proof.
  intros Hx Hexc Hb Hid Hcur. pose proof Hcur as (j & c & Hid' & Hi & _).
  assert (j = i) as -> by congruence. unfold fail_call.
  rewrite (bind_run _ _ db c db) by (unfold get_or_raise; by rewrite Hi).
  unfold _finish_api_call. rewrite (bind_run _ _ _ _ _ (update_call_run _ _ _)).
  intros Hrun. replace db' with (res, db').2 by done. rewrite <- Hrun.
  apply (settle_books x i r _ _ _ _ _ _ _ _ _ c); try done.
  - unfold failure_status. intros Ha. rewrite Ha. split; [done|].
    unfold ambiguous in Ha. bools. by apply not_eq_None_Some.
  - unfold failure_status. by repeat case_match.
  - unfold failure_status. by repeat case_match.
Qed.

Lemma cancel_books i r now res db db' :
  books db → ur_api_call_id r = Some i → reservation_current r db →
  _finish_unknown_attempt type_name error_text i (Some r) now db = (res, db') →
  keeps_books 0 db db'.
Proof.
  intros Hb Hid Hcur. pose proof Hcur as (j & c & Hid' & Hi & _).
  assert (j = i) as -> by congruence. unfold _finish_unknown_attempt.
  rewrite (bind_run _ _ db c db) by (unfold get_or_raise; by rewrite Hi).
  unfold _finish_api_call. rewrite (bind_run _ _ _ _ _ (update_call_run _ _ _)).
  intros Hrun. replace db' with (res, db').2 by done. rewrite <- Hrun.
  apply (settle_books 0 i r _ _ _ _ _ _ _ _ _ c); try done.
  - apply excess_zero.
  - intros Ha. rewrite Ha. split; [done|]. bools. by apply not_eq_None_Some.
  - by case_match.
  - by case_match.
Qed.

(** How [try_except] runs. *)
Lemma try_ok {A} (m : Session USD A) h db a db1 :
  m db = (Ok a, db1) → try_except m h db = (Ok a, db1).
Proof. intros Hm. unfold try_except. by rewrite Hm. Qed.

Lemma try_raise_snd {A} (m : Session USD A) h db e db1 :
  m db = (Raise e, db1) → (try_except m h db).2 = (h e db1).2.
Proof.
  intros Hm. unfold try_except. rewrite Hm. unfold mbind, M_bind. by destruct (h e db1) as [[]].
Qed.

Lemma bind_try_raise_snd {A B} (m : Session USD A) h (k : A → Session USD B) db e db1 :
  m db = (Raise e, db1) → ((try_except m h ≫= k) db).2 = (h e db1).2.
Proof.
  intros Hm. unfold try_except, mbind, M_bind. rewrite Hm. unfold raise.
  by destruct (h e db1) as [[]].
Qed.

Lemma bind_raise_snd {A B} (m : Session USD A) (e : exn) db :
  ((m ≫= λ _, raise e : Session USD B) db).2 = (m db).2.
Proof. unfold mbind, M_bind. by destruct (m db) as [[]]. Qed.

Lemma fail_none_books x i r response e now db :
  0 ≤ x → books db → ur_api_call_id r = Some i → reservation_current r db →
  keeps_books x db (fail_call type_name error_text i (Some r) response None e now db).2.
Proof.
  intros Hx Hb Hid Hcur. destruct (fail_call _ _ _ _ _ _ _ _ db) as [res1 db1] eqn:Hf.
  eapply fail_books; [exact Hx| |done..|exact Hf].
  intros Hest. pose proof (excess_zero _ Hest). simpl. lia.
Qed.

Lemma end_books p i r o now res db db' :
  books db → ur_api_call_id r = Some i → reservation_current r db →
  end_request type_name error_text settings p i r o now db = (res, db') →
  keeps_books (excess (ur_estimated_cost_usd r) (outcome_cost p o)) db db'.
Proof.
  intros Hb Hid Hcur Hrun. replace db' with (res, db').2 by done. rewrite <- Hrun.
  set (x := excess _ _). assert (0 ≤ x) as Hx by (unfold x, excess; lia).
  pose proof (lease_gate (execution_lease p) now db) as Hlease.
  unfold end_request, _assert_execution_lease.
  destruct o as [cost ids|e|e|].
  - destruct Hlease as [[_ Hm]|(_ & e & Hm)].
    + rewrite (bind_run _ _ _ _ _ (try_ok _ _ _ _ _ Hm)).
      pose proof Hcur as (j & c & Hid' & Hi & _). assert (j = i) as -> by congruence.
      unfold _finish_api_call. rewrite (bind_run _ _ _ _ _ (update_call_run _ _ _)).
      by apply (settle_books x i r _ _ _ _ _ _ _ _ _ c).
    + rewrite (bind_try_raise_snd _ _ _ _ _ _ Hm). by apply fail_none_books.
  - assert (∃ e', (assert_optional_lease (execution_lease p) now
                   ≫= λ _, raise e : Session USD unit) db = (Raise e', db)) as [e' Hm].
    { destruct Hlease as [[_ Hm]|(_ & e' & Hm)].
      - exists e. by rewrite (bind_run _ _ _ _ _ Hm).
      - exists e'. unfold mbind, M_bind. by rewrite Hm. }
    rewrite (try_raise_snd _ _ _ _ _ Hm). by apply fail_none_books.
  - rewrite bind_raise_snd. by apply fail_none_books.
  - destruct (_finish_unknown_attempt _ _ _ _ _ db) as [res1 db1] eqn:Hf.
    destruct (cancel_books _ _ _ _ _ _ Hb Hid Hcur Hf) as [Hb1 Hc].
    split; [done|]. intros k Hk. specialize (Hc k Hk). simpl. lia.
Qed.

(** ** The remaining transactions *)

Lemma refused_books i c e now res db db' :
  books db → api_calls db !! i = Some c → ac_reservation_state c = RNone →
  fail_call type_name error_text i None false None e now db = (res, db') →
  keeps_books 0 db db'.
Proof.
  intros Hb Hi Hn. unfold fail_call.
  rewrite (bind_run _ _ db c db) by (unfold get_or_raise; by rewrite Hi).
  unfold _finish_api_call. rewrite (bind_run _ _ _ _ _ (update_call_run _ _ _)).
  intros [= _ <-]. apply keeps_same; [|done].
  apply (books_step _ _ Hb); [|done|].
  - apply balanced_keeps; [intros ?; apply attempt_keeps|apply Hb].
  - intros j c'. apply alter_rows. intros c0 Hi0. assert (c0 = c) as -> by congruence.
    apply finished_attempt_ok; [by eapply row_ok_in|by rewrite Hn|..];
      unfold failure_status; by repeat case_match.
Qed.

Lemma submit_books r lease now res db db' :
  books db → mark_provider_call_submitted r lease now db = (res, db') →
  keeps_books 0 db db'.
Proof.
  intros Hb Hrun. destruct res as [u|e].
  - pose proof (balanced_submit _ _ _ _ _ _ Hrun (bk_balanced _ Hb)) as Hbal.
    apply submit_ok in Hrun as [_ Hr].
    destruct (ur_api_call_id r) as [i|]; [|subst; by apply keeps_same].
    destruct Hr as (c & Hi & Hs & _ & ->). apply keeps_same; [|done].
    apply (books_step _ _ Hb Hbal); [done|]. intros j c'. apply alter_rows.
    intros c0 Hi0. assert (c0 = c) as -> by congruence.
    destruct (row_ok_in _ _ _ Hb Hi) as [Hwf Hest _ _ _].
    split; cbn; try done; by rewrite Hs.
  - assert (db' = db) as ->; [|by apply keeps_same].
    revert Hrun. unfold mark_provider_call_submitted.
    destruct (lease_gate lease now db) as [[_ Hm]|(_ & e' & Hm)].
    + rewrite (bind_run _ _ _ _ _ Hm). destruct (ur_api_call_id r) as [i|]; [|done].
      unfold get_or_raise, mbind, M_bind. destruct (api_calls db !! i); [|by intros [= _ <-]].
      unfold raise_if. destruct (negb _); [by intros [= _ <-]|done].
    + unfold mbind, M_bind. rewrite Hm. by intros [= _ <-].
Qed.

(** An attempt as [released_db] leaves it. *)
Definition released_call (unknown : bool) now c : ApiCall USD :=
  match ac_reservation_state c, ac_reservation_usage_date c with
  | RReserved, Some _ =>
      c <| ac_reservation_state := if unknown then RReconciledUnknown else RReleased |>
        <| ac_reconciled_at := Some now |>
  | _, _ => c
  end.

Lemma released_stale_ok now c :
  row_ok c → row_ok (mark_stale (was_sent c) now (released_call (was_sent c) now c)).
Proof.
  intros [(Hend & Hpos & Hdate & Hnone) Hest Hretry Hunk Hfl].
  assert (was_sent c = true → is_Some (ac_network_started_at c)) as Hsent.
  { unfold was_sent. rewrite orb_true_iff, !bool_decide_eq_true. naive_solver. }
  assert (was_sent c = false → ac_reservation_state c ≠ RReconciledUnknown) as Hnot.
  { unfold was_sent. intros Hs Hr. bools. by destruct (Hunk Hr). }
  unfold released_call.
  destruct (ac_reservation_state c) eqn:Hs, (ac_reservation_usage_date c) as [d|] eqn:Hd,
    (was_sent c) eqn:Hw; try (by destruct Hdate);
    (split; [split; cbn; rewrite ?Hs, ?Hd; by eauto|..]); cbn; rewrite ?Hs;
    try done; naive_solver.
Qed.

Lemma released_committed k i c unknown now db :
  balanced db → api_calls db !! i = Some c →
  committed k (released_db i c unknown now db) ≤ committed k db.
Proof.
  intros Hbal Hi. unfold released_db.
  destruct (ac_reservation_state c) eqn:Hs; try done.
  destruct (ac_reservation_usage_date c) as [date|] eqn:Hd; [|done].
  destruct (bal_wf _ Hbal _ _ Hi) as (Hend & Hpos & _).
  rewrite committed_call, committed_pair by (by apply keys_differ, (bal_wf _ Hbal _ _ Hi)).
  case_decide as Hk; [|done].
  pose proof (reserved_ge _ _ _ k Hbal Hi) as Hge.
  rewrite (held_in _ _ _ _ Hs Hd), decide_True in Hge by done.
  destruct (release_in_reserved _ unknown (usage_row db k) Hge) as (Hr & Hu & Hsp).
  unfold committed_in. rewrite Hr, Hu, Hsp.
  unfold committed, spent, reserved, unreconciled. destruct unknown; lia.
Qed.

Lemma reconcile_one_books now i u db db' :
  books db → reconcile_one now i db = (Ok u, db') → keeps_books 0 db db'.
Proof.
  intros Hb Hrun.
  pose proof (balanced_reconcile_one _ _ _ _ _ Hrun (bk_balanced _ Hb)) as Hbal.
  apply reconcile_one_ok in Hrun as (c & Hi & ->).
  pose proof (row_ok_in _ _ _ Hb Hi) as Hok.
  assert (api_calls (released_db i c (was_sent c) now db)
          = alter (released_call (was_sent c) now) i (api_calls db)) as Hrows.
  { rewrite (alter_as_insert _ _ _ _ Hi). unfold released_db, released_call.
    destruct (ac_reservation_state c), (ac_reservation_usage_date c);
      try (by rewrite insert_id).
    match goal with |- context [alter ?g i] => exact (alter_as_insert g _ _ _ Hi) end. }
  split.
  - apply (books_step _ _ Hb Hbal).
    + unfold released_db. by repeat case_match.
    + intros j c'. cbn. rewrite Hrows, alter_alter_eq. apply alter_rows.
      intros c0 Hi0. assert (c0 = c) as -> by congruence. by apply released_stale_ok.
  - intros k _. rewrite committed_call.
    pose proof (released_committed k i c (was_sent c) now db (bk_balanced _ Hb) Hi). lia.
Qed.

Lemma keeps_books_trans db1 db2 db3 :
  keeps_books 0 db1 db2 → keeps_books 0 db2 db3 → keeps_books 0 db1 db3.
Proof.
  intros [_ Hc1] [Hb Hc2]. split; [done|].
  intros k Hk. specialize (Hc1 k Hk). specialize (Hc2 k Hk). lia.
Qed.

Lemma reconcile_one_total now i db c :
  api_calls db !! i = Some c → ∃ db', reconcile_one now i db = (Ok tt, db').
Proof. intros Hi. eexists. apply reconcile_one_ok. by exists c. Qed.

(** The loop over the stale attempts never raises. *)
Lemma reconcile_loop_books now l db :
  books db → (∀ i, i ∈ l → is_Some (api_calls db !! i)) →
  ∃ db', for_each (reconcile_one now) l db = (Ok tt, db') ∧ keeps_books 0 db db'.
Proof.
  revert db. induction l as [|i l IH]; intros db Hb Hl; simpl.
  - exists db. split; [done|]. by apply keeps_same.
  - destruct (Hl i) as [c Hi]; [by left|].
    destruct (reconcile_one_total now i db c Hi) as [db1 Hrun].
    rewrite (bind_run _ _ _ _ _ Hrun).
    pose proof (reconcile_one_books _ _ _ _ _ Hb Hrun) as Hk1.
    apply reconcile_one_ok in Hrun as (c1 & Hi1 & ->).
    destruct (IH _ (kb_books _ _ _ Hk1)) as (db2 & Hrun2 & Hk2).
    { intros j Hj. destruct (Hl j) as [cj Hcj]; [by right|].
      cbn. rewrite lookup_alter_is_Some. unfold released_db.
      repeat case_match; cbn; rewrite ?lookup_alter_is_Some; by eexists. }
    exists db2. split; [done|]. by eapply keeps_books_trans.
Qed.

Lemma stale_books stale_before scan now res db db' :
  books db → reconcile_stale_api_call_attempts stale_before scan now db = (res, db') →
  keeps_books 0 db db'.
Proof.
  intros Hb. unfold reconcile_stale_api_call_attempts. rewrite bind_gets.
  set (rows := (select _ _).*1).
  destruct (reconcile_loop_books now rows db Hb) as (db1 & Hrun & Hk).
  { intros i ([j c] & -> & [Hj _]%elem_of_select)%list_elem_of_fmap. by eexists. }
  rewrite (bind_run _ _ _ _ _ Hrun). by intros [= _ <-].
Qed.

Lemma resolve_raise i outcome actual note now e db db' :
  resolve_unknown_provider_call i outcome actual note now db = (Raise e, db') → db' = db.
Proof.
  unfold resolve_unknown_provider_call. rewrite bind_get_or_raise.
  destruct (parse_outcome outcome); [|by intros [= _ <-]]. rewrite bind_raise_if.
  destruct (actual <? 0)%amt; [by intros [= _ <-]|]. rewrite bind_raise_if.
  destruct (negb _); [by intros [= _ <-]|]. rewrite bind_get_or_raise.
  destruct (api_calls db !! i) as [c|]; [|by intros [= _ <-]]. rewrite bind_raise_if.
  destruct (negb _); [by intros [= _ <-]|].
  destruct (ac_reservation_usage_date c); [|done].
  by rewrite (bind_run _ _ _ _ _ (update_pair_run _ _ _ _ _)).
Qed.

Lemma resolve_books i c outcome actual note now res db db' :
  books db → api_calls db !! i = Some c →
  resolve_unknown_provider_call i outcome actual note now db = (res, db') →
  keeps_books (excess (ac_reservation_estimated_cost_usd c) actual) db db'.
Proof.
  intros Hb Hi Hrun. destruct res as [c'|e].
  2: { apply resolve_raise in Hrun as ->. split; [done|]. unfold excess. intros; lia. }
  pose proof (balanced_resolve _ _ _ _ _ _ _ _ Hrun (bk_balanced _ Hb)) as Hbal.
  apply resolve_ok in Hrun as (c0 & o & _ & _ & _ & Hi0 & Haw & _ & ->).
  assert (c0 = c) as -> by congruence. clear Hi0.
  pose proof (row_ok_in _ _ _ Hb Hi) as [(Hend & Hpos & _ & Hnd) Hest _ _ _].
  split.
  - apply (books_step _ _ Hb Hbal); [by case_match|].
    assert (∀ j d, alter (mark_resolved o actual note now) i (api_calls db) !! j = Some d →
      api_calls db !! j = Some d ∨ row_ok d) as Hrows.
    { intros j d. apply alter_rows. intros c0 Hi0. assert (c0 = c) as -> by congruence.
      destruct o; split; by repeat split. }
    intros j d. case_match; apply Hrows.
  - intros k _. destruct (ac_reservation_usage_date c) as [date|] eqn:Hd;
      rewrite committed_call; [|unfold excess; lia].
    rewrite committed_pair by (apply keys_differ; by apply (bal_wf _ (bk_balanced _ Hb) _ _ Hi)).
    unfold excess. case_decide as Hk; [|lia].
    unfold awaiting_resolution in Haw. bools.
    assert (ac_reservation_state c = RReconciledUnknown) as Hs.
    { match goal with H : _ || _ = true |- _ => apply orb_true_iff in H as [Hn|] end; bools;
        [|done]. specialize (Hnd Hn). discriminate. }
    pose proof (unreconciled_ge _ _ _ k (bk_balanced _ Hb) Hi) as Hge.
    rewrite (held_in _ _ _ _ Hs Hd), decide_True in Hge by done.
    destruct (resolve_in_value _ actual (usage_row db k) Hge) as (Hr & Hu & Hsp).
    unfold committed_in. rewrite Hr, Hu, Hsp.
    unfold committed, spent, reserved, unreconciled. lia.
Qed.

(** ** Every transaction, and every sequence of them *)

Lemma step_books db e x db' :
  ledger_step db e x db' → timely db e → books db →
  keeps_books x db db' ∧ 0 ≤ x.
Proof.
  intros Hstep Ht Hb. destruct Hstep; cbn [timely] in Ht; (split; [|unfold excess; lia]).
  - by eapply prepare_books.
  - by eapply reserve_books.
  - eapply refused_books; [done|done|by apply Ht|done].
  - by eapply submit_books.
  - eapply fail_books; [..|done]; [done|apply excess_zero|done..].
  - by eapply end_books.
  - by eapply stale_books.
  - by eapply resolve_books.
  - match goal with H : record_unexpected_call _ _ _ _ _ = _ |- _ =>
      rewrite record_unexpected_run in H; injection H as _ <- end.
    edestruct counts_books as [Hb' Hc]; [|exact Hb|by apply keeps_same]. done.
Qed.

Lemma reach_books db x db' :
  ledger_reach timely db x db' → books db →
  books db' ∧ 0 ≤ x
  ∧ ∀ k, bk_endpoint k = ""%string →
      committed k db' ≤ Z.max (committed k db) (limit_of k) + x.
Proof.
  intros Hreach Hb. induction Hreach as [|x e y db1 db2 _ (Hb1 & Hx & Hc1) Hstep Ht].
  { split; [done|]. split; [done|]. lia. }
  destruct (step_books _ _ _ _ Hstep Ht Hb1) as [[Hb2 Hc2] Hy].
  split; [done|]. split; [lia|]. intros k Hk.
  specialize (Hc1 k Hk). specialize (Hc2 k Hk). lia.
Qed.
End steps.
