(* ===== verification/LedgerTheorems.v ===== *)
(** * LedgerTheorems: the guarantees of the spend ledger

    The theorems about services/cost_controls.py and the paid-call protocol of
    integrations/dataforseo/live.py, each with a run that meets its
    hypotheses. *)
From S2P Require Import Prelude Binary64 Schema ScanLeases CostControls LiveCalls.
From S2P Require Import CostControlsProofs LedgerInvariant LedgerSteps.

(** ** Lemmas on the recovery loop and on planned requests *)
Section lemmas.
Context {USD : Type} `{Amount USD}.
Implicit Types (db : Db USD) (c : ApiCall USD).

(** What the recovery makes of one stale attempt. *)
Definition reconciled (now : Z) c : ApiCall USD :=
  mark_stale (was_sent c) now (released_call (was_sent c) now c).

Lemma reconcile_one_rows now i c db :
  api_calls db !! i = Some c →
  ∃ db', reconcile_one now i db = (Ok tt, db')
    ∧ api_calls db' = <[i := reconciled now c]> (api_calls db).
Proof.
  intros Hi. eexists. split; [apply reconcile_one_ok; by exists c|].
  unfold reconciled, released_call, released_db.
  destruct (ac_reservation_state c), (ac_reservation_usage_date c);
    try (match goal with |- context [alter ?g i] => exact (alter_as_insert g _ _ _ Hi) end).
  cbn -[alter insert]. rewrite alter_alter_eq. by rewrite (alter_as_insert _ _ _ _ Hi).
Qed.

Lemma reconcile_loop_rows now l db :
  NoDup l → (∀ i, i ∈ l → is_Some (api_calls db !! i)) →
  ∃ db', for_each (reconcile_one now) l db = (Ok tt, db')
    ∧ ∀ i, api_calls db' !! i
           = if decide (i ∈ l) then reconciled now <$> api_calls db !! i
             else api_calls db !! i.
Proof.
  revert db. induction l as [|i l IH]; intros db Hnd Hl; simpl.
  - exists db. split; [done|]. done.
  - apply NoDup_cons in Hnd as [Hni Hnd]. destruct (Hl i) as [c Hi]; [by left|].
    destruct (reconcile_one_rows now i c db Hi) as (db1 & Hrun & Hrows).
    rewrite (bind_run _ _ _ _ _ Hrun).
    destruct (IH db1 Hnd) as (db2 & Hrun2 & Hrows2).
    { intros j Hj. rewrite Hrows, lookup_insert_is_Some'. right. apply Hl. by right. }
    exists db2. split; [done|]. intros j. rewrite Hrows2, Hrows.
    destruct (decide (i = j)) as [<-|Hne].
    + rewrite decide_False, decide_True, lookup_insert_eq, Hi by (done || by left). done.
    + rewrite lookup_insert_ne by done. repeat case_decide; set_solver.
Qed.

Lemma reconciled_closed now before scan c : stale_attempt before scan (reconciled now c) = false.
Proof. unfold stale_attempt, reconciled, mark_stale. by destruct (was_sent c). Qed.

(** At most one attempt row per planned request of a scan. *)
Definition plan_unique db : Prop :=
  ∀ i j c d scan planned, api_calls db !! i = Some c → api_calls db !! j = Some d →
    ac_scan_run_id c = Some scan → ac_planned_request_id c = Some planned →
    ac_scan_run_id d = Some scan → ac_planned_request_id d = Some planned → i = j.

Lemma attempts_nil db scan planned q :
  attempts_for db scan planned q = [] ↔
  ∀ i c, api_calls db !! i = Some c → ac_scan_run_id c = Some scan →
    ac_planned_request_id c = Some planned → q (ac_status c) = false.
Proof.
  split.
  - intros Hnil i c Hi Hs Hp. destruct (q (ac_status c)) eqn:Hq; [|done].
    assert ((i, c) ∈ attempts_for db scan planned q) as Hin by by apply attempts_for_elem.
    rewrite Hnil in Hin. by apply not_elem_of_nil in Hin.
  - intros Hall. destruct (attempts_for db scan planned q) as [|[i c] l] eqn:Ha; [done|].
    assert ((i, c) ∈ attempts_for db scan planned q) as Hin by (rewrite Ha; left).
    apply attempts_for_elem in Hin as (Hi & Hs & Hp & Hq).
    by rewrite (Hall i c Hi Hs Hp) in Hq.
Qed.

Lemma consumed_spec db scan planned :
  consumed db scan planned = true ↔
  ∃ i c, api_calls db !! i = Some c ∧ ac_scan_run_id c = Some scan
    ∧ ac_planned_request_id c = Some planned ∧ retryable_status (ac_status c) = false.
Proof.
  unfold consumed. rewrite bool_decide_eq_true. split.
  - destruct (attempts_for _ _ _ _) as [|[i c] l] eqn:Ha; [done|]. intros _.
    assert ((i, c) ∈ attempts_for db scan planned (λ s, negb (retryable_status s))) as Hin
      by (rewrite Ha; left).
    apply attempts_for_elem in Hin as (? & ? & ? & ?%negb_true_iff). by exists i, c.
  - intros (i & c & Hi & Hs & Hp & Hr) Hnil.
    rewrite attempts_nil in Hnil. specialize (Hnil i c Hi Hs Hp). simpl in Hnil.
    by rewrite Hr in Hnil.
Qed.

Lemma unique_alter g i db :
  (∀ c, ac_scan_run_id (g c) = ac_scan_run_id c
      ∧ ac_planned_request_id (g c) = ac_planned_request_id c) →
  plan_unique db → plan_unique (db <| api_calls ::= alter g i |>).
Proof.
  intros Hg Hu. assert (∀ j d, alter g i (api_calls db) !! j = Some d → ∃ d0,
    api_calls db !! j = Some d0 ∧ ac_scan_run_id d = ac_scan_run_id d0
    ∧ ac_planned_request_id d = ac_planned_request_id d0) as Hrow.
  { intros j d. rewrite lookup_alter. case_decide; [|eauto]. subst.
    intros (d0 & Hd & ->)%fmap_Some. exists d0. split; [done|]. apply Hg. }
  intros j k c d scan planned (c0 & Hc & -> & ->)%Hrow (d0 & Hd & -> & ->)%Hrow.
  by apply (Hu _ _ _ _ scan planned).
Qed.

Lemma unique_insert row db :
  planned_request_taken row db = false → plan_unique db →
  plan_unique (db <| api_calls ::= <[next_id (api_calls db) := row]> |>).
Proof.
  intros Ht Hu i j c d scan planned. cbn. rewrite !lookup_insert.
  assert (∀ k d, ac_scan_run_id row = Some scan → ac_planned_request_id row = Some planned →
    api_calls db !! k = Some d → ac_scan_run_id d = Some scan →
    ac_planned_request_id d = Some planned → False) as Hfree.
  { intros k e Hs Hp Hk Hse Hpe. unfold planned_request_taken in Ht. rewrite Hs, Hp in Ht.
    bools. apply Ht. intros Hnil. rewrite attempts_nil in Hnil.
    by specialize (Hnil k e Hk Hse Hpe). }
  repeat case_decide; intros; simplify_eq; try done; try (exfalso; by eapply Hfree).
  by eapply Hu.
Qed.
End lemmas.

(** ** Theorems *)
Section theorems.
Context {USD : Type} `{Amount USD}.
Implicit Types (db : Db USD) (c : ApiCall USD) (settings : Settings USD).

(** A paid call is let through exactly when the lease is held, the switches
    are on, the estimate is not abnormal, the attempt is fresh and every
    durable breaker is clear; then both usage buckets and the attempt record
    the reservation.  Otherwise it raises and every bucket reads as before. *)
Theorem reserve_exactly_when_admitted settings provider environment adapter endpoint est
    profile miss req i lease now db :
  (admitted settings db provider environment adapter est profile req i lease now
   ∧ ∃ db', reserve_provider_call settings provider environment adapter endpoint est
              profile miss req i lease now db
            = (Ok (reservation_of provider environment endpoint est i now), db')
     ∧ same_ledger db' (reserved_db provider environment endpoint est miss i now db))
  ∨ (¬ admitted settings db provider environment adapter est profile req i lease now
     ∧ ∃ e db', reserve_provider_call settings provider environment adapter endpoint est
                  profile miss req i lease now db = (Raise e, db')
       ∧ same_ledger db' db).
Proof. apply reserve_run. Qed.

(** The recovery of stale attempts never raises and is complete: every open
    attempt that started before the cutoff is closed (an attempt that may
    have been sent becomes an unknown outcome and keeps its money
    unreconciled, any other releases its reservation), no other attempt is
    touched, and none is left stale. *)
Theorem stale_attempts_reconciled before scan now db :
  ∃ n db', reconcile_stale_api_call_attempts before scan now db = (Ok n, db')
    ∧ (∀ i, api_calls db' !! i
            = (λ c, if stale_attempt before scan c then reconciled now c else c)
              <$> api_calls db !! i)
    ∧ (∀ i c, api_calls db' !! i = Some c → stale_attempt before scan c = false)
    ∧ (∀ i c c', api_calls db !! i = Some c → api_calls db' !! i = Some c' →
         stale_attempt before scan c = true →
         ac_attempt_state c'
           = (if was_sent c then AProviderOutcomeUnknown else AFailedBeforeNetwork)
         ∧ (is_Some (ac_reservation_usage_date c) → ac_reservation_state c = RReserved →
            ac_reservation_state c'
              = if was_sent c then RReconciledUnknown else RReleased)).
Proof.
  unfold reconcile_stale_api_call_attempts. rewrite bind_gets.
  set (q := λ (_ : Z) c, stale_attempt before scan c). set (rows := (select q _).*1).
  destruct (reconcile_loop_rows now rows db) as (db' & Hrun & Hrows).
  { apply select_NoDup. }
  { intros i ([j c] & -> & [Hj _]%elem_of_select)%list_elem_of_fmap. by eexists. }
  assert (∀ i, api_calls db' !! i
            = (λ c, if stale_attempt before scan c then reconciled now c else c)
              <$> api_calls db !! i) as Heff.
  { intros i. rewrite Hrows. destruct (api_calls db !! i) as [c|] eqn:Hi; simpl;
      [|by case_decide].
    assert (i ∈ rows ↔ stale_attempt before scan c = true) as Hin.
    { unfold rows. rewrite list_elem_of_fmap. split.
      - intros ([j c'] & -> & [Hj Hq]%elem_of_select). simpl in *. by simplify_eq.
      - intros Hs. exists (i, c). split; [done|]. by apply elem_of_select. }
    destruct (stale_attempt before scan c); case_decide; naive_solver. }
  rewrite (bind_run _ _ _ _ _ Hrun). eexists _, db'. split; [done|]. split; [done|]. split.
  - intros i c. rewrite Heff. intros (c0 & _ & ->)%fmap_Some.
    destruct (stale_attempt before scan c0) eqn:Hs; [apply reconciled_closed|done].
  - intros i c c' Hi. rewrite Heff, Hi. intros [= <-] Hs. rewrite Hs.
    unfold reconciled, released_call, mark_stale. destruct (was_sent c); (split; [done|]);
      intros [d Hd] Hr; by rewrite Hr, Hd.
Qed.

(** A reservation is settled once.  Settling it again, with whatever
    outcome, changes nothing: neither the buckets nor the attempt. *)
Theorem finish_settles_once r c actual failed drift abnormal unknown now
    actual' failed' drift' abnormal' unknown' now' db db' :
  reservation_call r db = Some c →
  finish_provider_call r actual failed drift abnormal unknown now db = (Ok tt, db') →
  finish_provider_call r actual' failed' drift' abnormal' unknown' now' db'
  = (Ok tt, db').
Proof.
  intros Hc Hrun. rewrite finish_run in Hrun. injection Hrun as <-.
  rewrite finish_run. do 2 f_equal.
  destruct (settled_call r db) eqn:Hs; [by rewrite Hs|].
  enough (settled_call r (finished_db r actual failed drift abnormal unknown now db) = true)
    as -> by done.
  unfold settled_call, reservation_call, finished_db in *.
  destruct (ur_api_call_id r) as [i|]; [|done]. cbn -[alter].
  rewrite lookup_alter_eq, Hc. by destruct unknown.
Qed.

(** The operator's resolution of an unknown outcome moves exactly the
    attempt's estimate out of the unreconciled spend of its two buckets and
    the actual cost into their spend, closes the attempt, and refuses an
    unknown outcome word, a negative cost, an empty note, and an attempt that
    is not awaiting resolution, leaving the database as it was. *)
Theorem resolve_unknown_outcome i outcome actual note now db :
  (∃ c o, parse_outcome outcome = Some o ∧ (actual <? 0)%amt = false
     ∧ str_truthy (py_strip note) = true ∧ api_calls db !! i = Some c
     ∧ awaiting_resolution c = true
     ∧ resolve_unknown_provider_call i outcome actual note now db
       = (Ok (mark_resolved o actual note now c),
          match ac_reservation_usage_date c with
          | Some date =>
              apply_pair (resolve_in (ac_reservation_estimated_cost_usd c) actual)
                (call_key c date "") (call_key c date (ac_endpoint c)) db
          | None => db
          end <| api_calls ::= alter (mark_resolved o actual note now) i |>))
  ∨ (∃ e, resolve_unknown_provider_call i outcome actual note now db = (Raise e, db)
     ∧ (parse_outcome outcome = None ∨ (actual <? 0)%amt = true
        ∨ str_truthy (py_strip note) = false
        ∨ (∀ c, api_calls db !! i = Some c → awaiting_resolution c = false))).
Proof.
  destruct (resolve_unknown_provider_call i outcome actual note now db) as [[c'|e] db'] eqn:Hr.
  - left. apply resolve_ok in Hr as (c & o & ? & ? & ? & ? & ? & -> & ->). by eauto 10.
  - right. exists e. revert Hr. unfold resolve_unknown_provider_call.
    rewrite bind_get_or_raise. destruct (parse_outcome outcome); [|intros [= <- <-]; eauto].
    rewrite bind_raise_if. destruct (actual <? 0)%amt; [intros [= <- <-]; eauto|].
    rewrite bind_raise_if. destruct (str_truthy _); [|intros [= <- <-]; eauto]. cbn [negb].
    rewrite bind_get_or_raise. destruct (api_calls db !! i) as [c|].
    2: { intros [= <- <-]. split; [done|]. do 3 right. done. }
    rewrite bind_raise_if. destruct (awaiting_resolution c) eqn:Ha; cbn [negb].
    2: { intros [= <- <-]. split; [done|]. do 3 right. by intros ? [= <-]. }
    destruct (ac_reservation_usage_date c); [|done].
    by rewrite (bind_run _ _ _ _ _ (update_pair_run _ _ _ _ _)).
Qed.

(** A request that matches a planned call of its scan always gets an attempt
    row: the unique constraint on (scan, planned request) is never hit, the
    failed row of an earlier attempt is used again when there is one, and the
    planned call counts as consumed afterwards, so that no second request can
    be made for it while this attempt is open or succeeded. *)
Theorem planned_request_consumed_once p path cache_key token raw cache_hit force now db call :
  plan_unique db → _planned_call p path cache_key db = Some call →
  ∃ scan planned i c db',
    _reserve_api_call p path cache_key token raw cache_hit force now db = (Ok i, db')
    ∧ current_scan_run_id p = Some scan ∧ plan_planned_request_id call = Some planned
    ∧ api_calls db' !! i = Some c ∧ ac_scan_run_id c = Some scan
    ∧ ac_planned_request_id c = Some planned
    ∧ consumed db scan planned = false ∧ consumed db' scan planned = true
    ∧ plan_unique db'.
Proof.
  intros Hu Hplan. pose proof Hplan as (scan & j & planned & Hscan & _ & _ & Hid & Hfree)
    %planned_call_Some.
  unfold _reserve_api_call. rewrite !bind_gets, Hplan.
  rewrite (bool_decide_eq_false_2 (Some call = None)) by done.
  rewrite !andb_false_r. simpl. unfold prepare_attempt. rewrite bind_ret, bind_gets.
  unfold reusable_attempt. simpl. rewrite Hid, Hscan.
  destruct (head (attempts_for db scan planned retryable_status)) as [[i c]|] eqn:Hh.
  - apply head_Some_elem_of, attempts_for_elem in Hh as (Hi & Hs & Hp & Hr).
    set (c' := reuse_row p token raw cache_hit force now c).
    set (db' := db <| api_calls ::= alter (reuse_row p token raw cache_hit force now) i |>).
    assert (api_calls db' !! i = Some c') as Hi'.
    { cbn -[alter]. by rewrite lookup_alter_eq, Hi. }
    exists scan, planned, i, c', db'. do 7 (split; [done|]). split.
    + apply consumed_spec. exists i, c'. do 3 (split; [done|]). by destruct cache_hit.
    + by apply unique_alter.
  - unfold insert_attempt.
    set (row := prepared_row p path cache_key token (Some call) raw cache_hit force now).
    assert (planned_request_taken row db = false) as Ht.
    { unfold planned_request_taken. simpl. rewrite Hscan, Hid.
      apply bool_decide_eq_false. intros Hne. apply Hne, attempts_nil.
      intros i c Hi Hs Hp. exfalso. destruct (retryable_status (ac_status c)) eqn:Hr.
      - apply head_None in Hh. rewrite attempts_nil in Hh.
        by rewrite (Hh i c Hi Hs Hp) in Hr.
      - assert (consumed db scan planned = true); [|congruence].
        apply consumed_spec. by exists i, c. }
    rewrite bind_gets, bind_raise_if, Ht, bind_gets.
    set (i := next_id (api_calls db)).
    set (db' := db <| api_calls ::= <[i := row]> |>).
    assert (api_calls db' !! i = Some row) as Hi' by (cbn -[insert]; apply lookup_insert_eq).
    exists scan, planned, i, row, db'. do 7 (split; [done|]). split.
    + apply consumed_spec. exists i, row. do 3 (split; [done|]). by destruct cache_hit.
    + by apply unique_insert.
Qed.
End theorems.

(** ** Theorems of the exact ledger *)
Section exact.
Context {USD : Type} `{ExactAmount USD}.
Context (type_name error_text : exn → string).
Implicit Types (db : Db USD) (settings : Settings USD) (k : BucketKey).


End exact.

(** ** A run of the protocol *)
Module LedgerRun.
Definition settings : Settings Z := {|
  allow_live_api_calls := true;
  allow_production_dataforseo := false;
  paid_call_kill_switch := false;
  allow_full_scans := false;
  scan_worker_max_attempts := 3;
  scan_worker_retry_base_seconds := F64.of_Z 30;
  scan_worker_retry_max_seconds := F64.of_Z 900;
  scan_worker_stale_after_seconds := F64.of_Z 120;
  scan_worker_long_running_seconds := F64.of_Z 1800;
  production_daily_request_limit := 100;
  production_daily_spend_usd := 1000000;
  testing_daily_spend_usd := 60000;
  single_call_abnormal_cost_usd := 100000;
  unexpected_call_breaker_threshold := 3;
  provider_failure_rate_threshold := F64.div (F64.of_Z 1) (F64.of_Z 4);
  schema_drift_rate_threshold := F64.div (F64.of_Z 1) (F64.of_Z 10);
  circuit_breaker_minimum_requests := 5;
  billing_reconciliation_max_age_hours := 30
|}.

Definition path : string := "/v3/serp/google/organic/live/advanced".

Definition client : LiveProvider := {|
  provider_name := "dataforseo-live";
  api_environment := "testing";
  adapter_version := "v1";
  scan_depth := "testing";
  force_refresh := false;
  allow_unplanned_requests := false;
  current_scan_run_id := Some 1;
  execution_lease := None
|}.

Definition plan : ScanPlanCall Z := {|
  plan_scan_run_id := 1;
  plan_planned_request_id := Some "req-1"%string;
  plan_provider := "dataforseo-live";
  plan_endpoint := path;
  plan_cache_key := "key";
  plan_request_known := true;
  plan_estimated_cost_usd := 50000
|}.

Definition db0 : Db Z := empty_db <| scan_plan_calls := {[1 := plan]} |>.

Definition name_of (e : exn) : string := "error".
Definition receipt : ProviderIds := {| task_id := Some "task"; request_id := None |}.

Definition prepared := _reserve_api_call client path "key" "token" None false false 0 db0.
Definition reservation := reserve_attempt settings client path 1 10 prepared.2.
Definition r : UsageReservation Z :=
  reservation_of "dataforseo-live" "testing" path 50000 (Some 1) 10.
Definition submitted := mark_provider_call_submitted r None 20 reservation.2.
Definition ended := end_request name_of name_of settings client 1 r (response_accepted (Some 70000) receipt) 30
  submitted.2.
Definition summary : BucketKey := Build_BucketKey 0 testing "dataforseo-live" "".

(** The run: 50000 reserved, 70000 billed. *)
Lemma ledger_ran : committed summary ended.2 = 70000 ∧ reserved summary submitted.2 = 50000.
Proof. by vm_compute. Qed.

Definition completed : Db Z :=
  (_finish_api_call name_of name_of 1 CCompleted (Some (70000, receipt)) None 30 submitted.2).2.

Lemma open_call : is_Some (reservation_call r completed).
Proof. vm_compute. by eexists. Qed.

Definition settled_db : Db Z :=
  (finish_provider_call r 70000 false false false false 30 completed).2.

Lemma settled_run :
  finish_provider_call r 70000 false false false false 30 completed = (Ok tt, settled_db).
Proof. unfold settled_db. by rewrite finish_run. Qed.



End LedgerRun.



Lemma finish_settles_once_witness :
  finish_provider_call LedgerRun.r 5 true true true false 50 LedgerRun.settled_db
  = (Ok tt, LedgerRun.settled_db).
Proof.
  destruct LedgerRun.open_call as [c Hc].
  exact (finish_settles_once LedgerRun.r c _ _ _ _ _ _ 5 true true true false 50 _ _ Hc
           LedgerRun.settled_run).
Defined.

Lemma planned_request_consumed_once_witness :
  plan_unique LedgerRun.db0
  ∧ ∃ scan planned i c db',
      _reserve_api_call LedgerRun.client LedgerRun.path "key" "token" None false false 0 LedgerRun.db0
      = (Ok i, db')
      ∧ current_scan_run_id LedgerRun.client = Some scan
      ∧ plan_planned_request_id LedgerRun.plan = Some planned
      ∧ api_calls db' !! i = Some c ∧ ac_scan_run_id c = Some scan
      ∧ ac_planned_request_id c = Some planned
      ∧ consumed LedgerRun.db0 scan planned = false ∧ consumed db' scan planned = true
      ∧ plan_unique db'.
Proof.
  assert (plan_unique LedgerRun.db0) as Hu by done. split; [exact Hu|].
  apply (planned_request_consumed_once _ _ _ _ _ _ _ _ _ LedgerRun.plan Hu).
  by vm_compute.
Defined.

(** ** A late worker and the row of its successor

    [finish_provider_call] recognises an attempt by its row only.  Worker A
    reserves and stalls; the recovery releases its attempt; worker B uses the
    row again, reserves and submits.  When A wakes up and gives up, it settles
    B's reservation, and the price B is billed later is not recorded. *)
Module LateWorker.
Import LedgerRun.

Definition recovered := (reconcile_stale_api_call_attempts 100 None 200 reservation.2).2.
Definition prepared_b := (_reserve_api_call client path "key" "token-b" None false false 210
                            recovered).2.
Definition reserved_b := (reserve_attempt settings client path 1 220 prepared_b).2.
Definition r_b : UsageReservation Z :=
  reservation_of "dataforseo-live" "testing" path 50000 (Some 1) 220.
Definition submitted_b := (mark_provider_call_submitted r_b None 230 reserved_b).2.
Definition given_up_a :=
  (fail_call name_of name_of 1 (Some r) false None (CircuitOpenError attempt_not_reserved)
     240 submitted_b).2.
Definition ended_b :=
  end_request name_of name_of settings client 1 r_b (response_accepted (Some 70000) receipt) 250 given_up_a.

Lemma stale_reservation_settles_retry :
  ended_b.1 = Ok tt
  ∧ spent summary ended_b.2 = 0 ∧ unreconciled summary ended_b.2 = 50000.
Proof. by vm_compute. Qed.

(** When B reserves on the next day, A's settlement takes the money out of the wrong day: the
    attempt is settled, but the reservation stays in B's day and is never released. *)
Definition day : Z := 86400000000.
Definition reserved_next_day := (reserve_attempt settings client path 1 (day + 20) prepared_b).2.
Definition given_up_next_day :=
  (fail_call name_of name_of 1 (Some r) false None (CircuitOpenError attempt_not_reserved)
     (day + 40) reserved_next_day).2.
Definition next_summary : BucketKey := Build_BucketKey 1 testing "dataforseo-live" "".

Lemma late_settlement_unbalances :
  reserved next_summary given_up_next_day = 50000
  ∧ table_sum (held RReserved next_summary) (api_calls given_up_next_day) = 0
  ∧ ¬ timely reserved_next_day (Settles r).
Proof.
  assert (ac_reservation_usage_date <$> api_calls reserved_next_day !! 1 = Some (Some 1)
    ∧ ac_reservation_state <$> api_calls reserved_next_day !! 1 = Some RReserved) as [Hd Hs] by by vm_compute.
  split; [by vm_compute|]. split; [by vm_compute|].
  revert Hd Hs. generalize reserved_next_day. intros db Hd Hs (i & c & [= <-] & Hc & Hcur).
  rewrite Hc in Hd, Hs. injection Hd as Hd. injection Hs as Hs.
  rewrite Hs in Hcur. destruct (Hcur eq_refl) as (_ & Hd' & _). rewrite Hd' in Hd. injection Hd as Hd. by vm_compute in Hd.
Qed.
End LateWorker.
