(* ===== verification/OpportunityReview.v ===== *)
(** * OpportunityReview: the review state machine of opportunity_review/services.py

    An opportunity moves through the review states by audited transitions; it
    becomes a property only after a human approval backed by complete evidence.
    Evidence overrides are an append-only log of applications and reversals.
    Discovery templates, batches and the evidence packet export are not
    modelled here. *)
From S2P Require Import Prelude Binary64 Schema.

(** ** States *)

Inductive OpportunityState : Type :=
| discovered | prefilter_review | testing_planned | testing_running
| preliminary_review | full_scan_approved | full_running | full_review
| needs_more_evidence | approved_for_property | rejected | archived.
#[export] Instance OpportunityState_eq_dec : EqDecision OpportunityState.
Proof. solve_decision. Defined.

Definition all_states : list OpportunityState :=
  [discovered; prefilter_review; testing_planned; testing_running; preliminary_review;
   full_scan_approved; full_running; full_review; needs_more_evidence;
   approved_for_property; rejected; archived].

(** [state.value] *)
Definition state_value (s : OpportunityState) : string :=
  match s with
  | discovered => "discovered"
  | prefilter_review => "prefilter_review"
  | testing_planned => "testing_planned"
  | testing_running => "testing_running"
  | preliminary_review => "preliminary_review"
  | full_scan_approved => "full_scan_approved"
  | full_running => "full_running"
  | full_review => "full_review"
  | needs_more_evidence => "needs_more_evidence"
  | approved_for_property => "approved_for_property"
  | rejected => "rejected"
  | archived => "archived"
  end.

(** [OpportunityState(value)] *)
Definition parse_state (value : string) : option OpportunityState :=
  head (List.filter (λ s, bool_decide (state_value s = value)) all_states).

Definition LEGACY_STATE_MAP : list (string * OpportunityState) :=
  [("approved", approved_for_property); ("evidence_rejected", needs_more_evidence);
   ("scan_failed", needs_more_evidence); ("partial_review", needs_more_evidence);
   ("unusable_review", needs_more_evidence)]%string.

Definition ALLOWED_TRANSITIONS (s : OpportunityState) : list OpportunityState :=
  match s with
  | discovered =>
      [prefilter_review; testing_planned; testing_running; preliminary_review;
       full_running; full_review; needs_more_evidence; rejected; archived]
  | prefilter_review =>
      [testing_planned; testing_running; full_running; needs_more_evidence; rejected;
       archived]
  | testing_planned => [testing_running; needs_more_evidence; rejected; archived]
  | testing_running => [preliminary_review; needs_more_evidence; testing_planned]
  | preliminary_review =>
      [testing_planned; full_scan_approved; needs_more_evidence; rejected; archived]
  | full_scan_approved => [full_running; preliminary_review; needs_more_evidence; rejected]
  | full_running => [full_review; needs_more_evidence; full_scan_approved]
  | full_review =>
      [approved_for_property; full_scan_approved; needs_more_evidence; rejected; archived]
  | needs_more_evidence =>
      [testing_planned; testing_running; preliminary_review; full_scan_approved;
       full_running; full_review; rejected; archived]
  | approved_for_property => [full_running; full_review; needs_more_evidence; archived]
  | rejected => [prefilter_review; preliminary_review; full_review; archived]
  | archived => []
  end.

Definition allowed (s t : OpportunityState) : bool :=
  bool_decide (t ∈ ALLOWED_TRANSITIONS s).

(** [canonical_state]; [None] is the [unknown_opportunity_state] error *)
Definition canonical (value : string) : option OpportunityState :=
  match head (List.filter (λ kv, bool_decide (kv.1 = value)) LEGACY_STATE_MAP) with
  | Some kv => Some kv.2
  | None => parse_state value
  end.

(** ** Requests *)

Record ReviewActor : Type := {
  actor_id : string;
  actor_role : ReviewRole
}.

Record ReviewTransitionRequest : Type := {
  target_state : OpportunityState;
  decision : string;
  decision_reason : string;
  notes : string;
  tags : list string;
  owner_user_id : option string;
  expected_review_version : option Z
}.

Record OwnershipRequest : Type := {
  own_owner_user_id : string;
  own_reason : string;
  own_expected_review_version : option Z
}.

Record EvidenceOverrideRequest : Type := {
  override_kind : EvidenceOverrideKind;
  target_record_id : Z;
  field_name : string;
  new_value : json;
  expected_original_value : option json;
  override_reason : string;
  score_impact : binary64;
  score_impact_explanation : string
}.

Record EvidenceOverrideReversalRequest : Type := {
  reversal_reason : string;
  reversal_score_impact : binary64;
  reversal_score_impact_explanation : string
}.

Definition length_in (lo hi : Z) (s : string) : bool :=
  (lo <=? Z.of_nat (String.length s)) && (Z.of_nat (String.length s) <=? hi).

(** The field constraints of [ReviewTransitionRequest] a caller inside the
    program can violate. *)
Definition valid_request (r : ReviewTransitionRequest) : bool :=
  length_in 2 80 (decision r) && length_in 5 2000 (decision_reason r)
  && length_in 0 5000 (notes r)
  && match owner_user_id r with Some o => length_in 1 120 o | None => true end.

Definition err (code : string) : exn := OpportunityReviewError code.

(** ** Python equality of JSON values

    Numbers compare by value across [bool], [int] and [float]; dicts compare as
    maps. *)

Definition int_float_eqb (z : Z) (f : binary64) : bool :=
  match f with
  | SpecFloat.S754_zero _ => z =? 0
  | SpecFloat.S754_finite s m e =>
      let v := if s then Zneg m else Zpos m in
      if 0 <=? e then z =? v * 2 ^ e else z * 2 ^ (- e) =? v
  | _ => false
  end.

Definition json_int (v : json) : option Z :=
  match v with JBool b => Some (Z.b2z b) | JInt z => Some z | _ => None end.

Definition assoc {A} (k : string) (l : list (string * A)) : option A :=
  snd <$> head (List.filter (λ kv, bool_decide (kv.1 = k)) l).

Fixpoint py_eq (a b : json) {struct a} : bool :=
  match a, b with
  | JNull, JNull => true
  | JStr s, JStr t => bool_decide (s = t)
  | JFloat f, JFloat g => SpecFloat.SFeqb f g
  | JFloat f, _ => match json_int b with Some z => int_float_eqb z f | None => false end
  | (JBool _ | JInt _), JFloat g =>
      match json_int a with Some z => int_float_eqb z g | None => false end
  | (JBool _ | JInt _), (JBool _ | JInt _) => bool_decide (json_int a = json_int b)
  | JList l, JList m =>
      (fix go (l m : list json) {struct l} : bool :=
         match l, m with
         | [], [] => true
         | x :: l', y :: m' => py_eq x y && go l' m'
         | _, _ => false
         end) l m
  | JObj l, JObj m =>
      bool_decide (length l = length m)
      && (fix go (l : list (string * json)) {struct l} : bool :=
            match l with
            | [] => true
            | (k, x) :: l' =>
                match assoc k m with Some y => py_eq x y | None => false end && go l'
            end) l
  | _, _ => false
  end.

(** [v in l] *)
Definition json_in (v : json) (l : list json) : bool := existsb (py_eq v) l.

(** [d.get(k, default)] on a JSON object *)
Definition obj_get (k : string) (default : json) (v : json) : json :=
  match v with
  | JObj l => match assoc k l with Some x => x | None => default end
  | _ => default
  end.

Definition is_obj (v : json) : bool := match v with JObj _ => true | _ => false end.

(** The elements of a JSON list (the code unpacks it with a star). *)
Definition json_elems (v : json) : list json := match v with JList l => l | _ => [] end.

Section review.
Context {USD : Type} `{Amount USD}.
Implicit Types (db : Db USD) (actor : ReviewActor).

Definition canonical_state (value : string) : Session USD OpportunityState :=
  get_or_raise (λ _, canonical value) (err "unknown_opportunity_state").

Definition _opportunity (i : Z) : Session USD Opportunity :=
  get_or_raise (λ db, opportunities db !! i) (err "opportunity_not_found").

Definition require_property_approval (i : Z) : Session USD Opportunity :=
  _opportunity i ≫= λ o,
  canonical_state (opp_status o) ≫= λ s,
  raise_if (negb (bool_decide (s = approved_for_property)))
    (err "property_action_requires_approved_opportunity") ≫= λ _,
  mret o.

Definition version_conflict (o : Opportunity) (expected : option Z) : bool :=
  match expected with
  | Some v => negb (bool_decide (opp_review_version o = v))
  | None => false
  end.

Definition _check_version (o : Opportunity) (expected : option Z) : Session USD unit :=
  raise_if (version_conflict o expected) (err "opportunity_review_version_conflict").

(** ** Completeness of the approval evidence *)

(** [.order_by(key.desc(), id.desc()).limit(1)] on a nullable column: SQLite sorts
    NULL below every value, PostgreSQL above. *)
Definition select_latest_nullable {R} (d : dialect) (key : R → option Z)
    (p : Z → R → bool) (t : gmap Z R) : option (Z * R) :=
  let dated := select_latest (λ r, default 0 (key r))
                 (λ i r, p i r && bool_decide (is_Some (key r))) t in
  let undated := select_last (λ i r, p i r && bool_decide (key r = None)) t in
  match d with
  | sqlite => match dated with Some x => Some x | None => undated end
  | postgresql _ => match undated with Some x => Some x | None => dated end
  end.

(** The latest completed full scan of the opportunity. *)
Definition latest_full_scan (i : Z) db : option (Z * ScanRun) :=
  select_latest_nullable (db_dialect db) sc_completed_at
    (λ _ s, bool_decide (sc_opportunity_id s = Some i)
          && bool_decide (sc_scan_profile s = "full"%string)
          && bool_decide (sc_status s = SCompleted)) (scan_runs db).

Definition matching_score (i scan : Z) db : option (Z * FullOpportunityScore) :=
  select_latest fs_created_at
    (λ _ f, bool_decide (fs_opportunity_id f = i) && bool_decide (fs_scan_run_id f = scan))
    (full_opportunity_scores db).

(** services/discovery_report.py: [build_api_cost_ledger(...)["ledger_complete"]] *)
Definition ledger_complete (scan : Z) db : bool :=
  let rows := (select (λ _ c, bool_decide (ac_scan_run_id c = Some scan)) (api_calls db)).*2 in
  let planned := (select (λ _ c, bool_decide (plan_scan_run_id c = scan))
                    (scan_plan_calls db)).*2 in
  let executed (id : option string) :=
    match id with
    | Some _ => existsb (λ c, bool_decide (ac_planned_request_id c = id)) rows
    | None => false
    end in
  let unexecuted := List.filter (λ c, negb (executed (plan_planned_request_id c))) planned in
  let unexpected :=
    match planned with
    | [] => []
    | _ => List.filter (λ c,
        match ac_planned_request_id c with
        | None => true
        | Some _ => negb (existsb (λ q, bool_decide (plan_planned_request_id q
                                                      = ac_planned_request_id c)) planned)
        end) rows
    end in
  let terminal (s : CallStatus) :=
    match s with CCacheHit | CCompleted | CFailed => true | _ => false end in
  bool_decide (unexecuted = []) && bool_decide (unexpected = [])
  && forallb (λ c, terminal (ac_status c)) rows.

Definition evidence_quality (s : ScanRun) : json :=
  default (JObj []) (sc_partial_outputs s !! "evidence_quality"%string).

Definition quality_status (s : ScanRun) : json :=
  if is_obj (evidence_quality s) then obj_get "status" JNull (evidence_quality s) else JNull.

(** [len(...) > 0] of [_count] *)
Definition has_rows {R} (scan_of : R → option Z) (scan : Z) (t : gmap Z R) : bool :=
  bool_decide (select (λ _ r, bool_decide (scan_of r = Some scan)) t ≠ []).

Record ApprovalCompleteness : Type := {
  owner_assigned : bool;
  completed_full_scan : bool;
  full_score_matches_scan : bool;
  full_score_is_complete : bool;
  evidence_quality_passes : bool;
  keyword_decisions_present : bool;
  serp_snapshots_present : bool;
  competitor_metrics_present : bool;
  provider_candidates_present : bool;
  cost_ledger_complete : bool;
  evidence_is_fresh : bool
}.

(** [not failures] *)
Definition complete (a : ApprovalCompleteness) : bool :=
  owner_assigned a && completed_full_scan a && full_score_matches_scan a
  && full_score_is_complete a && evidence_quality_passes a && keyword_decisions_present a
  && serp_snapshots_present a && competitor_metrics_present a
  && provider_candidates_present a && cost_ledger_complete a && evidence_is_fresh a.

Definition approval_completeness (i : Z) (maximum_age_days : Z) (now : Z)
    : Session USD ApprovalCompleteness :=
  _opportunity i ≫= λ o,
  gets (latest_full_scan i) ≫= λ scan,
  gets (λ db, match scan with Some (s, _) => matching_score i s db | None => None end)
  ≫= λ score,
  gets (λ db,
    let cutoff := now - maximum_age_days * day_us in
    {| owner_assigned := opt_truthy (opp_owner_user_id o);
       completed_full_scan := bool_decide (is_Some scan);
       full_score_matches_scan := bool_decide (is_Some score);
       full_score_is_complete :=
         match score with
         | Some (_, f) =>
             py_eq (default (JStr "complete") (fs_payload f !! "evidence_status"%string))
               (JStr "complete")
         | None => false
         end;
       evidence_quality_passes :=
         match scan with
         | Some (_, s) => json_in (quality_status s) [JStr "pass"; JStr "warning"]
         | None => false
         end;
       keyword_decisions_present :=
         match scan with
         | Some (s, _) => has_rows ev_scan_run_id s (keyword_decisions db)
         | None => false
         end;
       serp_snapshots_present :=
         match scan with
         | Some (s, _) => has_rows snap_scan_run_id s (serp_snapshots db)
         | None => false
         end;
       competitor_metrics_present :=
         match scan with
         | Some (s, _) => has_rows ev_scan_run_id s (competitor_metrics db)
         | None => false
         end;
       provider_candidates_present :=
         match scan with
         | Some (s, _) => has_rows pc_scan_run_id s (provider_candidates db)
         | None => false
         end;
       cost_ledger_complete :=
         match scan with Some (s, _) => ledger_complete s db | None => false end;
       evidence_is_fresh :=
         match scan with
         | Some (_, s) =>
             match sc_completed_at s with
             | Some t => cutoff <=? instant (column_read (db_dialect db) t)
             | None => false
             end
         | None => false
         end |}).

(** ** Transitions *)

(** [session.add(row); session.flush()] *)
Definition add_review (row : OpportunityReview) : Session USD unit :=
  modify (λ db, db <| opportunity_reviews ::=
    <[next_id (opportunity_reviews db) := row]> |>).

Definition update_opportunity (i : Z) (f : Opportunity → Opportunity) : Session USD unit :=
  modify (λ db, db <| opportunities ::= alter f i |>).

(** The opportunity after a transition to [target]. *)
Definition moved (current target : OpportunityState) (owner : option string) (now : Z)
    (o : Opportunity) : Opportunity :=
  let o := o <| opp_status := state_value target |>
             <| opp_owner_user_id := owner |>
             <| opp_review_version ::= Z.add 1 |> in
  if bool_decide (target = approved_for_property) then o <| opp_approved_at := Some now |>
  else if bool_decide (current = approved_for_property) then o <| opp_approved_at := None |>
  else o.

Definition needs_human (t : OpportunityState) : bool :=
  bool_decide (t = approved_for_property) || bool_decide (t = rejected).

Definition transition (i : Z) (request : ReviewTransitionRequest) actor (now : Z)
    : Session USD OpportunityReview :=
  let target := target_state request in
  _opportunity i ≫= λ o,
  canonical_state (opp_status o) ≫= λ current,
  _check_version o (expected_review_version request) ≫= λ _,
  raise_if (negb (allowed current target)) (err "invalid_opportunity_transition") ≫= λ _,
  raise_if (needs_human target && bool_decide (actor_role actor = system))
    (err "human_reviewer_required") ≫= λ _,
  when (bool_decide (target = approved_for_property))
    (approval_completeness i 90 now ≫= λ a,
     raise_if (negb (complete a)) (err "approval_evidence_incomplete")) ≫= λ _,
  let owner := str_or (owner_user_id request) (opp_owner_user_id o) in
  let row := {|
    rev_opportunity_id := i;
    rev_prior_state := Some (state_value current);
    rev_review_state := state_value target;
    rev_owner_user_id := owner;
    rev_reviewer_user_id := actor_id actor;
    rev_reviewer_role := actor_role actor;
    rev_decision := decision request;
    rev_decision_reason := decision_reason request;
    rev_notes := notes request;
    rev_tags := tags request;
    rev_review_version := 1 + opp_review_version o;
    rev_approved_at := if bool_decide (target = approved_for_property) then Some now else None;
    rev_rejected_at := if bool_decide (target = rejected) then Some now else None
  |} in
  update_opportunity i (moved current target owner now) ≫= λ _,
  add_review row ≫= λ _,
  mret row.

Definition system_actor : ReviewActor :=
  {| actor_id := "system:scan-pipeline"; actor_role := system |}.

Definition transition_system (i : Z) (target : OpportunityState) (decision reason : string)
    (now : Z) : Session USD (option OpportunityReview) :=
  _opportunity i ≫= λ o,
  canonical_state (opp_status o) ≫= λ current,
  if bool_decide (current = target) then mret None
  else
    raise_if (negb (allowed current target)) (err "invalid_system_opportunity_transition")
    ≫= λ _,
    let request := {|
      target_state := target; decision := decision; decision_reason := reason;
      notes := ""; tags := []; owner_user_id := opp_owner_user_id o;
      expected_review_version := None |} in
    raise_if (negb (valid_request request)) (ValueError "ReviewTransitionRequest") ≫= λ _,
    transition i request system_actor now ≫= λ row,
    mret (Some row).

Definition assign_owner (i : Z) (request : OwnershipRequest) actor
    : Session USD OpportunityReview :=
  _opportunity i ≫= λ o,
  _check_version o (own_expected_review_version request) ≫= λ _,
  canonical_state (opp_status o) ≫= λ state,
  let row := {|
    rev_opportunity_id := i;
    rev_prior_state := Some (state_value state);
    rev_review_state := state_value state;
    rev_owner_user_id := Some (own_owner_user_id request);
    rev_reviewer_user_id := actor_id actor;
    rev_reviewer_role := actor_role actor;
    rev_decision := "owner_assigned";
    rev_decision_reason := own_reason request;
    rev_notes := "";
    rev_tags := ["ownership"%string];
    rev_review_version := 1 + opp_review_version o;
    rev_approved_at := None;
    rev_rejected_at := None
  |} in
  update_opportunity i (λ o, o <| opp_owner_user_id := Some (own_owner_user_id request) |>
                               <| opp_review_version ::= Z.add 1 |>) ≫= λ _,
  add_review row ≫= λ _,
  mret row.

(** ** Evidence overrides *)

Definition provider_field (f : string) (c : ProviderCandidate) : option json :=
  if bool_decide (f = "suitability_score"%string) then Some (pc_suitability_score c)
  else if bool_decide (f = "business_status"%string) then Some (pc_business_status c)
  else if bool_decide (f = "categories"%string) then Some (pc_categories c)
  else None.

Definition is_provider_field (f : string) : bool :=
  bool_decide (f ∈ ["suitability_score"; "business_status"; "categories"]%string).

Definition market_field (f : string) (m : Market) : json :=
  default JNull (assoc f
    [("display_name", mk_display_name m); ("state", mk_state m); ("county", mk_county m);
     ("metro", mk_metro m); ("latitude", mk_latitude m); ("longitude", mk_longitude m);
     ("boundary_radius_km", mk_boundary_radius_km m); ("geography_id", mk_geography_id m)]%string).

Definition is_market_field (f : string) : bool :=
  bool_decide (f ∈ ["display_name"; "state"; "county"; "metro"; "latitude"; "longitude";
                    "boundary_radius_km"; "geography_id"]%string).

Definition serp_result_of (opportunity target : Z) db : option SerpResult :=
  r ← serp_results db !! target;
  s ← serp_snapshots db !! sr_serp_snapshot_id r;
  if bool_decide (snap_opportunity_id s = Some opportunity) then Some r else None.

Definition provider_candidate_of (opportunity target : Z) db : option ProviderCandidate :=
  c ← provider_candidates db !! target;
  if bool_decide (pc_opportunity_id c = Some opportunity) then Some c else None.

Definition scan_of (opportunity target : Z) db : option ScanRun :=
  s ← scan_runs db !! target;
  if bool_decide (sc_opportunity_id s = Some opportunity) then Some s else None.

Definition _original_evidence_value (i : Z) (r : EvidenceOverrideRequest)
    : Session USD json :=
  match override_kind r with
  | serp_classification =>
      raise_if (negb (bool_decide (field_name r = "classification"%string)))
        (err "unsupported_serp_override_field") ≫= λ _,
      get_or_raise (serp_result_of i (target_record_id r)) (err "serp_result_not_found")
      ≫= λ row, mret (sr_classification row)
  | provider_suitability =>
      raise_if (negb (is_provider_field (field_name r)))
        (err "unsupported_provider_override_field") ≫= λ _,
      get_or_raise (provider_candidate_of i (target_record_id r))
        (err "provider_candidate_not_found") ≫= λ row,
      mret (default JNull (provider_field (field_name r) row))
  | geographic_interpretation =>
      raise_if (negb (is_market_field (field_name r)))
        (err "unsupported_geography_override_field") ≫= λ _,
      _opportunity i ≫= λ o,
      raise_if (negb (bool_decide (opp_market_id o = target_record_id r)))
        (err "market_does_not_match_opportunity") ≫= λ _,
      get_or_raise (λ db, markets db !! opp_market_id o) RuntimeError ≫= λ m,
      mret (market_field (field_name r) m)
  | data_quality_warning =>
      get_or_raise (scan_of i (target_record_id r)) (err "scan_run_not_found") ≫= λ s,
      let quality := evidence_quality s in
      let warnings := if is_obj quality then obj_get "warnings" (JList []) quality else JList [] in
      let errors := if is_obj quality then obj_get "errors" (JList []) quality else JList [] in
      mret (JBool (json_in (JStr (field_name r)) (json_elems warnings ++ json_elems errors)))
  end.

(** The applications of an override for one piece of evidence. *)
Definition applies (i : Z) (kind : EvidenceOverrideKind) (target : Z) (field : string)
    (o : EvidenceOverride) : bool :=
  bool_decide (ov_opportunity_id o = i) && bool_decide (ov_kind o = kind)
  && bool_decide (ov_target_record_id o = target) && bool_decide (ov_field_name o = field)
  && bool_decide (ov_action o = ov_apply).

Definition reversal_of db (i : Z) : option (Z * EvidenceOverride) :=
  select_first (λ _ o, bool_decide (ov_reverses_override_id o = Some i))
    (evidence_overrides db).

(** The last application (in id order) without a reversal. *)
Definition _active_override db (i : Z) (kind : EvidenceOverrideKind) (target : Z)
    (field : string) : option (Z * EvidenceOverride) :=
  head (List.filter (λ kr, bool_decide (reversal_of db kr.1 = None))
    (reverse (select (λ _ o, applies i kind target field o) (evidence_overrides db)))).

Definition add_override (row : EvidenceOverride) : Session USD unit :=
  modify (λ db, db <| evidence_overrides ::=
    <[next_id (evidence_overrides db) := row]> |>).

Definition apply_override (i : Z) (r : EvidenceOverrideRequest) actor
    : Session USD EvidenceOverride :=
  _opportunity i ≫= λ _,
  _original_evidence_value i r ≫= λ original,
  raise_if match expected_original_value r with
           | Some v => negb (py_eq v original)
           | None => false
           end (err "evidence_override_original_mismatch") ≫= λ _,
  raise_if (py_eq original (new_value r)) (err "evidence_override_has_no_effect") ≫= λ _,
  gets (λ db, _active_override db i (override_kind r) (target_record_id r) (field_name r))
  ≫= λ active,
  raise_if (bool_decide (is_Some active)) (err "active_evidence_override_exists") ≫= λ _,
  let row := {|
    ov_opportunity_id := i;
    ov_kind := override_kind r;
    ov_target_record_id := target_record_id r;
    ov_field_name := field_name r;
    ov_action := ov_apply;
    ov_original_value := original;
    ov_new_value := new_value r;
    ov_actor_user_id := actor_id actor;
    ov_actor_role := actor_role actor;
    ov_reason := override_reason r;
    ov_score_impact := score_impact r;
    ov_score_impact_explanation := score_impact_explanation r;
    ov_reverses_override_id := None
  |} in
  add_override row ≫= λ _,
  mret row.

Definition reversible (i override : Z) db : option EvidenceOverride :=
  o ← evidence_overrides db !! override;
  if bool_decide (ov_opportunity_id o = i) && bool_decide (ov_action o = ov_apply)
  then Some o else None.

Definition reverse_override (i override : Z) (r : EvidenceOverrideReversalRequest) actor
    : Session USD EvidenceOverride :=
  get_or_raise (reversible i override) (err "evidence_override_not_found") ≫= λ original,
  gets (λ db, reversal_of db override) ≫= λ reversed_already,
  raise_if (bool_decide (is_Some reversed_already)) (err "evidence_override_already_reversed")
  ≫= λ _,
  let row := {|
    ov_opportunity_id := i;
    ov_kind := ov_kind original;
    ov_target_record_id := ov_target_record_id original;
    ov_field_name := ov_field_name original;
    ov_action := ov_revert;
    ov_original_value := ov_new_value original;
    ov_new_value := ov_original_value original;
    ov_actor_user_id := actor_id actor;
    ov_actor_role := actor_role actor;
    ov_reason := reversal_reason r;
    ov_score_impact := reversal_score_impact r;
    ov_score_impact_explanation := reversal_score_impact_explanation r;
    ov_reverses_override_id := Some override
  |} in
  add_override row ≫= λ _,
  mret row.

(** [list_overrides]: every row of the opportunity with its [active] flag. *)
Definition list_overrides (i : Z) db : list (Z * EvidenceOverride * bool) :=
  let rows := select (λ _ o, bool_decide (ov_opportunity_id o = i)) (evidence_overrides db) in
  let reversed := omap (λ kr, ov_reverses_override_id kr.2) rows in
  (λ kr, (kr, bool_decide (ov_action kr.2 = ov_apply)
              && negb (bool_decide (kr.1 ∈ reversed)))) <$> rows.
End review.
