(* ===== verification/OpportunityReviewProofs.v ===== *)
(** * OpportunityReviewProofs: the guarantees of the review workflow

    The runs of the handlers, the review steps as a relation, and the theorems:
    who may approve and with what evidence, which states are final, the audit
    history, optimistic versions, and the override log. *)
From S2P Require Import Prelude Binary64 Schema OpportunityReview.

(** ** States *)

Lemma canonical_value s : canonical (state_value s) = Some s.
Proof. by destruct s. Qed.

(** The evidence an override is about. *)
Definition evidence_key (o : EvidenceOverride) : Z * EvidenceOverrideKind * Z * string :=
  (ov_opportunity_id o, ov_kind o, ov_target_record_id o, ov_field_name o).

Section runs.
Context {USD : Type} `{Amount USD}.
Implicit Types (db : Db USD) (actor : ReviewActor).

#[export] Instance ro_opportunity i : ReadOnly (_opportunity i : Session USD _).
Proof. apply _. Qed.

(** The completeness report is a function of the database. *)
Definition report (i now : Z) db : option ApprovalCompleteness :=
  match (approval_completeness i 90 now : Session USD _) db with
  | (Ok a, _) => Some a
  | _ => None
  end.

Lemma completeness_run i now db :
  match opportunities db !! i with
  | Some _ => ∃ a, approval_completeness i 90 now db = (Ok a, db) ∧ report i now db = Some a
  | None => approval_completeness i 90 now db = (Raise (err "opportunity_not_found"), db)
  end.
Proof.
  unfold report, approval_completeness, _opportunity. rewrite bind_get_or_raise.
  destruct (opportunities db !! i); [|done]. rewrite !bind_gets. by eexists.
Qed.

(** Everything a transition needs, in terms of the database before it. *)
Record may_move db (i : Z) (request : ReviewTransitionRequest) actor (now : Z)
    (o : Opportunity) (current : OpportunityState) : Prop := {
  mm_row : opportunities db !! i = Some o;
  mm_state : canonical (opp_status o) = Some current;
  mm_version : ∀ v, expected_review_version request = Some v → opp_review_version o = v;
  mm_allowed : target_state request ∈ ALLOWED_TRANSITIONS current;
  mm_human : target_state request = approved_for_property ∨ target_state request = rejected →
    actor_role actor ≠ system;
  mm_evidence : target_state request = approved_for_property →
    ∃ a, report i now db = Some a ∧ complete a = true
}.

(** The audit row of a transition, and the database after it. *)
Definition review_row (i : Z) (request : ReviewTransitionRequest) actor (now : Z)
    (o : Opportunity) (current : OpportunityState) : OpportunityReview := {|
  rev_opportunity_id := i;
  rev_prior_state := Some (state_value current);
  rev_review_state := state_value (target_state request);
  rev_owner_user_id := str_or (owner_user_id request) (opp_owner_user_id o);
  rev_reviewer_user_id := actor_id actor;
  rev_reviewer_role := actor_role actor;
  rev_decision := decision request;
  rev_decision_reason := decision_reason request;
  rev_notes := notes request;
  rev_tags := tags request;
  rev_review_version := 1 + opp_review_version o;
  rev_approved_at :=
    if bool_decide (target_state request = approved_for_property) then Some now else None;
  rev_rejected_at := if bool_decide (target_state request = rejected) then Some now else None
|}.

Definition moved_db (i : Z) (request : ReviewTransitionRequest) actor (now : Z)
    (o : Opportunity) (current : OpportunityState) db : Db USD :=
  db <| opportunities ::= alter (moved current (target_state request)
          (str_or (owner_user_id request) (opp_owner_user_id o)) now) i |>
     <| opportunity_reviews ::= <[next_id (opportunity_reviews db) :=
          review_row i request actor now o current]> |>.

Lemma transition_run i request actor now db :
  (∃ o current, may_move db i request actor now o current
     ∧ transition i request actor now db
       = (Ok (review_row i request actor now o current),
          moved_db i request actor now o current db))
  ∨ ((∀ o current, ¬ may_move db i request actor now o current)
     ∧ ∃ e, transition i request actor now db = (Raise e, db)).
Proof.
  unfold transition, _opportunity, canonical_state. rewrite bind_get_or_raise.
  pose proof (completeness_run i now db) as Hrep.
  destruct (opportunities db !! i) as [o|] eqn:Hrow.
  2: { right. split; [intros o c []; congruence|eauto]. }
  rewrite bind_get_or_raise. destruct (canonical (opp_status o)) as [current|] eqn:Hst.
  2: { right. split; [intros o' c []; congruence|eauto]. }
  unfold _check_version. rewrite bind_raise_if.
  destruct (version_conflict o (expected_review_version request)) eqn:Hv;
    unfold version_conflict in Hv.
  { right. split; [|eauto]. intros o' c []. assert (o' = o) as -> by congruence.
    destruct (expected_review_version request) as [v|]; [|done]. bools. naive_solver. }
  rewrite bind_raise_if. unfold allowed.
  destruct (bool_decide (target_state request ∈ _)) eqn:Hal; simpl; bools.
  2: { right. split; [|eauto]. intros o' c []. assert (o' = o) as -> by congruence.
       assert (c = current) as -> by congruence. done. }
  rewrite bind_raise_if.
  destruct (needs_human (target_state request) && _) eqn:Hh.
  { right. split; [|eauto]. intros o' c []. unfold needs_human in Hh. bools.
    match goal with H : _ || _ = true |- _ => apply orb_true_iff in H; rewrite !bool_decide_eq_true in H end.
    naive_solver. }
  assert (target_state request = approved_for_property ∨ target_state request = rejected →
    actor_role actor ≠ system) as Hhuman.
  { unfold needs_human in Hh. intros Ht Hr. rewrite Hr, (bool_decide_eq_true_2 (system = _)) in Hh by done.
    rewrite andb_true_r in Hh. bools. naive_solver. }
  assert (∀ v, expected_review_version request = Some v → opp_review_version o = v) as Hver.
  { intros v Hev. rewrite Hev in Hv. by bools. }
  match goal with |- context [when ?b ?m ≫= _] => set (gate := when b m) end.
  assert ((∃ e, gate db = (Raise e, db) ∧ target_state request = approved_for_property
            ∧ ∀ a, report i now db = Some a → complete a = false)
          ∨ (gate db = (Ok tt, db)
             ∧ (target_state request = approved_for_property →
                ∃ a, report i now db = Some a ∧ complete a = true))) as Hgate.
  { unfold gate. destruct (decide (target_state request = approved_for_property)) as [Ht|Ht].
    - rewrite bool_decide_eq_true_2 by done. destruct Hrep as (a & Ha & Hr). simpl.
      rewrite (bind_run _ _ _ _ _ Ha). unfold raise_if.
      destruct (complete a) eqn:Hc; simpl; [right; by eauto|left].
      eexists. split; [done|]. split; [done|]. naive_solver.
    - rewrite bool_decide_eq_false_2 by done. by right. }
  destruct Hgate as [(e & He & Ht & Hbad)|[Hok Hgood]].
  - right. split.
    + intros o' c []. destruct mm_evidence0 as (a & Ha & Hc); [done|].
      by rewrite (Hbad a Ha) in Hc.
    + exists e. unfold mbind, M_bind. by rewrite He.
  - left. exists o, current. split; [by split|]. by rewrite (bind_run _ _ _ _ _ Hok).
Qed.

(** *** Overrides: a row is appended, or the request raises and nothing changes *)

#[export] Instance ro_original i request :
  ReadOnly (_original_evidence_value i request : Session USD _).
Proof. unfold _original_evidence_value. destruct (override_kind request); apply _. Qed.

Definition logged (row : EvidenceOverride) db : Db USD :=
  db <| evidence_overrides ::= <[next_id (evidence_overrides db) := row]> |>.

Lemma apply_cases i request actor db :
  (∃ e, apply_override i request actor db = (Raise e, db))
  ∨ ∃ v row, _original_evidence_value i request db = (Ok v, db)
    ∧ py_eq v (new_value request) = false
    ∧ _active_override db i (override_kind request) (target_record_id request)
        (field_name request) = None
    ∧ evidence_key row = (i, override_kind request, target_record_id request,
                          field_name request)
    ∧ ov_action row = ov_apply ∧ ov_reverses_override_id row = None
    ∧ ov_original_value row = v ∧ ov_new_value row = new_value request
    ∧ apply_override i request actor db = (Ok row, logged row db).
Proof.
  unfold apply_override, _opportunity. rewrite bind_get_or_raise.
  destruct (opportunities db !! i); [|eauto].
  pose proof (ro_original i request db) as Hdb.
  destruct (_original_evidence_value i request db) as [[v|e] db1] eqn:Hv; simpl in Hdb;
    subst db1; [rewrite (bind_run _ _ _ _ _ Hv)|rewrite (bind_raised _ _ _ _ _ Hv); eauto].
  rewrite bind_raise_if. case_match; [eauto|].
  rewrite bind_raise_if. destruct (py_eq _ _) eqn:Hpy; [eauto|].
  rewrite bind_gets, bind_raise_if.
  destruct (_active_override _ _ _ _ _) eqn:Hact; [eauto|]. right.
  match goal with |- context [add_override ?r] => exists v, r end. done.
Qed.

Lemma reverse_cases i override request actor db :
  (∃ e, reverse_override i override request actor db = (Raise e, db))
  ∨ ∃ a row, evidence_overrides db !! override = Some a ∧ ov_opportunity_id a = i
    ∧ ov_action a = ov_apply ∧ reversal_of db override = None
    ∧ evidence_key a = evidence_key row ∧ ov_action row = ov_revert
    ∧ ov_reverses_override_id row = Some override
    ∧ ov_new_value row = ov_original_value a ∧ ov_original_value row = ov_new_value a
    ∧ reverse_override i override request actor db = (Ok row, logged row db).
Proof.
  unfold reverse_override. rewrite bind_get_or_raise. unfold reversible.
  destruct (evidence_overrides db !! override) as [a|] eqn:Ha; [|eauto]. simpl.
  destruct (bool_decide (ov_opportunity_id a = i) && _) eqn:Hc; [|eauto]. bools.
  rewrite bind_gets, bind_raise_if. destruct (reversal_of db override) eqn:Hr; [eauto|]. simpl.
  subst i. right. match goal with |- context [add_override ?r] => exists a, r end. done.
Qed.
End runs.

(** ** Steps of the workflow *)
Section steps.
Context {USD : Type} `{Amount USD}.
Implicit Types (db : Db USD) (actor : ReviewActor) (o : Opportunity) (s : OpportunityState).

(** Any request of the review API, or of the scan pipeline, whatever its result. *)
Inductive review_step db : Db USD → Prop :=
| rs_transition i request actor now res db' :
    transition i request actor now db = (res, db') → review_step db db'
| rs_system i target decision reason now res db' :
    transition_system i target decision reason now db = (res, db') → review_step db db'
| rs_assign i request actor res db' :
    assign_owner i request actor db = (res, db') → review_step db db'
| rs_apply i request actor res db' :
    apply_override i request actor db = (res, db') → review_step db db'
| rs_reverse i override request actor res db' :
    reverse_override i override request actor db = (res, db') → review_step db db'.

Inductive review_reach db : Db USD → Prop :=
| rr_refl : review_reach db db
| rr_step db1 db2 : review_reach db db1 → review_step db1 db2 → review_reach db db2.

(** An audited change of opportunity [i] from [o] in state [s] to [o'] in [s']. *)
Record audited db (i : Z) o o' (row : OpportunityReview) s s' : Prop := {
  au_state : canonical (opp_status o) = Some s;
  au_state' : canonical (opp_status o') = Some s';
  au_version : opp_review_version o' = 1 + opp_review_version o;
  au_row : rev_opportunity_id row = i;
  au_row_version : rev_review_version row = opp_review_version o';
  au_prior : rev_prior_state row = Some (state_value s);
  au_next : rev_review_state row = state_value s';
  au_move : (s' = s ∧ opp_approved_at o' = opp_approved_at o)
    ∨ (s' ∈ ALLOWED_TRANSITIONS s
       ∧ (s' = approved_for_property ∨ s' = rejected → rev_reviewer_role row ≠ system)
       ∧ (s' = approved_for_property →
          ∃ now a, report i now db = Some a ∧ complete a = true
            ∧ opp_approved_at o' = Some now)
       ∧ (s' ≠ approved_for_property →
          opp_approved_at o' = if bool_decide (s = approved_for_property) then None
                               else opp_approved_at o))
}.

(** What a step does to the opportunities and their audit rows. *)
Definition step_effect db db' : Prop :=
  (opportunities db' = opportunities db ∧ opportunity_reviews db' = opportunity_reviews db)
  ∨ ∃ i o o' row s s', opportunities db !! i = Some o
      ∧ opportunities db' = <[i := o']> (opportunities db)
      ∧ opportunity_reviews db'
        = <[next_id (opportunity_reviews db) := row]> (opportunity_reviews db)
      ∧ audited db i o o' row s s'.

Lemma moved_state current target owner now o :
  canonical (opp_status (moved current target owner now o)) = Some target
  ∧ opp_review_version (moved current target owner now o) = 1 + opp_review_version o.
Proof. unfold moved. repeat case_bool_decide; split; try done; apply canonical_value. Qed.

Lemma transition_effect i request actor now res db db' :
  transition i request actor now db = (res, db') → step_effect db db'.
Proof.
  destruct (transition_run i request actor now db)
    as [(o & s & Hmay & ->)|(_ & e & ->)]; [|intros [= _ <-]; by left].
  intros [= _ <-]. destruct Hmay as [Hrow Hst Hver Hall Hhum Hev].
  set (o' := moved s (target_state request)
               (str_or (owner_user_id request) (opp_owner_user_id o)) now o).
  destruct (moved_state s (target_state request)
    (str_or (owner_user_id request) (opp_owner_user_id o)) now o) as [Hc Hv].
  right. exists i, o, o', (review_row i request actor now o s), s, (target_state request).
  split; [done|]. split; [by apply alter_as_insert|]. split; [done|].
  split; try done. right. split; [done|]. split; [done|]. split.
  - intros Ht. destruct (Hev Ht) as (a & Ha & Hcomp). exists now, a.
    split; [done|]. split; [done|]. subst o'. unfold moved. by rewrite Ht.
  - intros Hne. subst o'. unfold moved. rewrite bool_decide_eq_false_2 by done.
    by case_bool_decide.
Qed.

Lemma system_effect i target decision reason now res db db' :
  transition_system i target decision reason now db = (res, db') → step_effect db db'.
Proof.
  unfold transition_system, _opportunity, canonical_state. rewrite bind_get_or_raise.
  destruct (opportunities db !! i) as [o|]; [|intros [= _ <-]; by left].
  rewrite bind_get_or_raise. destruct (canonical _) as [s|]; [|intros [= _ <-]; by left].
  destruct (bool_decide (s = target)); [intros [= _ <-]; by left|].
  rewrite bind_raise_if. destruct (negb _); [intros [= _ <-]; by left|].
  cbv zeta. rewrite bind_raise_if. destruct (negb _); [intros [= _ <-]; by left|].
  set (request := Build_ReviewTransitionRequest _ _ _ _ _ _ _).
  unfold mbind, M_bind. destruct (transition i request system_actor now db) as [[row|e] db1] eqn:Ht;
    intros [= _ <-]; by eapply transition_effect.
Qed.

Lemma assign_effect i request actor res db db' :
  assign_owner i request actor db = (res, db') → step_effect db db'.
Proof.
  unfold assign_owner, _opportunity, _check_version, canonical_state. rewrite bind_get_or_raise.
  destruct (opportunities db !! i) as [o|] eqn:Hrow; [|intros [= _ <-]; by left].
  rewrite bind_raise_if. destruct (version_conflict _ _); [intros [= _ <-]; by left|].
  rewrite bind_get_or_raise. destruct (canonical _) as [s|] eqn:Hs; [|intros [= _ <-]; by left].
  intros [= _ <-]. right. eexists i, o, _, _, s, s.
  split; [done|]. split; [by apply alter_as_insert|]. split; [done|].
  split; try done. by left.
Qed.

Lemma apply_effect i request actor res db db' :
  apply_override i request actor db = (res, db') → step_effect db db'.
Proof.
  destruct (apply_cases i request actor db)
    as [(e & ->)|(v & row & _ & _ & _ & _ & _ & _ & _ & _ & ->)]; intros [= _ <-]; by left.
Qed.

Lemma reverse_effect i override request actor res db db' :
  reverse_override i override request actor db = (res, db') → step_effect db db'.
Proof.
  destruct (reverse_cases i override request actor db)
    as [(e & ->)|(a & row & _ & _ & _ & _ & _ & _ & _ & _ & _ & ->)]; intros [= _ <-]; by left.
Qed.

Lemma review_step_effect db db' : review_step db db' → step_effect db db'.
Proof.
  destruct 1; eauto using transition_effect, system_effect, assign_effect, apply_effect,
    reverse_effect.
Qed.
End steps.

(** ** The audit trail *)
Section history.
Context {USD : Type} `{Amount USD}.
Implicit Types (db : Db USD) (s : OpportunityState).

(** The reviews of an opportunity, oldest first. *)
Definition history (i : Z) db : list OpportunityReview :=
  (select (λ _ r, bool_decide (rev_opportunity_id r = i)) (opportunity_reviews db)).*2.

(** Replay an audit trail: every row continues from the state and version the
    previous one left, along an allowed transition or in place. *)
Fixpoint replay (v : Z) s (l : list OpportunityReview) : option (Z * OpportunityState) :=
  match l with
  | [] => Some (v, s)
  | r :: l' =>
      if bool_decide (rev_prior_state r = Some (state_value s))
         && bool_decide (rev_review_version r = v + 1)
      then match parse_state (rev_review_state r) with
           | Some s' => if bool_decide (s' = s) || allowed s s' then replay (v + 1) s' l' else None
           | None => None
           end
      else None
  end.

Lemma replay_snoc v s l r :
  replay v s (l ++ [r]) = replay v s l ≫= λ vs, replay vs.1 vs.2 [r].
Proof.
  revert v s. induction l as [|x l IH]; intros v s; [done|].
  simpl. destruct (_ && _); [|done]. destruct (parse_state (rev_review_state x)) as [s'|]; [|done].
  destruct (_ || _); [|done]. apply IH.
Qed.

Lemma parse_value s : parse_state (state_value s) = Some s.
Proof. by destruct s. Qed.

(** The trail of every opportunity, replayed from version 0 and some first
    state, ends in its current version and state. *)
Definition history_ok db : Prop :=
  ∀ i o, opportunities db !! i = Some o → ∃ s0 s, canonical (opp_status o) = Some s
    ∧ replay 0 s0 (history i db) = Some (opp_review_version o, s).

Lemma history_step db db' : step_effect db db' → history_ok db → history_ok db'.
Proof.
  intros [[Ho Hr]|(i & o & o' & row & s & s' & Hi & Ho & Hr & Hau)] Hok j oj;
    unfold history; rewrite Ho, Hr; [apply Hok|].
  destruct Hau as [Hst Hst' Hver Hrow Hrver Hprior Hnext Hmove].
  rewrite select_snoc, fmap_app. destruct (decide (i = j)) as [<-|Hij].
  - rewrite lookup_insert_eq. intros [= <-]. destruct (Hok i o Hi) as (s0 & s1 & Hs1 & Hrep).
    assert (s1 = s) as -> by congruence. exists s0, s'. split; [done|].
    rewrite bool_decide_eq_true_2 by done. simpl. rewrite replay_snoc. unfold history in Hrep.
    rewrite Hrep. simpl. rewrite Hprior, Hrver, Hnext, parse_value.
    rewrite !bool_decide_eq_true_2 by (done || lia). simpl.
    rewrite Hver. replace (1 + opp_review_version o) with (opp_review_version o + 1) by lia.
    unfold allowed. destruct Hmove as [[-> _]|(Hin & _)].
    + by rewrite bool_decide_eq_true_2.
    + by rewrite (bool_decide_eq_true_2 (s' ∈ _)), orb_true_r.
  - rewrite lookup_insert_ne by done. intros Hj. rewrite bool_decide_eq_false_2 by congruence. simpl. rewrite app_nil_r.
    by apply Hok.
Qed.

(** The approval time is set exactly while the opportunity is approved. *)
Definition approval_dated db : Prop :=
  ∀ i o, opportunities db !! i = Some o →
    canonical (opp_status o) = Some approved_for_property ↔ is_Some (opp_approved_at o).

Lemma approval_dated_step db db' : step_effect db db' → approval_dated db → approval_dated db'.
Proof.
  intros [[Ho _]|(i & o & o' & row & s & s' & Hi & Ho & _ & Hau)] Hok j oj; rewrite Ho;
    [apply Hok|].
  rewrite lookup_insert. case_decide; [|apply Hok]. intros [= <-].
  specialize (Hok i o Hi). destruct Hau as [Hst Hst' _ _ _ _ _ Hmove].
  rewrite Hst in Hok. rewrite Hst'.
  destruct Hmove as [[-> ->]|(_ & _ & Happ & Hother)]; [done|].
  destruct (decide (s' = approved_for_property)) as [->|Hne].
  - destruct (Happ eq_refl) as (now & a & _ & _ & ->). split; [by eexists|done].
  - rewrite (Hother Hne). case_bool_decide as Hs.
    + split; [by intros [=]|by intros []].
    + split; [by intros [=]|]. intros Hd. apply Hok in Hd. congruence.
Qed.

(** An archived opportunity stays archived. *)
Lemma archived_step db db' i o :
  step_effect db db' → opportunities db !! i = Some o →
  canonical (opp_status o) = Some archived →
  ∃ o', opportunities db' !! i = Some o' ∧ canonical (opp_status o') = Some archived.
Proof.
  intros [[Ho _]|(j & o1 & o' & row & s & s' & Hj & Ho & _ & Hau)] Hi Hs; rewrite Ho;
    [by eauto|].
  rewrite lookup_insert. case_decide as Hij; [|by eauto]. subst j.
  assert (o1 = o) as -> by congruence. exists o'. split; [done|].
  destruct Hau as [Hst Hst' _ _ _ _ _ Hmove]. assert (s = archived) as -> by congruence.
  destruct Hmove as [[-> _]|(Hin & _)]; [done|]. by apply not_elem_of_nil in Hin.
Qed.
End history.

(** ** Theorems *)
Section theorems.
Context {USD : Type} `{Amount USD}.
Implicit Types (db : Db USD) (actor : ReviewActor) (s : OpportunityState).

(** A review transition succeeds exactly when the opportunity exists in a known
    state, the expected version is current, the transition is allowed, approval
    and rejection are asked for by a human, and an approval is backed by a
    complete evidence report; it then moves the opportunity, counts the version
    and appends the audit row.  Otherwise it raises and changes nothing. *)
Theorem transition_exactly_when_permitted i request actor now db :
  (∃ o current, may_move db i request actor now o current
     ∧ transition i request actor now db
       = (Ok (review_row i request actor now o current),
          moved_db i request actor now o current db))
  ∨ ((∀ o current, ¬ may_move db i request actor now o current)
     ∧ ∃ e, transition i request actor now db = (Raise e, db)).
Proof. apply transition_run. Qed.

(** C2: no request, by a person or by the scan pipeline, makes an opportunity
    approved for property unless it is recorded as the decision of a human
    reviewer on an opportunity under full review whose evidence report was
    complete at that moment. *)
Theorem approval_needs_human_and_evidence db db' i o o' :
  review_step db db' →
  opportunities db !! i = Some o → canonical (opp_status o) ≠ Some approved_for_property →
  opportunities db' !! i = Some o' → canonical (opp_status o') = Some approved_for_property →
  canonical (opp_status o) = Some full_review
  ∧ (∃ now a, report i now db = Some a ∧ complete a = true ∧ opp_approved_at o' = Some now)
  ∧ ∃ row, opportunity_reviews db' = <[next_id (opportunity_reviews db) := row]>
             (opportunity_reviews db)
      ∧ rev_opportunity_id row = i ∧ rev_reviewer_role row ≠ system
      ∧ rev_review_state row = "approved_for_property"%string.
Proof.
  intros Hstep Hi Hna Hi' Ha.
  destruct (review_step_effect _ _ Hstep)
    as [[Ho _]|(j & o1 & o2 & row & s & s' & Hj & Ho & Hr & Hau)]; [congruence|].
  rewrite Ho, lookup_insert in Hi'. case_decide as Hij; [|congruence]. subst j.
  simplify_eq. destruct Hau as [Hst Hst' _ Hrow _ _ Hnext Hmove].
  assert (s' = approved_for_property) as -> by congruence.
  destruct Hmove as [[Hs _]|(Hin & Hhum & Hev & _)]; [congruence|].
  split; [|split; [by apply Hev|]].
  - destruct s; simpl in Hin; set_solver.
  - exists row. rewrite Hnext. eauto 10.
Qed.

(** However many requests follow, the audit rows of every opportunity,
    replayed from version 0, walk along allowed transitions and end in its
    current review version and state: nothing changes an opportunity without
    an audit row. *)
Theorem audit_trail_replays db0 db i o :
  history_ok db0 → review_reach db0 db → opportunities db !! i = Some o →
  ∃ s0 s, canonical (opp_status o) = Some s
    ∧ replay 0 s0 (history i db) = Some (opp_review_version o, s).
Proof.
  intros H0 Hreach. revert i o. change (history_ok db).
  induction Hreach as [|db1 db2 _ IH Hstep]; [done|].
  by eapply history_step; [apply review_step_effect|].
Qed.

(** In every reachable database an opportunity has an approval time exactly
    while it is approved for property. *)
Theorem approved_at_iff_approved db0 db i o :
  approval_dated db0 → review_reach db0 db → opportunities db !! i = Some o →
  canonical (opp_status o) = Some approved_for_property ↔ is_Some (opp_approved_at o).
Proof.
  intros H0 Hreach. revert i o. change (approval_dated db).
  induction Hreach as [|db1 db2 _ IH Hstep]; [done|].
  by eapply approval_dated_step; [apply review_step_effect|].
Qed.

(** Archived is final: no sequence of requests brings an archived opportunity
    back. *)
Theorem archived_is_final db0 db i o :
  review_reach db0 db → opportunities db0 !! i = Some o →
  canonical (opp_status o) = Some archived →
  ∃ o', opportunities db !! i = Some o' ∧ canonical (opp_status o') = Some archived.
Proof.
  intros Hreach Hi Hs. induction Hreach as [|db1 db2 _ IH Hstep]; [by eauto|].
  destruct IH as (o1 & Ho1 & Hs1). eapply archived_step; [by apply review_step_effect|done..].
Qed.

(** Of two reviewers who decide on the same version of an opportunity only one
    succeeds: after the first, a transition or an assignment that expects the
    old version raises the version conflict and changes nothing. *)
Theorem concurrent_reviewers_conflict i r1 a1 now1 row r2 a2 now2 own a3 v db db1 :
  transition i r1 a1 now1 db = (Ok row, db1) →
  expected_review_version r1 = Some v →
  expected_review_version r2 = Some v → own_expected_review_version own = Some v →
  transition i r2 a2 now2 db1
    = (Raise (err "opportunity_review_version_conflict"), db1)
  ∧ assign_owner i own a3 db1
    = (Raise (err "opportunity_review_version_conflict"), db1).
Proof.
  intros Hrun Hv1 Hv2 Hv3.
  destruct (transition_run i r1 a1 now1 db) as [(o & s & Hmay & Heq)|(_ & e & Heq)];
    rewrite Hrun in Heq; [|done]. injection Heq as -> ->.
  destruct Hmay as [Hrow Hst Hver _ _ _]. specialize (Hver v Hv1).
  destruct (moved_state s (target_state r1) (str_or (owner_user_id r1) (opp_owner_user_id o))
    now1 o) as [Hc Hvn].
  set (o' := moved s (target_state r1) (str_or (owner_user_id r1) (opp_owner_user_id o))
    now1 o) in *.
  assert (opportunities (moved_db i r1 a1 now1 o s db) !! i = Some o') as Hi.
  { cbn -[alter]. by rewrite lookup_alter_eq, Hrow. }
  assert (version_conflict o' (Some v) = true) as Hconf.
  { simpl. apply negb_true_iff, bool_decide_eq_false. lia. }
  unfold transition, assign_owner, _opportunity, canonical_state, _check_version.
  rewrite !bind_get_or_raise, Hi, !bind_get_or_raise, Hc, !bind_raise_if, Hv2, Hv3, Hconf.
  done.
Qed.
End theorems.

(** ** The override log *)
Section overrides.
Context {USD : Type} `{Amount USD}.
Implicit Types (db : Db USD) (o : EvidenceOverride).

Definition reversed db (i : Z) : Prop :=
  ∃ j o, evidence_overrides db !! j = Some o ∧ ov_reverses_override_id o = Some i.

Lemma reversal_of_spec db i : reversal_of db i = None ↔ ¬ reversed db i.
Proof.
  unfold reversal_of, reversed. rewrite select_first_None. split.
  - intros Hall (j & o & Hj & Ho). specialize (Hall j o Hj). by bools.
  - intros Hno j o Hj. apply bool_decide_eq_false. naive_solver.
Qed.

Lemma applies_spec i kind target field o :
  applies i kind target field o = true ↔
  evidence_key o = (i, kind, target, field) ∧ ov_action o = ov_apply.
Proof.
  unfold applies, evidence_key. rewrite !andb_true_iff, !bool_decide_eq_true.
  split; [by intros [[[[<- <-] <-] <-] ->]|by intros [[= <- <- <- <-] ->]].
Qed.

(** An application that no row reverses. *)
Definition active_at db (i : Z) o : Prop :=
  evidence_overrides db !! i = Some o ∧ ov_action o = ov_apply ∧ ¬ reversed db i.

Lemma active_override_None db i kind target field :
  _active_override db i kind target field = None ↔
  ∀ j o, active_at db j o → evidence_key o ≠ (i, kind, target, field).
Proof.
  unfold _active_override. split.
  - intros Hh%head_None j o (Hj & Ha & Hr) Hk.
    assert ((j, o) ∈ []) as Hin; [|by apply not_elem_of_nil in Hin].
    rewrite <- Hh. apply list_elem_of_In, filter_In.
    rewrite <- list_elem_of_In, elem_of_reverse, elem_of_select. split.
    + split; [done|]. by apply applies_spec.
    + apply bool_decide_eq_true. by apply reversal_of_spec.
  - intros Hall. apply head_None. destruct (List.filter _ _) as [|[j o] l] eqn:Hf; [done|].
    assert ((j, o) ∈ (j, o) :: l) as Hin by left. rewrite <- Hf in Hin.
    apply list_elem_of_In, filter_In in Hin as [Hin Hr%bool_decide_eq_true].
    apply list_elem_of_In in Hin. rewrite elem_of_reverse, elem_of_select in Hin.
    destruct Hin as [Hj Hap%applies_spec]. apply reversal_of_spec in Hr. simpl in *.
    destruct Hap as [Hk Ha]. by destruct (Hall j o).
Qed.

Lemma active_override_Some db i kind target field j o :
  _active_override db i kind target field = Some (j, o) →
  active_at db j o ∧ evidence_key o = (i, kind, target, field).
Proof.
  unfold _active_override. intros Hh%head_Some_elem_of.
  apply list_elem_of_In, filter_In in Hh as [Hin Hr%bool_decide_eq_true].
  apply list_elem_of_In in Hin. rewrite elem_of_reverse, elem_of_select in Hin.
  destruct Hin as [Hj Hap%applies_spec]. apply reversal_of_spec in Hr. simpl in *.
  destruct Hap as [Hk Ha]. by split.
Qed.

(** The invariant of the log. *)
Record log_ok db : Prop := {
  lo_reversal : ∀ j o i, evidence_overrides db !! j = Some o →
    ov_reverses_override_id o = Some i →
    ov_action o = ov_revert
    ∧ ∃ a, evidence_overrides db !! i = Some a ∧ ov_action a = ov_apply
      ∧ evidence_key a = evidence_key o
      ∧ ov_new_value o = ov_original_value a ∧ ov_original_value o = ov_new_value a;
  lo_once : ∀ j k o p i, evidence_overrides db !! j = Some o →
    evidence_overrides db !! k = Some p →
    ov_reverses_override_id o = Some i → ov_reverses_override_id p = Some i → j = k;
  lo_active : ∀ j k o p, active_at db j o → active_at db k p →
    evidence_key o = evidence_key p → j = k
}.

Lemma add_lookup row db j o :
  evidence_overrides (logged row db) !! j = Some o ↔
  (j = next_id (evidence_overrides db) ∧ o = row) ∨ evidence_overrides db !! j = Some o.
Proof.
  cbn -[insert]. rewrite lookup_insert_Some. pose proof (next_id_fresh (evidence_overrides db)).
  split; [naive_solver|]. intros [[-> ->]|Hj]; [by left|].
  right. split; [|done]. intros <-. congruence.
Qed.

Lemma log_ok_apply row db :
  log_ok db → ov_action row = ov_apply → ov_reverses_override_id row = None →
  (∀ j o, active_at db j o → evidence_key o ≠ evidence_key row) →
  log_ok (logged row db).
Proof.
  intros [Hrev Honce Hact] Ha Hn Hfree. set (db' := logged row db).
  assert (∀ j, reversed db' j ↔ reversed db j) as Hsame.
  { intros j. unfold reversed. split.
    - intros (k & o & [[-> ->]|Hk]%add_lookup & Ho); [congruence|eauto].
    - intros (k & o & Hk & Ho). exists k, o. split; [|done]. apply add_lookup. by right. }
  assert (∀ j o, active_at db' j o → active_at db j o ∨ o = row
            ∧ j = next_id (evidence_overrides db)) as Hcase.
  { intros j o (Hj & Hap & Hr). rewrite Hsame in Hr.
    apply add_lookup in Hj as [[-> ->]|Hj]; [by right|by left]. }
  split.
  - intros j o i [[-> ->]|Hj]%add_lookup Ho; [congruence|].
    destruct (Hrev j o i Hj Ho) as (? & a & Hi & ?). split; [done|].
    exists a. split; [|done]. apply add_lookup. by right.
  - intros j k o p i [[-> ->]|Hj]%add_lookup [[-> ->]|Hk]%add_lookup; try congruence.
    by apply Honce.
  - intros j k o p Hj Hk Hkey. apply Hcase in Hj, Hk.
    destruct Hj as [Hj|[-> ->]], Hk as [Hk|[-> ->]]; [by eapply Hact| | |done].
    + by destruct (Hfree j o Hj).
    + by destruct (Hfree k p Hk).
Qed.

Lemma log_ok_reverse row i a db :
  log_ok db → ov_action row = ov_revert → ov_reverses_override_id row = Some i →
  evidence_overrides db !! i = Some a → ov_action a = ov_apply →
  evidence_key a = evidence_key row →
  ov_new_value row = ov_original_value a → ov_original_value row = ov_new_value a →
  ¬ reversed db i →
  log_ok (logged row db).
Proof.
  intros [Hrev Honce Hact] Har Hr Hi Ha Hkey Hnv Hov Hno.
  set (db' := logged row db).
  assert (∀ j o, active_at db' j o → active_at db j o) as Hcase.
  { intros j o (Hj & Hap & Hnr). apply add_lookup in Hj as [[-> ->]|Hj]; [congruence|].
    split; [done|]. split; [done|]. intros (k & q & Hk & Hq). apply Hnr.
    exists k, q. split; [|done]. apply add_lookup. by right. }
  split.
  - intros j o k [[-> ->]|Hj]%add_lookup Ho.
    + assert (k = i) as -> by congruence. split; [done|]. exists a.
      split; [apply add_lookup; by right|done].
    + destruct (Hrev j o k Hj Ho) as (? & b & Hb & ?). split; [done|].
      exists b. split; [|done]. apply add_lookup. by right.
  - intros j k o p m [[-> ->]|Hj]%add_lookup [[-> ->]|Hk]%add_lookup Ho Hp; try done.
    + exfalso. apply Hno. exists k, p. split; [done|congruence].
    + exfalso. apply Hno. exists j, o. split; [done|congruence].
    + by eapply Honce.
  - intros j k o p Hj%Hcase Hk%Hcase. by apply Hact.
Qed.

Lemma log_ok_same db db' :
  evidence_overrides db' = evidence_overrides db → log_ok db → log_ok db'.
Proof.
  intros Heq [Hrev Honce Hact]. unfold active_at, reversed in *.
  split; unfold active_at, reversed; rewrite Heq; done.
Qed.

Lemma transition_overrides i request actor now db :
  evidence_overrides (transition i request actor now db).2 = evidence_overrides db.
Proof.
  by destruct (transition_run i request actor now db) as [(? & ? & _ & ->)|(_ & ? & ->)].
Qed.

Lemma system_overrides i target decision reason now db :
  evidence_overrides (transition_system i target decision reason now db).2
  = evidence_overrides db.
Proof.
  unfold transition_system, _opportunity, canonical_state. rewrite bind_get_or_raise.
  destruct (opportunities db !! i) as [o|]; [|done].
  rewrite bind_get_or_raise. destruct (canonical _) as [s|]; [|done].
  destruct (bool_decide (s = target)); [done|]. rewrite bind_raise_if.
  destruct (negb _); [done|]. cbv zeta. rewrite bind_raise_if. destruct (negb _); [done|].
  unfold mbind, M_bind. set (request := Build_ReviewTransitionRequest _ _ _ _ _ _ _).
  pose proof (transition_overrides i request system_actor now db) as Ht.
  by destruct (transition i request system_actor now db) as [[] ].
Qed.

Lemma assign_overrides i request actor db :
  evidence_overrides (assign_owner i request actor db).2 = evidence_overrides db.
Proof.
  unfold assign_owner, _opportunity, _check_version, canonical_state. rewrite bind_get_or_raise.
  destruct (opportunities db !! i) as [o|]; [|done].
  rewrite bind_raise_if. destruct (version_conflict _ _); [done|].
  rewrite bind_get_or_raise. by destruct (canonical _).
Qed.

Lemma log_ok_step db db' : review_step db db' → log_ok db → log_ok db'.
Proof.
  intros Hstep Hok. destruct Hstep as [i r a t res db' Hrun|i g d m t res db' Hrun
    |i r a res db' Hrun|i r a res db' Hrun|i v r a res db' Hrun].
  - apply (log_ok_same db); [|done]. pose proof (transition_overrides i r a t db) as Ho. by rewrite Hrun in Ho.
  - apply (log_ok_same db); [|done]. pose proof (system_overrides i g d m t db) as Ho. by rewrite Hrun in Ho.
  - apply (log_ok_same db); [|done]. pose proof (assign_overrides i r a db) as Ho. by rewrite Hrun in Ho.
  - destruct (apply_cases i r a db)
      as [(e & Heq)|(v & row & _ & _ & Hact & Hk & Ha & Hn & _ & _ & Heq)];
      rewrite Heq in Hrun; injection Hrun as _ <-; [done|].
    apply log_ok_apply; [done..|]. intros j o Hj. rewrite Hk.
    rewrite active_override_None in Hact. by eapply Hact.
  - destruct (reverse_cases i v r a db)
      as [(e & Heq)|(b & row & Hb & _ & Ha & Hnr & Hk & Har & Hr & Hnv & Hov & Heq)];
      rewrite Heq in Hrun; injection Hrun as _ <-; [done|].
    apply reversal_of_spec in Hnr. by eapply log_ok_reverse.
Qed.

(** The [active] flag of the listing says whether the application is active. *)
Lemma listed_flag db i j o b :
  log_ok db → (j, o, b) ∈ list_overrides i db → (b = true ↔ active_at db j o).
Proof.
  intros Hok. unfold list_overrides. set (rows := select _ _).
  intros ([k p] & Heq & Hin)%list_elem_of_fmap. simpl in Heq. simplify_eq.
  apply elem_of_select in Hin as [Hk Hopp%bool_decide_eq_true].
  rewrite andb_true_iff, negb_true_iff, bool_decide_eq_true, bool_decide_eq_false.
  unfold active_at. split.
  - intros [Ha Hni]. split; [done|]. split; [done|]. intros (m & q & Hm & Hq).
    apply Hni, list_elem_of_omap. exists (m, q). split; [|done].
    apply elem_of_select. split; [done|]. apply bool_decide_eq_true.
    destruct (lo_reversal _ Hok m q k Hm Hq) as (_ & a & Hka & _ & Hkey & _).
    assert (a = p) as -> by congruence. unfold evidence_key in Hkey. congruence.
  - intros (_ & Ha & Hnr). split; [done|].
    intros ([m q] & [Hm _]%elem_of_select & Hq)%list_elem_of_omap. apply Hnr. by exists m, q.
Qed.
End overrides.

Section override_theorems.
Context {USD : Type} `{Amount USD}.
Implicit Types (db : Db USD) (o : EvidenceOverride).

(** In every reachable database at most one override of a given piece of
    evidence is active, an application is reversed at most once, and the flags
    of the override listing are exact. *)
Theorem one_active_override db0 db :
  log_ok db0 → review_reach db0 db →
  (∀ j k o p, active_at db j o → active_at db k p → evidence_key o = evidence_key p → j = k)
  ∧ (∀ j k o p i, evidence_overrides db !! j = Some o → evidence_overrides db !! k = Some p →
       ov_reverses_override_id o = Some i → ov_reverses_override_id p = Some i → j = k)
  ∧ (∀ i j o b, (j, o, b) ∈ list_overrides i db → (b = true ↔ active_at db j o)).
Proof.
  intros H0 Hreach. assert (log_ok db) as Hok.
  { induction Hreach as [|db1 db2 _ IH Hstep]; [done|]. by eapply log_ok_step. }
  split; [apply Hok|]. split; [apply Hok|]. intros i j o b. by apply listed_flag.
Qed.

(** Reversing an override records the swap of its two values and leaves no
    active override of that evidence, so that a new one may be applied;
    reversing it again is refused and changes nothing. *)
Theorem reversal_undoes_override i override request actor request' actor' db row db' :
  log_ok db → reverse_override i override request actor db = (Ok row, db') →
  (∃ a, evidence_overrides db !! override = Some a
     ∧ ov_new_value row = ov_original_value a ∧ ov_original_value row = ov_new_value a
     ∧ _active_override db' i (ov_kind a) (ov_target_record_id a) (ov_field_name a) = None)
  ∧ ∃ e, reverse_override i override request' actor' db' = (Raise e, db').
Proof.
  intros Hok Hrun.
  destruct (reverse_cases i override request actor db)
    as [(e & Heq)|(a & r & Ha & Hi & Hap & Hnr & Hk & Har & Hr & Hnv & Hov & Heq)];
    rewrite Heq in Hrun; [done|]. injection Hrun as <- <-. apply reversal_of_spec in Hnr.
  assert (reversed (logged r db) override) as Hrev.
  { exists (next_id (evidence_overrides db)), r. split; [apply add_lookup; by left|done]. }
  split.
  - exists a. do 3 (split; [done|]). apply active_override_None.
    intros j o (Hj & Hoap & Hnj) Hkey. apply add_lookup in Hj as [[-> ->]|Hj]; [congruence|].
    assert (j = override) as ->; [|done].
    apply (lo_active _ Hok j override o a).
    + split; [done|]. split; [done|]. intros (m & q & Hm & Hq). apply Hnj.
      exists m, q. split; [|done]. apply add_lookup. by right.
    + done.
    + rewrite Hkey. unfold evidence_key. by rewrite Hi.
  - destruct (reverse_cases i override request' actor' (logged r db))
      as [(e & He)|(a' & r' & _ & _ & _ & Hno & _)]; [by eauto|].
    apply reversal_of_spec in Hno. done.
Qed.
End override_theorems.

(** ** A run of the workflow *)
Module ReviewRun.
Definition opp : Opportunity := {|
  opp_service_family_id := 1; opp_market_id := 7; opp_status := "full_review";
  opp_latest_score := None; opp_score_version := None; opp_confidence := None;
  opp_missing_data_flags := []; opp_approved_at := None;
  opp_owner_user_id := Some "owner"%string; opp_review_version := 0 |}.

Definition scan : ScanRun := {|
  sc_opportunity_id := Some 1; sc_source := "manual_async"; sc_status := SCompleted;
  sc_started_at := Some 0; sc_completed_at := Some 100; sc_error_summary := None;
  sc_request_parameters := ∅; sc_data_mode := "live"; sc_scan_profile := "full";
  sc_source_scan_run_id := None; sc_progress_stage := "completed";
  sc_partial_outputs := {["evidence_quality"%string := JObj [("status"%string, JStr "pass")]]};
  sc_retry_count := 0; sc_max_attempts := 3; sc_next_attempt_at := None;
  sc_cancel_requested := false; sc_worker_id := None; sc_lease_token := None;
  sc_claimed_at := None; sc_heartbeat_at := None; sc_lease_expires_at := None;
  sc_quarantined_at := None; sc_quarantine_reason := None |}.

Definition db0 : Db binary64 :=
  empty_db <| opportunities := {[1 := opp]} |>
    <| scan_runs := {[1 := scan]} |>
    <| full_opportunity_scores := {[1 := {| fs_scan_run_id := 1; fs_opportunity_id := 1;
         fs_payload := ∅; fs_created_at := 100 |}]} |>
    <| keyword_decisions := {[1 := {| ev_scan_run_id := Some 1 |}]} |>
    <| competitor_metrics := {[1 := {| ev_scan_run_id := Some 1 |}]} |>
    <| serp_snapshots := {[1 := {| snap_scan_run_id := Some 1;
         snap_opportunity_id := Some 1 |}]} |>
    <| provider_candidates := {[1 := {| pc_scan_run_id := Some 1; pc_opportunity_id := Some 1;
         pc_suitability_score := JInt 3; pc_business_status := JNull;
         pc_categories := JNull |}]} |>.

Definition approve : ReviewTransitionRequest := {|
  target_state := approved_for_property; decision := "approve"; decision_reason := "evidence";
  notes := ""; tags := []; owner_user_id := None; expected_review_version := Some 0 |}.

Definition human : ReviewActor := {| actor_id := "ann"; actor_role := reviewer |}.

Definition run := transition 1 approve human 200 db0.

(** The request is granted: the hypotheses of the approval hold. *)
Lemma granted : may_move db0 1 approve human 200 opp full_review.
Proof.
  split; [done|done|by intros v [= <-]|by vm_compute; set_solver|done|].
  intros _. eexists. split; by vm_compute.
Qed.

Lemma review_ran : run = (Ok (review_row 1 approve human 200 opp full_review),
                   moved_db 1 approve human 200 opp full_review db0).
Proof.
  destruct (transition_run 1 approve human 200 db0) as [(o & s & Hm & Hr)|(Hno & _)].
  - destruct Hm as [Ho Hs _ _ _ _].
    assert (opportunities db0 !! 1 = Some opp) as Hopp by done.
    assert (o = opp) as -> by congruence.
    assert (canonical (opp_status opp) = Some full_review) as Hst by done.
    assert (s = full_review) as -> by congruence. done.
  - destruct (Hno opp full_review granted).
Qed.

Lemma step : review_step db0 run.2.
Proof. apply (rs_transition _ 1 approve human 200 run.1). apply surjective_pairing. Qed.

Lemma review_history : review_reach db0 run.2.
Proof. eapply rr_step; [apply rr_refl|apply step]. Qed.

Definition approved : Opportunity := moved full_review approved_for_property
  (Some "owner"%string) 200 opp.

Lemma row : opportunities run.2 !! 1 = Some approved.
Proof. rewrite review_ran. done. Qed.

Lemma start i o : opportunities db0 !! i = Some o → i = 1 ∧ o = opp.
Proof. unfold db0. cbn. rewrite lookup_singleton_Some. by intros [<- <-]. Qed.

Definition override : EvidenceOverrideRequest := {|
  override_kind := provider_suitability; target_record_id := 1;
  field_name := "suitability_score"; new_value := JInt 5; expected_original_value := None;
  override_reason := "corrected by hand"; score_impact := F64.zero;
  score_impact_explanation := "none" |}.

Definition applied := apply_override 1 override human db0.
Definition undo : EvidenceOverrideReversalRequest := {|
  reversal_reason := "wrong correction"; reversal_score_impact := F64.zero;
  reversal_score_impact_explanation := "none" |}.
Definition undone := reverse_override 1 1 undo human applied.2.

Lemma log0 : log_ok db0.
Proof. split; [done|done|]. by intros j k o p [? _]. Qed.

Lemma log1 : log_ok applied.2.
Proof. eapply log_ok_step, log0. eapply rs_apply, surjective_pairing. Qed.

Lemma reach2 : review_reach db0 undone.2.
Proof.
  eapply rr_step; [eapply rr_step; [apply rr_refl|]|].
  - eapply (rs_apply _ 1 override human applied.1), surjective_pairing.
  - eapply (rs_reverse _ 1 1 undo human undone.1), surjective_pairing.
Qed.
End ReviewRun.

Lemma approval_needs_human_and_evidence_witness :
  canonical (opp_status ReviewRun.opp) = Some full_review
  ∧ (∃ now a, report 1 now ReviewRun.db0 = Some a ∧ complete a = true
       ∧ opp_approved_at ReviewRun.approved = Some now)
  ∧ ∃ row, opportunity_reviews ReviewRun.run.2
           = <[next_id (opportunity_reviews ReviewRun.db0) := row]>
               (opportunity_reviews ReviewRun.db0)
      ∧ rev_opportunity_id row = 1 ∧ rev_reviewer_role row ≠ system
      ∧ rev_review_state row = "approved_for_property"%string.
Proof.
  apply (approval_needs_human_and_evidence _ _ 1 _ _ ReviewRun.step);
    [done|done|apply ReviewRun.row|done].
Defined.

Lemma audit_trail_replays_witness :
  ∃ s0 s, canonical (opp_status ReviewRun.approved) = Some s
    ∧ replay 0 s0 (history 1 ReviewRun.run.2)
      = Some (opp_review_version ReviewRun.approved, s).
Proof.
  apply (audit_trail_replays ReviewRun.db0 ReviewRun.run.2 1 _); [|apply ReviewRun.review_history|apply ReviewRun.row].
  intros i o [-> ->]%ReviewRun.start. by exists full_review, full_review.
Defined.

Lemma approved_at_iff_approved_witness :
  canonical (opp_status ReviewRun.approved) = Some approved_for_property
  ↔ is_Some (opp_approved_at ReviewRun.approved).
Proof.
  apply (approved_at_iff_approved ReviewRun.db0 ReviewRun.run.2 1 _); [|apply ReviewRun.review_history|apply ReviewRun.row].
  intros i o [-> ->]%ReviewRun.start. split; [done|by intros []].
Defined.

Lemma archived_is_final_witness :
  let db := ReviewRun.db0 <| opportunities := {[1 := ReviewRun.opp <| opp_status := "archived"%string |>]} |> in
  ∃ o', opportunities (assign_owner 1 {| own_owner_user_id := "bob"; own_reason := "takes over";
          own_expected_review_version := None |} ReviewRun.human db).2 !! 1 = Some o'
    ∧ canonical (opp_status o') = Some archived.
Proof.
  intros db. eapply (archived_is_final db); [|done|done].
  eapply rr_step; [apply rr_refl|]. eapply rs_assign, surjective_pairing.
Defined.

Lemma concurrent_reviewers_conflict_witness :
  transition 1 ReviewRun.approve ReviewRun.human 300 ReviewRun.run.2
    = (Raise (err "opportunity_review_version_conflict"), ReviewRun.run.2)
  ∧ assign_owner 1 {| own_owner_user_id := "bob"; own_reason := "takes over";
        own_expected_review_version := Some 0 |} ReviewRun.human ReviewRun.run.2
    = (Raise (err "opportunity_review_version_conflict"), ReviewRun.run.2).
Proof.
  eapply (concurrent_reviewers_conflict 1 ReviewRun.approve ReviewRun.human 200 _ _ _ _ _ _ 0
    ReviewRun.db0); [|done|done|done].
  change (transition 1 ReviewRun.approve ReviewRun.human 200 ReviewRun.db0) with ReviewRun.run.
  rewrite ReviewRun.review_ran. done.
Defined.

Lemma one_active_override_witness :
  (∀ i j o b, (j, o, b) ∈ list_overrides i ReviewRun.undone.2 →
     (b = true ↔ active_at ReviewRun.undone.2 j o))
  ∧ length (list_overrides 1 ReviewRun.undone.2) = 2%nat.
Proof.
  split; [|by vm_compute].
  apply (one_active_override _ _ ReviewRun.log0 ReviewRun.reach2).
Defined.

Lemma reversal_undoes_override_witness :
  ∃ e, reverse_override 1 1 ReviewRun.undo ReviewRun.human ReviewRun.undone.2
       = (Raise e, ReviewRun.undone.2).
Proof.
  destruct (reverse_cases 1 1 ReviewRun.undo ReviewRun.human ReviewRun.applied.2)
    as [(e & He)|(a & r & _ & _ & _ & _ & _ & _ & _ & _ & _ & He)];
    [by vm_compute in He|].
  assert (ReviewRun.undone = (Ok r, logged r ReviewRun.applied.2)) as Hu by exact He.
  rewrite Hu. exact (proj2 (reversal_undoes_override _ _ _ _ _ _ _ _ _ ReviewRun.log1 He)).
Defined.
