(* ===== verification/ScanWorker.v ===== *)
(** * ScanWorker: the durable scan queue of services/scan_worker.py

    Workers claim queued scans under a lease (worker id, random token, expiry),
    renew it by heartbeats, and give the scan back when they are done; scans
    whose worker died are recovered, retried with backoff and quarantined after
    the last attempt.  The state changes of the pipeline's own error handlers
    (services/scanner.py) are here too; the pipeline's analysis is not. *)
From S2P Require Import Prelude Binary64 Schema ScanLeases CostControls OpportunityReview.

Definition WORKER_SCAN_SOURCES : list string :=
  ["manual_async"; "promotion_async"; "batch_review_async"]%string.

Definition active_status (s : ScanStatus) : bool :=
  match s with SQueued | SRunning => true | _ => false end.
Definition terminal_status (s : ScanStatus) : bool :=
  match s with SCompleted | SFailed | SCancelled | SQuarantined => true | _ => false end.

(** ** Retry policy *)

Definition half : binary64 := F64.lit 5 10.

(** [draw] is the value of [random.random()]; [None] is an OverflowError of
    [float(2 ** n)]. *)
Definition retry_delay_seconds (retry_count : Z) (base_seconds maximum_seconds : binary64)
    (random_value : option binary64) (draw : binary64) : option binary64 :=
  factor ← F64.float_of_int (2 ^ Z.max 0 (retry_count - 1));
  let capped := F64.min maximum_seconds (F64.mul base_seconds factor) in
  let jitter := match random_value with
                | None => draw
                | Some r => F64.min (F64.max r F64.zero) (F64.of_Z 1)
                end in
  Some (F64.mul capped (F64.add half (F64.mul jitter half))).

Definition contains (token s : string) : bool :=
  bool_decide (String.index 0 token s ≠ None).

(** [isinstance] tests in order; subclasses of [DataForSEOError] are named before
    it. *)
Definition is_retryable_error (e : exn) : bool :=
  match e with
  | CircuitOpenError _ | ConfigurationError | DataForSEOAuthenticationError
  | DataForSEOPlanError | DataForSEOSchemaError | ValueError _ => false
  | TimeoutError | TransportTimeout | OperationalError | DataForSEORateLimitError => true
  | DataForSEOError message =>
      existsb (λ token, contains token (py_lower message))
        ["transient"; "timeout"; "rate limit"; "temporar"; "http 5"]%string
  | _ => false
  end.

(** ** Changes of a scan row *)

Definition outputs (kvs : list (string * json)) (m : gmap string json) : gmap string json :=
  foldl (λ m kv, <[kv.1 := kv.2]> m) m kvs.

Definition _clear_lease (s : ScanRun) : ScanRun :=
  s <| sc_worker_id := None |> <| sc_lease_token := None |> <| sc_claimed_at := None |>
    <| sc_heartbeat_at := None |> <| sc_lease_expires_at := None |>.

Definition _cancel_scan (now : Z) (timed_out : bool) (s : ScanRun) : ScanRun :=
  s <| sc_status := SCancelled |> <| sc_progress_stage := "cancelled" |>
    <| sc_completed_at := Some now |>
    <| sc_partial_outputs ::= outputs
         [("cancelled", JBool true); ("cancelled_after_worker_timeout", JBool timed_out);
          ("cancelled_at", JStr (isoformat now))]%string |>.

Definition quarantine (count : Z) (error : string) (now : Z) (failed_stage : string)
    (s : ScanRun) : ScanRun :=
  s <| sc_status := SQuarantined |> <| sc_progress_stage := "quarantined" |>
    <| sc_completed_at := Some now |> <| sc_quarantined_at := Some now |>
    <| sc_quarantine_reason := Some error |>
    <| sc_partial_outputs ::= outputs
         [("poison_job", JBool true); ("failed_stage", JStr failed_stage);
          ("attempts", JInt count)]%string |>.

Definition requeue (count : Z) (delay : binary64) (at_time : Z) (failed_stage : string)
    (s : ScanRun) : ScanRun :=
  s <| sc_next_attempt_at := Some at_time |>
    <| sc_partial_outputs ::= outputs
         [("retry_classification", JStr "retryable"); ("failed_stage", JStr failed_stage);
          ("retry_count", JInt count); ("retry_delay_seconds", JFloat delay);
          ("next_attempt_at", JStr (isoformat at_time))]%string |>.

Definition _lease_matches (s : ScanRun) (lease : ScanExecutionLease) : bool :=
  bool_decide (sc_worker_id s = Some (lease_worker_id lease))
  && bool_decide (sc_lease_token s = Some (lease_token lease)).

Definition _owns (s : ScanRun) (lease : ScanExecutionLease) : bool :=
  bool_decide (sc_status s = SRunning) && _lease_matches s lease.

Section worker.
Context {USD : Type} `{Amount USD}.
Implicit Types (db : Db USD) (settings : Settings USD) (lease : ScanExecutionLease).

Definition update_scan (i : Z) (f : ScanRun → ScanRun) : Session USD unit :=
  modify (λ db, db <| scan_runs ::= alter f i |>).

Definition get_scan (i : Z) : Session USD ScanRun :=
  get_or_raise (λ db, scan_runs db !! i) RuntimeError.

Definition active_retry_for_scan (source_scan_run_id : Z) db : option (Z * ScanRun) :=
  select_last (λ i s, (bool_decide (i = source_scan_run_id)
                       || bool_decide (sc_source_scan_run_id s = Some source_scan_run_id))
                      && active_status (sc_status s)) (scan_runs db).

(** [scan.max_attempts or settings.scan_worker_max_attempts] *)
Definition attempts_allowed settings (s : ScanRun) : Z :=
  if sc_max_attempts s =? 0 then scan_worker_max_attempts settings else sc_max_attempts s.

Definition _retry_or_quarantine settings (draw : binary64) (i : Z) (error : string)
    (now : Z) (failed_stage : string) : Session USD unit :=
  get_scan i ≫= λ s,
  let count := sc_retry_count s + 1 in
  update_scan i (λ s, s <| sc_retry_count := count |> <| sc_error_summary := Some error |>)
  ≫= λ _,
  if attempts_allowed settings s <=? count then
    update_scan i (quarantine count error now failed_stage)
  else
    get_or_raise (λ _, retry_delay_seconds count (scan_worker_retry_base_seconds settings)
                         (scan_worker_retry_max_seconds settings) None draw) OverflowError
    ≫= λ delay,
    update_scan i (λ s, s <| sc_status := SQueued |> <| sc_progress_stage := "queued" |>
                          <| sc_started_at := None |> <| sc_completed_at := None |>) ≫= λ _,
    timedelta delay ≫= λ d,
    update_scan i (requeue count delay (now + d) failed_stage).

(** ** Recovery *)

Definition before (t : option Z) (limit : Z) : bool :=
  match t with Some t => t <? limit | None => false end.

Definition stale_scan (cutoff recovered_at : Z) (s : ScanRun) : bool :=
  bool_decide (sc_source s ∈ WORKER_SCAN_SOURCES)
  && bool_decide (sc_status s = SRunning) && bool_decide (sc_completed_at s = None)
  && (before (sc_lease_expires_at s) recovered_at
      || bool_decide (sc_lease_expires_at s = None)
      || before (sc_heartbeat_at s) cutoff || bool_decide (sc_heartbeat_at s = None)).

Definition lease_expired_summary : string := "Worker lease expired before completion.".

(** One iteration of the recovery loop; [draw i] is the jitter drawn for scan [i]. *)
Definition recover_scan settings (draw : Z → binary64) (now : Z) (i : Z)
    : Session USD unit :=
  reconcile_stale_api_call_attempts (now + 1) (Some i) now ≫= λ _,
  get_scan i ≫= λ s,
  (if sc_cancel_requested s then update_scan i (_cancel_scan now true)
   else _retry_or_quarantine settings (draw i) i lease_expired_summary now
          (sc_progress_stage s)) ≫= λ _,
  update_scan i _clear_lease.

Definition recover_stale_scans settings (stale_after_seconds : binary64)
    (draw : Z → binary64) (now : Z) : Session USD Z :=
  timedelta stale_after_seconds ≫= λ d,
  let cutoff := now - d in
  reconcile_stale_api_call_attempts cutoff None now ≫= λ _,
  gets (λ db, (select (λ _ s, stale_scan cutoff now s) (scan_runs db)).*1) ≫= λ rows,
  for_each (recover_scan settings draw now) rows ≫= λ _,
  mret (Z.of_nat (length rows)).

(** ** Claiming *)

Definition due (now : Z) (s : ScanRun) : bool :=
  match sc_next_attempt_at s with Some t => t <=? now | None => true end.

Definition claimable (now : Z) (s : ScanRun) : bool :=
  bool_decide (sc_source s ∈ WORKER_SCAN_SOURCES) && bool_decide (sc_status s = SQueued)
  && due now s.

(** [UPDATE ... SET status='cancelled', ...] *)
Definition cancel_queued (now : Z) (s : ScanRun) : ScanRun :=
  s <| sc_status := SCancelled |> <| sc_progress_stage := "cancelled" |>
    <| sc_completed_at := Some now |> <| sc_worker_id := None |>
    <| sc_heartbeat_at := None |> <| sc_lease_token := None |>
    <| sc_lease_expires_at := None |>.

Definition claim_row (worker_id token : string) (now lease_us : Z) (s : ScanRun) : ScanRun :=
  s <| sc_status := SRunning |> <| sc_progress_stage := "planning" |>
    <| sc_started_at := Some now |> <| sc_completed_at := None |>
    <| sc_error_summary := None |> <| sc_worker_id := Some worker_id |>
    <| sc_lease_token := Some token |> <| sc_claimed_at := Some now |>
    <| sc_heartbeat_at := Some now |> <| sc_lease_expires_at := Some (now + lease_us) |>
    <| sc_next_attempt_at := None |>.

Definition note_claim (worker_id token : string) (now : Z) (s : ScanRun) : ScanRun :=
  s <| sc_partial_outputs ::= outputs
         [("claimed_by", JStr worker_id); ("claimed_at", JStr (isoformat now));
          ("lease_token", JStr token)]%string |>.

(** The loop over the selected ids; [token i] is the uuid drawn for scan [i]. *)
Fixpoint claim_from (worker_id : string) (lease_seconds : binary64) (token : Z → string)
    (now : Z) (ids : list Z) : Session USD (option ScanExecutionLease) :=
  match ids with
  | [] => mret None
  | i :: ids' =>
      gets (λ db, scan_runs db !! i) ≫= λ row,
      match row with
      | None => claim_from worker_id lease_seconds token now ids'
      | Some s =>
          if bool_decide (sc_status s = SQueued) && sc_cancel_requested s then
            update_scan i (cancel_queued now) ≫= λ _,
            claim_from worker_id lease_seconds token now ids'
          else
            timedelta lease_seconds ≫= λ d,
            if bool_decide (sc_status s = SQueued) && negb (sc_cancel_requested s)
               && due now s then
              update_scan i (claim_row worker_id (token i) now d) ≫= λ _,
              update_scan i (note_claim worker_id (token i) now) ≫= λ _,
              mret (Some {| lease_scan_id := i; lease_worker_id := worker_id;
                            lease_token := token i |})
            else claim_from worker_id lease_seconds token now ids'
      end
  end.

Definition claim_next_scan (worker_id : string) (lease_seconds : binary64)
    (token : Z → string) (now : Z) : Session USD (option ScanExecutionLease) :=
  gets (λ db, take 10 (select (λ _ s, claimable now s) (scan_runs db)).*1) ≫= λ ids,
  claim_from worker_id lease_seconds token now ids.

(** ** Running a claimed scan *)

(** One iteration of [_heartbeat_scan]; [false] is the lost lease. *)
Definition heartbeat lease (lease_seconds : binary64) (now : Z) : Session USD bool :=
  timedelta lease_seconds ≫= λ d,
  gets (λ db, scan_runs db !! lease_scan_id lease) ≫= λ row,
  match row with
  | Some s =>
      if _owns s lease then
        update_scan (lease_scan_id lease)
          (λ s, s <| sc_heartbeat_at := Some now |>
                  <| sc_lease_expires_at := Some (now + d) |>) ≫= λ _,
        mret true
      else mret false
  | None => mret false
  end.

Definition _fail_without_retry (i : Z) lease (error : string) (now : Z)
    : Session USD unit :=
  get_scan i ≫= λ s,
  if negb (_owns s lease) then mret tt
  else
    update_scan i (λ s,
      _clear_lease (s <| sc_status := SFailed |> <| sc_progress_stage := "failed" |>
        <| sc_error_summary := Some error |> <| sc_completed_at := Some now |>
        <| sc_partial_outputs ::= outputs
             [("worker_error", JStr error); ("retry_classification", JStr "non_retryable");
              ("failed_at", JStr (isoformat now))]%string |>)) ≫= λ _,
    match sc_opportunity_id s with
    | Some o =>
        transition_system o needs_more_evidence "worker_scan_failed" error now ≫= λ _, mret tt
    | None => mret tt
    end.

Definition missing_metadata_summary : string :=
  "Queued scan is missing structured service or market metadata.".

(** [run_scan_by_id] up to the pipeline: the scan to run, if any. *)
Definition begin_scan lease (now : Z) : Session USD (option ScanRun) :=
  gets (λ db, scan_runs db !! lease_scan_id lease) ≫= λ row,
  match row with
  | None => mret None
  | Some s =>
      if negb (_owns s lease) then mret None
      else
        let payload k := default JNull (sc_request_parameters s !! k) in
        if negb (is_obj (payload "service_payload"%string))
           || negb (is_obj (payload "market_payload"%string)) then
          _fail_without_retry (lease_scan_id lease) lease missing_metadata_summary now
          ≫= λ _, mret None
        else mret (Some s)
  end.

(** [str((scan.partial_outputs or {}).get("failed_stage") or "unknown")] for the
    strings the pipeline stores there *)
Definition failed_stage_of (s : ScanRun) : string :=
  match sc_partial_outputs s !! "failed_stage"%string with
  | Some (JStr t) => if str_truthy t then t else "unknown"
  | _ => "unknown"
  end.

(** The [finally] block of [run_scan_by_id]: [error] is the exception caught
    besides [ScanCancelled] and [ScanLeaseLost], with its message. *)
Definition finish_scan settings (draw : binary64) lease (error : option (exn * string))
    (now : Z) : Session USD unit :=
  gets (λ db, scan_runs db !! lease_scan_id lease) ≫= λ row,
  match row with
  | Some s =>
      if _lease_matches s lease then
        match error with
        | Some (e, message) =>
            when (bool_decide (sc_status s = SFailed))
              (if is_retryable_error e then
                 _retry_or_quarantine settings draw (lease_scan_id lease) message now
                   (failed_stage_of s)
               else
                 update_scan (lease_scan_id lease) (λ s, s <| sc_partial_outputs ::= outputs
                   [("retry_classification", JStr "non_retryable")]%string |>))
        | None => mret tt
        end ≫= λ _,
        get_scan (lease_scan_id lease) ≫= λ s,
        when (terminal_status (sc_status s) || bool_decide (sc_status s = SQueued))
          (update_scan (lease_scan_id lease) _clear_lease)
      else mret tt
  | None => mret tt
  end.

(** ** The pipeline's handlers (services/scanner.py) *)

(** [build_api_cost_ledger(session, i)["actual_cost_usd"]] of
    services/discovery_report.py *)
Definition ledger_actual_cost (i : Z) db : USD :=
  amt_round6 (amt_sum (map ac_actual_cost_usd
    (select (λ _ c, bool_decide (ac_scan_run_id c = Some i)) (api_calls db)).*2)).

(** [scan.actual_cost_usd = ...] *)
Definition record_actual_cost (i : Z) : Session USD unit :=
  modify (λ db, db <| scan_actual_costs ::= insert i (ledger_actual_cost i db) |>).

(** [except ScanCancelled] *)
Definition pipeline_cancelled (i opportunity : Z) (now : Z) : Session USD unit :=
  update_scan i (λ s, s <| sc_status := SCancelled |> <| sc_progress_stage := "cancelled" |>
    <| sc_completed_at := Some now |>) ≫= λ _,
  record_actual_cost i ≫= λ _,
  update_scan i (λ s, s <| sc_partial_outputs ::= outputs [("cancelled", JBool true)]%string |>)
  ≫= λ _,
  transition_system opportunity needs_more_evidence "scan_cancelled"
    "Scan was cancelled before assessment completion." now ≫= λ _,
  mret tt.

(** [except Exception as exc], with [message] for [str(exc)] *)
Definition pipeline_failed (i opportunity : Z) (message : string) (now : Z)
    : Session USD unit :=
  get_scan i ≫= λ s,
  let failed_stage := sc_progress_stage s in
  update_scan i (λ s, s <| sc_status := SFailed |> <| sc_progress_stage := "failed" |>
    <| sc_error_summary := Some message |> <| sc_completed_at := Some now |>) ≫= λ _,
  record_actual_cost i ≫= λ _,
  transition_system opportunity needs_more_evidence "scan_failed"
    ("Scan failed during " +:+ failed_stage +:+ ": " +:+ message) now ≫= λ _,
  update_scan i (λ s, s <| sc_partial_outputs ::= outputs
    [("failed_stage", JStr failed_stage); ("error", JStr message)]%string |>).

(** [_set_stage] under a lease: the update of the row, or [ScanLeaseLost]. *)
Definition set_stage lease (stage : string) (now : Z) : Session USD unit :=
  gets (λ db, scan_runs db !! lease_scan_id lease) ≫= λ row,
  match row with
  | Some s =>
      if _owns s lease
         && match sc_lease_expires_at s with Some e => now <? e | None => false end then
        update_scan (lease_scan_id lease) (λ s, s <| sc_progress_stage := stage |>
          <| sc_partial_outputs ::= outputs [("last_successful_stage", JStr stage)]%string |>)
      else raise ScanLeaseLost
  | None => raise ScanLeaseLost
  end.
End worker.
