(* ===== verification/ScanWorkerProofs.v ===== *)
(** * ScanWorkerProofs: the guarantees of the scan queue *)
From S2P Require Import Prelude Binary64 Schema ScanLeases CostControls OpportunityReview.
From S2P Require Import CostControlsProofs OpportunityReviewProofs ScanWorker.

Section frames.
Context {USD : Type} `{Amount USD}.
Implicit Types (db : Db USD) (settings : Settings USD).

#[export] Instance locked_bucket_keeps k : Keeps (@scan_runs USD) (_locked_bucket k).
Proof. intros db. rewrite locked_bucket_run. unfold touch. by case_match. Qed.
#[export] Instance update_bucket_keeps k f : Keeps (@scan_runs USD) (update_bucket k f).
Proof. intros db. by rewrite update_bucket_run. Qed.
#[export] Instance update_call_keeps i f : Keeps (@scan_runs USD) (update_call i f).
Proof. done. Qed.
#[export] Instance reconcile_one_keeps now i : Keeps (@scan_runs USD) (reconcile_one now i).
Proof.
  unfold reconcile_one, _reconcile_attempt_reservation.
  apply keeps_bind; [apply _|]. intros c. apply keeps_bind; [|apply _].
  destruct (ac_reservation_state c), (ac_reservation_usage_date c); apply _.
Qed.
#[export] Instance reconcile_stale_keeps b s now :
  Keeps (@scan_runs USD) (reconcile_stale_api_call_attempts b s now).
Proof. unfold reconcile_stale_api_call_attempts. apply _. Qed.

#[export] Instance transition_keeps i r a now :
  Keeps (@scan_runs USD) (transition i r a now).
Proof.
  intros db. by destruct (transition_run i r a now db) as [(? & ? & _ & ->)|(_ & ? & ->)].
Qed.
#[export] Instance transition_system_keeps i t d r now :
  Keeps (@scan_runs USD) (transition_system i t d r now).
Proof.
  unfold transition_system. apply keeps_bind; [apply _|]. intros o.
  apply keeps_bind; [apply _|]. intros c. destruct (bool_decide _); apply _.
Qed.
End frames.

(** ** What the handlers do to the scan rows *)
Section rows.
Context {USD : Type} `{Amount USD}.
Implicit Types (db : Db USD) (settings : Settings USD) (s : ScanRun)
  (lease : ScanExecutionLease).

(** A row after another failed attempt. *)
Record retried settings s s' : Prop := {
  rt_count : sc_retry_count s' = sc_retry_count s + 1;
  rt_max : sc_max_attempts s' = sc_max_attempts s;
  rt_source : sc_source_scan_run_id s' = sc_source_scan_run_id s;
  rt_cancel : sc_cancel_requested s' = sc_cancel_requested s;
  rt_lease : sc_worker_id s' = sc_worker_id s ∧ sc_lease_token s' = sc_lease_token s;
  rt_status : (attempts_allowed settings s ≤ sc_retry_count s' ∧ sc_status s' = SQuarantined)
    ∨ (sc_retry_count s' < attempts_allowed settings s ∧ sc_status s' = SQueued
       ∧ sc_completed_at s' = None ∧ is_Some (sc_next_attempt_at s'))
}.

Lemma retry_ok settings draw i error now stage db u db' :
  _retry_or_quarantine settings draw i error now stage db = (Ok u, db') →
  ∃ s s', scan_runs db !! i = Some s ∧ scan_runs db' = <[i := s']> (scan_runs db)
    ∧ retried settings s s'.
Proof.
  unfold _retry_or_quarantine, get_scan. rewrite bind_get_or_raise.
  destruct (scan_runs db !! i) as [s|] eqn:Hi; [|done].
  set (count := sc_retry_count s + 1).
  rewrite (bind_run _ _ db tt (db <| scan_runs ::= alter (λ s,
    s <| sc_retry_count := count |> <| sc_error_summary := Some error |>) i |>)) by done.
  destruct (Z.leb_spec (attempts_allowed settings s) count) as [Hle|Hlt].
  - intros [= _ <-]. eexists s, _. split; [done|]. split.
    + cbn -[alter insert]. rewrite alter_alter_eq. by rewrite (alter_as_insert _ _ _ _ Hi).
    + split; try done. by left.
  - rewrite bind_get_or_raise. destruct (retry_delay_seconds _ _ _ _ _) as [delay|]; [|done].
    set (db1 := db <| scan_runs ::= _ |>).
    rewrite (bind_run _ _ db1 tt (db1 <| scan_runs ::= alter (λ s,
      s <| sc_status := SQueued |> <| sc_progress_stage := "queued"%string |>
        <| sc_started_at := None |> <| sc_completed_at := None |>) i |>)) by done.
    unfold timedelta. rewrite bind_get_or_raise.
    destruct (F64.timedelta_seconds delay) as [d|]; [|done].
    intros [= _ <-]. eexists s, _. split; [done|]. split.
    + unfold db1. cbn -[alter insert]. rewrite !alter_alter_eq.
      by rewrite (alter_as_insert _ _ _ _ Hi).
    + split; try done. right. by repeat split.
Qed.

Lemma update_scan_run i (f : ScanRun → ScanRun) db :
  update_scan i f db = (Ok tt, db <| scan_runs ::= alter f i |>).
Proof. done. Qed.

(** The row a recovery leaves. *)
Definition recovered settings s s' : Prop :=
  (sc_cancel_requested s = true ∧ sc_status s' = SCancelled
   ∧ sc_retry_count s' = sc_retry_count s ∧ sc_max_attempts s' = sc_max_attempts s
   ∧ sc_lease_token s' = None ∧ sc_worker_id s' = None
   ∧ sc_source_scan_run_id s' = sc_source_scan_run_id s ∧ sc_cancel_requested s' = true)
  ∨ ∃ s1, retried settings s s1 ∧ s' = _clear_lease s1.

Lemma recover_scan_ok settings draw now i db u db' :
  recover_scan settings draw now i db = (Ok u, db') →
  ∃ s s', scan_runs db !! i = Some s ∧ scan_runs db' = <[i := s']> (scan_runs db)
    ∧ recovered settings s s'.
Proof.
  unfold recover_scan. intros (n & db1 & Hm & Hrun)%bind_ok.
  pose proof (keeps_ok scan_runs _ _ _ _ Hm) as Hrec.
  unfold get_scan in Hrun. rewrite bind_get_or_raise, Hrec in Hrun.
  destruct (scan_runs db !! i) as [s|] eqn:Hi; [|done].
  exists s. destruct (sc_cancel_requested s) eqn:Hc.
  - injection Hrun as _ <-. eexists. split; [done|]. split.
    + cbn -[alter insert]. rewrite Hrec, alter_alter_eq. by rewrite (alter_as_insert _ _ _ _ Hi).
    + left. by split_and!.
  - apply bind_ok in Hrun as (u' & db2 & Hretry & Hclear).
    apply retry_ok in Hretry as (s0 & s1 & Hs0 & Hdb2 & Hret).
    rewrite Hrec in Hs0, Hdb2. assert (s0 = s) as -> by congruence.
    injection Hclear as _ <-. exists (_clear_lease s1). split; [done|]. split.
    + cbn -[alter insert]. rewrite Hdb2.
      rewrite (alter_as_insert _ _ i s1) by apply lookup_insert_eq. apply insert_insert_eq.
    + right. by exists s1.
Qed.

(** The recovery loop touches exactly the rows it was given. *)
Lemma recover_loop settings draw now l db u db' :
  NoDup l → for_each (recover_scan settings draw now) l db = (Ok u, db') →
  ∀ i, (i ∉ l → scan_runs db' !! i = scan_runs db !! i)
     ∧ (i ∈ l → ∃ s s', scan_runs db !! i = Some s ∧ scan_runs db' !! i = Some s'
                 ∧ recovered settings s s').
Proof.
  revert db. induction l as [|j l IH]; intros db Hnd Hrun i; simpl in Hrun.
  { injection Hrun as _ <-. split; [done|]. by intros ?%not_elem_of_nil. }
  apply NoDup_cons in Hnd as [Hj Hnd].
  apply bind_ok in Hrun as (u' & db1 & Hone & Hloop).
  apply recover_scan_ok in Hone as (s & s' & Hs & Hdb1 & Hr).
  destruct (IH db1 Hnd Hloop i) as [Hout Hin]. rewrite not_elem_of_cons, elem_of_cons. split.
  - intros [Hne Hni]. rewrite (Hout Hni), Hdb1. by rewrite lookup_insert_ne.
  - intros [->|Hil].
    + exists s, s'. rewrite (Hout Hj), Hdb1, lookup_insert_eq. done.
    + destruct (Hin Hil) as (s1 & s2 & Hs1 & Hs2 & Hr12). exists s1, s2.
      split; [|done]. rewrite Hdb1, lookup_insert_ne in Hs1 by congruence. done.
Qed.

Lemma recover_ok settings after draw now db n db' :
  recover_stale_scans settings after draw now db = (Ok n, db') →
  ∃ d, F64.timedelta_seconds after = Some d
  ∧ (∀ i s, scan_runs db !! i = Some s →
       if stale_scan (now - d) now s
       then ∃ s', scan_runs db' !! i = Some s' ∧ recovered settings s s'
       else scan_runs db' !! i = Some s)
  ∧ (∀ i, scan_runs db !! i = None → scan_runs db' !! i = None).
Proof.
  unfold recover_stale_scans, timedelta. rewrite bind_get_or_raise.
  destruct (F64.timedelta_seconds after) as [d|]; [|done]. intros Hrun.
  apply bind_ok in Hrun as (m & db1 & Hm & Hrun). pose proof (keeps_ok scan_runs _ _ _ _ Hm) as Hrec.
  rewrite bind_gets in Hrun. set (rows := (select _ _).*1) in Hrun.
  apply bind_ok in Hrun as (u & db2 & Hloop & Hret). injection Hret as _ <-.
  exists d. split; [done|].
  assert (∀ i, i ∈ rows ↔ ∃ s, scan_runs db !! i = Some s ∧ stale_scan (now - d) now s = true)
    as Hin.
  { intros i. unfold rows. rewrite list_elem_of_fmap. split.
    - intros ([j s'] & -> & [Hj Hq]%elem_of_select). simpl in *. rewrite Hrec in Hj. eauto.
    - intros (s & Hi & Hs). exists (i, s). split; [done|]. apply elem_of_select. by rewrite Hrec. }
  assert (NoDup rows) as Hnd by apply select_NoDup. clearbody rows.
  pose proof (recover_loop _ _ _ _ _ _ _ Hnd Hloop) as Hl. rewrite Hrec in Hl.
  split; [|intros i Hi; rewrite (proj1 (Hl i)); [done|]; rewrite Hin; naive_solver].
  intros i s Hi. destruct (Hl i) as [Hout Hyes].
  destruct (stale_scan (now - d) now s) eqn:Hst.
  - destruct Hyes as (s0 & s' & Hs0 & Hs' & Hr); [apply Hin; by eauto|]. exists s'.
    assert (s0 = s) as -> by congruence. done.
  - rewrite Hout; [done|]. rewrite Hin. intros (s0 & Hs0 & Hst0). congruence.
Qed.

(** A queued scan whose cancellation was requested is cancelled on the way. *)
Definition swept (now : Z) s s' : Prop :=
  s' = s ∨ (sc_status s = SQueued ∧ sc_cancel_requested s = true ∧ s' = cancel_queued now s).

(** The row of a claimed scan. *)
Definition claimed (worker token : string) (now d : Z) s : ScanRun :=
  note_claim worker token now (claim_row worker token now d s).

Definition sweeps (now : Z) (r : option ScanExecutionLease) db db' : Prop :=
  ∀ j, (∀ l, r = Some l → j ≠ lease_scan_id l) →
    match scan_runs db !! j with
    | Some s => ∃ s', scan_runs db' !! j = Some s' ∧ swept now s s'
    | None => scan_runs db' !! j = None
    end.

Definition claims_one (worker : string) (after : binary64) (token : Z → string) (now : Z)
    (ids : list Z) (r : option ScanExecutionLease) db db' : Prop :=
  ∀ l, r = Some l → lease_worker_id l = worker ∧ lease_token l = token (lease_scan_id l)
    ∧ lease_scan_id l ∈ ids
    ∧ ∃ s d, F64.timedelta_seconds after = Some d
      ∧ scan_runs db !! lease_scan_id l = Some s ∧ sc_status s = SQueued
      ∧ sc_cancel_requested s = false ∧ due now s = true
      ∧ scan_runs db' !! lease_scan_id l
        = Some (claimed worker (token (lease_scan_id l)) now d s).

Lemma claim_from_ok worker after token now ids db r db' :
  claim_from worker after token now ids db = (Ok r, db') →
  sweeps now r db db' ∧ claims_one worker after token now ids r db db'.
Proof.
  revert db. induction ids as [|i ids IH]; intros db Hrun; simpl in Hrun.
  { injection Hrun as <- <-. split; [|done]. intros j _. case_match; [|done].
    eexists. split; [done|by left]. }
  assert (∀ db1, claims_one worker after token now ids r db1 db' →
    claims_one worker after token now (i :: ids) r db1 db') as Hmore.
  { intros db1 Hc l Hl. destruct (Hc l Hl) as (? & ? & ? & ?). repeat split; try done.
    by right. }
  rewrite bind_gets in Hrun. destruct (scan_runs db !! i) as [s|] eqn:Hi.
  2: { destruct (IH db Hrun). eauto. }
  destruct (bool_decide (sc_status s = SQueued) && sc_cancel_requested s) eqn:Hc; bools.
  - (* cancelled on the way *)
    rewrite (bind_run _ _ _ _ _ (update_scan_run _ _ _)) in Hrun.
    set (db1 := db <| scan_runs ::= alter (cancel_queued now) i |>) in Hrun.
    destruct (IH db1 Hrun) as [Hsw Hcl].
    assert (scan_runs db1 = <[i := cancel_queued now s]> (scan_runs db)) as Hdb1
      by exact (alter_as_insert _ _ _ _ Hi).
    assert (∀ l, r = Some l → lease_scan_id l ≠ i) as Hli.
    { intros l Hl Heq. destruct (Hcl l Hl) as (_ & _ & _ & s1 & d & _ & Hs1 & Hq & _).
      rewrite Heq, Hdb1, lookup_insert_eq in Hs1. by simplify_eq. }
    split.
    + intros j Hj. specialize (Hsw j Hj). rewrite Hdb1 in Hsw.
      destruct (decide (i = j)) as [<-|Hne].
      * rewrite lookup_insert_eq in Hsw. rewrite Hi.
        destruct Hsw as (s' & Hs' & [->|(Hq & _)]); [|done].
        eexists. split; [done|]. by right.
      * by rewrite lookup_insert_ne in Hsw.
    + apply Hmore. intros l Hl. destruct (Hcl l Hl) as (? & ? & ? & s1 & d & ? & Hs1 & ?).
      repeat split; try done. exists s1, d. split; [done|].
      rewrite Hdb1, lookup_insert_ne in Hs1 by (intros Heq; by eapply Hli). done.
  - unfold timedelta in Hrun. rewrite bind_get_or_raise in Hrun.
    destruct (F64.timedelta_seconds after) as [d|] eqn:Hd; [|done].
    destruct (bool_decide (sc_status s = SQueued) && negb (sc_cancel_requested s) && due now s)
      eqn:Hok.
    2: { destruct (IH db Hrun). eauto. }
    bools. injection Hrun as <- <-. set (db' := db <| scan_runs ::= _ |> <| scan_runs ::= _ |>).
    assert (scan_runs db' = <[i := claimed worker (token i) now d s]> (scan_runs db)) as Hdb'.
    { unfold db'. cbn -[alter insert]. rewrite alter_alter_eq.
      by rewrite (alter_as_insert _ _ _ _ Hi). }
    split.
    + intros j Hj. specialize (Hj _ eq_refl). simpl in Hj. rewrite Hdb', lookup_insert_ne by done.
      case_match; [|done]. eexists. split; [done|by left].
    + intros l [= <-]. cbn [lease_scan_id lease_worker_id lease_token]. split; [done|]. split; [done|]. split; [by left|].
      exists s, d. rewrite Hdb', lookup_insert_eq. done.
Qed.
End rows.

(** ** Quiet changes and the bounded number of attempts *)
Section attempts.
Context {USD : Type} `{Amount USD}.
Implicit Types (db : Db USD) (settings : Settings USD) (s : ScanRun)
  (lease : ScanExecutionLease).

(** A change that does not queue the scan again: the attempt counters and the lineage stay,
    the lease stays or goes, a requested cancellation stays requested, and the status stays
    or becomes terminal. *)
Record quiet s s' : Prop := {
  qt_count : sc_retry_count s' = sc_retry_count s;
  qt_max : sc_max_attempts s' = sc_max_attempts s;
  qt_source : sc_source_scan_run_id s' = sc_source_scan_run_id s;
  qt_cancel : sc_cancel_requested s = true → sc_cancel_requested s' = true;
  qt_token : sc_lease_token s' = sc_lease_token s ∨ sc_lease_token s' = None;
  qt_status : sc_status s' = sc_status s ∨ terminal_status (sc_status s') = true
}.

(** A handler's effect on the table: at most one row changes, quietly or by
    another attempt of a leased scan. *)
Definition one_row settings (i : Z) db db' : Prop :=
  scan_runs db' = scan_runs db
  ∨ ∃ s s', scan_runs db !! i = Some s ∧ scan_runs db' = <[i := s']> (scan_runs db)
      ∧ (quiet s s' ∨ (is_Some (sc_lease_token s)
                       ∧ ∃ s1, retried settings s s1 ∧ s' = _clear_lease s1)).

Lemma one_row_update settings i f db db' :
  scan_runs db' = alter f i (scan_runs db) → (∀ s, quiet s (f s)) → one_row settings i db db'.
Proof.
  intros Hdb Hf. destruct (scan_runs db !! i) as [s|] eqn:Hi.
  - right. exists s, (f s). split; [done|]. split; [|by left].
    rewrite Hdb. by apply alter_as_insert.
  - left. rewrite Hdb. by apply alter_none.
Qed.

Lemma heartbeat_row settings lease after now db b db' :
  heartbeat lease after now db = (Ok b, db') → one_row settings (lease_scan_id lease) db db'.
Proof.
  unfold heartbeat, timedelta. rewrite bind_get_or_raise.
  destruct (F64.timedelta_seconds after); [|done]. rewrite bind_gets.
  case_match; [case_match|]; intros [= _ <-]; [|by left..].
  eapply one_row_update; [done|]. intros s'. split; [done|done|done|done|by left|by left].
Qed.

Lemma set_stage_row settings lease stage now db u db' :
  set_stage lease stage now db = (Ok u, db') → one_row settings (lease_scan_id lease) db db'.
Proof.
  unfold set_stage. rewrite bind_gets. case_match; [case_match|]; try done.
  intros [= _ <-]. eapply one_row_update; [done|]. intros s'.
  split; [done|done|done|done|by left|by left].
Qed.

Lemma fail_row settings i lease error now db u db' :
  _fail_without_retry i lease error now db = (Ok u, db') → one_row settings i db db'.
Proof.
  unfold _fail_without_retry, get_scan. rewrite bind_get_or_raise.
  destruct (scan_runs db !! i) as [s|] eqn:Hi; [|done].
  destruct (negb _); [intros [= _ <-]; by left|].
  rewrite (bind_run _ _ _ _ _ (update_scan_run _ _ _)).
  match goal with |- context [alter ?f i] => set (g := f) end.
  set (db1 := db <| scan_runs ::= alter g i |>). intros Hrun.
  apply (one_row_update settings i g).
  - destruct (sc_opportunity_id s) as [o|]; [|by injection Hrun as _ <-].
    apply bind_ok in Hrun as (r & db2 & Ht & Hret). injection Hret as _ <-.
    by rewrite (keeps_ok scan_runs _ _ _ _ Ht).
  - intros s'. split; [done|done|done|done|by right|by right].
Qed.

Lemma begin_row settings lease now db r db' :
  begin_scan lease now db = (Ok r, db') → one_row settings (lease_scan_id lease) db db'.
Proof.
  unfold begin_scan. rewrite bind_gets. destruct (scan_runs db !! _) as [s|];
    [|intros [= _ <-]; by left].
  destruct (negb _); [intros [= _ <-]; by left|]. cbv zeta.
  destruct (_ || _); [|intros [= _ <-]; by left].
  intros (u & db1 & Hf & Hret)%bind_ok. injection Hret as _ <-. by eapply fail_row.
Qed.

Lemma cancelled_row settings i o now db u db' :
  pipeline_cancelled i o now db = (Ok u, db') → one_row settings i db db'.
Proof.
  unfold pipeline_cancelled. rewrite (bind_run _ _ _ _ _ (update_scan_run _ _ _)).
  intros (u1 & db1 & [= _ <-] & (u2 & db2 & [= _ <-] & (r & db3 & Ht & [= _ <-])%bind_ok)%bind_ok)%bind_ok.
  pose proof (keeps_ok scan_runs _ _ _ _ Ht) as Hk.
  eapply one_row_update; [rewrite Hk; cbn -[alter]; apply alter_alter_eq|].
  intros s'. split; [done|done|done|done|by left|by right].
Qed.

Lemma failed_row settings i o message now db u db' :
  pipeline_failed i o message now db = (Ok u, db') → one_row settings i db db'.
Proof.
  unfold pipeline_failed, get_scan. rewrite bind_get_or_raise.
  destruct (scan_runs db !! i) as [s|] eqn:Hi; [|done].
  rewrite (bind_run _ _ _ _ _ (update_scan_run _ _ _)).
  intros (u1 & db1 & [= _ <-] & (r & db2 & Ht & [= _ <-])%bind_ok)%bind_ok.
  pose proof (keeps_ok scan_runs _ _ _ _ Ht) as Hk.
  eapply one_row_update; [cbn -[alter]; rewrite Hk; cbn -[alter]; apply alter_alter_eq|].
  intros s'. split; [done|done|done|done|by left|by right].
Qed.

Lemma finish_row settings draw lease error now db u db' :
  finish_scan settings draw lease error now db = (Ok u, db') →
  one_row settings (lease_scan_id lease) db db'.
Proof.
  unfold finish_scan. rewrite bind_gets. set (i := lease_scan_id lease).
  destruct (scan_runs db !! i) as [s|] eqn:Hi; [|intros [= _ <-]; by left].
  destruct (_lease_matches s lease) eqn:Hm; [|intros [= _ <-]; by left].
  unfold _lease_matches in Hm. bools.
  intros (u' & db1 & Hmid & Hrest)%bind_ok.
  assert (∃ s1, scan_runs db1 = <[i := s1]> (scan_runs db)
    ∧ (retried settings s s1 ∨ quiet s s1 ∧ sc_status s1 = sc_status s)) as (s1 & Hdb1 & Hs1).
  { assert (quiet s s) as Hq by (split; [done|done|done|done|by left|by left]).
    destruct error as [[e m]|].
    - apply when_ok in Hmid as [[_ Hmid]|[_ ->]].
      + destruct (is_retryable_error e).
        * apply retry_ok in Hmid as (s0 & s1 & Hs0 & Hdb1 & Hr).
          assert (s0 = s) as -> by congruence. exists s1. by auto.
        * injection Hmid as _ <-. eexists. split; [by apply alter_as_insert|].
          right. split; [|done]. split; [done|done|done|done|by left|by left].
      + exists s. rewrite insert_id by done. by auto.
    - injection Hmid as _ <-. exists s. rewrite insert_id by done. by auto. }
  unfold get_scan in Hrest. rewrite bind_get_or_raise, Hdb1, lookup_insert_eq in Hrest.
  assert (is_Some (sc_lease_token s)) as Htok by by eexists.
  right. exists s. destruct (terminal_status _ || _) eqn:Hclear.
  - injection Hrest as _ <-. exists (_clear_lease s1). split; [done|]. split.
    + cbn -[alter insert]. rewrite Hdb1.
      rewrite (alter_as_insert _ _ i s1) by apply lookup_insert_eq. apply insert_insert_eq.
    + destruct Hs1 as [Hr|[[? ? ? ? ? ?] ?]]; [right; by eauto|left].
      split; [done|done|done|done|by right|by left].
  - injection Hrest as _ <-. exists s1. split; [done|]. split; [done|].
    destruct Hs1 as [[_ _ _ _ _ Hst]|[Hq _]]; [|by left].
    destruct Hst as [[_ Hst]|(_ & Hst & _)]; by rewrite Hst in Hclear.
Qed.
End attempts.

(** ** Steps of the queue *)
Section steps.
Context {USD : Type} `{Amount USD} (settings : Settings USD).
Implicit Types (db : Db USD) (s : ScanRun) (lease : ScanExecutionLease).

(** A committed transaction of a worker, of a pipeline, or of the rest of the
    program; a handler that raises is rolled back by its session.  The list is
    the scan it claimed. *)
Inductive worker_step db : list Z → Db USD → Prop :=
| ws_claim worker after token now l db' :
    claim_next_scan worker after token now db = (Ok (Some l), db') →
    worker_step db [lease_scan_id l] db'
| ws_idle worker after token now db' :
    claim_next_scan worker after token now db = (Ok None, db') → worker_step db [] db'
| ws_recover after draw now n db' :
    recover_stale_scans settings after draw now db = (Ok n, db') → worker_step db [] db'
| ws_heartbeat lease after now b db' :
    heartbeat lease after now db = (Ok b, db') → worker_step db [] db'
| ws_begin lease now r db' :
    begin_scan lease now db = (Ok r, db') → worker_step db [] db'
| ws_stage lease stage now u db' :
    set_stage lease stage now db = (Ok u, db') → worker_step db [] db'
| ws_cancelled i o now u db' :
    pipeline_cancelled i o now db = (Ok u, db') → worker_step db [] db'
| ws_failed i o message now u db' :
    pipeline_failed i o message now db = (Ok u, db') → worker_step db [] db'
| ws_finish draw lease error now u db' :
    finish_scan settings draw lease error now db = (Ok u, db') → worker_step db [] db'
| ws_other i f db' :
    (∀ s, quiet s (f s)) → scan_runs db' = alter f i (scan_runs db) → worker_step db [] db'
| ws_enqueue s db' :
    sc_status s = SQueued → 0 ≤ sc_retry_count s → 0 < attempts_allowed settings s →
    (sc_source_scan_run_id s = None → sc_retry_count s = 0) →
    scan_runs db' = <[next_id (scan_runs db) := s]> (scan_runs db) → worker_step db [] db'.

Inductive worker_reach db : list Z → Db USD → Prop :=
| wr_refl : worker_reach db [] db
| wr_step cs c db1 db2 :
    worker_reach db cs db1 → worker_step db1 c db2 → worker_reach db (cs ++ c) db2.

(** How often a scan was claimed. *)
Definition claims (i : Z) (cs : list Z) : Z := Z.of_nat (count_occ Z.eq_dec cs i).

(** The bookkeeping of one scan that was claimed [n] times.  A retry of another scan starts
    with that scan's count, which may have used up the attempts; it is claimed once. *)
Record row_inv (n : Z) s : Prop := {
  ri_allowed : n ≤ attempts_allowed settings s;
  ri_some : 0 < attempts_allowed settings s;
  ri_count : 0 ≤ n ≤ sc_retry_count s + 1 ∧ 0 ≤ sc_retry_count s;
  ri_queued : sc_status s = SQueued → n = 0 ∨ n ≤ sc_retry_count s < attempts_allowed settings s;
  ri_live : active_status (sc_status s) = true ∨ is_Some (sc_lease_token s) →
    n ≤ 1 ∨ sc_retry_count s < attempts_allowed settings s;
  ri_source : sc_source_scan_run_id s = None →
    sc_retry_count s ≤ attempts_allowed settings s
    ∧ (active_status (sc_status s) = true ∨ is_Some (sc_lease_token s) →
       sc_retry_count s < attempts_allowed settings s)
}.

Lemma attempts_allowed_same s s' :
  sc_max_attempts s' = sc_max_attempts s →
  attempts_allowed settings s' = attempts_allowed settings s.
Proof. intros Hm. unfold attempts_allowed. by rewrite Hm. Qed.

Lemma quiet_inv n s s' : quiet s s' → row_inv n s → row_inv n s'.
Proof.
  intros [Hc Hm Hsrc _ Ht Hst] [H1 H2 H3 H4 H5 H6].
  assert (sc_status s' = SQueued → sc_status s = SQueued) as Hq.
  { intros Hs. destruct Hst as [<-|Hst]; [done|by rewrite Hs in Hst]. }
  assert (active_status (sc_status s') = true ∨ is_Some (sc_lease_token s') →
          active_status (sc_status s) = true ∨ is_Some (sc_lease_token s)) as Ha.
  { intros [Ha|Ha].
    - left. destruct Hst as [<-|Hst]; [done|]. by destruct (sc_status s').
    - right. destruct Ht as [<- | Hn]; [done|]. rewrite Hn in Ha. by destruct Ha. }
  split; rewrite ?(attempts_allowed_same _ _ Hm), ?Hc, ?Hsrc; try done; [by auto|by auto|].
  intros Hs. destruct (H6 Hs). auto.
Qed.

Lemma retried_inv n s s1 :
  retried settings s s1 → active_status (sc_status s) = true ∨ is_Some (sc_lease_token s) →
  row_inv n s → row_inv n (_clear_lease s1).
Proof.
  intros [Hc Hm Hsrc _ _ Hst] Hlive [H1 H2 H3 H4 H5 H6]. specialize (H5 Hlive).
  assert (attempts_allowed settings (_clear_lease s1) = attempts_allowed settings s) as Hal.
  { by apply attempts_allowed_same. }
  split; rewrite ?Hal; cbn; rewrite ?Hsrc; try lia.
  - intros Hq. right. destruct Hst as [[_ Hs]|(Hlt & _)]; [by rewrite Hs in Hq|lia].
  - intros [Ha|Ht]; [|by destruct Ht]. right. destruct Hst as [[_ Hs]|(Hlt & _)]; [by rewrite Hs in Ha|lia].
  - intros Hs. destruct (H6 Hs) as [_ Hlt]. specialize (Hlt Hlive). split; [lia|].
    intros [Ha|Ht]; [|by destruct Ht]. destruct Hst as [[_ Hs']|(Hlt' & _)]; [by rewrite Hs' in Ha|lia].
Qed.

Lemma claimed_inv n worker token now d s :
  sc_status s = SQueued → row_inv n s → row_inv (n + 1) (claimed worker token now d s).
Proof.
  intros Hq [H1 H2 H3 H4 H5 H6]. specialize (H4 Hq).
  assert (attempts_allowed settings (claimed worker token now d s) = attempts_allowed settings s)
    as Hal by by apply attempts_allowed_same.
  split; rewrite ?Hal; cbn; try lia; [done|].
  intros Hs. destruct (H6 Hs) as [? Hlt]. split; [done|]. intros _. apply Hlt. left. by rewrite Hq.
Qed.

(** The invariant of the table, given the claims made so far. *)
Definition queue_inv (cs : list Z) db : Prop :=
  (∀ i s, scan_runs db !! i = Some s → row_inv (claims i cs) s)
  ∧ ∀ i, scan_runs db !! i = None → claims i cs = 0.

Lemma claims_app i cs c : claims i (cs ++ c) = claims i cs + claims i c.
Proof. unfold claims. rewrite count_occ_app. lia. Qed.

Lemma one_row_inv cs i db db' :
  one_row settings i db db' → queue_inv cs db → queue_inv cs db'.
Proof.
  intros [Heq|(s & s' & Hi & Heq & Hs)] [Hrows Hnone]; [by split; rewrite Heq|].
  split; rewrite Heq.
  - intros j sj. rewrite lookup_insert. case_decide; [|apply Hrows]. subst j.
    intros [= <-]. specialize (Hrows i s Hi).
    destruct Hs as [Hq|(Ht & s1 & Hr & ->)]; [by eapply quiet_inv|].
    eapply retried_inv; [done|by right|done].
  - intros j. rewrite lookup_insert. case_decide; [done|apply Hnone].
Qed.

Lemma swept_quiet now s s' : swept now s s' → quiet s s'.
Proof.
  intros [->|(_ & _ & ->)]; [split; [done|done|done|done|by left|by left]|].
  split; [done|done|done|done|by right|by right].
Qed.

Lemma claim_inv cs worker after token now r db db' :
  claim_next_scan worker after token now db = (Ok r, db') → queue_inv cs db →
  queue_inv (cs ++ match r with Some l => [lease_scan_id l] | None => [] end) db'.
Proof.
  unfold claim_next_scan. rewrite bind_gets. intros [Hsw Hcl]%claim_from_ok [Hrows Hnone].
  set (c := match r with Some l => [lease_scan_id l] | None => [] end).
  assert (∀ j, (∀ l, r = Some l → j ≠ lease_scan_id l) → claims j c = 0) as Hother.
  { intros j Hj. unfold c, claims. destruct r as [l|]; [|done].
    rewrite count_occ_cons_neq by (intros Heq; by apply (Hj l)). done. }
  assert (∀ j, {l | r = Some l ∧ j = lease_scan_id l} + {∀ l, r = Some l → j ≠ lease_scan_id l})
    as Hcase.
  { intros j. destruct r as [l|]; [|by right].
    destruct (decide (j = lease_scan_id l)); [left; by exists l|right; by intros ? [= <-]]. }
  split; intros j; rewrite claims_app; destruct (Hcase j) as [(l & Hl & ->)|Hj].
  - intros sj Hsj. destruct (Hcl l Hl) as (_ & _ & _ & s & d & _ & Hs & Hq & _ & _ & Hs').
    rewrite Hs' in Hsj. injection Hsj as <-.
    assert (claims (lease_scan_id l) c = 1) as ->.
    { unfold c, claims. rewrite Hl, count_occ_cons_eq by done. done. }
    apply claimed_inv; [done|]. by apply Hrows.
  - intros sj Hsj. rewrite (Hother j Hj), Z.add_0_r. specialize (Hsw j Hj).
    destruct (scan_runs db !! j) as [s|] eqn:Hs; [|congruence].
    destruct Hsw as (s' & Hs' & Hsw). assert (s' = sj) as -> by congruence.
    eapply quiet_inv; [by eapply swept_quiet|]. by apply Hrows.
  - intros Hn. destruct (Hcl l Hl) as (_ & _ & _ & s & d & _ & _ & _ & _ & _ & Hs').
    congruence.
  - intros Hn. rewrite (Hother j Hj), Z.add_0_r. apply Hnone.
    specialize (Hsw j Hj). destruct (scan_runs db !! j); [|done].
    destruct Hsw as (s' & Hs' & _). congruence.
Qed.

Lemma recover_inv cs after draw now n db db' :
  recover_stale_scans settings after draw now db = (Ok n, db') → queue_inv cs db →
  queue_inv cs db'.
Proof.
  intros (d & _ & Hsome & Habs)%recover_ok [Hrows Hnone].
  split; intros j; destruct (scan_runs db !! j) as [s|] eqn:Hs.
  - intros sj Hsj. specialize (Hsome j s Hs). specialize (Hrows j s Hs).
    destruct (stale_scan (now - d) now s) eqn:Hst; [|by simplify_eq].
    destruct Hsome as (s' & Hs' & Hr). assert (s' = sj) as -> by congruence.
    destruct Hr as [(_ & Hc & Hcnt & Hmax & Ht & _ & Hsrc & Hcan)|(s1 & Hr & ->)].
    + eapply quiet_inv; [|done]. split; [done|done|done|done|by right|]. right. by rewrite Hc.
    + eapply retried_inv; [done| |done]. left. unfold stale_scan in Hst. bools.
      match goal with H : sc_status s = SRunning |- _ => by rewrite H end.
  - intros sj Hsj. by rewrite (Habs j Hs) in Hsj.
  - intros Hn. specialize (Hsome j s Hs). case_match; [|congruence].
    destruct Hsome as (s' & Hs' & _). congruence.
  - intros _. by apply Hnone.
Qed.

Lemma step_inv cs c db db' :
  worker_step db c db' → queue_inv cs db → queue_inv (cs ++ c) db'.
Proof.
  intros Hstep Hinv. destruct Hstep as [w a t now l db' Hrun|w a t now db' Hrun
    |a dr now n db' Hrun|l a now b db' Hrun|l now r db' Hrun|l st now u db' Hrun
    |i o now u db' Hrun|i o m now u db' Hrun|dr l e now u db' Hrun|i f db' Hf Hdb
    |s db' Hq Hc Ha Hsrc Hdb]; rewrite ?app_nil_r.
  - by eapply (claim_inv _ _ _ _ _ (Some l)).
  - rewrite <- (app_nil_r cs). by eapply (claim_inv _ _ _ _ _ None).
  - by eapply recover_inv.
  - eapply one_row_inv; [by eapply heartbeat_row|done].
  - eapply one_row_inv; [by eapply begin_row|done].
  - eapply one_row_inv; [by eapply set_stage_row|done].
  - eapply one_row_inv; [by eapply cancelled_row|done].
  - eapply one_row_inv; [by eapply failed_row|done].
  - eapply one_row_inv; [by eapply finish_row|done].
  - eapply one_row_inv; [by eapply one_row_update|done].
  - destruct Hinv as [Hrows Hnone]. split; intros j; rewrite Hdb, lookup_insert; case_decide;
      try done; [|by apply Hrows|by apply Hnone].
    subst j. intros sj [= <-]. rewrite (Hnone _ (next_id_fresh _)).
    split; try lia. intros Hs. rewrite (Hsrc Hs). lia.
Qed.
End steps.

(** ** A lease that was superseded *)
Section tokens.
Context {USD : Type} `{Amount USD}.
Context (settings : Settings USD).
Implicit Types (db : Db USD) (s : ScanRun) (lease : ScanExecutionLease).

(** The row of the scan carries another token, or none. *)
Definition superseded lease db : Prop :=
  ∃ s, scan_runs db !! lease_scan_id lease = Some s ∧ sc_lease_token s ≠ Some (lease_token lease).

(** A step in which no claim hands out the token of [lease] again; tokens are uuids. *)
Definition later lease db db' : Prop :=
  ∃ c, worker_step settings db c db'
    ∧ ∀ worker after token now l, claim_next_scan worker after token now db = (Ok (Some l), db') →
        lease_token l ≠ lease_token lease.

Lemma quiet_token t s s' : quiet s s' → sc_lease_token s ≠ Some t → sc_lease_token s' ≠ Some t.
Proof. intros [_ _ _ _ [Ht|Ht] _] Hs; by rewrite Ht. Qed.

Lemma one_row_superseded lease i db db' : one_row settings i db db' → superseded lease db → superseded lease db'.
Proof.
  intros [Heq|(s & s' & Hi & Heq & Hs)] (row & Hrow & Ht); unfold superseded; rewrite Heq; [by exists row|].
  rewrite lookup_insert. case_decide as Hj; [|by exists row]. subst i. assert (s = row) as -> by congruence.
  exists s'. split; [done|]. destruct Hs as [Hq|(_ & s1 & _ & ->)]; [by eapply quiet_token|done].
Qed.

Lemma claim_superseded lease worker after token now r db db' :
  claim_next_scan worker after token now db = (Ok r, db') →
  (∀ l, r = Some l → lease_token l ≠ lease_token lease) → superseded lease db → superseded lease db'.
Proof.
  unfold claim_next_scan. rewrite bind_gets. intros [Hsw Hcl]%claim_from_ok Hnew (row & Hrow & Ht).
  assert (∀ l, r = Some l → lease_scan_id lease = lease_scan_id l → superseded lease db') as Htaken.
  { intros l Hl Hi. destruct (Hcl l Hl) as (_ & Htok & _ & s & d & _ & _ & _ & _ & _ & Hs').
    exists (claimed worker (token (lease_scan_id l)) now d s). rewrite Hi. split; [exact Hs'|].
    cbn. rewrite <- Htok. intros [= He]. by apply (Hnew l Hl). }
  assert ((∀ l, r = Some l → lease_scan_id lease ≠ lease_scan_id l) → superseded lease db') as Hfree.
  { intros Hj. specialize (Hsw _ Hj). rewrite Hrow in Hsw. destruct Hsw as (s' & Hs' & Hsw). exists s'.
    split; [done|]. by eapply quiet_token; [eapply swept_quiet|]. }
  destruct r as [l|]; [|by apply Hfree].
  destruct (decide (lease_scan_id lease = lease_scan_id l)); [by eapply Htaken|]. apply Hfree. by intros ? [= <-].
Qed.

Lemma recover_superseded lease after draw now n db db' :
  recover_stale_scans settings after draw now db = (Ok n, db') → superseded lease db → superseded lease db'.
Proof.
  intros (d & _ & Hsome & _)%recover_ok (row & Hrow & Ht). specialize (Hsome _ _ Hrow).
  destruct (stale_scan (now - d) now row); [|by exists row].
  destruct Hsome as (s' & Hs' & Hr). exists s'. split; [done|].
  destruct Hr as [(_ & _ & _ & _ & Hn & _)|(s1 & _ & ->)]; [by rewrite Hn|done].
Qed.

(** Once superseded, a lease stays superseded. *)
Lemma later_superseded lease db db' : later lease db db' → superseded lease db → superseded lease db'.
Proof.
  intros (c & Hstep & Hnew) Hs. destruct Hstep as [w a t now l db' Hrun|w a t now db' Hrun
    |a dr now n db' Hrun|l a now b db' Hrun|l now r db' Hrun|l st now u db' Hrun
    |i o now u db' Hrun|i o m now u db' Hrun|dr l e now u db' Hrun|i f db' Hf Hdb
    |s db' Hq Hc Ha Hsrc Hdb].
  - eapply claim_superseded; [exact Hrun| |done]. intros ? [= <-]. by eapply Hnew.
  - by eapply claim_superseded; [exact Hrun| |].
  - by eapply recover_superseded.
  - eapply one_row_superseded; [by eapply heartbeat_row|done].
  - eapply one_row_superseded; [by eapply begin_row|done].
  - eapply one_row_superseded; [by eapply set_stage_row|done].
  - eapply one_row_superseded; [by eapply cancelled_row|done].
  - eapply one_row_superseded; [by eapply failed_row|done].
  - eapply one_row_superseded; [by eapply finish_row|done].
  - eapply one_row_superseded; [by eapply one_row_update|done].
  - destruct Hs as (row & Hrow & Ht). exists row. rewrite Hdb, lookup_insert_ne; [done|].
    intros Hi. rewrite <- Hi, next_id_fresh in Hrow. done.
Qed.

(** A claim of the scan supersedes every lease with another token. *)
Lemma claim_supersedes lease worker after token now successor db db' :
  claim_next_scan worker after token now db = (Ok (Some successor), db') →
  lease_scan_id successor = lease_scan_id lease → lease_token successor ≠ lease_token lease →
  superseded lease db'.
Proof.
  unfold claim_next_scan. rewrite bind_gets. intros [_ Hcl]%claim_from_ok Hi Hne.
  destruct (Hcl _ eq_refl) as (_ & Htok & _ & s & d & _ & _ & _ & _ & _ & Hs'). rewrite Hi in *.
  eexists. split; [exact Hs'|]. cbn. rewrite <- Htok. congruence.
Qed.

Lemma superseded_matches lease db s : superseded lease db →
  scan_runs db !! lease_scan_id lease = Some s → _lease_matches s lease = false.
Proof.
  intros (row & Hrow & Ht) Hs. assert (row = s) as -> by congruence. unfold _lease_matches.
  rewrite (bool_decide_eq_false_2 (sc_lease_token s = _)) by done. apply andb_false_r.
Qed.
End tokens.

(** ** When the handlers return *)
Section totality.
Context {USD : Type} `{Amount USD}.
Implicit Types (db : Db USD) (settings : Settings USD) (s : ScanRun)
  (lease : ScanExecutionLease).

(** The delay before attempt [count], in microseconds; [None] is an overflow. *)
Definition delay_of settings (draw : binary64) (count : Z) : option Z :=
  retry_delay_seconds count (scan_worker_retry_base_seconds settings)
    (scan_worker_retry_max_seconds settings) None draw ≫= F64.timedelta_seconds.

Lemma retry_total settings draw i error now stage s db :
  scan_runs db !! i = Some s → is_Some (delay_of settings draw (sc_retry_count s + 1)) →
  ∃ db', _retry_or_quarantine settings draw i error now stage db = (Ok tt, db').
Proof.
  intros Hi [d Hd]. unfold _retry_or_quarantine, get_scan. rewrite bind_get_or_raise, Hi.
  rewrite (bind_run _ _ _ _ _ (update_scan_run _ _ _)).
  destruct (_ <=? _); [by eexists|]. unfold delay_of in Hd. rewrite bind_get_or_raise.
  destruct (retry_delay_seconds _ _ _ _ _) as [x|]; [|done]. simpl in Hd.
  rewrite (bind_run _ _ _ _ _ (update_scan_run _ _ _)). unfold timedelta.
  rewrite bind_get_or_raise, Hd. by eexists.
Qed.

Lemma reconcile_stale_total b scan now db :
  ∃ n db', reconcile_stale_api_call_attempts b scan now db = (Ok n, db').
Proof.
  unfold reconcile_stale_api_call_attempts. rewrite bind_gets. set (rows := (select _ _).*1).
  assert (∀ i, i ∈ rows → is_Some (api_calls db !! i)) as Hrows.
  { intros i ([j c] & -> & [Hj _]%elem_of_select)%list_elem_of_fmap. by eexists. }
  assert (∃ db', for_each (reconcile_one now) rows db = (Ok tt, db')) as (db' & Hrun);
    [|rewrite (bind_run _ _ _ _ _ Hrun); by eexists _, _].
  clearbody rows. revert db Hrows. induction rows as [|i l IH]; intros db Hrows; simpl.
  { by eexists. }
  destruct (Hrows i) as [c Hi]; [by left|].
  assert (∃ db1, reconcile_one now i db = (Ok tt, db1)) as (db1 & Hone).
  { eexists. apply reconcile_one_ok. by exists c. }
  rewrite (bind_run _ _ _ _ _ Hone). apply IH. intros j Hj.
  apply reconcile_one_ok in Hone as (c1 & _ & ->). cbn -[alter].
  rewrite lookup_alter_is_Some. unfold released_db.
  destruct (ac_reservation_state c1), (ac_reservation_usage_date c1); cbn -[alter];
    rewrite ?lookup_alter_is_Some; apply Hrows; by right.
Qed.

Lemma recover_scan_total settings draw now i s db :
  scan_runs db !! i = Some s → is_Some (delay_of settings (draw i) (sc_retry_count s + 1)) →
  ∃ db', recover_scan settings draw now i db = (Ok tt, db').
Proof.
  intros Hi Hd. unfold recover_scan.
  destruct (reconcile_stale_total (now + 1) (Some i) now db) as (n & db1 & Hrec).
  rewrite (bind_run _ _ _ _ _ Hrec). pose proof (keeps_ok scan_runs _ _ _ _ Hrec) as Hk.
  unfold get_scan. rewrite bind_get_or_raise, Hk, Hi.
  destruct (sc_cancel_requested s); [by eexists|].
  destruct (retry_total settings (draw i) i lease_expired_summary now (sc_progress_stage s) s db1)
    as [db2 Hr]; [by rewrite Hk|done|]. rewrite (bind_run _ _ _ _ _ Hr). by eexists.
Qed.

Lemma recover_total settings after draw now d db :
  F64.timedelta_seconds after = Some d →
  (∀ i s, scan_runs db !! i = Some s →
     is_Some (delay_of settings (draw i) (sc_retry_count s + 1))) →
  ∃ n db', recover_stale_scans settings after draw now db = (Ok n, db').
Proof.
  intros Hd Hdel. unfold recover_stale_scans, timedelta. rewrite bind_get_or_raise, Hd.
  destruct (reconcile_stale_total (now - d) None now db) as (n & db1 & Hrec).
  rewrite (bind_run _ _ _ _ _ Hrec), bind_gets.
  pose proof (keeps_ok scan_runs _ _ _ _ Hrec) as Hk. set (rows := (select _ _).*1).
  assert (∀ i, i ∈ rows → ∃ s, scan_runs db1 !! i = Some s ∧
    is_Some (delay_of settings (draw i) (sc_retry_count s + 1))) as Hrows.
  { intros i ([j s] & -> & [Hj _]%elem_of_select)%list_elem_of_fmap. exists s.
    split; [done|]. apply Hdel. by rewrite <- Hk. }
  assert (NoDup rows) as Hnd by apply select_NoDup.
  assert (∃ db', for_each (recover_scan settings draw now) rows db1 = (Ok tt, db'))
    as (db' & Hrun); [|rewrite (bind_run _ _ _ _ _ Hrun); by eexists _, _].
  clearbody rows. clear Hrec Hk Hdel. revert db1 Hrows.
  induction rows as [|i l IH]; intros db1 Hrows; simpl; [by eexists|].
  apply NoDup_cons in Hnd as [Hni Hnd]. destruct (Hrows i) as (s & Hs & Hds); [by left|].
  destruct (recover_scan_total settings draw now i s db1 Hs Hds) as [db2 Hone].
  rewrite (bind_run _ _ _ _ _ Hone). apply (IH Hnd). intros j Hj.
  destruct (Hrows j) as (sj & Hsj & Hdj); [by right|]. exists sj. split; [|done].
  apply recover_scan_ok in Hone as (s0 & s1 & _ & Hdb2 & _).
  rewrite Hdb2, lookup_insert_ne; [done|congruence].
Qed.

Lemma claim_from_total worker after token now d ids db :
  F64.timedelta_seconds after = Some d →
  ∃ r db', claim_from worker after token now ids db = (Ok r, db')
    ∧ (r = None → ∀ i s, i ∈ ids → scan_runs db !! i = Some s → sc_status s = SQueued →
         due now s = true → sc_cancel_requested s = true).
Proof.
  intros Hd. revert db. induction ids as [|i ids IH]; intros db; simpl.
  { eexists _, _. split; [done|]. by intros _ i s ?%not_elem_of_nil. }
  rewrite bind_gets. destruct (scan_runs db !! i) as [s|] eqn:Hi.
  2: { destruct (IH db) as (r & db' & Hrun & Hnone). exists r, db'. split; [done|].
       intros Hr j sj [->|Hj]%elem_of_cons Hsj; [congruence|by apply (Hnone Hr j)]. }
  destruct (bool_decide (sc_status s = SQueued) && sc_cancel_requested s) eqn:Hc; bools.
  - rewrite (bind_run _ _ _ _ _ (update_scan_run _ _ _)).
    destruct (IH (db <| scan_runs ::= alter (cancel_queued now) i |>))
      as (r & db' & Hrun & Hnone). exists r, db'. split; [done|].
    intros Hr j sj Hj Hsj Hq Hdue. destruct (decide (j = i)) as [->|Hne]; [congruence|].
    apply elem_of_cons in Hj as [|Hj]; [done|].
    apply (Hnone Hr j sj Hj); [|done|done]. cbn -[alter]. by rewrite lookup_alter_ne.
  - unfold timedelta. rewrite bind_get_or_raise, Hd.
    destruct (bool_decide (sc_status s = SQueued) && negb (sc_cancel_requested s) && due now s)
      eqn:Hok; [by eexists _, _|].
    destruct (IH db) as (r & db' & Hrun & Hnone). exists r, db'. split; [done|].
    intros Hr j sj [->|Hj]%elem_of_cons Hsj Hq Hdue; [|by apply (Hnone Hr j)].
    assert (sj = s) as -> by congruence. rewrite Hdue, andb_true_r in Hok.
    rewrite bool_decide_eq_true_2 in Hok by done. simpl in Hok. by apply negb_false_iff in Hok.
Qed.

End totality.
