(* ===== verification/ScanWorkerTheorems.v ===== *)
(** * ScanWorkerTheorems: the guarantees of the scan queue

    The theorems about services/scan_worker.py, each with a run that meets its
    hypotheses. *)
From S2P Require Import Prelude Binary64 Schema ScanLeases CostControls OpportunityReview.
From S2P Require Import ScanWorker ScanWorkerProofs.

Section theorems.
Context {USD : Type} `{Amount USD}.
Implicit Types (db : Db USD) (settings : Settings USD) (s : ScanRun)
  (lease : ScanExecutionLease).

(** C4: a scan is never attempted more often than allowed: in every interleaving
    of claims, heartbeats, recoveries, pipeline failures, completions and requests for new
    scans and retries that starts with an empty queue, each scan is claimed at most as many
    times as its maximum number of attempts; and for a scan that does not retry another one
    the retry counter stays within that maximum, and below it while the scan can still
    run. *)
Theorem attempts_are_bounded settings db0 cs db i s :
  scan_runs db0 = ∅ → worker_reach settings db0 cs db → scan_runs db !! i = Some s →
  claims i cs ≤ attempts_allowed settings s
  ∧ (sc_source_scan_run_id s = None →
     sc_retry_count s ≤ attempts_allowed settings s
     ∧ (active_status (sc_status s) = true → sc_retry_count s < attempts_allowed settings s)).
Proof.
  intros H0 Hreach Hi. assert (queue_inv settings cs db) as [Hrows _].
  { clear Hi. induction Hreach as [|cs c db1 db2 _ IH Hstep].
    - split; intros j; rewrite H0; [by rewrite lookup_empty|done].
    - by eapply step_inv. }
  destruct (Hrows i s Hi) as [H1 _ _ _ _ H6]. split; [done|]. intros Hs. destruct (H6 Hs). auto.
Qed.

(** When the lease duration is representable, a claim returns; a scan it hands
    out was queued, due and not asked to stop, its row now carries the worker's
    fresh token, so that the new lease is current until it expires and any
    other lease of the scan is not; nothing else changes but queued scans whose
    cancellation was requested, which are cancelled.  It returns nothing only
    when every candidate was such a cancelled scan. *)
Theorem claim_hands_out_a_fresh_lease worker after token now d db :
  F64.timedelta_seconds after = Some d →
  ∃ r db', claim_next_scan worker after token now db = (Ok r, db')
    ∧ sweeps now r db db'
    ∧ match r with
      | Some l =>
          lease_worker_id l = worker ∧ lease_token l = token (lease_scan_id l)
          ∧ (∃ s, scan_runs db !! lease_scan_id l = Some s ∧ claimable now s = true
               ∧ sc_cancel_requested s = false
               ∧ scan_runs db' !! lease_scan_id l
                 = Some (claimed worker (token (lease_scan_id l)) now d s))
          ∧ (∀ t, t < now + d → holds_lease db' l t)
          ∧ (∀ l' t, lease_scan_id l' = lease_scan_id l → holds_lease db' l' t →
               lease_worker_id l' = worker ∧ lease_token l' = lease_token l)
      | None =>
          ∀ i s, i ∈ take 10 (select (λ _ s, claimable now s) (scan_runs db)).*1 →
            scan_runs db !! i = Some s → sc_cancel_requested s = true
      end.
Proof.
  intros Hd. unfold claim_next_scan. rewrite bind_gets.
  set (rows := select (λ _ s, claimable now s) (scan_runs db)). set (ids := take 10 rows.*1).
  assert (∀ i s, i ∈ ids → scan_runs db !! i = Some s → claimable now s = true) as Hids.
  { intros i s Hin Hi. apply elem_of_take in Hin as (k & Hk & _).
    apply list_elem_of_lookup_2, list_elem_of_fmap in Hk as ([j s'] & -> & [Hj Hc]%elem_of_select).
    simpl in *. by simplify_eq. }
  destruct (claim_from_total worker after token now d ids db Hd) as (r & db' & Hrun & Hnone).
  exists r, db'. split; [done|]. apply claim_from_ok in Hrun as [Hsw Hcl].
  split; [done|]. destruct r as [l|].
  - destruct (Hcl l eq_refl) as (Hw & Ht & Hin & s & d' & Hd' & Hs & Hq & Hc & Hdue & Hs').
    assert (d' = d) as -> by congruence.
    split; [done|]. split; [done|]. split; [|split].
    + exists s. split; [done|]. split; [by eapply Hids|done].
    + intros t Hlt. eexists _, (now + d). split; [exact Hs'|].
      split; [done|]. split; [cbn; by rewrite Hw|]. split; [cbn; by rewrite Ht|done].
    + intros l' t Heq (s' & e & Hs1 & _ & Hw1 & Ht1 & _). rewrite Heq, Hs' in Hs1.
      injection Hs1 as <-. cbn in Hw1, Ht1. rewrite Ht. by simplify_eq.
  - intros i s Hin Hi. pose proof (Hids i s Hin Hi) as Hc.
    unfold claimable in Hc. bools. by apply (Hnone eq_refl i).
Qed.

(** The recovery returns (when the retry delays are representable), every
    running scan of the queue whose lease expired or whose worker stopped
    renewing it is cancelled, requeued for another attempt, or quarantined
    after the last one, and loses its lease; no such scan is left; every other
    scan, in particular one with a live lease and a recent heartbeat, is
    untouched. *)
Theorem recovery_is_complete_and_safe settings after draw now d db :
  F64.timedelta_seconds after = Some d →
  (∀ i s, scan_runs db !! i = Some s →
     is_Some (delay_of settings (draw i) (sc_retry_count s + 1))) →
  ∃ n db', recover_stale_scans settings after draw now db = (Ok n, db')
    ∧ (∀ i s, scan_runs db !! i = Some s →
         if stale_scan (now - d) now s
         then ∃ s', scan_runs db' !! i = Some s' ∧ recovered settings s s'
                ∧ sc_lease_token s' = None
         else scan_runs db' !! i = Some s)
    ∧ (∀ i s, scan_runs db' !! i = Some s → stale_scan (now - d) now s = false)
    ∧ (∀ i s e h, scan_runs db !! i = Some s → sc_lease_expires_at s = Some e →
         sc_heartbeat_at s = Some h → now ≤ e → now - d ≤ h →
         scan_runs db' !! i = Some s).
Proof.
  intros Hd Hdel. destruct (recover_total settings after draw now d db Hd Hdel) as (n & db' & Hrun).
  exists n, db'. split; [done|].
  destruct (recover_ok _ _ _ _ _ _ _ Hrun) as (d' & Hd' & Hsome & Habs).
  assert (d' = d) as -> by congruence.
  assert (∀ s s', recovered settings s s' → sc_lease_token s' = None) as Htok.
  { intros s s' [(_ & _ & _ & _ & ? & _)|(s1 & _ & ->)]; done. }
  assert (∀ s s', recovered settings s s' → sc_status s' ≠ SRunning) as Hnr.
  { intros s s' [(_ & -> & _)|(s1 & [_ _ _ _ _ Hst] & ->)]; [done|].
    cbn. destruct Hst as [[_ ->]|(_ & -> & _)]; done. }
  split; [|split].
  - intros i s Hi. specialize (Hsome i s Hi). case_match; [|done].
    destruct Hsome as (s' & Hs' & Hr). exists s'. eauto.
  - intros i s' Hs'. destruct (scan_runs db !! i) as [s|] eqn:Hi.
    + specialize (Hsome i s Hi). destruct (stale_scan (now - d) now s) eqn:Hst; [|congruence].
      destruct Hsome as (s1 & Hs1 & Hr). assert (s1 = s') as -> by congruence.
      unfold stale_scan. rewrite (bool_decide_eq_false_2 (sc_status s' = _)) by by eapply Hnr.
      by rewrite andb_false_r.
    + by rewrite (Habs i Hi) in Hs'.
  - intros i s e h Hi He Hh Hle Hlh. specialize (Hsome i s Hi).
    assert (stale_scan (now - d) now s = false) as Hst; [|by rewrite Hst in Hsome].
    unfold stale_scan. rewrite He, Hh. simpl.
    rewrite (proj2 (Z.ltb_ge e now)), (proj2 (Z.ltb_ge h (now - d))) by lia. simpl.
    by rewrite andb_false_r.
Qed.

(** C39: a worker whose scan was claimed again is fenced off, even when the same worker
    claimed it: once another lease was handed out, and whatever transactions of the queue run
    after that, the heartbeat of the old lease reports the loss, it starts nothing, it cannot
    enter a stage, its check before a paid call fails, and finalizing changes nothing; no
    row is written.  Tokens are uuids: no later claim hands out the old one.  The failure
    handlers of the pipeline do not look at the lease and are not among these operations. *)
Theorem stale_worker_is_fenced settings lease successor worker after0 token now0 db0 db1 db after d draw error stage now :
  claim_next_scan worker after0 token now0 db0 = (Ok (Some successor), db1) →
  lease_scan_id successor = lease_scan_id lease → lease_token successor ≠ lease_token lease →
  rtc (later settings lease) db1 db →
  F64.timedelta_seconds after = Some d →
  heartbeat lease after now db = (Ok false, db)
  ∧ begin_scan lease now db = (Ok None, db)
  ∧ set_stage lease stage now db = (Raise ScanLeaseLost, db)
  ∧ assert_current_scan_lease lease now db = (Raise ScanLeaseLost, db)
  ∧ finish_scan settings draw lease error now db = (Ok tt, db).
Proof.
  intros Hclaim Hi Hne Hlater Hd.
  assert (superseded lease db) as Hs.
  { apply (claim_supersedes lease) in Hclaim; [|done..]. clear Hi Hne Hd.
    induction Hlater as [|x y z Hstep _ IH]; [done|]. apply IH. by eapply later_superseded. }
  pose proof Hs as (s & Hrow & Ht). pose proof (superseded_matches _ _ _ Hs Hrow) as Hm.
  assert (_owns s lease = false) as Ho by (unfold _owns; by rewrite Hm, andb_false_r).
  assert (assert_current_scan_lease lease now db = (Raise ScanLeaseLost, db)) as Ha.
  { destruct (assert_lease_run db lease now) as [[(s' & e & Hs' & _ & _ & Ht' & _) _]|[_ Ha]]; [|done]. congruence. }
  unfold heartbeat, begin_scan, set_stage, finish_scan, timedelta.
  by rewrite bind_get_or_raise, Hd, !bind_gets, Hrow, ?Ho, ?Hm.
Qed.

(** After a failed run the worker that still holds the lease gives the scan
    back exactly as the policy says: a retryable error queues it for a later
    attempt or, at the last one, quarantines it; any other error leaves it
    failed.  In each case the lease is cleared. *)
Theorem failed_scan_is_retried_or_quarantined settings draw lease e message now s db :
  scan_runs db !! lease_scan_id lease = Some s → _lease_matches s lease = true →
  sc_status s = SFailed →
  is_Some (delay_of settings draw (sc_retry_count s + 1)) →
  ∃ s' db', finish_scan settings draw lease (Some (e, message)) now db = (Ok tt, db')
    ∧ scan_runs db' = <[lease_scan_id lease := s']> (scan_runs db)
    ∧ sc_lease_token s' = None ∧ sc_worker_id s' = None
    ∧ if is_retryable_error e
      then sc_retry_count s' = sc_retry_count s + 1
           ∧ sc_status s' = (if attempts_allowed settings s <=? sc_retry_count s + 1
                             then SQuarantined else SQueued)
      else sc_status s' = SFailed ∧ sc_retry_count s' = sc_retry_count s.
Proof.
  intros Hs Hm Hf Hdel. set (i := lease_scan_id lease) in *.
  unfold finish_scan. rewrite bind_gets. fold i. rewrite Hs, Hm, Hf.
  rewrite bool_decide_eq_true_2 by done. cbn [when].
  assert (∀ db1 s1, scan_runs db1 = <[i := s1]> (scan_runs db) →
    terminal_status (sc_status s1) || bool_decide (sc_status s1 = SQueued) = true →
    ∃ db', (get_scan i ≫= λ s, when (terminal_status (sc_status s)
              || bool_decide (sc_status s = SQueued)) (update_scan i _clear_lease)) db1
           = (Ok tt, db') ∧ scan_runs db' = <[i := _clear_lease s1]> (scan_runs db)) as Hclear.
  { intros db1 s1 Hdb1 Hst. unfold get_scan. rewrite bind_get_or_raise, Hdb1, lookup_insert_eq.
    rewrite Hst. cbn [when]. eexists. split; [done|]. cbn -[alter insert]. rewrite Hdb1.
    rewrite (alter_as_insert _ _ i s1) by apply lookup_insert_eq. apply insert_insert_eq. }
  destruct (is_retryable_error e).
  - destruct (retry_total settings draw i message now (failed_stage_of s) s db Hs Hdel)
      as [db1 Hr]. rewrite (bind_run _ _ _ _ _ Hr).
    apply retry_ok in Hr as (s0 & s1 & Hs0 & Hdb1 & [Hc Hmax _ _ _ Hst]).
    assert (s0 = s) as -> by congruence.
    destruct (Hclear db1 s1 Hdb1) as (db' & Hrun & Hdb').
    { destruct Hst as [[_ ->]|(_ & -> & _)]; done. }
    exists (_clear_lease s1), db'. do 4 (split; [done|]). split; [done|].
    cbn. rewrite Hc in Hst. destruct Hst as [[Hle ->]|(Hlt & -> & _)].
    + by rewrite (proj2 (Z.leb_le _ _) Hle).
    + by rewrite (proj2 (Z.leb_gt _ _) Hlt).
  - rewrite (bind_run _ _ _ _ _ (update_scan_run _ _ _)).
    match goal with |- context [alter ?f i] => set (g := f) end.
    destruct (Hclear (db <| scan_runs ::= alter g i |>) (g s)) as (db' & Hrun & Hdb');
      [by apply alter_as_insert|cbn; by rewrite Hf|].
    exists (_clear_lease (g s)), db'. do 4 (split; [done|]). done.
Qed.
End theorems.

(** ** A queue at work

    One scan with three attempts: worker A claims it and dies, the recovery
    queues it again, worker B claims it and fails with a rate limit. *)
Module QueueRun.
Definition settings : Settings Z := {|
  allow_live_api_calls := true;
  allow_production_dataforseo := false;
  paid_call_kill_switch := false;
  allow_full_scans := false;
  scan_worker_max_attempts := 3;
  scan_worker_retry_base_seconds := F64.of_Z 30;
  scan_worker_retry_max_seconds := F64.of_Z 900;
  scan_worker_stale_after_seconds := F64.of_Z 120;
  scan_worker_long_running_seconds := F64.of_Z 1800;
  production_daily_request_limit := 100;
  production_daily_spend_usd := 1000000;
  testing_daily_spend_usd := 60000;
  single_call_abnormal_cost_usd := 100000;
  unexpected_call_breaker_threshold := 3;
  provider_failure_rate_threshold := F64.div (F64.of_Z 1) (F64.of_Z 4);
  schema_drift_rate_threshold := F64.div (F64.of_Z 1) (F64.of_Z 10);
  circuit_breaker_minimum_requests := 5;
  billing_reconciliation_max_age_hours := 30
|}.

Definition sec (n : Z) : Z := n * 1000000.

Definition scan : ScanRun := {|
  sc_opportunity_id := Some 1; sc_source := "manual_async"; sc_status := SQueued;
  sc_started_at := None; sc_completed_at := None; sc_error_summary := None;
  sc_request_parameters := ∅; sc_data_mode := "live"; sc_scan_profile := "light";
  sc_source_scan_run_id := None; sc_progress_stage := "queued"; sc_partial_outputs := ∅;
  sc_retry_count := 0; sc_max_attempts := 3; sc_next_attempt_at := None;
  sc_cancel_requested := false; sc_worker_id := None; sc_lease_token := None;
  sc_claimed_at := None; sc_heartbeat_at := None; sc_lease_expires_at := None;
  sc_quarantined_at := None; sc_quarantine_reason := None
|}.

Definition opportunity : Opportunity := {|
  opp_service_family_id := 1; opp_market_id := 1; opp_status := "testing_running";
  opp_latest_score := None; opp_score_version := None; opp_confidence := None;
  opp_missing_data_flags := []; opp_approved_at := None; opp_owner_user_id := None;
  opp_review_version := 1
|}.

Definition db0 : Db Z := empty_db <| opportunities := {[1 := opportunity]} |>.
Definition queued : Db Z := db0 <| scan_runs := <[next_id (scan_runs db0) := scan]> (scan_runs db0) |>.
Definition lease_seconds : binary64 := F64.of_Z 120.
Definition claimed_a := claim_next_scan "a" lease_seconds (λ _, "token-a"%string) (sec 10) queued.
Definition lease_a : ScanExecutionLease :=
  {| lease_scan_id := 1; lease_worker_id := "a"; lease_token := "token-a" |}.
Definition recovered_a :=
  recover_stale_scans settings lease_seconds (λ _, half) (sec 500) claimed_a.2.
Definition claimed_b :=
  claim_next_scan "b" lease_seconds (λ _, "token-b"%string) (sec 600) recovered_a.2.
Definition lease_b : ScanExecutionLease :=
  {| lease_scan_id := 1; lease_worker_id := "b"; lease_token := "token-b" |}.
Definition failed_b := pipeline_failed 1 1 "rate limited" (sec 610) claimed_b.2.

Lemma claimed_a_run :
  claim_next_scan "a" lease_seconds (λ _, "token-a"%string) (sec 10) queued
  = (Ok (Some lease_a), claimed_a.2).
Proof. apply run_pair. by vm_compute. Qed.
Lemma claimed_b_run :
  claim_next_scan "b" lease_seconds (λ _, "token-b"%string) (sec 600) recovered_a.2
  = (Ok (Some lease_b), claimed_b.2).
Proof. apply run_pair. by vm_compute. Qed.
Lemma recovered_a_run :
  recover_stale_scans settings lease_seconds (λ _, half) (sec 500) claimed_a.2
  = (Ok 1, recovered_a.2).
Proof. apply run_pair. by vm_compute. Qed.

Definition row (db : Db Z) : ScanRun := default scan (scan_runs db !! 1).
Lemma claimed_b_row : scan_runs claimed_b.2 !! 1 = Some (row claimed_b.2).
Proof. by vm_compute. Qed.
Lemma failed_b_row : scan_runs failed_b.2 !! 1 = Some (row failed_b.2).
Proof. by vm_compute. Qed.

Definition beaten_b := heartbeat lease_b lease_seconds (sec 605) claimed_b.2.
Lemma beaten_b_run : beaten_b = (Ok true, beaten_b.2).
Proof. apply run_pair. by vm_compute. Qed.

(** No other scan is queued. *)
Lemma nothing_queued worker after token now : claim_next_scan worker after token now claimed_b.2 = (Ok None, claimed_b.2).
Proof.
  unfold claim_next_scan. rewrite bind_gets. assert (select (λ _ s, claimable now s) (scan_runs claimed_b.2) = []) as ->; [|done].
  assert (scan_runs claimed_b.2 = {[1 := row claimed_b.2]}) as -> by by vm_compute.
  apply elem_of_nil_inv. intros [i s] [Hs Hc]%elem_of_select. apply lookup_singleton_Some in Hs as [_ <-].
  unfold claimable in Hc. by vm_compute in Hc.
Qed.

Lemma beaten_b_later : later settings lease_a claimed_b.2 beaten_b.2.
Proof.
  exists []. split; [exact (ws_heartbeat _ _ _ _ _ _ _ beaten_b_run)|].
  intros worker after token now l Hl. by rewrite nothing_queued in Hl.
Qed.

Lemma worker_history : worker_reach settings db0 [1; 1] claimed_b.2.
Proof.
  apply (wr_step _ _ [1] [1] recovered_a.2).
  2: { exact (ws_claim settings recovered_a.2 "b" lease_seconds (λ _, "token-b"%string)
              (sec 600) lease_b claimed_b.2 claimed_b_run). }
  apply (wr_step _ _ [1] [] claimed_a.2).
  2: { exact (ws_recover settings claimed_a.2 lease_seconds (λ _, half) (sec 500) 1
              recovered_a.2 recovered_a_run). }
  apply (wr_step _ _ [] [1] queued).
  2: { exact (ws_claim settings queued "a" lease_seconds (λ _, "token-a"%string)
              (sec 10) lease_a claimed_a.2 claimed_a_run). }
  apply (wr_step _ _ [] [] db0 queued); [constructor|].
  by apply (ws_enqueue _ _ scan).
Qed.
End QueueRun.

Lemma attempts_are_bounded_witness :
  claims 1 [1; 1] ≤ attempts_allowed QueueRun.settings (QueueRun.row QueueRun.claimed_b.2)
  ∧ claims 1 [1; 1] = 2
  ∧ attempts_allowed QueueRun.settings (QueueRun.row QueueRun.claimed_b.2) = 3.
Proof.
  split; [|split; by vm_compute].
  exact (proj1 (attempts_are_bounded _ _ _ _ _ _ (eq_refl : scan_runs QueueRun.db0 = ∅)
                  QueueRun.worker_history QueueRun.claimed_b_row)).
Defined.

Lemma claim_hands_out_a_fresh_lease_witness :
  F64.timedelta_seconds QueueRun.lease_seconds = Some 120000000
  ∧ ∃ l db', claim_next_scan "a" QueueRun.lease_seconds (λ _, "token-a"%string)
               (QueueRun.sec 10) QueueRun.queued = (Ok (Some l), db')
    ∧ ∀ t, t < QueueRun.sec 10 + 120000000 → holds_lease db' l t.
Proof.
  assert (F64.timedelta_seconds QueueRun.lease_seconds = Some 120000000) as Hd by by vm_compute.
  split; [exact Hd|].
  destruct (claim_hands_out_a_fresh_lease "a" _ (λ _, "token-a"%string) (QueueRun.sec 10) _
              QueueRun.queued Hd) as (r & db' & Hrun & _ & Hr).
  assert (r = Some QueueRun.lease_a) as ->.
  { pose proof QueueRun.claimed_a_run as Ha. congruence. }
  exists QueueRun.lease_a, db'. split; [exact Hrun|]. exact (proj1 (proj2 (proj2 (proj2 Hr)))).
Defined.

Lemma recovery_is_complete_and_safe_witness :
  ∃ n db', recover_stale_scans QueueRun.settings QueueRun.lease_seconds (λ _, half)
             (QueueRun.sec 500) QueueRun.claimed_a.2 = (Ok n, db')
    ∧ ∀ i s, scan_runs db' !! i = Some s →
        stale_scan (QueueRun.sec 500 - 120000000) (QueueRun.sec 500) s = false.
Proof.
  destruct (recovery_is_complete_and_safe QueueRun.settings QueueRun.lease_seconds (λ _, half)
    (QueueRun.sec 500) 120000000 QueueRun.claimed_a.2) as (n & db' & Hrun & _ & Hnone & _).
  - by vm_compute.
  - assert (scan_runs QueueRun.claimed_a.2 = {[1 := QueueRun.row QueueRun.claimed_a.2]}) as ->
      by by vm_compute.
    intros i s [<- <-]%lookup_singleton_Some. vm_compute. by eexists.
  - exists n, db'. split; [exact Hrun|exact Hnone].
Defined.

(** A is recovered, the scan is claimed by B, and B's heartbeat runs before A wakes up. *)
Lemma stale_worker_is_fenced_witness :
  heartbeat QueueRun.lease_a QueueRun.lease_seconds (QueueRun.sec 620) QueueRun.beaten_b.2 = (Ok false, QueueRun.beaten_b.2)
  ∧ finish_scan QueueRun.settings half QueueRun.lease_a (Some (TimeoutError, "timeout"%string))
      (QueueRun.sec 620) QueueRun.beaten_b.2 = (Ok tt, QueueRun.beaten_b.2).
Proof.
  assert (F64.timedelta_seconds QueueRun.lease_seconds = Some 120000000) as Hd by by vm_compute.
  destruct (stale_worker_is_fenced QueueRun.settings QueueRun.lease_a QueueRun.lease_b "b" QueueRun.lease_seconds
    (λ _, "token-b"%string) (QueueRun.sec 600) QueueRun.recovered_a.2 QueueRun.claimed_b.2 QueueRun.beaten_b.2
    QueueRun.lease_seconds 120000000 half (Some (TimeoutError, "timeout"%string)) "planning" (QueueRun.sec 620)
    QueueRun.claimed_b_run eq_refl ltac:(discriminate) (rtc_once _ _ QueueRun.beaten_b_later) Hd) as (Hh & _ & _ & _ & Hf).
  exact (conj Hh Hf).
Defined.

Lemma failed_scan_is_retried_or_quarantined_witness :
  ∃ s' db', finish_scan QueueRun.settings half QueueRun.lease_b
              (Some (DataForSEORateLimitError, "rate limited"%string))
              (QueueRun.sec 620) QueueRun.failed_b.2 = (Ok tt, db')
    ∧ scan_runs db' !! 1 = Some s' ∧ sc_status s' = SQueued ∧ sc_retry_count s' = 2.
Proof.
  destruct (failed_scan_is_retried_or_quarantined QueueRun.settings half QueueRun.lease_b
    DataForSEORateLimitError "rate limited" (QueueRun.sec 620) (QueueRun.row QueueRun.failed_b.2)
    QueueRun.failed_b.2) as (s' & db' & Hrun & Hdb & _ & _ & Hc & Hs).
  - exact QueueRun.failed_b_row.
  - by vm_compute.
  - by vm_compute.
  - vm_compute. by eexists.
  - exists s', db'. split; [exact Hrun|]. split; [rewrite Hdb; apply lookup_insert_eq|].
    split; [rewrite Hs; by vm_compute|rewrite Hc; by vm_compute].
Defined.

(** ** What the pipeline's handlers do not check

    The handlers of services/scanner.py write the outcome of a failed run
    without looking at the lease: worker A, whose scan was recovered and claimed
    by B, still marks B's running scan as failed. *)
Module LateFailure.
Import QueueRun.
Definition failed_a := pipeline_failed 1 1 "connection reset" (sec 605) claimed_b.2.

Lemma late_failure_overwrites_new_run :
  failed_a.1 = Ok tt
  ∧ sc_status (row claimed_b.2) = SRunning ∧ sc_lease_token (row claimed_b.2) = Some "token-b"%string
  ∧ sc_status (row failed_a.2) = SFailed ∧ sc_lease_token (row failed_a.2) = Some "token-b"%string
  ∧ heartbeat lease_b lease_seconds (sec 606) failed_a.2 = (Ok false, failed_a.2).
Proof. split_and!; by vm_compute. Qed.

(** An error raised before the pipeline's own handler runs leaves the scan
    running: the final block changes neither its status nor its lease, and the
    scan comes back through the recovery even though the error is not
    retryable. *)
Lemma early_error_leaves_scan_running :
  is_retryable_error ConfigurationError = false
  ∧ sc_status (row (finish_scan settings half lease_b
      (Some (ConfigurationError, "no credentials"%string)) (sec 605) claimed_b.2).2) = SRunning
  ∧ sc_lease_token (row (finish_scan settings half lease_b
      (Some (ConfigurationError, "no credentials"%string)) (sec 605) claimed_b.2).2)
    = Some "token-b"%string.
Proof. split_and!; by vm_compute. Qed.
End LateFailure.
