(* ===== verification/ProviderOperations.v ===== *)
(** * ProviderOperations: routing profiles and provider assignments

    [ProviderOperationsService] of lead_routing/services.py: which provider
    serves a property.  A property has a routing profile and any number of
    assignments, of which at most one is active; assignments move through a
    small state machine whose last states are final. *)
From S2P Require Import Prelude Binary64 Schema OpportunityReview.

Definition _ALLOWED_TRANSITIONS (s : ProviderAssignmentStatus) : list ProviderAssignmentStatus :=
  match s with
  | candidate => [pilot; terminated]
  | pilot => [active; paused; terminated]
  | active => [paused; terminated; replaced]
  | paused => [active; terminated; replaced]
  | terminated => []
  | replaced => []
  end.

Definition final_status (s : ProviderAssignmentStatus) : bool :=
  match s with terminated | replaced => true | _ => false end.

Definition assignment_status_value (s : ProviderAssignmentStatus) : string :=
  match s with
  | candidate => "candidate" | pilot => "pilot" | active => "active"
  | paused => "paused" | terminated => "terminated" | replaced => "replaced"
  end.

Definition assignment_err (code : string) : exn := ProviderAssignmentError code.

(** [except OpportunityReviewError as exc: raise ProviderAssignmentError(exc.code)] *)
Definition as_assignment_error (e : exn) : exn :=
  match e with OpportunityReviewError code => ProviderAssignmentError code | e => e end.

(** ** What the review promises to the code that turns an opportunity into a
    property: the check only reads, and it passes exactly for an existing
    opportunity in the approved state. *)
Class PropertyApprovalGate {USD : Type} (require : Z → Session USD Opportunity) : Prop := {
  approval_reads i :: ReadOnly (require i);
  approval_passes i db o db' :
    require i db = (Ok o, db') ↔
    opportunities db !! i = Some o ∧ canonical (opp_status o) = Some approved_for_property
    ∧ db' = db
}.

Section operations.
Context {USD : Type}.
Implicit Types db : Db USD.

Definition update_assignment (i : Z) (f : ProviderAssignment → ProviderAssignment)
    : Session USD unit :=
  modify (λ db, db <| provider_assignments ::= alter f i |>).

Definition update_profile (p : string) (f : RoutingProfile → RoutingProfile)
    : Session USD unit :=
  modify (λ db, db <| routing_profiles ::= alter f p |>).

(** [_profile] *)
Definition _profile (property_id : string) db : option RoutingProfile :=
  routing_profiles db !! property_id.

Definition active_in (property_id : string) (a : ProviderAssignment) : bool :=
  bool_decide (as_property_id a = property_id) && bool_decide (as_status a = active).

(** [_active_assignment] *)
Definition _active_assignment (property_id : string) db : option (Z * ProviderAssignment) :=
  select_first (λ _ a, active_in property_id a) (provider_assignments db).

Section profiles.
Context (require_approval : Z → Session USD Opportunity).

Definition create_routing_profile (property_id : string) (opportunity_id : Z)
    (public_tracking_number public_contact_email : option string)
    (recording_approved : bool) (recording_retention_days : option Z)
    : Session USD RoutingProfile :=
  gets (_profile property_id) ≫= λ existing,
  match existing with
  | Some p =>
      raise_if (negb (bool_decide (rp_opportunity_id p = opportunity_id)))
        (assignment_err "property_opportunity_is_immutable") ≫= λ _,
      mret p
  | None =>
      reraise as_assignment_error (require_approval opportunity_id) ≫= λ _,
      raise_if (recording_approved && bool_decide (recording_retention_days = None))
        (assignment_err "recording_requires_retention") ≫= λ _,
      let p := {| rp_opportunity_id := opportunity_id;
                  rp_public_tracking_number := public_tracking_number;
                  rp_public_contact_email := public_contact_email;
                  rp_recording_approved := recording_approved;
                  rp_recording_retention_days := recording_retention_days;
                  rp_call_adapter_name := None; rp_call_provider_route_id := None;
                  rp_routing_health_status := None; rp_routing_health_checked_at := None;
                  rp_active := true |} in
      modify (λ db, db <| routing_profiles ::= insert property_id p |>) ≫= λ _,
      mret p
  end.
End profiles.

(** The keyword arguments of [create_assignment]. *)
Record AssignmentInput : Type := {
  in_property_id : string;
  in_public_business_name : string;
  in_provider_candidate_id : option Z;
  in_destination_phone : option string;
  in_destination_email : option string;
  in_coverage : dict;
  in_response_expectation_minutes : option Z;
  in_lead_acceptance_required : bool
}.

Definition new_assignment (r : AssignmentInput) : ProviderAssignment := {|
  as_property_id := in_property_id r;
  as_provider_candidate_id := in_provider_candidate_id r;
  as_status := candidate;
  as_public_business_name := in_public_business_name r;
  as_destination_phone := in_destination_phone r;
  as_destination_email := in_destination_email r;
  as_coverage := in_coverage r;
  as_response_expectation_minutes := in_response_expectation_minutes r;
  as_lead_acceptance_required := in_lead_acceptance_required r;
  as_agreement_started_at := None; as_agreement_ended_at := None;
  as_active_from := None; as_active_until := None;
  as_termination_reason := None; as_replaced_assignment_id := None;
  as_claims_reviewed_by := None; as_claims_reviewed_at := None;
  as_activation_approved_by := None; as_activation_reason := None;
  as_replacement_approved_by := None;
  as_logo_asset_id := None; as_hours := []; as_service_radius := [];
  as_credentials := JList []; as_license_numbers := JList [];
  as_approved_claims := JList []; as_attributed_testimonials := JList [];
  as_provider_photos := []; as_claims_review_reason := None
|}.

Definition create_assignment (r : AssignmentInput) : Session USD Z :=
  raise_if (bool_decide (in_destination_phone r = None)
            && bool_decide (in_destination_email r = None))
    (assignment_err "assignment_requires_destination") ≫= λ _,
  get_or_raise (_profile (in_property_id r)) (assignment_err "routing_profile_not_found")
  ≫= λ _,
  gets (λ db, next_id (provider_assignments db)) ≫= λ i,
  modify (λ db, db <| provider_assignments ::= insert i (new_assignment r) |>) ≫= λ _,
  mret i.

(** [x or timestamp] *)
Definition or_now (t : option Z) (now : Z) : option Z :=
  match t with Some t => Some t | None => Some now end.

Definition activate_row (now : Z) (a : ProviderAssignment) : ProviderAssignment :=
  a <| as_active_from ::= λ t, or_now t now |>
    <| as_agreement_started_at ::= λ t, or_now t now |>.

Definition end_row (reason : option string) (now : Z) (a : ProviderAssignment)
    : ProviderAssignment :=
  a <| as_termination_reason := reason |> <| as_active_until := Some now |>
    <| as_agreement_ended_at := Some now |>.

Definition assignment_transition (i : Z) (target : ProviderAssignmentStatus)
    (reason : option string) (now : Z) : Session USD unit :=
  get_or_raise (λ db, provider_assignments db !! i) (assignment_err "assignment_not_found")
  ≫= λ a,
  if bool_decide (target = as_status a) then mret tt
  else
    raise_if (negb (bool_decide (target ∈ _ALLOWED_TRANSITIONS (as_status a))))
      (assignment_err ("invalid_assignment_transition:"
         +:+ assignment_status_value (as_status a) +:+ ":"
         +:+ assignment_status_value target)) ≫= λ _,
    when (bool_decide (target = active))
      (gets (_active_assignment (as_property_id a)) ≫= λ current,
       raise_if (match current with Some (j, _) => negb (j =? i) | None => false end)
         (assignment_err "property_already_has_active_assignment") ≫= λ _,
       update_assignment i (activate_row now)) ≫= λ _,
    when (final_status target)
      (raise_if (negb (opt_truthy reason))
         (assignment_err "terminal_transition_requires_reason") ≫= λ _,
       update_assignment i (end_row reason now)) ≫= λ _,
    update_assignment i (λ a, a <| as_status := target |>).

Definition replace_assignment (i j : Z) (reason : string) (now : Z) : Session USD unit :=
  gets (λ db, provider_assignments db !! i) ≫= λ current,
  gets (λ db, provider_assignments db !! j) ≫= λ replacement,
  match current, replacement with
  | Some c, Some r =>
      raise_if (negb (bool_decide (as_property_id c = as_property_id r)))
        (assignment_err "replacement_property_mismatch") ≫= λ _,
      raise_if (negb (bool_decide (as_status c = active)))
        (assignment_err "replacement_requires_active_assignment") ≫= λ _,
      assignment_transition i replaced (Some reason) now ≫= λ _,
      update_assignment j (λ a, a <| as_replaced_assignment_id := Some i |>) ≫= λ _,
      get_or_raise (λ db, provider_assignments db !! j) (assignment_err "assignment_not_found")
      ≫= λ r,
      when (bool_decide (as_status r = candidate)) (assignment_transition j pilot None now)
      ≫= λ _,
      assignment_transition j active None now
  | _, _ => raise (assignment_err "assignment_not_found")
  end.

(** The answers of the call-tracking adapter. *)
Record CallRouteResult : Type := { route_id : string; route_status : string }.
Record RoutingHealth : Type := {
  health_healthy : bool; health_status : string; health_checked_at : Z
}.

(** [adapter] is the name of the call-tracking adapter and [result] what its
    [configure_route] returned. *)
Definition configure_call_routing (property_id adapter : string) (result : CallRouteResult)
    (now : Z) : Session USD string :=
  gets (_profile property_id) ≫= λ profile,
  gets (_active_assignment property_id) ≫= λ assignment,
  match profile, assignment with
  | Some p, Some (_, a) =>
      raise_if (bool_decide (rp_public_tracking_number p = None)
                || bool_decide (as_destination_phone a = None))
        (assignment_err "phone_route_not_configured") ≫= λ _,
      update_profile property_id (λ p,
        p <| rp_call_adapter_name := Some adapter |>
          <| rp_call_provider_route_id := Some (route_id result) |>
          <| rp_routing_health_status := Some (route_status result) |>
          <| rp_routing_health_checked_at := Some now |>) ≫= λ _,
      mret (route_id result)
  | _, _ => raise (assignment_err "active_route_not_found")
  end.

Definition check_call_routing_health (property_id : string) (health : RoutingHealth)
    : Session USD bool :=
  get_or_raise (_profile property_id) (assignment_err "routing_profile_not_found") ≫= λ _,
  update_profile property_id (λ p,
    p <| rp_routing_health_status := Some (health_status health) |>
      <| rp_routing_health_checked_at := Some (health_checked_at health) |>) ≫= λ _,
  mret (health_healthy health).
End operations.
