(* ===== verification/ProviderOperationsProofs.v ===== *)
(** * ProviderOperationsProofs: one provider at a time

    The assignment state machine is exactly the table of the service, a property
    never has two active assignments, the final states are final, and a
    replacement hands a property over in one step. *)
From S2P Require Import Prelude Binary64 Schema OpportunityReview OpportunityReviewProofs.
From S2P Require Import ProviderOperations.

(** The review discharges the gate. *)
#[export] Instance review_gate {USD : Type} :
  PropertyApprovalGate (require_property_approval (USD := USD)).
Proof.
  split.
  - intros i. unfold require_property_approval, _opportunity, canonical_state. apply _.
  - intros i db o db'. unfold require_property_approval, _opportunity, canonical_state.
    rewrite bind_get_or_raise. destruct (opportunities db !! i) as [o'|]; [|naive_solver].
    rewrite bind_get_or_raise. destruct (canonical (opp_status o')) as [s|] eqn:Hs.
    + rewrite bind_raise_if. case_bool_decide as Hc; cbn [negb].
      * subst s. split; [intros [= <- <-]; done|]. intros ([= <-] & _ & ->). done.
      * split; [done|]. intros ([= <-] & Hs' & _). congruence.
    + split; [done|]. intros ([= <-] & Hs' & _). congruence.
Qed.

Section transitions.
Context {USD : Type}.
Implicit Types (db : Db USD) (a : ProviderAssignment).

(** The row after a transition. *)
Definition moved (target : ProviderAssignmentStatus) (reason : option string) (now : Z) a
    : ProviderAssignment :=
  let a := if bool_decide (target = active) then activate_row now a else a in
  let a := if final_status target then end_row reason now a else a in
  a <| as_status := target |>.

(** What a transition requires. *)
Definition may_move (i : Z) (target : ProviderAssignmentStatus) (reason : option string) a db
    : bool :=
  bool_decide (target ∈ _ALLOWED_TRANSITIONS (as_status a))
  && (negb (bool_decide (target = active))
      || match _active_assignment (as_property_id a) db with
         | Some (j, _) => j =? i | None => true end)
  && (negb (final_status target) || opt_truthy reason).

Lemma transition_cases i target reason now db :
  match provider_assignments db !! i with
  | None => assignment_transition i target reason now db
            = (Raise (assignment_err "assignment_not_found"), db)
  | Some a =>
      if bool_decide (target = as_status a)
      then assignment_transition i target reason now db = (Ok tt, db)
      else if may_move i target reason a db
      then assignment_transition i target reason now db
           = (Ok tt, db <| provider_assignments ::= alter (moved target reason now) i |>)
      else ∃ e, assignment_transition i target reason now db = (Raise e, db)
  end.
Proof.
  unfold assignment_transition. rewrite bind_get_or_raise.
  destruct (provider_assignments db !! i) as [a|] eqn:Hi; [|done].
  case_bool_decide as Hsame; [done|]. unfold may_move. rewrite bind_raise_if.
  case_bool_decide as Hallowed; cbn [negb]; [|by eexists].
  assert (∀ f g, db <| provider_assignments ::= alter f i |> <| provider_assignments ::= alter g i |>
    = db <| provider_assignments ::= alter (g ∘ f) i |>) as Hfuse.
  { intros f g. unfold set_field; cbn -[alter]. f_equal. apply alter_alter_eq. }
  unfold moved. case_bool_decide as Hact; cbn [when negb orb].
  - subst target. cbn [final_status when]. unfold mbind, M_bind; unfold gets.
    destruct (_active_assignment _ db) as [[j b]|]; cbn [andb].
    + destruct (j =? i); [|by eexists].
      exact (f_equal (pair _) (Hfuse (activate_row now) (λ a, a <| as_status := active |>))).
    + exact (f_equal (pair _) (Hfuse (activate_row now) (λ a, a <| as_status := active |>))).
  - rewrite bind_ret. destruct (final_status target); cbn [when andb negb orb].
    + unfold mbind, M_bind, raise_if. destruct (opt_truthy reason); [|by eexists].
      exact (f_equal (pair _) (Hfuse (end_row reason now) (λ a, a <| as_status := target |>))).
    + by rewrite bind_ret.
Qed.

Lemma transition_ok i target reason now db u db' :
  assignment_transition i target reason now db = (Ok u, db') →
  ∃ a, provider_assignments db !! i = Some a
    ∧ ((target = as_status a ∧ db' = db)
       ∨ (target ≠ as_status a ∧ may_move i target reason a db = true
          ∧ db' = db <| provider_assignments ::= alter (moved target reason now) i |>)).
Proof.
  intros Hrun. pose proof (transition_cases i target reason now db) as Hc.
  destruct (provider_assignments db !! i) as [a|]; [|congruence]. exists a. split; [done|].
  case_bool_decide; [left; split; congruence|]. destruct (may_move i target reason a db).
  - right. split; [done|]. split; congruence.
  - destruct Hc as [e He]. congruence.
Qed.

(** ** At most one active assignment per property *)

Definition one_active db : Prop :=
  ∀ i j a b, provider_assignments db !! i = Some a → provider_assignments db !! j = Some b →
    as_property_id a = as_property_id b → as_status a = active → as_status b = active → i = j.

Lemma active_assignment_Some p db i a :
  _active_assignment p db = Some (i, a) →
  provider_assignments db !! i = Some a ∧ as_property_id a = p ∧ as_status a = active.
Proof.
  intros [Hi Ha]%select_first_Some. unfold active_in in Ha. bools. done.
Qed.

Lemma active_assignment_None p db :
  _active_assignment p db = None →
  ∀ i a, provider_assignments db !! i = Some a → as_property_id a = p → as_status a ≠ active.
Proof.
  unfold _active_assignment. rewrite select_first_None. intros Hn i a Hi Hp Ha.
  specialize (Hn i a Hi). unfold active_in in Hn.
  rewrite !bool_decide_eq_true_2 in Hn by done. done.
Qed.

(** A row whose property stays and that is not newly active keeps the invariant. *)
Definition calmer a a' : Prop :=
  as_property_id a' = as_property_id a ∧ (as_status a' = active → as_status a = active).

Lemma one_active_calmer db db' :
  (∀ i a', provider_assignments db' !! i = Some a' → as_status a' = active →
     ∃ a, provider_assignments db !! i = Some a ∧ calmer a a') →
  one_active db → one_active db'.
Proof.
  intros Hc Hone i j a' b' Hi Hj Hp Ha Hb.
  destruct (Hc i a' Hi Ha) as (a & Hia & Hpa & Haa).
  destruct (Hc j b' Hj Hb) as (b & Hjb & Hpb & Hbb).
  apply (Hone i j a b Hia Hjb); [congruence|auto..].
Qed.

Lemma moved_property target reason now a :
  as_property_id (moved target reason now a) = as_property_id a.
Proof. unfold moved. by case_bool_decide; destruct (final_status target). Qed.
Lemma moved_status target reason now a : as_status (moved target reason now a) = target.
Proof. done. Qed.

Lemma transition_one_active i target reason now db u db' :
  assignment_transition i target reason now db = (Ok u, db') → one_active db → one_active db'.
Proof.
  intros (a & Hi & [[_ ->]|(Hne & Hmay & ->)])%transition_ok Hone; [done|].
  destruct (decide (target = active)) as [->|Hna].
  - (* activation: nobody else is active *)
    assert (∀ j b, provider_assignments db !! j = Some b → as_property_id b = as_property_id a →
      as_status b = active → j = i) as Hothers.
    { intros j b Hj Hp Hb. unfold may_move in Hmay. bools.
      destruct (_active_assignment (as_property_id a) db) as [[k c]|] eqn:Hact.
      - apply active_assignment_Some in Hact as (Hk & Hpk & Hck).
        assert (k = i) as <- by (apply Z.eqb_eq; by destruct (k =? i)).
        apply (Hone j k b c); congruence.
      - by destruct (active_assignment_None _ _ Hact j b Hj Hp). }
    assert (∀ j b, provider_assignments (db <| provider_assignments ::=
        alter (moved active reason now) i |>) !! j = Some b →
      as_property_id b = as_property_id a → as_status b = active → j = i) as Hnew.
    { intros j b. cbn -[alter]. rewrite lookup_alter. case_decide; [done|].
      intros Hj Hp Hb. by eapply Hothers. }
    intros j k b c Hj Hk Hp Hb Hc.
    destruct (decide (as_property_id b = as_property_id a)) as [Heq|Hneq].
    + rewrite (Hnew j b Hj Heq Hb), (Hnew k c Hk); congruence.
    + cbn -[alter] in Hj, Hk. rewrite lookup_alter in Hj, Hk.
      destruct (decide (i = j)) as [<-|]; [|destruct (decide (i = k)) as [<-|]; [|by apply (Hone j k b c)]].
      * rewrite Hi in Hj. cbn in Hj. injection Hj as <-. by rewrite moved_property in Hneq.
      * rewrite Hi in Hk. cbn in Hk. injection Hk as <-. rewrite moved_property in Hp. done.
  - eapply one_active_calmer; [|done]. cbn -[alter]. intros j b. rewrite lookup_alter.
    case_decide as Hj; [|intros Hb Ha; exists b; done].
    subst j. rewrite Hi. cbn. intros [= <-] Ha. by rewrite moved_status in Ha.
Qed.

Lemma create_one_active r db i db' :
  create_assignment r db = (Ok i, db') → one_active db → one_active db'.
Proof.
  unfold create_assignment. intros Hrun. run_inv. apply one_active_calmer.
  cbn -[insert next_id]. intros j b. rewrite lookup_insert. case_decide.
  - intros [= <-]. done.
  - intros Hj _. exists b. done.
Qed.

Lemma update_one_active i f db u db' :
  update_assignment i f db = (Ok u, db') → (∀ a, calmer a (f a)) → one_active db → one_active db'.
Proof.
  intros [= _ <-] Hf. apply one_active_calmer. cbn -[alter]. intros j b Hj _.
  rewrite lookup_alter in Hj. case_decide; [|exists b; done]. subst j.
  destruct (provider_assignments db !! i) as [a|]; [|done]. injection Hj as <-. exists a. auto.
Qed.

Lemma replace_one_active i j reason now db u db' :
  replace_assignment i j reason now db = (Ok u, db') → one_active db → one_active db'.
Proof.
  unfold replace_assignment. rewrite !bind_gets. intros Hrun Hone.
  destruct (provider_assignments db !! i) as [c|], (provider_assignments db !! j) as [r|]; try done.
  rewrite !bind_raise_if in Hrun. repeat (case_match; [done|]).
  apply bind_ok in Hrun as (u1 & db1 & Hm1 & Hrun).
  apply bind_ok in Hrun as (u2 & db2 & Hm2 & Hrun).
  rewrite bind_get_or_raise in Hrun. case_match; [|done].
  apply bind_ok in Hrun as (u3 & db3 & Hm3 & Hrun).
  apply (transition_one_active _ _ _ _ _ _ _ Hm1) in Hone.
  apply (update_one_active _ _ _ _ _ Hm2) in Hone; [|done].
  apply when_ok in Hm3 as [[_ Hm3]|[_ ->]]; eauto using transition_one_active.
Qed.
End transitions.

(** ** Histories of assignments *)
Section histories.
Context {USD : Type}.
Implicit Types (db : Db USD) (a : ProviderAssignment).

(** What decides whether and until when an assignment serves its property. *)
Definition tenure a := (as_property_id a, as_status a, as_termination_reason a,
  as_active_until a, as_agreement_ended_at a).

(** A committed transaction, seen from the assignments table: the operations of
    the service, and changes of other columns or other tables. *)
Inductive assignment_step db db' : Prop :=
| as_create r i : create_assignment r db = (Ok i, db') → assignment_step db db'
| as_transition i target reason now u :
    assignment_transition i target reason now db = (Ok u, db') → assignment_step db db'
| as_replace i j reason now u :
    replace_assignment i j reason now db = (Ok u, db') → assignment_step db db'
| as_annotate i f :
    (∀ a, tenure (f a) = tenure a) →
    provider_assignments db' = alter f i (provider_assignments db) → assignment_step db db'
| as_other : provider_assignments db' = provider_assignments db → assignment_step db db'.

Lemma step_one_active db db' : assignment_step db db' → one_active db → one_active db'.
Proof.
  intros [r i Hrun|i t r now u Hrun|i j r now u Hrun|i f Hf Hdb|Hdb] Hone.
  - by eapply create_one_active.
  - by eapply transition_one_active.
  - by eapply replace_one_active.
  - apply (update_one_active i f db tt (db <| provider_assignments ::= alter f i |>)) in Hone;
      [|done|].
    + intros j k a b. rewrite Hdb. apply Hone.
    + intros a. injection (Hf a) as Hp Hs _ _ _. split; [done|congruence].
  - intros i j a b. rewrite Hdb. apply Hone.
Qed.

(** An assignment that ended stays the way it ended. *)
Definition ended_as i (t : string * ProviderAssignmentStatus * option string * option Z * option Z)
    db : Prop :=
  final_status (t.1.1.1.2) = true ∧ ∃ a, provider_assignments db !! i = Some a ∧ tenure a = t.

Lemma transition_ended i t j target reason now db u db' :
  assignment_transition j target reason now db = (Ok u, db') → ended_as i t db → ended_as i t db'.
Proof.
  intros (a & Hj & [[_ ->]|(Hne & Hmay & ->)])%transition_ok (Hf & b & Hi & Hb); [by split; [|exists b]|].
  split; [done|]. cbn -[alter]. rewrite lookup_alter. case_decide; [|by exists b].
  subst j. assert (b = a) as -> by congruence. unfold may_move in Hmay. bools.
  rewrite <- Hb in Hf. cbn in Hf.
  match goal with H : _ ∈ _ALLOWED_TRANSITIONS _ |- _ => revert H end.
  by destruct (as_status a); try done; intros ?%not_elem_of_nil.
Qed.

Lemma annotate_ended i t j f db db' :
  (∀ a, tenure (f a) = tenure a) →
  provider_assignments db' = alter f j (provider_assignments db) → ended_as i t db → ended_as i t db'.
Proof.
  intros Hf Hdb (Ht & a & Hi & Ha). split; [done|]. rewrite Hdb, lookup_alter.
  case_decide; [|by exists a]. subst j. rewrite Hi. exists (f a). split; [done|].
  by rewrite Hf.
Qed.

Lemma step_ended i t db db' : assignment_step db db' → ended_as i t db → ended_as i t db'.
Proof.
  intros [r j Hrun|j tg r now u Hrun|j k r now u Hrun|j f Hf Hdb|Hdb] Hend.
  - unfold create_assignment in Hrun. run_inv. destruct Hend as (Hf & a & Hi & Ha).
    split; [done|]. exists a. split; [|done]. cbn -[insert next_id].
    rewrite lookup_insert_ne; [done|]. apply next_id_gt in Hi. lia.
  - by eapply transition_ended.
  - unfold replace_assignment in Hrun. rewrite !bind_gets in Hrun.
    destruct (provider_assignments db !! j), (provider_assignments db !! k); try done.
    rewrite !bind_raise_if in Hrun. repeat (case_match; [done|]).
    apply bind_ok in Hrun as (u1 & db1 & Hm1 & Hrun).
    apply bind_ok in Hrun as (u2 & db2 & Hm2 & Hrun).
    rewrite bind_get_or_raise in Hrun. case_match; [|done].
    apply bind_ok in Hrun as (u3 & db3 & Hm3 & Hrun).
    apply (transition_ended i t) in Hm1; [|done].
    apply (annotate_ended i t k (λ a, a <| as_replaced_assignment_id := Some j |>) _ db2) in Hm1;
      [|done|by injection Hm2 as _ <-].
    apply when_ok in Hm3 as [[_ Hm3]|[_ ->]]; eauto using transition_ended.
  - by eapply annotate_ended.
  - destruct Hend as (Hf & a & Hi & Ha). split; [done|]. exists a. by rewrite Hdb.
Qed.
End histories.

(** ** Replacement *)
Section replacement.
Context {USD : Type}.
Implicit Types (db : Db USD) (c r : ProviderAssignment).

Definition can_replace (i j : Z) (reason : string) c r : bool :=
  bool_decide (as_property_id c = as_property_id r) && bool_decide (as_status c = active)
  && negb (i =? j) && str_truthy reason
  && bool_decide (as_status r ∈ [candidate; pilot; paused]).

(** The successor's row. *)
Definition successor (i now : Z) r : ProviderAssignment :=
  moved active None now (r <| as_replaced_assignment_id := Some i |>).

Lemma transition_runs i target reason now db a :
  provider_assignments db !! i = Some a → target ≠ as_status a →
  may_move i target reason a db = true →
  assignment_transition i target reason now db
  = (Ok tt, db <| provider_assignments := <[i := moved target reason now a]> (provider_assignments db) |>).
Proof.
  intros Hi Hne Hmay. pose proof (transition_cases i target reason now db) as Hc.
  rewrite Hi in Hc. rewrite bool_decide_eq_false_2, Hmay in Hc by done. rewrite Hc.
  unfold set_field; cbn -[alter insert]. by rewrite (alter_as_insert _ _ _ _ Hi).
Qed.

Lemma transition_refused i target reason now db a :
  provider_assignments db !! i = Some a → target ≠ as_status a →
  may_move i target reason a db = false →
  ∃ e, assignment_transition i target reason now db = (Raise e, db).
Proof.
  intros Hi Hne Hmay. pose proof (transition_cases i target reason now db) as Hc.
  by rewrite Hi, bool_decide_eq_false_2, Hmay in Hc by done.
Qed.

(** The only active assignment is the one the lookup finds. *)
Lemma active_assignment_unique p db i a :
  one_active db → provider_assignments db !! i = Some a → as_property_id a = p →
  as_status a = active → _active_assignment p db = Some (i, a).
Proof.
  intros Hone Hi Hp Ha. destruct (_active_assignment p db) as [[j b]|] eqn:Hact.
  - apply active_assignment_Some in Hact as (Hj & Hpj & Hb).
    assert (i = j) as <- by by apply (Hone i j a b Hi Hj); [congruence|..]. congruence.
  - by destruct (active_assignment_None _ _ Hact i a Hi Hp).
Qed.

(** Nobody is active once the only active assignment is replaced. *)
Lemma vacated_none p db i c c' :
  one_active db → provider_assignments db !! i = Some c → as_property_id c = p →
  as_status c = active → as_status c' ≠ active →
  ∀ k a, <[i := c']> (provider_assignments db) !! k = Some a → as_property_id a = p →
    as_status a ≠ active.
Proof.
  intros Hone Hi Hp Hc Hc' k a. rewrite lookup_insert. case_decide as Hik.
  - intros [= <-]. done.
  - intros Hk Hpa Ha. apply Hik. apply (Hone i k c a Hi Hk); congruence.
Qed.

Lemma active_None p db :
  (∀ i a, provider_assignments db !! i = Some a → as_property_id a = p → as_status a ≠ active) →
  _active_assignment p db = None.
Proof.
  intros Hn. apply select_first_None. intros i a Hi. unfold active_in.
  case_bool_decide as Hp; [|done]. by rewrite bool_decide_eq_false_2 by eauto.
Qed.

Lemma handover i j reason now db c r :
  one_active db → provider_assignments db !! i = Some c → provider_assignments db !! j = Some r →
  can_replace i j reason c r = true →
  replace_assignment i j reason now db
  = (Ok tt, db <| provider_assignments :=
       <[j := successor i now r]> (<[i := moved replaced (Some reason) now c]> (provider_assignments db)) |>).
Proof.
  intros Hone Hi Hj Hcan. unfold can_replace in Hcan. bools.
  assert (i ≠ j) as Hij by (apply Z.eqb_neq; by destruct (i =? j)).
  rename H into Hp, H3 into Hc, H1 into Hreason, H0 into Hr.
  unfold replace_assignment. rewrite !bind_gets, Hi, Hj, !bind_raise_if.
  rewrite !bool_decide_eq_true_2 by done. cbn [negb].
  rewrite (bind_run _ _ _ _ _ (transition_runs i replaced (Some reason) now db c Hi
    ltac:(by rewrite Hc) ltac:(unfold may_move; rewrite Hc; cbn; by rewrite Hreason))).
  set (db1 := db <| provider_assignments := _ |>).
  set (r1 := r <| as_replaced_assignment_id := Some i |>).
  set (db2 := db1 <| provider_assignments := <[j := r1]> (provider_assignments db1) |>).
  assert (provider_assignments db1 !! j = Some r) as Hj1.
  { cbn -[insert]. by rewrite lookup_insert_ne. }
  rewrite (bind_run _ _ db1 tt db2).
  2: { unfold update_assignment, modify, db2, set_field; cbn -[alter insert].
       by rewrite (alter_as_insert _ _ _ _ Hj1). }
  assert (provider_assignments db2 !! j = Some r1) as Hj2 by apply lookup_insert_eq.
  rewrite bind_get_or_raise, Hj2.
  assert (∀ s db3, as_status s ≠ active → as_property_id s = as_property_id c →
    provider_assignments db3 = <[j := s]> (provider_assignments db1) →
    _active_assignment (as_property_id s) db3 = None) as Hnone.
  { intros s db3 Hs Hps Hdb3. apply active_None. rewrite Hdb3. intros k a Hk Hpa.
    rewrite lookup_insert in Hk. case_decide; [by injection Hk as <-|].
    eapply (vacated_none (as_property_id c)); [exact Hone|exact Hi|done|done| |exact Hk|congruence].
    done. }
  assert (∀ s db3, provider_assignments db3 = <[j := s]> (provider_assignments db1) →
    db3 = db2 <| provider_assignments := provider_assignments db3 |> →
    as_property_id s = as_property_id c → as_status s ≠ active →
    active ∈ _ALLOWED_TRANSITIONS (as_status s) →
    assignment_transition j active None now db3
    = (Ok tt, db2 <| provider_assignments :=
         <[j := moved active None now s]> (provider_assignments db1) |>)) as Hact.
  { intros s db3 Hdb3 Heq Hps Hs Hal.
    rewrite (transition_runs j active None now db3 s).
    - f_equal. rewrite Heq at 1. unfold set_field; cbn -[insert]. f_equal.
      rewrite Hdb3. apply insert_insert_eq.
    - rewrite Hdb3. apply lookup_insert_eq.
    - congruence.
    - unfold may_move. rewrite (bool_decide_eq_true_2 (active ∈ _)) by done.
      by rewrite (Hnone s db3) by done. }
  destruct (bool_decide (as_status r1 = candidate)) eqn:Hcand; bools; cbn [when].
  - rewrite (bind_run _ _ _ _ _ (transition_runs j pilot None now db2 r1 Hj2
      ltac:(by rewrite Hcand) ltac:(unfold may_move; by rewrite Hcand))).
    rewrite (Hact (moved pilot None now r1)); try done.
    + cbn -[insert]. apply insert_insert_eq.
    + left.
  - rewrite bind_ret. rewrite (Hact r1); try done.
    + intros Ha. cbn in Ha. rewrite Ha in Hr. set_solver.
    + cbn in Hcand |- *. rewrite !elem_of_cons, elem_of_nil in Hr.
      destruct Hr as [Hr|[Hr|[Hr|[]]]]; [done|rewrite Hr; left..].
Qed.

(** After the predecessor is replaced, a successor in a final state is refused. *)
Lemma successor_refused j now db a :
  provider_assignments db !! j = Some a → final_status (as_status a) = true →
  ∃ e db', (get_or_raise (λ db, provider_assignments db !! j)
              (assignment_err "assignment_not_found") ≫= λ r,
            when (bool_decide (as_status r = candidate)) (assignment_transition j pilot None now)
            ≫= λ _, assignment_transition j active None now) db = (Raise e, db').
Proof.
  intros Hj Hf. rewrite bind_get_or_raise, Hj.
  rewrite bool_decide_eq_false_2 by (by destruct (as_status a)). cbn [when]. rewrite bind_ret.
  destruct (transition_refused j active None now db a Hj) as [e He]; [by destruct (as_status a)| |].
  - unfold may_move. by destruct (as_status a).
  - eauto.
Qed.

Lemma replacement_refused i j reason now db c r :
  one_active db → provider_assignments db !! i = Some c → provider_assignments db !! j = Some r →
  can_replace i j reason c r = false →
  ∃ e db', replace_assignment i j reason now db = (Raise e, db').
Proof.
  intros Hone Hi Hj Hcan. unfold replace_assignment.
  rewrite !bind_gets, Hi, Hj, !bind_raise_if. unfold can_replace in Hcan.
  case_bool_decide as Hp; cbn [negb]; [|by eexists _, _].
  case_bool_decide as Hc; cbn [negb]; [|by eexists _, _].
  destruct (str_truthy reason) eqn:Hreason; cbn [negb andb] in Hcan.
  2: { destruct (transition_refused i replaced (Some reason) now db c Hi) as [e He].
       - by rewrite Hc.
       - unfold may_move. rewrite Hc. cbn. by rewrite Hreason.
       - exists e, db. by apply bind_raised. }
  rewrite (bind_run _ _ _ _ _ (transition_runs i replaced (Some reason) now db c Hi
    ltac:(by rewrite Hc) ltac:(unfold may_move; rewrite Hc; cbn; by rewrite Hreason))).
  set (c' := moved replaced (Some reason) now c).
  set (r1 := (if i =? j then c' else r) <| as_replaced_assignment_id := Some i |>).
  rewrite (bind_run _ _ _ _ _ (eq_refl : update_assignment j _ _ = _)).
  apply (successor_refused j now _ r1).
  - cbn -[insert alter]. rewrite lookup_alter_eq. unfold r1.
    destruct (Z.eqb_spec i j) as [->|Hij]; [by rewrite lookup_insert_eq|].
    by rewrite lookup_insert_ne, Hj.
  - unfold r1. destruct (Z.eqb_spec i j) as [->|Hij]; [done|]. cbn [negb andb] in Hcan.
    bools. cbn. destruct (as_status r) eqn:Hr; try done; [set_solver..| |set_solver].
    exfalso. apply Hij, (Hone i j c r Hi Hj); done.
Qed.
End replacement.

(** ** The guarantees *)
Section theorems.
Context {USD : Type}.
Implicit Types db : Db USD.

(** C40: a property is served by one provider at a time: whatever sequence of
    creations, transitions, replacements and annotations is committed, a
    property never has two active assignments. *)
Theorem provider_is_exclusive db0 db :
  one_active db0 → rtc assignment_step db0 db → one_active db.
Proof. intros Hone Hr. induction Hr; eauto using step_one_active. Qed.

(** An assignment that was terminated or replaced never comes back: whatever is
    committed later, its row stays in that state, with the reason and the end
    date it was given. *)
Theorem ended_assignment_is_final db db' i a :
  provider_assignments db !! i = Some a → final_status (as_status a) = true →
  rtc assignment_step db db' →
  ∃ a', provider_assignments db' !! i = Some a' ∧ as_status a' = as_status a
    ∧ as_property_id a' = as_property_id a ∧ as_termination_reason a' = as_termination_reason a
    ∧ as_active_until a' = as_active_until a.
Proof.
  intros Hi Hf Hr. assert (ended_as i (tenure a) db) as Hend by (split; [done|by exists a]).
  clear Hi. induction Hr as [|db1 db2 db3 Hs _ IH]; [|by eauto using step_ended].
  destruct Hend as (_ & a' & Hi' & Ha). exists a'. by injection Ha as -> -> -> -> _.
Qed.

(** Replacing a provider is a hand-over: it succeeds exactly when the current
    assignment is active, the other one belongs to the same property and has
    not ended, they differ and a reason is given; then the current one is
    replaced with that reason, the successor names its predecessor and is the
    property's active assignment, and no other assignment changes. *)
Theorem replacement_hands_over i j reason now c r db :
  one_active db → provider_assignments db !! i = Some c → provider_assignments db !! j = Some r →
  (can_replace i j reason c r = true ∧ ∃ db',
     replace_assignment i j reason now db = (Ok tt, db')
     ∧ provider_assignments db' = <[j := successor i now r]>
         (<[i := moved replaced (Some reason) now c]> (provider_assignments db))
     ∧ _active_assignment (as_property_id c) db' = Some (j, successor i now r)
     ∧ as_replaced_assignment_id (successor i now r) = Some i)
  ∨ (can_replace i j reason c r = false ∧ ∃ e db',
       replace_assignment i j reason now db = (Raise e, db')).
Proof.
  intros Hone Hi Hj. destruct (can_replace i j reason c r) eqn:Hcan.
  - left. split; [done|]. pose proof (handover i j reason now db c r Hone Hi Hj Hcan) as Hrun.
    eexists. split; [exact Hrun|]. split; [done|]. split; [|done].
    unfold can_replace in Hcan. bools. apply active_assignment_unique.
    + by eapply replace_one_active.
    + apply lookup_insert_eq.
    + done.
    + done.
  - right. split; [done|]. by eapply replacement_refused.
Qed.
End theorems.

(** ** Two providers of one property *)
Module Providers.
Definition profile : RoutingProfile := {|
  rp_opportunity_id := 1; rp_public_tracking_number := None; rp_public_contact_email := None;
  rp_recording_approved := false; rp_recording_retention_days := None;
  rp_call_adapter_name := None; rp_call_provider_route_id := None;
  rp_routing_health_status := None; rp_routing_health_checked_at := None; rp_active := true
|}.
Definition db0 : Db Z := empty_db <| routing_profiles := {["p"%string := profile]} |>.
Definition input (name : string) : AssignmentInput := {|
  in_property_id := "p"; in_public_business_name := name; in_provider_candidate_id := None;
  in_destination_phone := None; in_destination_email := Some "a@b.example"%string;
  in_coverage := []; in_response_expectation_minutes := None; in_lead_acceptance_required := true
|}.
Definition created := (create_assignment (input "one") db0).2.
Definition piloted := (assignment_transition 1 pilot None 10 created).2.
Definition activated := (assignment_transition 1 active None 20 piloted).2.
Definition two := (create_assignment (input "two") activated).2.
Definition swapped := (replace_assignment 1 2 "slow responses" 30 two).2.
Definition retried := (assignment_transition 1 active None 40 swapped).2.

Definition row (i : Z) (db : Db Z) : ProviderAssignment :=
  default (new_assignment (input "")) (provider_assignments db !! i).

Lemma two_ones : one_active two.
Proof.
  intros i j a b. assert (provider_assignments two = {[1 := row 1 two; 2 := row 2 two]}) as ->
    by by vm_compute.
  intros [[<- <-]|[_ [<- <-]%lookup_singleton_Some]]%lookup_insert_Some
    [[<- <-]|[_ [<- <-]%lookup_singleton_Some]]%lookup_insert_Some; by vm_compute.
Qed.

Lemma history : rtc assignment_step db0 two.
Proof.
  eapply rtc_l; [exact (as_create db0 created (input "one") 1 eq_refl)|].
  eapply rtc_l; [exact (as_transition created piloted 1 pilot None 10 tt eq_refl)|].
  eapply rtc_l; [exact (as_transition piloted activated 1 active None 20 tt eq_refl)|].
  eapply rtc_l; [exact (as_create activated two (input "two") 2 eq_refl)|]. apply rtc_refl.
Qed.

Lemma swapped_run : replace_assignment 1 2 "slow responses" 30 two = (Ok tt, swapped).
Proof. by vm_compute. Qed.
Lemma two_rows : provider_assignments two !! 1 = Some (row 1 two)
  ∧ provider_assignments two !! 2 = Some (row 2 two).
Proof. split; by vm_compute. Qed.
Lemma swapped_row : provider_assignments swapped !! 1 = Some (row 1 swapped).
Proof. by vm_compute. Qed.
End Providers.

Lemma provider_is_exclusive_witness :
  one_active Providers.two ∧ as_status (Providers.row 1 Providers.two) = active.
Proof.
  split; [|by vm_compute].
  assert (one_active Providers.db0) as H0 by (by intros i j a b Hi).
  exact (provider_is_exclusive _ _ H0 Providers.history).
Defined.

Lemma ended_assignment_is_final_witness :
  ∃ a', provider_assignments (create_assignment (Providers.input "three") Providers.swapped).2 !! 1
          = Some a' ∧ as_status a' = replaced.
Proof.
  assert (rtc assignment_step Providers.swapped
    (create_assignment (Providers.input "three") Providers.swapped).2) as Hr.
  { eapply rtc_l; [|apply rtc_refl]. apply (as_create _ _ (Providers.input "three") 3).
    by vm_compute. }
  destruct (ended_assignment_is_final _ _ 1 _ Providers.swapped_row
    ltac:(by vm_compute) Hr) as (a' & Ha' & Hs & _).
  exists a'. split; [exact Ha'|]. rewrite Hs. by vm_compute.
Defined.

Lemma replacement_hands_over_witness :
  can_replace 1 2 "slow responses" (Providers.row 1 Providers.two) (Providers.row 2 Providers.two)
    = true
  ∧ ∃ db' r, replace_assignment 1 2 "slow responses" 30 Providers.two = (Ok tt, db')
    ∧ _active_assignment "p" db' = Some (2, r).
Proof.
  split; [by vm_compute|].
  destruct (replacement_hands_over 1 2 "slow responses" 30 _ _ _ Providers.two_ones
    (proj1 Providers.two_rows) (proj2 Providers.two_rows))
    as [(_ & db' & Hrun & _ & Hact & _)|(Hno & _)].
  - exists db'. eexists. split; [exact Hrun|exact Hact].
  - by vm_compute in Hno.
Defined.
