(* ===== verification/LeadRouting.v ===== *)
(** * LeadRouting: intake, analytics and privacy of leads

    [LeadRoutingService], [AnalyticsService] of lead_routing/services.py,
    lead_routing/privacy.py and the local adapters of lead_routing/adapters.py.
    A submission is prepared against what the session reads and then inserted;
    the two halves are separate so that another session can commit in between.
    HMAC-SHA256 is the parameter [hmac_sha256]; the answers of the spam assessor
    and of the rate limiter, which are injected interfaces, are arguments. *)
From stdpp Require Import pretty.
From S2P Require Import Prelude Binary64 Schema ProviderOperations.

(** ** Identifiers *)

Definition hex_digit (n : Z) : Ascii.ascii :=
  Ascii.ascii_of_nat (Z.to_nat (if n <? 10 then 48 + n else 87 + n)).

(** The last [w] hexadecimal digits of [n]. *)
Fixpoint hex_padded (w : nat) (n : Z) : string :=
  match w with
  | O => ""
  | S w' => hex_padded w' (n / 16) +:+ String (hex_digit (n mod 16)) EmptyString
  end.

(** [str(uuid)] *)
Definition uuid_str (u : Z) : string :=
  hex_padded 8 (u / 2 ^ 96) +:+ "-" +:+ hex_padded 4 (u / 2 ^ 80) +:+ "-"
  +:+ hex_padded 4 (u / 2 ^ 64) +:+ "-" +:+ hex_padded 4 (u / 2 ^ 48) +:+ "-"
  +:+ hex_padded 12 u.

(** [f"deleted:{id}"] *)
Definition deleted_uuid (u : Z) : string := "deleted:" +:+ uuid_str u.
Definition deleted_id (i : Z) : string := "deleted:" +:+ pretty i.

(** ** lead_routing/privacy.py *)

Definition _SENSITIVE_KEYS : list string :=
  ["address"; "api_key"; "authorization"; "contact_email"; "contact_name"; "contact_phone";
   "customer_email"; "destination"; "email"; "full_name"; "ip"; "ip_address"; "message";
   "name"; "phone"; "postal_code"; "password"; "remote_address"; "secret"; "token";
   "user_agent"]%string.

Definition sensitive (key : string) : bool := bool_decide (py_lower key ∈ _SENSITIVE_KEYS).

Definition redacted : json := JStr "<redacted>".

Fixpoint redact_pii (v : json) : json :=
  match v with
  | JObj l => JObj (map (λ kv, match kv with
                               | (k, x) => (k, if sensitive k then redacted else redact_pii x)
                               end) l)
  | JList l => JList (map redact_pii l)
  | v => v
  end.

Definition is_digit (a : Ascii.ascii) : bool :=
  let n := Ascii.nat_of_ascii a in ((48 <=? n) && (n <=? 57))%nat.

Fixpoint digits (s : string) : string :=
  match s with
  | EmptyString => EmptyString
  | String a s' => if is_digit a then String a (digits s') else digits s'
  end.

(** [s.split("@", 1)], when there is an at sign *)
Fixpoint split_at (s : string) : option (string * string) :=
  match s with
  | EmptyString => None
  | String a s' =>
      if (Ascii.nat_of_ascii a =? 64)%nat then Some (EmptyString, s')
      else match split_at s' with
           | Some (l, d) => Some (String a l, d)
           | None => None
           end
  end.

(** [s[:n]] and [s[-n:]] *)
Definition str_take (n : nat) (s : string) : string := String.substring 0 n s.
Definition str_last (n : nat) (s : string) : string :=
  String.substring (String.length s - n) n s.

Definition masked_destination (destination : string) : string :=
  match split_at destination with
  | Some (local, domain) => str_take 1 local +:+ "***@" +:+ domain
  | None =>
      if str_truthy (digits destination) then "***" +:+ str_last 4 (digits destination)
      else "<configured>"
  end.

(** ** Requests *)

Record LeadForm : Type := {
  f_property_id : string;
  f_name : string;
  f_email : option string;
  f_phone : option string;
  f_postal_code : option string;
  f_message : option string;
  f_consent_accepted : bool;
  f_consent_text_version : string;
  f_referral_disclosure_acknowledged : bool;
  f_referral_disclosure_version : string;
  f_idempotency_key : string;
  f_honeypot : string
}.

Record RequestContext : Type := {
  rc_remote_address : option string;
  rc_user_agent : option string;
  rc_request_id : string;
  rc_received_at : Z
}.

Record LeadRoutingPolicy : Type := {
  dedupe_window_minutes : Z;
  rate_limit_count : Z;
  rate_limit_window_seconds : Z;
  maximum_delivery_attempts : Z;
  retention_days : Z;
  consent_text : string;
  consent_text_version : string;
  referral_disclosure_text : string;
  referral_disclosure_version : string;
  pii_hash_pepper : string
}.

Record SpamAssessmentResult : Type := {
  spam_score : binary64;
  spam_disposition : string;
  spam_signals : list string;
  spam_assessor_version : string
}.

Record LeadSubmissionResult : Type := {
  sub_lead_id : Z;
  sub_status : LeadStatus;
  sub_idempotent_replay : bool;
  sub_duplicate : bool;
  sub_delivery_ids : list Z
}.

(** ** [LocalSpamAssessor] *)

(** [s.count(t)] for a non-empty [t]: non-overlapping occurrences *)
Fixpoint count_from (fuel : nat) (t s : string) : nat :=
  match fuel with
  | O => 0
  | S fuel' =>
      match String.index 0 t s with
      | Some n => S (count_from fuel' t
                       (String.substring (n + String.length t) (String.length s) s))
      | None => 0
      end
  end.
Definition str_count (t s : string) : nat := count_from (String.length s) t s.

Definition one : binary64 := F64.of_Z 1.

Definition assess (form : LeadForm) (context : RequestContext) : SpamAssessmentResult :=
  let honeypot := str_truthy (f_honeypot form) in
  let links := match f_message form with
               | Some m => str_truthy m && (3 <=? str_count "http" (py_lower m))%nat
               | None => false
               end in
  let anonymous := negb (opt_truthy (rc_remote_address context)) in
  let score := F64.zero in
  let score := if honeypot then F64.add score one else score in
  let score := if links then F64.add score (F64.lit 5 10) else score in
  let score := if anonymous then F64.add score (F64.lit 1 10) else score in
  {| spam_score := F64.min score one;
     spam_disposition :=
       if F64.leb (F64.lit 9 10) score then "block"
       else if F64.leb (F64.lit 5 10) score then "review" else "allow";
     spam_signals :=
       (if honeypot then ["honeypot_populated"%string] else [])
       ++ (if links then ["excessive_links"%string] else [])
       ++ (if anonymous then ["missing_remote_address"%string] else []);
     spam_assessor_version := "local-v1" |}.

(** ** [InMemoryRateLimiter]: the events of each key, oldest first *)

Fixpoint drop_before (cutoff : Z) (events : list Z) : list Z :=
  match events with
  | e :: es => if e <? cutoff then drop_before cutoff es else e :: es
  | [] => []
  end.

Definition allow (key : string) (limit window_seconds now : Z) (m : gmap string (list Z))
    : bool * gmap string (list Z) :=
  let events := drop_before (now - window_seconds * 1000000) (default [] (m !! key)) in
  if limit <=? Z.of_nat (length events) then (false, <[key := events]> m)
  else (true, <[key := events ++ [now]]> m).

(** ** Intake *)
Section intake.
Context {USD : Type} (hmac_sha256 : string → string → string).
Implicit Types db : Db USD.

Definition stable_private_hash (v pepper : string) : string := hmac_sha256 pepper v.

Definition subject_fingerprint (email phone : option string) (pepper : string) : string :=
  stable_private_hash (py_lower (py_strip (default "" email)) +:+ "|"
                       +:+ py_strip (default "" phone)) pepper.

(** The adapters the service was built with: their name by channel. *)
Definition Adapters : Type := DeliveryChannel → option string.

Definition _delivery_ids (lead_id : Z) db : list Z :=
  (select (λ _ d, bool_decide (pd_lead_id d = lead_id)) (provider_deliveries db)).*1.

(** [(channel, destination, adapter.name)] of every channel that can be used *)
Definition routable_channel (adapters : Adapters) (channel : DeliveryChannel)
    (destination : option string) : list (DeliveryChannel * string * string) :=
  match destination, adapters channel with
  | Some d, Some name => if str_truthy d then [(channel, d, name)] else []
  | _, _ => []
  end.

Definition _routable_channels (adapters : Adapters) (assignment : option ProviderAssignment)
    : list (DeliveryChannel * string * string) :=
  match assignment with
  | None => []
  | Some a => routable_channel adapters ch_email (as_destination_email a)
              ++ routable_channel adapters ch_phone (as_destination_phone a)
  end.

Definition replay_of (form : LeadForm) db : option (Z * Lead) :=
  select_first (λ _ l, bool_decide (ld_property_id l = f_property_id form)
                       && bool_decide (ld_idempotency_key l = f_idempotency_key form))
    (leads db).

Definition found (i : Z) (l : Lead) (replay duplicate : bool) db : LeadSubmissionResult := {|
  sub_lead_id := i; sub_status := ld_status l; sub_idempotent_replay := replay;
  sub_duplicate := duplicate; sub_delivery_ids := _delivery_ids i db
|}.

(** The rows of a new submission, and the operator alert it raises. *)
Record Submission : Type := {
  new_lead_id : Z;
  new_lead : Lead;
  new_consent : ConsentRecord;
  new_assessment : SpamAssessmentRow;
  new_deliveries : list (Z * ProviderDelivery);
  new_alert : option string
}.

Definition delivery_row (policy : LeadRoutingPolicy) (lead_id assignment_id received_at : Z)
    (c : DeliveryChannel * string * string) : ProviderDelivery := {|
  pd_lead_id := lead_id;
  pd_provider_assignment_id := assignment_id;
  pd_delivery_key := {| dk_lead_id := lead_id; dk_assignment_id := assignment_id;
                        dk_channel := c.1.1 |};
  pd_channel := c.1.1;
  pd_destination_reference := masked_destination c.1.2;
  pd_adapter_name := c.2;
  pd_provider_message_id := None;
  pd_status := d_pending;
  pd_attempt_count := 0;
  pd_max_attempts := maximum_delivery_attempts policy;
  pd_next_attempt_at := Some received_at;
  pd_worker_id := None; pd_lease_token := None; pd_claimed_at := None;
  pd_heartbeat_at := None; pd_lease_expires_at := None;
  pd_last_error_code := None; pd_last_error_summary := None;
  pd_delivered_at := None; pd_completed_at := None
|}.

(** [submit] up to the first flush: an earlier lead, or the rows to insert.
    [allowed] is the answer of the rate limiter, [spam] of the assessor,
    [lead_id] and [delivery_id] are the UUIDs drawn. *)
Definition prepare_submit (policy : LeadRoutingPolicy) (adapters : Adapters)
    (allowed : string → bool) (spam : SpamAssessmentResult) (lead_id : Z)
    (delivery_id : DeliveryChannel → Z) (form : LeadForm) (context : RequestContext)
    : Session USD (LeadSubmissionResult + Submission) :=
  gets (replay_of form) ≫= λ replay,
  match replay with
  | Some (i, l) => gets (λ db, inl (found i l true false db))
  | None =>
      get_or_raise (λ db, routing_profiles db !! f_property_id form ≫= λ p,
                          if rp_active p then Some p else None)
        (LeadRoutingError "routing_profile_not_found") ≫= λ profile,
      raise_if (negb (bool_decide (f_consent_text_version form = consent_text_version policy)))
        (LeadRoutingError "stale_consent_text_version") ≫= λ _,
      raise_if (negb (bool_decide (f_referral_disclosure_version form
                                   = referral_disclosure_version policy)))
        (LeadRoutingError "stale_referral_disclosure_version") ≫= λ _,
      let fingerprint := stable_private_hash
        (f_property_id form +:+ "|" +:+ (if opt_truthy (rc_remote_address context)
                                         then default "" (rc_remote_address context)
                                         else "unknown"))
        (pii_hash_pepper policy) in
      raise_if (negb (allowed fingerprint)) (RateLimitExceeded "lead_rate_limit_exceeded")
      ≫= λ _,
      let subject_hash :=
        subject_fingerprint (f_email form) (f_phone form) (pii_hash_pepper policy) in
      let dedupe_hash := stable_private_hash (f_property_id form +:+ "|" +:+ subject_hash)
                           (pii_hash_pepper policy) in
      let cutoff := rc_received_at context - dedupe_window_minutes policy * 60000000 in
      gets (λ db, select_first (λ _ l,
              bool_decide (ld_property_id l = f_property_id form)
              && bool_decide (ld_dedupe_hash l = dedupe_hash)
              && (cutoff <=? ld_received_at l) && bool_decide (ld_pii_deleted_at l = None))
            (leads db)) ≫= λ duplicate,
      match duplicate with
      | Some (i, l) => gets (λ db, inl (found i l false true db))
      | None =>
          gets (_active_assignment (f_property_id form))
          ≫= λ (assignment : option (Z * ProviderAssignment)),
          let channels := _routable_channels adapters (snd <$> assignment) in
          let lead_status :=
            if bool_decide (spam_disposition spam = "block"%string) then lead_spam
            else match assignment, channels with
                 | None, _ | _, [] => lead_delivery_failed
                 | _, _ => lead_routing
                 end in
          mret (inr {|
            new_lead_id := lead_id;
            new_lead := {|
              ld_property_id := f_property_id form;
              ld_opportunity_id := rp_opportunity_id profile;
              ld_provider_assignment_id := fst <$> assignment;
              ld_channel := lead_form; ld_status := lead_status;
              ld_name := f_name form; ld_email := f_email form; ld_phone := f_phone form;
              ld_postal_code := f_postal_code form; ld_message := f_message form;
              ld_idempotency_key := f_idempotency_key form;
              ld_dedupe_hash := dedupe_hash; ld_subject_hash := subject_hash;
              ld_received_at := rc_received_at context; ld_pii_deleted_at := None;
              ld_retention_expires_at :=
                rc_received_at context + retention_days policy * day_us
            |};
            new_consent := {|
              cr_consent_granted := f_consent_accepted form;
              cr_consent_text := consent_text policy;
              cr_consent_text_version := consent_text_version policy;
              cr_referral_disclosure_acknowledged := f_referral_disclosure_acknowledged form;
              cr_referral_disclosure_text := referral_disclosure_text policy;
              cr_referral_disclosure_version := referral_disclosure_version policy;
              cr_captured_at := rc_received_at context;
              cr_request_fingerprint := fingerprint;
              cr_proof_metadata := JObj [("request_id"%string, JStr (rc_request_id context))]
            |};
            new_assessment := {|
              sa_score := spam_score spam; sa_disposition := spam_disposition spam;
              sa_signals := spam_signals spam; sa_assessor_version := spam_assessor_version spam
            |};
            new_deliveries :=
              match lead_status, assignment with
              | lead_routing, Some (a, _) =>
                  map (λ c, (delivery_id c.1.1,
                             delivery_row policy lead_id a (rc_received_at context) c)) channels
              | _, _ => []
              end;
            new_alert :=
              match lead_status with
              | lead_delivery_failed =>
                  Some (match assignment with
                        | None => "no_active_provider"
                        | Some _ => "no_configured_delivery_channel" end)%string
              | _ => None
              end
          |})
      end
  end.

(** The constraints the insertion can violate: the key of the lead, its
    idempotency key within the property, and the keys of the deliveries. *)
Definition lead_conflict (s : Submission) db : bool :=
  bool_decide (is_Some (leads db !! new_lead_id s))
  || bool_decide (is_Some (select_first (λ _ l,
       bool_decide (ld_property_id l = ld_property_id (new_lead s))
       && bool_decide (ld_idempotency_key l = ld_idempotency_key (new_lead s))) (leads db)))
  || bool_decide (¬ NoDup (new_deliveries s).*1)
  || existsb (λ d, bool_decide (is_Some (provider_deliveries db !! d.1))) (new_deliveries s).

Definition _idempotency_winner (form : LeadForm) : Session USD LeadSubmissionResult :=
  get_or_raise (replay_of form) IntegrityError ≫= λ winner,
  gets (found winner.1 winner.2 true false).

Definition _lead_event (lead_id : Z) (event_type : string) (key : LeadEventKey)
    (occurred_at : Z) : Session USD unit :=
  gets (λ db, select_first (λ _ e, bool_decide (le_lead_id e = lead_id)
                                   && bool_decide (le_event_key e = key)) (lead_events db))
  ≫= λ (existing : option (Z * LeadEvent)),
  match existing with
  | Some _ => mret tt
  | None =>
      modify (λ db, db <| lead_events ::= insert (next_id (lead_events db))
        {| le_lead_id := lead_id; le_event_type := event_type; le_event_key := key;
           le_source_name := "lead-routing"; le_occurred_at := occurred_at;
           le_truth_basis := observed; le_source_type := src_system;
           le_payload := JObj [] |} |>)
  end.

Definition insert_deliveries (l : list (Z * ProviderDelivery)) db : Db USD :=
  db <| provider_deliveries ::= λ t, foldl (λ t d, <[d.1 := d.2]> t) t l |>.

(** The rest of [submit]: the flush of the lead, the other rows, the commit.  A
    violated constraint rolls the session back and looks for the winner.  The
    second component is the reason of the operator alert. *)
Definition insert_submission (form : LeadForm) (s : Submission)
    : Session USD (LeadSubmissionResult * option string) :=
  gets (lead_conflict s) ≫= λ (conflict : bool),
  if conflict then _idempotency_winner form ≫= λ r, mret (r, None)
  else
    modify (λ db, db <| leads ::= insert (new_lead_id s) (new_lead s) |>
                     <| consent_records ::= insert (new_lead_id s) (new_consent s) |>
                     <| spam_assessments ::= insert (new_lead_id s) (new_assessment s) |>)
    ≫= λ _,
    _lead_event (new_lead_id s) "form_submit" (key_form (f_idempotency_key form))
      (ld_received_at (new_lead s)) ≫= λ _,
    modify (insert_deliveries (new_deliveries s)) ≫= λ _,
    gets (_delivery_ids (new_lead_id s)) ≫= λ ids,
    mret ({| sub_lead_id := new_lead_id s; sub_status := ld_status (new_lead s);
             sub_idempotent_replay := false; sub_duplicate := false;
             sub_delivery_ids := if bool_decide (ld_status (new_lead s) = lead_routing)
                                 then ids else [] |},
          new_alert s).

Definition submit (policy : LeadRoutingPolicy) (adapters : Adapters)
    (allowed : string → bool) (spam : SpamAssessmentResult) (lead_id : Z)
    (delivery_id : DeliveryChannel → Z) (form : LeadForm) (context : RequestContext)
    : Session USD (LeadSubmissionResult * option string) :=
  prepare_submit policy adapters allowed spam lead_id delivery_id form context ≫= λ r,
  match r with
  | inl result => mret (result, None)
  | inr s => insert_submission form s
  end.
End intake.

(** ** [AnalyticsService] *)
Section analytics.
Context {USD : Type}.
Implicit Types db : Db USD.

Record AnalyticsEventInput : Type := {
  ai_property_id : string;
  ai_event_type : AnalyticsEventType;
  ai_source_type : AnalyticsSourceType;
  ai_source_name : string;
  ai_source_event_id : string;
  ai_truth_basis : TruthBasis;
  ai_lead_id : option Z;
  ai_occurred_at : Z;
  ai_value_usd : option binary64;
  ai_payload : json
}.

(** [AnalyticsEventInput.validate_truth_source]; [false] is the validation error *)
Definition truthful (e : AnalyticsEventInput) : bool :=
  match ai_truth_basis e with
  | provider_reported => bool_decide (ai_source_type e = src_provider)
  | operator_verified => bool_decide (ai_source_type e = src_operator)
  | _ => true
  end
  && (negb (bool_decide (ai_event_type e = revenue))
      || bool_decide (is_Some (ai_value_usd e))).

Definition is_outcome (t : AnalyticsEventType) : bool :=
  match t with
  | qualified_lead | provider_acceptance | appointment | won_job | lost_job | revenue => true
  | _ => false
  end.

Definition analytics_row (e : AnalyticsEventInput) : AnalyticsEvent := {|
  an_property_id := ai_property_id e; an_lead_id := ai_lead_id e;
  an_event_type := ai_event_type e; an_truth_basis := ai_truth_basis e;
  an_source_type := ai_source_type e; an_source_name := ai_source_name e;
  an_source_event_id := ai_source_event_id e; an_occurred_at := ai_occurred_at e;
  an_value_usd := ai_value_usd e; an_payload := redact_pii (ai_payload e)
|}.

Definition outcome_row (lead_id : Z) (e : AnalyticsEventInput) : LeadOutcome := {|
  lo_lead_id := lead_id; lo_outcome_type := ai_event_type e;
  lo_truth_basis := ai_truth_basis e; lo_source_type := ai_source_type e;
  lo_source_name := ai_source_name e; lo_source_event_id := ai_source_event_id e;
  lo_occurred_at := ai_occurred_at e; lo_value_usd := ai_value_usd e; lo_notes := None
|}.

Definition recorded (source event : string) db : option (Z * AnalyticsEvent) :=
  select_first (λ _ r, bool_decide (an_source_name r = source)
                       && bool_decide (an_source_event_id r = event)) (analytics_events db).

Definition record (e : AnalyticsEventInput) : Session USD Z :=
  gets (recorded (ai_source_name e) (ai_source_event_id e)) ≫= λ existing,
  match existing with
  | Some (i, _) => mret i
  | None =>
      match ai_lead_id e with
      | Some l =>
          gets (λ db, leads db !! l) ≫= λ (lead : option Lead),
          raise_if (match lead with
                    | None => true
                    | Some lead => negb (bool_decide (ld_property_id lead = ai_property_id e))
                    end) (LeadRoutingError "analytics_lead_property_mismatch")
      | None => mret tt
      end ≫= λ _,
      gets (λ db, next_id (analytics_events db)) ≫= λ i,
      modify (λ db, db <| analytics_events ::= insert i (analytics_row e) |>) ≫= λ _,
      match ai_lead_id e with
      | Some l =>
          when (is_outcome (ai_event_type e))
            (gets (λ db, existsb (λ r, bool_decide (lo_lead_id r.2 = l)
                            && bool_decide (lo_source_name r.2 = ai_source_name e)
                            && bool_decide (lo_source_event_id r.2 = ai_source_event_id e))
                          (table_rows (lead_outcomes db))) ≫= λ (conflict : bool),
             raise_if conflict IntegrityError ≫= λ _,
             modify (λ db, db <| lead_outcomes ::=
               insert (next_id (lead_outcomes db)) (outcome_row l e) |>))
      | None => mret tt
      end ≫= λ _,
      mret i
  end.
End analytics.

(** ** [LeadPrivacyService] *)
Section privacy.
Context {USD : Type}.
Implicit Types db : Db USD.

Inductive LeadAccessRole : Type := role_operator | role_privacy_admin | role_provider | role_analytics.
#[export] Instance LeadAccessRole_eq_dec : EqDecision LeadAccessRole.
Proof. solve_decision. Defined.

Record AccessContext : Type := {
  ac_actor_id : string;
  ac_role : LeadAccessRole;
  ac_provider_assignment_ids : list Z
}.

Definition privileged (r : LeadAccessRole) : bool :=
  match r with role_operator | role_privacy_admin => true | _ => false end.

(** [_authorize_lead]; [false] is [LeadAccessDenied] *)
Definition authorized (access : AccessContext) (l : Lead) : bool :=
  privileged (ac_role access)
  || (bool_decide (ac_role access = role_provider)
      && match ld_provider_assignment_id l with
         | Some a => bool_decide (a ∈ ac_provider_assignment_ids access)
         | None => false
         end).

Definition anonymous_lead (i now : Z) (l : Lead) : Lead :=
  l <| ld_name := "[deleted]" |> <| ld_email := None |> <| ld_phone := None |>
    <| ld_postal_code := None |> <| ld_message := None |>
    <| ld_idempotency_key := deleted_uuid i |> <| ld_dedupe_hash := deleted_uuid i |>
    <| ld_subject_hash := deleted_uuid i |> <| ld_status := lead_deleted |>
    <| ld_pii_deleted_at := Some now |>.

Definition open_status (s : DeliveryStatus) : bool :=
  match s with d_pending | d_leased | d_delivering | d_retrying => true | _ => false end.

Definition anonymous_delivery (now : Z) (d : ProviderDelivery) : ProviderDelivery :=
  let d := d <| pd_destination_reference := "<deleted>" |> <| pd_provider_message_id := None |> in
  if open_status (pd_status d) then
    d <| pd_status := d_cancelled |> <| pd_next_attempt_at := None |> <| pd_worker_id := None |>
      <| pd_lease_token := None |> <| pd_claimed_at := None |> <| pd_heartbeat_at := None |>
      <| pd_lease_expires_at := None |> <| pd_completed_at := Some now |>
  else d.

(** [for row in select(R).where(R.lead_id == i): f(row)] *)
Definition for_rows {R : Type} (mine : R → bool) (f : Z → R → R) (t : gmap Z R) : gmap Z R :=
  map_imap (λ k r, Some (if mine r then f k r else r)) t.

Definition _anonymize (i now : Z) : Session USD unit :=
  modify (λ db,
    db <| leads ::= alter (anonymous_lead i now) i |>
       <| consent_records ::= alter (λ c, c <| cr_request_fingerprint := "deleted" |>
                                           <| cr_proof_metadata := JObj [] |>) i |>
       <| provider_deliveries ::= for_rows (λ d, bool_decide (pd_lead_id d = i))
            (λ _, anonymous_delivery now) |>
       <| lead_outcomes ::= for_rows (λ o, bool_decide (lo_lead_id o = i))
            (λ k o, o <| lo_notes := None |> <| lo_source_event_id := deleted_id k |>) |>
       <| lead_events ::= for_rows (λ e, bool_decide (le_lead_id e = i))
            (λ k e, e <| le_event_key := key_deleted k |> <| le_payload := JObj [] |>) |>
       <| analytics_events ::= for_rows (λ e, bool_decide (an_lead_id e = Some i))
            (λ k e, e <| an_lead_id := None |> <| an_source_event_id := deleted_id k |>
                      <| an_payload := JObj [] |>) |>).

(** [uq_lead_property_idempotency]: the flush writes the changed rows in the order
    of their keys, and each update is checked. *)
Definition lead_keys db : list (string * string) :=
  map (λ r, (ld_property_id r.2, ld_idempotency_key r.2)) (table_rows (leads db)).

Definition flush_leads : Session USD unit :=
  gets (λ db, bool_decide (NoDup (lead_keys db))) ≫= λ (unique : bool),
  raise_if (negb unique) IntegrityError.

Definition delete_lead (i : Z) (access : AccessContext) (now : Z) : Session USD bool :=
  raise_if (negb (privileged (ac_role access)))
    (LeadAccessDenied "lead_deletion_requires_privileged_role") ≫= λ _,
  gets (λ db, leads db !! i) ≫= λ (lead : option Lead),
  match lead with
  | None => mret false
  | Some _ => _anonymize i now ≫= λ _, flush_leads ≫= λ _, mret true
  end.

Definition enforce_retention (now : Z) : Session USD (list Z) :=
  gets (λ db, (select (λ _ l, (ld_retention_expires_at l <=? now)
                              && bool_decide (ld_pii_deleted_at l = None)) (leads db)).*1)
  ≫= λ rows,
  for_each (λ i, _anonymize i now ≫= λ _, flush_leads) rows ≫= λ _,
  mret rows.
End privacy.
