(* ===== verification/LeadIntakeTheorems.v ===== *)
(** * LeadIntakeTheorems: redaction, analytics and the rate limiter

    The guarantees of the pure helpers of lead intake: what is redacted, that an
    analytics event is stored once and without personal data, and what the
    in-memory rate limiter admits. *)
From S2P Require Import Prelude Binary64 Schema ProviderOperations LeadRouting.

(** ** Redaction *)
Section redaction.

(** Every value under a sensitive key, at any depth, is the marker. *)
Fixpoint clean (v : json) : Prop :=
  match v with
  | JObj l => (fix entries (l : list (string * json)) : Prop :=
      match l with
      | [] => True
      | (k, x) :: l' => (if sensitive k then x = redacted else clean x) ∧ entries l'
      end) l
  | JList l => (fix items (l : list json) : Prop :=
      match l with [] => True | x :: l' => clean x ∧ items l' end) l
  | _ => True
  end.

Lemma redact_clean v : clean (redact_pii v) ∧ redact_pii (redact_pii v) = redact_pii v.
Proof.
  induction v as [| | | | |l IH|l IH] using json_nested_ind; try done.
  - induction IH as [|x l [Hx1 Hx2] _ [IH1 IH2]]; [done|].
    cbn in *. injection IH2 as IH2. split; [done|]. by rewrite Hx2, IH2.
  - induction IH as [|[k x] l [Hx1 Hx2] _ [IH1 IH2]]; [done|].
    cbn in *. injection IH2 as IH2. destruct (sensitive k) eqn:Hk; cbn; rewrite ?Hk.
    + split; [done|]. by rewrite IH2.
    + split; [done|]. by rewrite Hx2, IH2.
Qed.

(** Redaction is complete and stable: in its result every value under a
    sensitive key (in any letter case, at any depth of objects and lists) is the
    marker, and redacting again changes nothing, so nothing already redacted is
    damaged. *)
Theorem redaction_is_complete v : clean (redact_pii v) ∧ redact_pii (redact_pii v) = redact_pii v.
Proof. apply redact_clean. Qed.
End redaction.

(** ** Analytics *)
Section analytics.
Context {USD : Type}.
Implicit Types (db : Db USD) (e : AnalyticsEventInput).

Lemma recorded_Some source event db i r :
  recorded source event db = Some (i, r) →
  analytics_events db !! i = Some r ∧ an_source_name r = source ∧ an_source_event_id r = event.
Proof. intros [Hi Hr]%select_first_Some. by bools. Qed.

(** The only row of a source event is the one the lookup finds. *)
Lemma recorded_insert source event db i r :
  recorded source event db = None → analytics_events db !! i = None →
  an_source_name r = source → an_source_event_id r = event →
  ∀ db', analytics_events db' = <[i := r]> (analytics_events db) →
  recorded source event db' = Some (i, r).
Proof.
  intros Hno Hi Hs He db' Hdb'. unfold recorded in Hno. rewrite select_first_None in Hno.
  destruct (recorded source event db') as [[j r']|] eqn:Hrec.
  - apply recorded_Some in Hrec as (Hj & Hs' & He'). rewrite Hdb', lookup_insert in Hj.
    case_decide as Hij; [subst; by injection Hj as ->|].
    specialize (Hno j r' Hj). by rewrite !bool_decide_eq_true_2 in Hno.
  - unfold recorded in Hrec. rewrite select_first_None in Hrec. specialize (Hrec i r).
    rewrite Hdb', lookup_insert_eq in Hrec. specialize (Hrec eq_refl).
    by rewrite !bool_decide_eq_true_2 in Hrec.
Qed.

Lemma record_ok e db i db' :
  record e db = (Ok i, db') →
  (∃ r, recorded (ai_source_name e) (ai_source_event_id e) db = Some (i, r) ∧ db' = db)
  ∨ (recorded (ai_source_name e) (ai_source_event_id e) db = None
     ∧ i = next_id (analytics_events db)
     ∧ analytics_events db' = <[i := analytics_row e]> (analytics_events db)
     ∧ ∀ l, ai_lead_id e = Some l →
         ∃ lead, leads db !! l = Some lead ∧ ld_property_id lead = ai_property_id e).
Proof.
  unfold record. rewrite bind_gets. destruct (recorded _ _ db) as [[j r]|] eqn:Hrec.
  { intros [= <- <-]. left. by exists r. }
  intros Hrun. right. split; [done|].
  apply bind_ok in Hrun as (u & db1 & Hcheck & Hrun).
  assert (db1 = db ∧ ∀ l, ai_lead_id e = Some l →
    ∃ lead, leads db !! l = Some lead ∧ ld_property_id lead = ai_property_id e) as [-> Hlead].
  { destruct (ai_lead_id e) as [l|]; [|injection Hcheck as _ <-; done].
    rewrite bind_gets in Hcheck. apply raise_if_ok in Hcheck as [Hc ->]. split; [done|].
    intros ? [= <-]. destruct (leads db !! l) as [lead|]; [|done]. exists lead. by bools. }
  rewrite bind_gets in Hrun. apply bind_ok in Hrun as (u2 & db2 & [= _ <-] & Hrun).
  apply bind_ok in Hrun as (u3 & db3 & Hout & [= <- <-]). split; [done|]. split; [|done].
  destruct (ai_lead_id e) as [l|]; [|by injection Hout as _ <-].
  apply when_ok in Hout as [[_ Hout]|[_ ->]]; [|done]. rewrite bind_gets in Hout.
  apply bind_ok in Hout as (u4 & db4 & [_ ->]%raise_if_ok & [= _ <-]). done.
Qed.

(** An analytics event is stored once: recording it again, or recording any
    other event with the same source and source event id, returns the stored
    row and writes nothing; the row keeps no personal data from the payload, and
    an event that names a lead belongs to that lead's property. *)
Theorem analytics_event_is_stored_once e e' i db db' :
  record e db = (Ok i, db') →
  ai_source_name e' = ai_source_name e → ai_source_event_id e' = ai_source_event_id e →
  record e' db' = (Ok i, db')
  ∧ (recorded (ai_source_name e) (ai_source_event_id e) db = None →
     analytics_events db' !! i = Some (analytics_row e) ∧ clean (an_payload (analytics_row e))
     ∧ ∀ l, ai_lead_id e = Some l →
         ∃ lead, leads db !! l = Some lead ∧ ld_property_id lead = ai_property_id e).
Proof.
  intros Hrun Hs He.
  assert (∃ r, recorded (ai_source_name e) (ai_source_event_id e) db' = Some (i, r)) as [r Hr].
  { destruct (record_ok e db i db' Hrun) as [(r & Hr & ->)|(Hno & -> & Hdb' & _)]; [by exists r|].
    exists (analytics_row e). eapply recorded_insert; try done. apply next_id_fresh. }
  split.
  - unfold record. rewrite bind_gets, Hs, He, Hr. done.
  - intros Hno. destruct (record_ok e db i db' Hrun) as [(r' & Hr' & _)|(_ & -> & Hdb' & Hlead)];
      [congruence|].
    rewrite Hdb', lookup_insert_eq. split; [done|]. split; [|done].
    apply redact_clean.
Qed.
End analytics.

(** ** The rate limiter *)
Section limiter.
Implicit Types (key : string) (m : gmap string (list Z)) (calls : list (string * Z)).

(** The limiter answers a sequence of calls, each a key and the time of the call;
    the admitted calls are collected in order. *)
Fixpoint run_limiter (limit window : Z) calls m : list (string * Z) :=
  match calls with
  | [] => []
  | (key, now) :: calls' =>
      let '(ok, m') := allow key limit window now m in
      (if ok then [(key, now)] else []) ++ run_limiter limit window calls' m'
  end.

(** The admitted calls of [key] in the window of [window] seconds that ends at [t]. *)
Definition in_window key (window t : Z) (admitted : list (string * Z)) : Z :=
  Z.of_nat (length (List.filter (λ c, bool_decide (c.1 = key)
    && (t - window * 1000000 <=? c.2) && (c.2 <=? t)) admitted)).

Definition times key (admitted : list (string * Z)) : list Z :=
  map snd (List.filter (λ c, bool_decide (c.1 = key)) admitted).

Definition between (lo hi : Z) (ts : list Z) : Z :=
  Z.of_nat (length (List.filter (λ t, (lo <=? t) && (t <=? hi)) ts)).

Lemma in_window_times key window t admitted :
  in_window key window t admitted = between (t - window * 1000000) t (times key admitted).
Proof.
  unfold in_window, between, times. f_equal. induction admitted as [|[k s] l IH]; [done|].
  cbn [List.filter fst snd]. case_bool_decide; cbn [List.filter map fst snd andb].
  - destruct (_ && _); cbn [length]; by rewrite IH.
  - done.
Qed.

Lemma between_app lo hi xs ys : between lo hi (xs ++ ys) = between lo hi xs + between lo hi ys.
Proof. unfold between. rewrite List.filter_app, length_app. lia. Qed.

Lemma between_none lo hi xs : (∀ x, x ∈ xs → x < lo) → between lo hi xs = 0.
Proof.
  unfold between. intros Hx. induction xs as [|x xs IH]; [done|]. cbn.
  rewrite (proj2 (Z.leb_gt lo x)) by (apply Hx; left). cbn. apply IH. intros; apply Hx. by right.
Qed.

Lemma between_le lo hi xs : between lo hi xs ≤ Z.of_nat (length xs).
Proof.
  unfold between. induction xs as [|x xs IH]; [done|]. cbn. destruct (_ && _); cbn; lia.
Qed.

(** What the limiter remembers of a key: the admitted times but old ones. *)
Record remembers (limit window last : Z) (admitted events : list Z) : Prop := {
  rm_split : ∃ old, admitted = old ++ events ∧ ∀ t, t ∈ old → t < last - window * 1000000;
  rm_past t : t ∈ admitted → t ≤ last;
  rm_bound hi : between (hi - window * 1000000) hi admitted ≤ Z.max 0 limit
}.

Lemma drop_before_split cutoff events :
  ∃ dropped, events = dropped ++ drop_before cutoff events
    ∧ ∀ t, t ∈ dropped → t < cutoff.
Proof.
  induction events as [|e es IH]; cbn; [exists []; set_solver|].
  destruct (Z.ltb_spec e cutoff); [|exists []; set_solver].
  destruct IH as (d & Heq & Hd). exists (e :: d). split; [cbn; congruence|]. set_solver.
Qed.

Lemma allow_remembers key limit window last now admitted m :
  last ≤ now → remembers limit window last admitted (default [] (m !! key)) →
  let '(ok, m') := allow key limit window now m in
  remembers limit window now (admitted ++ if ok then [now] else []) (default [] (m' !! key))
  ∧ ∀ key', key' ≠ key → m' !! key' = m !! key'.
Proof.
  intros Hle [(old & Hold & Hlt) Hpast Hbound]. unfold allow.
  set (events := default [] (m !! key)) in *.
  destruct (drop_before_split (now - window * 1000000) events) as (d & Hd & Hdlt).
  set (kept := drop_before _ _) in *.
  assert (∀ t, t ∈ old ++ d → t < now - window * 1000000) as Hout.
  { intros t [Ht|Ht]%elem_of_app; [specialize (Hlt t Ht); lia|auto]. }
  assert (admitted = (old ++ d) ++ kept) as Hsplit by (by rewrite Hold, Hd at 1; rewrite app_assoc).
  destruct (Z.leb_spec limit (Z.of_nat (length kept))).
  - rewrite app_nil_r, lookup_insert_eq. split; [|intros; by rewrite lookup_insert_ne].
    split; cbn; [by exists (old ++ d)|intros t Ht; specialize (Hpast t Ht); lia|done].
  - rewrite lookup_insert_eq. split; [|intros; by rewrite lookup_insert_ne]. split; cbn.
    + exists (old ++ d). by rewrite Hsplit, app_assoc.
    + intros t [Ht| ->%list_elem_of_singleton]%elem_of_app; [specialize (Hpast t Ht); lia|lia].
    + intros hi. rewrite between_app. destruct (Z.leb_spec now hi) as [Hhi|Hhi].
      * rewrite Hsplit, between_app, (between_none _ _ (old ++ d)) by (intros t Ht; specialize (Hout t Ht); lia).
        pose proof (between_le (hi - window * 1000000) hi kept).
        pose proof (between_le (hi - window * 1000000) hi [now]). cbn in *. lia.
      * assert (between (hi - window * 1000000) hi [now] = 0) as ->; [|specialize (Hbound hi); lia].
        unfold between. cbn. rewrite (proj2 (Z.leb_gt now hi)) by lia. by rewrite andb_false_r.
Qed.

Fixpoint nondecreasing (last : Z) calls : Prop :=
  match calls with [] => True | (_, now) :: calls' => last ≤ now ∧ nondecreasing now calls' end.

Lemma times_app key xs ys : times key (xs ++ ys) = times key xs ++ times key ys.
Proof. unfold times. by rewrite List.filter_app, map_app. Qed.

Lemma remembers_later limit window last now admitted events :
  last ≤ now → remembers limit window last admitted events →
  remembers limit window now admitted events.
Proof.
  intros Hle [(old & Hold & Hlt) Hpast Hb]. split; [|intros t Ht; specialize (Hpast t Ht); lia|done].
  exists old. split; [done|]. intros t Ht. specialize (Hlt t Ht). lia.
Qed.

Lemma run_bound limit window calls : ∀ m last before,
  nondecreasing last calls →
  (∀ key, remembers limit window last (times key before) (default [] (m !! key))) →
  ∀ key hi, between (hi - window * 1000000) hi
              (times key (before ++ run_limiter limit window calls m)) ≤ Z.max 0 limit.
Proof.
  induction calls as [|[k now] calls IH]; intros m last before Hnd Hrm key hi; cbn.
  { rewrite app_nil_r. apply Hrm. }
  destruct Hnd as [Hle Hnd].
  pose proof (allow_remembers k limit window last now (times k before) m Hle (Hrm k)) as Hstep.
  destruct (allow k limit window now m) as [ok m'] eqn:Hal. destruct Hstep as [Hk Hother].
  rewrite app_assoc. apply (IH m' now); [done|]. intros key'. rewrite times_app.
  destruct (decide (key' = k)) as [->|Hne].
  - replace (times k (if ok then [(k, now)] else [])) with (if ok then [now] else []); [done|].
    destruct ok; [|done]. unfold times. cbn. by rewrite bool_decide_eq_true_2.
  - rewrite (Hother key' Hne).
    replace (times key' (if ok then [(k, now)] else [])) with (@nil Z).
    + rewrite app_nil_r. by eapply remembers_later.
    + destruct ok; [|done]. unfold times. cbn. by rewrite bool_decide_eq_false_2.
Qed.

(** The rate limiter holds its limit: as long as the clock does not go back, no
    window of the configured length, wherever it ends, contains more admitted
    calls of one key than the limit, whatever other keys do in between. *)
Theorem rate_limit_holds limit window start calls key t :
  nondecreasing start calls →
  in_window key window t (run_limiter limit window calls ∅) ≤ Z.max 0 limit.
Proof.
  intros Hnd. rewrite in_window_times. apply (run_bound limit window calls ∅ start [] Hnd).
  intros k. rewrite lookup_empty. split; cbn; [exists []; set_solver|set_solver|].
  intros hi. unfold between. cbn. lia.
Qed.
End limiter.

Lemma rate_limit_holds_witness :
  run_limiter 2 1 [("a", 0); ("a", 1); ("b", 2); ("a", 3); ("a", 1000001)]%string ∅
    = [("a", 0); ("a", 1); ("b", 2); ("a", 1000001)]%string
  ∧ in_window "a" 1 1000001
      (run_limiter 2 1 [("a", 0); ("a", 1); ("b", 2); ("a", 3); ("a", 1000001)]%string ∅) ≤ 2.
Proof.
  split; [by vm_compute|].
  assert (nondecreasing 0 [("a", 0); ("a", 1); ("b", 2); ("a", 3); ("a", 1000001)]%string) as Hnd
    by (cbn; lia).
  exact (rate_limit_holds 2 1 0 _ "a" 1000001 Hnd).
Defined.

Definition call_event : AnalyticsEventInput := {|
  ai_property_id := "p"; ai_event_type := call; ai_source_type := src_call_tracking;
  ai_source_name := "tracker"; ai_source_event_id := "e1"; ai_truth_basis := observed;
  ai_lead_id := None; ai_occurred_at := 5; ai_value_usd := None;
  ai_payload := JObj [("phone", JStr "+15550100"); ("seconds", JInt 40)]%string
|}.

Lemma analytics_event_is_stored_once_witness :
  ∃ db', record call_event (empty_db (USD := Z)) = (Ok 1, db')
    ∧ record call_event db' = (Ok 1, db')
    ∧ analytics_events db' !! 1 = Some (analytics_row call_event).
Proof.
  exists (record call_event (empty_db (USD := Z))).2.
  assert (record call_event (empty_db (USD := Z)) = (Ok 1, (record call_event empty_db).2)) as Hrun
    by reflexivity.
  destruct (analytics_event_is_stored_once call_event call_event 1 _ _ Hrun eq_refl eq_refl)
    as [Hagain Hnew].
  split; [exact Hrun|]. split; [exact Hagain|]. exact (proj1 (Hnew eq_refl)).
Defined.
