(* ===== verification/LeadDelivery.v ===== *)
(** * LeadDelivery: the delivery queue of lead_routing/worker.py

    Workers claim due deliveries under a lease, call the provider's adapter once
    per attempt and record what came back.  A delivery whose worker died before
    the call is queued again; one whose worker died during the call is never
    sent again.  [run_delivery_by_id] is split at the adapter call: what it does
    before ([begin_delivery]) and after it ([end_delivery]). *)
From S2P Require Import Prelude Binary64 Schema ProviderOperations LeadRouting.

Definition claimable_delivery_status (s : DeliveryStatus) : bool :=
  match s with d_pending | d_retrying => true | _ => false end.
Definition active_delivery_status (s : DeliveryStatus) : bool :=
  match s with d_leased | d_delivering => true | _ => false end.
Definition nonterminal_delivery_status (s : DeliveryStatus) : bool :=
  claimable_delivery_status s || active_delivery_status s.

Record DeliveryLease : Type := {
  dl_delivery_id : Z;
  dl_worker_id : string;
  dl_lease_token : string
}.

Definition _owns_delivery (d : ProviderDelivery) (lease : DeliveryLease) : bool :=
  active_delivery_status (pd_status d)
  && bool_decide (pd_worker_id d = Some (dl_worker_id lease))
  && bool_decide (pd_lease_token d = Some (dl_lease_token lease)).

Definition _clear_delivery_lease (d : ProviderDelivery) : ProviderDelivery :=
  d <| pd_worker_id := None |> <| pd_lease_token := None |> <| pd_claimed_at := None |>
    <| pd_heartbeat_at := None |> <| pd_lease_expires_at := None |>.

Definition _assignment_destination (a : ProviderAssignment) (c : DeliveryChannel)
    : option string :=
  match c with ch_email => as_destination_email a | ch_phone => as_destination_phone a end.

(** What the adapter call ended with: a result, a [RetryableDeliveryError], or
    another exception. *)
Record DeliveryResult : Type := {
  res_provider_message_id : string;
  res_accepted : bool;
  res_retryable : bool
}.
Inductive AdapterOutcome : Type :=
| adapter_result (r : DeliveryResult)
| adapter_retryable_error
| adapter_error.

(** What is handed to the adapter. *)
Record DeliveryRequest : Type := {
  rq_delivery_key : DeliveryKey;
  rq_property_id : string;
  rq_lead_id : Z;
  rq_provider_assignment_id : Z;
  rq_channel : DeliveryChannel;
  rq_destination : string;
  rq_contact_name : string;
  rq_contact_email : option string;
  rq_contact_phone : option string;
  rq_message : option string
}.

(** The operator alert: property, lead and reason. *)
Abbreviation Alert := (string * Z * string)%type.

(** ** The order of the queue: [ORDER BY next_attempt_at, id] *)
Section order.
Definition due_le : relation (Z * Z) := λ x y, x.1 < y.1 ∨ (x.1 = y.1 ∧ x.2 ≤ y.2).
#[export] Instance due_le_dec : RelDecision due_le.
Proof. intros x y. unfold due_le. apply _. Defined.

(** SQLite sorts NULL first, PostgreSQL last. *)
Definition queue_order (dia : dialect) (rows : list (Z * ProviderDelivery)) : list Z :=
  let nulls := omap (λ r, match pd_next_attempt_at r.2 with
                          | None => Some r.1 | Some _ => None end) rows in
  let timed := omap (λ r, match pd_next_attempt_at r.2 with
                          | Some t => Some (t, r.1) | None => None end) rows in
  match dia with
  | sqlite => nulls ++ (merge_sort due_le timed).*2
  | postgresql _ => (merge_sort due_le timed).*2 ++ nulls
  end.
End order.

Section worker.
Context {USD : Type}.
Implicit Types (db : Db USD) (lease : DeliveryLease).

Definition update_delivery (i : Z) (f : ProviderDelivery → ProviderDelivery) : Session USD unit :=
  modify (λ db, db <| provider_deliveries ::= alter f i |>).

Definition update_attempt (i : Z) (f : RoutingAttempt → RoutingAttempt) : Session USD unit :=
  modify (λ db, db <| routing_attempts ::= alter f i |>).

Definition set_lead_status (i : Z) (s : LeadStatus) : Session USD unit :=
  modify (λ db, db <| leads ::= alter (λ l, l <| ld_status := s |>) i |>).

(** ** Claiming *)

Definition delivery_due (now : Z) (d : ProviderDelivery) : bool :=
  claimable_delivery_status (pd_status d)
  && match pd_next_attempt_at d with None => true | Some t => t <=? now end.

Definition claimed_delivery (worker_id token : string) (now lease_us : Z)
    (d : ProviderDelivery) : ProviderDelivery :=
  d <| pd_status := d_leased |> <| pd_worker_id := Some worker_id |>
    <| pd_lease_token := Some token |> <| pd_claimed_at := Some now |>
    <| pd_heartbeat_at := Some now |> <| pd_lease_expires_at := Some (now + lease_us) |>
    <| pd_next_attempt_at := None |>.

Fixpoint claim_delivery_from (worker_id : string) (lease_seconds : binary64)
    (token : Z → string) (now : Z) (ids : list Z) : Session USD (option DeliveryLease) :=
  match ids with
  | [] => mret None
  | i :: ids' =>
      timedelta lease_seconds ≫= λ d,
      gets (λ db, provider_deliveries db !! i) ≫= λ (row : option ProviderDelivery),
      match row with
      | Some r =>
          if delivery_due now r then
            update_delivery i (claimed_delivery worker_id (token i) now d) ≫= λ _,
            mret (Some {| dl_delivery_id := i; dl_worker_id := worker_id;
                          dl_lease_token := token i |})
          else claim_delivery_from worker_id lease_seconds token now ids'
      | None => claim_delivery_from worker_id lease_seconds token now ids'
      end
  end.

Definition claim_next_delivery (worker_id : string) (lease_seconds : binary64)
    (token : Z → string) (now : Z) : Session USD (option DeliveryLease) :=
  gets (λ db, take 10 (queue_order (db_dialect db)
                         (select (λ _ d, delivery_due now d) (provider_deliveries db))))
  ≫= λ ids,
  claim_delivery_from worker_id lease_seconds token now ids.

(** ** The state of a lead *)

Definition _add_lead_event (lead_id : Z) (event_type : string) (key : LeadEventKey)
    (occurred_at : Z) : Session USD unit :=
  gets (λ db, select_first (λ _ e, bool_decide (le_lead_id e = lead_id)
                                   && bool_decide (le_event_key e = key)) (lead_events db))
  ≫= λ (existing : option (Z * LeadEvent)),
  match existing with
  | Some _ => mret tt
  | None =>
      modify (λ db, db <| lead_events ::= insert (next_id (lead_events db))
        {| le_lead_id := lead_id; le_event_type := event_type; le_event_key := key;
           le_source_name := "lead-delivery-worker"; le_occurred_at := occurred_at;
           le_truth_basis := observed; le_source_type := src_system;
           le_payload := JObj [] |} |>)
  end.

Definition deliveries_of (lead_id : Z) db : list ProviderDelivery :=
  (select (λ _ d, bool_decide (pd_lead_id d = lead_id)) (provider_deliveries db)).*2.

Definition _refresh_lead_state (lead_id at_time : Z) : Session USD bool :=
  gets (λ db, leads db !! lead_id) ≫= λ (lead : option Lead),
  match lead with
  | None => mret false
  | Some _ =>
      gets (deliveries_of lead_id) ≫= λ ds,
      if existsb (λ d, nonterminal_delivery_status (pd_status d)) ds then
        set_lead_status lead_id lead_routing ≫= λ _, mret false
      else if existsb (λ d, bool_decide (pd_status d = d_delivered)) ds then
        set_lead_status lead_id lead_delivered ≫= λ _,
        _add_lead_event lead_id "provider_delivery" (key_delivery lead_id) at_time ≫= λ _,
        mret false
      else
        set_lead_status lead_id lead_delivery_failed ≫= λ _,
        _add_lead_event lead_id "delivery_failed" (key_delivery_failed lead_id) at_time ≫= λ _,
        mret true
  end.

(** ** Recovery *)

Definition lost_during_call : string :=
  "The worker lease expired after provider delivery began. Automatic resend is blocked to prevent duplicate provider contact.".
Definition lost_before_call : string :=
  "The worker lease expired before provider delivery began; the job was requeued.".

Definition stale_delivery (cutoff now : Z) (d : ProviderDelivery) : bool :=
  active_delivery_status (pd_status d)
  && (match pd_lease_expires_at d with Some e => e <? now | None => true end
      || match pd_heartbeat_at d with Some h => h <? cutoff | None => true end).

Definition mark_unknown (now : Z) (d : ProviderDelivery) : ProviderDelivery :=
  d <| pd_status := d_outcome_unknown |>
    <| pd_last_error_code := Some "worker_lost_during_provider_call"%string |>
    <| pd_last_error_summary := Some lost_during_call |> <| pd_completed_at := Some now |>.

Definition mark_requeued (now : Z) (d : ProviderDelivery) : ProviderDelivery :=
  d <| pd_status := d_retrying |> <| pd_next_attempt_at := Some now |>
    <| pd_last_error_code := Some "worker_lost_before_provider_call"%string |>
    <| pd_last_error_summary := Some lost_before_call |>.

(** The newest running attempt of a delivery. *)
Definition running_attempt (k : DeliveryKey) db : option (Z * RoutingAttempt) :=
  select_latest ra_attempt_number
    (λ _ a, bool_decide (ra_delivery_key a = k) && bool_decide (ra_status a = "running"%string))
    (routing_attempts db).

Definition recover_delivery (now : Z) (i : Z) : Session USD unit :=
  get_or_raise (λ db, provider_deliveries db !! i) RuntimeError ≫= λ d,
  (if bool_decide (pd_status d = d_delivering) then
     update_delivery i (mark_unknown now) ≫= λ _,
     gets (running_attempt (pd_delivery_key d)) ≫= λ (attempt : option (Z * RoutingAttempt)),
     match attempt with
     | Some (k, _) =>
         update_attempt k (λ a, a <| ra_status := "outcome_unknown" |>
           <| ra_error_code := Some "worker_lost_during_provider_call"%string |>
           <| ra_error_summary := Some lost_during_call |> <| ra_completed_at := Some now |>)
     | None => mret tt
     end
   else update_delivery i (mark_requeued now)) ≫= λ _,
  update_delivery i _clear_delivery_lease ≫= λ _,
  _refresh_lead_state (pd_lead_id d) now ≫= λ _,
  mret tt.

Definition recover_stale_deliveries (stale_after_seconds : binary64) (now : Z)
    : Session USD Z :=
  timedelta stale_after_seconds ≫= λ d,
  let cutoff := now - d in
  gets (λ db, (select (λ _ d, stale_delivery cutoff now d) (provider_deliveries db)).*1)
  ≫= λ rows,
  for_each (recover_delivery now) rows ≫= λ _,
  mret (Z.of_nat (length rows)).

(** ** Running a claimed delivery *)

Definition fail_row (code summary : string) (now : Z) (d : ProviderDelivery)
    : ProviderDelivery :=
  _clear_delivery_lease (d <| pd_status := d_failed |> <| pd_last_error_code := Some code |>
    <| pd_last_error_summary := Some summary |> <| pd_completed_at := Some now |>).

Definition _fail_delivery (i lead_id : Z) (code summary : string) (now : Z)
    : Session USD (option Alert) :=
  update_delivery i (fail_row code summary now) ≫= λ _,
  _refresh_lead_state lead_id now ≫= λ (failed : bool),
  if failed then
    gets (λ db, leads db !! lead_id) ≫= λ (lead : option Lead),
    mret (lead ≫= λ l, Some (ld_property_id l, lead_id, "all_deliveries_failed"%string))
  else mret None.

(** Why a claimed delivery cannot be sent. *)
Definition validation_error (adapters : DeliveryChannel → option string)
    (d : ProviderDelivery) (lead : option Lead) (assignment : option (Z * ProviderAssignment))
    : option string :=
  match lead, assignment with
  | None, _ => Some "lead_not_found"
  | _, None => Some "provider_assignment_not_found"
  | Some l, Some (a_id, a) =>
      if negb (bool_decide (as_status a = active)) then Some "provider_assignment_not_active"
      else if negb (bool_decide (ld_provider_assignment_id l = Some a_id)) then
        Some "lead_assignment_mismatch"
      else if negb (bool_decide (adapters (pd_channel d) = Some (pd_adapter_name d))) then
        Some "delivery_adapter_unavailable"
      else match _assignment_destination a (pd_channel d) with
           | None => Some "assignment_destination_unavailable"
           | Some dest =>
               if negb (bool_decide (masked_destination dest = pd_destination_reference d)) then
                 Some "assignment_destination_changed"
               else None
           end
  end%string.

Definition request_of (d : ProviderDelivery) (l : Lead) (a_id : Z) (dest : string)
    : DeliveryRequest := {|
  rq_delivery_key := pd_delivery_key d; rq_property_id := ld_property_id l;
  rq_lead_id := pd_lead_id d; rq_provider_assignment_id := a_id;
  rq_channel := pd_channel d; rq_destination := dest;
  rq_contact_name := ld_name l; rq_contact_email := ld_email l;
  rq_contact_phone := ld_phone l; rq_message := ld_message l
|}.

Definition attempt_row (d : ProviderDelivery) (a_id number now : Z) : RoutingAttempt := {|
  ra_lead_id := pd_lead_id d; ra_provider_assignment_id := a_id; ra_channel := pd_channel d;
  ra_delivery_key := pd_delivery_key d; ra_attempt_number := number;
  ra_status := "running"; ra_error_code := None; ra_error_summary := None;
  ra_started_at := now; ra_completed_at := None
|}.

Definition attempt_of (k : DeliveryKey) (number : Z) db : option (Z * RoutingAttempt) :=
  select_first (λ _ a, bool_decide (ra_delivery_key a = k)
                       && bool_decide (ra_attempt_number a = number)) (routing_attempts db).

(** What the first half of [run_delivery_by_id] ends with. *)
Inductive BeginResult : Type :=
| not_owned
| refused (alert : option Alert)
| sending (request : DeliveryRequest) (attempt_number : Z).

Definition begin_delivery (adapters : DeliveryChannel → option string) lease (now : Z)
    : Session USD BeginResult :=
  gets (λ db, provider_deliveries db !! dl_delivery_id lease)
  ≫= λ (row : option ProviderDelivery),
  match row with
  | None => mret not_owned
  | Some d =>
      if negb (_owns_delivery d lease) then mret not_owned
      else
        gets (λ db, leads db !! pd_lead_id d) ≫= λ (lead : option Lead),
        gets (λ db, provider_assignments db !! pd_provider_assignment_id d)
        ≫= λ (assignment : option ProviderAssignment),
        match validation_error adapters d lead
                (pair (pd_provider_assignment_id d) <$> assignment), lead,
              assignment ≫= λ a, _assignment_destination a (pd_channel d) with
        | None, Some l, Some dest =>
            let number := pd_attempt_count d + 1 in
            gets (attempt_of (pd_delivery_key d) number)
            ≫= λ (duplicate : option (Z * RoutingAttempt)),
            raise_if (bool_decide (is_Some duplicate)) IntegrityError ≫= λ _,
            update_delivery (dl_delivery_id lease)
              (λ d, d <| pd_attempt_count := number |> <| pd_status := d_delivering |>) ≫= λ _,
            modify (λ db, db <| routing_attempts ::= insert (next_id (routing_attempts db))
              (attempt_row d (pd_provider_assignment_id d) number now) |>) ≫= λ _,
            mret (sending (request_of d l (pd_provider_assignment_id d) dest) number)
        | Some code, _, _ =>
            _fail_delivery (dl_delivery_id lease) (pd_lead_id d) code
              "Delivery failed validation before the provider adapter was called." now
            ≫= λ alert, mret (refused alert)
        | None, _, _ => raise AssertionError
        end
  end.

(** One iteration of [_heartbeat_delivery]; [false] is the lost lease. *)
Definition heartbeat_delivery lease (lease_seconds : binary64) (now : Z) : Session USD bool :=
  timedelta lease_seconds ≫= λ us,
  gets (λ db, provider_deliveries db !! dl_delivery_id lease)
  ≫= λ (row : option ProviderDelivery),
  match row with
  | Some d =>
      if _owns_delivery d lease then
        update_delivery (dl_delivery_id lease)
          (λ d, d <| pd_heartbeat_at := Some now |>
                  <| pd_lease_expires_at := Some (now + us) |>) ≫= λ _,
        mret true
      else mret false
  | None => mret false
  end.

Definition close_attempt (status : string) (error : option (string * string)) (now : Z)
    (a : RoutingAttempt) : RoutingAttempt :=
  let a := match error with
           | Some (code, summary) => a <| ra_error_code := Some code |>
                                       <| ra_error_summary := Some summary |>
           | None => a
           end in
  a <| ra_status := status |> <| ra_completed_at := Some now |>.

(** [min(retry_max, retry_base * float(2 ** max(0, count - 1)))] *)
Definition delivery_retry_delay (count : Z) (base maximum : binary64) : option binary64 :=
  factor ← F64.float_of_int (2 ^ Z.max 0 (count - 1));
  Some (F64.min maximum (F64.mul base factor)).

Definition retryable_error : string * string :=
  ("retryable_adapter_failure", "Delivery adapter reported a known transient failure.")%string.

Definition _retry_or_fail (i attempt : Z) (base maximum : binary64) (now : Z)
    : Session USD (option Alert) :=
  get_or_raise (λ db, provider_deliveries db !! i) RuntimeError ≫= λ d,
  update_attempt attempt (close_attempt "retryable_failure" (Some retryable_error) now) ≫= λ _,
  update_delivery i (λ d, d <| pd_last_error_code := Some retryable_error.1 |>
                            <| pd_last_error_summary := Some retryable_error.2 |>) ≫= λ _,
  if pd_max_attempts d <=? pd_attempt_count d then
    _fail_delivery i (pd_lead_id d) "delivery_attempts_exhausted"
      "Delivery exhausted its bounded retry allowance." now
  else
    get_or_raise (λ _, delivery_retry_delay (pd_attempt_count d) base maximum) OverflowError
    ≫= λ delay,
    timedelta delay ≫= λ us,
    update_delivery i (λ d, _clear_delivery_lease
      (d <| pd_status := d_retrying |> <| pd_next_attempt_at := Some (now + us) |>)) ≫= λ _,
    _refresh_lead_state (pd_lead_id d) now ≫= λ _,
    mret None.

Definition deliver_row (message_id : string) (now : Z) (d : ProviderDelivery)
    : ProviderDelivery :=
  _clear_delivery_lease
    (d <| pd_provider_message_id := Some message_id |> <| pd_status := d_delivered |>
       <| pd_delivered_at := Some now |> <| pd_completed_at := Some now |>
       <| pd_last_error_code := None |> <| pd_last_error_summary := None |>).

(** The second half of [run_delivery_by_id]. *)
Definition end_delivery lease (number : Z) (outcome : AdapterOutcome) (base maximum : binary64)
    (now : Z) : Session USD (option Alert) :=
  gets (λ db, provider_deliveries db !! dl_delivery_id lease)
  ≫= λ (row : option ProviderDelivery),
  match row with
  | None => mret None
  | Some d =>
      if negb (_owns_delivery d lease) then mret None
      else
        gets (attempt_of (pd_delivery_key d) number)
        ≫= λ (attempt : option (Z * RoutingAttempt)),
        match attempt with
        | None => mret None
        | Some (k, _) =>
            let i := dl_delivery_id lease in
            let retry := _retry_or_fail i k base maximum now in
            let fail status code summary :=
              update_attempt k (close_attempt status (Some (code, summary)) now) ≫= λ _,
              _fail_delivery i (pd_lead_id d) code summary now in
            match outcome with
            | adapter_retryable_error => retry
            | adapter_error =>
                fail "permanent_failure" "adapter_failure"
                  "Delivery adapter failed with a permanent error."
            | adapter_result r =>
                if res_accepted r then
                  update_attempt k (close_attempt "succeeded" None now) ≫= λ _,
                  update_delivery i (deliver_row (res_provider_message_id r) now) ≫= λ _,
                  _refresh_lead_state (pd_lead_id d) now ≫= λ _,
                  mret None
                else if res_retryable r then retry
                else fail "rejected" "provider_rejected_delivery"
                       "The provider adapter rejected delivery."
            end%string
        end
  end.

(** ** The loop of a worker

    What the environment decides in one round: the clock and the tokens drawn, and what
    the adapter answers. *)
Record Round : Type := {
  rd_polled_at : Z;
  rd_begun_at : Z;
  rd_ended_at : Z;
  rd_token : Z → string;
  rd_answer : DeliveryRequest → AdapterOutcome
}.

(** [run_delivery_by_id]: the two transactions around the adapter call. *)
Definition run_delivery_by_id (adapters : DeliveryChannel → option string) lease
    (base maximum : binary64) (round : Round) : Session USD (option Alert) :=
  begin_delivery adapters lease (rd_begun_at round) ≫= λ r,
  match r with
  | not_owned => mret None
  | refused alert => mret alert
  | sending request number =>
      end_delivery lease number (rd_answer round request) base maximum (rd_ended_at round)
  end.

(** One round of [lead_delivery_worker_loop]; [false] when it found nothing to do. *)
Definition delivery_round (worker_id : string) (adapters : DeliveryChannel → option string)
    (stale_after_seconds base maximum : binary64) (round : Round) : Session USD bool :=
  recover_stale_deliveries stale_after_seconds (rd_polled_at round) ≫= λ _,
  claim_next_delivery worker_id stale_after_seconds (rd_token round) (rd_polled_at round)
  ≫= λ (claimed : option DeliveryLease),
  match claimed with
  | Some l => run_delivery_by_id adapters l base maximum round ≫= λ _, mret true
  | None => mret false
  end.
End worker.
