(* ===== verification/LeadDeliveryProofs.v ===== *)
(** * LeadDeliveryProofs: what the delivery handlers do to the rows

    The effect of every handler of the queue on the deliveries and on the status
    of the lead, and the invariant that ties the number of calls made to the
    provider, the attempt counters, the leases and the lead's status together. *)
From S2P Require Import Prelude Binary64 Schema ProviderOperations LeadRouting LeadDelivery.

(** ** The status of a lead *)
Section lead_state.
Context {USD : Type}.
Implicit Types (db : Db USD) (d : ProviderDelivery).

(** Some delivery of the lead satisfies [p]. *)
Definition some_delivery (lead_id : Z) (p : DeliveryStatus → bool) db : Prop :=
  ∃ i d, provider_deliveries db !! i = Some d ∧ pd_lead_id d = lead_id ∧ p (pd_status d) = true.

Definition is_delivered (s : DeliveryStatus) : bool := bool_decide (s = d_delivered).

Lemma exists_delivery lead_id (p : DeliveryStatus → bool) db :
  existsb (λ d, p (pd_status d)) (deliveries_of lead_id db) = true ↔ some_delivery lead_id p db.
Proof.
  unfold deliveries_of. rewrite existsb_exists. split.
  - intros (d & Hin & Hp). apply list_elem_of_In, list_elem_of_fmap in Hin as ([i d'] & -> & Hd).
    apply elem_of_select in Hd as [Hi Hl]. bools. by exists i, d'.
  - intros (i & d & Hi & Hl & Hp). exists d. split; [|done].
    apply list_elem_of_In, list_elem_of_fmap. exists (i, d). split; [done|].
    apply elem_of_select. split; [done|]. by apply bool_decide_eq_true.
Qed.

(** The status the deliveries of a lead call for. *)
Definition derived (lead_id : Z) db : LeadStatus :=
  if existsb (λ d, nonterminal_delivery_status (pd_status d)) (deliveries_of lead_id db)
  then lead_routing
  else if existsb (λ d, bool_decide (pd_status d = d_delivered)) (deliveries_of lead_id db)
  then lead_delivered else lead_delivery_failed.

(** A lead's status says what happened to its deliveries. *)
Definition truthful_status (lead_id : Z) (s : LeadStatus) db : Prop :=
  match s with
  | lead_routing => some_delivery lead_id nonterminal_delivery_status db
  | lead_delivered => ¬ some_delivery lead_id nonterminal_delivery_status db
                      ∧ some_delivery lead_id is_delivered db
  | lead_delivery_failed => ¬ some_delivery lead_id nonterminal_delivery_status db
                            ∧ ¬ some_delivery lead_id is_delivered db
  | lead_deleted => ¬ some_delivery lead_id nonterminal_delivery_status db
  | lead_spam | lead_received => ¬ some_delivery lead_id (λ _, true) db
  end.

Lemma derived_truthful lead_id db : truthful_status lead_id (derived lead_id db) db.
Proof.
  unfold derived.
  destruct (existsb (λ d, nonterminal_delivery_status _) _) eqn:Hn; cbn.
  { by apply exists_delivery. }
  assert (¬ some_delivery lead_id nonterminal_delivery_status db) as Hno.
  { intros Hs. apply exists_delivery in Hs. congruence. }
  destruct (existsb (λ d, bool_decide _) _) eqn:Hd; cbn; (split; [done|]).
  - by apply (exists_delivery lead_id is_delivered).
  - intros Hs. apply (exists_delivery lead_id is_delivered) in Hs. unfold is_delivered in Hs. congruence.
Qed.

#[export] Instance add_lead_event_keeps_leads i t k now :
  Keeps (@leads USD) (_add_lead_event i t k now).
Proof. unfold _add_lead_event. apply keeps_bind; [apply _|]. intros [?|]; apply _. Qed.
#[export] Instance add_lead_event_keeps_deliveries i t k now :
  Keeps (@provider_deliveries USD) (_add_lead_event i t k now).
Proof. unfold _add_lead_event. apply keeps_bind; [apply _|]. intros [?|]; apply _. Qed.

Lemma add_lead_event_total i t k now db : ∃ db', _add_lead_event i t k now db = (Ok tt, db').
Proof. unfold _add_lead_event. rewrite bind_gets. case_match; by eexists. Qed.

(** [_refresh_lead_state] always returns, and sets the derived status. *)
Lemma refresh_run lead_id now db :
  ∃ b db', _refresh_lead_state lead_id now db = (Ok b, db')
    ∧ provider_deliveries db' = provider_deliveries db
    ∧ leads db' = alter (λ l, l <| ld_status := derived lead_id db |>) lead_id (leads db).
Proof.
  unfold _refresh_lead_state, derived. rewrite bind_gets.
  destruct (leads db !! lead_id) as [l|] eqn:Hl.
  2: { eexists _, _. split; [done|]. split; [done|]. by rewrite alter_none. }
  rewrite bind_gets. set (ds := deliveries_of lead_id db).
  destruct (existsb (λ d, nonterminal_delivery_status _) ds); [by eexists _, _|].
  assert (∀ s t k (b : bool), ∃ db',
    (set_lead_status lead_id s ≫= λ _, _add_lead_event lead_id t k now ≫= λ _, mret (b : bool)) db
      = (Ok b, db') ∧ provider_deliveries db' = provider_deliveries db
    ∧ leads db' = alter (λ l, l <| ld_status := s |>) lead_id (leads db)) as Hset.
  { intros s t k b. rewrite (bind_run _ _ _ _ _ (eq_refl : set_lead_status lead_id s db = _)).
    set (db1 := db <| leads ::= _ |>).
    destruct (add_lead_event_total lead_id t k now db1) as [db2 Hadd].
    exists db2. rewrite (bind_run _ _ _ _ _ Hadd). split; [done|].
    by rewrite (keeps_ok provider_deliveries _ _ _ _ Hadd), (keeps_ok leads _ _ _ _ Hadd). }
  destruct (existsb (λ d, bool_decide _) ds); eauto.
Qed.

Lemma refresh_ok lead_id now db b db' :
  _refresh_lead_state lead_id now db = (Ok b, db') →
  provider_deliveries db' = provider_deliveries db
  ∧ leads db' = alter (λ l, l <| ld_status := derived lead_id db |>) lead_id (leads db).
Proof.
  intros Hrun. destruct (refresh_run lead_id now db) as (b1 & db1 & Hrun1 & ?).
  by assert (db1 = db') as -> by congruence.
Qed.
End lead_state.

(** ** The effect of the handlers *)
Section effects.
Context {USD : Type}.
Implicit Types (db : Db USD) (d : ProviderDelivery) (lease : DeliveryLease).

(** What no handler changes of a delivery. *)
Definition identity d := (pd_lead_id d, pd_provider_assignment_id d, pd_delivery_key d,
  pd_channel d, pd_max_attempts d).

(** A delivery that a worker had in hand is given up: for good, or back to the
    queue when there is an attempt left or none was made. *)
Record settled d d' : Prop := {
  st_identity : identity d' = identity d;
  st_count : pd_attempt_count d' = pd_attempt_count d;
  st_lease : pd_lease_token d' = None;
  st_active : active_delivery_status (pd_status d) = true;
  st_status : nonterminal_delivery_status (pd_status d') = false
    ∨ (pd_status d' = d_retrying
       ∧ (pd_status d = d_leased ∨ pd_attempt_count d < pd_max_attempts d))
}.

Definition settles (i : Z) db db' : Prop :=
  ∃ d d', provider_deliveries db !! i = Some d
    ∧ provider_deliveries db' = <[i := d']> (provider_deliveries db) ∧ settled d d'
    ∧ leads db' = alter (λ l, l <| ld_status := derived (pd_lead_id d) db' |>)
                    (pd_lead_id d) (leads db).

Lemma derived_same lead_id db db' :
  provider_deliveries db' = provider_deliveries db → derived lead_id db' = derived lead_id db.
Proof. intros Hp. unfold derived, deliveries_of. by rewrite Hp. Qed.

(** A change of the row followed by the refresh of its lead. *)
Lemma settle_refresh i f now b db db1 db' d :
  provider_deliveries db !! i = Some d → settled d (f d) →
  provider_deliveries db1 = alter f i (provider_deliveries db) → leads db1 = leads db →
  _refresh_lead_state (pd_lead_id d) now db1 = (Ok b, db') → settles i db db'.
Proof.
  intros Hi Hs Hp Hl [Hp' Hl']%refresh_ok. exists d, (f d). split; [done|].
  rewrite Hp', Hp, (alter_as_insert _ _ _ _ Hi). split; [done|]. split; [done|].
  rewrite Hl', Hl. by rewrite (derived_same _ db1 db' Hp').
Qed.

Lemma fail_ok i code summary now db a db' d :
  provider_deliveries db !! i = Some d → active_delivery_status (pd_status d) = true →
  _fail_delivery i (pd_lead_id d) code summary now db = (Ok a, db') → settles i db db'.
Proof.
  intros Hi Ha. unfold _fail_delivery. intros (u & db1 & [= _ <-] & Hrun)%bind_ok.
  apply bind_ok in Hrun as (b & db2 & Href & Hret).
  assert (db' = db2) as -> by (destruct b; [rewrite bind_gets in Hret|]; by injection Hret as _ <-).
  eapply (settle_refresh i (fail_row code summary now)); [done| | | |exact Href]; try done.
  split; try done. by left.
Qed.

Lemma recover_delivery_ok now i u db db' d :
  provider_deliveries db !! i = Some d → active_delivery_status (pd_status d) = true →
  recover_delivery now i db = (Ok u, db') → settles i db db'.
Proof.
  intros Hi Ha. unfold recover_delivery. rewrite bind_get_or_raise, Hi.
  intros (u1 & db1 & Hmark & Hrun)%bind_ok.
  apply bind_ok in Hrun as (u2 & db2 & [= _ <-] & Hrun).
  apply bind_ok in Hrun as (b & db3 & Href & [= _ <-]).
  set (f := if bool_decide (pd_status d = d_delivering) then mark_unknown now else mark_requeued now).
  assert (provider_deliveries db1 = alter f i (provider_deliveries db) ∧ leads db1 = leads db)
    as [Hp Hl].
  { unfold f. case_bool_decide; [|by injection Hmark as _ <-].
    apply bind_ok in Hmark as (u3 & db2 & [= _ <-] & Hmark). rewrite bind_gets in Hmark.
    destruct (running_attempt _ _) as [[k ?]|]; by injection Hmark as _ <-. }
  eapply (settle_refresh i (_clear_delivery_lease ∘ f)); [done| | | |exact Href].
  - unfold f. case_bool_decide as Hd; split; try done; [by left|]. right. split; [done|]. left.
    by destruct (pd_status d).
  - cbn -[alter]. rewrite Hp. by rewrite alter_alter_eq.
  - done.
Qed.

Lemma retry_or_fail_ok i k base maximum now db a db' d :
  provider_deliveries db !! i = Some d → active_delivery_status (pd_status d) = true →
  _retry_or_fail i k base maximum now db = (Ok a, db') → settles i db db'.
Proof.
  intros Hi Ha. unfold _retry_or_fail. rewrite bind_get_or_raise, Hi.
  intros (u1 & db1 & [= _ <-] & Hrun)%bind_ok. apply bind_ok in Hrun as (u2 & db2 & [= _ <-] & Hrun).
  match type of Hrun with context [alter ?g i] => set (f := g) in Hrun end.
  destruct (Z.leb_spec (pd_max_attempts d) (pd_attempt_count d)) as [Hle|Hlt].
  - unfold _fail_delivery in Hrun. apply bind_ok in Hrun as (u3 & db3 & [= _ <-] & Hrun).
    apply bind_ok in Hrun as (b & db4 & Href & Hret).
    assert (db' = db4) as -> by (destruct b; [rewrite bind_gets in Hret|]; by injection Hret as _ <-).
    eapply (settle_refresh i (fail_row "delivery_attempts_exhausted"
      "Delivery exhausted its bounded retry allowance." now ∘ f)); [done| | | |exact Href].
    + split; try done. by left.
    + cbn -[alter]. by rewrite alter_alter_eq.
    + done.
  - rewrite bind_get_or_raise in Hrun. destruct (delivery_retry_delay _ _ _) as [delay|]; [|done].
    unfold timedelta in Hrun. rewrite bind_get_or_raise in Hrun.
    destruct (F64.timedelta_seconds delay) as [us|]; [|done].
    apply bind_ok in Hrun as (u3 & db3 & [= _ <-] & Hrun).
    apply bind_ok in Hrun as (b & db4 & Href & [= _ <-]).
    match type of Href with context [alter ?g i] => set (g1 := g) in Href end.
    eapply (settle_refresh i (g1 ∘ f)); [done| | | |exact Href].
    + split; try done. right. split; [done|by right].
    + cbn -[alter]. by rewrite alter_alter_eq.
    + done.
Qed.

Lemma end_ok lease number outcome base maximum now a db db' :
  end_delivery lease number outcome base maximum now db = (Ok a, db') →
  db' = db ∨ settles (dl_delivery_id lease) db db'.
Proof.
  unfold end_delivery. rewrite bind_gets. set (i := dl_delivery_id lease).
  destruct (provider_deliveries db !! i) as [d|] eqn:Hi; [|intros [= _ <-]; by left].
  destruct (_owns_delivery d lease) eqn:Ho; cbn [negb]; [|intros [= _ <-]; by left].
  assert (active_delivery_status (pd_status d) = true) as Ha.
  { unfold _owns_delivery in Ho. by bools. }
  rewrite bind_gets. destruct (attempt_of _ _ _) as [[k att]|]; [|intros [= _ <-]; by left].
  assert (∀ status code summary, (update_attempt k (close_attempt status (Some (code, summary)) now)
    ≫= λ _, _fail_delivery i (pd_lead_id d) code summary now) db = (Ok a, db') →
    settles i db db') as Hfail.
  { intros st co su (u1 & db1 & [= _ <-] & Hrun)%bind_ok.
    by eapply (fail_ok i co su now _ a db' d) in Hrun. }
  destruct outcome as [r| |]; cbv zeta.
  - destruct (res_accepted r); [|destruct (res_retryable r)].
    + intros (u1 & db1 & [= _ <-] & Hrun)%bind_ok. apply bind_ok in Hrun as (u2 & db2 & [= _ <-] & Hrun).
      apply bind_ok in Hrun as (b & db3 & Href & [= _ <-]). right.
      eapply (settle_refresh i (deliver_row (res_provider_message_id r) now)); [done| | | |exact Href];
        try done. split; try done. by left.
    + intros Hrun. right. by eapply retry_or_fail_ok.
    + intros Hrun. right. by eapply Hfail.
  - intros Hrun. right. by eapply retry_or_fail_ok.
  - intros Hrun. right. by eapply Hfail.
Qed.

(** The row of a delivery that is being sent. *)
Definition sent_row d : ProviderDelivery :=
  d <| pd_attempt_count := pd_attempt_count d + 1 |> <| pd_status := d_delivering |>.

Lemma begin_ok adapters lease now r db db' :
  begin_delivery adapters lease now db = (Ok r, db') →
  match r with
  | not_owned => db' = db
  | refused _ => settles (dl_delivery_id lease) db db'
  | sending rq n => ∃ d l, provider_deliveries db !! dl_delivery_id lease = Some d
      ∧ _owns_delivery d lease = true ∧ leads db !! pd_lead_id d = Some l
      ∧ n = pd_attempt_count d + 1 ∧ leads db' = leads db
      ∧ provider_deliveries db' = <[dl_delivery_id lease := sent_row d]> (provider_deliveries db)
  end.
Proof.
  unfold begin_delivery. rewrite bind_gets. set (i := dl_delivery_id lease).
  destruct (provider_deliveries db !! i) as [d|] eqn:Hi; [|by intros [= <- <-]].
  destruct (_owns_delivery d lease) eqn:Ho; cbn [negb]; [|by intros [= <- <-]].
  rewrite !bind_gets. destruct (validation_error _ _ _ _) as [code|].
  - intros (alert & db1 & Hfail & [= <- <-])%bind_ok. eapply fail_ok; [done| |done].
    unfold _owns_delivery in Ho. by bools.
  - destruct (leads db !! pd_lead_id d) as [l|] eqn:Hl; [|done].
    destruct (provider_assignments db !! _ ≫= _) as [dest|]; [|done].
    rewrite bind_gets, bind_raise_if. case_bool_decide; [done|]. intros [= <- <-].
    exists d, l. repeat (split; [done|]). cbn -[alter insert].
    by rewrite (alter_as_insert _ _ _ _ Hi).
Qed.

Lemma claim_from_effect worker after token now ids db r db' :
  claim_delivery_from worker after token now ids db = (Ok r, db') →
  match r with
  | None => db' = db
  | Some l => dl_worker_id l = worker ∧ dl_lease_token l = token (dl_delivery_id l)
      ∧ dl_delivery_id l ∈ ids ∧ leads db' = leads db
      ∧ ∃ d us, F64.timedelta_seconds after = Some us
        ∧ provider_deliveries db !! dl_delivery_id l = Some d ∧ delivery_due now d = true
        ∧ provider_deliveries db' = <[dl_delivery_id l :=
            claimed_delivery worker (token (dl_delivery_id l)) now us d]> (provider_deliveries db)
  end.
Proof.
  induction ids as [|i ids IH]; simpl; [by intros [= <- <-]|].
  unfold timedelta. rewrite bind_get_or_raise.
  destruct (F64.timedelta_seconds after) as [us|] eqn:Hus; [|done]. rewrite bind_gets.
  destruct (provider_deliveries db !! i) as [d|] eqn:Hi.
  - destruct (delivery_due now d) eqn:Hd.
    + intros [= <- <-]. cbn -[alter insert]. do 2 (split; [done|]). split; [left|].
      split; [done|]. exists d, us. by rewrite (alter_as_insert _ _ _ _ Hi).
    + intros Hrun. specialize (IH Hrun). destruct r as [l|]; [|done].
      destruct IH as (? & ? & ? & ?). repeat (split; [by try right|]). done.
  - intros Hrun. specialize (IH Hrun). destruct r as [l|]; [|done].
    destruct IH as (? & ? & ? & ?). repeat (split; [by try right|]). done.
Qed.

Lemma heartbeat_effect lease after now b db db' :
  heartbeat_delivery lease after now db = (Ok b, db') →
  leads db' = leads db
  ∧ (provider_deliveries db' = provider_deliveries db
     ∨ ∃ d d', provider_deliveries db !! dl_delivery_id lease = Some d
         ∧ provider_deliveries db' = <[dl_delivery_id lease := d']> (provider_deliveries db)
         ∧ identity d' = identity d ∧ pd_attempt_count d' = pd_attempt_count d
         ∧ pd_status d' = pd_status d ∧ pd_lease_token d' = pd_lease_token d).
Proof.
  unfold heartbeat_delivery, timedelta. rewrite bind_get_or_raise.
  destruct (F64.timedelta_seconds after); [|done]. rewrite bind_gets.
  destruct (provider_deliveries db !! _) as [d|] eqn:Hi; [|intros [= _ <-]; auto].
  destruct (_owns_delivery d lease); [|intros [= _ <-]; auto].
  intros [= _ <-]. split; [done|]. right. exists d. eexists. split; [done|].
  cbn -[alter insert]. rewrite (alter_as_insert _ _ _ _ Hi). done.
Qed.

Lemma recover_effect after now n db db' :
  recover_stale_deliveries after now db = (Ok n, db') →
  rtc (λ db db', ∃ i, settles i db db') db db'.
Proof.
  unfold recover_stale_deliveries, timedelta. rewrite bind_get_or_raise.
  destruct (F64.timedelta_seconds after) as [us|]; [|done]. rewrite bind_gets.
  set (rows := (select _ _).*1). intros (u & db1 & Hloop & [= _ <-])%bind_ok.
  assert (∀ i, i ∈ rows → ∃ d, provider_deliveries db !! i = Some d
    ∧ active_delivery_status (pd_status d) = true) as Hrows.
  { intros i ([j d] & -> & [Hj Hs]%elem_of_select)%list_elem_of_fmap. exists d.
    unfold stale_delivery in Hs. by bools. }
  assert (NoDup rows) as Hnd by apply select_NoDup. clearbody rows.
  revert db Hrows Hloop. induction rows as [|i rows IH]; intros db Hrows Hloop; simpl in Hloop.
  { injection Hloop as _ <-. apply rtc_refl. }
  apply NoDup_cons in Hnd as [Hni Hnd].
  apply bind_ok in Hloop as (u1 & db2 & Hone & Hloop).
  destruct (Hrows i) as (d & Hi & Ha); [by left|].
  apply (recover_delivery_ok now i _ _ _ d Hi Ha) in Hone.
  eapply rtc_l; [by exists i|]. apply (IH Hnd db2); [|done].
  intros j Hj. destruct Hone as (d1 & d2 & _ & Hp & _).
  rewrite Hp, lookup_insert_ne by congruence. apply Hrows. by right.
Qed.
End effects.
