(* ===== verification/LeadDeliveryInvariant.v ===== *)
(** * LeadDeliveryInvariant: the delivery queue as a system

    Workers, submissions and deletions interleave on the database; what a worker
    remembers between its transactions is the lease it claimed.  The invariant
    holds in every reachable state of that system. *)
From S2P Require Import Prelude Binary64 Schema ProviderOperations LeadRouting LeadDelivery.
From S2P Require Import LeadDeliveryProofs.

Section truth.
Context {USD : Type}.
Implicit Types (db : Db USD) (d : ProviderDelivery).

(** The deliveries of a lead look the same in both states. *)
Definition same_outcomes (lead_id : Z) db db' : Prop :=
  (some_delivery lead_id nonterminal_delivery_status db'
   ↔ some_delivery lead_id nonterminal_delivery_status db)
  ∧ (some_delivery lead_id is_delivered db' ↔ some_delivery lead_id is_delivered db)
  ∧ (some_delivery lead_id (λ _, true) db' ↔ some_delivery lead_id (λ _, true) db).

Lemma truthful_same lead_id s db db' :
  same_outcomes lead_id db db' → truthful_status lead_id s db → truthful_status lead_id s db'.
Proof. intros (H1 & H2 & H3). destruct s; cbn; by rewrite ?H1, ?H2, ?H3. Qed.

Lemma same_outcomes_refl lead_id db db' :
  provider_deliveries db' = provider_deliveries db → same_outcomes lead_id db db'.
Proof. intros Hp. unfold same_outcomes, some_delivery. by rewrite Hp. Qed.

Lemma some_delivery_update lead_id p i d d' db db' :
  provider_deliveries db !! i = Some d →
  provider_deliveries db' = <[i := d']> (provider_deliveries db) →
  pd_lead_id d' = pd_lead_id d →
  (lead_id ≠ pd_lead_id d ∨ p (pd_status d') = p (pd_status d)) →
  some_delivery lead_id p db' ↔ some_delivery lead_id p db.
Proof.
  intros Hi Hp Hl Hor. unfold some_delivery. rewrite Hp. split.
  - intros (j & e & Hj & He & Hpe). rewrite lookup_insert in Hj. case_decide; [|by exists j, e].
    injection Hj as <-. subst j. exists i, d. split; [done|].
    destruct Hor as [Hne|Heq]; [congruence|]. split; congruence.
  - intros (j & e & Hj & He & Hpe). destruct (decide (i = j)) as [<-|Hne].
    + assert (e = d) as -> by congruence. exists i, d'. rewrite lookup_insert_eq.
      split; [done|]. destruct Hor; [congruence|]. split; congruence.
    + exists j, e. by rewrite lookup_insert_ne.
Qed.

Lemma same_outcomes_update lead_id i d d' db db' :
  provider_deliveries db !! i = Some d →
  provider_deliveries db' = <[i := d']> (provider_deliveries db) →
  pd_lead_id d' = pd_lead_id d →
  lead_id ≠ pd_lead_id d
  ∨ (nonterminal_delivery_status (pd_status d') = nonterminal_delivery_status (pd_status d)
     ∧ is_delivered (pd_status d') = is_delivered (pd_status d)) →
  same_outcomes lead_id db db'.
Proof.
  intros Hi Hp Hl Hor. split_and!; eapply some_delivery_update; try done; naive_solver.
Qed.
End truth.

(** ** The system *)
Section system.
Context {USD : Type} (hmac_sha256 : string → string → string).
Implicit Types (db : Db USD) (d : ProviderDelivery) (lease : DeliveryLease).

(** The database; the leases claimed and not yet run; the deliveries handed to an
    adapter, one entry per call; the lease tokens drawn so far. *)
Record Queue : Type := {
  q_db : Db USD;
  q_claimed : list DeliveryLease;
  q_sent : list Z;
  q_tokens : list string
}.

(** A transaction of one of the actors commits, or a worker dies. *)
Inductive queue_step (q : Queue) : Queue → Prop :=
| qs_claim worker after token now l db' :
    claim_next_delivery worker after token now (q_db q) = (Ok (Some l), db') →
    dl_lease_token l ∉ q_tokens q →
    queue_step q {| q_db := db'; q_claimed := l :: q_claimed q; q_sent := q_sent q;
                    q_tokens := dl_lease_token l :: q_tokens q |}
| qs_begin adapters l1 lease l2 now r db' :
    q_claimed q = l1 ++ lease :: l2 →
    begin_delivery adapters lease now (q_db q) = (Ok r, db') →
    queue_step q {| q_db := db'; q_claimed := l1 ++ l2;
                    q_sent := match r with
                              | sending _ _ => dl_delivery_id lease :: q_sent q
                              | _ => q_sent q end;
                    q_tokens := q_tokens q |}
| qs_crash l1 lease l2 :
    q_claimed q = l1 ++ lease :: l2 →
    queue_step q {| q_db := q_db q; q_claimed := l1 ++ l2; q_sent := q_sent q;
                    q_tokens := q_tokens q |}
| qs_heartbeat lease after now b db' :
    heartbeat_delivery lease after now (q_db q) = (Ok b, db') →
    queue_step q {| q_db := db'; q_claimed := q_claimed q; q_sent := q_sent q;
                    q_tokens := q_tokens q |}
| qs_end lease number outcome base maximum now a db' :
    end_delivery lease number outcome base maximum now (q_db q) = (Ok a, db') →
    queue_step q {| q_db := db'; q_claimed := q_claimed q; q_sent := q_sent q;
                    q_tokens := q_tokens q |}
| qs_recover after now n db' :
    recover_stale_deliveries after now (q_db q) = (Ok n, db') →
    queue_step q {| q_db := db'; q_claimed := q_claimed q; q_sent := q_sent q;
                    q_tokens := q_tokens q |}
| qs_submit policy adapters allowed spam lead_id delivery_id form context db0 s db1 r db' :
    1 ≤ maximum_delivery_attempts policy →
    prepare_submit hmac_sha256 policy adapters allowed spam lead_id delivery_id form context db0
      = (Ok (inr s), db1) →
    insert_submission form s (q_db q) = (Ok r, db') →
    queue_step q {| q_db := db'; q_claimed := q_claimed q; q_sent := q_sent q;
                    q_tokens := q_tokens q |}
| qs_delete i access now b db' :
    delete_lead i access now (q_db q) = (Ok b, db') →
    queue_step q {| q_db := db'; q_claimed := q_claimed q; q_sent := q_sent q;
                    q_tokens := q_tokens q |}
| qs_retention now ids db' :
    enforce_retention now (q_db q) = (Ok ids, db') →
    queue_step q {| q_db := db'; q_claimed := q_claimed q; q_sent := q_sent q;
                    q_tokens := q_tokens q |}
| qs_other db' :
    provider_deliveries db' = provider_deliveries (q_db q) → leads db' = leads (q_db q) →
    queue_step q {| q_db := db'; q_claimed := q_claimed q; q_sent := q_sent q;
                    q_tokens := q_tokens q |}.

(** How often a delivery was handed to an adapter. *)
Definition sends (i : Z) (sent : list Z) : Z := Z.of_nat (count_occ Z.eq_dec sent i).

Definition waiting (s : DeliveryStatus) : bool :=
  match s with d_pending | d_leased | d_retrying => true | _ => false end.

Record row_ok (n : Z) d : Prop := {
  ro_count : pd_attempt_count d = n;
  ro_bound : n ≤ pd_max_attempts d;
  ro_left : waiting (pd_status d) = true → n < pd_max_attempts d
}.

Record queue_inv (q : Queue) : Prop := {
  qi_rows i d : provider_deliveries (q_db q) !! i = Some d → row_ok (sends i (q_sent q)) d;
  qi_none i : provider_deliveries (q_db q) !! i = None → sends i (q_sent q) = 0;
  qi_leads i l : leads (q_db q) !! i = Some l → truthful_status i (ld_status l) (q_db q);
  qi_owner i d : provider_deliveries (q_db q) !! i = Some d →
    is_Some (leads (q_db q) !! pd_lead_id d);
  qi_tokens i d t : provider_deliveries (q_db q) !! i = Some d → pd_lease_token d = Some t →
    t ∈ q_tokens q;
  qi_claimed l : l ∈ q_claimed q → dl_lease_token l ∈ q_tokens q;
  qi_nodup : NoDup (dl_lease_token <$> q_claimed q);
  qi_fresh i d l : provider_deliveries (q_db q) !! i = Some d → pd_status d = d_delivering →
    l ∈ q_claimed q → dl_delivery_id l = i → pd_lease_token d ≠ Some (dl_lease_token l)
}.

(** One row changes; what is said about the leads comes separately. *)
Lemma inv_row q q' i d d' :
  queue_inv q → provider_deliveries (q_db q) !! i = Some d →
  provider_deliveries (q_db q') = <[i := d']> (provider_deliveries (q_db q)) →
  pd_lead_id d' = pd_lead_id d →
  (∀ j, j ≠ i → sends j (q_sent q') = sends j (q_sent q)) → row_ok (sends i (q_sent q')) d' →
  (∀ j l, leads (q_db q') !! j = Some l → truthful_status j (ld_status l) (q_db q')) →
  (∀ j, is_Some (leads (q_db q) !! j) → is_Some (leads (q_db q') !! j)) →
  q_tokens q ⊆ q_tokens q' → (∀ t, pd_lease_token d' = Some t → t ∈ q_tokens q') →
  (∀ l, l ∈ q_claimed q' → dl_lease_token l ∈ q_tokens q') →
  NoDup (dl_lease_token <$> q_claimed q') →
  (∀ j e l, j ≠ i → provider_deliveries (q_db q) !! j = Some e → pd_status e = d_delivering →
     l ∈ q_claimed q' → dl_delivery_id l = j → pd_lease_token e ≠ Some (dl_lease_token l)) →
  (∀ l, pd_status d' = d_delivering → l ∈ q_claimed q' → dl_delivery_id l = i →
     pd_lease_token d' ≠ Some (dl_lease_token l)) →
  queue_inv q'.
Proof.
  intros [Hr Hn Hl Ho Ht Hc Hnd Hf] Hi Hp Hlead Hsends Hrow Hleads Hsome Htok Htok' Hcl Hnd' Hfr Hfri.
  split; try done.
  - intros j e. rewrite Hp, lookup_insert. case_decide; [intros [= <-]; by subst|].
    intros Hj. rewrite Hsends by done. by apply Hr.
  - intros j. rewrite Hp, lookup_insert. case_decide; [done|]. intros Hj.
    rewrite Hsends by done. by apply Hn.
  - intros j e. rewrite Hp, lookup_insert. case_decide; intros Hj; apply Hsome.
    + injection Hj as <-. rewrite Hlead. by apply (Ho i).
    + by apply (Ho j).
  - intros j e t. rewrite Hp, lookup_insert. case_decide; [intros [= <-]; by apply Htok'|].
    intros Hj He. apply Htok. by eapply Ht.
  - intros j e l. rewrite Hp, lookup_insert. case_decide; [intros [= <-]; subst; by apply Hfri|].
    intros Hj. by apply Hfr.
Qed.

Definition with_db (q : Queue) db : Queue :=
  {| q_db := db; q_claimed := q_claimed q; q_sent := q_sent q; q_tokens := q_tokens q |}.

Lemma alter_some {R} (f : R → R) (m : gmap Z R) i j : is_Some (m !! j) → is_Some (alter f i m !! j).
Proof. by rewrite lookup_alter_is_Some. Qed.

Lemma inv_settles q i db' :
  queue_inv q → settles i (q_db q) db' → queue_inv (with_db q db').
Proof.
  intros Hinv (d & d' & Hi & Hp & Hs & Hl). destruct Hs as [Hid Hcount Hlease Hact Hstatus].
  assert (pd_lead_id d' = pd_lead_id d) as Hlead by (by injection Hid).
  assert (pd_max_attempts d' = pd_max_attempts d) as Hmax by (by injection Hid).
  destruct (qi_rows q Hinv i d Hi) as [Hc Hb Hw].
  apply (inv_row q (with_db q db') i d d' Hinv Hi Hp Hlead).
  - done.
  - split; cbn; [congruence|lia|]. rewrite Hmax. intros Hwait.
    destruct Hstatus as [Hterm|(_ & [Hleased|Hlt])]; [|apply Hw; by rewrite Hleased|lia].
    by destruct (pd_status d').
  - intros j l. cbn. rewrite Hl, lookup_alter. case_decide as Hj.
    + subst j. destruct (leads (q_db q) !! pd_lead_id d); [|done]. intros [= <-].
      apply derived_truthful.
    + intros Hlj. eapply truthful_same; [|by eapply qi_leads].
      eapply same_outcomes_update; eauto.
  - intros j Hj. cbn. rewrite Hl. by apply alter_some.
  - done.
  - intros t. by rewrite Hlease.
  - apply (qi_claimed q Hinv).
  - apply (qi_nodup q Hinv).
  - intros j e l Hne Hj. by apply (qi_fresh q Hinv).
  - intros l. by rewrite Hlease.
Qed.

Lemma inv_recover q db' :
  queue_inv q → rtc (λ db db', ∃ i, settles i db db') (q_db q) db' → queue_inv (with_db q db').
Proof.
  intros Hinv Hr. remember (q_db q) as db eqn:Hdb. revert q Hdb Hinv.
  induction Hr as [db|db db1 db' [i Hs] Hr IH]; intros q -> Hinv; [by destruct q|].
  apply (IH (with_db q db1)); [done|]. by eapply inv_settles.
Qed.

(** A row changes without changing what its lead can see. *)
Lemma inv_quiet q q' i d d' :
  queue_inv q → provider_deliveries (q_db q) !! i = Some d →
  provider_deliveries (q_db q') = <[i := d']> (provider_deliveries (q_db q)) →
  leads (q_db q') = leads (q_db q) → identity d' = identity d →
  nonterminal_delivery_status (pd_status d') = nonterminal_delivery_status (pd_status d) →
  is_delivered (pd_status d') = is_delivered (pd_status d) →
  (∀ j, j ≠ i → sends j (q_sent q') = sends j (q_sent q)) → row_ok (sends i (q_sent q')) d' →
  q_tokens q ⊆ q_tokens q' → (∀ t, pd_lease_token d' = Some t → t ∈ q_tokens q') →
  (∀ l, l ∈ q_claimed q' → dl_lease_token l ∈ q_tokens q') →
  NoDup (dl_lease_token <$> q_claimed q') →
  (∀ j e l, j ≠ i → provider_deliveries (q_db q) !! j = Some e → pd_status e = d_delivering →
     l ∈ q_claimed q' → dl_delivery_id l = j → pd_lease_token e ≠ Some (dl_lease_token l)) →
  (∀ l, pd_status d' = d_delivering → l ∈ q_claimed q' → dl_delivery_id l = i →
     pd_lease_token d' ≠ Some (dl_lease_token l)) →
  queue_inv q'.
Proof.
  intros Hinv Hi Hp Hl Hid Hnon Hdel. assert (pd_lead_id d' = pd_lead_id d) by (by injection Hid).
  intros. eapply (inv_row q q' i d d'); eauto; [|by intros j; rewrite Hl].
  intros j l. rewrite Hl. intros Hlj. eapply truthful_same; [|by eapply qi_leads].
  eapply same_outcomes_update; eauto.
Qed.

Lemma sends_cons i j sent : sends i (j :: sent) = (if decide (i = j) then 1 else 0) + sends i sent.
Proof.
  unfold sends. simpl. destruct (Z.eq_dec j i), (decide (i = j)); subst; try done; lia.
Qed.

Lemma inv_claim q worker after token now l db' :
  queue_inv q →
  claim_next_delivery worker after token now (q_db q) = (Ok (Some l), db') →
  dl_lease_token l ∉ q_tokens q →
  queue_inv {| q_db := db'; q_claimed := l :: q_claimed q; q_sent := q_sent q;
               q_tokens := dl_lease_token l :: q_tokens q |}.
Proof.
  intros Hinv. unfold claim_next_delivery. rewrite bind_gets.
  intros (Hw & Ht & _ & Hl & d & us & _ & Hi & Hdue & Hp)%claim_from_effect Hfresh.
  destruct (qi_rows q Hinv _ d Hi) as [Hc Hb Hwait].
  assert (claimable_delivery_status (pd_status d) = true) as Hcl.
  { unfold delivery_due in Hdue. by bools. }
  eapply (inv_quiet q {| q_db := db' |} (dl_delivery_id l) d _ Hinv Hi Hp Hl eq_refl).
  - unfold nonterminal_delivery_status. by rewrite Hcl.
  - by destruct (pd_status d).
  - done.
  - split; cbn; try done. intros _. apply Hwait. by destruct (pd_status d).
  - set_solver.
  - cbn. intros t [= <-]. rewrite Ht. set_solver.
  - cbn. intros l' [->|Hin]%elem_of_cons; [by left|]. right. by apply (qi_claimed q Hinv).
  - cbn. apply NoDup_cons. split; [|apply (qi_nodup q Hinv)].
    intros (l' & Heq & Hin)%list_elem_of_fmap. apply Hfresh. rewrite Heq.
    by apply (qi_claimed q Hinv).
  - intros j e l' Hne Hj Hst [->|Hin]%elem_of_cons Hid; [congruence|].
    by apply (qi_fresh q Hinv j e l').
  - done.
Qed.

Lemma inv_begin q adapters l1 lease l2 now r db' :
  queue_inv q → q_claimed q = l1 ++ lease :: l2 →
  begin_delivery adapters lease now (q_db q) = (Ok r, db') →
  queue_inv {| q_db := db'; q_claimed := l1 ++ l2;
               q_sent := match r with
                         | sending _ _ => dl_delivery_id lease :: q_sent q | _ => q_sent q end;
               q_tokens := q_tokens q |}.
Proof.
  intros Hinv Hcl Hrun.
  assert (∀ l, l ∈ l1 ++ l2 → l ∈ q_claimed q) as Hsub by (rewrite Hcl; set_solver).
  assert (NoDup (dl_lease_token <$> (l1 ++ l2))
    ∧ ∀ l, l ∈ l1 ++ l2 → dl_lease_token l ≠ dl_lease_token lease) as [Hnd Hneq].
  { pose proof (qi_nodup q Hinv) as Hn. rewrite Hcl, fmap_app, fmap_cons in Hn.
    apply NoDup_app in Hn as (H1 & H2 & [H3 H4]%NoDup_cons). split.
    - rewrite fmap_app. apply NoDup_app. set_solver.
    - intros l [Hl|Hl]%elem_of_app Heq.
      + apply (H2 (dl_lease_token l)); [by apply list_elem_of_fmap_2|]. rewrite Heq. left.
      + apply H3. rewrite <- Heq. by apply list_elem_of_fmap_2. }
  assert (queue_inv {| q_db := q_db q; q_claimed := l1 ++ l2; q_sent := q_sent q;
                       q_tokens := q_tokens q |}) as Hdrop.
  { destruct Hinv as [Hr Hn Hl Ho Ht Hc _ Hf]. split; try done; [by auto|].
    intros i d l Hi Hst Hin. by apply Hf; auto. }
  apply begin_ok in Hrun. destruct r as [|alert|rq n].
  - by subst db'.
  - exact (inv_settles _ _ _ Hdrop Hrun).
  - destruct Hrun as (d & l & Hi & Ho & _ & _ & Hl & Hp).
    assert (pd_status d = d_leased) as Hst.
    { unfold _owns_delivery in Ho. bools. destruct (pd_status d) eqn:Hs; try done.
      exfalso. eapply (qi_fresh q Hinv _ d lease Hi Hs); [|done|done]. rewrite Hcl. set_solver. }
    destruct (qi_rows q Hinv _ d Hi) as [Hc Hb Hw].
    assert (sends (dl_delivery_id lease) (q_sent q) < pd_max_attempts d) as Hlt
      by (apply Hw; by rewrite Hst).
    eapply (inv_quiet _ {| q_db := db' |} (dl_delivery_id lease) d (sent_row d) Hdrop Hi Hp Hl
      eq_refl).
    + cbn. by rewrite Hst.
    + cbn. by rewrite Hst.
    + cbn. intros j Hj. rewrite sends_cons. by rewrite decide_False.
    + cbn. rewrite sends_cons, decide_True by done. split; cbn; [lia|lia|done].
    + done.
    + cbn. intros t Ht. by eapply (qi_tokens q Hinv).
    + cbn. intros l' Hin. apply (qi_claimed q Hinv). auto.
    + done.
    + cbn. intros j e l' Hne Hj Hs Hin Hid. by apply (qi_fresh q Hinv j e l' Hj Hs); auto.
    + cbn. intros l' _ Hin Hid Ht. unfold _owns_delivery in Ho. bools.
      apply (Hneq l' Hin). congruence.
Qed.

(** *** Submissions *)

Lemma fold_insert_lookup (l : list (Z * ProviderDelivery)) (t : gmap Z ProviderDelivery) k d :
  NoDup l.*1 → (∀ x, x ∈ l → t !! x.1 = None) →
  foldl (λ t x, <[x.1 := x.2]> t) t l !! k = Some d ↔ (k, d) ∈ l ∨ t !! k = Some d.
Proof.
  revert t. induction l as [|x l IH]; intros t Hnd Hnew; simpl; [set_solver|].
  apply NoDup_cons in Hnd as [Hx Hnd]. rewrite IH; [|done|].
  - rewrite elem_of_cons, lookup_insert_Some. split.
    + intros [Hin|[[<- <-]|[_ Ht]]]; [by left; right|left; left; by destruct x|by right].
    + intros [[<- |Hin]|Ht]; [right; left; done|by left|].
      right. right. split; [|done]. intros <-. rewrite Hnew in Ht by left. done.
  - intros y Hy. rewrite lookup_insert_ne; [apply Hnew; by right|].
    intros Heq. apply Hx. rewrite Heq. by apply list_elem_of_fmap_2.
Qed.

(** What [prepare_submit] hands to the insertion. *)
Record well_prepared (form : LeadForm) (s : Submission) : Prop := {
  wp_rows k d : (k, d) ∈ new_deliveries s →
    pd_lead_id d = new_lead_id s ∧ pd_status d = d_pending ∧ pd_attempt_count d = 0
    ∧ 1 ≤ pd_max_attempts d ∧ pd_lease_token d = None;
  wp_status : match ld_status (new_lead s) with
    | lead_routing => new_deliveries s ≠ []
    | lead_spam | lead_delivery_failed => new_deliveries s = []
    | _ => False
    end;
  wp_key : ld_property_id (new_lead s) = f_property_id form
    ∧ ld_idempotency_key (new_lead s) = f_idempotency_key form;
  wp_live : ld_pii_deleted_at (new_lead s) = None
}.

Lemma prepared policy adapters allowed spam lead_id delivery_id form context db s db' :
  1 ≤ maximum_delivery_attempts policy →
  prepare_submit hmac_sha256 policy adapters allowed spam lead_id delivery_id form context db
    = (Ok (inr s), db') →
  well_prepared form s ∧ new_lead_id s = lead_id ∧ db' = db.
Proof.
  intros Hmax. unfold prepare_submit. rewrite bind_gets.
  destruct (replay_of form db) as [[? ?]|]; [done|].
  rewrite bind_get_or_raise. case_match; [|done]. rewrite !bind_raise_if.
  repeat (case_match; [done|]). rewrite bind_gets.
  destruct (select_first _ _) as [[? ?]|]; [done|]. rewrite bind_gets.
  intros [= <- <-]. split; [|done].
  destruct (_active_assignment (f_property_id form) db) as [[a_id a]|] eqn:Ha; cbn [fmap option_fmap option_map fst snd].
  2: { split; cbn; try done; repeat case_match; try done; set_solver. }
  set (channels := _routable_channels adapters (Some a)).
  destruct (bool_decide (spam_disposition spam = _)).
  { split; cbn; try done. set_solver. }
  destruct channels as [|c cs] eqn:Hch; [split; cbn; try done; set_solver|].
  split; cbn -[map]; try done. intros k d (c' & [= -> ->] & _)%list_elem_of_fmap. done.
Qed.

Lemma insert_effect form s r db db' :
  insert_submission form s db = (Ok r, db') →
  (lead_conflict s db = true ∧ db' = db ∧ ∃ w, replay_of form db = Some w
     ∧ r = (found w.1 w.2 true false db, None))
  ∨ (lead_conflict s db = false ∧ leads db' = <[new_lead_id s := new_lead s]> (leads db)
     ∧ provider_deliveries db'
       = foldl (λ t x, <[x.1 := x.2]> t) (provider_deliveries db) (new_deliveries s)
     ∧ sub_lead_id r.1 = new_lead_id s ∧ sub_status r.1 = ld_status (new_lead s)).
Proof.
  unfold insert_submission. rewrite bind_gets. destruct (lead_conflict s db) eqn:Hc.
  - unfold _idempotency_winner. intros (r1 & db1 & Hw & [= <- <-])%bind_ok. left.
    rewrite bind_get_or_raise in Hw. destruct (replay_of form db) as [w|]; [|done].
    injection Hw as <- <-. split; [done|]. split; [done|]. by exists w.
  - intros (u & db1 & [= _ <-] & Hrun)%bind_ok. right. split; [done|].
    apply bind_ok in Hrun as (u1 & db2 & Hev & Hrun).
    assert (leads db2 = <[new_lead_id s := new_lead s]> (leads db)
      ∧ provider_deliveries db2 = provider_deliveries db) as [Hl Hp].
    { unfold _lead_event in Hev. rewrite bind_gets in Hev.
      destruct (select_first _ _) as [[? ?]|]; by injection Hev as _ <-. }
    apply bind_ok in Hrun as (u2 & db3 & [= _ <-] & Hrun). rewrite bind_gets in Hrun.
    injection Hrun as <- <-. cbn -[insert]. by rewrite Hl, Hp.
Qed.

Lemma conflict_free form s db :
  well_prepared form s → lead_conflict s db = false →
  leads db !! new_lead_id s = None ∧ NoDup (new_deliveries s).*1
  ∧ (∀ x, x ∈ new_deliveries s → provider_deliveries db !! x.1 = None)
  ∧ replay_of form db = None.
Proof.
  intros Hwp Hc. unfold lead_conflict in Hc. bools. split; [by apply eq_None_not_Some|].
  split; [by apply dec_stable|]. split.
  - intros x Hx. apply eq_None_not_Some. intros Hsome.
    match goal with H : existsb _ _ = false |- _ => apply not_true_iff_false in H; apply H end.
    apply existsb_exists. exists x. split; [by apply list_elem_of_In|].
    by apply bool_decide_eq_true.
  - unfold replay_of. destruct (wp_key form s Hwp) as [<- <-]. by apply eq_None_not_Some.
Qed.

Lemma inv_insert q form s db' :
  queue_inv q → well_prepared form s → lead_conflict s (q_db q) = false →
  leads db' = <[new_lead_id s := new_lead s]> (leads (q_db q)) →
  provider_deliveries db' = foldl (λ t x, <[x.1 := x.2]> t) (provider_deliveries (q_db q))
                              (new_deliveries s) →
  queue_inv (with_db q db').
Proof.
  intros Hinv Hwp Hc Hl Hp. destruct (conflict_free form s _ Hwp Hc) as (Hnl & Hnd & Hnew & _).
  assert (∀ k d, provider_deliveries db' !! k = Some d ↔
    (k, d) ∈ new_deliveries s ∨ provider_deliveries (q_db q) !! k = Some d) as Hlook.
  { intros k d. rewrite Hp. by apply fold_insert_lookup. }
  assert (∀ k d, provider_deliveries (q_db q) !! k = Some d → pd_lead_id d ≠ new_lead_id s) as Hold.
  { intros k d Hk Heq. destruct (qi_owner q Hinv k d Hk) as [l Hlk]. congruence. }
  assert (∀ p, some_delivery (new_lead_id s) p db' ↔
    ∃ k d, (k, d) ∈ new_deliveries s ∧ p (pd_status d) = true) as Hmine.
  { intros p. split.
    - intros (k & d & [Hin|Hk]%Hlook & Heq & Hpd); [by exists k, d|by destruct (Hold k d)].
    - intros (k & d & Hin & Hpd). exists k, d. rewrite Hlook.
      split; [by left|]. split; [by apply (wp_rows form s Hwp k)|done]. }
  assert (∀ j p, j ≠ new_lead_id s → some_delivery j p db' ↔ some_delivery j p (q_db q)) as Hothers.
  { intros j p Hj. unfold some_delivery. setoid_rewrite Hlook. split.
    - intros (k & d & [Hin|Hk] & Heq & Hpd); [|by exists k, d].
      destruct (wp_rows form s Hwp k d Hin) as [Hd _]. congruence.
    - intros (k & d & Hk & ?). exists k, d. auto. }
  split; cbn.
  - intros k d [Hin|Hk]%Hlook; [|by apply (qi_rows q Hinv)].
    destruct (wp_rows form s Hwp k d Hin) as (_ & Hst & Hcnt & Hmax & _).
    pose proof (qi_none q Hinv k (Hnew (k, d) Hin)) as Hz. rewrite Hz. split; lia.
  - intros k Hk. apply (qi_none q Hinv). apply eq_None_not_Some. intros [d Hd].
    assert (provider_deliveries db' !! k = Some d) as Hs by (apply Hlook; by right). congruence.
  - intros j l. rewrite Hl, lookup_insert. case_decide as Hj.
    + intros [= <-]. subst j. pose proof (wp_status form s Hwp) as Hs.
      destruct (ld_status (new_lead s)); try done; cbn; rewrite !Hmine.
      * intros (k & d & Hin & _). rewrite Hs in Hin. by apply not_elem_of_nil in Hin.
      * destruct (new_deliveries s) as [|[k d] ds] eqn:Hds; [done|]. exists k, d. split; [left|].
        destruct (wp_rows form s Hwp k d) as (_ & -> & _); [rewrite Hds; left|done].
      * split; intros (k & d & Hin & _); rewrite Hs in Hin; by apply not_elem_of_nil in Hin.
    + intros Hlj. eapply truthful_same; [|by apply (qi_leads q Hinv)].
      split_and!; by apply Hothers.
  - intros k d [Hin|Hk]%Hlook; rewrite Hl, lookup_insert_is_Some.
    + left. symmetry. by apply (wp_rows form s Hwp k).
    + right. split; [intros Heq; by eapply Hold|by eapply (qi_owner q Hinv)].
  - intros k d t [Hin|Hk]%Hlook Ht; [|by eapply (qi_tokens q Hinv)].
    destruct (wp_rows form s Hwp k d Hin) as (_ & _ & _ & _ & Hn). congruence.
  - apply (qi_claimed q Hinv).
  - apply (qi_nodup q Hinv).
  - intros k d l [Hin|Hk]%Hlook Hst; [|by eapply (qi_fresh q Hinv)].
    destruct (wp_rows form s Hwp k d Hin) as (_ & Hpend & _). congruence.
Qed.

(** *** Deletions *)

Lemma for_rows_lookup {R} (mine : R → bool) (f : Z → R → R) (t : gmap Z R) k :
  for_rows mine f t !! k = (λ r, if mine r then f k r else r) <$> t !! k.
Proof. unfold for_rows. rewrite map_lookup_imap. by destruct (t !! k). Qed.

(** The row of a delivery after its lead was deleted. *)
Definition deleted_row (i now : Z) d : ProviderDelivery :=
  if bool_decide (pd_lead_id d = i) then anonymous_delivery now d else d.

Record quieter d d' : Prop := {
  qr_identity : identity d' = identity d;
  qr_count : pd_attempt_count d' = pd_attempt_count d;
  qr_token : pd_lease_token d' = pd_lease_token d ∨ pd_lease_token d' = None;
  qr_status : pd_status d' = pd_status d ∨ pd_status d' = d_cancelled
}.

Lemma deleted_row_quieter i now d : quieter d (deleted_row i now d).
Proof.
  unfold deleted_row, anonymous_delivery. case_bool_decide; [|split; auto].
  cbn. destruct (open_status (pd_status d)); split; cbn; auto.
Qed.

Lemma deleted_row_terminal i now d :
  pd_lead_id d = i → nonterminal_delivery_status (pd_status (deleted_row i now d)) = false.
Proof.
  intros Hd. unfold deleted_row, anonymous_delivery. rewrite bool_decide_eq_true_2 by done. cbn.
  destruct (pd_status d) eqn:Hs; cbn; by rewrite ?Hs.
Qed.

Lemma anonymize_effect i now u db db' :
  _anonymize i now db = (Ok u, db') →
  leads db' = alter (anonymous_lead i now) i (leads db)
  ∧ ∀ k, provider_deliveries db' !! k = deleted_row i now <$> provider_deliveries db !! k.
Proof. intros [= _ <-]. split; [done|]. intros k. exact (for_rows_lookup _ _ _ k). Qed.

Lemma inv_anonymize q i now u db' :
  queue_inv q → _anonymize i now (q_db q) = (Ok u, db') → queue_inv (with_db q db').
Proof.
  intros Hinv [Hl Hp]%anonymize_effect.
  assert (∀ k d', provider_deliveries db' !! k = Some d' → ∃ d,
    provider_deliveries (q_db q) !! k = Some d ∧ d' = deleted_row i now d ∧ quieter d d') as Hrow.
  { intros k d'. rewrite Hp. intros (d & Hk & ->)%fmap_Some. exists d.
    split; [done|]. split; [done|]. apply deleted_row_quieter. }
  split; cbn.
  - intros k d' (d & Hk & -> & [Hid Hc _ Hst])%Hrow. destruct (qi_rows q Hinv k d Hk) as [H1 H2 H3].
    assert (pd_max_attempts (deleted_row i now d) = pd_max_attempts d) as Hm by (by injection Hid).
    split; [congruence|lia|]. rewrite Hm. destruct Hst as [-> | ->]; done.
  - intros k Hk. apply (qi_none q Hinv). rewrite Hp in Hk. by apply fmap_None in Hk.
  - intros j l'. rewrite Hl, lookup_alter. case_decide as Hj.
    + subst j. destruct (leads (q_db q) !! i); [|done]. intros [= <-]. cbn.
      intros (k & d' & (d & Hk & -> & [Hid _ _ _])%Hrow & Hlead & Hn).
      assert (pd_lead_id (deleted_row i now d) = pd_lead_id d) as Heq by (by injection Hid).
      rewrite deleted_row_terminal in Hn; [done|congruence].
    + intros Hlj. eapply truthful_same; [|by apply (qi_leads q Hinv)].
      assert (∀ p, some_delivery j p db' ↔ some_delivery j p (q_db q)) as Hsame; [|by split_and!].
      intros p. split.
      * intros (k & d' & (d & Hk & -> & [Hid _ _ _])%Hrow & Hlead & Hpd).
        assert (pd_lead_id (deleted_row i now d) = pd_lead_id d) as Heq by (by injection Hid).
        assert (deleted_row i now d = d) as Hsame.
        { unfold deleted_row. by rewrite bool_decide_eq_false_2 by congruence. }
        rewrite Hsame in Hlead, Hpd. by exists k, d.
      * intros (k & d & Hk & Hlead & Hpd). exists k, d. rewrite Hp, Hk. cbn.
        unfold deleted_row. by rewrite bool_decide_eq_false_2 by congruence.
  - intros k d' (d & Hk & -> & [Hid _ _ _])%Hrow. rewrite Hl.
    assert (pd_lead_id (deleted_row i now d) = pd_lead_id d) as -> by (by injection Hid).
    apply alter_some. by eapply (qi_owner q Hinv).
  - intros k d' t (d & Hk & -> & [_ _ Ht _])%Hrow Hd'.
    apply (qi_tokens q Hinv k d); [done|]. destruct Ht as [Ht|Ht]; congruence.
  - apply (qi_claimed q Hinv).
  - apply (qi_nodup q Hinv).
  - intros k d' l (d & Hk & -> & [_ _ Ht Hst])%Hrow Hs Hin Hid Htok.
    destruct Hst as [Hst|Hst]; [|congruence].
    apply (qi_fresh q Hinv k d l Hk); [congruence|done|done|]. destruct Ht; congruence.
Qed.

Lemma flush_ok u db db' : flush_leads db = (Ok u, db') → db' = db ∧ NoDup (lead_keys db).
Proof.
  unfold flush_leads. rewrite bind_gets. case_bool_decide as Hn; [|done]. by intros [= _ <-].
Qed.

Lemma queue_step_inv q q' : queue_step q q' → queue_inv q → queue_inv q'.
Proof.
  intros Hstep Hinv. destruct Hstep as [w a t now l db' Hrun Hfr|ad l1 l l2 now r db' Hcl Hrun
    |l1 l l2 Hcl|l a now b db' Hrun|l n o ba ma now a db' Hrun|a now n db' Hrun
    |po ad al sp li di fo co db0 s db1 r db' Hmax Hprep Hrun|i ac now b db' Hrun
    |now ids db' Hrun|db' Hp Hl].
  - by eapply inv_claim.
  - by eapply inv_begin.
  - destruct Hinv as [Hr Hn Hl Ho Ht Hc Hnd Hf].
    assert (∀ x, x ∈ l1 ++ l2 → x ∈ q_claimed q) as Hsub by (rewrite Hcl; set_solver).
    split; try done; [by auto| |intros i d x Hi Hs Hin; by apply Hf; auto].
    cbn. rewrite Hcl, fmap_app, fmap_cons in Hnd. rewrite fmap_app.
    apply NoDup_app in Hnd as (H1 & H2 & [_ H4]%NoDup_cons). apply NoDup_app. set_solver.
  - apply heartbeat_effect in Hrun as [Hl [Hp|(d & d' & Hi & Hp & Hid & Hc & Hs & Ht)]].
    + destruct Hinv as [Hr Hn Hle Ho Htk Hc Hnd Hf]. split; cbn; rewrite ?Hp, ?Hl; try done.
      intros i x Hx. eapply truthful_same; [by apply same_outcomes_refl|by apply Hle].
    + destruct (qi_rows q Hinv _ d Hi) as [H1 H2 H3].
      assert (pd_max_attempts d' = pd_max_attempts d) as Hm by (by injection Hid).
      eapply (inv_quiet q {| q_db := db' |} _ d d' Hinv Hi Hp Hl Hid); rewrite ?Hs, ?Ht; try done.
      * split; cbn; [congruence|lia|by rewrite Hs, Hm].
      * intros t Hd. by apply (qi_tokens q Hinv _ d t Hi).
      * apply (qi_claimed q Hinv).
      * apply (qi_nodup q Hinv).
      * intros j e x _. apply (qi_fresh q Hinv).
      * intros x. by apply (qi_fresh q Hinv _ d x Hi).
  - apply end_ok in Hrun as [-> |Hs]; [by destruct q|by eapply inv_settles].
  - apply recover_effect in Hrun. by apply inv_recover.
  - apply prepared in Hprep as (Hwp & _ & _); [|done].
    apply insert_effect in Hrun as [(_ & -> & _)|(Hc & Hl & Hp & _)]; [by destruct q|].
    by eapply inv_insert.
  - unfold delete_lead in Hrun. rewrite bind_raise_if in Hrun. case_match; [done|].
    rewrite bind_gets in Hrun. destruct (leads (q_db q) !! i); [|injection Hrun as _ <-; by destruct q].
    apply bind_ok in Hrun as (u & db1 & Han & Hrun).
    apply bind_ok in Hrun as (u1 & db2 & [-> _]%flush_ok & [= _ <-]). by eapply inv_anonymize.
  - unfold enforce_retention in Hrun. rewrite bind_gets in Hrun.
    apply bind_ok in Hrun as (u & db1 & Hloop & [= _ <-]).
    apply (for_each_ind (λ db, queue_inv (with_db q db)) _ _) in Hloop; [done| |by destruct q].
    intros x db u1 db' _ Hi (u' & db2 & Hrun & [-> _]%flush_ok)%bind_ok. by apply (inv_anonymize (with_db q db) x now u').
  - destruct Hinv as [Hr Hn Hle Ho Htk Hc Hnd Hf]. split; cbn; rewrite ?Hp, ?Hl; try done.
    intros i x Hx. eapply truthful_same; [by apply same_outcomes_refl|by apply Hle].
Qed.
End system.
