(* ===== verification/LeadDeliveryTheorems.v ===== *)
(** * LeadDeliveryTheorems: the guarantees of lead intake and delivery

    The theorems about lead_routing: bounded contact, no second contact after an
    unknown outcome, truthful lead states, deletions that last, one lead per
    idempotency key; each with a run that meets its hypotheses. *)
From S2P Require Import Prelude Binary64 Schema ProviderOperations LeadRouting LeadDelivery.
From S2P Require Import LeadDeliveryProofs LeadDeliveryInvariant.

Section persistence.
Context {USD : Type} (hmac_sha256 : string → string → string).
Implicit Types (q : Queue (USD := USD)) (d : ProviderDelivery).
Abbreviation step := (queue_step (USD := USD) hmac_sha256).

(** What a step does to a row that exists: it keeps its identity; a finished row
    keeps its status; the row is sent only from a status in hand. *)
Record row_step (i : Z) q q' d d' : Prop := {
  rs_identity : identity d' = identity d;
  rs_final : nonterminal_delivery_status (pd_status d) = false → pd_status d' = pd_status d;
  rs_sends : sends i (q_sent q') = sends i (q_sent q)
             ∨ (active_delivery_status (pd_status d) = true
                ∧ q_sent q' = i :: q_sent q)
}.

Lemma settles_row i j db db' d :
  settles (USD := USD) j db db' → provider_deliveries db !! i = Some d →
  ∃ d', provider_deliveries db' !! i = Some d' ∧ identity d' = identity d
    ∧ (nonterminal_delivery_status (pd_status d) = false → pd_status d' = pd_status d).
Proof.
  intros (e & e' & Hj & Hp & [Hid _ _ Hact _] & _) Hi. rewrite Hp, lookup_insert. case_decide.
  - subst j. assert (e = d) as -> by congruence. exists e'. split; [done|]. split; [done|].
    unfold nonterminal_delivery_status. by rewrite Hact, orb_true_r.
  - by exists d.
Qed.

Lemma settles_rows i db db' d :
  rtc (λ db db', ∃ j, settles (USD := USD) j db db') db db' → provider_deliveries db !! i = Some d →
  ∃ d', provider_deliveries db' !! i = Some d' ∧ identity d' = identity d
    ∧ (nonterminal_delivery_status (pd_status d) = false → pd_status d' = pd_status d).
Proof.
  intros Hr. revert d. induction Hr as [db|db db1 db' [j Hs] _ IH]; intros d Hi; [by exists d|].
  destruct (settles_row i j db db1 d Hs Hi) as (d1 & H1 & Hid1 & Hst1).
  destruct (IH d1 H1) as (d2 & H2 & Hid2 & Hst2). exists d2. split; [done|].
  split; [congruence|]. intros Hn. rewrite Hst2; [by apply Hst1|]. by rewrite Hst1.
Qed.

Lemma anonymize_row i j now u db db' d :
  _anonymize j now db = (Ok u, db') → provider_deliveries (USD := USD) db !! i = Some d →
  ∃ d', provider_deliveries db' !! i = Some d' ∧ identity d' = identity d
    ∧ (nonterminal_delivery_status (pd_status d) = false → pd_status d' = pd_status d).
Proof.
  intros [_ Hp]%anonymize_effect Hi. rewrite Hp, Hi. exists (deleted_row j now d).
  split; [done|]. destruct (deleted_row_quieter j now d) as [Hid _ _ Hst]. split; [done|].
  intros Hn. unfold deleted_row, anonymous_delivery in *. case_bool_decide; [|done]. cbn in *.
  destruct (pd_status d) eqn:Hs; try done; cbn; by rewrite Hs.
Qed.

Lemma step_row i q q' d :
  step q q' → provider_deliveries (q_db q) !! i = Some d →
  ∃ d', provider_deliveries (q_db q') !! i = Some d' ∧ row_step i q q' d d'.
Proof.
  assert (∀ q1 d', q_sent q1 = q_sent q → identity d' = identity d →
    (nonterminal_delivery_status (pd_status d) = false → pd_status d' = pd_status d) →
    row_step i q q1 d d') as Hsame.
  { intros q1 d' Hs Hid Hst. split; [done|done|]. left. by rewrite Hs. }
  intros Hstep Hi. destruct Hstep as [w a t now l db' Hrun Hfr|ad l1 l l2 now r db' Hcl Hrun
    |l1 l l2 Hcl|l a now b db' Hrun|l n o ba ma now a db' Hrun|a now n db' Hrun
    |po ad al sp li di fo co db0 s db1 r db' Hmax Hprep Hrun|j ac now b db' Hrun
    |now ids db' Hrun|db' Hp Hl]; cbn [q_db].
  - unfold claim_next_delivery in Hrun. rewrite bind_gets in Hrun.
    apply claim_from_effect in Hrun as (_ & _ & _ & _ & e & us & _ & He & Hdue & Hp).
    rewrite Hp, lookup_insert. case_decide as Heq; [|exists d; eauto].
    rewrite Heq in He. assert (e = d) as -> by congruence. eexists. split; [done|].
    apply Hsame; [done|done|]. unfold delivery_due in Hdue. bools.
    unfold nonterminal_delivery_status.
    match goal with H : claimable_delivery_status _ = true |- _ => by rewrite H end.
  - apply begin_ok in Hrun. destruct r as [|alert|rq n].
    + subst db'. exists d. eauto.
    + destruct (settles_row i _ _ _ d Hrun Hi) as (d' & Hi' & Hid & Hst). exists d'. eauto.
    + destruct Hrun as (e & le & He & Ho & _ & _ & _ & Hp). rewrite Hp, lookup_insert.
      assert (active_delivery_status (pd_status e) = true) as Ha.
      { unfold _owns_delivery in Ho. by bools. }
      case_decide as Heq.
      * rewrite Heq in He. assert (e = d) as -> by congruence. exists (sent_row d).
        split; [done|]. split; [done| |right; cbn; by rewrite Heq].
        unfold nonterminal_delivery_status. by rewrite Ha, orb_true_r.
      * exists d. split; [done|]. split; [done|done|]. left. cbn. rewrite sends_cons.
        by rewrite decide_False.
  - exists d. eauto.
  - apply heartbeat_effect in Hrun as [_ [Hp|(e & e' & He & Hp & Hid & _ & Hs & _)]].
    + rewrite Hp. exists d. eauto.
    + rewrite Hp, lookup_insert. case_decide as Heq; [|exists d; eauto].
      rewrite Heq in He. assert (e = d) as -> by congruence. exists e'. eauto.
  - apply end_ok in Hrun as [-> |Hs]; [exists d; eauto|].
    destruct (settles_row i _ _ _ d Hs Hi) as (d' & Hi' & Hid & Hst). exists d'. eauto.
  - apply recover_effect in Hrun.
    destruct (settles_rows i _ _ d Hrun Hi) as (d' & Hi' & Hid & Hst). exists d'. eauto.
  - apply prepared in Hprep as (Hwp & _ & _); [|done].
    apply insert_effect in Hrun as [(_ & -> & _)|(Hc & _ & Hp & _)]; [exists d; eauto|].
    destruct (conflict_free fo s _ Hwp Hc) as (_ & Hnd & Hnew & _). exists d.
    split; [|eauto]. rewrite Hp. apply fold_insert_lookup; auto.
  - unfold delete_lead in Hrun. rewrite bind_raise_if in Hrun. case_match; [done|].
    rewrite bind_gets in Hrun.
    destruct (leads (q_db q) !! j); [|injection Hrun as _ <-; exists d; eauto].
    apply bind_ok in Hrun as (u & db1 & Han & Hrun).
    apply bind_ok in Hrun as (u1 & db2 & [-> _]%flush_ok & [= _ <-]).
    destruct (anonymize_row i j now u _ _ d Han Hi) as (d' & Hi' & Hid & Hst). exists d'. eauto.
  - unfold enforce_retention in Hrun. rewrite bind_gets in Hrun.
    apply bind_ok in Hrun as (u & db1 & Hloop & [= _ <-]).
    apply (for_each_ind (λ db, ∃ d', provider_deliveries db !! i = Some d'
      ∧ identity d' = identity d
      ∧ (nonterminal_delivery_status (pd_status d) = false → pd_status d' = pd_status d)) _ _)
      in Hloop as (d' & Hi' & Hid & Hst); [exists d'; eauto| |exists d; eauto].
    intros x db u1 db'' _ (e & He & Hide & Hste) (u' & db2 & Hrun & [-> _]%flush_ok)%bind_ok.
    destruct (anonymize_row i x now u' _ _ e Hrun He) as (e' & He' & Hide' & Hste').
    exists e'. split; [done|]. split; [congruence|]. intros Hn. rewrite Hste'; [auto|].
    by rewrite Hste.
  - rewrite Hp. exists d. eauto.
Qed.

Lemma steps_row i q q' d :
  rtc step q q' → provider_deliveries (q_db q) !! i = Some d →
  ∃ d', provider_deliveries (q_db q') !! i = Some d' ∧ identity d' = identity d
    ∧ (nonterminal_delivery_status (pd_status d) = false →
       pd_status d' = pd_status d ∧ sends i (q_sent q') = sends i (q_sent q)).
Proof.
  intros Hr. revert d. induction Hr as [q|q q1 q' Hs _ IH]; intros d Hi; [by exists d|].
  destruct (step_row i q q1 d Hs Hi) as (d1 & H1 & [Hid1 Hst1 Hse1]).
  destruct (IH d1 H1) as (d2 & H2 & Hid2 & Hst2). exists d2. split; [done|].
  split; [congruence|]. intros Hn. specialize (Hst1 Hn). rewrite Hst1 in Hst2.
  destruct (Hst2 Hn) as [-> Hse2]. split; [done|]. rewrite Hse2.
  destruct Hse1 as [?|[Ha _]]; [done|]. unfold nonterminal_delivery_status in Hn.
  by rewrite Ha, orb_true_r in Hn.
Qed.

Lemma steps_inv q q' : rtc step q q' → queue_inv q → queue_inv q'.
Proof. intros Hr. induction Hr; eauto using queue_step_inv. Qed.

(** The queue of a fresh installation. *)
Definition initial (db : Db USD) : Queue :=
  {| q_db := db; q_claimed := []; q_sent := []; q_tokens := [] |}.

Lemma initial_inv (db : Db USD) :
  provider_deliveries db = ∅ → leads db = ∅ → queue_inv (initial db).
Proof.
  intros Hp Hl. split; cbn; rewrite ?Hp, ?Hl; try (by intros; simplify_map_eq).
  - intros l. set_solver.
  - constructor.
Qed.
End persistence.

(** ** Leads: what lasts *)
Section leads.
Context {USD : Type} (hmac_sha256 : string → string → string).
Implicit Types (q : Queue (USD := USD)) (db : Db USD) (l : Lead).
Abbreviation step := (queue_step (USD := USD) hmac_sha256).

(** A lead without personal data. *)
Definition blank l : Prop :=
  ld_status l = lead_deleted ∧ ld_name l = "[deleted]"%string ∧ ld_email l = None
  ∧ ld_phone l = None ∧ ld_postal_code l = None ∧ ld_message l = None
  ∧ is_Some (ld_pii_deleted_at l).

Lemma settles_leads j db db' i l :
  settles j db db' → leads db !! i = Some l →
  leads db' !! i = Some l
  ∨ (∃ s, leads db' !! i = Some (l <| ld_status := s |>)
      ∧ some_delivery i nonterminal_delivery_status db).
Proof.
  intros (d & d' & Hj & Hp & [_ _ _ Hact _] & Hl) Hi. rewrite Hl, lookup_alter.
  case_decide as Heq; [|by left]. right. rewrite Heq, Hi. eexists. split; [done|].
  exists j, d. split; [done|]. split; [done|]. unfold nonterminal_delivery_status.
  by rewrite Hact, orb_true_r.
Qed.

(** A deleted lead has nothing under way. *)
Lemma blank_idle q i l :
  queue_inv q → leads (q_db q) !! i = Some l → blank l →
  ¬ some_delivery i nonterminal_delivery_status (q_db q).
Proof. intros Hinv Hi [Hs _]. pose proof (qi_leads q Hinv i l Hi) as Ht. by rewrite Hs in Ht. Qed.

Lemma settles_blank j q db' i l :
  queue_inv q → settles j (q_db q) db' → leads (q_db q) !! i = Some l → blank l →
  leads db' !! i = Some l.
Proof.
  intros Hinv Hs Hi Hb. destruct (settles_leads j _ db' i l Hs Hi) as [?|(s & _ & Hn)]; [done|].
  by destruct (blank_idle q i l Hinv Hi Hb).
Qed.

Lemma recover_blank q db' i l :
  queue_inv q → rtc (λ db db', ∃ j, settles j db db') (q_db q) db' →
  leads (q_db q) !! i = Some l → blank l → leads db' !! i = Some l.
Proof.
  intros Hinv Hr. remember (q_db q) as db eqn:Hdb. revert q Hdb Hinv.
  induction Hr as [db|db db1 db' [j Hs] Hr IH]; intros q -> Hinv Hi Hb; [done|].
  pose proof (settles_blank j q db1 i l Hinv Hs Hi Hb) as Hi1.
  by apply (IH (with_db q db1) eq_refl (inv_settles q j db1 Hinv Hs)).
Qed.

Lemma anonymous_blank i now l : blank (anonymous_lead i now l).
Proof. repeat (split; [done|]). by eexists. Qed.

Lemma anonymize_blank i j now u db db' l :
  _anonymize j now db = (Ok u, db') → leads db !! i = Some l → blank l →
  ∃ l', leads db' !! i = Some l' ∧ blank l'.
Proof.
  intros [Hl _]%anonymize_effect Hi Hb. rewrite Hl, lookup_alter. case_decide; [|by exists l].
  subst j. rewrite Hi. eexists. split; [done|]. apply anonymous_blank.
Qed.

Lemma step_blank q q' i l :
  queue_inv q → step q q' → leads (q_db q) !! i = Some l → blank l →
  ∃ l', leads (q_db q') !! i = Some l' ∧ blank l'.
Proof.
  intros Hinv Hstep Hi Hb. destruct Hstep as [w a t now le db' Hrun Hfr|ad l1 le l2 now r db' Hcl Hrun
    |l1 le l2 Hcl|le a now b db' Hrun|le n o ba ma now a db' Hrun|a now n db' Hrun
    |po ad al sp li di fo co db0 s db1 r db' Hmax Hprep Hrun|j ac now b db' Hrun
    |now ids db' Hrun|db' Hp Hl]; cbn [q_db].
  - unfold claim_next_delivery in Hrun. rewrite bind_gets in Hrun.
    apply claim_from_effect in Hrun as (_ & _ & _ & Hl & _). rewrite Hl. by exists l.
  - apply begin_ok in Hrun. destruct r as [|alert|rq n].
    + subst db'. by exists l.
    + exists l. split; [by eapply settles_blank|done].
    + destruct Hrun as (e & le' & _ & _ & _ & _ & Hl & _). rewrite Hl. by exists l.
  - by exists l.
  - apply heartbeat_effect in Hrun as [Hl _]. rewrite Hl. by exists l.
  - apply end_ok in Hrun as [-> |Hs]; exists l; [done|]. split; [by eapply settles_blank|done].
  - apply recover_effect in Hrun. exists l. split; [by eapply recover_blank|done].
  - apply prepared in Hprep as (Hwp & _ & _); [|done].
    apply insert_effect in Hrun as [(_ & -> & _)|(Hc & Hl & _ & _)]; [by exists l|].
    destruct (conflict_free fo s _ Hwp Hc) as (Hnl & _). exists l. rewrite Hl, lookup_insert_ne;
      [done|congruence].
  - unfold delete_lead in Hrun. rewrite bind_raise_if in Hrun. case_match; [done|].
    rewrite bind_gets in Hrun.
    destruct (leads (q_db q) !! j); [|injection Hrun as _ <-; by exists l].
    apply bind_ok in Hrun as (u & db1 & Han & Hrun).
    apply bind_ok in Hrun as (u1 & db2 & [-> _]%flush_ok & [= _ <-]). by eapply anonymize_blank.
  - unfold enforce_retention in Hrun. rewrite bind_gets in Hrun.
    apply bind_ok in Hrun as (u & db1 & Hloop & [= _ <-]).
    apply (for_each_ind (λ db, ∃ l', leads db !! i = Some l' ∧ blank l') _ _) in Hloop;
      [done| |by exists l].
    intros x db u1 db'' _ (l' & Hl' & Hb') (u' & db2 & Hrun & [-> _]%flush_ok)%bind_ok.
    by eapply anonymize_blank.
  - rewrite Hl. by exists l.
Qed.

(** Nothing is sent for a deleted lead. *)
Lemma step_silent q q' i l :
  queue_inv q → step q q' → leads (q_db q) !! i = Some l → blank l →
  q_sent q' = q_sent q
  ∨ ∃ k d, q_sent q' = k :: q_sent q ∧ provider_deliveries (q_db q) !! k = Some d
      ∧ pd_lead_id d ≠ i.
Proof.
  intros Hinv Hstep Hi Hb. destruct Hstep as [ | ad l1 le l2 now r db' Hcl Hrun | | | | | | | | ];
    try (by left).
  apply begin_ok in Hrun. destruct r as [|alert|rq n]; [by left|by left|].
  destruct Hrun as (d & l' & Hd & Ho & _). right. exists (dl_delivery_id le), d.
  split; [done|]. split; [done|]. intros Heq.
  apply (blank_idle q i l Hinv Hi Hb). exists (dl_delivery_id le), d. split; [done|].
  split; [done|]. unfold _owns_delivery in Ho. bools. unfold nonterminal_delivery_status.
  match goal with H : active_delivery_status _ = true |- _ => by rewrite H, orb_true_r end.
Qed.

(** ** One lead per idempotency key *)

Definition keys_unique db : Prop :=
  ∀ i j l m, leads db !! i = Some l → leads db !! j = Some m →
    ld_property_id l = ld_property_id m → ld_idempotency_key l = ld_idempotency_key m → i = j.

Lemma NoDup_map_inj {A B} (f : A → B) (xs : list A) x y :
  NoDup (map f xs) → x ∈ xs → y ∈ xs → f x = f y → x = y.
Proof.
  induction xs as [|z xs IH]; [set_solver|]. simpl. intros [Hz Hnd]%NoDup_cons.
  rewrite !elem_of_cons. intros [->|Hx] [->|Hy] Heq; [done| | |by apply IH].
  - destruct Hz. rewrite Heq. by apply list_elem_of_fmap_2.
  - destruct Hz. rewrite <- Heq. by apply list_elem_of_fmap_2.
Qed.

Lemma lead_keys_unique db : NoDup (lead_keys db) → keys_unique db.
Proof.
  intros Hnd i j l m Hi Hj Hp Hk.
  assert ((i, l) = (j, m)) as [= -> _]; [|done].
  eapply (NoDup_map_inj _ _ _ _ Hnd).
  - unfold table_rows. rewrite merge_sort_Permutation. by apply elem_of_map_to_list.
  - unfold table_rows. rewrite merge_sort_Permutation. by apply elem_of_map_to_list.
  - cbn. congruence.
Qed.

Lemma keys_kept db db' :
  (∀ i l', leads db' !! i = Some l' → ∃ l, leads db !! i = Some l
     ∧ ld_property_id l' = ld_property_id l ∧ ld_idempotency_key l' = ld_idempotency_key l) →
  keys_unique db → keys_unique db'.
Proof.
  intros Hk Hu i j l' m' Hi Hj Hp Hkey.
  destruct (Hk i l' Hi) as (l & Hl & ? & ?), (Hk j m' Hj) as (m & Hm & ? & ?).
  apply (Hu i j l m Hl Hm); congruence.
Qed.

Lemma settles_keys j db db' : settles j db db' → keys_unique db → keys_unique db'.
Proof.
  intros (d & d' & _ & _ & _ & Hl). apply keys_kept. intros i l'. rewrite Hl, lookup_alter.
  case_decide; [|by exists l']. subst. destruct (leads db !! _) as [l|]; [|done].
  intros [= <-]. by exists l.
Qed.

Lemma step_keys q q' : step q q' → keys_unique (q_db q) → keys_unique (q_db q').
Proof.
  assert (∀ db', leads db' = leads (q_db q) → keys_unique (q_db q) → keys_unique db') as Hsame.
  { intros db' Hl. apply keys_kept. intros i l. rewrite Hl. by exists l. }
  intros Hstep Hu. destruct Hstep as [w a t now le db' Hrun Hfr|ad l1 le l2 now r db' Hcl Hrun
    |l1 le l2 Hcl|le a now b db' Hrun|le n o ba ma now a db' Hrun|a now n db' Hrun
    |po ad al sp li di fo co db0 s db1 r db' Hmax Hprep Hrun|j ac now b db' Hrun
    |now ids db' Hrun|db' Hp Hl]; cbn [q_db]; try done.
  - unfold claim_next_delivery in Hrun. rewrite bind_gets in Hrun.
    apply claim_from_effect in Hrun as (_ & _ & _ & Hl & _). auto.
  - apply begin_ok in Hrun. destruct r as [|alert|rq n].
    + by subst db'.
    + by eapply settles_keys.
    + destruct Hrun as (e & le' & _ & _ & _ & _ & Hl & _). auto.
  - apply heartbeat_effect in Hrun as [Hl _]. auto.
  - apply end_ok in Hrun as [-> |Hs]; [done|by eapply settles_keys].
  - apply recover_effect in Hrun. induction Hrun as [|db db1 db' [j Hs] _ IH]; [done|].
    apply IH; [|by eapply settles_keys].
    intros db2 Hl. apply keys_kept. intros i l. rewrite Hl. by exists l.
  - apply prepared in Hprep as (Hwp & _ & _); [|done].
    apply insert_effect in Hrun as [(_ & -> & _)|(Hc & Hl & _ & _)]; [done|].
    destruct (conflict_free fo s _ Hwp Hc) as (_ & _ & _ & Hno).
    destruct (wp_key fo s Hwp) as [Hwp1 Hwp2]. unfold replay_of in Hno.
    rewrite select_first_None in Hno.
    assert (∀ k m, leads (q_db q) !! k = Some m → ld_property_id m = ld_property_id (new_lead s) →
      ld_idempotency_key m = ld_idempotency_key (new_lead s) → False) as Hnew.
    { intros k m Hk Hpk Hkk. specialize (Hno k m Hk).
      by rewrite !bool_decide_eq_true_2 in Hno by congruence. }
    intros i k l m. rewrite Hl, !lookup_insert.
    destruct (decide (new_lead_id s = i)) as [<-|], (decide (new_lead_id s = k)) as [<-|];
      [done|intros [= <-] Hk ? ?; destruct (Hnew k m); congruence
      |intros Hk [= <-] ? ?; destruct (Hnew i l); congruence|apply Hu].
  - unfold delete_lead in Hrun. rewrite bind_raise_if in Hrun. case_match; [done|].
    rewrite bind_gets in Hrun.
    destruct (leads (q_db q) !! j); [|injection Hrun as _ <-; done].
    apply bind_ok in Hrun as (u & db1 & Han & Hrun).
    apply bind_ok in Hrun as (u1 & db2 & [-> Hnd]%flush_ok & [= _ <-]). by apply lead_keys_unique.
  - unfold enforce_retention in Hrun. rewrite bind_gets in Hrun.
    apply bind_ok in Hrun as (u & db1 & Hloop & [= _ <-]).
    apply (for_each_ind keys_unique _ _) in Hloop; [done| |done].
    intros x db u1 db' _ _ (u' & db2 & _ & [-> Hnd]%flush_ok)%bind_ok. by apply lead_keys_unique.
  - auto.
Qed.
End leads.

Section theorems.
Context {USD : Type} (hmac_sha256 : string → string → string).
Implicit Types (q : Queue (USD := USD)) (db : Db USD).
Abbreviation step := (queue_step (USD := USD) hmac_sha256).

(** C15: a provider is contacted a bounded number of times per delivery: in every
    interleaving of claims, runs, crashes, heartbeats, recoveries, submissions
    and deletions that starts with no leads, a delivery has been handed to the
    adapter exactly as often as its attempt counter says, never more often than
    its maximum, and one that still waits has an attempt left. *)
Theorem contact_is_bounded db q i d :
  provider_deliveries db = ∅ → leads db = ∅ → rtc step (initial db) q →
  provider_deliveries (q_db q) !! i = Some d →
  sends i (q_sent q) = pd_attempt_count d
  ∧ pd_attempt_count d ≤ pd_max_attempts d
  ∧ (waiting (pd_status d) = true → pd_attempt_count d < pd_max_attempts d).
Proof.
  intros Hp Hl Hr Hi. pose proof (steps_inv _ _ _ Hr (initial_inv db Hp Hl)) as Hinv.
  destruct (qi_rows q Hinv i d Hi) as [Hc Hb Hw]. rewrite Hc. auto.
Qed.

(** C3: a delivery that ended, in particular one whose outcome is unknown because
    its worker died during the provider call, is never sent again and keeps its
    state, whatever happens afterwards. *)
Theorem finished_delivery_is_never_resent q q' i d :
  provider_deliveries (q_db q) !! i = Some d →
  nonterminal_delivery_status (pd_status d) = false → rtc step q q' →
  sends i (q_sent q') = sends i (q_sent q)
  ∧ ∃ d', provider_deliveries (q_db q') !! i = Some d' ∧ pd_status d' = pd_status d.
Proof.
  intros Hi Hn Hr. destruct (steps_row _ i q q' d Hr Hi) as (d' & Hi' & _ & Hst).
  destruct (Hst Hn) as [Hs Hse]. split; [done|]. by exists d'.
Qed.

(** A lead's status is what its deliveries say: routing exactly when one is
    still under way, delivered when all ended and one succeeded, failed when
    all ended and none did; a deleted lead has nothing under way, and a lead
    classified as spam has no delivery. *)
Theorem lead_status_is_truthful db q i l :
  provider_deliveries db = ∅ → leads db = ∅ → rtc step (initial db) q →
  leads (q_db q) !! i = Some l → truthful_status i (ld_status l) (q_db q).
Proof.
  intros Hp Hl Hr Hi. pose proof (steps_inv _ _ _ Hr (initial_inv db Hp Hl)) as Hinv.
  by apply (qi_leads q Hinv).
Qed.

(** A deletion lasts: once a lead is deleted, its row carries no personal data
    in any later state, and nothing is sent any more that belongs to it. *)
Theorem deleted_lead_is_never_contacted db q i access now db0 q' :
  provider_deliveries db = ∅ → leads db = ∅ → rtc step (initial db) q →
  delete_lead i access now (q_db q) = (Ok true, db0) → rtc step (with_db q db0) q' →
  (∃ l, leads (q_db q') !! i = Some l ∧ blank l)
  ∧ ∃ later, q_sent q' = later ++ q_sent q
      ∧ ∀ k d, k ∈ later → provider_deliveries (q_db q') !! k = Some d → pd_lead_id d ≠ i.
Proof.
  intros Hp Hl Hr Hdel Hr'. remember (with_db q db0) as q0 eqn:Hq0.
  assert (step q q0) as Hstep by (rewrite Hq0; by eapply qs_delete).
  assert (queue_inv q0) as Hinv.
  { eapply queue_step_inv; [done|]. apply (steps_inv _ _ _ Hr), initial_inv; done. }
  assert (∃ l, leads (q_db q0) !! i = Some l ∧ blank l) as Hblank.
  { unfold delete_lead in Hdel. rewrite bind_raise_if in Hdel. case_match; [done|].
    rewrite bind_gets in Hdel. destruct (leads (q_db q) !! i) as [l|] eqn:Hi; [|done].
    apply bind_ok in Hdel as (u & db1 & [Hl1 _]%anonymize_effect & Hdel).
    apply bind_ok in Hdel as (u1 & db2 & [-> _]%flush_ok & [= Heq]).
    rewrite Hq0. cbn. rewrite <- Heq, Hl1, lookup_alter_eq, Hi. eexists. split; [done|]. apply anonymous_blank. }
  assert (q_sent q0 = q_sent q) as <- by by rewrite Hq0.
  clear Hdel Hq0 Hstep Hr. induction Hr' as [q0|q0 q1 q' Hs Hr' IH].
  { split; [done|]. exists []. split; [done|]. set_solver. }
  destruct Hblank as (l & Hi & Hb).
  destruct IH as [Hfin (later & Hlater & Hothers)];
    [by eapply queue_step_inv|by eapply step_blank|].
  split; [done|]. destruct (step_silent _ q0 q1 i l Hinv Hs Hi Hb) as [Heq|(k & d & Heq & Hk & Hne)].
  - exists later. by rewrite Hlater, Heq.
  - exists (later ++ [k]). rewrite Hlater, Heq, <- app_assoc. split; [done|].
    intros j e [Hj| ->%list_elem_of_singleton]%elem_of_app He; [by eapply Hothers|].
    destruct (step_row _ k q0 q1 d Hs Hk) as (d1 & Hd1 & [Hid1 _ _]).
    destruct (steps_row _ k q1 q' d1 Hr' Hd1) as (d2 & Hd2 & Hid2 & _).
    assert (e = d2) as -> by congruence. injection Hid1; injection Hid2. congruence.
Qed.

(** Submitting the same form twice creates one lead: property and idempotency
    key identify a lead in every reachable state, and a submission whose key
    is already stored returns that lead as a replay, whatever policy, adapters
    and assessor answer, and writes nothing. *)
Theorem submission_is_idempotent db q i l policy adapters allowed spam lead_id delivery_id form
    context :
  keys_unique db → rtc step (initial db) q →
  leads (q_db q) !! i = Some l → ld_property_id l = f_property_id form →
  ld_idempotency_key l = f_idempotency_key form →
  keys_unique (q_db q)
  ∧ submit hmac_sha256 policy adapters allowed spam lead_id delivery_id form context (q_db q)
    = (Ok (found i l true false (q_db q), None), q_db q).
Proof.
  intros Hu Hr Hi Hp Hk. assert (keys_unique (q_db q)) as Huq.
  { clear Hi. assert (keys_unique (q_db (initial db))) as Hu0 by done. revert Hu0. clear Hu.
    induction Hr; eauto using step_keys. }
  split; [done|]. unfold submit, prepare_submit.
  assert (replay_of form (q_db q) = Some (i, l)) as Hrep.
  { destruct (replay_of form (q_db q)) as [[j m]|] eqn:Hrep.
    - apply select_first_Some in Hrep as [Hj Hm]. bools.
      assert (i = j) as <- by (apply (Huq i j l m); congruence). congruence.
    - unfold replay_of in Hrep. rewrite select_first_None in Hrep. specialize (Hrep i l Hi).
      by rewrite !bool_decide_eq_true_2 in Hrep. }
  unfold mbind, M_bind, gets at 1. rewrite Hrep. done.
Qed.

(** Two workers cannot settle the same attempt: a worker whose lease was taken
    over is told so by its heartbeat, starts no call and records no outcome. *)
Theorem stale_delivery_worker_is_fenced lease adapters number outcome base maximum after us now db :
  (∀ d, provider_deliveries db !! dl_delivery_id lease = Some d → _owns_delivery d lease = false) →
  F64.timedelta_seconds after = Some us →
  heartbeat_delivery lease after now db = (Ok false, db)
  ∧ begin_delivery adapters lease now db = (Ok not_owned, db)
  ∧ end_delivery lease number outcome base maximum now db = (Ok None, db).
Proof.
  intros Hlost Hus. unfold heartbeat_delivery, begin_delivery, end_delivery, timedelta.
  rewrite bind_get_or_raise, Hus, !bind_gets.
  destruct (provider_deliveries db !! _) as [d|]; [|done]. by rewrite (Hlost d eq_refl).
Qed.
End theorems.

(** ** One lead on its way *)
Module LeadRun.
Definition hash (key v : string) : string := (key +:+ ":" +:+ v)%string.
Definition sec (n : Z) : Z := n * 1000000.

Definition profile : RoutingProfile := {|
  rp_opportunity_id := 1; rp_public_tracking_number := None; rp_public_contact_email := None;
  rp_recording_approved := false; rp_recording_retention_days := None;
  rp_call_adapter_name := None; rp_call_provider_route_id := None;
  rp_routing_health_status := None; rp_routing_health_checked_at := None; rp_active := true
|}.
Definition provider : ProviderAssignment :=
  activate_row 0 (new_assignment {|
    in_property_id := "p"; in_public_business_name := "one"; in_provider_candidate_id := None;
    in_destination_phone := None; in_destination_email := Some "owner@shop.example"%string;
    in_coverage := []; in_response_expectation_minutes := None;
    in_lead_acceptance_required := true |}) <| as_status := active |>.
Definition db0 : Db Z := empty_db
  <| routing_profiles := {["p"%string := profile]} |> <| provider_assignments := {[1 := provider]} |>.

Definition policy : LeadRoutingPolicy := {|
  dedupe_window_minutes := 60; rate_limit_count := 5; rate_limit_window_seconds := 300;
  maximum_delivery_attempts := 3; retention_days := 365; consent_text := "I consent.";
  consent_text_version := "consent-v1"; referral_disclosure_text := "Referral.";
  referral_disclosure_version := "referral-v1"; pii_hash_pepper := "0123456789abcdef"
|}.
Definition adapters (c : DeliveryChannel) : option string :=
  match c with ch_email => Some "fixture-email"%string | ch_phone => None end.
Definition form : LeadForm := {|
  f_property_id := "p"; f_name := "Ann"; f_email := Some "ann@home.example"%string;
  f_phone := None; f_postal_code := None; f_message := None; f_consent_accepted := true;
  f_consent_text_version := "consent-v1"; f_referral_disclosure_acknowledged := true;
  f_referral_disclosure_version := "referral-v1"; f_idempotency_key := "key-0123456789";
  f_honeypot := ""
|}.
Definition context : RequestContext := {|
  rc_remote_address := Some "192.0.2.1"%string; rc_user_agent := None;
  rc_request_id := "r1"; rc_received_at := sec 10
|}.
Definition accept_all (_ : string) : bool := true.

Definition preparation :=
  prepare_submit hash policy adapters accept_all (assess form context) 7 (λ _, 9) form context db0.
Definition default_lead : Lead := {|
  ld_property_id := ""; ld_opportunity_id := 0; ld_provider_assignment_id := None;
  ld_channel := lead_form; ld_status := lead_received; ld_name := ""; ld_email := None;
  ld_phone := None; ld_postal_code := None; ld_message := None; ld_idempotency_key := "";
  ld_dedupe_hash := ""; ld_subject_hash := ""; ld_received_at := 0; ld_pii_deleted_at := None;
  ld_retention_expires_at := 0
|}.
Definition default_submission : Submission := {|
  new_lead_id := 0; new_lead := default_lead; new_deliveries := []; new_alert := None;
  new_consent := {| cr_consent_granted := false; cr_consent_text := "";
    cr_consent_text_version := ""; cr_referral_disclosure_acknowledged := false;
    cr_referral_disclosure_text := ""; cr_referral_disclosure_version := ""; cr_captured_at := 0;
    cr_request_fingerprint := ""; cr_proof_metadata := JNull |};
  new_assessment := {| sa_score := F64.zero; sa_disposition := ""; sa_signals := [];
    sa_assessor_version := "" |}
|}.
Definition submission : Submission :=
  match preparation.1 with Ok (inr s) => s | _ => default_submission end.
Definition submitted := insert_submission form submission db0.
Definition lease_seconds : binary64 := F64.of_Z 30.
Definition claimed := claim_next_delivery "w" lease_seconds (λ _, "token-1"%string) (sec 20)
                        submitted.2.
Definition lease : DeliveryLease :=
  {| dl_delivery_id := 9; dl_worker_id := "w"; dl_lease_token := "token-1" |}.
Definition begun := begin_delivery adapters lease (sec 21) claimed.2.
Definition recovered := recover_stale_deliveries lease_seconds (sec 100) begun.2.

(** The result of a run, and the row of the delivery and of the lead. *)
Definition result_of {A : Type} (m : result exn A * Db Z) (a : A) : Prop := m = (Ok a, m.2).
Lemma run_result {A : Type} (m : result exn A * Db Z) a : m.1 = Ok a → result_of m a.
Proof. unfold result_of. destruct m. by intros <-. Qed.

Definition delivery (db : Db Z) : ProviderDelivery :=
  default (delivery_row policy 0 0 0 (ch_email, "", "")%string) (provider_deliveries db !! 9).
Definition lead (db : Db Z) : Lead := default default_lead (leads db !! 7).

Lemma prepared_run : preparation = (Ok (inr submission), preparation.2).
Proof. apply run_result. unfold submission. destruct preparation as [[[?|?]|?] ?] eqn:Hp; [|done|];
  vm_compute in Hp; discriminate. Qed.

Definition submit_result : LeadSubmissionResult * option string :=
  ({| sub_lead_id := 7; sub_status := lead_routing; sub_idempotent_replay := false;
      sub_duplicate := false; sub_delivery_ids := [9] |}, None).
Lemma submitted_run : result_of submitted submit_result.
Proof. apply run_result. by vm_compute. Qed.
Lemma claimed_run : result_of claimed (Some lease).
Proof. apply run_result. by vm_compute. Qed.
Definition request : DeliveryRequest :=
  request_of (delivery claimed.2) (lead claimed.2) 1 "owner@shop.example".
Lemma begun_run : result_of begun (sending request 1).
Proof. apply run_result. by vm_compute. Qed.
Lemma recovered_run : result_of recovered 1.
Proof. apply run_result. by vm_compute. Qed.

Definition after_submit : Queue := with_db (initial db0) submitted.2.
Definition after_claim : Queue :=
  {| q_db := claimed.2; q_claimed := [lease]; q_sent := []; q_tokens := ["token-1"%string] |}.
Definition after_begin : Queue :=
  {| q_db := begun.2; q_claimed := []; q_sent := [9]; q_tokens := ["token-1"%string] |}.
Definition after_recovery : Queue :=
  {| q_db := recovered.2; q_claimed := []; q_sent := [9]; q_tokens := ["token-1"%string] |}.

Lemma submit_step : queue_step hash (initial db0) after_submit.
Proof.
  exact (qs_submit hash (initial db0) policy adapters accept_all (assess form context) 7 (λ _, 9)
    form context db0 submission preparation.2 submit_result submitted.2 ltac:(done) prepared_run
    submitted_run).
Qed.
Lemma claim_step : queue_step hash after_submit after_claim.
Proof.
  exact (qs_claim hash after_submit "w" lease_seconds (λ _, "token-1"%string) (sec 20) lease
    claimed.2 claimed_run (not_elem_of_nil _)).
Qed.
Lemma begin_step : queue_step hash after_claim after_begin.
Proof.
  exact (qs_begin hash after_claim adapters [] lease [] (sec 21) (sending request 1) begun.2
    eq_refl begun_run).
Qed.
Lemma recovery_step : queue_step hash after_begin after_recovery.
Proof. exact (qs_recover hash after_begin lease_seconds (sec 100) 1 recovered.2 recovered_run). Qed.

Lemma reach_submit : rtc (queue_step hash) (initial db0) after_submit.
Proof. eapply rtc_l; [exact submit_step|apply rtc_refl]. Qed.
Lemma reach_begin : rtc (queue_step hash) (initial db0) after_begin.
Proof.
  eapply rtc_l; [exact submit_step|]. eapply rtc_l; [exact claim_step|].
  eapply rtc_l; [exact begin_step|apply rtc_refl].
Qed.
Lemma delivery_history : rtc (queue_step hash) (initial db0) after_recovery.
Proof.
  transitivity after_begin; [exact reach_begin|].
  eapply rtc_l; [exact recovery_step|apply rtc_refl].
Qed.

Lemma begun_row : provider_deliveries (q_db after_begin) !! 9 = Some (delivery begun.2).
Proof. by vm_compute. Qed.
Lemma recovered_row : provider_deliveries (q_db after_recovery) !! 9 = Some (delivery recovered.2).
Proof. by vm_compute. Qed.
Lemma recovered_lead : leads (q_db after_recovery) !! 7 = Some (lead recovered.2).
Proof. by vm_compute. Qed.
Lemma submitted_lead : leads (q_db after_submit) !! 7 = Some (lead submitted.2).
Proof. by vm_compute. Qed.

Definition admin : AccessContext :=
  {| ac_actor_id := "root"; ac_role := role_privacy_admin; ac_provider_assignment_ids := [] |}.
Definition deleted := delete_lead 7 admin (sec 30) submitted.2.
Lemma deleted_run : result_of deleted true.
Proof. apply run_result. by vm_compute. Qed.
End LeadRun.

Lemma contact_is_bounded_witness :
  sends 9 (q_sent LeadRun.after_begin) = 1
  ∧ pd_attempt_count (LeadRun.delivery LeadRun.begun.2) ≤ 3.
Proof.
  destruct (contact_is_bounded LeadRun.hash LeadRun.db0 _ 9 _ eq_refl eq_refl LeadRun.reach_begin
    LeadRun.begun_row) as (Hs & Hb & _).
  split; [by vm_compute|]. etransitivity; [exact Hb|]. by vm_compute.
Defined.

Lemma finished_delivery_is_never_resent_witness :
  pd_status (LeadRun.delivery LeadRun.recovered.2) = d_outcome_unknown
  ∧ ∀ q', rtc (queue_step LeadRun.hash) LeadRun.after_recovery q' → sends 9 (q_sent q') = 1.
Proof.
  split; [by vm_compute|]. intros q' Hr.
  rewrite (proj1 (finished_delivery_is_never_resent LeadRun.hash _ q' 9 _ LeadRun.recovered_row
    ltac:(by vm_compute) Hr)). by vm_compute.
Defined.

Lemma lead_status_is_truthful_witness :
  ld_status (LeadRun.lead LeadRun.recovered.2) = lead_delivery_failed
  ∧ ¬ some_delivery 7 nonterminal_delivery_status (q_db LeadRun.after_recovery).
Proof.
  assert (ld_status (LeadRun.lead LeadRun.recovered.2) = lead_delivery_failed) as Hs
    by by vm_compute.
  split; [exact Hs|].
  pose proof (lead_status_is_truthful LeadRun.hash LeadRun.db0 _ 7 _ eq_refl eq_refl LeadRun.delivery_history
    LeadRun.recovered_lead) as Ht.
  rewrite Hs in Ht. exact (proj1 Ht).
Defined.

Lemma deleted_lead_is_never_contacted_witness :
  ∃ l, leads LeadRun.deleted.2 !! 7 = Some l ∧ blank l.
Proof.
  exact (proj1 (deleted_lead_is_never_contacted LeadRun.hash LeadRun.db0 LeadRun.after_submit 7
    LeadRun.admin (LeadRun.sec 30) LeadRun.deleted.2
    (with_db LeadRun.after_submit LeadRun.deleted.2) eq_refl eq_refl LeadRun.reach_submit
    LeadRun.deleted_run (rtc_refl _ _))).
Defined.

Lemma submission_is_idempotent_witness :
  submit LeadRun.hash LeadRun.policy LeadRun.adapters LeadRun.accept_all
    (assess LeadRun.form LeadRun.context) 8 (λ _, 10) LeadRun.form LeadRun.context
    LeadRun.submitted.2
  = (Ok (found 7 (LeadRun.lead LeadRun.submitted.2) true false LeadRun.submitted.2, None),
     LeadRun.submitted.2).
Proof.
  assert (keys_unique LeadRun.db0) as Hu by (by intros i j l m Hi).
  exact (proj2 (submission_is_idempotent LeadRun.hash LeadRun.db0 LeadRun.after_submit 7 _
    LeadRun.policy LeadRun.adapters LeadRun.accept_all (assess LeadRun.form LeadRun.context) 8
    (λ _, 10) LeadRun.form LeadRun.context Hu LeadRun.reach_submit LeadRun.submitted_lead
    ltac:(by vm_compute) ltac:(by vm_compute))).
Defined.

Lemma stale_delivery_worker_is_fenced_witness :
  ∃ us, F64.timedelta_seconds LeadRun.lease_seconds = Some us
  ∧ end_delivery LeadRun.lease 1 adapter_retryable_error LeadRun.lease_seconds
      LeadRun.lease_seconds (LeadRun.sec 101) LeadRun.recovered.2 = (Ok None, LeadRun.recovered.2).
Proof.
  assert (F64.timedelta_seconds LeadRun.lease_seconds = Some 30000000) as Hus by by vm_compute.
  exists 30000000. split; [exact Hus|].
  assert (∀ d, provider_deliveries LeadRun.recovered.2 !! dl_delivery_id LeadRun.lease = Some d →
    _owns_delivery d LeadRun.lease = false) as Hlost.
  { intros d Hd. cbn [dl_delivery_id LeadRun.lease] in Hd.
    pose proof LeadRun.recovered_row as Hrow. cbn [q_db LeadRun.after_recovery] in Hrow.
    rewrite Hrow in Hd. apply Some_inj in Hd as <-. by vm_compute. }
  exact (proj2 (proj2 (stale_delivery_worker_is_fenced LeadRun.lease LeadRun.adapters 1
    adapter_retryable_error _ _ _ _ (LeadRun.sec 101) _ Hlost Hus))).
Defined.

(** ** A key that blocks a deletion

    The anonymised row takes the idempotency key [deleted:<lead id>], which is a
    key a client may choose.  A second submission under that key makes the
    deletion of the first lead, and the retention run that includes it, violate
    the unique constraint. *)
Module BlockedDeletion.
Import LeadRun.
Definition second_form : LeadForm := {|
  f_property_id := "p"; f_name := "Bob"; f_email := Some "bob@home.example"%string;
  f_phone := None; f_postal_code := None; f_message := None; f_consent_accepted := true;
  f_consent_text_version := "consent-v1"; f_referral_disclosure_acknowledged := true;
  f_referral_disclosure_version := "referral-v1"; f_idempotency_key := deleted_uuid 7;
  f_honeypot := ""
|}.
Definition second := submit hash policy adapters accept_all (assess second_form context) 8 (λ _, 10)
  second_form context submitted.2.

Lemma deletion_blocked :
  f_idempotency_key second_form = "deleted:00000000-0000-0000-0000-000000000007"%string
  ∧ (delete_lead 7 admin (sec 30) submitted.2).1 = Ok true
  ∧ (delete_lead 7 admin (sec 30) second.2).1 = Raise IntegrityError
  ∧ (enforce_retention (sec 100000000) second.2).1 = Raise IntegrityError.
Proof. split_and!; by vm_compute. Qed.
End BlockedDeletion.
