(* ===== verification/LeadDeliveryLiveness.v ===== *)
(** * LeadDeliveryLiveness: every queued delivery is settled

    One worker in its loop, with nothing else running.  A round that comes late enough
    (every retry is due, every lease of a dead worker has expired) recovers, claims and
    runs one delivery, and lowers the backlog: the number of contacts still allowed plus
    one for every open delivery.  So after as many such rounds as the backlog counts no
    delivery is open, whatever the adapters answer. *)
From S2P Require Import Prelude.
From S2P Require Import Binary64.
From S2P Require Import Schema.
From S2P Require Import ProviderOperations.
From S2P Require Import LeadRouting.
From S2P Require Import LeadDelivery.
From S2P Require Import LeadDeliveryProofs.
From S2P Require Import LeadDeliveryInvariant.
From S2P Require Import LeadDeliveryTheorems.

Section liveness.
Context {USD : Type} (worker_id : string) (adapters : DeliveryChannel → option string).
Context (stale_after_seconds base maximum : binary64).
Implicit Types (db : Db USD) (d : ProviderDelivery) (lease : DeliveryLease).

(** ** Attempts *)

(** No attempt was added and none changed its delivery or number. *)
Definition same_attempts (t t' : gmap Z RoutingAttempt) : Prop :=
  ∀ k a', t' !! k = Some a' →
    ∃ a, t !! k = Some a ∧ ra_delivery_key a = ra_delivery_key a'
         ∧ ra_attempt_number a = ra_attempt_number a'.

Lemma same_attempts_eq t t' : t' = t → same_attempts t t'.
Proof. intros -> k a'. eauto. Qed.

Lemma same_attempts_trans t1 t2 t3 :
  same_attempts t1 t2 → same_attempts t2 t3 → same_attempts t1 t3.
Proof. intros H1 H2 k a3 (a2 & Ha2 & <- & <-)%H2. apply (H1 _ _ Ha2). Qed.

Lemma same_attempts_alter f k t :
  (∀ a, ra_delivery_key (f a) = ra_delivery_key a ∧ ra_attempt_number (f a) = ra_attempt_number a) →
  same_attempts t (alter f k t).
Proof.
  intros Hf j a'. rewrite lookup_alter. case_decide as Heq; [|eauto].
  subst j. intros (a & Ha & ->)%fmap_Some. exists a. destruct (Hf a). auto.
Qed.

#[export] Instance add_lead_event_keeps_attempts i t k now :
  Keeps (@routing_attempts USD) (_add_lead_event i t k now).
Proof. unfold _add_lead_event. apply keeps_bind; [apply _|]. intros [?|]; apply _. Qed.

Lemma refresh_attempts lead_id now db b db' :
  _refresh_lead_state lead_id now db = (Ok b, db') → routing_attempts db' = routing_attempts db.
Proof.
  apply keeps_ok. unfold _refresh_lead_state. apply keeps_bind; [apply _|]. intros [l|]; [|apply _].
  apply keeps_bind; [apply _|]. intros ds. unfold set_lead_status.
  repeat case_match; apply _.
Qed.

(** A change of a row, then the refresh of its lead, always completes. *)
Lemma refresh_total lead_id now db :
  ∃ b db', _refresh_lead_state lead_id now db = (Ok b, db')
    ∧ provider_deliveries db' = provider_deliveries db
    ∧ routing_attempts db' = routing_attempts db.
Proof.
  destruct (refresh_run lead_id now db) as (b & db' & Hrun & Hp & _).
  exists b, db'. split_and!; [done|done|]. by eapply refresh_attempts.
Qed.

(** ** Each handler completes, and what it does to its row *)

Definition recovered_row (now : Z) d : ProviderDelivery :=
  _clear_delivery_lease
    (if bool_decide (pd_status d = d_delivering) then mark_unknown now d else mark_requeued now d).

(** [db'] is [db] with row [i] replaced, and possibly attempts closed. *)
Definition moves (i : Z) d' db db' : Prop :=
  provider_deliveries db' = <[i := d']> (provider_deliveries db)
  ∧ same_attempts (routing_attempts db) (routing_attempts db').

Lemma recover_delivery_total now i db d :
  provider_deliveries db !! i = Some d →
  ∃ db', recover_delivery now i db = (Ok tt, db') ∧ moves i (recovered_row now d) db db'.
Proof.
  intros Hi. unfold recover_delivery. rewrite bind_get_or_raise, Hi.
  set (f := if bool_decide (pd_status d = d_delivering) then mark_unknown now else mark_requeued now).
  assert (∃ db1, (if bool_decide (pd_status d = d_delivering) then
     update_delivery i (mark_unknown now) ≫= λ _,
     gets (running_attempt (pd_delivery_key d)) ≫= λ (attempt : option (Z * RoutingAttempt)),
     match attempt with
     | Some (k, _) =>
         update_attempt k (λ a, a <| ra_status := "outcome_unknown" |>
           <| ra_error_code := Some "worker_lost_during_provider_call"%string |>
           <| ra_error_summary := Some lost_during_call |> <| ra_completed_at := Some now |>)
     | None => mret tt
     end
   else update_delivery i (mark_requeued now)) db = (Ok tt, db1)
   ∧ provider_deliveries db1 = alter f i (provider_deliveries db)
   ∧ same_attempts (routing_attempts db) (routing_attempts db1))
   as (db1 & Hmark & Hp & Ha).
  { unfold f. case_bool_decide; [|eexists; split; [done|]; split; [done|by apply same_attempts_eq]].
    rewrite (bind_run _ _ _ _ _ (eq_refl : update_delivery i _ db = _)), bind_gets.
    destruct (running_attempt _ _) as [[k a]|].
    - eexists. split; [done|]. split; [done|]. by apply same_attempts_alter.
    - eexists. split; [done|]. split; [done|by apply same_attempts_eq]. }
  rewrite (bind_run _ _ _ _ _ Hmark). rewrite (bind_run _ _ _ _ _ (eq_refl : update_delivery i _ db1 = _)).
  set (db2 := db1 <| provider_deliveries ::= _ |>).
  destruct (refresh_total (pd_lead_id d) now db2) as (b & db3 & Href & Hp3 & Ha3).
  rewrite (bind_run _ _ _ _ _ Href). exists db3. split; [done|]. split.
  - rewrite Hp3. cbn -[alter]. rewrite Hp, alter_alter_eq, (alter_as_insert _ _ _ _ Hi).
    unfold recovered_row, f. by case_bool_decide.
  - eapply same_attempts_trans; [exact Ha|]. by apply same_attempts_eq.
Qed.

Lemma fail_total i lead_id code summary now db d :
  provider_deliveries db !! i = Some d →
  ∃ a db', _fail_delivery i lead_id code summary now db = (Ok a, db')
    ∧ moves i (fail_row code summary now d) db db'.
Proof.
  intros Hi. unfold _fail_delivery. rewrite (bind_run _ _ _ _ _ (eq_refl : update_delivery i _ db = _)).
  set (db1 := db <| provider_deliveries ::= _ |>).
  destruct (refresh_total lead_id now db1) as (b & db2 & Href & Hp & Ha).
  rewrite (bind_run _ _ _ _ _ Href).
  assert (moves i (fail_row code summary now d) db db2) as Hm.
  { split; [|by apply same_attempts_eq]. rewrite Hp. cbn -[alter].
    by rewrite (alter_as_insert _ _ _ _ Hi). }
  destruct b; [rewrite bind_gets|]; by eexists _, _.
Qed.

(** The delays of the retries a row may still make are representable. *)
Definition delays_defined (max_attempts : Z) : Prop :=
  ∀ n, n < max_attempts → ∃ delay us,
    delivery_retry_delay n base maximum = Some delay ∧ F64.timedelta_seconds delay = Some us.

(** A delivery after its call: finished, or queued again while attempts are left. *)
Record closed d d' : Prop := {
  cl_identity : identity d' = identity d;
  cl_count : pd_attempt_count d' = pd_attempt_count d;
  cl_status : nonterminal_delivery_status (pd_status d') = false
    ∨ (pd_status d' = d_retrying ∧ pd_attempt_count d < pd_max_attempts d)
}.

Lemma moves_trans i d1 d2 db db1 db2 :
  moves i d1 db db1 → provider_deliveries db2 = <[i := d2]> (provider_deliveries db1) →
  same_attempts (routing_attempts db1) (routing_attempts db2) → moves i d2 db db2.
Proof.
  intros [Hp1 Ha1] Hp2 Ha2. split; [by rewrite Hp2, Hp1, insert_insert_eq|].
  by eapply same_attempts_trans.
Qed.

Lemma close_attempt_key status error now a :
  ra_delivery_key (close_attempt status error now a) = ra_delivery_key a
  ∧ ra_attempt_number (close_attempt status error now a) = ra_attempt_number a.
Proof. unfold close_attempt. by destruct error as [[? ?]|]. Qed.

Lemma delivery_retry_total i k now db d :
  provider_deliveries db !! i = Some d → delays_defined (pd_max_attempts d) →
  ∃ a db' d', _retry_or_fail i k base maximum now db = (Ok a, db') ∧ moves i d' db db' ∧ closed d d'.
Proof.
  intros Hi Hdelay. unfold _retry_or_fail. rewrite bind_get_or_raise, Hi.
  rewrite (bind_run _ _ _ _ _ (eq_refl : update_attempt k _ db = _)).
  set (db1 := db <| routing_attempts ::= _ |>).
  rewrite (bind_run _ _ _ _ _ (eq_refl : update_delivery i _ db1 = _)).
  set (g := λ d, d <| pd_last_error_code := Some retryable_error.1 |>
                   <| pd_last_error_summary := Some retryable_error.2 |>).
  set (db2 := db1 <| provider_deliveries ::= _ |>).
  assert (moves i (g d) db db2) as Hm2.
  { split; [cbn -[alter]; by rewrite (alter_as_insert _ _ _ _ Hi)|].
    apply same_attempts_alter. intros; apply close_attempt_key. }
  assert (provider_deliveries db2 !! i = Some (g d)) as Hi2
    by (rewrite (proj1 Hm2); apply lookup_insert_eq).
  destruct (Z.leb_spec (pd_max_attempts d) (pd_attempt_count d)) as [Hle|Hlt].
  - destruct (fail_total i (pd_lead_id d) "delivery_attempts_exhausted"
      "Delivery exhausted its bounded retry allowance." now db2 _ Hi2) as (a & db3 & Hrun & Hp3 & Ha3).
    eexists a, db3, _. split; [exact Hrun|]. split; [by eapply moves_trans|]. split; [done..|by left].
  - destruct (Hdelay _ Hlt) as (delay & us & Hd & Hus). rewrite bind_get_or_raise, Hd.
    unfold timedelta. rewrite bind_get_or_raise, Hus.
    rewrite (bind_run _ _ _ _ _ (eq_refl : update_delivery i _ db2 = _)).
    set (db3 := db2 <| provider_deliveries ::= _ |>).
    destruct (refresh_total (pd_lead_id d) now db3) as (b & db4 & Href & Hp4 & Ha4).
    rewrite (bind_run _ _ _ _ _ Href). eexists None, db4, _. split; [done|]. split.
    + eapply moves_trans; [exact Hm2| |by apply same_attempts_eq].
      rewrite Hp4. cbn -[alter insert]. by rewrite (alter_as_insert _ _ _ _ Hi2).
    + split; [done|done|by right].
Qed.

Lemma end_total lease number outcome now db d k a :
  provider_deliveries db !! dl_delivery_id lease = Some d → _owns_delivery d lease = true →
  attempt_of (pd_delivery_key d) number db = Some (k, a) → delays_defined (pd_max_attempts d) →
  ∃ r db' d', end_delivery lease number outcome base maximum now db = (Ok r, db')
    ∧ moves (dl_delivery_id lease) d' db db' ∧ closed d d'.
Proof.
  intros Hi Ho Hk Hdelay. unfold end_delivery. rewrite bind_gets, Hi, Ho. cbn [negb].
  rewrite bind_gets, Hk. set (i := dl_delivery_id lease) in *.
  pose proof (delivery_retry_total i k now db d Hi Hdelay) as Hretry.
  assert (∀ status error, moves i d db (db <| routing_attempts ::= alter (close_attempt status error now) k |>))
    as Hclose.
  { intros. split; [cbn; by rewrite insert_id|].
    apply same_attempts_alter. intros; apply close_attempt_key. }
  assert (∀ status code summary, ∃ r db' d',
    (update_attempt k (close_attempt status (Some (code, summary)) now) ≫= λ _,
     _fail_delivery i (pd_lead_id d) code summary now) db = (Ok r, db') ∧ moves i d' db db' ∧ closed d d')
    as Hfail.
  { intros status code summary. rewrite (bind_run _ _ _ _ _ (eq_refl : update_attempt k _ db = _)).
    set (db1 := db <| routing_attempts ::= _ |>).
    destruct (fail_total i (pd_lead_id d) code summary now db1 d Hi) as (r & db2 & Hrun & Hp & Ha).
    eexists r, db2, _. split; [exact Hrun|]. split; [by eapply moves_trans; [apply Hclose| |]|].
    split; [done..|by left]. }
  destruct outcome as [r| |]; cbv zeta; [|exact Hretry|apply Hfail].
  destruct (res_accepted r); [|destruct (res_retryable r); [exact Hretry|apply Hfail]].
  rewrite (bind_run _ _ _ _ _ (eq_refl : update_attempt k _ db = _)).
  set (db1 := db <| routing_attempts ::= _ |>).
  rewrite (bind_run _ _ _ _ _ (eq_refl : update_delivery i _ db1 = _)).
  set (db2 := db1 <| provider_deliveries ::= _ |>).
  destruct (refresh_total (pd_lead_id d) now db2) as (b & db3 & Href & Hp3 & Ha3).
  rewrite (bind_run _ _ _ _ _ Href).
  exists None, db3, (deliver_row (res_provider_message_id r) now d). split; [done|]. split.
  - eapply moves_trans; [apply (Hclose "succeeded"%string None)| |by apply same_attempts_eq].
    rewrite Hp3. cbn -[alter insert]. by rewrite (alter_as_insert _ _ _ _ Hi).
  - split; [done|done|by left].
Qed.

(** ** Claiming and beginning *)

Lemma queue_order_elem dia (rows : list (Z * ProviderDelivery)) i :
  i ∈ queue_order dia rows ↔ i ∈ rows.*1.
Proof.
  unfold queue_order.
  set (nulls := omap _ rows). set (timed := omap _ rows).
  assert (i ∈ (merge_sort due_le timed).*2 ↔ i ∈ timed.*2) as Hsort.
  { by rewrite (fmap_Permutation _ _ _ (merge_sort_Permutation due_le timed)). }
  assert (i ∈ nulls ∨ i ∈ timed.*2 ↔ i ∈ rows.*1) as Hall.
  { unfold nulls, timed. rewrite !list_elem_of_fmap, list_elem_of_omap. split.
    - intros [([j d] & Hin & Hj)|([t j] & -> & Hj)]; cbn in *.
      + case_match; simplify_eq. by exists (i, d).
      + apply list_elem_of_omap in Hj as ([j' d] & Hin & Hj). cbn in Hj. case_match; simplify_eq. by exists (j, d).
    - intros ([j d] & -> & Hin). destruct (pd_next_attempt_at d) as [t|] eqn:Ht.
      + right. exists (t, j). split; [done|]. apply list_elem_of_omap. exists (j, d). cbn. by rewrite Ht.
      + left. exists (j, d). cbn. by rewrite Ht. }
  rewrite <- Hall. destruct dia; rewrite elem_of_app, Hsort; tauto.
Qed.

Lemma claim_total token now us db i0 d0 :
  F64.timedelta_seconds stale_after_seconds = Some us →
  provider_deliveries db !! i0 = Some d0 → delivery_due now d0 = true →
  ∃ i d db', claim_next_delivery worker_id stale_after_seconds token now db
    = (Ok (Some {| dl_delivery_id := i; dl_worker_id := worker_id; dl_lease_token := token i |}), db')
  ∧ provider_deliveries db !! i = Some d ∧ delivery_due now d = true
  ∧ moves i (claimed_delivery worker_id (token i) now us d) db db'.
Proof.
  intros Hus Hi0 Hd0. unfold claim_next_delivery. rewrite bind_gets.
  set (due := select _ _). set (order := queue_order _ due).
  assert (i0 ∈ order) as Hin.
  { apply queue_order_elem, list_elem_of_fmap. exists (i0, d0). split; [done|]. by apply elem_of_select. }
  destruct order as [|i rest] eqn:Ho; [by apply not_elem_of_nil in Hin|].
  assert (i ∈ due.*1) as Hi by (apply (queue_order_elem (db_dialect db)); fold order; rewrite Ho; by left).
  apply list_elem_of_fmap in Hi as ([j d] & -> & [Hj Hdue]%elem_of_select). cbn [fst take].
  cbn [claim_delivery_from]. unfold timedelta. rewrite bind_get_or_raise, Hus, bind_gets, Hj, Hdue.
  rewrite (bind_run _ _ _ _ _ (eq_refl : update_delivery j _ db = _)).
  eexists j, d, _. split; [done|]. split; [done|]. split; [done|]. split.
  - cbn -[alter insert]. by rewrite (alter_as_insert _ _ _ _ Hj).
  - by apply same_attempts_eq.
Qed.

Lemma claim_none token now db :
  (∀ i d, provider_deliveries db !! i = Some d → nonterminal_delivery_status (pd_status d) = false) →
  claim_next_delivery worker_id stale_after_seconds token now db = (Ok None, db).
Proof.
  intros Hall. unfold claim_next_delivery. rewrite bind_gets.
  destruct (queue_order _ _) as [|i order] eqn:Ho; [done|]. exfalso.
  assert (i ∈ i :: order) as Hin by by left. rewrite <- Ho in Hin.
  apply queue_order_elem, list_elem_of_fmap in Hin as ([j d] & -> & [Hj Hd]%elem_of_select).
  specialize (Hall _ _ Hj). unfold delivery_due in Hd. bools.
  unfold nonterminal_delivery_status in Hall. bools. congruence.
Qed.

(** What holds between rounds: delivery keys are unique, a delivery counts its attempts,
    and its retries have a delay. *)
Record sound db : Prop := {
  so_keys i j d e : provider_deliveries db !! i = Some d → provider_deliveries db !! j = Some e →
    pd_delivery_key d = pd_delivery_key e → i = j;
  so_numbers i d k a : provider_deliveries db !! i = Some d → routing_attempts db !! k = Some a →
    ra_delivery_key a = pd_delivery_key d → ra_attempt_number a ≤ pd_attempt_count d;
  so_delays i d : provider_deliveries db !! i = Some d → delays_defined (pd_max_attempts d)
}.

Lemma identity_key d d' : identity d' = identity d → pd_delivery_key d' = pd_delivery_key d.
Proof. unfold identity. congruence. Qed.
Lemma identity_max d d' : identity d' = identity d → pd_max_attempts d' = pd_max_attempts d.
Proof. unfold identity. congruence. Qed.

Lemma sound_moves i d d' db db' :
  provider_deliveries db !! i = Some d → moves i d' db db' →
  identity d' = identity d → pd_attempt_count d ≤ pd_attempt_count d' → sound db → sound db'.
Proof.
  intros Hi [Hp Ha] Hid Hc [Hk Hn Hd].
  assert (∀ j e, provider_deliveries db' !! j = Some e → ∃ e0, provider_deliveries db !! j = Some e0
    ∧ identity e = identity e0 ∧ pd_attempt_count e0 ≤ pd_attempt_count e) as Hold.
  { intros j e. rewrite Hp, lookup_insert. case_decide as Hij; [|intros He; by exists e].
    intros [= <-]. subst j. by exists d. }
  split.
  - intros j k e f (e0 & He & Hie & _)%Hold (f0 & Hf & Hif & _)%Hold Heq.
    apply (Hk j k e0 f0 He Hf). by rewrite <- (identity_key _ _ Hie), <- (identity_key _ _ Hif).
  - intros j e k a (e0 & He & Hie & Hce)%Hold (a0 & Ha0 & Hk0 & <-)%Ha Heq.
    etransitivity; [|exact Hce]. apply (Hn j e0 k a0 He Ha0). by rewrite Hk0, Heq, (identity_key _ _ Hie).
  - intros j e (e0 & He & Hie & _)%Hold. rewrite (identity_max _ _ Hie). by eapply Hd.
Qed.

(** The row is owned and its next attempt is not taken: the first transaction commits. *)
Lemma begin_total lease now db d :
  provider_deliveries db !! dl_delivery_id lease = Some d → _owns_delivery d lease = true → sound db →
  (∃ alert db' d', begin_delivery adapters lease now db = (Ok (refused alert), db')
     ∧ moves (dl_delivery_id lease) d' db db' ∧ closed d d'
     ∧ nonterminal_delivery_status (pd_status d') = false)
  ∨ ∃ request db', begin_delivery adapters lease now db = (Ok (sending request (pd_attempt_count d + 1)), db')
     ∧ provider_deliveries db' = <[dl_delivery_id lease := sent_row d]> (provider_deliveries db)
     ∧ ∃ k a, routing_attempts db' = <[k := a]> (routing_attempts db)
         ∧ ra_delivery_key a = pd_delivery_key d ∧ ra_attempt_number a = pd_attempt_count d + 1.
Proof.
  intros Hi Ho Hs. unfold begin_delivery. rewrite bind_gets, Hi, Ho. cbn [negb]. rewrite !bind_gets.
  destruct (validation_error _ _ _ _) as [code|] eqn:Hv.
  - left. destruct (fail_total (dl_delivery_id lease) (pd_lead_id d) code
      "Delivery failed validation before the provider adapter was called." now db d Hi)
      as (alert & db' & Hrun & Hm).
    rewrite (bind_run _ _ _ _ _ Hrun). eexists alert, db', _. split; [done|]. split; [exact Hm|].
    split; [split; [done..|by left]|done].
  - right. unfold validation_error in Hv.
    destruct (leads db !! pd_lead_id d) as [l|]; [|done].
    destruct (provider_assignments db !! pd_provider_assignment_id d) as [p|]; cbn in Hv |- *; [|done].
    repeat (destruct (negb _) in Hv; [done|]).
    destruct (_assignment_destination p (pd_channel d)) as [dest|]; [|done].
    rewrite bind_gets, bind_raise_if, bool_decide_false.
    + eexists _, _. split; [done|]. split.
      * cbn -[alter insert]. by rewrite (alter_as_insert _ _ _ _ Hi).
      * eexists _, _. split; [done|]. done.
    + intros [[k a] [Hk Hp]%select_first_Some]. bools.
      assert (ra_attempt_number a ≤ pd_attempt_count d) by by eapply (so_numbers _ Hs). lia.
Qed.

(** The row being sent counts the attempt that was added for it. *)
Lemma sound_sent i d k a db db' :
  provider_deliveries db !! i = Some d →
  provider_deliveries db' = <[i := sent_row d]> (provider_deliveries db) →
  routing_attempts db' = <[k := a]> (routing_attempts db) →
  ra_delivery_key a = pd_delivery_key d → ra_attempt_number a = pd_attempt_count d + 1 →
  sound db → sound db'.
Proof.
  intros Hi Hp Ha Hak Han Hs.
  set (db1 := db <| provider_deliveries := provider_deliveries db' |>).
  assert (sound db1) as [Hk1 Hn1 Hd1].
  { eapply (sound_moves i d (sent_row d) db db1); [done| |done|cbn; lia|done].
    split; [done|by apply same_attempts_eq]. }
  split; [exact Hk1| |exact Hd1].
  intros j e k' a' He. rewrite Ha, lookup_insert. case_decide as Hkk; [|by apply (Hn1 j e k' a')].
  intros [= <-] Heq. assert (i = j) as <-.
  { apply (Hk1 i j (sent_row d) e); [cbn; rewrite Hp; apply lookup_insert_eq|done|].
    cbn. by rewrite <- Hak. }
  rewrite Hp, lookup_insert_eq in He. injection He as <-. cbn. lia.
Qed.

(** ** The backlog *)

(** The contacts a delivery may still make, plus one while it is open. *)
Definition debt d : Z :=
  if nonterminal_delivery_status (pd_status d)
  then 1 + Z.max 0 (pd_max_attempts d - pd_attempt_count d) else 0.

Definition backlog db : Z := table_sum debt (provider_deliveries db).

Lemma debt_nonneg d : 0 ≤ debt d.
Proof. unfold debt. case_match; lia. Qed.

Lemma debt_open d : nonterminal_delivery_status (pd_status d) = true → 1 ≤ debt d.
Proof. unfold debt. intros ->. lia. Qed.

Lemma backlog_moves i d d' db db' :
  provider_deliveries db !! i = Some d →
  provider_deliveries db' = <[i := d']> (provider_deliveries db) →
  backlog db' = backlog db - debt d + debt d'.
Proof. intros Hi Hp. unfold backlog. rewrite Hp. by apply table_sum_update. Qed.

Definition all_settled db : Prop :=
  ∀ i d, provider_deliveries db !! i = Some d → nonterminal_delivery_status (pd_status d) = false.

Lemma backlog_settled db : all_settled db → backlog db = 0.
Proof.
  unfold backlog, all_settled. induction (provider_deliveries db) as [|i d t Hi IH] using map_ind; [done|].
  intros Hall. rewrite table_sum_new, IH by (try done; intros j e Hj; apply (Hall j);
    by rewrite lookup_insert_ne by congruence).
  unfold debt. by rewrite (Hall i d (lookup_insert_eq _ _ _)).
Qed.

Lemma open_or_settled db :
  all_settled db ∨ ∃ i d, provider_deliveries db !! i = Some d
                         ∧ nonterminal_delivery_status (pd_status d) = true.
Proof.
  destruct (select_first (λ _ d, nonterminal_delivery_status (pd_status d)) (provider_deliveries db))
    as [[i d]|] eqn:Hs.
  - right. apply select_first_Some in Hs as [Hi Hd]. by exists i, d.
  - left. by rewrite select_first_None in Hs.
Qed.

Lemma open_backlog db i d :
  provider_deliveries db !! i = Some d → nonterminal_delivery_status (pd_status d) = true → 1 ≤ backlog db.
Proof.
  intros Hi Ho. etransitivity; [by apply (debt_open d)|].
  eapply (table_sum_ge debt); [|exact Hi]. intros; apply debt_nonneg.
Qed.

(** ** A round *)

(** A claimed delivery is run to its end, and owes at least one contact less. *)
Lemma run_total lease round db d :
  provider_deliveries db !! dl_delivery_id lease = Some d → _owns_delivery d lease = true → sound db →
  ∃ r db', run_delivery_by_id adapters lease base maximum round db = (Ok r, db')
           ∧ sound db' ∧ backlog db' < backlog db.
Proof.
  intros Hi Ho Hs. set (i := dl_delivery_id lease) in *. unfold run_delivery_by_id.
  assert (nonterminal_delivery_status (pd_status d) = true) as Hopen.
  { unfold _owns_delivery in Ho. bools. unfold nonterminal_delivery_status. apply orb_true_iff. by right. }
  destruct (begin_total lease (rd_begun_at round) db d Hi Ho Hs)
    as [(alert & db1 & d1 & Hrun & Hm & [Hid Hc _] & Hdone)|(rq & db1 & Hrun & Hp & k & a & Ha & Hak & Han)];
    rewrite (bind_run _ _ _ _ _ Hrun).
  - exists alert, db1. split; [done|]. split; [eapply sound_moves; [exact Hi|exact Hm|done|lia|done]|].
    rewrite (backlog_moves _ _ _ _ _ Hi (proj1 Hm)). pose proof (debt_open d Hopen).
    unfold debt at 2. rewrite Hdone. lia.
  - assert (provider_deliveries db1 !! i = Some (sent_row d)) as Hi1 by (rewrite Hp; apply lookup_insert_eq).
    pose proof (sound_sent i d k a db db1 Hi Hp Ha Hak Han Hs) as Hs1.
    destruct (attempt_of (pd_delivery_key d) (pd_attempt_count d + 1) db1) as [[k' a']|] eqn:Hk.
    2: { exfalso. unfold attempt_of in Hk. rewrite select_first_None in Hk.
         specialize (Hk k a ltac:(rewrite Ha; apply lookup_insert_eq)). cbn in Hk.
         apply andb_false_iff in Hk as [?|?]; by bools. }
    destruct (end_total lease (pd_attempt_count d + 1) (rd_answer round rq) (rd_ended_at round) db1
      (sent_row d) k' a' Hi1) as (r & db2 & d2 & Hend & Hm2 & [Hid2 Hc2 Hst2]).
    { unfold _owns_delivery in *. bools. cbn. rewrite !bool_decide_true by done. done. }
    { exact Hk. }
    { by apply (so_delays _ Hs i d). }
    exists r, db2. split; [exact Hend|]. split; [eapply (sound_moves i); [exact Hi1|exact Hm2|done|by rewrite Hc2|done]|].
    rewrite (backlog_moves _ _ _ _ _ Hi1 (proj1 Hm2)), (backlog_moves _ _ _ _ _ Hi Hp).
    cbn in Hc2. unfold debt. rewrite Hopen, Hc2, (identity_max _ _ Hid2). cbn.
    destruct Hst2 as [->|[-> ?]]; cbn in *; lia.
Qed.

Lemma recovered_row_ok now d :
  active_delivery_status (pd_status d) = true →
  identity (recovered_row now d) = identity d
  ∧ pd_attempt_count (recovered_row now d) = pd_attempt_count d
  ∧ debt (recovered_row now d) ≤ debt d
  ∧ (nonterminal_delivery_status (pd_status (recovered_row now d)) = true →
     delivery_due now (recovered_row now d) = true).
Proof.
  intros Ha.
  assert (nonterminal_delivery_status (pd_status d) = true) as Hn
    by (unfold nonterminal_delivery_status; by rewrite Ha, orb_true_r).
  unfold recovered_row, debt, delivery_due. rewrite Hn. case_bool_decide as Hd; cbn.
  - split_and!; try done. lia.
  - split_and!; try done. intros _. apply Z.leb_refl.
Qed.

Lemma recover_loop_total now rows db :
  NoDup rows →
  (∀ i, i ∈ rows → ∃ d, provider_deliveries db !! i = Some d ∧ active_delivery_status (pd_status d) = true) →
  (∀ i d, provider_deliveries db !! i = Some d → nonterminal_delivery_status (pd_status d) = true →
     i ∈ rows ∨ delivery_due now d = true) →
  sound db →
  ∃ db', for_each (recover_delivery now) rows db = (Ok tt, db') ∧ sound db' ∧ backlog db' ≤ backlog db
    ∧ ∀ i d, provider_deliveries db' !! i = Some d → nonterminal_delivery_status (pd_status d) = true →
        delivery_due now d = true.
Proof.
  intros Hnd. revert db. induction Hnd as [|i rows Hi Hnd IH]; intros db Hrows Hdue Hs; cbn [for_each].
  { exists db. split; [done|]. split; [done|]. split; [done|]. intros j d Hj Ho.
    by destruct (Hdue j d Hj Ho) as [[]%not_elem_of_nil|]. }
  destruct (Hrows i ltac:(by left)) as (d & Hd & Ha).
  destruct (recover_delivery_total now i db d Hd) as (db1 & Hrun & Hm).
  destruct (recovered_row_ok now d Ha) as (Hid & Hc & Hdebt & Hrec).
  rewrite (bind_run _ _ _ _ _ Hrun). pose proof (proj1 Hm) as Hp.
  destruct (IH db1) as (db' & Hloop & Hs' & Hb & Hall).
  - intros j Hj. rewrite Hp, lookup_insert_ne by congruence. apply Hrows. by right.
  - intros j e. rewrite Hp, lookup_insert. case_decide as Hij.
    + intros [= <-] Ho. right. by apply Hrec.
    + intros He Ho. destruct (Hdue j e He Ho) as [[->|Hin]%elem_of_cons|]; [done|by left|by right].
  - eapply sound_moves; [exact Hd|exact Hm|done|lia|done].
  - exists db'. split; [done|]. split; [done|]. split; [|done].
    rewrite (backlog_moves _ _ _ _ _ Hd Hp) in Hb. lia.
Qed.

(** A round that comes late enough: what is active has expired, what waits is due. *)
Definition late_enough (round : Round) db : Prop :=
  ∃ us, F64.timedelta_seconds stale_after_seconds = Some us ∧
  ∀ i d, provider_deliveries db !! i = Some d → nonterminal_delivery_status (pd_status d) = true →
    stale_delivery (rd_polled_at round - us) (rd_polled_at round) d = true
    ∨ delivery_due (rd_polled_at round) d = true.

Abbreviation worker_round := (delivery_round worker_id adapters stale_after_seconds base maximum).

Lemma round_total round db :
  sound db → late_enough round db →
  ∃ b db', worker_round round db = (Ok b, db') ∧ sound db'
    ∧ (all_settled db ∨ backlog db' < backlog db).
Proof.
  intros Hs (us & Hus & Hlate). unfold delivery_round.
  set (now := rd_polled_at round) in *.
  set (rows := (select (λ _ d, stale_delivery (now - us) now d) (provider_deliveries db)).*1).
  destruct (recover_loop_total now rows db) as (db1 & Hloop & Hs1 & Hb1 & Hdue1).
  { apply select_NoDup. }
  { intros i ([j d] & -> & [Hj Hst]%elem_of_select)%list_elem_of_fmap. exists d. split; [done|].
    unfold stale_delivery in Hst. by bools. }
  { intros i d Hi Ho. destruct (Hlate i d Hi Ho) as [Hst|Hd]; [left|by right].
    apply list_elem_of_fmap. exists (i, d). split; [done|]. by apply elem_of_select. }
  { done. }
  assert (recover_stale_deliveries stale_after_seconds now db = (Ok (Z.of_nat (length rows)), db1)) as Hrec.
  { unfold recover_stale_deliveries, timedelta. rewrite bind_get_or_raise, Hus. cbv zeta.
    rewrite bind_gets. fold rows. by rewrite (bind_run _ _ _ _ _ Hloop). }
  rewrite (bind_run _ _ _ _ _ Hrec).
  destruct (open_or_settled db1) as [Hset|(i0 & d0 & Hi0 & Ho0)].
  - (* nothing is left to claim *)
    rewrite (bind_run _ _ _ _ _ (claim_none (rd_token round) now db1 Hset)). exists false, db1. split; [done|]. split; [done|].
    destruct (open_or_settled db) as [|(i & d & Hi & Ho)]; [by left|right].
    rewrite (backlog_settled db1 Hset). pose proof (open_backlog db i d Hi Ho). lia.
  - destruct (claim_total (rd_token round) now us db1 i0 d0 Hus Hi0 (Hdue1 _ _ Hi0 Ho0))
      as (i & d & db2 & Hclaim & Hi & Hdue & Hm).
    rewrite (bind_run _ _ _ _ _ Hclaim). cbv beta iota.
    set (lease := {| dl_delivery_id := i; dl_worker_id := _; dl_lease_token := _ |}) in *.
    set (d2 := claimed_delivery worker_id (rd_token round i) now us d) in *.
    assert (provider_deliveries db2 !! dl_delivery_id lease = Some d2) as Hi2
      by (rewrite (proj1 Hm); apply lookup_insert_eq).
    assert (sound db2) as Hs2 by (eapply (sound_moves i d d2); [exact Hi|exact Hm|done|cbn; lia|done]).
    destruct (run_total lease round db2 d2 Hi2) as (r & db3 & Hrun & Hs3 & Hb3); [|done|].
    { unfold _owns_delivery. cbn. by rewrite !bool_decide_true. }
    rewrite (bind_run _ _ _ _ _ Hrun). exists true, db3. split; [done|]. split; [done|]. right.
    rewrite (backlog_moves i d d2 _ _ Hi (proj1 Hm)) in Hb3.
    assert (debt d2 = debt d) as Hd2; [|lia]. unfold delivery_due in Hdue. bools.
    unfold debt, nonterminal_delivery_status. rewrite H. done.
Qed.

(** ** Liveness *)

(** Late rounds settle every delivery within [n] rounds: it is so now, or the clock does
    reach a late round, and each one completes in a state from where [n - 1] more do,
    whatever tokens are drawn and whatever the adapters answer. *)
Inductive settles_within : nat → Db USD → Prop :=
| settled_now n db : all_settled db → settles_within n db
| settled_later n db :
    (∃ t, ∀ round, t ≤ rd_polled_at round → late_enough round db) →
    (∀ round, late_enough round db →
       ∃ b db', worker_round round db = (Ok b, db') ∧ settles_within n db') →
    settles_within (S n) db.

(** The clock catches up with every row. *)
Lemma clock_catches_up us db :
  F64.timedelta_seconds stale_after_seconds = Some us →
  ∃ t, ∀ round, t ≤ rd_polled_at round → late_enough round db.
Proof.
  intros Hus. unfold late_enough.
  assert (∃ t, ∀ now, t ≤ now → ∀ i d, provider_deliveries db !! i = Some d →
    nonterminal_delivery_status (pd_status d) = true →
    stale_delivery (now - us) now d = true ∨ delivery_due now d = true) as [t Ht].
  { induction (provider_deliveries db) as [|i d m Hi [t IH]] using map_ind.
    { exists 0. intros now _ i d. by rewrite lookup_empty. }
    exists (Z.max t (Z.max (default 0 (pd_next_attempt_at d)) (1 + default 0 (pd_lease_expires_at d)))).
    intros now Hnow j e. rewrite lookup_insert. case_decide; [|intros; apply (IH now ltac:(lia) j e); done].
    intros [= <-] Ho. unfold stale_delivery, delivery_due. apply orb_true_iff in Ho as [Ho|Ho]; rewrite Ho.
    - right. destruct (pd_next_attempt_at d); [|done]. cbn in *. apply Z.leb_le. lia.
    - left. cbn. apply orb_true_iff. left. destruct (pd_lease_expires_at d); [|done].
      cbn in *. apply Z.ltb_lt. lia. }
  exists t. intros round Hr. exists us. split; [done|]. by apply Ht.
Qed.

(** C20: every queued delivery is settled.  Let one worker run its loop on a queue with unique
    delivery keys and representable retry delays.  After at most as many late rounds as the
    backlog counts (one for every open delivery and one for every contact it may still make)
    no delivery is open; the clock always reaches such a round, no round raises, and this
    holds whatever the adapters answer. *)
Theorem every_delivery_is_settled us db :
  F64.timedelta_seconds stale_after_seconds = Some us → sound db →
  settles_within (Z.to_nat (backlog db)) db.
Proof.
  intros Hus. remember (Z.to_nat (backlog db)) as n eqn:Hn.
  assert (backlog db ≤ Z.of_nat n) as Hb by lia. clear Hn. revert db Hb.
  induction n as [|n IH]; intros db Hb Hs.
  { apply settled_now. destruct (open_or_settled db) as [|(i & d & Hi & Ho)]; [done|].
    pose proof (open_backlog db i d Hi Ho). lia. }
  destruct (open_or_settled db) as [|(i & d & Hi & Ho)]; [by apply settled_now|].
  apply settled_later; [by eapply clock_catches_up|]. intros round Hlate.
  destruct (round_total round db Hs Hlate) as (b & db' & Hrun & Hs' & Hdone).
  exists b, db'. split; [done|]. apply IH; [|done].
  destruct Hdone as [Hall|Hlt]; [|lia]. specialize (Hall i d Hi). congruence.
Qed.
End liveness.

(** ** A queue of one delivery *)

Module QuietRun.
Definition start : Db Z := LeadRun.submitted.2.
Definition base : binary64 := F64.of_Z 30.
Definition maximum : binary64 := F64.of_Z 3600.

Lemma deliveries : provider_deliveries start = {[9 := LeadRun.delivery start]}.
Proof. vm_compute. reflexivity. Qed.

Lemma attempts : routing_attempts start = ∅.
Proof. vm_compute. reflexivity. Qed.

Definition has_delay (m : Z) : bool :=
  match factor ← F64.float_of_int (2 ^ m); F64.timedelta_seconds (F64.min maximum (F64.mul base factor)) with
  | Some _ => true
  | None => false
  end.

Lemma delays : delays_defined base maximum (pd_max_attempts (LeadRun.delivery start)).
Proof.
  assert (pd_max_attempts (LeadRun.delivery start) = 3) as -> by (vm_compute; reflexivity).
  assert (∀ m, has_delay m = true → ∃ delay us,
    (factor ← F64.float_of_int (2 ^ m); Some (F64.min maximum (F64.mul base factor))) = Some delay
    ∧ F64.timedelta_seconds delay = Some us) as Hdelay.
  { intros m. unfold has_delay. destruct (F64.float_of_int (2 ^ m)) as [f|]; cbn; [|done].
    destruct (F64.timedelta_seconds _) as [us|] eqn:Hus; [|done]. intros _. by eexists _, us. }
  intros n Hn. apply Hdelay.
  assert (Z.max 0 (n - 1) = 0 ∨ Z.max 0 (n - 1) = 1) as [->| ->] by lia; vm_compute; reflexivity.
Qed.

Lemma start_sound : sound base maximum start.
Proof.
  split; rewrite deliveries.
  - by intros i j d e [<- _]%lookup_singleton_Some [<- _]%lookup_singleton_Some.
  - intros i d k a _. by rewrite attempts, lookup_empty.
  - intros i d [_ <-]%lookup_singleton_Some. exact delays.
Qed.
End QuietRun.

Lemma every_delivery_is_settled_witness :
  backlog QuietRun.start = 4
  ∧ settles_within "w" LeadRun.adapters LeadRun.lease_seconds QuietRun.base QuietRun.maximum
      4 QuietRun.start.
Proof.
  assert (backlog QuietRun.start = 4) as Hb by (vm_compute; reflexivity).
  split; [exact Hb|].
  pose proof (every_delivery_is_settled "w" LeadRun.adapters LeadRun.lease_seconds QuietRun.base
    QuietRun.maximum 30000000 QuietRun.start ltac:(vm_compute; reflexivity) QuietRun.start_sound) as Hw.
  rewrite Hb in Hw. exact Hw.
Defined.
