(* ===== verification/PropertyWorkflow.v ===== *)
(** * PropertyWorkflow: from an approved opportunity to a deployed site

    [PropertyWorkflowService] of property_workflow/services.py: properties and
    their version log, domain candidates and registrations, assets, provider
    assignments, site configurations, builds, compliance reviews, deployments.
    Requests are the values the pydantic models accept.  The static-site builder,
    the deployment adapter, SHA-256, JSON text and the text of a stored instant
    are parameters; [runtime_directory] is the directory of a [file:] URL. *)
From stdpp Require Import pretty.
From S2P Require Import Prelude Binary64 Schema OpportunityReview ProviderOperations LeadRouting.

(** ** Text *)

Definition is_lower_alnum (a : Ascii.ascii) : bool :=
  let n := Ascii.nat_of_ascii a in
  ((97 <=? n) && (n <=? 122) || (48 <=? n) && (n <=? 57))%nat.

(** [re.sub(r"[^a-z0-9]+", "-", s)]; [run] tells that the run has its dash *)
Fixpoint dash_runs (run : bool) (s : string) : string :=
  match s with
  | EmptyString => EmptyString
  | String a s' =>
      if is_lower_alnum a then String a (dash_runs false s')
      else if run then dash_runs true s' else "-" +:+ dash_runs true s'
  end.

Fixpoint lstrip_dash (s : string) : string :=
  match s with
  | String a s' => if (Ascii.nat_of_ascii a =? 45)%nat then lstrip_dash s' else s
  | EmptyString => EmptyString
  end.
Fixpoint rstrip_dash (s : string) : string :=
  match s with
  | EmptyString => EmptyString
  | String a s' =>
      match rstrip_dash s' with
      | EmptyString => if (Ascii.nat_of_ascii a =? 45)%nat then EmptyString
                       else String a EmptyString
      | s'' => String a s''
      end
  end.

Definition _slug (s : string) : string := rstrip_dash (lstrip_dash (dash_runs false (py_lower s))).

Example slug_brand : _slug "  Denver Plumbing & Heating! " = "denver-plumbing-heating"%string.
Proof. by vm_compute. Qed.

(** [" ".join(s.split())] *)
Fixpoint words (current s : string) : list string :=
  match s with
  | EmptyString => if str_truthy current then [current] else []
  | String a s' =>
      if is_space a then (if str_truthy current then [current] else []) ++ words "" s'
      else words (current +:+ String a EmptyString) s'
  end.
Definition normal_spaces (s : string) : string := String.concat " " (words "" s).

(** [s.split(",")[0]] *)
Fixpoint before_comma (s : string) : string :=
  match s with
  | EmptyString => EmptyString
  | String a s' => if (Ascii.nat_of_ascii a =? 44)%nat then EmptyString
                   else String a (before_comma s')
  end.

Definition occurs (token s : string) : bool := bool_decide (String.index 0 token s ≠ None).

Fixpoint any_char (p : Ascii.ascii → bool) (s : string) : bool :=
  match s with EmptyString => false | String a s' => p a || any_char p s' end.

(** A dot with a character before and after it. *)
Fixpoint inner_dot (s : string) : bool :=
  match s with
  | String _ (String b (String _ _ as s'') as s') =>
      (Ascii.nat_of_ascii b =? 46)%nat || inner_dot s'
  | _ => false
  end.

(** [re.fullmatch(r"[^@\s]+@[^@\s]+\.[^@\s]+", s)] *)
Definition email_shape (s : string) : bool :=
  match split_at s with
  | Some (l, d) =>
      str_truthy l && negb (any_char is_space s)
      && negb (any_char (λ a, (Ascii.nat_of_ascii a =? 64)%nat) d) && inner_dot d
  | None => false
  end.

(** ** Requests *)

Record PropertyCreateRequest : Type := {
  pc_neutral_brand : string;
  pc_property_id : option string;
  pc_public_tracking_number : option string;
  pc_public_contact_email : option string;
  pc_analytics_config : dict
}.

(** The [PropertyUpdateRequest]; the outer option of the nullable fields tells
    whether the field was given ([model_fields_set]). *)
Record PropertyUpdateRequest : Type := {
  up_neutral_brand : option string;
  up_public_tracking_number : option (option string);
  up_public_contact_email : option (option string);
  up_analytics_config : option dict;
  up_reason : string
}.

(** [PropertyCreateRequest(neutral_brand=b).neutral_brand]; [None] is the
    validation error *)
Definition valid_brand (b : string) : option string :=
  let n := normal_spaces b in
  if (3 <=? String.length b)%nat && (String.length b <=? 160)%nat
     && negb (occurs "official" (py_lower n) || occurs "licensed contractor" (py_lower n)
              || occurs "government" (py_lower n))
  then Some n else None.

(** [PropertyCreateRequest.validate_email] *)
Definition valid_email (e : option string) : option (option string) :=
  match e with
  | None => Some None
  | Some e =>
      let n := py_lower (py_strip e) in
      if (String.length e <=? 254)%nat && email_shape n then Some (Some n) else None
  end.

Record DomainGenerationRequest : Type := { dg_limit : Z; dg_tlds : list string }.
Record DomainAvailabilityEvidence : Type := {
  da_status : DomainAvailability; da_provider : string; da_evidence : dict
}.
Record ManualRegistrationRequest : Type := {
  mr_external_reference : string;
  mr_registrar_name : string;
  mr_expected_dns_records : gmap string string
}.
Record DNSVerificationRequest : Type := {
  dv_observed_records : gmap string string; dv_evidence_reference : string
}.
Record AssetCreateRequest : Type := {
  ar_asset_type : string;
  ar_local_path : option string;
  ar_source_provider : string;
  ar_source_url : option string;
  ar_attribution : option string;
  ar_license_metadata : dict;
  ar_alt_text : string;
  ar_content_sha256 : option string
}.
Record ProviderAssignmentInput : Type := {
  pi_provider_candidate_id : option Z;
  pi_public_business_name : string;
  pi_destination_phone : option string;
  pi_destination_email : option string;
  pi_logo_asset_id : option Z;
  pi_hours : dict;
  pi_service_radius : dict;
  pi_credentials : json;
  pi_license_numbers : json;
  pi_approved_claims : json;
  pi_attributed_testimonials : json;
  pi_provider_photos : list Z;
  pi_claims_review_reason : string
}.
Record SiteConfigInput : Type := {
  si_brand : dict;
  si_service : dict;
  si_market : dict;
  si_pricing_guidance : dict;
  si_service_process : json;
  si_faqs : json;
  si_local_considerations : json;
  si_provider_details : dict;
  si_referral_disclosure : string;
  si_calls_to_action : json;
  si_asset_ids : list Z;
  si_metadata : dict;
  si_analytics : dict;
  si_form_routing : dict;
  si_change_reason : string
}.

(** [request.model_dump(exclude={"change_reason"}, mode="json")] *)
Definition model_dump (r : SiteConfigInput) : dict :=
  [("brand", JObj (si_brand r)); ("service", JObj (si_service r));
   ("market", JObj (si_market r)); ("pricing_guidance", JObj (si_pricing_guidance r));
   ("service_process", si_service_process r); ("faqs", si_faqs r);
   ("local_considerations", si_local_considerations r);
   ("provider_details", JObj (si_provider_details r));
   ("referral_disclosure", JStr (si_referral_disclosure r));
   ("calls_to_action", si_calls_to_action r);
   ("asset_ids", JList (map JInt (si_asset_ids r)));
   ("metadata", JObj (si_metadata r)); ("analytics", JObj (si_analytics r));
   ("form_routing", JObj (si_form_routing r))]%string.

Record ComplianceReviewRequest : Type := {
  cq_approved : bool; cq_checklist : gmap string bool; cq_notes : string
}.
Record DeploymentRequest : Type := {
  dq_environment : BuildEnvironment;
  dq_operator_confirmation : bool;
  dq_confirmation_reason : string;
  dq_neutral_pilot_mode : bool;
  dq_neutral_pilot_reason : string
}.
Record RollbackRequest : Type := {
  rb_target_deployment_id : Z; rb_operator_confirmation : bool; rb_reason : string
}.

(** What the builder and the deployment adapter hand back. *)
Record BuildArtifact : Type := {
  art_output_path : string;
  art_checksum : string;
  art_manifest : gmap string string;
  art_validation : dict;
  art_total_bytes : Z
}.
Record DeploymentResult : Type := {
  res_url : string; res_adapter_name : string; res_local_only : bool
}.

Definition environment_value (e : BuildEnvironment) : string :=
  match e with env_preview => "preview" | env_staging => "staging"
  | env_production => "production" end.
Definition property_status_value (s : PropertyStatus) : string :=
  match s with ps_draft => "draft" | ps_staging => "staging" | ps_production => "production"
  | ps_archived => "archived" end.

Definition REQUIRED_COMPLIANCE_CHECKS : list string :=
  ["accessibility"; "content_accuracy"; "privacy"; "provider_claims"; "referral_disclosure";
   "structured_data"]%string.

Definition perr (code : string) : exn := PropertyWorkflowError code.

(** [except OpportunityReviewError / ProviderAssignmentError as exc] *)
Definition of_review_error (e : exn) : exn :=
  match e with OpportunityReviewError c => PropertyWorkflowError c | e => e end.
Definition of_assignment_error (e : exn) : exn :=
  match e with ProviderAssignmentError c => PropertyWorkflowError c | e => e end.

Definition json_str (s : option string) : json :=
  match s with Some s => JStr s | None => JNull end.
Definition json_int (z : option Z) : json := match z with Some z => JInt z | None => JNull end.

(** [bool(d.get(k))] *)
Definition dict_truthy (k : string) (d : dict) : bool :=
  json_truthy (default JNull (dict_get k d)).

(** ** The first approvals: actors *)
Section actors.
Context {USD : Type}.
Definition _human (a : ReviewActor) : Session USD unit :=
  raise_if (bool_decide (actor_role a = system)) (perr "human_operator_required").
Definition _reviewer (a : ReviewActor) : Session USD unit :=
  raise_if (negb (bool_decide (actor_role a ∈ [reviewer; admin]))) (perr "reviewer_role_required").
Definition _operator (a : ReviewActor) : Session USD unit :=
  raise_if (negb (bool_decide (actor_role a ∈ [operator; admin]))) (perr "operator_role_required").
End actors.

Section service.
Context {USD : Type}.
Context (require_approval : Z → Session USD Opportunity).
Context (sha256 : string → string) (json_dumps : json → string) (iso : Z → string).
Context (runtime_directory : string → option string).
Context (build_root deployment_root : string).
Context (build_static_site : dict → option string → BuildEnvironment → string → BuildArtifact).
Implicit Types (db : Db USD) (actor : ReviewActor).

Definition _json_hash (v : json) : string := sha256 (json_dumps v).

(** *** Lookups *)
Definition _property (i : string) : Session USD Property :=
  get_or_raise (λ db, properties db !! i) (perr "property_not_found").
Definition _candidate (i : Z) : Session USD DomainCandidate :=
  get_or_raise (λ db, domain_candidates db !! i) (perr "domain_candidate_not_found").
Definition _registration (i : Z) : Session USD DomainRegistration :=
  get_or_raise (λ db, domain_registrations db !! i) (perr "domain_registration_not_found").
Definition _assignment (i : Z) : Session USD ProviderAssignment :=
  get_or_raise (λ db, provider_assignments db !! i) (perr "provider_assignment_not_found").
Definition _config (i : Z) : Session USD SiteConfig :=
  get_or_raise (λ db, site_configs db !! i) (perr "site_config_not_found").
Definition _build (i : Z) : Session USD SiteBuild :=
  get_or_raise (λ db, site_builds db !! i) (perr "site_build_not_found").
Definition _routing_profile (p : string) : Session USD RoutingProfile :=
  get_or_raise (_profile p) (perr "routing_profile_not_found").

Definition _verified_registration (p : string) db : option (Z * DomainRegistration) :=
  select_last (λ _ r, bool_decide (rg_property_id r = p)
                      && bool_decide (rg_status r = dr_dns_verified)) (domain_registrations db).
Definition _approved_compliance (b : Z) db : option (Z * ComplianceReview) :=
  select_last (λ _ c, bool_decide (cp_site_build_id c = b)
                      && bool_decide (cp_status c = cmp_approved)) (compliance_reviews db).

Definition update_property_row (i : string) (f : Property → Property) : Session USD unit :=
  modify (λ db, db <| properties ::= alter f i |>).

(** *** The version log *)
Definition _property_payload (i : string) (p : Property) : json := JObj
  [("id", JStr i); ("opportunity_id", JInt (pr_opportunity_id p));
   ("neutral_brand", JStr (pr_neutral_brand p)); ("domain", json_str (pr_domain p));
   ("service_family_id", JInt (pr_service_family_id p)); ("market_id", JInt (pr_market_id p));
   ("public_tracking_number", json_str (pr_public_tracking_number p));
   ("public_contact_email", json_str (pr_public_contact_email p));
   ("status", JStr (property_status_value (pr_status p)));
   ("active_site_config_version", json_int (pr_active_site_config_version p));
   ("analytics_config", JObj (pr_analytics_config p));
   ("current_version", JInt (pr_current_version p))]%string.

Definition version_taken (i : string) (v : Z) db : bool :=
  bool_decide (is_Some (select_first (λ _ r, bool_decide (pv_property_id r = i)
                                             && bool_decide (pv_version r = v))
                          (property_versions db))).

Definition _snapshot (i : string) actor (reason : string) : Session USD unit :=
  _property i ≫= λ p,
  gets (version_taken i (pr_current_version p)) ≫= λ (taken : bool),
  raise_if taken IntegrityError ≫= λ _,
  modify (λ db, db <| property_versions ::= insert (next_id (property_versions db))
    {| pv_property_id := i; pv_version := pr_current_version p;
       pv_snapshot := _property_payload i p;
       pv_snapshot_sha256 := _json_hash (_property_payload i p);
       pv_changed_by := actor_id actor; pv_change_reason := reason |} |>).

Definition bump (p : Property) : Property := p <| pr_current_version ::= λ v, v + 1 |>.

(** *** Properties *)
Definition property_of_opportunity (o : Z) db : option string :=
  fst <$> head (List.filter (λ r, bool_decide (pr_opportunity_id r.2 = o))
                  (map_to_list (properties db))).

Definition create_property (o : Z) (r : PropertyCreateRequest) actor : Session USD string :=
  _human actor ≫= λ _,
  reraise of_review_error (require_approval o) ≫= λ opportunity,
  gets (property_of_opportunity o) ≫= λ (existing : option string),
  raise_if (bool_decide (is_Some existing)) (perr "opportunity_already_has_property") ≫= λ _,
  let i := match pc_property_id r with
           | Some i => if str_truthy i then i
                       else "property-" +:+ pretty o +:+ "-" +:+ str_take 70 (_slug (pc_neutral_brand r))
           | None => "property-" +:+ pretty o +:+ "-" +:+ str_take 70 (_slug (pc_neutral_brand r))
           end in
  gets (λ db, properties db !! i) ≫= λ (taken : option Property),
  raise_if (bool_decide (is_Some taken)) (perr "property_identifier_conflict") ≫= λ _,
  modify (λ db, db <| properties ::= insert i
    {| pr_opportunity_id := o; pr_neutral_brand := pc_neutral_brand r; pr_domain := None;
       pr_service_family_id := opp_service_family_id opportunity;
       pr_market_id := opp_market_id opportunity;
       pr_public_tracking_number := pc_public_tracking_number r;
       pr_public_contact_email := pc_public_contact_email r; pr_status := ps_draft;
       pr_active_site_config_version := None; pr_analytics_config := pc_analytics_config r;
       pr_current_version := 1 |} |>) ≫= λ _,
  create_routing_profile require_approval i o (pc_public_tracking_number r)
    (pc_public_contact_email r) false None ≫= λ _,
  _snapshot i actor "Initial approved-opportunity property configuration." ≫= λ _,
  mret i.

Definition validated {A} (o : option A) : Session USD A :=
  get_or_raise (λ _, o) (ValueError "validation_error").

Definition update_property (i : string) (r : PropertyUpdateRequest) actor : Session USD unit :=
  _human actor ≫= λ _,
  _property i ≫= λ p,
  match up_neutral_brand r with
  | Some b => validated (valid_brand b) ≫= λ b,
              update_property_row i (λ p, p <| pr_neutral_brand := b |>)
  | None => mret tt
  end ≫= λ _,
  match up_public_tracking_number r with
  | Some n => update_property_row i (λ p, p <| pr_public_tracking_number := n |>)
  | None => mret tt
  end ≫= λ _,
  match up_public_contact_email r with
  | Some e => _property i ≫= λ p,
              validated (valid_brand (pr_neutral_brand p)) ≫= λ _,
              validated (valid_email e) ≫= λ e,
              update_property_row i (λ p, p <| pr_public_contact_email := e |>)
  | None => mret tt
  end ≫= λ _,
  match up_analytics_config r with
  | Some c => update_property_row i (λ p, p <| pr_analytics_config := c |>)
  | None => mret tt
  end ≫= λ _,
  _routing_profile i ≫= λ _,
  _property i ≫= λ p,
  update_profile i (λ q, q <| rp_public_tracking_number := pr_public_tracking_number p |>
                           <| rp_public_contact_email := pr_public_contact_email p |>) ≫= λ _,
  update_property_row i bump ≫= λ _,
  _snapshot i actor (up_reason r).

(** *** Domains *)
Definition domain_stems (brand service city : string) : list string :=
  [brand; city +:+ "-" +:+ service; service +:+ "-" +:+ city;
   city +:+ "-" +:+ service +:+ "-guide"; service +:+ "-help-" +:+ city;
   city +:+ "-service-connect"]%string.

Definition generated_domains (r : DomainGenerationRequest) (stems : list string) : list string :=
  take (Z.to_nat (dg_limit r))
    (concat (map (λ stem, map (λ tld, stem +:+ "." +:+ tld) (dg_tlds r)) stems)).

Definition city_of (m : Market) : string :=
  match mk_cities m with
  | c :: _ => c
  | [] => match mk_display_name m with JStr s => before_comma s | _ => "" end
  end.

Definition domain_known (i domain : string) db : bool :=
  bool_decide (is_Some (select_first (λ _ c, bool_decide (dc_property_id c = i)
                                             && bool_decide (dc_domain c = domain))
                          (domain_candidates db))).

Definition add_candidate (i domain : string) : Session USD unit :=
  modify (λ db, db <| domain_candidates ::= insert (next_id (domain_candidates db))
    {| dc_property_id := i; dc_domain := domain; dc_status := dcs_generated;
       dc_availability_status := da_unchecked; dc_availability_checked_at := None;
       dc_availability_evidence := []; dc_decision_by := None; dc_decision_reason := None;
       dc_decided_at := None |} |>).

(** The rows of domains not known before are added one per occurrence; the flush
    refuses a repeated domain. *)
Definition generate_domain_candidates (i : string) (r : DomainGenerationRequest)
    : Session USD (list string) :=
  _property i ≫= λ p,
  get_or_raise (λ db, opportunities db !! pr_opportunity_id p) AssertionError ≫= λ o,
  get_or_raise (λ db, markets db !! opp_market_id o) AssertionError ≫= λ m,
  get_or_raise (λ db, service_families db !! opp_service_family_id o) AssertionError ≫= λ s,
  let domains := generated_domains r (domain_stems (_slug (pr_neutral_brand p))
                                        (_slug (sf_display_name s)) (_slug (city_of m))) in
  gets (λ db, List.filter (λ d, negb (domain_known i d db)) domains) ≫= λ (fresh : list string),
  raise_if (negb (bool_decide (NoDup fresh))) IntegrityError ≫= λ _,
  for_each (add_candidate i) fresh ≫= λ _,
  mret domains.

Definition update_candidate (i : Z) (f : DomainCandidate → DomainCandidate) : Session USD unit :=
  modify (λ db, db <| domain_candidates ::= alter f i |>).

Definition decide_domain_candidate (i : Z) (shortlist : bool) (reason : string) actor (now : Z)
    : Session USD unit :=
  _human actor ≫= λ _,
  _candidate i ≫= λ _,
  update_candidate i (λ c,
    c <| dc_status := if shortlist then dcs_shortlisted else dcs_rejected |>
      <| dc_decision_by := Some (actor_id actor) |> <| dc_decision_reason := Some reason |>
      <| dc_decided_at := Some now |>).

Definition check_domain_availability (i : Z) (evidence : string → DomainAvailabilityEvidence)
    (now : Z) : Session USD unit :=
  _candidate i ≫= λ c,
  let e := evidence (dc_domain c) in
  update_candidate i (λ c,
    c <| dc_availability_status := da_status e |> <| dc_availability_checked_at := Some now |>
      <| dc_availability_evidence :=
           foldl (λ d kv, dict_set kv.1 kv.2 d) [("provider"%string, JStr (da_provider e))]
             (da_evidence e) |>).

Definition registration_of_candidate (i : Z) db : option (Z * DomainRegistration) :=
  select_first (λ _ r, bool_decide (rg_domain_candidate_id r = i)) (domain_registrations db).

Definition approve_domain_purchase (i : Z) (explicit : bool) (reason : string) actor
    (can_purchase : bool) (now : Z) : Session USD Z :=
  _operator actor ≫= λ _,
  _candidate i ≫= λ c,
  raise_if (negb (bool_decide (dc_status c = dcs_shortlisted)))
    (perr "domain_must_be_shortlisted") ≫= λ _,
  raise_if (negb (bool_decide (dc_availability_status c = da_available)))
    (perr "domain_must_have_available_evidence") ≫= λ _,
  raise_if (negb explicit) (perr "explicit_domain_purchase_approval_required") ≫= λ _,
  raise_if can_purchase (perr "automatic_domain_purchase_is_disabled") ≫= λ _,
  gets (registration_of_candidate i) ≫= λ (existing : option (Z * DomainRegistration)),
  match existing with
  | Some (j, _) => mret j
  | None =>
      gets (λ db, select_first (λ _ r, bool_decide (rg_domain r = dc_domain c))
                    (domain_registrations db))
      ≫= λ (taken : option (Z * DomainRegistration)),
      raise_if (bool_decide (is_Some taken)) IntegrityError ≫= λ _,
      gets (λ db, next_id (domain_registrations db)) ≫= λ j,
      modify (λ db, db <| domain_registrations ::= insert j
        {| rg_property_id := dc_property_id c; rg_domain_candidate_id := i;
           rg_domain := dc_domain c; rg_registrar_name := "manual";
           rg_status := dr_purchase_approved; rg_purchase_approved := true;
           rg_purchase_approved_by := actor_id actor; rg_purchase_approval_reason := reason;
           rg_purchase_approved_at := now; rg_external_reference := None;
           rg_registered_at := None; rg_expected_dns_records := ∅;
           rg_observed_dns_records := ∅; rg_dns_evidence_reference := None;
           rg_dns_verified_at := None; rg_dns_verified_by := None |} |>) ≫= λ _,
      mret j
  end.

Definition update_registration (i : Z) (f : DomainRegistration → DomainRegistration)
    : Session USD unit :=
  modify (λ db, db <| domain_registrations ::= alter f i |>).

Definition record_manual_registration (i : Z) (r : ManualRegistrationRequest) actor (now : Z)
    : Session USD unit :=
  _operator actor ≫= λ _,
  _registration i ≫= λ row,
  raise_if (negb (rg_purchase_approved row)) (perr "domain_purchase_was_not_approved") ≫= λ _,
  update_registration i (λ row,
    row <| rg_external_reference := Some (mr_external_reference r) |>
        <| rg_registrar_name := mr_registrar_name r |>
        <| rg_expected_dns_records := mr_expected_dns_records r |>
        <| rg_registered_at := Some now |> <| rg_status := dr_manually_registered |>).

(** [{k: v for k, v in expected.items() if observed.get(k) != v}] is empty *)
Definition records_match (expected observed : gmap string string) : bool :=
  bool_decide (map_Forall (λ k v, observed !! k = Some v) expected).

Definition domain_in_use (i domain : string) db : bool :=
  existsb (λ r, negb (bool_decide (r.1 = i)) && bool_decide (pr_domain r.2 = Some domain))
    (map_to_list (properties db)).

Definition verify_dns (i : Z) (r : DNSVerificationRequest) actor (now : Z) : Session USD unit :=
  _operator actor ≫= λ _,
  _registration i ≫= λ row,
  raise_if (negb (bool_decide (rg_status row = dr_manually_registered)))
    (perr "dns_verification_requires_manual_registration") ≫= λ _,
  raise_if (bool_decide (rg_expected_dns_records row = ∅)) (perr "expected_dns_records_required")
  ≫= λ _,
  raise_if (negb (records_match (rg_expected_dns_records row) (dv_observed_records r)))
    (perr "dns_records_do_not_match") ≫= λ _,
  update_registration i (λ row,
    row <| rg_observed_dns_records := dv_observed_records r |>
        <| rg_dns_evidence_reference := Some (dv_evidence_reference r) |>
        <| rg_dns_verified_at := Some now |> <| rg_dns_verified_by := Some (actor_id actor) |>
        <| rg_status := dr_dns_verified |>) ≫= λ _,
  _property (rg_property_id row) ≫= λ _,
  update_property_row (rg_property_id row) (λ p, bump (p <| pr_domain := Some (rg_domain row) |>))
  ≫= λ _,
  gets (domain_in_use (rg_property_id row) (rg_domain row)) ≫= λ (used : bool),
  raise_if used IntegrityError ≫= λ _,
  _snapshot (rg_property_id row) actor "Verified manually registered domain and DNS records.".

(** *** Assets *)
Definition create_asset (i : string) (r : AssetCreateRequest) : Session USD Z :=
  _property i ≫= λ _,
  gets (λ db, next_id (assets db)) ≫= λ j,
  modify (λ db, db <| assets ::= insert j
    {| at_property_id := i; at_asset_type := ar_asset_type r; at_local_path := ar_local_path r;
       at_source_provider := ar_source_provider r; at_source_url := ar_source_url r;
       at_attribution := ar_attribution r; at_license_metadata := ar_license_metadata r;
       at_alt_text := ar_alt_text r; at_content_sha256 := ar_content_sha256 r;
       at_approved := false; at_approved_by := None; at_approval_reason := None;
       at_approved_at := None |} |>) ≫= λ _,
  mret j.

Definition review_asset (i : Z) (approved : bool) (reason : string) actor (now : Z)
    : Session USD unit :=
  _reviewer actor ≫= λ _,
  get_or_raise (λ db, assets db !! i) (perr "asset_not_found") ≫= λ _,
  modify (λ db, db <| assets ::= alter (λ a,
    a <| at_approved := approved |> <| at_approved_by := Some (actor_id actor) |>
      <| at_approval_reason := Some reason |> <| at_approved_at := Some now |>) i |>).

Definition asset_ready (i : string) (j : Z) db : bool :=
  match assets db !! j with
  | Some a => bool_decide (at_property_id a = i) && at_approved a
  | None => false
  end.

(** *** Providers *)
Definition provider_row (r : ProviderAssignmentInput) actor (now : Z) (a : ProviderAssignment)
    : ProviderAssignment :=
  a <| as_logo_asset_id := pi_logo_asset_id r |> <| as_hours := pi_hours r |>
    <| as_service_radius := pi_service_radius r |> <| as_credentials := pi_credentials r |>
    <| as_license_numbers := pi_license_numbers r |>
    <| as_approved_claims := pi_approved_claims r |>
    <| as_attributed_testimonials := pi_attributed_testimonials r |>
    <| as_provider_photos := pi_provider_photos r |>
    <| as_claims_reviewed_by := Some (actor_id actor) |>
    <| as_claims_reviewed_at := Some now |>
    <| as_claims_review_reason := Some (pi_claims_review_reason r) |>.

Definition create_provider_assignment (i : string) (r : ProviderAssignmentInput) actor (now : Z)
    : Session USD Z :=
  _reviewer actor ≫= λ _,
  _property i ≫= λ _,
  match pi_provider_candidate_id r with
  | Some c => get_or_raise (λ db, provider_candidates db !! c) (perr "provider_candidate_not_found")
              ≫= λ _, mret tt
  | None => mret tt
  end ≫= λ _,
  gets (λ db, forallb (λ j, asset_ready i j db)
                (pi_provider_photos r ++ option_list (pi_logo_asset_id r))) ≫= λ (ready : bool),
  raise_if (negb ready) (perr "provider_asset_must_be_approved") ≫= λ _,
  reraise of_assignment_error (create_assignment
    {| in_property_id := i; in_public_business_name := pi_public_business_name r;
       in_provider_candidate_id := pi_provider_candidate_id r;
       in_destination_phone := pi_destination_phone r;
       in_destination_email := pi_destination_email r; in_coverage := pi_service_radius r;
       in_response_expectation_minutes := None; in_lead_acceptance_required := true |})
  ≫= λ j,
  update_assignment j (provider_row r actor now) ≫= λ _,
  mret j.

(** The [provider-config.json] of a deployed site. *)
Definition provider_payload (i : Z) (a : ProviderAssignment) : json := JObj
  [("assignment_id", JInt i); ("public_business_name", JStr (as_public_business_name a));
   ("hours", JObj (as_hours a)); ("service_radius", JObj (as_service_radius a));
   ("approved_claims", as_approved_claims a); ("credentials", as_credentials a);
   ("license_numbers", as_license_numbers a);
   ("logo_asset_id", json_int (as_logo_asset_id a));
   ("provider_photos", JList (map JInt (as_provider_photos a)));
   ("claims_reviewed_at", json_str (iso <$> as_claims_reviewed_at a))]%string.

Definition _write_provider_runtime_file (directory : string)
    (assignment : option (Z * ProviderAssignment)) : Session USD unit :=
  modify (λ db, db <| provider_runtime ::= insert directory
    (match assignment with Some (i, a) => provider_payload i a | None => JObj [] end) |>).

Definition live_locally (p : string) (d : Deployment) : bool :=
  bool_decide (dp_property_id d = p) && bool_decide (dp_status d = dep_deployed)
  && dp_local_only d.

Definition _update_provider_runtime_configuration (p : string) (i : Z) : Session USD unit :=
  gets (λ db, (select (λ _ d, live_locally p d) (deployments db)).*2)
  ≫= λ (sites : list Deployment),
  for_each (λ d, match runtime_directory (dp_url d) with
                 | Some dir => gets (λ db, pair i <$> provider_assignments db !! i)
                               ≫= λ a, _write_provider_runtime_file dir a
                 | None => mret tt
                 end) sites.

Definition activate_provider (i : Z) (reason : string) actor (now : Z) : Session USD unit :=
  _operator actor ≫= λ _,
  _assignment i ≫= λ a,
  raise_if (bool_decide (as_claims_reviewed_at a = None)) (perr "provider_claims_require_review")
  ≫= λ _,
  reraise of_assignment_error
    (when (bool_decide (as_status a = candidate)) (assignment_transition i pilot None now) ≫= λ _,
     assignment_transition i active None now) ≫= λ _,
  update_assignment i (λ a, a <| as_activation_approved_by := Some (actor_id actor) |>
                              <| as_activation_reason := Some reason |>) ≫= λ _,
  _update_provider_runtime_configuration (as_property_id a) i.

Definition replace_provider (p : string) (j : Z) (reason : string) actor (now : Z)
    : Session USD unit :=
  _operator actor ≫= λ _,
  get_or_raise (_active_assignment p) (perr "active_provider_assignment_not_found")
  ≫= λ (current : Z * ProviderAssignment),
  _assignment j ≫= λ replacement,
  raise_if (bool_decide (as_claims_reviewed_at replacement = None))
    (perr "replacement_claims_require_review") ≫= λ _,
  reraise of_assignment_error (replace_assignment current.1 j reason now) ≫= λ _,
  update_assignment j (λ a, a <| as_activation_approved_by := Some (actor_id actor) |>
                              <| as_activation_reason := Some reason |>
                              <| as_replacement_approved_by := Some (actor_id actor) |>) ≫= λ _,
  _update_provider_runtime_configuration p j.

(** *** Site configurations *)
Definition _validate_assets (p : string) (ids : list Z) : Session USD unit :=
  for_each (λ j,
    gets (λ db, assets db !! j) ≫= λ (a : option Asset),
    raise_if (match a with Some a => negb (bool_decide (at_property_id a = p)) | None => true end)
      (perr "asset_not_found") ≫= λ _,
    raise_if (match a with Some a => negb (at_approved a) | None => true end)
      (perr "site_config_requires_approved_assets")) ids.

Definition _validate_provider_content (p : string) (details : dict) : Session USD unit :=
  when (negb (bool_decide (length details = 0%nat)))
    (gets (λ db, match dict_get "assignment_id" details with
                 | Some (JInt i) => provider_assignments db !! i
                 | _ => None end) ≫= λ (a : option ProviderAssignment),
     raise_if (match a with
               | Some a => negb (bool_decide (as_property_id a = p))
                           || bool_decide (as_claims_reviewed_at a = None)
               | None => true end) (perr "provider_details_require_reviewed_assignment")).

(** [latest_version or 0] *)
Definition latest_version (p : string) db : Z :=
  match select_latest cf_version (λ _ c, bool_decide (cf_property_id c = p)) (site_configs db) with
  | Some (_, c) => cf_version c
  | None => 0
  end.

Definition create_site_config (p : string) (r : SiteConfigInput) actor : Session USD Z :=
  _human actor ≫= λ _,
  _property p ≫= λ _,
  _validate_assets p (si_asset_ids r) ≫= λ _,
  _validate_provider_content p (si_provider_details r) ≫= λ _,
  gets (latest_version p) ≫= λ v,
  gets (λ db, next_id (site_configs db)) ≫= λ i,
  modify (λ db, db <| site_configs ::= insert i
    {| cf_property_id := p; cf_version := v + 1; cf_status := scs_draft;
       cf_config_payload := model_dump r; cf_config_sha256 := _json_hash (JObj (model_dump r));
       cf_created_by := actor_id actor; cf_change_reason := si_change_reason r;
       cf_approved_by := None; cf_approval_reason := None; cf_approved_at := None |} |>) ≫= λ _,
  update_property_row p bump ≫= λ _,
  _snapshot p actor ("Created SiteConfig version " +:+ pretty (v + 1) +:+ ".") ≫= λ _,
  mret i.

Definition update_config (i : Z) (f : SiteConfig → SiteConfig) : Session USD unit :=
  modify (λ db, db <| site_configs ::= alter f i |>).

Definition supersede_others (p : string) (i : Z) (t : gmap Z SiteConfig) : gmap Z SiteConfig :=
  map_imap (λ k c, Some (if bool_decide (cf_property_id c = p)
                            && bool_decide (cf_status c = scs_approved) && negb (k =? i)
                         then c <| cf_status := scs_superseded |> else c)) t.

Definition review_site_config (i : Z) (approved : bool) (reason : string) actor (now : Z)
    : Session USD unit :=
  _reviewer actor ≫= λ _,
  _config i ≫= λ row,
  (if approved then
     modify (λ db, db <| site_configs ::= supersede_others (cf_property_id row) i |>) ≫= λ _,
     update_config i (λ c, c <| cf_status := scs_approved |>) ≫= λ _,
     _property (cf_property_id row) ≫= λ _,
     update_property_row (cf_property_id row)
       (λ p, p <| pr_active_site_config_version := Some (cf_version row) |>)
   else update_config i (λ c, c <| cf_status := scs_draft |>)) ≫= λ _,
  update_config i (λ c, c <| cf_approved_by := Some (actor_id actor) |>
                          <| cf_approval_reason := Some reason |>
                          <| cf_approved_at := Some now |>).

(** *** Builds *)
Definition asset_ids_of (payload : dict) : list Z :=
  match dict_get "asset_ids" payload with
  | Some (JList l) => omap (λ v, match v with JInt z => Some z | _ => None end) l
  | _ => []
  end.

Definition provenance_entry (i : Z) (a : Asset) : json := JObj
  [("id", JInt i); ("asset_type", JStr (at_asset_type a));
   ("source_provider", JStr (at_source_provider a)); ("source_url", json_str (at_source_url a));
   ("attribution", json_str (at_attribution a));
   ("license_metadata", JObj (at_license_metadata a)); ("alt_text", JStr (at_alt_text a));
   ("content_sha256", json_str (at_content_sha256 a));
   ("approved_by", json_str (at_approved_by a))]%string.

Fixpoint _asset_provenance (p : string) (ids : list Z) : Session USD (list json) :=
  match ids with
  | [] => mret []
  | i :: ids' =>
      get_or_raise (λ db, if asset_ready p i db then assets db !! i else None)
        (perr "site_config_requires_approved_assets") ≫= λ a,
      _asset_provenance p ids' ≫= λ rest,
      mret (provenance_entry i a :: rest)
  end.

Definition same_build (c : Z) (e : BuildEnvironment) (sha : string) (b : SiteBuild) : bool :=
  bool_decide (bd_site_config_id b = c) && bool_decide (bd_environment b = e)
  && bool_decide (bd_build_sha256 b = sha).

Definition build_site (c : Z) (e : BuildEnvironment) : Session USD Z :=
  _config c ≫= λ config,
  _property (cf_property_id config) ≫= λ p,
  when (bool_decide (e = env_production))
    (raise_if (negb (bool_decide (cf_status config = scs_approved)))
       (perr "production_build_requires_approved_config") ≫= λ _,
     raise_if (bool_decide (pr_domain p = None)) (perr "production_build_requires_verified_domain"))
  ≫= λ _,
  _asset_provenance (cf_property_id config) (asset_ids_of (cf_config_payload config)) ≫= λ prov,
  let payload := dict_set "asset_provenance" (JList prov) (cf_config_payload config) in
  let artifact := build_static_site payload (pr_domain p) e
    (build_root +:+ "/" +:+ cf_property_id config +:+ "/" +:+ environment_value e) in
  gets (λ db, select_first (λ _ b, same_build c e (art_checksum artifact) b) (site_builds db))
  ≫= λ (existing : option (Z * SiteBuild)),
  match existing with
  | Some (i, _) => mret i
  | None =>
      gets (λ db, next_id (site_builds db)) ≫= λ i,
      modify (λ db, db <| site_builds ::= insert i
        {| bd_property_id := cf_property_id config; bd_site_config_id := c; bd_environment := e;
           bd_build_sha256 := art_checksum artifact; bd_output_path := art_output_path artifact;
           bd_status := if dict_truthy "passed" (art_validation artifact) then "passed" else "failed";
           bd_file_count := Z.of_nat (size (art_manifest artifact));
           bd_total_bytes := art_total_bytes artifact;
           bd_validation_report := art_validation artifact;
           bd_manifest := art_manifest artifact |} |>) ≫= λ _,
      mret i
  end.

(** *** Compliance *)
Definition checklist_complete (checklist : gmap string bool) : bool :=
  forallb (λ k, default false (checklist !! k)) REQUIRED_COMPLIANCE_CHECKS.

Definition review_compliance (b : Z) (r : ComplianceReviewRequest) actor (now : Z)
    : Session USD Z :=
  _reviewer actor ≫= λ _,
  _build b ≫= λ build,
  raise_if (cq_approved r && negb (checklist_complete (cq_checklist r)))
    (perr "compliance_checklist_incomplete") ≫= λ _,
  raise_if (cq_approved r && negb (dict_truthy "passed" (bd_validation_report build)))
    (perr "failed_build_cannot_pass_compliance") ≫= λ _,
  gets (λ db, next_id (compliance_reviews db)) ≫= λ i,
  modify (λ db, db <| compliance_reviews ::= insert i
    {| cp_property_id := bd_property_id build; cp_site_config_id := bd_site_config_id build;
       cp_site_build_id := b;
       cp_status := if cq_approved r then cmp_approved else cmp_rejected;
       cp_checklist := cq_checklist r; cp_validation_snapshot := bd_validation_report build;
       cp_reviewer_user_id := actor_id actor; cp_notes := cq_notes r; cp_reviewed_at := now |} |>)
  ≫= λ _,
  mret i.

(** *** Deployments *)
Definition opt_some {A} (o : option A) : bool := match o with Some _ => true | None => false end.

Definition healthy_routing (status : option string) : bool :=
  bool_decide (status ∈ [Some "healthy"; Some "active"; Some "ok"]%string).

Definition neutral_pilot (r : DeploymentRequest) : bool :=
  dq_neutral_pilot_mode r && str_truthy (py_strip (dq_neutral_pilot_reason r)).

(** [_deployment_gates], for an existing configuration and routing profile *)
Definition gates_of (p : string) (prop : Property) (b : Z) (build : SiteBuild)
    (config : SiteConfig) (profile : RoutingProfile) (r : DeploymentRequest) db
    : list (string * bool) :=
  let current := _active_assignment p db in
  [("approved_opportunity",
      match opportunities db !! pr_opportunity_id prop with
      | Some o => bool_decide (opp_status o = "approved_for_property") | None => false end);
   ("approved_site_config", bool_decide (cf_status config = scs_approved));
   ("passing_build", bool_decide (bd_status build = "passed")
                     && dict_truthy "passed" (bd_validation_report build));
   ("active_provider_or_neutral_pilot", opt_some current || neutral_pilot r);
   ("provider_claims_reviewed",
      neutral_pilot r || match current with
                         | Some (_, a) => opt_some (as_claims_reviewed_at a) | None => false end);
   ("compliance_approved", opt_some (_approved_compliance b db));
   ("domain_and_dns_verified",
      match _verified_registration p db with
      | Some (_, g) => bool_decide (pr_domain prop = Some (rg_domain g)) | None => false end);
   ("routing_healthy", healthy_routing (rp_routing_health_status profile));
   ("analytics_verified",
      match dict_get "verified" (pr_analytics_config prop) with
      | Some (JBool true) => true | _ => false end);
   ("operator_confirmation",
      dq_operator_confirmation r && str_truthy (py_strip (dq_confirmation_reason r)));
   ("local_fail_closed_adapter", true)]%string.

Definition deployed_in (p : string) (e : BuildEnvironment) (d : Deployment) : bool :=
  bool_decide (dp_property_id d = p) && bool_decide (dp_environment d = e)
  && bool_decide (dp_status d = dep_deployed).

(** The newest deployed row of the property in the environment. *)
Definition current_deployment (p : string) (e : BuildEnvironment) db : option (Z * Deployment) :=
  select_last (λ _ d, deployed_in p e d) (deployments db).

Definition roll_back (i : Z) : Session USD unit :=
  modify (λ db, db <| deployments ::= alter (λ d, d <| dp_status := dep_rolled_back |>) i |>).

Definition destination (p : string) (e : BuildEnvironment) (sha : string) : string :=
  deployment_root +:+ "/" +:+ p +:+ "/" +:+ environment_value e +:+ "/" +:+ sha.

(** [result] is what the adapter's [deploy] returned, [None] an exception. *)
Definition deploy (b : Z) (r : DeploymentRequest) actor (public_capable : bool)
    (result : option DeploymentResult) (now : Z) : Session USD Z :=
  _operator actor ≫= λ _,
  _build b ≫= λ build,
  raise_if (negb (bool_decide (bd_environment build = dq_environment r)))
    (perr "deployment_environment_build_mismatch") ≫= λ _,
  let p := bd_property_id build in
  let e := dq_environment r in
  _property p ≫= λ prop,
  raise_if public_capable (perr "public_deployment_adapter_not_approved") ≫= λ _,
  _config (bd_site_config_id build) ≫= λ config,
  _routing_profile p ≫= λ profile,
  gets (gates_of p prop b build config profile r) ≫= λ (gates : list (string * bool)),
  raise_if (bool_decide (e = env_production) && negb (forallb snd gates))
    (perr "production_deployment_gates_failed") ≫= λ _,
  gets (current_deployment p e) ≫= λ (prior : option (Z * Deployment)),
  get_or_raise (λ _, result) RuntimeError ≫= λ res,
  gets (λ db, (fst <$> _verified_registration p db, _active_assignment p db,
               fst <$> _approved_compliance b db))
  ≫= λ (found : option Z * option (Z * ProviderAssignment) * option Z),
  gets (λ db, next_id (deployments db)) ≫= λ i,
  modify (λ db, db <| deployments ::= insert i
    {| dp_property_id := p; dp_site_build_id := b; dp_domain_registration_id := found.1.1;
       dp_provider_assignment_id := fst <$> found.1.2; dp_compliance_review_id := found.2;
       dp_previous_deployment_id := fst <$> prior; dp_rollback_of_deployment_id := None;
       dp_environment := e; dp_adapter_name := res_adapter_name res; dp_status := dep_deployed;
       dp_url := res_url res; dp_local_only := res_local_only res;
       dp_operator_user_id := actor_id actor;
       dp_operator_confirmation := dq_operator_confirmation r;
       dp_confirmation_reason := dq_confirmation_reason r;
       dp_neutral_pilot_mode := dq_neutral_pilot_mode r; dp_gate_snapshot := gates;
       dp_deployed_at := now |} |>) ≫= λ _,
  _write_provider_runtime_file (destination p e (bd_build_sha256 build)) found.1.2 ≫= λ _,
  match prior with Some (j, _) => roll_back j | None => mret tt end ≫= λ _,
  update_property_row p (λ q, match e with
    | env_staging => q <| pr_status := ps_staging |>
    | env_production => q <| pr_status := ps_production |>
    | env_preview => q end) ≫= λ _,
  mret i.

Definition rollback (p : string) (r : RollbackRequest) actor (public_capable : bool)
    (result : option DeploymentResult) (now : Z) : Session USD Z :=
  _operator actor ≫= λ _,
  raise_if (negb (rb_operator_confirmation r)) (perr "rollback_operator_confirmation_required")
  ≫= λ _,
  get_or_raise (λ db, deployments db !! rb_target_deployment_id r ≫= λ d,
                      if bool_decide (dp_property_id d = p) then Some d else None)
    (perr "rollback_target_not_found") ≫= λ target,
  raise_if (negb (bool_decide (dp_environment target = env_production)))
    (perr "rollback_target_must_be_production") ≫= λ _,
  get_or_raise (λ db, current_deployment p env_production db ≫= λ c,
                      if bool_decide (c.1 = rb_target_deployment_id r) then None else Some c)
    (perr "rollback_requires_different_active_deployment")
  ≫= λ (current : Z * Deployment),
  _build (dp_site_build_id target) ≫= λ build,
  raise_if public_capable (perr "public_deployment_adapter_not_approved") ≫= λ _,
  get_or_raise (λ _, result) RuntimeError ≫= λ res,
  gets (_active_assignment p) ≫= λ (assignment : option (Z * ProviderAssignment)),
  _write_provider_runtime_file (destination p env_production (bd_build_sha256 build)) assignment
  ≫= λ _,
  roll_back current.1 ≫= λ _,
  gets (λ db, next_id (deployments db)) ≫= λ i,
  modify (λ db, db <| deployments ::= insert i
    {| dp_property_id := p; dp_site_build_id := dp_site_build_id target;
       dp_domain_registration_id := dp_domain_registration_id target;
       dp_provider_assignment_id := fst <$> assignment;
       dp_compliance_review_id := dp_compliance_review_id target;
       dp_previous_deployment_id := Some current.1;
       dp_rollback_of_deployment_id := Some current.1;
       dp_environment := env_production; dp_adapter_name := res_adapter_name res;
       dp_status := dep_deployed; dp_url := res_url res; dp_local_only := true;
       dp_operator_user_id := actor_id actor; dp_operator_confirmation := true;
       dp_confirmation_reason := rb_reason r;
       dp_neutral_pilot_mode := dp_neutral_pilot_mode target;
       dp_gate_snapshot := [("rollback_target_verified", true);
                            ("operator_confirmation", true)]%string;
       dp_deployed_at := now |} |>) ≫= λ _,
  mret i.
End service.
