(* ===== verification/PropertyWorkflowProofs.v ===== *)
(** * PropertyWorkflowProofs: the workflow as a system of transactions

    Every operation of the service that commits is a step; the lemmas say which
    tables a step leaves alone and what it does to the others. *)
From S2P Require Import Prelude Binary64 Schema OpportunityReview ProviderOperations LeadRouting.
From S2P Require Import ProviderOperationsProofs PropertyWorkflow.

(** ** What an operation leaves alone *)

#[export] Instance keeps_reraise {S T E1 E2 A} (part : S → T) (f : E1 → E2) (m : M S E1 A) :
  Keeps part m → Keeps part (reraise f m).
Proof. intros Hm s. specialize (Hm s). unfold reraise. by destruct (m s) as [[?|?] ?]. Qed.

#[export] Instance ro_for_each {S E A} (f : A → M S E unit) l :
  (∀ x, ReadOnly (f x)) → ReadOnly (for_each f l).
Proof. intros Hf. induction l as [|x l IH]; cbn; apply _. Qed.

Ltac head_of m := lazymatch m with ?f _ => head_of f | _ => m end.

#[export] Instance asset_provenance_reads {USD : Type} p ids :
  ReadOnly (_asset_provenance (USD := USD) p ids).
Proof. induction ids as [|i ids IH]; cbn; apply _. Qed.

(** Walk through a computation that never writes [part]. *)
Ltac keeps :=
  repeat first
    [ progress intros
    | lazymatch goal with
      | |- Keeps _ (mbind _ _) => apply keeps_bind
      | |- Keeps _ (for_each _ _) => apply keeps_for_each
      | |- Keeps _ (when _ _) => apply keeps_when
      | |- Keeps _ (reraise _ _) => apply keeps_reraise
      | |- Keeps _ (modify _) => intros ?; reflexivity
      | |- Keeps _ (raise _) => apply _
      | |- Keeps _ (raise_if _ _) => apply _
      | |- Keeps _ (gets _) => apply _
      | |- Keeps _ (get_or_raise _ _) => apply _
      | |- Keeps _ (mret _) => apply _
      | |- Keeps _ (match ?x with _ => _ end) => destruct x
      | |- Keeps _ ?m => first [assumption | apply _ | let h := head_of m in unfold h; cbv zeta]
      end ].

(** ** The version log *)
Section log.
Context {USD : Type}.
Context (require_approval : Z → Session USD Opportunity) `{!PropertyApprovalGate require_approval}.
Context (sha256 : string → string) (json_dumps : json → string).
Implicit Types (db : Db USD) (actor : ReviewActor).

Definition current_of db : gmap string Z := pr_current_version <$> properties db.
Definition log_of db : gmap Z PropertyVersion * gmap string Z :=
  (property_versions db, current_of db).

(** One entry more, for the next version of property [i]. *)
Definition versioned (i : string) db db' : Prop :=
  ∃ k r, property_versions db !! k = None
    ∧ property_versions db' = <[k := r]> (property_versions db)
    ∧ pv_property_id r = i ∧ pv_version r = default 0 (current_of db !! i) + 1
    ∧ current_of db' = <[i := pv_version r]> (current_of db).

Lemma keeps_log i (f : Property → Property) :
  (∀ p, pr_current_version (f p) = pr_current_version p) →
  Keeps log_of (update_property_row (USD := USD) i f).
Proof.
  intros Hf db. unfold log_of, update_property_row. cbn. f_equal. apply map_eq. intros j.
  unfold current_of. cbn. rewrite !lookup_fmap, lookup_alter.
  case_decide as Hij; [subst j|done]. destruct (properties db !! i); cbn; by rewrite ?Hf.
Qed.

Lemma current_alter i (f : Property → Property) (t : gmap string Property) :
  (∀ p, pr_current_version (f p) = pr_current_version p + 1) → is_Some (t !! i) →
  pr_current_version <$> alter f i t
  = <[i := default 0 ((pr_current_version <$> t) !! i) + 1]> (pr_current_version <$> t).
Proof.
  intros Hf [p Hp]. apply map_eq. intros j.
  rewrite lookup_insert, !lookup_fmap, lookup_alter, Hp.
  destruct (decide (i = j)) as [<-|]; [|done]. cbn. by rewrite Hf.
Qed.

Lemma snapshot_versioned i actor reason db db1 u db' :
  property_versions db1 = property_versions db →
  current_of db1 = <[i := default 0 (current_of db !! i) + 1]> (current_of db) →
  _snapshot sha256 json_dumps i actor reason db1 = (Ok u, db') → versioned i db db'.
Proof.
  intros Hv Hc. unfold _snapshot, _property. rewrite bind_get_or_raise.
  destruct (properties db1 !! i) as [p|] eqn:Hp; [|done].
  rewrite bind_gets, bind_raise_if. case_match; [done|]. intros [= _ <-].
  assert (pr_current_version p = default 0 (current_of db !! i) + 1) as Hcp.
  { assert (current_of db1 !! i = Some (pr_current_version p)) as Hi
      by (unfold current_of; by rewrite lookup_fmap, Hp).
    rewrite Hc, lookup_insert_eq in Hi. by injection Hi. }
  eexists _, _. cbn -[insert]. rewrite Hv. split; [apply next_id_fresh|].
  split; [done|]. split; [done|]. cbn -[insert]. split; [done|].
  unfold current_of in *. cbn. by rewrite Hc, <- Hcp.
Qed.

#[local] Hint Extern 1 (Keeps log_of (update_property_row _ _)) =>
  (apply keeps_log; intros ?; repeat case_match; reflexivity) : typeclass_instances.

(** The database before the bump has the log of the first one. *)
Lemma bump_versioned i (f : Property → Property) actor reason db db0 db1 u u' db' :
  log_of db0 = log_of db → is_Some (properties db0 !! i) →
  (∀ p, pr_current_version (f p) = pr_current_version p + 1) →
  update_property_row i f db0 = (Ok u, db1) →
  _snapshot sha256 json_dumps i actor reason db1 = (Ok u', db') → versioned i db db'.
Proof.
  intros [= Hv Hc] Hi Hf [= _ <-]. apply snapshot_versioned; [done|].
  rewrite <- Hc. unfold current_of. cbn. by apply current_alter.
Qed.
Lemma create_versioned o r actor db i db' :
  create_property require_approval sha256 json_dumps o r actor db = (Ok i, db') →
  versioned i db db'.
Proof.
  destruct PropertyApprovalGate0 as [Hro _].
  unfold create_property. intros (u1 & db1 & H1 & Hrun)%bind_ok.
  apply read_only_ok in H1 as ->; [|unfold _human; apply _].
  apply bind_ok in Hrun as (opp & db2 & H2%reraise_ok & Hrun).
  apply read_only_ok in H2 as ->; [|apply _].
  rewrite bind_gets, bind_raise_if in Hrun. case_match; [done|]. cbv zeta in Hrun.
  match type of Hrun with context [properties _ !! ?j] => set (i0 := j) in Hrun end.
  rewrite bind_gets, bind_raise_if in Hrun.
  destruct (properties db !! i0) as [p|] eqn:Hnew; [done|]. cbn [bool_decide] in Hrun.
  case_bool_decide as Hsome; [by destruct Hsome|].
  apply bind_ok in Hrun as (u3 & db3 & [= _ <-] & Hrun).
  apply bind_ok in Hrun as (q & db4 & H4 & Hrun).
  apply (keeps_ok log_of) in H4 as [= Hv Hc]; [|keeps].
  apply bind_ok in Hrun as (u5 & db5 & H5 & [= <- <-]).
  eapply snapshot_versioned; [exact Hv| |exact H5]. rewrite Hc. unfold current_of. cbn.
  by rewrite fmap_insert, lookup_fmap, Hnew.
Qed.

Lemma config_versioned p r actor db i db' :
  create_site_config sha256 json_dumps p r actor db = (Ok i, db') → versioned p db db'.
Proof.
  unfold create_site_config. intros (u1 & db1 & H1 & Hrun)%bind_ok.
  apply read_only_ok in H1 as ->; [|unfold _human; apply _].
  apply bind_ok in Hrun as (q & db2 & H2 & Hrun). unfold _property in H2.
  apply get_or_raise_ok in H2 as [Hq ->].
  apply bind_ok in Hrun as (u3 & db3 & H3 & Hrun).
  apply read_only_ok in H3 as ->; [|unfold _validate_assets; apply _].
  apply bind_ok in Hrun as (u4 & db4 & H4 & Hrun).
  apply read_only_ok in H4 as ->; [|unfold _validate_provider_content; apply _].
  rewrite !bind_gets in Hrun. apply bind_ok in Hrun as (u5 & db5 & H5 & Hrun).
  apply bind_ok in Hrun as (u6 & db6 & H6 & Hrun).
  apply bind_ok in Hrun as (u7 & db7 & H7 & [= <- <-]).
  injection H5 as _ <-. eapply bump_versioned; [| | |exact H6|exact H7]; [done|by exists q|done].
Qed.

Lemma dns_versioned i r actor now db u db' :
  verify_dns sha256 json_dumps i r actor now db = (Ok u, db') → ∃ p, versioned p db db'.
Proof.
  unfold verify_dns. intros (u1 & db1 & H1 & Hrun)%bind_ok.
  apply read_only_ok in H1 as ->; [|unfold _operator; apply _].
  apply bind_ok in Hrun as (row & db2 & H2 & Hrun).
  apply read_only_ok in H2 as ->; [|unfold _registration; apply _].
  rewrite bind_raise_if in Hrun. case_match; [done|].
  rewrite bind_raise_if in Hrun. case_match; [done|].
  rewrite bind_raise_if in Hrun. case_match; [done|].
  apply bind_ok in Hrun as (u3 & db3 & [= _ <-] & Hrun).
  apply bind_ok in Hrun as (q & db4 & H4 & Hrun). unfold _property in H4.
  apply get_or_raise_ok in H4 as [Hq ->].
  apply bind_ok in Hrun as (u5 & db5 & H5 & Hrun).
  rewrite bind_gets, bind_raise_if in Hrun. case_match; [done|].
  exists (rg_property_id row). eapply bump_versioned; [| | |exact H5|exact Hrun]; [done|by exists q|done].
Qed.

Lemma update_versioned i r actor db u db' :
  update_property sha256 json_dumps i r actor db = (Ok u, db') → versioned i db db'.
Proof.
  unfold update_property. intros (u1 & db1 & H1 & Hrun)%bind_ok.
  apply (keeps_ok log_of) in H1; [|keeps].
  apply bind_ok in Hrun as (u2 & db2 & H2 & Hrun). apply (keeps_ok log_of) in H2; [|keeps].
  apply bind_ok in Hrun as (u3 & db3 & H3 & Hrun). apply (keeps_ok log_of) in H3; [|keeps].
  apply bind_ok in Hrun as (u4 & db4 & H4 & Hrun). apply (keeps_ok log_of) in H4; [|keeps].
  apply bind_ok in Hrun as (u5 & db5 & H5 & Hrun). apply (keeps_ok log_of) in H5; [|keeps].
  apply bind_ok in Hrun as (u6 & db6 & H6 & Hrun). apply (keeps_ok log_of) in H6; [|keeps].
  apply bind_ok in Hrun as (u7 & db7 & H7 & Hrun). apply (keeps_ok log_of) in H7; [|keeps].
  apply bind_ok in Hrun as (p & db8 & H8 & Hrun). unfold _property in H8.
  apply get_or_raise_ok in H8 as [Hp ->].
  apply bind_ok in Hrun as (u9 & db9 & [= _ <-] & Hrun).
  apply bind_ok in Hrun as (u10 & db10 & H10 & Hrun).
  eapply bump_versioned; [| | |exact H10|exact Hrun]; [|by exists p|done].
  transitivity (log_of db7); [done|congruence].
Qed.
End log.
#[export] Hint Extern 1 (Keeps log_of (update_property_row _ _)) =>
  (apply keeps_log; intros ?; repeat case_match; reflexivity) : typeclass_instances.

Section steps.
Context {USD : Type}.
Context (require_approval : Z → Session USD Opportunity) `{!PropertyApprovalGate require_approval}.
Context (sha256 : string → string) (json_dumps : json → string) (iso : Z → string).
Context (runtime_directory : string → option string).
Context (build_root deployment_root : string).
Context (build_static_site : dict → option string → BuildEnvironment → string → BuildArtifact).
Implicit Types (db : Db USD) (actor : ReviewActor).

Abbreviation create_property := (create_property require_approval sha256 json_dumps).
Abbreviation update_property := (update_property sha256 json_dumps).
Abbreviation verify_dns := (verify_dns sha256 json_dumps).
Abbreviation create_site_config := (create_site_config sha256 json_dumps).
Abbreviation activate_provider := (activate_provider iso runtime_directory).
Abbreviation replace_provider := (replace_provider iso runtime_directory).
Abbreviation build_site := (build_site build_root build_static_site).
Abbreviation deploy := (deploy iso deployment_root).
Abbreviation rollback := (rollback iso deployment_root).

(** A committed request; one that raises is rolled back by its session. *)
Inductive workflow_step db db' : Prop :=
| wf_create o r actor i : create_property o r actor db = (Ok i, db') → workflow_step db db'
| wf_update i r actor u : update_property i r actor db = (Ok u, db') → workflow_step db db'
| wf_generate i r ds : generate_domain_candidates i r db = (Ok ds, db') → workflow_step db db'
| wf_decide i s reason actor now u :
    decide_domain_candidate i s reason actor now db = (Ok u, db') → workflow_step db db'
| wf_availability i ev now u :
    check_domain_availability i ev now db = (Ok u, db') → workflow_step db db'
| wf_purchase i ex reason actor can now j :
    approve_domain_purchase i ex reason actor can now db = (Ok j, db') → workflow_step db db'
| wf_registered i r actor now u :
    record_manual_registration i r actor now db = (Ok u, db') → workflow_step db db'
| wf_dns i r actor now u : verify_dns i r actor now db = (Ok u, db') → workflow_step db db'
| wf_asset i r j : create_asset i r db = (Ok j, db') → workflow_step db db'
| wf_review_asset i a reason actor now u :
    review_asset i a reason actor now db = (Ok u, db') → workflow_step db db'
| wf_assignment i r actor now j :
    create_provider_assignment i r actor now db = (Ok j, db') → workflow_step db db'
| wf_activate i reason actor now u :
    activate_provider i reason actor now db = (Ok u, db') → workflow_step db db'
| wf_replace p j reason actor now u :
    replace_provider p j reason actor now db = (Ok u, db') → workflow_step db db'
| wf_config p r actor i : create_site_config p r actor db = (Ok i, db') → workflow_step db db'
| wf_review_config i a reason actor now u :
    review_site_config i a reason actor now db = (Ok u, db') → workflow_step db db'
| wf_build c e i : build_site c e db = (Ok i, db') → workflow_step db db'
| wf_compliance b r actor now i :
    review_compliance b r actor now db = (Ok i, db') → workflow_step db db'
| wf_deploy b r actor public result now i :
    deploy b r actor public result now db = (Ok i, db') → workflow_step db db'
| wf_rollback p r actor public result now i :
    rollback p r actor public result now db = (Ok i, db') → workflow_step db db'.

(** A table that only some operations write. *)
Lemma deployments_kept db db' :
  workflow_step db db' →
  deployments db' = deployments db
  ∨ (∃ b r actor public result now i, deploy b r actor public result now db = (Ok i, db'))
  ∨ (∃ p r actor public result now i, rollback p r actor public result now db = (Ok i, db')).
Proof.
  destruct PropertyApprovalGate0 as [Hro _].
  intros [| | | | | | | | | | | | | | | | |b r ac pu re now i Hrun|p r ac pu re now i Hrun];
    try (left; eapply (keeps_ok deployments); [|eassumption]; keeps; fail).
  - right. left. by exists b, r, ac, pu, re, now, i.
  - right. right. by exists p, r, ac, pu, re, now, i.
Qed.
Lemma site_configs_kept db db' :
  workflow_step db db' →
  site_configs db' = site_configs db
  ∨ (∃ p r actor i, create_site_config p r actor db = (Ok i, db'))
  ∨ (∃ i a reason actor now u, review_site_config i a reason actor now db = (Ok u, db')).
Proof.
  destruct PropertyApprovalGate0 as [Hro _].
  intros [| | | | | | | | | | | | |p r ac i Hrun|i a re ac now u Hrun| | | |];
    try (left; eapply (keeps_ok site_configs); [|eassumption]; keeps; fail).
  - right. left. by exists p, r, ac, i.
  - right. right. by exists i, a, re, ac, now, u.
Qed.

(** The opportunity of a property is written by its creation only. *)
Definition opportunity_of db : gmap string Z := pr_opportunity_id <$> properties db.

Lemma keeps_opportunity i (f : Property → Property) :
  (∀ p, pr_opportunity_id (f p) = pr_opportunity_id p) →
  Keeps opportunity_of (update_property_row (USD := USD) i f).
Proof.
  intros Hf db. unfold opportunity_of, update_property_row. cbn. apply map_eq. intros j.
  rewrite !lookup_fmap, lookup_alter. case_decide as Hij; [subst j|done].
  destruct (properties db !! i); cbn; by rewrite ?Hf.
Qed.

#[local] Hint Extern 1 (Keeps opportunity_of (update_property_row _ _)) =>
  (apply keeps_opportunity; intros ?; repeat case_match; reflexivity) : typeclass_instances.

Lemma opportunities_kept db db' :
  workflow_step db db' →
  opportunity_of db' = opportunity_of db
  ∨ ∃ o r actor i, create_property o r actor db = (Ok i, db').
Proof.
  destruct PropertyApprovalGate0 as [Hro _].
  intros [o r ac i Hrun| | | | | | | | | | | | | | | | | |];
    try (left; eapply (keeps_ok opportunity_of); [|eassumption]; keeps; fail).
  right. by exists o, r, ac, i.
Qed.

Lemma log_kept db db' :
  workflow_step db db' → log_of db' = log_of db ∨ ∃ i, versioned i db db'.
Proof.
  destruct PropertyApprovalGate0 as [Hro _].
  intros [o r ac i Hrun|i r ac u Hrun| | | | | |i r ac now u Hrun| | | | | |p r ac i Hrun| | | | |];
    try (left; eapply (keeps_ok log_of); [|eassumption]; keeps; fail).
  - right. eexists. by eapply create_versioned.
  - right. eexists. by eapply update_versioned.
  - right. by eapply dns_versioned.
  - right. eexists. by eapply config_versioned.
Qed.

Lemma registrations_kept db db' :
  workflow_step db db' →
  domain_registrations db' = domain_registrations db
  ∨ (∃ i ex reason actor can now j,
       approve_domain_purchase i ex reason actor can now db = (Ok j, db'))
  ∨ (∃ i r actor now u, record_manual_registration i r actor now db = (Ok u, db'))
  ∨ (∃ i r actor now u, verify_dns i r actor now db = (Ok u, db')).
Proof.
  destruct PropertyApprovalGate0 as [Hro _].
  intros [| | | | |i ex re ac can now j Hrun|i r ac now u Hrun|i r ac now u Hrun| | | | | | | | | | |];
    try (left; eapply (keeps_ok domain_registrations); [|eassumption]; keeps; fail); right.
  - left. by exists i, ex, re, ac, can, now, j.
  - right. left. by exists i, r, ac, now, u.
  - right. right. by exists i, r, ac, now, u.
Qed.

Lemma compliance_kept db db' :
  workflow_step db db' →
  compliance_reviews db' = compliance_reviews db
  ∨ ∃ b r actor now i, review_compliance b r actor now db = (Ok i, db').
Proof.
  destruct PropertyApprovalGate0 as [Hro _].
  intros [| | | | | | | | | | | | | | | |b r ac now i Hrun| |];
    try (left; eapply (keeps_ok compliance_reviews); [|eassumption]; keeps; fail).
  right. by exists b, r, ac, now, i.
Qed.
End steps.

(** ** Deployments *)
Section deployments.
Context {USD : Type} (iso : Z → string) (deployment_root : string).
Implicit Types (db : Db USD) (actor : ReviewActor).

Definition rolled (d : Deployment) : Deployment := d <| dp_status := dep_rolled_back |>.

(** The table after the deployed row of the environment gives way to [d]. *)
Definition supersede (prior : option (Z * Deployment)) (i : Z) (d : Deployment)
    (t : gmap Z Deployment) : gmap Z Deployment :=
  match prior with
  | Some (j, _) => alter rolled j (<[i := d]> t)
  | None => <[i := d]> t
  end.

Lemma deploy_ok b r actor public result now db i db' :
  deploy iso deployment_root b r actor public result now db = (Ok i, db') →
  ∃ build prop config profile d,
    actor_role actor ∈ [operator; admin] ∧ public = false
    ∧ site_builds db !! b = Some build ∧ bd_environment build = dq_environment r
    ∧ properties db !! bd_property_id build = Some prop
    ∧ site_configs db !! bd_site_config_id build = Some config
    ∧ routing_profiles db !! bd_property_id build = Some profile
    ∧ (dq_environment r = env_production →
       forallb snd (gates_of (bd_property_id build) prop b build config profile r db) = true)
    ∧ i = next_id (deployments db)
    ∧ dp_property_id d = bd_property_id build ∧ dp_environment d = dq_environment r
    ∧ dp_status d = dep_deployed ∧ dp_site_build_id d = b
    ∧ dp_provider_assignment_id d = fst <$> _active_assignment (bd_property_id build) db
    ∧ dp_gate_snapshot d = gates_of (bd_property_id build) prop b build config profile r db
    ∧ deployments db' = supersede
        (current_deployment (bd_property_id build) (dq_environment r) db) i d (deployments db)
    ∧ properties db' = alter (λ q, match dq_environment r with
        | env_staging => q <| pr_status := ps_staging |>
        | env_production => q <| pr_status := ps_production |>
        | env_preview => q end) (bd_property_id build) (properties db).
Proof.
  unfold deploy, _operator, _build, _property, _config, _routing_profile, _profile.
  rewrite bind_raise_if. case_bool_decide as Hact; [|done]. cbn [negb].
  rewrite bind_get_or_raise. destruct (site_builds db !! b) as [build|] eqn:Hb; [|done].
  rewrite bind_raise_if. case_bool_decide as Henv; [|done]. cbn [negb]. cbv zeta.
  rewrite bind_get_or_raise. destruct (properties db !! _) as [prop|] eqn:Hprop; [|done].
  rewrite bind_raise_if. destruct public; [done|]. rewrite bind_get_or_raise.
  destruct (site_configs db !! _) as [config|] eqn:Hconf; [|done]. rewrite bind_get_or_raise.
  destruct (routing_profiles db !! _) as [profile|] eqn:Hprof; [|done].
  rewrite bind_gets, bind_raise_if.
  destruct (bool_decide (dq_environment r = env_production)
    && negb (forallb snd (gates_of _ prop b build config profile r db))) eqn:Hgates; [done|].
  rewrite bind_gets, bind_get_or_raise. destruct result as [res|]; [|done].
  rewrite !bind_gets. intros Hrun.
  apply bind_ok in Hrun as (u1 & db1 & [= _ <-] & Hrun).
  apply bind_ok in Hrun as (u2 & db2 & [= _ <-] & Hrun).
  apply bind_ok in Hrun as (u3 & db3 & Hroll & Hrun).
  apply bind_ok in Hrun as (u4 & db4 & [= _ <-] & [= <- <-]).
  match type of Hroll with context [@insert Z Deployment _ _ ?k ?d] => set (d0 := d) in Hroll end.
  exists build, prop, config, profile, d0.
  assert (dq_environment r = env_production →
    forallb snd (gates_of (bd_property_id build) prop b build config profile r db) = true) as Hg.
  { intros He. rewrite bool_decide_eq_true_2 in Hgates by done. by apply negb_false_iff in Hgates. }
  repeat (split; [done|]).
  destruct (current_deployment _ _ db) as [[j dj]|]; injection Hroll as _ <-; done.
Qed.

Lemma rollback_ok p r actor public result now db i db' :
  rollback iso deployment_root p r actor public result now db = (Ok i, db') →
  ∃ target build j current d,
    actor_role actor ∈ [operator; admin] ∧ rb_operator_confirmation r = true ∧ public = false
    ∧ deployments db !! rb_target_deployment_id r = Some target
    ∧ dp_property_id target = p ∧ dp_environment target = env_production
    ∧ site_builds db !! dp_site_build_id target = Some build
    ∧ current_deployment p env_production db = Some (j, current) ∧ j ≠ rb_target_deployment_id r
    ∧ deployments db !! i = None
    ∧ dp_property_id d = p ∧ dp_environment d = env_production ∧ dp_status d = dep_deployed
    ∧ dp_site_build_id d = dp_site_build_id target ∧ dp_rollback_of_deployment_id d = Some j
    ∧ dp_provider_assignment_id d = fst <$> _active_assignment p db
    ∧ deployments db' = <[i := d]> (alter rolled j (deployments db)).
Proof.
  unfold rollback, _operator, _build. rewrite bind_raise_if. case_bool_decide as Hact; [|done].
  cbn [negb]. rewrite bind_raise_if. destruct (rb_operator_confirmation r) eqn:Hc; [|done].
  cbn [negb]. rewrite bind_get_or_raise.
  destruct (deployments db !! rb_target_deployment_id r) as [target|] eqn:Ht; [|done].
  cbn [mbind option_bind]. case_bool_decide as Hp; [|done]. rewrite bind_raise_if.
  case_bool_decide as Henv; [|done]. cbn [negb]. rewrite bind_get_or_raise.
  destruct (current_deployment p env_production db) as [[j current]|] eqn:Hcur; [|done].
  cbn [mbind option_bind fst]. case_bool_decide as Hj; [done|]. rewrite bind_get_or_raise.
  destruct (site_builds db !! dp_site_build_id target) as [build|] eqn:Hb; [|done].
  rewrite bind_raise_if. destruct public; [done|]. rewrite bind_get_or_raise.
  destruct result as [res|]; [|done]. rewrite bind_gets. intros Hrun.
  apply bind_ok in Hrun as (u1 & db1 & [= _ <-] & Hrun).
  apply bind_ok in Hrun as (u2 & db2 & [= _ <-] & Hrun).
  rewrite bind_gets in Hrun. apply bind_ok in Hrun as (u3 & db3 & [= _ <-] & [= <- <-]).
  match goal with |- context [@insert Z Deployment _ _ ?k ?d] => set (d0 := d) end.
  exists target, build, j, current, d0. repeat (split; [done|]). split; [|done].
  pose proof (next_id_fresh (alter rolled j (deployments db))) as Hfresh.
  by apply lookup_alter_None in Hfresh.
Qed.
End deployments.
