(* ===== verification/PropertyWorkflowTheorems.v ===== *)
(** * PropertyWorkflowTheorems: the guarantees of the property workflow

    What a production deployment has passed, the exclusive live deployment and
    approved configuration, the one property per approved opportunity, the
    complete version log, evidenced domains and reviews; each with a run that
    meets its hypotheses. *)
From S2P Require Import Prelude Binary64 Schema OpportunityReview OpportunityReviewProofs.
From S2P Require Import ProviderOperations LeadRouting.
From S2P Require Import ProviderOperationsProofs PropertyWorkflow PropertyWorkflowProofs.

(** ** One live deployment *)
Section live.
Context {USD : Type}.
Implicit Types (db : Db USD) (t : gmap Z Deployment).

Definition one_live t : Prop :=
  ∀ i j d e, t !! i = Some d → t !! j = Some e → dp_property_id d = dp_property_id e →
    dp_environment d = dp_environment e → dp_status d = dep_deployed →
    dp_status e = dep_deployed → i = j.

Lemma current_Some p e db i d :
  current_deployment p e db = Some (i, d) →
  deployments db !! i = Some d ∧ dp_property_id d = p ∧ dp_environment d = e
  ∧ dp_status d = dep_deployed.
Proof. intros [Hi Hd]%select_last_Some. unfold deployed_in in Hd. by bools. Qed.

Lemma current_None p e db :
  current_deployment p e db = None → ∀ i d, deployments db !! i = Some d →
  dp_property_id d = p → dp_environment d = e → dp_status d ≠ dep_deployed.
Proof.
  unfold current_deployment. rewrite select_last_None. intros Hn i d Hi Hp He Hs.
  specialize (Hn i d Hi). unfold deployed_in in Hn. by rewrite !bool_decide_eq_true_2 in Hn.
Qed.

(** A new deployed row in place of the only deployed one. *)
Lemma one_live_replace t k d prior :
  one_live t → t !! k = None →
  (∀ i e, t !! i = Some e → dp_property_id e = dp_property_id d →
     dp_environment e = dp_environment d → dp_status e = dep_deployed → prior = Some i) →
  one_live (<[k := d]> (match prior with Some j => alter rolled j t | None => t end)).
Proof.
  intros Hone Hk Hprior.
  set (t' := match prior with Some j => alter rolled j t | None => t end).
  assert (∀ i e, t' !! i = Some e → dp_status e = dep_deployed →
    t !! i = Some e ∧ prior ≠ Some i) as Hold.
  { intros i e. unfold t'. destruct prior as [j|]; [|by intros]. rewrite lookup_alter.
    case_decide as Hij; [|intros He _; split; congruence].
    destruct (t !! j); [|done]. by intros [= <-] Hs. }
  assert (∀ i e, t' !! i = Some e → dp_property_id e = dp_property_id d →
    dp_environment e = dp_environment d → dp_status e ≠ dep_deployed) as Hgone.
  { intros i e Hi Hp He Hs. destruct (Hold i e Hi Hs) as [Ht Hne]. by apply Hne, (Hprior i e). }
  intros i j a b. rewrite !lookup_insert.
  destruct (decide (k = i)) as [<-|], (decide (k = j)) as [<-|]; try done.
  - intros [= <-] Hj Hp He _ Hs. by destruct (Hgone j b Hj).
  - intros Hi [= <-] Hp He Hs _. by destruct (Hgone i a Hi).
  - intros Hi Hj Hp He Ha Hb. destruct (Hold i a Hi Ha) as [Ha' _], (Hold j b Hj Hb) as [Hb' _].
    by apply (Hone i j a b).
Qed.

Lemma supersede_insert prior i d t :
  (∀ j e, prior = Some (j, e) → j ≠ i) →
  supersede prior i d t
  = <[i := d]> (match fst <$> prior with Some j => alter rolled j t | None => t end).
Proof.
  intros Hne. destruct prior as [[j e]|]; [|done]. cbn.
  apply alter_insert_ne. intros ->. by apply (Hne i e).
Qed.

Lemma current_unique p e db :
  one_live (deployments db) → ∀ i d, deployments db !! i = Some d → dp_property_id d = p →
  dp_environment d = e → dp_status d = dep_deployed →
  fst <$> current_deployment p e db = Some i.
Proof.
  intros Hone i d Hi Hp He Hs. destruct (current_deployment p e db) as [[j c]|] eqn:Hc.
  - apply current_Some in Hc as (Hj & Hpj & Hej & Hsj). cbn. f_equal.
    by apply (Hone j i c d); [..|congruence|congruence| |].
  - by destruct (current_None p e db Hc i d Hi Hp He).
Qed.

Lemma deploy_one_live iso root b r actor public result now db i db' :
  deploy iso root b r actor public result now db = (Ok i, db') →
  one_live (deployments db) → one_live (deployments db').
Proof.
  intros (build & prop & config & profile & d & _ & _ & _ & _ & _ & _ & _ & _ & -> & Hp & He & _
    & _ & _ & _ & Hdb' & _)%deploy_ok Hone.
  rewrite Hdb', supersede_insert.
  - apply one_live_replace; [done|apply next_id_fresh|]. intros k e Hk Hpk Hek Hs.
    eapply current_unique; [done|done|congruence|congruence|done].
  - intros j e [Hj _]%current_Some. apply next_id_gt in Hj. lia.
Qed.

Lemma rollback_one_live iso root p r actor public result now db i db' :
  rollback iso root p r actor public result now db = (Ok i, db') →
  one_live (deployments db) → one_live (deployments db').
Proof.
  intros (target & build & j & current & d & _ & _ & _ & _ & _ & _ & _ & Hcur & _ & Hi & Hp & He
    & _ & _ & _ & _ & Hdb')%rollback_ok Hone.
  rewrite Hdb'. apply (one_live_replace _ _ _ (Some j)); [done|done|].
  intros k e Hk Hpk Hek Hs.
  pose proof (current_unique p env_production db Hone k e Hk) as Hu. rewrite Hcur in Hu.
  apply Hu; congruence.
Qed.
End live.

(** ** Configurations *)
Section configs.
Context {USD : Type}.
Implicit Types (db : Db USD) (t : gmap Z SiteConfig) (c : SiteConfig).

(** Versions are unique per property, and at most one of them is approved. *)
Definition configs_ok t : Prop :=
  (∀ i j c d, t !! i = Some c → t !! j = Some d → cf_property_id c = cf_property_id d →
     cf_version c = cf_version d → i = j)
  ∧ (∀ i j c d, t !! i = Some c → t !! j = Some d → cf_property_id c = cf_property_id d →
     cf_status c = scs_approved → cf_status d = scs_approved → i = j).

(** A table whose rows keep property and version, and approve only what was. *)
Lemma configs_calmer t t' :
  (∀ i c', t' !! i = Some c' → ∃ c, t !! i = Some c ∧ cf_property_id c' = cf_property_id c
     ∧ cf_version c' = cf_version c ∧ (cf_status c' = scs_approved → cf_status c = scs_approved)) →
  configs_ok t → configs_ok t'.
Proof.
  intros Hc [Hv Ha]. split; intros i j c' d' Hi Hj;
    destruct (Hc i c' Hi) as (c & Hci & Hp & Hver & Hst), (Hc j d' Hj) as (d & Hdj & Hp' & Hver' & Hst').
  - intros. apply (Hv i j c d); congruence.
  - intros Hpp Hs Hs'. apply (Ha i j c d); [done|done|congruence|auto|auto].
Qed.

Lemma latest_version_ge p db i c :
  site_configs db !! i = Some c → cf_property_id c = p → cf_version c ≤ latest_version p db.
Proof.
  intros Hi Hp. unfold latest_version.
  destruct (select_latest cf_version _ (site_configs db)) as [[j d]|] eqn:Hl.
  - apply select_latest_Some in Hl as (_ & _ & Hmax). apply (Hmax i c Hi).
    by apply bool_decide_eq_true.
  - rewrite select_latest_None in Hl. specialize (Hl i c Hi).
    by rewrite bool_decide_eq_true_2 in Hl.
Qed.

Lemma create_config_effect sha dumps p r actor db i db' :
  create_site_config (USD := USD) sha dumps p r actor db = (Ok i, db') →
  site_configs db !! i = None ∧ ∃ c, site_configs db' = <[i := c]> (site_configs db)
    ∧ cf_property_id c = p ∧ cf_version c = latest_version p db + 1 ∧ cf_status c = scs_draft.
Proof.
  unfold create_site_config. intros (u1 & db1 & H1 & Hrun)%bind_ok.
  apply read_only_ok in H1 as ->; [|unfold _human; apply _].
  apply bind_ok in Hrun as (u2 & db2 & H2 & Hrun).
  apply read_only_ok in H2 as ->; [|unfold _property; apply _].
  apply bind_ok in Hrun as (u3 & db3 & H3 & Hrun).
  assert (site_configs db3 = site_configs db) as Hk3 by (eapply (keeps_ok site_configs); [|exact H3]; keeps).
  apply bind_ok in Hrun as (u4 & db4 & H4 & Hrun).
  assert (site_configs db4 = site_configs db3) as Hk4 by (eapply (keeps_ok site_configs); [|exact H4]; keeps).
  rewrite !bind_gets in Hrun. apply bind_ok in Hrun as (u5 & db5 & [= _ <-] & Hrun).
  match type of Hrun with context [@insert Z SiteConfig _ _ ?k ?c] => set (c0 := c) in Hrun; set (i0 := k) in Hrun end.
  apply bind_ok in Hrun as (u6 & db6 & H6 & Hrun).
  apply bind_ok in Hrun as (u7 & db7 & H7 & [= <- <-]).
  assert (site_configs db7 = <[i0 := c0]> (site_configs db4)) as Hk.
  { transitivity (site_configs db6).
    - eapply (keeps_ok site_configs); [|exact H7]; keeps.
    - by injection H6 as _ <-. }
  rewrite <- Hk3, <- Hk4. split; [apply next_id_fresh|]. exists c0. split; [done|].
  split; [done|]. split; [|done]. cbn. unfold latest_version. by rewrite Hk4, Hk3.
Qed.

Lemma supersede_others_lookup p i t k :
  supersede_others p i t !! k
  = (λ c, if bool_decide (cf_property_id c = p) && bool_decide (cf_status c = scs_approved)
             && negb (k =? i) then c <| cf_status := scs_superseded |> else c) <$> t !! k.
Proof. unfold supersede_others. rewrite map_lookup_imap. by destruct (t !! k). Qed.

(** The statuses after a review of configuration [i]. *)
Lemma review_config_effect i approved reason actor now db u db' :
  review_site_config (USD := USD) i approved reason actor now db = (Ok u, db') →
  ∃ row, site_configs db !! i = Some row ∧ actor_role actor ∈ [reviewer; admin]
    ∧ (∀ k c', site_configs db' !! k = Some c' → ∃ c, site_configs db !! k = Some c
        ∧ cf_property_id c' = cf_property_id c ∧ cf_version c' = cf_version c
        ∧ (k = i → cf_status c' = if approved then scs_approved else scs_draft)
        ∧ (k ≠ i → cf_status c' = scs_approved →
             cf_status c = scs_approved ∧ (approved = true → cf_property_id c ≠ cf_property_id row)))
    ∧ (∃ c', site_configs db' !! i = Some c' ∧ cf_version c' = cf_version row
         ∧ cf_property_id c' = cf_property_id row)
    ∧ properties db' = if approved
        then alter (λ p, p <| pr_active_site_config_version := Some (cf_version row) |>)
               (cf_property_id row) (properties db) else properties db.
Proof.
  unfold review_site_config, _reviewer, _config, _property. rewrite bind_raise_if.
  case_bool_decide as Hact; [|done]. cbn [negb]. rewrite bind_get_or_raise.
  destruct (site_configs db !! i) as [row|] eqn:Hi; [|done].
  intros (u1 & db1 & H1 & [= _ <-])%bind_ok. exists row. split; [done|]. split; [done|].
  match goal with |- context [alter ?f i] => set (g := f) end.
  set (h := if approved then (λ c, c <| cf_status := scs_approved |>)
            else (λ c, c <| cf_status := scs_draft |>)).
  set (t := if approved then supersede_others (cf_property_id row) i (site_configs db)
            else site_configs db).
  assert (site_configs db1 = alter h i t ∧ properties db1 = if approved
        then alter (λ p, p <| pr_active_site_config_version := Some (cf_version row) |>)
               (cf_property_id row) (properties db) else properties db) as [Hdb1 Hprop].
  { destruct approved; [|by injection H1 as _ <-].
    apply bind_ok in H1 as (u2 & db2 & [= _ <-] & H1).
    apply bind_ok in H1 as (u3 & db3 & [= _ <-] & H1). rewrite bind_get_or_raise in H1.
    case_match; [|done]. by injection H1 as _ <-. }
  assert (∀ k, t !! k = (λ c, if approved && bool_decide (cf_property_id c = cf_property_id row)
      && bool_decide (cf_status c = scs_approved) && negb (k =? i)
      then c <| cf_status := scs_superseded |> else c) <$> site_configs db !! k) as Ht.
  { intros k. unfold t. destruct approved; [apply supersede_others_lookup|].
    by destruct (site_configs db !! k). }
  split; [|split; [|exact Hprop]].
  - intros k c'. cbn -[alter]. rewrite Hdb1. destruct (decide (i = k)) as [<-|Hk].
    + rewrite !lookup_alter_eq, Ht, Hi. cbn [fmap option_fmap option_map].
      intros [= <-]. exists row. rewrite Z.eqb_refl, !andb_false_r.
      unfold h. destruct approved; cbn; naive_solver.
    + rewrite !lookup_alter_ne, Ht by done.
      destruct (site_configs db !! k) as [c|]; [|done]. cbn [fmap option_fmap option_map].
      intros [= <-]. exists c. split; [done|].
      rewrite (proj2 (Z.eqb_neq k i)) by congruence.
      destruct approved, (bool_decide (cf_property_id c = cf_property_id row)) eqn:Hp,
        (bool_decide (cf_status c = scs_approved)) eqn:Hs; bools; cbn; naive_solver.
  - cbn -[alter]. rewrite Hdb1, !lookup_alter_eq, Ht, Hi.
    cbn [fmap option_fmap option_map]. rewrite Z.eqb_refl, !andb_false_r.
    eexists. split; [done|]. unfold h. by destruct approved.
Qed.

Lemma review_configs_ok i approved reason actor now db u db' :
  review_site_config (USD := USD) i approved reason actor now db = (Ok u, db') →
  configs_ok (site_configs db) → configs_ok (site_configs db').
Proof.
  intros (row & Hi & _ & Hrows & _)%review_config_effect [Hv Ha]. split.
  - intros k j c' d' Hk Hj Hp Hver.
    destruct (Hrows k c' Hk) as (c & Hc & Hpc & Hvc & _), (Hrows j d' Hj) as (d & Hd & Hpd & Hvd & _).
    apply (Hv k j c d); congruence.
  - intros k j c' d' Hk Hj Hp Hs Hs'.
    destruct (Hrows k c' Hk) as (c & Hc & Hpc & _ & Hci & Hcn),
      (Hrows j d' Hj) as (d & Hd & Hpd & _ & Hdi & Hdn).
    destruct (decide (k = i)) as [->|Hki], (decide (j = i)) as [->|Hji]; [done| | |].
    + destruct (Hdn Hji Hs') as [_ Hno]. specialize (Hci eq_refl).
      destruct approved; [|congruence]. destruct Hno; [done|congruence].
    + destruct (Hcn Hki Hs) as [_ Hno]. specialize (Hdi eq_refl).
      destruct approved; [|congruence]. destruct Hno; [done|congruence].
    + destruct (Hcn Hki Hs) as [Hc1 _], (Hdn Hji Hs') as [Hd1 _].
      apply (Ha k j c d); congruence.
Qed.

Lemma create_configs_ok sha dumps p r actor db i db' :
  create_site_config (USD := USD) sha dumps p r actor db = (Ok i, db') →
  configs_ok (site_configs db) → configs_ok (site_configs db').
Proof.
  intros (Hi & c & Hdb' & Hp & Hver & Hst)%create_config_effect [Hv Ha]. rewrite Hdb'.
  assert (∀ k d, site_configs db !! k = Some d → cf_property_id d = cf_property_id c →
    cf_version d ≠ cf_version c) as Hnew.
  { intros k d Hk Hpd. assert (cf_version d ≤ latest_version p db)
      by (apply (latest_version_ge p db k d Hk); congruence). rewrite Hver. lia. }
  split; intros k j a b; rewrite !lookup_insert;
    destruct (decide (i = k)) as [<-|], (decide (i = j)) as [<-|]; try done.
  - intros [= <-] Hj ? ?. by destruct (Hnew j b Hj).
  - intros Hk [= <-] ? ?. by destruct (Hnew k a Hk).
  - apply Hv.
  - intros [= <-] _ _ ?. congruence.
  - intros _ [= <-] _ _ ?. congruence.
  - apply Ha.
Qed.
End configs.

(** ** Properties and their opportunities *)
Section opportunities.
Context {USD : Type}.
Context (require_approval : Z → Session USD Opportunity) `{!PropertyApprovalGate require_approval}.
Context (sha256 : string → string) (json_dumps : json → string).
Implicit Types (db : Db USD) (actor : ReviewActor).

Definition one_property db : Prop :=
  ∀ i j o, opportunity_of db !! i = Some o → opportunity_of db !! j = Some o → i = j.

Lemma property_of_opportunity_None o db :
  property_of_opportunity o db = None → ∀ i, opportunity_of db !! i ≠ Some o.
Proof.
  unfold property_of_opportunity, opportunity_of.
  intros Hn%fmap_None i Hi. apply head_None in Hn.
  rewrite lookup_fmap in Hi. destruct (properties db !! i) as [p|] eqn:Hp; [|done].
  injection Hi as Ho. assert ((i, p) ∈ map_to_list (properties db)) as Hin
    by by apply elem_of_map_to_list.
  apply list_elem_of_In in Hin.
  assert (In (i, p) (List.filter (λ r, bool_decide (pr_opportunity_id r.2 = o))
    (map_to_list (properties db)))) as Hf.
  { apply filter_In. split; [done|]. by apply bool_decide_eq_true. }
  by rewrite Hn in Hf.
Qed.

Lemma create_property_effect o r actor db i db' :
  create_property require_approval sha256 json_dumps o r actor db = (Ok i, db') →
  actor_role actor ≠ system
  ∧ (∃ opp, opportunities db !! o = Some opp
       ∧ canonical (opp_status opp) = Some approved_for_property)
  ∧ (∀ j, opportunity_of db !! j ≠ Some o) ∧ properties db !! i = None
  ∧ opportunity_of db' = <[i := o]> (opportunity_of db)
  ∧ (∃ p, properties db' !! i = Some p ∧ pr_status p = ps_draft ∧ pr_domain p = None).
Proof.
  pose proof PropertyApprovalGate0 as [Hro Hpass].
  unfold create_property, _human. rewrite bind_raise_if. case_bool_decide as Hact; [done|].
  intros (opp & db2 & H2%reraise_ok & Hrun)%bind_ok. apply Hpass in H2 as (Ho & Hc & ->).
  rewrite bind_gets, bind_raise_if in Hrun.
  destruct (property_of_opportunity o db) as [e|] eqn:He; [done|]. cbn in Hrun. cbv zeta in Hrun.
  match type of Hrun with context [properties _ !! ?j] => set (i0 := j) in Hrun end.
  rewrite bind_gets, bind_raise_if in Hrun.
  destruct (properties db !! i0) as [p|] eqn:Hnew; [done|]. cbn [bool_decide] in Hrun.
  case_bool_decide as Hsome; [by destruct Hsome|].
  apply bind_ok in Hrun as (u3 & db3 & [= _ <-] & Hrun).
  apply bind_ok in Hrun as (q & db4 & H4 & Hrun).
  apply (keeps_ok properties) in H4; [|keeps].
  apply bind_ok in Hrun as (u5 & db5 & H5 & [= <- <-]).
  apply (keeps_ok properties) in H5; [|keeps]. rewrite H4 in H5. cbn -[insert] in H5.
  split; [done|]. split; [by exists opp|].
  split; [by apply property_of_opportunity_None|]. split; [done|].
  unfold opportunity_of. rewrite H5. split; [by rewrite fmap_insert|].
  rewrite lookup_insert_eq. by eexists.
Qed.

Lemma create_one_property o r actor db i db' :
  create_property require_approval sha256 json_dumps o r actor db = (Ok i, db') →
  one_property db → one_property db'.
Proof.
  intros (_ & _ & Hfree & _ & Hdb' & _)%create_property_effect Hone j k o'. rewrite Hdb', !lookup_insert.
  destruct (decide (i = j)) as [<-|], (decide (i = k)) as [<-|]; [done| | |by apply Hone].
  - intros [= <-] Hk. by destruct (Hfree k).
  - intros Hj [= <-]. by destruct (Hfree j).
Qed.
End opportunities.

(** ** The version log *)
Section versions.
Context {USD : Type}.
Implicit Types db : Db USD.

(** Each property has one entry for every version up to its current one, and
    the log has no other entries. *)
Definition log_complete (L : gmap Z PropertyVersion) (cur : gmap string Z) : Prop :=
  (∀ i c, cur !! i = Some c → 1 ≤ c)
  ∧ (∀ i c v, cur !! i = Some c → 1 ≤ v ≤ c →
       ∃ k r, L !! k = Some r ∧ pv_property_id r = i ∧ pv_version r = v)
  ∧ (∀ k r, L !! k = Some r → ∃ c, cur !! pv_property_id r = Some c ∧ 1 ≤ pv_version r ≤ c)
  ∧ (∀ k l r s, L !! k = Some r → L !! l = Some s → pv_property_id r = pv_property_id s →
       pv_version r = pv_version s → k = l).

Lemma log_append (L : gmap Z PropertyVersion) (cur : gmap string Z) k r :
  log_complete L cur → L !! k = None →
  pv_version r = default 0 (cur !! pv_property_id r) + 1 →
  log_complete (<[k := r]> L) (<[pv_property_id r := pv_version r]> cur).
Proof.
  intros (Hpos & Hcomp & Hsound & Huniq) Hk Hr.
  assert (0 ≤ default 0 (cur !! pv_property_id r)) as H0.
  { destruct (cur !! pv_property_id r) as [c|] eqn:Hc; cbn; [|lia].
    specialize (Hpos _ _ Hc). lia. }
  assert (∀ l s, L !! l = Some s → pv_property_id s = pv_property_id r →
    pv_version s < pv_version r) as Hold.
  { intros l s Hl Hs. destruct (Hsound l s Hl) as (c & Hc & ? & ?).
    rewrite Hs in Hc. rewrite Hc in Hr. cbn in Hr. lia. }
  split; [|split; [|split]].
  - intros i c. rewrite lookup_insert. case_decide; [intros [= <-]; lia|apply Hpos].
  - intros i c v. rewrite lookup_insert. case_decide as Hi.
    + intros [= <-] Hv. destruct (decide (v = pv_version r)) as [->|].
      { exists k, r. by rewrite lookup_insert_eq. }
      destruct (cur !! pv_property_id r) as [c|] eqn:Hc; cbn in Hr; [|lia].
      destruct (Hcomp _ c v Hc ltac:(lia)) as (l & s & Hl & Hs & Hsv).
      exists l, s. rewrite lookup_insert_ne by congruence. by rewrite <- Hi.
    + intros Hc Hv. destruct (Hcomp i c v Hc Hv) as (l & s & Hl & Hs & Hsv).
      exists l, s. by rewrite lookup_insert_ne by congruence.
  - intros l s. rewrite !lookup_insert. case_decide.
    + intros [= <-]. rewrite decide_True by done. eexists. split; [done|]. lia.
    + intros Hl. destruct (Hsound l s Hl) as (c & Hc & ? & ?). case_decide as Hp.
      * eexists. split; [done|]. specialize (Hold l s Hl ltac:(done)). lia.
      * by exists c.
  - intros l m s t. rewrite !lookup_insert.
    destruct (decide (k = l)) as [<-|], (decide (k = m)) as [<-|]; try done.
    + intros [= <-] Ht Hp Hv. specialize (Hold m t Ht ltac:(congruence)). lia.
    + intros Hs [= <-] Hp Hv. specialize (Hold l s Hs ltac:(congruence)). lia.
    + apply Huniq.
Qed.

Lemma versioned_log i db db' :
  versioned i db db' → log_complete (property_versions db) (current_of db) →
  log_complete (property_versions db') (current_of db').
Proof.
  intros (k & r & Hk & HL & <- & Hr & Hcur) Hlog. rewrite HL, Hcur. by apply log_append.
Qed.
End versions.

(** ** Evidence behind verified domains and approved builds *)
Section evidence.
Context {USD : Type}.
Context (sha256 : string → string) (json_dumps : json → string).
Implicit Types (db : Db USD) (actor : ReviewActor).

(** An operator approved the purchase; a verified domain has DNS records that
    were expected, observed as expected, and attributed. *)
Definition registration_evidenced (g : DomainRegistration) : Prop :=
  rg_purchase_approved g = true
  ∧ (rg_status g = dr_dns_verified →
     rg_expected_dns_records g ≠ ∅
     ∧ map_Forall (λ k v, rg_observed_dns_records g !! k = Some v) (rg_expected_dns_records g)
     ∧ is_Some (rg_registered_at g) ∧ is_Some (rg_dns_evidence_reference g)
     ∧ is_Some (rg_dns_verified_by g) ∧ is_Some (rg_dns_verified_at g)).

(** A registration that was made has its date. *)
Definition registration_dated (g : DomainRegistration) : Prop :=
  rg_status g = dr_manually_registered → is_Some (rg_registered_at g).

Definition compliance_evidenced (c : ComplianceReview) : Prop :=
  cp_status c = cmp_approved →
  (∀ k, k ∈ REQUIRED_COMPLIANCE_CHECKS → cp_checklist c !! k = Some true)
  ∧ dict_truthy "passed" (cp_validation_snapshot c) = true.

Definition registrations_ok db : Prop :=
  map_Forall (λ _ g, registration_evidenced g ∧ registration_dated g) (domain_registrations db).
Definition evidence_ok db : Prop :=
  registrations_ok db ∧ map_Forall (λ _, compliance_evidenced) (compliance_reviews db).

Lemma purchase_registrations i ex reason actor can now db j db' :
  approve_domain_purchase i ex reason actor can now db = (Ok j, db') →
  registrations_ok db → registrations_ok db'.
Proof.
  unfold approve_domain_purchase. intros (u1 & db1 & H1 & Hrun)%bind_ok.
  apply read_only_ok in H1 as ->; [|unfold _operator; apply _].
  apply bind_ok in Hrun as (c & db2 & H2 & Hrun).
  apply read_only_ok in H2 as ->; [|unfold _candidate; apply _].
  do 4 (rewrite bind_raise_if in Hrun; case_match; [done|]). rewrite bind_gets in Hrun.
  destruct (registration_of_candidate i db) as [[k g]|]; [by injection Hrun as _ <-|].
  rewrite bind_gets, bind_raise_if in Hrun. case_match; [done|]. rewrite bind_gets in Hrun.
  apply bind_ok in Hrun as (u3 & db3 & [= _ <-] & [= _ <-]). intros Hok.
  apply map_Forall_insert_2; [|done].
  unfold registration_evidenced, registration_dated. cbn. naive_solver.
Qed.

Lemma manual_registrations i r actor now db u db' :
  record_manual_registration (USD := USD) i r actor now db = (Ok u, db') →
  registrations_ok db → registrations_ok db'.
Proof.
  unfold record_manual_registration, _registration. intros (u1 & db1 & H1 & Hrun)%bind_ok.
  apply read_only_ok in H1 as ->; [|unfold _operator; apply _].
  rewrite bind_get_or_raise in Hrun. destruct (_ !! i) as [g|] eqn:Hi; [|done].
  rewrite bind_raise_if in Hrun. destruct (rg_purchase_approved g) eqn:Hg; [|done].
  injection Hrun as _ <-. intros Hok. unfold registrations_ok. cbn -[alter].
  rewrite (alter_as_insert _ _ _ _ Hi). apply map_Forall_insert_2; [|done].
  unfold registration_evidenced, registration_dated. cbn. naive_solver.
Qed.

Lemma dns_registrations i r actor now db u db' :
  verify_dns sha256 json_dumps i r actor now db = (Ok u, db') →
  registrations_ok db → registrations_ok db'.
Proof.
  unfold verify_dns, _registration. intros (u1 & db1 & H1 & Hrun)%bind_ok.
  apply read_only_ok in H1 as ->; [|unfold _operator; apply _].
  rewrite bind_get_or_raise in Hrun. destruct (_ !! i) as [g|] eqn:Hi; [|done].
  rewrite bind_raise_if in Hrun. destruct (bool_decide (rg_status g = _)) eqn:Hs; [|done].
  rewrite bind_raise_if in Hrun. destruct (bool_decide (_ = ∅)) eqn:Hexp; [done|].
  rewrite bind_raise_if in Hrun. destruct (records_match _ _) eqn:Hm; [|done]. cbn [negb] in Hrun.
  apply bind_ok in Hrun as (u2 & db2 & H2 & Hrun).
  apply (keeps_ok domain_registrations) in Hrun; [|keeps].
  injection H2 as _ <-. intros Hok. unfold registrations_ok. rewrite Hrun. cbn -[alter].
  rewrite (alter_as_insert _ _ _ _ Hi). apply map_Forall_insert_2; [|done].
  destruct (Hok i g Hi) as [[Hp _] Hd]. unfold records_match in Hm. bools.
  split; [|done]. split; [done|]. intros _. cbn. eauto 8.
Qed.

Lemma compliance_evidence b r actor now db i db' :
  review_compliance (USD := USD) b r actor now db = (Ok i, db') →
  map_Forall (λ _, compliance_evidenced) (compliance_reviews db) →
  map_Forall (λ _, compliance_evidenced) (compliance_reviews db').
Proof.
  unfold review_compliance, _build. intros (u1 & db1 & H1 & Hrun)%bind_ok.
  apply read_only_ok in H1 as ->; [|unfold _reviewer; apply _].
  rewrite bind_get_or_raise in Hrun. destruct (_ !! b) as [build|]; [|done].
  rewrite bind_raise_if in Hrun. destruct (cq_approved r && _) eqn:Hc in Hrun; [done|].
  rewrite bind_raise_if in Hrun. destruct (cq_approved r && _) eqn:Hp in Hrun; [done|].
  rewrite bind_gets in Hrun. apply bind_ok in Hrun as (u2 & db2 & [= _ <-] & [= _ <-]).
  intros Hok. cbn -[insert]. apply map_Forall_insert_2; [|done]. intros Happ.
  cbn [cp_status cp_checklist cp_validation_snapshot] in *.
  destruct (cq_approved r); [|done]. cbn [andb] in Hc, Hp.
  apply negb_false_iff in Hc, Hp. split; [|done]. intros k Hk.
  unfold checklist_complete in Hc. rewrite forallb_forall in Hc.
  specialize (Hc k ltac:(by apply list_elem_of_In)).
  destruct (cq_checklist r !! k) as [[]|]; done.
Qed.
End evidence.

(** ** The provider shown by the deployed sites *)
Section runtime.
Context {USD : Type} (iso : Z → string) (runtime_directory : string → option string).
Implicit Types (db : Db USD) (a : ProviderAssignment) (actor : ReviewActor).

(** The row of assignment [i], its property and the review of its claims. *)
Definition held (i : Z) (p : string) (claims : option Z) db : Prop :=
  ∃ a, provider_assignments db !! i = Some a ∧ as_property_id a = p
    ∧ as_claims_reviewed_at a = claims.

Lemma moved_claims target reason now a :
  as_claims_reviewed_at (moved target reason now a) = as_claims_reviewed_at a.
Proof. unfold moved. by case_bool_decide; destruct (final_status target). Qed.

Lemma transition_held j target reason now db u db' i p claims :
  assignment_transition j target reason now db = (Ok u, db') →
  held i p claims db → held i p claims db'.
Proof.
  intros (b & Hj & [[_ ->]|(_ & _ & ->)])%transition_ok; [done|].
  intros (a & Hi & Hp & Hc). unfold held. cbn -[alter]. rewrite lookup_alter.
  case_decide as Hij; [subst j|by eauto]. rewrite Hi. eexists. split; [done|].
  by rewrite moved_property, moved_claims.
Qed.

Lemma update_held j f db i p claims :
  (∀ a, as_property_id (f a) = as_property_id a
     ∧ as_claims_reviewed_at (f a) = as_claims_reviewed_at a) →
  held i p claims db → held i p claims (db <| provider_assignments ::= alter f j |>).
Proof.
  intros Hf (a & Hi & Hp & Hc). unfold held. cbn -[alter]. rewrite lookup_alter.
  case_decide as Hij; [subst j|by eauto]. rewrite Hi. eexists. split; [done|].
  destruct (Hf a) as [-> ->]. done.
Qed.

Lemma transition_active i reason now db u db' :
  assignment_transition i active reason now db = (Ok u, db') →
  ∃ a, provider_assignments db' !! i = Some a ∧ as_status a = active.
Proof.
  intros (a & Hi & [[Ha ->]|(_ & _ & ->)])%transition_ok; [by exists a|].
  cbn -[alter]. rewrite lookup_alter_eq, Hi. by eexists.
Qed.

(** Every live site of the property shows the assignment. *)
Lemma runtime_written p i db u db' :
  _update_provider_runtime_configuration iso runtime_directory p i db = (Ok u, db') →
  deployments db' = deployments db ∧ provider_assignments db' = provider_assignments db
  ∧ ∀ a, provider_assignments db !! i = Some a → ∀ k d dir, deployments db !! k = Some d →
      live_locally p d = true → runtime_directory (dp_url d) = Some dir →
      provider_runtime db' !! dir = Some (provider_payload iso i a).
Proof.
  unfold _update_provider_runtime_configuration. rewrite bind_gets.
  set (sites := (select (λ _, live_locally p) (deployments db)).*2).
  assert (∀ k d, deployments db !! k = Some d → live_locally p d = true → d ∈ sites) as Hsites.
  { intros k d Hk Hd. apply list_elem_of_fmap. exists (k, d). split; [done|].
    by apply elem_of_select. }
  intros Hrun. assert (deployments db' = deployments db
    ∧ provider_assignments db' = provider_assignments db) as [Hd Ha].
  { split; (eapply keeps_ok; [|exact Hrun]); keeps. }
  split; [done|]. split; [done|]. intros a Hi.
  assert (∀ d dir, d ∈ sites → runtime_directory (dp_url d) = Some dir →
    provider_runtime db' !! dir = Some (provider_payload iso i a)) as Hall; [|by eauto].
  clear Hsites Hd Ha. clearbody sites. revert db Hi Hrun. induction sites as [|e l IH]; intros db Hi Hrun d dir.
  { by intros ?%not_elem_of_nil. }
  cbn [for_each] in Hrun. apply bind_ok in Hrun as (u1 & db1 & H1 & Hrun).
  assert (provider_assignments db1 !! i = Some a) as Hi1.
  { rewrite <- Hi. f_equal. eapply (keeps_ok provider_assignments); [|exact H1]. keeps. }
  intros [->|Hin]%elem_of_cons Hdir; [|by eapply (IH db1)].
  destruct (decide (Exists (λ x, runtime_directory (dp_url x) = Some dir) l)) as [Hex|Hno].
  { apply Exists_exists in Hex as (x & Hx & Hxd). by eapply (IH db1). }
  assert (provider_runtime db1 !! dir = Some (provider_payload iso i a)) as Hw.
  { rewrite Hdir, bind_gets, Hi in H1. injection H1 as _ <-. apply lookup_insert_eq. }
  apply not_Exists_Forall in Hno; [|solve_decision]. rewrite Forall_forall in Hno.
  refine (for_each_ind (λ s, provider_runtime s !! dir = Some _) _ l _ db1 u db' Hw Hrun).
  intros x s v s' Hx Hs Hstep. specialize (Hno x Hx). cbv beta in Hno.
  destruct (runtime_directory (dp_url x)) as [dir'|] eqn:Hxd; [|by injection Hstep as _ <-].
  rewrite bind_gets in Hstep. injection Hstep as _ <-. cbn -[insert].
  rewrite lookup_insert_ne; [done|]. congruence.
Qed.

(** The assignment is the reviewed, active one and its property's sites show it. *)
Definition serves (i : Z) (p : string) db db' : Prop :=
  ∃ a, provider_assignments db' !! i = Some a ∧ as_property_id a = p
    ∧ as_status a = active ∧ is_Some (as_claims_reviewed_at a)
    ∧ deployments db' = deployments db
    ∧ ∀ k d dir, deployments db !! k = Some d → live_locally p d = true →
        runtime_directory (dp_url d) = Some dir →
        provider_runtime db' !! dir = Some (provider_payload iso i a).

Lemma serves_intro i p t f db db1 u db' :
  held i p (Some t) db1 → (∃ a, provider_assignments db1 !! i = Some a ∧ as_status a = active) →
  (∀ a, as_property_id (f a) = as_property_id a ∧ as_status (f a) = as_status a
     ∧ as_claims_reviewed_at (f a) = as_claims_reviewed_at a) →
  deployments db1 = deployments db →
  (update_assignment i f ≫= λ _,
   _update_provider_runtime_configuration iso runtime_directory p i) db1 = (Ok u, db') →
  serves i p db db'.
Proof.
  intros (a & Hi & Hp & Hc) (b & Hb & Hs) Hf Hd Hrun. rewrite Hi in Hb. injection Hb as ->.
  apply bind_ok in Hrun as (u1 & db2 & [= _ <-] & (Hd' & Ha' & Hw)%runtime_written).
  cbn -[alter] in *. rewrite Hd in *. exists (f b). specialize (Hf b) as (Hfp & Hfs & Hfc).
  rewrite lookup_alter_eq, Hi in Hw. specialize (Hw (f b) eq_refl).
  rewrite Ha', lookup_alter_eq, Hi. split; [done|]. split; [congruence|]. split; [congruence|].
  split; [rewrite Hfc, Hc; by eexists|]. done.
Qed.

Lemma reviewed_held i db a :
  provider_assignments db !! i = Some a → as_claims_reviewed_at a ≠ None →
  ∃ t, held i (as_property_id a) (Some t) db.
Proof.
  intros Hi Hc. destruct (as_claims_reviewed_at a) as [t|] eqn:Ht; [|done]. exists t, a. done.
Qed.

Lemma activate_serves i reason actor now db u db' :
  activate_provider iso runtime_directory i reason actor now db = (Ok u, db') →
  actor_role actor ∈ [operator; admin] ∧ ∃ p, serves i p db db'.
Proof.
  unfold activate_provider, _operator, _assignment. rewrite bind_raise_if.
  case_bool_decide as Hact; [|done]. cbn [negb]. rewrite bind_get_or_raise.
  destruct (provider_assignments db !! i) as [a|] eqn:Hi; [|done]. rewrite bind_raise_if.
  case_bool_decide as Hc; [done|]. intros (u1 & db1 & H1%reraise_ok & Hrun)%bind_ok.
  split; [done|]. exists (as_property_id a). destruct (reviewed_held i db a Hi Hc) as [t Ht].
  assert (deployments db1 = deployments db) as Hd
    by (eapply (keeps_ok deployments); [|exact H1]; keeps).
  apply bind_ok in H1 as (u2 & db2 & H2%when_ok & H3).
  eapply serves_intro; cycle 4; [exact Hrun| | |by intros|exact Hd].
  - eapply transition_held; [exact H3|].
    destruct H2 as [[_ H2]|[_ ->]]; [by eapply transition_held|done].
  - by eapply transition_active.
Qed.

Lemma replace_serves p j reason actor now db u db' :
  replace_provider iso runtime_directory p j reason actor now db = (Ok u, db') →
  actor_role actor ∈ [operator; admin] ∧ serves j p db db'.
Proof.
  unfold replace_provider, _operator, _assignment. rewrite bind_raise_if.
  case_bool_decide as Hact; [|done]. cbn [negb]. rewrite bind_get_or_raise.
  destruct (_active_assignment p db) as [[i c]|] eqn:Hcur; [|done].
  rewrite bind_get_or_raise. destruct (provider_assignments db !! j) as [r|] eqn:Hj; [|done].
  rewrite bind_raise_if. case_bool_decide as Hc; [done|].
  intros (u1 & db1 & H1%reraise_ok & Hrun)%bind_ok. split; [done|].
  apply active_assignment_Some in Hcur as (Hi & Hp & _). cbn [fst] in H1.
  assert (deployments db1 = deployments db) as Hd
    by (eapply (keeps_ok deployments); [|exact H1]; keeps).
  destruct (reviewed_held j db r Hj Hc) as [t Ht].
  unfold replace_assignment in H1. rewrite !bind_gets, Hi, Hj, bind_raise_if in H1.
  case_bool_decide as Hpr; [|done]. cbn [negb] in H1. rewrite bind_raise_if in H1. case_match; [done|].
  rewrite <- Hpr, Hp in Ht.
  apply bind_ok in H1 as (u2 & db2 & H2 & H1). apply bind_ok in H1 as (u3 & db3 & [= _ <-] & H1).
  apply bind_ok in H1 as (r' & db4 & H4 & H1). apply get_or_raise_ok in H4 as [_ ->].
  apply bind_ok in H1 as (u5 & db5 & H5%when_ok & H1).
  apply (transition_held _ _ _ _ _ _ _ _ _ _ H2) in Ht.
  apply (update_held j (λ a, a <| as_replaced_assignment_id := Some i |>)) in Ht; [|done].
  eapply serves_intro; cycle 4; [exact Hrun| | |by intros|exact Hd].
  - eapply transition_held; [exact H1|].
    destruct H5 as [[_ H5]|[_ ->]]; [by eapply transition_held|done].
  - by eapply transition_active.
Qed.
End runtime.

(** ** What the gates of a production deployment say *)
Section gates.
Context {USD : Type}.
Implicit Types db : Db USD.

Lemma truthy_nonempty s : str_truthy s = true → s ≠ ""%string.
Proof. unfold str_truthy. intros H. by bools. Qed.

(** What the gates of [_deployment_gates] say of the tables. *)
Definition every_gate db b (r : DeploymentRequest) : Prop :=
  ∃ build prop config profile opp,
    site_builds db !! b = Some build ∧ properties db !! bd_property_id build = Some prop
    ∧ site_configs db !! bd_site_config_id build = Some config
    ∧ routing_profiles db !! bd_property_id build = Some profile
    ∧ opportunities db !! pr_opportunity_id prop = Some opp
    ∧ opp_status opp = "approved_for_property"%string ∧ cf_status config = scs_approved
    ∧ bd_status build = "passed"%string
    ∧ (∃ k c, compliance_reviews db !! k = Some c ∧ cp_site_build_id c = b
         ∧ cp_status c = cmp_approved)
    ∧ (∃ k g, domain_registrations db !! k = Some g ∧ rg_property_id g = bd_property_id build
         ∧ rg_status g = dr_dns_verified ∧ pr_domain prop = Some (rg_domain g))
    ∧ healthy_routing (rp_routing_health_status profile) = true
    ∧ dict_get "verified" (pr_analytics_config prop) = Some (JBool true)
    ∧ ((dq_neutral_pilot_mode r = true ∧ py_strip (dq_neutral_pilot_reason r) ≠ ""%string)
       ∨ ∃ k a, provider_assignments db !! k = Some a ∧ as_property_id a = bd_property_id build
           ∧ as_status a = active ∧ is_Some (as_claims_reviewed_at a))
    ∧ dq_operator_confirmation r = true ∧ py_strip (dq_confirmation_reason r) ≠ ""%string.

Lemma gates_passed prop b build config profile r db :
  site_builds db !! b = Some build → properties db !! bd_property_id build = Some prop →
  site_configs db !! bd_site_config_id build = Some config →
  routing_profiles db !! bd_property_id build = Some profile →
  forallb snd (gates_of (bd_property_id build) prop b build config profile r db) = true →
  every_gate db b r.
Proof.
  intros Hb Hprop Hconf Hprof. unfold gates_of. cbn [forallb snd]. cbv zeta. intros Hg.
  repeat match goal with H : _ && _ = true |- _ => apply andb_true_iff in H as [? ?] end.
  destruct (opportunities db !! pr_opportunity_id prop) as [opp|] eqn:Ho; [|done].
  exists build, prop, config, profile, opp. do 4 (split; [done|]).
  destruct (_approved_compliance b db) as [[k c]|] eqn:Hc; [|done].
  destruct (_verified_registration _ db) as [[k' g]|] eqn:Hv; [|done].
  apply select_last_Some in Hc as [Hk Hcb], Hv as [Hk' Hgp]. bools.
  repeat match goal with H : bool_decide _ = true |- _ => apply bool_decide_eq_true in H end.
  repeat (split; [by eauto using truthy_nonempty|]).
  split; [by eauto 8|]. split; [done|].
  split; [by repeat case_match; simplify_eq|]. split; [|by eauto using truthy_nonempty].
  destruct (neutral_pilot r) eqn:Hn.
  - left. unfold neutral_pilot in Hn. bools. by eauto using truthy_nonempty.
  - right. destruct (_active_assignment _ db) as [[j a]|] eqn:Ha; [|done].
    apply active_assignment_Some in Ha as (Hj & Hp & Hs). exists j, a.
    destruct (as_claims_reviewed_at a); [by eauto|done].
Qed.
End gates.

(** ** The guarantees *)
Section theorems.
Context {USD : Type}.
Context (require_approval : Z → Session USD Opportunity) `{!PropertyApprovalGate require_approval}.
Context (sha256 : string → string) (json_dumps : json → string) (iso : Z → string).
Context (runtime_directory : string → option string).
Context (build_root deployment_root : string).
Context (build_static_site : dict → option string → BuildEnvironment → string → BuildArtifact).
Implicit Types (db : Db USD) (actor : ReviewActor).

Abbreviation step := (workflow_step require_approval sha256 json_dumps iso runtime_directory
  build_root deployment_root build_static_site).

(** A production deployment that [deploy] recorded, with what it had checked. *)
Definition launch db b i db' : Prop :=
  ∃ r actor public result now,
    deploy iso deployment_root b r actor public result now db = (Ok i, db')
    ∧ dq_environment r = env_production ∧ public = false
    ∧ actor_role actor ∈ [operator; admin] ∧ every_gate db b r.

(** A production deployment that [rollback] recorded, going back to the row [t]. *)
Definition reinstate db p t i db' : Prop :=
  ∃ r actor public result now,
    rollback iso deployment_root p r actor public result now db = (Ok i, db')
    ∧ rb_target_deployment_id r = t ∧ rb_operator_confirmation r = true ∧ public = false
    ∧ actor_role actor ∈ [operator; admin].

Definition same_site (d e : Deployment) : Prop :=
  dp_property_id d = dp_property_id e ∧ dp_site_build_id d = dp_site_build_id e
  ∧ dp_environment d = dp_environment e.

Lemma same_site_refl d : same_site d d.
Proof. done. Qed.
#[local] Hint Resolve same_site_refl : core.

Lemma supersede_rows prior i d t k e :
  (∀ j e, prior = Some (j, e) → t !! j = Some e) → t !! i = None →
  supersede prior i d t !! k = Some e → (k = i ∧ e = d) ∨ ∃ e0, t !! k = Some e0 ∧ same_site e0 e.
Proof.
  intros Hprior Hi. rewrite supersede_insert.
  2: { intros j e0 Hj ->. by rewrite (Hprior _ _ Hj) in Hi. }
  rewrite lookup_insert. case_decide as Hk; [intros [= <-]; by left|].
  destruct prior as [[j e0]|]; cbn [fst fmap option_fmap option_map]; [|by eauto].
  rewrite lookup_alter. case_decide; [subst k|by eauto].
  intros (e1 & He & ->)%fmap_Some. right. by exists e1.
Qed.

(** Where a production row of the table comes from. *)
Lemma deployment_rows db db' i d :
  step db db' → deployments db' !! i = Some d → dp_environment d = env_production →
  (∃ e, deployments db !! i = Some e ∧ same_site e d)
  ∨ (launch db (dp_site_build_id d) i db' ∧ forallb snd (dp_gate_snapshot d) = true)
  ∨ ∃ t e, reinstate db (dp_property_id d) t i db' ∧ deployments db !! t = Some e ∧ same_site e d.
Proof.
  intros Hs Hi He. apply deployments_kept in Hs as [Heq|[(b & r & ac & pu & re & now & k & Hrun)
    |(p & r & ac & pu & re & now & k & Hrun)]]; [rewrite Heq in Hi; by eauto|..|done].
  - pose proof Hrun as (build & prop & config & profile & dk & Hact & Hpub & Hb & _ & Hprop & Hconf
      & Hprof & Hg & Hk & Hp & Henv & _ & Hsb & _ & Hsnap & Hdb' & _)%deploy_ok.
    rewrite Hdb' in Hi. apply supersede_rows in Hi as [[-> ->]|Hold]; [|by left|..].
    + right. left. rewrite Henv in He. specialize (Hg He). split; [|by rewrite Hsnap].
      rewrite Hsb. exists r, ac, pu, re, now. do 4 (split; [done|]). by eapply gates_passed.
    + by intros j e0 [? _]%current_Some.
    + rewrite Hk. apply next_id_fresh.
  - pose proof Hrun as (target & build & j & current & dk & Hact & Hc & Hpub & Ht & Hpt & Het & _
      & _ & _ & Hfresh & Hp & Henv & _ & Hsb & _ & _ & Hdb')%rollback_ok.
    rewrite Hdb', lookup_insert in Hi. case_decide as Hki.
    + injection Hi as <-. subst k. right. right. exists (rb_target_deployment_id r), target.
      rewrite Hp. split; [by exists r, ac, pu, re, now|]. split; [done|].
      split; [congruence|]. split; [done|congruence].
    + left. rewrite lookup_alter in Hi. case_decide; [subst j|by eauto].
      apply fmap_Some in Hi as (e & He' & ->). by exists e.
Qed.

(** C11: whatever committed requests run from empty deployment tables, every production
    deployment of a build goes back to a launch of the same build of the same property that
    went through every gate: [deploy] recorded it for an operator or admin who confirmed it
    with a reason, the opportunity was approved, the configuration was approved, the build
    passed, a compliance review approved that build, the property's domain was the one
    whose DNS was verified, routing was healthy, analytics were verified, the active
    provider's claims were reviewed unless a neutral pilot with a reason was asked for, and
    the adapter was not capable of public deployment.  The row is that launch, or a later
    rollback to a row of that build, which an operator or admin confirmed and which the
    same kind of adapter carried out; a rollback does not look at the other gates again. *)
Theorem production_deployment_passed_every_gate db0 db i d :
  deployments db0 = ∅ → rtc step db0 db →
  deployments db !! i = Some d → dp_environment d = env_production →
  ∃ j db1 db2 launched,
    rtc step db0 db1 ∧ launch db1 (dp_site_build_id d) j db2 ∧ rtc step db2 db
    ∧ deployments db2 !! j = Some launched ∧ same_site launched d
    ∧ forallb snd (dp_gate_snapshot launched) = true
    ∧ (i = j ∨ ∃ t e db3 db4,
         rtc step db2 db3 ∧ reinstate db3 (dp_property_id d) t i db4 ∧ rtc step db4 db
         ∧ deployments db3 !! t = Some e ∧ same_site e d).
Proof.
  intros H0 Hr. revert i d. pattern db. revert db Hr.
  apply (rtc_ind_r _ db0); [|intros db' db'' Hr Hs IH]; intros i d Hi He.
  { by rewrite H0 in Hi. }
  destruct (deployment_rows _ _ _ _ Hs Hi He)
    as [(e & Hold & Hsame)|[[Hlaunch Hsnap]|(t & e & Hback & Ht & Hsame)]].
  - destruct Hsame as (Hp & Hb & Henv).
    destruct (IH i e Hold) as (j & db1 & db2 & l & H1 & H2 & H3 & H4 & H5 & H6 & H7); [congruence|].
    unfold same_site in *. rewrite <- Hp, <- Hb, <- Henv. exists j, db1, db2, l.
    do 2 (split; [done|]). split; [by eapply rtc_r|]. do 3 (split; [done|]).
    destruct H7 as [?|(t & e' & db3 & db4 & H7 & H8 & H9 & H10)]; [by left|right].
    exists t, e', db3, db4. do 2 (split; [done|]). split; [by eapply rtc_r|done].
  - exists i, db', db'', d. do 2 (split; [done|]). split; [apply rtc_refl|].
    do 2 (split; [done|]). split; [done|by left].
  - destruct Hsame as (Hp & Hb & Henv).
    destruct (IH t e Ht) as (j & db1 & db2 & l & H1 & H2 & H3 & H4 & H5 & H6 & _); [congruence|].
    unfold same_site in *. rewrite <- Hb. exists j, db1, db2, l.
    do 2 (split; [done|]). split; [by eapply rtc_r|]. split; [done|].
    split; [by rewrite <- Hp, <- Henv|]. split; [done|]. right.
    exists t, e, db', db''. do 2 (split; [done|]). split; [apply rtc_refl|by split].
Qed.

(** A property is live once per environment: whatever sequence of committed
    requests runs, no property ever has two deployed rows in the same
    environment, since a deployment or a rollback retires the one before it. *)
Theorem one_live_deployment db0 db :
  one_live (deployments db0) → rtc step db0 db → one_live (deployments db).
Proof.
  intros H0 Hr. induction Hr as [|db1 db2 db3 Hs _ IH]; [done|]. apply IH.
  apply deployments_kept in Hs as [->|[(b & r & ac & pu & re & now & i & Hrun)
    |(p & r & ac & pu & re & now & i & Hrun)]]; [done|..|done].
  - by eapply deploy_one_live.
  - by eapply rollback_one_live.
Qed.

(** A property has one approved configuration: whatever is committed, the
    configuration versions of a property are distinct and at most one of them
    is approved, since approving one supersedes the others. *)
Theorem one_approved_configuration db0 db :
  configs_ok (site_configs db0) → rtc step db0 db → configs_ok (site_configs db).
Proof.
  intros H0 Hr. induction Hr as [|db1 db2 db3 Hs _ IH]; [done|]. apply IH.
  apply site_configs_kept in Hs as [->|[(p & r & ac & i & Hrun)
    |(i & ok & re & ac & now & u & Hrun)]]; [done|..|done].
  - by eapply create_configs_ok.
  - by eapply review_configs_ok.
Qed.

(** A property stands for one approved opportunity: along any history no two
    properties share an opportunity and a property keeps its opportunity, and
    creating one takes an actor who is not the system and an opportunity that is
    approved and has no property yet. *)
Theorem property_stands_for_one_opportunity db0 db :
  one_property db0 → rtc step db0 db →
  one_property db
  ∧ (∀ i o, opportunity_of db0 !! i = Some o → opportunity_of db !! i = Some o)
  ∧ ∀ o r actor i db', create_property require_approval sha256 json_dumps o r actor db = (Ok i, db') →
      actor_role actor ≠ system
      ∧ (∃ opp, opportunities db !! o = Some opp
           ∧ canonical (opp_status opp) = Some approved_for_property)
      ∧ (∀ j, opportunity_of db !! j ≠ Some o) ∧ opportunity_of db' !! i = Some o.
Proof.
  intros H0 Hr.
  assert (one_property db
    ∧ ∀ i o, opportunity_of db0 !! i = Some o → opportunity_of db !! i = Some o) as [H1 H2].
  { induction Hr as [db|db1 db2 db3 Hs _ IH]; [done|].
    apply opportunities_kept in Hs as [Heq|(o & r & ac & i & Hrun)]; [| |done].
    - unfold one_property in *. rewrite Heq in IH. by apply IH.
    - pose proof (create_one_property _ _ _ _ _ _ _ _ _ Hrun H0) as Hone.
      destruct (IH Hone) as [H1 H2]. split; [done|]. intros j o' Hj. apply H2.
      apply create_property_effect in Hrun as (_ & _ & _ & Hnew & -> & _); [|done].
      rewrite lookup_insert_ne; [done|]. intros <-. unfold opportunity_of in Hj.
      by rewrite lookup_fmap, Hnew in Hj. }
  split; [done|]. split; [done|]. intros o r actor i db' Hrun.
  apply create_property_effect in Hrun as (Hact & Ho & Hfree & _ & Hdb' & _); [|done].
  split; [done|]. split; [done|]. split; [done|]. by rewrite Hdb', lookup_insert_eq.
Qed.

(** The version log of every property is complete: along any history it holds
    exactly one entry for each version from 1 up to the property's current
    version, and nothing else. *)
Theorem version_log_is_complete db0 db :
  log_complete (property_versions db0) (current_of db0) → rtc step db0 db →
  log_complete (property_versions db) (current_of db).
Proof.
  intros H0 Hr. induction Hr as [|db1 db2 db3 Hs _ IH]; [done|]. apply IH.
  apply log_kept in Hs as [[= -> ->]|[i Hv]]; [done|..]; [by eapply versioned_log|done].
Qed.

(** Verified domains and approved builds have their evidence: along any
    history a DNS-verified domain had its purchase approved, was registered, and
    every expected record was observed with a reference and a name; an approved
    compliance review ticked every required check on a passing build. *)
Theorem verification_is_evidenced db0 db : evidence_ok db0 → rtc step db0 db → evidence_ok db.
Proof.
  intros H0 Hr. induction Hr as [|db1 db2 db3 Hs _ IH]; [done|]. apply IH. destruct H0 as [H1 H2].
  split.
  - apply registrations_kept in Hs as [Heq|[Hrun|[Hrun|Hrun]]]; destruct_and?; [..|done].
    + unfold registrations_ok. by rewrite Heq.
    + destruct Hrun as (i & ex & re & ac & can & now & j & Hrun). by eapply purchase_registrations.
    + destruct Hrun as (i & r & ac & now & u & Hrun). by eapply manual_registrations.
    + destruct Hrun as (i & r & ac & now & u & Hrun). by eapply dns_registrations.
  - apply compliance_kept in Hs as [->|(b & r & ac & now & i & Hrun)]; [done|..|done].
    by eapply compliance_evidence.
Qed.

(** After an operator activates or replaces a provider, the assignment is the
    active one, its claims were reviewed, and every local live site of its
    property shows that provider; no deployment changes. *)
Theorem sites_show_the_active_provider i p reason actor now db u db' :
  activate_provider iso runtime_directory i reason actor now db = (Ok u, db')
  ∨ replace_provider iso runtime_directory p i reason actor now db = (Ok u, db') →
  actor_role actor ∈ [operator; admin]
  ∧ ∃ a, provider_assignments db' !! i = Some a ∧ as_status a = active
      ∧ is_Some (as_claims_reviewed_at a) ∧ deployments db' = deployments db
      ∧ ∀ k d dir, deployments db' !! k = Some d → live_locally (as_property_id a) d = true →
          runtime_directory (dp_url d) = Some dir →
          provider_runtime db' !! dir = Some (provider_payload iso i a).
Proof.
  intros [[Hact (q & a & Hi & <- & Hs & Hc & Hd & Hw)]%activate_serves
    |[Hact (a & Hi & <- & Hs & Hc & Hd & Hw)]%replace_serves];
    (split; [done|]); exists a; rewrite Hd; repeat (split; [done|]); done.
Qed.
End theorems.

(** ** A launch

    An approved opportunity becomes a property; its domain is bought, registered
    and verified; a configuration is approved, built, reviewed and deployed. *)
Module Launch.
Definition sha (s : string) : string := s.
Definition dumps (v : json) : string := "{}".
Definition text (t : Z) : string := pretty.pretty t.
Definition directory (url : string) : option string := Some url.
Definition artifact (payload : dict) (domain : option string) (e : BuildEnvironment)
    (root : string) : BuildArtifact := {|
  art_output_path := root; art_checksum := environment_value e +:+ default "" domain;
  art_manifest := {["index.html"%string := "abc"%string]};
  art_validation := [("passed"%string, JBool true)]; art_total_bytes := 100
|}.
Definition gate : Z → Session Z Opportunity := require_property_approval.

Definition ana : ReviewActor := {| actor_id := "ana"; actor_role := admin |}.
Definition opportunity : Opportunity := {|
  opp_service_family_id := 5; opp_market_id := 3; opp_status := "approved_for_property";
  opp_latest_score := None; opp_score_version := None; opp_confidence := None;
  opp_missing_data_flags := []; opp_approved_at := Some 1; opp_owner_user_id := None;
  opp_review_version := 1
|}.
Definition market : Market := {|
  mk_display_name := JStr "Denver, CO"; mk_state := JNull; mk_county := JNull; mk_metro := JNull;
  mk_latitude := JNull; mk_longitude := JNull; mk_boundary_radius_km := JNull;
  mk_geography_id := JNull; mk_cities := []
|}.
Definition db0 : Db Z := empty_db <| opportunities := {[1 := opportunity]} |>
  <| markets := {[3 := market]} |>
  <| service_families := {[5 := {| sf_display_name := "Plumbing" |}]} |>.

Definition creation : PropertyCreateRequest := {|
  pc_neutral_brand := "Mile High Pipes"; pc_property_id := Some "p"%string;
  pc_public_tracking_number := None; pc_public_contact_email := None;
  pc_analytics_config := [("verified"%string, JBool true)]
|}.
Definition content : SiteConfigInput := {|
  si_brand := []; si_service := []; si_market := []; si_pricing_guidance := [];
  si_service_process := JList []; si_faqs := JList []; si_local_considerations := JList [];
  si_provider_details := []; si_referral_disclosure := "We are a referral service.";
  si_calls_to_action := JList []; si_asset_ids := []; si_metadata := []; si_analytics := [];
  si_form_routing := []; si_change_reason := "first version"
|}.
Definition generation : DomainGenerationRequest := {| dg_limit := 1; dg_tlds := ["com"]%string |}.
Definition available (domain : string) : DomainAvailabilityEvidence :=
  {| da_status := da_available; da_provider := "manual"; da_evidence := [] |}.
Definition records : gmap string string := {["A"%string := "192.0.2.1"%string]}.
Definition registration : ManualRegistrationRequest := {|
  mr_external_reference := "ref"; mr_registrar_name := "registrar";
  mr_expected_dns_records := records
|}.
Definition observation : DNSVerificationRequest :=
  {| dv_observed_records := records; dv_evidence_reference := "dig" |}.
Definition all_checks : gmap string bool :=
  list_to_map (map (λ k, (k, true)) REQUIRED_COMPLIANCE_CHECKS).
Definition compliance : ComplianceReviewRequest :=
  {| cq_approved := true; cq_checklist := all_checks; cq_notes := "read" |}.
Definition request (e : BuildEnvironment) : DeploymentRequest := {|
  dq_environment := e; dq_operator_confirmation := true; dq_confirmation_reason := "launch";
  dq_neutral_pilot_mode := true; dq_neutral_pilot_reason := "no provider yet"
|}.
Definition adapter : option DeploymentResult :=
  Some {| res_url := "file:///srv/p"; res_adapter_name := "local"; res_local_only := true |}.

Definition created := (create_property gate sha dumps 1 creation ana db0).2.
Definition generated := (generate_domain_candidates "p" generation created).2.
Definition shortlisted := (decide_domain_candidate 1 true "good name" ana 10 generated).2.
Definition checked := (check_domain_availability 1 available 11 shortlisted).2.
Definition purchased := (approve_domain_purchase 1 true "buy" ana false 12 checked).2.
Definition registered := (record_manual_registration 1 registration ana 13 purchased).2.
Definition verified := (verify_dns sha dumps 1 observation ana 14 registered).2.
Definition configured := (create_site_config sha dumps "p" content ana verified).2.
Definition approved := (review_site_config 1 true "ok" ana 15 configured).2.
Definition built := (build_site "/builds" artifact 1 env_production approved).2.
Definition reviewed := (review_compliance 1 compliance ana 16 built).2.
Definition health : RoutingHealth :=
  {| health_healthy := true; health_status := "healthy"; health_checked_at := 17 |}.
Definition healthy := (check_call_routing_health "p" health reviewed).2.
Definition deployed := (deploy text "/sites" 1 (request env_production) ana false adapter 18 healthy).2.
Definition redeployed :=
  (deploy text "/sites" 1 (request env_production) ana false adapter 19 deployed).2.

Abbreviation step := (workflow_step gate sha dumps text directory "/builds" "/sites" artifact).

Lemma to_reviewed : rtc step db0 reviewed.
Proof.
  eapply rtc_l; [exact (wf_create _ _ _ _ _ _ _ _ db0 created 1 creation ana "p"
    (run_pair (create_property gate sha dumps 1 creation ana db0) _ ltac:(by vm_compute)))|].
  eapply rtc_l; [exact (wf_generate _ _ _ _ _ _ _ _ created generated "p" generation
    ["mile-high-pipes.com"%string]
    (run_pair (generate_domain_candidates "p" generation created) _ ltac:(by vm_compute)))|].
  eapply rtc_l; [exact (wf_decide _ _ _ _ _ _ _ _ generated shortlisted 1 true "good name" ana 10 tt
    (run_pair (decide_domain_candidate 1 true "good name" ana 10 generated) _ ltac:(by vm_compute)))|].
  eapply rtc_l; [exact (wf_availability _ _ _ _ _ _ _ _ shortlisted checked 1 available 11 tt
    (run_pair (check_domain_availability 1 available 11 shortlisted) _ ltac:(by vm_compute)))|].
  eapply rtc_l; [exact (wf_purchase _ _ _ _ _ _ _ _ checked purchased 1 true "buy" ana false 12 1
    (run_pair (approve_domain_purchase 1 true "buy" ana false 12 checked) _ ltac:(by vm_compute)))|].
  eapply rtc_l; [exact (wf_registered _ _ _ _ _ _ _ _ purchased registered 1 registration ana 13 tt
    (run_pair (record_manual_registration 1 registration ana 13 purchased) _ ltac:(by vm_compute)))|].
  eapply rtc_l; [exact (wf_dns _ _ _ _ _ _ _ _ registered verified 1 observation ana 14 tt
    (run_pair (verify_dns sha dumps 1 observation ana 14 registered) _ ltac:(by vm_compute)))|].
  eapply rtc_l; [exact (wf_config _ _ _ _ _ _ _ _ verified configured "p" content ana 1
    (run_pair (create_site_config sha dumps "p" content ana verified) _ ltac:(by vm_compute)))|].
  eapply rtc_l; [exact (wf_review_config _ _ _ _ _ _ _ _ configured approved 1 true "ok" ana 15 tt
    (run_pair (review_site_config 1 true "ok" ana 15 configured) _ ltac:(by vm_compute)))|].
  eapply rtc_l; [exact (wf_build _ _ _ _ _ _ _ _ approved built 1 env_production 1
    (run_pair (build_site "/builds" artifact 1 env_production approved) _ ltac:(by vm_compute)))|].
  eapply rtc_l; [exact (wf_compliance _ _ _ _ _ _ _ _ built reviewed 1 compliance ana 16 1
    (run_pair (review_compliance 1 compliance ana 16 built) _ ltac:(by vm_compute)))|].
  apply rtc_refl.
Qed.

Lemma deployed_run : deploy text "/sites" 1 (request env_production) ana false adapter 18 healthy
  = (Ok 1, deployed).
Proof.
  exact (run_pair (deploy text "/sites" 1 (request env_production) ana false adapter 18 healthy) _
    ltac:(by vm_compute)).
Qed.
Lemma redeployed_run :
  deploy text "/sites" 1 (request env_production) ana false adapter 19 deployed
  = (Ok 2, redeployed).
Proof.
  exact (run_pair (deploy text "/sites" 1 (request env_production) ana false adapter 19 deployed) _
    ltac:(by vm_compute)).
Qed.

Lemma to_redeployed : rtc step healthy redeployed.
Proof.
  eapply rtc_l; [exact (wf_deploy _ _ _ _ _ _ _ _ healthy deployed 1 (request env_production) ana
    false adapter 18 1 deployed_run)|].
  eapply rtc_l; [exact (wf_deploy _ _ _ _ _ _ _ _ deployed redeployed 1 (request env_production) ana
    false adapter 19 2 redeployed_run)|]. apply rtc_refl.
Qed.

(** The second deployment is rolled back to the first. *)
Definition back : RollbackRequest :=
  {| rb_target_deployment_id := 1; rb_operator_confirmation := true; rb_reason := "worse" |}.
Definition restored := (rollback text "/sites" "p" back ana false adapter 20 redeployed).2.
Lemma to_restored : rtc step healthy restored.
Proof.
  eapply rtc_r; [exact to_redeployed|].
  exact (wf_rollback _ _ _ _ _ _ _ _ redeployed restored "p" back ana false adapter 20 3
    (run_pair (rollback text "/sites" "p" back ana false adapter 20 redeployed) _ ltac:(by vm_compute))).
Qed.
Lemma restored_row : ∃ d, deployments restored !! 3 = Some d
  ∧ dp_status d = dep_deployed ∧ dp_environment d = env_production ∧ dp_site_build_id d = 1.
Proof.
  assert ((λ d, (dp_status d, dp_environment d, dp_site_build_id d)) <$> deployments restored !! 3
    = Some (dep_deployed, env_production, 1)) as H by by vm_compute.
  destruct (deployments restored !! 3) as [d|]; [|done]. exists d. apply Some_inj in H. naive_solver.
Qed.
Lemma none_deployed : deployments healthy = ∅.
Proof. by vm_compute. Qed.

(** A provider for the deployed site. *)
Definition provider : ProviderAssignmentInput := {|
  pi_provider_candidate_id := None; pi_public_business_name := "Acme Plumbing";
  pi_destination_phone := None; pi_destination_email := Some "acme@b.example"%string;
  pi_logo_asset_id := None; pi_hours := []; pi_service_radius := []; pi_credentials := JList [];
  pi_license_numbers := JList []; pi_approved_claims := JList [];
  pi_attributed_testimonials := JList []; pi_provider_photos := [];
  pi_claims_review_reason := "checked"
|}.
Definition assigned := (create_provider_assignment "p" provider ana 20 redeployed).2.
Definition served := (activate_provider text directory 1 "go" ana 21 assigned).2.
Lemma served_run : activate_provider text directory 1 "go" ana 21 assigned = (Ok tt, served).
Proof.
  exact (run_pair (activate_provider text directory 1 "go" ana 21 assigned) _ ltac:(by vm_compute)).
Qed.

Lemma live_site : ∃ d, deployments served !! 2 = Some d
  ∧ live_locally "p" d = true ∧ dp_url d = "file:///srv/p"%string.
Proof.
  assert ((λ d, (live_locally "p" d, dp_url d)) <$> deployments served !! 2
    = Some (true, "file:///srv/p"%string)) as H by by vm_compute.
  destruct (deployments served !! 2) as [d|]; [|done].
  exists d. apply Some_inj in H. injection H as H1 H2. by rewrite H1, H2.
Qed.
Lemma provider_property a : provider_assignments served !! 1 = Some a → as_property_id a = "p"%string.
Proof.
  assert (as_property_id <$> provider_assignments served !! 1 = Some "p"%string) as H by by vm_compute.
  destruct (provider_assignments served !! 1); [|done]. intros <-%Some_inj. by apply Some_inj in H.
Qed.

Lemma none_live : one_live (deployments healthy).
Proof. assert (deployments healthy = ∅) as -> by by vm_compute. by intros i j d e Hi. Qed.
Lemma no_configs : configs_ok (site_configs db0).
Proof. by split; intros i j c d Hi. Qed.
Lemma no_properties : one_property db0.
Proof. by intros i j o Hi. Qed.
Lemma no_log : log_complete (property_versions db0) (current_of db0).
Proof. by repeat split; intros *. Qed.
Lemma no_evidence : evidence_ok db0.
Proof. split; apply map_Forall_empty. Qed.
End Launch.

Lemma production_deployment_passed_every_gate_witness :
  ∃ d, deployments Launch.restored !! 3 = Some d ∧ dp_status d = dep_deployed
    ∧ ∃ j db1 db2, launch Launch.text "/sites" db1 1 j db2 ∧ rtc Launch.step db2 Launch.restored.
Proof.
  destruct Launch.restored_row as (d & Hd & Hs & He & Hb).
  exists d. split; [exact Hd|]. split; [exact Hs|].
  destruct (production_deployment_passed_every_gate _ _ _ _ _ _ _ _ _ _ 3 d
    Launch.none_deployed Launch.to_restored Hd He)
    as (j & db1 & db2 & l & _ & Hl & Hr & _).
  exists j, db1, db2. rewrite <- Hb. split; [exact Hl|exact Hr].
Defined.

Lemma one_live_deployment_witness :
  one_live (deployments Launch.redeployed)
  ∧ dp_status <$> deployments Launch.redeployed !! 1 = Some dep_rolled_back
  ∧ dp_status <$> deployments Launch.redeployed !! 2 = Some dep_deployed.
Proof.
  split; [|by vm_compute].
  exact (one_live_deployment _ _ _ _ _ _ _ _ _ _ Launch.none_live Launch.to_redeployed).
Defined.

Lemma one_approved_configuration_witness :
  configs_ok (site_configs Launch.reviewed)
  ∧ cf_status <$> site_configs Launch.reviewed !! 1 = Some scs_approved.
Proof.
  split; [|by vm_compute].
  exact (one_approved_configuration _ _ _ _ _ _ _ _ _ _ Launch.no_configs Launch.to_reviewed).
Defined.

Lemma property_stands_for_one_opportunity_witness :
  one_property Launch.reviewed ∧ opportunity_of Launch.reviewed !! "p"%string = Some 1.
Proof.
  split; [|by vm_compute].
  exact (proj1 (property_stands_for_one_opportunity _ _ _ _ _ _ _ _ _ _
    Launch.no_properties Launch.to_reviewed)).
Defined.

Lemma version_log_is_complete_witness :
  log_complete (property_versions Launch.reviewed) (current_of Launch.reviewed)
  ∧ current_of Launch.reviewed !! "p"%string = Some 3.
Proof.
  split; [|by vm_compute].
  exact (version_log_is_complete _ _ _ _ _ _ _ _ _ _ Launch.no_log Launch.to_reviewed).
Defined.

Lemma verification_is_evidenced_witness :
  evidence_ok Launch.reviewed
  ∧ rg_status <$> domain_registrations Launch.reviewed !! 1 = Some dr_dns_verified
  ∧ cp_status <$> compliance_reviews Launch.reviewed !! 1 = Some cmp_approved.
Proof.
  split; [|by vm_compute].
  exact (verification_is_evidenced _ _ _ _ _ _ _ _ _ _ Launch.no_evidence Launch.to_reviewed).
Defined.

Lemma sites_show_the_active_provider_witness :
  ∃ a, provider_assignments Launch.served !! 1 = Some a ∧ as_status a = active
    ∧ provider_runtime Launch.served !! "file:///srv/p"%string
      = Some (provider_payload Launch.text 1 a).
Proof.
  destruct (sites_show_the_active_provider Launch.text Launch.directory 1 "p" "go" Launch.ana 21
    Launch.assigned tt Launch.served (or_introl Launch.served_run))
    as (_ & a & Ha & Hs & _ & _ & Hw).
  exists a. split; [exact Ha|]. split; [exact Hs|].
  destruct Launch.live_site as (d & Hd & Hl & Hu).
  pose proof (Launch.provider_property a Ha) as Hp.
  apply (Hw 2 d); [exact Hd|rewrite Hp; exact Hl|rewrite Hu; exact eq_refl].
Defined.

(** ** Two observations *)
Module Observations.
Import Launch.

(** A brand that is the city and the service gives the same domain twice, and the
    unique constraint refuses the whole request. *)
Definition plain := (create_property gate sha dumps 1
  {| pc_neutral_brand := "Denver Plumbing"; pc_property_id := Some "p"%string;
     pc_public_tracking_number := None; pc_public_contact_email := None;
     pc_analytics_config := [] |} ana db0).2.
Lemma repeated_domain_is_refused :
  (generate_domain_candidates "p" {| dg_limit := 12; dg_tlds := ["com"]%string |} plain).1
  = Raise IntegrityError.
Proof. by vm_compute. Qed.

(** Rejecting the approved configuration leaves the property pointing at it. *)
Lemma rejected_configuration_stays_active :
  let db := (review_site_config 1 false "wrong price" ana 30 approved).2 in
  cf_status <$> site_configs db !! 1 = Some scs_draft
  ∧ pr_active_site_config_version <$> properties db !! "p"%string = Some (Some 1).
Proof. by vm_compute. Qed.
End Observations.
