(* ===== verification/BlobStorage.v ===== *)
(** * BlobStorage: the write-once blob stores of storage/blobs.py

    A blob store keeps immutable blobs under slash-separated keys.  The interface
    [BlobStore] has the operations of the protocol of the same name, with [put]
    cut where another writer can come in between: after the store looked whether
    the key exists and before the atomic creation of the blob.  The file system
    store and the S3 store are its instances; the abstract store they promise to
    be is [Spec]. *)
From S2P Require Import Prelude.
From Stdlib Require Import Strings.Byte.

Abbreviation bytes := (list Byte.byte).
Abbreviation path := (list string).

(** ** Keys *)

(** [s.split(c)] *)
Fixpoint split_on (c : Ascii.ascii) (s : string) : list string :=
  match s with
  | EmptyString => [EmptyString]
  | String a s' =>
      if Ascii.eqb a c then EmptyString :: split_on c s'
      else match split_on c s' with
           | w :: l => String a w :: l
           | [] => [String a EmptyString]
           end
  end.

Definition slash : Ascii.ascii := Ascii.ascii_of_nat 47.

(** [PurePosixPath(key).parts] of a relative key: empty and "." parts vanish. *)
Definition path_parts (key : string) : path :=
  List.filter (λ w, negb (bool_decide (w = ""%string)) && negb (bool_decide (w = "."%string)))
    (split_on slash key).

Definition is_absolute (key : string) : bool :=
  match key with String a _ => Ascii.eqb a slash | EmptyString => false end.

Definition dotdot : string := "..".

(** [_safe_relative_key]: [None] is the error *)
Definition _safe_relative_key (key : string) : option path :=
  let parts := path_parts key in
  if bool_decide (key = ""%string) || is_absolute key
     || existsb (λ w, bool_decide (w = ""%string) || bool_decide (w = "."%string)
                      || bool_decide (w = dotdot)) parts
  then None else Some parts.

(** [as_posix()] *)
Definition as_posix (p : path) : string :=
  match p with
  | [] => "."
  | w :: l => foldl (λ s x, s +:+ "/" +:+ x) w l
  end.

(** ** The protocol *)

Inductive blob_error : Type :=
| BlobStoreError
| ImmutableBlobError
| BlobMissing
| StorageError.

Record BlobInfo : Type := {
  bi_key : string;
  bi_checksum : string;
  bi_size_bytes : Z;
  bi_content_type : string
}.

Definition blob_size (d : bytes) : Z := Z.of_nat (length d).

Class BlobStore (S : Type) : Type := {
  (** a blob about to be created *)
  pending : Type;
  put_begin : string → bytes → string → M S blob_error (BlobInfo + pending);
  put_commit : pending → M S blob_error BlobInfo;
  blob_get : string → M S blob_error bytes;
  blob_exists : string → M S blob_error bool;
  blob_delete : string → M S blob_error unit;
  blob_checksum : string → M S blob_error string
}.
#[global] Hint Mode BlobStore ! : typeclass_instances.

Definition blob_put {S} `{BlobStore S} (key : string) (data : bytes) (content_type : string)
    : M S blob_error BlobInfo :=
  put_begin key data content_type ≫= λ r,
  match r with
  | inl info => mret info
  | inr p => put_commit p
  end.

(** ** The abstract store: a map written once per key

    What the protocol promises, whatever the back end: a key that names nothing
    is created with the data, one that names a blob of the same checksum is left
    alone, any other [put] is refused. *)

Inductive blob_op : Type :=
| op_put (key : string) (data : bytes) (content_type : string)
| op_get (key : string)
| op_exists (key : string)
| op_delete (key : string)
| op_checksum (key : string).

Inductive blob_answer : Type :=
| ans_stored (checksum : string)
| ans_data (data : bytes)
| ans_bool (b : bool)
| ans_done
| ans_checksum (checksum : string).

Section operations.
Context {S : Type} `{BlobStore S}.

Definition run_op (o : blob_op) : M S blob_error blob_answer :=
  match o with
  | op_put key data ct => blob_put key data ct ≫= λ i, mret (ans_stored (bi_checksum i))
  | op_get key => blob_get key ≫= λ d, mret (ans_data d)
  | op_exists key => blob_exists key ≫= λ b, mret (ans_bool b)
  | op_delete key => blob_delete key ≫= λ _, mret ans_done
  | op_checksum key => blob_checksum key ≫= λ c, mret (ans_checksum c)
  end.

(** Every operation of a list, with the answer each one got. *)
Fixpoint run_ops (l : list blob_op) (s : S)
    : list (blob_op * result blob_error blob_answer) * S :=
  match l with
  | [] => ([], s)
  | o :: l' =>
      let '(r, s1) := run_op o s in
      let '(rs, s2) := run_ops l' s1 in ((o, r) :: rs, s2)
  end.
End operations.

(** What a store holds, by path. *)
Abbreviation view := (path → option bytes).

Definition op_key (o : blob_op) : string :=
  match o with
  | op_put key _ _ | op_get key | op_exists key | op_delete key | op_checksum key => key
  end.

Section spec.
Context (sha256 : bytes → string).

(** What an operation on the path [p] does to the map and answers. *)
Definition spec_put (p : path) (data : bytes) : M (gmap path bytes) blob_error blob_answer :=
  λ v, match v !! p with
       | None => (Ok (ans_stored (sha256 data)), <[p := data]> v)
       | Some d =>
           if bool_decide (sha256 d = sha256 data) then (Ok (ans_stored (sha256 data)), v)
           else (Raise ImmutableBlobError, v)
       end.

Definition spec_op (o : blob_op) : M (gmap path bytes) blob_error blob_answer :=
  get_or_raise (λ _, _safe_relative_key (op_key o)) BlobStoreError ≫= λ p,
  match o with
  | op_put _ data _ => spec_put p data
  | op_get _ => get_or_raise (λ v, v !! p) BlobMissing ≫= λ d, mret (ans_data d)
  | op_exists _ => gets (λ v : gmap path bytes, ans_bool (bool_decide (is_Some (v !! p))))
  | op_delete _ => modify (delete p) ≫= λ _, mret ans_done
  | op_checksum _ => get_or_raise (λ v, v !! p) BlobMissing ≫= λ d,
                     mret (ans_checksum (sha256 d))
  end.
End spec.

(** ** FilesystemBlobStore *)

Inductive node : Type := NFile (d : bytes) | NDir.

(** The tree under the store's root, which always exists, and the temporary
    files of writers under way.  A temporary file lies beside its target under a
    name [mkstemp] found unused and no key names, so they are kept apart. *)
Record Fs : Type := {
  fs_nodes : gmap path node;
  fs_temps : gmap path bytes
}.
#[export] Instance eta_Fs : Eta Fs := λ r, Build_Fs (fs_nodes r) (fs_temps r).

Definition node_at (fs : Fs) (p : path) : option node :=
  match p with [] => Some NDir | _ => fs_nodes fs !! p end.

Definition is_nfile (n : option node) : bool :=
  match n with Some (NFile _) => true | _ => false end.

(** The non-empty prefixes of a path, itself included. *)
Fixpoint prefixes (p : path) : list path :=
  match p with [] => [] | w :: l => [w] :: map (cons w) (prefixes l) end.

Definition parent (p : path) : path := take (pred (length p)) p.

(** Opening a path that does not exist: a file on the way is another error. *)
Definition missing_error (fs : Fs) (p : path) : blob_error :=
  if existsb (λ q, is_nfile (node_at fs q)) (prefixes (parent p))
  then StorageError else BlobMissing.

(** [path.mkdir(parents=True, exist_ok=True)] *)
Definition mkdir_parents (p : path) : M Fs blob_error unit :=
  gets (λ fs, existsb (λ q, is_nfile (node_at fs q)) (prefixes p)) ≫= λ blocked,
  raise_if blocked StorageError ≫= λ _,
  modify (λ fs, fs <| fs_nodes ::= λ m, foldl (λ m y, <[y := NDir]> m) m (prefixes p) |>).

Record PendingFile : Type := {
  pf_key : string;
  pf_path : path;
  pf_temp : path;
  pf_data : bytes;
  pf_content_type : string
}.

Section filesystem.
Context (sha256 : bytes → string).
(** The name [tempfile.mkstemp] picks for a temporary file of this target. *)
Context (mkstemp : Fs → path → path).

(** [self._path(key)]; a path built from parts other than ".." lies under the root *)
Definition fs_path (key : string) : M Fs blob_error path :=
  get_or_raise (λ _, _safe_relative_key key) BlobStoreError.

(** [path.read_bytes()], and the read loop of [checksum] *)
Definition fs_read (p : path) : M Fs blob_error bytes :=
  gets (λ fs, node_at fs p) ≫= λ n,
  match n with
  | Some (NFile d) => mret d
  | Some NDir => raise StorageError
  | None => gets (λ fs, missing_error fs p) ≫= raise
  end.

Definition fs_get (key : string) : M Fs blob_error bytes := fs_path key ≫= fs_read.

Definition fs_checksum (key : string) : M Fs blob_error string :=
  fs_path key ≫= λ p, fs_read p ≫= λ d, mret (sha256 d).

Definition fs_exists (key : string) : M Fs blob_error bool :=
  fs_path key ≫= λ p, gets (λ fs, is_nfile (node_at fs p)).

(** [path.unlink(missing_ok=True)] *)
Definition fs_delete (key : string) : M Fs blob_error unit :=
  fs_path key ≫= λ p,
  gets (λ fs, node_at fs p) ≫= λ n,
  match n with
  | Some (NFile _) => modify (λ fs, fs <| fs_nodes ::= delete p |>)
  | Some NDir => raise StorageError
  | None =>
      gets (λ fs, missing_error fs p) ≫= λ e,
      match e with BlobMissing => mret tt | e => raise e end
  end.

(** [put] up to the complete temporary file. *)
Definition fs_put_begin (key : string) (data : bytes) (content_type : string)
    : M Fs blob_error (BlobInfo + PendingFile) :=
  fs_path key ≫= λ p,
  gets (λ fs, bool_decide (is_Some (node_at fs p))) ≫= λ (there : bool),
  if there then
    fs_checksum key ≫= λ actual,
    raise_if (negb (bool_decide (actual = sha256 data))) ImmutableBlobError ≫= λ _,
    fs_read p ≫= λ d,
    mret (inl {| bi_key := key; bi_checksum := actual; bi_size_bytes := blob_size d;
                 bi_content_type := content_type |})
  else
    mkdir_parents (parent p) ≫= λ _,
    gets (λ fs, mkstemp fs p) ≫= λ tmp,
    modify (λ fs, fs <| fs_temps ::= insert tmp data |>) ≫= λ _,
    mret (inr {| pf_key := key; pf_path := p; pf_temp := tmp; pf_data := data;
                 pf_content_type := content_type |}).

(** [os.link] and the [finally] block. *)
Definition fs_link (q : PendingFile) : M Fs blob_error unit :=
  get_or_raise (λ fs, fs_temps fs !! pf_temp q) StorageError ≫= λ d,
  gets (λ fs, bool_decide (is_Some (node_at fs (pf_path q)))) ≫= λ (there : bool),
  if there then
    fs_checksum (pf_key q) ≫= λ actual,
    raise_if (negb (bool_decide (actual = sha256 (pf_data q)))) ImmutableBlobError
  else modify (λ fs, fs <| fs_nodes ::= insert (pf_path q) (NFile d) |>).

Definition fs_unlink_temp (q : PendingFile) (fs : Fs) : Fs :=
  fs <| fs_temps ::= delete (pf_temp q) |>.

(** [try: m finally: f] *)
Definition finally {S E A} (m : M S E A) (f : S → S) : M S E A :=
  λ s, let '(r, s') := m s in (r, f s').

Definition fs_put_commit (q : PendingFile) : M Fs blob_error BlobInfo :=
  finally (fs_link q) (fs_unlink_temp q) ≫= λ _,
  mret {| bi_key := pf_key q; bi_checksum := sha256 (pf_data q);
          bi_size_bytes := blob_size (pf_data q); bi_content_type := pf_content_type q |}.

Definition FilesystemBlobStore : BlobStore Fs := {|
  pending := PendingFile;
  put_begin := fs_put_begin;
  put_commit := fs_put_commit;
  blob_get := fs_get;
  blob_exists := fs_exists;
  blob_delete := fs_delete;
  blob_checksum := fs_checksum
|}.
End filesystem.

(** ** S3BlobStore *)

(** What the S3 client answers; [code] is the error code of the service. *)
Inductive s3_error : Type := ClientError (code : string).

Record S3Head : Type := {
  h_metadata_sha256 : option string;
  h_content_length : option Z;
  h_content_type : option string
}.

Record S3Put : Type := {
  sp_bucket : string;
  sp_key : string;
  sp_body : bytes;
  sp_content_type : string;
  sp_sha256 : string;
  sp_encryption : option string
}.

(** The calls of the boto3 client the store makes; [put_object] is always sent with
    [IfNoneMatch="*"]. *)
Class S3Client (C : Type) : Type := {
  head_object : string → string → M C s3_error S3Head;
  put_object : S3Put → M C s3_error unit;
  get_object : string → string → M C s3_error bytes;
  delete_object : string → string → M C s3_error unit
}.

Record S3Config : Type := {
  s3_bucket : string;
  s3_prefix : string;
  s3_server_side_encryption : option string
}.

Fixpoint lstrip_char (c : Ascii.ascii) (s : string) : string :=
  match s with
  | String a s' => if Ascii.eqb a c then lstrip_char c s' else s
  | EmptyString => EmptyString
  end.

Fixpoint rstrip_char (c : Ascii.ascii) (s : string) : string :=
  match s with
  | EmptyString => EmptyString
  | String a s' =>
      match rstrip_char c s' with
      | EmptyString => if Ascii.eqb a c then EmptyString else String a EmptyString
      | s'' => String a s''
      end
  end.

(** [S3BlobStore.__init__]: [None] is the error for a blank bucket *)
Definition s3_config (bucket prefix : string) (encryption : option string)
    : option S3Config :=
  if str_truthy (py_strip bucket)
  then Some {| s3_bucket := bucket;
               s3_prefix := rstrip_char slash (lstrip_char slash prefix);
               s3_server_side_encryption := str_or encryption None |}
  else None.

Record PendingObject : Type := {
  po_key : string;
  po_put : S3Put
}.

Definition not_found_code (c : string) : bool :=
  bool_decide (c ∈ ["404"; "NoSuchKey"; "NotFound"]%string).

Definition precondition_code (c : string) : bool :=
  bool_decide (c ∈ ["409"; "412"; "ConditionalRequestConflict"; "PreconditionFailed"]%string).

Section s3.
Context {C : Type} `{S3Client C} (sha256 : bytes → string) (cfg : S3Config).

Definition s3_full_key (p : path) : string :=
  if str_truthy (s3_prefix cfg) then s3_prefix cfg +:+ "/" +:+ as_posix p else as_posix p.

Definition s3_key (key : string) : M C blob_error string :=
  get_or_raise (λ _, _safe_relative_key key) BlobStoreError ≫= λ p, mret (s3_full_key p).

Definition of_s3_error (e : s3_error) : blob_error :=
  let '(ClientError code) := e in
  if not_found_code code then BlobMissing else StorageError.

(** [try: x = m except ClientError as exc: h(exc) else: k(x)] *)
Definition try_except {A B} (m : M C s3_error A) (k : A → M C blob_error B)
    (h : s3_error → M C blob_error B) : M C blob_error B :=
  λ c, match m c with
       | (Ok a, c') => k a c'
       | (Raise e, c') => h e c'
       end.

Definition s3_call {A} (m : M C s3_error A) : M C blob_error A := reraise of_s3_error m.

(** [_head]: [None] when the service knows no such object *)
Definition s3_head (key : string) : M C blob_error (option S3Head) :=
  s3_key key ≫= λ k,
  try_except (head_object (s3_bucket cfg) k) (λ h, mret (Some h))
    (λ '(ClientError code),
       if not_found_code code then mret None else raise StorageError).

Definition s3_get (key : string) : M C blob_error bytes :=
  s3_key key ≫= λ k, s3_call (get_object (s3_bucket cfg) k).

Definition s3_checksum (key : string) : M C blob_error string :=
  s3_get key ≫= λ d, mret (sha256 d).

Definition s3_exists (key : string) : M C blob_error bool :=
  s3_head key ≫= λ h, mret (bool_decide (is_Some h)).

Definition s3_delete (key : string) : M C blob_error unit :=
  s3_key key ≫= λ k, s3_call (delete_object (s3_bucket cfg) k).

(** [str(metadata.get("sha256") or self.checksum(key))] *)
Definition s3_actual_checksum (key : string) (h : S3Head) : M C blob_error string :=
  match h_metadata_sha256 h with
  | Some s => if str_truthy s then mret s else s3_checksum key
  | None => s3_checksum key
  end.

Definition int_or (z : option Z) (default : Z) : Z :=
  match z with Some n => if n =? 0 then default else n | None => default end.

(** The answer about an object that exists already. *)
Definition s3_existing (key : string) (h : S3Head) (data : bytes) (content_type : string)
    : M C blob_error BlobInfo :=
  s3_actual_checksum key h ≫= λ actual,
  raise_if (negb (bool_decide (actual = sha256 data))) ImmutableBlobError ≫= λ _,
  mret {| bi_key := key; bi_checksum := actual;
          bi_size_bytes := int_or (h_content_length h) (blob_size data);
          bi_content_type := default content_type (str_or (h_content_type h) None) |}.

Definition s3_put_begin (key : string) (data : bytes) (content_type : string)
    : M C blob_error (BlobInfo + PendingObject) :=
  s3_head key ≫= λ (h : option S3Head),
  match h with
  | Some h => s3_existing key h data content_type ≫= λ i, mret (inl i)
  | None =>
      s3_key key ≫= λ k,
      mret (inr {| po_key := key;
                   po_put := {| sp_bucket := s3_bucket cfg; sp_key := k; sp_body := data;
                                sp_content_type := content_type; sp_sha256 := sha256 data;
                                sp_encryption := s3_server_side_encryption cfg |} |})
  end.

Definition s3_put_commit (q : PendingObject) : M C blob_error BlobInfo :=
  let r := po_put q in
  try_except (put_object r)
    (λ _, mret {| bi_key := po_key q; bi_checksum := sp_sha256 r;
                  bi_size_bytes := blob_size (sp_body r);
                  bi_content_type := sp_content_type r |})
    (λ '(ClientError code),
       if precondition_code code then
         s3_head (po_key q) ≫= λ (h : option S3Head),
         match h with
         | None => raise StorageError
         | Some h => s3_existing (po_key q) h (sp_body r) (sp_content_type r)
         end
       else raise StorageError).

Definition S3BlobStore : BlobStore C := {|
  pending := PendingObject;
  put_begin := s3_put_begin;
  put_commit := s3_put_commit;
  blob_get := s3_get;
  blob_exists := s3_exists;
  blob_delete := s3_delete;
  blob_checksum := s3_checksum
|}.
End s3.
