(* ===== verification/BlobStorageProofs.v ===== *)
(** * BlobStorageProofs: both blob stores are write-once maps

    [BlobStoreLaws] is what the rest of the program may assume of a store; the
    file system store and the S3 store (over a client with the documented
    behaviour of the service, [S3Laws]) satisfy it.  From the laws alone follow
    the refinement of the abstract store and immutability under races. *)
From S2P Require Import Prelude.
From S2P Require Import BlobStorage.

(** ** Keys and object names *)

Definition good_part (w : string) : bool :=
  negb (bool_decide (w = ""%string)) && negb (bool_decide (w = "."%string))
  && negb (bool_decide (w = dotdot)) && bool_decide (split_on slash w = [w]).

Definition valid_path (p : path) : bool := forallb good_part p.

Lemma split_on_parts c s w : w ∈ split_on c s → split_on c w = [w].
Proof.
  revert w. induction s as [|a s IH]; intros w; simpl.
  - by intros ->%list_elem_of_singleton.
  - destruct (Ascii.eqb a c) eqn:Ha.
    + intros [->|Hw]%elem_of_cons; [done|by apply IH].
    + destruct (split_on c s) as [|x l] eqn:Hs.
      * intros ->%list_elem_of_singleton. simpl. by rewrite Ha.
      * intros [->|Hw]%elem_of_cons; [|apply IH; by right].
        simpl. rewrite Ha, (IH x ltac:(left)). done.
Qed.

Lemma safe_key_valid key p : _safe_relative_key key = Some p → valid_path p = true.
Proof.
  unfold _safe_relative_key.
  destruct (_ || _ || existsb _ _) eqn:Hb; [done|]. intros [= <-].
  apply orb_false_iff in Hb as [_ Hparts]. unfold valid_path. apply forallb_forall.
  intros w Hw. unfold good_part.
  assert ((bool_decide (w = "") || bool_decide (w = ".") || bool_decide (w = dotdot))%string
          = false) as Hc.
  { destruct (_ || _ || _) eqn:Hc; [|done].
    assert (existsb (λ w, bool_decide (w = ""%string) || bool_decide (w = "."%string)
      || bool_decide (w = dotdot)) (path_parts key) = true) as Hx; [|congruence].
    apply existsb_exists. by exists w. }
  apply orb_false_iff in Hc as [[Hc1 Hc2]%orb_false_iff Hc3]. rewrite Hc1, Hc2, Hc3. simpl.
  apply bool_decide_eq_true. unfold path_parts in Hw. apply filter_In in Hw as [Hw _].
  eapply split_on_parts. by apply list_elem_of_In.
Qed.

Lemma split_on_slash (w s : string) :
  split_on slash w = [w] → split_on slash (w +:+ String slash s) = w :: split_on slash s.
Proof.
  induction w as [|a w IH]; simpl; [done|]. destruct (Ascii.eqb a slash) eqn:Ha; [done|].
  destruct (split_on slash w) as [|x l] eqn:Hw; [by destruct w; simpl in Hw; repeat case_match|].
  intros [= -> ->]. by rewrite IH.
Qed.

Lemma append_inj_l (s s1 s2 : string) : s +:+ s1 = s +:+ s2 → s1 = s2.
Proof. induction s as [|a s IH]; [done|]. intros [= H]. by apply IH. Qed.

Fixpoint posix_tail (l : path) : string :=
  match l with [] => "" | w :: l' => String slash (w +:+ posix_tail l') end.

Lemma as_posix_cons w l : as_posix (w :: l) = w +:+ posix_tail l.
Proof.
  simpl. revert w. induction l as [|x l IH]; intros w; simpl; [by rewrite append_nil|].
  rewrite IH, !append_assoc. done.
Qed.

Lemma good_part_split w : good_part w = true → split_on slash w = [w].
Proof. unfold good_part. intros H. bools. done. Qed.

Lemma split_as_posix w l :
  valid_path (w :: l) = true → split_on slash (as_posix (w :: l)) = w :: l.
Proof.
  rewrite as_posix_cons. revert w. induction l as [|x l IH]; intros w Hv.
  - cbn in Hv. bools. cbn. rewrite append_nil. by apply good_part_split.
  - cbn [valid_path forallb] in Hv. apply andb_true_iff in Hv as [Hw Hv]. cbn [posix_tail].
    rewrite split_on_slash by by apply good_part_split. f_equal. by apply IH.
Qed.

Lemma as_posix_inj p q :
  valid_path p = true → valid_path q = true → as_posix p = as_posix q → p = q.
Proof.
  intros Hp Hq Heq. destruct p as [|w p], q as [|x q]; [done| | |].
  - pose proof (split_as_posix x q Hq) as Hs. rewrite <- Heq in Hs. cbn in Hs.
    injection Hs as <- <-. by cbn in Hq.
  - pose proof (split_as_posix w p Hp) as Hs. rewrite Heq in Hs. cbn in Hs.
    injection Hs as <- <-. by cbn in Hp.
  - pose proof (split_as_posix w p Hp) as Hs. rewrite Heq, split_as_posix in Hs by done.
    by rewrite Hs.
Qed.

Lemma full_key_inj cfg p q :
  valid_path p = true → valid_path q = true → s3_full_key cfg p = s3_full_key cfg q → p = q.
Proof.
  intros Hp Hq. unfold s3_full_key. destruct (str_truthy _); intros Heq;
    [apply append_inj_l in Heq; apply (append_inj_l "/") in Heq|]; by apply as_posix_inj.
Qed.

(** ** What the program may assume of a store *)

Class BlobStoreLaws (S : Type) `{BlobStore S} (sha256 : bytes → string) : Type := {
  holds : S → view;
  (** the store is sound, with these writers under way *)
  blobs_ok : list pending → S → Prop;
  pending_path : pending → path;
  pending_data : pending → bytes;
  pending_type : pending → string;
  (** the content type the store reports for an existing blob, if it keeps one *)
  type_of : S → path → option string;
  begin_law l key data ct s r s' :
    blobs_ok l s → put_begin key data ct s = (r, s') →
    (∀ p, holds s' p = holds s p ∧ type_of s' p = type_of s p) ∧
    blobs_ok match r with Ok (inr q) => q :: l | _ => l end s' ∧
    match _safe_relative_key key with
    | None => r = Raise BlobStoreError
    | Some p =>
        match r with
        | Ok (inl i) => ∃ d, holds s p = Some d ∧ sha256 d = sha256 data
                             ∧ bi_checksum i = sha256 data
                             ∧ (bi_size_bytes i = blob_size d ∨ bi_size_bytes i = blob_size data)
                             ∧ bi_content_type i = default ct (type_of s p)
        | Ok (inr q) => pending_path q = p ∧ pending_data q = data ∧ pending_type q = ct
        | Raise e => e = StorageError
                     ∨ e = ImmutableBlobError ∧ ∃ d, holds s p = Some d ∧ sha256 d ≠ sha256 data
        end
    end;
  commit_law l1 q l2 s r s' :
    let p := pending_path q in
    let data := pending_data q in
    let stored := holds s p = None ∧ ∀ x, holds s' x = if decide (x = p) then Some data
                                                       else holds s x in
    let same := ∀ x, holds s' x = holds s x in
    blobs_ok (l1 ++ q :: l2) s → put_commit q s = (r, s') →
    blobs_ok (l1 ++ l2) s' ∧
    match r with
    | Ok i => bi_checksum i = sha256 data
              ∧ (stored ∧ bi_size_bytes i = blob_size data ∧ bi_content_type i = pending_type q
                 ∨ same ∧ ∃ d, holds s p = Some d ∧ sha256 d = sha256 data
                     ∧ (bi_size_bytes i = blob_size d ∨ bi_size_bytes i = blob_size data)
                     ∧ bi_content_type i = default (pending_type q) (type_of s p))
    | Raise e => e = StorageError ∧ (same ∨ stored)
                 ∨ e = ImmutableBlobError ∧ same ∧ ∃ d, holds s p = Some d ∧ sha256 d ≠ sha256 data
    end;
  crash_law l1 q l2 s : blobs_ok (l1 ++ q :: l2) s → blobs_ok (l1 ++ l2) s;
  get_law l key s r s' :
    blobs_ok l s → blob_get key s = (r, s') →
    (∀ x, holds s' x = holds s x) ∧ blobs_ok l s' ∧
    match _safe_relative_key key with
    | None => r = Raise BlobStoreError
    | Some p =>
        match r with
        | Ok d => holds s p = Some d
        | Raise e => e = StorageError ∨ e = BlobMissing ∧ holds s p = None
        end
    end;
  exists_law l key s r s' :
    blobs_ok l s → blob_exists key s = (r, s') →
    (∀ x, holds s' x = holds s x) ∧ blobs_ok l s' ∧
    match _safe_relative_key key with
    | None => r = Raise BlobStoreError
    | Some p => r = Raise StorageError ∨ r = Ok (bool_decide (is_Some (holds s p)))
    end;
  checksum_law l key s r s' :
    blobs_ok l s → blob_checksum key s = (r, s') →
    (∀ x, holds s' x = holds s x) ∧ blobs_ok l s' ∧
    match _safe_relative_key key with
    | None => r = Raise BlobStoreError
    | Some p =>
        match r with
        | Ok c => ∃ d, holds s p = Some d ∧ c = sha256 d
        | Raise e => e = StorageError ∨ e = BlobMissing ∧ holds s p = None
        end
    end;
  delete_law l key s r s' :
    blobs_ok l s → blob_delete key s = (r, s') →
    blobs_ok l s' ∧
    match _safe_relative_key key with
    | None => r = Raise BlobStoreError ∧ ∀ x, holds s' x = holds s x
    | Some p =>
        let gone := ∀ x, holds s' x = if decide (x = p) then None else holds s x in
        let same := ∀ x, holds s' x = holds s x in
        match r with
        | Ok _ => gone
        | Raise e => e = StorageError ∧ (same ∨ gone)
        end
    end
}.
#[global] Hint Mode BlobStoreLaws ! - - : typeclass_instances.

(** ** What follows from the laws *)

Section laws.
Context {S : Type} `{HS : BlobStore S} {sha256 : bytes → string}.
Context {HL : BlobStoreLaws S sha256}.
Implicit Types (s : S) (v : gmap path bytes) (o : blob_op).

(** A whole [put]. *)
Lemma put_law key data ct s r s' :
  blobs_ok [] s → blob_put key data ct s = (r, s') →
  blobs_ok [] s' ∧
  match _safe_relative_key key with
  | None => r = Raise BlobStoreError ∧ ∀ x, holds s' x = holds s x
  | Some p =>
      let stored := holds s p = None ∧ ∀ x, holds s' x = if decide (x = p) then Some data
                                                         else holds s x in
      let same := ∀ x, holds s' x = holds s x in
      match r with
      | Ok i => bi_checksum i = sha256 data
                ∧ (stored ∧ bi_size_bytes i = blob_size data ∧ bi_content_type i = ct
                   ∨ same ∧ ∃ d, holds s p = Some d ∧ sha256 d = sha256 data
                       ∧ (bi_size_bytes i = blob_size d ∨ bi_size_bytes i = blob_size data)
                       ∧ bi_content_type i = default ct (type_of s p))
      | Raise e => e = StorageError ∧ (same ∨ stored)
                   ∨ e = ImmutableBlobError ∧ same
                     ∧ ∃ d, holds s p = Some d ∧ sha256 d ≠ sha256 data
      end
  end.
Proof.
  intros Hok. unfold blob_put, mbind, M_bind.
  destruct (put_begin key data ct s) as [[[i|q]|e] s1] eqn:Hb;
    apply begin_law with (l := []) in Hb as (Hh & Hok1 & Hb); try done.
  - intros [= <- <-]. split; [done|].
    assert (∀ x, holds s1 x = holds s x) as Hsame by (intros x; apply Hh).
    destruct (_safe_relative_key key) as [p|]; [|done].
    destruct Hb as (d & Hd & Hc & Hi & Hsz & Hty). split; [done|]. right. split; [done|].
    by exists d.
  - intros Hc. apply (commit_law [] q []) in Hc as (Hok2 & Hc); [|done]. split; [done|].
    destruct (_safe_relative_key key) as [p|]; [|done]. destruct Hb as (Hp & Hd & Ht).
    rewrite Hp, Hd, Ht in Hc. rewrite (proj2 (Hh p)) in Hc.
    assert (∀ x, holds s' x = holds s1 x → holds s' x = holds s x) as Htr
      by (intros x ->; apply Hh).
    assert (holds s1 p = None ∧ (∀ x, holds s' x = if decide (x = p) then Some data
                                                 else holds s1 x) →
            holds s p = None ∧ (∀ x, holds s' x = if decide (x = p) then Some data
                                                 else holds s x)) as Hst.
    { intros [Hn Hx]. rewrite (proj1 (Hh p)) in Hn. split; [done|]. intros x.
      rewrite Hx. destruct (decide (x = p)); [done|]. apply Hh. }
    rewrite (proj1 (Hh p)) in Hc, Hst.
    destruct r as [i|e]; naive_solver.
  - intros [= <- <-]. split; [done|].
    assert (∀ x, holds s1 x = holds s x) as Hsame by (intros x; apply Hh).
    destruct (_safe_relative_key key) as [p|]; [|by split; [congruence|]].
    destruct Hb as [->|[-> Hd]]; [left|right]; auto.
Qed.

(** The map [v] is what the store holds. *)
Definition represents s v : Prop := ∀ p, v !! p = holds s p.

Lemma map_run {A B} (m : M S blob_error A) (k : A → B) s r s' :
  (m ≫= λ a, mret (k a)) s = (r, s') →
  ∃ r0, m s = (r0, s') ∧ r = match r0 with Ok a => Ok (k a) | Raise e => Raise e end.
Proof. unfold mbind, M_bind. destruct (m s) as [[a|e] s1]; intros [= <- <-]; eauto. Qed.

(** What a run [r] that ends in [s'] may be, when the abstract store does [w] from [v]. *)
Definition does {A} (w : result blob_error A * gmap path bytes) v (r : result blob_error A) s'
    : Prop :=
  ∃ v', represents s' v' ∧ (w = (r, v') ∨ r = Raise StorageError ∧ (v' = v ∨ v' = w.2)).

Lemma does_same {A} s s' v (r : result blob_error A) :
  represents s v → (∀ x, holds s' x = holds s x) → does (r, v) v r s'.
Proof. intros Hv Hs. exists v. split; [intros x; by rewrite Hs|by left]. Qed.

Lemma does_failed {A} s s' v (w : result blob_error A * gmap path bytes) :
  represents s v → (∀ x, holds s' x = holds s x) → does w v (Raise StorageError) s'.
Proof. intros Hv Hs. exists v. split; [intros x; by rewrite Hs|right; auto]. Qed.

Lemma represents_update s s' v p w :
  represents s v → (∀ x, holds s' x = if decide (x = p) then w else holds s x) →
  represents s' (partial_alter (λ _, w) p v).
Proof.
  intros Hv Hw x. rewrite Hw, lookup_partial_alter.
  destruct (decide (x = p)) as [->|]; [by rewrite decide_True|by rewrite decide_False].
Qed.

Lemma put_refines key data ct s v r s' :
  blobs_ok [] s → represents s v → run_op (op_put key data ct) s = (r, s') →
  blobs_ok [] s' ∧ does (spec_op sha256 (op_put key data ct) v) v r s'.
Proof.
  intros Hok Hv (r0 & Hr0 & ->)%map_run. apply put_law in Hr0 as [Hok' Hr]; [|done]. split; [done|].
  unfold spec_op. simpl. rewrite bind_get_or_raise.
  destruct (_safe_relative_key key) as [p|];
    [|destruct Hr as [-> Hs]; by eapply does_same].
  unfold spec_put. rewrite (Hv p). destruct r0 as [i|e].
  - destruct Hr as (-> & [((Hn & Hx) & _)|(Hs & d & Hd & Hc & _)]).
    + exists (<[p := data]> v). split; [by apply represents_update with s|]. left. by rewrite Hn.
    + rewrite Hd, bool_decide_eq_true_2 by done. by eapply does_same.
  - destruct Hr as [[-> [Hs|[Hn Hx]]]|(-> & Hs & d & Hd & Hc)].
    + by eapply does_failed.
    + exists (<[p := data]> v). split; [by apply represents_update with s|]. right.
      split; [done|]. right. by rewrite Hn.
    + rewrite Hd, bool_decide_eq_false_2 by done. by eapply does_same.
Qed.

Lemma delete_refines key s v r s' :
  blobs_ok [] s → represents s v → run_op (op_delete key) s = (r, s') →
  blobs_ok [] s' ∧ does (spec_op sha256 (op_delete key) v) v r s'.
Proof.
  intros Hok Hv (r0 & Hr0 & ->)%map_run. apply delete_law with (l := []) in Hr0 as (Hok' & Hr); [|done]. split; [done|].
  unfold spec_op. simpl. rewrite bind_get_or_raise.
  destruct (_safe_relative_key key) as [p|];
    [|destruct Hr as [-> Hs]; by eapply does_same].
  destruct r0 as [[]|e].
  - exists (delete p v). split; [by apply represents_update with s|by left].
  - destruct Hr as [-> [Hs|Hx]]; [by eapply does_failed|].
    exists (delete p v). split; [by apply represents_update with s|]. right. auto.
Qed.

(** One operation does what the abstract store does, or reports an error of the
    storage, in which case it took effect or did not. *)
Lemma op_refines o s v r s' :
  blobs_ok [] s → represents s v → run_op o s = (r, s') →
  blobs_ok [] s' ∧ does (spec_op sha256 o v) v r s'.
Proof.
  intros Hok Hv.
  destruct o as [key data ct|key|key|key|key];
    [by apply put_refines| | |by apply delete_refines|];
    intros (r0 & Hr0 & ->)%map_run; unfold spec_op; simpl; rewrite bind_get_or_raise.
  - apply get_law with (l := []) in Hr0 as (Hs & Hok' & Hr); [|done]. split; [done|].
    destruct (_safe_relative_key key) as [p|]; [|rewrite Hr; by eapply does_same].
    rewrite bind_get_or_raise, (Hv p). destruct r0 as [d|e].
    + rewrite Hr. by eapply does_same.
    + destruct Hr as [->|[-> ->]]; [by eapply does_failed|by eapply does_same].
  - apply exists_law with (l := []) in Hr0 as (Hs & Hok' & Hr); [|done]. split; [done|].
    destruct (_safe_relative_key key) as [p|]; [|rewrite Hr; by eapply does_same].
    destruct Hr as [->| ->]; [by eapply does_failed|].
    unfold gets. rewrite <- (Hv p). by eapply does_same.
  - apply checksum_law with (l := []) in Hr0 as (Hs & Hok' & Hr); [|done]. split; [done|].
    destruct (_safe_relative_key key) as [p|]; [|rewrite Hr; by eapply does_same].
    rewrite bind_get_or_raise, (Hv p). destruct r0 as [c|e].
    + destruct Hr as (d & -> & ->). by eapply does_same.
    + destruct Hr as [->|[-> ->]]; [by eapply does_failed|by eapply does_same].
Qed.

(** The runs of the abstract store over storage that may fail: an operation that
    reports a storage error took effect or did not. *)
Inductive spec_runs : gmap path bytes → list (blob_op * result blob_error blob_answer)
    → gmap path bytes → Prop :=
| spec_done v : spec_runs v [] v
| spec_step v o r v1 l v2 :
    spec_op sha256 o v = (r, v1) → spec_runs v1 l v2 → spec_runs v ((o, r) :: l) v2
| spec_fault v o v1 l v2 :
    v1 = v ∨ v1 = (spec_op sha256 o v).2 → spec_runs v1 l v2 →
    spec_runs v ((o, Raise StorageError) :: l) v2.

Lemma run_refines l s v rs s' :
  blobs_ok [] s → represents s v → run_ops l s = (rs, s') →
  ∃ v', represents s' v' ∧ spec_runs v rs v'.
Proof.
  revert s v rs. induction l as [|o l IH]; intros s v rs Hok Hv; simpl.
  - intros [= <- <-]. exists v. split; [done|constructor].
  - destruct (run_op o s) as [r s1] eqn:Ho. destruct (run_ops l s1) as [rs1 s2] eqn:Hl.
    intros [= <- <-]. apply op_refines with (v := v) in Ho as (Hok1 & v1 & Hv1 & Ho); [|done..].
    destruct (IH s1 v1 rs1 Hok1 Hv1 Hl) as (v2 & Hv2 & Hr). exists v2. split; [done|].
    destruct Ho as [Ho|[-> Ho]]; [by eapply spec_step|by eapply spec_fault].
Qed.

(** ** Races *)

(** Writers and readers interleave; a writer may die before its commit. *)
Inductive race_step : S * list pending → S * list pending → Prop :=
| race_begin key data ct s l r s' :
    put_begin key data ct s = (r, s') →
    race_step (s, l) (s', match r with Ok (inr q) => q :: l | _ => l end)
| race_commit s l1 q l2 r s' :
    put_commit q s = (r, s') → race_step (s, l1 ++ q :: l2) (s', l1 ++ l2)
| race_crash s l1 q l2 : race_step (s, l1 ++ q :: l2) (s, l1 ++ l2)
| race_get key s l r s' : blob_get key s = (r, s') → race_step (s, l) (s', l)
| race_exists key s l r s' : blob_exists key s = (r, s') → race_step (s, l) (s', l)
| race_checksum key s l r s' : blob_checksum key s = (r, s') → race_step (s, l) (s', l).

Definition race_ok (c : S * list pending) : Prop := blobs_ok c.2 c.1.

Lemma race_keeps c c' p d :
  race_step c c' → race_ok c →
  race_ok c' ∧ (holds c.1 p = Some d → holds c'.1 p = Some d).
Proof.
  unfold race_ok. intros [key data ct s l r s' Hr|s l1 q l2 r s' Hr|s l1 q l2|key s l r s' Hr
    |key s l r s' Hr|key s l r s' Hr] Hok; simpl in *.
  - apply begin_law with (l := l) in Hr as (Hs & Hok' & _); [|done]. split; [done|].
    by rewrite (proj1 (Hs p)).
  - apply commit_law with (l1 := l1) (l2 := l2) in Hr as (Hok' & Hr); [|done]. split; [done|].
    intros Hd.
    assert (holds s (pending_path q) = None ∧ (∀ x, holds s' x =
      if decide (x = pending_path q) then Some (pending_data q) else holds s x) →
      holds s' p = Some d) as Hst.
    { intros [Hn Hx]. rewrite Hx. case_decide; [congruence|done]. }
    assert ((∀ x, holds s' x = holds s x) → holds s' p = Some d) as Hsame
      by (intros ->; done).
    destruct r as [i|e]; naive_solver.
  - split; [by eapply crash_law|done].
  - apply get_law with (l := l) in Hr as (Hs & Hok' & _); [|done]. by rewrite Hs.
  - apply exists_law with (l := l) in Hr as (Hs & Hok' & _); [|done]. by rewrite Hs.
  - apply checksum_law with (l := l) in Hr as (Hs & Hok' & _); [|done]. by rewrite Hs.
Qed.

Lemma races_keep c c' p d :
  rtc race_step c c' → race_ok c →
  race_ok c' ∧ (holds c.1 p = Some d → holds c'.1 p = Some d).
Proof.
  induction 1 as [c|c1 c2 c3 Hstep _ IH]; intros Hok; [by split|].
  destruct (race_keeps _ _ p d Hstep Hok) as [Hok2 H2]. destruct (IH Hok2). auto.
Qed.

(** A commit that succeeds in a race leaves a blob of its data's checksum. *)
Lemma commit_holds l1 q l2 s i s' :
  blobs_ok (l1 ++ q :: l2) s → put_commit q s = (Ok i, s') →
  bi_checksum i = sha256 (pending_data q)
  ∧ ∃ d, holds s' (pending_path q) = Some d ∧ sha256 d = sha256 (pending_data q).
Proof.
  intros Hok Hc. apply commit_law with (l1 := l1) (l2 := l2) in Hc as (_ & Hi & Hc); [|done].
  split; [done|]. destruct Hc as [((_ & Hx) & _)|(Hs & d & Hd & Hsha & _)].
  - exists (pending_data q). by rewrite Hx, decide_True.
  - exists d. by rewrite Hs.
Qed.
End laws.

(** ** The file system store satisfies the laws *)

Section filesystem_laws.
Context (sha256 : bytes → string) (mkstemp : Fs → path → path).
Hypothesis mkstemp_fresh : ∀ fs p, fs_temps fs !! mkstemp fs p = None.
Implicit Types (fs : Fs) (p : path) (q : PendingFile).
#[local] Existing Instance FilesystemBlobStore.
#[local] Instance fs_store : BlobStore Fs := FilesystemBlobStore sha256 mkstemp.

Definition fs_holds fs : view := λ p,
  match node_at fs p with Some (NFile d) => Some d | _ => None end.

(** Every node lies in a directory. *)
Definition tree_ok fs : Prop :=
  ∀ p n, fs_nodes fs !! p = Some n → node_at fs (parent p) = Some NDir.

Definition pending_ok fs q : Prop :=
  fs_temps fs !! pf_temp q = Some (pf_data q)
  ∧ _safe_relative_key (pf_key q) = Some (pf_path q)
  ∧ node_at fs (parent (pf_path q)) = Some NDir.

Definition fs_ok (l : list PendingFile) fs : Prop :=
  tree_ok fs ∧ NoDup (pf_temp <$> l) ∧ Forall (pending_ok fs) l.

Lemma holds_node fs p d : fs_holds fs p = Some d ↔ node_at fs p = Some (NFile d).
Proof. unfold fs_holds. destruct (node_at fs p) as [[]|]; naive_solver. Qed.

Lemma fs_read_run fs p :
  fs_read p fs
  = (match node_at fs p with
     | Some (NFile d) => Ok d | Some NDir => Raise StorageError
     | None => Raise (missing_error fs p) end, fs).
Proof. unfold fs_read. rewrite bind_gets. by destruct (node_at fs p) as [[]|]. Qed.

Lemma missing_cases fs p : missing_error fs p = StorageError ∨ missing_error fs p = BlobMissing.
Proof. unfold missing_error. case_match; auto. Qed.

Lemma fs_checksum_run key fs :
  fs_checksum sha256 key fs
  = (match _safe_relative_key key with
     | None => Raise BlobStoreError
     | Some p => match node_at fs p with
                 | Some (NFile d) => Ok (sha256 d) | Some NDir => Raise StorageError
                 | None => Raise (missing_error fs p) end end, fs).
Proof.
  unfold fs_checksum, fs_path. rewrite bind_get_or_raise.
  destruct (_safe_relative_key key) as [p|]; [|done].
  unfold mbind, M_bind. rewrite fs_read_run. by destruct (node_at fs p) as [[]|].
Qed.

Lemma node_at_insert fs p n x :
  p ≠ [] → node_at (fs <| fs_nodes ::= insert p n |>) x
           = if decide (x = p) then Some n else node_at fs x.
Proof.
  intros Hp. destruct x as [|w x].
  - by rewrite decide_False.
  - simpl. rewrite lookup_insert. repeat case_decide; congruence.
Qed.

Lemma node_at_delete fs p x :
  p ≠ [] → node_at (fs <| fs_nodes ::= delete p |>) x
           = if decide (x = p) then None else node_at fs x.
Proof.
  intros Hp. destruct x as [|w x].
  - by rewrite decide_False.
  - simpl. rewrite lookup_delete. repeat case_decide; congruence.
Qed.

Lemma elem_of_prefixes p x : x ∈ prefixes p ↔ x ≠ [] ∧ x `prefix_of` p.
Proof.
  revert x. induction p as [|w p IH]; intros x; simpl.
  - split; [by intros ?%not_elem_of_nil|]. by intros [? ?%prefix_nil_inv].
  - rewrite elem_of_cons, list_elem_of_fmap. split.
    + intros [->|(y & -> & [Hy Hp]%IH)]; (split; [done|]).
      * by apply prefix_cons, prefix_nil.
      * by apply prefix_cons.
    + intros [Hx Hp]. destruct x as [|w' x]; [done|].
      apply prefix_cons_inv_1 in Hp as Hw. apply prefix_cons_inv_2 in Hp as Hp'. subst w'.
      destruct x as [|y x]; [by left|]. right. exists (y :: x). split; [done|].
      apply IH. by split.
Qed.

Lemma parent_prefix p : parent p `prefix_of` p.
Proof. unfold parent. apply prefix_take. Qed.

Lemma parent_ne p : p ≠ [] → parent p ≠ p.
Proof.
  intros Hp Heq. apply (f_equal length) in Heq. unfold parent in Heq.
  rewrite length_take in Heq. destruct p; [done|]. simpl in Heq. lia.
Qed.

Lemma node_at_mkdir fs p x :
  node_at (fs <| fs_nodes ::= λ m, foldl (λ m y, <[y := NDir]> m) m (prefixes p) |>) x
  = if decide (x ∈ prefixes p) then Some NDir else node_at fs x.
Proof.
  assert (∀ (l : list path), [] ∉ l → ∀ (m : gmap path node) x, foldl (λ m y, <[y := NDir]> m) m l !! x
    = if decide (x ∈ l) then Some NDir else m !! x) as Hfold.
  { induction l as [|z l IH]; intros Hl m x0; cbn [foldl].
    - rewrite decide_False; [done|]. apply not_elem_of_nil.
    - rewrite IH by set_solver. rewrite lookup_insert. repeat case_decide; set_solver. }
  assert ([] ∉ prefixes p) as Hnil by (rewrite elem_of_prefixes; naive_solver).
  destruct x as [|w x]; simpl; [by rewrite decide_False|]. by apply Hfold.
Qed.

(** Making the parents leaves the files alone and keeps a tree. *)
Lemma mkdir_run p fs :
  tree_ok fs →
  mkdir_parents p fs = (Raise StorageError, fs)
  ∨ ∃ fs', mkdir_parents p fs = (Ok tt, fs') ∧ fs_temps fs' = fs_temps fs ∧ tree_ok fs'
      ∧ (∀ x, fs_holds fs' x = fs_holds fs x)
      ∧ (∀ x, node_at fs x = Some NDir → node_at fs' x = Some NDir)
      ∧ node_at fs' p = Some NDir.
Proof.
  intros Htree. unfold mkdir_parents. rewrite bind_gets, bind_raise_if.
  destruct (existsb _ _) eqn:Hb; [by left|right]. eexists. split; [done|].
  set (fs' := set_field _ _ _).
  assert (∀ x, x ∈ prefixes p → ∀ d, node_at fs x ≠ Some (NFile d)) as Hdirs.
  { intros x Hx d Hd. assert (existsb (λ y, is_nfile (node_at fs y)) (prefixes p) = true);
      [|congruence]. apply existsb_exists. exists x. rewrite <- list_elem_of_In. by rewrite Hd. }
  split; [done|]. split; [|split; [|split]].
  - intros x n Hx. destruct x as [|w x]; [done|].
    assert (node_at fs' (w :: x) = Some n) as Hn by done.
    unfold fs'. rewrite node_at_mkdir. case_decide as Hpar; [done|].
    unfold fs' in Hn. rewrite node_at_mkdir in Hn. case_decide as Hpre; [|by apply (Htree _ n)].
    destruct (parent (w :: x)) as [|w' x'] eqn:Hp; [done|]. destruct Hpar.
    apply elem_of_prefixes in Hpre as [_ Hpre]. apply elem_of_prefixes. split; [done|].
    rewrite <- Hp. etrans; [apply parent_prefix|done].
  - intros x. unfold fs_holds, fs'. rewrite node_at_mkdir. case_decide as Hx; [|done].
    pose proof (Hdirs x Hx) as Hd. destruct (node_at fs x) as [[d|]|]; try done. by destruct (Hd d).
  - intros x Hx. unfold fs'. rewrite node_at_mkdir. by case_decide.
  - unfold fs'. rewrite node_at_mkdir. case_decide as Hp; [done|].
    destruct p as [|w p]; [done|]. destruct Hp. apply elem_of_prefixes. by split.
Qed.

(** The writers under way are unaffected by what keeps temporary files and
    directories. *)
Lemma pending_mono l fs fs' :
  (∀ q, q ∈ l → fs_temps fs' !! pf_temp q = fs_temps fs !! pf_temp q) →
  (∀ x, node_at fs x = Some NDir → node_at fs' x = Some NDir) →
  Forall (pending_ok fs) l → Forall (pending_ok fs') l.
Proof.
  intros Ht Hn. rewrite !Forall_forall. intros Hl q Hq. destruct (Hl q Hq) as (H1 & H2 & H3).
  split; [by rewrite Ht|]. split; [done|]. by apply Hn.
Qed.

Lemma fs_begin l key data ct fs r fs' :
  fs_ok l fs → fs_put_begin sha256 mkstemp key data ct fs = (r, fs') →
  (∀ p, fs_holds fs' p = fs_holds fs p) ∧
  fs_ok match r with Ok (inr q) => q :: l | _ => l end fs' ∧
  match _safe_relative_key key with
  | None => r = Raise BlobStoreError
  | Some p =>
      match r with
      | Ok (inl i) => ∃ d, fs_holds fs p = Some d ∧ sha256 d = sha256 data
                           ∧ bi_checksum i = sha256 data
                           ∧ (bi_size_bytes i = blob_size d ∨ bi_size_bytes i = blob_size data)
                           ∧ bi_content_type i = ct
      | Ok (inr q) => pf_path q = p ∧ pf_data q = data ∧ pf_content_type q = ct
      | Raise e => e = StorageError
                   ∨ e = ImmutableBlobError
                     ∧ ∃ d, fs_holds fs p = Some d ∧ sha256 d ≠ sha256 data
      end
  end.
Proof.
  intros Hok. unfold fs_put_begin, fs_path. rewrite bind_get_or_raise.
  destruct (_safe_relative_key key) as [p|] eqn:Hk; [|by intros [= <- <-]].
  rewrite bind_gets. case_bool_decide as Hthere.
  - unfold mbind at 1, M_bind at 1. rewrite fs_checksum_run, Hk.
    destruct (node_at fs p) as [[d|]|] eqn:Hn; [| |by destruct Hthere];
      [|intros [= <- <-]; auto].
    rewrite bind_raise_if. case_bool_decide as Hc; simpl.
    + unfold mbind, M_bind. rewrite fs_read_run, Hn. intros [= <- <-].
      split; [done|]. split; [done|]. exists d. rewrite holds_node. simpl. auto 8.
    + intros [= <- <-]. split; [done|]. split; [done|]. right. split; [done|].
      exists d. by rewrite holds_node.
  - destruct Hok as (Htree & Hnd & Hall). unfold mbind at 1, M_bind at 1.
    destruct (mkdir_run (parent p) fs Htree) as [->|(fs1 & -> & Ht & Htree1 & Hh & Hd & Hp)].
    { intros [= <- <-]. split; [done|]. split; [done|]. by left. }
    rewrite bind_gets. intros [= <- <-]. split; [done|]. split; [|done].
    pose proof (mkstemp_fresh fs1 p) as Hfresh. rewrite Ht in Hfresh.
    assert (Forall (λ q, pf_temp q ≠ mkstemp fs1 p) l) as Hne.
    { eapply Forall_impl; [exact Hall|]. intros q (Hq & _) Heq. congruence. }
    split; [done|]. split.
    + rewrite fmap_cons. apply NoDup_cons. split; [|done].
      intros (q & Heq & Hq)%list_elem_of_fmap. rewrite Forall_forall in Hne. by apply (Hne q).
    + constructor.
      * split; [|by split]. simpl. by rewrite lookup_insert_eq.
      * apply (pending_mono _ fs); [|done|done]. intros q Hq. simpl.
        rewrite Forall_forall in Hne. rewrite lookup_insert_ne by (symmetry; by apply Hne).
        by rewrite Ht.
Qed.

Lemma crash_ok l1 q l2 fs : fs_ok (l1 ++ q :: l2) fs → fs_ok (l1 ++ l2) fs.
Proof.
  intros (Htree & Hnd & Hall). split; [done|]. split.
  - rewrite fmap_app in *. simpl in Hnd. apply NoDup_app in Hnd as (H1 & H2 & H3).
    apply NoDup_cons in H3 as [_ H3]. apply NoDup_app. split; [done|].
    split; [|done]. intros x Hx Hx2. apply (H2 x Hx). by right.
  - apply Forall_app in Hall as [H1 H2]. apply Forall_cons in H2 as [_ H2].
    by apply Forall_app.
Qed.

(** Removing the temporary file of one writer. *)
Lemma unlink_ok l1 q l2 fs :
  fs_ok (l1 ++ q :: l2) fs → fs_ok (l1 ++ l2) (fs_unlink_temp q fs).
Proof.
  intros Hok. destruct (crash_ok _ _ _ _ Hok) as (Htree & Hnd & Hall).
  split; [done|]. split; [done|]. apply (pending_mono _ fs); [|done|done].
  intros q' Hq'. simpl. apply lookup_delete_ne. intros Heq.
  destruct Hok as (_ & Hnd' & _). rewrite fmap_app in Hnd'. simpl in Hnd'.
  apply NoDup_app in Hnd' as (_ & Hx & Hc). apply NoDup_cons in Hc as [Hni _].
  apply elem_of_app in Hq' as [Hq'|Hq'].
  - apply (Hx (pf_temp q')); [by apply list_elem_of_fmap_2|]. rewrite <- Heq. left.
  - apply Hni. rewrite Heq. by apply list_elem_of_fmap_2.
Qed.

Lemma fs_commit l1 q l2 fs r fs' :
  let p := pf_path q in
  let data := pf_data q in
  let stored := fs_holds fs p = None ∧ ∀ x, fs_holds fs' x = if decide (x = p) then Some data
                                                          else fs_holds fs x in
  let same := ∀ x, fs_holds fs' x = fs_holds fs x in
  fs_ok (l1 ++ q :: l2) fs → fs_put_commit sha256 q fs = (r, fs') →
  fs_ok (l1 ++ l2) fs' ∧
  match r with
  | Ok i => bi_checksum i = sha256 data
            ∧ (stored ∧ bi_size_bytes i = blob_size data ∧ bi_content_type i = pf_content_type q
               ∨ same ∧ ∃ d, fs_holds fs p = Some d ∧ sha256 d = sha256 data
                   ∧ (bi_size_bytes i = blob_size d ∨ bi_size_bytes i = blob_size data)
                   ∧ bi_content_type i = pf_content_type q)
  | Raise e => e = StorageError ∧ (same ∨ stored)
               ∨ e = ImmutableBlobError ∧ same
                 ∧ ∃ d, fs_holds fs p = Some d ∧ sha256 d ≠ sha256 data
  end.
Proof.
  intros p data stored same Hok. unfold fs_put_commit.
  assert (pending_ok fs q) as (Htemp & Hk & Hpar).
  { destruct Hok as (_ & _ & Hall). apply Forall_app in Hall as [_ Hall].
    by apply Forall_cons in Hall as [? _]. }
  unfold mbind, M_bind, finally, fs_link. rewrite bind_get_or_raise, Htemp, bind_gets.
  pose proof (unlink_ok _ _ _ _ Hok) as Hok'.
  case_bool_decide as Hthere.
  - unfold mbind, M_bind. rewrite fs_checksum_run, Hk. fold p in Hthere |- *.
    destruct (node_at fs p) as [[d|]|] eqn:Hn; [| |by destruct Hthere].
    + assert (fs_holds fs p = Some d) as Hd by by apply holds_node.
      case_bool_decide as Hc; simpl; intros [= <- <-]; (split; [done|]).
      * split; [done|]. right. split; [done|]. exists d. simpl. auto 8.
      * right. split; [done|]. split; [done|]. by exists d.
    + intros [= <- <-]. split; [done|]. left. split; [done|]. by left.
  - unfold modify. intros [= <- <-]. fold p data.
    assert (p ≠ []) as Hp. { intros Hp. apply Hthere. fold p. rewrite Hp. by eexists. }
    assert (node_at fs p = None) as Hn.
    { fold p in Hthere. destruct (node_at fs p); [|done]. by destruct Hthere. }
    set (fs1 := fs <| fs_nodes ::= insert p (NFile data) |>).
    assert (∀ x, node_at fs1 x = if decide (x = p) then Some (NFile data) else node_at fs x)
      as Hn1 by (intros x; by apply node_at_insert).
    assert (∀ x, node_at fs x = Some NDir → node_at fs1 x = Some NDir) as Hdirs.
    { intros x Hx. rewrite Hn1. case_decide; congruence. }
    split.
    + apply unlink_ok. destruct Hok as (Htree & Hnd & Hall).
      split; [|split; [done|by apply (pending_mono _ fs)]].
      intros x n Hx. apply Hdirs.
      destruct (decide (x = p)) as [->|Hne]; [done|].
      simpl in Hx. rewrite lookup_insert_ne in Hx by done. by apply (Htree _ n).
    + split; [done|]. left. split; [|done]. split; [unfold fs_holds; by rewrite Hn|].
      intros x. change (fs_holds fs1 x = if decide (x = p) then Some data else fs_holds fs x).
      unfold fs_holds. rewrite Hn1. by case_decide.
Qed.

Lemma fs_get_ok key fs r fs' :
  fs_get key fs = (r, fs') →
  fs' = fs ∧
  match _safe_relative_key key with
  | None => r = Raise BlobStoreError
  | Some p =>
      match r with
      | Ok d => fs_holds fs p = Some d
      | Raise e => e = StorageError ∨ e = BlobMissing ∧ fs_holds fs p = None
      end
  end.
Proof.
  unfold fs_get, fs_path. rewrite bind_get_or_raise.
  destruct (_safe_relative_key key) as [p|]; [|by intros [= <- <-]].
  rewrite fs_read_run. unfold fs_holds.
  destruct (node_at fs p) as [[d|]|]; intros [= <- <-]; (split; [done|]); [done|by left|].
  destruct (missing_cases fs p) as [->| ->]; auto.
Qed.

Lemma fs_checksum_ok key fs r fs' :
  fs_checksum sha256 key fs = (r, fs') →
  fs' = fs ∧
  match _safe_relative_key key with
  | None => r = Raise BlobStoreError
  | Some p =>
      match r with
      | Ok c => ∃ d, fs_holds fs p = Some d ∧ c = sha256 d
      | Raise e => e = StorageError ∨ e = BlobMissing ∧ fs_holds fs p = None
      end
  end.
Proof.
  rewrite fs_checksum_run. intros [= <- <-]. split; [done|].
  destruct (_safe_relative_key key) as [p|]; [|done]. unfold fs_holds.
  destruct (node_at fs p) as [[d|]|]; [eauto|by left|].
  destruct (missing_cases fs p) as [->| ->]; auto.
Qed.

Lemma fs_exists_ok key fs r fs' :
  fs_exists key fs = (r, fs') →
  fs' = fs ∧
  match _safe_relative_key key with
  | None => r = Raise BlobStoreError
  | Some p => r = Ok (bool_decide (is_Some (fs_holds fs p)))
  end.
Proof.
  unfold fs_exists, fs_path. rewrite bind_get_or_raise.
  destruct (_safe_relative_key key) as [p|]; intros [= <- <-]; (split; [done|]); [|done].
  unfold is_nfile, fs_holds. by destruct (node_at fs p) as [[d|]|].
Qed.

Lemma fs_delete_ok l key fs r fs' :
  fs_ok l fs → fs_delete key fs = (r, fs') →
  fs_ok l fs' ∧
  match _safe_relative_key key with
  | None => r = Raise BlobStoreError ∧ ∀ x, fs_holds fs' x = fs_holds fs x
  | Some p =>
      match r with
      | Ok _ => ∀ x, fs_holds fs' x = if decide (x = p) then None else fs_holds fs x
      | Raise e => e = StorageError ∧ ∀ x, fs_holds fs' x = fs_holds fs x
      end
  end.
Proof.
  intros Hok. unfold fs_delete, fs_path. rewrite bind_get_or_raise.
  destruct (_safe_relative_key key) as [p|]; [|by intros [= <- <-]].
  rewrite bind_gets. destruct (node_at fs p) as [[d|]|] eqn:Hn.
  - unfold modify. intros [= <- <-].
    assert (p ≠ []) as Hp by (intros ->; done).
    assert (∀ x, node_at (fs <| fs_nodes ::= delete p |>) x
                 = if decide (x = p) then None else node_at fs x) as Hx
      by (intros x; by apply node_at_delete).
    split.
    + destruct Hok as (Htree & Hnd & Hall). split; [|split; [done|]].
      * intros x n Hxn. simpl in Hxn. apply lookup_delete_Some in Hxn as [Hne Hxn].
        rewrite Hx, decide_False; [by apply (Htree _ n)|].
        intros Heq. apply Htree in Hxn. rewrite Heq in Hxn. congruence.
      * eapply (pending_mono _ fs); [done| |done]. intros x Hd. rewrite Hx.
        case_decide; congruence.
    + intros x. unfold fs_holds. rewrite Hx. by case_decide.
  - intros [= <- <-]. done.
  - rewrite bind_gets.
    destruct (missing_cases fs p) as [->| ->]; intros [= <- <-]; (split; [done|]); [done|].
    intros x. unfold fs_holds. case_decide; [subst; by rewrite Hn|done].
Qed.

#[export] Program Instance filesystem_laws : BlobStoreLaws Fs sha256 := {|
  holds := fs_holds;
  blobs_ok := fs_ok;
  pending_path := pf_path;
  pending_data := pf_data;
  pending_type := pf_content_type;
  type_of _ _ := None;
  crash_law := crash_ok
|}.
Next Obligation.
  intros l key data ct fs r fs' Hok Hr. destruct (fs_begin _ _ _ _ _ _ _ Hok Hr) as (H1 & H2 & H3).
  split; [intros p; by split|]. by split.
Qed.
Next Obligation. intros l1 q l2 fs r fs' p data stored same. apply fs_commit. Qed.
Next Obligation.
  intros l key fs r fs' Hok [-> Hr]%fs_get_ok. by split.
Qed.
Next Obligation.
  intros l key fs r fs' Hok [-> Hr]%fs_exists_ok. split; [done|]. split; [done|].
  destruct (_safe_relative_key key); auto.
Qed.
Next Obligation.
  intros l key fs r fs' Hok [-> Hr]%fs_checksum_ok. by split.
Qed.
Next Obligation.
  intros l key fs r fs' Hok Hr. destruct (fs_delete_ok _ _ _ _ _ Hok Hr) as [Hok' Hd].
  split; [done|]. destruct (_safe_relative_key key); [|done].
  destruct r; [done|]. destruct Hd. auto.
Qed.

Definition empty_fs : Fs := {| fs_nodes := ∅; fs_temps := ∅ |}.

Lemma empty_fs_ok : fs_ok [] empty_fs.
Proof. split; [by intros p n H; simpl in H|]. split; constructor. Qed.
End filesystem_laws.

(** ** The S3 store satisfies the laws

    [S3Laws] is the documented behaviour of the object service the store relies
    on: strongly consistent reads, and a conditional [put_object] that creates
    an object only where none exists.  A failed write or deletion may have
    taken effect. *)

Record S3Object : Type := {
  ob_body : bytes;
  ob_sha256 : option string;
  ob_content_type : option string
}.

Definition object_of (r : S3Put) : S3Object :=
  {| ob_body := sp_body r; ob_sha256 := Some (sp_sha256 r);
     ob_content_type := Some (sp_content_type r) |}.

Definition head_of (o : S3Object) : S3Head :=
  {| h_metadata_sha256 := ob_sha256 o; h_content_length := Some (blob_size (ob_body o));
     h_content_type := ob_content_type o |}.

Class S3Laws (C : Type) `{S3Client C} : Type := {
  objects : C → gmap (string * string) S3Object;
  head_law b k c r c' :
    head_object b k c = (r, c') →
    objects c' = objects c ∧
    match r with
    | Ok h => head_of <$> objects c !! (b, k) = Some h
    | Raise (ClientError code) => not_found_code code = true → objects c !! (b, k) = None
    end;
  get_object_law b k c r c' :
    get_object b k c = (r, c') →
    objects c' = objects c ∧
    match r with
    | Ok d => ob_body <$> objects c !! (b, k) = Some d
    | Raise (ClientError code) => not_found_code code = true → objects c !! (b, k) = None
    end;
  put_object_law r c a c' :
    put_object r c = (a, c') →
    let k := (sp_bucket r, sp_key r) in
    let created := objects c !! k = None ∧ objects c' = <[k := object_of r]> (objects c) in
    match a with
    | Ok _ => created
    | Raise _ => objects c' = objects c ∨ created
    end;
  delete_object_law b k c r c' :
    delete_object b k c = (r, c') →
    match r with
    | Ok _ => objects c' = delete (b, k) (objects c)
    | Raise (ClientError code) =>
        not_found_code code = false
        ∧ (objects c' = objects c ∨ objects c' = delete (b, k) (objects c))
    end
}.
#[global] Hint Mode S3Laws ! - : typeclass_instances.

Section s3_laws.
Context {C : Type} `{HC : S3Client C} {HL : S3Laws C}.
Context (sha256 : bytes → string) (cfg : S3Config).
Implicit Types (c : C) (q : PendingObject) (p : path).
#[local] Instance s3_store : BlobStore C := S3BlobStore sha256 cfg.

Definition obj_key p : string * string := (s3_bucket cfg, s3_full_key cfg p).

Definition s3_holds c : view := λ p,
  if valid_path p then ob_body <$> objects c !! obj_key p else None.

Definition s3_type c p : option string :=
  objects c !! obj_key p ≫= λ o, str_or (ob_content_type o) None.

(** Recorded checksums are the checksums of the bodies. *)
Definition checksums_ok c : Prop :=
  ∀ p o h, valid_path p = true → objects c !! obj_key p = Some o →
  ob_sha256 o = Some h → str_truthy h = true → h = sha256 (ob_body o).

Definition upload_ok q : Prop :=
  ∃ p, _safe_relative_key (po_key q) = Some p
    ∧ (sp_bucket (po_put q), sp_key (po_put q)) = obj_key p
    ∧ sp_sha256 (po_put q) = sha256 (sp_body (po_put q)).

Definition s3_ok (l : list PendingObject) c : Prop := checksums_ok c ∧ Forall upload_ok l.

Definition po_path q : path := default [] (_safe_relative_key (po_key q)).

Lemma same_objects c c' l :
  objects c' = objects c → s3_ok l c →
  (∀ x, s3_holds c' x = s3_holds c x ∧ s3_type c' x = s3_type c x) ∧ s3_ok l c'.
Proof.
  intros Ho [Hc Hl]. unfold s3_holds, s3_type. rewrite Ho. split; [done|].
  split; [|done]. unfold checksums_ok. by rewrite Ho.
Qed.

Lemma created_objects c c' q p l :
  objects c !! obj_key p = None → objects c' = <[obj_key p := object_of (po_put q)]> (objects c) →
  _safe_relative_key (po_key q) = Some p → upload_ok q → s3_ok l c →
  (s3_holds c p = None ∧ ∀ x, s3_holds c' x = if decide (x = p) then Some (sp_body (po_put q))
                                              else s3_holds c x) ∧ s3_ok l c'.
Proof.
  intros Hn Ho Hk (p' & Hp' & _ & Hsha) [Hc Hl].
  pose proof (safe_key_valid _ _ Hk) as Hv. unfold s3_holds. rewrite Ho. split; [split|].
  - by rewrite Hv, Hn.
  - intros x. destruct (decide (x = p)) as [->|Hne]; [by rewrite Hv, lookup_insert_eq|].
    destruct (valid_path x) eqn:Hx; [|done]. rewrite lookup_insert_ne; [done|].
    intros [= Heq]. by apply Hne, (full_key_inj cfg).
  - split; [|done]. intros x o h Hx. rewrite Ho, lookup_insert. case_decide as Heq.
    + intros [= <-] [= <-] _. done.
    + by apply (Hc x o h).
Qed.

Lemma deleted_objects c c' p l :
  valid_path p = true → objects c' = delete (obj_key p) (objects c) → s3_ok l c →
  (∀ x, s3_holds c' x = if decide (x = p) then None else s3_holds c x) ∧ s3_ok l c'.
Proof.
  intros Hv Ho [Hc Hl]. unfold s3_holds. rewrite Ho. split.
  - intros x. destruct (decide (x = p)) as [->|Hne]; [by rewrite Hv, lookup_delete_eq|].
    destruct (valid_path x) eqn:Hx; [|done]. rewrite lookup_delete_ne; [done|].
    intros [= Heq]. by apply Hne, (full_key_inj cfg).
  - split; [|done]. intros x o h Hx. rewrite Ho. intros [_ Ho']%lookup_delete_Some.
    by apply (Hc x o h).
Qed.

(** What a read answers. *)
Lemma s3_head_run key c r c' :
  s3_head cfg key c = (r, c') →
  objects c' = objects c ∧
  match _safe_relative_key key with
  | None => r = Raise BlobStoreError
  | Some p =>
      match r with
      | Ok h => h = head_of <$> objects c !! obj_key p
      | Raise e => e = StorageError
      end
  end.
Proof.
  unfold s3_head, s3_key, try_except.
  destruct (_safe_relative_key key) as [p|] eqn:Hk;
    unfold mbind, M_bind, get_or_raise, mret, M_ret; [|by intros [= <- <-]].
  destruct (head_object _ _ c) as [[h|[code]] c1] eqn:Hh; apply head_law in Hh as [Ho Hh].
  - intros [= <- <-]. split; [done|]. by rewrite <- Hh.
  - destruct (not_found_code code); intros [= <- <-]; (split; [done|]); [|done].
    unfold obj_key. by rewrite Hh.
Qed.

Lemma s3_get_run key c r c' :
  s3_get cfg key c = (r, c') →
  objects c' = objects c ∧
  match _safe_relative_key key with
  | None => r = Raise BlobStoreError
  | Some p =>
      match r with
      | Ok d => ob_body <$> objects c !! obj_key p = Some d
      | Raise e => e = StorageError ∨ e = BlobMissing ∧ objects c !! obj_key p = None
      end
  end.
Proof.
  unfold s3_get, s3_key, s3_call, reraise.
  destruct (_safe_relative_key key) as [p|] eqn:Hk;
    unfold mbind, M_bind, get_or_raise, mret, M_ret; [|by intros [= <- <-]].
  destruct (get_object _ _ c) as [[d|[code]] c1] eqn:Hh; apply get_object_law in Hh as [Ho Hh].
  - intros [= <- <-]. by split.
  - intros [= <- <-]. split; [done|]. unfold of_s3_error.
    destruct (not_found_code code); [right|left]; auto.
Qed.

Lemma s3_checksum_run key c r c' :
  s3_checksum sha256 cfg key c = (r, c') →
  objects c' = objects c ∧
  match _safe_relative_key key with
  | None => r = Raise BlobStoreError
  | Some p =>
      match r with
      | Ok h => ∃ o, objects c !! obj_key p = Some o ∧ h = sha256 (ob_body o)
      | Raise e => e = StorageError ∨ e = BlobMissing ∧ objects c !! obj_key p = None
      end
  end.
Proof.
  intros (r0 & Hr0 & ->)%map_run. apply s3_get_run in Hr0 as [Ho Hr0]. split; [done|].
  destruct (_safe_relative_key key) as [p|]; [|by rewrite Hr0].
  destruct r0 as [d|e]; [|done]. destruct (objects c !! obj_key p) as [o|]; [|done].
  injection Hr0 as <-. by exists o.
Qed.

Lemma s3_actual_run l key c r c' p o :
  s3_ok l c → _safe_relative_key key = Some p → objects c !! obj_key p = Some o →
  s3_actual_checksum sha256 cfg key (head_of o) c = (r, c') →
  objects c' = objects c ∧ (r = Ok (sha256 (ob_body o)) ∨ r = Raise StorageError).
Proof.
  intros [Hc _] Hk Ho. unfold s3_actual_checksum. simpl.
  assert (s3_checksum sha256 cfg key c = (r, c') →
    objects c' = objects c ∧ (r = Ok (sha256 (ob_body o)) ∨ r = Raise StorageError)) as Hread.
  { intros [Hs Hr]%s3_checksum_run. split; [done|]. rewrite Hk in Hr. destruct r as [h|e].
    - left. destruct Hr as (o' & Ho' & ->). by simplify_eq.
    - right. destruct Hr as [->|[_ Hn]]; [done|congruence]. }
  destruct (ob_sha256 o) as [h|] eqn:Hh; [|done]. destruct (str_truthy h) eqn:Ht; [|done].
  intros [= <- <-]. split; [done|]. left. f_equal.
  by apply (Hc p o); [eapply safe_key_valid| | |].
Qed.

Lemma s3_existing_run l key data ct c r c' p o :
  s3_ok l c → _safe_relative_key key = Some p → objects c !! obj_key p = Some o →
  s3_existing sha256 cfg key (head_of o) data ct c = (r, c') →
  objects c' = objects c ∧
  match r with
  | Ok i => sha256 (ob_body o) = sha256 data ∧ bi_checksum i = sha256 data
            ∧ (bi_size_bytes i = blob_size (ob_body o) ∨ bi_size_bytes i = blob_size data)
            ∧ bi_content_type i = default ct (s3_type c p)
  | Raise e => e = StorageError
               ∨ e = ImmutableBlobError ∧ sha256 (ob_body o) ≠ sha256 data
  end.
Proof.
  intros Hok Hk Ho. unfold s3_existing, mbind, M_bind.
  destruct (s3_actual_checksum sha256 cfg key (head_of o) c) as [a c1] eqn:Ha.
  eapply s3_actual_run in Ha as [Hs Ha]; [|done..].
  destruct Ha as [->| ->]; [|intros [= <- <-]; auto].
  unfold raise_if. case_bool_decide as Hsha; simpl; intros [= <- <-]; (split; [done|]).
  - split; [done|]. split; [done|]. simpl. split.
    + unfold int_or. case_match; auto.
    + unfold s3_type. by rewrite Ho.
  - right. auto.
Qed.

Lemma s3_begin l key data ct c r c' :
  s3_ok l c → s3_put_begin sha256 cfg key data ct c = (r, c') →
  objects c' = objects c ∧
  match _safe_relative_key key with
  | None => r = Raise BlobStoreError
  | Some p =>
      match r with
      | Ok (inl i) => ∃ o, objects c !! obj_key p = Some o
          ∧ sha256 (ob_body o) = sha256 data ∧ bi_checksum i = sha256 data
          ∧ (bi_size_bytes i = blob_size (ob_body o) ∨ bi_size_bytes i = blob_size data)
          ∧ bi_content_type i = default ct (s3_type c p)
      | Ok (inr q) => po_key q = key ∧ upload_ok q ∧ sp_body (po_put q) = data
                      ∧ sp_content_type (po_put q) = ct
      | Raise e => e = StorageError ∨ e = ImmutableBlobError
          ∧ ∃ o, objects c !! obj_key p = Some o ∧ sha256 (ob_body o) ≠ sha256 data
      end
  end.
Proof.
  intros Hok. unfold s3_put_begin, mbind at 1, M_bind at 1.
  destruct (s3_head cfg key c) as [h c1] eqn:Hh. apply s3_head_run in Hh as [Ho Hh].
  destruct (_safe_relative_key key) as [p|] eqn:Hk; [|subst h; by intros [= <- <-]].
  destruct h as [h|e]; [|intros [= <- <-]; auto].
  destruct (objects c !! obj_key p) as [o|] eqn:Hob; subst h; simpl.
  - intros (r0 & Hr0 & ->)%map_run.
    destruct (same_objects c c1 l Ho Hok) as [Hsame Hok1]. rewrite <- Ho in Hob.
    eapply s3_existing_run in Hr0 as [Ho2 Hr0]; [|done..].
    split; [congruence|]. rewrite (proj2 (Hsame p)) in Hr0.
    destruct r0 as [i|e]; [exists o; auto|].
    destruct Hr0 as [->|[-> Hne]]; [by left|right; eauto].
  - unfold s3_key. unfold mbind, M_bind, get_or_raise. rewrite Hk. intros [= <- <-].
    split; [done|]. simpl. split; [done|]. split; [|done]. exists p. auto.
Qed.

(** The second look, after the service refused to create the object. *)
Lemma s3_refused_run l q c r c' p :
  s3_ok l c → _safe_relative_key (po_key q) = Some p →
  (s3_head cfg (po_key q) ≫= λ (h : option S3Head),
     match h with
     | None => raise StorageError
     | Some h => s3_existing sha256 cfg (po_key q) h (sp_body (po_put q))
                   (sp_content_type (po_put q))
     end) c = (r, c') →
  objects c' = objects c ∧
  match r with
  | Ok i => ∃ o, objects c !! obj_key p = Some o
      ∧ sha256 (ob_body o) = sha256 (sp_body (po_put q))
      ∧ bi_checksum i = sha256 (sp_body (po_put q))
      ∧ (bi_size_bytes i = blob_size (ob_body o) ∨ bi_size_bytes i = blob_size (sp_body (po_put q)))
      ∧ bi_content_type i = default (sp_content_type (po_put q)) (s3_type c p)
  | Raise e => e = StorageError ∨ e = ImmutableBlobError
      ∧ ∃ o, objects c !! obj_key p = Some o
             ∧ sha256 (ob_body o) ≠ sha256 (sp_body (po_put q))
  end.
Proof.
  intros Hok Hk. unfold mbind, M_bind. destruct (s3_head cfg _ c) as [h c1] eqn:Hh.
  apply s3_head_run in Hh as [Ho Hh]. rewrite Hk in Hh.
  destruct h as [h|e]; [|intros [= <- <-]; auto].
  destruct (same_objects c c1 l Ho Hok) as [Hsame Hok1].
  destruct (objects c !! obj_key p) as [o|] eqn:Hob; subst h; simpl; [|intros [= <- <-]; auto].
  rewrite <- Ho in Hob. intros Hr. eapply s3_existing_run in Hr as [Ho2 Hr]; [|done..].
  split; [congruence|]. rewrite (proj2 (Hsame p)) in Hr. destruct r as [i|e]; [exists o; auto|].
  destruct Hr as [->|[-> Hne]]; [by left|right; eauto].
Qed.

Lemma s3_holds_run key p c :
  _safe_relative_key key = Some p → s3_holds c p = ob_body <$> objects c !! obj_key p.
Proof. intros Hk. unfold s3_holds. by rewrite (safe_key_valid _ _ Hk). Qed.

Lemma s3_holds_object key p c o :
  _safe_relative_key key = Some p → objects c !! obj_key p = Some o →
  s3_holds c p = Some (ob_body o).
Proof. intros Hk Ho. by rewrite (s3_holds_run key), Ho. Qed.

(** The store after [put_object], whatever it answered. *)
Lemma s3_after_put l q c a c1 p :
  s3_ok l c → upload_ok q → _safe_relative_key (po_key q) = Some p →
  put_object (po_put q) c = (a, c1) →
  s3_ok l c1 ∧
  (objects c1 = objects c ∧ (∀ u, a ≠ Ok u)
   ∨ objects c1 !! obj_key p = Some (object_of (po_put q))
     ∧ s3_holds c p = None
     ∧ ∀ x, s3_holds c1 x = if decide (x = p) then Some (sp_body (po_put q)) else s3_holds c x).
Proof.
  intros Hok Hup Hk Hput. apply put_object_law in Hput.
  pose proof Hup as (p' & Hk' & Hkey & _). assert (p' = p) as -> by congruence.
  rewrite Hkey in Hput.
  assert (objects c !! obj_key p = None
          ∧ objects c1 = <[obj_key p := object_of (po_put q)]> (objects c) →
    s3_ok l c1 ∧ (objects c1 !! obj_key p = Some (object_of (po_put q))
     ∧ s3_holds c p = None
     ∧ ∀ x, s3_holds c1 x = if decide (x = p) then Some (sp_body (po_put q)) else s3_holds c x))
    as Hnew.
  { intros [Hn Ho]. destruct (created_objects c c1 q p l Hn Ho Hk Hup Hok) as [[H1 H2] Hok1].
    split; [done|]. by rewrite Ho, lookup_insert_eq. }
  destruct a as [u|e]; [destruct (Hnew Hput); auto|].
  destruct Hput as [Ho|Hn]; [|destruct (Hnew Hn); auto].
  split; [by apply (same_objects c c1)|left; by split].
Qed.

Lemma same_holds c c1 x : objects c1 = objects c → s3_holds c1 x = s3_holds c x.
Proof. intros Ho. unfold s3_holds. by rewrite Ho. Qed.

Lemma s3_commit l1 q l2 c r c' :
  let p := po_path q in
  let data := sp_body (po_put q) in
  let stored := s3_holds c p = None ∧ ∀ x, s3_holds c' x = if decide (x = p) then Some data
                                                          else s3_holds c x in
  let same := ∀ x, s3_holds c' x = s3_holds c x in
  s3_ok (l1 ++ q :: l2) c → s3_put_commit sha256 cfg q c = (r, c') →
  s3_ok (l1 ++ l2) c' ∧
  match r with
  | Ok i => bi_checksum i = sha256 data
            ∧ (stored ∧ bi_size_bytes i = blob_size data
                 ∧ bi_content_type i = sp_content_type (po_put q)
               ∨ same ∧ ∃ d, s3_holds c p = Some d ∧ sha256 d = sha256 data
                   ∧ (bi_size_bytes i = blob_size d ∨ bi_size_bytes i = blob_size data)
                   ∧ bi_content_type i = default (sp_content_type (po_put q)) (s3_type c p))
  | Raise e => e = StorageError ∧ (same ∨ stored)
               ∨ e = ImmutableBlobError ∧ same
                 ∧ ∃ d, s3_holds c p = Some d ∧ sha256 d ≠ sha256 data
  end.
Proof.
  intros p data stored same [Hsums Hall]. apply Forall_app in Hall as [Hl1 Hall].
  apply Forall_cons in Hall as [Hup Hl2].
  assert (s3_ok (l1 ++ l2) c) as Hok by (split; [done|by apply Forall_app]).
  pose proof Hup as (p' & Hk & _ & Hsha).
  assert (p' = p) as -> by (unfold p, po_path; by rewrite Hk).
  unfold s3_put_commit, try_except. destruct (put_object (po_put q) c) as [a c1] eqn:Hput.
  destruct (s3_after_put _ _ _ _ _ _ Hok Hup Hk Hput) as [Hok1 Hcases].
  destruct a as [u|[code]].
  { intros [= <- <-]. split; [done|]. split; [done|]. left.
    destruct Hcases as [[_ Hne]|(_ & Hst)]; [by destruct (Hne u)|by split]. }
  destruct (precondition_code code).
  - intros Hr. eapply s3_refused_run in Hr as [Ho2 Hr]; [|done..].
    split; [by apply (same_objects c1 c')|].
    destruct Hcases as [[Ho _]|(Hob & Hn & Hx)].
    + assert same as Hss by (intros x; rewrite (same_holds c1 c' x) by done; by apply same_holds).
      assert (s3_type c1 p = s3_type c p) as Hty by (unfold s3_type; by rewrite Ho).
      rewrite Ho, ?Hty in Hr. destruct r as [i|e].
      * destruct Hr as (o & Hob & Hc & Hi & Hsz & Hct). split; [done|]. right.
        split; [done|]. exists (ob_body o). split; [by apply (s3_holds_object (po_key q))|auto].
      * destruct Hr as [->|(-> & o & Hob & Hne)]; [left; auto|]. right.
        split; [done|]. split; [done|]. exists (ob_body o).
        split; [by apply (s3_holds_object (po_key q))|done].
    + assert stored as Hst by (split; [done|]; intros x; by rewrite (same_holds c1 c' x)).
      rewrite Hob in Hr. destruct r as [i|e].
      * destruct Hr as (o & [= <-] & Hc & Hi & Hsz & Hct). split; [done|]. left.
        split; [done|]. split; [by destruct Hsz|]. rewrite Hct. unfold s3_type.
        rewrite Hob. simpl. unfold str_or. by case_match.
      * left. destruct Hr as [->|(-> & o & [= <-] & Hne)]; [auto|]. by destruct Hne.
  - intros [= <- <-]. split; [done|]. left. split; [done|].
    destruct Hcases as [[Ho _]|(_ & Hst)]; [left; intros x; by apply same_holds|by right].
Qed.

Lemma s3_delete_ok l key c r c' :
  s3_ok l c → s3_delete cfg key c = (r, c') →
  s3_ok l c' ∧
  match _safe_relative_key key with
  | None => r = Raise BlobStoreError ∧ ∀ x, s3_holds c' x = s3_holds c x
  | Some p =>
      let gone := ∀ x, s3_holds c' x = if decide (x = p) then None else s3_holds c x in
      let same := ∀ x, s3_holds c' x = s3_holds c x in
      match r with
      | Ok _ => gone
      | Raise e => e = StorageError ∧ (same ∨ gone)
      end
  end.
Proof.
  intros Hok. unfold s3_delete, s3_key, s3_call, reraise.
  destruct (_safe_relative_key key) as [p|] eqn:Hk;
    unfold mbind, M_bind, get_or_raise, mret, M_ret; [|by intros [= <- <-]].
  pose proof (safe_key_valid _ _ Hk) as Hv.
  destruct (delete_object _ _ c) as [[u|[code]] c1] eqn:Hd;
    apply delete_object_law in Hd; intros [= <- <-].
  - destruct (deleted_objects c c1 p l Hv Hd Hok). by split.
  - destruct Hd as [Hcode Hd]. unfold of_s3_error. rewrite Hcode.
    destruct Hd as [Ho|Hd].
    + destruct (same_objects c c1 l Ho Hok) as [Hs Hok1]. split; [done|]. split; [done|].
      left. intros x. apply Hs.
    + destruct (deleted_objects c c1 p l Hv Hd Hok). auto.
Qed.

#[export] Program Instance s3_store_laws : BlobStoreLaws C sha256 := {|
  holds := s3_holds;
  blobs_ok := s3_ok;
  pending_path := po_path;
  pending_data q := sp_body (po_put q);
  pending_type q := sp_content_type (po_put q);
  type_of := s3_type
|}.
Next Obligation.
  intros l key data ct c r c' Hok Hr. destruct (s3_begin _ _ _ _ _ _ _ Hok Hr) as [Ho Hb].
  destruct (same_objects c c' l Ho Hok) as [Hs Hok']. split; [done|].
  split.
  - destruct r as [[i|q]|e]; [done| |done].
    destruct (_safe_relative_key key); [|done]. destruct Hok' as [? ?].
    split; [done|]. constructor; [by destruct Hb as (_ & ? & _)|done].
  - destruct (_safe_relative_key key) as [p|] eqn:Hk; [|done].
    destruct r as [[i|q]|e].
    + destruct Hb as (o & Hob & Hb). exists (ob_body o). split; [by apply (s3_holds_object key)|done].
    + destruct Hb as (Hkey & _ & Hbody & Hct). split; [|done]. unfold po_path.
      by rewrite Hkey, Hk.
    + destruct Hb as [->|(-> & o & Hob & Hne)]; [by left|right]. split; [done|].
      exists (ob_body o). split; [by apply (s3_holds_object key)|done].
Qed.
Next Obligation. intros l1 q l2 c r c' p data stored same. apply s3_commit. Qed.
Next Obligation.
  intros l1 q l2 c [Hc Hall]. split; [done|]. apply Forall_app in Hall as [? Hall].
  apply Forall_cons in Hall as [_ ?]. by apply Forall_app.
Qed.
Next Obligation.
  intros l key c r c' Hok [Ho Hr]%s3_get_run. destruct (same_objects c c' l Ho Hok) as [Hs Hok'].
  split; [intros x; apply Hs|]. split; [done|].
  destruct (_safe_relative_key key) as [p|] eqn:Hk; [|done]. pose proof (s3_holds_run _ _ c Hk).
  destruct r; simplify_eq; [congruence|]. destruct Hr as [->|[-> Hn]]; [by left|right].
  rewrite H, Hn. done.
Qed.
Next Obligation.
  intros l key c r c' Hok (r0 & Hr0 & ->)%map_run.
  apply s3_head_run in Hr0 as [Ho Hr]. destruct (same_objects c c' l Ho Hok) as [Hs Hok'].
  split; [intros x; apply Hs|]. split; [done|].
  destruct (_safe_relative_key key) as [p|] eqn:Hk; [|by rewrite Hr].
  rewrite (s3_holds_run _ _ c Hk). destruct r0 as [h|e]; [right|left; by rewrite Hr].
  rewrite Hr. f_equal. apply bool_decide_ext. by rewrite !fmap_is_Some.
Qed.
Next Obligation.
  intros l key c r c' Hok [Ho Hr]%s3_checksum_run.
  destruct (same_objects c c' l Ho Hok) as [Hs Hok'].
  split; [intros x; apply Hs|]. split; [done|].
  destruct (_safe_relative_key key) as [p|] eqn:Hk; [|done]. rewrite (s3_holds_run _ _ c Hk).
  destruct r as [h|e].
  - destruct Hr as (o & -> & ->). by exists (ob_body o).
  - destruct Hr as [->|[-> ->]]; auto.
Qed.
Next Obligation. intros l key c r c' Hok Hr. exact (s3_delete_ok l key c r c' Hok Hr). Qed.
End s3_laws.
