(* ===== verification/BlobStorageTheorems.v ===== *)
(** * BlobStorageTheorems: what blobs are good for

    Both stores refine the abstract write-once map, and a blob once readable
    never changes however writers race; with concrete stores that meet the
    hypotheses. *)
From S2P Require Import Prelude.
From S2P Require Import BlobStorage.
From S2P Require Import BlobStorageProofs.

(** ** Concrete stores *)

Module Concrete.

(** A stand-in for SHA-256 and for [mkstemp]. *)
Definition digest (d : bytes) : string := String.string_of_list_byte d.
Definition mkstemp (fs : Fs) (p : path) : path := fresh (dom (fs_temps fs)).

Lemma mkstemp_fresh fs p : fs_temps fs !! mkstemp fs p = None.
Proof. apply not_elem_of_dom, is_fresh. Qed.

(** An object service that never fails. *)
Abbreviation Service := (gmap (string * string) S3Object).

#[global] Instance service_client : S3Client Service := {|
  head_object b k := λ c,
    (match c !! (b, k) with Some o => Ok (head_of o) | None => Raise (ClientError "404") end, c);
  put_object r := λ c,
    match c !! (sp_bucket r, sp_key r) with
    | Some _ => (Raise (ClientError "PreconditionFailed"), c)
    | None => (Ok tt, <[(sp_bucket r, sp_key r) := object_of r]> c)
    end;
  get_object b k := λ c,
    (match c !! (b, k) with Some o => Ok (ob_body o) | None => Raise (ClientError "NoSuchKey") end, c);
  delete_object b k := λ c, (Ok tt, delete (b, k) c)
|}.

#[global] Program Instance service_laws : S3Laws Service := {| objects c := c |}.
Next Obligation.
  intros b k c r c' [= <- <-]. cbv beta. split; [done|].
  by destruct (c !! (b, k)).
Qed.
Next Obligation.
  intros b k c r c' [= <- <-]. cbv beta. split; [done|].
  by destruct (c !! (b, k)).
Qed.
Next Obligation.
  intros r c a c'. simpl. destruct (c !! _) eqn:Hc; intros [= <- <-]; [by left|done].
Qed.
Next Obligation. by intros b k c r c' [= <- <-]. Qed.

Definition config : S3Config :=
  {| s3_bucket := "evidence"; s3_prefix := "raw"; s3_server_side_encryption := Some "AES256" |}.

Definition fs_store : BlobStore Fs := FilesystemBlobStore digest mkstemp.
Definition s3_store : BlobStore Service := S3BlobStore digest config.

Definition hello : bytes := String.list_byte_of_string "hello".
Definition other : bytes := String.list_byte_of_string "other".

Definition script : list blob_op :=
  [op_put "a/b.json" hello "application/json"; op_put "a//b.json" hello "application/json";
   op_put "a/b.json" other "application/json"; op_put "../b" hello "text/plain";
   op_get "a/b.json"; op_exists "a/c.json"; op_delete "a/b.json"; op_get "a/b.json"].

Definition answers : list (result blob_error blob_answer) :=
  [Ok (ans_stored "hello"); Ok (ans_stored "hello"); Raise ImmutableBlobError;
   Raise BlobStoreError; Ok (ans_data hello); Ok (ans_bool false); Ok ans_done;
   Raise BlobMissing].

Example fs_answers : (run_ops (H := fs_store) script empty_fs).1 = zip script answers.
Proof. by vm_compute. Qed.

Example s3_answers : (run_ops (H := s3_store) script (∅ : Service)).1 = zip script answers.
Proof. by vm_compute. Qed.

Lemma nothing_stored : s3_ok digest config [] (∅ : Service).
Proof. split; [|constructor]. intros p o h _ Ho. cbn [objects service_laws] in Ho.
  by rewrite lookup_empty in Ho.
Qed.
End Concrete.

(** ** Theorems *)

(** C16: both blob stores implement the write-once map: whatever sequence of put,
    get, exists, delete and checksum calls is run on the file system store or on
    the S3 store, the answers are those of a map in which a key is created by
    its first put, confirmed by a put of the same checksum and never
    overwritten; a call that reports a storage error has taken effect on the
    map completely or not at all. *)
Theorem stores_refine_write_once_map sha256 mkstemp
    (mkstemp_fresh : ∀ fs p, fs_temps fs !! mkstemp fs p = None)
    {C} {client : S3Client C} {service : S3Laws C} cfg ops :
  (∀ fs v rs fs',
     fs_ok [] fs → (∀ p, v !! p = fs_holds fs p) →
     run_ops (H := FilesystemBlobStore sha256 mkstemp) ops fs = (rs, fs') →
     ∃ v', (∀ p, v' !! p = fs_holds fs' p) ∧ spec_runs (sha256 := sha256) v rs v')
  ∧ (∀ c v rs c',
     s3_ok sha256 cfg [] c → (∀ p, v !! p = s3_holds cfg c p) →
     run_ops (H := S3BlobStore sha256 cfg) ops c = (rs, c') →
     ∃ v', (∀ p, v' !! p = s3_holds cfg c' p) ∧ spec_runs (sha256 := sha256) v rs v').
Proof.
  split.
  - intros fs v rs fs'. exact (run_refines (HL := filesystem_laws sha256 mkstemp mkstemp_fresh)
      ops fs v rs fs').
  - intros c v rs c'. exact (run_refines (HL := s3_store_laws sha256 cfg) ops c v rs c').
Qed.

Theorem stores_refine_write_once_map_witness :
  (∃ v', (∀ p, v' !! p = fs_holds (run_ops (H := Concrete.fs_store) Concrete.script empty_fs).2 p)
     ∧ spec_runs (sha256 := Concrete.digest) ∅ (zip Concrete.script Concrete.answers) v')
  ∧ (∃ v', (∀ p, v' !! p = s3_holds Concrete.config
                    (run_ops (H := Concrete.s3_store) Concrete.script (∅ : Concrete.Service)).2 p)
     ∧ spec_runs (sha256 := Concrete.digest) ∅ (zip Concrete.script Concrete.answers) v').
Proof.
  destruct (stores_refine_write_once_map Concrete.digest Concrete.mkstemp
    Concrete.mkstemp_fresh Concrete.config Concrete.script) as [Hfs Hs3]. split.
  - apply (Hfs empty_fs).
    + apply empty_fs_ok.
    + intros []; by rewrite lookup_empty.
    + rewrite <- Concrete.fs_answers. apply surjective_pairing.
  - apply (Hs3 ∅).
    + apply Concrete.nothing_stored.
    + intros p. rewrite lookup_empty. unfold s3_holds. by destruct (valid_path p).
    + rewrite <- Concrete.s3_answers. apply surjective_pairing.
Defined.

(** A blob never changes while writers race: once a key is readable it keeps
    its content through every interleaving of writers that begin, commit or die
    and of readers; and when a writer's put succeeds, the key holds, then and
    ever after, a blob with the checksum the writer was told. *)
Theorem blobs_are_immutable sha256 mkstemp
    (mkstemp_fresh : ∀ fs p, fs_temps fs !! mkstemp fs p = None)
    {C} {client : S3Client C} {service : S3Laws C} cfg :
  (let store := FilesystemBlobStore sha256 mkstemp in
   ∀ fs l fs' l', fs_ok l fs → rtc (race_step (HS := store)) (fs, l) (fs', l') →
     (∀ p d, fs_holds fs p = Some d → fs_holds fs' p = Some d)
     ∧ (∀ l1 q l2 fs0 i, fs_ok (l1 ++ q :: l2) fs0 → l = l1 ++ l2 →
          fs_put_commit sha256 q fs0 = (Ok i, fs) →
          bi_checksum i = sha256 (pf_data q)
          ∧ ∃ d, fs_holds fs' (pf_path q) = Some d ∧ sha256 d = bi_checksum i))
  ∧ (let store := S3BlobStore sha256 cfg in
     ∀ c l c' l', s3_ok sha256 cfg l c → rtc (race_step (HS := store)) (c, l) (c', l') →
       (∀ p d, s3_holds cfg c p = Some d → s3_holds cfg c' p = Some d)
       ∧ (∀ l1 q l2 c0 i, s3_ok sha256 cfg (l1 ++ q :: l2) c0 → l = l1 ++ l2 →
            s3_put_commit sha256 cfg q c0 = (Ok i, c) →
            bi_checksum i = sha256 (sp_body (po_put q))
            ∧ ∃ d, s3_holds cfg c' (po_path q) = Some d ∧ sha256 d = bi_checksum i)).
Proof.
  split; intros store.
  - set (laws := filesystem_laws sha256 mkstemp mkstemp_fresh). intros fs l fs' l' Hok Hr.
    assert (∀ p d, fs_holds fs p = Some d → fs_holds fs' p = Some d) as Hkeep
      by (intros p d; exact (proj2 (races_keep (HL := laws) (fs, l) (fs', l') p d Hr Hok))).
    split; [done|]. intros l1 q l2 fs0 i Hok0 -> Hc.
    destruct (commit_holds (HL := laws) l1 q l2 fs0 i fs Hok0 Hc) as (Hi & d & Hd & Hsha).
    split; [done|]. exists d. split; [by apply Hkeep|]. by rewrite Hi.
  - set (laws := s3_store_laws sha256 cfg). intros c l c' l' Hok Hr.
    assert (∀ p d, s3_holds cfg c p = Some d → s3_holds cfg c' p = Some d) as Hkeep
      by (intros p d; exact (proj2 (races_keep (HL := laws) (c, l) (c', l') p d Hr Hok))).
    split; [done|]. intros l1 q l2 c0 i Hok0 -> Hc.
    destruct (commit_holds (HL := laws) l1 q l2 c0 i c Hok0 Hc) as (Hi & d & Hd & Hsha).
    split; [done|]. exists d. split; [by apply Hkeep|]. by rewrite Hi.
Qed.

(** Two writers race for a key with different data; the second comes too late. *)
Module Race.
Import Concrete.

Section race.
Context {S : Type} (store : BlobStore S) (s0 : S).
#[local] Existing Instance store.

Definition begun (data : bytes) (s : S) : option pending * S :=
  match put_begin "a/b.json"%string data "application/json"%string s with
  | (Ok (inr q), s') => (Some q, s')
  | (_, s') => (None, s')
  end.

Definition first := begun hello s0.
Definition second := begun other first.2.

Definition commit (q : option pending) (s : S) : result blob_error BlobInfo * S :=
  match q with Some q => put_commit (BlobStore := store) q s | None => (Raise StorageError, s) end.

Definition won := commit first.1 second.2.
Definition lost := commit second.1 won.2.

Definition writers : list pending :=
  match first.1, second.1 with Some q1, Some q2 => [q1; q2] | _, _ => [] end.

Lemma begins q1 q2 :
  first.1 = Some q1 → second.1 = Some q2 →
  rtc race_step (s0, []) (second.2, [q2; q1]).
Proof.
  intros H1 H2. unfold second, first, begun in *.
  destruct (put_begin _ hello _ s0) as [[[?|q]|?] s1] eqn:Hb1; simplify_eq/=.
  destruct (put_begin _ other _ s1) as [[[?|q']|?] s2] eqn:Hb2; simplify_eq/=.
  eapply rtc_l; [exact (race_begin _ _ _ _ [] _ _ Hb1)|].
  apply rtc_once. exact (race_begin _ _ _ _ [q1] _ _ Hb2).
Qed.

Lemma loses q2 :
  second.1 = Some q2 → rtc race_step (won.2, [q2]) (lost.2, []).
Proof.
  intros H2. unfold lost. rewrite H2. simpl. apply rtc_once.
  destruct (put_commit q2 won.2) as [r s'] eqn:Hc. exact (race_commit _ [] q2 [] _ _ Hc).
Qed.
End race.

Definition fs_first := default {| pf_key := ""; pf_path := []; pf_temp := []; pf_data := [];
  pf_content_type := "" |} (first fs_store empty_fs).1.
Definition fs_second := default fs_first (second fs_store empty_fs).1.
Definition s3_first := default {| po_key := ""; po_put := {| sp_bucket := ""; sp_key := "";
  sp_body := []; sp_content_type := ""; sp_sha256 := ""; sp_encryption := None |} |}
  (first s3_store (∅ : Service)).1.
Definition s3_second := default s3_first (second s3_store (∅ : Service)).1.

Definition told : BlobInfo :=
  {| bi_key := "a/b.json"; bi_checksum := "hello"; bi_size_bytes := 5;
     bi_content_type := "application/json" |}.

Example fs_race :
  (first fs_store empty_fs).1 = Some fs_first ∧ (second fs_store empty_fs).1 = Some fs_second
  ∧ (won fs_store empty_fs).1 = Ok told
  ∧ (lost fs_store empty_fs).1 = Raise ImmutableBlobError.
Proof. by vm_compute. Qed.

Example s3_race :
  (first s3_store (∅ : Service)).1 = Some s3_first
  ∧ (second s3_store (∅ : Service)).1 = Some s3_second
  ∧ (won s3_store (∅ : Service)).1 = Ok told
  ∧ (lost s3_store (∅ : Service)).1 = Raise ImmutableBlobError.
Proof. by vm_compute. Qed.
End Race.

Theorem blobs_are_immutable_witness :
  (∃ d, fs_holds (Race.lost Concrete.fs_store empty_fs).2 ["a"; "b.json"]%string = Some d
        ∧ Concrete.digest d = "hello"%string)
  ∧ (∃ d, s3_holds Concrete.config (Race.lost Concrete.s3_store (∅ : Concrete.Service)).2
            ["a"; "b.json"]%string = Some d ∧ Concrete.digest d = "hello"%string).
Proof.
  destruct (blobs_are_immutable Concrete.digest Concrete.mkstemp Concrete.mkstemp_fresh
    Concrete.config) as [Hfs Hs3]. split.
  - destruct Race.fs_race as (H1 & H2 & Hw & _).
    pose proof (Race.begins Concrete.fs_store empty_fs _ _ H1 H2) as Hb.
    set (laws := filesystem_laws Concrete.digest Concrete.mkstemp Concrete.mkstemp_fresh).
    destruct (races_keep (HL := laws) _ _ [] [] Hb (empty_fs_ok)) as [Hok _].
    assert (put_commit (BlobStore := Concrete.fs_store) Race.fs_first
      (Race.second Concrete.fs_store empty_fs).2 = (Ok Race.told, (Race.won Concrete.fs_store empty_fs).2)) as Hc.
    { rewrite <- Hw. unfold Race.won, Race.commit. rewrite H1. apply surjective_pairing. }
    destruct (race_keeps (HL := laws) _ _ [] [] (race_commit (HS := Concrete.fs_store) _
      [Race.fs_second] Race.fs_first [] _ _ Hc) Hok) as [Hok1 _].
    destruct (Hfs _ _ _ _ Hok1 (Race.loses Concrete.fs_store empty_fs _ H2)) as [_ Ht].
    destruct (Ht [Race.fs_second] Race.fs_first [] _ _ Hok eq_refl Hc) as [_ Hd]. exact Hd.
  - destruct Race.s3_race as (H1 & H2 & Hw & _).
    pose proof (Race.begins Concrete.s3_store ∅ _ _ H1 H2) as Hb.
    set (laws := s3_store_laws Concrete.digest Concrete.config (C := Concrete.Service)).
    destruct (races_keep (HL := laws) _ _ [] [] Hb Concrete.nothing_stored) as [Hok _].
    assert (put_commit (BlobStore := Concrete.s3_store) Race.s3_first
      (Race.second Concrete.s3_store ∅).2 = (Ok Race.told, (Race.won Concrete.s3_store ∅).2)) as Hc.
    { rewrite <- Hw. unfold Race.won, Race.commit. rewrite H1. apply surjective_pairing. }
    destruct (race_keeps (HL := laws) _ _ [] [] (race_commit (HS := Concrete.s3_store) _
      [Race.s3_second] Race.s3_first [] _ _ Hc) Hok) as [Hok1 _].
    destruct (Hs3 _ _ _ _ Hok1 (Race.loses Concrete.s3_store ∅ _ H2)) as [_ Ht].
    destruct (Ht [Race.s3_second] Race.s3_first [] _ _ Hok eq_refl Hc) as [_ Hd]. exact Hd.
Defined.
