(* ===== verification/ResponseCache.v ===== *)
(** * ResponseCache: the cache of paid responses of services/cache.py

    A paid response is stored once, without credentials, inline or as a blob, and
    served again for the same request until it expires.  Nothing is served that
    does not pass the integrity checks of [lookup_cached_response].

    Parameters: SHA-256, and the JSON text of the standard library's encoder
    (keys sorted, compact separators) and decoder, class [JsonText]. *)
From S2P Require Import Prelude.
From S2P Require Import Binary64.
From S2P Require Import Schema.
From S2P Require Import BlobStorage.
From Stdlib Require Import Strings.Byte SpecFloat.

(** ** JSON text *)

Class JsonText : Type := {
  (** [json.dumps(v, sort_keys=True, separators=(",", ":"), default=str)] *)
  dumps : json → string;
  (** [json.loads]; [None] is the decoding error *)
  loads : bytes → option json
}.

(** [s.encode()] *)
Definition utf8 (s : string) : bytes := String.list_byte_of_string s.

Definition entry_le (x y : string * json) : Prop := (x.1 ≤ y.1)%string.
#[export] Instance entry_le_dec : RelDecision entry_le.
Proof. intros x y. unfold entry_le. apply _. Defined.

(** The value with the keys of every object sorted. *)
Fixpoint canon (v : json) : json :=
  match v with
  | JObj l => JObj (merge_sort entry_le (map (λ kv, match kv with (k, x) => (k, canon x) end) l))
  | JList l => JList (map canon l)
  | v => v
  end.

(** A value Python can hold: unique keys in every dict, and proper floats. *)
Fixpoint python_value (v : json) : Prop :=
  match v with
  | JObj l =>
      NoDup (map fst l) ∧
      (fix entries (l : list (string * json)) : Prop :=
         match l with [] => True | (_, x) :: l' => python_value x ∧ entries l' end) l
  | JList l =>
      (fix items (l : list json) : Prop :=
         match l with [] => True | x :: l' => python_value x ∧ items l' end) l
  | JFloat f => valid_binary F64.prec F64.emax f = true
  | _ => True
  end.

Class JsonTextLaws `{JsonText} : Prop := {
  loads_dumps v : python_value v → loads (utf8 (dumps v)) = Some (canon v);
  dumps_canon v : python_value v → dumps (canon v) = dumps v
}.

(** ** Rows and state *)

(** [RawApiResponseORM] *)
Record RawApiResponse : Type := {
  ra_cache_key : string;
  ra_provider : string;
  ra_endpoint : string;
  ra_parameters : json;
  ra_api_version : string;
  ra_response_shape_version : string;
  ra_response_json : json;
  ra_sanitized : bool;
  ra_status_code : option Z;
  ra_request_time : Z;
  ra_response_time : Z;
  ra_cost_usd : binary64;
  ra_provider_task_id : option string;
  ra_provider_request_id : option string;
  ra_source_scan_run_id : option Z;
  ra_checksum : string;
  ra_expires_at : option Z;
  ra_object_key : option string;
  ra_storage_backend : option string;
  ra_content_type : option string;
  ra_size_bytes : option Z;
  ra_retention_classification : string;
  ra_encryption_status : string;
  ra_blob_created_at : option Z
}.

(** The tables raw_api_responses and raw_response_cache_entries, and the blob
    store of the settings. *)
Record CacheState (S : Type) : Type := {
  raw_api_responses : gmap Z RawApiResponse;
  cache_entries : gmap string Z;
  blobs : S;
  cache_dialect : dialect
}.
Arguments Build_CacheState {S}.
Arguments raw_api_responses {S} _.
Arguments cache_entries {S} _.
Arguments blobs {S} _.
Arguments cache_dialect {S} _.
#[export] Instance eta_CacheState (S : Type) : Eta (CacheState S) := λ r,
  Build_CacheState (raw_api_responses r) (cache_entries r) (blobs r) (cache_dialect r).

Inductive cache_error : Type :=
| RawResponseIntegrityError
| JSONDecodeError
| BlobError (e : blob_error).

(** ** Requests and keys *)

Definition SENSITIVE_KEYS : list string :=
  ["authorization"; "auth"; "api_key"; "api_token"; "password"; "login";
   "dataforseo_login"; "dataforseo_password"].

Definition DEFAULT_RESPONSE_SHAPE_VERSION : string := "v1".
Definition RAW_RESPONSE_CONTENT_TYPE : string := "application/json".

Definition credential (key : string) : bool := bool_decide (py_lower key ∈ SENSITIVE_KEYS).

Definition hidden : json := JStr "<redacted>".

Fixpoint sanitize_payload (v : json) : json :=
  match v with
  | JObj l => JObj (map (λ kv, match kv with
                               | (k, x) => (k, if credential k then hidden else sanitize_payload x)
                               end) l)
  | JList l => JList (map sanitize_payload l)
  | v => v
  end.

(** [sub in s] *)
Fixpoint contains (sub s : string) : bool :=
  String.prefix sub s || match s with String _ s' => contains sub s' | EmptyString => false end.

Definition ttl_for_endpoint (endpoint : string) : option Z :=
  if contains "/locations/" endpoint then Some (90 * day_us)
  else if contains "keyword_suggestions" endpoint then Some (30 * day_us)
  else if contains "historical_search_volume" endpoint then Some (30 * day_us)
  else if contains "business_listings" endpoint then Some (10 * day_us)
  else if contains "backlinks" endpoint then Some (45 * day_us)
  else if contains "/serp/" endpoint then None
  else Some (30 * day_us).

Definition is_dict (v : json) : bool := match v with JObj _ => true | _ => false end.

(** Two characters of a string: [s[:2]] *)
Definition first_two (s : string) : string := String.substring 0 2 s.

Section cache.
Context {S : Type} `{BlobStore S} `{JsonText} (sha256 : bytes → string).
Abbreviation Cache A := (M (CacheState S) cache_error A).
Implicit Types (st : CacheState S) (row : RawApiResponse).

Definition normalize_request (params : json) : option json := loads (utf8 (dumps params)).

(** The text that names a request. *)
Definition request_text (provider endpoint : string) (normalized : json)
    (api_version shape : string) : string :=
  provider +:+ ":" +:+ endpoint +:+ ":" +:+ api_version +:+ ":" +:+ shape +:+ ":"
  +:+ dumps normalized.

Definition cache_key (provider endpoint : string) (params : json)
    (api_version shape : string) : option string :=
  normalized ← normalize_request params;
  Some (sha256 (utf8 (request_text provider endpoint normalized api_version shape))).

Definition serialize_payload (payload : json) : bytes := utf8 (dumps payload).

Definition checksum_payload (payload : json) : string := sha256 (serialize_payload payload).

(** A call of the blob store. *)
Definition with_blobs {A} (m : M S blob_error A) : Cache A := λ st,
  match m (blobs st) with
  | (Ok a, s') => (Ok a, st <| blobs := s' |>)
  | (Raise e, s') => (Raise (BlobError e), st <| blobs := s' |>)
  end.

(** [try: m except Exception: raise RawResponseIntegrityError] *)
Definition or_integrity_error {A} (m : Cache A) : Cache A :=
  reraise (λ _, RawResponseIntegrityError) m.

(** ** Reading a stored response *)

(** The bytes of a blob, checked and decoded. *)
Definition decode_blob (row : RawApiResponse) (encoded : bytes) : Cache json :=
  raise_if (match ra_size_bytes row with
            | Some n => negb (blob_size encoded =? n) | None => false end)
    RawResponseIntegrityError ≫= λ _,
  get_or_raise (λ _, loads encoded) RawResponseIntegrityError ≫= λ decoded,
  raise_if (negb (is_dict decoded)) RawResponseIntegrityError ≫= λ _,
  mret decoded.

Definition raw_response_payload (row : RawApiResponse) : Cache json :=
  (match ra_object_key row with
   | None => mret (ra_response_json row)
   | Some key => or_integrity_error (with_blobs (blob_get key)) ≫= decode_blob row
   end) ≫= λ payload,
  raise_if (str_truthy (ra_checksum row)
            && negb (bool_decide (ra_checksum row = checksum_payload payload)))
    RawResponseIntegrityError ≫= λ _,
  mret payload.

(** ** Lookup *)

Inductive InvalidReason : Type :=
| missing_cache_pointer
| missing_response_metadata
| cache_key_mismatch
| response_metadata_mismatch
| unsanitized_response
| missing_checksum
| invalid_inline_response_metadata
| expired
| incomplete_blob_metadata
| response_integrity_failure.

Record CacheLookup : Type := {
  cl_cache_key : string;
  cl_row : option (Z * RawApiResponse);
  cl_payload : option json;
  cl_invalid_reason : option InvalidReason
}.

Definition is_valid (l : CacheLookup) : bool :=
  match cl_row l, cl_payload l, cl_invalid_reason l with
  | Some _, Some _, None => true
  | _, _, _ => false
  end.

Definition invalid (key : string) (row : option (Z * RawApiResponse)) (r : InvalidReason)
    : CacheLookup :=
  {| cl_cache_key := key; cl_row := row; cl_payload := None; cl_invalid_reason := Some r |}.

(** [_as_aware_utc(column)] *)
Definition as_aware_utc st (t : Z) : Z := instant (aware_utc (column_read (cache_dialect st) t)).

Definition current_raw_response st (key : string) : option (Z * RawApiResponse) :=
  i ← cache_entries st !! key;
  row ← raw_api_responses st !! i;
  if bool_decide (ra_cache_key row = key) then Some (i, row) else None.

Definition opt_falsy (s : option string) : bool := negb (opt_truthy s).

(** The checks on a row of the right key, up to reading the payload. *)
Definition metadata_fault st (row : RawApiResponse) (now : Z) : option InvalidReason :=
  if negb (ra_sanitized row) then Some unsanitized_response
  else if negb (str_truthy (ra_checksum row)) then Some missing_checksum
  else if bool_decide (ra_object_key row = None) && negb (is_dict (ra_response_json row))
  then Some invalid_inline_response_metadata
  else if match ra_expires_at row with
          | Some t => as_aware_utc st t <=? now | None => false end
  then Some expired
  else if bool_decide (is_Some (ra_object_key row))
          && (opt_falsy (ra_storage_backend row)
              || negb (bool_decide (ra_content_type row = Some RAW_RESPONSE_CONTENT_TYPE))
              || bool_decide (ra_size_bytes row = None)
              || bool_decide (ra_blob_created_at row = None))
  then Some incomplete_blob_metadata
  else None.

(** The payload of a row that passed the checks, unless its integrity check fails. *)
Definition read_payload (key : string) (i : Z) (row : RawApiResponse) : Cache CacheLookup := λ st,
  match raw_response_payload row st with
  | (Ok payload, st') =>
      (Ok {| cl_cache_key := key; cl_row := Some (i, row); cl_payload := Some payload;
             cl_invalid_reason := None |}, st')
  | (Raise RawResponseIntegrityError, st') =>
      (Ok (invalid key (Some (i, row)) response_integrity_failure), st')
  | (Raise e, st') => (Raise e, st')
  end.

Definition lookup_cached_response (key : string) (now : Z) : Cache CacheLookup :=
  gets (λ st, cache_entries st !! key) ≫= λ (pointer : option Z),
  match pointer with
  | None => mret (invalid key None missing_cache_pointer)
  | Some i =>
  gets (λ st, raw_api_responses st !! i) ≫= λ (found : option RawApiResponse),
  match found with
  | None => mret (invalid key None missing_response_metadata)
  | Some row =>
  if negb (bool_decide (ra_cache_key row = key))
  then mret (invalid key (Some (i, row)) cache_key_mismatch)
  else
  get_or_raise (λ _, normalize_request (ra_parameters row)) JSONDecodeError ≫= λ normalized,
  get_or_raise (λ _, cache_key (ra_provider row) (ra_endpoint row) normalized
                       (ra_api_version row) (ra_response_shape_version row)) JSONDecodeError
  ≫= λ expected_key,
  if negb (bool_decide (expected_key = key))
  then mret (invalid key (Some (i, row)) response_metadata_mismatch)
  else
  gets (λ st, metadata_fault st row now) ≫= λ (fault : option InvalidReason),
  match fault with
  | Some r => mret (invalid key (Some (i, row)) r)
  | None => read_payload key i row
  end end end.

(** ** The cache of one provider *)

(** The attributes of [RawResponseCache]; [rc_has_blob_store] says whether it was given
    a blob store. *)
Record RawResponseCache : Type := {
  rc_provider : string;
  rc_api_version : string;
  rc_response_shape_version : string;
  rc_has_blob_store : bool;
  rc_storage_backend : option string;
  rc_encryption_status : string
}.
Implicit Types rc : RawResponseCache.

Definition _cache_key rc (endpoint : string) (params : json) : option string :=
  normalized ← normalize_request params;
  cache_key (rc_provider rc) endpoint normalized (rc_api_version rc)
    (rc_response_shape_version rc).

Definition cache_lookup rc (endpoint : string) (params : json) (now : Z) : Cache CacheLookup :=
  get_or_raise (λ _, _cache_key rc endpoint params) JSONDecodeError ≫= λ key,
  lookup_cached_response key now.

Definition cache_get rc (endpoint : string) (params : json) (now : Z) : Cache (option json) :=
  cache_lookup rc endpoint params now ≫= λ l, mret (cl_payload l).

Definition cache_get_row rc (endpoint : string) (params : json) : Cache (option (Z * RawApiResponse)) :=
  get_or_raise (λ _, _cache_key rc endpoint params) JSONDecodeError ≫= λ key,
  gets (λ st, current_raw_response st key).

(** The keyword arguments of [set]. *)
Record Receipt : Type := {
  rp_status_code : Z;
  rp_cost_usd : binary64;
  rp_provider_task_id : option string;
  rp_provider_request_id : option string;
  rp_source_scan_run_id : option Z
}.

Definition object_key_of rc (checksum : string) : string :=
  "raw-responses/" +:+ rc_provider rc +:+ "/" +:+ first_two checksum +:+ "/" +:+ checksum
  +:+ ".json".

(** Store the payload as a blob. *)
Definition put_blob rc (payload : json) : Cache (string * BlobInfo) :=
  let checksum := checksum_payload payload in
  let key := object_key_of rc checksum in
  with_blobs (blob_put key (serialize_payload payload) RAW_RESPONSE_CONTENT_TYPE) ≫= λ blob,
  raise_if (negb (bool_decide (bi_checksum blob = checksum))) RawResponseIntegrityError ≫= λ _,
  mret (key, blob).

Definition response_row rc (endpoint key : string) (normalized payload : json)
    (blob : option (string * BlobInfo)) (receipt : Receipt) (now : Z) : RawApiResponse :=
  {| ra_cache_key := key; ra_provider := rc_provider rc; ra_endpoint := endpoint;
     ra_parameters := normalized; ra_api_version := rc_api_version rc;
     ra_response_shape_version := rc_response_shape_version rc;
     ra_response_json := match blob with Some _ => JObj [] | None => payload end;
     ra_sanitized := true; ra_status_code := Some (rp_status_code receipt);
     ra_request_time := now; ra_response_time := now; ra_cost_usd := rp_cost_usd receipt;
     ra_provider_task_id := rp_provider_task_id receipt;
     ra_provider_request_id := rp_provider_request_id receipt;
     ra_source_scan_run_id := rp_source_scan_run_id receipt;
     ra_checksum := checksum_payload payload;
     ra_expires_at := (λ ttl, now + ttl) <$> ttl_for_endpoint endpoint;
     ra_object_key := fst <$> blob;
     ra_storage_backend :=
       match blob with
       | Some (k, _) => if str_truthy k then rc_storage_backend rc else None | None => None end;
     ra_content_type := bi_content_type ∘ snd <$> blob;
     ra_size_bytes := bi_size_bytes ∘ snd <$> blob;
     ra_retention_classification := "raw_provider_response";
     ra_encryption_status :=
       match blob with
       | Some (k, _) => if str_truthy k then rc_encryption_status rc else "not_applicable"
       | None => "not_applicable" end;
     ra_blob_created_at := (λ _, now) <$> blob |}.

(** Insert the row and point the cache entry at it. *)
Definition store_row (key : string) (row : RawApiResponse) : Cache unit :=
  gets (λ st, next_id (raw_api_responses st)) ≫= λ i,
  modify (λ st, st <| raw_api_responses ::= insert i row |>) ≫= λ _,
  modify (λ st, st <| cache_entries ::= insert key i |>).

Definition cache_set rc (endpoint : string) (params response : json) (receipt : Receipt) (now : Z)
    : Cache string :=
  get_or_raise (λ _, normalize_request params) JSONDecodeError ≫= λ normalized,
  get_or_raise (λ _, _cache_key rc endpoint normalized) JSONDecodeError ≫= λ key,
  let payload := sanitize_payload response in
  (if rc_has_blob_store rc then put_blob rc payload ≫= λ b, mret (Some b)
   else mret None) ≫= λ blob,
  store_row key (response_row rc endpoint key normalized payload blob receipt now) ≫= λ _,
  mret key.
End cache.
