(* ===== verification/ResponseCacheTheorems.v ===== *)
(** * ResponseCacheTheorems: what the cache serves

    A stored response is served until it expires, and only stored responses are
    served, even when the blobs are tampered with.  Proved against the interface
    [BlobStoreLaws] of the blob stores. *)
From S2P Require Import Prelude.
From S2P Require Import Binary64.
From S2P Require Import Schema.
From S2P Require Import BlobStorage.
From S2P Require Import BlobStorageProofs.
From S2P Require Import BlobStorageTheorems.
From S2P Require Import ResponseCache.
From Stdlib Require Import Strings.Byte SpecFloat.

(** ** Values *)

Lemma entries_forall (P : json → Prop) (l : list (string * json)) :
  (fix entries (l : list (string * json)) : Prop :=
     match l with [] => True | (_, x) :: l' => P x ∧ entries l' end) l
  ↔ Forall (λ kv, P kv.2) l.
Proof.
  induction l as [|[k x] l IH]; [split; [constructor|done]|]. rewrite Forall_cons. by rewrite IH.
Qed.

Lemma items_forall (P : json → Prop) (l : list json) :
  (fix items (l : list json) : Prop :=
     match l with [] => True | x :: l' => P x ∧ items l' end) l ↔ Forall P l.
Proof.
  induction l as [|x l IH]; [split; [constructor|done]|]. rewrite Forall_cons. by rewrite IH.
Qed.

Lemma sanitize_python v : python_value v → python_value (sanitize_payload v).
Proof.
  induction v as [| | | | |l IH|l IH] using json_nested_ind; try done; cbn.
  - rewrite !items_forall, Forall_map. rewrite !Forall_forall in *. naive_solver.
  - rewrite !entries_forall, Forall_map. intros [Hnd Hl]. split.
    + rewrite map_map. rewrite (map_ext _ fst); [done|]. by intros [].
    + rewrite !Forall_forall in *. intros [k x] Hx. cbn.
      destruct (credential k); [done|]. by apply (IH _ Hx), (Hl _ Hx).
Qed.

Lemma sanitize_dict v : is_dict (sanitize_payload v) = is_dict v.
Proof. by destruct v. Qed.

Lemma canon_dict v : is_dict (canon v) = is_dict v.
Proof. by destruct v. Qed.

#[local] Instance entry_le_total : Total entry_le.
Proof. intros x y. apply (total (≤)%string). Qed.
#[local] Instance entry_le_trans : Transitive entry_le.
Proof. intros x y z. unfold entry_le. apply transitivity. Qed.

(** Sorting the entries of a dict again changes nothing. *)
Lemma sort_again (l : list (string * json)) :
  NoDup l.*1 → merge_sort entry_le (merge_sort entry_le l) = merge_sort entry_le l.
Proof.
  intros Hnd. apply (StronglySorted_unique_strong entry_le).
  - intros [k1 x1] [k2 x2] H1 H2 Hle Hge. assert (k1 = k2) as <- by by apply (anti_symm (≤)%string).
    rewrite !merge_sort_Permutation in H1. rewrite merge_sort_Permutation in H2.
    f_equal. apply list_elem_of_lookup in H1 as [i Hi], H2 as [j Hj].
    assert (i = j) as <-.
    { apply (NoDup_lookup l.*1 i j k1); [done|..]; rewrite list_lookup_fmap; by rewrite ?Hi, ?Hj. }
    by simplify_eq.
  - by apply StronglySorted_merge_sort; apply _.
  - by apply StronglySorted_merge_sort; apply _.
  - by rewrite merge_sort_Permutation.
Qed.

Definition canon_entry (kv : string * json) : string * json :=
  match kv with (k, x) => (k, canon x) end.

Lemma canon_keys (l : list (string * json)) : (map canon_entry l).*1 = l.*1.
Proof. induction l as [|[k x] l IH]; [done|]. simpl. by f_equal. Qed.

Lemma canon_idem v : python_value v → canon (canon v) = canon v.
Proof.
  induction v as [| | | | |l IH|l IH] using json_nested_ind; try done; cbn.
  - rewrite items_forall. intros Hl. f_equal. rewrite map_map.
    apply map_ext_in. intros x Hx%list_elem_of_In. rewrite !Forall_forall in *. auto.
  - rewrite entries_forall. intros [Hnd Hl]. f_equal. fold canon_entry.
    set (l' := map canon_entry l).
    assert (map canon_entry (merge_sort entry_le l') = merge_sort entry_le l') as ->.
    { rewrite <- (map_id (merge_sort entry_le l')) at 2. apply map_ext_in.
      intros kv Hkv%list_elem_of_In. rewrite merge_sort_Permutation in Hkv.
      apply list_elem_of_fmap in Hkv as ([k x] & -> & Hx). simpl. f_equal.
      rewrite !Forall_forall in *. apply (IH _ Hx), (Hl _ Hx). }
    apply sort_again. unfold l'. by rewrite canon_keys.
Qed.

Section cache.
Context {S : Type} `{HS : BlobStore S} `{HJ : JsonText} (sha256 : bytes → string).
Context {HL : BlobStoreLaws S sha256} {HJL : JsonTextLaws}.
Implicit Types (s : S) (st : CacheState S) (row : RawApiResponse) (rc : RawResponseCache).

(** ** Keys *)

(** The key of a request. *)
Definition request_key rc (endpoint : string) (params : json) : string :=
  sha256 (utf8 (request_text (rc_provider rc) endpoint params (rc_api_version rc)
                  (rc_response_shape_version rc))).

Lemma normalize_ok v : python_value v → normalize_request v = Some (canon v).
Proof. apply loads_dumps. Qed.

Lemma normalize_canon v : python_value v → normalize_request (canon v) = Some (canon v).
Proof. intros Hv. unfold normalize_request. rewrite dumps_canon by done. by apply loads_dumps. Qed.

Lemma cache_key_canon provider endpoint v version shape :
  python_value v →
  cache_key sha256 provider endpoint (canon v) version shape
  = Some (sha256 (utf8 (request_text provider endpoint v version shape))).
Proof.
  intros Hv. unfold cache_key. rewrite normalize_canon by done. simpl.
  unfold request_text. by rewrite dumps_canon.
Qed.

Lemma request_key_ok rc endpoint v :
  python_value v → _cache_key sha256 rc endpoint v = Some (request_key rc endpoint v).
Proof.
  intros Hv. unfold _cache_key. rewrite normalize_ok by done. by apply cache_key_canon.
Qed.

Lemma request_key_canon rc endpoint v :
  python_value v → _cache_key sha256 rc endpoint (canon v) = Some (request_key rc endpoint v).
Proof.
  intros Hv. unfold _cache_key. rewrite normalize_canon by done. by apply cache_key_canon.
Qed.

Lemma request_key_same rc endpoint v v' :
  python_value v → python_value v' → canon v = canon v' →
  request_key rc endpoint v = request_key rc endpoint v'.
Proof.
  intros Hv Hv' Heq. unfold request_key, request_text.
  by rewrite <- (dumps_canon v), <- (dumps_canon v'), Heq.
Qed.

Lemma checksum_canon v : python_value v → checksum_payload sha256 (canon v) = checksum_payload sha256 v.
Proof. intros Hv. unfold checksum_payload, serialize_payload. by rewrite dumps_canon. Qed.

(** ** The effect of [set] *)

(** What a successful [set] did: the blob, if any, and the new row under the key. *)
Lemma set_run rc endpoint params response receipt now st key st' :
  python_value params →
  cache_set sha256 rc endpoint params response receipt now st = (Ok key, st') →
  key = request_key rc endpoint params ∧
  ∃ blob s', let payload := sanitize_payload response in
    let row := response_row sha256 rc endpoint key (canon params) payload blob receipt now in
    st' = st <| blobs := s' |> <| raw_api_responses ::= insert (next_id (raw_api_responses st)) row |>
             <| cache_entries ::= insert key (next_id (raw_api_responses st)) |>
    ∧ match blob with
      | None => rc_has_blob_store rc = false ∧ s' = blobs st
      | Some (k, i) => rc_has_blob_store rc = true
          ∧ k = object_key_of rc (checksum_payload sha256 payload)
          ∧ blob_put k (serialize_payload payload) RAW_RESPONSE_CONTENT_TYPE (blobs st) = (Ok i, s')
          ∧ bi_checksum i = checksum_payload sha256 payload
      end.
Proof.
  intros Hp. unfold cache_set. rewrite bind_get_or_raise, normalize_ok by done.
  rewrite bind_get_or_raise, request_key_canon by done. cbv zeta.
  destruct (rc_has_blob_store rc) eqn:Hb.
  - unfold put_blob, store_row. intros Hrun. run_inv. unfold with_blobs in *.
    match goal with H : context [blob_put ?k ?d ?t ?s] |- _ =>
      destruct (blob_put k d t s) as [[info|e] s1] eqn:Hput end; simplify_eq.
    split; [done|]. eexists (Some (_, _)), s1. split; [reflexivity|]. bools. done.
  - rewrite bind_ret. unfold store_row. intros Hrun. run_inv. split; [done|].
    exists None, (blobs st). split; [|done]. by destruct st.
Qed.

(** ** Lookups *)

Lemma lookup_of_row key i row v now st :
  cache_entries st !! key = Some i → raw_api_responses st !! i = Some row →
  ra_cache_key row = key → python_value v → ra_parameters row = canon v →
  sha256 (utf8 (request_text (ra_provider row) (ra_endpoint row) v (ra_api_version row)
                  (ra_response_shape_version row))) = key →
  lookup_cached_response sha256 key now st
  = match metadata_fault st row now with
    | Some r => (Ok (invalid key (Some (i, row)) r), st)
    | None => read_payload sha256 key i row st
    end.
Proof.
  intros Hi Hrow Hkey Hv Hp Htext. unfold lookup_cached_response.
  rewrite bind_gets, Hi, bind_gets, Hrow, bool_decide_eq_true_2 by done. simpl.
  rewrite bind_get_or_raise, Hp, normalize_canon by done.
  rewrite bind_get_or_raise, cache_key_canon by done.
  rewrite bool_decide_eq_true_2 by done. simpl. rewrite bind_gets.
  by destruct (metadata_fault st row now).
Qed.

(** The expiry of a row of the endpoint stored at [t]. *)
Definition lapsed (endpoint : string) (t now : Z) : bool :=
  match ttl_for_endpoint endpoint with Some ttl => t + ttl <=? now | None => false end.

Lemma as_aware_utc_id st x : as_aware_utc st x = x.
Proof. unfold as_aware_utc. rewrite aware_utc_column_read. simpl. lia. Qed.

Lemma object_key_truthy rc c : str_truthy (object_key_of rc c) = true.
Proof. done. Qed.

Lemma stored_fault st rc endpoint key params payload blob receipt t now :
  is_dict payload = true → str_truthy (checksum_payload sha256 payload) = true →
  match blob with
  | Some (k, i) => str_truthy k = true ∧ opt_truthy (rc_storage_backend rc) = true
                   ∧ bi_content_type i = RAW_RESPONSE_CONTENT_TYPE
  | None => True end →
  metadata_fault st (response_row sha256 rc endpoint key params payload blob receipt t) now
  = if lapsed endpoint t now then Some expired else None.
Proof.
  intros Hd Hc Hb. unfold metadata_fault, lapsed. cbn [ra_sanitized ra_checksum response_row
    ra_object_key ra_response_json ra_expires_at ra_storage_backend ra_content_type ra_size_bytes
    ra_blob_created_at]. rewrite Hc. simpl.
  destruct (ttl_for_endpoint endpoint) as [ttl|]; simpl; rewrite ?as_aware_utc_id;
    (destruct blob as [[k i]|]; simpl;
     [destruct Hb as (Hk & Hs & Ht); unfold opt_falsy; rewrite Hk, Hs, Ht|rewrite Hd]);
    try done; by destruct (_ <=? _).
Qed.

(** ** Reading back what was stored *)

(** The blob under the object key, if the cache uses one, is the payload's. *)
Lemma put_blob_stored k i payload s s' p :
  blobs_ok [] s → _safe_relative_key k = Some p →
  (∀ d, holds s p = Some d → sha256 d = checksum_payload sha256 payload →
        d = serialize_payload payload) →
  (type_of s p = None ∨ type_of s p = Some RAW_RESPONSE_CONTENT_TYPE) →
  blob_put k (serialize_payload payload) RAW_RESPONSE_CONTENT_TYPE s = (Ok i, s') →
  blobs_ok [] s' ∧ holds s' p = Some (serialize_payload payload)
  ∧ bi_size_bytes i = blob_size (serialize_payload payload)
  ∧ bi_content_type i = RAW_RESPONSE_CONTENT_TYPE.
Proof.
  intros Hok Hk Hcol Hty Hput. apply put_law in Hput as [Hok' Hput]; [|done].
  rewrite Hk in Hput. split; [done|].
  destruct Hput as (Hc & [((Hn & Hx) & Hsz & Hct)|(Hs & d & Hd & Hsha & Hsz & Hct)]).
  - by rewrite Hx, decide_True.
  - assert (d = serialize_payload payload) as -> by by apply Hcol.
    rewrite Hs. split; [done|]. split; [by destruct Hsz|].
    rewrite Hct. by destruct Hty as [->| ->].
Qed.

Lemma decode_stored row payload st :
  python_value payload → is_dict payload = true →
  ra_size_bytes row = Some (blob_size (serialize_payload payload)) →
  decode_blob row (serialize_payload payload) st = (Ok (canon payload), st).
Proof.
  intros Hv Hd Hsz. unfold decode_blob. rewrite Hsz, Z.eqb_refl, bind_raise_if. simpl.
  unfold serialize_payload. rewrite bind_get_or_raise, loads_dumps, bind_raise_if by done.
  by rewrite canon_dict, Hd.
Qed.

(** What the blob store must grant a cache that uses one: the payload's object key
    is a valid key whose blob, if there is one, is the payload's and typed as
    JSON. *)
Definition blob_room rc (payload : json) s : Prop :=
  rc_has_blob_store rc = true →
  opt_truthy (rc_storage_backend rc) = true
  ∧ ∃ p, _safe_relative_key (object_key_of rc (checksum_payload sha256 payload)) = Some p
    ∧ (∀ d, holds s p = Some d → sha256 d = checksum_payload sha256 payload →
            d = serialize_payload payload)
    ∧ (type_of s p = None ∨ type_of s p = Some RAW_RESPONSE_CONTENT_TYPE).

(** The store answers the read of the payload's blob. *)
Definition blob_readable rc (payload : json) s : Prop :=
  rc_has_blob_store rc = true →
  (blob_get (object_key_of rc (checksum_payload sha256 payload)) s).1 ≠ Raise StorageError.

(** What the cache returns for a stored payload: itself, or, decoded from a blob,
    with its keys sorted. *)
Definition served rc (payload : json) : json :=
  if rc_has_blob_store rc then canon payload else payload.

Lemma read_stored rc endpoint params response receipt t st key st1 i row :
  python_value params → python_value response → is_dict response = true →
  blobs_ok [] (blobs st) →
  let payload := sanitize_payload response in
  blob_room rc payload (blobs st) →
  cache_set sha256 rc endpoint params response receipt t st = (Ok key, st1) →
  blob_readable rc payload (blobs st1) →
  cache_entries st1 !! key = Some i → raw_api_responses st1 !! i = Some row →
  ra_cache_key row = key ∧ ra_parameters row = canon params
  ∧ request_key rc endpoint params = sha256 (utf8 (request_text (ra_provider row)
       (ra_endpoint row) params (ra_api_version row) (ra_response_shape_version row)))
  ∧ (str_truthy (checksum_payload sha256 payload) = true → ∀ now,
     metadata_fault st1 row now = if lapsed endpoint t now then Some expired else None)
  ∧ ∃ st2, raw_response_payload sha256 row st1 = (Ok (served rc payload), st2).
Proof.
  intros Hp Hr Hd Hok payload Hroom Hset Hread.
  assert (python_value payload) as Hpay by by apply sanitize_python.
  assert (is_dict payload = true) as Hpd by (unfold payload; by rewrite sanitize_dict).
  apply set_run in Hset as (-> & blob & s' & -> & Hblob); [|done]. cbv zeta in *. simpl.
  rewrite !lookup_insert_eq. intros [= <-]. rewrite lookup_insert_eq. intros [= <-].
  split; [done|]. split; [done|]. split; [done|].
  unfold blob_room, blob_readable, served in *. destruct blob as [[k info]|].
  - destruct Hblob as (Hb & -> & Hput & Hsum). rewrite Hb in *.
    destruct (Hroom eq_refl) as (Hbk & p & Hk & Hcol & Hty).
    destruct (put_blob_stored _ _ _ _ _ _ Hok Hk Hcol Hty Hput) as (Hok' & Hh & Hsz & Hct).
    split; [intros Ht now; by apply stored_fault|].
    specialize (Hread eq_refl). simpl in Hread.
    destruct (blob_get (object_key_of rc (checksum_payload sha256 payload)) s')
      as [r s2] eqn:Hget. apply get_law with (l := []) in Hget as Hlaw; [|done].
    destruct Hlaw as (_ & _ & Hg). rewrite Hk in Hg.
    assert (r = Ok (serialize_payload payload)) as ->.
    { destruct r as [d|e]; [congruence|]. destruct Hg as [->|[_ Hn]]; [done|congruence]. }
    eexists. unfold raw_response_payload. simpl.
    unfold or_integrity_error, with_blobs, reraise, mbind, M_bind. simpl.
    unfold payload in Hget. rewrite Hget. rewrite decode_stored by (done || (simpl; by rewrite Hsz)).
    unfold raise_if. rewrite checksum_canon by done. rewrite bool_decide_eq_true_2 by done.
    by rewrite andb_false_r.
  - destruct Hblob as [Hb ->]. rewrite Hb in *.
    split; [intros Ht now; by apply stored_fault|]. eexists. unfold raw_response_payload. simpl.
    rewrite bind_ret, bind_raise_if. rewrite bool_decide_eq_true_2 by done.
    by rewrite andb_false_r.
Qed.

(** C17: a stored response is served until it expires: after [set], every lookup of
    the same request (with parameters equal up to the order of keys) returns the
    response without its credentials, whether it was kept inline or as a blob,
    as long as the endpoint's time to live has not run out, and afterwards is
    answered with [expired] and no payload; the lookup itself never raises. *)
Theorem stored_response_is_served_until_it_expires
    rc endpoint params response receipt t st key st1
    (Hsha : ∀ d, str_truthy (sha256 d) = true)
    (Hparams : python_value params)
    (Hresponse : python_value response) (Hdict : is_dict response = true)
    (Hok : blobs_ok [] (blobs st))
    (Hroom : blob_room rc (sanitize_payload response) (blobs st))
    (Hset : cache_set sha256 rc endpoint params response receipt t st = (Ok key, st1))
    (Hread : blob_readable rc (sanitize_payload response) (blobs st1))
    params' now (Hparams' : python_value params') (Hsame : canon params' = canon params) :
  ∃ l st2, cache_lookup sha256 rc endpoint params' now st1 = (Ok l, st2)
    ∧ if lapsed endpoint t now
      then cl_invalid_reason l = Some expired ∧ cl_payload l = None
      else is_valid l = true ∧ cl_payload l = Some (served rc (sanitize_payload response)).
Proof.
  unfold cache_lookup. rewrite bind_get_or_raise, request_key_ok by done.
  rewrite (request_key_same _ _ _ params) by done.
  pose proof (set_run _ _ _ _ _ _ _ _ _ Hparams Hset) as (Hkey & blob & s' & Hst & _).
  cbv zeta in Hst.
  assert (∃ i row, cache_entries st1 !! key = Some i ∧ raw_api_responses st1 !! i = Some row)
    as (i & row & Hi & Hrow).
  { rewrite Hst. simpl. eexists _, _. split; apply lookup_insert_eq. }
  destruct (read_stored rc endpoint params response receipt t st key st1 i row)
    as (H1 & H2 & H3 & H4 & st2 & H5); [done..|].
  rewrite <- Hkey, (lookup_of_row key i row params) by (done || congruence).
  rewrite H4 by apply Hsha. destruct (lapsed endpoint t now); [by eexists _, _|].
  unfold read_payload. rewrite H5. by eexists _, _.
Qed.

(** ** Histories *)

(** The last payload stored under a key. *)
Definition latest (key : string) (h : list (string * json)) : option json :=
  snd <$> head (List.filter (λ kv, bool_decide (kv.1 = key)) h).

(** The cache at work, with the payloads it stored, newest first; in between anybody
    may do anything to the blobs. *)
Inductive cache_step : CacheState S * list (string * json) → CacheState S * list (string * json)
    → Prop :=
| step_set rc endpoint params response receipt now st h key st' :
    python_value params →
    cache_set sha256 rc endpoint params response receipt now st = (Ok key, st') →
    cache_step (st, h) (st', (key, sanitize_payload response) :: h)
| step_set_failed rc endpoint params response receipt now st h e st' :
    python_value params →
    cache_set sha256 rc endpoint params response receipt now st = (Raise e, st') →
    cache_step (st, h) (st', h)
| step_lookup rc endpoint params now st h r st' :
    python_value params →
    cache_lookup sha256 rc endpoint params now st = (r, st') → cache_step (st, h) (st', h)
| step_tamper st h s : cache_step (st, h) (st <| blobs := s |>, h).

(** What a cache entry points at. *)
Record entry_ok (h : list (string * json)) (key : string) row : Prop := {
  en_key : ra_cache_key row = key;
  en_request : ∃ v, python_value v ∧ ra_parameters row = canon v
    ∧ sha256 (utf8 (request_text (ra_provider row) (ra_endpoint row) v (ra_api_version row)
                      (ra_response_shape_version row))) = key;
  en_payload : ∃ payload, latest key h = Some payload
    ∧ ra_checksum row = checksum_payload sha256 payload
    ∧ (ra_object_key row = None → ra_response_json row = payload)
}.

Definition cache_ok (c : CacheState S * list (string * json)) : Prop :=
  ∀ key, match cache_entries c.1 !! key with
         | Some i => ∃ row, raw_api_responses c.1 !! i = Some row ∧ entry_ok c.2 key row
         | None => latest key c.2 = None
         end.

Lemma latest_cons key key' payload h :
  latest key ((key', payload) :: h) = if decide (key' = key) then Some payload else latest key h.
Proof. unfold latest. simpl. case_bool_decide; by case_decide. Qed.

(** Reads change the blob store at most. *)
Definition same_tables st st' : Prop :=
  cache_entries st' = cache_entries st ∧ raw_api_responses st' = raw_api_responses st.

Lemma cache_ok_same st st' h : same_tables st st' → cache_ok (st, h) → cache_ok (st', h).
Proof. intros [He Hr] Hc key. specialize (Hc key). simpl in *. by rewrite He, Hr. Qed.

Lemma with_blobs_tables {A} (m : M S blob_error A) st r st' :
  with_blobs m st = (r, st') → same_tables st st'.
Proof. unfold with_blobs. destruct (m (blobs st)) as [[?|?] ?]; by intros [= <- <-]. Qed.

Lemma payload_tables row st r st' :
  raw_response_payload sha256 row st = (r, st') →
  same_tables st st' ∧
  (r = Raise RawResponseIntegrityError
   ∨ ∃ p, r = Ok p ∧ (str_truthy (ra_checksum row) = true →
                      checksum_payload sha256 p = ra_checksum row)
       ∧ (ra_object_key row = None → p = ra_response_json row)).
Proof.
  unfold raw_response_payload.
  assert (∀ p st1, (raise_if (str_truthy (ra_checksum row)
      && negb (bool_decide (ra_checksum row = checksum_payload sha256 p)))
      RawResponseIntegrityError ≫= λ _, mret p) st1 = (r, st') →
    (ra_object_key row = None → p = ra_response_json row) →
    st' = st1 ∧ (r = Raise RawResponseIntegrityError
   ∨ ∃ p, r = Ok p ∧ (str_truthy (ra_checksum row) = true →
                      checksum_payload sha256 p = ra_checksum row)
       ∧ (ra_object_key row = None → p = ra_response_json row))) as Hcheck.
  { intros p st1 Hrun Hp. rewrite bind_raise_if in Hrun. destruct (_ && _) eqn:Hc;
      injection Hrun as <- <-; (split; [done|]); [by left|right; exists p].
    split; [done|]. split; [|done]. intros Ht. rewrite Ht in Hc. simpl in Hc. by bools. }
  destruct (ra_object_key row) as [k|].
  - unfold mbind at 1, M_bind at 1. unfold or_integrity_error, reraise, mbind at 1, M_bind at 1.
    destruct (with_blobs (blob_get k) st) as [[d|e] s1] eqn:Hg; apply with_blobs_tables in Hg;
      [|intros [= <- <-]; auto].
    destruct (decode_blob row d s1) as [[p|e] s2] eqn:Hd.
    + assert (s2 = s1) as ->.
      { unfold decode_blob in Hd. apply (read_only_ok _ _ _ _ Hd). }
      intros [-> Hr]%Hcheck; [by split|done].
    + intros [= <- <-]. assert (s2 = s1 ∧ e = RawResponseIntegrityError) as [-> ->]; [|by split; [|left]].
      unfold decode_blob in Hd. rewrite bind_raise_if, bind_get_or_raise in Hd.
      destruct (match ra_size_bytes row with Some _ => _ | None => _ end); [by simplify_eq|].
      destruct (loads d) as [v|]; [|by simplify_eq].
      rewrite bind_raise_if in Hd. destruct (negb _); by simplify_eq.
  - rewrite bind_ret. intros [-> Hr]%Hcheck; [by split|done].
Qed.

(** A lookup in a sound cache: it answers, and what it serves was stored last. *)
Lemma lookup_ok rc endpoint params now st h r st' :
  python_value params → cache_ok (st, h) →
  cache_lookup sha256 rc endpoint params now st = (r, st') →
  same_tables st st' ∧
  ∃ l, r = Ok l ∧
    ∀ p, cl_payload l = Some p →
      ∃ payload, latest (request_key rc endpoint params) h = Some payload
        ∧ (str_truthy (checksum_payload sha256 payload) = true →
           checksum_payload sha256 p = checksum_payload sha256 payload)
        ∧ ∃ i row, cl_row l = Some (i, row) ∧ metadata_fault st row now = None
            ∧ (ra_object_key row = None → p = payload).
Proof.
  intros Hp Hc. unfold cache_lookup. rewrite bind_get_or_raise, request_key_ok by done.
  set (key := request_key rc endpoint params). specialize (Hc key). simpl in Hc.
  destruct (cache_entries st !! key) as [i|] eqn:Hi.
  - destruct Hc as (row & Hrow & [Hk (v & Hv & Hpar & Htext) (payload & Hl & Hsum & Hin)]).
    rewrite (lookup_of_row key i row v) by done.
    destruct (metadata_fault st row now) as [f|] eqn:Hf.
    { intros [= <- <-]. split; [done|]. by eexists. }
    unfold read_payload. destruct (raw_response_payload sha256 row st) as [r1 st1] eqn:Hr.
    apply payload_tables in Hr as [Hs [->|(p & -> & Hcs & Hpi)]]; intros [= <- <-];
      (split; [done|]); eexists; (split; [done|]); simpl; [done|].
    intros p' [= <-]. exists payload. split; [done|]. rewrite Hsum in Hcs.
    split; [done|]. exists i, row. split; [done|]. split; [done|].
    intros Hn. by rewrite Hpi, Hin.
  - unfold lookup_cached_response. rewrite bind_gets, Hi. intros [= <- <-]. split; [done|].
    by eexists.
Qed.

Lemma set_failed rc endpoint params response receipt now st e st' :
  python_value params →
  cache_set sha256 rc endpoint params response receipt now st = (Raise e, st') →
  same_tables st st'.
Proof.
  intros Hp. unfold cache_set. rewrite bind_get_or_raise, normalize_ok by done.
  rewrite bind_get_or_raise, request_key_canon by done. cbv zeta.
  destruct (rc_has_blob_store rc); [|by rewrite bind_ret].
  unfold put_blob, mbind, M_bind.
  destruct (with_blobs _ st) as [[i|e1] st1] eqn:Hw; apply with_blobs_tables in Hw;
    [|by intros [= <- <-]].
  unfold raise_if. case_bool_decide; simpl; [done|by intros [= <- <-]].
Qed.

Lemma set_ok rc endpoint params response receipt now st h key st' :
  python_value params → cache_ok (st, h) →
  cache_set sha256 rc endpoint params response receipt now st = (Ok key, st') →
  cache_ok (st', (key, sanitize_payload response) :: h).
Proof.
  intros Hp Hc Hset. apply set_run in Hset as (Hkey & blob & s' & -> & _); [|done].
  cbv zeta in *. set (i := next_id (raw_api_responses st)). intros key'. simpl.
  rewrite lookup_insert. case_decide as Heq.
  - subst key'. eexists. split; [apply lookup_insert_eq|]. split; [done| |].
    + exists params. split; [done|]. split; [done|]. simpl. by rewrite Hkey.
    + exists (sanitize_payload response). rewrite latest_cons, decide_True by done.
      split; [done|]. split; [done|]. simpl. by destruct blob.
  - specialize (Hc key'). simpl in Hc. rewrite latest_cons, decide_False by done.
    destruct (cache_entries st !! key') as [j|]; [|done].
    destruct Hc as (row & Hrow & [H1 H2 H3]). exists row. split.
    + rewrite lookup_insert_ne; [done|]. intros <-. unfold i in Hrow.
      by rewrite next_id_fresh in Hrow.
    + split; [done|done|]. by rewrite latest_cons, decide_False.
Qed.

Lemma steps_ok c c' : rtc cache_step c c' → cache_ok c → cache_ok c'.
Proof.
  induction 1 as [c|c1 c2 c3 Hstep _ IH]; [done|]. intros Hc. apply IH.
  destruct Hstep as [rc e p resp rcpt now st h key st' Hp Hs|rc e p resp rcpt now st h x st' Hp Hs
    |rc e p now st h r st' Hp Hs|st h s].
  - by eapply set_ok.
  - eapply cache_ok_same; [by eapply set_failed|done].
  - eapply cache_ok_same; [by eapply lookup_ok|done].
  - by apply (cache_ok_same st).
Qed.

(** Only what was stored is served: in every state a history of stores and
    lookups leads to, and whatever was done to the blobs in between, a lookup
    never raises, and a payload it returns has the checksum of the payload last
    stored under the key of the request (and is that payload, when it was kept
    inline), from a row that is sanitized and unexpired; a request whose key was
    never stored gets no payload. *)
Theorem only_stored_responses_are_served st0 st h rc endpoint params now
    (Hsha : ∀ d, str_truthy (sha256 d) = true)
    (Hempty : cache_entries st0 = ∅) (Hrun : rtc cache_step (st0, []) (st, h))
    (Hparams : python_value params) :
  ∃ l st', cache_lookup sha256 rc endpoint params now st = (Ok l, st')
    ∧ (latest (request_key rc endpoint params) h = None → is_valid l = false)
    ∧ ∀ p, cl_payload l = Some p →
        ∃ payload i row, latest (request_key rc endpoint params) h = Some payload
          ∧ checksum_payload sha256 p = checksum_payload sha256 payload
          ∧ cl_row l = Some (i, row)
          ∧ (ra_object_key row = None → p = payload)
          ∧ ra_sanitized row = true
          ∧ (∀ expiry, ra_expires_at row = Some expiry → now < expiry).
Proof.
  assert (cache_ok (st, h)) as Hok.
  { apply (steps_ok _ _ Hrun). intros key. simpl. by rewrite Hempty, lookup_empty. }
  destruct (cache_lookup sha256 rc endpoint params now st) as [r st'] eqn:Hl.
  apply (lookup_ok _ _ _ _ _ _ _ _ Hparams Hok) in Hl as (_ & l & -> & Hserved).
  exists l, st'. split; [done|]. split.
  - intros Hn. unfold is_valid. destruct (cl_row l), (cl_payload l) as [x|]; try done.
    destruct (Hserved x eq_refl) as (payload & Hlat & _). congruence.
  - intros p Hp. destruct (Hserved p Hp) as (payload & Hlat & Hsum & i & row & Hrow & Hf & Hin).
    exists payload, i, row. split; [done|]. split; [by apply Hsum, Hsha|].
    split; [done|]. split; [done|]. unfold metadata_fault in Hf.
    destruct (ra_sanitized row); [|done]. split; [done|]. intros expiry He.
    rewrite He, as_aware_utc_id in Hf. simpl in Hf. repeat (case_match; try done); bools; lia.
Qed.
End cache.

(** ** A concrete encoder and a concrete cache *)

Module TextCodec.

(** A value as a tree of leaves. *)
Abbreviation leaf := (unit + bool + Z + string + (bool * option (positive * Z) * bool))%type.

Definition float_leaf (f : binary64) : bool * option (positive * Z) * bool :=
  match f with
  | S754_zero s => (s, None, false)
  | S754_infinity s => (s, None, true)
  | S754_nan => (false, Some (xH, 0), true)
  | S754_finite s m e => (s, Some (m, e), false)
  end.

Definition leaf_float (x : bool * option (positive * Z) * bool) : binary64 :=
  match x with
  | (s, None, false) => S754_zero s
  | (s, None, true) => S754_infinity s
  | (_, Some _, true) => S754_nan
  | (s, Some (m, e), false) => S754_finite s m e
  end.

Fixpoint to_tree (v : json) : gen_tree leaf :=
  match v with
  | JNull => GenLeaf (inl (inl (inl (inl tt))))
  | JBool b => GenLeaf (inl (inl (inl (inr b))))
  | JInt z => GenLeaf (inl (inl (inr z)))
  | JStr s => GenLeaf (inl (inr s))
  | JFloat f => GenLeaf (inr (float_leaf f))
  | JList l => GenNode 0 (map to_tree l)
  | JObj l => GenNode 1 (map (λ kv, match kv with (k, x) =>
                GenNode 2 [GenLeaf (inl (inr k)); to_tree x] end) l)
  end.

Fixpoint of_tree (t : gen_tree leaf) : json :=
  match t with
  | GenLeaf (inl (inl (inl (inl _)))) => JNull
  | GenLeaf (inl (inl (inl (inr b)))) => JBool b
  | GenLeaf (inl (inl (inr z))) => JInt z
  | GenLeaf (inl (inr s)) => JStr s
  | GenLeaf (inr x) => JFloat (leaf_float x)
  | GenNode 0 ts => JList (map of_tree ts)
  | GenNode _ ts => JObj (map (λ t, match t with
                      | GenNode _ [GenLeaf (inl (inr k)); x] => (k, of_tree x)
                      | _ => (""%string, JNull) end) ts)
  end.

Lemma of_to_tree v : of_tree (to_tree v) = v.
Proof.
  induction v as [| | |f| |l IH|l IH] using json_nested_ind; simpl; try done.
  - by destruct f.
  - f_equal. rewrite map_map. rewrite <- (map_id l) at 2. apply map_ext_in.
    intros x Hx%list_elem_of_In. rewrite Forall_forall in IH. by apply IH.
  - f_equal. rewrite map_map. rewrite <- (map_id l) at 2. apply map_ext_in.
    intros [k x] Hx%list_elem_of_In. rewrite Forall_forall in IH. f_equal. by apply (IH _ Hx).
Qed.

Definition zero_char : Ascii.ascii := Ascii.ascii_of_nat 48.
Definition one_char : Ascii.ascii := Ascii.ascii_of_nat 49.

Fixpoint bits (p : positive) : string :=
  match p with
  | xH => EmptyString
  | xO p => String zero_char (bits p)
  | xI p => String one_char (bits p)
  end.

Fixpoint unbits (s : string) : positive :=
  match s with
  | EmptyString => xH
  | String a s' => if Ascii.eqb a zero_char then xO (unbits s') else xI (unbits s')
  end.

Lemma unbits_bits p : unbits (bits p) = p.
Proof. induction p as [p IH|p IH|]; simpl; by rewrite ?IH. Qed.

#[global] Instance text : JsonText := {|
  dumps v := bits (encode (to_tree (canon v)));
  loads b := of_tree <$> decode (unbits (String.string_of_list_byte b))
|}.

#[global] Instance text_laws : JsonTextLaws.
Proof.
  split.
  - intros v _. cbn [loads dumps text]. unfold utf8.
    rewrite String.string_of_list_byte_of_string, unbits_bits, decode_encode. simpl.
    by rewrite of_to_tree.
  - intros v Hv. cbn [dumps text]. by rewrite canon_idem.
Qed.

(** A stand-in for SHA-256: the bits of the text. *)
Definition byte_bits (b : Byte.byte) : string :=
  match Byte.to_bits b with
  | (b0, (b1, (b2, (b3, (b4, (b5, (b6, b7))))))) =>
      String.concat "" (map (λ x : bool, if x then "1" else "0")%string
                          [b7; b6; b5; b4; b3; b2; b1; b0])
  end.
Definition digest (d : bytes) : string := "h" +:+ String.concat "" (map byte_bits d).

Lemma digest_truthy d : str_truthy (digest d) = true.
Proof. done. Qed.
End TextCodec.

Module CacheRun.
Import TextCodec.

Definition fs_store : BlobStore Fs := FilesystemBlobStore digest Concrete.mkstemp.
Definition laws : BlobStoreLaws Fs (H := fs_store) digest :=
  filesystem_laws digest Concrete.mkstemp Concrete.mkstemp_fresh.

Definition rc : RawResponseCache :=
  {| rc_provider := "dataforseo-sandbox"; rc_api_version := "v3";
     rc_response_shape_version := DEFAULT_RESPONSE_SHAPE_VERSION; rc_has_blob_store := true;
     rc_storage_backend := Some "filesystem"; rc_encryption_status := "not_encrypted" |}.

Definition endpoint : string := "/v3/keywords_data/google_ads/keyword_suggestions".
Definition params : json := JObj [("q", JStr "x"); ("a", JInt 1)].
Definition params' : json := JObj [("a", JInt 1); ("q", JStr "x")].
Definition response : json := JObj [("v", JInt 7); ("auth", JStr "t")].
Definition payload : json := JObj [("v", JInt 7); ("auth", hidden)].
Definition receipt : Receipt :=
  {| rp_status_code := 200; rp_cost_usd := F64.lit 5 100; rp_provider_task_id := None;
     rp_provider_request_id := None; rp_source_scan_run_id := Some 1 |}.

Definition empty : CacheState Fs :=
  {| raw_api_responses := ∅; cache_entries := ∅; blobs := empty_fs; cache_dialect := sqlite |}.

Definition stored :=
  cache_set (H := fs_store) digest rc endpoint params response receipt 1000 empty.
Definition key : string := request_key digest rc endpoint params.
Definition cached : CacheState Fs := stored.2.

Lemma stored_run : stored = (Ok key, cached).
Proof. exact (run_pair stored _ ltac:(by vm_compute)). Qed.

Lemma python_params : python_value params ∧ python_value params' ∧ python_value response.
Proof. unfold params, params', response. cbn. repeat split; by apply (bool_decide_unpack _). Qed.

Definition blob_path : path :=
  default [] (_safe_relative_key (object_key_of rc (checksum_payload digest payload))).

Lemma blob_path_ok :
  _safe_relative_key (object_key_of rc (checksum_payload digest payload)) = Some blob_path
  ∧ fs_holds empty_fs blob_path = None.
Proof. by vm_compute. Qed.

Lemma readable :
  (fs_get (object_key_of rc (checksum_payload digest payload)) (blobs cached)).1
  = Ok (serialize_payload payload).
Proof. by vm_compute. Qed.
End CacheRun.

Theorem stored_response_is_served_until_it_expires_witness :
  let lookup_at now := cache_lookup (H := CacheRun.fs_store) TextCodec.digest CacheRun.rc
                         CacheRun.endpoint CacheRun.params' now CacheRun.cached in
  (∃ l st2, lookup_at (1000 + 29 * day_us) = (Ok l, st2)
     ∧ is_valid l = true ∧ cl_payload l = Some (served CacheRun.rc CacheRun.payload))
  ∧ (∃ l st2, lookup_at (1000 + 30 * day_us) = (Ok l, st2)
     ∧ cl_invalid_reason l = Some expired ∧ cl_payload l = None).
Proof.
  intros lookup_at.
  destruct CacheRun.python_params as (Hp & Hp' & Hr).
  destruct CacheRun.blob_path_ok as [Hpath Hnone].
  assert (blob_room (HL := CacheRun.laws) TextCodec.digest CacheRun.rc
    (sanitize_payload CacheRun.response) (blobs CacheRun.empty)) as Hroom.
  { intros _. split; [done|]. exists CacheRun.blob_path. split; [exact Hpath|]. split; [|by left].
    intros d Hd. change (fs_holds empty_fs CacheRun.blob_path = Some d) in Hd. congruence. }
  assert (blob_readable (HS := CacheRun.fs_store) TextCodec.digest CacheRun.rc
    (sanitize_payload CacheRun.response) (blobs CacheRun.cached)) as Hread.
  { intros _ He. discriminate (eq_trans (eq_sym CacheRun.readable) He). }
  pose proof (λ now, stored_response_is_served_until_it_expires (HL := CacheRun.laws)
    TextCodec.digest CacheRun.rc CacheRun.endpoint CacheRun.params CacheRun.response
    CacheRun.receipt 1000 CacheRun.empty CacheRun.key CacheRun.cached TextCodec.digest_truthy
    Hp Hr eq_refl empty_fs_ok Hroom CacheRun.stored_run Hread CacheRun.params' now Hp' eq_refl)
    as Hserved.
  split; [exact (Hserved (1000 + 29 * day_us))|exact (Hserved (1000 + 30 * day_us))].
Defined.

Theorem only_stored_responses_are_served_witness :
  ∃ l st', cache_lookup (H := CacheRun.fs_store) TextCodec.digest CacheRun.rc CacheRun.endpoint
             CacheRun.params 2000 (CacheRun.cached <| blobs := empty_fs |>) = (Ok l, st')
    ∧ ∀ p, cl_payload l = Some p →
        checksum_payload TextCodec.digest p = checksum_payload TextCodec.digest CacheRun.payload.
Proof.
  destruct CacheRun.python_params as (Hp & _ & _).
  assert (rtc (cache_step (HS := CacheRun.fs_store) TextCodec.digest) (CacheRun.empty, [])
    (CacheRun.cached <| blobs := empty_fs |>, [(CacheRun.key, CacheRun.payload)])) as Hrun.
  { eapply rtc_l; [exact (step_set (HS := CacheRun.fs_store) _ _ _ _ _ _ _ _ [] _ _ Hp
      CacheRun.stored_run)|].
    apply rtc_once. exact (step_tamper (HS := CacheRun.fs_store) _ CacheRun.cached _ empty_fs). }
  destruct (only_stored_responses_are_served TextCodec.digest CacheRun.empty _ _ CacheRun.rc
    CacheRun.endpoint CacheRun.params 2000 TextCodec.digest_truthy eq_refl Hrun Hp)
    as (l & st' & Hl & _ & Hserved).
  exists l, st'. split; [exact Hl|]. intros p Hpay.
  destruct (Hserved p Hpay) as (pay & i & row & Hlat & Hsum & _). rewrite Hsum. f_equal.
  unfold latest in Hlat. cbn [List.filter fst] in Hlat. unfold CacheRun.key in Hlat.
  rewrite bool_decide_eq_true_2 in Hlat by done. by injection Hlat as <-.
Defined.
