(* ===== verification/Numbers.v ===== *)
(** * Numbers: the arithmetic of the scoring pipelines

    The scoring code computes with Python floats.  Class [Num] names the operations
    it uses; the program runs on the binary64 instance, and the rational instance
    computes the same formulas exactly, with the same decimal rounding, for the
    theorems that rounding errors in the last bit would blur.  An integer of the
    configuration or of a count stands for the float of the same value; a sum of
    integers and floats is the compensated sum of the floats.

    The second part has what the theorems need of the rational instance: rounding is
    monotone, keeps decimals and moves a number by at most half a unit, and the
    clamping functions stay in their range. *)
From S2P Require Import Prelude.
From S2P Require Import Binary64.
From Stdlib Require Import SpecFloat QArith Qabs Qround Lqa.
#[global] Open Scope Z_scope.

(** ** The operations *)

(** [num_ratio n d] is the quotient of two integers ([n / d], or the literal with
    that value); [num_sum] is [sum(l)], [num_mean] is [statistics.mean(l)] of a
    non-empty list and [num_round k x] is [round(x, k)]. *)
Class Num (A : Type) : Type := {
  num_ratio : Z → Z → A;
  num_add : A → A → A;
  num_sub : A → A → A;
  num_mul : A → A → A;
  num_div : A → A → A;
  num_opp : A → A;
  num_abs : A → A;
  num_ltb : A → A → bool;
  num_leb : A → A → bool;
  num_eqb : A → A → bool;
  num_sum : list A → A;
  num_mean : list A → A;
  num_round : Z → A → A
}.

Declare Scope num_scope.
Delimit Scope num_scope with num.
Notation "a + b" := (num_add a b) : num_scope.
Notation "a - b" := (num_sub a b) : num_scope.
Notation "a * b" := (num_mul a b) : num_scope.
Notation "a / b" := (num_div a b) : num_scope.
Notation "- a" := (num_opp a) : num_scope.
Notation "a <? b" := (num_ltb a b) : num_scope.
Notation "a <=? b" := (num_leb a b) : num_scope.
Notation "a =? b" := (num_eqb a b) : num_scope.

(** ** Binary64 *)

Module F64Mean.
(** The exact value of a finite number as [m * 2^e]. *)
Definition exact (f : binary64) : Z * Z :=
  match f with
  | S754_finite s m e => (if s then Zneg m else Zpos m, e)
  | _ => (0, 0)
  end.

(** [statistics.mean]: the exact sum divided by the count, rounded once; infinities
    and NaNs, when there are any, decide the answer. *)
Definition mean (l : list binary64) : binary64 :=
  let n := Z.of_nat (length l) in
  let odd := List.filter (λ f, negb (F64.is_finite f)) l in
  match odd with
  | f :: odd' => F64.div (foldl F64.add f odd') (F64.of_Z n)
  | [] =>
      let terms := map exact l in
      let e := foldr Z.min 0 (map snd terms) in
      let total := foldr Z.add 0 (map (λ '(m, x), m * 2 ^ (x - e)) terms) in
      F64.of_ratio total (n * 2 ^ (- e))
  end.

(** [statistics.fmean]: the correctly rounded sum ([math.fsum]), divided by the count. *)
Definition fmean (l : list binary64) : binary64 :=
  let n := F64.of_Z (Z.of_nat (length l)) in
  match List.filter (λ f, negb (F64.is_finite f)) l with
  | f :: odd' => F64.div (foldl F64.add f odd') n
  | [] =>
      let terms := map exact l in
      let e := foldr Z.min 0 (map snd terms) in
      F64.div (F64.of_ratio (foldr Z.add 0 (map (λ '(m, x), m * 2 ^ (x - e)) terms)) (2 ^ (- e))) n
  end.
End F64Mean.

#[export] Instance Num_binary64 : Num binary64 := {|
  num_ratio := F64.of_ratio;
  num_add := F64.add;
  num_sub := F64.sub;
  num_mul := F64.mul;
  num_div := F64.div;
  num_opp := SFopp;
  num_abs := SFabs;
  num_ltb := F64.ltb;
  num_leb := F64.leb;
  num_eqb := SFeqb;
  num_sum := F64.sum;
  num_mean := F64Mean.mean;
  num_round := F64.round_dec
|}.

(** ** Rationals *)

(** [round(x, k)] of an exact number, half to even. *)
Definition Q_round (k : Z) (x : Q) : Q :=
  Qmake (F64.div_half_even (Qnum x * 10 ^ k) (Zpos (Qden x))) (Z.to_pos (10 ^ k)).

Definition Q_ltb (a b : Q) : bool := negb (Qle_bool b a).
Definition Q_sum (l : list Q) : Q := foldl Qplus 0%Q l.

#[export] Instance Num_Q : Num Q := {|
  num_ratio n d := Qmake n (Z.to_pos d);
  num_add := Qplus;
  num_sub := Qminus;
  num_mul := Qmult;
  num_div := Qdiv;
  num_opp := Qopp;
  num_abs := Qabs;
  num_ltb := Q_ltb;
  num_leb := Qle_bool;
  num_eqb := Qeq_bool;
  num_sum := Q_sum;
  num_mean l := (Q_sum l / inject_Z (Z.of_nat (length l)))%Q;
  num_round := Q_round
|}.

(** ** Statistics *)

Class Stats (A : Type) : Type := {
  num_fmean : list A → A;
  num_sqrt : A → A
}.

#[export] Instance Stats_binary64 : Stats binary64 := {|
  num_fmean := F64Mean.fmean;
  num_sqrt := SFsqrt F64.prec F64.emax
|}.

(** The mean is exact; a root, which need not be rational, is cut to six decimals. *)
#[export] Instance Stats_Q : Stats Q := {|
  num_fmean l := (Q_sum l / inject_Z (Z.of_nat (length l)))%Q;
  num_sqrt x := Qmake (Z.sqrt (Qnum x * 10 ^ 12 / Zpos (Qden x))) (10 ^ 6)
|}.

(** ** Derived operations *)

Section derived.
Context {A : Type} `{Num A}.

Definition num_Z (n : Z) : A := num_ratio n 1.

(** [max(a, b)] and [min(a, b)] keep the first argument unless the second is
    strictly better. *)
Definition py_max (a b : A) : A := (if a <? b then b else a)%num.
Definition py_min (a b : A) : A := (if b <? a then b else a)%num.

(** [max(l)] and [min(l)] of a non-empty list *)
Definition max_of (x : A) (l : list A) : A := foldl py_max x l.
Definition min_of (x : A) (l : list A) : A := foldl py_min x l.

(** The truth value of a number, and [x or 0.0]. *)
Definition num_truthy (a : A) : bool := negb (a =? num_Z 0)%num.
Definition or_zero (x : option A) : A :=
  match x with
  | Some a => if num_truthy a then a else num_Z 0
  | None => num_Z 0
  end.

(** [min(max(a, 0.0), 1.0)] *)
Definition unit_factor (a : A) : A := py_min (py_max a (num_Z 0)) (num_Z 1).
End derived.

Notation "0" := (num_Z 0) : num_scope.
Notation "1" := (num_Z 1) : num_scope.

(** ** Laws of the rational instance *)

(** Turn the operations of [Num Q] into those of [QArith]. *)
Ltac unfold_num :=
  unfold num_Z, unit_factor, num_truthy in *;
  cbn [num_ratio num_add num_sub num_mul num_div num_opp num_abs num_ltb num_leb
       num_eqb num_sum num_mean num_round Num_Q Z.to_pos] in *.

Open Scope Q_scope.

Lemma Q_ltb_spec (a b : Q) : BoolSpec (a < b) (b <= a) (Q_ltb a b).
Proof.
  unfold Q_ltb. destruct (Qle_bool b a) eqn:E; constructor.
  - by apply Qle_bool_iff.
  - apply Qnot_le_lt. intros Hle%Qle_bool_iff. congruence.
Qed.

Lemma Qle_bool_spec (a b : Q) : BoolSpec (a <= b) (b < a) (Qle_bool a b).
Proof.
  destruct (Qle_bool a b) eqn:E; constructor.
  - by apply Qle_bool_iff.
  - apply Qnot_le_lt. intros Hle%Qle_bool_iff. congruence.
Qed.

(** Case analysis on the comparisons of a goal. *)
Ltac q_cases :=
  repeat match goal with
  | |- context[Q_ltb ?a ?b] => destruct (Q_ltb_spec a b)
  | |- context[Qle_bool ?a ?b] => destruct (Qle_bool_spec a b)
  | H : context[Q_ltb ?a ?b] |- _ => destruct (Q_ltb_spec a b)
  end.

Lemma py_max_ub (a b : Q) : a <= py_max a b ∧ b <= py_max a b.
Proof. unfold py_max. unfold_num. q_cases; lra. Qed.

Lemma py_min_lb (a b : Q) : py_min a b <= a ∧ py_min a b <= b.
Proof. unfold py_min. unfold_num. q_cases; lra. Qed.

Lemma py_max_lub (a b c : Q) : a <= c → b <= c → py_max a b <= c.
Proof. unfold py_max. by destruct (_ <? _)%num. Qed.

Lemma py_min_glb (a b c : Q) : c <= a → c <= b → c <= py_min a b.
Proof. unfold py_min. by destruct (_ <? _)%num. Qed.

Lemma unit_factor_range (a : Q) : 0 <= unit_factor a <= 1.
Proof.
  unfold unit_factor, py_min, py_max. unfold_num. q_cases; lra.
Qed.

(** ** Decimal rounding *)

Lemma div_half_even_spec (m d : Z) :
  (0 < d)%Z →
  let r := F64.div_half_even m d in
  (2 * d * r ≤ 2 * m + d ∧ 2 * m - d ≤ 2 * d * r)%Z
  ∧ ((2 * d * r = 2 * m + d ∨ 2 * d * r = 2 * m - d)%Z → Z.even r = true).
Proof.
  intros Hd. unfold F64.div_half_even.
  pose proof (Z.div_mod m d ltac:(lia)). pose proof (Z.mod_pos_bound m d Hd).
  set (q := (m / d)%Z) in *. set (r := (m mod d)%Z) in *.
  destruct (Z.ltb_spec (2 * r) d), (Z.ltb_spec d (2 * r));
    try (split; [split; nia | intros; exfalso; nia]).
  destruct (Z.even q) eqn:Eq; (split; [split; nia|]); [done|].
  intros _. rewrite Z.even_add, Eq. done.
Qed.

Lemma div_half_even_mono (m d m' d' : Z) :
  (0 < d)%Z → (0 < d')%Z → (m * d' ≤ m' * d)%Z →
  (F64.div_half_even m d ≤ F64.div_half_even m' d')%Z.
Proof.
  intros Hd Hd' Hle.
  destruct (div_half_even_spec m d Hd) as [[Hu Hl] Ht].
  destruct (div_half_even_spec m' d' Hd') as [[Hu' Hl'] Ht'].
  set (r := F64.div_half_even m d) in *. set (r' := F64.div_half_even m' d') in *.
  destruct (Z_le_gt_dec r r') as [|Hgt]; [done|exfalso].
  pose proof (Z.mul_le_mono_nonneg_r _ _ d' ltac:(lia) Hu) as Mu.
  pose proof (Z.mul_le_mono_nonneg_r _ _ d ltac:(lia) Hl') as Ml.
  assert (r = r' + 1)%Z as Hr.
  { apply Z.le_antisymm; [|lia].
    apply (Z.mul_le_mono_pos_l _ _ (2 * (d * d'))%Z); [nia|]. nia. }
  rewrite Hr in *.
  assert (2 * d * (r' + 1) = 2 * m + d)%Z as E.
  { apply (Z.mul_reg_r _ _ d'); [lia|]. nia. }
  assert (2 * d' * r' = 2 * m' - d')%Z as E'.
  { apply (Z.mul_reg_r _ _ d); [lia|]. nia. }
  specialize (Ht (or_introl E)). specialize (Ht' (or_intror E')).
  rewrite Z.even_add, Ht' in Ht. done.
Qed.

Section rounding.
Context (k : Z) (Hk : (0 ≤ k)%Z).

Lemma pow10_pos : (0 < 10 ^ k)%Z.
Proof. lia. Qed.

Lemma Q_round_mono (x y : Q) : x <= y → Q_round k x <= Q_round k y.
Proof.
  unfold Qle, Q_round. simpl. intros Hle. pose proof pow10_pos.
  apply Z.mul_le_mono_nonneg_r; [lia|]. apply div_half_even_mono; [lia..|nia].
Qed.

Lemma Q_round_proper : Proper (Qeq ==> Qeq) (Q_round k).
Proof.
  intros x y Hxy. apply Qle_antisym; apply Q_round_mono; rewrite Hxy; apply Qle_refl.
Qed.

(** A number of at most [k] decimals is its own rounding. *)
Lemma Q_round_fix (n : Z) : Q_round k (n # Z.to_pos (10 ^ k)) == n # Z.to_pos (10 ^ k).
Proof.
  pose proof pow10_pos. unfold Q_round, Qeq. simpl.
  rewrite (Z2Pos.id (10 ^ k)) by done. f_equal.
  destruct (div_half_even_spec (n * 10 ^ k) (10 ^ k) H) as [[Hu Hl] _]. nia.
Qed.

Lemma Q_round_near (x : Q) : Qabs (Q_round k x - x) <= 1 # (2 * Z.to_pos (10 ^ k)).
Proof.
  pose proof pow10_pos. destruct x as [p q]. apply Qabs_Qle_condition.
  unfold Q_round, Qle. simpl.
  destruct (div_half_even_spec (p * 10 ^ k) (Zpos q) ltac:(done)) as [[Hu Hl] _].
  set (r := F64.div_half_even _ _) in *.
  rewrite ?Pos2Z.inj_mul, ?(Z2Pos.id (10 ^ k)) by done.
  split; nia.
Qed.
End rounding.

(** ** Sums *)

Fixpoint total (l : list Q) : Q := match l with [] => 0 | x :: l' => x + total l' end.

Lemma foldl_total {T} (f : T → Q) (l : list T) (acc : Q) :
  foldl (λ s x, s + f x) acc l == acc + total (map f l).
Proof.
  revert acc. induction l as [|x l IH]; intros acc; simpl; [lra|]. rewrite IH. lra.
Qed.

Lemma sum_total (l : list Q) : num_sum l == total l.
Proof.
  unfold_num. unfold Q_sum. rewrite (foldl_total (λ x, x)), map_id. lra.
Qed.

Lemma total_app (l k : list Q) : total (l ++ k) == total l + total k.
Proof. induction l as [|x l IH]; simpl; [lra|]. rewrite IH. lra. Qed.

Lemma total_le {T} (f g : T → Q) (l : list T) :
  (∀ x, x ∈ l → f x <= g x) → total (map f l) <= total (map g l).
Proof.
  induction l as [|x l IH]; intros Hfg; simpl; [lra|].
  pose proof (Hfg x ltac:(set_solver)). pose proof (IH ltac:(set_solver)). lra.
Qed.

Lemma total_ext {T} (f g : T → Q) (l : list T) :
  (∀ x, x ∈ l → f x == g x) → total (map f l) == total (map g l).
Proof.
  intros Hfg. apply Qle_antisym; apply total_le; intros x Hx; rewrite (Hfg x Hx); apply Qle_refl.
Qed.

Lemma total_plus {T} (f g : T → Q) (l : list T) :
  total (map (λ x, f x + g x) l) == total (map f l) + total (map g l).
Proof. induction l as [|x l IH]; simpl; [lra|]. rewrite IH. lra. Qed.

Lemma total_scale {T} (f : T → Q) (c : Q) (l : list T) :
  total (map (λ x, c * f x) l) == c * total (map f l).
Proof. induction l as [|x l IH]; simpl; [lra|]. rewrite IH. lra. Qed.

Lemma total_nonneg {T} (f : T → Q) (l : list T) :
  (∀ x, x ∈ l → 0 <= f x) → 0 <= total (map f l).
Proof.
  induction l as [|x l IH]; intros Hf; simpl; [lra|].
  pose proof (Hf x ltac:(set_solver)). pose proof (IH ltac:(set_solver)). lra.
Qed.

Lemma total_pos {T} (f : T → Q) (l : list T) :
  l ≠ [] → (∀ x, x ∈ l → 0 < f x) → 0 < total (map f l).
Proof.
  destruct l as [|x l]; [done|]. intros _ Hf. simpl.
  pose proof (Hf x ltac:(set_solver)).
  pose proof (total_nonneg f l ltac:(intros; apply Qlt_le_weak, Hf; set_solver)). lra.
Qed.

Lemma total_perm (l l' : list Q) : l ≡ₚ l' → total l == total l'.
Proof. induction 1; simpl; lra. Qed.

(** One group of a list, as a sum over the whole list. *)
Lemma total_filter {T} (p : T → bool) (f : T → Q) l :
  total (map f (List.filter p l)) == total (map (λ x, if p x then f x else 0) l).
Proof. induction l as [|x l IH]; simpl; [done|]. destruct (p x); simpl; rewrite IH; lra. Qed.

Lemma total_single {K} `{EqDecision K} (ks : list K) (k : K) (v : Q) :
  NoDup ks → k ∈ ks → total (map (λ a, if bool_decide (k = a) then v else 0) ks) == v.
Proof.
  induction ks as [|k' ks IH]; intros Hn Hk; [by apply not_elem_of_nil in Hk|].
  apply NoDup_cons in Hn as [Hk' Hn]. simpl. case_bool_decide as E.
  - assert (total (map (λ a, if bool_decide (k = a) then v else 0) ks) == 0) as ->; [|lra].
    clear IH Hk. induction ks as [|k1 ks IH]; simpl; [done|].
    rewrite bool_decide_false by set_solver. rewrite IH by (try apply NoDup_cons in Hn; set_solver). lra.
  - rewrite IH by (try done; set_solver). lra.
Qed.

Lemma total_partition {T K} `{EqDecision K} (key : T → K) (f : T → Q) (ks : list K) (l : list T) :
  NoDup ks → (∀ x, x ∈ l → key x ∈ ks) →
  total (map (λ k, total (map f (List.filter (λ x, bool_decide (key x = k)) l))) ks)
  == total (map f l).
Proof.
  intros Hn. induction l as [|x l IH]; intros Hk.
  - induction ks as [|k ks IHk]; simpl; [done|]. apply NoDup_cons in Hn as [_ Hn].
    rewrite IHk; [simpl; lra|done|set_solver].
  - transitivity (total (map (λ k, (if bool_decide (key x = k) then f x else 0)
      + total (map f (List.filter (λ x, bool_decide (key x = k)) l))) ks)).
    + apply total_ext. intros k _. simpl. case_bool_decide; simpl; lra.
    + rewrite total_plus, total_single, IH by set_solver. simpl. lra.
Qed.
