(* ===== verification/Demand.v ===== *)
(** * Demand: evidence records, market demand and provider supply

    The records of domain/models.py that the evidence of a scan is made of,
    services/demand.py, services/demand_estimation.py and the supply summary of
    services/providers.py.  Fields nothing computes with (payload references, histories)
    and entries of the payloads that only echo their inputs are left out. *)
From S2P Require Import Prelude.
From S2P Require Import Text.
From S2P Require Import Binary64.
From S2P Require Import Numbers.
From Stdlib Require String.
#[global] Open Scope Z_scope.

(** ** Text *)

(** [sub in s] *)
Definition py_contains (sub s : string) : bool :=
  match String.index 0 sub s with Some _ => true | None => false end.

(** [x or y] on strings *)
Definition or_str (x y : string) : string := if str_truthy x then x else y.

(** [list(dict.fromkeys(l))]: the first occurrence of each. *)
Definition py_dedupe `{EqDecision K} (l : list K) : list K :=
  foldl (λ seen x, if bool_decide (x ∈ seen) then seen else seen ++ [x]) [] l.

(** ** Domain models *)

Inductive Confidence : Type := high | medium | low | insufficient.

#[export] Instance Confidence_eq_dec : EqDecision Confidence.
Proof. solve_decision. Defined.

Section models.
Context (A : Type).

Record KeywordMetric : Type := {
  km_keyword : string;
  km_canonical_keyword : string;
  km_intent : string;
  km_search_volume : option Z;
  km_cpc : option A;
  km_paid_competition : option A;
  km_source : string;
  km_source_timestamp : datetime;
  km_market_granularity : string;
  km_included : bool;
  km_excluded_reason : option string
}.

Record CompetitorSerpObservation : Type := { ob_query : string; ob_position : Z; ob_url : string }.

(** [cm_archetype] is [relevance_signals.get("competitor_archetype")]. *)
Record CompetitorMetric : Type := {
  cm_url : string;
  cm_domain : string;
  cm_referring_domains : option Z;
  cm_page_relevance_score : option A;
  cm_local_relevance : option A;
  cm_page_type : string;
  cm_archetype : option string;
  cm_representative_query : option string;
  cm_serp_position : option Z;
  cm_serp_observations : list CompetitorSerpObservation
}.

(** One entry of [suitability_signals]; [sg_normalized] is [None] when the payload has no
    number there. *)
Record Signal : Type := {
  sg_normalized : option A;
  sg_method : string;
  sg_weight : A;
  sg_weighted_score : A
}.

Record ProviderCandidate : Type := {
  pc_name : string;
  pc_website : option string;
  pc_phone : option string;
  pc_email : option string;
  pc_contact_form_url : option string;
  pc_address : option string;
  pc_service_area : option string;
  pc_category : option string;
  pc_categories : list string;
  pc_latitude : option A;
  pc_longitude : option A;
  pc_rating : option A;
  pc_review_count : option Z;
  pc_business_status : string;
  pc_contact_confidence : option A;
  pc_suitability_score : option A;
  pc_suitability_signals : list (string * Signal)
}.

(** A value of [resolution_metadata]: a number, or anything else (a boolean is not
    a number here). *)
Inductive MetadataValue : Type := MetaNumber (x : A) | MetaOther.

Record Market : Type := {
  mk_population : option Z;
  mk_reference_population : option Z;
  mk_resolution_metadata : string → option MetadataValue
}.
End models.
Arguments km_keyword {A}. Arguments km_canonical_keyword {A}. Arguments km_intent {A}.
Arguments km_search_volume {A}. Arguments km_cpc {A}. Arguments km_paid_competition {A}.
Arguments km_source {A}. Arguments km_source_timestamp {A}. Arguments km_market_granularity {A}.
Arguments km_included {A}. Arguments km_excluded_reason {A}.
#[export] Instance eta_KeywordMetric A : Eta (KeywordMetric A) := λ r,
  Build_KeywordMetric A (km_keyword r) (km_canonical_keyword r) (km_intent r) (km_search_volume r) (km_cpc r)
    (km_paid_competition r) (km_source r) (km_source_timestamp r) (km_market_granularity r) (km_included r)
    (km_excluded_reason r).
Arguments cm_url {A}. Arguments cm_domain {A}. Arguments cm_referring_domains {A}.
Arguments cm_page_relevance_score {A}. Arguments cm_local_relevance {A}. Arguments cm_page_type {A}.
Arguments cm_archetype {A}. Arguments cm_representative_query {A}. Arguments cm_serp_position {A}.
Arguments cm_serp_observations {A}.
Arguments sg_normalized {A}. Arguments sg_method {A}. Arguments sg_weight {A}. Arguments sg_weighted_score {A}.
Arguments pc_name {A}. Arguments pc_website {A}. Arguments pc_phone {A}. Arguments pc_email {A}.
Arguments pc_contact_form_url {A}. Arguments pc_address {A}. Arguments pc_service_area {A}. Arguments pc_category {A}.
Arguments pc_categories {A}. Arguments pc_latitude {A}. Arguments pc_longitude {A}. Arguments pc_rating {A}.
Arguments pc_review_count {A}. Arguments pc_business_status {A}. Arguments pc_contact_confidence {A}.
Arguments pc_suitability_score {A}. Arguments pc_suitability_signals {A}.
#[export] Instance eta_ProviderCandidate A : Eta (ProviderCandidate A) := λ r,
  Build_ProviderCandidate A (pc_name r) (pc_website r) (pc_phone r) (pc_email r) (pc_contact_form_url r) (pc_address r)
    (pc_service_area r) (pc_category r) (pc_categories r) (pc_latitude r) (pc_longitude r) (pc_rating r)
    (pc_review_count r) (pc_business_status r) (pc_contact_confidence r) (pc_suitability_score r)
    (pc_suitability_signals r).
Arguments MetaNumber {A}. Arguments MetaOther {A}.
Arguments mk_population {A}. Arguments mk_reference_population {A}. Arguments mk_resolution_metadata {A}.

#[export] Instance observation_eq_dec : EqDecision CompetitorSerpObservation.
Proof. solve_decision. Defined.

Record SerpResult : Type := {
  sr_order : Z;
  sr_result_type : string;
  sr_url : string;
  sr_domain : string;
  sr_title : string;
  sr_description : string;
  sr_classification : string;
  sr_is_local_provider : bool;
  sr_is_directory : bool;
  sr_is_national_brand : bool;
  sr_is_lead_generation_site : bool;
  sr_classification_confidence : option binary64;
  sr_matched_rules : list string;
  sr_manual_override : option string
}.
#[export] Instance eta_SerpResult : Eta SerpResult := λ r,
  Build_SerpResult (sr_order r) (sr_result_type r) (sr_url r) (sr_domain r) (sr_title r) (sr_description r)
    (sr_classification r) (sr_is_local_provider r) (sr_is_directory r) (sr_is_national_brand r)
    (sr_is_lead_generation_site r) (sr_classification_confidence r) (sr_matched_rules r) (sr_manual_override r).

Record SerpSnapshot : Type := {
  ss_query : string;
  ss_captured_at : datetime;
  ss_features_present : list string;
  ss_results : list SerpResult
}.

(** ** services/demand_estimation.py *)

Section demand.
Context {A : Type} `{Num A}.
Open Scope num_scope.

(** [_positive_number] over the values that are not [None]. *)
Fixpoint positive_number (values : list (option (MetadataValue A))) : option A :=
  match values with
  | [] => None
  | Some (MetaNumber x) :: values' => if 0 <? x then Some x else positive_number values'
  | _ :: values' => positive_number values'
  end.

Record MarketDemandEstimationInputs : Type := {
  national_service_demand : A;
  market_population : option A;
  reference_population : option A
}.

Definition from_market (national : A) (market : Market A) : MarketDemandEstimationInputs :=
  let int_value x := (λ n, MetaNumber (num_Z n)) <$> x in
  let meta := mk_resolution_metadata market in
  {| national_service_demand := national;
     market_population := positive_number [int_value (mk_population market); meta "population"%string];
     reference_population := positive_number
       [int_value (mk_reference_population market); meta "country_population"%string;
        meta "reference_population"%string; meta "national_population"%string] |}.

Record MarketDemandEstimate : Type := {
  est_value : option A;
  est_method : string;
  est_confidence : string
}.

(** The protocol [MarketDemandEstimator]. *)
Record MarketDemandEstimator : Type := {
  est_name : string;
  estimate : MarketDemandEstimationInputs → MarketDemandEstimate
}.

Definition population_share_estimate (inputs : MarketDemandEstimationInputs) : MarketDemandEstimate :=
  let not_estimated :=
    {| est_value := None; est_method := "not_estimated"; est_confidence := "none" |} in
  if national_service_demand inputs <=? 0 then not_estimated
  else
    match market_population inputs, reference_population inputs with
    | Some population, Some reference =>
        {| est_value := Some (num_round 2 (national_service_demand inputs * (population / reference)));
           est_method := "population_share_from_country_volume";
           est_confidence := "low" |}
    | _, _ => not_estimated
    end.

Definition PopulationShareDemandEstimator : MarketDemandEstimator :=
  {| est_name := "population_share"; estimate := population_share_estimate |}.

(** [build_market_demand_estimator]: [None] is the ValueError. *)
Definition build_market_demand_estimator (name : option string) : option MarketDemandEstimator :=
  let normalized := py_lower (py_strip (default ""%string (str_or name (Some "population_share"%string)))) in
  if bool_decide (normalized = "population_share"%string) then Some PopulationShareDemandEstimator
  else None.

(** ** services/demand.py *)

Definition HIGH_INTENTS : list string := ["transactional"; "commercial"]%string.
Definition NATIONAL_GRANULARITIES : list string := ["country"; "national"]%string.
Definition LOCAL_GRANULARITIES : list string :=
  ["city"; "postal_code"; "county"; "metro"; "market"; "local"]%string.

Definition granularity (m : KeywordMetric A) : string := or_str (km_market_granularity m) "unknown".
Definition volume (m : KeywordMetric A) : Z := default 0%Z (km_search_volume m).

Definition _volume_by_granularity (metrics : list (KeywordMetric A)) : gmap string Z :=
  foldl (λ output m, let g := py_lower (granularity m) in
                     <[g := (default 0 (output !! g) + volume m)%Z]> output) ∅ metrics.

(** The volume recorded under the granularities of [names]. *)
Definition volume_in (names : list string) (by_granularity : gmap string Z) : Z :=
  foldr Z.add 0%Z (map (λ g, default 0%Z (by_granularity !! g)) names).

Definition _provider_local_confidence (granularities : list string) : string :=
  let local := List.filter (λ g, bool_decide (g ∈ LOCAL_GRANULARITIES)) granularities in
  if negb (bool_decide (local = []))
     && forallb (λ g, bool_decide (g ∈ ["city"; "postal_code"; "local"]%string)) local
  then "high" else "medium".

(** The entries of the payload of [analyze_demand] the scorer reads. *)
Record DemandModel : Type := {
  service_attractiveness_demand : option Z;
  estimated_market_demand : option A;
  market_demand_kind : string;
  market_estimation_method : string;
  market_estimation_confidence : string;
  market_estimator : string
}.

Definition nonzero (n : Z) : option Z := if (n =? 0)%Z then None else Some n.

Definition analyze_demand (metrics : list (KeywordMetric A)) (market : Market A)
    (estimator : MarketDemandEstimator) : DemandModel :=
  let included := List.filter km_included metrics in
  let granularities := map granularity included in
  let by_granularity := _volume_by_granularity included in
  let national := volume_in NATIONAL_GRANULARITIES by_granularity in
  let local := volume_in LOCAL_GRANULARITIES by_granularity in
  let estimation := estimate estimator (from_market (num_Z national) market) in
  let measured := negb (local =? 0)%Z in
  {| service_attractiveness_demand := nonzero national;
     estimated_market_demand := if measured then Some (num_Z local) else est_value estimation;
     market_demand_kind :=
       if measured then "measured_local"
       else match est_value estimation with Some _ => "estimated_local" | None => "missing" end;
     market_estimation_method :=
       if measured then "provider_reported_local_volume" else est_method estimation;
     market_estimation_confidence :=
       if measured then _provider_local_confidence granularities else est_confidence estimation;
     market_estimator := est_name estimator |}.

(** ** services/providers.py: the supply summary *)

(** [status_scores] of the configuration, in order. *)
Record ProviderConfig : Type := {
  suitable_threshold : A;
  quality_sample_size : Z;
  status_scores : list (string * A);
  ideal_min : Z;
  ideal_max : Z;
  oversupply_count : Z
}.

Definition assoc {K V} `{EqDecision K} (k : K) (l : list (K * V)) : option V :=
  snd <$> List.find (λ e, bool_decide (e.1 = k)) l.

Definition _status_value (status : string) (config : ProviderConfig) : A :=
  let normalized_status := or_str (py_lower (py_strip status)) "unknown" in
  let values := status_scores config in
  let value := default (default 0 (assoc "unknown"%string values)) (assoc normalized_status values) in
  py_min (py_max value 0) 1.

Definition suitability (p : ProviderCandidate A) : A := or_zero (pc_suitability_score p).

Definition suitable (config : ProviderConfig) (p : ProviderCandidate A) : bool :=
  (suitable_threshold config <=? suitability p)
  && (0 <? _status_value (pc_business_status p) config).

(** [sorted(..., reverse=True)]: stable, best first. *)
Definition suitable_providers (providers : list (ProviderCandidate A)) (config : ProviderConfig)
    : list (ProviderCandidate A) :=
  sort_by (λ p q, suitability q <=? suitability p) (List.filter (suitable config) providers).

(** The entries of [provider_suitability_summary] the scorer reads. *)
Record ProviderSummary : Type := {
  suitable_provider_count : Z;
  average_top_suitable_provider_score : A
}.

Definition provider_suitability_summary (providers : list (ProviderCandidate A))
    (config : ProviderConfig) : ProviderSummary :=
  let suitable_scores := map suitability (suitable_providers providers config) in
  let top := take (Z.to_nat (Z.max 1 (quality_sample_size config))) suitable_scores in
  {| suitable_provider_count := Z.of_nat (length suitable_scores);
     average_top_suitable_provider_score :=
       num_round 2 (num_sum top / num_Z (Z.max 1 (Z.of_nat (length top)))) |}.
End demand.
Arguments MarketDemandEstimationInputs : clear implicits.
Arguments MarketDemandEstimate : clear implicits.
Arguments MarketDemandEstimator : clear implicits.
Arguments DemandModel : clear implicits.
Arguments ProviderConfig : clear implicits.
Arguments ProviderSummary : clear implicits.
