(* ===== verification/Scoring.v ===== *)
(** * Scoring: the opportunity score (scoring/score.py)

    [score] combines six component scores, subtracts penalties for missing data,
    caps the total and rates the confidence.  Each component returns its score and
    its calculation steps; a step keeps its label and its points.  The texts
    (details, formulas, explanations) and the inputs a detail echoes are left out.

    A division whose divisor the code does not guard raises [ZeroDivisionError]; a
    missing entry of a dict raises [KeyError].  The configuration is the record
    [ScoringConfig] of the values the code reads from config/scoring.yaml, with
    position tables keyed by integers. *)
From S2P Require Import Prelude.
From S2P Require Import Text.
From S2P Require Import Binary64.
From S2P Require Import Numbers.
From S2P Require Import Demand.
From Stdlib Require String.
#[global] Open Scope Z_scope.

Inductive score_error : Type := ZeroDivisionError | KeyError | ValueError.

Abbreviation E := (result score_error).
#[export] Instance result_ret {X} : MRet (result X) := λ T a, Ok a.
#[export] Instance result_bind {X} : MBind (result X) := λ T U k m,
  match m with Ok a => k a | Raise e => Raise e end.

(** ** Configuration *)

(** The evidence groups [_missing_fields] can report. *)
Inductive MissingField : Type :=
| keyword_metrics | local_demand | serp_snapshots | competitor_metrics
| provider_candidates | keyword_cpc | serp_results.

#[export] Instance MissingField_eq_dec : EqDecision MissingField.
Proof. solve_decision. Defined.

Section config.
Context (A : Type).

Record Weights : Type := {
  w_demand_evidence : A;
  w_commercial_value : A;
  w_competitor_weakness : A;
  w_organic_click_availability : A;
  w_provider_suitability : A;
  w_data_completeness : A
}.

Record DemandProfile : Type := { strong_monthly_volume : A; maximum_component_credit : A }.

Record DemandConfig : Type := {
  service_attractiveness_share : A;
  market_attractiveness_share : A;
  national_strong_monthly_volume : A;
  measured_local : DemandProfile;
  population_estimated : DemandProfile
}.

Record CommercialConfig : Type := {
  strong_cpc : A;
  strong_paid_competition : A;
  share_cpc : A;
  share_paid_competition : A;
  share_high_intent : A
}.

Record CompetitorConfig : Type := {
  weak_referring_domains : A;
  strong_referring_domains : A;
  unknown_referring_domains_weakness : A;
  relevance_threat_strength : A;
  relevance_service : A;
  relevance_local : A;
  relevance_interaction : A;
  unpositioned_weight : A;
  competitor_position_weights : list (Z * A);
  archetype_weakness_adjustments : list (string * A)
}.

Record KeywordWeighting : Type := {
  demand_share : A;
  commercial_share : A;
  minimum_weight : A;
  unmatched_keyword_weight : A
}.

Record OrganicConfig : Type := {
  organic_position_weights : list (Z * A);
  keyword_weighting : KeywordWeighting;
  directory_penalty : A;
  marketplace_penalty : A;
  national_brand_penalty : A;
  lead_generator_penalty : A;
  informational_publisher_penalty : A;
  unknown_penalty : A;
  shopping_product_penalty : A;
  shopping_product_result_types : list string;
  local_pack_penalty : A;
  ads_top_penalty : A
}.

Record Deductions : Type := {
  d_missing_field : A;
  d_missing_local_demand : A;
  d_low_confidence_market_estimate : A;
  d_medium_confidence_market_evidence : A;
  d_stale_keyword_metrics : A;
  d_stale_serps : A;
  d_limited_serp_sample : A;
  d_limited_competitor_sample : A;
  d_limited_provider_sample : A;
  d_unknown_serp_classification : A
}.

Record ConfidenceConfig : Type := {
  threshold_high : A;
  threshold_medium : A;
  threshold_low : A;
  keyword_max_age_days : A;
  serp_max_age_days : A;
  representative_serp_target : Z;
  competitor_sample_target : Z;
  provider_sample_target : Z;
  maximum_unknown_serp_share_for_high : A;
  source_mode_penalties : list (string * A);
  deductions_config : Deductions
}.

Record ScoringConfig : Type := {
  weights : Weights;
  missing_data_penalty_max : A;
  missing_data_penalty : MissingField → option A;
  missing_evidence_score_cap : MissingField → option A;
  data_completeness_expected_groups : Z;
  demand_config : DemandConfig;
  commercial_config : CommercialConfig;
  competitor_config : CompetitorConfig;
  organic_config : OrganicConfig;
  provider_config : ProviderConfig A;
  confidence_config : ConfidenceConfig
}.
End config.
Arguments w_demand_evidence {A}. Arguments w_commercial_value {A}.
Arguments w_competitor_weakness {A}. Arguments w_organic_click_availability {A}.
Arguments w_provider_suitability {A}. Arguments w_data_completeness {A}.
Arguments strong_monthly_volume {A}. Arguments maximum_component_credit {A}.
Arguments service_attractiveness_share {A}. Arguments market_attractiveness_share {A}.
Arguments national_strong_monthly_volume {A}. Arguments measured_local {A}.
Arguments population_estimated {A}. Arguments strong_cpc {A}.
Arguments strong_paid_competition {A}. Arguments share_cpc {A}.
Arguments share_paid_competition {A}. Arguments share_high_intent {A}.
Arguments weak_referring_domains {A}. Arguments strong_referring_domains {A}.
Arguments unknown_referring_domains_weakness {A}. Arguments relevance_threat_strength {A}.
Arguments relevance_service {A}. Arguments relevance_local {A}.
Arguments relevance_interaction {A}. Arguments unpositioned_weight {A}.
Arguments competitor_position_weights {A}. Arguments archetype_weakness_adjustments {A}.
Arguments demand_share {A}. Arguments commercial_share {A}. Arguments minimum_weight {A}.
Arguments unmatched_keyword_weight {A}. Arguments organic_position_weights {A}.
Arguments keyword_weighting {A}. Arguments directory_penalty {A}. Arguments marketplace_penalty {A}. Arguments national_brand_penalty {A}.
Arguments lead_generator_penalty {A}. Arguments informational_publisher_penalty {A}.
Arguments unknown_penalty {A}.
Arguments shopping_product_penalty {A}. Arguments shopping_product_result_types {A}.
Arguments local_pack_penalty {A}. Arguments ads_top_penalty {A}. Arguments d_missing_field {A}.
Arguments d_missing_local_demand {A}. Arguments d_low_confidence_market_estimate {A}.
Arguments d_medium_confidence_market_evidence {A}. Arguments d_stale_keyword_metrics {A}.
Arguments d_stale_serps {A}. Arguments d_limited_serp_sample {A}.
Arguments d_limited_competitor_sample {A}. Arguments d_limited_provider_sample {A}.
Arguments d_unknown_serp_classification {A}. Arguments threshold_high {A}.
Arguments threshold_medium {A}. Arguments threshold_low {A}. Arguments keyword_max_age_days {A}.
Arguments serp_max_age_days {A}. Arguments representative_serp_target {A}.
Arguments competitor_sample_target {A}. Arguments provider_sample_target {A}.
Arguments maximum_unknown_serp_share_for_high {A}. Arguments source_mode_penalties {A}.
Arguments deductions_config {A}. Arguments weights {A}. Arguments missing_data_penalty_max {A}.
Arguments missing_data_penalty {A}. Arguments missing_evidence_score_cap {A}.
Arguments data_completeness_expected_groups {A}. Arguments demand_config {A}.
Arguments commercial_config {A}. Arguments competitor_config {A}. Arguments organic_config {A}.
Arguments provider_config {A}. Arguments confidence_config {A}.

(** ** Calculation steps *)

Inductive StepLabel : Type :=
| Service_attractiveness | Market_attractiveness
| Advertiser_value | Paid_competition | Commercial_intent | Component_cap
| Missing_competitor_evidence | Link_weakness_baseline | Direct_relevance_threat
| Archetype_adjustment (archetype : string) | Boundary_adjustment
| Missing_SERP_evidence | Available_organic_click_baseline
| Classification_displacement (classification : string)
| Shopping_product_displacement | Local_pack_displacement | Top_ad_displacement
| Component_boundary
| Missing_provider_evidence | Suitable_provider_supply | Supply_saturation_adjustment
| Top_suitable_provider_quality
| Expected_evidence_baseline | Missing_evidence_groups.

Section scorer.
Context {A : Type} `{Num A}.
Open Scope num_scope.

Record ScoreComponentDetail : Type := {
  cd_score : A;
  cd_maximum_score : A;
  cd_calculation_steps : list (StepLabel * A)
}.

(** [0.0001] *)
Definition tolerance : A := num_ratio 1 10000.

Definition round2 : A → A := num_round 2.
Definition round4 : A → A := num_round 4.

(** [round(max(0, min(maximum, value)), 2)] *)
Definition _bounded (value maximum : A) : A := round2 (py_max 0 (py_min maximum value)).

(** [max(0.0, min(maximum, value))] *)
Definition clamp (maximum value : A) : A := py_max 0 (py_min maximum value).

(** [a / b] when the code does not guard [b] *)
Definition checked_div (a b : A) : E A := if b =? 0 then Raise ZeroDivisionError else Ok (a / b).

(** [for x in l: total += f(x)] *)
Definition accumulate {T} (f : T → A) (l : list T) : A := foldl (λ total x, total + f x) 0 l.

(** [_max(x for ...; default=d)] *)
Definition max_default (d : A) (l : list A) : A :=
  match l with [] => d | x :: l' => max_of x l' end.

(** The cap steps the components share: [if abs(adjustment) >= 0.0001: ...]. *)
Definition cap_step (label : StepLabel) (adjustment : A) : list (StepLabel * A) :=
  if tolerance <=? num_abs adjustment then [(label, round4 adjustment)] else [].

(** ** Missing evidence *)

Definition is_empty {T} (l : list T) : bool := match l with [] => true | _ => false end.
Definition is_none {T} (o : option T) : bool := match o with None => true | Some _ => false end.

(** [if c: missing.append(f)] *)
Definition report (c : bool) (f : MissingField) : list MissingField := if c then [f] else [].

Definition _missing_fields (metrics : list (KeywordMetric A)) (serps : list SerpSnapshot)
    (competitors : list (CompetitorMetric A)) (providers : list (ProviderCandidate A))
    (demand : DemandModel A) : list MissingField :=
  report (is_empty metrics) keyword_metrics
  ++ report (is_none (estimated_market_demand demand)) local_demand
  ++ report (is_empty serps) serp_snapshots
  ++ report (is_empty competitors) competitor_metrics
  ++ report (is_empty providers) provider_candidates
  ++ report (negb (is_empty metrics) && negb (existsb (λ m, negb (is_none (km_cpc m))) metrics))
       keyword_cpc
  ++ report (negb (is_empty serps) && negb (existsb (λ s, negb (is_empty (ss_results s))) serps))
       serp_results.

Definition _missing_data_penalties (config : ScoringConfig A) (missing : list MissingField)
    : list (MissingField * A) :=
  let max_penalty := missing_data_penalty_max config in
  let raw_penalties :=
    map (λ f, (f, py_max 0 (default 0 (missing_data_penalty config f)))) missing in
  let raw_total := num_sum (map snd raw_penalties) in
  let scale := if (max_penalty <? raw_total) && (0 <? raw_total) then max_penalty / raw_total else 1 in
  map (λ '(f, penalty), (f, round2 (penalty * scale)))
    (List.filter (λ '(_, penalty), 0 <? penalty) raw_penalties).

Inductive EvidenceStatus : Type := preliminary | unusable | partial | complete.

Definition is_preliminary (assessment_type : string) : bool :=
  bool_decide (assessment_type = "preliminary"%string).

Definition _evidence_status (missing : list MissingField) (assessment_type : string) : EvidenceStatus :=
  if is_preliminary assessment_type then preliminary
  else if bool_decide (competitor_metrics ∈ missing) then unusable
  else match missing with [] => complete | _ => partial end.

Definition _missing_evidence_score_cap (config : ScoringConfig A) (missing : list MissingField)
    (assessment_type : string) : option A :=
  if is_preliminary assessment_type then None
  else match omap (missing_evidence_score_cap config) missing with
       | [] => None
       | c :: caps => Some (min_of c caps)
       end.

(** ** Demand evidence *)

Record DemandInputs : Type := {
  service_weight : A;
  service_score : A;
  market_score_cap : A;
  market_score : A
}.

Definition _market_demand_evidence_type (demand : DemandModel A) : string :=
  if bool_decide (market_demand_kind demand = "measured_local"%string) then "measured_local"
  else if bool_decide (market_demand_kind demand = "estimated_local"%string) then
    if bool_decide (market_estimator demand = "population_share"%string) then "population_estimated"
    else "estimated_local"
  else "missing".

(** [None] is the early return for shares that are all zero: the score is 0.0 and
    the inputs lack the entries [_demand_component_detail] reads. *)
Definition _demand_evidence (config : ScoringConfig A) (demand : DemandModel A)
    : option (A * DemandInputs) :=
  let weight := w_demand_evidence (weights config) in
  let config := demand_config config in
  let service_share := py_max 0 (service_attractiveness_share config) in
  let market_share := py_max 0 (market_attractiveness_share config) in
  let total_share := service_share + market_share in
  if total_share <=? 0 then None
  else
    let service_weight := weight * (service_share / total_share) in
    let market_weight := weight * (market_share / total_share) in
    let service_demand := num_Z (default 0%Z (service_attractiveness_demand demand)) in
    let market_demand := or_zero (estimated_market_demand demand) in
    let service_threshold := py_max 1 (national_strong_monthly_volume config) in
    let market_profile :=
      if bool_decide (_market_demand_evidence_type demand = "measured_local"%string)
      then measured_local config else population_estimated config in
    let market_threshold := py_max (num_ratio 1 100) (strong_monthly_volume market_profile) in
    let market_maximum_credit := py_min 1 (py_max 0 (maximum_component_credit market_profile)) in
    let market_score_cap := market_weight * market_maximum_credit in
    let service_score := _bounded (service_demand / service_threshold * service_weight) service_weight in
    let market_score := _bounded (market_demand / market_threshold * market_weight) market_score_cap in
    Some (_bounded (service_score + market_score) weight,
          {| service_weight := service_weight; service_score := service_score;
             market_score_cap := market_score_cap; market_score := market_score |}).

Definition _demand_component_detail (config : ScoringConfig A) (score : A) (inputs : DemandInputs)
    : ScoreComponentDetail :=
  {| cd_score := score;
     cd_maximum_score := w_demand_evidence (weights config);
     cd_calculation_steps := [(Service_attractiveness, service_score inputs);
                              (Market_attractiveness, market_score inputs)] |}.

Definition demand_component (config : ScoringConfig A) (demand : DemandModel A)
    : E ScoreComponentDetail :=
  match _demand_evidence config demand with
  | Some (score, inputs) => Ok (_demand_component_detail config score inputs)
  | None => Raise KeyError
  end.

(** ** Commercial value *)

Definition _commercial_value (config : ScoringConfig A) (avg_cpc avg_paid_competition : A)
    (high_intent_count scored_keyword_count : Z) : ScoreComponentDetail :=
  let weight := w_commercial_value (weights config) in
  let config := commercial_config config in
  let strong_cpc := py_max 1 (strong_cpc config) in
  let strong_paid_competition := py_max (num_ratio 1 100) (strong_paid_competition config) in
  let configured_cpc := py_max 0 (share_cpc config) in
  let configured_paid := py_max 0 (share_paid_competition config) in
  let configured_intent := py_max 0 (share_high_intent config) in
  let total_signal_share := num_sum [configured_cpc; configured_paid; configured_intent] in
  let signal_share configured := if 0 <? total_signal_share then configured / total_signal_share else 0 in
  let point_budget configured := weight * signal_share configured in
  let high_intent_share := num_ratio high_intent_count (Z.max 1 scored_keyword_count) in
  let cpc_points := unit_factor (avg_cpc / strong_cpc) * point_budget configured_cpc in
  let competition_points :=
    unit_factor (avg_paid_competition / strong_paid_competition) * point_budget configured_paid in
  let intent_points := unit_factor high_intent_share * point_budget configured_intent in
  let raw_score := cpc_points + competition_points + intent_points in
  {| cd_score := _bounded raw_score weight;
     cd_maximum_score := weight;
     cd_calculation_steps :=
       [(Advertiser_value, round4 cpc_points); (Paid_competition, round4 competition_points);
        (Commercial_intent, round4 intent_points)]
       ++ cap_step Component_cap (clamp weight raw_score - raw_score) |}.

(** ** Keyword evidence of queries *)

Definition _normalize_query (value : string) : string :=
  String.concat " " (py_split (py_lower value)).

Definition metrics_by_query (metrics : list (KeywordMetric A)) : gmap string (KeywordMetric A) :=
  let setdefault m (by_query : gmap string (KeywordMetric A)) value :=
    let q := _normalize_query value in
    match by_query !! q with Some _ => by_query | None => <[q := m]> by_query end in
  foldl (λ by_query m, foldl (setdefault m) by_query [km_keyword m; km_canonical_keyword m]) ∅ metrics.

Inductive WeightBasis : Type :=
| unmatched_keyword | relative_demand_and_commercial_value | matched_without_weighting_metrics.

Record KeywordEvidence : Type := {
  ke_query : string;
  ke_matched_keyword : option string;
  ke_keyword_weight : A;
  ke_weight_basis : WeightBasis
}.

Definition maximum_volume (matched : list (option (KeywordMetric A))) : Z :=
  match omap (λ o, o ≫= km_search_volume) matched with [] => 0%Z | v :: vs => foldl Z.max v vs end.
Definition maximum_cpc (matched : list (option (KeywordMetric A))) : A :=
  max_default 0 (omap (λ o, o ≫= km_cpc) matched).

(** The weight of a query that matches [m]; the divisor is the sum of the shares of
    the signals the keyword has. *)
Definition matched_evidence (config : KeywordWeighting A) (max_volume : Z) (max_cpc : A)
    (query : string) (m : KeywordMetric A) : E KeywordEvidence :=
  let demand_signal :=
    match km_search_volume m with
    | Some v => if (0 <? max_volume)%Z then [(demand_share config, num_ratio v max_volume)] else []
    | None => []
    end in
  let commercial_signal :=
    match km_cpc m with
    | Some c => if 0 <? max_cpc then [(commercial_share config, c / max_cpc)] else []
    | None => []
    end in
  let evidence w basis := {| ke_query := query; ke_matched_keyword := Some (km_keyword m);
                             ke_keyword_weight := round4 w; ke_weight_basis := basis |} in
  match demand_signal ++ commercial_signal with
  | [] => Ok (evidence (unmatched_keyword_weight config) matched_without_weighting_metrics)
  | weighted_signals =>
      raw_weight ← checked_div (num_sum (map (λ '(share, signal), share * signal) weighted_signals))
                               (num_sum (map fst weighted_signals));
      Ok (evidence (py_max (minimum_weight config) raw_weight) relative_demand_and_commercial_value)
  end.

Fixpoint collect {S T} (f : S → E T) (l : list S) : E (list T) :=
  match l with
  | [] => Ok []
  | x :: l' => y ← f x; ys ← collect f l'; Ok (y :: ys)
  end.

Definition _query_keyword_evidence (queries : list string) (metrics : list (KeywordMetric A))
    (config : KeywordWeighting A) : E (list KeywordEvidence) :=
  let by_query := metrics_by_query metrics in
  let matched := map (λ q, by_query !! _normalize_query q) queries in
  let max_volume := maximum_volume matched in
  let max_cpc := maximum_cpc matched in
  collect (λ '(query, m),
    match m with
    | None => Ok {| ke_query := query; ke_matched_keyword := None;
                    ke_keyword_weight := unmatched_keyword_weight config;
                    ke_weight_basis := unmatched_keyword |}
    | Some m => matched_evidence config max_volume max_cpc query m
    end) (zip queries matched).

Definition _serp_keyword_evidence (serps : list SerpSnapshot) (metrics : list (KeywordMetric A))
    (config : KeywordWeighting A) : E (list KeywordEvidence) :=
  _query_keyword_evidence (map ss_query serps) metrics config.

(** ** Competitor weakness *)

(** The characters of a scheme, and [urlparse(url).netloc]: what follows [//] after an
    optional scheme, up to the first slash, question mark or hash.  The checks of
    bracketed hosts are left out. *)
Definition char_in (chars : list nat) (c : Ascii.ascii) : bool :=
  existsb (Nat.eqb (Ascii.nat_of_ascii c)) chars.
Definition between (lo hi : nat) (c : Ascii.ascii) : bool :=
  let n := Ascii.nat_of_ascii c in (lo <=? n)%nat && (n <=? hi)%nat.
Definition is_alpha (c : Ascii.ascii) : bool := between 65 90 c || between 97 122 c.
Definition is_scheme_char (c : Ascii.ascii) : bool :=
  is_alpha c || between 48 57 c || char_in [43; 45; 46]%nat c.

Fixpoint take_until (stop : Ascii.ascii → bool) (s : string) : string :=
  match s with
  | EmptyString => EmptyString
  | String c s' => if stop c then EmptyString else String c (take_until stop s')
  end.

(** [None]: no scheme. *)
Fixpoint after_scheme (s : string) : option string :=
  match s with
  | EmptyString => None
  | String c s' =>
      if char_in [58]%nat c then Some s'
      else if is_scheme_char c then after_scheme s' else None
  end.

Fixpoint strip_controls (s : string) : string :=
  match s with
  | EmptyString => EmptyString
  | String c s' => if between 0 32 c then strip_controls s' else s
  end.
Fixpoint remove_chars (unsafe : Ascii.ascii → bool) (s : string) : string :=
  match s with
  | EmptyString => EmptyString
  | String c s' => if unsafe c then remove_chars unsafe s' else String c (remove_chars unsafe s')
  end.

Definition netloc (url : string) : string :=
  let url := remove_chars (char_in [9; 10; 13]%nat) (strip_controls url) in
  let rest := match url with
              | String c _ => if is_alpha c then default url (after_scheme url) else url
              | EmptyString => url
              end in
  match rest with
  | String c1 (String c2 host) =>
      if char_in [47]%nat c1 && char_in [47]%nat c2 then take_until (char_in [47; 63; 35]%nat) host
      else EmptyString
  | _ => EmptyString
  end.

Definition remove_www (s : string) : string :=
  if String.prefix "www." s then String.substring 4 (String.length s) s else s.

Definition domain_key (c : CompetitorMetric A) : string :=
  py_strip (remove_www (py_lower (or_str (cm_domain c) (or_str (netloc (cm_url c)) (cm_url c))))).

(** [(item.serp_position is None, item.serp_position or 0)] *)
Definition position_before (p q : option Z) : bool :=
  match p, q with
  | Some p, Some q => (p <? q)%Z
  | Some _, None => true
  | None, _ => false
  end.

(** [(item.position, item.query, item.url)] *)
Definition observation_leb (x y : CompetitorSerpObservation) : bool :=
  match Z.compare (ob_position x) (ob_position y) with
  | Lt => true
  | Gt => false
  | Eq => match String.compare (ob_query x) (ob_query y) with
          | Lt => true
          | Gt => false
          | Eq => String.leb (ob_url x) (ob_url y)
          end
  end.

(** The merge of two entries of one domain. *)
Definition merge_competitors (existing competitor : CompetitorMetric A) : CompetitorMetric A :=
  let chosen :=
    if position_before (cm_serp_position competitor) (cm_serp_position existing)
    then competitor else existing in
  let ordered :=
    sort_by observation_leb
      (py_dedupe (cm_serp_observations existing ++ cm_serp_observations competitor)) in
  let representative_query := match ordered with
                              | [] => cm_representative_query chosen
                              | o :: _ => Some (ob_query o)
                              end in
  let serp_position := match ordered with
                       | [] => cm_serp_position chosen
                       | o :: _ => Some (ob_position o)
                       end in
  {| cm_url := cm_url chosen; cm_domain := cm_domain chosen;
     cm_referring_domains := cm_referring_domains chosen;
     cm_page_relevance_score := cm_page_relevance_score chosen;
     cm_local_relevance := cm_local_relevance chosen;
     cm_page_type := cm_page_type chosen; cm_archetype := cm_archetype chosen;
     cm_representative_query := representative_query;
     cm_serp_position := serp_position;
     cm_serp_observations := ordered |}.

(** [by_domain[key] = ...]: a dict in insertion order. *)
Fixpoint add_by_domain (key : string) (c : CompetitorMetric A)
    (by_domain : list (string * CompetitorMetric A)) : list (string * CompetitorMetric A) :=
  match by_domain with
  | [] => [(key, c)]
  | (k, existing) :: rest =>
      if bool_decide (k = key) then (k, merge_competitors existing c) :: rest
      else (k, existing) :: add_by_domain key c rest
  end.

Definition _unique_domain_competitors (competitors : list (CompetitorMetric A))
    : list (CompetitorMetric A) :=
  map snd (foldl (λ by_domain c, add_by_domain (domain_key c) c by_domain) [] competitors).

Definition _competitor_position_weight (position : option Z) (config : CompetitorConfig A) : E A :=
  match position with
  | None => Ok (unpositioned_weight config)
  | Some p =>
      match assoc p (competitor_position_weights config) with
      | Some w => Ok w
      | None => match map snd (competitor_position_weights config) with
                | [] => Raise ValueError
                | w :: ws => Ok (min_of w ws)
                end
      end
  end.

Record Exposure : Type := {
  ex_query : option string;
  ex_position : option Z;
  ex_url : string;
  ex_keyword_weight : A;
  ex_position_weight : A;
  ex_exposure_weight : A
}.

Definition exposure_of (config : CompetitorConfig A)
    (evidence_by_query : gmap string KeywordEvidence) (unmatched : A)
    (observation : option string * option Z * string) : E Exposure :=
  let '(query, position, url) := observation in
  let evidence := match query with
                  | Some q => if str_truthy q then evidence_by_query !! _normalize_query q else None
                  | None => None
                  end in
  let keyword_weight :=
    py_max tolerance (match evidence with Some e => ke_keyword_weight e | None => unmatched end) in
  position_weight ← _competitor_position_weight position config;
  Ok {| ex_query := query; ex_position := position; ex_url := url;
        ex_keyword_weight := round4 keyword_weight;
        ex_position_weight := round4 position_weight;
        ex_exposure_weight := round4 (keyword_weight * position_weight) |}.

Definition observations_of (c : CompetitorMetric A) : list (option string * option Z * string) :=
  match cm_serp_observations c with
  | [] => [(cm_representative_query c, cm_serp_position c, cm_url c)]
  | obs => map (λ o, (Some (ob_query o), Some (ob_position o), ob_url o)) obs
  end.

Definition _competitor_exposures (competitor : CompetitorMetric A) (config : CompetitorConfig A)
    (evidence_by_query : gmap string KeywordEvidence) (unmatched : A) : E (list Exposure) :=
  collect (exposure_of config evidence_by_query unmatched) (observations_of competitor).

(** The queries whose keyword evidence the component looks up. *)
Definition observation_queries (competitors : list (CompetitorMetric A)) : list string :=
  let observed := py_dedupe (map ob_query (concat (map cm_serp_observations competitors))) in
  foldl (λ queries c,
    match cm_serp_observations c, cm_representative_query c with
    | [], Some q => if str_truthy q && negb (bool_decide (q ∈ queries)) then queries ++ [q] else queries
    | _, _ => queries
    end) observed competitors.

(** What the loop over the competitors computes for one of them. *)
Record CompetitorInput : Type := {
  ci_archetype : string;
  ci_archetype_adjustment : A;
  ci_base : A;
  ci_relevance_deduction : A;
  ci_raw_value : A;
  ci_normalized_value : A;
  ci_exposures : list Exposure;
  ci_exposure_weight : A
}.

Definition competitor_input (config : CompetitorConfig A)
    (evidence_by_query : gmap string KeywordEvidence) (unmatched : A)
    (c : CompetitorMetric A) : E CompetitorInput :=
  let weak_ref := weak_referring_domains config in
  let strong_ref := strong_referring_domains config in
  let configured_service := py_max 0 (relevance_service config) in
  let configured_local := py_max 0 (relevance_local config) in
  let configured_interaction := py_max 0 (relevance_interaction config) in
  let total_relevance_weight := num_sum [configured_service; configured_local; configured_interaction] in
  let signal_weight configured :=
    if 0 <? total_relevance_weight then configured / total_relevance_weight else 0 in
  let base :=
    match cm_referring_domains c with
    | None => unknown_referring_domains_weakness config
    | Some ref_domains =>
        1 - py_min (py_max (num_Z ref_domains - weak_ref) 0) (strong_ref - weak_ref)
            / py_max 1 (strong_ref - weak_ref)
    end in
  let service_relevance :=
    py_max 0 (py_min 1 (default (num_ratio 1 2) (cm_page_relevance_score c))) in
  let local_relevance := py_max 0 (py_min 1 (or_zero (cm_local_relevance c))) in
  let relevance_interaction := service_relevance * local_relevance in
  let direct_relevance :=
    signal_weight configured_service * service_relevance
    + signal_weight configured_local * local_relevance
    + signal_weight configured_interaction * relevance_interaction in
  let direct_threat_penalty := relevance_threat_strength config * direct_relevance in
  let archetype :=
    or_str (default ""%string (str_or (cm_archetype c) (Some (cm_page_type c)))) "unknown" in
  let archetype_adjustment := default 0 (assoc archetype (archetype_weakness_adjustments config)) in
  let relevance_deduction := - (base * direct_threat_penalty) in
  let raw_value := base + relevance_deduction + archetype_adjustment in
  exposures ← _competitor_exposures c config evidence_by_query unmatched;
  Ok {| ci_archetype := archetype; ci_archetype_adjustment := archetype_adjustment;
        ci_base := base; ci_relevance_deduction := relevance_deduction;
        ci_raw_value := raw_value; ci_normalized_value := py_max 0 (py_min 1 raw_value);
        ci_exposures := exposures;
        ci_exposure_weight := num_sum (map ex_exposure_weight exposures) |}.

(** [archetype_point_totals], sorted by archetype. *)
Definition archetype_total (inputs : list CompetitorInput) (archetype : string) : A :=
  accumulate (λ i, ci_archetype_adjustment i * ci_exposure_weight i)
    (List.filter (λ i, bool_decide (ci_archetype i = archetype)) inputs).
Definition archetypes_of (inputs : list CompetitorInput) : list string :=
  sort_by String.leb (py_dedupe (map ci_archetype inputs)).

Definition missing_competitors_detail (weight : A) : ScoreComponentDetail :=
  {| cd_score := 0; cd_maximum_score := weight;
     cd_calculation_steps := [(Missing_competitor_evidence, 0)] |}.

Definition weigh_competitors (weight : A) (inputs : list CompetitorInput) : E ScoreComponentDetail :=
  let total_exposure_weight := num_sum (map ci_exposure_weight inputs) in
  let weighted_value_total :=
    num_sum (map (λ i, ci_normalized_value i * ci_exposure_weight i) inputs) in
  let unclamped_total := accumulate (λ i, ci_raw_value i * ci_exposure_weight i) inputs in
  let base_total := accumulate (λ i, ci_base i * ci_exposure_weight i) inputs in
  let relevance_total := accumulate (λ i, ci_relevance_deduction i * ci_exposure_weight i) inputs in
  mean_weakness ← checked_div weighted_value_total total_exposure_weight;
  let points total := total / total_exposure_weight * weight in
  let archetype_steps :=
    omap (λ a, let total := archetype_total inputs a in
               if num_abs total <? tolerance then None
               else Some (Archetype_adjustment a, round4 (points total)))
         (archetypes_of inputs) in
  Ok {| cd_score := _bounded (mean_weakness * weight) weight;
        cd_maximum_score := weight;
        cd_calculation_steps :=
          [(Link_weakness_baseline, round4 (points base_total));
           (Direct_relevance_threat, round4 (points relevance_total))]
          ++ archetype_steps
          ++ cap_step Boundary_adjustment (points (weighted_value_total - unclamped_total)) |}.

Definition _competitor_weakness (config : ScoringConfig A) (competitors : list (CompetitorMetric A))
    (metrics : list (KeywordMetric A)) : E ScoreComponentDetail :=
  let weight := w_competitor_weakness (weights config) in
  match _unique_domain_competitors competitors with
  | [] => Ok (missing_competitors_detail weight)
  | competitors =>
      let weighting := keyword_weighting (organic_config config) in
      keyword_evidence ← _query_keyword_evidence (observation_queries competitors) metrics weighting;
      let by_query : gmap string KeywordEvidence :=
        foldl (λ m e, <[_normalize_query (ke_query e) := e]> m) ∅ keyword_evidence in
      inputs ← collect (competitor_input (competitor_config config) by_query
                          (unmatched_keyword_weight weighting)) competitors;
      weigh_competitors weight inputs
  end.

(** ** Organic click availability *)

Definition is_organic (r : SerpResult) : bool := bool_decide (sr_result_type r = "organic"%string).

(** [_serp_composition]: how many results have a classification. *)
Definition serp_composition_count (results : list SerpResult) (classification : string) : Z :=
  Z.of_nat (length (List.filter
    (λ r, bool_decide (or_str (sr_classification r) "unknown" = classification)) results)).

Definition keyword_weights (evidence : list KeywordEvidence) : A :=
  num_sum (map ke_keyword_weight evidence).

Definition _weighted_serp_feature_share (serps : list SerpSnapshot) (evidence : list KeywordEvidence)
    (predicate : SerpSnapshot → bool) : A :=
  let total_weight := keyword_weights evidence in
  if total_weight <=? 0 then 0
  else keyword_weights (omap (λ '(s, e), if predicate s then Some e else None) (zip serps evidence))
       / total_weight.

(** A shopping type is a feature of the page or the type of one of its results. *)
Definition has_shopping (types : list string) (s : SerpSnapshot) : bool :=
  existsb (λ t, bool_decide (py_lower t ∈ map py_lower types))
    (ss_features_present s ++ map sr_result_type (ss_results s)).
Definition has_feature (feature : string) (s : SerpSnapshot) : bool :=
  bool_decide (feature ∈ ss_features_present s).

(** [classification_weight_totals]: the organic results of each snapshot, weighted by
    keyword and position. *)
Definition weighted_results (position_weights : list (Z * A))
    (serps : list SerpSnapshot) (evidence : list KeywordEvidence) : list (string * A) :=
  concat (map (λ '(s, e),
    map (λ r, (sr_classification r,
               ke_keyword_weight e * default 0 (assoc (sr_order r) position_weights)))
      (List.filter is_organic (ss_results s))) (zip serps evidence)).
Definition classification_total (weighted : list (string * A)) (classification : string) : A :=
  accumulate snd (List.filter (λ e, bool_decide (e.1 = classification)) weighted).

Definition classification_penalties (penalties : OrganicConfig A) : list (string * A) :=
  [("directory"%string, directory_penalty penalties);
   ("marketplace"%string, marketplace_penalty penalties);
   ("national_brand"%string, national_brand_penalty penalties);
   ("lead_generator"%string, lead_generator_penalty penalties);
   ("informational_publisher"%string, informational_publisher_penalty penalties);
   ("unknown"%string, unknown_penalty penalties)].

Definition missing_serp_detail (weight : A) : ScoreComponentDetail :=
  {| cd_score := 0; cd_maximum_score := weight;
     cd_calculation_steps := [(Missing_SERP_evidence, 0)] |}.

(** One displacement: what is subtracted from the availability and, when it is
    shown, its step. *)
Definition displacement (weight : A) (shown : bool) (label : StepLabel) (deduction : A)
    (state : A * list (StepLabel * A)) : A * list (StepLabel * A) :=
  let '(availability, steps) := state in
  (availability - deduction,
   if shown then steps ++ [(label, round4 (- (deduction * weight)))] else steps).

Definition organic_results (serps : list SerpSnapshot) : list SerpResult :=
  List.filter is_organic (concat (map ss_results serps)).

(** The steps that subtract from the full availability: the six classifications, then
    shopping, local packs and top ads. *)
Definition displace (weight : A) (penalties : OrganicConfig A) (serps : list SerpSnapshot)
    (evidence : list KeywordEvidence) (total_result_capacity : A) : A * list (StepLabel * A) :=
  let share := _weighted_serp_feature_share serps evidence in
  let shopping := share (has_shopping (shopping_product_result_types penalties)) in
  let local_pack := share (has_feature "local_pack") in
  let ads_top := share (has_feature "ads_top") in
  let weighted := weighted_results (organic_position_weights penalties) serps evidence in
  let classify state '(classification, penalty) :=
    displacement weight (0 <? serp_composition_count (organic_results serps) classification)%Z
      (Classification_displacement classification)
      (classification_total weighted classification / total_result_capacity * penalty) state in
  let feature label share penalty state :=
    if num_truthy share then displacement weight true label (share * penalty) state else state in
  let classified := foldl classify (1, [(Available_organic_click_baseline, weight)])
                      (classification_penalties penalties) in
  let shopped := displacement weight (num_truthy shopping) Shopping_product_displacement
                   (shopping * shopping_product_penalty penalties) classified in
  feature Top_ad_displacement ads_top (ads_top_penalty penalties)
    (feature Local_pack_displacement local_pack (local_pack_penalty penalties) shopped).

(** The component and the rounded weighted share of unknown results. *)
Definition _organic_click_availability (config : ScoringConfig A) (serps : list SerpSnapshot)
    (metrics : list (KeywordMetric A)) : E (ScoreComponentDetail * A) :=
  let weight := w_organic_click_availability (weights config) in
  let penalties := organic_config config in
  match organic_results serps with
  | [] => Ok (missing_serp_detail weight, 0)
  | _ =>
      evidence ← _serp_keyword_evidence serps metrics (keyword_weighting penalties);
      let position_capacity := num_sum (map snd (organic_position_weights penalties)) in
      let total_result_capacity := position_capacity * keyword_weights evidence in
      let weighted := weighted_results (organic_position_weights penalties) serps evidence in
      unknown ← checked_div (classification_total weighted "unknown") total_result_capacity;
      let unknown_share :=
        if existsb (λ e, bool_decide (e.1 = "unknown"%string)) weighted then round4 unknown else 0 in
      let '(availability, steps) := displace weight penalties serps evidence total_result_capacity in
      let unclamped_score := availability * weight in
      Ok ({| cd_score := _bounded unclamped_score weight;
             cd_maximum_score := weight;
             cd_calculation_steps :=
               steps ++ cap_step Component_boundary (clamp weight unclamped_score - unclamped_score) |},
          unknown_share)
  end.

(** ** Provider suitability *)

Definition missing_provider_detail (weight : A) : ScoreComponentDetail :=
  {| cd_score := 0; cd_maximum_score := weight;
     cd_calculation_steps := [(Missing_provider_evidence, 0)] |}.

Definition supply_multiplier (config : ProviderConfig A) (suitable : Z) : A :=
  if (oversupply_count config <? suitable)%Z then num_ratio 72 100
  else if (ideal_max config <? suitable)%Z then num_ratio 88 100
  else 1.

Definition _provider_suitability (config : ScoringConfig A) (providers : list (ProviderCandidate A))
    : ScoreComponentDetail :=
  let weight := w_provider_suitability (weights config) in
  match providers with
  | [] => missing_provider_detail weight
  | _ =>
      let config := provider_config config in
      let summary := provider_suitability_summary providers config in
      let suitable := suitable_provider_count summary in
      let base_supply_fit := py_min (num_ratio suitable (Z.max 1 (ideal_min config))) 1 in
      let supply_fit := base_supply_fit * supply_multiplier config suitable in
      let quality := average_top_suitable_provider_score summary / num_Z 100 in
      let supply_points_before_adjustment := base_supply_fit * num_ratio 65 100 * weight in
      let supply_adjustment_points := (supply_fit - base_supply_fit) * num_ratio 65 100 * weight in
      let quality_points := quality * num_ratio 35 100 * weight in
      {| cd_score := _bounded (supply_points_before_adjustment + supply_adjustment_points
                               + quality_points) weight;
         cd_maximum_score := weight;
         cd_calculation_steps :=
           [(Suitable_provider_supply, round4 supply_points_before_adjustment)]
           ++ cap_step Supply_saturation_adjustment supply_adjustment_points
           ++ [(Top_suitable_provider_quality, round4 quality_points)] |}
  end.

(** ** Data completeness *)

Definition _data_completeness (config : ScoringConfig A) (missing : list MissingField)
    : ScoreComponentDetail :=
  let weight := w_data_completeness (weights config) in
  let expected_groups := Z.max 1 (data_completeness_expected_groups config) in
  let count := Z.of_nat (length missing) in
  let raw_score := weight * (1 - num_ratio count expected_groups) in
  let missing_deduction := - (weight * num_Z count / num_Z expected_groups) in
  {| cd_score := _bounded raw_score weight;
     cd_maximum_score := weight;
     cd_calculation_steps :=
       [(Expected_evidence_baseline, weight); (Missing_evidence_groups, round4 missing_deduction)]
       ++ cap_step Component_boundary (clamp weight raw_score - raw_score) |}.

(** ** Confidence *)

Definition CONFIDENCE_RANK (c : Confidence) : Z :=
  match c with insufficient => 0 | low => 1 | medium => 2 | high => 3 end%Z.

Inductive CapReason : Type :=
| Missing_local_demand | Population_derived_demand | Synthetic_fixture | Sandbox_evidence
| Stale_keywords | Stale_serps | Classification_coverage | Incomplete_sample (factor : string)
| Without_competitors | Missing_serps | Preliminary_assessment.

(** The variables the nested functions [deduct] and [cap] update. *)
Record ConfidenceState : Type := {
  cs_score : A;
  cs_deductions : list (string * A);
  cs_caps : list (Confidence * CapReason)
}.

Definition deduct (factor : string) (points : A) (s : ConfidenceState) : ConfidenceState :=
  let points := py_max 0 points in
  if points <=? 0 then s
  else {| cs_score := cs_score s - points;
          cs_deductions := cs_deductions s ++ [(factor, round2 points)];
          cs_caps := cs_caps s |}.

Definition cap (level : Confidence) (reason : CapReason) (s : ConfidenceState) : ConfidenceState :=
  {| cs_score := cs_score s; cs_deductions := cs_deductions s; cs_caps := cs_caps s ++ [(level, reason)] |}.

(** [if c: f()] *)
Definition only_if {T} (c : bool) (f : T → T) (s : T) : T := if c then f s else s.

Definition _source_mode (metrics : list (KeywordMetric A)) (explicit_mode : option string) : string :=
  let mentions sub := existsb (λ m, py_contains sub (py_lower (km_source m))) metrics in
  if opt_truthy explicit_mode then py_lower (py_strip (default ""%string explicit_mode))
  else if mentions "fixture" then "fixture"
  else if mentions "sandbox" then "sandbox"
  else if mentions "replay" then "replay"
  else "unknown".

Definition _oldest_age_days (now : Z) (timestamps : list datetime) : option A :=
  match map (λ t, py_max 0 (num_ratio (now - instant t) 1000000 / num_Z 86400)) timestamps with
  | [] => None
  | age :: ages => Some (max_of age ages)
  end.

Definition older_than (age : option A) (limit : A) : bool :=
  match age with Some age => limit <? age | None => false end.

(** One sample of the loop over [sample_specs]. *)
Definition sample_rule (factor : string) (actual target : Z) (max_deduction : A)
    (s : ConfidenceState) : ConfidenceState :=
  if (target <=? 0)%Z || (target <=? actual)%Z then s
  else cap medium (Incomplete_sample factor)
         (deduct factor (max_deduction * num_ratio (target - actual) target) s).

Definition local_demand_rule (d : Deductions A) (demand : DemandModel A) (s : ConfidenceState)
    : ConfidenceState :=
  let estimation_confidence := market_estimation_confidence demand in
  match estimated_market_demand demand with
  | None => cap low Missing_local_demand (deduct "missing_local_demand" (d_missing_local_demand d) s)
  | Some _ =>
      if bool_decide (estimation_confidence = "low"%string) then
        cap medium Population_derived_demand
          (deduct "low_confidence_market_estimate" (d_low_confidence_market_estimate d) s)
      else if bool_decide (estimation_confidence = "medium"%string) then
        deduct "medium_confidence_market_evidence" (d_medium_confidence_market_evidence d) s
      else s
  end.

Definition source_rule (config : ConfidenceConfig A) (mode : string) (s : ConfidenceState)
    : ConfidenceState :=
  let penalties := source_mode_penalties config in
  let penalty := default (default 0 (assoc "unknown"%string penalties)) (assoc mode penalties) in
  let s := deduct (mode +:+ "_source") penalty s in
  if bool_decide (mode = "fixture"%string) then cap low Synthetic_fixture s
  else only_if (bool_decide (mode = "sandbox"%string)) (cap medium Sandbox_evidence) s.

Record ConfidenceModel : Type := {
  conf_score : A;
  conf_level : Confidence;
  conf_source_mode : string;
  conf_deductions : list (string * A);
  conf_caps : list (Confidence * CapReason)
}.

Definition threshold_level (config : ConfidenceConfig A) (score : A) : Confidence :=
  if threshold_high config <=? score then high
  else if threshold_medium config <=? score then medium
  else if threshold_low config <=? score then low
  else insufficient.

(** [for item in caps: ...] *)
Definition apply_caps (caps : list (Confidence * CapReason)) (level : Confidence) : Confidence :=
  foldl (λ level item,
    if (CONFIDENCE_RANK item.1 <? CONFIDENCE_RANK level)%Z then item.1 else level) level caps.

(** What the assessment looks at besides the configuration. *)
Record Evidence : Type := {
  ev_missing : list MissingField;
  ev_metrics : list (KeywordMetric A);
  ev_serps : list SerpSnapshot;
  ev_competitors : list (CompetitorMetric A);
  ev_providers : list (ProviderCandidate A);
  ev_demand : DemandModel A;
  ev_source_mode : option string;
  ev_assessment_type : string;
  ev_unknown_serp_share : A
}.

Definition confidence_rules (config : ConfidenceConfig A) (now : Z) (ev : Evidence)
    : ConfidenceState → ConfidenceState := λ s,
  let d := deductions_config config in
  let missing := ev_missing ev in
  let full := negb (is_preliminary (ev_assessment_type ev)) in
  let ordinary_missing := List.filter (λ f, negb (bool_decide (f = local_demand))) missing in
  let count {T} (l : list T) := Z.of_nat (length l) in
  let s := only_if (negb (bool_decide (ordinary_missing = [])))
             (deduct "missing_evidence" (num_Z (count ordinary_missing) * d_missing_field d)) s in
  let s := local_demand_rule d (ev_demand ev) s in
  let s := source_rule config (_source_mode (ev_metrics ev) (ev_source_mode ev)) s in
  let s := only_if (older_than (_oldest_age_days now (map km_source_timestamp (ev_metrics ev)))
                               (keyword_max_age_days config))
             (λ s, cap medium Stale_keywords
                     (deduct "stale_keyword_metrics" (d_stale_keyword_metrics d) s)) s in
  let s := only_if (older_than (_oldest_age_days now (map ss_captured_at (ev_serps ev)))
                               (serp_max_age_days config))
             (λ s, cap medium Stale_serps (deduct "stale_serps" (d_stale_serps d) s)) s in
  let s := only_if (maximum_unknown_serp_share_for_high config <? ev_unknown_serp_share ev)
             (λ s, cap medium Classification_coverage
                     (deduct "unknown_serp_classification"
                        (d_unknown_serp_classification d * ev_unknown_serp_share ev) s)) s in
  let s := sample_rule "limited_serp_sample" (count (ev_serps ev))
             (representative_serp_target config) (d_limited_serp_sample d) s in
  let s := sample_rule "limited_competitor_sample" (count (ev_competitors ev))
             (competitor_sample_target config) (d_limited_competitor_sample d) s in
  let s := sample_rule "limited_provider_sample" (count (ev_providers ev))
             (provider_sample_target config) (d_limited_provider_sample d) s in
  let s := only_if (bool_decide (competitor_metrics ∈ missing) && full)
             (cap insufficient Without_competitors) s in
  let s := only_if ((bool_decide (serp_snapshots ∈ missing) || bool_decide (serp_results ∈ missing))
                    && full) (cap low Missing_serps) s in
  only_if (negb full) (cap medium Preliminary_assessment) s.

Definition _confidence (config : ConfidenceConfig A) (now : Z) (ev : Evidence) : ConfidenceModel :=
  let s := confidence_rules config now ev
             {| cs_score := num_Z 100; cs_deductions := []; cs_caps := [] |} in
  let score := round2 (py_max 0 (py_min (num_Z 100) (cs_score s))) in
  {| conf_score := score;
     conf_level := apply_caps (cs_caps s) (threshold_level config score);
     conf_source_mode := _source_mode (ev_metrics ev) (ev_source_mode ev);
     conf_deductions := cs_deductions s;
     conf_caps := cs_caps s |}.

(** ** The score *)

Inductive Component : Type :=
| demand_evidence | commercial_value | competitor_weakness
| organic_click_availability | provider_suitability | data_completeness.

Record OpportunityScore : Type := {
  total_score : A;
  uncapped_total_score : A;
  evidence_status : EvidenceStatus;
  score_cap : option A;
  component_details : list (Component * ScoreComponentDetail);
  missing_data_penalties : list (MissingField * A);
  confidence : Confidence;
  confidence_model : ConfidenceModel;
  missing_fields : list MissingField
}.

Definition component_scores (s : OpportunityScore) : list (Component * A) :=
  map (λ '(c, detail), (c, cd_score detail)) (component_details s).

(** [mean([m.x for m in metrics if m.x is not None] or [0])] *)
Definition average (field : KeywordMetric A → option A) (metrics : list (KeywordMetric A)) : A :=
  match omap field metrics with [] => num_Z 0 | l => num_mean l end.

Definition is_high_intent (m : KeywordMetric A) : bool := bool_decide (km_intent m ∈ HIGH_INTENTS).

Definition score (config : ScoringConfig A) (estimator : MarketDemandEstimator A)
    (metrics : list (KeywordMetric A)) (serps : list SerpSnapshot)
    (competitors : list (CompetitorMetric A)) (providers : list (ProviderCandidate A))
    (market : Market A) (source_mode : option string) (assessment_type : string) (now : Z)
    : E OpportunityScore :=
  let scored_metrics := List.filter km_included metrics in
  let demand_model := analyze_demand scored_metrics market estimator in
  let missing := _missing_fields scored_metrics serps competitors providers demand_model in
  demand ← demand_component config demand_model;
  let commercial :=
    _commercial_value config (average km_cpc scored_metrics)
      (average km_paid_competition scored_metrics)
      (Z.of_nat (length (List.filter is_high_intent scored_metrics)))
      (Z.of_nat (length scored_metrics)) in
  competitor ← _competitor_weakness config competitors scored_metrics;
  '(organic, unknown_serp_share) ← _organic_click_availability config serps scored_metrics;
  let details :=
    [(demand_evidence, demand); (commercial_value, commercial); (competitor_weakness, competitor);
     (organic_click_availability, organic);
     (provider_suitability, _provider_suitability config providers);
     (data_completeness, _data_completeness config missing)] in
  let penalties := _missing_data_penalties config missing in
  let total := num_sum (map (λ d, cd_score d.2) details) - num_sum (map snd penalties) in
  let model :=
    _confidence (confidence_config config) now
      {| ev_missing := missing; ev_metrics := scored_metrics; ev_serps := serps;
         ev_competitors := competitors; ev_providers := providers; ev_demand := demand_model;
         ev_source_mode := source_mode; ev_assessment_type := assessment_type;
         ev_unknown_serp_share := unknown_serp_share |} in
  let score_cap := _missing_evidence_score_cap config missing assessment_type in
  let uncapped_total := round2 (py_max 0 total) in
  Ok {| total_score := match score_cap with
                       | Some c => round2 (py_min uncapped_total c)
                       | None => uncapped_total
                       end;
        uncapped_total_score := uncapped_total;
        evidence_status := _evidence_status missing assessment_type;
        score_cap := score_cap;
        component_details := details;
        missing_data_penalties := penalties;
        confidence := conf_level model;
        confidence_model := model;
        missing_fields := missing |}.
End scorer.
