(* ===== verification/ScoringProofs.v ===== *)
(** * Scoring: lemmas

    Ranges of the clamped scores, sums, the steps that explain a component, when the
    divisions of the scorer are defined, and what the confidence rules add. *)
From S2P Require Import Prelude.
From S2P Require Import Binary64.
From S2P Require Import Numbers.
From S2P Require Import Demand.
From S2P Require Import Scoring.
From Stdlib Require Import QArith Qabs Lqa.
#[global] Open Scope Z_scope.

#[global] Arguments round2 : simpl never.
#[global] Arguments round4 : simpl never.
#[global] Arguments _bounded : simpl never.
#[global] Arguments clamp : simpl never.

(** ** Inversion of the error monad *)

Lemma E_bind_ok {T U} (m : E T) (k : T → E U) u :
  m ≫= k = Ok u ↔ ∃ t, m = Ok t ∧ k t = Ok u.
Proof. destruct m; simpl; naive_solver. Qed.

Ltac e_inv :=
  repeat match goal with
  | H : (_ ≫= _) = Ok _ |- _ => apply E_bind_ok in H as (? & ? & ?)
  | H : Ok _ = Ok _ |- _ => injection H as <-
  | H : (let '(_, _) := ?p in _) = Ok _ |- _ => destruct p
  end.

(** ** Ranges, in exact arithmetic *)

Open Scope Q_scope.

(** A number of at most two decimals. *)
Definition hundredths (x : Q) : Prop := ∃ n : Z, x == n # 100.

#[export] Instance round2_proper : Proper (Qeq ==> Qeq) (round2 (A := Q)).
Proof. apply Q_round_proper. lia. Qed.
#[export] Instance round4_proper : Proper (Qeq ==> Qeq) (round4 (A := Q)).
Proof. apply Q_round_proper. lia. Qed.

Lemma round2_fix (x : Q) : hundredths x → round2 x == x.
Proof. intros [n Hn]. rewrite Hn. apply (Q_round_fix 2). lia. Qed.

Lemma round2_hundredths (x : Q) : hundredths (round2 x).
Proof. eexists. reflexivity. Qed.

Lemma round2_mono (x y : Q) : x <= y → round2 x <= round2 y.
Proof. unfold round2. unfold_num. apply Q_round_mono. lia. Qed.

Lemma round2_nonneg (x : Q) : 0 <= x → 0 <= round2 x.
Proof.
  intros Hx. rewrite <- (round2_fix 0) by (by exists 0%Z). by apply round2_mono.
Qed.

Lemma round2_le (x y : Q) : hundredths y → x <= y → round2 x <= y.
Proof. intros Hy Hx. rewrite <- (round2_fix y) by done. by apply round2_mono. Qed.

(** [a] and [b] differ by at most [e]. *)
Definition near (e a b : Q) : Prop := - e <= a - b <= e.

Lemma round2_near (x : Q) : near (1 # 200) (round2 x) x.
Proof. apply Qabs_Qle_condition, (Q_round_near 2). lia. Qed.

Lemma round4_near (x : Q) : near (1 # 20000) (round4 x) x.
Proof. apply Qabs_Qle_condition, (Q_round_near 4). lia. Qed.

Lemma clamp_range (maximum value : Q) : 0 <= maximum → 0 <= clamp maximum value <= maximum.
Proof. unfold clamp, py_min, py_max. unfold_num. intros. q_cases; lra. Qed.

Lemma clamp_id (maximum value : Q) : 0 <= value <= maximum → clamp maximum value == value.
Proof. unfold clamp, py_min, py_max. unfold_num. intros. q_cases; lra. Qed.

Lemma bounded_range (value maximum : Q) :
  hundredths maximum → 0 <= maximum → 0 <= _bounded value maximum <= maximum.
Proof.
  intros Hm H0. destruct (clamp_range maximum value H0) as [Hl Hu].
  split; [by apply round2_nonneg | by apply round2_le].
Qed.

Lemma bounded_near (value maximum : Q) : near (1 # 200) (_bounded value maximum) (clamp maximum value).
Proof. apply round2_near. Qed.

Lemma accumulate_total {T} (f : T → Q) (l : list T) : accumulate f l == total (map f l).
Proof. unfold accumulate. unfold_num. rewrite foldl_total. lra. Qed.


(** ** Component scores stay in their range *)

(** The configuration's weights and caps are non-negative with two decimals. *)
Definition points_ok (x : Q) : Prop := 0 <= x ∧ hundredths x.

Record ScaleOk (config : ScoringConfig Q) : Prop := {
  ok_demand : points_ok (w_demand_evidence (weights config));
  ok_commercial : points_ok (w_commercial_value (weights config));
  ok_competitor : points_ok (w_competitor_weakness (weights config));
  ok_organic : points_ok (w_organic_click_availability (weights config));
  ok_provider : points_ok (w_provider_suitability (weights config));
  ok_completeness : points_ok (w_data_completeness (weights config));
  ok_penalty_max : 0 <= missing_data_penalty_max config;
  ok_caps f c : missing_evidence_score_cap config f = Some c → points_ok c
}.

Definition weight_of (w : Weights Q) (c : Component) : Q :=
  match c with
  | demand_evidence => w_demand_evidence w
  | commercial_value => w_commercial_value w
  | competitor_weakness => w_competitor_weakness w
  | organic_click_availability => w_organic_click_availability w
  | provider_suitability => w_provider_suitability w
  | data_completeness => w_data_completeness w
  end.

Definition all_components : list Component :=
  [demand_evidence; commercial_value; competitor_weakness; organic_click_availability;
   provider_suitability; data_completeness].

(** A detail whose score lies between zero and the weight [w]. *)
Definition scored_within (w : Q) (d : ScoreComponentDetail) : Prop :=
  cd_maximum_score d = w ∧ 0 <= cd_score d <= w.

Lemma bounded_within (w v : Q) steps :
  points_ok w →
  scored_within w {| cd_score := _bounded v w; cd_maximum_score := w; cd_calculation_steps := steps |}.
Proof. intros [H0 Hw]. split; [done|]. by apply bounded_range. Qed.

Lemma zero_within (w : Q) steps :
  points_ok w →
  scored_within w {| cd_score := 0%num; cd_maximum_score := w; cd_calculation_steps := steps |}.
Proof. intros [H0 Hw]. split; [done|]. simpl. unfold_num. split; [lra|done]. Qed.

Create HintDb scoring discriminated.
#[export] Hint Resolve bounded_within zero_within : scoring.

Section ranges.
Context (config : ScoringConfig Q) (Hok : ScaleOk config).

Lemma demand_within demand d :
  demand_component config demand = Ok d → scored_within (w_demand_evidence (weights config)) d.
Proof.
  unfold demand_component, _demand_evidence. destruct (_ <=? 0)%num; [done|]. intros [= <-].
  apply bounded_within, Hok.
Qed.

Lemma weigh_within (w : Q) inputs d :
  points_ok w → weigh_competitors w inputs = Ok d → scored_within w d.
Proof. intros Hw Hd. unfold weigh_competitors in Hd. e_inv. by apply bounded_within. Qed.

Lemma competitor_within competitors metrics d :
  _competitor_weakness config competitors metrics = Ok d →
  scored_within (w_competitor_weakness (weights config)) d.
Proof.
  unfold _competitor_weakness. destruct (_unique_domain_competitors _); intros Hd; e_inv.
  - apply zero_within, Hok.
  - by eapply weigh_within; [apply Hok|].
Qed.

Lemma organic_within serps metrics d share :
  _organic_click_availability config serps metrics = Ok (d, share) →
  scored_within (w_organic_click_availability (weights config)) d.
Proof.
  unfold _organic_click_availability. destruct (organic_results serps).
  - intros [= <- _]. apply zero_within, Hok.
  - intros Hd. e_inv. apply bounded_within, Hok.
Qed.

Lemma provider_within providers :
  scored_within (w_provider_suitability (weights config)) (_provider_suitability config providers).
Proof.
  unfold _provider_suitability. destruct providers; [apply zero_within | apply bounded_within]; apply Hok.
Qed.

Lemma completeness_within missing :
  scored_within (w_data_completeness (weights config)) (_data_completeness config missing).
Proof. apply bounded_within, Hok. Qed.

Lemma commercial_within cpc paid n k :
  scored_within (w_commercial_value (weights config)) (_commercial_value config cpc paid n k).
Proof. apply bounded_within, Hok. Qed.
End ranges.

(** ** The steps explain the score *)

Definition points (d : ScoreComponentDetail) : list Q := map snd (cd_calculation_steps d).

(** The sum of the values is [v], up to half a unit of the fourth decimal each. *)
Definition slack (n : nat) : Q := inject_Z (Z.of_nat n) * (1 # 20000).
Definition approx (l : list Q) (v : Q) : Prop := near (slack (length l)) (total l) v.

(** The points of the steps add up to the score, up to a hundredth and half a unit of
    the fourth decimal per step. *)
Definition explained (d : ScoreComponentDetail) : Prop :=
  near ((1 # 100) + slack (length (points d))) (total (points d)) (cd_score d).

Lemma slack_add n k : slack (n + k) == slack n + slack k.
Proof. unfold slack. rewrite Nat2Z.inj_add, inject_Z_plus. lra. Qed.
Lemma slack_0 : slack 0 == 0.
Proof. done. Qed.
Lemma slack_nonneg n : 0 <= slack n.
Proof.
  unfold slack. assert (0 <= inject_Z (Z.of_nat n)) by (unfold Qle; simpl; lia). lra.
Qed.

Lemma approx_nil : approx [] 0.
Proof. split; vm_compute; discriminate. Qed.

Lemma approx_app l k u v : approx l u → approx k v → approx (l ++ k) (u + v).
Proof. unfold approx, near. rewrite length_app, slack_add, total_app. lra. Qed.

Lemma approx_round (x : Q) : approx [round4 x] x.
Proof.
  pose proof (round4_near x). unfold approx, near in *.
  change (slack _) with (1 * (1 # 20000)). simpl. lra.
Qed.

Lemma approx_exact (x : Q) : approx [x] x.
Proof. unfold approx, near. pose proof (slack_nonneg 1). simpl. lra. Qed.

Lemma approx_eq l u v : u == v → approx l u → approx l v.
Proof. unfold approx, near. lra. Qed.

Lemma cap_step_near (label : StepLabel) (x : Q) :
  near (1 # 10000) (total (map snd (cap_step label x))) x.
Proof.
  unfold cap_step, tolerance. unfold_num. q_cases; simpl.
  - pose proof (round4_near x). unfold near in *. lra.
  - apply Qlt_le_weak, Qabs_Qle_condition in H. unfold near. lra.
Qed.

(** Steps that add up to the raw score, and the step for what the clamp cut off. *)
Lemma capped_explained (steps : list (StepLabel * Q)) (w raw : Q) label :
  approx (map snd steps) raw →
  explained {| cd_score := _bounded raw w; cd_maximum_score := w;
               cd_calculation_steps := steps ++ cap_step label (clamp w raw - raw)%num |}.
Proof.
  unfold explained, points, approx, near. simpl. intros Ha.
  rewrite map_app, total_app, length_app, slack_add.
  pose proof (cap_step_near label (clamp w raw - raw)) as Hc. pose proof (bounded_near raw w) as Hb.
  pose proof (slack_nonneg (length (map snd (cap_step label (clamp w raw - raw)%num)))).
  unfold near in *. unfold_num. lra.
Qed.

Lemma unclamped_explained (steps : list (StepLabel * Q)) (w raw : Q) :
  0 <= raw <= w → near ((1 # 200) + slack (length (map snd steps))) (total (map snd steps)) raw →
  explained {| cd_score := _bounded raw w; cd_maximum_score := w; cd_calculation_steps := steps |}.
Proof.
  unfold explained, points, near. cbn [cd_calculation_steps cd_score]. intros Hr Ha.
  pose proof (bounded_near raw w) as Hb. unfold near in Hb. rewrite (clamp_id w raw Hr) in Hb. lra.
Qed.

Lemma zero_explained (w : Q) (label : StepLabel) :
  explained {| cd_score := 0%num; cd_maximum_score := w; cd_calculation_steps := [(label, 0%num)] |}.
Proof. unfold explained, near, points. pose proof (slack_nonneg 1). simpl in *. unfold_num. lra. Qed.
#[export] Hint Resolve zero_explained approx_round approx_exact approx_nil approx_app : scoring.

Lemma tenths_nonneg (x : Q) : 0 <= py_max 0%num x.
Proof. unfold py_max. unfold_num. q_cases; lra. Qed.

Lemma share_split (s m : Q) :
  0 <= s → 0 <= m → 0 < s + m → 0 <= s / (s + m) ∧ 0 <= m / (s + m) ∧ s / (s + m) + m / (s + m) == 1.
Proof.
  intros. split; [|split].
  - apply Qle_shift_div_l; lra.
  - apply Qle_shift_div_l; lra.
  - field. lra.
Qed.

Lemma bounded_upper (v m : Q) : 0 <= m → 0 <= _bounded v m <= m + (1 # 200).
Proof.
  intros Hm. pose proof (clamp_range m v Hm) as [Hl Hu]. pose proof (bounded_near v m) as Hn.
  split; [by apply round2_nonneg|]. unfold near in Hn. lra.
Qed.

Lemma hundredths_plus (x y : Q) : hundredths x → hundredths y → hundredths (x + y).
Proof.
  intros [n Hn] [k Hk]. exists (n + k)%Z. rewrite Hn, Hk. unfold Qeq. simpl. lia.
Qed.

Lemma bounded_hundredths (v w : Q) :
  hundredths v → points_ok w → 0 <= v → _bounded v w == clamp w v.
Proof.
  intros Hv [Hw Hh] H0. apply round2_fix.
  destruct (Qlt_le_dec w v) as [Hlt|Hle].
  - destruct Hh as [n Hn]. exists n. rewrite <- Hn.
    unfold clamp, py_min, py_max. unfold_num. q_cases; lra.
  - destruct Hv as [n Hn]. exists n. rewrite <- Hn. apply clamp_id. lra.
Qed.

(** Two bounded parts whose budgets fit the weight. *)
Lemma two_parts_explained (w s m v v' : Q) (label label' : StepLabel) :
  points_ok w → 0 <= s → 0 <= m → s + m <= w →
  explained {| cd_score := _bounded (_bounded v s + _bounded v' m)%num w; cd_maximum_score := w;
               cd_calculation_steps := [(label, _bounded v s); (label', _bounded v' m)] |}.
Proof.
  intros Hw Hs Hm Hsm. unfold explained, near, points. cbn [map snd cd_calculation_steps cd_score total].
  pose proof (bounded_upper v s Hs). pose proof (bounded_upper v' m Hm).
  pose proof (slack_nonneg (length [_bounded v s; _bounded v' m])).
  assert (hundredths (_bounded v s + _bounded v' m)) as Hh
    by (apply hundredths_plus; eexists; reflexivity).
  pose proof (bounded_hundredths _ w Hh Hw ltac:(lra)) as Hb.
  set (x := _bounded v s) in *. set (y := _bounded v' m) in *. unfold_num. rewrite Hb.
  unfold points_ok in Hw. unfold clamp, py_min, py_max. unfold_num. q_cases; lra.
Qed.

Lemma scaled (w x : Q) : 0 <= w → 0 <= x <= 1 → 0 <= w * x <= w.
Proof.
  intros Hw [Hx Hx'].
  pose proof (Qmult_le_0_compat w x Hw Hx).
  pose proof (Qmult_le_0_compat w (1 - x) Hw ltac:(lra)). lra.
Qed.

Section explained.
Context (config : ScoringConfig Q) (Hok : ScaleOk config).

Lemma demand_explained demand d : demand_component config demand = Ok d → explained d.
Proof.
  unfold demand_component, _demand_evidence.
  set (s := py_max 0%num (service_attractiveness_share _)).
  set (m := py_max 0%num (market_attractiveness_share _)).
  pose proof (tenths_nonneg (service_attractiveness_share (demand_config config)) : 0 <= s).
  pose proof (tenths_nonneg (market_attractiveness_share (demand_config config)) : 0 <= m).
  unfold_num. destruct (Qle_bool_spec (s + m) 0) as [|Hpos]; [done|]. intros [= <-].
  destruct (ok_demand config Hok) as [Hw Hh]. set (w := w_demand_evidence (weights config)) in *.
  destruct (share_split s m) as (Hs & Hm & Hsm); [done..|].
  set (f := s / (s + m)) in *. set (g := m / (s + m)) in *.
  set (cap := py_min 1 (py_max 0 _)).
  assert (0 <= cap <= 1) as Hcap.
  { unfold cap, py_min, py_max. unfold_num. q_cases; lra. }
  destruct (scaled w f Hw ltac:(lra)) as [Hsw _].
  destruct (scaled w g Hw ltac:(lra)) as [Hmw _].
  destruct (scaled (w * g) cap Hmw Hcap) as [Hc0 Hc].
  assert (w * f + w * g == w) as Hsum.
  { rewrite <- Qmult_plus_distr_r, Hsm. lra. }
  apply two_parts_explained; [done|done|done|fold w; lra].
Qed.

Lemma commercial_explained cpc paid n k : explained (_commercial_value config cpc paid n k).
Proof.
  apply capped_explained. cbn [map snd].
  match goal with |- approx [round4 ?a; round4 ?b; round4 ?c] _ =>
    apply (approx_eq _ (a + (b + c))); [unfold_num; lra|];
    apply (approx_app [_] _ a), (approx_app [_] [_] b c); apply approx_round
  end.
Qed.

Lemma completeness_explained missing : explained (_data_completeness config missing).
Proof.
  unfold _data_completeness. set (w := w_data_completeness _). set (e := Z.max 1 _).
  set (n := Z.of_nat _). apply (capped_explained [_; _]). cbn [map snd].
  eapply approx_eq; [|apply (approx_app [w] [_] w); [apply approx_exact|apply approx_round]].
  unfold_num. assert (0 < e)%Z by lia. destruct e as [|p|p]; [lia| |lia]. simpl.
  rewrite (Qmake_Qdiv n p). change (Zpos p # 1) with (inject_Z (Zpos p)).
  change (n # 1) with (inject_Z n). field. by intros ?.
Qed.

Lemma elem_of_filter_list {T} (p : T → bool) x l : x ∈ List.filter p l ↔ x ∈ l ∧ p x = true.
Proof. rewrite !list_elem_of_In. apply filter_In. Qed.

Lemma elem_of_map {S T} (f : S → T) y l : y ∈ map f l ↔ ∃ x, y = f x ∧ x ∈ l.
Proof. apply list_elem_of_fmap. Qed.

(** The average of scores of at most 100 is at most 100. *)
Lemma summary_range (c : ProviderConfig Q) providers :
  (∀ p, p ∈ providers → 0 <= suitability p <= 100) →
  0 <= average_top_suitable_provider_score (provider_suitability_summary providers c) <= 100.
Proof.
  intros Hp. cbn [average_top_suitable_provider_score provider_suitability_summary].
  set (top := take _ _).
  assert (∀ x, x ∈ top → 0 <= x <= 100) as Htop.
  { intros x Hx. apply elem_of_take in Hx as (i & Hi & _).
    apply list_elem_of_lookup_2, elem_of_map in Hi as (p & -> & Hin). apply Hp.
    unfold suitable_providers in Hin. rewrite sort_by_perm in Hin.
    by apply elem_of_filter_list in Hin as [Hin _]. }
  assert (0 <= total top <= 100 * inject_Z (Z.of_nat (length top))) as Ht.
  { rewrite <- (map_id top). clearbody top. induction top as [|x l IH]; [done|].
    pose proof (Htop x ltac:(set_solver)). pose proof (IH ltac:(set_solver)).
    cbn [map total length]. rewrite Nat2Z.inj_succ, <- Z.add_1_r, inject_Z_plus.
    change (inject_Z 1) with 1. lra. }
  set (n := Z.max 1 _). assert (inject_Z (Z.of_nat (length top)) <= num_Z n) as Hn.
  { unfold n. unfold_num. unfold Qle. simpl. lia. }
  assert (0 < num_Z n) as Hpos by (unfold n; unfold_num; unfold Qlt; simpl; lia).
  fold (round2 (num_sum top / num_Z n)%num). set (d := num_Z n) in *. unfold_num.
  split; [apply round2_nonneg | apply round2_le; [by exists 10000%Z|]].
  - apply Qle_shift_div_l; [done|]. rewrite sum_total. lra.
  - apply Qle_shift_div_r; [done|]. rewrite sum_total. lra.
Qed.

Lemma multiplier_range (c : ProviderConfig Q) n : 0 <= supply_multiplier c n <= 1.
Proof. unfold supply_multiplier. unfold_num. repeat case_match; split; done. Qed.

Lemma supply_fit_range n k : (0 <= n)%Z → 0 <= py_min (num_ratio n k) 1%num <= 1.
Proof.
  intros Hn. assert (0 <= num_ratio n k) by (unfold_num; unfold Qle; simpl; lia).
  generalize dependent (num_ratio (A := Q) n k). intros r Hr.
  unfold py_min. unfold_num. q_cases; lra.
Qed.

Lemma provider_explained providers :
  (∀ p, p ∈ providers → 0 <= suitability p <= 100) →
  explained (_provider_suitability config providers).
Proof.
  intros Hp. unfold _provider_suitability. destruct providers as [|p ps]; [apply zero_explained|].
  set (l := p :: ps) in *. set (c := provider_config config).
  pose proof (summary_range c l Hp) as Hq.
  set (q := average_top_suitable_provider_score _) in *.
  set (n := suitable_provider_count _). assert (0 ≤ n)%Z as Hn by apply Nat2Z.is_nonneg.
  pose proof (supply_fit_range n (Z.max 1 (ideal_min c)) Hn) as Hb. set (b := py_min _ _) in *.
  pose proof (multiplier_range c n) as Hm. set (m := supply_multiplier c n) in *.
  destruct (ok_provider config Hok) as [Hw _]. set (w := w_provider_suitability (weights config)) in *.
  clearbody q b m w n. unfold_num.
  destruct (scaled b m ltac:(lra) Hm) as [Hf Hfb].
  assert (b * 0.65 * w + (b * m - b) * 0.65 * w + q / 100 * 0.35 * w
          == w * (0.65 * (b * m) + 0.35 * (q / 100))) as E by field.
  assert (0 <= q / 100 <= 1) as Hq1 by (split; [apply Qle_shift_div_l | apply Qle_shift_div_r]; lra).
  apply unclamped_explained.
  - rewrite E. apply scaled; [done|]. set (r := q / 100) in *. lra.
  - unfold near. cbn [map snd app]. rewrite map_app. cbn [map snd total length]. rewrite total_app.
    cbn [map snd total].
    set (x := b * 0.65 * w). set (y := (b * m - b) * 0.65 * w). set (z := q / 100 * 0.35 * w).
    pose proof (round4_near x). pose proof (round4_near z).
    pose proof (cap_step_near Supply_saturation_adjustment y).
    rewrite length_app. pose proof (slack_nonneg (S (length (map snd (cap_step Supply_saturation_adjustment y)) + length [round4 z]))).
    set (e := slack _) in *. clearbody x y z e. clear E. unfold near in *. lra.
Qed.

(** *** Displacements *)

Lemma displacement_near w shown label x state :
  shown = true ∨ x == 0 →
  approx (map snd state.2) (state.1 * w) →
  approx (map snd (displacement w shown label x state).2) ((displacement w shown label x state).1 * w).
Proof.
  destruct state as [a steps]. intros Hx Ha. simpl in *. destruct shown.
  - rewrite map_app. eapply approx_eq; [|apply approx_app; [exact Ha|apply approx_round]].
    unfold_num. lra.
  - destruct Hx as [|Hx]; [done|]. eapply approx_eq; [|exact Ha]. unfold_num. rewrite Hx. lra.
Qed.

Lemma not_truthy_zero (x : Q) : num_truthy x = true ∨ x == 0.
Proof.
  unfold num_truthy. unfold_num. destruct (Qeq_bool x (0 # 1)) eqn:E; [right|by left].
  by apply Qeq_bool_iff.
Qed.

Lemma weighted_from_results (weights : list (Z * Q)) serps evidence e :
  e ∈ weighted_results weights serps evidence →
  ∃ r, r ∈ organic_results serps ∧ sr_classification r = e.1.
Proof.
  unfold weighted_results. intros He. apply list_elem_of_In, in_concat in He as (l & Hl & He).
  apply in_map_iff in Hl as ([s k] & <- & Hs). apply in_map_iff in He as (r & <- & Hr).
  exists r. split; [|done]. apply elem_of_filter_list. apply filter_In in Hr as [Hr Ho]. split; [|done].
  apply list_elem_of_In, in_concat. exists (ss_results s). split; [|done].
  apply in_map. by apply in_combine_l in Hs.
Qed.

Lemma uncounted_total weights serps evidence c :
  str_truthy c = true →
  serp_composition_count (organic_results serps) c = 0%Z →
  classification_total (weighted_results weights serps evidence) c == 0.
Proof.
  intros Hc Hn. unfold classification_total.
  destruct (List.filter _ (weighted_results _ _ _)) as [|e l] eqn:E; [done|].
  assert (e ∈ List.filter (λ e, bool_decide (e.1 = c)) (weighted_results weights serps evidence)) as He
    by (rewrite E; apply list_elem_of_here).
  apply elem_of_filter_list in He as [He Hec%bool_decide_eq_true].
  apply weighted_from_results in He as (r & Hr & Hrc).
  unfold serp_composition_count in Hn.
  assert (r ∈ List.filter (λ r, bool_decide (or_str (sr_classification r) "unknown" = c))
                (organic_results serps)) as Hin.
  { apply elem_of_filter_list. split; [done|]. apply bool_decide_eq_true.
    unfold or_str. rewrite Hrc, Hec, Hc. done. }
  destruct (List.filter _ (organic_results serps)); [by apply not_elem_of_nil in Hin|]. simpl in Hn. lia.
Qed.

Lemma displace_near (w : Q) pen serps evidence capacity :
  let state := displace w pen serps evidence capacity in
  approx (map snd state.2) (state.1 * w).
Proof.
  intros state. subst state. unfold displace.
  assert (∀ label share penalty state,
    approx (map snd state.2) (state.1 * w) →
    let state' := if num_truthy share then displacement w true label (share * penalty)%num state
                  else state in
    approx (map snd state'.2) (state'.1 * w)) as Hfeature.
  { intros label share penalty state Hs. destruct (num_truthy share); [|done].
    apply displacement_near; [by left|done]. }
  apply Hfeature, Hfeature. apply displacement_near.
  { destruct (not_truthy_zero (_weighted_serp_feature_share serps evidence
      (has_shopping (shopping_product_result_types pen)))) as [|Hz]; [by left|right].
    unfold_num. rewrite Hz. lra. }
  unfold classification_penalties. cbn [foldl].
  assert (∀ c p, str_truthy c = true →
    (0 <? serp_composition_count (organic_results serps) c)%Z = true
    ∨ (classification_total (weighted_results (organic_position_weights pen) serps evidence) c
       / capacity * p)%num == 0) as Hcls.
  { intros c p Hc.
    destruct (Z.ltb_spec 0 (serp_composition_count (organic_results serps) c)) as [|Hn]; [by left|right].
    unfold_num. rewrite uncounted_total; [unfold Qdiv; lra|done|].
    apply Z.le_antisymm; [done|]. unfold serp_composition_count. lia. }
  repeat (apply displacement_near; [by apply Hcls|]).
  eapply approx_eq; [|apply approx_exact]. simpl. unfold_num. lra.
Qed.

Lemma organic_explained serps metrics d share :
  _organic_click_availability config serps metrics = Ok (d, share) → explained d.
Proof.
  unfold _organic_click_availability. destruct (organic_results serps) as [|r0 rs].
  { intros [= <- _]. apply zero_explained. }
  intros Hd. apply E_bind_ok in Hd as (evidence & _ & Hd). apply E_bind_ok in Hd as (u & _ & Hd).
  match type of Hd with context[displace ?w ?p ?s ?e ?c] =>
    pose proof (displace_near w p s e c) as Hn; destruct (displace w p s e c) as [a steps] end.
  injection Hd as <- _. by apply capped_explained.
Qed.
End explained.

(** *** Grouping by archetype *)

Lemma py_dedupe_from `{EqDecision K} (l seen : list K) :
  NoDup seen →
  let r := foldl (λ seen x, if bool_decide (x ∈ seen) then seen else seen ++ [x]) seen l in
  NoDup r ∧ ∀ k, k ∈ r ↔ k ∈ seen ∨ k ∈ l.
Proof.
  revert seen. induction l as [|x l IH]; intros seen Hn; simpl; [set_solver|].
  case_bool_decide as Hx.
  - destruct (IH seen Hn) as [Hd Hk]. split; [done|]. intros k. rewrite Hk. set_solver.
  - destruct (IH (seen ++ [x])) as [Hd Hk].
    { apply NoDup_app. split; [done|]. split; [set_solver|apply NoDup_singleton]. }
    split; [done|]. intros k. rewrite Hk. set_solver.
Qed.

Lemma py_dedupe_spec `{EqDecision K} (l : list K) :
  NoDup (py_dedupe l) ∧ ∀ k, k ∈ py_dedupe l ↔ k ∈ l.
Proof.
  destruct (py_dedupe_from l [] ltac:(constructor)) as [Hn Hk]. split; [done|].
  intros k. unfold py_dedupe. rewrite Hk. set_solver.
Qed.

Lemma archetypes_NoDup (inputs : list (CompetitorInput (A := Q))) : NoDup (archetypes_of inputs).
Proof. unfold archetypes_of. rewrite sort_by_perm. apply py_dedupe_spec. Qed.

Lemma archetypes_cover (inputs : list (CompetitorInput (A := Q))) a :
  a ∈ archetypes_of inputs ↔ ∃ i, a = ci_archetype i ∧ i ∈ inputs.
Proof.
  unfold archetypes_of. rewrite sort_by_perm, (proj2 (py_dedupe_spec _)). apply elem_of_map.
Qed.

(** *** Weighing the competitors *)

Section weigh.
Context (w : Q) (inputs : list (CompetitorInput (A := Q))).
Context (Hw : 0 <= w).
Context (Hexposure : ∀ i, i ∈ inputs → 0 <= ci_exposure_weight i).
Context (Hraw : ∀ i, i ∈ inputs →
  ci_raw_value i == ci_base i + ci_relevance_deduction i + ci_archetype_adjustment i).
Context (Hnorm : ∀ i, i ∈ inputs → 0 <= ci_normalized_value i <= 1).
(** An archetype adjusts by nothing or by a visible amount. *)
Context (Hvisible : ∀ a, archetype_total inputs a == 0 ∨ tolerance <= Qabs (archetype_total inputs a)).

Lemma archetype_steps_near (T : Q) :
  approx (map snd (omap (λ a, let t := archetype_total inputs a in
                              if (num_abs t <? tolerance)%num then None
                              else Some (Archetype_adjustment a, round4 (t / T * w)%num))
                        (archetypes_of inputs)))
         (total (map (λ a, archetype_total inputs a / T * w) (archetypes_of inputs))).
Proof.
  induction (archetypes_of inputs) as [|a l IH]; [apply approx_nil|].
  cbn [omap list_omap map total]. unfold_num.
  destruct (Q_ltb_spec (Qabs (archetype_total inputs a)) tolerance) as [Hlt|Hge].
  - eapply approx_eq; [|exact IH]. destruct (Hvisible a) as [Hz|Hz]; [rewrite Hz; unfold Qdiv; lra|].
    exfalso. lra.
  - cbn [map]. apply (approx_app [_]); [apply approx_round|exact IH].
Qed.

Lemma total_weighted_le (f g : CompetitorInput (A := Q) → Q) :
  (∀ i, i ∈ inputs → f i <= g i) →
  total (map (λ i, f i * ci_exposure_weight i) inputs)
  <= total (map (λ i, g i * ci_exposure_weight i) inputs).
Proof. intros Hfg. apply total_le. intros i Hi. apply Qmult_le_compat_r; auto. Qed.

Lemma archetype_totals :
  total (map (archetype_total inputs) (archetypes_of inputs))
  == total (map (λ i, ci_archetype_adjustment i * ci_exposure_weight i) inputs).
Proof.
  rewrite <- (total_partition ci_archetype _ (archetypes_of inputs)).
  - apply total_ext. intros a _. apply accumulate_total.
  - apply archetypes_NoDup.
  - intros i Hi. apply archetypes_cover. eauto.
Qed.

Lemma raw_total :
  total (map (λ i, ci_base i * ci_exposure_weight i) inputs)
  + total (map (λ i, ci_relevance_deduction i * ci_exposure_weight i) inputs)
  + total (map (archetype_total inputs) (archetypes_of inputs))
  == total (map (λ i, ci_raw_value i * ci_exposure_weight i) inputs).
Proof.
  rewrite archetype_totals, <- !total_plus. apply total_ext. intros i Hi. rewrite (Hraw i Hi). lra.
Qed.

(** The mean weakness is between 0 and 1. *)
Lemma mean_weakness_range :
  0 < total (map ci_exposure_weight inputs) →
  0 <= total (map (λ i, ci_normalized_value i * ci_exposure_weight i) inputs)
       / total (map ci_exposure_weight inputs) <= 1.
Proof.
  intros HT. split; [apply Qle_shift_div_l | apply Qle_shift_div_r]; try done.
  - rewrite Qmult_0_l. apply total_nonneg. intros i Hi.
    apply Qmult_le_0_compat; [by apply Hnorm | by apply Hexposure].
  - rewrite Qmult_1_l. apply total_le. intros i Hi.
    rewrite <- (Qmult_1_l (ci_exposure_weight i)) at 2.
    apply Qmult_le_compat_r; [by apply Hnorm | by apply Hexposure].
Qed.

(** The arithmetic of the steps: [B + R + G] is the unclamped total. *)
Lemma weigh_arithmetic (T V U B R G : Q) (steps : list (StepLabel * Q)) :
  0 < T → 0 <= V / T <= 1 → B + R + G == U → approx (map snd steps) (G / T * w) →
  explained
    {| cd_score := _bounded (V / T * w)%num w;
       cd_maximum_score := w;
       cd_calculation_steps :=
         [(Link_weakness_baseline, round4 (B / T * w)%num);
          (Direct_relevance_threat, round4 (R / T * w)%num)]
         ++ steps ++ cap_step Boundary_adjustment ((V - U) / T * w)%num |}.
Proof using Hw.
  intros HT HV HU HA. unfold_num.
  assert (V / T * w == w * (V / T)) as E by apply Qmult_comm.
  apply unclamped_explained; [rewrite E; by apply scaled|].
  assert (B / T * w + R / T * w + G / T * w + (V - U) / T * w == V / T * w) as Hsum.
  { rewrite <- HU. field. intros Hz. rewrite Hz in HT. by apply Qlt_irrefl in HT. }
  unfold approx, near in *. cbn [app map snd]. rewrite map_app.
  cbn [total length]. rewrite total_app, length_app.
  set (c := map snd (cap_step _ _)). pose proof (cap_step_near Boundary_adjustment ((V - U) / T * w)) as Hc.
  fold c in Hc. pose proof (round4_near (B / T * w)). pose proof (round4_near (R / T * w)).
  rewrite (slack_add (S (S (length (map snd steps)))) (length c) : slack (S (S (_ + _))) == _).
  rewrite (slack_add 2 (length (map snd steps))).
  pose proof (slack_nonneg (length c)). assert (slack 2 == 1 # 10000) as -> by done.
  unfold near in *. set (b := B / T * w) in *. set (r := R / T * w) in *. set (g := G / T * w) in *.
  set (v := V / T * w) in *. set (x := (V - U) / T * w) in *. clearbody b r g v x c. lra.
Qed.

Lemma total_ratio {S} (f : S → Q) (T : Q) (l : list S) :
  total (map (λ x, f x / T * w) l) == total (map f l) / T * w.
Proof. unfold Qdiv. induction l as [|x l IH]; simpl; [lra|]. rewrite IH. lra. Qed.

Lemma weigh_explained d : weigh_competitors w inputs = Ok d → explained d.
Proof using Hexposure Hnorm Hraw Hvisible Hw.
  unfold weigh_competitors. intros Hd. apply E_bind_ok in Hd as (mean & Hmean & Hd).
  injection Hd as <-. unfold checked_div in Hmean.
  destruct (num_sum (map ci_exposure_weight inputs) =? 0)%num eqn:ET; [done|]. injection Hmean as <-.
  pose proof (sum_total (map ci_exposure_weight inputs)) as HT.
  assert (0 < num_sum (map ci_exposure_weight inputs)) as Hpos.
  { pose proof (total_nonneg ci_exposure_weight inputs Hexposure) as H0. rewrite <- HT in H0.
    apply Qeq_bool_neq in ET. destruct (Qle_lt_or_eq _ _ H0) as [|Hz]; [done|].
    exfalso. apply ET. by rewrite <- Hz. }
  apply (weigh_arithmetic _ _ _ _ _ (total (map (archetype_total inputs) (archetypes_of inputs)))).
  - done.
  - rewrite HT, sum_total. apply mean_weakness_range. by rewrite <- HT.
  - rewrite !accumulate_total. apply raw_total.
  - eapply approx_eq; [apply total_ratio|]. apply archetype_steps_near.
Qed.
End weigh.

(** ** Every division is defined *)

Definition ten_thousandths (x : Q) : Prop := ∃ n : Z, x == n # 10000.

Lemma round4_mono (x y : Q) : x <= y → round4 x <= round4 y.
Proof. apply Q_round_mono. lia. Qed.

Lemma round4_ge (x y : Q) : ten_thousandths x → x <= y → x <= round4 y.
Proof.
  intros [n Hn] Hle. assert (round4 x == x) as <-; [|by apply round4_mono].
  rewrite Hn. apply (Q_round_fix 4). lia.
Qed.

(** No weight of the configuration is so small that the rounding of an exposure could
    erase it: a keyword weighs at least [k], a position at least [p], and an exposure
    at least [e]. *)
Record EvidenceConfigOk (config : ScoringConfig Q) (k p e : Q) : Prop := {
  eo_k : 0 < k ∧ ten_thousandths k;
  eo_p : 0 < p;
  eo_e : 0 < e ∧ ten_thousandths e ∧ e <= k * p;
  eo_minimum : k <= minimum_weight (keyword_weighting (organic_config config));
  eo_unmatched : k <= unmatched_keyword_weight (keyword_weighting (organic_config config));
  eo_demand_share : 0 < demand_share (keyword_weighting (organic_config config));
  eo_commercial_share : 0 < commercial_share (keyword_weighting (organic_config config));
  eo_unpositioned : p <= unpositioned_weight (competitor_config config);
  eo_competitor_positions : competitor_position_weights (competitor_config config) ≠ []
    ∧ ∀ x, x ∈ competitor_position_weights (competitor_config config) → p <= x.2;
  eo_organic_positions : organic_position_weights (organic_config config) ≠ []
    ∧ ∀ x, x ∈ organic_position_weights (organic_config config) → p <= x.2;
  eo_adjustments x : x ∈ archetype_weakness_adjustments (competitor_config config) →
    x.2 == 0 ∨ tolerance <= Qabs x.2 * e;
  eo_demand : 0 < py_max 0%num (service_attractiveness_share (demand_config config))
                  + py_max 0%num (market_attractiveness_share (demand_config config))
}.

Lemma checked_div_pos (a b : Q) : 0 < b → checked_div a b = Ok (a / b).
Proof.
  intros Hb. unfold checked_div. unfold_num. destruct (Qeq_bool b (0 # 1)) eqn:E; [|done].
  apply Qeq_bool_iff in E. rewrite E in Hb. by apply Qlt_irrefl in Hb.
Qed.

Lemma collect_ok {S T} (f : S → result score_error T) (P : T → Prop) l :
  (∀ x, x ∈ l → ∃ y, f x = Ok y ∧ P y) →
  ∃ ys, collect f l = Ok ys ∧ length ys = length l ∧ (∀ y, y ∈ ys → P y).
Proof.
  induction l as [|x l IH]; intros Hf; simpl.
  { exists []. split; [done|]. split; [done|]. set_solver. }
  destruct (Hf x ltac:(set_solver)) as (y & -> & Hy).
  destruct IH as (ys & -> & Hlen & Hys); [intros; apply Hf; set_solver|].
  exists (y :: ys). simpl. split; [done|]. split; [lia|]. set_solver.
Qed.

Lemma collect_elem {S T} (f : S → result score_error T) l ys y :
  collect f l = Ok ys → y ∈ ys → ∃ x, x ∈ l ∧ f x = Ok y.
Proof.
  revert ys. induction l as [|x l IH]; intros ys Hc Hy; simpl in Hc; e_inv.
  - by apply not_elem_of_nil in Hy.
  - apply elem_of_cons in Hy as [->|Hy]; [set_solver|]. destruct (IH _ H0 Hy) as (z & ? & ?). set_solver.
Qed.

Section defined.
Context (config : ScoringConfig Q) (k p e : Q) (Hok : EvidenceConfigOk config k p e).

Lemma matched_evidence_ok max_volume max_cpc query m :
  ∃ ev, matched_evidence (keyword_weighting (organic_config config)) max_volume max_cpc query m = Ok ev
        ∧ k <= ke_keyword_weight ev.
Proof.
  unfold matched_evidence. set (c := keyword_weighting (organic_config config)).
  pose proof (eo_k _ _ _ _ Hok) as [_ Hk].
  match goal with |- context[match ?l with [] => _ | _ => _ end] => set (signals := l) end.
  assert (∀ s, s ∈ signals → 0 < s.1) as Hs.
  { intros s. unfold signals. pose proof (eo_demand_share _ _ _ _ Hok).
    pose proof (eo_commercial_share _ _ _ _ Hok). repeat case_match; set_solver. }
  clearbody signals. destruct signals as [|s l].
  - eexists. split; [done|]. simpl. apply round4_ge; [done|]. apply (eo_unmatched _ _ _ _ Hok).
  - rewrite checked_div_pos.
    + eexists. split; [done|]. simpl. apply round4_ge; [done|].
      eapply Qle_trans; [apply (eo_minimum _ _ _ _ Hok)|]. apply py_max_ub.
    + rewrite sum_total. apply total_pos; [done|auto].
Qed.

Lemma query_evidence_ok queries metrics :
  ∃ evs, _query_keyword_evidence queries metrics (keyword_weighting (organic_config config)) = Ok evs
         ∧ length evs = length queries ∧ (∀ ev, ev ∈ evs → k <= ke_keyword_weight ev).
Proof.
  unfold _query_keyword_evidence. set (matched := map _ queries).
  match goal with |- context[collect ?f ?l] =>
    destruct (collect_ok f (λ ev, k <= ke_keyword_weight ev) l) as (evs & Hc & Hlen & Hk) end.
  { intros [q [m|]] _; [apply matched_evidence_ok|]. eexists. split; [done|].
    apply (eo_unmatched _ _ _ _ Hok). }
  exists evs. split; [done|]. split; [|done]. rewrite Hlen. unfold matched.
  rewrite length_zip, length_map. lia.
Qed.

Lemma assoc_elem {K V} `{EqDecision K} (key : K) (l : list (K * V)) v :
  assoc key l = Some v → ∃ x, x ∈ l ∧ x.2 = v.
Proof.
  unfold assoc. intros (x & Hx & ->)%fmap_Some. apply find_some in Hx as [Hx _].
  exists x. by rewrite list_elem_of_In.
Qed.

Lemma min_of_ge (b x : Q) l : b <= x → (∀ y, y ∈ l → b <= y) → b <= min_of x l.
Proof.
  unfold min_of. revert x. induction l as [|y l IH]; intros x Hx Hl; simpl; [done|].
  apply IH; [apply py_min_glb; [done|set_solver]|set_solver].
Qed.

Lemma position_weight_ok position :
  ∃ x, _competitor_position_weight position (competitor_config config) = Ok x ∧ p <= x.
Proof.
  destruct (eo_competitor_positions _ _ _ _ Hok) as [Hne Hp].
  destruct position as [n|]; simpl; [|eexists; split; [done|apply (eo_unpositioned _ _ _ _ Hok)]].
  destruct (assoc n _) as [x|] eqn:Ex.
  - apply assoc_elem in Ex as (y & Hy & <-). eauto.
  - destruct (competitor_position_weights (competitor_config config)) as [|y l]; [done|].
    eexists. split; [done|]. apply min_of_ge; [apply Hp; set_solver|].
    intros x (z & -> & Hz)%elem_of_map. apply Hp. set_solver.
Qed.

(** The evidence a competitor's queries are looked up in. *)
Definition weighs_enough (by_query : gmap string (KeywordEvidence (A := Q))) : Prop :=
  ∀ q ev, by_query !! q = Some ev → k <= ke_keyword_weight ev.

Notation unmatched := (unmatched_keyword_weight (keyword_weighting (organic_config config))).

Lemma exposure_ok by_query observation :
  weighs_enough by_query →
  ∃ x, exposure_of (competitor_config config) by_query unmatched observation = Ok x
       ∧ e <= ex_exposure_weight x.
Proof.
  intros Hq. destruct observation as [[query position] url]. simpl.
  destruct (position_weight_ok position) as (pw & -> & Hpw). simpl.
  eexists. split; [done|]. simpl.
  destruct (eo_e _ _ _ _ Hok) as (He0 & He & Hle). destruct (eo_k _ _ _ _ Hok) as [Hk0 _].
  pose proof (eo_p _ _ _ _ Hok) as Hp0.
  apply round4_ge; [done|]. eapply Qle_trans; [exact Hle|]. unfold_num.
  match goal with |- _ <= ?x * pw => set (kw := x) end. assert (k <= kw) as Hkw.
  { eapply Qle_trans; [|apply (proj2 (py_max_ub _ _))].
    destruct query as [q|]; [destruct (str_truthy q)|]; try apply (eo_unmatched _ _ _ _ Hok).
    destruct (by_query !! _) eqn:Eq; [by eapply Hq | apply (eo_unmatched _ _ _ _ Hok)]. }
  apply Qle_trans with (kw * p).
  - apply Qmult_le_compat_r; lra.
  - rewrite (Qmult_comm kw p), (Qmult_comm kw pw). apply Qmult_le_compat_r; lra.
Qed.

(** What the weighing needs to know about a competitor. *)
Definition weighable (i : CompetitorInput (A := Q)) : Prop :=
  e <= ci_exposure_weight i
  ∧ ci_raw_value i == ci_base i + ci_relevance_deduction i + ci_archetype_adjustment i
  ∧ 0 <= ci_normalized_value i <= 1
  ∧ ci_archetype_adjustment i
    = default 0%num (assoc (ci_archetype i) (archetype_weakness_adjustments (competitor_config config))).

Lemma competitor_input_ok by_query c :
  weighs_enough by_query →
  ∃ i, competitor_input (competitor_config config) by_query unmatched c = Ok i ∧ weighable i.
Proof.
  intros Hq. unfold competitor_input, _competitor_exposures.
  destruct (collect_ok (exposure_of (competitor_config config) by_query unmatched)
              (λ x, e <= ex_exposure_weight x) (observations_of c)) as (xs & -> & Hlen & Hxs).
  { intros o _. by apply exposure_ok. }
  cbv zeta. cbn [mbind result_bind]. eexists. split; [reflexivity|].
  split; [|split; [|split]]; cbn [ci_exposure_weight ci_raw_value ci_base ci_relevance_deduction
    ci_archetype_adjustment ci_normalized_value ci_archetype].
  - rewrite sum_total. destruct xs as [|x xs].
    { unfold observations_of in Hlen. destruct (cm_serp_observations c); done. }
    destruct (eo_e _ _ _ _ Hok) as (He0 & _). cbn [map total].
    pose proof (Hxs x ltac:(set_solver)).
    pose proof (total_nonneg ex_exposure_weight xs) as Hn.
    assert (0 <= total (map ex_exposure_weight xs)); [|lra].
    apply Hn. intros y Hy. pose proof (Hxs y ltac:(set_solver)). lra.
  - reflexivity.
  - match goal with |- context[py_min 1%num ?r] => generalize r end. intros r.
    unfold py_max, py_min. unfold_num. q_cases; lra.
  - reflexivity.
Qed.

Lemma visible_adjustments inputs :
  (∀ i, i ∈ inputs → weighable i) →
  ∀ a, archetype_total inputs a == 0 ∨ tolerance <= Qabs (archetype_total inputs a).
Proof.
  intros Hin a. set (adj := default 0%num (assoc a (archetype_weakness_adjustments (competitor_config config)))).
  set (group := List.filter (λ i, bool_decide (ci_archetype i = a)) inputs).
  assert (∀ i, i ∈ group → ci_archetype_adjustment i = adj ∧ e <= ci_exposure_weight i) as Hg.
  { intros i (Hi & Ha%bool_decide_eq_true)%elem_of_filter_list.
    destruct (Hin i Hi) as (He & _ & _ & ->). by rewrite Ha. }
  destruct (eo_e _ _ _ _ Hok) as (He0 & _).
  assert (archetype_total inputs a == adj * total (map ci_exposure_weight group)) as ->.
  { unfold archetype_total. rewrite accumulate_total, <- total_scale. apply total_ext.
    intros i Hi. unfold_num. by rewrite (proj1 (Hg i Hi)). }
  destruct group as [|i0 group'] eqn:Eg; [left; simpl; lra|].
  assert (adj == 0 ∨ tolerance <= Qabs adj * e) as [Hz|Hv].
  { subst adj. destruct (assoc a _) as [x|] eqn:Ex; [|by left].
    apply assoc_elem in Ex as (y & Hy & <-). apply (eo_adjustments _ _ _ _ Hok y Hy). }
  - left. rewrite Hz. lra.
  - right. eapply Qle_trans; [exact Hv|]. rewrite Qabs_Qmult.
    rewrite (Qmult_comm (Qabs adj) e), (Qmult_comm (Qabs adj)).
    apply Qmult_le_compat_r; [|apply Qabs_nonneg]. eapply Qle_trans; [|apply Qle_Qabs].
    cbn [map total]. pose proof (proj2 (Hg i0 ltac:(set_solver))).
    assert (0 <= total (map ci_exposure_weight group')); [|lra].
    apply total_nonneg. intros i Hi. pose proof (proj2 (Hg i ltac:(set_solver))). lra.
Qed.

Lemma foldl_insert_weighs evs (by_query : gmap string (KeywordEvidence (A := Q))) :
  weighs_enough by_query → (∀ ev, ev ∈ evs → k <= ke_keyword_weight ev) →
  weighs_enough (foldl (λ m ev, <[_normalize_query (ke_query ev) := ev]> m) by_query evs).
Proof.
  revert by_query. induction evs as [|ev evs IH]; intros by_query Hq Hev; simpl; [done|].
  apply IH; [|set_solver]. intros q ev' Hl. apply lookup_insert_Some in Hl as [[_ <-]|[_ Hl]].
  - apply Hev. set_solver.
  - by eapply Hq.
Qed.

Lemma weigh_ok w inputs :
  inputs ≠ [] → (∀ i, i ∈ inputs → weighable i) → ∃ d, weigh_competitors w inputs = Ok d.
Proof.
  intros Hne Hin. unfold weigh_competitors. rewrite checked_div_pos; [by eexists|].
  rewrite sum_total. apply total_pos; [done|]. intros i Hi.
  destruct (Hin i Hi) as (He & _). pose proof (proj1 (eo_e _ _ _ _ Hok)). lra.
Qed.

Lemma competitor_ok competitors metrics :
  ScaleOk config →
  ∃ d, _competitor_weakness config competitors metrics = Ok d ∧ explained d.
Proof.
  intros Hscale. unfold _competitor_weakness.
  destruct (_unique_domain_competitors competitors) as [|c cs].
  { eexists. split; [done|]. apply zero_explained. }
  destruct (query_evidence_ok (observation_queries (c :: cs)) metrics) as (evs & -> & _ & Hk).
  cbv zeta. cbn [mbind result_bind].
  match goal with |- context[collect (competitor_input ?cf ?by_query ?u) ?l] =>
    destruct (collect_ok (competitor_input cf by_query u) weighable l) as (inputs & Hc & Hlen & Hin) end.
  { intros x _. apply competitor_input_ok, foldl_insert_weighs; [|done].
    intros q ev. by rewrite lookup_empty. }
  rewrite Hc. cbn [mbind result_bind].
  destruct (weigh_ok (w_competitor_weakness (weights config)) inputs) as [d Hd]; [|done|].
  { by destruct inputs. }
  exists d. split; [done|]. eapply weigh_explained; try exact Hd.
  - apply Hscale.
  - intros i Hi. destruct (Hin i Hi) as (He & _). pose proof (proj1 (eo_e _ _ _ _ Hok)). lra.
  - intros i Hi. apply (Hin i Hi).
  - intros i Hi. apply (Hin i Hi).
  - by apply visible_adjustments.
Qed.

Lemma organic_ok serps metrics :
  ∃ d share, _organic_click_availability config serps metrics = Ok (d, share).
Proof.
  unfold _organic_click_availability. destruct (organic_results serps) as [|r rs] eqn:Er; [eauto|].
  unfold _serp_keyword_evidence.
  destruct (query_evidence_ok (map ss_query serps) metrics) as (evs & -> & Hlen & Hk).
  cbv zeta. cbn [mbind result_bind]. rewrite checked_div_pos.
  - cbn [mbind result_bind]. destruct (displace _ _ _ _ _). eauto.
  - destruct (eo_organic_positions _ _ _ _ Hok) as [Hne Hp]. pose proof (eo_p _ _ _ _ Hok).
    pose proof (proj1 (eo_k _ _ _ _ Hok)). unfold keyword_weights. rewrite !sum_total. unfold_num.
    apply Qmult_lt_0_compat; apply total_pos.
    + by destruct (organic_position_weights (organic_config config)).
    + intros x Hx. specialize (Hp x Hx). lra.
    + rewrite length_map in Hlen. destruct serps; [done|]. by destruct evs.
    + intros ev Hev. specialize (Hk ev Hev). lra.
Qed.

Lemma demand_ok demand : ∃ d, demand_component config demand = Ok d.
Proof.
  unfold demand_component, _demand_evidence. pose proof (eo_demand _ _ _ _ Hok).
  destruct (_ <=? 0)%num eqn:E; [|eauto]. unfold_num. apply Qle_bool_iff in E. exfalso. lra.
Qed.
End defined.

(** ** One competitor per domain *)

Section unique.
Context {A : Type}.
Implicit Types (a b c u : CompetitorMetric A) (l : list (string * CompetitorMetric A)).

Lemma merge_key a b k :
  domain_key a = k → domain_key b = k → domain_key (merge_competitors a b) = k.
Proof. intros Ha Hb. unfold merge_competitors, domain_key in *. simpl. by destruct (position_before _ _). Qed.

Lemma merge_observations a b o :
  o ∈ cm_serp_observations (merge_competitors a b)
  ↔ o ∈ cm_serp_observations a ∨ o ∈ cm_serp_observations b.
Proof.
  unfold merge_competitors. cbn [cm_serp_observations].
  rewrite sort_by_perm, (proj2 (py_dedupe_spec _)). apply elem_of_app.
Qed.

Definition keyed l : Prop := ∀ e, e ∈ l → domain_key e.2 = e.1.

Lemma add_keyed c l : keyed l → keyed (add_by_domain (domain_key c) c l).
Proof.
  induction l as [|[k u] l IH]; intros Hl e He; simpl in He.
  - apply list_elem_of_singleton in He as ->. done.
  - pose proof (Hl (k, u) ltac:(set_solver)) as Hu. simpl in Hu.
    assert (keyed l) as Hl' by (intros x Hx; apply Hl; set_solver).
    case_bool_decide as Hk; apply elem_of_cons in He as [->|He]; simpl.
    + by apply merge_key.
    + by apply Hl'.
    + done.
    + by apply IH.
Qed.

Lemma add_keys c l :
  map fst (add_by_domain (domain_key c) c l)
  = if bool_decide (domain_key c ∈ map fst l) then map fst l else map fst l ++ [domain_key c].
Proof.
  induction l as [|[k u] l IH]; [done|]. simpl. destruct (decide (k = domain_key c)) as [Hk|Hk].
  - rewrite (bool_decide_true (k = _)) by done.
    by rewrite (bool_decide_true (_ ∈ _)) by (rewrite Hk; apply list_elem_of_here).
  - rewrite (bool_decide_false (k = _)) by done. simpl. rewrite IH.
    assert (domain_key c ∈ k :: map fst l ↔ domain_key c ∈ map fst l) as Hin by (rewrite elem_of_cons; naive_solver).
    rewrite (bool_decide_ext _ _ Hin). by case_bool_decide.
Qed.

(** The observations recorded under a key. *)
Definition observed (o : CompetitorSerpObservation) (k : string) (cs : list (CompetitorMetric A)) : Prop :=
  ∃ c, c ∈ cs ∧ domain_key c = k ∧ o ∈ cm_serp_observations c.

Lemma add_observed o k c l :
  keyed l →
  observed o k (map snd (add_by_domain (domain_key c) c l))
  ↔ observed o k (map snd l) ∨ (domain_key c = k ∧ o ∈ cm_serp_observations c).
Proof.
  unfold observed. induction l as [|[k' u] l IH]; intros Hl; simpl.
  { split; [intros (x & Hx & ? & ?); right; set_solver|].
    intros [(x & Hx & _)|[? ?]]; [by apply not_elem_of_nil in Hx|]. exists c. set_solver. }
  assert (domain_key u = k') as Hu by (apply (Hl (k', u)); set_solver).
  case_bool_decide as Hk; simpl.
  - assert (domain_key (merge_competitors u c) = k') as Hm by (apply merge_key; congruence).
    pose proof (merge_observations u c o) as Ho. split.
    + intros (x & [->|Hx]%elem_of_cons & Hxk & Hxo).
      * apply Ho in Hxo as [Hxo|Hxo]; [left; exists u; set_solver|right; split; [congruence|done]].
      * left. exists x. set_solver.
    + intros [(x & [->|Hx]%elem_of_cons & Hxk & Hxo)|[Hck Hco]].
      * exists (merge_competitors u c). split; [set_solver|]. split; [congruence|apply Ho; auto].
      * exists x. set_solver.
      * exists (merge_competitors u c). split; [set_solver|]. split; [congruence|apply Ho; auto].
  - assert (keyed l) as Hl' by (intros x Hx; apply Hl; set_solver). specialize (IH Hl').
    split.
    + intros (x & [->|Hx]%elem_of_cons & Hxk & Hxo); [left; exists u; set_solver|].
      destruct (proj1 IH) as [(y & ?)|]; [by exists x|left; exists y; set_solver|by right].
    + intros [(x & [->|Hx]%elem_of_cons & Hxk & Hxo)|Hc]; [exists u; set_solver| |].
      * destruct (proj2 IH) as (y & ?); [left; by exists x|]. exists y. set_solver.
      * destruct (proj2 IH) as (y & ?); [by right|]. exists y. set_solver.
Qed.

Lemma unique_fold (cs : list (CompetitorMetric A)) l :
  keyed l → NoDup (map fst l) →
  let r := foldl (λ by_domain c, add_by_domain (domain_key c) c by_domain) l cs in
  keyed r ∧ NoDup (map fst r)
  ∧ (∀ k, k ∈ map fst r ↔ k ∈ map fst l ∨ k ∈ map (domain_key (A := A)) cs)
  ∧ (∀ o k, observed o k (map snd r) ↔ observed o k (map snd l) ∨ observed o k cs).
Proof.
  revert l. induction cs as [|c cs IH]; intros l Hl Hn; simpl.
  { split_and!; try done; [set_solver|]. intros o k. unfold observed. set_solver. }
  assert (NoDup (map fst (add_by_domain (domain_key c) c l))) as Hn'.
  { rewrite add_keys. case_bool_decide; [done|]. apply NoDup_app. split; [done|].
    split; [set_solver|apply NoDup_singleton]. }
  destruct (IH _ (add_keyed c l Hl) Hn') as (Hk & Hnd & Hkeys & Hobs). split_and!; try done.
  - intros k. rewrite Hkeys, add_keys. case_bool_decide; set_solver.
  - intros o k. rewrite Hobs, (add_observed o k c l Hl). unfold observed. set_solver.
Qed.

Lemma add_new c l :
  domain_key c ∉ map fst l → add_by_domain (domain_key c) c l = l ++ [(domain_key c, c)].
Proof.
  induction l as [|[k u] l IH]; simpl; [done|]. intros Hn.
  rewrite bool_decide_false by set_solver. rewrite IH by set_solver. done.
Qed.

Lemma unique_new (cs : list (CompetitorMetric A)) l :
  NoDup (map fst l ++ map domain_key cs) →
  foldl (λ by_domain c, add_by_domain (domain_key c) c by_domain) l cs
  = l ++ map (λ c, (domain_key c, c)) cs.
Proof.
  revert l. induction cs as [|c cs IH]; intros l Hn; simpl; [by rewrite app_nil_r|].
  apply NoDup_app in Hn as (Hl & Hd & Hc). simpl in Hc. apply NoDup_cons in Hc as [Hc Hcs].
  rewrite add_new by (intros Hin; eapply Hd; [exact Hin|set_solver]).
  rewrite IH; [by rewrite <- app_assoc|].
  rewrite map_app, <- app_assoc. simpl. apply NoDup_app. split; [done|]. split; [set_solver|].
  by apply NoDup_cons.
Qed.

Lemma keyed_snd l : keyed l → map domain_key (map snd l) = map fst l.
Proof.
  intros Hl. rewrite map_map. apply map_ext_in. intros e He%list_elem_of_In. by apply Hl.
Qed.
End unique.
