(* ===== verification/ScoringTheorems.v ===== *)
(** * Scoring: what a score promises

    The ranges of the scores, the explanation of every component by its calculation
    steps, that scoring never fails under a sensible configuration, the caps on the
    confidence, the missing evidence and its penalties, and that unsuitable providers
    do not count.  Statements about sums and bounds are over the rational instance;
    statements about which rule applies hold for binary64 as well. *)
From S2P Require Import Prelude.
From S2P Require Import Binary64.
From S2P Require Import Numbers.
From S2P Require Import Demand.
From S2P Require Import Scoring.
From S2P Require Import ScoringProofs.
From Stdlib Require Import QArith Qabs Lqa.
#[global] Open Scope Z_scope.

(** ** config/scoring.yaml *)

Section default.
Context {A : Type} `{Num A}.

Definition cents (n : Z) : A := num_ratio n 100.

Definition positions : list (Z * A) :=
  [(1, cents 100); (2, cents 90); (3, cents 80); (4, cents 65); (5, cents 55); (6, cents 45);
   (7, cents 35); (8, cents 28); (9, cents 22); (10, cents 18)].

Definition default_config : ScoringConfig A := {|
  weights := {| w_demand_evidence := num_Z 24; w_commercial_value := num_Z 16;
                w_competitor_weakness := num_Z 22; w_organic_click_availability := num_Z 16;
                w_provider_suitability := num_Z 14; w_data_completeness := num_Z 8 |};
  missing_data_penalty_max := num_Z 24;
  missing_data_penalty f := Some (num_Z (match f with
    | keyword_metrics => 8 | keyword_cpc => 1 | local_demand => 3 | provider_candidates => 4
    | competitor_metrics => 8 | serp_snapshots => 10 | serp_results => 10 end));
  missing_evidence_score_cap f := match f with
    | competitor_metrics => Some (num_Z 40)
    | serp_snapshots | serp_results => Some (num_Z 60)
    | _ => None end;
  data_completeness_expected_groups := 7;
  demand_config := {|
    service_attractiveness_share := cents 65; market_attractiveness_share := cents 35;
    national_strong_monthly_volume := num_Z 900;
    measured_local := {| strong_monthly_volume := num_Z 50; maximum_component_credit := num_Z 1 |};
    population_estimated :=
      {| strong_monthly_volume := num_Z 15; maximum_component_credit := cents 40 |} |};
  commercial_config := {|
    strong_cpc := num_Z 28; strong_paid_competition := cents 80;
    share_cpc := num_ratio 5625 10000; share_paid_competition := num_ratio 1875 10000;
    share_high_intent := cents 25 |};
  competitor_config := {|
    weak_referring_domains := num_Z 35; strong_referring_domains := num_Z 260;
    unknown_referring_domains_weakness := cents 45; relevance_threat_strength := cents 65;
    relevance_service := cents 55; relevance_local := cents 25; relevance_interaction := cents 20;
    unpositioned_weight := num_Z 1; competitor_position_weights := positions;
    archetype_weakness_adjustments :=
      [("directory", cents 15); ("marketplace", cents 8); ("lead_generator", cents 4);
       ("national_brand", cents (-10)); ("local_provider", cents 0);
       ("informational_publisher", cents 8); ("government_or_nonprofit", cents 0);
       ("unknown", cents 0)]%string |};
  organic_config := {|
    organic_position_weights := positions;
    keyword_weighting := {| demand_share := cents 60; commercial_share := cents 40;
                            minimum_weight := cents 25; unmatched_keyword_weight := num_Z 1 |};
    directory_penalty := cents 35; marketplace_penalty := cents 30;
    national_brand_penalty := cents 30; lead_generator_penalty := cents 20;
    informational_publisher_penalty := cents 10; unknown_penalty := cents 8;
    shopping_product_penalty := cents 16;
    shopping_product_result_types :=
      ["shopping"; "popular_products"; "product_considerations"; "refine_products";
       "explore_brands"]%string;
    local_pack_penalty := cents 14; ads_top_penalty := cents 12 |};
  provider_config := {|
    suitable_threshold := num_Z 55; quality_sample_size := 5;
    status_scores :=
      [("open", num_Z 1); ("closed_now", num_Z 1); ("active", num_Z 1); ("operational", num_Z 1);
       ("unknown", cents 25); ("temporarily_closed", num_Z 0); ("closed", num_Z 0);
       ("closed_forever", num_Z 0); ("permanently_closed", num_Z 0)]%string;
    ideal_min := 2; ideal_max := 8; oversupply_count := 14 |};
  confidence_config := {|
    threshold_high := num_Z 85; threshold_medium := num_Z 65; threshold_low := num_Z 40;
    keyword_max_age_days := num_Z 90; serp_max_age_days := num_Z 30;
    representative_serp_target := 3; competitor_sample_target := 3; provider_sample_target := 2;
    maximum_unknown_serp_share_for_high := cents 25;
    source_mode_penalties :=
      [("live", num_Z 0); ("replay", num_Z 5); ("sandbox", num_Z 15); ("fixture", num_Z 25);
       ("unknown", num_Z 10)]%string;
    deductions_config := {|
      d_missing_field := num_Z 8; d_missing_local_demand := num_Z 20;
      d_low_confidence_market_estimate := num_Z 12; d_medium_confidence_market_evidence := num_Z 4;
      d_stale_keyword_metrics := num_Z 10; d_stale_serps := num_Z 15;
      d_limited_serp_sample := num_Z 10; d_limited_competitor_sample := num_Z 10;
      d_limited_provider_sample := num_Z 8; d_unknown_serp_classification := num_Z 10 |} |}
|}.

(** A market without population figures. *)
Definition unknown_market : Market A :=
  {| mk_population := None; mk_reference_population := None; mk_resolution_metadata _ := None |}.
End default.

(** The test suite's commercial cases: with the whole evidence the component is its
    weight, and a price alone earns the price's share. *)
Example commercial_cases :
  let c := default_config (A := binary64) in
  (cd_score (_commercial_value c (num_Z 28) (cents 80) 1 1),
   cd_score (_commercial_value c (num_Z 56) (num_Z 0) 0 1)) = (num_Z 16, num_Z 9).
Proof. by vm_compute. Qed.

(** The default configuration meets the conditions of the theorems. *)
Lemma points_ok_Z (n : Z) : (0 ≤ n)%Z → points_ok (num_Z n).
Proof.
  intros Hn. split; [unfold Qle; simpl; lia|]. exists (n * 100)%Z. unfold Qeq. simpl. lia.
Qed.

Lemma default_scale_ok : ScaleOk default_config.
Proof.
  split; try (by apply points_ok_Z); try done.
  intros f c. destruct f; intros [= <-]; by apply points_ok_Z.
Qed.

Lemma default_evidence_ok : EvidenceConfigOk default_config (cents 25) (cents 18) (num_ratio 45 1000).
Proof.
  split; try done.
  - split; [done|]. by exists 2500%Z.
  - split; [done|]. split; [by exists 450%Z|done].
  - split; [done|]. intros x Hx.
    repeat (apply elem_of_cons in Hx as [->|Hx]; [done|]). by apply not_elem_of_nil in Hx.
  - split; [done|]. intros x Hx.
    repeat (apply elem_of_cons in Hx as [->|Hx]; [done|]). by apply not_elem_of_nil in Hx.
  - intros x Hx.
    repeat (apply elem_of_cons in Hx as [->|Hx]; [first [by left | by right]|]).
    by apply not_elem_of_nil in Hx.
Qed.

(** ** The parts of a score *)

Lemma score_inv {A} `{Num A} (c : ScoringConfig A) est metrics serps competitors providers market
    mode kind now s :
  score c est metrics serps competitors providers market mode kind now = Ok s →
  let scored := List.filter km_included metrics in
  let demand_model := analyze_demand scored market est in
  let missing := _missing_fields scored serps competitors providers demand_model in
  missing_fields s = missing
  ∧ evidence_status s = _evidence_status missing kind
  ∧ score_cap s = _missing_evidence_score_cap c missing kind
  ∧ missing_data_penalties s = _missing_data_penalties c missing
  ∧ uncapped_total_score s
    = round2 (py_max 0%num (num_sum (map (λ d, cd_score d.2) (component_details s))
                            - num_sum (map snd (missing_data_penalties s)))%num)
  ∧ total_score s = match score_cap s with
                    | Some cap => round2 (py_min (uncapped_total_score s) cap)
                    | None => uncapped_total_score s
                    end
  ∧ ∃ demand competitor organic share n k cpc paid,
      demand_component c demand_model = Ok demand
      ∧ _competitor_weakness c competitors scored = Ok competitor
      ∧ _organic_click_availability c serps scored = Ok (organic, share)
      ∧ component_details s =
          [(demand_evidence, demand); (commercial_value, _commercial_value c cpc paid n k);
           (competitor_weakness, competitor); (organic_click_availability, organic);
           (provider_suitability, _provider_suitability c providers);
           (data_completeness, _data_completeness c missing)]
      ∧ confidence_model s = _confidence (confidence_config c) now
          {| ev_missing := missing; ev_metrics := scored; ev_serps := serps;
             ev_competitors := competitors; ev_providers := providers; ev_demand := demand_model;
             ev_source_mode := mode; ev_assessment_type := kind; ev_unknown_serp_share := share |}
      ∧ confidence s = conf_level (confidence_model s).
Proof.
  unfold score. intros Hs. apply E_bind_ok in Hs as (demand & Hd & Hs).
  apply E_bind_ok in Hs as (competitor & Hc & Hs).
  apply E_bind_ok in Hs as ([organic share] & Ho & Hs). injection Hs as <-.
  do 6 (split; [reflexivity|]). eexists _, _, _, _, _, _, _, _.
  split; [exact Hd|]. split; [exact Hc|]. split; [exact Ho|]. split; [reflexivity|]. done.
Qed.

(** ** Ranges *)

Section penalties.
Context (c : ScoringConfig Q) (Hok : ScaleOk c).

Definition raw_penalty (f : MissingField) : Q := py_max 0%num (default 0%num (missing_data_penalty c f)).

Lemma raw_penalty_nonneg f : (0 <= raw_penalty f)%Q.
Proof. apply tenths_nonneg. Qed.

Lemma penalty_scale missing :
  let raw := num_sum (map snd (map (λ f, (f, raw_penalty f)) missing)) in
  let scale := if (missing_data_penalty_max c <? raw)%num && (0 <? raw)%num
               then (missing_data_penalty_max c / raw)%num else 1%num in
  (0 <= scale ∧ scale * raw <= missing_data_penalty_max c)%Q.
Proof.
  intros raw scale. pose proof (ok_penalty_max c Hok) as Hmax.
  assert (0 <= raw)%Q as Hraw.
  { unfold raw. rewrite sum_total, map_map. apply total_nonneg. intros f _. apply raw_penalty_nonneg. }
  unfold scale. unfold_num. clearbody raw. clear scale.
  destruct (Q_ltb_spec (missing_data_penalty_max c) raw), (Q_ltb_spec 0 raw); simpl.
  - split; [apply Qle_shift_div_l; lra|]. rewrite Qmult_comm, Qmult_div_r; [apply Qle_refl|].
    intros Hz. rewrite Hz in *. lra.
  - split; lra.
  - split; lra.
  - split; lra.
Qed.

Lemma scaled_penalties scale (l : list (MissingField * Q)) :
  (0 <= scale)%Q → (∀ x, x ∈ l → 0 <= x.2)%Q →
  let penalties := map (λ '(f, penalty), (f, round2 (penalty * scale)%num))
                     (List.filter (λ '(_, penalty), 0 <? penalty)%num l) in
  (0 <= total (map snd penalties)
   <= scale * total (map snd l) + inject_Z (Z.of_nat (length penalties)) * (1 # 200))%Q.
Proof.
  intros Hs Hl. induction l as [|[f x] l IH]; [cbn; change (inject_Z (Z.of_nat 0)) with 0%Q; lra|].
  pose proof (Hl (f, x) ltac:(set_solver)) as Hx. simpl in Hx.
  specialize (IH ltac:(set_solver)). cbn [List.filter map total snd].
  pose proof (Qmult_le_0_compat x scale Hx Hs) as Hp. destruct (0 <? x)%num; cbn [map total snd length].
  - rewrite Nat2Z.inj_succ, <- Z.add_1_r, inject_Z_plus. change (inject_Z 1) with 1%Q.
    pose proof (round2_near (x * scale)) as Hr. pose proof (round2_nonneg _ Hp).
    unfold near in Hr. unfold_num. cbv zeta in IH. lra.
  - cbv zeta in IH. lra.
Qed.

(** The sum of the penalties stays within the maximum, up to the rounding of each. *)
Lemma penalties_total missing :
  let penalties := _missing_data_penalties c missing in
  (0 <= total (map snd penalties)
   <= missing_data_penalty_max c + inject_Z (Z.of_nat (length penalties)) * (1 # 200))%Q.
Proof.
  unfold _missing_data_penalties. fold raw_penalty.
  change (λ f, (f, py_max 0%num (default 0%num (missing_data_penalty c f)))) with (λ f, (f, raw_penalty f)).
  pose proof (penalty_scale missing) as [H0 Hmax].
  set (scale := if _ && _ then _ else _) in *. set (l := map (λ f, (f, raw_penalty f)) missing) in *.
  rewrite sum_total in Hmax. destruct (scaled_penalties scale l H0) as [Hl Hu].
  - intros x (f & -> & _)%elem_of_map. apply raw_penalty_nonneg.
  - cbv zeta in *. clearbody scale. split; [exact Hl|]. eapply Qle_trans; [exact Hu|]. lra.
Qed.
End penalties.

Section ranges.
Context (c : ScoringConfig Q) (Hok : ScaleOk c).

Lemma weights_points_ok k : points_ok (weight_of (weights c) k).
Proof. destruct k; apply Hok. Qed.

Lemma total_hundredths {T} (f : T → Q) l : (∀ x, hundredths (f x)) → hundredths (total (map f l)).
Proof.
  intros Hf. induction l as [|x l IH]; [by exists 0%Z|]. by apply hundredths_plus.
Qed.

Lemma cap_points_ok missing kind cap :
  _missing_evidence_score_cap c missing kind = Some cap → points_ok cap.
Proof.
  unfold _missing_evidence_score_cap. destruct (is_preliminary kind); [done|].
  assert (∀ x, x ∈ omap (missing_evidence_score_cap c) missing → points_ok x) as Hc.
  { intros x (f & _ & Hf)%list_elem_of_omap. by eapply ok_caps. }
  destruct (omap _ _) as [|x l]; [done|]. intros [= <-].
  unfold min_of. assert (points_ok x) as Hx by (apply Hc; set_solver).
  assert (∀ y, y ∈ l → points_ok y) as Hl by (intros; apply Hc; set_solver). clear Hc.
  revert x Hx. induction l as [|y l IH]; intros x Hx; simpl; [done|].
  apply IH; [set_solver|]. unfold py_min. destruct (_ <? _)%num; [apply Hl; set_solver|done].
Qed.
End ranges.

(** C12: In exact arithmetic, with weights and caps of at most two decimals: a score has
    the six components, each between zero and its weight; the total is not negative,
    never exceeds the uncapped total, the sum of the weights, or the cap that missing
    evidence imposes. *)
Theorem scores_stay_in_range c est metrics serps competitors providers market mode kind now s :
  ScaleOk c →
  score c est metrics serps competitors providers market mode kind now = Ok s →
  map fst (component_details s) = all_components
  ∧ (∀ k d, (k, d) ∈ component_details s → scored_within (weight_of (weights c) k) d)
  ∧ (0 <= total_score s <= uncapped_total_score s)%Q
  ∧ (uncapped_total_score s <= total (map (weight_of (weights c)) all_components))%Q
  ∧ (∀ cap, score_cap s = Some cap → (total_score s <= cap)%Q).
Proof.
  intros Hok Hs. apply score_inv in Hs. cbv zeta in Hs.
  destruct Hs as (_ & _ & Hcap & Hpen & Hun & Htot & demand & comp & org & share & n & k & cpc & paid
    & Hd & Hc & Ho & Hdet & _).
  assert (∀ k d, (k, d) ∈ component_details s → scored_within (weight_of (weights c) k) d) as Hin.
  { rewrite Hdet. intros k' d' Hk'.
    repeat (apply elem_of_cons in Hk' as [[= -> ->]|Hk']); [..|by apply not_elem_of_nil in Hk'].
    - by eapply demand_within.
    - by apply commercial_within.
    - by eapply competitor_within.
    - by eapply organic_within.
    - by apply provider_within.
    - by apply completeness_within. }
  assert (0 <= uncapped_total_score s <= total (map (weight_of (weights c)) all_components))%Q as Hu.
  { rewrite Hun. split; [apply round2_nonneg, py_max_ub|].
    apply round2_le; [apply total_hundredths, weights_points_ok; done|].
    apply py_max_lub.
    { apply total_nonneg. intros. by apply weights_points_ok. }
    rewrite Hpen. pose proof (penalties_total c Hok (_missing_fields (List.filter km_included metrics)
      serps competitors providers (analyze_demand (List.filter km_included metrics) market est))) as Hp.
    cbv zeta in Hp. unfold_num. rewrite !sum_total.
    assert (total (map (λ d, cd_score d.2) (component_details s))
            <= total (map (weight_of (weights c)) all_components))%Q; [|unfold_num; lra].
    assert (map (weight_of (weights c)) all_components
            = map (λ d, weight_of (weights c) d.1) (component_details s)) as ->
      by (rewrite Hdet; reflexivity).
    apply total_le. intros [k' d'] Hk'. apply (Hin _ _ Hk'). }
  split; [by rewrite Hdet|]. split; [done|].
  assert (∀ cap, score_cap s = Some cap →
    0 <= round2 (py_min (uncapped_total_score s) cap) ∧
    round2 (py_min (uncapped_total_score s) cap) <= uncapped_total_score s ∧
    round2 (py_min (uncapped_total_score s) cap) <= cap)%Q as Hcapped.
  { intros cap Hsc. rewrite Hcap in Hsc. apply cap_points_ok in Hsc as [H0 Hh]; [|done].
    split; [apply round2_nonneg, py_min_glb; [apply Hu|done]|].
    split; (apply round2_le; [|apply py_min_lb]); [rewrite Hun; apply round2_hundredths|done]. }
  rewrite Htot. destruct (score_cap s) as [cap|].
  - destruct (Hcapped cap eq_refl) as (? & ? & ?). repeat split; try done; [apply Hu|].
    by intros ? [= <-].
  - repeat split; try done; try apply Hu. apply Qle_refl.
Qed.

(** ** Explanation and failure *)

(** C18: In exact arithmetic, the calculation steps explain every component: the points
    of its steps add up to its score, up to one hundredth and half a unit of the fourth
    decimal per step.  The conditions on the configuration: component weights and caps are
    non-negative amounts of two decimals and the penalty limit is not negative; the demand
    and commercial shares of the keyword weighting are positive, and so is one of the
    attractiveness shares of the demand component; every keyword weight is at least [k], every position weight
    at least [p] and there is one, with [k * p] at least an exposure [e] of four decimals
    that rounding does not erase; every archetype adjustment is zero or at least
    [0.0001 / e], so that its step is not dropped ([dropped_step_is_unexplained] is a
    configuration outside it).  The providers are rated between 0 and 100. *)
Theorem calculation_steps_explain_the_score c k p e est metrics serps competitors providers market
    mode kind now s :
  ScaleOk c → EvidenceConfigOk c k p e →
  (∀ x, x ∈ providers → 0 <= suitability x <= 100)%Q →
  score c est metrics serps competitors providers market mode kind now = Ok s →
  ∀ component d, (component, d) ∈ component_details s → explained d.
Proof.
  intros Hok He Hp Hs component d Hd. apply score_inv in Hs. cbv zeta in Hs.
  destruct Hs as (_ & _ & _ & _ & _ & _ & demand & comp & org & share & n & m & cpc & paid
    & Hdem & Hc & Ho & Hdet & _).
  rewrite Hdet in Hd.
  repeat (apply elem_of_cons in Hd as [[= -> ->]|Hd]); [..|by apply not_elem_of_nil in Hd].
  - by eapply demand_explained.
  - apply commercial_explained.
  - destruct (competitor_ok c k p e He competitors (List.filter km_included metrics) Hok) as (d & Hd & ?).
    rewrite Hc in Hd. by injection Hd as ->.
  - by eapply organic_explained.
  - by apply provider_explained.
  - apply completeness_explained.
Qed.

(** Under the same conditions on the configuration, scoring never raises: whatever
    the evidence (none, duplicates, unmatched queries, missing metrics), every division
    has a divisor and [score] returns. *)
Theorem scoring_never_fails c k p e est metrics serps competitors providers market mode kind now :
  ScaleOk c → EvidenceConfigOk c k p e →
  ∃ s, score c est metrics serps competitors providers market mode kind now = Ok s.
Proof.
  intros Hok He. unfold score. cbv zeta.
  destruct (demand_ok c k p e He (analyze_demand (List.filter km_included metrics) market est))
    as [d ->]. cbn [mbind result_bind].
  destruct (competitor_ok c k p e He competitors (List.filter km_included metrics) Hok) as (w & -> & _).
  cbn [mbind result_bind].
  destruct (organic_ok c k p e He serps (List.filter km_included metrics)) as (o & share & ->).
  eexists. reflexivity.
Qed.

(** ** Confidence *)

Section confidence.
Context {A : Type} `{Num A}.

(** [f] never drops a cap. *)
Definition keeps_caps (f : ConfidenceState (A := A) → ConfidenceState (A := A)) : Prop :=
  ∀ s x, x ∈ cs_caps s → x ∈ cs_caps (f s).

Lemma deduct_caps factor points s : cs_caps (deduct (A := A) factor points s) = cs_caps s.
Proof. unfold deduct. by destruct (_ <=? _)%num. Qed.

Lemma cap_caps level reason s : cs_caps (cap (A := A) level reason s) = cs_caps s ++ [(level, reason)].
Proof. done. Qed.

Lemma only_if_caps b f : keeps_caps f → keeps_caps (only_if b f).
Proof. intros Hf s x Hx. destruct b; simpl; auto. Qed.

Lemma cap_keeps level reason : keeps_caps (cap level reason).
Proof. intros s x Hx. rewrite cap_caps. set_solver. Qed.

Lemma deduct_keeps factor points : keeps_caps (deduct factor points).
Proof. intros s x Hx. by rewrite deduct_caps. Qed.

Lemma cap_deduct_keeps level reason factor points :
  keeps_caps (λ s, cap level reason (deduct factor points s)).
Proof. intros s x Hx. by apply cap_keeps, deduct_keeps. Qed.

Lemma sample_keeps factor actual target d : keeps_caps (sample_rule factor actual target d).
Proof. intros s x Hx. unfold sample_rule. destruct (_ || _); [done|]. by apply cap_deduct_keeps. Qed.

Lemma source_keeps config mode : keeps_caps (source_rule config mode).
Proof.
  intros s x Hx. unfold source_rule. case_bool_decide; [by apply cap_deduct_keeps|].
  apply only_if_caps; [apply cap_keeps|]. by apply deduct_keeps.
Qed.

Lemma local_demand_keeps d demand : keeps_caps (local_demand_rule d demand).
Proof.
  intros s x Hx. unfold local_demand_rule.
  repeat case_match; try done; by first [apply cap_deduct_keeps | apply deduct_keeps].
Qed.
End confidence.
#[export] Hint Resolve only_if_caps cap_keeps deduct_keeps cap_deduct_keeps sample_keeps source_keeps
  local_demand_keeps : scoring.

Section caps.
Context {A : Type} `{Num A}.

Lemma apply_caps_spec (caps : list (Confidence * CapReason)) (level : Confidence) :
  (CONFIDENCE_RANK (apply_caps caps level) ≤ CONFIDENCE_RANK level)%Z
  ∧ (∀ x, x ∈ caps → (CONFIDENCE_RANK (apply_caps caps level) ≤ CONFIDENCE_RANK x.1)%Z)
  ∧ (apply_caps caps level = level ∨ ∃ x, x ∈ caps ∧ apply_caps caps level = x.1).
Proof.
  unfold apply_caps. revert level. induction caps as [|y caps IH]; intros level; simpl.
  { split; [done|]. split; [|by left]. intros x Hx. by apply not_elem_of_nil in Hx. }
  destruct (IH (if (CONFIDENCE_RANK y.1 <? CONFIDENCE_RANK level)%Z then y.1 else level))
    as (Hl & Hc & He).
  destruct (Z.ltb_spec (CONFIDENCE_RANK y.1) (CONFIDENCE_RANK level)); split_and!.
  - lia.
  - intros x [->|Hx]%elem_of_cons; auto.
  - destruct He as [->|(x & Hx & ->)]; right; [exists y|exists x]; set_solver.
  - done.
  - intros x [->|Hx]%elem_of_cons; [lia|auto].
  - destruct He as [->|(x & Hx & ->)]; [by left|]. right. exists x. set_solver.
Qed.

Context (config : ConfidenceConfig A) (now : Z) (ev : Evidence (A := A)).
Let caps := cs_caps (confidence_rules config now ev
                       {| cs_score := num_Z 100; cs_deductions := []; cs_caps := [] |}).
Let full := is_preliminary (ev_assessment_type ev) = false.

Lemma preliminary_capped : is_preliminary (ev_assessment_type ev) = true → (medium, Preliminary_assessment) ∈ caps.
Proof. intros Hp. unfold caps, confidence_rules. rewrite Hp. simpl. set_solver. Qed.

Lemma competitors_capped :
  full → competitor_metrics ∈ ev_missing ev → (insufficient, Without_competitors) ∈ caps.
Proof.
  intros Hf Hm. unfold caps, confidence_rules. do 2 (apply only_if_caps; [auto with scoring|]).
  rewrite bool_decide_true, Hf by done. simpl. set_solver.
Qed.

Lemma serps_capped :
  full → serp_snapshots ∈ ev_missing ev ∨ serp_results ∈ ev_missing ev → (low, Missing_serps) ∈ caps.
Proof.
  intros Hf Hm. unfold caps, confidence_rules. apply only_if_caps; [auto with scoring|].
  assert (bool_decide (serp_snapshots ∈ ev_missing ev) || bool_decide (serp_results ∈ ev_missing ev) = true)
    as -> by (apply orb_true_iff; rewrite !bool_decide_eq_true; done).
  rewrite Hf. simpl. set_solver.
Qed.

Lemma source_capped :
  let mode := _source_mode (ev_metrics ev) (ev_source_mode ev) in
  (mode = "fixture"%string → (low, Synthetic_fixture) ∈ caps)
  ∧ (mode = "sandbox"%string → (medium, Sandbox_evidence) ∈ caps).
Proof.
  intros mode. subst mode. unfold caps, confidence_rules. split; intros Hm.
  all: do 3 (apply only_if_caps; [auto with scoring|]).
  all: do 3 apply sample_keeps.
  all: do 3 (apply only_if_caps; [auto with scoring|]).
  all: unfold source_rule; rewrite Hm; simpl; set_solver.
Qed.

Lemma demand_capped :
  estimated_market_demand (ev_demand ev) = None → (low, Missing_local_demand) ∈ caps.
Proof.
  intros Hn. unfold caps, confidence_rules.
  do 3 (apply only_if_caps; [auto with scoring|]). do 3 apply sample_keeps.
  do 3 (apply only_if_caps; [auto with scoring|]). apply source_keeps.
  unfold local_demand_rule. rewrite Hn. simpl. set_solver.
Qed.
End caps.

(** C14: The confidence is the level of the confidence score lowered by every cap that
    applies, and by nothing else.  So a preliminary assessment is never high; a full one
    without competitors is insufficient and without search results at most low; nor is
    evidence from fixtures, or without local demand, ever above low, or sandbox evidence
    above medium.  This holds for binary64. *)
Theorem confidence_respects_every_cap {A} `{Num A} (config : ConfidenceConfig A) now ev :
  let m := _confidence config now ev in
  let at_most c := (CONFIDENCE_RANK (conf_level m) ≤ CONFIDENCE_RANK c)%Z in
  let preliminary := is_preliminary (ev_assessment_type ev) in
  at_most (threshold_level config (conf_score m))
  ∧ (∀ x, x ∈ conf_caps m → at_most x.1)
  ∧ (conf_level m = threshold_level config (conf_score m) ∨ ∃ x, x ∈ conf_caps m ∧ conf_level m = x.1)
  ∧ (preliminary = true → at_most medium)
  ∧ (preliminary = false → competitor_metrics ∈ ev_missing ev → conf_level m = insufficient)
  ∧ (preliminary = false → serp_snapshots ∈ ev_missing ev ∨ serp_results ∈ ev_missing ev → at_most low)
  ∧ (estimated_market_demand (ev_demand ev) = None → at_most low)
  ∧ (conf_source_mode m = "fixture"%string → at_most low)
  ∧ (conf_source_mode m = "sandbox"%string → at_most medium).
Proof.
  intros m at_most prelim.
  destruct (apply_caps_spec (conf_caps m) (threshold_level config (conf_score m))) as (Hl & Hc & He).
  change (apply_caps (conf_caps m) (threshold_level config (conf_score m))) with (conf_level m) in *.
  assert (∀ level reason, (level, reason) ∈ conf_caps m → at_most level) as Hcap
    by (intros level reason Hx; exact (Hc _ Hx)).
  destruct (source_capped config now ev) as [Hf Hs].
  split_and!; try done.
  - intros Hp. eapply Hcap, preliminary_capped, Hp.
  - intros Hp Hm. pose proof (Hcap _ _ (competitors_capped config now ev Hp Hm)) as Hi.
    unfold at_most in Hi. destruct (conf_level m); done.
  - intros Hp Hm. eapply Hcap, serps_capped; done.
  - intros Hn. eapply Hcap, demand_capped, Hn.
  - intros Hm. eapply Hcap, Hf, Hm.
  - intros Hm. eapply Hcap, Hs, Hm.
Qed.

(** ** Missing evidence *)

(** When a group of evidence is missing. *)
Definition is_missing {A} (metrics : list (KeywordMetric A)) (serps : list SerpSnapshot)
    (competitors : list (CompetitorMetric A)) (providers : list (ProviderCandidate A))
    (demand : DemandModel A) (f : MissingField) : Prop :=
  match f with
  | keyword_metrics => metrics = []
  | local_demand => estimated_market_demand demand = None
  | serp_snapshots => serps = []
  | competitor_metrics => competitors = []
  | provider_candidates => providers = []
  | keyword_cpc => metrics ≠ [] ∧ ∀ m, m ∈ metrics → km_cpc m = None
  | serp_results => serps ≠ [] ∧ ∀ s, s ∈ serps → ss_results s = []
  end.

Lemma existsb_false {T} (f : T → bool) l : existsb f l = false ↔ ∀ x, x ∈ l → f x = false.
Proof.
  rewrite <- not_true_iff_false, existsb_exists. split.
  - intros Hn x Hx. apply not_true_iff_false. intros Hf. apply Hn. exists x.
    by rewrite <- list_elem_of_In.
  - intros Hf (x & Hx & Hfx). rewrite <- list_elem_of_In in Hx. by rewrite (Hf x Hx) in Hfx.
Qed.

Lemma elem_of_report b f g : g ∈ report b f ↔ b = true ∧ g = f.
Proof. unfold report. destruct b; set_solver. Qed.

Lemma is_empty_true {T} (l : list T) : is_empty l = true ↔ l = [].
Proof. by destruct l. Qed.
Lemma is_none_true {T} (o : option T) : is_none o = true ↔ o = None.
Proof. by destruct o. Qed.

Lemma nothing_true {T} (present : T → bool) (P : T → Prop) (l : list T) :
  (∀ x, present x = false ↔ P x) →
  negb (is_empty l) && negb (existsb present l) = true ↔ l ≠ [] ∧ ∀ x, x ∈ l → P x.
Proof.
  intros HP. rewrite andb_true_iff, !negb_true_iff, existsb_false, <- not_true_iff_false, is_empty_true.
  split; intros [Hn Hl]; (split; [done|]); intros x Hx; by apply HP, Hl.
Qed.

Lemma missing_spec {A} (metrics : list (KeywordMetric A)) serps competitors providers demand f :
  f ∈ _missing_fields metrics serps competitors providers demand
  ↔ is_missing metrics serps competitors providers demand f.
Proof.
  unfold _missing_fields. rewrite !elem_of_app, !elem_of_report, !is_empty_true, is_none_true.
  rewrite (nothing_true _ (λ m, km_cpc m = None)), (nothing_true _ (λ s, ss_results s = [])).
  - destruct f; simpl; naive_solver.
  - intros s. by rewrite negb_false_iff, is_empty_true.
  - intros m. by rewrite negb_false_iff, is_none_true.
Qed.

(** Keywords and prices are not both missing, nor are snapshots and results. *)
Lemma missing_shape {A} (metrics : list (KeywordMetric A)) serps competitors providers demand :
  NoDup (_missing_fields metrics serps competitors providers demand)
  ∧ (length (_missing_fields metrics serps competitors providers demand) ≤ 5)%nat.
Proof.
  unfold _missing_fields. set (x := negb (existsb _ metrics)). set (y := negb (existsb _ serps)).
  destruct (is_empty metrics), (is_none _), (is_empty serps), (is_empty competitors),
    (is_empty providers), x, y; (split; [|simpl; lia]);
    apply (bool_decide_unpack _); by vm_compute.
Qed.

Lemma status_spec missing kind :
  let status := _evidence_status missing kind in
  (status = preliminary ↔ kind = "preliminary"%string)
  ∧ (kind ≠ "preliminary"%string →
     (status = complete ↔ missing = []) ∧ (status = unusable ↔ competitor_metrics ∈ missing)).
Proof.
  unfold _evidence_status, is_preliminary. repeat case_bool_decide; try done.
  - split; [split; naive_solver|]. intros _. split; [split; [done|set_solver]|done].
  - destruct missing; (split; [naive_solver|]); intros _; split; split; set_solver.
Qed.

Lemma cap_spec {A} `{Num A} (c : ScoringConfig A) missing kind :
  _missing_evidence_score_cap c missing kind = None ↔
  kind = "preliminary"%string ∨ ∀ f, f ∈ missing → missing_evidence_score_cap c f = None.
Proof.
  unfold _missing_evidence_score_cap, is_preliminary. case_bool_decide; [naive_solver|].
  destruct (omap _ missing) as [|x l] eqn:E.
  - split; [|done]. intros _. right. intros f Hf. destruct (missing_evidence_score_cap c f) eqn:Ef; [|done].
    assert (a ∈ omap (missing_evidence_score_cap c) missing) as Hx by (apply list_elem_of_omap; eauto).
    rewrite E in Hx. by apply not_elem_of_nil in Hx.
  - split; [done|]. intros [?|Hn]; [done|].
    assert (x ∈ omap (missing_evidence_score_cap c) missing) as (f & Hf & Hx)%list_elem_of_omap
      by (rewrite E; set_solver).
    by rewrite Hn in Hx.
Qed.

(** The missing groups are exactly the groups without evidence, each once and at
    most five at a time; and from them, a full assessment is complete when nothing is
    missing, unusable when competitors are, and partial otherwise; only a full one is
    capped, and only when a missing group has a configured cap.  This holds for
    binary64. *)
Theorem missing_evidence_is_reported {A} `{Num A} (c : ScoringConfig A) metrics serps competitors
    providers (demand : DemandModel A) kind :
  let missing := _missing_fields metrics serps competitors providers demand in
  let status := _evidence_status missing kind in
  NoDup missing
  ∧ (length missing ≤ 5)%nat
  ∧ (∀ f, f ∈ missing ↔ is_missing metrics serps competitors providers demand f)
  ∧ (status = preliminary ↔ kind = "preliminary"%string)
  ∧ (kind ≠ "preliminary"%string →
     (status = complete ↔ missing = []) ∧ (status = unusable ↔ competitors = []))
  ∧ (_missing_evidence_score_cap c missing kind = None ↔
     kind = "preliminary"%string ∨ ∀ f, f ∈ missing → missing_evidence_score_cap c f = None).
Proof.
  intros missing status. destruct (missing_shape metrics serps competitors providers demand).
  destruct (status_spec missing kind) as [Hp Hf].
  split_and!; try done; [apply missing_spec| |apply cap_spec].
  intros Hk. destruct (Hf Hk) as [Hc Hu]. split; [done|].
  unfold status. rewrite Hu. apply (missing_spec metrics serps competitors providers demand competitor_metrics).
Qed.

(** ** Competitors *)

(** Each domain is weighed once: the competitors that are scored have distinct
    domains, the domains supplied and no others, every observation of a supplied
    competitor is kept under its domain and none is invented, and merging them again
    changes nothing.  This holds for binary64. *)
Theorem each_domain_is_weighed_once {A} (competitors : list (CompetitorMetric A)) :
  let unique := _unique_domain_competitors competitors in
  NoDup (map domain_key unique)
  ∧ (∀ k, k ∈ map domain_key unique ↔ k ∈ map domain_key competitors)
  ∧ (∀ o k, observed o k unique ↔ observed o k competitors)
  ∧ _unique_domain_competitors unique = unique.
Proof.
  intros unique. subst unique. unfold _unique_domain_competitors at 1 2 3 5 6.
  destruct (unique_fold competitors []) as (Hk & Hn & Hkeys & Hobs);
    [by intros ? ?%not_elem_of_nil|constructor|].
  set (r := foldl _ [] competitors) in *. rewrite (keyed_snd r Hk). split_and!; [done|..].
  - intros k. rewrite Hkeys. set_solver.
  - intros o k. rewrite Hobs. split; [|by right].
    by intros [(x & Hx & _)|]; [apply not_elem_of_nil in Hx|].
  - unfold _unique_domain_competitors. rewrite unique_new by (simpl; by rewrite (keyed_snd r Hk)).
    simpl. rewrite map_map. apply map_id.
Qed.

(** ** Providers *)

(** A provider that is not suitable (closed, or below the threshold) has no
    influence on the component: lists with the same suitable providers, in the same
    order, get the same score and the same steps.  This holds for binary64. *)
Theorem unsuitable_providers_do_not_count {A} `{Num A} (c : ScoringConfig A) ps qs :
  List.filter (suitable (provider_config c)) ps = List.filter (suitable (provider_config c)) qs →
  ps ≠ [] → qs ≠ [] →
  _provider_suitability c ps = _provider_suitability c qs.
Proof.
  intros Hf Hp Hq. destruct ps as [|p ps]; [done|]. destruct qs as [|q qs]; [done|].
  unfold _provider_suitability, provider_suitability_summary, suitable_providers. by rewrite Hf.
Qed.

(** ** A run *)

Module Sample.
Section sample.
Context {A : Type} `{Num A}.

Definition keyword (name : string) (volume : Z) (cpc paid : A) : KeywordMetric A :=
  {| km_keyword := name; km_canonical_keyword := name; km_intent := "commercial";
     km_search_volume := Some volume; km_cpc := Some cpc; km_paid_competition := Some paid;
     km_source := "live"; km_source_timestamp := Aware 0 0; km_market_granularity := "city";
     km_included := true; km_excluded_reason := None |}.

Definition organic (order : Z) (classification : string) : SerpResult :=
  {| sr_order := order; sr_result_type := "organic"; sr_url := ""; sr_domain := ""; sr_title := "";
     sr_description := ""; sr_classification := classification; sr_is_local_provider := false;
     sr_is_directory := false; sr_is_national_brand := false; sr_is_lead_generation_site := false;
     sr_classification_confidence := None; sr_matched_rules := []; sr_manual_override := None |}.
Definition snapshot (query : string) (features : list string) : SerpSnapshot :=
  {| ss_query := query; ss_captured_at := Aware 0 0; ss_features_present := features;
     ss_results := [organic 1 "directory"; organic 2 "local_provider"; organic 4 "unknown"] |}.

Definition competitor (domain query : string) (position refs : Z) : CompetitorMetric A :=
  {| cm_url := "https://" +:+ domain; cm_domain := domain; cm_referring_domains := Some refs;
     cm_page_relevance_score := Some (cents 60); cm_local_relevance := Some (cents 60);
     cm_page_type := "directory"; cm_archetype := None; cm_representative_query := Some query;
     cm_serp_position := Some position;
     cm_serp_observations := [{| ob_query := query; ob_position := position;
                                 ob_url := "https://" +:+ domain |}] |}.

Definition provider (score : Z) (status : string) : ProviderCandidate A :=
  {| pc_name := "provider"; pc_website := None; pc_phone := None; pc_email := None; pc_contact_form_url := None;
     pc_address := None; pc_service_area := None; pc_category := None; pc_categories := []; pc_latitude := None;
     pc_longitude := None; pc_rating := None; pc_review_count := None; pc_business_status := status;
     pc_contact_confidence := None; pc_suitability_score := Some (num_Z score); pc_suitability_signals := [] |}.

Definition keywords : list (KeywordMetric A) :=
  [keyword "roof repair" 40 (num_Z 21) (cents 60); keyword "roofer" 90 (num_Z 35) (cents 90)].
Definition serps : list SerpSnapshot :=
  [snapshot "Roof  Repair" ["local_pack"]; snapshot "roofer" ["ads_top"; "Shopping"];
   snapshot "emergency roofer" []]%string.
Definition competitors : list (CompetitorMetric A) :=
  [competitor "www.alpha.example" "roof repair" 1 75; competitor "beta.example" "roofer" 4 12;
   competitor "alpha.example" "roofer" 2 75; competitor "gamma.example" "gutters" 12 400].
Definition providers : list (ProviderCandidate A) :=
  [provider 80 "open"; provider 20 "closed"; provider 61 "Active"; provider 90 "closed_forever"].

Definition run (c : ScoringConfig A) : result score_error (OpportunityScore (A := A)) :=
  score c PopulationShareDemandEstimator keywords serps competitors providers unknown_market
    (Some "live"%string) "full" 0.
End sample.
End Sample.

(** What the program computes for the sample. *)
Example sample_score :
  match Sample.run (A := binary64) default_config with
  | Ok s => (total_score s, confidence s, evidence_status s, map (λ d, cd_score d.2) (component_details s))
            = (cents 7201, high, complete, map cents [840; 1581; 1469; 1256; 1255; 800])
  | Raise _ => False
  end.
Proof. by vm_compute. Qed.

(** The default configuration with another weight for the unmatched queries. *)
Definition with_unmatched {A} `{Num A} (x : A) : ScoringConfig A :=
  let d := default_config in
  let o := organic_config d in
  let weighting := {| demand_share := cents 60; commercial_share := cents 40;
                      minimum_weight := cents 25; unmatched_keyword_weight := x |} in
  {| weights := weights d; missing_data_penalty_max := missing_data_penalty_max d;
     missing_data_penalty := missing_data_penalty d;
     missing_evidence_score_cap := missing_evidence_score_cap d;
     data_completeness_expected_groups := 7; demand_config := demand_config d;
     commercial_config := commercial_config d; competitor_config := competitor_config d;
     organic_config :=
       {| organic_position_weights := organic_position_weights o; keyword_weighting := weighting;
          directory_penalty := directory_penalty o; marketplace_penalty := marketplace_penalty o;
          national_brand_penalty := national_brand_penalty o;
          lead_generator_penalty := lead_generator_penalty o;
          informational_publisher_penalty := informational_publisher_penalty o;
          unknown_penalty := unknown_penalty o;
          shopping_product_penalty := shopping_product_penalty o;
          shopping_product_result_types := shopping_product_result_types o;
          local_pack_penalty := local_pack_penalty o; ads_top_penalty := ads_top_penalty o |};
     provider_config := provider_config d; confidence_config := confidence_config d |}.

(** A configuration that gives unmatched queries no weight makes the division fail: the
    floor of 0.0001 on the keyword weight is rounded away with the position weight. *)
Definition weightless_config : ScoringConfig binary64 := with_unmatched (num_Z 0).

Example rounded_exposure_divides_by_zero :
  _competitor_weakness weightless_config [Sample.competitor "late.example" "gutters" 8 10] Sample.keywords
  = Raise ZeroDivisionError.
Proof. by vm_compute. Qed.

(** A small weight loses a step: the exposure-weighted adjustment of the archetype is below
    0.0001 before it is divided by the total exposure, so its step is left out although it
    makes more than three points: the score is 14.90 and its steps add up to 11.5986. *)
Example dropped_step_is_unexplained :
  match _competitor_weakness (with_unmatched (num_ratio 5 10000))
          [Sample.competitor "late.example" "gutters" 1 75] Sample.keywords with
  | Ok d => Qeq_bool (cd_score d) (149 # 10) = true
            ∧ Qeq_bool (total (points d)) (115986 # 10000) = true ∧ ¬ explained d
  | Raise _ => False
  end.
Proof. vm_compute. split; [done|]. split; [done|]. intros [H1 H2]. by apply H2. Qed.

(** The sample meets the hypotheses. *)
Lemma sample_providers_rated x :
  x ∈ Sample.providers → (0 <= suitability x <= 100)%Q.
Proof.
  intros Hx. repeat (apply elem_of_cons in Hx as [->|Hx]; [by vm_compute|]).
  by apply not_elem_of_nil in Hx.
Qed.

Lemma scores_stay_in_range_witness :
  match Sample.run (A := Q) default_config with
  | Ok s => (0 <= total_score s <= uncapped_total_score s)%Q
            ∧ (uncapped_total_score s <= 100)%Q ∧ Qeq_bool (total_score s) (7201 # 100) = true
  | Raise _ => False
  end.
Proof.
  destruct (Sample.run default_config) as [s|e] eqn:E; [|by vm_compute in E]. pose proof E as Hs. unfold Sample.run in Hs.
  destruct (scores_stay_in_range _ _ _ _ _ _ _ _ _ _ s default_scale_ok Hs) as (_ & _ & Ht & Hu & _).
  split; [exact Ht|]. split; [exact Hu|].
  assert (match Sample.run (A := Q) default_config with
          | Ok s => Qeq_bool (total_score s) (7201 # 100) | Raise _ => false end = true) as Hc
    by by vm_compute.
  by rewrite E in Hc.
Defined.

Lemma calculation_steps_explain_the_score_witness :
  match Sample.run (A := Q) default_config with
  | Ok s => ∀ component d, (component, d) ∈ component_details s → explained d
  | Raise _ => False
  end.
Proof.
  destruct (Sample.run default_config) as [s|e] eqn:E; [unfold Sample.run in E|by vm_compute in E].
  exact (calculation_steps_explain_the_score _ _ _ _ _ _ _ _ _ _ _ _ _ s default_scale_ok
           default_evidence_ok sample_providers_rated E).
Defined.

Lemma scoring_never_fails_witness :
  ∃ s, score (A := Q) default_config PopulationShareDemandEstimator [] [] [] [] unknown_market None
         "preliminary" 0 = Ok s.
Proof. exact (scoring_never_fails _ _ _ _ _ _ _ _ _ _ _ _ _ default_scale_ok default_evidence_ok). Defined.

Lemma unsuitable_providers_do_not_count_witness :
  _provider_suitability (A := binary64) default_config Sample.providers
  = _provider_suitability default_config [Sample.provider 80 "open"; Sample.provider 61 "Active"].
Proof. apply unsuitable_providers_do_not_count; by vm_compute. Defined.
