(* ===== verification/Outcomes.v ===== *)
(** * Outcomes: what became of the approved properties (outcomes/services.py)

    [PropertyOutcomeService] pins the score and the evidence a property was selected
    on and collects its measured outcomes; [CalibrationReportService] sums them up by
    how far they can be trusted; [ScoringChangeGuard] records reviewed proposals and
    changes nothing itself.

    The tables of outcomes/orm.py stand beside the database [Db] of the other services
    in [Store], with [json_artifacts] and the columns of [full_opportunity_scores] that
    only this service reads.  A handler runs in one session; a date-time column is read
    back as the dialect stores it.  Of a report the correlations of single score
    components, whose names come from a JSON column, are left out, and so are
    the warnings.  Counts are below 2^53 (their columns are
    32 bits wide), so a sum of counts is the float of the integer sum. *)
From S2P Require Import Prelude.
From S2P Require Import Binary64.
From S2P Require Import Schema.
From S2P Require Import OpportunityReview.
From S2P Require Import LeadRouting.
From S2P Require Import Numbers.
#[global] Open Scope Z_scope.

(** ** outcomes/models.py *)

Inductive OutcomeSourceType : Type :=
| search_console | web_analytics | call_tracking | form_submission | provider | operator.
#[export] Instance OutcomeSourceType_eq_dec : EqDecision OutcomeSourceType.
Proof. solve_decision. Defined.

Section models.
Context (A : Type).

Record PropertyDecisionInput : Type := {
  di_property_id : string;
  di_opportunity_id : Z;
  di_full_score_id : Z;
  di_evidence_snapshot_id : Z;
  di_selected_at : datetime;
  di_service_family_slug : string;
  di_market_size_band : string;
  di_evidence_quality : string;
  di_validated_opportunity_cost_usd : A
}.

(** The counts of an outcome, in the order of the report's totals. *)
Record Counts : Type := {
  impressions : Z;
  clicks : Z;
  organic_sessions : Z;
  calls : Z;
  forms : Z;
  qualified_leads : Z;
  appointments : Z;
  won_jobs : Z;
  reported_revenue : A
}.

Record PropertyOutcomeRecord : Type := {
  rec_property_id : string;
  rec_period_date : Z;
  rec_source_type : OutcomeSourceType;
  rec_source_name : string;
  rec_source_record_id : string;
  rec_truth_basis : TruthBasis;
  rec_confidence : string;
  rec_counts : Counts;
  rec_average_position : option A;
  rec_indexed_at : option datetime;
  rec_provider_suitability_score : option A;
  rec_addressable_market_score : option A;
  rec_metadata : json
}.

(** ** outcomes/orm.py *)

Record SelectionContext : Type := {
  full_score_total : A;
  full_score_confidence : string;
  context_scan_run_id : Z;
  component_scores : json
}.

Record PropertyDecision : Type := {
  pd_property_id : string;
  pd_opportunity_id : Z;
  pd_scan_run_id : Z;
  pd_full_score_id : Z;
  pd_evidence_snapshot_id : Z;
  pd_score_version_at_selection : string;
  pd_selected_at : datetime;
  pd_service_family_slug : string;
  pd_market_size_band : string;
  pd_evidence_quality : string;
  pd_validated_opportunity_cost_usd : A;
  pd_selection_context : SelectionContext
}.

Record PropertyOutcome : Type := {
  po_property_decision_id : Z;
  po_period_date : Z;
  po_source_type : OutcomeSourceType;
  po_source_name : string;
  po_source_record_id : string;
  po_truth_basis : TruthBasis;
  po_confidence : string;
  po_counts : Counts;
  po_average_position : option A;
  po_indexed_at : option datetime;
  po_provider_suitability_score : option A;
  po_addressable_market_score : option A;
  po_metadata_payload : json
}.
End models.
Arguments di_property_id {A}. Arguments di_opportunity_id {A}. Arguments di_full_score_id {A}.
Arguments di_evidence_snapshot_id {A}. Arguments di_selected_at {A}. Arguments di_service_family_slug {A}.
Arguments di_market_size_band {A}. Arguments di_evidence_quality {A}.
Arguments di_validated_opportunity_cost_usd {A}.
Arguments impressions {A}. Arguments clicks {A}. Arguments organic_sessions {A}. Arguments calls {A}.
Arguments forms {A}. Arguments qualified_leads {A}. Arguments appointments {A}. Arguments won_jobs {A}.
Arguments reported_revenue {A}. Arguments Build_Counts {A}.
Arguments rec_property_id {A}. Arguments rec_period_date {A}. Arguments rec_source_type {A}.
Arguments rec_source_name {A}. Arguments rec_source_record_id {A}. Arguments rec_truth_basis {A}.
Arguments rec_confidence {A}. Arguments rec_counts {A}. Arguments rec_average_position {A}.
Arguments rec_indexed_at {A}. Arguments rec_provider_suitability_score {A}.
Arguments rec_addressable_market_score {A}. Arguments rec_metadata {A}.
Arguments full_score_total {A}. Arguments full_score_confidence {A}. Arguments context_scan_run_id {A}.
Arguments component_scores {A}.
Arguments pd_property_id {A}. Arguments pd_opportunity_id {A}. Arguments pd_scan_run_id {A}.
Arguments pd_full_score_id {A}. Arguments pd_evidence_snapshot_id {A}.
Arguments pd_score_version_at_selection {A}. Arguments pd_selected_at {A}.
Arguments pd_service_family_slug {A}. Arguments pd_market_size_band {A}.
Arguments pd_evidence_quality {A}. Arguments pd_validated_opportunity_cost_usd {A}.
Arguments pd_selection_context {A}.
Arguments po_property_decision_id {A}. Arguments po_period_date {A}. Arguments po_source_type {A}.
Arguments po_source_name {A}. Arguments po_source_record_id {A}. Arguments po_truth_basis {A}.
Arguments po_confidence {A}. Arguments po_counts {A}. Arguments po_average_position {A}.
Arguments po_indexed_at {A}. Arguments po_provider_suitability_score {A}.
Arguments po_addressable_market_score {A}. Arguments po_metadata_payload {A}.

Record ScoringChangeProposal : Type := {
  sp_proposal_id : string;
  sp_current_version : string;
  sp_proposed_version : string;
  sp_initiated_by : string;
  sp_reviewer_id : option string;
  sp_benchmark_run_id : option string;
  sp_benchmark_passed : bool;
  sp_rationale : string
}.

Record ScoringChangeReview : Type := {
  sr_proposal_id : string;
  sr_current_version : string;
  sr_proposed_version : string;
  sr_initiated_by : string;
  sr_reviewer_id : string;
  sr_benchmark_run_id : string;
  sr_benchmark_passed : bool;
  sr_rationale : string;
  sr_authorized_for_manual_application : bool;
  sr_applied_automatically : bool
}.

Record JsonArtifact : Type := {
  ja_opportunity_id : option Z;
  ja_scan_run_id : option Z;
  ja_kind : string;
  ja_payload : gmap string json
}.

(** The columns of [FullOpportunityScoreORM] that only this service reads. *)
Record ScoreColumns (A : Type) : Type := {
  sco_scoring_version : string;
  sco_total_score : A;
  sco_confidence : string
}.
Arguments sco_scoring_version {A}. Arguments sco_total_score {A}. Arguments sco_confidence {A}.

(** ** The report *)

(** The keys of [_empty_totals]. *)
Inductive CountField : Type :=
| f_impressions | f_clicks | f_organic_sessions | f_calls | f_forms | f_qualified_leads
| f_appointments | f_won_jobs | f_reported_revenue.

Record CorrelationResult (A : Type) : Type := {
  cr_metric : string;
  cr_sample_size : Z;
  cr_coefficient : option A;
  cr_sufficient_sample : bool;
  cr_interpretation : string
}.
Arguments cr_metric {A}. Arguments cr_sample_size {A}. Arguments cr_coefficient {A}.
Arguments cr_sufficient_sample {A}. Arguments cr_interpretation {A}.

(** A row of [_segment]. *)
Record Segment (A : Type) : Type := {
  sg_segment : string;
  sg_property_count : Z;
  sg_average_selection_score : A;
  sg_qualified_leads : Z;
  sg_won_jobs : Z
}.
Arguments sg_segment {A}. Arguments sg_property_count {A}. Arguments sg_average_selection_score {A}.
Arguments sg_qualified_leads {A}. Arguments sg_won_jobs {A}.

Record CalibrationReport (A : Type) : Type := {
  rp_report_version : string;
  rp_start_date : Z;
  rp_end_date : Z;
  rp_property_count : Z;
  rp_observed_totals : CountField → A;
  rp_reported_totals : CountField → A;
  rp_operator_verified_totals : CountField → A;
  rp_estimated_totals : CountField → A;
  rp_correlations : list (CorrelationResult A);
  rp_by_service_family : list (Segment A);
  rp_by_market_size : list (Segment A);
  rp_by_evidence_quality : list (Segment A);
  rp_cost_per_validated_opportunity_usd : option A;
  rp_scoring_changes_applied : bool
}.
Arguments rp_report_version {A}. Arguments rp_correlations {A}. Arguments rp_by_service_family {A}.
Arguments rp_by_market_size {A}. Arguments rp_by_evidence_quality {A}.
Arguments rp_start_date {A}. Arguments rp_end_date {A}. Arguments rp_property_count {A}.
Arguments rp_observed_totals {A}. Arguments rp_reported_totals {A}.
Arguments rp_operator_verified_totals {A}. Arguments rp_estimated_totals {A}.
Arguments rp_cost_per_validated_opportunity_usd {A}. Arguments rp_scoring_changes_applied {A}.

Record Store (USD A : Type) : Type := {
  core : Db USD;
  score_columns : gmap Z (ScoreColumns A);
  json_artifacts : gmap Z JsonArtifact;
  property_decisions : gmap Z (PropertyDecision A);
  property_outcomes : gmap Z (PropertyOutcome A);
  calibration_reports : gmap Z (CalibrationReport A);
  scoring_change_reviews : gmap Z ScoringChangeReview
}.
Arguments core {USD A}. Arguments score_columns {USD A}. Arguments json_artifacts {USD A}.
Arguments property_decisions {USD A}. Arguments property_outcomes {USD A}.
Arguments calibration_reports {USD A}. Arguments scoring_change_reviews {USD A}.
Arguments Build_Store {USD A}.
#[export] Instance eta_Store {USD A} : Eta (Store USD A) := λ s,
  Build_Store (core s) (score_columns s) (json_artifacts s) (property_decisions s)
    (property_outcomes s) (calibration_reports s) (scoring_change_reviews s).

Inductive outcome_exn : Type :=
| OutcomeIntegrityError (code : string)
| AutomaticScoringChangeProhibited (code : string)
| PermissionError (code : string)
| MissingDecision (code : string)
| ValidationError
| DuplicateKey
| ReviewError (e : exn).

(** ** outcomes/models.py: the validators *)

Section service.
Context {USD A : Type} `{Amount USD} `{Num A} `{Stats A}.
Implicit Types (st : Store USD A) (record : PropertyOutcomeRecord A).

Abbreviation Handler T := (M (Store USD A) outcome_exn T).

Definition valid_counts (c : Counts A) : bool :=
  forallb (λ n, 0 <=? n) [impressions c; clicks c; organic_sessions c; calls c; forms c;
                          qualified_leads c; appointments c; won_jobs c]
  && (num_Z 0 <=? reported_revenue c)%num.

(** [validate_source_truth] *)
Definition source_truth (record : PropertyOutcomeRecord A) : bool :=
  let basis := rec_truth_basis record in
  let source := rec_source_type record in
  negb (bool_decide (basis = provider_reported) && negb (bool_decide (source = provider)))
  && negb (bool_decide (basis = operator_verified) && negb (bool_decide (source = operator)))
  && negb ((num_Z 0 <? reported_revenue (rec_counts record))%num && bool_decide (basis = estimated)).

(** [Field(min_length=lo, max_length=hi)] and [Field(max_length=hi)] *)
Definition str_within (lo hi : Z) (s : string) : bool :=
  (lo <=? Z.of_nat (String.length s)) && (Z.of_nat (String.length s) <=? hi).
Definition opt_within {T} (p : T → bool) (x : option T) : bool := from_option p true x.

Definition valid_decision (d : PropertyDecisionInput A) : bool :=
  str_within 1 120 (di_property_id d)
  && forallb (Z.ltb 0) [di_opportunity_id d; di_full_score_id d; di_evidence_snapshot_id d]
  && str_within 1 120 (di_service_family_slug d)
  && str_within 1 80 (di_market_size_band d)
  && str_within 1 40 (di_evidence_quality d)
  && (num_Z 0 <=? di_validated_opportunity_cost_usd d)%num.

Definition valid_record (record : PropertyOutcomeRecord A) : bool :=
  str_within 1 120 (rec_property_id record)
  && str_within 1 120 (rec_source_name record)
  && str_within 1 160 (rec_source_record_id record)
  && bool_decide (rec_confidence record ∈ ["high"; "medium"; "low"; "insufficient"]%string)
  && valid_counts (rec_counts record)
  && opt_within (num_leb (num_Z 0)) (rec_average_position record)
  && opt_within (λ x, (num_Z 0 <=? x) && (x <=? num_Z 100))%num (rec_provider_suitability_score record)
  && opt_within (λ x, (num_Z 0 <=? x) && (x <=? num_Z 100))%num (rec_addressable_market_score record)
  && source_truth record.

(** [validate_range] *)
Definition valid_range (start_date end_date minimum : Z) : bool :=
  (3 <=? minimum) && (minimum <=? 1000) && negb (end_date <? start_date).

Definition valid_proposal (p : ScoringChangeProposal) : bool :=
  str_within 1 120 (sp_proposal_id p)
  && str_within 1 80 (sp_current_version p)
  && str_within 1 80 (sp_proposed_version p)
  && str_within 1 120 (sp_initiated_by p)
  && opt_within (str_within 0 120) (sp_reviewer_id p)
  && opt_within (str_within 0 120) (sp_benchmark_run_id p)
  && str_within 10 2000 (sp_rationale p).

(** ** Sessions *)

(** A service of the review reads the same session. *)
Definition in_core {T} (m : Session USD T) : Handler T := λ st,
  let '(r, db) := m (core st) in
  (match r with Ok t => Ok t | Raise e => Raise (ReviewError e) end, st <| core := db |>).

(** The wall clock of a date-time, and the value read back from its column. *)
Definition wall (d : datetime) : Z := match d with Naive w => w | Aware w _ => w end.
Definition stored_datetime (d : dialect) (t : datetime) : datetime :=
  match d with
  | sqlite => Naive (wall t)
  | postgresql o => Aware (instant t + o) o
  end.
(** [t.date()] *)
Definition date_of_datetime (t : datetime) : Z := date_of (wall t).

Definition ierr (code : string) : outcome_exn := OutcomeIntegrityError code.

(** ** [PropertyOutcomeService] *)

Definition decision_of (property_id : string) st : option (Z * PropertyDecision A) :=
  select_first (λ _ d, bool_decide (pd_property_id d = property_id)) (property_decisions st).

(** [immutable_values != submitted_values] *)
Definition same_choice (d : PropertyDecision A) (decision : PropertyDecisionInput A) : bool :=
  bool_decide (pd_opportunity_id d = di_opportunity_id decision)
  && bool_decide (pd_full_score_id d = di_full_score_id decision)
  && bool_decide (pd_evidence_snapshot_id d = di_evidence_snapshot_id decision).

(** [except RuntimeError as exc: raise OutcomeIntegrityError(str(exc))] *)
Definition approval_error (e : outcome_exn) : outcome_exn :=
  match e with
  | ReviewError (OpportunityReviewError code) => OutcomeIntegrityError code
  | e => e
  end.

Definition get_score (i : Z) st : option (FullOpportunityScore * ScoreColumns A) :=
  match full_opportunity_scores (core st) !! i, score_columns st !! i with
  | Some s, Some c => Some (s, c)
  | _, _ => None
  end.

Definition decision_row (decision : PropertyDecisionInput A) (score : FullOpportunityScore)
    (columns : ScoreColumns A) (dialect : dialect) : PropertyDecision A :=
  {| pd_property_id := di_property_id decision;
     pd_opportunity_id := di_opportunity_id decision;
     pd_scan_run_id := fs_scan_run_id score;
     pd_full_score_id := di_full_score_id decision;
     pd_evidence_snapshot_id := di_evidence_snapshot_id decision;
     pd_score_version_at_selection := sco_scoring_version columns;
     pd_selected_at := stored_datetime dialect (di_selected_at decision);
     pd_service_family_slug := di_service_family_slug decision;
     pd_market_size_band := di_market_size_band decision;
     pd_evidence_quality := di_evidence_quality decision;
     pd_validated_opportunity_cost_usd := di_validated_opportunity_cost_usd decision;
     pd_selection_context :=
       {| full_score_total := sco_total_score columns;
          full_score_confidence := sco_confidence columns;
          context_scan_run_id := fs_scan_run_id score;
          component_scores := default (JObj []) (fs_payload score !! "component_scores"%string) |} |}.

Definition is_full_assessment (payload : gmap string json) : bool :=
  match payload !! "assessment_type"%string with
  | Some (JStr s) => bool_decide (s = "full"%string)
  | _ => false
  end.

(** The checks between the approval and the insertion. *)
Definition check_evidence (decision : PropertyDecisionInput A) (score : FullOpportunityScore)
    : Handler unit :=
  get_or_raise (λ st, match json_artifacts st !! di_evidence_snapshot_id decision with
                      | Some e => if bool_decide (ja_opportunity_id e = Some (di_opportunity_id decision))
                                  then Some e else None
                      | None => None
                      end) (ierr "evidence_does_not_match_opportunity") ≫= λ evidence,
  raise_if (bool_decide (ja_scan_run_id evidence = None))
    (ierr "evidence_is_missing_scan_lineage") ≫= λ _,
  raise_if (negb (bool_decide (ja_scan_run_id evidence = Some (fs_scan_run_id score))))
    (ierr "score_and_evidence_scan_mismatch") ≫= λ _,
  raise_if (negb (bool_decide (ja_kind evidence ∈ ["scan_result"; "evidence_snapshot"]%string)))
    (ierr "artifact_is_not_an_evidence_snapshot") ≫= λ _,
  raise_if (bool_decide (ja_kind evidence = "scan_result"%string)
            && negb (is_full_assessment (ja_payload evidence)))
    (ierr "property_decision_requires_full_evidence").

Definition record_decision (decision : PropertyDecisionInput A) : Handler Z :=
  gets (decision_of (di_property_id decision)) ≫= λ existing,
  match existing with
  | Some (i, d) =>
      raise_if (negb (same_choice d decision)) (ierr "property_decision_is_immutable") ≫= λ _,
      mret i
  | None =>
      reraise approval_error (in_core (require_property_approval (di_opportunity_id decision))) ≫= λ _,
      get_or_raise (λ st, match get_score (di_full_score_id decision) st with
                          | Some (s, c) =>
                              if bool_decide (fs_opportunity_id s = di_opportunity_id decision)
                              then Some (s, c) else None
                          | None => None
                          end) (ierr "score_does_not_match_opportunity") ≫= λ '(score, columns),
      check_evidence decision score ≫= λ _,
      gets (λ st, next_id (property_decisions st)) ≫= λ i,
      modify (λ st, st <| property_decisions ::=
        <[i := decision_row decision score columns (db_dialect (core st))]> |>) ≫= λ _,
      mret i
  end.

Definition same_source (i : Z) (source_name source_record_id : string) (o : PropertyOutcome A) : bool :=
  bool_decide (po_property_decision_id o = i)
  && bool_decide (po_source_name o = source_name)
  && bool_decide (po_source_record_id o = source_record_id).

Definition outcome_row_of (i : Z) (d : dialect) record : PropertyOutcome A :=
  {| po_property_decision_id := i;
     po_period_date := rec_period_date record;
     po_source_type := rec_source_type record;
     po_source_name := rec_source_name record;
     po_source_record_id := rec_source_record_id record;
     po_truth_basis := rec_truth_basis record;
     po_confidence := rec_confidence record;
     po_counts := rec_counts record;
     po_average_position := rec_average_position record;
     po_indexed_at := stored_datetime d <$> rec_indexed_at record;
     po_provider_suitability_score := rec_provider_suitability_score record;
     po_addressable_market_score := rec_addressable_market_score record;
     po_metadata_payload := redact_pii (rec_metadata record) |}.

Definition ingest record : Handler Z :=
  get_or_raise (decision_of (rec_property_id record)) (ierr "property_decision_not_found") ≫= λ '(i, d),
  let selected := date_of_datetime (pd_selected_at d) in
  raise_if (rec_period_date record <? selected)
    (ierr "outcome_precedes_property_selection") ≫= λ _,
  raise_if (match rec_indexed_at record with Some t => date_of_datetime t <? selected | None => false end)
    (ierr "indexing_precedes_property_selection") ≫= λ _,
  gets (λ st, select_first (λ _ o, same_source i (rec_source_name record) (rec_source_record_id record) o)
                (property_outcomes st)) ≫= λ existing,
  match existing with
  | Some (k, _) => mret k
  | None =>
      gets (λ st, next_id (property_outcomes st)) ≫= λ k,
      modify (λ st, st <| property_outcomes ::=
        <[k := outcome_row_of i (db_dialect (core st)) record]> |>) ≫= λ _,
      mret k
  end.

(** [collect_from], after the adapter [name] returned [records]. *)
Fixpoint collect_from (name : string) (records : list (PropertyOutcomeRecord A)) : Handler (list Z) :=
  match records with
  | [] => mret []
  | record :: records' =>
      raise_if (negb (bool_decide (rec_source_name record = name)))
        (ierr "adapter_source_name_mismatch") ≫= λ _,
      ingest record ≫= λ k,
      collect_from name records' ≫= λ ks,
      mret (k :: ks)
  end.

(** [.order_by(period_date, id)] *)
Definition period_le (x y : Z * PropertyOutcome A) : Prop :=
  po_period_date x.2 < po_period_date y.2
  ∨ (po_period_date x.2 = po_period_date y.2 ∧ x.1 ≤ y.1).
#[global] Instance period_le_dec : RelDecision period_le.
Proof. intros x y. unfold period_le. apply _. Defined.

Definition may_export (role : LeadAccessRole) : bool :=
  match role with role_operator | role_privacy_admin | role_analytics => true | role_provider => false end.

Definition export_property (property_id : string) (access : AccessContext)
    : Handler (PropertyDecision A * list (PropertyOutcome A)) :=
  raise_if (negb (may_export (ac_role access))) (PermissionError "outcome_export_access_denied") ≫= λ _,
  get_or_raise (decision_of property_id) (MissingDecision "property_decision_not_found") ≫= λ '(i, d),
  gets (λ st, map snd (merge_sort period_le
                (select (λ _ o, bool_decide (po_property_decision_id o = i)) (property_outcomes st)))) ≫= λ rows,
  mret (d, rows).

(** [delete(PropertyOutcomeORM).where(p)], with the number of rows. *)
Definition delete_outcomes (p : PropertyOutcome A → bool) : Handler Z :=
  gets (λ st, select (λ _ o, p o) (property_outcomes st)) ≫= λ rows,
  modify (λ st, st <| property_outcomes ::= filter (λ ko, p ko.2 = false) |>) ≫= λ _,
  mret (Z.of_nat (length rows)).

Definition admin (access : AccessContext) : bool := bool_decide (ac_role access = role_privacy_admin).

Definition delete_imported_source (property_id source_name : string) (access : AccessContext)
    : Handler Z :=
  raise_if (negb (admin access)) (PermissionError "outcome_deletion_requires_privacy_admin") ≫= λ _,
  gets (decision_of property_id) ≫= λ decision,
  match decision with
  | None => mret 0
  | Some (i, _) =>
      delete_outcomes (λ o, bool_decide (po_property_decision_id o = i)
                            && bool_decide (po_source_name o = source_name))
  end.

Definition enforce_outcome_retention (before : Z) (access : AccessContext) : Handler Z :=
  raise_if (negb (admin access)) (PermissionError "outcome_retention_requires_privacy_admin") ≫= λ _,
  delete_outcomes (λ o, po_period_date o <? before).

(** ** [CalibrationReportService] *)

Definition count_value (c : Counts A) (f : CountField) : A :=
  match f with
  | f_impressions => num_Z (impressions c)
  | f_clicks => num_Z (clicks c)
  | f_organic_sessions => num_Z (organic_sessions c)
  | f_calls => num_Z (calls c)
  | f_forms => num_Z (forms c)
  | f_qualified_leads => num_Z (qualified_leads c)
  | f_appointments => num_Z (appointments c)
  | f_won_jobs => num_Z (won_jobs c)
  | f_reported_revenue => reported_revenue c
  end.

Definition _empty_totals : CountField → A := λ _, num_Z 0.

Definition _add_totals (target : CountField → A) (row : PropertyOutcome A) : CountField → A :=
  λ f, (target f + count_value (po_counts row) f)%num.

(** The four accumulators of the loop over the rows. *)
Record Totals : Type := {
  observed_totals : CountField → A;
  reported_totals : CountField → A;
  operator_verified_totals : CountField → A;
  estimated_totals : CountField → A
}.

Definition no_totals : Totals :=
  {| observed_totals := _empty_totals; reported_totals := _empty_totals;
     operator_verified_totals := _empty_totals; estimated_totals := _empty_totals |}.

Definition count_row (t : Totals) (row : PropertyOutcome A) : Totals :=
  match po_truth_basis row with
  | observed =>
      {| observed_totals := _add_totals (observed_totals t) row; reported_totals := reported_totals t;
         operator_verified_totals := operator_verified_totals t; estimated_totals := estimated_totals t |}
  | provider_reported =>
      {| observed_totals := observed_totals t; reported_totals := _add_totals (reported_totals t) row;
         operator_verified_totals := operator_verified_totals t; estimated_totals := estimated_totals t |}
  | operator_verified =>
      {| observed_totals := observed_totals t; reported_totals := reported_totals t;
         operator_verified_totals := _add_totals (operator_verified_totals t) row;
         estimated_totals := estimated_totals t |}
  | estimated =>
      {| observed_totals := observed_totals t; reported_totals := reported_totals t;
         operator_verified_totals := operator_verified_totals t;
         estimated_totals := _add_totals (estimated_totals t) row |}
  end.

(** [verified_rows] *)
Definition is_verified (row : PropertyOutcome A) : bool :=
  bool_decide (po_truth_basis row = observed) || bool_decide (po_truth_basis row = operator_verified).

(** One of [properties]; the leads and jobs are the sums before [float]. *)
Record ReportProperty : Type := {
  rq_decision : PropertyDecision A;
  rq_score : A;
  rq_indexing_days : option Z;
  rq_impression_growth : option A;
  rq_top_10 : A;
  rq_lead_volume : Z;
  rq_won_jobs : Z;
  rq_provider_suitability : option A;
  rq_addressable_market : option A
}.

Definition sum_Z (l : list Z) : Z := foldr Z.add 0 l.

Definition _growth (first last : A) : option A :=
  if (first <=? num_Z 0)%num then if (last <=? num_Z 0)%num then None else Some (num_Z 1)
  else Some ((last - first) / first)%num.

Definition _mean_optional (values : list (option A)) : option A :=
  match omap id values with
  | [] => None
  | present => Some (num_fmean present)
  end.

(** [min] of date-times of one column: the first of the earliest. *)
Definition earliest (t : datetime) (l : list datetime) : datetime :=
  foldl (λ best x, if instant x <? instant best then x else best) t l.

Definition report_property (d : PropertyDecision A) (rows : list (PropertyOutcome A)) : ReportProperty :=
  let verified_rows := List.filter is_verified rows in
  let indexed_dates := omap po_indexed_at verified_rows in
  let positions := omap po_average_position verified_rows in
  let ordered := sort_by (λ x y, po_period_date x <=? po_period_date y) verified_rows in
  {| rq_decision := d;
     rq_score := full_score_total (pd_selection_context d);
     rq_indexing_days :=
       match indexed_dates with
       | [] => None
       | t :: l => Some (date_of_datetime (earliest t l) - date_of_datetime (pd_selected_at d))
       end;
     rq_impression_growth :=
       match head ordered, last ordered with
       | Some x, Some y =>
           _growth (num_Z (impressions (po_counts x))) (num_Z (impressions (po_counts y)))
       | _, _ => None
       end;
     rq_top_10 :=
       match positions with
       | [] => num_Z 0
       | x :: l => if (min_of x l <=? num_Z 10)%num then num_Z 1 else num_Z 0
       end;
     rq_lead_volume := sum_Z (map (λ r, qualified_leads (po_counts r)) verified_rows);
     rq_won_jobs := sum_Z (map (λ r, won_jobs (po_counts r)) verified_rows);
     rq_provider_suitability := _mean_optional (map po_provider_suitability_score rows);
     rq_addressable_market := _mean_optional (map po_addressable_market_score rows) |}.

Definition _pearson (pairs : list (A * A)) : option A :=
  match pairs with
  | [] | [_] => None
  | _ =>
      let xs := map fst pairs in
      let ys := map snd pairs in
      let x_mean := num_fmean xs in
      let y_mean := num_fmean ys in
      let numerator := num_sum (map (λ '(x, y), (x - x_mean) * (y - y_mean))%num pairs) in
      let x_sum := num_sum (map (λ x, (x - x_mean) * (x - x_mean))%num xs) in
      let y_sum := num_sum (map (λ y, (y - y_mean) * (y - y_mean))%num ys) in
      let denominator := num_sqrt (x_sum * y_sum)%num in
      if num_truthy denominator then Some (numerator / denominator)%num else None
  end.

Definition _correlation (items : list ReportProperty) (metric : string)
    (x_key y_key : ReportProperty → option A) (minimum_sample : Z) : CorrelationResult A :=
  let pairs := omap (λ item, x ← x_key item; y ← y_key item; Some (x, y)) items in
  let coefficient := _pearson pairs in
  let sufficient := minimum_sample <=? Z.of_nat (length pairs) in
  {| cr_metric := metric;
     cr_sample_size := Z.of_nat (length pairs);
     cr_coefficient := num_round 4 <$> coefficient;
     cr_sufficient_sample := sufficient;
     cr_interpretation :=
       if negb sufficient then "insufficient_sample"
       else match coefficient with
            | None => "no_variance"
            | Some _ => "descriptive_correlation_only"
            end |}.

#[local] Instance string_le_dec : RelDecision (λ x y : string, (x ≤ y)%string).
Proof. intros x y. apply _. Defined.

Definition _segment (items : list ReportProperty) (decision_field : PropertyDecision A → string)
    : list (Segment A) :=
  map (λ key,
    let group := List.filter (λ q, bool_decide (decision_field (rq_decision q) = key)) items in
    {| sg_segment := key;
       sg_property_count := Z.of_nat (length group);
       sg_average_selection_score := num_round 3 (num_fmean (map rq_score group));
       sg_qualified_leads := sum_Z (map rq_lead_volume group);
       sg_won_jobs := sum_Z (map rq_won_jobs group) |})
    (merge_sort (λ x y : string, (x ≤ y)%string)
       (remove_dups (map (λ q, decision_field (rq_decision q)) items))).

(** [by_decision[id]], in the order of the query. *)
Definition rows_of (i : Z) (rows : list (PropertyOutcome A)) : list (PropertyOutcome A) :=
  List.filter (λ r, bool_decide (po_property_decision_id r = i)) rows.

(** The loop over the decisions. *)
Definition count_decision (rows : list (PropertyOutcome A)) (acc : Totals * list ReportProperty)
    (decision : Z * PropertyDecision A) : Totals * list ReportProperty :=
  let '(totals, properties) := acc in
  match rows_of decision.1 rows with
  | [] => acc
  | own => (foldl count_row totals own, properties ++ [report_property decision.2 own])
  end.

Definition outcomes_between (start_date end_date : Z) st : list (PropertyOutcome A) :=
  map snd (select (λ _ o, (start_date <=? po_period_date o) && (po_period_date o <=? end_date))
             (property_outcomes st)).

Definition correlations_of (properties : list ReportProperty) (minimum : Z)
    : list (CorrelationResult A) :=
  [_correlation properties "score_vs_indexing_time"
     (λ q, Some (rq_score q)) (λ q, num_Z <$> rq_indexing_days q) minimum;
   _correlation properties "score_vs_impression_growth"
     (λ q, Some (rq_score q)) rq_impression_growth minimum;
   _correlation properties "score_vs_top_10_achievement"
     (λ q, Some (rq_score q)) (λ q, Some (rq_top_10 q)) minimum;
   _correlation properties "provider_suitability_vs_tenant_conversion"
     rq_provider_suitability (λ q, Some (num_Z (rq_won_jobs q))) minimum;
   _correlation properties "addressable_market_vs_lead_demand"
     rq_addressable_market (λ q, Some (num_Z (rq_lead_volume q))) minimum].

Definition report_of (start_date end_date minimum : Z) st : CalibrationReport A :=
  let rows := outcomes_between start_date end_date st in
  let '(totals, properties) :=
    foldl (count_decision rows) (no_totals, []) (table_rows (property_decisions st)) in
  let validated_count := Z.of_nat (length (List.filter (λ q, 0 <? rq_lead_volume q) properties)) in
  let total_cost := num_sum (map (λ q, pd_validated_opportunity_cost_usd (rq_decision q)) properties) in
  {| rp_report_version := "calibration-v1";
     rp_start_date := start_date;
     rp_end_date := end_date;
     rp_property_count := Z.of_nat (length properties);
     rp_observed_totals := observed_totals totals;
     rp_reported_totals := reported_totals totals;
     rp_operator_verified_totals := operator_verified_totals totals;
     rp_estimated_totals := estimated_totals totals;
     rp_correlations := correlations_of properties minimum;
     rp_by_service_family := _segment properties pd_service_family_slug;
     rp_by_market_size := _segment properties pd_market_size_band;
     rp_by_evidence_quality := _segment properties pd_evidence_quality;
     rp_cost_per_validated_opportunity_usd :=
       if validated_count =? 0 then None
       else Some (num_round 4 (total_cost / num_Z validated_count)%num);
     rp_scoring_changes_applied := false |}.

(** [generate]: the report, stored under a new id. *)
Definition generate (start_date end_date minimum : Z) : Handler (Z * CalibrationReport A) :=
  gets (report_of start_date end_date minimum) ≫= λ report,
  gets (λ st, next_id (calibration_reports st)) ≫= λ i,
  modify (λ st, st <| calibration_reports ::= <[i := report]> |>) ≫= λ _,
  mret (i, report).

(** ** [ScoringChangeGuard] *)

Definition automatic (initiated_by : string) : bool :=
  bool_decide (py_lower initiated_by ∈ ["automatic"; "system"; "calibration_report"]%string).

Definition review_row (p : ScoringChangeProposal) (reviewer_id benchmark_run_id : string)
    : ScoringChangeReview :=
  {| sr_proposal_id := sp_proposal_id p;
     sr_current_version := sp_current_version p;
     sr_proposed_version := sp_proposed_version p;
     sr_initiated_by := sp_initiated_by p;
     sr_reviewer_id := reviewer_id;
     sr_benchmark_run_id := benchmark_run_id;
     sr_benchmark_passed := true;
     sr_rationale := sp_rationale p;
     sr_authorized_for_manual_application := true;
     sr_applied_automatically := false |}.

(** The insertion, under the unique key of the proposal. *)
Definition add_review_row (row : ScoringChangeReview) : Handler unit :=
  gets (λ st, select_first (λ _ r, bool_decide (sr_proposal_id r = sr_proposal_id row))
                (scoring_change_reviews st)) ≫= λ taken,
  raise_if (bool_decide (is_Some taken)) DuplicateKey ≫= λ _,
  modify (λ st, st <| scoring_change_reviews ::=
    <[next_id (scoring_change_reviews st) := row]> |>).

Definition authorize_manual_review (p : ScoringChangeProposal) : Handler ScoringChangeReview :=
  raise_if (automatic (sp_initiated_by p))
    (AutomaticScoringChangeProhibited "automatic_scoring_changes_are_prohibited") ≫= λ _,
  match sp_benchmark_passed p, sp_benchmark_run_id p with
  | true, Some benchmark_run_id =>
      match sp_reviewer_id p with
      | Some reviewer_id =>
          raise_if (bool_decide (sp_current_version p = sp_proposed_version p))
            (ierr "proposed_version_must_change") ≫= λ _,
          let row := review_row p reviewer_id benchmark_run_id in
          add_review_row row ≫= λ _,
          mret row
      | None => raise (ierr "reviewer_approval_is_required")
      end
  | _, _ => raise (ierr "passing_benchmark_is_required")
  end.
(** ** The callers

    An input is built, and so validated, before a service sees it; the session
    commits when the service returns and rolls back when it raises. *)

Inductive request : Type :=
| Record_decision (decision : PropertyDecisionInput A)
| Ingest (record : PropertyOutcomeRecord A)
| Collect (name : string) (records : list (PropertyOutcomeRecord A))
| Delete_source (property_id source_name : string) (access : AccessContext)
| Retain (before : Z) (access : AccessContext)
| Generate (start_date end_date minimum : Z)
| Authorize (proposal : ScoringChangeProposal).

Definition validated (ok : bool) : Handler unit := raise_if (negb ok) ValidationError.

Definition serve (r : request) : Handler unit := transaction (
  match r with
  | Record_decision d => validated (valid_decision d) ≫= λ _, record_decision d ≫= λ _, mret tt
  | Ingest record => validated (valid_record record) ≫= λ _, ingest record ≫= λ _, mret tt
  | Collect name records =>
      validated (forallb valid_record records) ≫= λ _, collect_from name records ≫= λ _, mret tt
  | Delete_source p n access => delete_imported_source p n access ≫= λ _, mret tt
  | Retain before access => enforce_outcome_retention before access ≫= λ _, mret tt
  | Generate start_date end_date minimum =>
      validated (valid_range start_date end_date minimum) ≫= λ _,
      generate start_date end_date minimum ≫= λ _, mret tt
  | Authorize p => validated (valid_proposal p) ≫= λ _, authorize_manual_review p ≫= λ _, mret tt
  end).
End service.
Arguments Totals : clear implicits.
Arguments ReportProperty : clear implicits.
Arguments request : clear implicits.
