(* ===== verification/OutcomesProofs.v ===== *)
(** * OutcomesProofs: what each request of the outcome services writes

    [write] lists the writes of the services, one constructor for each insertion or
    deletion with the guards that precede it; [serve_writes] shows that a request makes
    no others.  [store_ok] is the invariant they keep. *)
From S2P Require Import Prelude.
From S2P Require Import Binary64.
From S2P Require Import Schema.
From S2P Require Import OpportunityReview.
From S2P Require Import LeadRouting.
From S2P Require Import ProviderOperations.
From S2P Require Import ProviderOperationsProofs.
From S2P Require Import Numbers.
From S2P Require Import Outcomes.

Section proofs.
Context {USD A : Type} `{Amount USD} `{Num A} `{Stats A}.
Implicit Types (st : Store USD A) (record : PropertyOutcomeRecord A) (db : Db USD).

(** ** Selection *)

Definition approved (i : Z) db : Prop :=
  ∃ o, opportunities db !! i = Some o ∧ canonical (opp_status o) = Some approved_for_property.

(** The snapshot a decision may rest on. *)
Definition supports (opportunity_id scan_run_id : Z) (e : JsonArtifact) : Prop :=
  ja_opportunity_id e = Some opportunity_id ∧ ja_scan_run_id e = Some scan_run_id
  ∧ (ja_kind e = "evidence_snapshot"%string
     ∨ ja_kind e = "scan_result"%string ∧ is_full_assessment (ja_payload e) = true).

Lemma check_evidence_ok (decision : PropertyDecisionInput A) score st u st' :
  check_evidence decision score st = (Ok u, st') ↔
  st' = st ∧ ∃ e, json_artifacts st !! di_evidence_snapshot_id decision = Some e
                  ∧ supports (di_opportunity_id decision) (fs_scan_run_id score) e.
Proof.
  unfold check_evidence, supports. destruct u. rewrite bind_get_or_raise.
  destruct (json_artifacts st !! _) as [e|]; [|naive_solver].
  case_bool_decide as Hc1; [|naive_solver]. rewrite !bind_raise_if.
  case_bool_decide as Hc2; [naive_solver congruence|].
  case_bool_decide as Hc3; cbn [negb]; [|naive_solver].
  case_bool_decide as Hc4; cbn [negb]; [|set_solver].
  unfold raise_if. case_bool_decide as Hc5; cbn [andb].
  - destruct (is_full_assessment _) eqn:Hf; unfold raise, mret, M_ret; cbn [negb]; split.
    + intros [= <-]. split; [done|]. exists e. split; [done|]. split; [done|]. split; [done|]. by right.
    + by intros [-> _].
    + done.
    + intros (_ & e' & [= <-] & _ & _ & [Hk|[_ Hk]]); congruence.
  - unfold mret, M_ret; cbn. split.
    + intros [= <-]. split; [done|]. exists e. split; [done|]. set_solver.
    + by intros [-> _].
Qed.

Lemma approval_ok i st o st' :
  reraise approval_error (in_core (require_property_approval i)) st = (Ok o, st') ↔
  opportunities (core st) !! i = Some o ∧ canonical (opp_status o) = Some approved_for_property
  ∧ st' = st.
Proof.
  rewrite reraise_ok. unfold in_core.
  destruct (require_property_approval i (core st)) as [[o'|e] db] eqn:Hr.
  - apply approval_passes in Hr as (Ho & Hc & ->). destruct st. split; naive_solver.
  - split; [done|]. intros (Ho & Hc & ->).
    assert (require_property_approval i (core st) = (Ok o, core st)) as Hok
      by by apply approval_passes. congruence.
Qed.

(** Everything a new decision rests on. *)
Definition selectable (decision : PropertyDecisionInput A) (score : FullOpportunityScore)
    (columns : ScoreColumns A) st : Prop :=
  approved (di_opportunity_id decision) (core st)
  ∧ get_score (di_full_score_id decision) st = Some (score, columns)
  ∧ fs_opportunity_id score = di_opportunity_id decision
  ∧ ∃ e, json_artifacts st !! di_evidence_snapshot_id decision = Some e
         ∧ supports (di_opportunity_id decision) (fs_scan_run_id score) e.

Definition add_decision (decision : PropertyDecisionInput A) score columns st : Store USD A :=
  st <| property_decisions ::=
    <[next_id (property_decisions st) :=
        decision_row decision score columns (db_dialect (core st))]> |>.

Lemma record_decision_ok decision st i st' :
  record_decision decision st = (Ok i, st') ↔
  (∃ d, decision_of (di_property_id decision) st = Some (i, d) ∧ same_choice d decision = true
        ∧ st' = st)
  ∨ (decision_of (di_property_id decision) st = None
     ∧ i = next_id (property_decisions st)
     ∧ ∃ score columns, selectable decision score columns st
                        ∧ st' = add_decision decision score columns st).
Proof.
  unfold record_decision. rewrite bind_gets.
  destruct (decision_of _ st) as [[j d]|].
  { rewrite bind_raise_if. destruct (same_choice d decision) eqn:Hs; cbn [negb].
    - rewrite ret_ok. split; [|naive_solver]. intros [-> ->]. left. by exists d.
    - split; [done|]. intros [(d' & [= <- <-] & ? & _)|[? _]]; congruence. }
  rewrite bind_ok. split.
  - intros (o & st1 & (Ho & Hc & ->)%approval_ok & Hrun). right.
    rewrite bind_get_or_raise in Hrun.
    destruct (get_score _ st) as [[score columns]|] eqn:Hg; [|done].
    case_bool_decide as Hopp; [|done]. run_inv.
    match goal with Hce : check_evidence _ _ _ = _ |- _ => apply check_evidence_ok in Hce as [-> He] end.
    split; [done|]. split; [done|]. exists score, columns. split; [|done].
    split; [by exists o|]. done.
  - intros [(?&?&?)|(_ & -> & score & columns & ((o & Ho & Hc) & Hg & Hopp & He) & ->)]; [done|].
    exists o, st. split; [by apply approval_ok|]. rewrite bind_get_or_raise, Hg.
    rewrite bool_decide_true by done.
    rewrite (bind_run _ _ st tt st); [done|]. by apply check_evidence_ok.
Qed.

(** ** Import *)

(** The checks of an outcome against the decision of its property. *)
Definition follows (selected : Z) record : Prop :=
  selected ≤ rec_period_date record
  ∧ ∀ t, rec_indexed_at record = Some t → selected ≤ date_of_datetime t.

Definition held (i : Z) record st : option (Z * PropertyOutcome A) :=
  select_first (λ _ o, same_source i (rec_source_name record) (rec_source_record_id record) o)
    (property_outcomes st).

Definition add_outcome (i : Z) record st : Store USD A :=
  st <| property_outcomes ::=
    <[next_id (property_outcomes st) := outcome_row_of i (db_dialect (core st)) record]> |>.

Lemma ingest_ok record st k st' :
  ingest record st = (Ok k, st') ↔
  ∃ i d, decision_of (rec_property_id record) st = Some (i, d)
         ∧ follows (date_of_datetime (pd_selected_at d)) record
         ∧ match held i record st with
           | Some (k', _) => k = k' ∧ st' = st
           | None => k = next_id (property_outcomes st) ∧ st' = add_outcome i record st
           end.
Proof.
  unfold ingest, follows. rewrite bind_get_or_raise.
  destruct (decision_of _ st) as [[i d]|]; [|split; [done|by intros (?&?&?&_)]].
  set (selected := date_of_datetime (pd_selected_at d)). rewrite !bind_raise_if.
  destruct (Z.ltb_spec (rec_period_date record) selected) as [Hp|Hp].
  { split; [done|]. intros (? & ? & [= <- <-] & [Hf _] & _). fold selected in Hf. lia. }
  set (early := match rec_indexed_at record with Some t => _ | None => false end).
  assert (early = false ↔ ∀ t, rec_indexed_at record = Some t → selected ≤ date_of_datetime t) as He.
  { unfold early. destruct (rec_indexed_at record) as [t|]; [|naive_solver].
    rewrite Z.ltb_ge. split; [by intros ? ? [= <-]|by intros Ht; apply Ht]. }
  destruct early.
  { split; [done|]. intros (? & ? & [= <- <-] & [_ Hf] & _). by apply He in Hf. }
  rewrite bind_gets. fold (held i record st). destruct (held i record st) as [[k' o]|] eqn:Hh.
  - rewrite ret_ok. split.
    + intros [-> ->]. exists i, d. rewrite Hh. split_and!; try done. by apply He.
    + intros (? & ? & [= <- <-] & _ & Hr). by rewrite Hh in Hr.
  - rewrite bind_gets. split.
    + intros [= <- <-]. exists i, d. rewrite Hh. split_and!; try done. by apply He.
    + intros (? & ? & [= <- <-] & _ & Hr). rewrite Hh in Hr. by destruct Hr as [-> ->].
Qed.

(** ** Deletion *)

Definition drop_outcomes (p : PropertyOutcome A → bool) st : Store USD A :=
  st <| property_outcomes ::= filter (λ ko, p ko.2 = false) |>.

Lemma delete_outcomes_ok p st n st' :
  delete_outcomes p st = (Ok n, st') ↔
  n = Z.of_nat (length (select (λ _ o, p o) (property_outcomes st))) ∧ st' = drop_outcomes p st.
Proof. unfold delete_outcomes, drop_outcomes. rewrite bind_gets. split; [by intros [= <- <-]|by intros [-> ->]]. Qed.

Lemma drop_outcomes_lookup p st k o :
  property_outcomes (drop_outcomes p st) !! k = Some o ↔
  property_outcomes st !! k = Some o ∧ p o = false.
Proof. unfold drop_outcomes. cbn. by rewrite map_lookup_filter_Some. Qed.

(** ** Reviews of scoring changes *)

(** A proposal with its reviewer and its benchmark run that may be reviewed. *)
Definition reviewable (p : ScoringChangeProposal) (reviewer_id benchmark_run_id : string) st : Prop :=
  automatic (sp_initiated_by p) = false ∧ sp_benchmark_passed p = true
  ∧ sp_benchmark_run_id p = Some benchmark_run_id ∧ sp_reviewer_id p = Some reviewer_id
  ∧ sp_current_version p ≠ sp_proposed_version p
  ∧ ∀ i r, scoring_change_reviews st !! i = Some r → sr_proposal_id r ≠ sp_proposal_id p.

Definition add_review (row : ScoringChangeReview) st : Store USD A :=
  st <| scoring_change_reviews ::= <[next_id (scoring_change_reviews st) := row]> |>.

Lemma add_review_row_ok row st u st' :
  add_review_row row st = (Ok u, st') ↔
  (∀ i r, scoring_change_reviews st !! i = Some r → sr_proposal_id r ≠ sr_proposal_id row)
  ∧ st' = add_review row st.
Proof.
  unfold add_review_row, add_review. destruct u. rewrite bind_gets, bind_raise_if.
  case_bool_decide as Hk.
  - split; [done|]. intros [Hn _]. destruct Hk as [[i r] [Hi Hr]%select_first_Some].
    bools. by destruct (Hn i r).
  - assert (∀ i r, scoring_change_reviews st !! i = Some r → sr_proposal_id r ≠ sr_proposal_id row).
    { rewrite <- eq_None_not_Some, select_first_None in Hk. intros i r Hi Heq.
      specialize (Hk i r Hi). by bools. }
    split; [by intros [= <-]|by intros [_ ->]].
Qed.

Lemma authorize_ok p st row st' :
  authorize_manual_review p st = (Ok row, st') ↔
  ∃ reviewer benchmark, reviewable p reviewer benchmark st
    ∧ row = review_row p reviewer benchmark ∧ st' = add_review row st.
Proof.
  unfold authorize_manual_review, reviewable. rewrite bind_raise_if.
  destruct (automatic _); [split; [done|naive_solver]|].
  destruct (sp_benchmark_passed p), (sp_benchmark_run_id p) as [b|];
    try (split; [done|]; intros (?&?&(?&?&?&?)&?); congruence).
  destruct (sp_reviewer_id p) as [r|]; [|split; [done|]; intros (?&?&(?&?&?&?&?)&?); congruence].
  rewrite bind_raise_if. case_bool_decide as Hv; [split; [done|naive_solver]|].
  rewrite bind_ok. split.
  - intros ([] & st1 & [Hn ->]%add_review_row_ok & [-> ->]%ret_ok). by exists r, b.
  - intros (? & ? & (_ & _ & [= <-] & [= <-] & _ & Hn) & -> & ->).
    exists tt, (add_review (review_row p r b) st). by rewrite add_review_row_ok, ret_ok.
Qed.

(** ** Writes *)

Definition add_report (start_date end_date minimum : Z) st : Store USD A :=
  st <| calibration_reports ::=
    <[next_id (calibration_reports st) := report_of start_date end_date minimum st]> |>.

(** What the rest of the program may do in between: it writes no table of the outcome
    services, and scores and artifacts are added, never changed or deleted. *)
Record grows st st' : Prop := {
  same_decisions : property_decisions st' = property_decisions st;
  same_outcomes : property_outcomes st' = property_outcomes st;
  same_reports : calibration_reports st' = calibration_reports st;
  same_reviews : scoring_change_reviews st' = scoring_change_reviews st;
  same_dialect : db_dialect (core st') = db_dialect (core st);
  more_scores : full_opportunity_scores (core st) ⊆ full_opportunity_scores (core st');
  more_columns : score_columns st ⊆ score_columns st';
  more_artifacts : json_artifacts st ⊆ json_artifacts st'
}.

Inductive write : Store USD A → Store USD A → Prop :=
| w_decision decision score columns st :
    decision_of (di_property_id decision) st = None →
    selectable decision score columns st →
    write st (add_decision decision score columns st)
| w_outcome i d record st :
    valid_record record = true →
    decision_of (rec_property_id record) st = Some (i, d) →
    follows (date_of_datetime (pd_selected_at d)) record →
    held i record st = None →
    write st (add_outcome i record st)
| w_drop p st : write st (drop_outcomes p st)
| w_report start_date end_date minimum st : write st (add_report start_date end_date minimum st)
| w_review p reviewer_id benchmark_run_id st :
    reviewable p reviewer_id benchmark_run_id st →
    write st (add_review (review_row p reviewer_id benchmark_run_id) st).

Definition change st st' : Prop := write st st' ∨ grows st st'.

(** A history: requests served one after the other, and the rest of the program. *)
Inductive step : Store USD A → Store USD A → Prop :=
| served r st : step st (serve r st).2
| grown st st' : grows st st' → step st st'.

Lemma ingest_writes record st k st' :
  valid_record record = true → ingest record st = (Ok k, st') → rtc write st st'.
Proof.
  intros Hv (i & d & Hd & Hf & Hrun)%ingest_ok.
  destruct (held i record st) as [[k' o]|] eqn:Hh; destruct Hrun as [-> ->]; [done|].
  apply rtc_once. by eapply w_outcome.
Qed.

Lemma collect_writes name records st ks st' :
  forallb valid_record records = true → collect_from name records st = (Ok ks, st') →
  rtc write st st'.
Proof.
  revert st ks. induction records as [|record records IH]; intros st ks Hv Hrun.
  - cbn in Hrun. by run_inv.
  - cbn [forallb] in Hv. bools. cbn [collect_from] in Hrun. run_inv.
    etransitivity; [by eapply ingest_writes|]. by eapply IH.
Qed.

Lemma generate_ok start_date end_date minimum st out st' :
  generate start_date end_date minimum st = (Ok out, st') ↔
  out = (next_id (calibration_reports st), report_of start_date end_date minimum st)
  ∧ st' = add_report start_date end_date minimum st.
Proof.
  unfold generate, add_report. rewrite !bind_gets.
  split; [by intros [= <- <-]|by intros [-> ->]].
Qed.

(** A request writes only what [write] lists. *)
Lemma serve_writes r st : rtc write st (serve r st).2.
Proof.
  destruct (serve r st) as [[u|e] st'] eqn:Hrun; cbn.
  2: { unfold serve in Hrun. apply transaction_raise in Hrun as ->. reflexivity. }
  unfold serve in Hrun. rewrite transaction_ok in Hrun.
  destruct r; unfold validated in Hrun; run_inv; bools.
  - match goal with Hd : record_decision _ _ = _ |- _ =>
      apply record_decision_ok in Hd as [(d & _ & _ & ->)|(Hn & _ & s & c & Hs & ->)] end; [reflexivity|].
    apply rtc_once. by constructor.
  - by eapply ingest_writes.
  - by eapply collect_writes.
  - match goal with Hd : delete_imported_source _ _ _ _ = _ |- _ => unfold delete_imported_source in Hd end.
    run_inv. destruct (decision_of _ _) as [[i d]|]; run_inv; [|reflexivity].
    match goal with Hd : delete_outcomes _ _ = _ |- _ => apply delete_outcomes_ok in Hd as [_ ->] end.
    apply rtc_once. constructor.
  - match goal with Hd : enforce_outcome_retention _ _ _ = _ |- _ =>
      unfold enforce_outcome_retention in Hd end.
    run_inv. match goal with Hd : delete_outcomes _ _ = _ |- _ => apply delete_outcomes_ok in Hd as [_ ->] end.
    apply rtc_once. constructor.
  - match goal with Hd : generate _ _ _ _ = _ |- _ => apply generate_ok in Hd as [_ ->] end.
    apply rtc_once. constructor.
  - match goal with Hd : authorize_manual_review _ _ = _ |- _ =>
      apply authorize_ok in Hd as (? & ? & Hr & -> & ->) end.
    apply rtc_once. by constructor.
Qed.

(** No request touches the scores, the evidence or the opportunities. *)
Lemma serve_keeps_core r st :
  core (serve r st).2 = core st ∧ score_columns (serve r st).2 = score_columns st
  ∧ json_artifacts (serve r st).2 = json_artifacts st.
Proof.
  induction (serve_writes r st) as [|st1 st2 st3 Hw _ IH]; [done|].
  destruct Hw; exact IH.
Qed.

Lemma steps_change st st' : rtc step st st' → rtc change st st'.
Proof.
  induction 1 as [|st st1 st2 Hs _ IH]; [done|]. etransitivity; [|exact IH].
  destruct Hs as [r st|st st' Hg]; [|apply rtc_once; by right].
  apply (rtc_subrel write); [intros ? ? ?; by left|apply serve_writes].
Qed.

(** ** The invariant *)

(** The score and the snapshot of a decision are of its opportunity and of one scan, and
    the decision holds their values. *)
Definition grounded (d : PropertyDecision A) st : Prop :=
  ∃ score columns e,
    get_score (pd_full_score_id d) st = Some (score, columns)
    ∧ json_artifacts st !! pd_evidence_snapshot_id d = Some e
    ∧ fs_opportunity_id score = pd_opportunity_id d
    ∧ fs_scan_run_id score = pd_scan_run_id d
    ∧ supports (pd_opportunity_id d) (pd_scan_run_id d) e
    ∧ pd_score_version_at_selection d = sco_scoring_version columns
    ∧ full_score_total (pd_selection_context d) = sco_total_score columns.

Record decisions_ok st : Prop := {
  decided_once i j d d' :
    property_decisions st !! i = Some d → property_decisions st !! j = Some d' →
    pd_property_id d = pd_property_id d' → i = j;
  decision_grounded i d : property_decisions st !! i = Some d → grounded d st
}.

(** What the validators establish of a stored outcome. *)
Definition truthful (o : PropertyOutcome A) : Prop :=
  valid_counts (po_counts o) = true
  ∧ (po_truth_basis o = provider_reported → po_source_type o = provider)
  ∧ (po_truth_basis o = operator_verified → po_source_type o = operator)
  ∧ (po_truth_basis o = estimated → num_ltb (num_Z 0) (reported_revenue (po_counts o)) = false).

Definition outcome_key (o : PropertyOutcome A) : Z * string * string :=
  (po_property_decision_id o, po_source_name o, po_source_record_id o).

Record outcomes_ok st : Prop := {
  counted_once k k' o o' :
    property_outcomes st !! k = Some o → property_outcomes st !! k' = Some o' →
    outcome_key o = outcome_key o' → k = k';
  outcome_dated k o :
    property_outcomes st !! k = Some o →
    ∃ d, property_decisions st !! po_property_decision_id o = Some d
         ∧ date_of_datetime (pd_selected_at d) ≤ po_period_date o;
  outcome_truthful k o : property_outcomes st !! k = Some o → truthful o
}.

Record reviews_ok st : Prop := {
  reviewed_once i j r r' :
    scoring_change_reviews st !! i = Some r → scoring_change_reviews st !! j = Some r' →
    sr_proposal_id r = sr_proposal_id r' → i = j;
  review_sound i r :
    scoring_change_reviews st !! i = Some r →
    automatic (sr_initiated_by r) = false ∧ sr_benchmark_passed r = true
    ∧ sr_current_version r ≠ sr_proposed_version r
    ∧ sr_authorized_for_manual_application r = true ∧ sr_applied_automatically r = false;
  report_inert i r : calibration_reports st !! i = Some r → rp_scoring_changes_applied r = false
}.

Lemma decision_of_Some p st i d :
  decision_of p st = Some (i, d) → property_decisions st !! i = Some d ∧ pd_property_id d = p.
Proof. unfold decision_of. intros [? ?]%select_first_Some. by bools. Qed.

Lemma decision_of_None p st i d :
  decision_of p st = None → property_decisions st !! i = Some d → pd_property_id d ≠ p.
Proof.
  unfold decision_of. rewrite select_first_None. intros Hn Hi Heq. specialize (Hn i d Hi). by bools.
Qed.

Lemma same_source_key i name rid (o : PropertyOutcome A) :
  same_source i name rid o = true ↔ outcome_key o = (i, name, rid).
Proof.
  unfold same_source, outcome_key. rewrite !andb_true_iff, !bool_decide_eq_true. naive_solver.
Qed.

Lemma held_None i record st k o :
  held i record st = None → property_outcomes st !! k = Some o →
  outcome_key o ≠ (i, rec_source_name record, rec_source_record_id record).
Proof.
  unfold held. rewrite select_first_None. intros Hn Hk Heq%same_source_key.
  specialize (Hn k o Hk). congruence.
Qed.

Lemma source_truthful i dialect record :
  valid_record record = true → truthful (outcome_row_of i dialect record).
Proof.
  unfold valid_record, source_truth, truthful. cbn. intros Hv. bools.
  split_and!; [done|intros Hb|intros Hb|intros Hb]; rewrite Hb in *;
    repeat match goal with Hn : _ && _ = false |- _ => apply andb_false_iff in Hn as [?|?] end; bools; try done.
Qed.

Lemma get_score_grows i st st' x :
  grows st st' → get_score i st = Some x → get_score i st' = Some x.
Proof.
  intros Hg. unfold get_score.
  destruct (full_opportunity_scores (core st) !! i) as [s|] eqn:Hs; [|done].
  destruct (score_columns st !! i) as [c|] eqn:Hc; [|done].
  by rewrite (lookup_weaken _ _ _ _ Hs (more_scores _ _ Hg)), (lookup_weaken _ _ _ _ Hc (more_columns _ _ Hg)).
Qed.

Lemma grounded_grows d st st' : grows st st' → grounded d st → grounded d st'.
Proof.
  intros Hg (score & columns & e & Hs & He & ?). exists score, columns, e. split_and!; try tauto.
  - by eapply get_score_grows.
  - by eapply lookup_weaken, (more_artifacts _ _ Hg).
Qed.

Lemma lookup_new {R} (t : gmap Z R) r k x :
  <[next_id t := r]> t !! k = Some x ↔ k = next_id t ∧ x = r ∨ t !! k = Some x.
Proof.
  rewrite lookup_insert_Some. split; [naive_solver|].
  intros [[-> ->]|Hk]; [by left|right]. split; [|done]. intros <-. by rewrite next_id_fresh in Hk.
Qed.

(** Rows stay pairwise distinct when a row with an unused key joins them. *)
Lemma new_key_unique {R K} (key : R → K) (t : gmap Z R) r :
  (∀ i j x y, t !! i = Some x → t !! j = Some y → key x = key y → i = j) →
  (∀ i x, t !! i = Some x → key x ≠ key r) →
  ∀ i j x y, <[next_id t := r]> t !! i = Some x → <[next_id t := r]> t !! j = Some y →
  key x = key y → i = j.
Proof.
  intros Hu Hn i j x y [[-> ->]|Hi]%lookup_new [[-> ->]|Hj]%lookup_new Heq.
  - done.
  - by destruct (Hn _ _ Hj).
  - by destruct (Hn _ _ Hi).
  - by eapply Hu.
Qed.

Lemma change_keeps_decisions st st' :
  change st st' → property_decisions st ⊆ property_decisions st'.
Proof.
  intros [Hw|Hgr]; [destruct Hw; try done|by rewrite (same_decisions _ _ Hgr)].
  unfold add_decision. cbn. apply insert_subseteq, next_id_fresh.
Qed.

Lemma change_decisions st st' : change st st' → decisions_ok st → decisions_ok st'.
Proof.
  intros Hw [Hu Hg]. destruct Hw as [Hw|Hgr]; [destruct Hw as [decision score columns st Hn Hs|i d record st _ _ _ _|p st
    |start_date end_date minimum st|p r b st _]|]; try by split.
  - destruct Hs as (_ & Hscore & Hopp & e & He & Hsup). split.
    + unfold add_decision. cbn. apply new_key_unique; [done|]. intros i d Hd. by eapply decision_of_None.
    + intros i d [[-> ->]|Hd]%lookup_new; [|by apply Hg in Hd].
      exists score, columns, e. by split_and!.
  - split; rewrite (same_decisions _ _ Hgr); [done|]. intros i d Hd.
    by eapply grounded_grows, Hg.
Qed.

Lemma outcomes_kept st st' :
  property_decisions st ⊆ property_decisions st' → property_outcomes st' = property_outcomes st →
  outcomes_ok st → outcomes_ok st'.
Proof.
  intros Hd Ho [Hu Hdate Ht]. split; rewrite Ho; [done| |done].
  intros k o (d & Hl & Hle)%Hdate. exists d. split; [by eapply lookup_weaken|done].
Qed.

Lemma change_outcomes st st' : change st st' → outcomes_ok st → outcomes_ok st'.
Proof.
  intros Hw Hok. pose proof (change_keeps_decisions _ _ Hw) as Hsub.
  destruct Hw as [Hw|Hgr]; [destruct Hw as [decision score columns st Hn Hs|i d record st Hv Hd Hf Hh|p st
    |start_date end_date minimum st|p r b st _]|];
    try (by apply (outcomes_kept st)).
  - destruct Hok as [Hu Hdate Ht]. apply decision_of_Some in Hd as [Hd _]. split.
    + unfold add_outcome. cbn. apply new_key_unique; [done|]. intros k o Hk. by eapply held_None.
    + intros k o [[-> ->]|Hk]%lookup_new; [|by apply Hdate in Hk].
      exists d. split; [done|]. apply Hf.
    + intros k o [[-> ->]|Hk]%lookup_new; [by apply source_truthful|by apply Ht in Hk].
  - destruct Hok as [Hu Hdate Ht]. split.
    + intros k k' o o' [Hk _]%drop_outcomes_lookup [Hk' _]%drop_outcomes_lookup. by eapply Hu.
    + intros k o [Hk _]%drop_outcomes_lookup. by apply Hdate in Hk.
    + intros k o [Hk _]%drop_outcomes_lookup. by apply Ht in Hk.
  - apply (outcomes_kept st); [done|by destruct Hgr|done].
Qed.

Lemma report_of_inert start_date end_date minimum st :
  rp_scoring_changes_applied (report_of start_date end_date minimum st) = false.
Proof. unfold report_of. by destruct (foldl _ _ _). Qed.

Lemma change_reviews st st' : change st st' → reviews_ok st → reviews_ok st'.
Proof.
  intros Hw [Hu Hs Hr]. destruct Hw as [Hw|Hgr]; [destruct Hw as [decision score columns st _ _|i d record st _ _ _ _|p st
    |start_date end_date minimum st|p r b st Hrev]|]; try by split.
  - split; [done|done|]. intros i x [[-> ->]|Hx]%lookup_new; [by apply report_of_inert|by apply Hr in Hx].
  - destruct Hrev as (Ha & Hb & _ & _ & Hv & Hn). split; [|  |done].
    + unfold add_review. cbn. by apply new_key_unique.
    + intros i x [[-> ->]|Hx]%lookup_new; [by cbn|by apply Hs in Hx].
  - split; rewrite ?(same_reviews _ _ Hgr), ?(same_reports _ _ Hgr); done.
Qed.

Record store_ok st : Prop := {
  store_decisions : decisions_ok st;
  store_outcomes : outcomes_ok st;
  store_reviews : reviews_ok st
}.

Lemma steps_store_ok st st' : rtc step st st' → store_ok st → store_ok st'.
Proof.
  intros Hs%steps_change. induction Hs as [|st st1 st2 Hw _ IH]; [done|]. intros [Hd Ho Hr].
  apply IH. split; [by eapply change_decisions|by eapply change_outcomes|by eapply change_reviews].
Qed.

Lemma steps_keep_decisions st st' :
  rtc step st st' → property_decisions st ⊆ property_decisions st'.
Proof.
  intros Hs%steps_change. induction Hs as [|st st1 st2 Hw _ IH]; [done|].
  etransitivity; [by apply change_keeps_decisions|done].
Qed.

(** The tables of the outcome services before the first request. *)
Definition no_outcomes st : Prop :=
  property_decisions st = ∅ ∧ property_outcomes st = ∅ ∧ calibration_reports st = ∅
  ∧ scoring_change_reviews st = ∅.

Lemma no_outcomes_ok st : no_outcomes st → store_ok st.
Proof.
  intros (Hd & Ho & Hr & Hv).
  split; split; rewrite ?Hd, ?Ho, ?Hr, ?Hv; intros *; rewrite lookup_empty; done.
Qed.
End proofs.
