(* ===== verification/OutcomesTheorems.v ===== *)
(** * OutcomesTheorems: decisions stay, outcomes count once

    The guarantees of the outcome services over every history of requests and of the rest
    of the program, and the meaning of a calibration report. *)
From S2P Require Import Prelude.
From S2P Require Import Binary64.
From S2P Require Import Schema.
From S2P Require Import OpportunityReview.
From S2P Require Import LeadRouting.
From S2P Require Import Numbers.
From S2P Require Import Outcomes.
From S2P Require Import OutcomesProofs.
From Stdlib Require Import QArith Lqa.
#[global] Open Scope Z_scope.

(** ** Importing twice *)

Section import.
Context {USD A : Type} `{Amount USD} `{Num A} `{Stats A}.
Implicit Types (st : Store USD A) (record : PropertyOutcomeRecord A).

(** The record is stored as [k]. *)
Definition absorbed (k : Z) record st : Prop := ingest record st = (Ok k, st).

Lemma held_later i record j record' st x :
  held i record st = Some x → held i record (add_outcome j record' st) = Some x.
Proof.
  unfold held, select_first, add_outcome. cbn [property_outcomes set_field].
  rewrite select_snoc. by destruct (select _ _).
Qed.

Lemma held_new i record st :
  held i record st = None →
  ∃ o, held i record (add_outcome i record st) = Some (next_id (property_outcomes st), o).
Proof.
  unfold held, select_first, add_outcome. cbn [property_outcomes set_field].
  rewrite select_snoc, head_None. intros ->. cbn.
  assert (same_source i (rec_source_name record) (rec_source_record_id record)
    (outcome_row_of i (db_dialect (core st)) record) = true) as -> by by apply same_source_key.
  by eexists.
Qed.

Lemma absorbed_held k record st :
  absorbed k record st ↔
  ∃ i d o, decision_of (rec_property_id record) st = Some (i, d)
           ∧ follows (date_of_datetime (pd_selected_at d)) record ∧ held i record st = Some (k, o).
Proof.
  unfold absorbed. rewrite ingest_ok. split.
  - intros (i & d & Hd & Hf & Hh). exists i, d. destruct (held i record st) as [[k' o]|].
    + destruct Hh as [-> _]. by exists o.
    + destruct Hh as [_ Hst]. pose proof (f_equal property_outcomes Hst) as Ho.
      unfold add_outcome in Ho. cbn in Ho.
      pose proof (next_id_fresh (property_outcomes st)) as Hn. rewrite Ho in Hn at 2.
      by rewrite lookup_insert_eq in Hn.
  - intros (i & d & o & Hd & Hf & Hh). exists i, d. by rewrite Hh.
Qed.

Lemma ingest_absorbs record st k st' : ingest record st = (Ok k, st') → absorbed k record st'.
Proof.
  intros (i & d & Hd & Hf & Hh)%ingest_ok. apply absorbed_held. exists i, d.
  destruct (held i record st) as [[k' o]|] eqn:Hheld; destruct Hh as [-> ->].
  - by exists o.
  - destruct (held_new i record st Hheld) as [o Ho]. by exists o.
Qed.

Lemma absorbed_later k record record' k' st st' :
  absorbed k record st → ingest record' st = (Ok k', st') → absorbed k record st'.
Proof.
  rewrite absorbed_held. intros (i & d & o & Hd & Hf & Hh) (j & d' & _ & _ & Hrun)%ingest_ok.
  apply absorbed_held. exists i, d, o. destruct (held j record' st) as [[? ?]|].
  - by destruct Hrun as [_ ->].
  - destruct Hrun as [_ ->]. split_and!; [done|done|by apply held_later].
Qed.

Lemma absorbed_collect name records k record st ks st' :
  absorbed k record st → collect_from name records st = (Ok ks, st') → absorbed k record st'.
Proof.
  revert st ks. induction records as [|record' records IH]; intros st ks Ha Hrun; cbn in Hrun.
  - by run_inv.
  - run_inv. eapply IH; [|done]. by eapply absorbed_later.
Qed.

Lemma collect_again name records st ks st' :
  collect_from name records st = (Ok ks, st') → collect_from name records st' = (Ok ks, st').
Proof.
  revert st ks. induction records as [|record records IH]; intros st ks Hrun.
  - by cbn in Hrun; run_inv.
  - cbn [collect_from] in Hrun |- *. rewrite bind_raise_if in *.
    destruct (negb _); [done|]. apply bind_ok in Hrun as (k & st1 & Hi & Hrun).
    apply bind_ok in Hrun as (ks' & st2 & Hc & [-> ->]%ret_ok).
    assert (absorbed k record st2) as Ha by by eapply absorbed_collect, Hc; eapply ingest_absorbs.
    rewrite (bind_run _ _ _ _ _ Ha). by rewrite (bind_run _ _ _ _ _ (IH _ _ Hc)).
Qed.

(** Importing is idempotent.  When an adapter's records were collected, collecting
    the same records again returns the same row ids and writes nothing, so a repeated
    import never counts an outcome twice; and every record of the batch is stored. *)
Theorem import_is_idempotent name records st ks st' :
  collect_from name records st = (Ok ks, st') →
  collect_from name records st' = (Ok ks, st')
  ∧ Forall2 (λ record k, ingest record st' = (Ok k, st')) records ks
  ∧ Forall (λ record, rec_source_name record = name) records.
Proof.
  intros Hrun. split; [by apply (collect_again _ _ st)|].
  revert st ks Hrun. induction records as [|record records IH]; intros st ks Hrun.
  - cbn in Hrun. by run_inv.
  - cbn [collect_from] in Hrun. rewrite bind_raise_if in Hrun.
    case_bool_decide as Hn; [|done]. apply bind_ok in Hrun as (k & st1 & Hi & Hrun).
    apply bind_ok in Hrun as (ks' & st2 & Hc & [-> ->]%ret_ok).
    destruct (IH _ _ Hc) as [Hall Hnames]. split; [|by constructor].
    constructor; [|done]. by eapply absorbed_collect, Hc; eapply ingest_absorbs.
Qed.
End import.

(** ** Deletion *)

Section deletion.
Context {USD A : Type} `{Amount USD} `{Num A} `{Stats A}.
Implicit Types (st : Store USD A).

Lemma filter_length_perm {T} (p : T → bool) (l l' : list T) :
  l ≡ₚ l' → length (List.filter p l) = length (List.filter p l').
Proof.
  induction 1 as [|x l l' _ IH|x y l|l l' l'' _ IH1 _ IH2]; cbn; [done| | |congruence].
  - destruct (p x); cbn; congruence.
  - by destruct (p x), (p y).
Qed.

Lemma length_select {R} (p : R → bool) (t : gmap Z R) :
  length (select (λ _ r, p r) t) = length (List.filter (λ kr, p kr.2) (map_to_list t)).
Proof.
  unfold select, table_rows.
  rewrite <- (filter_length_perm _ _ _ (merge_sort_Permutation key_le (map_to_list t))).
  generalize (merge_sort key_le (map_to_list t)). intros l.
  induction l as [|[k r] l IH]; cbn; [done|]. destruct (p r); cbn; congruence.
Qed.

(** The rows of a deletion and the rows it leaves add up. *)
Lemma select_filter_size {R} (p : R → bool) (t : gmap Z R) :
  (length (select (λ _ r, p r) t) + size (filter (λ kr : Z * R, p kr.2 = false) t) = size t)%nat.
Proof.
  rewrite length_select. induction t as [|k r t Hk IH] using map_ind.
  { by rewrite map_to_list_empty, map_filter_empty, map_size_empty. }
  rewrite (filter_length_perm _ _ _ (map_to_list_insert t k r Hk)), map_size_insert_None by done.
  cbn. destruct (p r) eqn:Hp.
  - rewrite map_filter_insert_False by (cbn; congruence). rewrite delete_id by done. cbn. lia.
  - rewrite map_filter_insert_True by done. rewrite map_size_insert_None; [lia|].
    by rewrite map_lookup_filter_None; left.
Qed.

(** Deletion is exact and reserved to the privacy administrator.  Any other role gets a
    PermissionError and nothing changes.  For the administrator, deleting an imported source
    removes the outcomes of that property and source, retention removes the outcomes of the
    periods before the date, every other row stays, and the number returned is the number of
    rows removed. *)
Theorem deletion_is_exact st access :
  let others p st' := ∀ k o, property_outcomes st' !! k = Some o ↔
    property_outcomes st !! k = Some o ∧ p o = false in
  let counts n st' := n + Z.of_nat (size (property_outcomes st'))
    = Z.of_nat (size (property_outcomes st)) in
  (ac_role access ≠ role_privacy_admin →
   (∀ p n, delete_imported_source p n access st
           = (Raise (PermissionError "outcome_deletion_requires_privacy_admin"), st))
   ∧ ∀ before, enforce_outcome_retention before access st
               = (Raise (PermissionError "outcome_retention_requires_privacy_admin"), st))
  ∧ (ac_role access = role_privacy_admin →
     (∀ p name, ∃ n st', delete_imported_source p name access st = (Ok n, st')
        ∧ counts n st'
        ∧ others (λ o, match decision_of p st with
                       | Some (i, _) => bool_decide (po_property_decision_id o = i)
                                        && bool_decide (po_source_name o = name)
                       | None => false
                       end) st')
     ∧ ∀ before, ∃ n st', enforce_outcome_retention before access st = (Ok n, st')
        ∧ counts n st' ∧ others (λ o, po_period_date o <? before) st').
Proof.
  intros others counts. unfold delete_imported_source, enforce_outcome_retention, admin.
  split; intros Hrole.
  { by split; intros; rewrite bind_raise_if, bool_decide_false. }
  assert (∀ p, ∃ n st', delete_outcomes p st = (Ok n, st') ∧ counts n st' ∧ others p st') as Hdel.
  { intros p. eexists _, _. rewrite delete_outcomes_ok. split; [done|]. split.
    - unfold counts. pose proof (select_filter_size p (property_outcomes st)) as Hs.
      unfold drop_outcomes. cbn. lia.
    - intros k o. apply drop_outcomes_lookup. }
  split; [intros p name|intros before]; rewrite bind_raise_if, bool_decide_true by done; cbn [negb].
  - rewrite bind_gets. destruct (decision_of p st) as [[i d]|]; [apply Hdel|].
    exists 0, st. unfold counts, others. split_and!; [done|lia|naive_solver].
  - apply Hdel.
Qed.
End deletion.

(** ** The calibration report *)

Section report.
Context {USD : Type} `{Amount USD}.
Implicit Types (st : Store USD Q) (row : PropertyOutcome Q) (rows : list (PropertyOutcome Q)).

(** The totals of the report for one basis of truth. *)
Definition totals_of (b : TruthBasis) (r : CalibrationReport Q) : CountField → Q :=
  match b with
  | observed => rp_observed_totals r
  | provider_reported => rp_reported_totals r
  | operator_verified => rp_operator_verified_totals r
  | estimated => rp_estimated_totals r
  end.

Definition part_of (b : TruthBasis) (t : Totals Q) : CountField → Q :=
  match b with
  | observed => observed_totals t
  | provider_reported => reported_totals t
  | operator_verified => operator_verified_totals t
  | estimated => estimated_totals t
  end.

(** What a row adds to the total of [b] and [f]. *)
Definition share (b : TruthBasis) (f : CountField) row : Q :=
  if bool_decide (po_truth_basis row = b) then count_value (po_counts row) f else 0%Q.

Lemma count_row_part b f t row : (part_of b (count_row t row) f == part_of b t f + share b f row)%Q.
Proof.
  unfold count_row, share, _add_totals. destruct (po_truth_basis row), b;
    cbn [part_of observed_totals reported_totals operator_verified_totals estimated_totals];
    case_bool_decide; try done; unfold_num; lra.
Qed.

Lemma count_rows_part b f rows t :
  (part_of b (foldl count_row t rows) f == part_of b t f + total (map (share b f) rows))%Q.
Proof.
  revert t. induction rows as [|row rows IH]; intros t; cbn; [lra|].
  rewrite IH, count_row_part. lra.
Qed.

Abbreviation decisions := (list (Z * PropertyDecision Q)).

Lemma count_decisions_part b f rows (ds : decisions) acc :
  (part_of b (foldl (count_decision rows) acc ds).1 f
   == part_of b acc.1 f + total (map (λ d, total (map (share b f) (rows_of d.1 rows))) ds))%Q.
Proof.
  revert acc. induction ds as [|d ds IH]; intros [t ps]; cbn [foldl map total]; [lra|].
  rewrite IH. unfold count_decision.
  destruct (rows_of d.1 rows) as [|row own] eqn:Hown; cbn [fst]; [cbn [map total]; lra|].
  rewrite count_rows_part. lra.
Qed.

Lemma count_decisions_properties rows (ds : decisions) acc :
  (foldl (count_decision rows) acc ds).2
  = acc.2 ++ map (λ d, report_property d.2 (rows_of d.1 rows))
               (List.filter (λ d, negb (bool_decide (rows_of d.1 rows = []))) ds).
Proof.
  revert acc. induction ds as [|d ds IH]; intros [t ps]; cbn [foldl]; [by rewrite app_nil_r|].
  rewrite IH. unfold count_decision. cbn [List.filter].
  destruct (rows_of d.1 rows) as [|row own] eqn:Hown; cbn; [done|]. by rewrite <- app_assoc, Hown.
Qed.

Lemma ids_NoDup {R} (t : gmap Z R) : NoDup (table_rows t).*1.
Proof. unfold table_rows. rewrite merge_sort_Permutation. apply NoDup_fst_map_to_list. Qed.

Lemma rows_perm {R} (t : gmap Z R) : table_rows t ≡ₚ map_to_list t.
Proof. apply merge_sort_Permutation. Qed.

Lemma elem_of_table_rows {R} (t : gmap Z R) k r : (k, r) ∈ table_rows t ↔ t !! k = Some r.
Proof. unfold table_rows. by rewrite merge_sort_Permutation, elem_of_map_to_list. Qed.

(** The rows of the range, and what they are counted for. *)
Definition in_range (start_date end_date : Z) row : bool :=
  (start_date <=? po_period_date row) && (po_period_date row <=? end_date).

Lemma elem_of_between start_date end_date st row :
  row ∈ outcomes_between start_date end_date st ↔
  ∃ k, property_outcomes st !! k = Some row ∧ in_range start_date end_date row = true.
Proof.
  unfold outcomes_between. rewrite list_elem_of_fmap. split.
  - intros ([k o] & -> & [Hk Hp]%elem_of_select). by exists k.
  - intros (k & Hk & Hp). exists (k, row). split; [done|]. by apply elem_of_select.
Qed.

Definition reference_total (b : TruthBasis) (f : CountField) (start_date end_date : Z)
    (outcomes : gmap Z (PropertyOutcome Q)) : Q :=
  total (map (λ ko, if in_range start_date end_date ko.2 then share b f ko.2 else 0%Q)
    (map_to_list outcomes)).

Lemma report_totals b f start_date end_date minimum st :
  totals_of b (report_of start_date end_date minimum st) f
  = part_of b (foldl (count_decision (outcomes_between start_date end_date st)) (no_totals, [])
                 (table_rows (property_decisions st))).1 f.
Proof. unfold report_of. destruct (foldl _ _ _). by destruct b. Qed.

Lemma report_total_ok b f start_date end_date minimum st :
  outcomes_ok st →
  (totals_of b (report_of start_date end_date minimum st) f
   == reference_total b f start_date end_date (property_outcomes st))%Q.
Proof.
  intros Hok. rewrite report_totals, count_decisions_part. cbn [fst].
  set (rows := outcomes_between start_date end_date st).
  rewrite <- (map_map fst (λ i, total (map (share b f) (rows_of i rows)))).
  unfold rows_of. rewrite (total_partition po_property_decision_id (share b f)); [|apply ids_NoDup|].
  - unfold rows, outcomes_between, reference_total, select. rewrite map_map.
    rewrite (total_filter _ (λ ko, share b f ko.2)).
    rewrite (total_perm _ _ (Permutation_map _ (rows_perm (property_outcomes st)))).
    assert (part_of b no_totals f == 0)%Q as -> by by destruct b.
    unfold in_range. lra.
  - intros row (k & Hk & _)%elem_of_between. apply (outcome_dated _ Hok) in Hk as (d & Hd & _).
    apply list_elem_of_fmap. exists (po_property_decision_id row, d). split; [done|].
    by apply elem_of_table_rows.
Qed.

(** The decisions with an outcome in the range. *)
Definition covered rows (ds : decisions) : decisions :=
  List.filter (λ d, negb (bool_decide (rows_of d.1 rows = []))) ds.

Lemma elem_of_covered rows (ds : decisions) d :
  d ∈ covered rows ds ↔ d ∈ ds ∧ ∃ row, row ∈ rows_of d.1 rows.
Proof.
  unfold covered. rewrite !list_elem_of_In, filter_In, negb_true_iff, bool_decide_eq_false.
  split; intros [Hd Hr]; (split; [done|]).
  - destruct (rows_of d.1 rows) as [|row own]; [done|]. exists row. by left.
  - destruct Hr as [row Hr]. intros Heq. rewrite Heq in Hr. by apply not_elem_of_nil in Hr.
Qed.

Lemma elem_of_rows_of i rows row :
  row ∈ rows_of i rows ↔ row ∈ rows ∧ po_property_decision_id row = i.
Proof. unfold rows_of. by rewrite !list_elem_of_In, filter_In, bool_decide_eq_true. Qed.

Lemma covered_NoDup rows (ds : decisions) : NoDup ds.*1 → NoDup (covered rows ds).*1.
Proof.
  unfold covered. induction ds as [|d ds IH]; cbn; [done|].
  intros [Hd Hnd]%NoDup_cons. case_match; [|by apply IH]. cbn. apply NoDup_cons. split; [|by apply IH].
  intros (d' & Heq & Hin)%list_elem_of_fmap. apply Hd. rewrite Heq.
  apply list_elem_of_fmap_2. by apply list_elem_of_In, filter_In in Hin as [?%list_elem_of_In _].
Qed.

Lemma covered_ids st rows :
  outcomes_ok st → (∀ row, row ∈ rows → ∃ k, property_outcomes st !! k = Some row) →
  (covered rows (table_rows (property_decisions st))).*1 ≡ₚ remove_dups (map po_property_decision_id rows).
Proof.
  intros Hok Hrows. apply NoDup_Permutation.
  - apply covered_NoDup, ids_NoDup.
  - apply NoDup_remove_dups.
  - intros i. rewrite elem_of_remove_dups, !list_elem_of_fmap. split.
    + intros (d & -> & [_ [row [Hr Hi]%elem_of_rows_of]]%elem_of_covered). by exists row.
    + intros (row & -> & Hr). destruct (Hrows row Hr) as [k Hk].
      apply (outcome_dated _ Hok) in Hk as (d & Hd & _).
      exists (po_property_decision_id row, d). split; [done|]. apply elem_of_covered.
      split; [by apply elem_of_table_rows|]. exists row. by apply elem_of_rows_of.
Qed.

Lemma report_properties start_date end_date minimum st :
  let rows := outcomes_between start_date end_date st in
  let properties := map (λ d, report_property d.2 (rows_of d.1 rows))
                      (covered rows (table_rows (property_decisions st))) in
  let r := report_of start_date end_date minimum st in
  rp_property_count r = Z.of_nat (length properties)
  ∧ (rp_cost_per_validated_opportunity_usd r = None ↔
     ∀ q, q ∈ properties → rq_lead_volume q ≤ 0).
Proof.
  intros rows properties r. unfold r, report_of. fold rows.
  pose proof (count_decisions_properties rows (table_rows (property_decisions st)) (no_totals, []))
    as Hp. destruct (foldl _ _ _) as [totals ps]. cbn in Hp. subst ps. fold properties.
  split; [done|]. cbn. destruct (List.filter _ _) as [|q l] eqn:Hf; cbn.
  - split; [|done]. intros _ q Hq. destruct (Z.ltb_spec 0 (rq_lead_volume q)) as [Hlt|]; [|lia].
    exfalso. assert (q ∈ []) as []%not_elem_of_nil. rewrite <- Hf.
    apply list_elem_of_In, filter_In. split; [by apply list_elem_of_In|]. by apply Z.ltb_lt.
  - assert (Z.of_nat (S (length l)) =? 0 = false) as -> by (apply Z.eqb_neq; lia).
    split; [done|]. intros Hall. exfalso.
    assert (In q (q :: l)) as Hin by by left. rewrite <- Hf in Hin.
    apply filter_In in Hin as [Hq Hlt]. apply list_elem_of_In, Hall in Hq. lia.
Qed.

Lemma sum_Z_pos (l : list Z) : Forall (Z.le 0) l → (sum_Z l ≤ 0 ↔ Forall (λ x, x = 0) l).
Proof.
  unfold sum_Z. induction 1 as [|x l Hx Hl IH]; cbn; [done|].
  assert (0 ≤ foldr Z.add 0 l) by (clear IH; induction Hl; cbn; lia).
  rewrite Forall_cons, <- IH. lia.
Qed.

(** An outcome that shows a qualified lead, as observed or operator-verified. *)
Definition shows_a_lead row : Prop := is_verified row = true ∧ 0 < qualified_leads (po_counts row).

Lemma counts_pos row : valid_counts (po_counts row) = true → 0 ≤ qualified_leads (po_counts row).
Proof. unfold valid_counts. cbn. intros Hv. by bools. Qed.

Lemma lead_volume_pos (d : PropertyDecision Q) rows :
  (∀ row, row ∈ rows → 0 ≤ qualified_leads (po_counts row)) →
  (rq_lead_volume (report_property d rows) ≤ 0 ↔ ∀ row, row ∈ rows → ¬ shows_a_lead row).
Proof.
  intros Hpos. unfold report_property, shows_a_lead. cbn.
  rewrite sum_Z_pos; rewrite Forall_map, Forall_forall; cbn; setoid_rewrite list_elem_of_In;
    setoid_rewrite filter_In; setoid_rewrite <- list_elem_of_In.
  - split.
    + intros Hz row Hr [Hv Hlt]. specialize (Hz row (conj Hr Hv)). lia.
    + intros Hn row [Hr Hv]. specialize (Hpos row Hr).
      destruct (Z.eq_dec (qualified_leads (po_counts row)) 0) as [|Hne]; [done|].
      destruct (Hn row Hr). split; [done|lia].
  - intros row [Hr _]. by apply Hpos.
Qed.

Lemma report_cost_ok start_date end_date minimum st :
  outcomes_ok st →
  rp_cost_per_validated_opportunity_usd (report_of start_date end_date minimum st) = None ↔
  ∀ row, row ∈ outcomes_between start_date end_date st → ¬ shows_a_lead row.
Proof.
  intros Hok. set (rows := outcomes_between start_date end_date st).
  assert (∀ row, row ∈ rows → 0 ≤ qualified_leads (po_counts row)) as Hpos.
  { intros row (k & Hk & _)%elem_of_between. by apply counts_pos, (outcome_truthful _ Hok k row). }
  destruct (report_properties start_date end_date minimum st) as [_ ->]. fold rows. split.
  - intros Hall row Hrow. pose proof Hrow as (k & Hk & _)%elem_of_between.
    apply (outcome_dated _ Hok) in Hk as (d & Hd & _).
    assert (row ∈ rows_of (po_property_decision_id row) rows) as Hown by by apply elem_of_rows_of.
    specialize (Hall (report_property d (rows_of (po_property_decision_id row) rows))).
    eapply lead_volume_pos; [|apply Hall|done].
    { intros row' [Hr _]%elem_of_rows_of. by apply Hpos. }
    apply list_elem_of_fmap. exists (po_property_decision_id row, d). split; [done|].
    apply elem_of_covered. split; [by apply elem_of_table_rows|by exists row].
  - intros Hno q (d & -> & _)%list_elem_of_fmap. apply lead_volume_pos;
      intros row [Hr _]%elem_of_rows_of; [by apply Hpos|by apply Hno].
Qed.

(** *** Segments *)

Lemma sum_Z_plus {T} (f g : T → Z) l :
  sum_Z (map (λ x, f x + g x) l) = sum_Z (map f l) + sum_Z (map g l).
Proof. unfold sum_Z. induction l as [|x l IH]; cbn; [done|]. rewrite IH. lia. Qed.

Lemma sum_Z_perm (l l' : list Z) : l ≡ₚ l' → sum_Z l = sum_Z l'.
Proof. unfold sum_Z. induction 1; cbn; lia. Qed.

Lemma sum_Z_ext {T} (f g : T → Z) l : (∀ x, x ∈ l → f x = g x) → sum_Z (map f l) = sum_Z (map g l).
Proof. intros Hfg. f_equal. apply map_ext_in. intros x Hx. by apply Hfg, list_elem_of_In. Qed.

Lemma sum_Z_ones {T} (l : list T) : Z.of_nat (length l) = sum_Z (map (λ _, 1) l).
Proof. unfold sum_Z. induction l as [|x l IH]; cbn; lia. Qed.

(** The sum over one key of many. *)
Lemma sum_Z_single {T} `{EqDecision T} (k : T) (w : Z) keys :
  NoDup keys → k ∈ keys → sum_Z (map (λ k', if bool_decide (k = k') then w else 0) keys) = w.
Proof.
  intros Hnd. induction Hnd as [|k' keys Hk' Hnd IH]; [set_solver|]. intros Hin. cbn.
  fold (sum_Z (map (λ k', if bool_decide (k = k') then w else 0) keys)).
  case_bool_decide as Heq.
  - subst k'. rewrite (sum_Z_ext _ (λ _, 0)).
    + clear. unfold sum_Z. induction keys; cbn in *; lia.
    + intros j Hj. rewrite bool_decide_false; [done|congruence].
  - rewrite IH; [lia|set_solver].
Qed.

Lemma sum_Z_groups {T V} `{EqDecision V} (f : T → V) (w : T → Z) keys items :
  NoDup keys → (∀ x, x ∈ items → f x ∈ keys) →
  sum_Z (map (λ k, sum_Z (map w (List.filter (λ x, bool_decide (f x = k)) items))) keys)
  = sum_Z (map w items).
Proof.
  intros Hnd. induction items as [|x items IH]; intros Hin.
  { unfold sum_Z. clear. induction keys; cbn in *; lia. }
  cbn [map]. change (sum_Z (w x :: map w items)) with (w x + sum_Z (map w items)).
  rewrite <- IH by (intros; apply Hin; by right).
  rewrite <- (sum_Z_single (f x) (w x) keys) by (try done; apply Hin; by left).
  rewrite <- sum_Z_plus. apply sum_Z_ext. intros k _. cbn. by case_bool_decide.
Qed.

(** The segments of a report split its properties. *)
Definition splits (properties : list (ReportProperty Q)) (segments : list (Segment Q)) : Prop :=
  NoDup (map sg_segment segments)
  ∧ sum_Z (map sg_property_count segments) = Z.of_nat (length properties)
  ∧ sum_Z (map sg_qualified_leads segments) = sum_Z (map rq_lead_volume properties)
  ∧ sum_Z (map sg_won_jobs segments) = sum_Z (map rq_won_jobs properties).

Lemma segment_splits properties field : splits properties (_segment properties field).
Proof.
  unfold splits, _segment. rewrite !map_map. cbn.
  set (f := λ q, field (rq_decision q)). set (keys := merge_sort _ _).
  assert (keys ≡ₚ remove_dups (map f properties)) as Hkeys by apply merge_sort_Permutation.
  assert (NoDup keys) as Hnd by (rewrite Hkeys; apply NoDup_remove_dups).
  assert (∀ q, q ∈ properties → f q ∈ keys) as Hin.
  { intros q Hq. rewrite Hkeys, elem_of_remove_dups. by apply list_elem_of_fmap_2. }
  split_and!; [by rewrite map_id| |by apply sum_Z_groups|by apply sum_Z_groups].
  rewrite sum_Z_ones, <- (sum_Z_groups f (λ _, 1) keys properties) by done.
  apply sum_Z_ext. intros k _. apply sum_Z_ones.
Qed.

Lemma sum_Z_filter {T} (p : T → bool) (f : T → Z) l :
  sum_Z (map f (List.filter p l)) = sum_Z (map (λ x, if p x then f x else 0) l).
Proof. unfold sum_Z. induction l as [|x l IH]; cbn; [done|]. destruct (p x); cbn; lia. Qed.

(** The verified leads of the rows, counted by row. *)
Definition verified_leads rows : Z :=
  sum_Z (map (λ row, qualified_leads (po_counts row)) (List.filter is_verified rows)).

Lemma lead_volumes st rows :
  outcomes_ok st → (∀ row, row ∈ rows → ∃ k, property_outcomes st !! k = Some row) →
  sum_Z (map rq_lead_volume (map (λ d, report_property d.2 (rows_of d.1 rows))
           (covered rows (table_rows (property_decisions st))))) = verified_leads rows.
Proof.
  intros Hok Hrows. pose proof (covered_ids st rows Hok Hrows) as Hids. unfold verified_leads.
  rewrite sum_Z_filter, map_map. cbn.
  set (w := λ row, if is_verified row then qualified_leads (po_counts row) else 0).
  set (ds := covered _ _) in *.
  rewrite <- (sum_Z_groups po_property_decision_id w ds.*1 rows).
  - unfold fmap. change (list_fmap _ _ fst ds) with (map fst ds). rewrite map_map.
    apply sum_Z_ext. intros d _. apply sum_Z_filter.
  - rewrite Hids. apply NoDup_remove_dups.
  - intros row Hr. rewrite Hids, elem_of_remove_dups. by apply list_elem_of_fmap_2.
Qed.

Definition segmentations (r : CalibrationReport Q) : list (list (Segment Q)) :=
  [rp_by_service_family r; rp_by_market_size r; rp_by_evidence_quality r].

Lemma report_segments start_date end_date minimum st segments :
  segments ∈ segmentations (report_of start_date end_date minimum st) →
  let rows := outcomes_between start_date end_date st in
  splits (map (λ d, report_property d.2 (rows_of d.1 rows))
            (covered rows (table_rows (property_decisions st)))) segments.
Proof.
  unfold segmentations, report_of. intros Hin. cbv zeta. revert Hin.
  set (rows := outcomes_between _ _ _).
  pose proof (count_decisions_properties rows (table_rows (property_decisions st)) (no_totals, []))
    as Hp. destruct (foldl _ _ _) as [totals ps]. cbn in Hp. subst ps. cbn.
  rewrite !elem_of_cons, elem_of_nil. intros [->|[->|[->|[]]]]; apply segment_splits.
Qed.

(** A report adds up.  In every state reached from an empty history, each of the four
    totals of a calibration report is the sum of that column over the outcomes of its own
    basis of truth with a period in the range, so an estimate never enters an observed
    total; the properties are the distinct selected properties of those outcomes; each of
    the three segmentations splits them, property by property and verified lead by verified
    lead; a cost per validated opportunity is reported exactly when an observed or
    operator-verified outcome shows a qualified lead; and generating the report only stores
    it. *)
Theorem report_adds_up st0 st start_date end_date minimum i r st' :
  no_outcomes st0 → rtc step st0 st →
  generate start_date end_date minimum st = (Ok (i, r), st') →
  let rows := outcomes_between start_date end_date st in
  (∀ b f, (totals_of b r f == reference_total b f start_date end_date (property_outcomes st))%Q)
  ∧ rp_property_count r = Z.of_nat (length (remove_dups (map po_property_decision_id rows)))
  ∧ (∀ segments, segments ∈ segmentations r →
       NoDup (map sg_segment segments)
       ∧ sum_Z (map sg_property_count segments) = rp_property_count r
       ∧ sum_Z (map sg_qualified_leads segments) = verified_leads rows)
  ∧ (rp_cost_per_validated_opportunity_usd r = None ↔ ∀ row, row ∈ rows → ¬ shows_a_lead row)
  ∧ st' = st <| calibration_reports ::= <[i := r]> |>.
Proof.
  intros Hempty Hs [[= -> ->] ->]%generate_ok rows.
  pose proof (store_outcomes _ (steps_store_ok _ _ Hs (no_outcomes_ok _ Hempty))) as Hok.
  assert (∀ row, row ∈ rows → ∃ k, property_outcomes st !! k = Some row) as Hrows
    by by intros row (k & Hk & _)%elem_of_between; exists k.
  destruct (report_properties start_date end_date minimum st) as [Hcount _]. fold rows in Hcount.
  split_and!; [intros b f; by apply report_total_ok| | |by apply report_cost_ok|done].
  - rewrite Hcount, length_map. f_equal.
    rewrite <- (length_fmap fst). by apply Permutation_length, covered_ids.
  - intros segments (Hnd & Hn & Hl & _)%report_segments. fold rows in Hn, Hl.
    split; [done|]. rewrite Hn, Hl, Hcount. split; [done|]. by apply lead_volumes.
Qed.
End report.

(** ** Histories *)

Section histories.
Context {USD A : Type} `{Amount USD} `{Num A} `{Stats A}.
Implicit Types (st : Store USD A).

(** A selection is pinned.  A property is decided once; its decision names a score and
    an evidence snapshot of the same opportunity and scan, full enough to decide on, with
    the version and the total of that score; and the decision is the same row in every
    later state, whatever is requested and whatever else the program adds. *)
Theorem selection_is_pinned st0 st st' i d :
  no_outcomes st0 → rtc step st0 st → rtc step st st' →
  property_decisions st !! i = Some d →
  property_decisions st' !! i = Some d
  ∧ grounded d st ∧ grounded d st'
  ∧ ∀ j d', property_decisions st' !! j = Some d' → pd_property_id d' = pd_property_id d → j = i.
Proof.
  intros Hempty Hs Hs' Hi. pose proof (steps_store_ok _ _ Hs (no_outcomes_ok _ Hempty)) as Hok.
  pose proof (steps_store_ok _ _ Hs' Hok) as Hok'.
  assert (property_decisions st' !! i = Some d) as Hi'
    by by eapply lookup_weaken, steps_keep_decisions.
  split; [done|]. split; [by eapply decision_grounded; [apply Hok|]|].
  split; [by eapply decision_grounded; [apply Hok'|]|].
  intros j d' Hj Heq. by eapply (decided_once _ (store_decisions _ Hok')).
Qed.

(** Outcomes are truthful and counted once.  In every reachable state a stored outcome
    belongs to a recorded decision and lies on or after the day of its selection; a source
    record of a property is stored once; counts and revenue are never negative, provider
    reports come from the provider, operator-verified outcomes from the operator, and an
    estimated outcome carries no revenue. *)
Theorem outcomes_are_truthful st0 st k o :
  no_outcomes st0 → rtc step st0 st → property_outcomes st !! k = Some o →
  truthful o
  ∧ (∃ d, property_decisions st !! po_property_decision_id o = Some d
          ∧ date_of_datetime (pd_selected_at d) ≤ po_period_date o)
  ∧ ∀ k' o', property_outcomes st !! k' = Some o' → outcome_key o' = outcome_key o → k' = k.
Proof.
  intros Hempty Hs Hk. destruct (steps_store_ok _ _ Hs (no_outcomes_ok _ Hempty)) as [_ [Hu Hd Ht] _].
  split; [by eapply Ht|]. split; [by eapply Hd|]. intros k' o' Hk' Heq. by eapply Hu.
Qed.

(** A property is selected exactly on an approved, evidenced opportunity.  A repeated
    request for the same opportunity, score and snapshot returns the recorded decision and
    writes nothing; a first request succeeds exactly when the opportunity is approved for
    a property, the score is its score and the snapshot its evidence from the same scan (a
    scan result only if it is a full assessment), and then adds one row. *)
Theorem selection_needs_approval_and_evidence (decision : PropertyDecisionInput A) st i st' :
  record_decision decision st = (Ok i, st') ↔
  (∃ d, decision_of (di_property_id decision) st = Some (i, d) ∧ st' = st
        ∧ pd_opportunity_id d = di_opportunity_id decision
        ∧ pd_full_score_id d = di_full_score_id decision
        ∧ pd_evidence_snapshot_id d = di_evidence_snapshot_id decision)
  ∨ (decision_of (di_property_id decision) st = None
     ∧ i = next_id (property_decisions st)
     ∧ ∃ score columns, selectable decision score columns st
       ∧ st' = st <| property_decisions ::=
                 <[i := decision_row decision score columns (db_dialect (core st))]> |>).
Proof.
  rewrite record_decision_ok. f_equiv.
  - apply exist_proper. intros d. unfold same_choice.
    rewrite !andb_true_iff, !bool_decide_eq_true. naive_solver.
  - naive_solver.
Qed.

(** Scoring never changes by itself.  Every stored authorization has a proposal not
    initiated by an automatic party, a passed benchmark and two different versions, and is
    marked for manual application only; a proposal is authorized once; no report applies a
    change; and no request of these services touches the scores. *)
Theorem scoring_changes_need_review st0 st r :
  no_outcomes st0 → rtc step st0 st →
  reviews_ok st
  ∧ core (serve r st).2 = core st ∧ score_columns (serve r st).2 = score_columns st
  ∧ json_artifacts (serve r st).2 = json_artifacts st.
Proof.
  intros Hempty Hs. split; [apply (steps_store_ok _ _ Hs (no_outcomes_ok _ Hempty))|].
  apply serve_keeps_core.
Qed.
End histories.

(** ** A history *)

Module Season.
Definition day : Z := 86400000000.
Definition opportunity : Opportunity := {|
  opp_service_family_id := 5; opp_market_id := 3; opp_status := "approved_for_property";
  opp_latest_score := None; opp_score_version := None; opp_confidence := None;
  opp_missing_data_flags := []; opp_approved_at := Some 1; opp_owner_user_id := None;
  opp_review_version := 1
|}.
Definition score : FullOpportunityScore := {|
  fs_scan_run_id := 7; fs_opportunity_id := 1; fs_payload := ∅; fs_created_at := 0
|}.
Definition columns : ScoreColumns Q :=
  {| sco_scoring_version := "v3"; sco_total_score := 71%Q; sco_confidence := "high" |}.
Definition snapshot : JsonArtifact := {|
  ja_opportunity_id := Some 1; ja_scan_run_id := Some 7; ja_kind := "scan_result";
  ja_payload := {["assessment_type"%string := JStr "full"]}
|}.
Definition st0 : Store Z Q := {|
  core := empty_db <| opportunities := {[1 := opportunity]} |>
            <| full_opportunity_scores := {[2 := score]} |>;
  score_columns := {[2 := columns]};
  json_artifacts := {[4 := snapshot]};
  property_decisions := ∅; property_outcomes := ∅; calibration_reports := ∅;
  scoring_change_reviews := ∅
|}.

Definition choice : PropertyDecisionInput Q := {|
  di_property_id := "p"; di_opportunity_id := 1; di_full_score_id := 2;
  di_evidence_snapshot_id := 4; di_selected_at := Aware (10 * day) 0;
  di_service_family_slug := "plumbing"; di_market_size_band := "mid"; di_evidence_quality := "good";
  di_validated_opportunity_cost_usd := 12%Q
|}.
Definition counts (leads : Z) (revenue : Q) : Counts Q := {|
  impressions := 100; clicks := 5; organic_sessions := 4; calls := 2; forms := 1;
  qualified_leads := leads; appointments := 0; won_jobs := 0; reported_revenue := revenue
|}.
Definition outcome (date : Z) (source : OutcomeSourceType) (rid : string) (basis : TruthBasis)
    (c : Counts Q) : PropertyOutcomeRecord Q := {|
  rec_property_id := "p"; rec_period_date := date; rec_source_type := source;
  rec_source_name := "weekly"; rec_source_record_id := rid; rec_truth_basis := basis;
  rec_confidence := "high"; rec_counts := c; rec_average_position := None; rec_indexed_at := None;
  rec_provider_suitability_score := None; rec_addressable_market_score := None;
  rec_metadata := JObj []
|}.
Definition records : list (PropertyOutcomeRecord Q) :=
  [outcome 11 search_console "a" observed (counts 1 0);
   outcome 12 provider "b" provider_reported (counts 2 300);
   outcome 12 web_analytics "c" estimated (counts 9 0)].
Definition proposal : ScoringChangeProposal := {|
  sp_proposal_id := "x"; sp_current_version := "v3"; sp_proposed_version := "v4";
  sp_initiated_by := "ana"; sp_reviewer_id := Some "ben"%string;
  sp_benchmark_run_id := Some "run-1"%string; sp_benchmark_passed := true;
  sp_rationale := "the sample grew"
|}.

Definition decided := (serve (Record_decision choice) st0).2.
Definition collected := (serve (Collect "weekly" records) decided).2.
Definition authorized := (serve (Authorize proposal) collected).2.

Lemma season_starts : no_outcomes st0.
Proof. done. Qed.
Lemma to_decided : rtc step st0 decided.
Proof. apply rtc_once, served. Qed.
Lemma to_collected : rtc step decided collected.
Proof. apply rtc_once, served. Qed.
Lemma season : rtc step st0 collected.
Proof. transitivity decided; [exact to_decided|exact to_collected]. Qed.
Lemma to_authorized : rtc step st0 authorized.
Proof. transitivity collected; [exact season|apply rtc_once, served]. Qed.

Definition decision : PropertyDecision Q := decision_row choice score columns sqlite.
Lemma decision_stored : property_decisions decided !! 1 = Some decision.
Proof. vm_compute. reflexivity. Qed.
End Season.

Lemma selection_is_pinned_witness :
  property_decisions Season.decided !! 1 = Some Season.decision
  ∧ property_decisions Season.collected !! 1 = Some Season.decision.
Proof.
  split; [exact Season.decision_stored|].
  exact (proj1 (selection_is_pinned Season.st0 Season.decided Season.collected 1 Season.decision
    Season.season_starts Season.to_decided Season.to_collected Season.decision_stored)).
Defined.

Lemma outcomes_are_truthful_witness :
  ∃ o, property_outcomes Season.collected !! 2 = Some o ∧ truthful o.
Proof.
  eexists. assert (property_outcomes Season.collected !! 2
    = Some (outcome_row_of 1 sqlite (Season.outcome 12 provider "b" provider_reported
              (Season.counts 2 300)))) as Ho by (vm_compute; reflexivity).
  split; [exact Ho|].
  exact (proj1 (outcomes_are_truthful Season.st0 Season.collected 2 _ Season.season_starts Season.season Ho)).
Defined.

Lemma import_is_idempotent_witness :
  collect_from "weekly" Season.records Season.decided
    = (Ok [1; 2; 3], (collect_from "weekly" Season.records Season.decided).2)
  ∧ collect_from "weekly" Season.records (collect_from "weekly" Season.records Season.decided).2
    = (Ok [1; 2; 3], (collect_from "weekly" Season.records Season.decided).2).
Proof.
  assert (collect_from "weekly" Season.records Season.decided
    = (Ok [1; 2; 3], (collect_from "weekly" Season.records Season.decided).2)) as Hrun
    by (apply run_pair; vm_compute; reflexivity).
  split; [exact Hrun|]. exact (proj1 (import_is_idempotent _ _ _ _ _ Hrun)).
Defined.

Lemma report_adds_up_witness :
  ∃ r st', generate 10 20 3 Season.collected = (Ok (1, r), st')
  ∧ (totals_of provider_reported r f_reported_revenue == 300)%Q.
Proof.
  eexists _, _. split; [reflexivity|].
  destruct (report_adds_up Season.st0 Season.collected 10 20 3 1 _ _ Season.season_starts Season.season eq_refl)
    as [Ht _].
  rewrite (Ht provider_reported f_reported_revenue). vm_compute. reflexivity.
Defined.

Lemma scoring_changes_need_review_witness :
  (∃ r, scoring_change_reviews Season.authorized !! 1 = Some r ∧ sr_benchmark_passed r = true)
  ∧ reviews_ok Season.authorized.
Proof.
  split; [by eexists|].
  exact (proj1 (scoring_changes_need_review Season.st0 Season.authorized (Retain 0
    {| ac_actor_id := "ana"; ac_role := role_analytics; ac_provider_assignment_ids := [] |})
    Season.season_starts Season.to_authorized)).
Defined.

(** ** Observations *)

Module SeasonObservations.
(** The check of an indexing time compares calendar days in the zone it was sent with; the
    database keeps it in its own, where it can fall on a day before the selection. *)
Definition early_indexing : PropertyOutcomeRecord Q :=
  let r := Season.outcome 11 search_console "a" observed (Season.counts 1 0) in
  {| rec_property_id := "p"; rec_period_date := 11; rec_source_type := search_console;
     rec_source_name := "weekly"; rec_source_record_id := "a"; rec_truth_basis := observed;
     rec_confidence := "high"; rec_counts := rec_counts r; rec_average_position := None;
     rec_indexed_at := Some (Aware (10 * Season.day + 1) (5 * 3600000000));
     rec_provider_suitability_score := None; rec_addressable_market_score := None;
     rec_metadata := JObj [] |}.
Definition on_postgresql : Store Z Q :=
  Season.st0 <| core ::= set_field db_dialect (λ _, postgresql 0) |>.
Definition indexed : Store Z Q :=
  (serve (Ingest early_indexing) (serve (Record_decision Season.choice) on_postgresql).2).2.

Definition indexed_before_selection (st : Store Z Q) : bool :=
  match property_decisions st !! 1, property_outcomes st !! 1 with
  | Some d, Some o =>
      match po_indexed_at o with
      | Some t => date_of_datetime t <? date_of_datetime (pd_selected_at d)
      | None => false
      end
  | _, _ => false
  end.
Example indexing_can_precede_selection : indexed_before_selection indexed = true.
Proof. vm_compute. reflexivity. Qed.

(** The name of an automatic party is recognized only without surrounding spaces, and an
    empty reviewer or benchmark run is taken for a present one. *)
Definition unattended : ScoringChangeProposal := {|
  sp_proposal_id := "x"; sp_current_version := "v3"; sp_proposed_version := "v4";
  sp_initiated_by := "system "; sp_reviewer_id := Some ""%string;
  sp_benchmark_run_id := Some ""%string; sp_benchmark_passed := true;
  sp_rationale := "the sample grew"
|}.
Example unattended_change_is_authorized :
  (serve (Authorize unattended) Season.st0).1 = Ok tt.
Proof. vm_compute. reflexivity. Qed.
End SeasonObservations.
