(* ===== verification/PublicData.v ===== *)
(** * PublicData: the store of imported public datasets (public_data/store.py, models.py)

    A release is a directory with its records and its manifest, written once; the registry
    file names the registered versions of each dataset and the active one, and is replaced
    atomically under a lock directory.

    [Disk] is what the store keeps under its root.  The records file is its list of lines
    and the JSON files are the values they encode, [None] for a text that does not parse;
    a version is a plain file name.  The digest, the text of a record and the parsing of a
    line into its fields are parameters; the validators run on what was parsed.  For the
    manifest and the registry the text itself is left out: what a JSON file holds is the value
    that was written, so dumping and parsing these files is taken to be the identity.  A handler with the lock held is split at the registry it read, so that
    PublicDataLock can let other processes run in between. *)
From Stdlib Require String.
From S2P Require Import Prelude.
#[global] Open Scope Z_scope.

(** ** public_data/models.py *)

Inductive DatasetKind : Type := acs | cbp | nes | noaa | fema.
#[export] Instance DatasetKind_eq_dec : EqDecision DatasetKind.
Proof. solve_decision. Defined.
#[export] Instance DatasetKind_countable : Countable DatasetKind.
Proof.
  refine (inj_countable' (λ k, match k with acs => 0 | cbp => 1 | nes => 2 | noaa => 3 | fema => 4 end)
    (λ z, match z with 0 => acs | 1 => cbp | 2 => nes | 3 => noaa | _ => fema end) _).
  by intros [].
Defined.

(** [for dataset in DatasetKind] *)
Definition all_kinds : list DatasetKind := [acs; cbp; nes; noaa; fema].

(** *** Validators *)

(** [cleaned = value.strip(); if not cleaned: raise] *)
Definition require_text (s : string) : option string :=
  let cleaned := py_strip s in if str_truthy cleaned then Some cleaned else None.

(** [normalize_optional_release_text] *)
Definition normalize_text (s : option string) : option string := s ≫= require_text.

Definition hex_digit (a : Ascii.ascii) : bool :=
  let n := Ascii.nat_of_ascii a in ((48 <=? n) && (n <=? 57) || (97 <=? n) && (n <=? 102))%nat.

(** [validate_sha256] *)
Definition valid_sha256 (s : string) : option string :=
  let cleaned := py_lower (py_strip s) in
  if bool_decide (String.length cleaned = 64%nat) && forallb hex_digit (String.list_ascii_of_string cleaned)
  then Some cleaned else None.

#[export] Instance string_leb_dec : RelDecision (λ x y : string, String.leb x y = true).
Proof. intros x y. apply _. Defined.

(** [require_granularity]: a sorted set of the stripped names that are not empty. *)
Definition require_granularity (l : list string) : option (list string) :=
  let cleaned : gset string := list_to_set (omap require_text l) in
  if bool_decide (cleaned = ∅) then None
  else Some (merge_sort (λ x y : string, String.leb x y = true) (elements cleaned)).

Inductive DatasetStatus : Type := ds_staged | ds_active | ds_superseded.
#[export] Instance DatasetStatus_eq_dec : EqDecision DatasetStatus.
Proof. solve_decision. Defined.

Section models.
Context (A : Type).

(** A measurement is null or a number; [finite] tells the numbers JSON can hold. *)
Record DatasetRecord : Type := {
  dr_geography_id : string;
  dr_source_geoid : string;
  dr_geography_level : string;
  dr_values : gmap string (option A);
  dr_dimensions : gmap string string
}.
End models.
Arguments dr_geography_id {A}. Arguments dr_source_geoid {A}. Arguments dr_geography_level {A}.
Arguments dr_values {A}. Arguments dr_dimensions {A}.

(** The measurements a record may hold: the floats that are neither a NaN nor infinite. *)
Class Measurement (A : Type) := is_finite : A → bool.

(** [DatasetRecord.model_validate] on field values *)
Definition valid_record {A} (finite : A → bool) (r : DatasetRecord A) : option (DatasetRecord A) :=
  geography_id ← require_text (dr_geography_id r);
  source_geoid ← require_text (dr_source_geoid r);
  geography_level ← require_text (dr_geography_level r);
  if negb (bool_decide (dr_values r = ∅))
     && forallb (λ kv, str_truthy (py_strip kv.1)
                       && match kv.2 with Some x => finite x | None => true end)
          (map_to_list (dr_values r))
  then Some {| dr_geography_id := geography_id; dr_source_geoid := source_geoid;
               dr_geography_level := geography_level; dr_values := dr_values r;
               dr_dimensions := dr_dimensions r |}
  else None.

(** [DatasetRecord.model_validate_json]: the fields of the parsed line, validated. *)
Definition decode_record {A} `{Measurement A} (parse_record : string → option (DatasetRecord A))
    (line : string) : option (DatasetRecord A) :=
  parse_record line ≫= valid_record is_finite.

(** The fields that describe the source are one record: they are only compared. *)
Record ReleaseSource : Type := {
  source_url : string;
  source_name : string;
  source_license : string;
  source_bytes : option Z;
  source_format : option string;
  source_content_type : option string;
  source_etag : option string;
  source_last_modified : option string;
  acquisition_method : option string;
  geographic_granularity : list string;
  refresh_cadence : string;
  source_adapter : string;
  source_notes : string
}.
#[export] Instance ReleaseSource_eq_dec : EqDecision ReleaseSource.
Proof. solve_decision. Defined.

Record DatasetRelease : Type := {
  rl_dataset : DatasetKind;
  rl_version : string;
  rl_data_year : Z;
  rl_release_date : Z;
  rl_source_sha256 : option string;
  rl_source : ReleaseSource;
  rl_retrieved_at : Z
}.
#[export] Instance eta_DatasetRelease : Eta DatasetRelease := λ r,
  Build_DatasetRelease (rl_dataset r) (rl_version r) (rl_data_year r) (rl_release_date r)
    (rl_source_sha256 r) (rl_source r) (rl_retrieved_at r).
#[export] Instance DatasetRelease_eq_dec : EqDecision DatasetRelease.
Proof. solve_decision. Defined.

Definition valid_source (s : ReleaseSource) : option ReleaseSource :=
  url ← require_text (source_url s);
  name ← require_text (source_name s);
  license ← require_text (source_license s);
  granularity ← require_granularity (geographic_granularity s);
  cadence ← require_text (refresh_cadence s);
  adapter ← require_text (source_adapter s);
  if match source_bytes s with Some n => 1 <=? n | None => true end then
    Some {| source_url := url; source_name := name; source_license := license;
            source_bytes := source_bytes s; source_format := normalize_text (source_format s);
            source_content_type := normalize_text (source_content_type s);
            source_etag := normalize_text (source_etag s);
            source_last_modified := normalize_text (source_last_modified s);
            acquisition_method := normalize_text (acquisition_method s);
            geographic_granularity := granularity; refresh_cadence := cadence;
            source_adapter := adapter; source_notes := source_notes s |}
  else None.

(** [DatasetRelease.model_validate] *)
Definition valid_release (r : DatasetRelease) : option DatasetRelease :=
  version ← require_text (rl_version r);
  source ← valid_source (rl_source r);
  sha ← match rl_source_sha256 r with Some s => Some <$> valid_sha256 s | None => Some None end;
  if (1900 <=? rl_data_year r) && (rl_data_year r <=? 2200) then
    Some (r <| rl_version := version |> <| rl_source := source |> <| rl_source_sha256 := sha |>)
  else None.

Record DatasetManifest : Type := {
  dm_release : DatasetRelease;
  dm_status : DatasetStatus;
  dm_record_count : Z;
  dm_content_sha256 : string;
  dm_staged_at : Z;
  dm_activated_at : option Z
}.
#[export] Instance eta_DatasetManifest : Eta DatasetManifest := λ m,
  Build_DatasetManifest (dm_release m) (dm_status m) (dm_record_count m) (dm_content_sha256 m)
    (dm_staged_at m) (dm_activated_at m).

Record DatasetRegistration : Type := {
  active_version : option string;
  activation_history : list string;
  versions : gmap string DatasetManifest
}.
#[export] Instance eta_DatasetRegistration : Eta DatasetRegistration := λ r,
  Build_DatasetRegistration (active_version r) (activation_history r) (versions r).

(** [DatasetManifest.model_validate], on field values: the JSON text is not modelled. *)
Definition valid_manifest (m : DatasetManifest) : option DatasetManifest :=
  release ← valid_release (dm_release m);
  sha ← valid_sha256 (dm_content_sha256 m);
  if 0 <=? dm_record_count m then
    Some (m <| dm_release := release |> <| dm_content_sha256 := sha |>)
  else None.

Definition no_registration : DatasetRegistration :=
  {| active_version := None; activation_history := []; versions := ∅ |}.

(** [active_version_must_exist] *)
Definition valid_registration (r : DatasetRegistration) : bool :=
  match active_version r with
  | Some v => bool_decide (is_Some (versions r !! v))
  | None => true
  end
  && forallb (λ v, bool_decide (is_Some (versions r !! v))) (activation_history r).

(** The registry: its registrations, and when it was last written. *)
Record PublicDataRegistry : Type := {
  updated_at : Z;
  datasets : gmap DatasetKind DatasetRegistration
}.
#[export] Instance eta_PublicDataRegistry : Eta PublicDataRegistry := λ r,
  Build_PublicDataRegistry (updated_at r) (datasets r).

Definition no_registry (now : Z) : PublicDataRegistry := {| updated_at := now; datasets := ∅ |}.

Definition registration (r : PublicDataRegistry) (k : DatasetKind) : DatasetRegistration :=
  default no_registration (datasets r !! k).

Definition valid_registry (r : PublicDataRegistry) : bool :=
  forallb (λ kv, valid_registration kv.2) (map_to_list (datasets r)).

(** ** The disk *)

(** The files of a release directory; [None] is a missing file, a manifest that does not
    parse is [Some None]. *)
Record ReleaseDir : Type := {
  records_file : option (list string);
  manifest_file : option (option DatasetManifest)
}.

(** The lock directory: when it last changed, and its owner file once written.  A token
    is a fresh uuid, here a number. *)
Record LockOwner : Type := {
  lo_token : Z;
  lo_pid : Z;
  lo_hostname : string
}.
Record LockDir : Type := {
  lock_mtime : Z;
  lock_owner : option LockOwner
}.

Record Disk : Type := {
  releases : gmap (DatasetKind * string) ReleaseDir;
  registry_file : option (option PublicDataRegistry);
  lock_dir : option LockDir
}.
#[export] Instance eta_Disk : Eta Disk := λ d,
  Build_Disk (releases d) (registry_file d) (lock_dir d).

(** [RecordRefused] is pydantic's ValidationError, which [stage] lets through. *)
Inductive store_error : Type :=
| DatasetValidationError (code : string)
| RecordRefused
| DatasetNotFoundError
| RegistryLockTimeoutError
| ManifestUnreadable
| RenameError.

Section store.
Context {A : Type} `{Measurement A} (sha256_of_lines : list string → string).
Context (encode_record : DatasetRecord A → string) (parse_record : string → option (DatasetRecord A)).
Implicit Types (disk : Disk) (m : DatasetManifest) (k : DatasetKind) (v : string).

Abbreviation Handler T := (M Disk store_error T).
Definition verr (code : string) : store_error := DatasetValidationError code.

(** [DatasetRecord.identity] *)
Definition identity (r : DatasetRecord A) : string * string * gmap string string :=
  (dr_geography_id r, dr_source_geoid r, dr_dimensions r).

(** ** Reading *)

(** [registry]: a missing file is an empty registry, created at [now]. *)
Definition read_registry (now : Z) : Handler PublicDataRegistry :=
  gets registry_file ≫= λ (file : option (option PublicDataRegistry)),
  match file with
  | None => mret (no_registry now)
  | Some (Some r) => if valid_registry r then mret r else raise (verr "registry_invalid")
  | Some None => raise (verr "registry_invalid")
  end.

(** [_read_records]: blank lines are skipped, the others must parse. *)
Fixpoint _read_records (lines : list string) : option (list (DatasetRecord A)) :=
  match lines with
  | [] => Some []
  | line :: lines' =>
      if bool_decide (py_strip line = ""%string) then _read_records lines'
      else r ← decode_record parse_record line; rs ← _read_records lines'; Some (r :: rs)
  end.

(** The checks of a release directory; [None] when it passes. *)
Definition release_fault (dir : option ReleaseDir) (expected : DatasetManifest) : option store_error :=
  match dir with
  | None => Some (verr "release_incomplete")
  | Some d =>
      match records_file d, manifest_file d with
      | Some lines, Some text =>
          match text with
          | None => Some ManifestUnreadable
          | Some on_disk =>
              if negb (bool_decide (rl_dataset (dm_release on_disk) = rl_dataset (dm_release expected)))
              then Some (verr "manifest_kind")
              else if negb (bool_decide (rl_version (dm_release on_disk) = rl_version (dm_release expected)))
              then Some (verr "manifest_version")
              else if negb (bool_decide (dm_release on_disk = dm_release expected))
              then Some (verr "release_provenance")
              else if negb (bool_decide (dm_content_sha256 on_disk = dm_content_sha256 expected))
              then Some (verr "content_checksum")
              else if negb (dm_record_count on_disk =? dm_record_count expected)
              then Some (verr "record_count")
              else if negb (bool_decide (sha256_of_lines lines = dm_content_sha256 expected))
              then Some (verr "checksum_mismatch")
              else match _read_records lines with
                   | None => Some (verr "invalid_record")
                   | Some rs =>
                       if negb (Z.of_nat (length rs) =? dm_record_count expected)
                       then Some (verr "record_count_manifest") else None
                   end
          end
      | _, _ => Some (verr "release_incomplete")
      end
  end.

Definition _validate_release_directory (k : DatasetKind) (v : string) (expected : DatasetManifest)
    : Handler unit :=
  gets (λ disk, release_fault (releases disk !! (k, v)) expected) ≫= λ (fault : option store_error),
  match fault with Some e => raise e | None => mret tt end.

Definition _validate_registered (r : PublicDataRegistry) k v : Handler DatasetManifest :=
  match versions (registration r k) !! v with
  | None => raise DatasetNotFoundError
  | Some m => _validate_release_directory k v m ≫= λ _, mret m
  end.

Definition validate k v (now : Z) : Handler DatasetManifest :=
  read_registry now ≫= λ r, _validate_registered r k v.

Definition active_manifest k (now : Z) : Handler (option DatasetManifest) :=
  read_registry now ≫= λ r,
  let reg := registration r k in
  mret (active_version reg ≫= λ v, versions reg !! v).

(** The filter of [active_records] *)
Definition record_matches (geography_id source_geoid : option string) (r : DatasetRecord A) : bool :=
  match geography_id with Some g => bool_decide (dr_geography_id r = g) | None => true end
  && match source_geoid with Some g => bool_decide (dr_source_geoid r = g) | None => true end.

(** [active_records]: the records of the active release, which is validated first. *)
Definition active_records k (geography_id source_geoid : option string) (now : Z)
    : Handler (list (DatasetRecord A)) :=
  active_manifest k now ≫= λ (manifest : option DatasetManifest),
  match manifest with
  | None => mret []
  | Some m =>
      let v := rl_version (dm_release m) in
      validate k v now ≫= λ _,
      get_or_raise (λ disk,
        dir ← releases disk !! (k, v); lines ← records_file dir; _read_records lines)
        (verr "invalid_record") ≫= λ records,
      mret (List.filter (record_matches geography_id source_geoid) records)
  end.

(** [snapshot]: for each dataset with an active release its manifest, its records of the
    geography and, for the county datasets, those of the county; and the warnings, as the
    release and its age in days.  Dates are days. *)
Record PublicDataSnapshot : Type := {
  sn_records : gmap DatasetKind (list (DatasetRecord A));
  sn_manifests : gmap DatasetKind DatasetManifest;
  sn_warnings : list (DatasetKind * string * Z)
}.

Definition snapshot_dataset (geography_id : string) (county_fips : option string)
    (warning_age_days : gmap DatasetKind Z) (today now : Z) (sn : PublicDataSnapshot) k
    : Handler PublicDataSnapshot :=
  active_manifest k now ≫= λ (manifest : option DatasetManifest),
  match manifest with
  | None => mret sn
  | Some m =>
      active_records k (Some geography_id) None now ≫= λ records,
      (if bool_decide (k ∈ [cbp; nes]) && opt_truthy county_fips then
         active_records k None county_fips now ≫= λ county,
         mret (records ++ List.filter (λ r, negb (bool_decide (identity r ∈ map identity records))) county)
       else mret records) ≫= λ records,
      let age := today - rl_release_date (dm_release m) in
      mret {| sn_records := <[k := records]> (sn_records sn);
              sn_manifests := <[k := m]> (sn_manifests sn);
              sn_warnings := sn_warnings sn ++
                match warning_age_days !! k with
                | Some threshold =>
                    if threshold <? age then [(k, rl_version (dm_release m), age)] else []
                | None => []
                end |}
  end.

Definition snapshot (geography_id : string) (county_fips : option string)
    (warning_age_days : gmap DatasetKind Z) (today now : Z) : Handler PublicDataSnapshot :=
  foldl (λ acc k, acc ≫= λ sn,
      snapshot_dataset geography_id county_fips warning_age_days today now sn k)
    (mret {| sn_records := ∅; sn_manifests := ∅; sn_warnings := [] |}) all_kinds.

(** ** Writing, with the lock held *)

Definition write_registry (r : PublicDataRegistry) : Handler unit :=
  modify (λ disk, disk <| registry_file := Some (Some r) |>).

Definition set_status (s : DatasetStatus) m : DatasetManifest := m <| dm_status := s |>.

(** The registration after the activation of [v], whose manifest is [m]. *)
Definition activated (reg : DatasetRegistration) v m (now : Z) : DatasetRegistration :=
  let superseded :=
    match active_version reg with
    | Some previous => alter (set_status ds_superseded) previous (versions reg)
    | None => versions reg
    end in
  {| active_version := Some v;
     activation_history := List.filter (λ x, negb (bool_decide (x = v))) (activation_history reg) ++ [v];
     versions := <[v := m <| dm_status := ds_active |> <| dm_activated_at := Some now |>]> superseded |}.

Definition put_registration (r : PublicDataRegistry) k (reg : DatasetRegistration) (now : Z)
    : PublicDataRegistry :=
  r <| datasets ::= <[k := reg]> |> <| updated_at := now |>.

(** [_activate_locked] up to the write: the manifest to return, and the registry to write. *)
Definition activate_in (r : PublicDataRegistry) k v (now : Z)
    : Handler (DatasetManifest * option PublicDataRegistry) :=
  _validate_registered r k v ≫= λ m,
  let reg := registration r k in
  if bool_decide (active_version reg = Some v) then mret (m, None)
  else
    mret (m <| dm_status := ds_active |> <| dm_activated_at := Some now |>,
          Some (put_registration r k (activated reg v m now) now)).

(** The version [rollback] returns to: the last activated one that is not active. *)
Definition rollback_target (reg : DatasetRegistration) : option string :=
  head (List.filter (λ v, negb (bool_decide (Some v = active_version reg))) (rev (activation_history reg))).

Definition rollback_in (r : PublicDataRegistry) k (now : Z)
    : Handler (DatasetManifest * option PublicDataRegistry) :=
  match rollback_target (registration r k) with
  | None => raise DatasetNotFoundError
  | Some v => activate_in r k v now
  end.

(** ** Staging *)

(** [_write_validated_records]: the lines of the validated records, unless one of them is
    refused, an identity repeats, or there is none.  [model_validate] gives back a record
    that was built through the model, and [valid_record] leaves such a record as it is. *)
Fixpoint write_records (identities : list (string * string * gmap string string))
    (records : list (DatasetRecord A)) : store_error + list string :=
  match records with
  | [] => inr []
  | record :: records' =>
      match valid_record is_finite record with
      | None => inl RecordRefused
      | Some validated =>
          if bool_decide (identity validated ∈ identities) then inl (verr "duplicate_identity")
          else match write_records (identity validated :: identities) records' with
               | inl e => inl e
               | inr lines => inr (encode_record validated :: lines)
               end
      end
  end.

Definition _write_validated_records (records : list (DatasetRecord A)) : store_error + list string :=
  match write_records [] records with
  | inr [] => inl (verr "empty_dataset")
  | written => written
  end.

(** [stage] before the commit: the temporary directory, already validated. *)
Definition prepare_release (release : DatasetRelease) (records : list (DatasetRecord A)) (now : Z)
    : store_error + (DatasetManifest * list string) :=
  if bool_decide (rl_source_sha256 release = None) then inl (verr "source_checksum_required")
  else match _write_validated_records records with
  | inl e => inl e
  | inr lines =>
      let m := {| dm_release := release; dm_status := ds_staged;
                  dm_record_count := Z.of_nat (length lines);
                  dm_content_sha256 := sha256_of_lines lines; dm_staged_at := now;
                  dm_activated_at := None |} in
      match release_fault (Some {| records_file := Some lines; manifest_file := Some (Some m) |}) m with
      | Some e => inl e
      | None => inr (m, lines)
      end
  end.

Definition without_retrieved_at (r : DatasetRelease) : DatasetRelease :=
  r <| rl_retrieved_at := 0 |>.

(** [_validate_recoverable_release] *)
Definition recoverable (on_disk candidate : DatasetManifest) : bool :=
  bool_decide (without_retrieved_at (dm_release on_disk) = without_retrieved_at (dm_release candidate))
  && bool_decide (dm_content_sha256 on_disk = dm_content_sha256 candidate)
  && (dm_record_count on_disk =? dm_record_count candidate).

(** [_register_staged] up to the write *)
Definition staged_in (r : PublicDataRegistry) m (now : Z) : PublicDataRegistry :=
  let k := rl_dataset (dm_release m) in
  put_registration r k ((registration r k) <| versions ::= <[rl_version (dm_release m) := m]> |>) now.

(** [os.rename(temporary, destination)]: the target must not be a directory with files. *)
Definition rename_release m (lines : list string) : Handler unit :=
  let key := (rl_dataset (dm_release m), rl_version (dm_release m)) in
  gets (λ disk, releases disk !! key) ≫= λ (dir : option ReleaseDir),
  match dir with
  | Some _ => raise RenameError
  | None =>
      modify (λ disk, disk <| releases ::= <[key :=
        {| records_file := Some lines; manifest_file := Some (Some m) |}]> |>)
  end.

(** A release directory is there: the second half of a commit that was cut short, or the
    same release again. *)
Definition recover_in (r : PublicDataRegistry) (dir : ReleaseDir) m (now : Z)
    : Handler (DatasetManifest * option PublicDataRegistry) :=
  let k := rl_dataset (dm_release m) in
  let v := rl_version (dm_release m) in
  get_or_raise (λ _ : Disk, manifest_file dir ≫= id) ManifestUnreadable ≫= λ on_disk,
  raise_if (negb (recoverable on_disk m)) (verr "immutable_release_differs") ≫= λ _,
  _validate_release_directory k v on_disk ≫= λ _,
  match versions (registration r k) !! v with
  | Some existing => mret (existing, None)
  | None => mret (on_disk, Some (staged_in r on_disk now))
  end.

(** [_commit_staged] up to the write. *)
Definition commit_in (r : PublicDataRegistry) m (lines : list string) (now : Z)
    : Handler (DatasetManifest * option PublicDataRegistry) :=
  gets (λ disk, releases disk !! (rl_dataset (dm_release m), rl_version (dm_release m)))
    ≫= λ (dir : option ReleaseDir),
  match dir with
  | Some d => recover_in r d m now
  | None => rename_release m lines ≫= λ _, mret (m, Some (staged_in r m now))
  end.

(** ** The operations *)

(** What runs with the lock held, as the code composes it. *)
Inductive operation : Type :=
| op_activate (k : DatasetKind) (v : string)
| op_rollback (k : DatasetKind)
| op_commit (m : DatasetManifest) (lines : list string).

Definition decide_in (op : operation) (r : PublicDataRegistry) (now : Z)
    : Handler (DatasetManifest * option PublicDataRegistry) :=
  match op with
  | op_activate k v => activate_in r k v now
  | op_rollback k => rollback_in r k now
  | op_commit m lines => commit_in r m lines now
  end.

Definition run_locked (op : operation) (now : Z) : Handler DatasetManifest :=
  read_registry now ≫= λ r,
  decide_in op r now ≫= λ '(m, new),
  match new with
  | Some r' => write_registry r' ≫= λ _, mret m
  | None => mret m
  end.

Definition activate k v (now : Z) : Handler DatasetManifest := run_locked (op_activate k v) now.
Definition rollback k (now : Z) : Handler DatasetManifest := run_locked (op_rollback k) now.

Definition stage (release : DatasetRelease) (records : list (DatasetRecord A)) (now : Z)
    : Handler DatasetManifest :=
  match prepare_release release records now with
  | inl e => raise e
  | inr (m, lines) => run_locked (op_commit m lines) now
  end.
End store.
