(* ===== verification/PublicDataValidation.v ===== *)
(** * PublicDataValidation: the validators of the dataset models are canonical (public_data/models.py)

    The pydantic models clean their text fields.  A value that passed is unchanged when it
    is validated again.  The JSON text between a write and a read is not part of this. *)
From Stdlib Require String.
From S2P Require Import Prelude.
From S2P Require Import PublicData.
#[global] Open Scope Z_scope.

Lemma lstrip_head s : match lstrip s with String a _ => is_space a = false | EmptyString => True end.
Proof. induction s as [|a s IH]; simpl; [done|]. by destruct (is_space a) eqn:?. Qed.

Lemma rstrip_idem s : rstrip (rstrip s) = rstrip s.
Proof.
  induction s as [|a s IH]; simpl; [done|].
  destruct (rstrip s) as [|b s'] eqn:Hs; [by destruct (is_space a) eqn:Ha; simpl; rewrite ?Ha|].
  simpl in *. destruct (rstrip s') as [|c s''] eqn:Hs'.
  - destruct (is_space b) eqn:Hb; [done|]. by simplify_eq.
  - by simplify_eq.
Qed.

(** Stripping on the right does not touch a first character that is not a space. *)
Lemma lstrip_rstrip s :
  match s with String a _ => is_space a = false | EmptyString => True end → lstrip (rstrip s) = rstrip s.
Proof.
  destruct s as [|a s]; simpl; [done|]. intros Ha.
  destruct (rstrip s); simpl; rewrite Ha; simpl; by rewrite ?Ha.
Qed.

Lemma strip_idem s : py_strip (py_strip s) = py_strip s.
Proof.
  unfold py_strip. rewrite lstrip_rstrip by apply lstrip_head. apply rstrip_idem.
Qed.

(** Lowering changes letters only. *)
Lemma lower_space a : is_space (lower_ascii a) = is_space a.
Proof. by destruct a as [[] [] [] [] [] [] [] []]. Qed.

Lemma lower_lstrip s : lstrip (py_lower s) = py_lower (lstrip s).
Proof. induction s as [|a s IH]; simpl; [done|]. rewrite lower_space. by destruct (is_space a). Qed.

Lemma lower_rstrip s : rstrip (py_lower s) = py_lower (rstrip s).
Proof.
  induction s as [|a s IH]; simpl; [done|]. rewrite IH, lower_space.
  destruct (rstrip s); simpl; [by destruct (is_space a)|done].
Qed.

Lemma lower_idem s : py_lower (py_lower s) = py_lower s.
Proof.
  induction s as [|a s IH]; simpl; [done|]. rewrite IH. f_equal.
  by destruct a as [[] [] [] [] [] [] [] []].
Qed.

Lemma require_text_idem s s' : require_text s = Some s' → require_text s' = Some s'.
Proof.
  unfold require_text. destruct (str_truthy (py_strip s)) eqn:Ht; [|done]. intros [= <-].
  by rewrite strip_idem, Ht.
Qed.

Lemma normalize_text_idem s : normalize_text (normalize_text s) = normalize_text s.
Proof.
  unfold normalize_text. destruct s as [s|]; [|done]. simpl.
  destruct (require_text s) as [s'|] eqn:Hs; [|done]. simpl. by eapply require_text_idem.
Qed.

Lemma valid_sha256_idem s s' : valid_sha256 s = Some s' → valid_sha256 s' = Some s'.
Proof.
  unfold valid_sha256. case_match eqn:Hc; [|done]. intros [= <-].
  assert (py_lower (py_strip (py_lower (py_strip s))) = py_lower (py_strip s)) as Hid.
  { unfold py_strip at 1. rewrite lower_lstrip, lower_rstrip, lower_idem.
    change (rstrip (lstrip (py_strip s))) with (py_strip (py_strip s)). by rewrite strip_idem. }
  by rewrite Hid, Hc.
Qed.

Lemma require_granularity_idem l l' : require_granularity l = Some l' → require_granularity l' = Some l'.
Proof.
  unfold require_granularity. case_bool_decide as Hne; [done|]. intros [= <-].
  set (X := list_to_set (omap require_text l) : gset string) in *.
  assert (omap require_text (merge_sort (λ x y : string, String.leb x y = true) (elements X))
    = merge_sort (λ x y : string, String.leb x y = true) (elements X)) as Hfix.
  { assert (∀ s, s ∈ merge_sort (λ x y : string, String.leb x y = true) (elements X) →
      require_text s = Some s) as Hall.
    { intros s. rewrite merge_sort_Permutation, elem_of_elements. unfold X.
      rewrite elem_of_list_to_set, list_elem_of_omap. intros (s0 & _ & Hs). by eapply require_text_idem. }
    induction (merge_sort _ _) as [|s rest IH]; [done|].
    change (omap require_text (s :: rest))
      with (match require_text s with Some y => y :: omap require_text rest | None => omap require_text rest end).
    rewrite Hall by left. rewrite IH; [done|]. intros s' Hs'. apply Hall. by right. }
  rewrite Hfix.
  assert (list_to_set (merge_sort (λ x y : string, String.leb x y = true) (elements X)) = X) as Hset.
  { apply set_eq. intros s. rewrite elem_of_list_to_set, merge_sort_Permutation. apply elem_of_elements. }
  rewrite Hset. by rewrite bool_decide_eq_false_2.
Qed.

Lemma valid_source_idem s s' : valid_source s = Some s' → valid_source s' = Some s'.
Proof.
  unfold valid_source. intros Hv.
  repeat (apply bind_Some in Hv as (? & ?%require_text_idem & Hv)
    || apply bind_Some in Hv as (? & ?%require_granularity_idem & Hv)).
  destruct (match source_bytes s with Some n => 1 <=? n | None => true end) eqn:Hb; [|done].
  injection Hv as <-. simpl.
  repeat match goal with H : _ = Some _ |- _ => rewrite H; simpl; clear H end.
  by rewrite Hb, !normalize_text_idem.
Qed.

Lemma valid_release_idem r r' : valid_release r = Some r' → valid_release r' = Some r'.
Proof.
  unfold valid_release. intros Hv.
  apply bind_Some in Hv as (v & Hver%require_text_idem & Hv).
  apply bind_Some in Hv as (src & Hsrc%valid_source_idem & Hv).
  apply bind_Some in Hv as (sha & Hsha & Hv).
  destruct ((1900 <=? rl_data_year r) && (rl_data_year r <=? 2200)) eqn:Hy; [|done].
  injection Hv as <-. simpl. rewrite Hver. simpl. rewrite Hsrc. simpl.
  assert (match sha with Some s => Some <$> valid_sha256 s | None => Some None end = Some sha) as ->.
  { destruct (rl_source_sha256 r) as [s|]; [|by injection Hsha as <-].
    apply fmap_Some in Hsha as (s' & ?%valid_sha256_idem & ->).
    match goal with H : _ = Some _ |- _ => by rewrite H end. }
  simpl. by rewrite Hy.
Qed.

Lemma valid_manifest_idem m m' : valid_manifest m = Some m' → valid_manifest m' = Some m'.
Proof.
  unfold valid_manifest. intros Hv.
  apply bind_Some in Hv as (rel & Hrel%valid_release_idem & Hv).
  apply bind_Some in Hv as (sha & Hsha%valid_sha256_idem & Hv).
  destruct (0 <=? dm_record_count m) eqn:Hn; [|done].
  injection Hv as <-. simpl. rewrite Hrel. simpl. rewrite Hsha. simpl. by rewrite Hn.
Qed.

Lemma valid_record_idem {A} (finite : A → bool) r r' :
  valid_record finite r = Some r' → valid_record finite r' = Some r'.
Proof.
  unfold valid_record. intros Hv.
  repeat apply bind_Some in Hv as (? & ?%require_text_idem & Hv).
  match type of Hv with (if ?c then _ else _) = _ => destruct c eqn:Hc end; [|done].
  injection Hv as <-. simpl.
  repeat match goal with H : require_text _ = Some _ |- _ => rewrite H; simpl; clear H end.
  by rewrite Hc.
Qed.

Lemma require_text_truthy s s' : require_text s = Some s' → str_truthy s' = true.
Proof. unfold require_text. case_match eqn:Ht; [|done]. by intros [= <-]. Qed.

Lemma valid_sha256_hex s s' :
  valid_sha256 s = Some s' →
  String.length s' = 64%nat ∧ forallb hex_digit (String.list_ascii_of_string s') = true.
Proof.
  unfold valid_sha256. case_match eqn:Hc; [|done]. intros [= <-]. by bools.
Qed.

(** A validated manifest names its version, has a digest of 64 hexadecimal digits and a
    count that is not negative. *)
Definition well_typed_manifest (m : DatasetManifest) : Prop :=
  str_truthy (rl_version (dm_release m)) = true ∧ 1900 ≤ rl_data_year (dm_release m) ≤ 2200
  ∧ String.length (dm_content_sha256 m) = 64%nat
  ∧ forallb hex_digit (String.list_ascii_of_string (dm_content_sha256 m)) = true
  ∧ 0 ≤ dm_record_count m.

(** A validated record has its identifiers and at least one measure, all of them finite. *)
Definition well_typed_record {A} (finite : A → bool) (r : DatasetRecord A) : Prop :=
  str_truthy (dr_geography_id r) = true ∧ str_truthy (dr_source_geoid r) = true
  ∧ str_truthy (dr_geography_level r) = true ∧ dr_values r ≠ ∅
  ∧ ∀ measure x, dr_values r !! measure = Some (Some x) → finite x = true.

Lemma valid_release_typed r r' :
  valid_release r = Some r' → str_truthy (rl_version r') = true ∧ 1900 ≤ rl_data_year r' ≤ 2200.
Proof.
  unfold valid_release. intros Hv.
  apply bind_Some in Hv as (v & ?%require_text_truthy & Hv).
  do 2 apply bind_Some in Hv as (? & _ & Hv).
  destruct ((1900 <=? rl_data_year r) && (rl_data_year r <=? 2200)) eqn:Hy; [|done].
  injection Hv as <-. bools. by simpl.
Qed.

(** C37: What the validators of the dataset models let through is well typed, and
    validating it again changes nothing: a validated manifest names its version, has a data
    year between 1900 and 2200, a content digest of 64 lowercase hexadecimal digits and a
    count that is not negative; a validated record has its three identifiers and at least
    one measure, every number of which is finite. *)
Theorem validation_is_canonical {A} (finite : A → bool) m m' (r r' : DatasetRecord A) :
  valid_manifest m = Some m' → valid_record finite r = Some r' →
  (valid_manifest m' = Some m' ∧ well_typed_manifest m')
  ∧ (valid_record finite r' = Some r' ∧ well_typed_record finite r').
Proof.
  intros Hm Hr. split.
  - split; [by eapply valid_manifest_idem|]. unfold valid_manifest in Hm.
    apply bind_Some in Hm as (rel & [Hver Hyear]%valid_release_typed & Hm).
    apply bind_Some in Hm as (sha & [Hlen Hhex]%valid_sha256_hex & Hm).
    destruct (0 <=? dm_record_count m) eqn:Hn; [|done]. injection Hm as <-. bools. unfold well_typed_manifest. simpl.
    split_and!; try done; lia.
  - split; [by eapply valid_record_idem|]. unfold valid_record in Hr.
    apply bind_Some in Hr as (g & ?%require_text_truthy & Hr).
    apply bind_Some in Hr as (s & ?%require_text_truthy & Hr).
    apply bind_Some in Hr as (l & ?%require_text_truthy & Hr).
    match type of Hr with (if ?c then _ else _) = _ => destruct c eqn:Hc end; [|done].
    injection Hr as <-. bools. unfold well_typed_record. simpl. split_and!; try done. intros measure x Hx.
    match goal with H : forallb _ _ = true |- _ => rewrite forallb_forall in H; rename H into Hall end.
    apply elem_of_map_to_list, list_elem_of_In in Hx. apply Hall in Hx. simpl in Hx. by bools.
Qed.

Module ValidationRun.
Definition source : ReleaseSource :=
  {| source_url := " https://example.org/acs.csv "; source_name := "ACS"; source_license := "public";
     source_bytes := Some 10; source_format := Some " "; source_content_type := None;
     source_etag := None; source_last_modified := None; acquisition_method := Some "download ";
     geographic_granularity := ["place"; " county "; ""; "place"]; refresh_cadence := "yearly";
     source_adapter := "acs"; source_notes := "" |}.
Definition release : DatasetRelease :=
  {| rl_dataset := acs; rl_version := " 2024 "; rl_data_year := 2023; rl_release_date := 20000;
     rl_source_sha256 := None; rl_source := source; rl_retrieved_at := 5 |}.
Definition manifest : DatasetManifest :=
  {| dm_release := release; dm_status := ds_staged; dm_record_count := 1;
     dm_content_sha256 := " 0123456789ABCDEF0123456789abcdef0123456789abcdef0123456789abcdef";
     dm_staged_at := 6; dm_activated_at := None |}.
Definition observation : DatasetRecord Z :=
  {| dr_geography_id := "g1 "; dr_source_geoid := " 48453"; dr_geography_level := "county";
     dr_values := {["population" := Some 10; "income" := None]}; dr_dimensions := ∅ |}.
Definition valid {T} (x : option T) (y : T) : T := default y x.
End ValidationRun.
Import ValidationRun.

Lemma validation_is_canonical_witness :
  geographic_granularity (rl_source (dm_release (valid (valid_manifest manifest) manifest))) = ["county"; "place"]
  ∧ rl_version (dm_release (valid (valid_manifest manifest) manifest)) = "2024"%string
  ∧ well_typed_record (λ x, bool_decide (0 ≤ x)) (valid (valid_record (λ x, bool_decide (0 ≤ x)) observation) observation).
Proof.
  split; [vm_compute; reflexivity|]. split; [vm_compute; reflexivity|].
  refine (proj2 (proj2 (validation_is_canonical (λ x, bool_decide (0 ≤ x)) manifest
    (valid (valid_manifest manifest) manifest) observation
    (valid (valid_record (λ x, bool_decide (0 ≤ x)) observation) observation) _ _))); vm_compute; reflexivity.
Defined.
