(* ===== verification/PublicDataLock.v ===== *)
(** * PublicDataLock: the registry lock and every interleaving of its users (public_data/store.py)

    The lock is a directory that [mkdir] creates and an owner file written into it
    afterwards.  A process that finds a lock older than [stale_lock_seconds] may move it
    away; it checks first and moves afterwards, and what it moves is whatever is there by
    then.  A process may die at any point.  The reads of one release directory are one
    step: a release directory never changes once it is there (PublicDataProofs). *)
From stdpp Require Import functions relations.
From S2P Require Import Prelude.
From S2P Require Import PublicData.
#[global] Open Scope Z_scope.

Section lock.
Context {A : Type} `{Measurement A} (sha256_of_lines : list string → string).
Context (encode_record : DatasetRecord A → string) (parse_record : string → option (DatasetRecord A)).
Context (stale_lock_seconds : Z) (hostname : nat → string) (getpid : nat → Z).

(** ** The lock directory *)

(** [self.registry_lock_path.mkdir()] *)
Definition mkdir_lock (now : Z) (disk : Disk) : option Disk :=
  match lock_dir disk with
  | None => Some (disk <| lock_dir := Some {| lock_mtime := now; lock_owner := None |} |>)
  | Some _ => None
  end.

(** The owner file is written into the lock directory, which changes its time when the
    file is new; without the directory the write raises. *)
Definition write_owner (owner : LockOwner) (now : Z) (disk : Disk) : option Disk :=
  l ← lock_dir disk;
  Some (disk <| lock_dir := Some
    {| lock_mtime := match lock_owner l with None => now | Some _ => lock_mtime l end;
       lock_owner := Some owner |} |>).

(** [os.rename(lock, stale)] and [shutil.rmtree(lock)] *)
Definition remove_lock (disk : Disk) : Disk := disk <| lock_dir := None |>.

(** The checks of [_remove_stale_lock]; [alive] is the answer of [_pid_is_alive]. *)
Definition lock_is_stale (me : nat) (alive : bool) (now : Z) (disk : Disk) : bool :=
  match lock_dir disk with
  | None => false
  | Some l =>
      (stale_lock_seconds <=? now - lock_mtime l)
      && negb match lock_owner l with
              | Some o => bool_decide (lo_hostname o = hostname me) && alive
              | None => false
              end
  end.

Definition _release_registry_lock (token : Z) (disk : Disk) : Disk :=
  match lock_dir disk with
  | Some {| lock_owner := Some o |} => if lo_token o =? token then remove_lock disk else disk
  | _ => disk
  end.

(** ** Processes *)

(** Where a process is in [_registry_lock] and in the body it guards. *)
Inductive Phase : Type :=
| outside
| waiting (op : operation) (token : Z)
| removing (op : operation) (token : Z)
| lock_made (op : operation) (token : Z)
| locked (op : operation) (token : Z)
| has_registry (op : operation) (token : Z) (r : PublicDataRegistry)
| must_rename (token : Z) (r : PublicDataRegistry) (m : DatasetManifest) (lines : list string)
| must_write (token : Z) (r new : PublicDataRegistry)
| leaving (token : Z).

Record World : Type := {
  w_disk : Disk;
  w_now : Z;
  w_token : Z;
  w_procs : nat → Phase
}.
#[export] Instance eta_World : Eta World := λ w,
  Build_World (w_disk w) (w_now w) (w_token w) (w_procs w).

Definition goes (p : nat) (ph : Phase) (w : World) : World := w <| w_procs ::= <[p := ph]> |>.
Definition on_disk (disk : Disk) (w : World) : World := w <| w_disk := disk |>.

(** A manifest and lines [stage] hands to the commit. *)
Definition staged_release (m : DatasetManifest) (lines : list string) : Prop :=
  ∃ release records now,
    prepare_release sha256_of_lines encode_record parse_record release records now = inr (m, lines).

Definition well_prepared (op : operation) : Prop :=
  match op with op_commit m lines => staged_release m lines | _ => True end.

(** A commit whose release directory is not there yet. *)
Definition must_move (op : operation) (disk : Disk) : option (DatasetManifest * list string) :=
  match op with
  | op_commit m lines =>
      match releases disk !! (rl_dataset (dm_release m), rl_version (dm_release m)) with
      | None => Some (m, lines)
      | Some _ => None
      end
  | _ => None
  end.

Abbreviation decide_op := (decide_in sha256_of_lines parse_record).
Abbreviation read_reg := (read_registry).

(** ** Steps of one process that leave a foreign lock alone *)

Inductive calm_step : World → World → Prop :=
| step_tick w now : w_now w ≤ now → calm_step w (w <| w_now := now |>)
| step_call w p op :
    w_procs w p = outside → well_prepared op →
    calm_step w (goes p (waiting op (w_token w)) w <| w_token ::= Z.succ |>)
| step_mkdir w p op t disk :
    w_procs w p = waiting op t → mkdir_lock (w_now w) (w_disk w) = Some disk →
    calm_step w (goes p (lock_made op t) (on_disk disk w))
| step_timeout w p op t :
    w_procs w p = waiting op t → lock_dir (w_disk w) ≠ None → calm_step w (goes p outside w)
| step_owner w p op t disk :
    w_procs w p = lock_made op t →
    write_owner {| lo_token := t; lo_pid := getpid p; lo_hostname := hostname p |} (w_now w) (w_disk w)
      = Some disk →
    calm_step w (goes p (locked op t) (on_disk disk w))
| step_read w p op t r disk :
    w_procs w p = locked op t → read_reg (w_now w) (w_disk w) = (Ok r, disk) →
    calm_step w (goes p (has_registry op t r) w)
| step_read_raises w p op t e disk :
    w_procs w p = locked op t → read_reg (w_now w) (w_disk w) = (Raise e, disk) →
    calm_step w (goes p (leaving t) w)
| step_move w p op t r m lines :
    w_procs w p = has_registry op t r → must_move op (w_disk w) = Some (m, lines) →
    calm_step w (goes p (must_rename t r m lines) w)
| step_rename w p t r m lines disk :
    w_procs w p = must_rename t r m lines → rename_release m lines (w_disk w) = (Ok tt, disk) →
    calm_step w (goes p (must_write t r (staged_in r m (w_now w))) (on_disk disk w))
| step_rename_raises w p t r m lines e disk :
    w_procs w p = must_rename t r m lines → rename_release m lines (w_disk w) = (Raise e, disk) →
    calm_step w (goes p (leaving t) w)
| step_decide w p op t r m new disk :
    w_procs w p = has_registry op t r → must_move op (w_disk w) = None →
    decide_op op r (w_now w) (w_disk w) = (Ok (m, Some new), disk) →
    calm_step w (goes p (must_write t r new) (on_disk disk w))
| step_nothing w p op t r m disk :
    w_procs w p = has_registry op t r → must_move op (w_disk w) = None →
    decide_op op r (w_now w) (w_disk w) = (Ok (m, None), disk) →
    calm_step w (goes p (leaving t) (on_disk disk w))
| step_decide_raises w p op t r e disk :
    w_procs w p = has_registry op t r → must_move op (w_disk w) = None →
    decide_op op r (w_now w) (w_disk w) = (Raise e, disk) →
    calm_step w (goes p (leaving t) (on_disk disk w))
| step_write w p t r new disk :
    w_procs w p = must_write t r new → write_registry new (w_disk w) = (Ok tt, disk) →
    calm_step w (goes p (leaving t) (on_disk disk w))
| step_leave w p t :
    w_procs w p = leaving t →
    calm_step w (goes p outside (on_disk (_release_registry_lock t (w_disk w)) w))
| step_crash w p : calm_step w (goes p outside w).

(** ** Steps that remove the lock of another process *)

Inductive takeover_step : World → World → Prop :=
| step_stale w p op t alive :
    w_procs w p = waiting op t → lock_is_stale p alive (w_now w) (w_disk w) = true →
    takeover_step w (goes p (removing op t) w)
| step_remove w p op t :
    w_procs w p = removing op t →
    takeover_step w (goes p (waiting op t) (on_disk (remove_lock (w_disk w)) w))
| step_no_owner w p op t :
    w_procs w p = lock_made op t →
    write_owner {| lo_token := t; lo_pid := getpid p; lo_hostname := hostname p |} (w_now w) (w_disk w)
      = None →
    takeover_step w (goes p outside (on_disk (remove_lock (w_disk w)) w)).

Definition store_step (w w' : World) : Prop := calm_step w w' ∨ takeover_step w w'.

(** A store that nothing was written to, and no process in it. *)
Definition empty_disk : Disk := {| releases := ∅; registry_file := None; lock_dir := None |}.
Definition new_world (now : Z) : World :=
  {| w_disk := empty_disk; w_now := now; w_token := 0; w_procs := λ _, outside |}.

(** The processes that believe they hold the lock, and the registry they work on. *)
Definition holds_lock (ph : Phase) : bool :=
  match ph with outside | waiting _ _ | removing _ _ => false | _ => true end.
Definition working_copy (ph : Phase) : option PublicDataRegistry :=
  match ph with
  | has_registry _ _ r | must_rename _ r _ _ | must_write _ r _ => Some r
  | _ => None
  end.

(** The registrations of the registry file; a missing file has none. *)
Definition file_datasets (disk : Disk) : gmap DatasetKind DatasetRegistration :=
  match registry_file disk with Some (Some r) => datasets r | _ => ∅ end.
End lock.
