(* ===== verification/PublicDataProofs.v ===== *)
(** * PublicDataProofs: well-formed stores, and what each operation does to one

    [good_registration] is what the store keeps for a dataset: every registered version has
    a release directory that validates, the active version is the last of the history, and
    exactly its manifest has the status [active].  [dirs_ok]: a release directory holds what
    one [stage] prepared. *)
From stdpp Require Import functions relations.
From S2P Require Import Prelude.
From S2P Require Import PublicData.
From S2P Require Import PublicDataLock.
#[global] Open Scope Z_scope.

Section proofs.
Context {A : Type} `{Measurement A} (sha256_of_lines : list string → string).
Context (encode_record : DatasetRecord A → string) (parse_record : string → option (DatasetRecord A)).
Implicit Types (disk : Disk) (m : DatasetManifest) (k : DatasetKind) (v : string).
Implicit Types (r : PublicDataRegistry) (reg : DatasetRegistration).

Abbreviation Dirs := (gmap (DatasetKind * string) ReleaseDir).
Implicit Types rel : Dirs.
Abbreviation fault := (release_fault sha256_of_lines parse_record).
Abbreviation staged := (staged_release sha256_of_lines encode_record parse_record).

(** ** Release directories *)

Definition dir_of m (lines : list string) : ReleaseDir :=
  {| records_file := Some lines; manifest_file := Some (Some m) |}.

(** What a manifest says of its release; the rest is the state of the registration. *)
Definition content m : DatasetRelease * string * Z :=
  (dm_release m, dm_content_sha256 m, dm_record_count m).

(** A directory passes the checks exactly when its manifest and its records agree with
    what is expected. *)
Definition agrees (dir : ReleaseDir) m : Prop :=
  ∃ lines written rs, dir = dir_of written lines ∧ content written = content m
    ∧ sha256_of_lines lines = dm_content_sha256 m ∧ _read_records parse_record lines = Some rs
    ∧ Z.of_nat (length rs) = dm_record_count m.

Lemma release_fault_none dir m : fault dir m = None ↔ ∃ d, dir = Some d ∧ agrees d m.
Proof.
  split.
  - unfold release_fault, agrees. destruct dir as [[[lines|] [[written|]|]]|]; simpl; try done.
    intros Hf. repeat case_match; bools; try done. eexists. split; [done|].
    exists lines, written. eexists. unfold content.
    repeat match goal with H : (_ =? _)%Z = true |- _ => apply Z.eqb_eq in H end.
    repeat split; try done; congruence.
  - intros (d & -> & lines & written & rs & -> & Hc & Hsha & Hrs & Hn).
    unfold content in Hc. injection Hc as Hc1 Hc2 Hc3. unfold release_fault. simpl.
    rewrite Hc1, Hc2, Hc3, Hsha, Hrs, Hn.
    by rewrite !bool_decide_eq_true_2, !Z.eqb_refl by done.
Qed.

Lemma agrees_content d m m' : content m = content m' → agrees d m → agrees d m'.
Proof.
  intros Hc (lines & written & rs & ? & ? & ? & ? & ?). exists lines, written, rs.
  unfold content in *. simplify_eq. repeat split; congruence.
Qed.

Lemma fault_content dir m m' : content m = content m' → fault dir m = None → fault dir m' = None.
Proof.
  rewrite !release_fault_none. intros Hc (d & -> & Ha). exists d. split; [done|].
  by eapply agrees_content.
Qed.

Lemma fault_mono rel rel' kv m : rel ⊆ rel' → fault (rel !! kv) m = None → fault (rel' !! kv) m = None.
Proof.
  rewrite !release_fault_none. intros Hsub (d & Hd & Ha). exists d. split; [|done].
  by eapply lookup_weaken.
Qed.

Lemma validate_directory k v m disk :
  _validate_release_directory sha256_of_lines parse_record k v m disk
  = match fault (releases disk !! (k, v)) m with
    | Some e => (Raise e, disk)
    | None => (Ok tt, disk)
    end.
Proof. unfold _validate_release_directory. rewrite bind_gets. by case_match. Qed.

(** The lines are those of the validated records, whose identities differ. *)
Lemma write_records_inv identities records lines :
  write_records encode_record identities records = inr lines →
  ∃ validated, mapM (valid_record is_finite) records = Some validated
    ∧ lines = map encode_record validated
    ∧ (∀ x, x ∈ validated → identity x ∉ identities) ∧ NoDup (map identity validated).
Proof.
  revert identities lines. induction records as [|x records IH]; intros identities lines; simpl.
  { intros [= <-]. exists []. repeat split; [set_solver|constructor]. }
  destruct (valid_record is_finite x) as [v|]; [|done]. case_bool_decide as Hv; [done|].
  destruct (write_records _ _ records) as [e|lines'] eqn:Hw; [done|]. intros [= <-].
  destruct (IH _ _ Hw) as (vs & Hvs & -> & Hnew & Hnd). exists (v :: vs). simpl. rewrite Hvs.
  split; [done|]. split; [done|]. split; [set_solver|]. constructor; [|done].
  intros (y & Heq & Hy)%list_elem_of_fmap. apply (Hnew y Hy). rewrite <- Heq. by left.
Qed.

Lemma prepared_inv release records now m lines :
  prepare_release sha256_of_lines encode_record parse_record release records now = inr (m, lines) →
  _write_validated_records encode_record records = inr lines
  ∧ dm_release m = release ∧ dm_status m = ds_staged
  ∧ dm_content_sha256 m = sha256_of_lines lines ∧ dm_record_count m = Z.of_nat (length lines)
  ∧ rl_source_sha256 release ≠ None ∧ fault (Some (dir_of m lines)) m = None.
Proof.
  unfold prepare_release. case_bool_decide; [done|].
  destruct (_write_validated_records _ records) as [e|written] eqn:Hw; [done|].
  case_match eqn:Hf; [done|]. intros [= <- <-]. simpl. repeat split; done.
Qed.

Lemma written_inv records lines :
  _write_validated_records encode_record records = inr lines →
  ∃ validated, mapM (valid_record is_finite) records = Some validated
    ∧ lines = map encode_record validated ∧ validated ≠ [] ∧ NoDup (map identity validated).
Proof.
  unfold _write_validated_records. destruct (write_records _ _ _) as [e|l] eqn:Hw; [done|].
  apply write_records_inv in Hw as (vs & Hvs & -> & _ & Hnd).
  destruct vs as [|v vs]; [done|]. intros [= <-]. by exists (v :: vs).
Qed.

(** The directories of a store: each holds what one call of [stage] prepared. *)
Definition dirs_ok rel : Prop :=
  ∀ k v d, rel !! (k, v) = Some d → ∃ m lines, staged m lines ∧ d = dir_of m lines
    ∧ rl_dataset (dm_release m) = k ∧ rl_version (dm_release m) = v.

(** ** Registrations *)

Definition good_registration rel k reg : Prop :=
  (∀ v m, versions reg !! v = Some m →
     rl_dataset (dm_release m) = k ∧ rl_version (dm_release m) = v
     ∧ fault (rel !! (k, v)) m = None ∧ (dm_status m = ds_active ↔ active_version reg = Some v))
  ∧ last (activation_history reg) = active_version reg
  ∧ NoDup (activation_history reg)
  ∧ (∀ v, v ∈ activation_history reg → is_Some (versions reg !! v)).

Definition good rel r : Prop := ∀ k, good_registration rel k (registration r k).

(** What was registered stays registered, with the same content. *)
Definition extends r r' : Prop :=
  ∀ k v m, versions (registration r k) !! v = Some m →
    ∃ m', versions (registration r' k) !! v = Some m' ∧ content m' = content m.

Lemma extends_refl r : extends r r.
Proof. intros k v m Hm. by exists m. Qed.

Lemma extends_trans r1 r2 r3 : extends r1 r2 → extends r2 r3 → extends r1 r3.
Proof.
  intros H12 H23 k v m Hm. apply H12 in Hm as (m2 & Hm2 & Hc2).
  apply H23 in Hm2 as (m3 & Hm3 & Hc3). exists m3. split; [done|]. congruence.
Qed.

Lemma no_registration_good rel k : good_registration rel k no_registration.
Proof.
  repeat split; simpl; try done; try (by intros ? ? []%lookup_empty_Some);
    [constructor|by intros v ?%not_elem_of_nil].
Qed.

Lemma no_registry_good rel now : good rel (no_registry now).
Proof. intros k. apply no_registration_good. Qed.

Lemma good_mono rel rel' r : rel ⊆ rel' → good rel r → good rel' r.
Proof.
  intros Hsub Hg k. destruct (Hg k) as (Hv & Hrest). split; [|done].
  intros v m Hm. destruct (Hv v m Hm) as (?&?&Hf&?). repeat split; try done; try tauto.
  by eapply fault_mono.
Qed.

(** The active version of a good registration is registered. *)
Lemma active_registered rel k reg v :
  good_registration rel k reg → active_version reg = Some v → ∃ m, versions reg !! v = Some m.
Proof.
  intros (_ & Hlast & _ & Hin) Ha. apply Hin. rewrite Ha in Hlast. by apply last_Some_elem_of.
Qed.

Lemma good_valid_registration rel k reg : good_registration rel k reg → valid_registration reg = true.
Proof.
  intros Hg. unfold valid_registration. apply andb_true_iff. split.
  - destruct (active_version reg) as [v|] eqn:Ha; [|done]. apply bool_decide_eq_true.
    by eapply active_registered.
  - apply forallb_forall. intros v Hv. apply bool_decide_eq_true.
    destruct Hg as (_ & _ & _ & Hin). apply Hin. by apply list_elem_of_In.
Qed.

Lemma good_valid rel r : good rel r → valid_registry r = true.
Proof.
  intros Hg. unfold valid_registry. apply forallb_forall. intros [k reg] Hin. simpl.
  apply list_elem_of_In, elem_of_map_to_list in Hin.
  apply (good_valid_registration rel k). specialize (Hg k). unfold registration in Hg.
  by rewrite Hin in Hg.
Qed.

Lemma registration_put r k k' reg now :
  registration (put_registration r k reg now) k' = if decide (k = k') then reg else registration r k'.
Proof.
  unfold registration, put_registration. simpl. rewrite lookup_insert. by case_decide.
Qed.

Lemma good_put rel r k reg now :
  good rel r → good_registration rel k reg → good rel (put_registration r k reg now).
Proof.
  intros Hg Hreg k'. rewrite registration_put. case_decide; [by subst|apply Hg].
Qed.

(** *** Activation *)

Lemma activated_versions reg v m now x :
  versions (activated reg v m now) !! x =
    if decide (x = v) then Some (m <| dm_status := ds_active |> <| dm_activated_at := Some now |>)
    else if decide (active_version reg = Some x) then set_status ds_superseded <$> versions reg !! x
    else versions reg !! x.
Proof.
  unfold activated. simpl. rewrite lookup_insert.
  case_decide as H1; case_decide as H2; try congruence; [].
  destruct (active_version reg) as [p|]; [|by case_decide].
  rewrite lookup_alter. repeat case_decide; congruence.
Qed.

Lemma filter_others (l : list string) v :
  List.filter (λ x, negb (bool_decide (x = v))) l = base.filter (λ x, x ≠ v) l.
Proof.
  induction l as [|x l IH]; [done|]. rewrite filter_cons. simpl. rewrite IH.
  by case_bool_decide; case_decide.
Qed.

Lemma activated_good rel k reg v m now :
  good_registration rel k reg → versions reg !! v = Some m → active_version reg ≠ Some v →
  good_registration rel k (activated reg v m now).
Proof.
  intros Hg Hm Hna. pose proof Hg as (Hv & Hlast & Hnd & Hin). split.
  - intros x m' Hx. rewrite activated_versions in Hx. simpl.
    case_decide as Hxv; [subst x; simplify_eq; destruct (Hv v m Hm) as (?&?&Hf&_)|case_decide as Ha].
    + by repeat split.
    + apply fmap_Some in Hx as (m1 & Hm1 & ->). destruct (Hv x m1 Hm1) as (?&?&Hf&_).
      repeat split; try done; congruence.
    + destruct (Hv x m' Hx) as (?&?&?&Hst). repeat split; try done; [tauto|congruence].
  - simpl. rewrite filter_others. split; [by rewrite last_snoc|]. split.
    + apply NoDup_app. split; [by apply NoDup_filter|]. split; [|apply NoDup_singleton].
      intros x [Hne _]%list_elem_of_filter Hx. by apply list_elem_of_singleton in Hx.
    + intros x Hx. rewrite lookup_insert. case_decide; [done|].
      apply elem_of_app in Hx as [[_ Hx]%list_elem_of_filter|Hx%list_elem_of_singleton]; [|congruence].
      apply Hin in Hx. destruct (active_version reg) as [p|]; [|done].
      rewrite lookup_alter. case_decide; [|done]. subst. by apply fmap_is_Some.
Qed.

Lemma activated_extends k v m now r :
  versions (registration r k) !! v = Some m →
  extends r (put_registration r k (activated (registration r k) v m now) now).
Proof.
  intros Hm k' x m' Hx. rewrite registration_put. case_decide; [subst k'|by exists m'].
  rewrite activated_versions. case_decide; [subst x; simplify_eq; by eexists|].
  case_decide; [|by exists m']. rewrite Hx. by eexists.
Qed.

(** What [_activate_locked] decides. *)
Lemma activate_in_run r k v now disk :
  activate_in sha256_of_lines parse_record r k v now disk =
    match versions (registration r k) !! v with
    | None => (Raise DatasetNotFoundError, disk)
    | Some m =>
        match fault (releases disk !! (k, v)) m with
        | Some e => (Raise e, disk)
        | None =>
            if bool_decide (active_version (registration r k) = Some v) then (Ok (m, None), disk)
            else (Ok (m <| dm_status := ds_active |> <| dm_activated_at := Some now |>,
                      Some (put_registration r k (activated (registration r k) v m now) now)), disk)
        end
    end.
Proof.
  unfold activate_in, _validate_registered. destruct (versions _ !! v) as [m|]; [|done].
  destruct (fault (releases disk !! (k, v)) m) as [e|] eqn:Hf.
  - do 2 apply bind_raised. by rewrite validate_directory, Hf.
  - erewrite bind_run; [|erewrite bind_run; [done|by rewrite validate_directory, Hf]].
    by case_bool_decide.
Qed.

(** *** Staging *)

Lemma staged_in_good rel r m now :
  good rel r → dm_status m = ds_staged →
  versions (registration r (rl_dataset (dm_release m))) !! rl_version (dm_release m) = None →
  fault (rel !! (rl_dataset (dm_release m), rl_version (dm_release m))) m = None →
  good rel (staged_in r m now).
Proof.
  intros Hg Hs Hnew Hf. unfold staged_in. apply good_put; [done|].
  pose proof (Hg (rl_dataset (dm_release m))) as Hreg. destruct Hreg as (Hv & Hlast & Hnd & Hin).
  split; [|split; [done|split; [done|]]]; simpl.
  - intros v m' Hx. apply lookup_insert_Some in Hx as [[<- <-]|[? Hx]]; [|by apply Hv].
    repeat split; try done; [by rewrite Hs|]. intros Ha.
    destruct (active_registered _ _ _ _ (Hg _) Ha). congruence.
  - intros v Hx. apply lookup_insert_is_Some'. right. by apply Hin.
Qed.

Lemma staged_in_extends r m now :
  versions (registration r (rl_dataset (dm_release m))) !! rl_version (dm_release m) = None →
  extends r (staged_in r m now).
Proof.
  intros Hnew k v m' Hx. unfold staged_in. rewrite registration_put. case_decide; [subst k|by exists m'].
  simpl. rewrite lookup_insert_ne; [by exists m'|]. congruence.
Qed.

Lemma staged_facts m lines :
  staged m lines → dm_status m = ds_staged ∧ fault (Some (dir_of m lines)) m = None.
Proof. intros (release & records & now & Hp). by apply prepared_inv in Hp as (_&_&?&_&_&_&?). Qed.

Lemma dirs_ok_insert rel m lines :
  dirs_ok rel → staged m lines →
  dirs_ok (<[(rl_dataset (dm_release m), rl_version (dm_release m)) := dir_of m lines]> rel).
Proof.
  intros Hd Hs k v d Hx. apply lookup_insert_Some in Hx as [[[= <- <-] <-]|[_ Hx]]; [|by apply Hd].
  by exists m, lines.
Qed.

(** A registered version has its directory. *)
Lemma good_has_dir rel r k v m :
  good rel r → versions (registration r k) !! v = Some m → is_Some (rel !! (k, v)).
Proof.
  intros Hg Hm. destruct (Hg k) as (Hv & _). apply Hv in Hm as (_ & _ & Hf & _).
  apply release_fault_none in Hf as (d & -> & _). done.
Qed.

Lemma rename_release_run m lines disk :
  rename_release m lines disk =
    match releases disk !! (rl_dataset (dm_release m), rl_version (dm_release m)) with
    | Some _ => (Raise RenameError, disk)
    | None => (Ok tt, disk <| releases ::=
        <[(rl_dataset (dm_release m), rl_version (dm_release m)) := dir_of m lines]> |>)
    end.
Proof. unfold rename_release. rewrite bind_gets. by case_match. Qed.

Lemma recoverable_key m0 m :
  recoverable m0 m = true → rl_dataset (dm_release m0) = rl_dataset (dm_release m)
  ∧ rl_version (dm_release m0) = rl_version (dm_release m).
Proof.
  unfold recoverable, without_retrieved_at. intros Hr. bools. destruct (dm_release m0), (dm_release m).
  by simplify_eq/=.
Qed.

(** What a commit decides when the directory of its release is there. *)
Lemma recover_in_run r m m0 lines0 now disk :
  staged m0 lines0 →
  releases disk !! (rl_dataset (dm_release m), rl_version (dm_release m)) = Some (dir_of m0 lines0) →
  recover_in sha256_of_lines parse_record r (dir_of m0 lines0) m now disk =
    if recoverable m0 m then
      match versions (registration r (rl_dataset (dm_release m))) !! rl_version (dm_release m) with
      | Some existing => (Ok (existing, None), disk)
      | None => (Ok (m0, Some (staged_in r m0 now)), disk)
      end
    else (Raise (verr "immutable_release_differs"), disk).
Proof.
  intros Hs Hd. unfold recover_in. rewrite bind_get_or_raise. simpl. rewrite bind_raise_if.
  destruct (recoverable m0 m) eqn:Hr; simpl; [|done].
  erewrite bind_run; [by case_match|].
  rewrite validate_directory, Hd. destruct (staged_facts _ _ Hs) as [_ Hf].
  by rewrite Hf.
Qed.

(** ** Well-formed stores *)

Definition disk_ok disk : Prop :=
  dirs_ok (releases disk) ∧
  match registry_file disk with
  | None => True
  | Some (Some r) => good (releases disk) r
  | Some None => False
  end.

Lemma read_registry_run now disk :
  disk_ok disk → ∃ r, read_registry now disk = (Ok r, disk) ∧ good (releases disk) r
    ∧ datasets r = file_datasets disk.
Proof.
  intros [_ Hf]. unfold read_registry, file_datasets. rewrite bind_gets.
  destruct (registry_file disk) as [[r|]|]; [|done|].
  - rewrite (good_valid _ _ Hf). by exists r.
  - exists (no_registry now). split; [done|]. split; [apply no_registry_good|done].
Qed.

Lemma disk_ok_write disk r :
  disk_ok disk → good (releases disk) r → disk_ok (disk <| registry_file := Some (Some r) |>).
Proof. intros [Hd _] Hg. by split. Qed.

Lemma disk_ok_rename disk m lines :
  disk_ok disk → staged m lines →
  releases disk !! (rl_dataset (dm_release m), rl_version (dm_release m)) = None →
  disk_ok (disk <| releases ::=
    <[(rl_dataset (dm_release m), rl_version (dm_release m)) := dir_of m lines]> |>).
Proof.
  intros [Hd Hf] Hs Hnew. split; [by apply dirs_ok_insert|]. simpl.
  destruct (registry_file disk) as [[r|]|]; try done.
  eapply good_mono, Hf. by apply insert_subseteq.
Qed.

(** What an operation other than the move of a new release decides: it writes nothing
    itself, and the registry it decides on extends the one it read. *)
Lemma decide_in_effect op r now disk m new disk' :
  disk_ok disk → good (releases disk) r → must_move op disk = None →
  decide_in sha256_of_lines parse_record op r now disk = (Ok (m, new), disk') →
  disk' = disk ∧ ∀ r', new = Some r' → good (releases disk) r' ∧ extends r r'.
Proof.
  intros Hok Hg Hmove Hrun.
  assert (∀ k v m new disk',
    activate_in sha256_of_lines parse_record r k v now disk = (Ok (m, new), disk') →
    disk' = disk ∧ ∀ r', new = Some r' → good (releases disk) r' ∧ extends r r') as Hact.
  { intros k v m' new' disk1. rewrite activate_in_run.
    destruct (versions _ !! v) as [m0|] eqn:Hm; [|done]. case_match; [done|].
    case_bool_decide as Ha; intros [= <- <- <-]; split; try done; intros r' [= <-].
    split; [apply good_put; [done|]; by apply activated_good|by apply activated_extends]. }
  destruct op as [k v|k|m1 lines]; simpl in *.
  - by eapply Hact.
  - unfold rollback_in in Hrun. case_match; [by eapply Hact|done].
  - destruct (releases disk !! _) as [d|] eqn:Hd; [|done].
    destruct Hok as [Hdirs Hfile]. destruct (Hdirs _ _ _ Hd) as (m0 & lines0 & Hs & -> & Hk & Hv).
    unfold commit_in in Hrun. rewrite bind_gets, Hd in Hrun.
    rewrite (recover_in_run _ _ _ _ _ _ Hs Hd) in Hrun.
    destruct (recoverable m0 m1) eqn:Hr; [|done].
    destruct (versions _ !! _) eqn:Hreg in Hrun; simplify_eq; split; try done; intros r' [= <-].
    rewrite <- Hk, <- Hv in Hreg. destruct (staged_facts _ _ Hs) as [Hst Hf].
    split; [|by apply staged_in_extends].
    apply staged_in_good; try done. by rewrite Hk, Hv, Hd.
Qed.

(** A failed operation changes nothing. *)
Lemma decide_in_raises op r now disk e disk' :
  disk_ok disk → must_move op disk = None →
  decide_in sha256_of_lines parse_record op r now disk = (Raise e, disk') → disk' = disk.
Proof.
  intros Hok Hmove Hrun.
  assert (∀ k v e disk', activate_in sha256_of_lines parse_record r k v now disk = (Raise e, disk') →
    disk' = disk) as Hact.
  { intros k v e' disk1. rewrite activate_in_run. repeat case_match; by intros [= _ <-]. }
  destruct op as [k v|k|m1 lines]; simpl in *.
  - by eapply Hact.
  - unfold rollback_in in Hrun. case_match; [by eapply Hact|by injection Hrun].
  - destruct (releases disk !! _) as [d|] eqn:Hd; [|done].
    destruct Hok as [Hdirs Hfile]. destruct (Hdirs _ _ _ Hd) as (m0 & lines0 & Hs & -> & Hk & Hv).
    unfold commit_in in Hrun. rewrite bind_gets, Hd in Hrun.
    rewrite (recover_in_run _ _ _ _ _ _ Hs Hd) in Hrun. repeat case_match; by injection Hrun.
Qed.
End proofs.
