(* ===== verification/PublicDataInvariant.v ===== *)
(** * PublicDataInvariant: what holds of the store in every interleaving

    [world_ok] holds whatever the processes do to each other's locks; [calm_ok] adds what
    the lock gives while no lock is taken over. *)
From stdpp Require Import functions relations.
From S2P Require Import Prelude.
From S2P Require Import PublicData.
From S2P Require Import PublicDataLock.
From S2P Require Import PublicDataProofs.
#[global] Open Scope Z_scope.

Section invariant.
Context {A : Type} `{Measurement A} (sha256_of_lines : list string → string).
Context (encode_record : DatasetRecord A → string) (parse_record : string → option (DatasetRecord A)).
Context (stale_lock_seconds : Z) (hostname : nat → string) (getpid : nat → Z).
Implicit Types (disk : Disk) (m : DatasetManifest) (k : DatasetKind) (v : string).
Implicit Types (r : PublicDataRegistry) (w : World) (ph : Phase).

Abbreviation staged := (staged_release sha256_of_lines encode_record parse_record).
Abbreviation prepared := (well_prepared sha256_of_lines encode_record parse_record).
Abbreviation good := (good sha256_of_lines parse_record).
Abbreviation disk_ok := (disk_ok sha256_of_lines encode_record parse_record).
Abbreviation calm := (calm_step sha256_of_lines encode_record parse_record hostname getpid).
Abbreviation takeover := (takeover_step stale_lock_seconds hostname getpid).
Abbreviation step :=
  (store_step sha256_of_lines encode_record parse_record stale_lock_seconds hostname getpid).

Definition phase_ok (rel : gmap (DatasetKind * string) ReleaseDir) ph : Prop :=
  match ph with
  | outside | leaving _ => True
  | waiting op _ | removing op _ | lock_made op _ | locked op _ => prepared op
  | has_registry op _ r => prepared op ∧ good rel r
  | must_rename _ r m lines =>
      good rel r ∧ staged m lines
      ∧ versions (registration r (rl_dataset (dm_release m))) !! rl_version (dm_release m) = None
  | must_write _ r new => good rel new ∧ extends r new
  end.

Definition world_ok w : Prop :=
  disk_ok (w_disk w) ∧ ∀ p, phase_ok (releases (w_disk w)) (w_procs w p).

Lemma phase_ok_mono rel rel' ph : rel ⊆ rel' → phase_ok rel ph → phase_ok rel' ph.
Proof.
  intros Hsub. destruct ph; simpl; try done; intros Hph; destruct_and? Hph; split_and?;
    try done; by eapply good_mono.
Qed.

(** One process moves on, and the releases on the disk grow. *)
Lemma world_ok_goes w p ph disk :
  world_ok w → disk_ok disk → releases (w_disk w) ⊆ releases disk →
  phase_ok (releases disk) ph → world_ok (goes p ph (on_disk disk w)).
Proof.
  intros [_ Hall] Hd Hsub Hph. split; [done|]. intros q. simpl.
  destruct (decide (p = q)) as [<-|]; [by rewrite fn_lookup_insert|].
  rewrite fn_lookup_insert_ne by done. by eapply phase_ok_mono.
Qed.

Lemma goes_here w p ph : goes p ph (on_disk (w_disk w) w) = goes p ph w.
Proof. by destruct w. Qed.

Lemma world_ok_moves w p ph :
  world_ok w → phase_ok (releases (w_disk w)) ph → world_ok (goes p ph w).
Proof. intros Hw Hph. rewrite <- goes_here. apply world_ok_goes; try done. apply Hw. Qed.

Lemma new_world_ok now : world_ok (new_world now).
Proof. by repeat split; try intros ? ? ? []%lookup_empty_Some. Qed.

(** Changing the lock alone changes nothing of the store. *)
Lemma disk_ok_lock disk disk' :
  releases disk' = releases disk → registry_file disk' = registry_file disk →
  disk_ok disk → disk_ok disk'.
Proof. unfold PublicDataProofs.disk_ok. by intros -> ->. Qed.

Lemma mkdir_same now disk disk' :
  mkdir_lock now disk = Some disk' →
  releases disk' = releases disk ∧ registry_file disk' = registry_file disk
  ∧ lock_dir disk = None ∧ lock_dir disk' ≠ None.
Proof. unfold mkdir_lock. destruct (lock_dir disk); [done|]. by intros [= <-]. Qed.

Lemma write_owner_same o now disk disk' :
  write_owner o now disk = Some disk' →
  releases disk' = releases disk ∧ registry_file disk' = registry_file disk ∧ lock_dir disk' ≠ None.
Proof.
  unfold write_owner. destruct (lock_dir disk) as [l|]; [|done]. by intros [= <-].
Qed.

Lemma release_lock_same t disk :
  releases (_release_registry_lock t disk) = releases disk
  ∧ registry_file (_release_registry_lock t disk) = registry_file disk.
Proof. unfold _release_registry_lock. by repeat case_match. Qed.

(** The steps of the phases that work on a registry. *)
Lemma move_ok op r disk m lines :
  must_move op disk = Some (m, lines) → prepared op → good (releases disk) r →
  staged m lines
  ∧ releases disk !! (rl_dataset (dm_release m), rl_version (dm_release m)) = None
  ∧ versions (registration r (rl_dataset (dm_release m))) !! rl_version (dm_release m) = None.
Proof.
  destruct op as [| |m' lines']; simpl; try done. case_match eqn:Hd; [done|].
  intros [= <- <-] Hp Hg. split_and!; try done.
  destruct (versions _ !! _) as [m0|] eqn:Hm; [|done].
  apply (good_has_dir _ _ _ _ _ _ _ Hg) in Hm as [d Hd']. congruence.
Qed.

Lemma rename_ok m lines disk disk' :
  disk_ok disk → staged m lines → rename_release m lines disk = (Ok tt, disk') →
  disk_ok disk' ∧ releases disk ⊆ releases disk' ∧ registry_file disk' = registry_file disk
  ∧ lock_dir disk' = lock_dir disk
  ∧ releases disk' !! (rl_dataset (dm_release m), rl_version (dm_release m)) = Some (dir_of m lines).
Proof.
  intros Hok Hs. rewrite rename_release_run. case_match eqn:Hd; [done|]. intros [= <-].
  split; [by apply disk_ok_rename|]. simpl. split_and!; try done.
  - by apply insert_subseteq.
  - by rewrite lookup_insert_eq.
Qed.

Lemma rename_raises m lines disk e disk' :
  rename_release m lines disk = (Raise e, disk') → disk' = disk.
Proof. rewrite rename_release_run. case_match; by intros [=]. Qed.

Lemma write_registry_ok r disk disk' :
  write_registry r disk = (Ok tt, disk') → disk' = disk <| registry_file := Some (Some r) |>.
Proof. by intros [= <-]. Qed.

Lemma renamed_staged_ok r m lines now rel :
  good rel r → staged m lines →
  versions (registration r (rl_dataset (dm_release m))) !! rl_version (dm_release m) = None →
  rel !! (rl_dataset (dm_release m), rl_version (dm_release m)) = Some (dir_of m lines) →
  good rel (staged_in r m now) ∧ extends r (staged_in r m now).
Proof.
  intros Hg Hs Hnew Hd. destruct (staged_facts _ _ _ _ _ Hs) as [Hst Hf].
  split; [|by apply staged_in_extends].
  apply staged_in_good; try done. by rewrite Hd.
Qed.

(** *** Every step keeps the store well-formed, and no step changes a release *)

Lemma calm_keeps w w' : calm w w' → world_ok w → world_ok w' ∧ releases (w_disk w) ⊆ releases (w_disk w').
Proof.
  intros Hstep Hw. pose proof Hw as [Hd Hph]. destruct Hstep as
    [w now|w p op Hp Hprep|w p op t disk Hp Hm|w p op t Hp Hl|w p op t disk Hp Hm
    |w p op t r disk Hp Hr|w p op t e disk Hp Hr|w p op t r m lines Hp Hm|w p t r m lines disk Hp Hr
    |w p t r m lines e disk Hp Hr|w p op t r m new disk Hp Hm Hr|w p op t r m disk Hp Hm Hr
    |w p op t r e disk Hp Hm Hr|w p t r new disk Hp Hr|w p t Hp|w p];
    try (specialize (Hph p) as Hme; rewrite Hp in Hme; simpl in Hme); simpl.
  - done.
  - split; [|done]. destruct (world_ok_moves w p (waiting op (w_token w)) Hw Hprep). by split.
  - apply mkdir_same in Hm as (Hrel & Hf & _). rewrite Hrel. split; [|done].
    apply world_ok_goes; try done; [by eapply disk_ok_lock|by rewrite Hrel].
  - split; [|done]. by apply world_ok_moves.
  - apply write_owner_same in Hm as (Hrel & Hf & _). rewrite Hrel. split; [|done].
    apply world_ok_goes; try done; [by eapply disk_ok_lock|by rewrite Hrel].
  - split; [|done]. apply world_ok_moves; [done|]. split; [done|].
    destruct (read_registry_run _ _ _ (w_now w) _ Hd) as (r' & Hr' & Hg & _). rewrite Hr' in Hr; by simplify_eq.
  - split; [|done]. by apply world_ok_moves.
  - split; [|done]. apply world_ok_moves; [done|].
    destruct Hme as [Hprep Hg]. destruct (move_ok _ _ _ _ _ Hm Hprep Hg) as (?&?&?). by split_and!.
  - destruct Hme as (Hg & Hs & Hnew). destruct (rename_ok _ _ _ _ Hd Hs Hr) as (Hd' & Hsub & _ & _ & Hdir).
    split; [|done]. apply world_ok_goes; try done. simpl.
    eapply renamed_staged_ok; try done. by eapply good_mono.
  - split; [|done]. by apply world_ok_moves.
  - destruct Hme as [Hprep Hg]. destruct (decide_in_effect _ _ _ _ _ _ _ _ _ _ Hd Hg Hm Hr) as [-> Hnew].
    split; [|done]. apply world_ok_goes; try done. by apply Hnew.
  - destruct Hme as [Hprep Hg]. destruct (decide_in_effect _ _ _ _ _ _ _ _ _ _ Hd Hg Hm Hr) as [-> _].
    split; [|done]. by apply world_ok_goes.
  - destruct Hme as [Hprep Hg]. rewrite (decide_in_raises _ _ _ _ _ _ _ _ _ Hd Hm Hr).
    split; [|done]. by apply world_ok_goes.
  - destruct Hme as [Hg Hext]. apply write_registry_ok in Hr as ->. split; [|done].
    apply world_ok_goes; try done. by apply disk_ok_write.
  - destruct (release_lock_same t (w_disk w)) as [Hrel Hf]. rewrite Hrel. split; [|done].
    apply world_ok_goes; try done; [by eapply disk_ok_lock|by rewrite Hrel].
  - split; [|done]. by apply world_ok_moves.
Qed.

Lemma takeover_keeps w w' :
  takeover w w' → world_ok w → world_ok w' ∧ releases (w_disk w) ⊆ releases (w_disk w').
Proof.
  intros Hstep Hw. pose proof Hw as [Hd Hph].
  destruct Hstep as [w p op t alive Hp _|w p op t Hp|w p op t Hp _]; (split; [|done]);
    specialize (Hph p) as Hme; rewrite Hp in Hme.
  - by apply world_ok_moves.
  - by apply world_ok_goes.
  - by apply world_ok_goes.
Qed.

Lemma step_keeps w w' : step w w' → world_ok w → world_ok w' ∧ releases (w_disk w) ⊆ releases (w_disk w').
Proof. intros [?|?]; [by apply calm_keeps|by apply takeover_keeps]. Qed.

Lemma run_keeps w w' :
  rtc step w w' → world_ok w → world_ok w' ∧ releases (w_disk w) ⊆ releases (w_disk w').
Proof.
  induction 1 as [w|w w1 w2 Hs _ IH]; [done|]. intros Hw.
  destruct (step_keeps _ _ Hs Hw) as [Hw1 Hsub]. destruct (IH Hw1). split; [done|]. by etrans.
Qed.

(** ** Mutual exclusion *)

Definition is_removing ph : bool := match ph with removing _ _ => true | _ => false end.

Definition exclusive w : Prop :=
  (∀ p, is_removing (w_procs w p) = false)
  ∧ (∀ p, holds_lock (w_procs w p) = true →
       lock_dir (w_disk w) ≠ None ∧ ∀ q, holds_lock (w_procs w q) = true → q = p)
  ∧ (∀ p r, working_copy (w_procs w p) = Some r → datasets r = file_datasets (w_disk w)).

Lemma working_holds ph r : working_copy ph = Some r → holds_lock ph = true.
Proof. by destruct ph. Qed.

Lemma new_world_exclusive now : exclusive (new_world now).
Proof. done. Qed.

(** The process that holds the lock moves on. *)
Lemma holder_moves w p ph disk :
  exclusive w → holds_lock (w_procs w p) = true → is_removing ph = false →
  lock_dir disk ≠ None → (∀ r, working_copy ph = Some r → datasets r = file_datasets disk) →
  exclusive (goes p ph (on_disk disk w)).
Proof.
  intros (Hrem & Hex & Hcur) Hp Hph Hl Hr. destruct (Hex p Hp) as [_ Honly].
  assert (∀ q, q ≠ p → holds_lock (w_procs w q) = false) as Hothers.
  { intros q Hq. destruct (holds_lock (w_procs w q)) eqn:Hhq; [|done]. by destruct Hq; apply Honly. }
  split; [|split]; intros q; simpl; destruct (decide (p = q)) as [<-|Hne];
    rewrite ?fn_lookup_insert, ?(fn_lookup_insert_ne _ _ _ _ Hne); try done.
  - intros _. split; [done|]. intros q. destruct (decide (p = q)) as [<-|Hne]; [done|].
    rewrite fn_lookup_insert_ne by done. rewrite Hothers by done. done.
  - by rewrite Hothers.
  - intros r Hw. apply working_holds in Hw. by rewrite Hothers in Hw.
Qed.

(** A process that does not hold the lock afterwards moves, and the disk stays. *)
Lemma outsider_moves w p ph :
  exclusive w → holds_lock ph = false → is_removing ph = false → exclusive (goes p ph w).
Proof.
  intros (Hrem & Hex & Hcur) Hph Hrm.
  assert (∀ q, holds_lock (w_procs (goes p ph w) q) = true → holds_lock (w_procs w q) = true) as Hsub.
  { intros q. simpl. destruct (decide (p = q)) as [<-|Hne].
    - by rewrite fn_lookup_insert, Hph.
    - by rewrite fn_lookup_insert_ne. }
  split; [|split]; intros q.
  - simpl. destruct (decide (p = q)) as [<-|Hne]; [by rewrite fn_lookup_insert|].
    by rewrite fn_lookup_insert_ne.
  - intros Hq. destruct (Hex q (Hsub q Hq)) as [Hl Honly]. split; [done|].
    intros q' Hq'. by apply Honly, Hsub.
  - intros r Hr. pose proof (Hsub q (working_holds _ _ Hr)) as Hq. apply (Hcur q).
    simpl in Hr. destruct (decide (p = q)) as [<-|Hne]; [|by rewrite fn_lookup_insert_ne in Hr].
    rewrite fn_lookup_insert in Hr. apply working_holds in Hr. congruence.
Qed.

Lemma mkdir_exclusive w p ph now disk :
  exclusive w → is_removing ph = false → working_copy ph = None →
  mkdir_lock now (w_disk w) = Some disk → exclusive (goes p ph (on_disk disk w)).
Proof.
  intros (Hrem & Hex & Hcur) Hph Hr Hm. apply mkdir_same in Hm as (_ & _ & Hl & Hl').
  assert (∀ q, holds_lock (w_procs w q) = false) as Hnone.
  { intros q. destruct (holds_lock (w_procs w q)) eqn:Hq; [|done]. by destruct (Hex q Hq). }
  split; [|split]; intros q; simpl; destruct (decide (p = q)) as [<-|Hne];
    rewrite ?fn_lookup_insert, ?(fn_lookup_insert_ne _ _ _ _ Hne); try done.
  - intros _. split; [done|]. intros q. destruct (decide (p = q)) as [<-|Hne]; [done|].
    rewrite fn_lookup_insert_ne by done. by rewrite Hnone.
  - by rewrite Hnone.
  - by rewrite Hr.
  - intros r Hw. apply working_holds in Hw. by rewrite Hnone in Hw.
Qed.

Lemma leave_exclusive w p t :
  exclusive w → holds_lock (w_procs w p) = true →
  exclusive (goes p outside (on_disk (_release_registry_lock t (w_disk w)) w)).
Proof.
  intros (Hrem & Hex & Hcur) Hp. destruct (Hex p Hp) as [_ Honly].
  assert (∀ q, q ≠ p → holds_lock (w_procs w q) = false) as Hothers.
  { intros q Hq. destruct (holds_lock (w_procs w q)) eqn:Hhq; [|done]. by destruct Hq; apply Honly. }
  split; [|split]; intros q; simpl; destruct (decide (p = q)) as [<-|Hne];
    rewrite ?fn_lookup_insert, ?(fn_lookup_insert_ne _ _ _ _ Hne); try done.
  - by rewrite Hothers.
  - intros r Hw. apply working_holds in Hw. by rewrite Hothers in Hw.
Qed.

Lemma file_datasets_same disk disk' :
  registry_file disk' = registry_file disk → file_datasets disk' = file_datasets disk.
Proof. unfold file_datasets. by intros ->. Qed.

Lemma holder_lock w p : exclusive w → holds_lock (w_procs w p) = true → lock_dir (w_disk w) ≠ None.
Proof. intros (_ & Hex & _) Hp. by destruct (Hex p Hp). Qed.

Lemma calm_exclusive w w' : calm w w' → world_ok w → exclusive w → exclusive w'.
Proof.
  intros Hstep Hw He. pose proof Hw as [Hd Hph]. destruct Hstep as
    [w now|w p op Hp Hprep|w p op t disk Hp Hm|w p op t Hp Hl|w p op t disk Hp Hm
    |w p op t r disk Hp Hr|w p op t e disk Hp Hr|w p op t r m lines Hp Hm|w p t r m lines disk Hp Hr
    |w p t r m lines e disk Hp Hr|w p op t r m new disk Hp Hm Hr|w p op t r m disk Hp Hm Hr
    |w p op t r e disk Hp Hm Hr|w p t r new disk Hp Hr|w p t Hp|w p];
    try (specialize (Hph p) as Hme; rewrite Hp in Hme; simpl in Hme);
    try (assert (holds_lock (w_procs w p) = true) as Hh by (by rewrite Hp);
         pose proof (holder_lock _ _ He Hh) as Hlock);
    try (pose proof He as (_ & _ & Hcur); specialize (Hcur p); rewrite Hp in Hcur; simpl in Hcur).
  - done.
  - by apply (outsider_moves w p (waiting op (w_token w)) He).
  - by eapply mkdir_exclusive.
  - by apply outsider_moves.
  - apply write_owner_same in Hm as (_ & _ & Hl). by apply holder_moves.
  - rewrite <- goes_here. apply holder_moves; try done. intros r' [= <-].
    destruct (read_registry_run _ _ _ (w_now w) _ Hd) as (r' & Hr' & _ & Hds).
    rewrite Hr' in Hr. by simplify_eq.
  - rewrite <- goes_here. by apply holder_moves.
  - rewrite <- goes_here. by apply holder_moves.
  - destruct Hme as (Hg & Hs & Hnew). destruct (rename_ok _ _ _ _ Hd Hs Hr) as (_ & _ & Hf & Hl & _).
    apply holder_moves; try done; [by rewrite Hl|]. intros r' Hr'.
    rewrite (file_datasets_same _ _ Hf). by apply Hcur.
  - rewrite <- goes_here. by apply holder_moves.
  - destruct Hme as [_ Hg]. destruct (decide_in_effect _ _ _ _ _ _ _ _ _ _ Hd Hg Hm Hr) as [-> _].
    by apply holder_moves.
  - destruct Hme as [_ Hg]. destruct (decide_in_effect _ _ _ _ _ _ _ _ _ _ Hd Hg Hm Hr) as [-> _].
    by apply holder_moves.
  - rewrite (decide_in_raises _ _ _ _ _ _ _ _ _ Hd Hm Hr). by apply holder_moves.
  - apply write_registry_ok in Hr as ->. by apply holder_moves.
  - by apply leave_exclusive.
  - by apply outsider_moves.
Qed.

Lemma calm_run w w' :
  rtc calm w w' → world_ok w → exclusive w → world_ok w' ∧ exclusive w'.
Proof.
  induction 1 as [w|w w1 w2 Hs _ IH]; [done|]. intros Hw He.
  destruct (calm_keeps _ _ Hs Hw) as [Hw1 _]. apply IH; [done|]. by eapply calm_exclusive.
Qed.

(** ** What is registered stays registered *)

Definition registered disk k v : option DatasetManifest :=
  reg ← file_datasets disk !! k; versions reg !! v.

Lemma registered_read r disk k v :
  datasets r = file_datasets disk → registered disk k v = versions (registration r k) !! v.
Proof.
  intros Hds. unfold registered, registration. rewrite <- Hds.
  by destruct (datasets r !! k).
Qed.

Lemma registered_same disk disk' k v :
  registry_file disk' = registry_file disk → registered disk' k v = registered disk k v.
Proof. intros Hf. unfold registered. by rewrite (file_datasets_same _ _ Hf). Qed.

Lemma calm_registered w w' k v m :
  calm w w' → world_ok w → exclusive w → registered (w_disk w) k v = Some m →
  ∃ m', registered (w_disk w') k v = Some m' ∧ content m' = content m.
Proof.
  intros Hstep Hw He Hreg. pose proof Hw as [Hd Hph].
  assert (∀ disk, registry_file disk = registry_file (w_disk w) →
    ∃ m', registered disk k v = Some m' ∧ content m' = content m) as Hsame.
  { intros disk Hf. exists m. by rewrite (registered_same _ _ _ _ Hf). }
  destruct Hstep as
    [w now|w p op Hp Hprep|w p op t disk Hp Hm|w p op t Hp Hl|w p op t disk Hp Hm
    |w p op t r disk Hp Hr|w p op t e disk Hp Hr|w p op t r m0 lines Hp Hm|w p t r m0 lines disk Hp Hr
    |w p t r m0 lines e disk Hp Hr|w p op t r m0 new disk Hp Hm Hr|w p op t r m0 disk Hp Hm Hr
    |w p op t r e disk Hp Hm Hr|w p t r new disk Hp Hr|w p t Hp|w p];
    try (specialize (Hph p) as Hme; rewrite Hp in Hme; simpl in Hme); simpl;
    try (by apply Hsame).
  - apply Hsame. by apply mkdir_same in Hm as (_ & ? & _).
  - apply Hsame. by apply write_owner_same in Hm as (_ & ? & _).
  - apply Hsame. destruct Hme as (Hg & Hs & Hnew). by destruct (rename_ok _ _ _ _ Hd Hs Hr) as (_ & _ & ? & _).
  - destruct Hme as [_ Hg]. destruct (decide_in_effect _ _ _ _ _ _ _ _ _ _ Hd Hg Hm Hr) as [-> _].
    by apply Hsame.
  - destruct Hme as [_ Hg]. destruct (decide_in_effect _ _ _ _ _ _ _ _ _ _ Hd Hg Hm Hr) as [-> _].
    by apply Hsame.
  - rewrite (decide_in_raises _ _ _ _ _ _ _ _ _ Hd Hm Hr). by apply Hsame.
  - destruct Hme as [_ Hext]. apply write_registry_ok in Hr as ->.
    destruct He as (_ & _ & Hcur). specialize (Hcur p). rewrite Hp in Hcur. simpl in Hcur.
    rewrite (registered_read r) in Hreg by (by apply Hcur). destruct (Hext _ _ _ Hreg) as (m' & Hm' & Hc).
    exists m'. split; [|done]. by rewrite (registered_read new).
  - apply Hsame. by destruct (release_lock_same t (w_disk w)).
Qed.

Lemma calm_run_registered w w' k v m :
  rtc calm w w' → world_ok w → exclusive w → registered (w_disk w) k v = Some m →
  ∃ m', registered (w_disk w') k v = Some m' ∧ content m' = content m.
Proof.
  intros Hrun. revert m. induction Hrun as [w|w w1 w2 Hs _ IH]; intros m Hw He Hreg; [by exists m|].
  destruct (calm_registered _ _ _ _ _ Hs Hw He Hreg) as (m1 & Hm1 & Hc1).
  destruct (calm_keeps _ _ Hs Hw) as [Hw1 _].
  destruct (IH m1 Hw1 (calm_exclusive _ _ Hs Hw He) Hm1) as (m2 & Hm2 & Hc2).
  exists m2. split; [done|]. congruence.
Qed.
End invariant.
