(* ===== verification/PublicDataTheorems.v ===== *)
(** * PublicDataTheorems: what the store of public datasets guarantees *)
From Stdlib Require Import Ascii.
From stdpp Require Import functions relations.
From S2P Require Import Prelude.
From S2P Require Import PublicData.
From S2P Require Import PublicDataValidation.
From S2P Require Import PublicDataLock.
From S2P Require Import PublicDataProofs.
From S2P Require Import PublicDataInvariant.
#[global] Open Scope Z_scope.

Section theorems.
Context {A : Type} `{Measurement A} (sha256_of_lines : list string → string).
Context (encode_record : DatasetRecord A → string) (parse_record : string → option (DatasetRecord A)).
Context (stale_lock_seconds : Z) (hostname : nat → string) (getpid : nat → Z).
Implicit Types (disk : Disk) (m : DatasetManifest) (k : DatasetKind) (v : string).
Implicit Types (r : PublicDataRegistry) (w : World).

Abbreviation staged := (staged_release sha256_of_lines encode_record parse_record).
Abbreviation prepared := (prepare_release sha256_of_lines encode_record parse_record).
Abbreviation disk_ok := (disk_ok sha256_of_lines encode_record parse_record).
Abbreviation calm := (calm_step sha256_of_lines encode_record parse_record hostname getpid).
Abbreviation step :=
  (store_step sha256_of_lines encode_record parse_record stale_lock_seconds hostname getpid).
Abbreviation records_of := (active_records sha256_of_lines parse_record).
Abbreviation stage_it := (stage sha256_of_lines encode_record parse_record).
Abbreviation activate_it := (activate sha256_of_lines parse_record).
Abbreviation rollback_it := (rollback sha256_of_lines parse_record).

(** Parsing the line of a record that the validators leave as it is gives its fields back,
    and such a line is not blank. *)
Definition codec : Prop :=
  ∀ rec, valid_record is_finite rec = Some rec →
    parse_record (encode_record rec) = Some rec ∧ py_strip (encode_record rec) ≠ ""%string.

(** What [model_validate] made of the staged records is read back from their lines. *)
Lemma read_records_encoded records validated :
  codec → mapM (valid_record is_finite) records = Some validated →
  _read_records parse_record (map encode_record validated) = Some validated.
Proof.
  intros Hc. revert validated. induction records as [|rec records IH]; intros vs; simpl.
  { by intros [= <-]. }
  intros (v & Hv & (vs' & Hvs & [= <-])%bind_Some)%bind_Some. simpl.
  apply valid_record_idem in Hv. destruct (Hc v Hv) as [Hd Hs].
  rewrite bool_decide_eq_false_2 by done. unfold decode_record. rewrite Hd. simpl. rewrite Hv. simpl.
  by rewrite (IH _ Hvs).
Qed.

(** ** Reading *)

Lemma active_manifest_run k now disk :
  disk_ok disk → ∃ r, read_registry now disk = (Ok r, disk)
    ∧ PublicDataProofs.good sha256_of_lines parse_record (releases disk) r
    ∧ datasets r = file_datasets disk
    ∧ active_manifest k now disk =
        (Ok (active_version (registration r k) ≫= λ v, versions (registration r k) !! v), disk).
Proof.
  intros Hok. destruct (read_registry_run _ _ _ now _ Hok) as (r & Hr & Hg & Hds).
  exists r. split_and!; try done. unfold active_manifest. by rewrite (bind_run _ _ _ _ _ Hr).
Qed.

Lemma active_records_run k g s now disk r :
  read_registry now disk = (Ok r, disk) →
  PublicDataProofs.good sha256_of_lines parse_record (releases disk) r →
  records_of k g s now disk =
    (Ok (default [] (v ← active_version (registration r k);
           dir ← releases disk !! (k, v); lines ← records_file dir;
           List.filter (record_matches g s) <$> _read_records parse_record lines)), disk).
Proof.
  intros Hr Hg. unfold active_records, active_manifest.
  rewrite (bind_run _ _ disk (active_version (registration r k) ≫= λ v, versions (registration r k) !! v) disk)
    by by rewrite (bind_run _ _ _ _ _ Hr).
  destruct (active_version (registration r k)) as [v|] eqn:Ha; [|done]. simpl.
  destruct (active_registered _ _ _ _ _ _ (Hg k) Ha) as [m Hm]. rewrite Hm.
  destruct (Hg k) as (Hv & _). destruct (Hv v m Hm) as (Hk & Hver & Hf & _).
  pose proof Hf as (d & Hd & lines & written & rs & -> & _ & _ & Hrs & _)%release_fault_none.
  rewrite (bind_run _ _ disk m disk).
  - rewrite bind_get_or_raise, Hver, Hd. simpl. by rewrite Hrs.
  - unfold validate. rewrite (bind_run _ _ _ _ _ Hr). unfold _validate_registered.
    rewrite Hver, Hm. erewrite bind_run; [done|]. by rewrite validate_directory, Hf.
Qed.

Lemma reachable_ok now w : rtc step (new_world now) w → disk_ok (w_disk w).
Proof.
  intros Hrun. apply (run_keeps _ _ _ _ _ _ _ _ Hrun). apply new_world_ok.
Qed.

(** C36: However processes interleave, crash, or take over each other's lock, the
    registry can be read; a dataset without an active release serves no record, and one
    with an active release serves exactly the records one staging prepared, as the model
    validated them, those that match the query, with the provenance, checksum and count
    its manifest states.  The condition: parsing the JSON line of a validated record gives
    its fields back. *)
Theorem active_release_is_served now w k g s at_ :
  codec → rtc step (new_world now) w →
  let disk := w_disk w in
  match active_manifest k at_ disk with
  | (Ok None, _) => records_of k g s at_ disk = (Ok [], disk)
  | (Ok (Some m), _) =>
      dm_status m = ds_active ∧ rl_dataset (dm_release m) = k ∧
      ∃ records validated m0 lines t,
        prepared (dm_release m) records t = inr (m0, lines) ∧ content m0 = content m
        ∧ mapM (valid_record is_finite) records = Some validated
        ∧ dm_record_count m = Z.of_nat (length validated) ∧ NoDup (map identity validated)
        ∧ records_of k g s at_ disk = (Ok (List.filter (record_matches g s) validated), disk)
  | (Raise _, _) => False
  end.
Proof.
  intros Hc Hrun disk. pose proof (reachable_ok _ _ Hrun) as Hok. fold disk in Hok.
  destruct (active_manifest_run k at_ disk Hok) as (r & Hr & Hg & _ & ->).
  pose proof (active_records_run k g s _ _ _ Hr Hg) as Hrec.
  destruct (active_version (registration r k)) as [v|] eqn:Ha; simpl in *; [|done].
  destruct (active_registered _ _ _ _ _ _ (Hg k) Ha) as [m Hm]. rewrite Hm.
  destruct (Hg k) as (Hv & _). destruct (Hv v m Hm) as (Hk & Hver & Hf & Hst).
  split; [by apply Hst|]. split; [done|].
  apply release_fault_none in Hf as (d & Hd & lines & written & rs & -> & Hcon & _).
  destruct (proj1 Hok k v _ Hd) as (m0 & lines0 & (release & records & t & Hp) & Heq & _).
  assert (m0 = written ∧ lines0 = lines) as [-> ->].
  { unfold dir_of in Heq. by simplify_eq. }
  destruct (prepared_inv _ _ _ _ _ _ _ _ Hp) as (Hw & Hrel & _ & _ & Hn & _).
  apply written_inv in Hw as (validated & Hvs & -> & _ & Hnd).
  exists records, validated, written, (map encode_record validated), t.
  assert (dm_release m = release ∧ dm_record_count m = dm_record_count written) as [-> ->]
    by (unfold content in Hcon; by simplify_eq).
  split; [done|]. split; [done|]. split; [done|]. split; [by rewrite Hn, length_map|]. split; [done|].
  rewrite Hrec, Hd. simpl. by rewrite (read_records_encoded _ _ Hc Hvs).
Qed.

(** A release directory never changes once it is there, whatever happens; and
    while no lock is taken over, a registered version stays registered with the same
    release, checksum and record count. *)
Theorem releases_are_kept now w w' k v :
  rtc step (new_world now) w → rtc step w w' →
  (∀ dir, releases (w_disk w) !! (k, v) = Some dir → releases (w_disk w') !! (k, v) = Some dir)
  ∧ (rtc calm (new_world now) w → rtc calm w w' → ∀ m,
      registered (w_disk w) k v = Some m →
      ∃ m', registered (w_disk w') k v = Some m' ∧ content m' = content m).
Proof.
  intros Hrun Hrun'.
  destruct (run_keeps _ _ _ _ _ _ _ _ Hrun (new_world_ok _ _ _ _)) as [Hw _].
  split.
  - intros dir Hdir. eapply lookup_weaken; [done|]. by apply (run_keeps _ _ _ _ _ _ _ _ Hrun' Hw).
  - intros Hcalm Hcalm' m Hm.
    destruct (calm_run _ _ _ _ _ _ _ Hcalm (new_world_ok _ _ _ _) (new_world_exclusive _)) as [_ He].
    by eapply calm_run_registered.
Qed.

(** While no lock is taken over, at most one process is between [mkdir] and the
    release of the lock, and the registry it works on is the one on the disk, so the one
    it writes loses no update. *)
Theorem one_process_works_on_the_registry now w p :
  rtc calm (new_world now) w → holds_lock (w_procs w p) = true →
  (∀ q, holds_lock (w_procs w q) = true → q = p)
  ∧ ∀ r, working_copy (w_procs w p) = Some r → datasets r = file_datasets (w_disk w).
Proof.
  intros Hrun Hp.
  destruct (calm_run _ _ _ _ _ _ _ Hrun (new_world_ok _ _ _ _) (new_world_exclusive _))
    as [_ (_ & Hex & Hcur)].
  split; [by apply Hex|]. intros r. apply Hcur.
Qed.

(** ** Operations run one after the other *)

Abbreviation locked_run := (run_locked sha256_of_lines parse_record).
Abbreviation good := (PublicDataProofs.good sha256_of_lines parse_record).

Lemma run_locked_run op now disk r :
  read_registry now disk = (Ok r, disk) →
  locked_run op now disk =
    match decide_in sha256_of_lines parse_record op r now disk with
    | (Ok (m, Some new), d) => (Ok m, d <| registry_file := Some (Some new) |>)
    | (Ok (m, None), d) => (Ok m, d)
    | (Raise e, d) => (Raise e, d)
    end.
Proof.
  intros Hr. unfold run_locked. rewrite (bind_run _ _ _ _ _ Hr). unfold mbind, M_bind.
  by destruct (decide_in _ _ _ _ _ _) as [[[m [new|]]|e] d].
Qed.

(** What a commit decides. *)
Lemma commit_in_run r m lines now disk :
  disk_ok disk →
  commit_in sha256_of_lines parse_record r m lines now disk =
    match releases disk !! (rl_dataset (dm_release m), rl_version (dm_release m)) with
    | None => (Ok (m, Some (staged_in r m now)), disk <| releases ::=
        <[(rl_dataset (dm_release m), rl_version (dm_release m)) := dir_of m lines]> |>)
    | Some d => recover_in sha256_of_lines parse_record r d m now disk
    end.
Proof.
  intros Hok. unfold commit_in. rewrite bind_gets. destruct (releases disk !! _) as [d|] eqn:Hd; [done|].
  erewrite bind_run; [|by rewrite rename_release_run, Hd]. done.
Qed.

(** An operation keeps the store well-formed. *)
Lemma run_locked_ok op now disk res disk' :
  disk_ok disk → well_prepared sha256_of_lines encode_record parse_record op →
  locked_run op now disk = (res, disk') → disk_ok disk'.
Proof.
  intros Hok Hp. destruct (read_registry_run _ _ _ now _ Hok) as (r & Hr & Hg & _).
  rewrite (run_locked_run _ _ _ _ Hr). destruct (must_move op disk) as [[m lines]|] eqn:Hm.
  - destruct (move_ok _ _ _ _ _ _ _ _ Hm Hp Hg) as (Hs & Hd & Hnew).
    destruct op as [| |m' lines']; try done; simpl in Hm.
    destruct (releases disk !! _) in Hm; simplify_eq. simpl.
    rewrite commit_in_run, Hd by done. intros [= _ <-].
    assert (rename_release m lines disk = (Ok tt, disk <| releases ::=
      <[(rl_dataset (dm_release m), rl_version (dm_release m)) := dir_of m lines]> |>)) as Hren
      by by rewrite rename_release_run, Hd.
    destruct (rename_ok _ _ _ _ _ _ _ Hok Hs Hren) as (Hok' & Hsub & _ & _ & Hdir).
    apply disk_ok_write; [done|]. eapply renamed_staged_ok; try done. by eapply good_mono.
  - destruct (decide_in _ _ _ _ _ _) as [[[m new]|e] d] eqn:Hdec.
    + destruct (decide_in_effect _ _ _ _ _ _ _ _ _ _ Hok Hg Hm Hdec) as [-> Hnew].
      destruct new as [new|]; intros [= _ <-]; [|done]. apply disk_ok_write; [done|]. by apply Hnew.
    + rewrite (decide_in_raises _ _ _ _ _ _ _ _ _ Hok Hm Hdec). by intros [= _ <-].
Qed.

(** *** Activation and rollback *)

Definition active_of disk k : option string := reg ← file_datasets disk !! k; active_version reg.

Lemma active_of_read r disk k :
  datasets r = file_datasets disk → active_of disk k = active_version (registration r k).
Proof. intros Hds. unfold active_of, registration. rewrite <- Hds. by destruct (datasets r !! k). Qed.

Lemma activate_run k v now disk r m :
  disk_ok disk → read_registry now disk = (Ok r, disk) → good (releases disk) r →
  versions (registration r k) !! v = Some m → active_version (registration r k) ≠ Some v →
  activate_it k v now disk =
    (Ok (m <| dm_status := ds_active |> <| dm_activated_at := Some now |>),
     disk <| registry_file := Some (Some
       (put_registration r k (activated (registration r k) v m now) now)) |>).
Proof.
  intros Hok Hr Hg Hm Ha. unfold activate. rewrite (run_locked_run _ _ _ _ Hr). simpl.
  destruct (Hg k) as (Hv & _). destruct (Hv v m Hm) as (_ & _ & Hf & _).
  rewrite activate_in_run, Hm, Hf. by rewrite bool_decide_eq_false_2.
Qed.

(** After the activation of a version over another one, the other one is the target. *)
Lemma rollback_target_activated rel k reg v v1 m now :
  good_registration sha256_of_lines parse_record rel k reg →
  active_version reg = Some v1 → v ≠ v1 → rollback_target (activated reg v m now) = Some v1.
Proof.
  intros (_ & Hlast & Hnd & _) Ha Hne. unfold rollback_target. simpl.
  rewrite rev_app_distr. simpl. rewrite bool_decide_eq_true_2 by done. simpl.
  rewrite Ha in Hlast. apply last_Some in Hlast as [h Hh]. rewrite Hh, List.filter_app. simpl.
  rewrite bool_decide_eq_false_2 by done. simpl. rewrite rev_app_distr. simpl.
  by rewrite bool_decide_eq_false_2 by congruence.
Qed.

(** What is served depends on the releases and on the active version. *)
Lemma same_active_same_records k g s t disk disk' :
  disk_ok disk → disk_ok disk' → releases disk' = releases disk → active_of disk' k = active_of disk k →
  (records_of k g s t disk').1 = (records_of k g s t disk).1.
Proof.
  intros Hok Hok' Hrel Ha.
  destruct (read_registry_run _ _ _ t _ Hok) as (ra & Hra & Hga & Hdsa).
  destruct (read_registry_run _ _ _ t _ Hok') as (rb & Hrb & Hgb & Hdsb).
  rewrite (active_records_run _ _ _ _ _ _ Hra Hga), (active_records_run _ _ _ _ _ _ Hrb Hgb). simpl.
  by rewrite <- (active_of_read _ _ k Hdsa), <- (active_of_read _ _ k Hdsb), Hrel, Ha.
Qed.

(** The registry after a successful activation. *)
Lemma activation_effect k v now disk r m :
  disk_ok disk → read_registry now disk = (Ok r, disk) → good (releases disk) r →
  versions (registration r k) !! v = Some m → active_version (registration r k) ≠ Some v →
  let r' := put_registration r k (activated (registration r k) v m now) now in
  disk_ok (disk <| registry_file := Some (Some r') |>)
  ∧ registration r' k = activated (registration r k) v m now
  ∧ active_of (disk <| registry_file := Some (Some r') |>) k = Some v
  ∧ ∀ k', k' ≠ k → datasets r' !! k' = datasets r !! k'.
Proof.
  intros Hok Hr Hg Hm Ha r'. split_and!.
  - apply disk_ok_write; [done|]. apply good_put; [done|]. by apply activated_good.
  - unfold r'. rewrite registration_put. by rewrite decide_True.
  - unfold active_of, file_datasets. simpl. by rewrite lookup_insert_eq.
  - intros k' Hk. simpl. by rewrite lookup_insert_ne.
Qed.

(** Activating a version and rolling back is undone: the version that was active is
    active again and serves the records it served, no release and no other dataset has
    changed. *)
Theorem rollback_undoes_activation k v1 v2 now1 now2 m disk disk1 :
  disk_ok disk → active_of disk k = Some v1 → v2 ≠ v1 →
  activate_it k v2 now1 disk = (Ok m, disk1) →
  ∃ m' disk2, rollback_it k now2 disk1 = (Ok m', disk2)
    ∧ active_of disk2 k = Some v1 ∧ dm_status m' = ds_active
    ∧ (∀ g s t, (records_of k g s t disk2).1 = (records_of k g s t disk).1)
    ∧ releases disk2 = releases disk
    ∧ ∀ k', k' ≠ k → file_datasets disk2 !! k' = file_datasets disk !! k'.
Proof.
  intros Hok Ha1 Hne Hact.
  destruct (read_registry_run _ _ _ now1 _ Hok) as (r & Hr & Hg & Hds).
  pose proof Ha1 as Har. rewrite (active_of_read _ _ _ Hds) in Har.
  destruct (versions (registration r k) !! v2) as [m2|] eqn:Hm2.
  2:{ unfold activate in Hact. rewrite (run_locked_run _ _ _ _ Hr) in Hact. simpl in Hact.
      by rewrite activate_in_run, Hm2 in Hact. }
  assert (active_version (registration r k) ≠ Some v2) as Hna by congruence.
  rewrite (activate_run _ _ _ _ _ _ Hok Hr Hg Hm2 Hna) in Hact. injection Hact as <- <-.
  destruct (activation_effect _ _ _ _ _ _ Hok Hr Hg Hm2 Hna) as (Hok1 & Hreg1 & _ & Hother1).
  set (r1 := put_registration _ _ _ _) in *. set (disk1 := set_field registry_file _ _) in *.
  assert (read_registry now2 disk1 = (Ok r1, disk1)) as Hr1.
  { destruct (read_registry_run _ _ _ now2 _ Hok1) as (r1' & Hr1 & _). revert Hr1.
    unfold read_registry. rewrite bind_gets. simpl. case_match; [done|by intros [=]]. }
  destruct (active_registered _ _ _ _ _ _ (Hg k) Har) as [m1 Hm1].
  assert (versions (registration r1 k) !! v1 = Some (set_status ds_superseded m1)) as Hm1'.
  { rewrite Hreg1, activated_versions, Har. rewrite !decide_False by congruence.
    rewrite decide_True by done. by rewrite Hm1. }
  pose proof (rollback_target_activated _ _ _ v2 v1 m2 now1 (Hg k) Har Hne) as Htarget.
  rewrite <- Hreg1 in Htarget.
  assert (active_version (registration r1 k) ≠ Some v1) as Hna1 by (rewrite Hreg1; simpl; congruence).
  assert (good (releases disk1) r1) as Hg1 by apply Hok1.
  pose proof (activate_run _ _ _ _ _ _ Hok1 Hr1 Hg1 Hm1' Hna1) as Hback.
  destruct (activation_effect _ _ _ _ _ _ Hok1 Hr1 Hg1 Hm1' Hna1) as (Hok2 & _ & Ha2 & Hother2).
  eexists _, _. split.
  { rewrite <- Hback. unfold rollback, activate. rewrite !(run_locked_run _ _ _ _ Hr1). simpl.
    unfold rollback_in. by rewrite Htarget. }
  split; [exact Ha2|split; [done|split; [|split; [done|]]]].
  - intros g s t. apply same_active_same_records; try done. by rewrite Ha2.
  - intros k' Hk. rewrite <- Hds, <- (Hother1 k' Hk). by apply Hother2.
Qed.

(** *** Staging *)

Abbreviation kind_of m := (rl_dataset (dm_release m)).
Abbreviation version_of m := (rl_version (dm_release m)).

(** What has to agree for a release to be taken for the one on the disk. *)
Definition same_release m m' : Prop :=
  without_retrieved_at (dm_release m) = without_retrieved_at (dm_release m')
  ∧ dm_content_sha256 m = dm_content_sha256 m' ∧ dm_record_count m = dm_record_count m'.

#[local] Instance same_release_equivalence : Equivalence same_release.
Proof.
  unfold same_release. split; [done|intros x y (?&?&?); by split_and!|].
  intros x y z (?&?&?) (?&?&?). split_and!; congruence.
Qed.

Lemma recoverable_iff m m' : recoverable m m' = true ↔ same_release m m'.
Proof.
  unfold recoverable, same_release. rewrite !andb_true_iff, !bool_decide_eq_true, Z.eqb_eq. tauto.
Qed.

Lemma content_same_release m m' : content m = content m' → same_release m m'.
Proof. unfold content, same_release. intros Hc. by injection Hc as -> -> ->. Qed.

Lemma same_release_key m m' : same_release m m' → kind_of m = kind_of m' ∧ version_of m = version_of m'.
Proof. intros Hs. apply recoverable_key. by apply recoverable_iff. Qed.

(** Retrieved and staged at another time, the same records give the same release. *)
Lemma prepared_again release records t now now' m lines :
  prepared release records now = inr (m, lines) →
  ∃ m', prepared (release <| rl_retrieved_at := t |>) records now' = inr (m', lines) ∧ same_release m m'.
Proof.
  intros Hp. destruct (prepared_inv _ _ _ _ _ _ _ _ Hp) as (Hw & Hrel & _ & Hsha & Hn & Hs & Hf).
  unfold prepare_release. rewrite bool_decide_eq_false_2 by done. rewrite Hw.
  match goal with |- context [inr (?x, _)] => exists x; assert (release_fault sha256_of_lines parse_record
    (Some (dir_of x lines)) x = None) as Hx end.
  { apply release_fault_none in Hf as (d & [= <-] & lines' & written & rs & [= -> ->] & _ & Hsha' & Hrs & Hc).
    apply release_fault_none. eexists. split; [done|]. eexists _, _, rs. split_and!; try done. simpl. congruence. }
  unfold dir_of in Hx. rewrite Hx. split; [done|].
  unfold same_release. simpl. split_and!; [by rewrite Hrel|congruence|congruence].
Qed.

Section found.
Context (disk : Disk) (m0 : DatasetManifest) (lines0 : list string).
Context (Hok : disk_ok disk) (Hs0 : staged m0 lines0).
Context (Hd0 : releases disk !! (kind_of m0, version_of m0) = Some (dir_of m0 lines0)).

(** Staging what is on the disk already. *)
Lemma stage_found release records now m lines r :
  prepared release records now = inr (m, lines) → read_registry now disk = (Ok r, disk) → same_release m0 m →
  stage_it release records now disk =
    match versions (registration r (kind_of m0)) !! version_of m0 with
    | Some existing => (Ok existing, disk)
    | None => (Ok m0, disk <| registry_file := Some (Some (staged_in r m0 now)) |>)
    end.
Proof.
  intros Hp Hr Hsame. pose proof (same_release_key _ _ Hsame) as [Hk Hv]. unfold stage. rewrite Hp.
  rewrite (run_locked_run _ _ _ _ Hr). simpl. rewrite commit_in_run by done. rewrite <- Hk, <- Hv, Hd0.
  rewrite (recover_in_run _ _ _ _ _ _ _ _ _ Hs0) by (by rewrite <- Hk, <- Hv).
  rewrite (proj2 (recoverable_iff _ _) Hsame), <- Hk, <- Hv. by destruct (versions _ !! _).
Qed.

(** Staging something else under its name. *)
Lemma stage_conflict release records now m lines :
  prepared release records now = inr (m, lines) →
  kind_of m = kind_of m0 → version_of m = version_of m0 → ¬ same_release m0 m →
  stage_it release records now disk = (Raise (verr "immutable_release_differs"), disk).
Proof.
  intros Hp Hk Hv Hdiff. destruct (read_registry_run _ _ _ now _ Hok) as (r & Hr & _).
  unfold stage. rewrite Hp, (run_locked_run _ _ _ _ Hr). simpl. rewrite commit_in_run, Hk, Hv, Hd0 by done.
  rewrite (recover_in_run _ _ _ _ _ _ _ _ _ Hs0) by (by rewrite Hk, Hv).
  destruct (recoverable m0 m) eqn:Hrec; [|done]. by apply recoverable_iff in Hrec.
Qed.
End found.

(** The store after a staging: the release is on the disk and registered. *)
Definition holds_release disk m : Prop :=
  disk_ok disk ∧ registered disk (kind_of m) (version_of m) = Some m
  ∧ ∃ m0 lines0, staged m0 lines0 ∧ content m0 = content m
    ∧ releases disk !! (kind_of m0, version_of m0) = Some (dir_of m0 lines0).

Lemma registered_staged disk r m now :
  registered (disk <| registry_file := Some (Some (staged_in r m now)) |>) (kind_of m) (version_of m) = Some m.
Proof. unfold registered, file_datasets. simpl. rewrite lookup_insert_eq. simpl. by rewrite lookup_insert_eq. Qed.

Lemma stage_holds release records now m lines disk m1 disk1 :
  disk_ok disk → prepared release records now = inr (m, lines) →
  stage_it release records now disk = (Ok m1, disk1) → holds_release disk1 m1 ∧ same_release m1 m.
Proof.
  intros Hok Hp Hrun. assert (staged m lines) as Hs by (by eexists _, _, _).
  assert (disk_ok disk1) as Hok1.
  { unfold stage in Hrun. rewrite Hp in Hrun. eapply run_locked_ok, Hrun; done. }
  destruct (read_registry_run _ _ _ now _ Hok) as (r & Hr & Hg & Hds).
  destruct (releases disk !! (kind_of m, version_of m)) as [d|] eqn:Hd.
  - destruct (proj1 Hok _ _ _ Hd) as (m0 & lines0 & Hs0 & -> & Hk & Hv). rewrite <- Hk, <- Hv in Hd.
    destruct (decide (recoverable m0 m = true)) as [Hrec%recoverable_iff|Hrec].
    2:{ rewrite (stage_conflict _ _ _ Hok Hs0 Hd _ _ _ _ _ Hp) in Hrun; try done.
        by rewrite <- recoverable_iff. }
    rewrite (stage_found _ _ _ Hok Hs0 Hd _ _ _ _ _ _ Hp Hr Hrec) in Hrun.
    destruct (versions _ !! _) as [e|] eqn:He; injection Hrun as <- <-.
    + destruct (Hg (kind_of m0)) as (Hall & _). destruct (Hall _ _ He) as (Hek & Hev & Hf & _).
      rewrite Hd in Hf. apply release_fault_none in Hf as (d & [= <-] & l & w & rs & [= <- <-] & Hc & _).
      split; [|etrans; [|exact Hrec]; symmetry; by apply content_same_release].
      split; [done|]. split; [|by exists m0, lines0].
      rewrite (registered_read r) by done. by rewrite Hek, Hev.
    + split; [|done]. split; [done|]. split; [apply registered_staged|by exists m0, lines0].
  - unfold stage in Hrun. rewrite Hp, (run_locked_run _ _ _ _ Hr) in Hrun. simpl in Hrun.
    rewrite commit_in_run, Hd in Hrun by done. injection Hrun as <- <-.
    split; [|by apply content_same_release]. split; [done|]. split; [apply registered_staged|].
    exists m, lines. split_and!; try done. simpl. by rewrite lookup_insert_eq.
Qed.

(** Staging is repeatable and releases are write-once.  After a release was staged,
    staging the same records again, retrieved at another time, returns the registered
    manifest and writes nothing; other records or provenance under the same version are
    refused and nothing changes; and when a process dies after it moved the release into
    place, staging again registers the release that is there. *)
Theorem staging_is_repeatable release records now m lines disk m1 disk1 :
  disk_ok disk → prepared release records now = inr (m, lines) →
  stage_it release records now disk = (Ok m1, disk1) →
  (∀ t now', stage_it (release <| rl_retrieved_at := t |>) records now' disk1 = (Ok m1, disk1))
  ∧ (∀ release' records' now' m' lines', prepared release' records' now' = inr (m', lines') →
       kind_of m' = kind_of m → version_of m' = version_of m → ¬ same_release m m' →
       stage_it release' records' now' disk1 = (Raise (verr "immutable_release_differs"), disk1))
  ∧ (∀ moved, rename_release m lines disk = (Ok tt, moved) → ∀ t now', ∃ disk2,
       stage_it (release <| rl_retrieved_at := t |>) records now' moved = (Ok m, disk2)
       ∧ holds_release disk2 m ∧ releases disk2 = releases moved).
Proof.
  intros Hok Hp Hrun.
  destruct (stage_holds _ _ _ _ _ _ _ _ Hok Hp Hrun) as [(Hok1 & Hreg1 & m0 & lines0 & Hs0 & Hc0 & Hd0) Hsame].
  assert (same_release m0 m) as Hsame0.
  { etrans; [by apply content_same_release|done]. }
  split_and!.
  - intros t now'. destruct (prepared_again _ _ t _ now' _ _ Hp) as (m' & Hp' & Hsame').
    destruct (read_registry_run _ _ _ now' _ Hok1) as (r1 & Hr1 & _ & Hds1).
    rewrite (stage_found _ _ _ Hok1 Hs0 Hd0 _ _ _ _ _ _ Hp' Hr1) by by etrans.
    rewrite (registered_read r1) in Hreg1 by done.
    assert (dm_release m0 = dm_release m1) as -> by (unfold content in Hc0; by simplify_eq). by rewrite Hreg1.
  - intros release' records' now' m' lines' Hp' Hk Hv Hdiff.
    destruct (same_release_key _ _ Hsame0) as [Hk0 Hv0].
    apply (stage_conflict _ _ _ Hok1 Hs0 Hd0 _ _ _ _ _ Hp'); [congruence|congruence|].
    intros Hs. apply Hdiff. etrans; [by symmetry|done].
  - intros moved Hmove t now'. assert (staged m lines) as Hs by (by eexists _, _, _).
    destruct (rename_ok _ _ _ _ _ _ _ Hok Hs Hmove) as (Hokm & _ & Hf & _ & Hdm).
    destruct (prepared_again _ _ t _ now' _ _ Hp) as (m' & Hp' & Hsame').
    destruct (read_registry_run _ _ _ now' _ Hokm) as (r & Hr & Hg & Hds).
    assert (versions (registration r (kind_of m)) !! version_of m = None) as Hnew.
    { destruct (versions _ !! _) as [e|] eqn:He; [|done].
      destruct (read_registry_run _ _ _ now' _ Hok) as (r' & _ & Hg' & Hds').
      rewrite <- (registered_read r moved) in He by done. rewrite (registered_same _ _ _ _ Hf) in He.
      rewrite (registered_read r') in He by done.
      apply (good_has_dir _ _ _ _ _ _ _ Hg') in He as [d Hd].
      rewrite rename_release_run, Hd in Hmove. done. }
    pose proof (stage_found _ _ _ Hokm Hs Hdm _ _ _ _ _ _ Hp' Hr Hsame') as Hagain. rewrite Hnew in Hagain.
    eexists. split; [exact Hagain|]. split; [|done].
    by destruct (stage_holds _ _ _ _ _ _ _ _ Hokm Hp' Hagain).
Qed.

(** ** Stale locks *)

Abbreviation takeover := (takeover_step stale_lock_seconds hostname getpid).

(** A process that found the lock stale removes the lock that is there by now, takes it
    and reads the registry. *)
Lemma steals_lock w p op t :
  registry_file (w_disk w) = None → w_procs w p = removing op t →
  ∃ w', rtc step w w' ∧ registry_file (w_disk w') = None ∧ is_Some (working_copy (w_procs w' p))
    ∧ ∀ q, q ≠ p → w_procs w' q = w_procs w q.
Proof.
  intros Hf Hp. set (d0 := remove_lock (w_disk w)).
  set (d1 := d0 <| lock_dir := Some {| lock_mtime := w_now w; lock_owner := None |} |>).
  set (d2 := d0 <| lock_dir := Some {| lock_mtime := w_now w;
    lock_owner := Some {| lo_token := t; lo_pid := getpid p; lo_hostname := hostname p |} |} |>).
  set (w1 := goes p (waiting op t) (on_disk d0 w)).
  set (w2 := goes p (lock_made op t) (on_disk d1 w1)).
  set (w3 := goes p (locked op t) (on_disk d2 w2)).
  exists (goes p (has_registry op t (no_registry (w_now w3))) w3). split; [|split; [done|split]].
  - eapply rtc_l; [by right; apply step_remove|].
    eapply rtc_l; [left; apply (step_mkdir _ _ _ _ _ w1 p op t d1); [apply fn_lookup_insert|done]|].
    eapply rtc_l; [left; apply (step_owner _ _ _ _ _ w2 p op t d2); [apply fn_lookup_insert|done]|].
    eapply rtc_l; [left; apply (step_read _ _ _ _ _ w3 p op t (no_registry (w_now w3)) d2); [apply fn_lookup_insert|]|apply rtc_refl].
    unfold read_registry. rewrite bind_gets. change (registry_file (w_disk w3)) with (registry_file (w_disk w)).
    by rewrite Hf.
  - simpl. rewrite fn_lookup_insert. by eexists.
  - intros q Hq. simpl. by rewrite !fn_lookup_insert_ne by done.
Qed.

(** A process checks that a lock is stale and removes it in two steps: after another
    process removed it and took the lock, the second process removes the fresh lock, and
    both work on the registry. *)
Lemma stale_lock_admits_two_processes k v :
  0 ≤ stale_lock_seconds → ∃ w, rtc step (new_world 0) w
    ∧ is_Some (working_copy (w_procs w 1%nat)) ∧ is_Some (working_copy (w_procs w 2%nat)).
Proof.
  intros Hpos. set (op := op_activate k v).
  set (d := empty_disk <| lock_dir := Some {| lock_mtime := 0; lock_owner := None |} |>).
  set (w1 := goes 0%nat (waiting op 0) (new_world 0) <| w_token ::= Z.succ |>).
  set (w2 := goes 0%nat (lock_made op 0) (on_disk d w1)).
  set (w3 := goes 0%nat outside w2).
  set (w4 := w3 <| w_now := stale_lock_seconds |>).
  set (w5 := goes 1%nat (waiting op 1) w4 <| w_token ::= Z.succ |>).
  set (w6 := goes 2%nat (waiting op 2) w5 <| w_token ::= Z.succ |>).
  set (w7 := goes 1%nat (removing op 1) w6).
  set (w8 := goes 2%nat (removing op 2) w7).
  assert (∀ p, lock_is_stale stale_lock_seconds hostname p true stale_lock_seconds d = true) as Hstale.
  { intros p. unfold lock_is_stale. simpl. rewrite andb_true_r. apply Z.leb_le. lia. }
  assert (rtc step (new_world 0) w8) as Hboth.
  { eapply rtc_l; [by left; apply (step_call _ _ _ _ _ (new_world 0) 0%nat op)|].
    eapply rtc_l; [by left; apply (step_mkdir _ _ _ _ _ w1 0%nat op 0 d)|].
    eapply rtc_l; [by left; apply (step_crash _ _ _ _ _ w2 0%nat)|].
    eapply rtc_l; [by left; apply (step_tick _ _ _ _ _ w3 stale_lock_seconds)|].
    eapply rtc_l; [by left; apply (step_call _ _ _ _ _ w4 1%nat op)|].
    eapply rtc_l; [by left; apply (step_call _ _ _ _ _ w5 2%nat op)|].
    eapply rtc_l; [by right; apply (step_stale _ _ _ w6 1%nat op 1 true)|].
    eapply rtc_l; [by right; apply (step_stale _ _ _ w7 2%nat op 2 true)|apply rtc_refl]. }
  destruct (steals_lock w8 1%nat op 1 eq_refl eq_refl) as (w9 & H9 & Hf9 & Hp1 & Ho9).
  destruct (steals_lock w9 2%nat op 2 Hf9) as (w10 & H10 & _ & Hp2 & Ho10); [by rewrite Ho9|].
  exists w10. split; [by do 2 (etrans; [done|])|]. split; [|done]. by rewrite Ho10.
Qed.

(** ** An operation run alone is an execution *)

Definition relock (l : option LockDir) disk : Disk := disk <| lock_dir := l |>.

(** The operations do not look at the lock. *)
Lemma decide_in_lock op r now l disk :
  decide_in sha256_of_lines parse_record op r now (relock l disk)
  = let x := decide_in sha256_of_lines parse_record op r now disk in (x.1, relock l x.2).
Proof.
  assert (∀ k v, activate_in sha256_of_lines parse_record r k v now (relock l disk)
    = let x := activate_in sha256_of_lines parse_record r k v now disk in (x.1, relock l x.2)) as Hact.
  { intros k v. rewrite !activate_in_run. simpl. by repeat case_match. }
  destruct op as [k v|k|m lines]; simpl; [apply Hact| |].
  - unfold rollback_in. case_match; [apply Hact|done].
  - unfold commit_in. rewrite !bind_gets. simpl. case_match.
    + unfold recover_in. rewrite !bind_get_or_raise. case_match; [|done]. rewrite !bind_raise_if.
      case_match; [done|]. unfold mbind, M_bind. rewrite !validate_directory. simpl. repeat case_match; by simplify_eq.
    + unfold mbind, M_bind. rewrite !rename_release_run. simpl. repeat case_match; by simplify_eq.
Qed.

Lemma read_registry_lock now l disk :
  read_registry now (relock l disk) = ((read_registry now disk).1, relock l (read_registry now disk).2).
Proof. unfold read_registry. rewrite !bind_gets. simpl. by repeat case_match. Qed.

Lemma relock_here disk : lock_dir disk = None → relock None disk = disk.
Proof. destruct disk. by intros [= ->]. Qed.

(** The body of a call: from the registry just read to the end of the critical section. *)
Lemma body_is_an_execution w p op t r disk0 l res disk' :
  w_disk w = relock (Some l) disk0 → w_procs w p = has_registry op t r → disk_ok disk0 →
  well_prepared sha256_of_lines encode_record parse_record op →
  read_registry (w_now w) disk0 = (Ok r, disk0) → locked_run op (w_now w) disk0 = (res, disk') →
  ∃ w', rtc calm w w' ∧ w_disk w' = relock (Some l) disk' ∧ w_procs w' p = leaving t ∧ w_now w' = w_now w.
Proof.
  intros Hw Hp Hok Hprep Hr Hrun. rewrite (run_locked_run _ _ _ _ Hr) in Hrun.
  destruct (must_move op (w_disk w)) as [[m lines]|] eqn:Hm.
  - destruct op as [| |m' lines']; try done. simpl in Hm. rewrite Hw in Hm. simpl in Hm, Hrun.
    destruct (releases disk0 !! _) eqn:Hd in Hm; simplify_eq. rewrite commit_in_run, Hd in Hrun by done.
    injection Hrun as <- <-.
    set (w1 := goes p (must_rename t r m lines) w).
    set (d2 := (w_disk w) <| releases ::= <[(kind_of m, version_of m) := dir_of m lines]> |>).
    set (w2 := goes p (must_write t r (staged_in r m (w_now w))) (on_disk d2 w1)).
    eexists. split.
    { eapply rtc_l; [apply (step_move _ _ _ _ _ w p (op_commit m lines) t r m lines Hp); simpl; by rewrite Hw; simpl; rewrite Hd|].
      eapply rtc_l; [apply (step_rename _ _ _ _ _ w1 p t r m lines d2); [apply fn_lookup_insert|]|].
      { rewrite rename_release_run. simpl. rewrite Hw. simpl. rewrite Hd. unfold d2. by rewrite Hw. }
      eapply rtc_l; [apply (step_write _ _ _ _ _ w2 p t r (staged_in r m (w_now w)));
        [apply fn_lookup_insert|done]|apply rtc_refl]. }
    split; [|by split; [apply fn_lookup_insert|]]. simpl. unfold d2. by rewrite Hw.
  - pose proof (decide_in_lock op r (w_now w) (Some l) disk0) as Hdec. rewrite <- Hw in Hdec.
    destruct (decide_in sha256_of_lines parse_record op r (w_now w) disk0) as [[[m [new|]]|e] d] eqn:Hd0;
      injection Hrun as <- <-; simpl in Hdec.
    + set (w1 := goes p (must_write t r new) (on_disk (relock (Some l) d) w)).
      eexists. split.
      { eapply rtc_l; [by apply (step_decide _ _ _ _ _ w p op t r m new (relock (Some l) d) Hp)|].
        eapply rtc_l; [apply (step_write _ _ _ _ _ w1 p t r new); [apply fn_lookup_insert|done]|apply rtc_refl]. }
      split; [done|]. by split; [apply fn_lookup_insert|].
    + eexists. split; [by apply rtc_once, (step_nothing _ _ _ _ _ w p op t r m (relock (Some l) d) Hp)|].
      split; [done|]. split; [apply fn_lookup_insert|done].
    + eexists. split; [by apply rtc_once, (step_decide_raises _ _ _ _ _ w p op t r e (relock (Some l) d) Hp)|].
      split; [done|]. split; [apply fn_lookup_insert|done].
Qed.

(** A call of [activate], [rollback] or [stage] that runs alone is an execution of the
    step relation that ends with the lock released. *)
Lemma call_is_an_execution w p op res disk' :
  w_procs w p = outside → lock_dir (w_disk w) = None → disk_ok (w_disk w) →
  well_prepared sha256_of_lines encode_record parse_record op →
  locked_run op (w_now w) (w_disk w) = (res, disk') →
  ∃ w', rtc calm w w' ∧ w_disk w' = relock None disk' ∧ w_procs w' p = outside ∧ w_now w' = w_now w.
Proof.
  intros Hp Hl Hok Hprep Hrun. set (d := w_disk w) in *. set (t := w_token w).
  destruct (read_registry_run _ _ _ (w_now w) _ Hok) as (r & Hr & _).
  set (owner := {| lo_token := t; lo_pid := getpid p; lo_hostname := hostname p |}).
  set (l1 := {| lock_mtime := w_now w; lock_owner := None |}).
  set (l2 := {| lock_mtime := w_now w; lock_owner := Some owner |}).
  set (w1 := goes p (waiting op t) w <| w_token ::= Z.succ |>).
  set (w2 := goes p (lock_made op t) (on_disk (relock (Some l1) d) w1)).
  set (w3 := goes p (locked op t) (on_disk (relock (Some l2) d) w2)).
  set (w4 := goes p (has_registry op t r) w3).
  destruct (body_is_an_execution w4 p op t r d l2 res disk') as (w5 & H5 & Hd5 & Hp5 & Hn5); try done.
  { apply fn_lookup_insert. }
  exists (goes p outside (on_disk (_release_registry_lock t (w_disk w5)) w5)). split_and!.
  - eapply rtc_l; [by apply (step_call _ _ _ _ _ w p op Hp)|].
    eapply rtc_l; [apply (step_mkdir _ _ _ _ _ w1 p op t (relock (Some l1) d)); [apply fn_lookup_insert|]|].
    { unfold mkdir_lock. change (w_disk w1) with d. by rewrite Hl. }
    eapply rtc_l; [apply (step_owner _ _ _ _ _ w2 p op t (relock (Some l2) d)); [apply fn_lookup_insert|done]|].
    eapply rtc_l; [apply (step_read _ _ _ _ _ w3 p op t r (relock (Some l2) d)); [apply fn_lookup_insert|]|].
    { change (w_disk w3) with (relock (Some l2) d). rewrite read_registry_lock.
      change (w_now w3) with (w_now w). by rewrite Hr. }
    eapply rtc_r; [exact H5|]. by apply step_leave.
  - simpl. unfold _release_registry_lock. rewrite Hd5. simpl. by rewrite Z.eqb_refl.
  - apply fn_lookup_insert.
  - done.
Qed.
End theorems.



(** ** A store with two releases of one dataset *)

Module SurveyStore.
#[export] Instance survey_record_eq_dec : EqDecision (DatasetRecord Z).
Proof. solve_decision. Defined.
#[export] Instance survey_record_countable : Countable (DatasetRecord Z).
Proof.
  refine (inj_countable' (λ r : DatasetRecord Z, (dr_geography_id r, dr_source_geoid r, dr_geography_level r,
      dr_values r, dr_dimensions r))
    (λ x, match x with (a, b, c, d, e) =>
       {| dr_geography_id := a; dr_source_geoid := b; dr_geography_level := c; dr_values := d;
          dr_dimensions := e |} end) _).
  by intros [].
Defined.

(** Counts are finite. *)
#[export] Instance count_measurement : Measurement Z := λ _, true.

(** A line of text for a record: its number in binary, ended by a mark. *)
Fixpoint positive_text (p : positive) : string :=
  match p with
  | xH => "."
  | xO p => String.String "0"%char (positive_text p)
  | xI p => String.String "1"%char (positive_text p)
  end.
Fixpoint text_positive (s : string) : option positive :=
  match s with
  | String.String a s' =>
      if bool_decide (a = "0"%char) then xO <$> text_positive s'
      else if bool_decide (a = "1"%char) then xI <$> text_positive s'
      else Some xH
  | String.EmptyString => None
  end.
Definition encode_line (r : DatasetRecord Z) : string := positive_text (encode r).
Definition parse_line (s : string) : option (DatasetRecord Z) := text_positive s ≫= decode.

Lemma text_of_positive p : text_positive (positive_text p) = Some p.
Proof. induction p as [p IH|p IH|]; simpl; [by rewrite IH..|done]. Qed.

Lemma positive_text_kept p : py_strip (positive_text p) ≠ ""%string.
Proof.
  unfold py_strip. assert (lstrip (positive_text p) = positive_text p) as -> by by destruct p.
  by destruct p; simpl; repeat case_match.
Qed.

Lemma line_codec : codec encode_line parse_line.
Proof.
  intros r _. unfold encode_line, parse_line. split; [|apply positive_text_kept].
  rewrite text_of_positive. simpl. apply decode_encode.
Qed.

Definition digest (lines : list string) : string := String.concat "+" lines.
Definition publisher : ReleaseSource :=
  {| source_url := "https://example.org/cbp"; source_name := "CBP"; source_license := "public";
     source_bytes := Some 10; source_format := None; source_content_type := None; source_etag := None;
     source_last_modified := None; acquisition_method := None; geographic_granularity := ["county"];
     refresh_cadence := "yearly"; source_adapter := "cbp"; source_notes := "" |}.
Definition release_of (version : string) : DatasetRelease :=
  {| rl_dataset := cbp; rl_version := version; rl_data_year := 2023; rl_release_date := 20000;
     rl_source_sha256 := Some "00"; rl_source := publisher; rl_retrieved_at := 5 |}.
Definition county (geoid : string) (n : Z) : DatasetRecord Z :=
  {| dr_geography_id := geoid; dr_source_geoid := geoid; dr_geography_level := "county";
     dr_values := {["establishments" := Some n]}; dr_dimensions := ∅ |}.
Definition counties : list (DatasetRecord Z) := [county "a" 3; county "b" 4].
Definition later_counties : list (DatasetRecord Z) := [county "a" 5].

Definition manifest_of (version : string) (records : list (DatasetRecord Z)) : DatasetManifest :=
  {| dm_release := release_of version; dm_status := ds_staged;
     dm_record_count := Z.of_nat (length records); dm_content_sha256 := digest (map encode_line records);
     dm_staged_at := 10; dm_activated_at := None |}.

Lemma first_prepared :
  prepare_release digest encode_line parse_line (release_of "1") counties 10
  = inr (manifest_of "1" counties, map encode_line counties).
Proof. vm_compute. reflexivity. Qed.
Lemma second_prepared :
  prepare_release digest encode_line parse_line (release_of "2") later_counties 10
  = inr (manifest_of "2" later_counties, map encode_line later_counties).
Proof. vm_compute. reflexivity. Qed.

Definition locked (op : operation) (disk : Disk) := run_locked digest parse_line op 10 disk.
Definition op1 : operation := op_commit (manifest_of "1" counties) (map encode_line counties).
Definition op2 : operation := op_commit (manifest_of "2" later_counties) (map encode_line later_counties).
Definition staged_once : Disk := (locked op1 empty_disk).2.
Definition activated_once : Disk := (locked (op_activate cbp "1") staged_once).2.
Definition staged_twice : Disk := (locked op2 activated_once).2.
Definition activated_twice : Disk := (locked (op_activate cbp "2") staged_twice).2.

Definition host (p : nat) : string := "host".
Abbreviation calm := (calm_step digest encode_line parse_line host Z.of_nat).
Abbreviation step := (store_step digest encode_line parse_line 300 host Z.of_nat).

Definition reached (disk : Disk) : Prop :=
  ∃ w, rtc calm (new_world 10) w ∧ w_disk w = disk ∧ w_procs w 0%nat = outside ∧ w_now w = 10.

Lemma call_reaches op disk :
  reached disk → lock_dir disk = None → lock_dir (locked op disk).2 = None →
  well_prepared digest encode_line parse_line op → reached (locked op disk).2.
Proof.
  intros (w & Hrun & Hd & Hp & Hn) Hl Hl' Hprep. subst disk.
  assert (rtc step (new_world 10) w) as Hrun'.
  { clear - Hrun. induction Hrun; [apply rtc_refl|]. eapply rtc_l; [by left|done]. }
  destruct (call_is_an_execution digest encode_line parse_line host Z.of_nat w 0%nat op
    (locked op (w_disk w)).1 (locked op (w_disk w)).2 Hp Hl (reachable_ok _ _ _ _ _ _ _ _ Hrun') Hprep)
    as (w' & Hw' & Hd' & Hp' & Hn').
  { unfold locked. rewrite Hn. by destruct (run_locked _ _ _ _ _). }
  exists w'. split; [by etrans|]. rewrite Hd', relock_here by done. split; [done|]. split; [done|]. congruence.
Qed.

Lemma reached_steps disk : reached disk → ∃ w, rtc step (new_world 10) w ∧ rtc calm (new_world 10) w ∧ w_disk w = disk.
Proof.
  intros (w & Hrun & Hd & _). exists w. split; [|done].
  clear - Hrun. induction Hrun; [apply rtc_refl|]. eapply rtc_l; [by left|done].
Qed.

Lemma reached_staged_once : reached staged_once.
Proof.
  apply call_reaches; [by eexists|done|vm_compute; reflexivity|].
  eexists _, _, _. apply first_prepared.
Qed.
Lemma reached_activated_once : reached activated_once.
Proof. apply call_reaches; [apply reached_staged_once|vm_compute; reflexivity..|done]. Qed.
Lemma reached_staged_twice : reached staged_twice.
Proof.
  apply call_reaches; [apply reached_activated_once|vm_compute; reflexivity..|].
  eexists _, _, _. apply second_prepared.
Qed.
Lemma reached_activated_twice : reached activated_twice.
Proof. apply call_reaches; [apply reached_staged_twice|vm_compute; reflexivity..|done]. Qed.

Lemma reached_ok disk : reached disk → PublicDataProofs.disk_ok digest encode_line parse_line disk.
Proof.
  intros (w & Hrun & _ & <-)%reached_steps. exact (reachable_ok _ _ _ _ _ _ _ _ Hrun).
Qed.

(** The value a run returned. *)
Definition value {S E T} (x : result E T * S) (default : T) : T :=
  match x.1 with Ok y => y | Raise _ => default end.
End SurveyStore.
Import SurveyStore.

Lemma active_release_is_served_witness :
  ∃ w, w_disk w = activated_twice
    ∧ codec encode_line parse_line ∧ rtc step (new_world 10) w
    ∧ active_records digest parse_line cbp None (Some "a"%string) 20 activated_twice
        = (Ok [county "a" 5], activated_twice)
    ∧ match active_manifest cbp 20 (w_disk w) with
      | (Ok (Some m), _) => dm_status m = ds_active
      | _ => False
      end.
Proof.
  destruct (reached_steps _ reached_activated_twice) as (w & Hrun & _ & Hd).
  exists w. split; [done|]. split; [apply line_codec|]. split; [done|].
  split; [vm_compute; reflexivity|].
  pose proof (active_release_is_served digest encode_line parse_line 300 host Z.of_nat 10 w cbp None None 20
    line_codec Hrun) as H. simpl in H.
  destruct (active_manifest cbp 20 (w_disk w)) as [[[m|]|e] d] eqn:Hm; [by destruct H| |done].
  rewrite Hd in Hm. vm_compute in Hm. done.
Defined.

Lemma releases_are_kept_witness :
  ∃ w, registered (w_disk w) cbp "1" = Some (value (locked (op_activate cbp "1") staged_once) (manifest_of "1" counties))
    ∧ is_Some (releases (w_disk w) !! (cbp, "1"%string)).
Proof.
  destruct (reached_steps _ reached_activated_once) as (w & Hrun & Hcalm & Hd).
  exists w. split; [rewrite Hd; vm_compute; reflexivity|].
  destruct (releases_are_kept digest encode_line parse_line 300 host Z.of_nat 10 w w cbp "1" Hrun (rtc_refl _ _))
    as [Hdir _].
  destruct (releases (w_disk w) !! (cbp, "1"%string)) as [dir|] eqn:Hrel.
  - exists dir. by apply Hdir.
  - rewrite Hd in Hrel. vm_compute in Hrel. done.
Defined.

Lemma one_process_works_on_the_registry_witness :
  ∃ w, holds_lock (w_procs w 7%nat) = true ∧ ∀ q, holds_lock (w_procs w q) = true → q = 7%nat.
Proof.
  set (w1 := goes 7%nat (waiting (op_activate cbp "1") 0) (new_world 10) <| w_token ::= Z.succ |>).
  set (d := empty_disk <| lock_dir := Some {| lock_mtime := 10; lock_owner := None |} |>).
  set (w2 := goes 7%nat (lock_made (op_activate cbp "1") 0) (on_disk d w1)).
  assert (rtc calm (new_world 10) w2) as Hrun.
  { eapply rtc_l; [by apply (step_call _ _ _ _ _ (new_world 10) 7%nat (op_activate cbp "1"))|].
    eapply rtc_l; [by apply (step_mkdir _ _ _ _ _ w1 7%nat (op_activate cbp "1") 0 d)|apply rtc_refl]. }
  exists w2. split; [reflexivity|].
  exact (proj1 (one_process_works_on_the_registry digest encode_line parse_line host Z.of_nat 10 w2 7%nat
    Hrun eq_refl)).
Defined.

Lemma rollback_undoes_activation_witness :
  active_of staged_twice cbp = Some "1"%string
  ∧ active_of activated_twice cbp = Some "2"%string
  ∧ ∃ m' disk2, rollback digest parse_line cbp 30 activated_twice = (Ok m', disk2)
      ∧ active_of disk2 cbp = Some "1"%string.
Proof.
  assert (active_of staged_twice cbp = Some "1"%string) as Ha by (vm_compute; reflexivity).
  split; [done|]. split; [vm_compute; reflexivity|].
  assert ("2"%string ≠ "1"%string) as Hne by done.
  assert (activate digest parse_line cbp "2" 10 staged_twice
    = (Ok (value (locked (op_activate cbp "2") staged_twice) (manifest_of "2" later_counties)), activated_twice))
    as Hact.
  { unfold activated_twice, locked, activate. apply run_pair. vm_compute. reflexivity. }
  destruct (rollback_undoes_activation digest encode_line parse_line cbp "1" "2" 10 30 _ staged_twice
    activated_twice (reached_ok _ reached_staged_twice) Ha Hne Hact) as (m' & disk2 & H1 & H2 & _).
  exists m', disk2. exact (conj H1 H2).
Defined.

Lemma staging_is_repeatable_witness :
  disk_ok digest encode_line parse_line empty_disk
  ∧ stage digest encode_line parse_line (release_of "1") counties 50 staged_once
      = (Ok (manifest_of "1" counties), staged_once).
Proof.
  assert (disk_ok digest encode_line parse_line empty_disk) as Hok.
  { apply reached_ok. by exists (new_world 10). }
  split; [done|].
  assert (stage digest encode_line parse_line (release_of "1") counties 10 empty_disk
    = (Ok (manifest_of "1" counties), staged_once)) as Hrun.
  { unfold staged_once, locked, stage. rewrite first_prepared. apply run_pair. vm_compute. reflexivity. }
  destruct (staging_is_repeatable digest encode_line parse_line (release_of "1") counties 10
    (manifest_of "1" counties) (map encode_line counties) empty_disk _ _ Hok first_prepared Hrun) as [Hagain _].
  exact (Hagain 5 50).
Defined.

