(* ===== verification/LiveGates.v ===== *)
(** * LiveGates: what opens the gates of paid production calls (services/qualification.py, services/billing.py)

    A reservation in production needs a current qualification of the provider and a clean
    reconciliation of its bills (CostControls).  This file has the two services that write
    those rows: the qualification runner, the audited import that must not open the gate,
    and the reconciliation of a billing file with the recorded calls.

    A CSV file is its list of rows, each a map from column to text; the parsers of a number
    and of a time, the digest and the checks of the executor are arguments. *)
From S2P Require Import Prelude Binary64 Schema ScanLeases CostControls.

(** ** services/qualification.py *)

Definition DATAFORSEO_ADAPTER_VERSION : string := "dataforseo-v3-workstream-d-2".
Definition REQUIRED_QUALIFICATION_CHECKS : list string :=
  ["account_access"; "location_lookup"; "keyword_suggestions"; "keyword_metrics"; "serps";
   "serp_features"; "backlinks"; "business_listings"; "partial_tasks"; "rate_limits";
   "billing_errors"; "authentication_errors"; "schema_drift"]%string.

(** [value.get("passed") is True] *)
Definition passed_is_true (l : dict) : bool :=
  match dict_get "passed" l with Some (JBool true) => true | _ => false end.

Definition _normalize_executed_check (checks : dict) (name : string) : dict :=
  match dict_get name checks with
  | Some (JObj value) => dict_set "passed" (JBool (passed_is_true value)) value
  | _ => [("passed", JBool false); ("error", JStr "Missing executable evidence.")]%string
  end.

(** [_normalize_executed_checks] *)
Definition _normalize_executed_checks (checks : dict) : list (string * dict) :=
  map (λ name, (name, _normalize_executed_check checks name)) REQUIRED_QUALIFICATION_CHECKS.

(** [_passed] *)
Definition _passed (value : option json) : bool :=
  match value with
  | Some (JObj l) => passed_is_true l
  | Some (JBool b) => b
  | _ => false
  end.

(** The checks of an import: what the file says, and its detail. *)
Definition imported_checks (checks : dict) : list (string * dict) :=
  map (λ name, (name, [("passed", JBool (_passed (dict_get name checks)));
                       ("detail", default JNull (dict_get name checks))]%string))
    REQUIRED_QUALIFICATION_CHECKS.

Definition checks_json (l : list (string * dict)) : dict := map (λ nv, (nv.1, JObj nv.2)) l.

(** ["passed" if all(item["passed"] for item in normalized.values()) else "failed"] *)
Definition all_passed (l : list (string * dict)) : bool := forallb (λ nv, passed_is_true nv.2) l.
Definition status_of (l : list (string * dict)) : string :=
  if all_passed l then "passed" else "failed".

Section qualification.
Context {USD : Type}.
Context (evidence_hash : dict → string).
Implicit Types db : Db USD.

Definition add_qualification (row : ProviderQualification) : Session USD (Z * ProviderQualification) :=
  gets (λ db, next_id (provider_qualifications db)) ≫= λ i,
  modify (λ db, db <| provider_qualifications ::= <[i := row]> |>) ≫= λ _,
  mret (i, row).

Definition record_executed_qualification (provider environment adapter_version : string)
    (checks : dict) (ttl_hours : Z) (executed_by notes : string) (now : Z)
    : Session USD (Z * ProviderQualification) :=
  let normalized := _normalize_executed_checks checks in
  add_qualification
    {| q_provider := provider;
       q_environment := environment;
       q_adapter_version := adapter_version;
       q_status := status_of normalized;
       q_qualified_at := now;
       q_expires_at := now + ttl_hours * hour_us;
       q_checks := checks_json normalized;
       q_notes := notes;
       q_execution_method := "executable_runner";
       q_gate_eligible := bool_decide (status_of normalized = "passed"%string);
       q_evidence_sha256 := Some (evidence_hash
         [("provider", JStr provider); ("environment", JStr environment);
          ("adapter_version", JStr adapter_version); ("checks", JObj (checks_json normalized))]%string);
       q_executed_by := executed_by;
       q_override_reason := "" |}.

(** [record_qualification]: an audited import *)
Definition record_qualification (provider environment adapter_version : string) (checks : dict)
    (ttl_hours : Z) (notes executed_by override_reason : string) (now : Z)
    : Session USD (Z * ProviderQualification) :=
  raise_if (negb (str_truthy (py_strip override_reason)))
    (ValueError "Manual qualification imports require an auditable override reason.") ≫= λ _,
  let normalized := imported_checks checks in
  add_qualification
    {| q_provider := provider;
       q_environment := environment;
       q_adapter_version := adapter_version;
       q_status := status_of normalized;
       q_qualified_at := now;
       q_expires_at := now + ttl_hours * hour_us;
       q_checks := checks_json normalized;
       q_notes := notes;
       q_execution_method := "manual_import";
       q_gate_eligible := false;
       q_evidence_sha256 := Some (evidence_hash (checks_json normalized));
       q_executed_by := executed_by;
       q_override_reason := override_reason |}.

(** *** The runner *)

Context (type_name error_text : exn → string) (started_at completed_at : string → Z).

(** One check: the executor may write to the session (it makes calls to the provider),
    and what it raises is recorded. *)
Definition run_check (execute_check : string → Session USD dict) (name : string) : Session USD (string * json) :=
  λ db,
  let '(outcome, db') := execute_check name db in
  let '(passed, detail, error) :=
    match outcome with
    | Ok detail => (passed_is_true detail, detail, JNull)
    | Raise e => (false, [], JObj [("type", JStr (type_name e)); ("summary", JStr (error_text e))]%string)
    end in
  (Ok (name, JObj [("passed", JBool passed); ("started_at", JStr (isoformat (started_at name)));
                   ("completed_at", JStr (isoformat (completed_at name)));
                   ("evidence", JObj detail); ("error", error)]%string), db').

Fixpoint run_checks (execute_check : string → Session USD dict) (names : list string) : Session USD dict :=
  match names with
  | [] => mret []
  | name :: names' =>
      run_check execute_check name ≫= λ entry,
      run_checks execute_check names' ≫= λ rest, mret (entry :: rest)
  end.

Definition execute_qualification (provider environment adapter_version : string)
    (execute_check : string → Session USD dict) (ttl_hours : Z) (executed_by notes : string) (now : Z)
    : Session USD (Z * ProviderQualification) :=
  run_checks execute_check REQUIRED_QUALIFICATION_CHECKS ≫= λ evidence,
  record_executed_qualification provider environment adapter_version evidence ttl_hours executed_by notes now.
End qualification.

(** ** services/billing.py *)

Section billing.
Context {USD : Type} `{Amount USD}.
Context (parse_float : string → option USD) (fromisoformat : string → option datetime).
Implicit Types (db : Db USD) (c : ApiCall USD) (charge : ProviderCharge USD).

(** [_clean] *)
Definition _clean (value : option string) : option string :=
  let text := py_strip (default ""%string value) in if str_truthy text then Some text else None.

(** [text.replace("Z", "+00:00")] *)
Fixpoint expand_z (s : string) : string :=
  match s with
  | EmptyString => EmptyString
  | String a s' =>
      if bool_decide (a = Ascii.ascii_of_nat 90) then "+00:00" +:+ expand_z s' else String a (expand_z s')
  end.

(** One row of the file; a text that does not parse raises. *)
Definition read_charge (row : gmap string string) : option (ProviderCharge USD) :=
  billed_at ← fromisoformat (expand_z (default ""%string (row !! "billed_at"%string)));
  cost ← match row !! "cost_usd"%string with
         | Some text => if str_truthy text then parse_float text else Some 0%amt
         | None => Some 0%amt
         end;
  Some {| pch_provider_request_id := _clean (row !! "provider_request_id"%string);
          pch_provider_task_id := _clean (row !! "provider_task_id"%string);
          pch_endpoint := default ""%string (row !! "endpoint"%string);
          pch_cost_usd := cost;
          pch_billed_at := instant (aware_utc billed_at) |}.

Definition _read_charges (rows : list (gmap string string)) : option (list (ProviderCharge USD)) :=
  mapM read_charge rows.

(** [_matches]: both identifiers are compared only when the charge has them. *)
Definition _matches c charge : bool :=
  (opt_truthy (pch_provider_request_id charge)
   && bool_decide (ac_provider_request_id c = pch_provider_request_id charge))
  || (opt_truthy (pch_provider_task_id charge)
      && bool_decide (ac_provider_task_id c = pch_provider_task_id charge)).

(** [next((call for call in unmatched_calls.values() if _matches(call, charge)), None)],
    and the calls without it *)
Fixpoint take_match charge (calls : list (Z * ApiCall USD)) : option ((Z * ApiCall USD) * list (Z * ApiCall USD)) :=
  match calls with
  | [] => None
  | ic :: calls' =>
      if _matches ic.2 charge then Some (ic, calls')
      else '(found, rest) ← take_match charge calls'; Some (found, ic :: rest)
  end.

(** The charges in turn: the calls and the charges that stay unmatched *)
Fixpoint match_charges (charges : list (ProviderCharge USD)) (calls : list (Z * ApiCall USD))
    : list (ProviderCharge USD) * list (Z * ApiCall USD) :=
  match charges with
  | [] => ([], calls)
  | charge :: charges' =>
      match take_match charge calls with
      | Some (_, rest) => match_charges charges' rest
      | None => let '(unmatched, rest) := match_charges charges' calls in (charge :: unmatched, rest)
      end
  end.

Definition _call_payload (ic : Z * ApiCall USD) : UnmatchedCall USD :=
  {| uc_api_call_id := ic.1; uc_provider_request_id := ac_provider_request_id ic.2;
     uc_provider_task_id := ac_provider_task_id ic.2; uc_endpoint := ac_endpoint ic.2;
     uc_cost_usd := ac_actual_cost_usd ic.2 |}.

(** The completed calls of the provider in a period of days *)
Definition billed_calls (provider : string) (period_start period_end : Z) db : list (Z * ApiCall USD) :=
  select (λ _ c, bool_decide (ac_provider c = provider) && bool_decide (ac_status c = CCompleted)
    && match ac_completed_at c with
       | Some t => (period_start * day_us <=? t) && (t <? (period_end + 1) * day_us)
       | None => false
       end) (api_calls db).

(** [abs(x) <= tolerance] *)
Definition within (x tolerance : USD) : bool :=
  let magnitude := if (x <? 0)%amt then (0 - x)%amt else x in
  (magnitude <? tolerance)%amt || amt_eqb magnitude tolerance.

Definition period_of (charges : list (ProviderCharge USD)) : option (Z * Z) :=
  match map (λ charge, date_of (pch_billed_at charge)) charges with
  | [] => None
  | d :: ds => Some (foldl Z.min d ds, foldl Z.max d ds)
  end.

(** The row a reconciliation writes *)
Definition reconciliation_row (provider environment source_filename : string) (tolerance : USD)
    (charges : list (ProviderCharge USD)) (period : Z * Z) (calls : list (Z * ApiCall USD)) (now : Z)
    : BillingReconciliation USD :=
  let '(unmatched_charges, unmatched_calls) := match_charges charges calls in
  let internal_cost := amt_round6 (amt_sum (map (λ ic, ac_actual_cost_usd ic.2) calls)) in
  let provider_cost := amt_round6 (amt_sum (map pch_cost_usd charges)) in
  let difference := amt_round6 (provider_cost - internal_cost)%amt in
  let clean := bool_decide (unmatched_charges = []) && bool_decide (unmatched_calls = [])
               && within difference tolerance in
  {| br_provider := provider;
     br_environment := environment;
     br_period_start := period.1;
     br_period_end := period.2;
     br_reconciled_at := now;
     br_status := if clean then "clean" else "mismatch";
     br_internal_call_count := Z.of_nat (length calls);
     br_provider_call_count := Z.of_nat (length charges);
     br_internal_cost_usd := internal_cost;
     br_provider_cost_usd := provider_cost;
     br_unmatched_provider_charges := unmatched_charges;
     br_unmatched_internal_calls := map _call_payload unmatched_calls;
     br_difference_usd := difference;
     br_source_filename := source_filename |}.

Definition reconcile_billing_csv (rows : list (gmap string string)) (provider environment source_filename : string)
    (tolerance : USD) (now : Z) : Session USD (BillingReconciliation USD) :=
  get_or_raise (λ _ : Db USD, _read_charges rows) (ValueError "Invalid billing row.") ≫= λ charges,
  get_or_raise (λ _ : Db USD, period_of charges) (ValueError "Billing CSV contains no charge rows.") ≫= λ period,
  gets (billed_calls provider period.1 period.2) ≫= λ calls,
  let row := reconciliation_row provider environment source_filename tolerance charges period calls now in
  gets (λ db, next_id (billing_reconciliations db)) ≫= λ i,
  modify (λ db, db <| billing_reconciliations ::= <[i := row]> |>) ≫= λ _,
  mret row.
End billing.
