(* ===== verification/LiveGatesTheorems.v ===== *)
(** * LiveGatesTheorems: what opens and closes the gates of paid production calls

    Only an executed qualification with every check passed opens the qualification gate;
    an import never does.  A reconciliation pairs each charge with a call of its own, and
    its verdict decides the billing gate until it is too old. *)
From S2P Require Import Prelude Binary64 Schema ScanLeases CostControls LedgerTheorems LiveGates.

(** ** Inserting a row that is the latest *)

Lemma select_latest_insert {R} (key : R → Z) (p : Z → R → bool) (t : gmap Z R) r :
  (∀ i r', t !! i = Some r' → p i r' = true → key r' ≤ key r) →
  select_latest key p (<[next_id t := r]> t) =
    if p (next_id t) r then Some (next_id t, r) else select_latest key p t.
Proof.
  intros Hall. unfold select_latest. rewrite select_snoc.
  destruct (p (next_id t) r); [|by rewrite app_nil_r]. rewrite foldl_app. simpl.
  pose proof (foldl_latest key (select p t) None) as Hf.
  destruct (foldl _ _ _) as [[j b]|]; [|done]. destruct Hf as ([Hin|?] & _); [|done].
  apply elem_of_select in Hin as [Hj Hp]. simpl. pose proof (Hall j b Hj Hp).
  by rewrite (proj2 (Z.leb_le _ _)).
Qed.

Lemma forallb_of_map {T U} (g : T → U) (p : U → bool) l : forallb p (map g l) = forallb (λ x, p (g x)) l.
Proof. induction l as [|x l IH]; simpl; [done|]. by rewrite IH. Qed.

(** ** Qualification *)

Lemma dict_get_cons k v l k' : dict_get k' ((k, v) :: l) = if decide (k = k') then Some v else dict_get k' l.
Proof. unfold dict_get. simpl. by case_bool_decide; case_decide. Qed.

Lemma dict_get_passed v l : passed_is_true (dict_set "passed" (JBool v) l) = v.
Proof.
  unfold passed_is_true, dict_set. destruct (existsb _ l) eqn:He.
  - induction l as [|[k x] l IH]; [done|]. simpl in *. case_bool_decide as Hk; simpl.
    + by destruct v.
    + rewrite dict_get_cons, decide_False by done. by apply IH.
  - induction l as [|[k x] l IH]; simpl in *; [by destruct v|].
    apply orb_false_iff in He as [Hk He]. apply bool_decide_eq_false in Hk.
    rewrite dict_get_cons, decide_False by done. by apply IH.
Qed.

Section qualification.
Context {USD : Type} (evidence_hash : dict → string).
Context (type_name error_text : exn → string) (started_at completed_at : string → Z).
Implicit Types db : Db USD.

Lemma add_qualification_run row db :
  add_qualification row db = (Ok (next_id (provider_qualifications db), row),
    db <| provider_qualifications ::= <[next_id (provider_qualifications db) := row]> |>).
Proof. done. Qed.

(** The key of a row the gate looks for *)
Definition executed_for (provider environment adapter_version : string) (q : ProviderQualification) : bool :=
  bool_decide (q_provider q = provider) && bool_decide (q_environment q = environment)
  && bool_decide (q_adapter_version q = adapter_version)
  && bool_decide (q_execution_method q = "executable_runner"%string).

(** Whether the row opens the gate at [t]. *)
Definition opens (q : ProviderQualification) (t : Z) : bool :=
  bool_decide (q_status q = "passed"%string) && q_gate_eligible q && (t <? q_expires_at q).

Lemma current_qualification_select db p e a t :
  current_qualification db p e a t =
    match select_latest q_qualified_at (λ _ q, executed_for p e a q) (provider_qualifications db) with
    | Some (i, q) => if opens q t then Some (i, q) else None
    | None => None
    end.
Proof.
  unfold current_qualification, opens.
  change (λ (_ : Z) q, bool_decide (q_provider q = p) && bool_decide (q_environment q = e)
    && bool_decide (q_adapter_version q = a) && bool_decide (q_execution_method q = "executable_runner"%string))
    with (λ (_ : Z) q, executed_for p e a q).
  destruct (select_latest _ _ _) as [[i q]|]; [|done].
  rewrite aware_utc_column_read. simpl. rewrite Z.sub_0_r, (Z.ltb_antisym _ t).
  by destruct (bool_decide _), (q_gate_eligible q), (q_expires_at q <=? t).
Qed.

Lemma select_latest_skip {R} (key : R → Z) (p : Z → R → bool) (t : gmap Z R) r :
  p (next_id t) r = false → select_latest key p (<[next_id t := r]> t) = select_latest key p t.
Proof. intros Hp. unfold select_latest. by rewrite select_snoc, Hp, app_nil_r. Qed.

(** An imported qualification never changes the gate: whatever its checks say, the
    current qualification of every provider, environment and adapter is, at every time,
    what it was; and without a reason the import is refused and nothing is written. *)
Theorem import_never_opens_the_gate provider environment adapter checks ttl notes by_ reason now db res db' :
  record_qualification evidence_hash provider environment adapter checks ttl notes by_ reason now db = (res, db') →
  (∀ p e a t, current_qualification db' p e a t = current_qualification db p e a t)
  ∧ (str_truthy (py_strip reason) = false → db' = db ∧ ∃ error, res = Raise error).
Proof.
  unfold record_qualification. rewrite bind_raise_if.
  destruct (str_truthy (py_strip reason)); simpl.
  - rewrite add_qualification_run. intros [= _ <-]. split; [|done]. intros p e a t.
    rewrite !current_qualification_select. simpl. rewrite select_latest_skip; [done|].
    unfold executed_for. simpl. by rewrite andb_false_r.
  - intros [= <- <-]. split; [done|]. intros _. split; [done|]. by eexists.
Qed.

(** *** What the runner records *)

(** The results of the checks, in their order. *)
Fixpoint outcomes (execute_check : string → Session USD dict) (names : list string) db : list (result exn dict) :=
  match names with
  | [] => []
  | name :: names' =>
      let '(outcome, db') := execute_check name db in outcome :: outcomes execute_check names' db'
  end.

Definition outcome_passed (o : result exn dict) : bool :=
  match o with Ok detail => passed_is_true detail | Raise _ => false end.

Abbreviation checks_run := (run_checks type_name error_text started_at completed_at).

Definition entry_passed (kv : string * json) : bool :=
  match kv.2 with JObj l => passed_is_true l | _ => false end.

Lemma run_check_run (execute : string → Session USD dict) name db :
  ∃ l, run_check type_name error_text started_at completed_at execute name db
    = (Ok (name, JObj l), (execute name db).2) ∧ passed_is_true l = outcome_passed (execute name db).1.
Proof.
  unfold run_check. destruct (execute name db) as [[detail|e] db']; simpl; (eexists; split; [done|]);
    unfold passed_is_true; simpl; [by destruct (dict_get _ _) as [[]|]; try case_match|done].
Qed.

Lemma run_checks_run (execute : string → Session USD dict) names db :
  ∃ ev db1, checks_run execute names db = (Ok ev, db1) ∧ map fst ev = names
    ∧ map entry_passed ev = map outcome_passed (outcomes execute names db)
    ∧ (∀ kv, kv ∈ ev → ∃ l, kv.2 = JObj l).
Proof.
  revert db. induction names as [|name names IH]; intros db; simpl.
  - exists [], db. repeat split; try done. by intros kv ?%not_elem_of_nil.
  - destruct (run_check_run execute name db) as (l & Hrun & Hl).
    destruct (execute name db) as [o db1] eqn:He. simpl in *.
    destruct (IH db1) as (ev & db2 & Hev & Hn & Hp & Hobj).
    exists ((name, JObj l) :: ev), db2.
    rewrite (bind_run _ _ _ _ _ Hrun), (bind_run _ _ _ _ _ Hev). split_and!; [done|simpl; congruence| |].
    + simpl. rewrite Hp. unfold entry_passed. simpl. by rewrite Hl.
    + intros kv [->|Hkv]%elem_of_cons; [by exists l|by apply Hobj].
Qed.

(** Normalising evidence that has one entry per name keeps what passed. *)
Lemma normalized_passed (ev : dict) :
  NoDup (map fst ev) → (∀ kv, kv ∈ ev → ∃ l, kv.2 = JObj l) →
  forallb (λ name, passed_is_true (_normalize_executed_check ev name)) (map fst ev)
  = forallb entry_passed ev.
Proof.
  intros Hnd Hobj.
  assert (∀ kv, kv ∈ ev → passed_is_true (_normalize_executed_check ev kv.1) = entry_passed kv) as Hone.
  { intros [k v] Hkv. destruct (Hobj _ Hkv) as [l Hl]. simpl in Hl. subst v.
    unfold _normalize_executed_check, entry_passed. simpl.
    assert (dict_get k ev = Some (JObj l)) as ->; [|apply dict_get_passed].
    clear Hobj. induction ev as [|[k' v'] ev IH]; [by apply not_elem_of_nil in Hkv|].
    simpl in Hnd. apply NoDup_cons in Hnd as [Hk' Hnd]. rewrite dict_get_cons.
    apply elem_of_cons in Hkv as [[= <- <-]|Hkv]; [by rewrite decide_True|].
    rewrite decide_False; [by apply IH|]. intros ->. apply Hk'.
    apply list_elem_of_In, in_map_iff. exists (k, JObj l). split; [done|]. by apply list_elem_of_In. }
  assert (∀ l, (∀ kv, kv ∈ l → kv ∈ ev) →
    forallb (λ name, passed_is_true (_normalize_executed_check ev name)) (map fst l) = forallb entry_passed l)
    as Hall; [|by apply Hall].
  intros l. induction l as [|kv l IH]; intros Hl; simpl; [done|].
  rewrite Hone by (apply Hl; by left). f_equal. apply IH. intros. apply Hl. by right.
Qed.

(** C21: The runner decides the gate.  When no executed qualification of the same provider,
    environment and adapter is later, the gate after a run is open, on the row of that run,
    exactly when every required check returned evidence that it passed, and only until the
    row expires; a check that raises or answers anything else closes it, whatever an
    earlier run had found. *)
Theorem runner_decides_the_gate provider environment adapter (execute : string → Session USD dict)
    ttl by_ notes now db i row db' :
  execute_qualification evidence_hash type_name error_text started_at completed_at provider environment adapter
    execute ttl by_ notes now db = (Ok (i, row), db') →
  (∀ name s, provider_qualifications (execute name s).2 = provider_qualifications s) →
  (∀ j q, provider_qualifications db !! j = Some q → executed_for provider environment adapter q = true →
     q_qualified_at q ≤ now) →
  ∀ t, current_qualification db' provider environment adapter t =
    if forallb outcome_passed (outcomes execute REQUIRED_QUALIFICATION_CHECKS db) && (t <? now + ttl * hour_us)
    then Some (i, row) else None.
Proof.
  intros Hrun Hkeep Hlatest t. unfold execute_qualification in Hrun.
  destruct (run_checks_run execute REQUIRED_QUALIFICATION_CHECKS db) as (ev & db1 & Hev & Hn & Hp & Hobj).
  rewrite (bind_run _ _ _ _ _ Hev) in Hrun. unfold record_executed_qualification in Hrun.
  rewrite add_qualification_run in Hrun.
  assert (provider_qualifications db1 = provider_qualifications db) as Hsame.
  { clear -Hev Hkeep. revert db ev db1 Hev.
    induction REQUIRED_QUALIFICATION_CHECKS as [|name names IH]; intros db ev db1 Hev; simpl in Hev.
    - by injection Hev as _ <-.
    - destruct (run_check_run execute name db) as (l & Hone & _).
      rewrite (bind_run _ _ _ _ _ Hone) in Hev. apply bind_ok in Hev as (rest & db2 & Hrest & Hret).
      injection Hret as _ ->. rewrite (IH _ _ _ Hrest). apply Hkeep. }
  set (passed := all_passed (_normalize_executed_checks ev)) in *.
  assert (passed = forallb outcome_passed (outcomes execute REQUIRED_QUALIFICATION_CHECKS db)) as <-.
  { assert (NoDup (map fst ev)) as Hnd by (rewrite Hn; apply (bool_decide_eq_true_1 _); by vm_compute).
    unfold passed, all_passed, _normalize_executed_checks.
    set (os := outcomes _ _ _) in *. clearbody os. rewrite <- Hn.
    transitivity (forallb entry_passed ev).
    - rewrite <- (normalized_passed ev Hnd Hobj). by rewrite forallb_of_map.
    - clear -Hp. revert os Hp.
      induction ev as [|kv ev IH]; intros [|o os] Hp; try done; simpl in *. injection Hp as Hk Hp.
      rewrite Hk. f_equal. by apply IH. }
  injection Hrun as <- Hrow <-. rewrite current_qualification_select. simpl.
  rewrite Hrow, select_latest_insert.
  - assert (executed_for provider environment adapter row = true) as ->.
    { rewrite <- Hrow. unfold executed_for. simpl. by rewrite !(bool_decide_eq_true_2 (_ = _)) by done. }
    assert (opens row t = passed && (t <? now + ttl * hour_us)) as ->; [|done].
    rewrite <- Hrow. unfold opens, status_of. cbn [q_status q_gate_eligible q_expires_at]. fold passed.
    by destruct passed; cbn iota; [rewrite !(bool_decide_eq_true_2 (_ = _))|rewrite !(bool_decide_eq_false_2 (_ = _))].
  - rewrite Hsame. intros j q Hj Hq. rewrite <- Hrow. simpl. by eapply Hlatest.
Qed.
End qualification.

(** ** Reconciliation *)

Section billing.
Context {USD : Type} `{Amount USD}.
Context (parse_float : string → option USD) (fromisoformat : string → option datetime).
Implicit Types (db : Db USD) (charge : ProviderCharge USD) (calls : list (Z * ApiCall USD)).

Lemma take_match_spec charge calls :
  match take_match charge calls with
  | Some (ic, rest) => calls ≡ₚ ic :: rest ∧ _matches ic.2 charge = true
  | None => ∀ ic, ic ∈ calls → _matches ic.2 charge = false
  end.
Proof.
  induction calls as [|ic calls IH]; simpl; [by intros ic ?%not_elem_of_nil|].
  destruct (_matches ic.2 charge) eqn:Hm; [done|].
  destruct (take_match charge calls) as [[found rest]|]; simpl.
  - destruct IH as [Hp ?]. split; [|done]. rewrite Hp. by rewrite Permutation_swap.
  - intros ic' [->|Hic]%elem_of_cons; [done|by apply IH].
Qed.

(** The pairs, and what stays over: every pair matches, and no charge left over matches a
    call left over. *)
Lemma match_charges_spec charges calls :
  let '(unmatched, rest) := match_charges charges calls in
  ∃ pairs : list ((Z * ApiCall USD) * ProviderCharge USD),
    calls ≡ₚ pairs.*1 ++ rest ∧ charges ≡ₚ pairs.*2 ++ unmatched
    ∧ (∀ pr, pr ∈ pairs → _matches pr.1.2 pr.2 = true)
    ∧ (∀ charge ic, charge ∈ unmatched → ic ∈ rest → _matches ic.2 charge = false).
Proof.
  revert calls. induction charges as [|charge charges IH]; intros calls; simpl.
  - exists []. split_and!; try done; set_solver.
  - pose proof (take_match_spec charge calls) as Ht.
    destruct (take_match charge calls) as [[ic rest]|].
    + destruct Ht as [Hp Hm]. specialize (IH rest).
      destruct (match_charges charges rest) as [unmatched rest'].
      destruct IH as (pairs & Hc & Hch & Hall & Hno). exists ((ic, charge) :: pairs).
      split_and!; simpl; [by rewrite Hp, Hc|by rewrite Hch| |done].
      intros pr [->|Hpr]%elem_of_cons; [done|by apply Hall].
    + specialize (IH calls). destruct (match_charges charges calls) as [unmatched rest'].
      destruct IH as (pairs & Hc & Hch & Hall & Hno). exists pairs.
      split_and!; try done.
      * rewrite Hch. by rewrite Permutation_middle.
      * intros charge' ic [->|Hin]%elem_of_cons Hic; [|by apply Hno].
        apply Ht. rewrite Hc. apply elem_of_app. by right.
Qed.

Lemma reconcile_run rows provider environment file tolerance now db row db' :
  reconcile_billing_csv parse_float fromisoformat rows provider environment file tolerance now db = (Ok row, db') →
  ∃ charges period, _read_charges parse_float fromisoformat rows = Some charges ∧ period_of charges = Some period
    ∧ row = reconciliation_row provider environment file tolerance charges period
              (billed_calls provider period.1 period.2 db) now
    ∧ db' = db <| billing_reconciliations ::= <[next_id (billing_reconciliations db) := row]> |>.
Proof.
  unfold reconcile_billing_csv. rewrite bind_get_or_raise.
  destruct (_read_charges _ _ rows) as [charges|]; [|done]. rewrite bind_get_or_raise.
  destruct (period_of charges) as [period|] eqn:Hp; [|done]. rewrite !bind_gets.
  intros [= <- <-]. by exists charges, period.
Qed.

(** C28: A reconciliation pairs charges and calls one to one: every pair shares an
    identifier the charge has, what the row lists as unmatched is exactly what is left on
    each side, and no charge left over matches a call left over.  The row is clean exactly
    when nothing is left over and the difference of the totals is within the tolerance;
    then there are as many charges as completed calls in the period. *)
Theorem reconciliation_is_a_matching rows provider environment file tolerance now db row db' :
  reconcile_billing_csv parse_float fromisoformat rows provider environment file tolerance now db = (Ok row, db') →
  ∃ charges (pairs : list ((Z * ApiCall USD) * ProviderCharge USD)) rest,
    _read_charges parse_float fromisoformat rows = Some charges
    ∧ charges ≡ₚ pairs.*2 ++ br_unmatched_provider_charges row
    ∧ billed_calls provider (br_period_start row) (br_period_end row) db ≡ₚ pairs.*1 ++ rest
    ∧ br_unmatched_internal_calls row = map _call_payload rest
    ∧ (∀ pr, pr ∈ pairs → _matches pr.1.2 pr.2 = true)
    ∧ (∀ charge ic, charge ∈ br_unmatched_provider_charges row → ic ∈ rest → _matches ic.2 charge = false)
    ∧ (br_status row = "clean"%string ↔
         br_unmatched_provider_charges row = [] ∧ br_unmatched_internal_calls row = []
         ∧ within (br_difference_usd row) tolerance = true)
    ∧ (br_status row = "clean"%string → br_internal_call_count row = br_provider_call_count row)
    ∧ br_difference_usd row = amt_round6 (br_provider_cost_usd row - br_internal_cost_usd row)%amt.
Proof.
  intros (charges & period & Hc & Hp & -> & _)%reconcile_run.
  unfold reconciliation_row. set (calls := billed_calls provider period.1 period.2 db).
  pose proof (match_charges_spec charges calls) as Hm.
  destruct (match_charges charges calls) as [unmatched rest].
  destruct Hm as (pairs & Hcalls & Hcharges & Hall & Hno).
  exists charges, pairs, rest. cbn -[within].
  assert (∀ b, ((if bool_decide (unmatched = []) && bool_decide (rest = []) && b then "clean" else "mismatch")%string
    = "clean"%string) ↔ unmatched = [] ∧ map _call_payload rest = [] ∧ b = true) as Hclean.
  { intros b. destruct unmatched, rest, b; cbn; split; try done; by intros (?&?&?). }
  split_and!; try done; try apply Hclean.
  intros (-> & Hrest & _)%Hclean. destruct rest; [|done].
  rewrite Hcalls, Hcharges, !app_nil_r, !length_fmap. done.
Qed.

Lemma latest_for p (t : gmap Z (BillingReconciliation USD)) row :
  (∀ j r, t !! j = Some r → p r = true → br_reconciled_at r ≤ br_reconciled_at row) → p row = true →
  select_latest br_reconciled_at (λ _ r, p r) (<[next_id t := row]> t) = Some (next_id t, row).
Proof. intros Hall Hp. rewrite select_latest_insert by (intros; by eapply Hall). by rewrite Hp. Qed.

(** The latest reconciliation decides the billing gate: after a reconciliation that no
    other of its provider and environment follows, the gate is open exactly when it was
    clean and is not older than the configured age, whatever period it covered. *)
Theorem reconciliation_decides_the_gate settings rows provider environment file tolerance now db row db' :
  reconcile_billing_csv parse_float fromisoformat rows provider environment file tolerance now db = (Ok row, db') →
  (∀ j r, billing_reconciliations db !! j = Some r → br_provider r = provider → br_environment r = environment →
     br_reconciled_at r ≤ now) →
  ∀ t, billing_unreconciled db' settings provider environment t =
    negb (bool_decide (br_status row = "clean"%string))
    || (now <? t - billing_reconciliation_max_age_hours settings * hour_us).
Proof.
  intros (charges & period & _ & _ & Hrow & ->)%reconcile_run Hall t.
  assert (br_provider row = provider ∧ br_environment row = environment ∧ br_reconciled_at row = now)
    as (Hp & He & Ha).
  { rewrite Hrow. unfold reconciliation_row. by destruct (match_charges _ _). }
  unfold billing_unreconciled, latest_reconciliation. cbn -[within reconciliation_row].
  rewrite latest_for.
  - rewrite aware_utc_column_read. simpl. by rewrite Ha, Z.sub_0_r.
  - intros j r Hj Hr. rewrite Ha. bools. by eapply Hall.
  - by rewrite Hp, He, !bool_decide_eq_true_2.
Qed.
End billing.

(** ** A run of both gates *)
Module GatesRun.
Definition hash (_ : dict) : string := "sha".
Definition name_of (_ : exn) : string := "error".
Definition at_ (_ : string) : Z := 0.
Definition passing (_ : string) : Session Z dict := mret [("passed", JBool true)]%string.
Definition provider : string := "dataforseo-live".

Lemma import_never_opens_the_gate_witness :
  current_qualification
    (record_qualification hash provider "production" "v1" [] 24 "" "me" "audit" 5 (empty_db (USD := Z))).2
    provider "production" "v1" 6 = None.
Proof.
  destruct (record_qualification hash provider "production" "v1" [] 24 "" "me" "audit" 5 (empty_db (USD := Z)))
    as [res db'] eqn:Hrun.
  cbn [snd].
  rewrite (proj1 (import_never_opens_the_gate hash provider "production" "v1" [] 24 "" "me" "audit" 5 _ _ _ Hrun)).
  by vm_compute.
Defined.

Definition ran := execute_qualification hash name_of name_of at_ at_ provider "production" "v1" passing 24 "me" "" 5
  (empty_db (USD := Z)).
Definition qualified : Z * ProviderQualification :=
  match ran.1 with Ok x => x | Raise _ => (0, {| q_provider := ""; q_environment := ""; q_adapter_version := "";
    q_status := ""; q_qualified_at := 0; q_expires_at := 0; q_checks := []; q_notes := "";
    q_execution_method := ""; q_gate_eligible := false; q_evidence_sha256 := None; q_executed_by := "";
    q_override_reason := "" |}) end.

Lemma runner_decides_the_gate_witness :
  current_qualification ran.2 provider "production" "v1" 6 = Some qualified.
Proof.
  assert (ran = (Ok (qualified.1, qualified.2), ran.2)) as Hrun by by vm_compute.
  rewrite (runner_decides_the_gate hash name_of name_of at_ at_ provider "production" "v1" passing 24 "me" "" 5
    (empty_db (USD := Z)) _ _ _ Hrun).
  - by vm_compute.
  - done.
  - intros j q Hj. exfalso. revert Hj. unfold empty_db. cbn. by rewrite lookup_empty.
Defined.

(** Two paid calls, on two days; the file bills the first only. *)
Definition call (task : string) (completed cost : Z) : ApiCall Z := {|
  ac_scan_run_id := None; ac_planned_request_id := None; ac_provider := provider; ac_endpoint := "/v3/serp";
  ac_estimated_cost_usd := cost; ac_actual_cost_usd := cost; ac_status := CCompleted; ac_error_type := None;
  ac_error_summary := None; ac_started_at := Some 0; ac_completed_at := Some completed;
  ac_attempt_state := ACompleted; ac_provider_outcome := PBilled; ac_reservation_state := RFinalized;
  ac_reservation_usage_date := None; ac_reservation_usage_class := None;
  ac_reservation_estimated_cost_usd := 0; ac_network_started_at := None; ac_reconciled_at := None;
  ac_cache_key := "k"; ac_cache_hit := false; ac_force_refresh := false; ac_attempt_token := None;
  ac_execution_worker_id := None; ac_execution_lease_token := None;
  ac_provider_task_id := Some task; ac_provider_request_id := None |}.

Definition calls_db : Db Z := empty_db <| api_calls := {[1 := call "t1" 10 500; 2 := call "t2" day_us 900000]} |>.
Definition parse (_ : string) : option Z := Some 500.
Definition day (_ : string) : option datetime := Some (Aware 20 0).
Definition file : list (gmap string string) :=
  [{["provider_task_id" := "t1"; "cost_usd" := "0.0005"; "billed_at" := "1970-01-01T00:00:00Z"]}]%string.
Definition reconciled := reconcile_billing_csv parse day file provider "production" "bills.csv" 0 (90 * day_us) calls_db.
Definition recorded : BillingReconciliation Z :=
  match reconciled.1 with
  | Ok row => row
  | Raise _ => reconciliation_row provider "production" "" 0 [] (0, 0) [] 0
  end.

Lemma reconciled_run : reconciled = (Ok recorded, reconciled.2).
Proof. by vm_compute. Qed.

(** The file covers one old day and leaves the larger bill of the next day out; the
    verdict is clean and opens the billing gate. *)
Lemma old_period_opens_the_gate :
  br_status recorded = "clean"%string ∧ br_internal_call_count recorded = 1
  ∧ billing_unreconciled calls_db LedgerRun.settings provider "production" (90 * day_us) = true
  ∧ billing_unreconciled reconciled.2 LedgerRun.settings provider "production" (90 * day_us) = false.
Proof. by vm_compute. Qed.

Lemma reconciliation_is_a_matching_witness :
  br_status recorded = "clean"%string ∧ br_internal_call_count recorded = br_provider_call_count recorded.
Proof.
  assert (br_status recorded = "clean"%string) as Hclean by by vm_compute.
  destruct (reconciliation_is_a_matching parse day file provider "production" "bills.csv" 0 (90 * day_us) calls_db
    _ _ reconciled_run) as (charges & pairs & rest & _ & _ & _ & _ & _ & _ & _ & Hcount & _).
  split; [done|]. by apply Hcount.
Defined.

Lemma reconciliation_decides_the_gate_witness :
  billing_unreconciled reconciled.2 LedgerRun.settings provider "production" (91 * day_us) = false.
Proof.
  rewrite (reconciliation_decides_the_gate parse day LedgerRun.settings file provider "production" "bills.csv" 0
    (90 * day_us) calls_db _ _ reconciled_run).
  - by vm_compute.
  - intros j r Hj. exfalso. revert Hj. unfold calls_db, empty_db. cbn. by rewrite lookup_empty.
Defined.
End GatesRun.
