(* ===== verification/Planning.v ===== *)
(** * Planning: which calls a scan will make, and what they cost (planning.py)

    [build_scan_plan] lists the calls of a scan before any is paid for: their endpoints,
    parameters, cache keys and estimated costs, and whether switches, budget or request
    limit block the scan.  Live scans need a market that agrees with the offline geography
    index ([validate_market_against_index] of services/us_geography.py).

    A [Decimal] is a rational: the sums and comparisons of the code stay far below the 28
    digits of its context.  Texts of error messages are shortened; the text of a block
    reason is its constructor.  The lookup in the index, the formatting of a float and
    [int] of a string are arguments. *)
From S2P Require Import Prelude Text Services Binary64 Schema BlobStorage ResponseCache.
From stdpp Require Import pretty.
From Stdlib Require Import QArith.
#[global] Open Scope Z_scope.

(** ** Decimal money *)

(** [float(d)] of a Decimal and [Decimal(str(f))] of a float *)
Class DecimalMoney (USD : Type) : Type := {
  decimal_to_float : Q → USD;
  decimal_of_float : USD → Q
}.

(** A decimal with at most four places and fifteen digits *)
Definition four_places (q : Q) : Prop :=
  ∃ c : Z, (q == c # 10000)%Q ∧ Z.abs c < 10 ^ 15.

(** Such a decimal survives the way through a float: a double keeps fifteen digits, and
    its [repr] is the shortest decimal that reads back as it. *)
Class DecimalMoneyLaws USD `{DecimalMoney USD} : Prop :=
  float_keeps_places (q : Q) : four_places q → (decimal_of_float (decimal_to_float q) == q)%Q.

Definition Q_ltb (a b : Q) : bool := negb (Qle_bool b a).
Definition decimal_sum (l : list Q) : Q := foldl Qplus 0%Q l.

(** ** domain/models.py *)

Record Market : Type := {
  mt_id : string;
  mt_slug : option string;
  mt_display_name : string;
  mt_type : string;
  mt_country_code : string;
  mt_state : option string;
  mt_cities : list string;
  mt_postal_codes : list string;
  mt_county : option string;
  mt_county_fips : option string;
  mt_metro : option string;
  mt_metro_code : option string;
  mt_latitude : option binary64;
  mt_longitude : option binary64;
  mt_population : option Z;
  mt_reference_population : option Z;
  mt_aliases : list string;
  mt_boundary_radius_km : option binary64;
  mt_geography_id : option string;
  mt_geography_dataset_version : option string;
  mt_provider_location_code : option string;
  mt_provider_location_name : option string;
  mt_resolution_metadata : dict
}.
#[export] Instance eta_Market : Eta Market := λ r,
  Build_Market (mt_id r) (mt_slug r) (mt_display_name r) (mt_type r) (mt_country_code r) (mt_state r) (mt_cities r)
    (mt_postal_codes r) (mt_county r) (mt_county_fips r) (mt_metro r) (mt_metro_code r) (mt_latitude r) (mt_longitude r)
    (mt_population r) (mt_reference_population r) (mt_aliases r) (mt_boundary_radius_km r) (mt_geography_id r)
    (mt_geography_dataset_version r) (mt_provider_location_code r) (mt_provider_location_name r)
    (mt_resolution_metadata r).

(** ** services/keywords.py *)

Fixpoint dedupe_from (seen values : list string) : list string :=
  match values with
  | [] => []
  | value :: values' =>
      let normalized := join_words (py_split (py_lower value)) in
      if str_truthy normalized && negb (bool_decide (normalized ∈ seen))
      then normalized :: dedupe_from (normalized :: seen) values'
      else dedupe_from seen values'
  end.
Definition _dedupe_strings (values : list string) : list string := dedupe_from [] values.

Definition service_seed_keywords (service : ServiceFamily) : list string :=
  let base := py_lower (fam_display_name service) in
  let intent_modifiers :=
    match fam_intent_modifiers service with [] => DEFAULT_AD_HOC_INTENT_MODIFIERS | l => l end in
  let seeds := match fam_seed_queries service with [] => [base] | l => l end in
  _dedupe_strings (seeds ++ map (λ modifier, base +:+ " " +:+ modifier) intent_modifiers).

(** ** Settings and modes *)

Inductive DataMode : Type := fixture | live | replay.
#[export] Instance DataMode_eq_dec : EqDecision DataMode.
Proof. solve_decision. Defined.

Record PlanningSettings (USD : Type) : Type := {
  base_settings : Settings USD;
  dataforseo_environment : string;
  max_scan_cost_usd : USD;
  max_scan_requests : Z;
  live_scan_depth : string
}.
Arguments base_settings {USD}. Arguments dataforseo_environment {USD}. Arguments max_scan_cost_usd {USD}.
Arguments max_scan_requests {USD}. Arguments live_scan_depth {USD}.

Definition normalize_dataforseo_environment {USD} (settings : PlanningSettings USD) : string :=
  if bool_decide (py_lower (py_strip (dataforseo_environment settings)) = "production"%string)
  then "production" else "sandbox".

Definition dataforseo_provider_name {USD} (settings : PlanningSettings USD) : string :=
  if bool_decide (normalize_dataforseo_environment settings = "production"%string)
  then "dataforseo-live" else "dataforseo-sandbox".

(** ** Plans *)

Record PlannedApiCall : Type := {
  pl_planned_request_id : string;
  pl_provider : string;
  pl_endpoint : string;
  pl_request_parameters : json;
  pl_cache_key : string;
  pl_cache_hit : bool;
  pl_request_known : bool;
  pl_estimated_cost_usd : Q;
  pl_required : bool;
  pl_stage : string
}.

Inductive BlockReason : Type :=
| live_calls_are_disabled
| paid_calls_are_killed
| production_calls_are_disabled
| full_scans_are_disabled
| cost_exceeds_maximum (uncached maximum : Q)
| request_count_exceeds_maximum (count maximum : Z).

Record ScanPlan : Type := {
  sp_scan_profile : string;
  sp_planned_calls : list PlannedApiCall;
  sp_cache_hit_count : Z;
  sp_paid_call_count : Z;
  sp_cached_cost_usd : Q;
  sp_estimated_uncached_cost_usd : Q;
  sp_maximum_allowed_cost_usd : Q;
  sp_maximum_request_count : Z;
  sp_confirmation_required : bool;
  sp_blocked : bool;
  sp_block_reason : option BlockReason
}.

(** [_scan_profile] *)
Definition _scan_profile (value : string) : option string :=
  let profile := py_lower (py_strip value) in
  if bool_decide (profile ∈ ["testing"; "full"]%string) then Some profile else None.

Definition _live_switch_block_reason {USD} (settings : PlanningSettings USD) (profile : string)
    : option BlockReason :=
  let s := base_settings settings in
  if negb (allow_live_api_calls s) then Some live_calls_are_disabled
  else if paid_call_kill_switch s then Some paid_calls_are_killed
  else if bool_decide (normalize_dataforseo_environment settings = "production"%string)
          && negb (allow_production_dataforseo s) then Some production_calls_are_disabled
  else if bool_decide (profile = "full"%string) && negb (allow_full_scans s) then Some full_scans_are_disabled
  else None.

(** A plan without calls. *)
Definition empty_plan (profile : string) (maximum : Q) (requests : Z) (reason : option BlockReason) : ScanPlan :=
  {| sp_scan_profile := profile; sp_planned_calls := []; sp_cache_hit_count := 0; sp_paid_call_count := 0;
     sp_cached_cost_usd := 0%Q; sp_estimated_uncached_cost_usd := 0%Q; sp_maximum_allowed_cost_usd := maximum;
     sp_maximum_request_count := requests; sp_confirmation_required := false;
     sp_blocked := bool_decide (is_Some reason); sp_block_reason := reason |}.

(** What [build_scan_plan] returns for the calls it planned. *)
Definition plan_of (profile : string) (maximum : Q) (requests : Z) (planned : list PlannedApiCall) : ScanPlan :=
  let costs p := map pl_estimated_cost_usd (List.filter p planned) in
  let uncached := decimal_sum (costs (λ call, negb (pl_cache_hit call))) in
  let cached := decimal_sum (costs pl_cache_hit) in
  let over_budget := Q_ltb maximum uncached in
  let over_request_limit := requests <? Z.of_nat (length planned) in
  {| sp_scan_profile := profile;
     sp_planned_calls := planned;
     sp_cache_hit_count := Z.of_nat (length (List.filter pl_cache_hit planned));
     sp_paid_call_count := Z.of_nat (length (List.filter
       (λ call, negb (pl_cache_hit call) && Q_ltb 0 (pl_estimated_cost_usd call)) planned));
     sp_cached_cost_usd := cached;
     sp_estimated_uncached_cost_usd := uncached;
     sp_maximum_allowed_cost_usd := maximum;
     sp_maximum_request_count := requests;
     sp_confirmation_required := Q_ltb 0 uncached;
     sp_blocked := over_budget || over_request_limit;
     sp_block_reason :=
       if over_budget then Some (cost_exceeds_maximum uncached maximum)
       else if over_request_limit
       then Some (request_count_exceeds_maximum (Z.of_nat (length planned)) requests)
       else None |}.

(** ** services/us_geography.py *)

(** The state names by abbreviation, in title case as [str.title] writes them. *)
Definition STATE_NAMES : list (string * string) :=
  [("AL", "Alabama"); ("AK", "Alaska"); ("AZ", "Arizona"); ("AR", "Arkansas"); ("CA", "California"); ("CO",
   "Colorado"); ("CT", "Connecticut"); ("DE", "Delaware"); ("DC", "District Of Columbia"); ("FL",
   "Florida"); ("GA", "Georgia"); ("HI", "Hawaii"); ("ID", "Idaho"); ("IL", "Illinois"); ("IN", "Indiana");
   ("IA", "Iowa"); ("KS", "Kansas"); ("KY", "Kentucky"); ("LA", "Louisiana"); ("ME", "Maine"); ("MD",
   "Maryland"); ("MA", "Massachusetts"); ("MI", "Michigan"); ("MN", "Minnesota"); ("MS", "Mississippi");
   ("MO", "Missouri"); ("MT", "Montana"); ("NE", "Nebraska"); ("NV", "Nevada"); ("NH", "New Hampshire");
   ("NJ", "New Jersey"); ("NM", "New Mexico"); ("NY", "New York"); ("NC", "North Carolina"); ("ND", "North
   Dakota"); ("OH", "Ohio"); ("OK", "Oklahoma"); ("OR", "Oregon"); ("PA", "Pennsylvania"); ("RI", "Rhode
   Island"); ("SC", "South Carolina"); ("SD", "South Dakota"); ("TN", "Tennessee"); ("TX", "Texas"); ("UT",
   "Utah"); ("VT", "Vermont"); ("VA", "Virginia"); ("WA", "Washington"); ("WV", "West Virginia"); ("WI",
   "Wisconsin"); ("WY", "Wyoming")]%string.

Definition assoc_of {T} (k : string) (l : list (string * T)) : option T :=
  snd <$> head (List.filter (λ kv, bool_decide (kv.1 = k)) l).

(** The columns of a record that the validation of a market reads *)
Record USGeographyRecord : Type := {
  ug_kind : string;
  ug_city : string;
  ug_state : string;
  ug_postal_code : option string;
  ug_county : string;
  ug_county_fips : string;
  ug_metro : string;
  ug_metro_code : option string;
  ug_latitude : binary64;
  ug_longitude : binary64;
  ug_population : Z;
  ug_reference_population : Z;
  ug_aliases : list string;
  ug_postal_codes : list string;
  ug_boundary_radius_km : binary64;
  ug_dataset_version : string
}.

Definition expected_postal_codes (record : USGeographyRecord) : list string :=
  match ug_postal_code record with
  | Some code => if bool_decide (ug_kind record = "postal_code"%string) && str_truthy code then [code]
                 else ug_postal_codes record
  | None => ug_postal_codes record
  end.

(** The first field of the market that differs from the record *)
Definition stale_field (market : Market) (record : USGeographyRecord) : option string :=
  fst <$> head (List.filter (λ fb, negb fb.2)
    [("type", bool_decide (mt_type market = ug_kind record));
     ("state", bool_decide (mt_state market = Some (ug_state record)));
     ("cities", bool_decide (mt_cities market = [ug_city record]));
     ("postal_codes", bool_decide (mt_postal_codes market = expected_postal_codes record));
     ("county", bool_decide (mt_county market = Some (ug_county record)));
     ("county_fips", bool_decide (mt_county_fips market = Some (ug_county_fips record)));
     ("metro", bool_decide (mt_metro market = Some (ug_metro record)));
     ("metro_code", bool_decide (mt_metro_code market = ug_metro_code record));
     ("aliases", bool_decide (mt_aliases market = ug_aliases record));
     ("geography_dataset_version", bool_decide (mt_geography_dataset_version market = Some (ug_dataset_version record)))]%string).

(** [actual is None or abs(float(actual) - float(expected)) > 0.0001] *)
Definition numeric_differs (actual : option binary64) (expected : binary64) : bool :=
  match actual with
  | None => true
  | Some x => F64.ltb (F64.lit 1 10000) (SpecFloat.SFabs (F64.sub x expected))
  end.

Definition stale_number (market : Market) (record : USGeographyRecord) : option string :=
  fst <$> head (List.filter (λ fb, fb.2)
    [("latitude", numeric_differs (mt_latitude market) (ug_latitude record));
     ("longitude", numeric_differs (mt_longitude market) (ug_longitude record));
     ("population", numeric_differs (F64.of_Z <$> mt_population market) (F64.of_Z (ug_population record)));
     ("reference_population",
      numeric_differs (F64.of_Z <$> mt_reference_population market) (F64.of_Z (ug_reference_population record)));
     ("boundary_radius_km", numeric_differs (mt_boundary_radius_km market) (ug_boundary_radius_km record))]%string).

Definition geography_error (what : string) : exn := ValueError ("USGeographyError: " +:+ what).

(** [record.kind == ... and f"{record.city},{STATE_NAMES[record.state]},United States"] *)
Definition provider_name_fault (market : Market) (record : USGeographyRecord) : option exn :=
  if opt_truthy (mt_provider_location_code market) then None
  else match assoc_of (ug_state record) STATE_NAMES with
       | None => Some (LookupError "KeyError")
       | Some name =>
           if bool_decide (mt_provider_location_name market = Some (ug_city record +:+ "," +:+ name +:+ ",United States"))
           then None else Some (geography_error "stale provider_location_name")
       end.

Definition upper_ascii (a : Ascii.ascii) : Ascii.ascii :=
  let n := Ascii.nat_of_ascii a in
  if ((97 <=? n) && (n <=? 122))%nat then Ascii.ascii_of_nat (n - 32) else a.

Fixpoint py_upper (s : string) : string :=
  match s with
  | EmptyString => EmptyString
  | String a s' => String (upper_ascii a) (py_upper s')
  end.

Definition is_us (market : Market) : bool := bool_decide (py_upper (mt_country_code market) = "US"%string).

Definition validate_market_against_index (index_get : string → option USGeographyRecord) (market : Market)
    : result exn USGeographyRecord :=
  if negb (is_us market) then Raise (geography_error "not a U.S. market")
  else if negb (opt_truthy (mt_geography_id market)) then Raise (geography_error "not linked to the index")
  else match index_get (default ""%string (mt_geography_id market)) with
  | None => Raise (geography_error "no longer present in the index")
  | Some record =>
      match stale_field market record, stale_number market record, provider_name_fault market record with
      | Some f, _, _ | None, Some f, _ => Raise (geography_error ("stale " +:+ f))
      | None, None, Some e => Raise e
      | None, None, None => Ok record
      end
  end.

(** ** integrations/dataforseo/live.py: locations of a task *)

Definition us_labs_location_code : Z := 2840.

(** [round(x)] of a float *)
Definition round_to_int (f : binary64) : result exn Z :=
  match f with
  | SpecFloat.S754_zero _ => Ok 0
  | SpecFloat.S754_finite s m e => Ok (if s then - F64.round_int (Zpos m) e else F64.round_int (Zpos m) e)
  | SpecFloat.S754_infinity _ => Raise OverflowError
  | SpecFloat.S754_nan => Raise (ValueError "cannot convert float NaN to integer")
  end.

Section locations.
Context (format_6f format_g : binary64 → string) (parse_int : string → option Z).

Definition serp_location_payload (market : Market) : result exn dict :=
  match mt_latitude market, mt_longitude market with
  | Some latitude, Some longitude =>
      match mt_boundary_radius_km market with
      | None => Raise (DataForSEOError "SERP discovery requires a positive boundary radius.")
      | Some radius =>
          if F64.leb radius F64.zero
          then Raise (DataForSEOError "SERP discovery requires a positive boundary radius.")
          else match round_to_int (F64.mul radius (F64.of_Z 1000)) with
          | Raise e => Raise e
          | Ok metres =>
              Ok [("location_coordinate", JStr (format_6f latitude +:+ "," +:+ format_6f longitude +:+ ","
                     +:+ pretty (Z.max 200 (Z.min 199999 metres))))]%string
          end
      end
  | _, _ =>
      if opt_truthy (mt_provider_location_code market)
      then match parse_int (default ""%string (mt_provider_location_code market)) with
           | Some code => Ok [("location_code", JInt code)]%string
           | None => Raise (ValueError "int()")
           end
      else if opt_truthy (mt_provider_location_name market)
      then Ok [("location_name", JStr (default ""%string (mt_provider_location_name market)))]%string
      else Ok [("location_name", JStr (mt_display_name market))]%string
  end.

Definition business_listings_location_payload (market : Market) (api_environment : string) : result exn dict :=
  if bool_decide (api_environment = "sandbox"%string) then Ok []
  else match mt_latitude market, mt_longitude market, mt_boundary_radius_km market with
  | Some latitude, Some longitude, Some radius =>
      if F64.leb radius F64.zero
      then Raise (DataForSEOError "Provider discovery requires coordinates and a positive radius.")
      else Ok [("location_coordinate",
                JStr (format_6f latitude +:+ "," +:+ format_6f longitude +:+ "," +:+ format_g radius))]%string
  | _, _, _ => Raise (DataForSEOError "Provider discovery requires coordinates and a positive radius.")
  end.
End locations.

(** ** Building the plan *)

(** What planning raises: an exception of its own, or one of the response cache. *)
Inductive plan_error : Type := Failure (e : exn) | CacheFailure (e : cache_error).

Section planning.
Context {S USD : Type} `{BlobStore S} `{JsonText} `{DecimalMoney USD}.
Context (sha256 : bytes → string) (format_6f format_g : binary64 → string) (parse_int : string → option Z)
  (index_get : string → option USGeographyRecord).
Abbreviation Planner T := (M (CacheState S) plan_error T).

Definition lift {T} (r : result exn T) : Planner T :=
  match r with Ok x => mret x | Raise e => raise (Failure e) end.

(** [_cache_hit]; the first argument says whether there is a session. *)
Definition _cache_hit (session : bool) (key : string) (now : Z) : Planner bool :=
  if session then reraise CacheFailure (lookup_cached_response sha256 key now) ≫= λ l, mret (is_valid l)
  else mret false.

(** The arguments of one [_append_call] *)
Record CallSpec : Type := {
  cs_endpoint : string;
  cs_stage : string;
  cs_task : dict;
  cs_cost : Q;
  cs_required : bool;
  cs_request_known : bool
}.

(** [f"req-{n:03d}"] *)
Definition request_id (n : nat) : string :=
  let digits : string := pretty n in
  "req-" +:+ match String.length digits with 1%nat => "00" | 2%nat => "0" | _ => "" end +:+ digits.

Definition _append_call (session : bool) (provider : string) (now : Z) (spec : CallSpec)
    (planned : list PlannedApiCall) : Planner (list PlannedApiCall) :=
  let params := JObj [("tasks", JList [JObj (cs_task spec)])]%string in
  get_or_raise (λ _, normalize_request params) (CacheFailure JSONDecodeError) ≫= λ normalized,
  get_or_raise (λ _, cache_key sha256 provider (cs_endpoint spec) normalized "v3" DEFAULT_RESPONSE_SHAPE_VERSION)
    (CacheFailure JSONDecodeError) ≫= λ key,
  (if cs_request_known spec then _cache_hit session key now else mret false) ≫= λ hit,
  mret (planned ++ [{|
    pl_planned_request_id := request_id (length planned + 1);
    pl_provider := provider;
    pl_endpoint := cs_endpoint spec;
    pl_request_parameters := normalized;
    pl_cache_key := key;
    pl_cache_hit := hit;
    pl_request_known := cs_request_known spec;
    pl_estimated_cost_usd := cs_cost spec;
    pl_required := cs_required spec;
    pl_stage := cs_stage spec |}]).

(** A loop of appends; making the arguments may raise. *)
Fixpoint append_each {T} (session : bool) (provider : string) (now : Z) (spec : T → result exn CallSpec)
    (xs : list T) (planned : list PlannedApiCall) : Planner (list PlannedApiCall) :=
  match xs with
  | [] => mret planned
  | x :: xs' =>
      lift (spec x) ≫= λ call,
      _append_call session provider now call planned ≫= append_each session provider now spec xs'
  end.

Definition _labs_location_payload (market : Market) : dict :=
  (if is_us market then [("location_code", JInt us_labs_location_code)]
   else [("location_name", JStr (py_upper (mt_country_code market)))])%string.

(** ["0" if free_sandbox else price], the price in thousandths of a dollar *)
Definition price (free_sandbox : bool) (thousandths : Z) : Q :=
  if free_sandbox then 0%Q else (thousandths # 1000)%Q.

Definition is_testing (profile : string) : bool := bool_decide (profile = "testing"%string).

Definition keyword_call (free : bool) (profile : string) (market : Market) (seed : string) : result exn CallSpec :=
  Ok {| cs_endpoint := "/v3/dataforseo_labs/google/keyword_suggestions/live";
        cs_stage := "keyword_discovery";
        cs_task := ([("keyword", JStr seed); ("language_code", JStr "en");
                     ("limit", JInt (if is_testing profile then 10 else 20));
                     ("include_seed_keyword", JBool true)]%string ++ _labs_location_payload market);
        cs_cost := price free 12; cs_required := true; cs_request_known := true |}.

Definition volume_call (free : bool) (_ : unit) : result exn CallSpec :=
  Ok {| cs_endpoint := "/v3/dataforseo_labs/google/historical_search_volume/live";
        cs_stage := "keyword_metrics";
        cs_task := [("keywords", JList [JStr "<from keyword discovery>"]); ("language_code", JStr "en");
                    ("location_code", JInt us_labs_location_code)]%string;
        cs_cost := price free 12; cs_required := true; cs_request_known := false |}.

Definition serp_call (free : bool) (market : Market) (slot : nat) : result exn CallSpec :=
  match serp_location_payload format_6f parse_int market with
  | Raise e => Raise e
  | Ok location =>
      Ok {| cs_endpoint := "/v3/serp/google/organic/live/advanced";
            cs_stage := "serp";
            cs_task := ([("keyword", JStr ("<representative keyword " +:+ pretty (slot + 1)%nat +:+ ">"));
                         ("language_code", JStr "en"); ("device", JStr "desktop"); ("depth", JInt 10)]%string
                        ++ location);
            cs_cost := price free 2; cs_required := true; cs_request_known := false |}
  end.

Definition backlinks_call (free : bool) (slot : nat) : result exn CallSpec :=
  Ok {| cs_endpoint := "/v3/backlinks/summary/live";
        cs_stage := "competitors";
        cs_task := [("target", JStr ("<organic competitor domain " +:+ pretty (slot + 1)%nat +:+ ">"));
                    ("include_subdomains", JBool true)]%string;
        cs_cost := price free 20; cs_required := false; cs_request_known := false |}.

Definition listings_call (free : bool) (api_environment profile : string) (service : ServiceFamily) (market : Market)
    (_ : unit) : result exn CallSpec :=
  match business_listings_location_payload format_6f format_g market api_environment with
  | Raise e => Raise e
  | Ok location =>
      Ok {| cs_endpoint := "/v3/business_data/business_listings/search/live";
            cs_stage := "provider_discovery";
            cs_task := ([("language_code", JStr "en"); ("limit", JInt (if is_testing profile then 5 else 10));
                         ("filters", JList [JStr "address_info.country_code"; JStr "=";
                                            JStr (py_upper (mt_country_code market))]);
                         ("description", JStr (fam_display_name service +:+ " " +:+ mt_display_name market))]%string
                        ++ location
                        ++ match fam_provider_categories service with
                           | [] => []
                           | l => [("categories"%string, JList (map JStr (take 10 l)))]
                           end);
            cs_cost := price free 10; cs_required := true; cs_request_known := true |}
  end.

(** The calls of a live scan, in their order *)
Definition planned_calls (settings : PlanningSettings USD) (session : bool) (profile : string)
    (service : ServiceFamily) (market : Market) (now : Z) : Planner (list PlannedApiCall) :=
  let provider := dataforseo_provider_name settings in
  let api_environment := normalize_dataforseo_environment settings in
  let free := bool_decide (api_environment = "sandbox"%string) in
  let testing := is_testing profile in
  append_each session provider now (keyword_call free profile market)
    (take (if testing then 1 else 3)%nat (service_seed_keywords service)) [] ≫= λ planned,
  append_each session provider now (volume_call free) [tt] planned ≫= λ planned,
  append_each session provider now (serp_call free market) (seq 0 (if testing then 1 else 3)) planned ≫= λ planned,
  append_each session provider now (backlinks_call free) (seq 0 (if testing then 0 else 5)) planned ≫= λ planned,
  append_each session provider now (listings_call free api_environment profile service market) [tt] planned.

Definition build_scan_plan (settings : PlanningSettings USD) (mode : DataMode) (service : ServiceFamily)
    (market : Market) (session : bool) (scan_profile : option string) (now : Z) : Planner ScanPlan :=
  let maximum := decimal_of_float (max_scan_cost_usd settings) in
  let requests := max_scan_requests settings in
  get_or_raise (λ _, _scan_profile (default ""%string (str_or scan_profile (Some (live_scan_depth settings)))))
    (Failure (ValueError "scan_profile must be 'testing' or 'full'.")) ≫= λ profile,
  if negb (bool_decide (mode = live)) then mret (empty_plan profile maximum requests None)
  else match _live_switch_block_reason settings profile with
  | Some reason => mret (empty_plan profile maximum requests (Some reason))
  | None =>
      lift (validate_market_against_index index_get market) ≫= λ _,
      planned_calls settings session profile service market now ≫= λ planned,
      mret (plan_of profile maximum requests planned)
  end.
End planning.
