(* ===== verification/PlanningTheorems.v ===== *)
(** * PlanningTheorems: a plan's costs add up and stay within its limits

    The calls of a plan have identifiers of their own, the cached and the uncached cost
    make up the whole, and a plan that is not blocked stays within the budget and the
    request limit.  [plans_are_sound] is the contract the batches rely on. *)
From S2P Require Import Prelude Services Binary64 Schema BlobStorage ResponseCache ResponseCacheTheorems Numbers Planning.
From Stdlib Require Import QArith Lqa.
#[global] Open Scope Z_scope.

(** ** Sums of decimals *)

Lemma decimal_sum_total l : (decimal_sum l == total l)%Q.
Proof. unfold decimal_sum. rewrite (foldl_total (λ x, x)), map_id. lra. Qed.

Lemma total_split {T} (p : T → bool) (f : T → Q) l :
  (total (map f (List.filter (λ x, negb (p x)) l)) + total (map f (List.filter p l)) == total (map f l))%Q.
Proof. induction l as [|x l IH]; simpl; [lra|]. destruct (p x); simpl; lra. Qed.

(** A price in thousandths of a dollar *)
Definition thousandths (q : Q) : Prop := ∃ t : Z, (q == t # 1000)%Q ∧ 0 ≤ t.

Lemma price_thousandths free t : 0 ≤ t → thousandths (price free t).
Proof. intros Ht. destruct free; [exists 0|exists t]; split; done. Qed.

Lemma total_thousandths l : Forall thousandths l → thousandths (total l).
Proof.
  induction 1 as [|x l (t & Hx & Ht) _ (u & Hl & Hu)]; [by exists 0|].
  exists (t + u). split; [|lia]. simpl. rewrite Hx, Hl. unfold Qeq. simpl. lia.
Qed.

Lemma thousandths_nonneg q : thousandths q → (0 <= q)%Q.
Proof. intros (t & -> & ?). unfold Qle. simpl. lia. Qed.

Lemma thousandths_places q : thousandths q → (q <= 1000)%Q → four_places q.
Proof.
  intros (t & Hq & Ht) Hle. exists (10 * t). split.
  - rewrite Hq. unfold Qeq. simpl. lia.
  - rewrite Hq in Hle. unfold Qle in Hle. simpl in Hle. lia.
Qed.

Lemma Q_ltb_le (a b : Q) : Planning.Q_ltb a b = false ↔ (b <= a)%Q.
Proof. unfold Planning.Q_ltb. rewrite negb_false_iff. apply Qle_bool_iff. Qed.

(** ** The calls of a plan *)

Section planning.
Context {S USD : Type} `{BlobStore S} `{JsonText} `{DecimalMoney USD}.
Context (sha256 : bytes → string) (format_6f format_g : binary64 → string) (parse_int : string → option Z)
  (index_get : string → option USGeographyRecord).
Implicit Types (st : CacheState S) (planned : list PlannedApiCall).

(** The calls read the cache one after the other, from one state to another: a call of a
    session whose request is known is a hit exactly when the stored response that the cache
    finds under its key at that moment is valid, and no other call looks, or is a hit. *)
Inductive looked_up (session : bool) (now : Z) : CacheState S → list PlannedApiCall → CacheState S → Prop :=
| no_call st : looked_up session now st [] st
| call_looks st st1 st' call calls l :
    session = true → pl_request_known call = true →
    lookup_cached_response sha256 (pl_cache_key call) now st = (Ok l, st1) →
    pl_cache_hit call = is_valid l →
    looked_up session now st1 calls st' → looked_up session now st (call :: calls) st'
| call_passes st st' call calls :
    session = false ∨ pl_request_known call = false → pl_cache_hit call = false →
    looked_up session now st calls st' → looked_up session now st (call :: calls) st'.

(** The key of a call is made of its own provider, endpoint and parameters. *)
Definition own_key (call : PlannedApiCall) : Prop :=
  cache_key sha256 (pl_provider call) (pl_endpoint call) (pl_request_parameters call) "v3"
    DEFAULT_RESPONSE_SHAPE_VERSION = Some (pl_cache_key call).

Lemma looked_up_app session now st1 st2 st3 calls calls' :
  looked_up session now st1 calls st2 → looked_up session now st2 calls' st3 →
  looked_up session now st1 (calls ++ calls') st3.
Proof. induction 1; [done|..]; intros ?; simpl; [eapply call_looks|eapply call_passes]; eauto. Qed.

(** What a list of planned calls adds to another one, and the cache they read *)
Definition extends (session : bool) (now : Z) (costs : list Q) st planned st' planned' : Prop :=
  ∃ more, planned' = planned ++ more
    ∧ map pl_planned_request_id more = map request_id (seq (length planned + 1) (length costs))
    ∧ map pl_estimated_cost_usd more = costs ∧ looked_up session now st more st' ∧ Forall own_key more.

Lemma plan_extends_trans session now c1 c2 st1 st2 st3 p1 p2 p3 :
  extends session now c1 st1 p1 st2 p2 → extends session now c2 st2 p2 st3 p3 →
  extends session now (c1 ++ c2) st1 p1 st3 p3.
Proof.
  intros (m1 & -> & Hi1 & <- & Hl1 & Hf1) (m2 & -> & Hi2 & <- & Hl2 & Hf2). exists (m1 ++ m2).
  rewrite app_assoc, !map_app, Hi1, Hi2, !length_app, seq_app, map_app, !length_map. split_and!; try done.
  - do 3 f_equal. lia.
  - by eapply looked_up_app.
  - by apply Forall_app.
Qed.

Lemma append_call_run session provider now spec planned st planned' st' :
  _append_call sha256 session provider now spec planned st = (Ok planned', st') →
  extends session now [cs_cost spec] st planned st' planned'.
Proof.
  unfold _append_call. intros (normalized & s1 & [_ ->]%get_or_raise_ok & Hrun)%bind_ok.
  apply bind_ok in Hrun as (key & s2 & [Hkey ->]%get_or_raise_ok & Hrun).
  apply bind_ok in Hrun as (hit & s3 & Hhit & Hret).
  apply ret_ok in Hret as [-> ->]. eexists [_]. split_and!; [done..| |by apply Forall_singleton].
  destruct (cs_request_known spec) eqn:Hknown.
  2: { apply ret_ok in Hhit as [-> ->]. apply call_passes; [by right|done|apply no_call]. }
  unfold _cache_hit in Hhit. destruct session.
  2: { apply ret_ok in Hhit as [-> ->]. apply call_passes; [by left|done|apply no_call]. }
  apply bind_ok in Hhit as (l & s4 & Hl%reraise_ok & Hret). apply ret_ok in Hret as [-> ->].
  eapply call_looks; [done|done|exact Hl|done|apply no_call].
Qed.

Lemma append_each_run {T} session provider now (spec : T → result exn CallSpec) (cost : Q) xs planned st planned' st' :
  (∀ x call, spec x = Ok call → cs_cost call = cost) →
  append_each sha256 session provider now spec xs planned st = (Ok planned', st') →
  extends session now (replicate (length xs) cost) st planned st' planned'.
Proof.
  intros Hcost. revert planned st. induction xs as [|x xs IH]; intros planned st; simpl.
  - intros [-> ->]%ret_ok. exists []. split_and!; try done; [by rewrite app_nil_r|apply no_call].
  - intros (call & s1 & Hspec & Hrun)%bind_ok. apply bind_ok in Hrun as (p1 & s2 & Happ & Hrun).
    destruct (spec x) as [c|e] eqn:Hx; [|done]. apply ret_ok in Hspec as [-> ->].
    rewrite <- (Hcost x c Hx) at 1.
    apply (plan_extends_trans _ _ [_] _ _ s2 _ _ p1); [by eapply append_call_run|by eapply IH].
Qed.

(** The estimated costs of a live scan *)
Definition plan_costs (free : bool) (seeds serps backlinks : nat) : list Q :=
  replicate seeds (price free 12) ++ [price free 12] ++ replicate serps (price free 2)
  ++ replicate backlinks (price free 20) ++ [price free 10].

Lemma planned_calls_run (settings : PlanningSettings USD) session profile service market now st planned st' :
  planned_calls sha256 format_6f format_g parse_int settings session profile service market now st
    = (Ok planned, st') →
  let testing := is_testing profile in
  ∃ seeds, (seeds ≤ if testing then 1 else 3)%nat ∧
    extends session now (plan_costs (bool_decide (normalize_dataforseo_environment settings = "sandbox"%string)) seeds
      (if testing then 1 else 3) (if testing then 0 else 5)) st [] st' planned.
Proof.
  intros Hrun testing. unfold planned_calls in Hrun.
  apply bind_ok in Hrun as (p1 & s1 & H1' & Hrun). apply bind_ok in Hrun as (p2 & s2 & H2' & Hrun).
  apply bind_ok in Hrun as (p3 & s3 & H3' & Hrun). apply bind_ok in Hrun as (p4 & s4 & H4' & H5').
  set (free := bool_decide _) in *.
  apply (append_each_run _ _ _ _ (price free 12)) in H1'; [|by intros ? ? [= <-]].
  apply (append_each_run _ _ _ _ (price free 12)) in H2'; [|by intros ? ? [= <-]].
  apply (append_each_run _ _ _ _ (price free 2)) in H3'.
  2: { unfold serp_call. intros ? ?. destruct (serp_location_payload _ _ _); [|done]. by intros [= <-]. }
  apply (append_each_run _ _ _ _ (price free 20)) in H4'; [|by intros ? ? [= <-]].
  apply (append_each_run _ _ _ _ (price free 10)) in H5'.
  2: { unfold listings_call. intros ? ?. destruct (business_listings_location_payload _ _ _ _); [|done].
       by intros [= <-]. }
  rewrite !length_seq in *. eexists. split; [|unfold plan_costs; repeat (eapply plan_extends_trans; [eassumption|]); eassumption].
  rewrite length_take. fold testing. destruct testing; lia.
Qed.
(** ** The plan *)

Lemma plan_costs_thousandths free seeds serps backlinks : Forall thousandths (plan_costs free seeds serps backlinks).
Proof.
  unfold plan_costs. rewrite !Forall_app, !Forall_singleton.
  split_and!; try (apply Forall_replicate); by apply price_thousandths.
Qed.

Lemma plan_costs_bound free (testing : bool) seeds :
  (seeds ≤ if testing then 1 else 3)%nat →
  (total (plan_costs free seeds (if testing then 1 else 3) (if testing then 0 else 5))
    <= if free then 0 else if testing then 36 # 1000 else 164 # 1000)%Q
  ∧ (length (plan_costs free seeds (if testing then 1 else 3) (if testing then 0 else 5)) ≤ if testing then 4 else 13)%nat.
Proof.
  intros Hs.
  destruct testing, free; (destruct seeds as [|[|[|[|seeds]]]]; try lia);
    (split; [by apply Qle_bool_iff|vm_compute; lia]).
Qed.

Lemma total_filter_le {T} (p : T → bool) (f : T → Q) l :
  Forall thousandths (map f l) →
  thousandths (total (map f (List.filter p l))) ∧ (total (map f (List.filter p l)) <= total (map f l))%Q.
Proof.
  intros Hf.
  assert (∀ q : T → bool, thousandths (total (map f (List.filter q l)))) as Hall.
  { intros q. apply total_thousandths. rewrite Forall_forall in Hf |- *.
    intros y (x & <- & [Hin _]%filter_In)%list_elem_of_In%in_map_iff.
    by apply Hf, list_elem_of_In, in_map. }
  split; [apply Hall|]. rewrite <- (total_split p f l).
  pose proof (thousandths_nonneg _ (Hall (λ x, negb (p x)))). lra.
Qed.

(** What a caller may rely on; the plan was made while the cache went from [st] to [st']. *)
Record sound_plan (sandbox : bool) (maximum : Q) (requests : Z) (mode : DataMode) (session : bool) (now : Z)
    st (plan : ScanPlan) st' : Prop := {
  ids_distinct : NoDup (map pl_planned_request_id (sp_planned_calls plan));
  costs_add_up : (sp_cached_cost_usd plan + sp_estimated_uncached_cost_usd plan
                  == decimal_sum (map pl_estimated_cost_usd (sp_planned_calls plan)))%Q;
  hits_are_stored : looked_up session now st (sp_planned_calls plan) st';
  keys_are_own : Forall own_key (sp_planned_calls plan);
  cost_thousandths : thousandths (sp_estimated_uncached_cost_usd plan);
  cost_bound : (sp_estimated_uncached_cost_usd plan
    <= if sandbox then 0 else if is_testing (sp_scan_profile plan) then 36 # 1000 else 164 # 1000)%Q;
  count_bound : (length (sp_planned_calls plan) ≤ if is_testing (sp_scan_profile plan) then 4 else 13)%nat;
  within_limits : mode = live → sp_blocked plan = false →
    (sp_estimated_uncached_cost_usd plan <= maximum)%Q
    ∧ Z.of_nat (length (sp_planned_calls plan)) ≤ requests
}.

Lemma empty_plan_sound sandbox profile maximum requests mode session now reason st :
  (mode = live → is_Some reason) →
  sound_plan sandbox maximum requests mode session now st (empty_plan profile maximum requests reason) st.
Proof.
  intros Hmode. split; simpl; try done; [by constructor|apply no_call|by exists 0| |lia|].
  - by destruct sandbox, (is_testing profile).
  - intros Hlive Hblocked. apply bool_decide_eq_false in Hblocked. by destruct Hblocked; apply Hmode.
Qed.

Lemma plan_of_sound sandbox profile maximum requests mode session now planned seeds st st' :
  (seeds ≤ if is_testing profile then 1 else 3)%nat →
  extends session now (plan_costs sandbox seeds (if is_testing profile then 1 else 3)
    (if is_testing profile then 0 else 5)) st [] st' planned →
  sound_plan sandbox maximum requests mode session now st (plan_of profile maximum requests planned) st'.
Proof.
  intros Hs (more & -> & Hids & Hcosts & Hsound & Hkeys). simpl in *.
  destruct (plan_costs_bound sandbox (is_testing profile) seeds Hs) as [Hbound Hlen].
  pose proof (plan_costs_thousandths sandbox seeds (if is_testing profile then 1 else 3)
    (if is_testing profile then 0 else 5)) as Hth.
  rewrite <- Hcosts in *. rewrite length_map in *.
  destruct (total_filter_le (λ call, negb (pl_cache_hit call)) _ more Hth) as [Hun Hle].
  split; unfold plan_of; cbn -[decimal_sum].
  - rewrite Hids. apply (NoDup_app (map request_id (seq 1 (length more)))
      (map request_id (seq (1 + length more) (13 - length more)))).
    rewrite <- map_app, <- seq_app.
    replace (length more + (13 - length more))%nat with 13%nat by (destruct (is_testing profile); lia).
    apply (bool_decide_eq_true_1 _). by vm_compute.
  - rewrite !decimal_sum_total, Qplus_comm. apply total_split.
  - done.
  - done.
  - destruct Hun as (t & Ht & ?). exists t. by rewrite decimal_sum_total.
  - rewrite decimal_sum_total. by eapply Qle_trans.
  - done.
  - intros _ [Hcost Hcount]%orb_false_iff. split; [by apply Q_ltb_le|by apply Z.ltb_ge].
Qed.

(** [build_scan_plan] makes sound plans. *)
Lemma scan_plan_sound settings mode service market session scan_profile now st plan st' :
  build_scan_plan sha256 format_6f format_g parse_int index_get settings mode service market session scan_profile
    now st = (Ok plan, st') →
  sound_plan (bool_decide (normalize_dataforseo_environment settings = "sandbox"%string))
    (decimal_of_float (max_scan_cost_usd settings)) (max_scan_requests settings) mode session now st plan st'.
Proof.
  unfold build_scan_plan. intros (profile & s1 & [_ ->]%get_or_raise_ok & Hrun)%bind_ok.
  case_bool_decide as Hmode; simpl in Hrun.
  2: { apply ret_ok in Hrun as [-> ->]. by apply empty_plan_sound. }
  destruct (_live_switch_block_reason _ _) as [reason|].
  { apply ret_ok in Hrun as [-> ->]. apply empty_plan_sound. by eexists. }
  apply bind_ok in Hrun as (record & s2 & Hrecord & Hrun).
  assert (s2 = st) as -> by (destruct (validate_market_against_index _ _); [by apply ret_ok in Hrecord as [_ ->]|done]).
  apply bind_ok in Hrun as (planned & s3 & Hplanned & Hret).
  apply ret_ok in Hret as [-> ->]. apply planned_calls_run in Hplanned as (seeds & Hs & Hext).
  by eapply plan_of_sound.
Qed.

(** C29: A plan's accounts are right.  Its calls have identifiers of their own; the cached
    and the uncached cost add up to the estimates of all calls; a call counts as cached
    exactly when it is known in advance, there is a session, and the lookup in the cache the
    plan was given, under the key of the call's own provider, endpoint and parameters, found
    a valid stored response;
    the uncached cost is a whole number of thousandths, at most 3.6 cents for a testing
    scan of at most 4 calls and 16.4 cents for a full one of at most 13, and nothing in the
    sandbox; and a live plan that is not blocked stays within the configured budget and
    number of requests. *)
Theorem plans_are_sound settings mode service market session scan_profile now st plan st' :
  build_scan_plan sha256 format_6f format_g parse_int index_get settings mode service market session scan_profile
    now st = (Ok plan, st') →
  sound_plan (bool_decide (normalize_dataforseo_environment settings = "sandbox"%string))
    (decimal_of_float (max_scan_cost_usd settings)) (max_scan_requests settings) mode session now st plan st'.
Proof. apply scan_plan_sound. Qed.
End planning.

(** ** A plan *)
Module PlanRun.
Import TextCodec.

#[global] Instance money : DecimalMoney Z := {|
  decimal_to_float q := Qnum q * 1000000 / Zpos (Qden q);
  decimal_of_float z := z # 1000000
|}.

#[global] Instance money_laws : DecimalMoneyLaws Z.
Proof.
  intros q (c & Hq & _). unfold Qeq in *. simpl in *.
  assert (Qnum q * 1000000 / Zpos (Qden q) = 100 * c) as ->; [|lia].
  symmetry. apply Z.div_unique_exact; [done|]. lia.
Qed.

Definition settings : PlanningSettings Z := {|
  base_settings := {|
    allow_live_api_calls := true; allow_production_dataforseo := true; paid_call_kill_switch := false;
    allow_full_scans := true; scan_worker_max_attempts := 3; scan_worker_retry_base_seconds := F64.of_Z 30;
    scan_worker_retry_max_seconds := F64.of_Z 900; scan_worker_stale_after_seconds := F64.of_Z 120;
    scan_worker_long_running_seconds := F64.of_Z 1800; production_daily_request_limit := 100;
    production_daily_spend_usd := 1000000; testing_daily_spend_usd := 60000;
    single_call_abnormal_cost_usd := 100000; unexpected_call_breaker_threshold := 3;
    provider_failure_rate_threshold := F64.lit 1 4; schema_drift_rate_threshold := F64.lit 1 10;
    circuit_breaker_minimum_requests := 5; billing_reconciliation_max_age_hours := 30 |};
  dataforseo_environment := " Production";
  max_scan_cost_usd := 200000;
  max_scan_requests := 15;
  live_scan_depth := "Full"
|}.

Definition record : USGeographyRecord := {|
  ug_kind := "city"; ug_city := "Boise"; ug_state := "ID"; ug_postal_code := None; ug_county := "Ada";
  ug_county_fips := "16001"; ug_metro := "Boise City"; ug_metro_code := None;
  ug_latitude := F64.lit 436 10; ug_longitude := F64.lit (-1162) 10; ug_population := 235000;
  ug_reference_population := 800000; ug_aliases := []; ug_postal_codes := ["83702"];
  ug_boundary_radius_km := F64.of_Z 20; ug_dataset_version := "2024" |}%string.

Definition market : Market := {|
  mt_id := "g1"; mt_slug := Some "g1"; mt_resolution_metadata := [];
  mt_display_name := "Boise, ID"; mt_type := "city"; mt_country_code := "us"; mt_state := Some "ID";
  mt_cities := ["Boise"]; mt_postal_codes := ["83702"]; mt_county := Some "Ada"; mt_county_fips := Some "16001";
  mt_metro := Some "Boise City"; mt_metro_code := None; mt_latitude := Some (F64.lit 436 10);
  mt_longitude := Some (F64.lit (-1162) 10); mt_population := Some 235000;
  mt_reference_population := Some 800000; mt_aliases := []; mt_boundary_radius_km := Some (F64.of_Z 20);
  mt_geography_id := Some "g1"; mt_geography_dataset_version := Some "2024"; mt_provider_location_code := None;
  mt_provider_location_name := Some "Boise,Idaho,United States" |}%string.

Definition service : ServiceFamily := {|
  fam_id := "gutter"; fam_slug := Some "gutter"%string; fam_display_name := "Gutter Cleaning"; fam_description := "";
  fam_seed_queries := []; fam_negative_terms := []; fam_intent_modifiers := []; fam_negative_product_terms := [];
  fam_provider_categories := []; fam_regulated := false; fam_enabled := true
|}.

Definition number_text (_ : binary64) : string := "1".
Definition index_get (_ : string) : option USGeographyRecord := Some record.
Definition planned := build_scan_plan (H := CacheRun.fs_store) digest number_text number_text (λ _, None) index_get
  settings live service market true None 10 CacheRun.empty.
Definition plan : ScanPlan := match planned.1 with Ok p => p | Raise _ => empty_plan "" 0 0 None end.

Lemma plan_run : planned = (Ok plan, planned.2).
Proof. by vm_compute. Qed.

Lemma seeds_of_service : service_seed_keywords service =
  ["gutter cleaning"; "gutter cleaning repair"; "gutter cleaning replacement"; "gutter cleaning installation";
   "gutter cleaning emergency"]%string.
Proof. by vm_compute. Qed.

Lemma plans_are_sound_witness :
  (sp_estimated_uncached_cost_usd plan <= 200000 # 1000000)%Q ∧ length (sp_planned_calls plan) = 13%nat
  ∧ (sp_estimated_uncached_cost_usd plan == 164 # 1000)%Q.
Proof.
  pose proof (plans_are_sound (H := CacheRun.fs_store) digest number_text number_text (λ _, None) index_get
    settings live service market true None 10 CacheRun.empty plan planned.2 plan_run) as Hsound.
  split; [|by vm_compute]. apply (within_limits _ _ _ _ _ _ _ _ _ _ Hsound); by vm_compute.
Defined.
End PlanRun.
