(* ===== verification/DiscoveryBatches.v ===== *)
(** * DiscoveryBatches: discovery templates and bounded scan batches (opportunity_review/services.py)

    An operator keeps templates, plans a batch of scans within a budget, a maximum cost is
    confirmed, and the batch queues one scan per opportunity.  The tables of
    opportunity_review/orm.py and the cost columns of a scan stand beside [Db] in [Desk].

    What planning reads besides (the rows of services and markets, the response cache) is
    the catalog; class [ScanPlanner] is what a batch needs of it, and [build_scan_plan]
    implements it (DiscoveryBatchesTheorems).  The JSON column of an item holds the dump of
    its [ScanPlan] and is read back as that plan. *)
From S2P Require Import Prelude Text Binary64 Schema OpportunityReview Planning.
From stdpp Require Import pretty.
From Stdlib Require Import QArith.
#[global] Open Scope Z_scope.

(** ** Rows *)

Record DiscoveryTemplate (USD : Type) : Type := {
  dt_name : string;
  dt_owner_user_id : string;
  dt_service_family_id : Z;
  dt_market_filters : json;
  dt_prefilter_profile : string;
  dt_testing_profile : string;
  dt_full_profile : string;
  dt_budget_usd : USD;
  dt_freshness_requirements : json;
  dt_active : bool
}.
Arguments dt_name {USD}. Arguments dt_owner_user_id {USD}. Arguments dt_service_family_id {USD}.
Arguments dt_market_filters {USD}. Arguments dt_prefilter_profile {USD}. Arguments dt_testing_profile {USD}.
Arguments dt_full_profile {USD}. Arguments dt_budget_usd {USD}. Arguments dt_freshness_requirements {USD}.
Arguments dt_active {USD}. Arguments Build_DiscoveryTemplate {USD}.
#[export] Instance eta_DiscoveryTemplate USD : Eta (DiscoveryTemplate USD) := λ r,
  Build_DiscoveryTemplate (dt_name r) (dt_owner_user_id r) (dt_service_family_id r) (dt_market_filters r)
    (dt_prefilter_profile r) (dt_testing_profile r) (dt_full_profile r) (dt_budget_usd r)
    (dt_freshness_requirements r) (dt_active r).

Inductive BatchStatus : Type := b_planned | b_confirmed | b_queued.
#[export] Instance BatchStatus_eq_dec : EqDecision BatchStatus.
Proof. solve_decision. Defined.

Record BatchScanPlan (USD : Type) : Type := {
  ba_name : string;
  ba_template_id : option Z;
  ba_created_by : string;
  ba_scan_profile : string;
  ba_data_mode : DataMode;
  ba_status : BatchStatus;
  ba_aggregate_budget_usd : USD;
  ba_aggregate_estimated_cost_usd : USD;
  ba_approved_max_cost_usd : option USD;
  ba_confirmed_by : option string;
  ba_confirmation_reason : option string;
  ba_confirmed_at : option Z;
  ba_queued_at : option Z
}.
Arguments ba_name {USD}. Arguments ba_template_id {USD}. Arguments ba_created_by {USD}.
Arguments ba_scan_profile {USD}. Arguments ba_data_mode {USD}. Arguments ba_status {USD}.
Arguments ba_aggregate_budget_usd {USD}. Arguments ba_aggregate_estimated_cost_usd {USD}.
Arguments ba_approved_max_cost_usd {USD}. Arguments ba_confirmed_by {USD}.
Arguments ba_confirmation_reason {USD}. Arguments ba_confirmed_at {USD}. Arguments ba_queued_at {USD}.
Arguments Build_BatchScanPlan {USD}.
#[export] Instance eta_BatchScanPlan USD : Eta (BatchScanPlan USD) := λ r,
  Build_BatchScanPlan (ba_name r) (ba_template_id r) (ba_created_by r) (ba_scan_profile r) (ba_data_mode r)
    (ba_status r) (ba_aggregate_budget_usd r) (ba_aggregate_estimated_cost_usd r) (ba_approved_max_cost_usd r)
    (ba_confirmed_by r) (ba_confirmation_reason r) (ba_confirmed_at r) (ba_queued_at r).

(** The status of an item: planned, or queued. *)
Record BatchScanPlanItem (USD : Type) : Type := {
  it_batch_plan_id : Z;
  it_opportunity_id : Z;
  it_queued : bool;
  it_estimated_cost_usd : USD;
  it_scan_plan_payload : ScanPlan;
  it_scan_run_id : option Z
}.
Arguments it_batch_plan_id {USD}. Arguments it_opportunity_id {USD}. Arguments it_queued {USD}.
Arguments it_estimated_cost_usd {USD}. Arguments it_scan_plan_payload {USD}. Arguments it_scan_run_id {USD}.
Arguments Build_BatchScanPlanItem {USD}.
#[export] Instance eta_BatchScanPlanItem USD : Eta (BatchScanPlanItem USD) := λ r,
  Build_BatchScanPlanItem (it_batch_plan_id r) (it_opportunity_id r) (it_queued r) (it_estimated_cost_usd r)
    (it_scan_plan_payload r) (it_scan_run_id r).

(** [ScanPlanORM] *)
Record ScanPlanRow (USD : Type) : Type := {
  spr_scan_run_id : Z;
  spr_scan_profile : string;
  spr_cache_hit_count : Z;
  spr_paid_call_count : Z;
  spr_estimated_uncached_cost_usd : USD;
  spr_maximum_allowed_cost_usd : USD;
  spr_confirmation_required : bool;
  spr_blocked : bool;
  spr_block_reason : option BlockReason
}.
Arguments spr_scan_run_id {USD}. Arguments Build_ScanPlanRow {USD}.

(** The columns of [ScanRunORM] that [ScanRun] leaves out and a batch writes *)
Record ScanColumns (USD : Type) : Type := {
  scc_estimated_cost_usd : USD;
  scc_planned_cost_usd : USD;
  scc_cache_policy_version : string;
  scc_integration_versions : dict
}.
Arguments scc_estimated_cost_usd {USD}. Arguments scc_planned_cost_usd {USD}. Arguments Build_ScanColumns {USD}.

Record Desk (USD C : Type) : Type := {
  desk_db : Db USD;
  discovery_templates : gmap Z (DiscoveryTemplate USD);
  batch_scan_plans : gmap Z (BatchScanPlan USD);
  batch_scan_plan_items : gmap Z (BatchScanPlanItem USD);
  scan_plans : gmap Z (ScanPlanRow USD);
  scan_columns : gmap Z (ScanColumns USD);
  catalog : C
}.
Arguments desk_db {USD C}. Arguments discovery_templates {USD C}. Arguments batch_scan_plans {USD C}.
Arguments batch_scan_plan_items {USD C}. Arguments scan_plans {USD C}. Arguments scan_columns {USD C}.
Arguments catalog {USD C}. Arguments Build_Desk {USD C}.
#[export] Instance eta_Desk USD C : Eta (Desk USD C) := λ r,
  Build_Desk (desk_db r) (discovery_templates r) (batch_scan_plans r) (batch_scan_plan_items r) (scan_plans r)
    (scan_columns r) (catalog r).

(** What planning promises to a batch: the plan of a scan of a service in a market, and
    the slug and the dump of either. *)
Class ScanPlanner (C : Type) : Type := {
  plan_scan : DataMode → string → Z → Z → Z → M C plan_error ScanPlan;
  service_payload : C → Z → option (string * json);
  market_payload : C → Z → option (string * json)
}.
#[global] Hint Mode ScanPlanner ! : typeclass_instances.

(** ** opportunity_review/models.py *)

(** [Decimal] with [ge=0, max_digits=12, decimal_places=4] *)
Definition valid_decimal (q : Q) : bool :=
  (Qnum q * 10000 mod Zpos (Qden q) =? 0) && (0 <=? Qnum q) && (Qnum q <? 10 ^ 8 * Zpos (Qden q)).

Record DiscoveryTemplateInput : Type := {
  ti_name : string;
  ti_service_family_id : Z;
  ti_market_filters : json;
  ti_prefilter_profile : string;
  ti_testing_profile : string;
  ti_full_profile : string;
  ti_budget_usd : Q;
  ti_freshness_requirements : json
}.
#[export] Instance eta_DiscoveryTemplateInput : Eta DiscoveryTemplateInput := λ r,
  Build_DiscoveryTemplateInput (ti_name r) (ti_service_family_id r) (ti_market_filters r) (ti_prefilter_profile r)
    (ti_testing_profile r) (ti_full_profile r) (ti_budget_usd r) (ti_freshness_requirements r).

(** Validation: the length of the name is checked before its white space is normalized. *)
Definition valid_template_input (t : DiscoveryTemplateInput) : option DiscoveryTemplateInput :=
  if length_in 2 160 (ti_name t) && (0 <? ti_service_family_id t) && length_in 1 80 (ti_prefilter_profile t)
     && bool_decide (ti_testing_profile t = "testing"%string) && bool_decide (ti_full_profile t = "full"%string)
     && valid_decimal (ti_budget_usd t)
  then Some (t <| ti_name := join_words (py_split (ti_name t)) |>) else None.

Record BatchPlanRequest : Type := {
  bp_name : string;
  bp_opportunity_ids : list Z;
  bp_scan_profile : string;
  bp_data_mode : DataMode;
  bp_aggregate_budget_usd : Q;
  bp_template_id : option Z
}.

Definition valid_batch_request (r : BatchPlanRequest) : bool :=
  length_in 2 160 (bp_name r)
  && (1 <=? length (bp_opportunity_ids r))%nat && (length (bp_opportunity_ids r) <=? 100)%nat
  && forallb (Z.ltb 0) (bp_opportunity_ids r) && bool_decide (NoDup (bp_opportunity_ids r))
  && bool_decide (bp_scan_profile r ∈ ["testing"; "full"]%string)
  && valid_decimal (bp_aggregate_budget_usd r)
  && match bp_template_id r with Some i => 0 <? i | None => true end.

Record BatchConfirmationRequest : Type := {
  bc_approved_max_cost_usd : Q;
  bc_reason : string
}.

Definition valid_confirmation (r : BatchConfirmationRequest) : bool :=
  valid_decimal (bc_approved_max_cost_usd r) && length_in 10 2000 (bc_reason r).

Record BatchQueueResult : Type := {
  bq_batch_plan_id : Z;
  bq_queued_scan_ids : list Z;
  bq_aggregate_planned_cost_usd : Q;
  bq_approved_max_cost_usd : Q
}.

Section desk.
Context {USD C : Type} `{Amount USD} `{DecimalMoney USD} `{ScanPlanner C}.
Context (usd_json : USD → json) (plan_json : ScanPlan → json).
Abbreviation Handler T := (M (Desk USD C) plan_error T).
Implicit Types (d : Desk USD C) (actor : ReviewActor).

Definition in_db {T} (m : Session USD T) : Handler T := λ d,
  let '(r, db) := m (desk_db d) in
  (match r with Ok x => Ok x | Raise e => Raise (Failure e) end, d <| desk_db := db |>).

Definition in_catalog {T} (m : M C plan_error T) : Handler T := λ d,
  let '(r, c) := m (catalog d) in (r, d <| catalog := c |>).

Definition oerr (code : string) : plan_error := Failure (OpportunityReviewError code).

(** ** Discovery templates *)

Definition service_exists (i : Z) : Handler unit :=
  gets (λ d, service_families (desk_db d) !! i) ≫= λ row,
  raise_if (bool_decide (row = None)) (oerr "service_family_not_found").

(** A row of the owner with the name, other than [except] *)
Definition template_named (owner name : string) (except : option Z) d : option (Z * DiscoveryTemplate USD) :=
  select_first (λ i t, bool_decide (dt_owner_user_id t = owner) && bool_decide (dt_name t = name)
                       && negb (bool_decide (Some i = except))) (discovery_templates d).

Definition _owned_template (i : Z) actor : Handler (DiscoveryTemplate USD) :=
  get_or_raise (λ d, discovery_templates d !! i) (oerr "discovery_template_not_found") ≫= λ row,
  raise_if (negb (bool_decide (dt_owner_user_id row = actor_id actor)) && negb (bool_decide (actor_role actor = admin)))
    (oerr "discovery_template_access_denied") ≫= λ _,
  raise_if (negb (dt_active row)) (oerr "discovery_template_is_archived") ≫= λ _,
  mret row.

Definition create_template (request : DiscoveryTemplateInput) actor : Handler Z :=
  service_exists (ti_service_family_id request) ≫= λ _,
  gets (template_named (actor_id actor) (ti_name request) None) ≫= λ existing,
  raise_if (bool_decide (is_Some existing)) (oerr "discovery_template_name_exists") ≫= λ _,
  gets (λ d, next_id (discovery_templates d)) ≫= λ i,
  modify (λ d, d <| discovery_templates ::= insert i {|
    dt_name := ti_name request;
    dt_owner_user_id := actor_id actor;
    dt_service_family_id := ti_service_family_id request;
    dt_market_filters := ti_market_filters request;
    dt_prefilter_profile := ti_prefilter_profile request;
    dt_testing_profile := ti_testing_profile request;
    dt_full_profile := ti_full_profile request;
    dt_budget_usd := decimal_to_float (ti_budget_usd request);
    dt_freshness_requirements := ti_freshness_requirements request;
    dt_active := true |} |>) ≫= λ _,
  mret i.

(** The flush raises when another template of the owner has the name. *)
Definition update_template (i : Z) (request : DiscoveryTemplateInput) actor : Handler (DiscoveryTemplate USD) :=
  _owned_template i actor ≫= λ row,
  service_exists (ti_service_family_id request) ≫= λ _,
  let row' := row <| dt_name := ti_name request |>
                  <| dt_service_family_id := ti_service_family_id request |>
                  <| dt_market_filters := ti_market_filters request |>
                  <| dt_prefilter_profile := ti_prefilter_profile request |>
                  <| dt_testing_profile := ti_testing_profile request |>
                  <| dt_full_profile := ti_full_profile request |>
                  <| dt_budget_usd := decimal_to_float (ti_budget_usd request) |>
                  <| dt_freshness_requirements := ti_freshness_requirements request |> in
  gets (template_named (dt_owner_user_id row) (ti_name request) (Some i)) ≫= λ clash,
  raise_if (bool_decide (is_Some clash)) (Failure IntegrityError) ≫= λ _,
  modify (λ d, d <| discovery_templates ::= insert i row' |>) ≫= λ _,
  mret row'.

Definition archive_template (i : Z) actor : Handler (DiscoveryTemplate USD) :=
  _owned_template i actor ≫= λ row,
  let row' := row <| dt_active := false |> in
  modify (λ d, d <| discovery_templates ::= insert i row' |>) ≫= λ _,
  mret row'.

Definition list_templates actor d : list (Z * DiscoveryTemplate USD) :=
  sort_by (λ x y, bool_decide (dt_name x.2 ≤ dt_name y.2)%string)
    (select (λ _ t, bool_decide (dt_owner_user_id t = actor_id actor) && dt_active t) (discovery_templates d)).

(** ** Planning a batch *)

Definition batch_states (scan_profile : string) : list OpportunityState :=
  if bool_decide (scan_profile = "testing"%string)
  then [discovered; prefilter_review; preliminary_review; needs_more_evidence]
  else [preliminary_review; needs_more_evidence].

(** One opportunity of the batch: its plan *)
Definition plan_item (request : BatchPlanRequest) (template : option (DiscoveryTemplate USD)) (now : Z)
    (io : Z * Opportunity) : Handler (Z * ScanPlan) :=
  raise_if match template with
           | Some t => negb (bool_decide (opp_service_family_id io.2 = dt_service_family_id t))
           | None => false
           end (oerr "batch_opportunity_service_does_not_match_template") ≫= λ _,
  in_db (canonical_state (opp_status io.2)) ≫= λ state,
  raise_if (negb (bool_decide (state ∈ batch_states (bp_scan_profile request))))
    (oerr "opportunity_not_eligible_for_batch_plan") ≫= λ _,
  in_catalog (plan_scan (bp_data_mode request) (bp_scan_profile request) (opp_service_family_id io.2)
                (opp_market_id io.2) now) ≫= λ plan,
  raise_if (sp_blocked plan) (oerr "batch_item_blocked_by_scan_policy") ≫= λ _,
  mret (io.1, plan).

(** The loop over the opportunities: the plans and their total cost *)
Fixpoint plan_items (request : BatchPlanRequest) (template : option (DiscoveryTemplate USD)) (now : Z)
    (rows : list (Z * Opportunity)) (total : Q) : Handler (list (Z * ScanPlan) * Q) :=
  match rows with
  | [] => mret ([], total)
  | io :: rows' =>
      plan_item request template now io ≫= λ item,
      plan_items request template now rows' (total + sp_estimated_uncached_cost_usd item.2)%Q ≫= λ rest,
      mret (item :: rest.1, rest.2)
  end.

Definition batch_template (request : BatchPlanRequest) actor : Handler (option (DiscoveryTemplate USD)) :=
  match bp_template_id request with
  | None => mret None
  | Some i =>
      _owned_template i actor ≫= λ template,
      raise_if (Q_ltb (decimal_of_float (dt_budget_usd template)) (bp_aggregate_budget_usd request))
        (oerr "batch_budget_exceeds_template_budget") ≫= λ _,
      mret (Some template)
  end.

(** The item of an opportunity and, for a testing batch, its transition *)
Definition add_item (request : BatchPlanRequest) (batch now : Z) (item : Z * ScanPlan) : Handler unit :=
  gets (λ d, next_id (batch_scan_plan_items d)) ≫= λ i,
  modify (λ d, d <| batch_scan_plan_items ::= insert i {|
    it_batch_plan_id := batch;
    it_opportunity_id := item.1;
    it_queued := false;
    it_estimated_cost_usd := decimal_to_float (sp_estimated_uncached_cost_usd item.2);
    it_scan_plan_payload := item.2;
    it_scan_run_id := None |} |>) ≫= λ _,
  when (bool_decide (bp_scan_profile request = "testing"%string))
    (in_db (transition_system item.1 testing_planned "batch_testing_planned"
              ("Included in bounded testing batch " +:+ pretty batch +:+ ".") now) ≫= λ _, mret tt).

Definition planned_batch (request : BatchPlanRequest) actor (total : Q) : BatchScanPlan USD := {|
  ba_name := bp_name request;
  ba_template_id := bp_template_id request;
  ba_created_by := actor_id actor;
  ba_scan_profile := bp_scan_profile request;
  ba_data_mode := bp_data_mode request;
  ba_status := b_planned;
  ba_aggregate_budget_usd := decimal_to_float (bp_aggregate_budget_usd request);
  ba_aggregate_estimated_cost_usd := decimal_to_float total;
  ba_approved_max_cost_usd := None;
  ba_confirmed_by := None;
  ba_confirmation_reason := None;
  ba_confirmed_at := None;
  ba_queued_at := None |}.

Definition create_batch_plan (request : BatchPlanRequest) actor (now : Z) : Handler Z :=
  batch_template request actor ≫= λ template,
  gets (λ d, select (λ i _, bool_decide (i ∈ bp_opportunity_ids request)) (opportunities (desk_db d))) ≫= λ rows,
  raise_if (negb (bool_decide (length rows = length (bp_opportunity_ids request)))) (oerr "batch_opportunity_not_found")
  ≫= λ _,
  plan_items request template now rows 0%Q ≫= λ planned,
  raise_if (Q_ltb (bp_aggregate_budget_usd request) planned.2) (oerr "batch_aggregate_cost_exceeds_budget") ≫= λ _,
  gets (λ d, next_id (batch_scan_plans d)) ≫= λ i,
  modify (λ d, d <| batch_scan_plans ::= insert i (planned_batch request actor planned.2) |>) ≫= λ _,
  for_each (add_item request i now) planned.1 ≫= λ _,
  mret i.

(** ** Confirming *)

Definition _batch (i : Z) : Handler (BatchScanPlan USD) :=
  get_or_raise (λ d, batch_scan_plans d !! i) (oerr "batch_plan_not_found").

Definition _batch_items (i : Z) d : list (Z * BatchScanPlanItem USD) :=
  select (λ _ item, bool_decide (it_batch_plan_id item = i)) (batch_scan_plan_items d).

Definition update_batch (i : Z) (f : BatchScanPlan USD → BatchScanPlan USD) : Handler unit :=
  modify (λ d, d <| batch_scan_plans ::= alter f i |>).

Definition full_scan_approval (reason : string) : ReviewTransitionRequest := {|
  target_state := full_scan_approved; decision := "bounded_batch_full_scan_approval"; decision_reason := reason;
  notes := ""; tags := []; owner_user_id := None; expected_review_version := None |}.

Definition approve_full_scan (request : BatchConfirmationRequest) actor (now : Z)
    (item : Z * BatchScanPlanItem USD) : Handler unit :=
  raise_if (negb (valid_request (full_scan_approval (bc_reason request)))) (Failure (ValueError "ReviewTransitionRequest"))
  ≫= λ _,
  in_db (transition (it_opportunity_id item.2) (full_scan_approval (bc_reason request)) actor now) ≫= λ _, mret tt.

Definition confirm_batch (i : Z) (request : BatchConfirmationRequest) actor (now : Z) : Handler unit :=
  _batch i ≫= λ batch,
  raise_if (negb (bool_decide (ba_status batch = b_planned))) (oerr "batch_plan_not_awaiting_confirmation") ≫= λ _,
  raise_if (Q_ltb (bc_approved_max_cost_usd request) (decimal_of_float (ba_aggregate_estimated_cost_usd batch)))
    (oerr "approved_batch_cost_below_estimate") ≫= λ _,
  raise_if (Q_ltb (decimal_of_float (ba_aggregate_budget_usd batch)) (bc_approved_max_cost_usd request))
    (oerr "approved_batch_cost_exceeds_plan_budget") ≫= λ _,
  update_batch i (λ b, b <| ba_status := b_confirmed |>
    <| ba_approved_max_cost_usd := Some (decimal_to_float (bc_approved_max_cost_usd request)) |>
    <| ba_confirmed_by := Some (actor_id actor) |>
    <| ba_confirmation_reason := Some (bc_reason request) |>
    <| ba_confirmed_at := Some now |>) ≫= λ _,
  when (bool_decide (ba_scan_profile batch = "full"%string))
    (gets (_batch_items i) ≫= λ items, for_each (approve_full_scan request actor now) items).

(** ** Queueing *)

(** services/records.py *)
Definition drop_scan {R} (scan_of : R → Z) (scan : Z) (t : gmap Z R) : gmap Z R :=
  filter (λ kr, scan_of kr.2 ≠ scan) t.

Definition plan_row (scan : Z) (plan : ScanPlan) : ScanPlanRow USD := {|
  spr_scan_run_id := scan;
  spr_scan_profile := sp_scan_profile plan;
  spr_cache_hit_count := sp_cache_hit_count plan;
  spr_paid_call_count := sp_paid_call_count plan;
  spr_estimated_uncached_cost_usd := decimal_to_float (sp_estimated_uncached_cost_usd plan);
  spr_maximum_allowed_cost_usd := decimal_to_float (sp_maximum_allowed_cost_usd plan);
  spr_confirmation_required := sp_confirmation_required plan;
  spr_blocked := sp_blocked plan;
  spr_block_reason := sp_block_reason plan |}.

Definition plan_call_row (scan : Z) (call : PlannedApiCall) : ScanPlanCall USD := {|
  plan_scan_run_id := scan;
  plan_planned_request_id := Some (pl_planned_request_id call);
  plan_provider := pl_provider call;
  plan_endpoint := pl_endpoint call;
  plan_cache_key := pl_cache_key call;
  plan_request_known := pl_request_known call;
  plan_estimated_cost_usd := decimal_to_float (pl_estimated_cost_usd call) |}.

Definition add_plan_call (scan : Z) (call : PlannedApiCall) : Handler unit :=
  modify (λ d, d <| desk_db ::= λ db, db <| scan_plan_calls ::= λ t, <[next_id t := plan_call_row scan call]> t |> |>).

(** The unique constraint on scan and planned request is checked by the flush. *)
Definition save_scan_plan_calls (scan : Z) (plan : ScanPlan) : Handler unit :=
  modify (λ d, d <| desk_db ::= λ db, db <| scan_plan_calls ::= drop_scan plan_scan_run_id scan |> |>
                 <| scan_plans ::= drop_scan spr_scan_run_id scan |>) ≫= λ _,
  modify (λ d, d <| scan_plans ::= λ t, <[next_id t := plan_row scan plan]> t |>) ≫= λ _,
  for_each (add_plan_call scan) (sp_planned_calls plan) ≫= λ _,
  raise_if (negb (bool_decide (NoDup (map pl_planned_request_id (sp_planned_calls plan))))) (Failure IntegrityError).

(** The scan of an item; the columns a worker fills start empty. *)
Definition batch_scan (i : Z) (batch : BatchScanPlan USD) (item : BatchScanPlanItem USD) (service market : string * json)
    : ScanRun := {|
  sc_opportunity_id := Some (it_opportunity_id item);
  sc_source := "batch_review_async";
  sc_status := SQueued;
  sc_started_at := None;
  sc_completed_at := None;
  sc_error_summary := None;
  sc_request_parameters := list_to_map
    [("service", JStr service.1); ("market", JStr market.1);
     ("data_mode", JStr match ba_data_mode batch with fixture => "fixture" | live => "live" | replay => "replay" end);
     ("scan_profile", JStr (ba_scan_profile batch));
     ("scan_plan", plan_json (it_scan_plan_payload item));
     ("service_payload", service.2); ("market_payload", market.2); ("final_market_payload", market.2);
     ("batch_plan_id", JInt i);
     ("batch_confirmed_by", match ba_confirmed_by batch with Some a => JStr a | None => JNull end);
     ("batch_approved_max_cost_usd",
      match ba_approved_max_cost_usd batch with Some a => usd_json a | None => JNull end)]%string;
  sc_data_mode := match ba_data_mode batch with fixture => "fixture" | live => "live" | replay => "replay" end;
  sc_scan_profile := ba_scan_profile batch;
  sc_source_scan_run_id := None;
  sc_progress_stage := "queued";
  sc_partial_outputs := ∅;
  sc_retry_count := 0;
  sc_max_attempts := 4;
  sc_next_attempt_at := None;
  sc_cancel_requested := false;
  sc_worker_id := None;
  sc_lease_token := None;
  sc_claimed_at := None;
  sc_heartbeat_at := None;
  sc_lease_expires_at := None;
  sc_quarantined_at := None;
  sc_quarantine_reason := None |}.

Definition batch_scan_columns (i : Z) (batch : BatchScanPlan USD) (item : BatchScanPlanItem USD) : ScanColumns USD := {|
  scc_estimated_cost_usd := it_estimated_cost_usd item;
  scc_planned_cost_usd := it_estimated_cost_usd item;
  scc_cache_policy_version := "v2";
  scc_integration_versions :=
    [("data_mode", JStr match ba_data_mode batch with fixture => "fixture" | live => "live" | replay => "replay" end);
     ("queued", JBool true); ("batch_plan_id", JInt i)]%string |}.

Definition queue_item (i : Z) (batch : BatchScanPlan USD) (ki : Z * BatchScanPlanItem USD) : Handler Z :=
  in_db (_opportunity (it_opportunity_id ki.2)) ≫= λ opportunity,
  get_or_raise (λ d, service_payload (catalog d) (opp_service_family_id opportunity)) (Failure RuntimeError) ≫= λ service,
  get_or_raise (λ d, market_payload (catalog d) (opp_market_id opportunity)) (Failure RuntimeError) ≫= λ market,
  gets (λ d, next_id (scan_runs (desk_db d))) ≫= λ scan,
  modify (λ d, d <| desk_db ::= λ db, db <| scan_runs ::= insert scan (batch_scan i batch ki.2 service market) |> |>
                 <| scan_columns ::= insert scan (batch_scan_columns i batch ki.2) |>) ≫= λ _,
  save_scan_plan_calls scan (it_scan_plan_payload ki.2) ≫= λ _,
  modify (λ d, d <| batch_scan_plan_items ::=
    alter (λ item, item <| it_scan_run_id := Some scan |> <| it_queued := true |>) ki.1 |>) ≫= λ _,
  mret scan.

Fixpoint queue_items (i : Z) (batch : BatchScanPlan USD) (items : list (Z * BatchScanPlanItem USD)) : Handler (list Z) :=
  match items with
  | [] => mret []
  | ki :: items' =>
      queue_item i batch ki ≫= λ scan,
      queue_items i batch items' ≫= λ scans, mret (scan :: scans)
  end.

(** [sum(Decimal(str(item.estimated_cost_usd)) ...)] *)
Definition items_cost (items : list (Z * BatchScanPlanItem USD)) : Q :=
  decimal_sum (map (λ ki, decimal_of_float (it_estimated_cost_usd ki.2)) items).

(** A queued or running scan of an opportunity of the batch *)
Definition active_scan (items : list (Z * BatchScanPlanItem USD)) (db : Db USD) : option (Z * ScanRun) :=
  select_first (λ _ s,
    match sc_opportunity_id s with
    | Some o => bool_decide (o ∈ map (λ ki, it_opportunity_id ki.2) items)
    | None => false
    end && bool_decide (sc_status s ∈ [SQueued; SRunning])) (scan_runs db).

Definition queue_batch (i : Z) (now : Z) : Handler BatchQueueResult :=
  _batch i ≫= λ batch,
  raise_if (negb (bool_decide (ba_status batch = b_confirmed))) (oerr "batch_plan_requires_confirmation") ≫= λ _,
  get_or_raise (λ _, ba_approved_max_cost_usd batch) (oerr "batch_plan_requires_confirmation") ≫= λ approved_usd,
  gets (_batch_items i) ≫= λ items,
  let planned_total := items_cost items in
  let approved := decimal_of_float approved_usd in
  raise_if (Q_ltb approved planned_total) (oerr "batch_plan_exceeds_confirmed_cost_bound") ≫= λ _,
  gets (λ d, active_scan items (desk_db d)) ≫= λ active,
  raise_if (bool_decide (is_Some active)) (oerr "batch_opportunity_already_has_active_scan") ≫= λ _,
  queue_items i batch items ≫= λ queued,
  update_batch i (λ b, b <| ba_status := b_queued |> <| ba_queued_at := Some now |>) ≫= λ _,
  raise_if (Q_ltb approved planned_total) (Failure (ValueError "Queued plan exceeds its approved aggregate cost."))
  ≫= λ _,
  mret {| bq_batch_plan_id := i; bq_queued_scan_ids := queued; bq_aggregate_planned_cost_usd := planned_total;
          bq_approved_max_cost_usd := approved |}.

Definition batch_payload (i : Z) : Handler (BatchScanPlan USD * list (Z * BatchScanPlanItem USD)) :=
  _batch i ≫= λ batch, gets (_batch_items i) ≫= λ items, mret (batch, items).
End desk.
