(* ===== verification/DiscoveryBatchesProofs.v ===== *)
(** * DiscoveryBatchesProofs: the effect of each handler of DiscoveryBatches

    What a handler leaves in the tables of the batches; the invariant [batches_ok] that
    every step keeps. *)
From S2P Require Import Prelude Binary64 Schema OpportunityReview OpportunityReviewProofs Numbers Planning PlanningTheorems.
From S2P Require Import DiscoveryBatches.
From Stdlib Require Import QArith Lqa.
#[global] Open Scope Z_scope.

(** ** Appending rows to a table *)

Definition append_rows {R} (t : gmap Z R) (l : list R) : gmap Z R := foldl (λ t r, <[next_id t := r]> t) t l.

Lemma append_rows_select {R} (p : R → bool) (t : gmap Z R) l :
  (select (λ _, p) (append_rows t l)).*2 = (select (λ _, p) t).*2 ++ List.filter p l.
Proof.
  revert t. induction l as [|r l IH]; intros t; simpl; [by rewrite app_nil_r|].
  unfold append_rows in *. simpl. rewrite IH, select_snoc, fmap_app, <- app_assoc. by destruct (p r).
Qed.

Lemma append_rows_old {R} (t : gmap Z R) l k r : t !! k = Some r → append_rows t l !! k = Some r.
Proof.
  revert t. induction l as [|x l IH]; intros t Hk; [done|]. apply IH.
  rewrite lookup_insert_ne; [done|]. intros <-. by rewrite next_id_fresh in Hk.
Qed.

Lemma append_rows_lookup {R} (t : gmap Z R) l k r : append_rows t l !! k = Some r → t !! k = Some r ∨ r ∈ l.
Proof.
  revert t. induction l as [|x l IH]; intros t Hk; [by left|].
  apply IH in Hk as [Hk|Hk]; [|right; by right].
  apply lookup_insert_Some in Hk as [[_ <-]|[_ Hk]]; [right; by left|by left].
Qed.

(** A query sees only the columns its condition reads. *)
Lemma table_rows_fmap {R T} (g : R → T) (t : gmap Z R) :
  table_rows (g <$> t) = prod_map id g <$> table_rows t.
Proof.
  assert (∀ U (u : gmap Z U), NoDup (table_rows u).*1) as Hnd.
  { intros U u. unfold table_rows. rewrite merge_sort_Permutation. apply NoDup_fst_map_to_list. }
  assert (Total (key_le (R := R))) by (intros x y; unfold key_le; lia).
  assert (Transitive (key_le (R := R))) by (intros x y z; unfold key_le; lia).
  assert (Total (key_le (R := T))) by (intros x y; unfold key_le; lia).
  assert (Transitive (key_le (R := T))) by (intros x y z; unfold key_le; lia).
  assert (AntiSymm (=) (key_lt (R := T))) by (intros x y; unfold key_lt; lia).
  assert (∀ l : list (Z * R), (prod_map id g <$> l).*1 = l.*1) as Hkeys.
  { intros l. induction l as [|[k r] l IH]; simpl; [done|]. f_equal. apply IH. }
  apply (StronglySorted_unique key_lt).
  - apply sorted_keys; [apply Hnd|]. by apply StronglySorted_merge_sort; apply _.
  - apply sorted_keys; [rewrite Hkeys; apply Hnd|].
    assert (StronglySorted key_le (table_rows t)) as Hs by (apply StronglySorted_merge_sort; apply _).
    induction Hs as [|x l Hs IH Hall]; simpl; constructor; [done|].
    apply Forall_fmap. by eapply Forall_impl.
  - unfold table_rows. rewrite !merge_sort_Permutation. by rewrite map_to_list_fmap.
Qed.

Lemma select_fmap {R T} (g : R → T) (p : T → bool) (t : gmap Z R) :
  prod_map id g <$> select (λ _ r, p (g r)) t = select (λ _, p) (g <$> t).
Proof.
  unfold select. rewrite table_rows_fmap. induction (table_rows t) as [|[k r] l IH]; simpl; [done|].
  destruct (p (g r)); simpl; [f_equal|]; apply IH.
Qed.

Lemma select_same {R T} (g : R → T) (p : T → bool) (t t' : gmap Z R) :
  (∀ k, g <$> t' !! k = g <$> t !! k) →
  prod_map id g <$> select (λ _ r, p (g r)) t' = prod_map id g <$> select (λ _ r, p (g r)) t.
Proof.
  intros Hg. rewrite !select_fmap. f_equal. apply map_eq. intros k. rewrite !lookup_fmap. apply Hg.
Qed.

Lemma table_rows_filter {R} (P : Z * R → Prop) `{∀ x, Decision (P x)} (t : gmap Z R) :
  table_rows (filter P t) = List.filter (λ x, bool_decide (P x)) (table_rows t).
Proof.
  transitivity (filter P (table_rows t)).
  2: { generalize (table_rows t). intros l. induction l as [|x l IH]; [done|].
       rewrite filter_cons. simpl. destruct (decide (P x)) as [Hx|Hx].
       - rewrite bool_decide_eq_true_2 by done. by f_equal.
       - by rewrite bool_decide_eq_false_2. }
  assert (∀ u : gmap Z R, StronglySorted key_lt (table_rows u)) as Hsorted.
  { assert (Total (key_le (R := R))) by (intros x y; unfold key_le; lia).
    assert (Transitive (key_le (R := R))) by (intros x y z; unfold key_le; lia).
    intros u. apply sorted_keys; [|by apply StronglySorted_merge_sort; apply _].
    unfold table_rows. rewrite merge_sort_Permutation. apply NoDup_fst_map_to_list. }
  assert (AntiSymm (=) (key_lt (R := R))) by (intros x y; unfold key_lt; lia).
  apply (StronglySorted_unique key_lt); [apply Hsorted| |].
  - induction (Hsorted t) as [|x l Hs IH Hall]; [constructor|]. rewrite filter_cons. case_decide; [|done].
    constructor; [done|]. rewrite Forall_forall in Hall |- *. intros y [_ Hy]%list_elem_of_filter. by apply Hall.
  - unfold table_rows. rewrite !merge_sort_Permutation. apply NoDup_Permutation.
    + apply NoDup_map_to_list.
    + apply NoDup_filter, NoDup_map_to_list.
    + intros [k r]. rewrite elem_of_map_to_list, list_elem_of_filter, elem_of_map_to_list, map_lookup_filter_Some.
      naive_solver.
Qed.

Lemma bind_modify {S E B} (f : S → S) (k : unit → M S E B) s : (modify f ≫= k) s = k tt (f s).
Proof. done. Qed.

(** ** Handlers of the review on the tables of scans *)

#[export] Instance transition_keeps_scans {USD} i request actor now :
  Keeps scan_runs (transition (USD := USD) i request actor now).
Proof. intros db. by destruct (transition_run i request actor now db) as [(? & ? & _ & ->)|(_ & ? & ->)]. Qed.

#[export] Instance system_keeps_scans {USD} i target decision reason now :
  Keeps scan_runs (transition_system (USD := USD) i target decision reason now).
Proof.
  unfold transition_system, _opportunity, canonical_state. apply keeps_bind; [apply _|]. intros o.
  apply keeps_bind; [apply _|]. intros s. case_bool_decide; [apply _|].
  apply keeps_bind; [apply _|]. intros _. cbv zeta. apply keeps_bind; [apply _|]. intros _. apply _.
Qed.

(** ** What a batch relies on *)

Definition sound_item_plan (plan : ScanPlan) : Prop :=
  NoDup (map pl_planned_request_id (sp_planned_calls plan))
  ∧ thousandths (sp_estimated_uncached_cost_usd plan) ∧ (sp_estimated_uncached_cost_usd plan <= 1)%Q.

(** The contract of a planner *)
Class ScanPlannerLaws (C : Type) `{ScanPlanner C} : Prop :=
  plan_scan_sound mode profile service market now (c : C) plan (c' : C) :
    plan_scan mode profile service market now c = (Ok plan, c') → sound_item_plan plan.

Section desk.
Context {USD C : Type} `{Amount USD} `{DecimalMoney USD} `{ScanPlanner C}.
Context (usd_json : USD → json) (plan_json : ScanPlan → json).
Implicit Types (d : Desk USD C) (actor : ReviewActor).

(** ** Parts of the state a handler leaves alone *)

(** The tables of the batches and the ids of the scans *)
Definition batch_tables d :=
  (discovery_templates d, batch_scan_plans d, batch_scan_plan_items d, scan_runs (desk_db d)).

#[export] Instance in_db_keeps {T} (m : Session USD T) : Keeps scan_runs m → Keeps batch_tables (in_db (C := C) m).
Proof.
  intros Hm d. unfold in_db, batch_tables. specialize (Hm (desk_db d)).
  destruct (m (desk_db d)) as [r db]. simpl in *. by rewrite Hm.
Qed.

#[export] Instance in_catalog_keeps {T} (m : M C plan_error T) : Keeps batch_tables (in_catalog (USD := USD) m).
Proof. intros d. unfold in_catalog. by destruct (m (catalog d)). Qed.

#[export] Instance owned_template_reads i actor : ReadOnly (_owned_template (USD := USD) (C := C) i actor).
Proof. unfold _owned_template. apply _. Qed.

#[export] Instance batch_template_reads request actor : ReadOnly (batch_template (USD := USD) (C := C) request actor).
Proof. unfold batch_template. destruct (bp_template_id request); apply _. Qed.

#[export] Instance service_exists_reads i : ReadOnly (service_exists (USD := USD) (C := C) i).
Proof. unfold service_exists. apply _. Qed.

#[export] Instance plan_item_keeps request template now io :
  Keeps batch_tables (plan_item (USD := USD) (C := C) request template now io).
Proof. unfold plan_item, canonical_state. apply _. Qed.

#[export] Instance approve_full_scan_keeps request actor now item :
  Keeps batch_tables (approve_full_scan (USD := USD) (C := C) request actor now item).
Proof. unfold approve_full_scan. apply _. Qed.

(** ** Planning *)

Lemma plan_items_run `{!ScanPlannerLaws C} request template now rows acc d r d' :
  plan_items (USD := USD) request template now rows acc d = (Ok r, d') →
  map fst r.1 = map fst rows ∧ (r.2 == acc + total (map (λ item, sp_estimated_uncached_cost_usd item.2) r.1))%Q
  ∧ Forall (λ item, sound_item_plan item.2) r.1 ∧ batch_tables d' = batch_tables d.
Proof.
  revert acc d r. induction rows as [|io rows IH]; intros acc d r Hrun; simpl in Hrun.
  - apply ret_ok in Hrun as [-> ->]. simpl. split_and!; try done. lra.
  - apply bind_ok in Hrun as (item & d1 & Hitem & Hrun). apply bind_ok in Hrun as (rest & d2 & Hrest & Hret).
    apply ret_ok in Hret as [-> ->]. pose proof (keeps_ok batch_tables _ _ _ _ Hitem) as Hkeep.
    apply IH in Hrest as (Hids & Htotal & Hsound & Hkeep'). simpl.
    unfold plan_item in Hitem. run_inv. simpl in *. split_and!; [by f_equal| | |congruence].
    + rewrite Htotal. lra.
    + constructor; [|done]. simpl. unfold in_catalog in *.
      match goal with Hp : context [plan_scan _ _ _ _ _ ?c] |- _ =>
        destruct (plan_scan _ _ _ _ _ c) as [[p|] c'] eqn:Hplan; simplify_eq end.
      by eapply plan_scan_sound.
Qed.

Definition new_item (batch : Z) (item : Z * ScanPlan) : BatchScanPlanItem USD := {|
  it_batch_plan_id := batch;
  it_opportunity_id := item.1;
  it_queued := false;
  it_estimated_cost_usd := decimal_to_float (sp_estimated_uncached_cost_usd item.2);
  it_scan_plan_payload := item.2;
  it_scan_run_id := None |}.

Lemma add_items_run request batch now l d u d' :
  for_each (add_item (USD := USD) (C := C) request batch now) l d = (Ok u, d') →
  discovery_templates d' = discovery_templates d ∧ batch_scan_plans d' = batch_scan_plans d
  ∧ batch_scan_plan_items d' = append_rows (batch_scan_plan_items d) (map (new_item batch) l)
  ∧ scan_runs (desk_db d') = scan_runs (desk_db d).
Proof.
  revert d. induction l as [|item l IH]; intros d Hrun; simpl in Hrun.
  - by apply ret_ok in Hrun as [_ ->].
  - apply bind_ok in Hrun as (v & d1 & Hitem & Hrun). apply IH in Hrun as (-> & -> & -> & ->).
    unfold add_item in Hitem. rewrite bind_gets in Hitem.
    apply bind_ok in Hitem as (v' & d2 & Hmod & Hwhen). apply modify_ok in Hmod as ->.
    assert (batch_tables d1 = batch_tables (d <| batch_scan_plan_items ::=
      insert (next_id (batch_scan_plan_items d)) (new_item batch item) |>)) as Heq.
    { refine (keeps_ok batch_tables _ _ _ _ Hwhen). }
    unfold batch_tables in Heq. simpl in Heq. by injection Heq as -> -> -> ->.
Qed.

(** ** Queueing *)

Lemma add_plan_calls_run scan calls d :
  for_each (add_plan_call (USD := USD) (C := C) scan) calls d =
    (Ok tt, d <| desk_db ::= λ db, db <| scan_plan_calls ::= λ t, append_rows t (map (plan_call_row scan) calls) |> |>).
Proof.
  revert d. induction calls as [|call calls IH]; intros d; simpl; [by destruct d as [[]]|].
  etransitivity; [apply IH|]. by destruct d as [[]].
Qed.

Lemma save_calls_run scan plan d u d' :
  save_scan_plan_calls (USD := USD) scan plan d = (Ok u, d') →
  NoDup (map pl_planned_request_id (sp_planned_calls plan)) ∧
  ∃ plans, d' = d <| desk_db ::= λ db, db <| scan_plan_calls := append_rows
      (drop_scan plan_scan_run_id scan (scan_plan_calls (desk_db d)))
      (map (plan_call_row scan) (sp_planned_calls plan)) |> |> <| scan_plans := plans |>.
Proof.
  unfold save_scan_plan_calls. rewrite !bind_modify, (bind_run _ _ _ _ _ (add_plan_calls_run _ _ _)).
  unfold raise_if. case_bool_decide as Hnd; [|done]. simpl. intros [= _ <-]. split; [done|].
  eexists. by destruct d as [[]].
Qed.

Lemma queue_item_run i batch ki d scan d' :
  queue_item usd_json plan_json i batch ki d = (Ok scan, d') →
  scan = next_id (scan_runs (desk_db d)) ∧ ∃ service market,
    discovery_templates d' = discovery_templates d ∧ batch_scan_plans d' = batch_scan_plans d
    ∧ batch_scan_plan_items d' =
        alter (λ item, item <| it_scan_run_id := Some scan |> <| it_queued := true |>) ki.1 (batch_scan_plan_items d)
    ∧ scan_runs (desk_db d') = <[scan := batch_scan usd_json plan_json i batch ki.2 service market]> (scan_runs (desk_db d))
    ∧ scan_columns d' = <[scan := batch_scan_columns i batch ki.2]> (scan_columns d)
    ∧ scan_plan_calls (desk_db d') = append_rows (drop_scan plan_scan_run_id scan (scan_plan_calls (desk_db d)))
        (map (plan_call_row scan) (sp_planned_calls (it_scan_plan_payload ki.2))).
Proof.
  unfold queue_item. intros (o & d1 & Ho & Hrun)%bind_ok.
  assert (d1 = d) as ->.
  { unfold in_db, _opportunity, get_or_raise in Ho. destruct (opportunities (desk_db d) !! _); [|done].
    injection Ho as _ <-. by destruct d. }
  rewrite bind_get_or_raise in Hrun. destruct (service_payload _ _) as [service|]; [|done].
  rewrite bind_get_or_raise in Hrun. destruct (market_payload _ _) as [market|]; [|done].
  rewrite bind_gets in Hrun. set (new := next_id (scan_runs (desk_db d))) in *.
  rewrite bind_modify in Hrun.
  apply bind_ok in Hrun as (v & d2 & Hsave & Hrun). apply save_calls_run in Hsave as (_ & plans & ->).
  rewrite bind_modify in Hrun. injection Hrun as <- <-. split; [done|].
  exists service, market. done.
Qed.

(** The plan calls of a scan, in their order *)
Definition calls_of (scan : Z) (db : Db USD) : list (ScanPlanCall USD) :=
  (select (λ _ c, bool_decide (plan_scan_run_id c = scan)) (scan_plan_calls db)).*2.

Lemma filter_calls scan s (calls : list PlannedApiCall) :
  List.filter (λ c, bool_decide (plan_scan_run_id c = s)) (map (plan_call_row (USD := USD) scan) calls)
  = if bool_decide (scan = s) then map (plan_call_row scan) calls else [].
Proof.
  induction calls as [|call calls IH]; simpl; [by case_bool_decide|]. rewrite IH. by case_bool_decide.
Qed.

Lemma select_drop_scan {R} (scan_of : R → Z) scan s (t : gmap Z R) :
  select (λ _ r, bool_decide (scan_of r = s)) (drop_scan scan_of scan t)
  = if bool_decide (scan = s) then [] else select (λ _ r, bool_decide (scan_of r = s)) t.
Proof.
  unfold select, drop_scan. rewrite table_rows_filter.
  generalize (table_rows t). intros l. induction l as [|[k r] l IH]; simpl; [by case_bool_decide|].
  destruct (decide (scan_of r = scan)) as [Hr|Hr];
    [rewrite (bool_decide_eq_false_2 (scan_of r ≠ scan)) by tauto
    |rewrite (bool_decide_eq_true_2 (scan_of r ≠ scan)) by done; simpl];
    rewrite IH; repeat case_bool_decide; congruence.
Qed.

Lemma calls_after scan s calls (t : gmap Z (ScanPlanCall USD)) :
  (select (λ _ c, bool_decide (plan_scan_run_id c = s))
     (append_rows (drop_scan plan_scan_run_id scan t) (map (plan_call_row scan) calls))).*2
  = if bool_decide (scan = s) then map (plan_call_row scan) calls
    else (select (λ _ c, bool_decide (plan_scan_run_id c = s)) t).*2.
Proof.
  rewrite (append_rows_select (λ c, bool_decide (plan_scan_run_id c = s))), select_drop_scan, filter_calls.
  case_bool_decide; [done|by rewrite app_nil_r].
Qed.

(** The scan of one item: its row, its planned cost, its planned calls and the item *)
Definition item_queued i batch d d' (ki : Z * BatchScanPlanItem USD) (scan : Z) : Prop :=
  scan_runs (desk_db d) !! scan = None
  ∧ (∃ service market, scan_runs (desk_db d') !! scan = Some (batch_scan usd_json plan_json i batch ki.2 service market))
  ∧ scan_columns d' !! scan = Some (batch_scan_columns i batch ki.2)
  ∧ calls_of scan (desk_db d') = map (plan_call_row scan) (sp_planned_calls (it_scan_plan_payload ki.2))
  ∧ batch_scan_plan_items d' !! ki.1
    = (λ item, item <| it_scan_run_id := Some scan |> <| it_queued := true |>) <$> batch_scan_plan_items d !! ki.1.

Record queued_as i batch d (items : list (Z * BatchScanPlanItem USD)) (scans : list Z) d' : Prop := {
  qa_templates : discovery_templates d' = discovery_templates d;
  qa_batches : batch_scan_plans d' = batch_scan_plans d;
  qa_items : Forall2 (item_queued i batch d d') items scans;
  qa_distinct : NoDup scans;
  qa_other_items k : k ∉ items.*1 → batch_scan_plan_items d' !! k = batch_scan_plan_items d !! k;
  qa_other_scans s : s ∉ scans → scan_runs (desk_db d') !! s = scan_runs (desk_db d) !! s
    ∧ scan_columns d' !! s = scan_columns d !! s ∧ calls_of s (desk_db d') = calls_of s (desk_db d)
}.

Lemma queue_items_run i batch items d scans d' :
  NoDup items.*1 → queue_items usd_json plan_json i batch items d = (Ok scans, d') → queued_as i batch d items scans d'.
Proof.
  revert d scans. induction items as [|ki items IH]; intros d scans Hnd Hrun; simpl in Hrun.
  { apply ret_ok in Hrun as [-> ->]. split; try done; constructor. }
  apply NoDup_cons in Hnd as [Hk Hnd]. apply bind_ok in Hrun as (scan & d1 & Hone & Hrun).
  apply bind_ok in Hrun as (rest & d2 & Hrest & Hret). apply ret_ok in Hret as [-> ->].
  destruct (queue_item_run _ _ _ _ _ _ Hone) as (Hscan & service & market & Ht & Hb & Hi & Hr & Hc & Hcalls).
  destruct (IH d1 rest Hnd Hrest) as [Ht' Hb' Hall Hdist Hoi Hos].
  assert (scan_runs (desk_db d) !! scan = None) as Hfresh by (rewrite Hscan; apply next_id_fresh).
  assert (∀ s, s ∈ rest → s ≠ scan) as Hnew.
  { intros s [n Hn]%list_elem_of_lookup ->.
    destruct (Forall2_lookup_r _ _ _ _ _ Hall Hn) as (kj & _ & Hnone & _). by rewrite Hr, lookup_insert_eq in Hnone. }
  assert (∀ s, s ≠ scan → calls_of s (desk_db d1) = calls_of s (desk_db d)) as Hsame.
  { intros s Hs. unfold calls_of. rewrite Hcalls, calls_after. by rewrite bool_decide_eq_false_2. }
  assert (scan ∉ rest) as Hnot by (intros Hin; by apply Hnew in Hin).
  destruct (Hos scan Hnot) as (Hs1 & Hs2 & Hs3).
  split; [congruence|congruence| | | |].
  - constructor.
    + split_and!; [done| | | |].
      * exists service, market. by rewrite Hs1, Hr, lookup_insert_eq.
      * by rewrite Hs2, Hc, lookup_insert_eq.
      * rewrite Hs3. unfold calls_of. rewrite Hcalls, calls_after. by rewrite bool_decide_eq_true_2.
      * rewrite (Hoi _ Hk), Hi. apply lookup_alter_eq.
    + apply Forall2_same_length_lookup. split; [by eapply Forall2_length|]. intros n kj s Hkj Hs.
      destruct (Forall2_lookup_lr _ _ _ _ _ _ Hall Hkj Hs) as (Hn & Hrow & Hcol & Hcs & Hit).
      apply list_elem_of_lookup_2 in Hkj, Hs. specialize (Hnew s Hs). rewrite Hr, lookup_insert_ne in Hn by done.
      split_and!; [done..|]. rewrite Hit, Hi, lookup_alter_ne; [done|]. intros Heq. apply Hk. rewrite Heq.
      by apply list_elem_of_fmap_2.
  - by constructor.
  - intros k [Hk1 Hk2]%not_elem_of_cons. rewrite (Hoi k Hk2), Hi. by apply lookup_alter_ne.
  - intros s [Hs1' Hs2']%not_elem_of_cons. destruct (Hos s Hs2') as (-> & -> & ->).
    rewrite Hr, Hc, !lookup_insert_ne by done. split_and!; [done..|by apply Hsame].
Qed.
End desk.
