(* ===== verification/DiscoveryBatchesInvariant.v ===== *)
(** * DiscoveryBatchesInvariant: what every step of the batches keeps

    [desk_step] is a handler of the templates and batches, run in its transaction, or
    anything else that leaves their tables alone and deletes no scan.  [batches_ok] says
    that a batch's accounts are right and bounded and that every item of a queued batch
    has a scan of its own. *)
From S2P Require Import Prelude Binary64 Schema OpportunityReview Numbers Planning PlanningTheorems DiscoveryBatches.
From S2P Require Import DiscoveryBatchesProofs.
From Stdlib Require Import QArith Lqa.
#[global] Open Scope Z_scope.

Section desk.
Context {USD C : Type} `{Amount USD} `{DecimalMoneyLaws USD} `{!ScanPlanner C} `{!ScanPlannerLaws C}.
Context (usd_json : USD → json) (plan_json : ScanPlan → json).
Implicit Types (d : Desk USD C) (actor : ReviewActor).

(** ** Steps *)

Inductive desk_step : Desk USD C → Desk USD C → Prop :=
| ds_create_template raw request actor res d d' :
    valid_template_input raw = Some request → transaction (create_template request actor) d = (res, d') → desk_step d d'
| ds_update_template i raw request actor res d d' :
    valid_template_input raw = Some request → transaction (update_template i request actor) d = (res, d') → desk_step d d'
| ds_archive_template i actor res d d' :
    transaction (archive_template i actor) d = (res, d') → desk_step d d'
| ds_create_batch request actor now res d d' :
    valid_batch_request request = true → transaction (create_batch_plan request actor now) d = (res, d') → desk_step d d'
| ds_confirm_batch i request actor now res d d' :
    valid_confirmation request = true → transaction (confirm_batch i request actor now) d = (res, d') → desk_step d d'
| ds_queue_batch i now res d d' :
    transaction (queue_batch usd_json plan_json i now) d = (res, d') → desk_step d d'
| ds_other d d' :
    discovery_templates d' = discovery_templates d → batch_scan_plans d' = batch_scan_plans d →
    batch_scan_plan_items d' = batch_scan_plan_items d →
    (∀ s, is_Some (scan_runs (desk_db d) !! s) → is_Some (scan_runs (desk_db d') !! s)) → desk_step d d'.

Inductive desk_reach (d : Desk USD C) : Desk USD C → Prop :=
| dr_refl : desk_reach d d
| dr_step d1 d2 : desk_reach d d1 → desk_step d1 d2 → desk_reach d d2.

(** ** The invariant *)

Abbreviation dec := decimal_of_float.

Definition rows_of (i : Z) d : list (BatchScanPlanItem USD) := (_batch_items i d).*2.
Definition rows_cost (rows : list (BatchScanPlanItem USD)) : Q := total (map (λ it, dec (it_estimated_cost_usd it)) rows).

Record batch_ok (b : BatchScanPlan USD) (rows : list (BatchScanPlanItem USD)) : Prop := {
  bo_cost : (dec (ba_aggregate_estimated_cost_usd b) == rows_cost rows)%Q;
  bo_budget : (dec (ba_aggregate_estimated_cost_usd b) <= dec (ba_aggregate_budget_usd b))%Q;
  bo_distinct : NoDup (map it_opportunity_id rows);
  bo_approval : match ba_status b with
    | b_planned => ba_approved_max_cost_usd b = None ∧ ba_confirmed_by b = None
    | _ => ∃ a who, ba_approved_max_cost_usd b = Some a ∧ ba_confirmed_by b = Some who
             ∧ (dec (ba_aggregate_estimated_cost_usd b) <= dec a <= dec (ba_aggregate_budget_usd b))%Q
    end
}.

Definition sound_item (it : BatchScanPlanItem USD) : Prop :=
  sound_item_plan (it_scan_plan_payload it)
  ∧ it_estimated_cost_usd it = decimal_to_float (sp_estimated_uncached_cost_usd (it_scan_plan_payload it)).

Definition item_status (b : BatchScanPlan USD) (it : BatchScanPlanItem USD) : Prop :=
  match ba_status b with
  | b_queued => it_queued it = true ∧ is_Some (it_scan_run_id it)
  | _ => it_queued it = false ∧ it_scan_run_id it = None
  end.

Record batches_ok d : Prop := {
  ok_batch i b : batch_scan_plans d !! i = Some b → batch_ok b (rows_of i d);
  ok_item k it : batch_scan_plan_items d !! k = Some it →
    sound_item it ∧ ∃ b, batch_scan_plans d !! it_batch_plan_id it = Some b ∧ item_status b it;
  ok_scan k it s : batch_scan_plan_items d !! k = Some it → it_scan_run_id it = Some s →
    is_Some (scan_runs (desk_db d) !! s);
  ok_one k k' it it' s : batch_scan_plan_items d !! k = Some it → batch_scan_plan_items d !! k' = Some it' →
    it_scan_run_id it = Some s → it_scan_run_id it' = Some s → k = k'
}.

Lemma batches_ok_same d d' :
  batch_scan_plans d' = batch_scan_plans d → batch_scan_plan_items d' = batch_scan_plan_items d →
  (∀ s, is_Some (scan_runs (desk_db d) !! s) → is_Some (scan_runs (desk_db d') !! s)) → batches_ok d → batches_ok d'.
Proof.
  intros Hb Hi Hs [H1' H2' H3' H4']. split; unfold rows_of, _batch_items in *; rewrite ?Hb, ?Hi; [done..| |done].
  intros k it s Hk Hit. by apply Hs, (H3' k it).
Qed.

(** ** Money that the database keeps *)

Lemma valid_decimal_places q : valid_decimal q = true → four_places q ∧ (0 <= q)%Q.
Proof.
  destruct q as [n p]. unfold valid_decimal. cbn [Qnum Qden]. intros Hv. bools.
  match goal with Hm : (_ =? _) = true |- _ => apply Z.eqb_eq in Hm; apply Z.div_exact in Hm; [|done] end.
  set (c := n * 10000 / Zpos p) in *. split.
  - exists c. split; [unfold Qeq; simpl; lia|].
    assert (0 ≤ c) by (apply Z.div_pos; lia). assert (c < 10 ^ 12); [|lia].
    apply (Z.mul_lt_mono_pos_l (Zpos p)); lia.
  - unfold Qle. simpl. lia.
Qed.

Lemma four_places_eq (p q : Q) : (p == q)%Q → four_places q → four_places p.
Proof. intros Hpq (c & Hc & ?). exists c. by rewrite Hpq. Qed.

Lemma cost_kept (q : Q) : thousandths q → (q <= 1000)%Q → (dec (decimal_to_float (USD := USD) q) == q)%Q.
Proof. intros Hq Hle. apply float_keeps_places. by apply thousandths_places. Qed.

Lemma total_count {T} (f : T → Q) l :
  Forall (λ x, (f x <= 1)%Q) l → (total (map f l) <= inject_Z (Z.of_nat (length l)))%Q.
Proof.
  induction 1 as [|x l Hx _ IH]; [done|]. simpl length. rewrite Nat2Z.inj_succ. unfold Z.succ.
  rewrite inject_Z_plus. simpl. unfold inject_Z at 2. lra.
Qed.

Lemma plans_cost_kept (plans : list (Z * ScanPlan)) :
  Forall (λ item, sound_item_plan item.2) plans → (length plans ≤ 100)%nat →
  let cost := total (map (λ item, sp_estimated_uncached_cost_usd item.2) plans) in
  thousandths cost ∧ (cost <= 1000)%Q.
Proof.
  intros Hs Hlen cost. split.
  - apply total_thousandths. apply Forall_forall. intros q (item & <- & Hin)%list_elem_of_In%in_map_iff.
    rewrite Forall_forall in Hs. by apply Hs, list_elem_of_In.
  - eapply Qle_trans; [apply total_count; eapply Forall_impl; [exact Hs|]; by intros ? (_ & _ & ?)|].
    unfold Qle. simpl. lia.
Qed.

(** ** Creating a batch *)

Lemma create_batch_run request actor now d i d' :
  create_batch_plan request actor now d = (Ok i, d') →
  i = next_id (batch_scan_plans d) ∧ ∃ plans cost,
    NoDup (map fst plans) ∧ length plans = length (bp_opportunity_ids request)
    ∧ (∀ o, o ∈ map fst plans → o ∈ bp_opportunity_ids request)
    ∧ Forall (λ item, sound_item_plan item.2) plans
    ∧ (cost == total (map (λ item, sp_estimated_uncached_cost_usd item.2) plans))%Q
    ∧ (cost <= bp_aggregate_budget_usd request)%Q
    ∧ discovery_templates d' = discovery_templates d
    ∧ batch_scan_plans d' = <[i := planned_batch request actor cost]> (batch_scan_plans d)
    ∧ batch_scan_plan_items d' = append_rows (batch_scan_plan_items d) (map (new_item i) plans)
    ∧ scan_runs (desk_db d') = scan_runs (desk_db d).
Proof.
  unfold create_batch_plan. intros (template & d1 & Htemplate & Hrun)%bind_ok.
  apply (read_only_ok _) in Htemplate as ->. rewrite bind_gets, bind_raise_if in Hrun.
  set (rows := select _ _) in *. case_bool_decide as Hlen; [|done].
  apply bind_ok in Hrun as ([plans cost] & d1 & Hplans & Hrun).
  destruct (plan_items_run _ _ _ _ _ _ _ _ Hplans) as (Hids & Hcost & Hsound & Hkeep). simpl in *.
  rewrite bind_raise_if in Hrun. destruct (Q_ltb _ _) eqn:Hbudget; [done|]. apply Q_ltb_le in Hbudget.
  rewrite bind_gets, bind_modify in Hrun. apply bind_ok in Hrun as (u & d2 & Hadd & Hret).
  apply ret_ok in Hret as [-> ->]. apply add_items_run in Hadd as (Ht & Hb & Hi & Hs). simpl in *.
  unfold batch_tables in Hkeep. injection Hkeep as Ht1 Hb1 Hi1 Hs1.
  rewrite Hb1, Hi1, Hs1, ?Ht1 in *. split; [done|]. exists plans, cost. split_and!; try done.
  - rewrite Hids. apply select_NoDup.
  - rewrite <- Hlen, <- (length_map fst plans), Hids. by rewrite length_map.
  - intros o. rewrite Hids. intros ([k op] & <- & Hk%list_elem_of_In)%list_elem_of_In%in_map_iff.
    apply elem_of_select in Hk as [_ Hk]. by bools.
  - rewrite Hcost. lra.
Qed.

Lemma rows_of_new_batch i j plans d d' :
  batch_scan_plan_items d' = append_rows (batch_scan_plan_items d) (map (new_item i) plans) →
  rows_of j d' = rows_of j d ++ if bool_decide (i = j) then map (new_item i) plans else [].
Proof.
  intros Hi. unfold rows_of, _batch_items. rewrite Hi.
  rewrite (append_rows_select (λ it, bool_decide (it_batch_plan_id it = j))). f_equal. clear.
  induction plans as [|p plans IH]; simpl; [by case_bool_decide|]. rewrite IH. by case_bool_decide.
Qed.

Lemma rows_of_none i d : batches_ok d → batch_scan_plans d !! i = None → rows_of i d = [].
Proof.
  intros Hok Hi. unfold rows_of. destruct (_batch_items i d) as [|[k it] l] eqn:Hs; [done|]. exfalso.
  assert ((k, it) ∈ _batch_items i d) as Hin by (rewrite Hs; by left).
  apply elem_of_select in Hin as [Hk Hp]. apply bool_decide_eq_true in Hp. subst i.
  destruct (ok_item d Hok k it Hk) as (_ & b & Hb & _). congruence.
Qed.

Lemma create_batch_keeps request actor now d i d' :
  valid_batch_request request = true → create_batch_plan request actor now d = (Ok i, d') → batches_ok d → batches_ok d'.
Proof.
  intros Hvalid Hrun Hok.
  destruct (create_batch_run _ _ _ _ _ _ Hrun)
    as (Hi & plans & cost & Hnd & Hlen & _ & Hsound & Hcost & Hbudget & _ & Hb & Hits & Hscans).
  assert (length plans ≤ 100)%nat as Hcount.
  { unfold valid_batch_request in Hvalid. bools. rewrite Hlen. by apply Nat.leb_le. }
  destruct (plans_cost_kept plans Hsound Hcount) as [Hth Hle].
  assert (batch_scan_plans d !! i = None) as Hfresh by (rewrite Hi; apply next_id_fresh).
  assert (four_places (bp_aggregate_budget_usd request)) as Hplaces.
  { unfold valid_batch_request in Hvalid. bools. by eapply valid_decimal_places. }
  assert (dec (decimal_to_float (USD := USD) cost) == cost)%Q as Hkept.
  { apply float_keeps_places. eapply four_places_eq; [exact Hcost|]. by apply thousandths_places. }
  assert (∀ k it, batch_scan_plan_items d' !! k = Some it →
    batch_scan_plan_items d !! k = Some it ∨ ∃ item, item ∈ plans ∧ it = new_item i item) as Hlook.
  { intros k it Hk. rewrite Hits in Hk. apply append_rows_lookup in Hk as [Hk|Hk]; [by left|right].
    apply list_elem_of_In, in_map_iff in Hk as (item & <- & Hin). exists item. by rewrite list_elem_of_In. }
  split.
  - intros j b. rewrite (rows_of_new_batch _ _ _ _ _ Hits), Hb, lookup_insert. case_decide as Hij.
    + intros [= <-]. subst j. rewrite (rows_of_none i d Hok Hfresh), bool_decide_eq_true_2 by done. simpl. split; simpl.
      * unfold rows_cost. rewrite Hkept, Hcost, map_map. symmetry. apply total_ext.
        intros item Hin. simpl. rewrite Forall_forall in Hsound. destruct (Hsound item Hin) as (_ & ? & ?).
        apply cost_kept; [done|lra].
      * by rewrite Hkept, (float_keeps_places _ Hplaces).
      * rewrite map_map. by rewrite (map_ext _ fst).
      * done.
    + intros Hj. rewrite bool_decide_eq_false_2, app_nil_r by done. by apply (ok_batch d Hok).
  - intros k it [Hk|(item & Hin & ->)]%Hlook.
    + destruct (ok_item d Hok k it Hk) as (? & b & Hbk & ?). split; [done|]. exists b. split; [|done].
      rewrite Hb, lookup_insert_ne by congruence. done.
    + rewrite Forall_forall in Hsound. split; [split; [by apply Hsound|done]|].
      eexists. rewrite Hb, lookup_insert_eq. done.
  - intros k it s [Hk|(item & _ & ->)]%Hlook; [|done]. rewrite Hscans. by apply (ok_scan d Hok k).
  - intros k k' it it' s [Hk|(item & _ & ->)]%Hlook [Hk'|(item' & _ & ->)]%Hlook; try done. by apply (ok_one d Hok).
Qed.

(** ** Confirming *)

(** The batch a confirmation leaves. *)
Definition confirmed (request : BatchConfirmationRequest) actor (now : Z) (b : BatchScanPlan USD) : BatchScanPlan USD :=
  b <| ba_status := b_confirmed |>
    <| ba_approved_max_cost_usd := Some (decimal_to_float (bc_approved_max_cost_usd request)) |>
    <| ba_confirmed_by := Some (actor_id actor) |>
    <| ba_confirmation_reason := Some (bc_reason request) |>
    <| ba_confirmed_at := Some now |>.

Lemma confirm_batch_run i request actor now d u d' :
  confirm_batch i request actor now d = (Ok u, d') →
  ∃ b, batch_scan_plans d !! i = Some b ∧ ba_status b = b_planned
    ∧ (dec (ba_aggregate_estimated_cost_usd b) <= bc_approved_max_cost_usd request)%Q
    ∧ (bc_approved_max_cost_usd request <= dec (ba_aggregate_budget_usd b))%Q
    ∧ batch_tables d' = (discovery_templates d, <[i := confirmed request actor now b]> (batch_scan_plans d),
                         batch_scan_plan_items d, scan_runs (desk_db d)).
Proof.
  unfold confirm_batch, _batch. rewrite bind_get_or_raise. destruct (batch_scan_plans d !! i) as [b|] eqn:Hb; [|done].
  rewrite bind_raise_if. case_bool_decide as Hst; [|done]. rewrite bind_raise_if.
  destruct (Q_ltb _ _) eqn:Hest; [done|]. simpl. rewrite bind_raise_if. destruct (Q_ltb (dec _) _) eqn:Hbud; [done|].
  apply Q_ltb_le in Hest, Hbud. intros Hrun. exists b. split_and!; try done.
  apply bind_ok in Hrun as (v & d1 & Hup & Hrun). apply modify_ok in Hup as ->.
  rewrite (keeps_ok batch_tables _ _ _ _ Hrun). unfold batch_tables. simpl. by rewrite (alter_as_insert _ _ _ _ Hb).
Qed.

Lemma confirm_keeps i request actor now d u d' :
  valid_confirmation request = true → confirm_batch i request actor now d = (Ok u, d') → batches_ok d → batches_ok d'.
Proof.
  intros Hvalid Hrun Hok. destruct (confirm_batch_run _ _ _ _ _ _ _ Hrun) as (b & Hb & Hst & Hest & Hbud & Htab).
  unfold batch_tables in Htab. injection Htab as _ Hbs Hits Hscans.
  unfold valid_confirmation in Hvalid. bools.
  match goal with Hv : valid_decimal _ = true |- _ => apply valid_decimal_places in Hv as [Hplaces _] end.
  split; unfold rows_of, _batch_items in *; rewrite ?Hits, ?Hscans; [| |apply (ok_scan d Hok)|apply (ok_one d Hok)].
  - intros j b'. rewrite Hbs, lookup_insert. case_decide as Hij; [|apply (ok_batch d Hok)].
    intros [= <-]. subst j. destruct (ok_batch d Hok i b Hb) as [Hcost Hle Hnd _]. split; try done. simpl.
    do 2 eexists. split_and!; [done..| |]; by rewrite (float_keeps_places _ Hplaces).
  - intros k it Hk. destruct (ok_item d Hok k it Hk) as (? & b' & Hb' & Hit). split; [done|].
    rewrite Hbs, lookup_insert. case_decide as Hij; [|by exists b'].
    eexists. split; [done|]. simplify_eq. unfold item_status in *. simpl. by rewrite Hst in Hit.
Qed.

(** ** Queueing *)

(** What planning fixed of an item *)
Definition planned_part (it : BatchScanPlanItem USD) : BatchScanPlanItem USD :=
  it <| it_scan_run_id := None |> <| it_queued := false |>.

(** The batch a queueing leaves *)
Definition queued (now : Z) (b : BatchScanPlan USD) : BatchScanPlan USD :=
  b <| ba_status := b_queued |> <| ba_queued_at := Some now |>.

Lemma queue_batch_run i now d r d' :
  queue_batch usd_json plan_json i now d = (Ok r, d') →
  ∃ b a d1, batch_scan_plans d !! i = Some b ∧ ba_status b = b_confirmed ∧ ba_approved_max_cost_usd b = Some a
    ∧ (items_cost (_batch_items i d) <= dec a)%Q ∧ active_scan (_batch_items i d) (desk_db d) = None
    ∧ queued_as usd_json plan_json i b d (_batch_items i d) (bq_queued_scan_ids r) d1
    ∧ r = {| bq_batch_plan_id := i; bq_queued_scan_ids := bq_queued_scan_ids r;
             bq_aggregate_planned_cost_usd := items_cost (_batch_items i d); bq_approved_max_cost_usd := dec a |}
    ∧ d' = d1 <| batch_scan_plans := <[i := queued now b]> (batch_scan_plans d) |>.
Proof.
  unfold queue_batch, _batch. rewrite bind_get_or_raise. destruct (batch_scan_plans d !! i) as [b|] eqn:Hb; [|done].
  rewrite bind_raise_if. case_bool_decide as Hst; [|done]. simpl. rewrite bind_get_or_raise.
  destruct (ba_approved_max_cost_usd b) as [a|] eqn:Ha; [|done]. rewrite bind_gets. cbv zeta.
  rewrite bind_raise_if. destruct (Q_ltb _ _) eqn:Hcost; [done|]. rewrite bind_gets, bind_raise_if.
  case_bool_decide as Hact; [done|]. intros (scans & d1 & Hq & Hrun)%bind_ok.
  apply queue_items_run in Hq as Hqa; [|apply select_NoDup].
  unfold update_batch in Hrun. rewrite bind_modify in Hrun. injection Hrun as <- <-. simpl.
  apply Q_ltb_le in Hcost. exists b, a, d1. split_and!; try done.
  - by destruct (active_scan _ _); [destruct Hact|].
  - pose proof (qa_batches _ _ _ _ _ _ _ _ Hqa) as Hbs. destruct d1. cbn in *. subst.
    by rewrite <- (alter_as_insert (queued now) _ _ _ Hb).
Qed.

(** An item after its batch was queued: the one before, with its scan if it belongs to the
    batch. *)
Lemma queued_item i b d scans d1 k it' :
  queued_as usd_json plan_json i b d (_batch_items i d) scans d1 → batch_scan_plan_items d1 !! k = Some it' →
  ∃ it, batch_scan_plan_items d !! k = Some it ∧ planned_part it' = planned_part it
    ∧ ((it_batch_plan_id it = i ∧ ∃ n s, _batch_items i d !! n = Some (k, it) ∧ scans !! n = Some s
          ∧ it_scan_run_id it' = Some s ∧ it_queued it' = true)
       ∨ (it_batch_plan_id it ≠ i ∧ it' = it)).
Proof.
  intros Hqa Hk. destruct (decide (k ∈ (_batch_items i d).*1)) as [Hin|Hout].
  - apply list_elem_of_fmap in Hin as ([k0 it] & -> & Hin). simpl in *.
    apply elem_of_select in Hin as Hrow. destruct Hrow as [Hd Hp]. bools. exists it. split; [done|].
    apply list_elem_of_lookup in Hin as [n Hn].
    destruct (Forall2_lookup_l _ _ _ _ _ (qa_items _ _ _ _ _ _ _ _ Hqa) Hn) as (s & Hs & _ & _ & _ & _ & Hit).
    simpl in Hit. rewrite Hk, Hd in Hit. injection Hit as ->. split; [done|]. left. split; [done|]. by exists n, s.
  - rewrite (qa_other_items _ _ _ _ _ _ _ _ Hqa k Hout) in Hk. exists it'. split_and!; [done..|]. right. split; [|done].
    intros Hi. apply Hout. apply list_elem_of_fmap. exists (k, it'). split; [done|]. apply elem_of_select.
    split; [done|]. by apply bool_decide_eq_true.
Qed.

Lemma queued_rows i b d scans d1 j :
  queued_as usd_json plan_json i b d (_batch_items i d) scans d1 →
  map planned_part (rows_of j d1) = map planned_part (rows_of j d).
Proof.
  intros Hqa. unfold rows_of, _batch_items.
  assert (∀ l : list (Z * BatchScanPlanItem USD), map planned_part l.*2 = (prod_map id planned_part <$> l).*2) as Hmap.
  { intros l. induction l as [|x l IH]; [done|]. by apply (f_equal (cons _)). }
  rewrite !Hmap. f_equal.
  refine (select_same planned_part (λ it, bool_decide (it_batch_plan_id it = j)) _ _ _). intros k.
  destruct (batch_scan_plan_items d1 !! k) as [it'|] eqn:Hk'; simpl.
  - destruct (queued_item _ _ _ _ _ _ _ Hqa Hk') as (it & -> & -> & _). done.
  - destruct (batch_scan_plan_items d !! k) as [it|] eqn:Hk; [|done]. exfalso.
    destruct (decide (k ∈ (_batch_items i d).*1)) as [Hin|Hout].
    + apply list_elem_of_fmap in Hin as ([k0 it0] & -> & [n Hn]%list_elem_of_lookup). simpl in *.
      destruct (Forall2_lookup_l _ _ _ _ _ (qa_items _ _ _ _ _ _ _ _ Hqa) Hn) as (s & _ & _ & _ & _ & _ & Hit).
      simpl in Hit. by rewrite Hk', Hk in Hit.
    + by rewrite (qa_other_items _ _ _ _ _ _ _ _ Hqa k Hout), Hk in Hk'.
Qed.

Lemma batch_ok_rows b rows rows' :
  map planned_part rows' = map planned_part rows → batch_ok b rows → batch_ok b rows'.
Proof.
  intros Hrows. assert (rows_cost rows' = rows_cost rows ∧ map it_opportunity_id rows' = map it_opportunity_id rows)
    as [Hcost Hopp].
  { pose proof (f_equal (map it_estimated_cost_usd) Hrows) as H1'. pose proof (f_equal (map it_opportunity_id) Hrows) as H2'.
    rewrite !map_map in H1', H2'. simpl in H1', H2'. split; [|done]. unfold rows_cost.
    rewrite <- !(map_map it_estimated_cost_usd dec).
    by replace (map it_estimated_cost_usd rows') with (map it_estimated_cost_usd rows) by exact (eq_sym H1'). }
  intros [Hc Hb Hn Ha]. split; rewrite ?Hcost, ?Hopp; done.
Qed.

Lemma queue_keeps i now d r d' :
  queue_batch usd_json plan_json i now d = (Ok r, d') → batches_ok d → batches_ok d'.
Proof.
  intros Hrun Hok. destruct (queue_batch_run _ _ _ _ _ Hrun) as (b & a & d1 & Hb & Hst & Ha & _ & _ & Hqa & _ & ->).
  set (scans := bq_queued_scan_ids r) in *.
  assert (∀ n s, scans !! n = Some s → is_Some (scan_runs (desk_db d1) !! s)) as Hnew.
  { intros n s Hs. destruct (Forall2_lookup_r _ _ _ _ _ (qa_items _ _ _ _ _ _ _ _ Hqa) Hs)
      as (? & _ & _ & (? & ? & ->) & _). done. }
  assert (∀ n s, scans !! n = Some s → scan_runs (desk_db d) !! s = None) as Hold.
  { intros n s Hs. by destruct (Forall2_lookup_r _ _ _ _ _ (qa_items _ _ _ _ _ _ _ _ Hqa) Hs) as (? & _ & ? & _). }
  split; unfold rows_of, _batch_items in *; cbn.
  - intros j b'. rewrite lookup_insert. case_decide as Hij; intros Hb'.
    + injection Hb' as <-. subst j. apply (batch_ok_rows _ _ _ (queued_rows _ _ _ _ _ i Hqa)).
      destruct (ok_batch d Hok i b Hb) as [Hc Hbud Hn Happ]. rewrite Hst in Happ. by split.
    + apply (batch_ok_rows _ _ _ (queued_rows _ _ _ _ _ j Hqa)). by apply (ok_batch d Hok).
  - intros k it' Hk. destruct (queued_item _ _ _ _ _ _ _ Hqa Hk) as (it & Hit & Hpart & Hcase).
    destruct (ok_item d Hok k it Hit) as (Hsound & b' & Hb' & Hstatus).
    pose proof (f_equal it_batch_plan_id Hpart) as Hbp. pose proof (f_equal it_scan_plan_payload Hpart) as Hpl.
    pose proof (f_equal it_estimated_cost_usd Hpart) as Hec. cbn in Hbp, Hpl, Hec.
    unfold sound_item. rewrite Hbp, Hpl, Hec. split; [done|]. rewrite lookup_insert.
    destruct Hcase as [(Hi & n & s & _ & _ & Hscan & Hq)|[Hi ->]].
    + rewrite decide_True by done. eexists. split; [done|]. unfold item_status. cbn. split; [done|by eexists].
    + rewrite decide_False by done. by exists b'.
  - intros k it' s Hk Hs. destruct (queued_item _ _ _ _ _ _ _ Hqa Hk) as (it & Hit & _ & Hcase).
    destruct Hcase as [(_ & n & s' & _ & Hn & Hscan & _)|[_ ->]]; [simplify_eq; by eapply Hnew|].
    destruct (ok_scan d Hok k it s Hit Hs) as [row Hrow].
    destruct (decide (s ∈ scans)) as [[n Hn]%list_elem_of_lookup|Hout]; [by eapply Hnew|].
    destruct (qa_other_scans _ _ _ _ _ _ _ _ Hqa s Hout) as (-> & _). by eexists.
  - intros k k' it1 it2 s Hk Hk' Hs1 Hs2.
    destruct (queued_item _ _ _ _ _ _ _ Hqa Hk) as (i1 & Hi1 & _ & Hc1).
    destruct (queued_item _ _ _ _ _ _ _ Hqa Hk') as (i2 & Hi2 & _ & Hc2).
    destruct Hc1 as [(_ & n1 & s1 & Hl1 & Hn1 & Hscan1 & _)|[_ ->]], Hc2 as [(_ & n2 & s2 & Hl2 & Hn2 & Hscan2 & _)|[_ ->]].
    + simplify_eq. pose proof (NoDup_lookup _ _ _ _ (qa_distinct _ _ _ _ _ _ _ _ Hqa) Hn1 Hn2). by simplify_eq.
    + simplify_eq. destruct (ok_scan d Hok k' i2 s Hi2 Hs2) as [row Hrow]. by rewrite (Hold _ _ Hn1) in Hrow.
    + simplify_eq. destruct (ok_scan d Hok k i1 s Hi1 Hs1) as [row Hrow]. by rewrite (Hold _ _ Hn2) in Hrow.
    + by apply (ok_one d Hok k k' i1 i2 s).
Qed.

(** ** Every step *)

Lemma template_ops_keep {T} (m : M (Desk USD C) plan_error T) d res d' :
  Keeps (λ d, (batch_scan_plans d, batch_scan_plan_items d, desk_db d)) m →
  transaction m d = (res, d') → batches_ok d → batches_ok d'.
Proof.
  intros Hm Hrun. destruct res as [r|e]; [|by rewrite (transaction_raise _ _ _ _ Hrun)].
  apply (proj1 (transaction_ok _ _ _ _)) in Hrun.
  pose proof (keeps_ok (λ d, (batch_scan_plans d, batch_scan_plan_items d, desk_db d)) m _ _ _ Hrun) as Heq.
  injection Heq as Hb Hi Hdb. apply batches_ok_same; [done..|]. by rewrite Hdb.
Qed.

Lemma desk_step_keeps d d' : desk_step d d' → batches_ok d → batches_ok d'.
Proof.
  intros Hstep. destruct Hstep as [raw rq actor res d d' _ Hrun|i raw rq actor res d d' _ Hrun|i actor res d d' Hrun
    |rq actor now res d d' Hv Hrun|i rq actor now res d d' Hv Hrun|i now res d d' Hrun|d d' _ Hb Hi Hs].
  - eapply template_ops_keep; [|exact Hrun]. unfold create_template. apply _.
  - eapply template_ops_keep; [|exact Hrun]. unfold update_template. apply _.
  - eapply template_ops_keep; [|exact Hrun]. unfold archive_template. apply _.
  - destruct res as [r|e]; [apply (proj1 (transaction_ok _ _ _ _)) in Hrun; by eapply create_batch_keeps|].
    by rewrite (transaction_raise _ _ _ _ Hrun).
  - destruct res as [r|e]; [apply (proj1 (transaction_ok _ _ _ _)) in Hrun; by eapply confirm_keeps|].
    by rewrite (transaction_raise _ _ _ _ Hrun).
  - destruct res as [r|e]; [apply (proj1 (transaction_ok _ _ _ _)) in Hrun; by eapply queue_keeps|].
    by rewrite (transaction_raise _ _ _ _ Hrun).
  - by apply batches_ok_same.
Qed.

Lemma reach_ok d d' : desk_reach d d' → batches_ok d → batches_ok d'.
Proof. induction 1 as [|d1 d2 _ IH Hstep]; [done|]. intros Hok. eapply desk_step_keeps; [done|by apply IH]. Qed.
End desk.
