(* ===== verification/DiscoveryBatchesTheorems.v ===== *)
(** * DiscoveryBatchesTheorems: what a batch of scans promises

    A confirmed batch stays within the maximum a person approved and within its budget, a
    batch is queued once, with one scan of the planned cost and the planned calls per
    opportunity, and a template is changed by its owner or an administrator only.
    [live_planner] shows that [build_scan_plan] is a planner the batches can rely on. *)
From S2P Require Import Prelude Services Binary64 Schema OpportunityReview BlobStorage ResponseCache Numbers Planning.
From S2P Require Import PlanningTheorems DiscoveryBatches DiscoveryBatchesProofs DiscoveryBatchesInvariant.
From Stdlib Require Import QArith Lqa.
#[global] Open Scope Z_scope.

(** ** Planning as the batches use it *)

(** The rows of services and markets, with slug and dump, and the response cache *)
Record Catalog (S : Type) : Type := {
  cat_services : gmap Z (ServiceFamily * (string * json));
  cat_markets : gmap Z (Market * (string * json));
  cat_cache : CacheState S
}.
Arguments cat_services {S}. Arguments cat_markets {S}. Arguments cat_cache {S}. Arguments Build_Catalog {S}.
#[export] Instance eta_Catalog S : Eta (Catalog S) := λ r,
  Build_Catalog (cat_services r) (cat_markets r) (cat_cache r).

Section live_planner.
Context {S USD : Type} `{BlobStore S} `{JsonText} `{DecimalMoney USD}.
Context (sha256 : bytes → string) (format_6f format_g : binary64 → string) (parse_int : string → option Z)
  (index_get : string → option USGeographyRecord) (settings : PlanningSettings USD).

Definition live_planner : ScanPlanner (Catalog S) := {|
  plan_scan mode profile service market now := λ c,
    match cat_services c !! service, cat_markets c !! market with
    | Some (s, _), Some (m, _) =>
        let '(r, cache) := build_scan_plan sha256 format_6f format_g parse_int index_get settings mode s m true
                             (Some profile) now (cat_cache c) in
        (r, c <| cat_cache := cache |>)
    | _, _ => (Raise (Failure RuntimeError), c)
    end;
  service_payload c i := snd <$> cat_services c !! i;
  market_payload c i := snd <$> cat_markets c !! i
|}.

(** [build_scan_plan] keeps the contract of a planner. *)
Lemma live_planner_laws : @ScanPlannerLaws (Catalog S) live_planner.
Proof.
  intros mode profile service market now c plan c'. unfold plan_scan. cbn.
  destruct (cat_services c !! service) as [[s s_dump]|]; [|done].
  destruct (cat_markets c !! market) as [[m m_dump]|]; [|done].
  destruct (build_scan_plan _ _ _ _ _ _ _ _ _ _ _ _ _) as [[found|e] cache] eqn:Hrun; [|done]. intros [= -> _].
  destruct (scan_plan_sound _ _ _ _ _ _ _ _ _ _ _ _ _ _ _ Hrun) as [Hids _ _ _ Hcost Hbound _ _].
  split_and!; [done..|]. eapply Qle_trans; [exact Hbound|].
  destruct (bool_decide _); [done|]. by destruct (is_testing _).
Qed.
End live_planner.

Section desk.
Context {USD C : Type} `{Amount USD} `{DecimalMoneyLaws USD} `{!ScanPlanner C} `{!ScanPlannerLaws C}.
Context (usd_json : USD → json) (plan_json : ScanPlan → json).
Implicit Types (d : Desk USD C) (actor : ReviewActor).

(** A desk without batches *)
Definition no_batches d : Prop := batch_scan_plans d = ∅ ∧ batch_scan_plan_items d = ∅.

Lemma no_batches_ok d : no_batches d → batches_ok d.
Proof.
  intros [Hb Hi]. split.
  - intros i b. by rewrite Hb, lookup_empty.
  - intros k it. by rewrite Hi, lookup_empty.
  - intros k it s. by rewrite Hi, lookup_empty.
  - intros k k' it it' s. by rewrite Hi, lookup_empty.
Qed.

Lemma rows_cost_items i d : (items_cost (_batch_items i d) == rows_cost (rows_of i d))%Q.
Proof.
  unfold items_cost, rows_cost, rows_of. rewrite decimal_sum_total.
  generalize (_batch_items i d). intros l. induction l as [|ki l IH]; simpl; [done|]. by rewrite IH.
Qed.

(** C30: A batch stays within what was approved.  In every history of the desk, whatever
    else happens to the scans and the opportunities, a batch that is confirmed or queued
    names who approved it, and the planned costs of its items add up to no more than the
    approved maximum, which is within its budget; its items are for different
    opportunities; and each item of a queued batch has a scan that no other item has. *)
Theorem batches_stay_within_approval d0 d i b :
  no_batches d0 → desk_reach usd_json plan_json d0 d → batch_scan_plans d !! i = Some b → ba_status b ≠ b_planned →
  (∃ a who, ba_approved_max_cost_usd b = Some a ∧ ba_confirmed_by b = Some who
     ∧ (items_cost (_batch_items i d) <= decimal_of_float a <= decimal_of_float (ba_aggregate_budget_usd b))%Q)
  ∧ NoDup (map (λ ki, it_opportunity_id ki.2) (_batch_items i d))
  ∧ (ba_status b = b_queued → ∀ k it, (k, it) ∈ _batch_items i d → ∃ s, it_scan_run_id it = Some s
       ∧ is_Some (scan_runs (desk_db d) !! s)
       ∧ ∀ k' it', batch_scan_plan_items d !! k' = Some it' → it_scan_run_id it' = Some s → k' = k).
Proof.
  intros Hnone Hreach Hb Hst.
  pose proof (reach_ok usd_json plan_json _ _ Hreach (no_batches_ok _ Hnone)) as Hok.
  destruct (ok_batch d Hok i b Hb) as [Hcost Hbud Hnd Happ]. split_and!.
  - destruct (ba_status b); [done| |]; destruct Happ as (a & who & ? & ? & ? & ?); exists a, who;
      rewrite rows_cost_items, <- Hcost; by split_and!.
  - unfold rows_of in Hnd. revert Hnd. generalize (_batch_items i d). intros l.
    by replace (map it_opportunity_id l.*2) with (map (λ ki : Z * BatchScanPlanItem USD, it_opportunity_id ki.2) l)
      by (induction l as [|x l IH]; simpl; [done|by f_equal]).
  - intros Hq k it [Hk Hp]%elem_of_select. bools. subst i.
    destruct (ok_item d Hok k it Hk) as (_ & b' & Hb' & Hstatus). simplify_eq. unfold item_status in Hstatus.
    rewrite Hq in Hstatus. destruct Hstatus as [_ [s Hs]]. exists s. split_and!; [done|by eapply ok_scan|].
    intros k' it' Hk' Hs'. by eapply (ok_one d Hok).
Qed.

(** *** Queueing *)

Lemma save_calls_total scan plan d :
  NoDup (map pl_planned_request_id (sp_planned_calls plan)) →
  ∃ d', save_scan_plan_calls scan plan d = (Ok tt, d') ∧ catalog d' = catalog d
    ∧ opportunities (desk_db d') = opportunities (desk_db d).
Proof.
  intros Hnd. unfold save_scan_plan_calls. rewrite !bind_modify, (bind_run _ _ _ _ _ (add_plan_calls_run _ _ _)).
  unfold raise_if. rewrite bool_decide_eq_true_2 by done. simpl. eexists. by split_and!.
Qed.

Lemma queue_item_total i b ki d :
  is_Some (opportunities (desk_db d) !! it_opportunity_id ki.2) →
  (∀ o, opportunities (desk_db d) !! it_opportunity_id ki.2 = Some o →
     is_Some (service_payload (catalog d) (opp_service_family_id o)) ∧ is_Some (market_payload (catalog d) (opp_market_id o))) →
  sound_item ki.2 →
  ∃ s d', queue_item usd_json plan_json i b ki d = (Ok s, d')
    ∧ catalog d' = catalog d ∧ opportunities (desk_db d') = opportunities (desk_db d).
Proof.
  intros [o Ho] Hrows [(Hnd & _) _]. destruct (Hrows o Ho) as [[service Hservice] [market Hmarket]].
  unfold queue_item.
  assert (in_db (_opportunity (it_opportunity_id ki.2)) d = (Ok o, d)) as Hopp.
  { unfold in_db, _opportunity, get_or_raise. rewrite Ho. by destruct d. }
  rewrite (bind_run _ _ _ _ _ Hopp), bind_get_or_raise, Hservice, bind_get_or_raise, Hmarket, bind_gets, bind_modify.
  match goal with |- context [(save_scan_plan_calls ?scan ?plan ≫= _) ?d1] =>
    destruct (save_calls_total scan plan d1 Hnd) as (d2 & Hsave & Hcat & Hopps) end.
  rewrite (bind_run _ _ _ _ _ Hsave), bind_modify. do 2 eexists. by split_and!.
Qed.

(** What queueing an item needs of the rows it reads *)
Definition queueable d (it : BatchScanPlanItem USD) : Prop :=
  ∃ o, opportunities (desk_db d) !! it_opportunity_id it = Some o
    ∧ is_Some (service_payload (catalog d) (opp_service_family_id o)) ∧ is_Some (market_payload (catalog d) (opp_market_id o)).

Lemma queue_items_total i b items d :
  (∀ ki, ki ∈ items → queueable d ki.2 ∧ sound_item ki.2) →
  ∃ scans d', queue_items usd_json plan_json i b items d = (Ok scans, d').
Proof.
  revert d. induction items as [|ki items IH]; intros d Hall; simpl; [by do 2 eexists|].
  destruct (Hall ki ltac:(by left)) as [(o & Ho & Hs & Hm) Hsound].
  destruct (queue_item_total i b ki d) as (s & d1 & Hrun & Hcat & Hopps); [by eexists| |done|].
  { intros o'. rewrite Ho. by intros [= <-]. }
  rewrite (bind_run _ _ _ _ _ Hrun). destruct (IH d1) as (scans & d2 & Hrest).
  { intros kj Hj. destruct (Hall kj ltac:(by right)) as [Hq ?]. split; [|done]. unfold queueable. by rewrite Hcat, Hopps. }
  rewrite (bind_run _ _ _ _ _ Hrest). by do 2 eexists.
Qed.

Lemma forall2_lookup_first {T U} (P : T → U → Prop) l k x :
  Forall2 P l k → x ∈ l → ∃ y, y ∈ k ∧ P x y.
Proof. intros Hall [n Hn]%list_elem_of_lookup. destruct (Forall2_lookup_l _ _ _ _ _ Hall Hn) as (y & Hy & ?).
  exists y. split; [by eapply list_elem_of_lookup_2|done]. Qed.

(** An opportunity has one queued or running scan. *)
Definition one_active_scan db (o s : Z) : Prop :=
  ∀ s', (∃ row : ScanRun, scan_runs (USD := USD) db !! s' = Some row ∧ sc_opportunity_id row = Some o
           ∧ sc_status row ∈ [SQueued; SRunning]) ↔ s' = s.

Lemma no_active_scan items (db : Db USD) s row o :
  active_scan items db = None → scan_runs db !! s = Some row → sc_opportunity_id row = Some o →
  o ∈ map (λ ki, it_opportunity_id ki.2) items → sc_status row ∉ [SQueued; SRunning].
Proof.
  intros Hnone Hrow Ho Hin Hst. apply (proj1 (select_first_None _ _)) with (i := s) (r := row) in Hnone; [|done].
  rewrite Ho in Hnone. by rewrite !bool_decide_eq_true_2 in Hnone.
Qed.

Lemma queued_scan_is_active i b d d1 scans k it s :
  NoDup (map (λ ki, it_opportunity_id ki.2) (_batch_items i d)) → active_scan (_batch_items i d) (desk_db d) = None →
  queued_as usd_json plan_json i b d (_batch_items i d) scans d1 → (k, it) ∈ _batch_items i d →
  it_scan_run_id <$> batch_scan_plan_items d1 !! k = Some (Some s) →
  one_active_scan (desk_db d1) (it_opportunity_id it) s.
Proof.
  intros Hnd Hactive Hqa Hin Hscan. pose proof (qa_items _ _ _ _ _ _ _ _ Hqa) as Hall.
  apply elem_of_select in Hin as Hrow. destruct Hrow as [Hk _]. apply list_elem_of_lookup in Hin as [n Hn].
  destruct (Forall2_lookup_l _ _ _ _ _ Hall Hn) as (s0 & Hs0 & Hfresh & (sv & mk & Hrun) & _ & _ & Hit).
  simpl in *. rewrite Hit, Hk in Hscan. injection Hscan as ->.
  assert (it_opportunity_id it ∈ map (λ ki, it_opportunity_id ki.2) (_batch_items i d)) as Hopp.
  { apply list_elem_of_In, in_map_iff. exists (k, it). split; [done|].
    by eapply list_elem_of_In, list_elem_of_lookup_2. }
  intros s'. split; [|intros ->; eexists; split; [done|]; split; [done|by left]].
  intros (row & Hrow & Ho & Hst). destruct (decide (s' ∈ scans)) as [[m Hm]%list_elem_of_lookup|Hout].
  - destruct (Forall2_lookup_r _ _ _ _ _ Hall Hm) as ([k' it'] & Hm' & _ & (sv' & mk' & Hrun') & _).
    rewrite Hrow in Hrun'. injection Hrun' as ->. simpl in Ho. injection Ho as Ho.
    assert (m = n) as ->; [|by simplify_eq].
    eapply NoDup_lookup; [exact Hnd| |]; rewrite list_lookup_fmap; [by rewrite Hm'|]. rewrite Hn. simpl. by f_equal.
  - exfalso. destruct (qa_other_scans _ _ _ _ _ _ _ _ Hqa s' Hout) as [Hsame _]. rewrite Hsame in Hrow.
    by eapply no_active_scan.
Qed.

Lemma queue_batch_total i b d now :
  batches_ok d → batch_scan_plans d !! i = Some b → (∀ k it, (k, it) ∈ _batch_items i d → queueable d it) →
  ba_status b = b_confirmed → active_scan (_batch_items i d) (desk_db d) = None →
  ∃ r d', queue_batch usd_json plan_json i now d = (Ok r, d').
Proof.
  intros Hok Hb Hrows Hst Hactive. destruct (ok_batch d Hok i b Hb) as [Hcost _ _ Happ]. rewrite Hst in Happ.
  destruct Happ as (a & who & Ha & _ & Hle & _). unfold queue_batch, _batch.
  rewrite bind_get_or_raise, Hb, bind_raise_if, Hst. simpl. rewrite bind_get_or_raise, Ha, bind_gets. cbv zeta.
  assert (Q_ltb (decimal_of_float a) (items_cost (_batch_items i d)) = false) as Hcheck.
  { apply Q_ltb_le. by rewrite rows_cost_items, <- Hcost. }
  rewrite bind_raise_if, Hcheck, bind_gets, bind_raise_if, Hactive. simpl.
  destruct (queue_items_total i b (_batch_items i d) d) as (scans & d1 & Hq).
  { intros [k it] Hin. split; [by apply (Hrows k)|]. apply elem_of_select in Hin as [Hk _].
    by apply (ok_item d Hok k). }
  rewrite (bind_run _ _ _ _ _ Hq). unfold update_batch. rewrite bind_modify. by do 2 eexists.
Qed.

(** Queueing a batch is exact.  In every history of the desk a batch can be queued
    exactly when it is confirmed, no opportunity of it has a queued or running scan, and
    the rows it needs exist; in particular the check of the cost never fails.  Then each
    item gets a new scan of its opportunity, in order, with the planned cost of the item
    and exactly the calls of its plan, which is the one active scan of that opportunity;
    the total is within the approved maximum, no other scan changes, and the batch is
    queued, so it cannot be queued again. *)
Theorem queueing_is_exact d0 d i b now :
  no_batches d0 → desk_reach usd_json plan_json d0 d → batch_scan_plans d !! i = Some b →
  (∀ k it, (k, it) ∈ _batch_items i d → queueable d it) →
  ((∃ r d', queue_batch usd_json plan_json i now d = (Ok r, d')) ↔
     ba_status b = b_confirmed ∧ active_scan (_batch_items i d) (desk_db d) = None)
  ∧ ∀ r d', queue_batch usd_json plan_json i now d = (Ok r, d') →
      Forall2 (item_queued usd_json plan_json i b d d') (_batch_items i d) (bq_queued_scan_ids r)
      ∧ (∀ k it s, (k, it) ∈ _batch_items i d → it_scan_run_id <$> batch_scan_plan_items d' !! k = Some (Some s) →
           one_active_scan (desk_db d') (it_opportunity_id it) s)
      ∧ (bq_aggregate_planned_cost_usd r <= bq_approved_max_cost_usd r)%Q
      ∧ (∀ s, s ∉ bq_queued_scan_ids r → scan_runs (desk_db d') !! s = scan_runs (desk_db d) !! s)
      ∧ ba_status <$> batch_scan_plans d' !! i = Some b_queued.
Proof.
  intros Hnone Hreach Hb Hrows.
  pose proof (reach_ok usd_json plan_json _ _ Hreach (no_batches_ok _ Hnone)) as Hok.
  assert (NoDup (map (λ ki : Z * BatchScanPlanItem USD, it_opportunity_id ki.2) (_batch_items i d))) as Hnd.
  { destruct (ok_batch d Hok i b Hb) as [_ _ Hnd _]. unfold rows_of in Hnd. revert Hnd. by rewrite <- list_fmap_compose. }
  split; [split|].
  - intros (r & d' & Hrun). destruct (queue_batch_run _ _ _ _ _ _ _ Hrun) as (b' & a & d1 & Hb' & Hst & _ & _ & Hact & _).
    by simplify_eq.
  - intros [Hst Hactive]. by eapply queue_batch_total.
  - intros r d' Hrun.
    destruct (queue_batch_run _ _ _ _ _ _ _ Hrun) as (b' & a & d1 & Hb' & Hst & Ha & Hle & Hact & Hqa & Hr & ->).
    simplify_eq. split_and!.
    + exact (qa_items _ _ _ _ _ _ _ _ Hqa).
    + intros k it s Hin Hscan. exact (queued_scan_is_active _ _ _ _ _ _ _ _ Hnd Hact Hqa Hin Hscan).
    + by rewrite Hr.
    + intros s Hs. by destruct (qa_other_scans _ _ _ _ _ _ _ _ Hqa s Hs).
    + cbn. by rewrite lookup_insert_eq.
Qed.

(** *** Templates *)

(** A template is changed by its owner or an administrator only, while it is active; it
    keeps its owner, and no other template changes. *)
Theorem templates_belong_to_their_owner i request actor d t d' :
  update_template i request actor d = (Ok t, d') ∨ archive_template i actor d = (Ok t, d') →
  ∃ before, discovery_templates d !! i = Some before ∧ dt_active before = true
    ∧ (dt_owner_user_id before = actor_id actor ∨ actor_role actor = admin)
    ∧ dt_owner_user_id t = dt_owner_user_id before ∧ discovery_templates d' = <[i := t]> (discovery_templates d).
Proof.
  assert (∀ before d1, _owned_template i actor d = (Ok before, d1) →
    d1 = d ∧ discovery_templates d !! i = Some before ∧ dt_active before = true
    ∧ (dt_owner_user_id before = actor_id actor ∨ actor_role actor = admin)) as Howned.
  { intros before d1 Hrun. unfold _owned_template in Hrun. rewrite bind_get_or_raise in Hrun.
    destruct (discovery_templates d !! i) as [row|]; [|done]. rewrite !bind_raise_if in Hrun.
    destruct (negb (bool_decide (dt_owner_user_id row = _)) && _) eqn:Hacc; [done|].
    destruct (dt_active row) eqn:Hactive; [|done]. injection Hrun as <- <-. split_and!; [done..|].
    apply andb_false_iff in Hacc as [Hacc|Hacc]; bools; [by left|by right]. }
  intros [Hrun|Hrun]; unfold update_template, archive_template in Hrun;
    apply bind_ok in Hrun as (before & d1 & Hown & Hrun); destruct (Howned _ _ Hown) as (-> & Hb & Hact & Hwho);
    exists before.
  - apply bind_ok in Hrun as (u & d1 & Hservice & Hrun). apply (read_only_ok _) in Hservice as ->.
    cbv zeta in Hrun. rewrite bind_gets, bind_raise_if in Hrun. destruct (bool_decide _); [done|].
    rewrite bind_modify in Hrun. injection Hrun as <- <-. by split_and!.
  - cbv zeta in Hrun. rewrite bind_modify in Hrun. injection Hrun as <- <-. by split_and!.
Qed.
End desk.

(** The length of a template's name is checked before its white space is dropped: a name of
    blanks is accepted as the empty name. *)
Lemma blank_template_name_is_accepted :
  ti_name <$> valid_template_input {|
    ti_name := "  "; ti_service_family_id := 1; ti_market_filters := JObj []; ti_prefilter_profile := "default";
    ti_testing_profile := "testing"; ti_full_profile := "full"; ti_budget_usd := 5; ti_freshness_requirements := JObj []
  |} = Some ""%string.
Proof. by vm_compute. Qed.

(** ** A batch of one full scan *)
Module DeskRun.
Definition call : PlannedApiCall := {|
  pl_planned_request_id := "req-001"; pl_provider := "dataforseo-live"; pl_endpoint := "/v3/backlinks/summary/live";
  pl_request_parameters := JObj []; pl_cache_key := "k"; pl_cache_hit := false; pl_request_known := false;
  pl_estimated_cost_usd := (20 # 1000)%Q; pl_required := true; pl_stage := "competitors" |}.

(** A planner with one plan *)
#[global] Instance one_plan : ScanPlanner unit := {|
  plan_scan _ profile _ _ _ := mret (plan_of profile 1 10 [call]);
  service_payload _ _ := Some ("gutters"%string, JObj []);
  market_payload _ _ := Some ("boise"%string, JObj [])
|}.

#[global] Instance one_plan_laws : ScanPlannerLaws unit.
Proof.
  intros mode profile service market now c plan c' [= <- _]. split_and!.
  - apply (bool_decide_eq_true_1 _). by vm_compute.
  - by exists 20.
  - by apply Qle_bool_iff.
Qed.

Definition usd_json (z : Z) : json := JInt z.
Definition plan_json (_ : ScanPlan) : json := JNull.
Definition actor : ReviewActor := {| actor_id := "ana"; actor_role := reviewer |}.

Definition opportunity : Opportunity := {|
  opp_service_family_id := 1; opp_market_id := 1; opp_status := "preliminary_review"; opp_latest_score := None;
  opp_score_version := None; opp_confidence := None; opp_missing_data_flags := []; opp_approved_at := None;
  opp_owner_user_id := None; opp_review_version := 1 |}.

Definition desk0 : Desk Z unit := {|
  desk_db := empty_db <| opportunities := {[7 := opportunity]} |>;
  discovery_templates := ∅; batch_scan_plans := ∅; batch_scan_plan_items := ∅; scan_plans := ∅; scan_columns := ∅;
  catalog := () |}.

Definition request : BatchPlanRequest := {|
  bp_name := "Boise"; bp_opportunity_ids := [7]; bp_scan_profile := "full"; bp_data_mode := live;
  bp_aggregate_budget_usd := (1 # 2)%Q; bp_template_id := None |}.
Definition approval : BatchConfirmationRequest := {|
  bc_approved_max_cost_usd := (3 # 100)%Q; bc_reason := "Worth the money." |}.

Definition planned := transaction (create_batch_plan request actor 10) desk0.
Definition confirmed := transaction (confirm_batch 1 approval actor 20) planned.2.
Definition queued := transaction (queue_batch usd_json plan_json 1 30) confirmed.2.

Lemma ran : planned.1 = Ok 1 ∧ confirmed.1 = Ok tt ∧ bq_queued_scan_ids <$> (match queued.1 with Ok r => Some r | _ => None end) = Some [1].
Proof. by vm_compute. Qed.

Lemma confirmed_reach : desk_reach usd_json plan_json desk0 confirmed.2.
Proof.
  eapply dr_step; [eapply dr_step; [apply dr_refl|]|].
  - apply (ds_create_batch _ _ request actor 10 planned.1); [by vm_compute|apply surjective_pairing].
  - apply (ds_confirm_batch _ _ 1 approval actor 20 confirmed.1); [by vm_compute|apply surjective_pairing].
Qed.

Lemma queued_reach : desk_reach usd_json plan_json desk0 queued.2.
Proof.
  eapply dr_step; [apply confirmed_reach|].
  apply (ds_queue_batch _ _ 1 30 queued.1). apply surjective_pairing.
Qed.

Lemma desk0_empty : no_batches desk0.
Proof. done. Qed.

Definition batch (d : Desk Z unit) : BatchScanPlan Z :=
  default (planned_batch request actor 0) (batch_scan_plans d !! 1).

Lemma batches_stay_within_approval_witness :
  (items_cost (_batch_items 1 queued.2) <= 3 # 100)%Q ∧ ba_status (batch queued.2) = b_queued.
Proof.
  assert (batch_scan_plans queued.2 !! 1 = Some (batch queued.2)) as Hb by by vm_compute.
  assert (ba_status (batch queued.2) ≠ b_planned) as Hst by by vm_compute.
  destruct (batches_stay_within_approval usd_json plan_json desk0 queued.2 1 _ desk0_empty queued_reach Hb Hst)
    as ((a & who & Ha & _ & Hle & _) & _).
  assert (a = 30000) as -> by (vm_compute in Ha; congruence).
  split; [|by vm_compute]. eapply Qle_trans; [exact Hle|]. by apply Qle_bool_iff.
Defined.

Lemma queueing_is_exact_witness :
  (∃ r d', queue_batch usd_json plan_json 1 30 confirmed.2 = (Ok r, d'))
  ∧ ba_status (batch confirmed.2) = b_confirmed.
Proof.
  assert (batch_scan_plans confirmed.2 !! 1 = Some (batch confirmed.2)) as Hb by by vm_compute.
  assert (ba_status (batch confirmed.2) = b_confirmed) as Hst by by vm_compute.
  split; [|done]. apply (queueing_is_exact usd_json plan_json desk0 confirmed.2 1 _ 30 desk0_empty confirmed_reach Hb).
  - intros k it Hin.
    assert (_batch_items 1 confirmed.2 = [(1, new_item 1 (7, plan_of "full" 1 10 [call]))]) as Hitems by by vm_compute.
    rewrite Hitems in Hin. apply list_elem_of_singleton in Hin. injection Hin as -> ->.
    exists (default opportunity (opportunities (desk_db confirmed.2) !! 7)). by vm_compute; split_and!; eexists.
  - split; [done|]. by vm_compute.
Defined.
End DeskRun.
