(* ===== verification/MarketPrefilter.v ===== *)
(** * MarketPrefilter: ranking markets over the public data (services/market_prefilter.py, public_data/naics.py)

    The prefilter reads the active releases of the store (PublicData), turns them with the
    census baseline of a geography into named signals, rates each signal against the
    profile of a service, and ranks the markets.

    Numbers are of class [Num], as in the scoring; an integer signal stands for the float
    of the same value.  [log1p] of the math module is an argument.  A dict whose order
    matters is an association list, another one a finite map.  Texts for the reader
    (explanation, limitations, echoed inputs) are left out. *)
From stdpp Require Import relations.
From S2P Require Import Prelude.
From S2P Require Import Binary64.
From S2P Require Import Numbers.
From S2P Require Import PublicData.
From Stdlib Require String SpecFloat QArith.
#[global] Open Scope Z_scope.

(** ** Truncation: [int(x)] of a float *)

Class Truncate (A : Type) : Type := num_trunc : A → Z.
#[export] Instance Truncate_binary64 : Truncate binary64 := λ f,
  let '(m, e) := F64Mean.exact f in if 0 <=? e then m * 2 ^ e else Z.quot m (2 ^ (- e)).
#[export] Instance Truncate_Q : Truncate QArith_base.Q := λ x,
  Z.quot (QArith_base.Qnum x) (Zpos (QArith_base.Qden x)).

(** ** public_data/naics.py *)

Inductive NAICSRelationship : Type := naics_exact | broad_parent | adjacent.
Inductive MappingConfidence : Type := mc_high | mc_medium | mc_low.
#[export] Instance NAICSRelationship_eq_dec : EqDecision NAICSRelationship.
Proof. solve_decision. Defined.
#[export] Instance MappingConfidence_eq_dec : EqDecision MappingConfidence.
Proof. solve_decision. Defined.

Record NAICSMapping : Type := {
  nm_code : string;
  nm_relationship : NAICSRelationship;
  nm_confidence : MappingConfidence;
  nm_title : string;
  nm_notes : string
}.

Definition naics_digit (a : Ascii.ascii) : bool :=
  let n := Ascii.nat_of_ascii a in ((48 <=? n) && (n <=? 57))%nat.

(** [validate_code] and [require_review_text] *)
Definition valid_mapping (m : NAICSMapping) : option NAICSMapping :=
  let code := py_strip (nm_code m) in
  title ← require_text (nm_title m);
  notes ← require_text (nm_notes m);
  if bool_decide (String.length code ∈ [2; 3; 4; 5; 6]%nat) && forallb naics_digit (String.list_ascii_of_string code)
  then Some {| nm_code := code; nm_relationship := nm_relationship m; nm_confidence := nm_confidence m;
               nm_title := title; nm_notes := notes |}
  else None.

Record ServiceNAICSMapping : Type := {
  sn_service_family_id : string;
  sn_mappings : list NAICSMapping
}.

(** [unique_codes] *)
Definition unique_codes (s : ServiceNAICSMapping) : bool :=
  bool_decide (NoDup (map nm_code (sn_mappings s))) && negb (bool_decide (sn_mappings s = [])).

Record NAICSRegistry : Type := {
  registry_version : string;
  naics_services : list ServiceNAICSMapping
}.

(** [unique_services] *)
Definition unique_services (r : NAICSRegistry) : bool :=
  bool_decide (NoDup (map sn_service_family_id (naics_services r))) && forallb unique_codes (naics_services r).

Definition for_service (r : NAICSRegistry) (service_family_id : string) : option ServiceNAICSMapping :=
  List.find (λ s, bool_decide (sn_service_family_id s = service_family_id)) (naics_services r).

(** ** Configuration *)

Inductive SignalDirection : Type := dir_higher | dir_ideal_range.
Inductive SignalTransform : Type := tr_linear | tr_log.
Inductive HouseholdSignal : Type := hs_households | hs_owner_occupied_units.
#[export] Instance SignalDirection_eq_dec : EqDecision SignalDirection.
Proof. solve_decision. Defined.

Section config.
Context (A : Type).

Record IdealRange : Type := {
  ir_minimum : A;
  ir_maximum : A;
  ir_hard_minimum : A;
  ir_hard_maximum : A
}.

Record SignalProfile : Type := {
  sp_weight : A;
  sp_source_dataset : DatasetKind;
  sp_source_measure : string;
  sp_causal_rationale : string;
  sp_expected_direction : SignalDirection;
  sp_missing_data_treatment : string;
  sp_geographic_granularity : string;
  sp_refresh_cadence : string;
  sp_transform : SignalTransform;
  sp_strong_value : option A;
  sp_ideal_range : option IdealRange;
  sp_maximum_credit : A
}.

Record Profile : Type := {
  pf_service_family_id : string;
  pf_profile_version : Z;
  pf_legacy_profile_name : string;
  pf_target_household_signal : HouseholdSignal;
  pf_minimum_evidence_coverage : A;
  pf_signals : list (string * SignalProfile)
}.

Record Thresholds : Type := {
  th_advance_to_testing : A;
  th_review : A
}.

Record Config : Type := {
  cfg_assessment_version : string;
  cfg_minimum_population : Z;
  cfg_maximum_results : Z;
  cfg_thresholds : Thresholds;
  cfg_profiles : gmap string Profile
}.
End config.
Arguments ir_minimum {A}. Arguments ir_maximum {A}. Arguments ir_hard_minimum {A}.
Arguments ir_hard_maximum {A}.
Arguments sp_weight {A}. Arguments sp_source_dataset {A}. Arguments sp_source_measure {A}.
Arguments sp_causal_rationale {A}. Arguments sp_expected_direction {A}.
Arguments sp_missing_data_treatment {A}. Arguments sp_geographic_granularity {A}.
Arguments sp_refresh_cadence {A}. Arguments sp_transform {A}. Arguments sp_strong_value {A}.
Arguments sp_ideal_range {A}. Arguments sp_maximum_credit {A}.
Arguments pf_service_family_id {A}. Arguments pf_profile_version {A}.
Arguments pf_legacy_profile_name {A}. Arguments pf_target_household_signal {A}.
Arguments pf_minimum_evidence_coverage {A}. Arguments pf_signals {A}.
Arguments th_advance_to_testing {A}. Arguments th_review {A}.
Arguments cfg_assessment_version {A}. Arguments cfg_minimum_population {A}.
Arguments cfg_maximum_results {A}. Arguments cfg_thresholds {A}. Arguments cfg_profiles {A}.

Definition GENERIC_SERVICE : string := "generic_local_service".

Section validators.
Context {A : Type} `{Num A}.

Definition le_all (l : list A) : bool :=
  forallb (λ xy, (xy.1 <=? xy.2)%num) (zip l (tail l)).

(** [IdealRange.validate_order], with [ge=0] *)
Definition valid_ideal_range (r : IdealRange A) : bool :=
  le_all [0%num; ir_hard_minimum r; ir_minimum r; ir_maximum r; ir_hard_maximum r].

(** [0 < x <= 1] *)
Definition is_share (x : A) : bool := (0 <? x)%num && (x <=? 1)%num.

(** The fields and [validate_normalization] *)
Definition valid_signal_profile (p : SignalProfile A) : bool :=
  is_share (sp_weight p) && is_share (sp_maximum_credit p)
  && match sp_strong_value p with Some s => (0 <? s)%num | None => true end
  && match sp_ideal_range p with Some r => valid_ideal_range r | None => true end
  && match sp_expected_direction p with
     | dir_higher => bool_decide (is_Some (sp_strong_value p)) && negb (bool_decide (is_Some (sp_ideal_range p)))
     | dir_ideal_range => bool_decide (is_Some (sp_ideal_range p)) && negb (bool_decide (is_Some (sp_strong_value p)))
     end
  && forallb (λ s, str_truthy (py_strip s))
       [sp_source_measure p; sp_causal_rationale p; sp_missing_data_treatment p;
        sp_geographic_granularity p; sp_refresh_cadence p].

(** [math.isclose(a, b, abs_tol=tol)], whose relative tolerance is [1e-9] *)
Definition isclose (a b tol : A) : bool :=
  (num_abs (a - b) <=? py_max (num_ratio 1 1000000000 * py_max (num_abs a) (num_abs b)) tol)%num.

(** [validate_weights] *)
Definition valid_profile (p : Profile A) : bool :=
  (1 <=? pf_profile_version p) && (0 <=? pf_minimum_evidence_coverage p)%num
  && (pf_minimum_evidence_coverage p <=? 1)%num
  && forallb (λ ns, valid_signal_profile ns.2) (pf_signals p)
  && isclose (num_sum (map (λ ns, sp_weight ns.2) (pf_signals p))) 1%num (num_ratio 1 10000).

(** [RecommendationThresholds.validate_order] *)
Definition valid_thresholds (t : Thresholds A) : bool :=
  le_all [0%num; th_review t; num_ratio 100 1] && le_all [0%num; th_advance_to_testing t; num_ratio 100 1]
  && negb (th_advance_to_testing t <=? th_review t)%num.

(** [validate_profiles] *)
Definition valid_config (c : Config A) : bool :=
  (1 <=? cfg_minimum_population c) && (1 <=? cfg_maximum_results c) && (cfg_maximum_results c <=? 10000)
  && valid_thresholds (cfg_thresholds c)
  && bool_decide (is_Some (cfg_profiles c !! GENERIC_SERVICE))
  && forallb (λ kp, bool_decide (kp.1 = pf_service_family_id kp.2) && valid_profile kp.2)
       (map_to_list (cfg_profiles c)).
End validators.

(** ** Evidence *)

(** [USGeographyRecord], the fields the prefilter reads *)
Record USGeographyRecord (A : Type) : Type := {
  ug_id : string;
  ug_is_zip : bool;
  ug_city : string;
  ug_state : string;
  ug_postal_code : option string;
  ug_county_fips : string;
  ug_population : Z;
  ug_households : option Z;
  ug_housing_units : option Z;
  ug_owner_occupied_units : option Z;
  ug_median_year_built : option Z;
  ug_public_data_year : Z;
  ug_land_area_sq_km : A;
  ug_dataset_version : string
}.
Arguments ug_id {A}. Arguments ug_is_zip {A}. Arguments ug_city {A}. Arguments ug_state {A}.
Arguments ug_postal_code {A}. Arguments ug_county_fips {A}. Arguments ug_population {A}.
Arguments ug_households {A}. Arguments ug_housing_units {A}. Arguments ug_owner_occupied_units {A}.
Arguments ug_median_year_built {A}. Arguments ug_public_data_year {A}.
Arguments ug_land_area_sq_km {A}. Arguments ug_dataset_version {A}.

(** Where a signal comes from. *)
Record Provenance : Type := {
  pv_source_version : option string;
  pv_data_year : option Z;
  pv_release_date : option Z
}.
Definition no_provenance : Provenance :=
  {| pv_source_version := None; pv_data_year := None; pv_release_date := None |}.

Inductive Level : Type := lv_insufficient | lv_low | lv_medium | lv_high.
Inductive Band : Type := bd_unknown | bd_ideal | bd_undersupplied | bd_oversupplied.
Inductive Recommendation : Type := insufficient_evidence | advance_to_testing | rec_review | rec_defer.
#[export] Instance Level_eq_dec : EqDecision Level.
Proof. solve_decision. Defined.

Section records.
Context (A : Type).

Record SignalEvidence : Type := {
  se_signal : string;
  se_raw_value : option A;
  se_normalized_value : option A;
  se_configured_weight : A;
  se_points : A;
  se_available : bool;
  se_source_dataset : DatasetKind;
  se_source : Provenance
}.

Record ProviderDensity : Type := {
  pd_target_households : option Z;
  pd_employer_raw : option A;
  pd_nonemployer_raw : option A;
  pd_employer_weighted : option A;
  pd_nonemployer_weighted : option A;
  pd_employer_per_10000 : option A;
  pd_nonemployer_per_10000 : option A;
  pd_combined_supply_density : option A;
  pd_supply_band : Band;
  pd_data_confidence : Level;
  pd_used_codes : gset string
}.

(** [AddressableMarketAssessment]; of the location the fields ranking reads. *)
Record Assessment : Type := {
  as_assessment_version : string;
  as_service_family_id : string;
  as_profile_version : Z;
  as_geography_id : string;
  as_population : Z;
  as_label : string;
  as_score : option A;
  as_score_available : bool;
  as_rank : option Z;
  as_recommendation : Recommendation;
  as_confidence : Level;
  as_evidence_coverage : A;
  as_component_scores : list (string * A);
  as_evidence : list SignalEvidence;
  as_provider_density : ProviderDensity;
  as_missing_signals : list string;
  as_dataset_versions : gmap DatasetKind string;
  as_data_age_warnings : list (DatasetKind * string * Z)
}.

Record Batch : Type := {
  bt_candidate_count : nat;
  bt_scored_count : nat;
  bt_returned_count : nat;
  bt_assessments : list Assessment
}.
End records.
Arguments se_signal {A}. Arguments se_raw_value {A}. Arguments se_normalized_value {A}.
Arguments se_configured_weight {A}. Arguments se_points {A}. Arguments se_available {A}.
Arguments se_source_dataset {A}. Arguments se_source {A}.
Arguments pd_target_households {A}. Arguments pd_employer_raw {A}. Arguments pd_nonemployer_raw {A}.
Arguments pd_employer_weighted {A}. Arguments pd_nonemployer_weighted {A}.
Arguments pd_employer_per_10000 {A}. Arguments pd_nonemployer_per_10000 {A}.
Arguments pd_combined_supply_density {A}. Arguments pd_supply_band {A}.
Arguments pd_data_confidence {A}. Arguments pd_used_codes {A}.
Arguments as_assessment_version {A}. Arguments as_service_family_id {A}. Arguments as_profile_version {A}.
Arguments as_geography_id {A}. Arguments as_population {A}. Arguments as_label {A}.
Arguments as_score {A}. Arguments as_score_available {A}. Arguments as_rank {A}.
Arguments as_recommendation {A}. Arguments as_confidence {A}. Arguments as_evidence_coverage {A}.
Arguments as_component_scores {A}. Arguments as_evidence {A}. Arguments as_provider_density {A}.
Arguments as_missing_signals {A}. Arguments as_dataset_versions {A}. Arguments as_data_age_warnings {A}.
Arguments bt_candidate_count {A}. Arguments bt_scored_count {A}. Arguments bt_returned_count {A}.
Arguments bt_assessments {A}.

#[export] Instance eta_Assessment {A} : Eta (Assessment A) := λ a,
  Build_Assessment A (as_assessment_version a) (as_service_family_id a) (as_profile_version a)
    (as_geography_id a) (as_population a) (as_label a) (as_score a) (as_score_available a) (as_rank a)
    (as_recommendation a) (as_confidence a) (as_evidence_coverage a) (as_component_scores a)
    (as_evidence a) (as_provider_density a) (as_missing_signals a) (as_dataset_versions a)
    (as_data_age_warnings a).

Section prefilter.
Context {A : Type} `{Num A} `{Truncate A} (log1p : A → A).

(** ** Rating one signal *)

Definition _normalize_signal (value : A) (p : SignalProfile A) : A :=
  let safe_value := py_max 0%num value in
  match sp_expected_direction p with
  | dir_ideal_range =>
      match sp_ideal_range p with
      | None => 0%num
      | Some b =>
          if (ir_minimum b <=? safe_value)%num && (safe_value <=? ir_maximum b)%num then 1%num
          else if (safe_value <? ir_minimum b)%num then
            let span := (ir_minimum b - ir_hard_minimum b)%num in
            if (0 <? span)%num then py_max 0%num ((safe_value - ir_hard_minimum b) / span)%num else 0%num
          else
            let span := (ir_hard_maximum b - ir_maximum b)%num in
            if (0 <? span)%num then py_max 0%num ((ir_hard_maximum b - safe_value) / span)%num else 0%num
      end
  | dir_higher =>
      let strong_value :=
        match sp_strong_value p with
        | Some s => if num_truthy s then s else 1%num
        | None => 1%num
        end in
      match sp_transform p with
      | tr_log => py_min 1%num (log1p safe_value / log1p strong_value)%num
      | tr_linear => py_min 1%num (safe_value / strong_value)%num
      end
  end.

Definition signal_points (normalized : A) (p : SignalProfile A) : A :=
  num_round 2 (normalized * sp_maximum_credit p * sp_weight p * num_ratio 100 1)%num.

Definition _signal_evidence (name : string) (p : SignalProfile A) (value normalized : option A)
    (points : A) (source : option Provenance) : SignalEvidence A :=
  {| se_signal := name; se_raw_value := value; se_normalized_value := num_round 4 <$> normalized;
     se_configured_weight := sp_weight p; se_points := points;
     se_available := bool_decide (is_Some value); se_source_dataset := sp_source_dataset p;
     se_source := default no_provenance source |}.

(** The evidence of one signal of the profile *)
Definition rate_signal (signals : gmap string (option A)) (provenance : gmap string Provenance)
    (ns : string * SignalProfile A) : SignalEvidence A :=
  let '(name, p) := ns in
  match (signals !! name ≫= id) with
  | None => _signal_evidence name p None None 0%num (provenance !! name)
  | Some value =>
      let normalized := _normalize_signal value p in
      _signal_evidence name p (Some value) (Some normalized) (signal_points normalized p) (provenance !! name)
  end.

(** ** Provider supply *)

Definition RELATIONSHIP_WEIGHTS (r : NAICSRelationship) : A :=
  match r with naics_exact => 1%num | broad_parent => num_ratio 55 100 | adjacent => num_ratio 25 100 end.
Definition CONFIDENCE_WEIGHTS (c : MappingConfidence) : A :=
  match c with mc_high => 1%num | mc_medium => num_ratio 75 100 | mc_low => num_ratio 5 10 end.
Definition evidence_weight (m : NAICSMapping) : A :=
  (RELATIONSHIP_WEIGHTS (nm_relationship m) * CONFIDENCE_WEIGHTS (nm_confidence m))%num.

(** [{mapping.code: mapping for mapping in mappings}] *)
Definition mapping_by_code (mappings : list NAICSMapping) : gmap string NAICSMapping :=
  foldl (λ acc m, <[nm_code m := m]> acc) ∅ mappings.

Record Aggregate : Type := {
  ag_raw : A;
  ag_weighted : A;
  ag_matched : bool;
  ag_used : gset string
}.

Definition count_record (mappings : gmap string NAICSMapping) (measure : string) (acc : Aggregate)
    (r : DatasetRecord A) : Aggregate :=
  match mappings !! default ""%string (dr_dimensions r !! "naics_code"), dr_values r !! measure ≫= id with
  | Some m, Some value =>
      {| ag_raw := (ag_raw acc + value)%num;
         ag_weighted := (ag_weighted acc + value * evidence_weight m)%num;
         ag_matched := true;
         ag_used := {[nm_code m]} ∪ ag_used acc |}
  | _, _ => acc
  end.

Definition _aggregate_industry_records (records : list (DatasetRecord A))
    (mappings : gmap string NAICSMapping) (measure : string) : option A * option A * gset string :=
  let t := foldl (count_record mappings measure)
    {| ag_raw := 0%num; ag_weighted := 0%num; ag_matched := false; ag_used := ∅ |} records in
  if ag_matched t then (Some (num_round 3 (ag_raw t)), Some (num_round 3 (ag_weighted t)), ag_used t)
  else (None, None, ag_used t).

Definition _density (value : option A) (households : option Z) : option A :=
  match value, households with
  | Some v, Some h =>
      if h <=? 0 then None else Some (num_round 3 (v * num_ratio 10000 1 / num_Z h)%num)
  | _, _ => None
  end.

Definition _supply_band (value : option A) (r : option (IdealRange A)) : Band :=
  match value, r with
  | Some v, Some r =>
      if (ir_minimum r <=? v)%num && (v <=? ir_maximum r)%num then bd_ideal
      else if (v <? ir_minimum r)%num then bd_undersupplied else bd_oversupplied
  | _, _ => bd_unknown
  end.

Definition household_signal (s : HouseholdSignal) : string :=
  match s with hs_households => "households" | hs_owner_occupied_units => "owner_occupied_units" end.

Definition assoc_get {T} (l : list (string * T)) (k : string) : option T :=
  snd <$> List.find (λ kx, bool_decide (kx.1 = k)) l.

Definition data_confidence (combined cbp_weighted nes_weighted : option A) (used : list NAICSMapping) : Level :=
  match combined with
  | None => lv_insufficient
  | Some _ =>
      if negb (bool_decide (used = []))
         && forallb (λ m, bool_decide (nm_confidence m = mc_high)) used
         && forallb (λ m, bool_decide (nm_relationship m = naics_exact)) used
         && bool_decide (is_Some cbp_weighted) && bool_decide (is_Some nes_weighted) then lv_high
      else if forallb (λ m, negb (bool_decide (nm_confidence m = mc_low))) used then lv_medium
      else lv_low
  end.

Definition snapshot_records (sn : PublicDataSnapshot (A := A)) (k : DatasetKind) : list (DatasetRecord A) :=
  default [] (sn_records sn !! k).

Definition _provider_density (sn : PublicDataSnapshot (A := A)) (p : Profile A)
    (signals : gmap string (option A)) (service_mapping : option ServiceNAICSMapping) : ProviderDensity A :=
  let target_households :=
    match signals !! household_signal (pf_target_household_signal p) ≫= id with
    | Some v => if (0 <? v)%num then Some (num_trunc v) else None
    | None => None
    end in
  let by_code := mapping_by_code (match service_mapping with Some s => sn_mappings s | None => [] end) in
  let '(cbp_raw, cbp_weighted, cbp_used) :=
    _aggregate_industry_records (snapshot_records sn cbp) by_code "establishments" in
  let '(nes_raw, nes_weighted, nes_used) :=
    _aggregate_industry_records (snapshot_records sn nes) by_code "nonemployer_businesses" in
  let employer_density := _density cbp_weighted target_households in
  let nonemployer_density := _density nes_weighted target_households in
  let available := omap id [employer_density; nonemployer_density] in
  let combined := match available with [] => None | _ => Some (num_round 3 (num_sum available)) end in
  let used := cbp_used ∪ nes_used in
  {| pd_target_households := target_households;
     pd_employer_raw := cbp_raw; pd_nonemployer_raw := nes_raw;
     pd_employer_weighted := cbp_weighted; pd_nonemployer_weighted := nes_weighted;
     pd_employer_per_10000 := employer_density; pd_nonemployer_per_10000 := nonemployer_density;
     pd_combined_supply_density := combined;
     pd_supply_band := _supply_band combined
       (sp ← assoc_get (pf_signals p) "combined_supply_density"; sp_ideal_range sp);
     pd_data_confidence := data_confidence combined cbp_weighted nes_weighted
       (omap (λ code, by_code !! code) (elements used));
     pd_used_codes := used |}.

(** ** Signals of a market *)

(** Reading a key that is absent or null *)
Definition sget (signals : gmap string (option A)) (k : string) : option A := signals !! k ≫= id.

(** The census baseline that comes with the geography *)
Definition embedded_signals (r : USGeographyRecord A) : gmap string (option A) :=
  let homeownership_rate :=
    match ug_owner_occupied_units r, ug_households r with
    | Some o, Some h => if 0 <? h then Some (num_ratio o h) else None
    | _, _ => None
    end in
  let housing_age :=
    (λ y, num_Z (Z.max 0 (ug_public_data_year r - y))) <$> ug_median_year_built r in
  let household_density :=
    match ug_households r with
    | Some h => if (0 <? ug_land_area_sq_km r)%num then Some (num_Z h / ug_land_area_sq_km r)%num else None
    | None => None
    end in
  list_to_map [
    ("population", Some (num_Z (ug_population r)));
    ("households", num_Z <$> ug_households r);
    ("housing_units", num_Z <$> ug_housing_units r);
    ("owner_occupied_units", num_Z <$> ug_owner_occupied_units r);
    ("homeownership_rate", homeownership_rate);
    ("housing_age", housing_age);
    ("median_year_built", num_Z <$> ug_median_year_built r);
    ("household_density", household_density);
    ("detached_housing_share", None);
    ("median_household_income", None);
    ("purchasing_power", None);
    ("storm_exposure", None);
    ("hazard_exposure", None)]%string.

Definition embedded_provenance (r : USGeographyRecord A) : gmap string Provenance :=
  let source := {| pv_source_version := Some (ug_dataset_version r);
                   pv_data_year := Some (ug_public_data_year r); pv_release_date := None |} in
  list_to_map (map (λ k, (k, source))
    ["population"; "households"; "housing_units"; "owner_occupied_units"; "homeownership_rate";
     "housing_age"; "median_year_built"; "household_density"]%string).

Definition _manifest_provenance (m : option DatasetManifest) : Provenance :=
  match m with
  | None => no_provenance
  | Some m => {| pv_source_version := Some (rl_version (dm_release m));
                 pv_data_year := Some (rl_data_year (dm_release m));
                 pv_release_date := Some (rl_release_date (dm_release m)) |}
  end.

Abbreviation Signals := (gmap string (option A) * gmap string Provenance)%type.

(** The measures of one record, each under its name: a null replaces a number, too. *)
Definition overlay_record (m : option DatasetManifest) (acc : Signals) (r : DatasetRecord A) : Signals :=
  (dr_values r ∪ acc.1, ((λ _, _manifest_provenance m) <$> dr_values r) ∪ acc.2).

Definition overlay (sn : PublicDataSnapshot (A := A)) (acc : Signals) : Signals :=
  foldl (λ acc k, foldl (overlay_record (sn_manifests sn !! k)) acc (snapshot_records sn k)) acc
    [acs; noaa; fema].

(** [if signals.get(k) is None: signals[k] = v] for a value that may stay null *)
Definition fill (k : string) (v : option A) (signals : gmap string (option A)) : gmap string (option A) :=
  match sget signals k with Some _ => signals | None => match v with Some _ => <[k := v]> signals | None => signals end end.

(** The signals derived from others when no dataset gives them *)
Definition derive_signals (r : USGeographyRecord A) (acc : Signals) : Signals :=
  let '(s0, provenance) := acc in
  let s1 := fill "homeownership_rate"
    (h ← sget s0 "households"; o ← sget s0 "owner_occupied_units";
     if num_truthy h then Some (o / h)%num else None) s0 in
  let s2 := fill "housing_age"
    ((λ y, num_Z (Z.max 0 (ug_public_data_year r - num_trunc y))) <$> sget s1 "median_year_built") s1 in
  let s3 := fill "household_density"
    (h ← sget s2 "households";
     if (0 <? ug_land_area_sq_km r)%num then Some (h / ug_land_area_sq_km r)%num else None) s2 in
  match sget s3 "purchasing_power" with
  | Some _ => (s3, provenance)
  | None =>
      (fill "purchasing_power" (sget s3 "median_household_income") s3,
       match provenance !! "median_household_income"%string with
       | Some pv => <["purchasing_power"%string := pv]> provenance
       | None => provenance
       end)
  end.

Definition _market_signals (r : USGeographyRecord A) (sn : PublicDataSnapshot (A := A)) : Signals :=
  derive_signals r (overlay sn (embedded_signals r, embedded_provenance r)).

Definition joined_versions (manifests : list DatasetManifest) : option string :=
  match manifests with
  | [] => None
  | _ => Some (String.concat "+" (map (λ m,
      ((match rl_dataset (dm_release m) with
        | acs => "acs" | cbp => "cbp" | nes => "nes" | noaa => "noaa" | fema => "fema" end)
       +:+ ":" +:+ rl_version (dm_release m))%string) manifests))
  end.

Definition _supply_provenance (sn : PublicDataSnapshot (A := A)) : Provenance :=
  let manifests := omap (λ k, sn_manifests sn !! k) [cbp; nes] in
  {| pv_source_version := joined_versions manifests;
     pv_data_year :=
       match map (λ m, rl_data_year (dm_release m)) manifests with
       | [] => None | y :: ys => Some (foldl Z.min y ys) end;
     pv_release_date :=
       match map (λ m, rl_release_date (dm_release m)) manifests with
       | [] => None | d :: ds => Some (foldl Z.max d ds) end |}.

Definition SUPPLY_SIGNALS : list string :=
  ["employer_establishments_per_10000"; "nonemployer_businesses_per_10000"; "combined_supply_density"]%string.

(** The signals of a market with those of the provider supply *)
Definition all_signals (sn : PublicDataSnapshot (A := A)) (density : ProviderDensity A) (acc : Signals) : Signals :=
  (list_to_map [("employer_establishments_per_10000", pd_employer_per_10000 density);
                ("nonemployer_businesses_per_10000", pd_nonemployer_per_10000 density);
                ("combined_supply_density", pd_combined_supply_density density)]%string ∪ acc.1,
   list_to_map (map (λ k, (k, _supply_provenance sn)) SUPPLY_SIGNALS) ∪ acc.2).

(** ** Assessing a market *)

Definition _assessment_confidence (coverage : A) (warned : bool) (provider_confidence : Level) : Level :=
  if (coverage <? num_ratio 5 10)%num then lv_insufficient
  else if (num_ratio 9 10 <=? coverage)%num && negb warned
          && bool_decide (provider_confidence ∈ [lv_high; lv_medium]) then lv_high
  else if (num_ratio 65 100 <=? coverage)%num && negb warned then lv_medium
  else lv_low.

Definition recommend (t : Thresholds A) (score : option A) : Recommendation :=
  match score with
  | None => insufficient_evidence
  | Some s =>
      if (th_advance_to_testing t <=? s)%num then advance_to_testing
      else if (th_review t <=? s)%num then rec_review else rec_defer
  end.

(** The coverage and the score of a list of rated signals *)
Definition coverage_of (evidence : list (SignalEvidence A)) : A :=
  num_round 4 (foldl num_add 0%num (map se_configured_weight (List.filter se_available evidence))).
Definition score_of (minimum : A) (evidence : list (SignalEvidence A)) : option A :=
  if (minimum <=? coverage_of evidence)%num then Some (num_round 2 (num_sum (map se_points evidence))) else None.

Definition label_of (r : USGeographyRecord A) : string :=
  (if ug_is_zip r
   then "ZIP " +:+ default "None" (ug_postal_code r) +:+ " - " +:+ ug_city r +:+ ", " +:+ ug_state r +:+ ", US"
   else ug_city r +:+ ", " +:+ ug_state r +:+ ", US")%string.

Definition _profile_for_service (c : Config A) (service_id : string) : option (string * Profile A) :=
  match cfg_profiles c !! service_id with
  | Some p => Some (service_id, p)
  | None => p ← cfg_profiles c !! GENERIC_SERVICE; Some (GENERIC_SERVICE, p)
  end.

(** What the prefilter is built with *)
Record Prefilter : Type := {
  pre_config : Config A;
  pre_naics : NAICSRegistry;
  pre_warning_age_days : gmap DatasetKind Z
}.

(** The assessment of a market over a snapshot of the public data *)
Definition assess_over (c : Config A) (registry : NAICSRegistry) (profile_id : string) (p : Profile A)
    (r : USGeographyRecord A) (sn : PublicDataSnapshot (A := A)) : Assessment A :=
  let acc := _market_signals r sn in
  let density := _provider_density sn p acc.1 (for_service registry profile_id) in
  let '(signals, provenance) := all_signals sn density acc in
  let evidence := map (rate_signal signals provenance) (pf_signals p) in
  let coverage := coverage_of evidence in
  let score := score_of (pf_minimum_evidence_coverage p) evidence in
  {| as_assessment_version := cfg_assessment_version c;
     as_service_family_id := profile_id;
     as_profile_version := pf_profile_version p;
     as_geography_id := ug_id r;
     as_population := ug_population r;
     as_label := label_of r;
     as_score := score;
     as_score_available := (pf_minimum_evidence_coverage p <=? coverage)%num;
     as_rank := None;
     as_recommendation := recommend (cfg_thresholds c) score;
     as_confidence := _assessment_confidence coverage (negb (bool_decide (sn_warnings sn = [])))
       (pd_data_confidence density);
     as_evidence_coverage := coverage;
     as_component_scores := map (λ e, (se_signal e, se_points e)) evidence;
     as_evidence := evidence;
     as_provider_density := density;
     as_missing_signals := map se_signal (List.filter (λ e, negb (se_available e)) evidence);
     as_dataset_versions :=
       let versions := (λ m, rl_version (dm_release m)) <$> sn_manifests sn in
       match versions !! acs with Some _ => versions | None => <[acs := ug_dataset_version r]> versions end;
     as_data_age_warnings := sn_warnings sn |}.

(** The bounds pydantic puts on the fields of an assessment *)
Definition valid_assessment (a : Assessment A) : bool :=
  match as_score a with
  | Some s => (0 <=? s)%num && (s <=? num_ratio 100 1)%num
  | None => true
  end
  && (0 <=? as_evidence_coverage a)%num && (as_evidence_coverage a <=? 1)%num.

Inductive prefilter_error : Type :=
| StoreError (e : store_error)
| ValidationError
| NoProfile.

Context `{!Measurement A} (sha256_of_lines : list string → string) (parse_record : string → option (DatasetRecord A)).
Abbreviation Reader T := (M Disk prefilter_error T).

Definition assess_record (pre : Prefilter) (service_id : string) (today now : Z) (r : USGeographyRecord A)
    : Reader (Assessment A) :=
  get_or_raise (λ _ : Disk, _profile_for_service (pre_config pre) service_id) NoProfile ≫= λ '(profile_id, p),
  reraise StoreError (snapshot sha256_of_lines parse_record (ug_id r) (Some (ug_county_fips r))
    (pre_warning_age_days pre) today now) ≫= λ sn,
  let a := assess_over (pre_config pre) (pre_naics pre) profile_id p r sn in
  raise_if (negb (valid_assessment a)) ValidationError ≫= λ _, mret a.

(** ** Ranking *)

(** [_assessment_sort_key] compared as Python compares tuples: by the first fields that
    differ. *)
Definition score_key (a : Assessment A) : A :=
  match as_score a with Some s => s | None => num_Z (-1) end.

Definition key_leb (a b : Assessment A) : bool :=
  if negb (score_key a =? score_key b)%num then (score_key a <? score_key b)%num
  else if negb (as_evidence_coverage a =? as_evidence_coverage b)%num
  then (as_evidence_coverage a <? as_evidence_coverage b)%num
  else if negb (as_population a =? as_population b) then as_population a <? as_population b
  else String.leb (as_label a) (as_label b).

(** [assessments.sort(key=..., reverse=True)]: descending, equal keys in their order *)
Definition ranked (l : list (Assessment A)) : list (Assessment A) := sort_by (λ a b, key_leb b a) l.

Definition bounded_limit (limit : option Z) (maximum : Z) : nat :=
  Z.to_nat (Z.max 1 (Z.min (default maximum limit) maximum)).

Definition with_rank (i : nat) (a : Assessment A) : Assessment A := a <| as_rank := Some (Z.of_nat i + 1) |>.

Definition batch_of (limit : option Z) (maximum : Z) (assessments : list (Assessment A)) : Batch A :=
  let selected := imap with_rank (take (bounded_limit limit maximum) (ranked assessments)) in
  {| bt_candidate_count := length assessments;
     bt_scored_count := length (List.filter as_score_available assessments);
     bt_returned_count := length selected;
     bt_assessments := selected |}.

Definition collect_all {T U} (f : T → Reader U) : list T → Reader (list U) :=
  fix go l :=
    match l with
    | [] => mret []
    | x :: l' => f x ≫= λ y, go l' ≫= λ ys, mret (y :: ys)
    end.

Definition assess_batch (pre : Prefilter) (service_id : string) (limit : option Z) (today now : Z)
    (records : list (USGeographyRecord A)) : Reader (Batch A) :=
  collect_all (assess_record pre service_id today now) records ≫= λ assessments,
  mret (batch_of limit (cfg_maximum_results (pre_config pre)) assessments).

(** [rank_markets] over the query of the geography index *)
Definition rank_markets (pre : Prefilter) (list_markets : Z → list (USGeographyRecord A))
    (service_id : string) (limit : Z) (minimum_population : option Z) (today now : Z)
    : Reader (list (Assessment A) * nat) :=
  let minimum := Z.max 1 (default (cfg_minimum_population (pre_config pre)) minimum_population) in
  assess_batch pre service_id (Some limit) today now (list_markets minimum) ≫= λ batch,
  mret (bt_assessments batch, bt_candidate_count batch).

(** [assess_geography_ids]: an identifier the index does not know is skipped. *)
Definition assess_geography_ids (pre : Prefilter) (index_get : string → option (USGeographyRecord A))
    (service_id : string) (geography_ids : list string) (limit : option Z) (today now : Z) : Reader (Batch A) :=
  assess_batch pre service_id limit today now (omap index_get geography_ids).
End prefilter.
