(* ===== verification/MarketPrefilterProofs.v ===== *)
(** * MarketPrefilterProofs: ratings, sums and order of the prefilter over the rationals *)
From stdpp Require Import relations.
From S2P Require Import Prelude.
From S2P Require Import Binary64.
From S2P Require Import Numbers.
From S2P Require Import PublicData.
From S2P Require Import MarketPrefilter.
From Stdlib Require String.
From Stdlib Require Import QArith Qabs Lqa.
#[global] Open Scope Z_scope.
Open Scope Q_scope.

(** What the prefilter relies on of [math.log1p]: positive after zero, and increasing. *)
Class Log1pLaws (log1p : Q → Q) : Prop := {
  log1p_nonneg : 0 <= log1p 0;
  log1p_pos x : 0 < x → 0 < log1p x;
  log1p_mono x y : 0 <= x → x <= y → log1p x <= log1p y
}.

(** The comparisons of a hypothesis, as inequalities. *)
Ltac q_bools :=
  repeat match goal with
  | H : (_ && _) = true |- _ => apply andb_true_iff in H as [? ?]
  | H : Q_ltb ?a ?b = true |- _ => destruct (Q_ltb_spec a b); [clear H|done]
  | H : Q_ltb ?a ?b = false |- _ => destruct (Q_ltb_spec a b); [done|clear H]
  | H : Qle_bool _ _ = true |- _ => apply Qle_bool_iff in H
  end.

Section rating.
Context (log1p : Q → Q) `{!Log1pLaws log1p}.
Implicit Types (p : SignalProfile Q) (b : IdealRange Q).

Lemma ideal_range_order b :
  valid_ideal_range b = true →
  0 <= ir_hard_minimum b ∧ ir_hard_minimum b <= ir_minimum b
  ∧ ir_minimum b <= ir_maximum b ∧ ir_maximum b <= ir_hard_maximum b.
Proof.
  unfold valid_ideal_range, le_all. simpl. unfold_num. intros Hv. q_bools. tauto.
Qed.

Lemma share_range (x : Q) : is_share x = true → 0 < x ∧ x <= 1.
Proof. unfold is_share. unfold_num. intros Hv. q_bools. done. Qed.

(** What the validator says of a profile of a signal. *)
Record ValidSignal p : Prop := {
  vs_weight : 0 < sp_weight p ∧ sp_weight p <= 1;
  vs_credit : 0 < sp_maximum_credit p ∧ sp_maximum_credit p <= 1;
  vs_higher : sp_expected_direction p = dir_higher → ∃ s, sp_strong_value p = Some s ∧ 0 < s;
  vs_ideal : sp_expected_direction p = dir_ideal_range → ∃ b, sp_ideal_range p = Some b
    ∧ valid_ideal_range b = true
}.

Lemma valid_signal_spec p : valid_signal_profile p = true → ValidSignal p.
Proof.
  unfold valid_signal_profile. intros Hv. do 5 (apply andb_true_iff in Hv as [Hv ?]).
  split; [by apply share_range| by apply share_range| |].
  - intros Hd. rewrite Hd in *. destruct (sp_strong_value p) as [s|]; [|done]. exists s. split; [done|].
    match goal with H : (0 <? s)%num = true |- _ => unfold_num; q_bools; done end.
  - intros Hd. rewrite Hd in *. destruct (sp_ideal_range p) as [b|]; [|done]. by exists b.
Qed.

Lemma Qdiv_le_1 a c : 0 < c → a <= c → a / c <= 1.
Proof. intros Hc Ha. apply Qle_shift_div_r; [done|lra]. Qed.

Lemma Qdiv_nonneg a c : 0 < c → 0 <= a → 0 <= a / c.
Proof. intros Hc Ha. apply Qle_shift_div_l; [done|lra]. Qed.

Lemma Qdiv_mono a a' c : 0 < c → a <= a' → a / c <= a' / c.
Proof. intros Hc Ha. apply Qmult_le_compat_r; [done|]. apply Qlt_le_weak, Qinv_lt_0_compat, Hc. Qed.

Lemma py_max_0 (x : Q) : 0 <= py_max (0%num : Q) x.
Proof. unfold py_max. unfold_num. q_cases; lra. Qed.

(** A rating lies between 0 and 1. *)
Lemma normalize_range v p : ValidSignal p → 0 <= _normalize_signal log1p v p <= 1.
Proof.
  intros Hp. unfold _normalize_signal. set (s := py_max 0%num v).
  assert (0 <= s) as Hs by apply py_max_0. clearbody s.
  destruct (sp_expected_direction p) eqn:Hd.
  - destruct (vs_higher p Hp Hd) as (st & -> & Hst).
    assert (num_truthy st = true) as ->.
    { unfold num_truthy. unfold_num. apply negb_true_iff. destruct (Qeq_bool st (0 # 1)) eqn:E; [|done].
      apply Qeq_bool_iff in E. lra. }
    pose proof log1p_nonneg. pose proof (log1p_mono 0 s ltac:(lra) Hs). pose proof (log1p_pos st Hst).
    destruct (sp_transform p).
    + pose proof (Qdiv_nonneg s st Hst Hs). unfold py_min. unfold_num. q_cases; lra.
    + pose proof (Qdiv_nonneg (log1p s) (log1p st) ltac:(lra) ltac:(lra)). unfold py_min. unfold_num. q_cases; lra.
  - destruct (vs_ideal p Hp Hd) as (b & -> & (H0 & H1 & H2 & H3)%ideal_range_order).
    unfold_num. destruct (Qle_bool_spec (ir_minimum b) s); simpl.
    + destruct (Qle_bool_spec s (ir_maximum b)); [lra|].
      destruct (Q_ltb_spec s (ir_minimum b)); [lra|].
      destruct (Q_ltb_spec (0 # 1) (ir_hard_maximum b - ir_maximum b)); [|lra].
      pose proof (Qdiv_le_1 (ir_hard_maximum b - s) (ir_hard_maximum b - ir_maximum b) ltac:(lra) ltac:(lra)).
      unfold py_max. unfold_num. q_cases; lra.
    + destruct (Q_ltb_spec s (ir_minimum b)); [|lra].
      destruct (Q_ltb_spec (0 # 1) (ir_minimum b - ir_hard_minimum b)); [|lra].
      pose proof (Qdiv_le_1 (s - ir_hard_minimum b) (ir_minimum b - ir_hard_minimum b) ltac:(lra) ltac:(lra)).
      unfold py_max. unfold_num. q_cases; lra.
Qed.

(** More of a signal of which more is better is never rated lower. *)
Lemma normalize_mono v v' p :
  ValidSignal p → sp_expected_direction p = dir_higher → v <= v' →
  _normalize_signal log1p v p <= _normalize_signal log1p v' p.
Proof.
  intros Hp Hd Hv. unfold _normalize_signal. rewrite Hd.
  destruct (vs_higher p Hp Hd) as (st & -> & Hst).
  assert (py_max 0%num v <= py_max 0%num v') as Hs by (unfold py_max; unfold_num; q_cases; lra).
  pose proof (py_max_0 v). set (s := py_max 0%num v) in *. set (s' := py_max 0%num v') in *.
  assert (num_truthy st = true) as ->.
  { unfold num_truthy. unfold_num. apply negb_true_iff. destruct (Qeq_bool st (0 # 1)) eqn:E; [|done].
    apply Qeq_bool_iff in E. lra. }
  assert (∀ a a' : Q, a <= a' → py_min (1%num : Q) a <= py_min 1%num a') as Hmin.
  { intros a a' Ha. unfold py_min. unfold_num. q_cases; lra. }
  destruct (sp_transform p); apply Hmin; unfold_num.
  - by apply Qdiv_mono.
  - apply Qdiv_mono; [by apply log1p_pos|by apply log1p_mono].
Qed.
End rating.

(** ** Points and sums *)

Lemma Q_round_nonneg k (x : Q) : (0 ≤ k)%Z → 0 <= x → 0 <= Q_round k x.
Proof.
  intros Hk Hx. apply (Qle_trans _ (Q_round k (0 # Z.to_pos (10 ^ k)))).
  - rewrite (Q_round_fix k Hk). unfold Qle. simpl. lia.
  - apply Q_round_mono; [done|]. apply (Qle_trans _ 0); [|done]. unfold Qle. simpl. lia.
Qed.

(** Rounding stays under a bound that has the decimals. *)
Lemma Q_round_bound k n (x y : Q) :
  (0 ≤ k)%Z → y == n # Z.to_pos (10 ^ k) → x <= y → Q_round k x <= y.
Proof.
  intros Hk Hy Hx. apply (Qle_trans _ (Q_round k y)); [by apply Q_round_mono|].
  rewrite (Q_round_proper k Hk _ _ Hy), (Q_round_fix k Hk), <- Hy. apply Qle_refl.
Qed.

(** A weight that is a whole number of hundredths of a percent. *)
Definition whole_weight (w : Q) : Prop := ∃ n, w == n # 10000.

Section points.
Context (log1p : Q → Q) `{!Log1pLaws log1p}.
Implicit Types (p : SignalProfile Q) (e : SignalEvidence Q).

Lemma hundred_weight w : whole_weight w → ∃ n, w * (100 # 1) == n # Z.to_pos (10 ^ 2).
Proof. intros [n Hn]. exists n. rewrite Hn. unfold Qeq. simpl. lia. Qed.

Lemma points_range n p :
  ValidSignal p → whole_weight (sp_weight p) → 0 <= n <= 1 →
  0 <= signal_points n p <= sp_weight p * (100 # 1).
Proof.
  intros [[Hw0 Hw1] [Hc0 Hc1] _ _] Hwhole [Hn0 Hn1]. unfold signal_points. unfold_num.
  set (w := sp_weight p) in *. set (c := sp_maximum_credit p) in *.
  assert (0 <= n * c) as Hnc0 by (apply Qmult_le_0_compat; lra).
  assert (n * c <= 1) as Hnc1.
  { apply (Qle_trans _ (1 * c)); [apply Qmult_le_compat_r; lra|lra]. }
  assert (0 <= n * c * w) as H0 by (apply Qmult_le_0_compat; lra).
  assert (n * c * w <= 1 * w) as H1 by (apply Qmult_le_compat_r; lra).
  destruct (hundred_weight w Hwhole) as [k Hk].
  split; [apply Q_round_nonneg; [done|lra]|apply (Q_round_bound 2 k); [done|done|lra]].
Qed.

Lemma points_mono n n' p : ValidSignal p → n <= n' → signal_points n p <= signal_points n' p.
Proof.
  intros [[Hw0 Hw1] [Hc0 Hc1] _ _] Hn. unfold signal_points. unfold_num. apply Q_round_mono; [done|].
  repeat (apply Qmult_le_compat_r; [|lra]). done.
Qed.

(** What one entry of the evidence is worth. *)
Lemma rate_signal_range signals provenance name p :
  ValidSignal p → whole_weight (sp_weight p) →
  let e := rate_signal log1p signals provenance (name, p) in
  se_signal e = name ∧ se_configured_weight e = sp_weight p
  ∧ se_available e = bool_decide (is_Some (sget signals name))
  ∧ 0 <= se_points e <= sp_weight p * (100 # 1)
  ∧ (sget signals name = None → se_points e = 0%num).
Proof.
  intros Hp Hw. unfold rate_signal, sget.
  destruct (signals !! name ≫= id) as [v|] eqn:Hv; simpl;
    (split; [done|split; [done|split; [done|split; [|done]]]]).
  - apply points_range; try done. by apply normalize_range.
  - destruct Hp as [[? ?] _ _ _]. unfold_num. lra.
Qed.

Definition weights_total (l : list (string * SignalProfile Q)) : Q := total (map (λ ns, sp_weight ns.2) l).

Definition ValidSignals (l : list (string * SignalProfile Q)) : Prop :=
  ∀ ns, ns ∈ l → ValidSignal ns.2.

Lemma foldl_add_total (l : list Q) : foldl num_add (0%num : Q) l == total l.
Proof.
  pose proof (foldl_total (λ x, x) l 0) as Hf. rewrite map_id in Hf.
  change (foldl num_add 0%num l) with (foldl (λ s x, s + x) 0 l). rewrite Hf. lra.
Qed.

Lemma coverage_range signals provenance l :
  ValidSignals l → weights_total l <= 1 →
  0 <= coverage_of (map (rate_signal log1p signals provenance) l) <= 1.
Proof.
  intros Hl Ht. unfold coverage_of.
  set (ws := map se_configured_weight (List.filter se_available (map (rate_signal log1p signals provenance) l))).
  assert (0 <= total ws <= weights_total l) as [H0 H1].
  { subst ws. clear Ht. induction l as [|[name p] l IH]; simpl; [unfold weights_total; simpl; lra|].
    specialize (IH ltac:(intros ns Hns; apply Hl; by right)).
    destruct (vs_weight p (Hl (name, p) ltac:(by left))) as [Hw _].
    unfold weights_total in *. simpl.
    destruct (signals !! name ≫= id); simpl; lra. }
  pose proof (foldl_add_total ws) as Hf. unfold_num.
  split; [apply Q_round_nonneg; [done|lra]|apply (Q_round_bound 4 10000); [done|done|lra]].
Qed.

Lemma points_total_range signals provenance l :
  ValidSignals l → (∀ ns, ns ∈ l → whole_weight (sp_weight ns.2)) → weights_total l <= 1 →
  0 <= num_round 2 (num_sum (map se_points (map (rate_signal log1p signals provenance) l))) <= 100 # 1.
Proof.
  intros Hl Hw Ht. set (ps := map se_points _).
  assert (0 <= total ps <= weights_total l * (100 # 1)) as [H0 H1].
  { subst ps. clear Ht. induction l as [|[name p] l IH]; simpl; [unfold weights_total; simpl; lra|].
    specialize (IH ltac:(intros ns Hns; apply Hl; by right) ltac:(intros ns Hns; apply Hw; by right)).
    destruct (rate_signal_range signals provenance name p (Hl (name, p) ltac:(by left))
      (Hw (name, p) ltac:(by left))) as (_ & _ & _ & Hp & _).
    unfold weights_total in *. simpl in *. lra. }
  pose proof (sum_total ps) as Hf. unfold_num.
  split; [apply Q_round_nonneg; [done|lra]|apply (Q_round_bound 2 10000); [done|done|lra]].
Qed.
End points.

(** ** The order of a ranking *)

Section order.
Implicit Types (a b c : Assessment Q).

(** Lexicographic: score, coverage, population, label. *)
Definition key_le a b : Prop :=
  score_key a < score_key b ∨
  score_key a == score_key b ∧
    (as_evidence_coverage a < as_evidence_coverage b ∨
     as_evidence_coverage a == as_evidence_coverage b ∧
       ((as_population a < as_population b)%Z ∨
        as_population a = as_population b ∧ String.leb (as_label a) (as_label b) = true)).

Lemma key_leb_spec a b : key_leb a b = true ↔ key_le a b.
Proof.
  unfold key_leb, key_le. unfold_num.
  destruct (Qeq_bool (score_key a) (score_key b)) eqn:Hs; simpl.
  - apply Qeq_bool_iff in Hs.
    destruct (Qeq_bool (as_evidence_coverage a) (as_evidence_coverage b)) eqn:Hc; simpl.
    + apply Qeq_bool_iff in Hc. destruct (Z.eqb_spec (as_population a) (as_population b)); simpl.
      * split; [intros; by right; split; [|right; split; [|right]]|].
        intros [?|[_ [?|[_ [?|[_ ?]]]]]]; [lra|lra|lia|done].
      * rewrite Z.ltb_lt. split; [intros; by right; split; [|right; split; [|left]]|].
        intros [?|[_ [?|[_ [?|[? _]]]]]]; [lra|lra|lia|done].
    + apply Qeq_bool_neq in Hc. split.
      * intros Hlt. q_bools. by right; split; [|left].
      * intros [?|[_ [?|[? _]]]]; [lra| |done]. destruct (Q_ltb_spec (as_evidence_coverage a) (as_evidence_coverage b)); [done|lra].
  - apply Qeq_bool_neq in Hs. split.
    + intros Hlt. q_bools. by left.
    + intros [?|[? _]]; [|done]. destruct (Q_ltb_spec (score_key a) (score_key b)); [done|lra].
Qed.

Lemma label_leb_trans x y z : String.leb x y = true → String.leb y z = true → String.leb x z = true.
Proof.
  intros H1%Is_true_true H2%Is_true_true. apply Is_true_true. change (String.le x z).
  etrans; [exact H1|exact H2].
Qed.

Lemma key_le_trans a b c : key_le a b → key_le b c → key_le a c.
Proof.
  unfold key_le. intros [?|[? Hab]] [?|[? Hbc]]; [left; lra..|].
  right. split; [lra|]. destruct Hab as [?|[? Hab]], Hbc as [?|[? Hbc]]; [left; lra..|].
  right. split; [lra|]. destruct Hab as [?|[? Hab]], Hbc as [?|[? Hbc]]; [left; lia..|].
  right. split; [lia|]. by eapply label_leb_trans.
Qed.

Lemma label_leb_total x y : String.leb x y = true ∨ String.leb y x = true.
Proof. destruct (String.leb_total x y); eauto. Qed.

Lemma key_le_total a b : key_le a b ∨ key_le b a.
Proof.
  unfold key_le.
  destruct (Qlt_le_dec (score_key a) (score_key b)) as [|[H1| H1]%Qle_lteq]; [tauto..|].
  destruct (Qlt_le_dec (as_evidence_coverage a) (as_evidence_coverage b)) as [|[H2| H2]%Qle_lteq].
  { left. right. split; [lra|tauto]. } { right. right. split; [lra|tauto]. }
  destruct (Z_lt_le_dec (as_population a) (as_population b)) as [|H3].
  { left. right. split; [lra|]. right. split; [lra|tauto]. }
  destruct (Z_lt_le_dec (as_population b) (as_population a)) as [|H4].
  { right. right. split; [lra|]. right. split; [lra|tauto]. }
  destruct (label_leb_total (as_label a) (as_label b));
    [left|right]; (right; split; [lra|]; right; split; [lra|]; right; split; [lia|done]).
Qed.

Lemma ranked_sorted (l : list (Assessment Q)) : StronglySorted (λ a b, key_le b a) (ranked l).
Proof.
  assert (StronglySorted (λ a b, key_leb b a = true) (ranked l)) as Hs.
  { apply sort_by_sorted.
    - intros a b. rewrite !key_leb_spec. destruct (key_le_total a b); tauto.
    - intros a b c. rewrite !key_leb_spec. intros Hba Hcb. by eapply key_le_trans. }
  induction Hs as [|a l' Hs IH Hall]; constructor; [done|].
  eapply Forall_impl; [done|]. intros b. apply key_leb_spec.
Qed.

Lemma ranked_perm (l : list (Assessment Q)) : ranked l ≡ₚ l.
Proof. apply sort_by_perm. Qed.
End order.
