(* ===== verification/MarketPrefilterTheorems.v ===== *)
(** * MarketPrefilterTheorems: what the market prefilter guarantees

    Scores are bounded and an assessment never fails under a profile whose weights have at
    most four decimals and do not exceed one; more of a good signal never lowers a score;
    a batch is the best of its candidates, in order.  The validator of a profile tolerates
    weights for which an assessment does fail. *)
From stdpp Require Import relations.
From S2P Require Import Prelude.
From S2P Require Import Binary64.
From S2P Require Import Numbers.
From S2P Require Import PublicData.
From S2P Require Import PublicDataLock.
From S2P Require Import PublicDataProofs.
From S2P Require Import PublicDataInvariant.
From S2P Require Import PublicDataTheorems.
From S2P Require Import MarketPrefilter.
From S2P Require Import MarketPrefilterProofs.
From Stdlib Require String.
From Stdlib Require Import QArith Qabs Lqa.
#[global] Open Scope Z_scope.
Open Scope Q_scope.

(** ** Assessing *)

Section assess.
Context (log1p : Q → Q).
Context `{!Measurement Q} (sha256_of_lines : list string → string).
Context (encode_record : DatasetRecord Q → string) (parse_record : string → option (DatasetRecord Q)).

Abbreviation store_ok := (disk_ok sha256_of_lines encode_record parse_record).






Context `{!Log1pLaws log1p}.



(** ** More of a good signal *)

(** A market with more of a signal of which more is better, and the same otherwise,
    has the same coverage and a score that is not lower. *)
Theorem better_signal_never_lowers_the_score minimum signals signals' provenance l s x y :
  forallb (λ ns, valid_signal_profile ns.2) l = true →
  (∀ p, (s, p) ∈ l → sp_expected_direction p = dir_higher) →
  (∀ k, k ≠ s → sget signals' k = sget signals k) →
  sget signals s = Some x → sget signals' s = Some y → x <= y →
  let before := map (rate_signal log1p signals provenance) l in
  let after := map (rate_signal log1p signals' provenance) l in
  coverage_of after = coverage_of before
  ∧ match score_of minimum before, score_of minimum after with
    | Some a, Some b => a <= b
    | None, None => True
    | _, _ => False
    end.
Proof.
  intros Hv Hdir Hsame Hx Hy Hxy before after.
  assert (map se_configured_weight (List.filter se_available after)
    = map se_configured_weight (List.filter se_available before)
    ∧ total (map se_points before) <= total (map se_points after)) as [Hcov Htot].
  { unfold before, after. clear before after. induction l as [|[name p] l IH]; simpl; [split; [done|lra]|].
    simpl in Hv. apply andb_true_iff in Hv as [Hvp Hv].
    destruct (IH Hv ltac:(intros; apply Hdir; by right)) as [IHc IHt].
    apply valid_signal_spec in Hvp. unfold sget in *.
    destruct (decide (name = s)) as [->|Hne].
    - rewrite Hx, Hy. simpl. rewrite IHc. split; [done|].
      pose proof (points_mono _ _ p Hvp (normalize_mono log1p x y p Hvp (Hdir p ltac:(by left)) Hxy)) as Hle.
      by apply Qplus_le_compat.
    - rewrite (Hsame name Hne). destruct (signals !! name ≫= id); simpl; rewrite IHc;
        (split; [done|]); by apply Qplus_le_compat; [apply Qle_refl|]. }
  assert (coverage_of after = coverage_of before) as Hc by (unfold coverage_of; by rewrite Hcov).
  split; [done|]. unfold score_of. rewrite Hc. destruct (_ <=? _)%num; [|done].
  apply Q_round_mono; [done|]. by rewrite !sum_total.
Qed.
End assess.

(** ** Ranking *)

(** A batch holds the best of its candidates: at least one and no more than the
    configured maximum, in descending order of score, coverage, population and label,
    numbered from one, and no candidate that was left out ranks above one that is in. *)
Theorem ranking_is_the_top limit maximum (l : list (Assessment Q)) :
  (1 ≤ maximum)%Z →
  let batch := batch_of limit maximum l in
  ∃ best rest, best ++ rest ≡ₚ l
    ∧ bt_assessments batch = imap with_rank best
    ∧ length best = Nat.min (bounded_limit limit maximum) (length l)
    ∧ (1 ≤ Z.of_nat (bounded_limit limit maximum) ≤ maximum)%Z
    ∧ StronglySorted (λ a b, key_le b a) best
    ∧ (∀ a b, a ∈ best → b ∈ rest → key_le b a)
    ∧ bt_returned_count batch = length best ∧ bt_candidate_count batch = length l
    ∧ ∀ i a, bt_assessments batch !! i = Some a → as_rank a = Some (Z.of_nat i + 1)%Z.
Proof.
  intros Hmax batch. set (n := bounded_limit limit maximum).
  exists (take n (ranked l)), (drop n (ranked l)).
  pose proof (ranked_sorted l) as Hs. rewrite <- (take_drop n (ranked l)) in Hs.
  apply StronglySorted_app in Hs as (Hcross & Hs & _).
  split; [by rewrite take_drop, ranked_perm|]. split; [done|].
  split; [rewrite length_take, (Permutation_length (ranked_perm l)); lia|].
  split; [unfold n, bounded_limit; lia|]. split; [done|]. split; [intros a b; apply Hcross|].
  split; [simpl; by rewrite length_imap|]. split; [done|].
  intros i a. simpl. rewrite list_lookup_imap. intros (a' & _ & ->)%fmap_Some. done.
Qed.

(** ** A market with census data and an industry survey *)

Module PrefilterRun.
(** A rational function near [log1p] *)
Definition log1p (x : Q) : Q := 2 * x / (2 + x).
#[export] Instance log1p_laws : Log1pLaws log1p.
Proof.
  split; unfold log1p.
  - done.
  - intros x Hx. apply Qlt_shift_div_l; lra.
  - intros x y Hx Hxy. apply Qle_shift_div_l; [lra|].
    assert (2 * x / (2 + x) * (2 + y) == 2 * x * (2 + y) / (2 + x)) as -> by (field; lra).
    apply Qle_shift_div_r; [lra|]. nra.
Qed.

(** Rationals are finite. *)
#[export] Instance rational_measurement : Measurement Q := λ _, true.
#[export] Instance float_measurement : Measurement binary64 := F64.is_finite.

Definition survey : DatasetRecord Q :=
  {| dr_geography_id := "48453"; dr_source_geoid := "48453"; dr_geography_level := "county";
     dr_values := {["establishments"%string := Some (120 # 1)]};
     dr_dimensions := {["naics_code" := "238220"]}%string |}.
Definition parse_line (s : string) : option (DatasetRecord Q) :=
  if bool_decide (s = "48453"%string) then Some survey else None.
Definition digest (lines : list string) : string := String.concat "+" lines.

Definition publisher : ReleaseSource :=
  {| source_url := "https://example.org/cbp"; source_name := "CBP"; source_license := "public";
     source_bytes := None; source_format := None; source_content_type := None; source_etag := None;
     source_last_modified := None; acquisition_method := None; geographic_granularity := ["county"%string];
     refresh_cadence := "yearly"; source_adapter := "cbp"; source_notes := "" |}.
Definition release : DatasetRelease :=
  {| rl_dataset := cbp; rl_version := "2022"; rl_data_year := 2022; rl_release_date := 19900;
     rl_source_sha256 := Some "00"%string; rl_source := publisher; rl_retrieved_at := 5 |}.
Definition manifest : DatasetManifest :=
  {| dm_release := release; dm_status := ds_staged; dm_record_count := 1; dm_content_sha256 := "48453";
     dm_staged_at := 10; dm_activated_at := None |}.
Definition staged : Disk := (run_locked digest parse_line (op_commit manifest ["48453"%string]) 10 empty_disk).2.
Definition data : Disk := (run_locked digest parse_line (op_activate cbp "2022") 11 staged).2.


Definition signal (w : Q) (d : DatasetKind) (t : SignalTransform) (strong : option Q)
    (r : option (IdealRange Q)) : SignalProfile Q :=
  {| sp_weight := w; sp_source_dataset := d; sp_source_measure := "m"; sp_causal_rationale := "c";
     sp_expected_direction := match r with Some _ => dir_ideal_range | None => dir_higher end;
     sp_missing_data_treatment := "d"; sp_geographic_granularity := "g"; sp_refresh_cadence := "r";
     sp_transform := t; sp_strong_value := strong; sp_ideal_range := r; sp_maximum_credit := 1 |}.
Definition supply_range : IdealRange Q :=
  {| ir_minimum := 5; ir_maximum := 20; ir_hard_minimum := 0; ir_hard_maximum := 60 |}.
Definition profile : Profile Q :=
  {| pf_service_family_id := GENERIC_SERVICE; pf_profile_version := 1; pf_legacy_profile_name := "home";
     pf_target_household_signal := hs_households; pf_minimum_evidence_coverage := 5 # 10;
     pf_signals := [("population"%string, signal (4 # 10) acs tr_log (Some (300000 # 1)) None);
                    ("combined_supply_density"%string, signal (6 # 10) cbp tr_linear None (Some supply_range))] |}.
Definition config : Config Q :=
  {| cfg_assessment_version := "v2"; cfg_minimum_population := 5000; cfg_maximum_results := 500;
     cfg_thresholds := {| th_advance_to_testing := 65; th_review := 45 |};
     cfg_profiles := {[GENERIC_SERVICE := profile]} |}.
Definition naics : NAICSRegistry :=
  {| registry_version := "2022"; naics_services := [{| sn_service_family_id := GENERIC_SERVICE;
       sn_mappings := [{| nm_code := "238220"; nm_relationship := broad_parent; nm_confidence := mc_medium;
                          nm_title := "t"; nm_notes := "n" |}] |}] |}.
Definition prefilter : Prefilter (A := Q) :=
  {| pre_config := config; pre_naics := naics; pre_warning_age_days := {[cbp := 900%Z]} |}.
Definition town (id : string) (population : Z) : USGeographyRecord Q :=
  {| ug_id := id; ug_is_zip := false; ug_city := "Austin"; ug_state := "TX"; ug_postal_code := None;
     ug_county_fips := "48453"; ug_population := population; ug_households := Some 40000%Z;
     ug_housing_units := None; ug_owner_occupied_units := None; ug_median_year_built := None;
     ug_public_data_year := 2023; ug_land_area_sq_km := 100; ug_dataset_version := "geo1" |}.

Definition assess (r : USGeographyRecord Q) :=
  assess_record log1p digest parse_line prefilter "plumbing" 20000 20 r data.
End PrefilterRun.
Import PrefilterRun.




Lemma better_signal_never_lowers_the_score_witness :
  let more : gmap string (option Q) := {["population"%string := Some (90000 # 1)]} in
  let less : gmap string (option Q) := {["population"%string := Some (30000 # 1)]} in
  coverage_of (map (rate_signal log1p more ∅) (pf_signals profile))
  = coverage_of (map (rate_signal log1p less ∅) (pf_signals profile)).
Proof.
  intros more less.
  refine (proj1 (better_signal_never_lowers_the_score log1p 0 less more ∅ (pf_signals profile) "population"
    (30000 # 1) (90000 # 1) _ _ _ _ _ _)).
  - vm_compute. reflexivity.
  - intros p. simpl. rewrite !elem_of_cons, elem_of_nil. by intros [[= ->]|[[=]|[]]].
  - intros k Hk. unfold sget, more, less. by rewrite !lookup_singleton_ne.
  - reflexivity.
  - reflexivity.
  - unfold Qle. simpl. lia.
Defined.

Lemma ranking_is_the_top_witness :
  let candidates := omap (λ r, match (assess r).1 with Ok a => Some a | Raise _ => None end)
    [town "a" 900; town "b" 800000; town "c" 70000] in
  let batch := batch_of (Some 2%Z) 500 candidates in
  map as_geography_id (bt_assessments batch) = ["b"; "c"]%string
  ∧ ∀ i a, bt_assessments batch !! i = Some a → as_rank a = Some (Z.of_nat i + 1)%Z.
Proof.
  intros candidates batch. split; [vm_compute; reflexivity|].
  assert (1 ≤ 500)%Z as H500 by lia.
  destruct (ranking_is_the_top (Some 2%Z) 500 candidates H500) as (best & rest & _ & _ & _ & _ & _ & _ & _ & _ & Hr).
  exact Hr.
Defined.

(** ** Weights the validator tolerates *)

Module ToleratedWeights.
(** Two linear signals whose weights add up to 1.0001, in binary64 *)
Definition num (n d : Z) : binary64 := num_ratio n d.
Definition signal (w : binary64) : SignalProfile binary64 :=
  {| sp_weight := w; sp_source_dataset := acs; sp_source_measure := "m"; sp_causal_rationale := "c";
     sp_expected_direction := dir_higher; sp_missing_data_treatment := "d"; sp_geographic_granularity := "g";
     sp_refresh_cadence := "r"; sp_transform := tr_linear; sp_strong_value := Some (num 1000 1);
     sp_ideal_range := None; sp_maximum_credit := num 1 1 |}.
Definition profile : Profile binary64 :=
  {| pf_service_family_id := GENERIC_SERVICE; pf_profile_version := 1; pf_legacy_profile_name := "home";
     pf_target_household_signal := hs_households; pf_minimum_evidence_coverage := num 5 10;
     pf_signals := [("population"%string, signal (num 5001 10000)); ("households"%string, signal (num 5 10))] |}.
Definition config : Config binary64 :=
  {| cfg_assessment_version := "v2"; cfg_minimum_population := 5000; cfg_maximum_results := 500;
     cfg_thresholds := {| th_advance_to_testing := num 65 1; th_review := num 45 1 |};
     cfg_profiles := {[GENERIC_SERVICE := profile]} |}.
Definition prefilter : Prefilter (A := binary64) :=
  {| pre_config := config; pre_naics := {| registry_version := "2022"; naics_services := [] |};
     pre_warning_age_days := ∅ |}.
Definition town : USGeographyRecord binary64 :=
  {| ug_id := "a"; ug_is_zip := false; ug_city := "Austin"; ug_state := "TX"; ug_postal_code := None;
     ug_county_fips := "48453"; ug_population := 90000; ug_households := Some 40000%Z;
     ug_housing_units := None; ug_owner_occupied_units := None; ug_median_year_built := None;
     ug_public_data_year := 2023; ug_land_area_sq_km := num 100 1; ug_dataset_version := "geo1" |}.

(** The configuration passes its validator, and assessing a market with all the evidence
    raises. *)
Lemma tolerated_weights_raise :
  valid_config config = true
  ∧ (assess_record (λ x, x) (λ _, ""%string) (λ _, None) prefilter "plumbing" 20000 20 town empty_disk).1
    = Raise ValidationError.
Proof. split; vm_compute; reflexivity. Qed.
End ToleratedWeights.

(** A null measure of an activated release replaces the number of the census baseline, and
    the signal is missing. *)
Lemma null_measure_hides_the_baseline :
  let gap : DatasetRecord Q :=
    {| dr_geography_id := "a"; dr_source_geoid := "a"; dr_geography_level := "place";
       dr_values := {["households"%string := None]}; dr_dimensions := ∅ |} in
  let sn := {| sn_records := {[acs := [gap]]}; sn_manifests := ∅; sn_warnings := [] |} in
  sget (embedded_signals (town "a" 900)) "households" = Some (num_Z 40000)
  ∧ sget (_market_signals (town "a" 900) sn).1 "households" = None.
Proof. split; vm_compute; reflexivity. Qed.
