(* ===== verification/Security.v ===== *)
(** * Security: authentication, authorization and the request gate

    security/auth.py, security/middleware.py and the correlation context of
    observability/context.py: who a request comes from, what the role may do, the two rate
    limiters, and [dispatch], which every request passes on its way to the application.

    Parameters: the validation of a token ([decode_token], the claims or the error of the
    jwt library), [str()] of a JSON value, SHA-256, the Redis commands of the script, the
    random identifiers, and the application behind the middleware. Header values are ASCII.
    The headers of a response are a finite map from the lower-case name; metrics are
    counters. *)
From Stdlib Require Import Strings.Ascii.
From stdpp Require Import pretty.
From S2P Require Import Prelude Binary64 Schema OpportunityReview BlobStorage ResponseCache Numbers MarketPrefilter.
#[global] Open Scope Z_scope.

(** ** Strings *)

Fixpoint list_prefixb (l1 l2 : list Ascii.ascii) : bool :=
  match l1, l2 with
  | [], _ => true
  | a :: l1', b :: l2' => Ascii.eqb a b && list_prefixb l1' l2'
  | _ :: _, [] => false
  end.

(** [s.endswith(suffix)] *)
Definition py_endswith (suffix s : string) : bool :=
  list_prefixb (rev (String.list_ascii_of_string suffix)) (rev (String.list_ascii_of_string s)).

(** [s.removeprefix(p)] *)
Definition removeprefix (p s : string) : string :=
  if String.prefix p s
  then String.substring (String.length p) (String.length s - String.length p) s else s.

(** The value of a digit in a base up to 36. *)
Definition digit_value (base : Z) (a : Ascii.ascii) : option Z :=
  let n := Z.of_nat (Ascii.nat_of_ascii (lower_ascii a)) in
  let v := if (48 <=? n) && (n <=? 57) then n - 48
           else if (97 <=? n) && (n <=? 122) then n - 87 else 36 in
  if v <? base then Some v else None.

(** Digits with single underscores between them; [after] says a digit came just before. *)
Fixpoint digits_value (base : Z) (after : bool) (acc : Z) (l : list Ascii.ascii) : option Z :=
  match l with
  | [] => if after then Some acc else None
  | a :: l' =>
      if Ascii.eqb a "_"%char then if after then digits_value base false acc l' else None
      else v ← digit_value base a; digits_value base true (acc * base + v) l'
  end.

(** [0x], with an optional underscore after it *)
Definition drop_hex_prefix (l : list Ascii.ascii) : list Ascii.ascii :=
  match l with
  | z :: x :: l' =>
      if Ascii.eqb z "0"%char && Ascii.eqb (lower_ascii x) "x"%char
      then match l' with
           | u :: l'' => if Ascii.eqb u "_"%char then l'' else l'
           | [] => l'
           end
      else l
  | _ => l
  end.

(** [int(s)] and [int(s, 16)]; [None] is the ValueError. More than 4300 decimal digits
    are refused. *)
Definition py_int (base : Z) (s : string) : option Z :=
  let body := String.list_ascii_of_string (py_strip s) in
  let '(sign, body) := match body with
                       | a :: l => if Ascii.eqb a "-"%char then (-1, l)
                                   else if Ascii.eqb a "+"%char then (1, l) else (1, body)
                       | [] => (1, body)
                       end in
  let body := if base =? 16 then drop_hex_prefix body else body in
  if (base =? 10) && (4300 <? length (List.filter (λ a, negb (Ascii.eqb a "_"%char)) body))%nat then None
  else Z.mul sign <$> digits_value base false 0 body.

(** ** Roles and permissions *)

Inductive Role : Type := role_admin | role_operator | role_reviewer | role_read_only.
#[export] Instance Role_eq_dec : EqDecision Role.
Proof. solve_decision. Defined.

Definition role_value (r : Role) : string :=
  match r with
  | role_admin => "admin" | role_operator => "operator"
  | role_reviewer => "reviewer" | role_read_only => "read_only"
  end.

(** The members of [Role], in their order *)
Definition roles : list Role := [role_admin; role_operator; role_reviewer; role_read_only].

(** [Role(value)] *)
Definition role_of (v : string) : option Role := find (λ r, bool_decide (role_value r = v)) roles.

Inductive Permission : Type :=
| view_opportunities | run_testing_scan | run_full_scan | override_evidence | approve_opportunity
| change_production_limits | deploy_property | manage_routing | export_data | delete_data.
#[export] Instance Permission_eq_dec : EqDecision Permission.
Proof. solve_decision. Defined.

Definition all_permissions : list Permission :=
  [view_opportunities; run_testing_scan; run_full_scan; override_evidence; approve_opportunity;
   change_production_limits; deploy_property; manage_routing; export_data; delete_data].

Definition ROLE_PERMISSIONS (r : Role) : list Permission :=
  match r with
  | role_admin => all_permissions
  | role_operator => [view_opportunities; run_testing_scan; run_full_scan; deploy_property; manage_routing]
  | role_reviewer => [view_opportunities; override_evidence; approve_opportunity]
  | role_read_only => [view_opportunities]
  end.

Record Principal : Type := {
  pr_user_id : string;
  pr_role : Role;
  pr_email : option string;
  pr_token_id : option string;
  pr_auth_method : string
}.

Definition permits (p : Principal) (permission : Permission) : bool :=
  bool_decide (permission ∈ ROLE_PERMISSIONS (pr_role p)).

(** [review_actor] of opportunity_review/api.py: the actor of the review model *)
Definition review_actor (p : Principal) : ReviewActor := {|
  actor_id := pr_user_id p;
  actor_role := match pr_role p with
                | role_admin => admin
                | role_operator => operator
                | role_reviewer | role_read_only => reviewer
                end
|}.

(** ** Requests, settings and exceptions *)

Record Request : Type := {
  rq_method : string;
  rq_path : string;
  (** by lower-case name *)
  rq_headers : gmap string string
}.

Record SecuritySettings : Type := {
  ss_app_env : string;
  ss_auth_mode : string;
  ss_local_auth_enabled : bool;
  ss_local_auth_default_user : string;
  ss_local_auth_default_role : string;
  ss_oidc_roles_claim : string;
  ss_max_request_body_bytes : Z;
  ss_content_security_policy : string
}.

(** The exceptions that matter to [dispatch]; the first two are ValueErrors. *)
Inductive security_error : Type :=
| AuthenticationError | ValueError | TypeError | KeyError | IndexError | RedisError | OtherError.

(** ** Authentication *)
Section auth.
(** [jwt.decode] with the key of the token; [None] is a PyJWTError *)
Context (decode_token : string → option dict) (py_str : json → string).

(** [candidate.value in roles] *)
Definition role_listed (claim : json) (r : Role) : result security_error bool :=
  match claim with
  | JList l => Ok (existsb (λ v, match v with JStr s => bool_decide (s = role_value r) | _ => false end) l)
  | JObj d => Ok (bool_decide (is_Some (dict_get (role_value r) d)))
  | _ => Raise TypeError
  end.

(** [next((candidate for candidate in Role if candidate.value in roles), None)] *)
Fixpoint first_role (claim : json) (candidates : list Role) : result security_error (option Role) :=
  match candidates with
  | [] => Ok None
  | r :: candidates' =>
      match role_listed claim r with
      | Ok true => Ok (Some r)
      | Ok false => first_role claim candidates'
      | Raise e => Raise e
      end
  end.

(** [str(claims[k]) if claims.get(k) else None] *)
Definition optional_claim (k : string) (claims : dict) : option string :=
  match dict_get k claims with
  | Some v => if json_truthy v then Some (py_str v) else None
  | None => None
  end.

(** [OIDCVerifier.verify] *)
Definition verify (settings : SecuritySettings) (token : string) : result security_error Principal :=
  match decode_token token with
  | None => Raise AuthenticationError
  | Some claims =>
      let claim := default (JList []) (dict_get (ss_oidc_roles_claim settings) claims) in
      let claim := match claim with JStr s => JList [JStr s] | v => v end in
      match first_role claim roles with
      | Raise e => Raise e
      | Ok None => Raise AuthenticationError
      | Ok (Some role) =>
          match dict_get "sub" claims with
          | None => Raise KeyError
          | Some sub => Ok {| pr_user_id := py_str sub; pr_role := role;
                              pr_email := optional_claim "email" claims;
                              pr_token_id := optional_claim "jti" claims;
                              pr_auth_method := "oidc" |}
          end
      end
  end.

Definition local_principal (request : Request) (settings : SecuritySettings)
    : result security_error Principal :=
  let role_value := default (ss_local_auth_default_role settings) (rq_headers request !! "x-local-role"%string) in
  let user_id := default (ss_local_auth_default_user settings) (rq_headers request !! "x-local-user"%string) in
  match role_of role_value with
  | None => Raise AuthenticationError
  | Some role => Ok {| pr_user_id := user_id; pr_role := role; pr_email := None; pr_token_id := None;
                       pr_auth_method := "local" |}
  end.

Definition development (settings : SecuritySettings) : bool :=
  bool_decide (ss_app_env settings ∈ ["local"; "test"; "development"])%string.

(** The verifier exists when [auth_mode] is oidc. *)
Definition authenticate_request (request : Request) (settings : SecuritySettings)
    : result security_error Principal :=
  let authorization := default "" (rq_headers request !! "authorization"%string) in
  if String.prefix "Bearer " authorization then
    if bool_decide (ss_auth_mode settings = "oidc"%string)
    then verify settings (py_strip (removeprefix "Bearer " authorization))
    else Raise AuthenticationError
  else if ss_local_auth_enabled settings && development settings
  then local_principal request settings
  else Raise AuthenticationError.
End auth.

(** ** Rate limiters *)

(** [allow(key, now)]: whether the request is admitted and the seconds to wait *)
Class RateLimiter (L T : Type) : Type :=
  limiter_allow : string → T → L → result security_error (bool * Z) * L.

(** [FixedWindowRateLimiter]: the admitted times of each key, oldest first *)
Section window.
Context {A : Type} `{Num A} `{Truncate A}.
Implicit Types now : A.

Record FixedWindow : Type := {
  fw_requests : Z;
  fw_window_seconds : Z;
  fw_windows : gmap string (list A)
}.

(** [while timestamps and timestamps[0] <= threshold: timestamps.popleft()] *)
Fixpoint drop_until (threshold : A) (timestamps : list A) : list A :=
  match timestamps with
  | t :: timestamps' => if num_leb t threshold then drop_until threshold timestamps' else timestamps
  | [] => []
  end.

Definition fw_put (key : string) (timestamps : list A) (w : FixedWindow) : FixedWindow :=
  {| fw_requests := fw_requests w; fw_window_seconds := fw_window_seconds w;
     fw_windows := <[key := timestamps]> (fw_windows w) |}.

Definition fw_allow (key : string) now (w : FixedWindow) : result security_error (bool * Z) * FixedWindow :=
  let window := num_ratio (fw_window_seconds w) 1 in
  let timestamps := drop_until (now - window)%num (default [] (fw_windows w !! key)) in
  if fw_requests w <=? Z.of_nat (length timestamps) then
    match timestamps with
    | [] => (Raise IndexError, fw_put key timestamps w)
    | t :: _ => (Ok (false, Z.max 1 (num_trunc (window - (now - t))%num)), fw_put key timestamps w)
    end
  else (Ok (true, 0), fw_put key (timestamps ++ [now]) w).
End window.
Arguments FixedWindow : clear implicits.
#[export] Instance FixedWindowRateLimiter {A} `{Num A} `{Truncate A} : RateLimiter (FixedWindow A) A := fw_allow.

(** [RedisFixedWindowRateLimiter]: a counter of the shared store that expires with its
    window.  The Redis commands are those of the script; a call that does not reach the
    server raises. *)
Section redis.
Context {R : Type} (incr : string → R → option (Z * R)) (expire : string → Z → R → R)
  (ttl : string → R → Z) (sha256 : bytes → string).

Record RedisWindow : Type := {
  rw_requests : Z;
  rw_window_seconds : Z;
  rw_store : R
}.

Definition script (key : string) (window : Z) (store : R) : option ((Z * Z) * R) :=
  '(count, store) ← incr key store;
  let store := if count =? 1 then expire key window store else store in
  Some ((count, ttl key store), store).

Definition redis_allow {T} (key : string) (now : T) (w : RedisWindow)
    : result security_error (bool * Z) * RedisWindow :=
  match script ("rank-rent:rate-limit:" +:+ sha256 (utf8 key)) (rw_window_seconds w) (rw_store w) with
  | None => (Raise RedisError, w)
  | Some ((count, seconds_left), store) =>
      (Ok (count <=? rw_requests w, Z.max 1 seconds_left),
       {| rw_requests := rw_requests w; rw_window_seconds := rw_window_seconds w; rw_store := store |})
  end.
Definition RedisFixedWindowRateLimiter {T} : RateLimiter RedisWindow T := redis_allow.
End redis.

(** ** Policies *)

Definition PUBLIC_HEALTH_PATHS : list string :=
  ["/healthz"; "/readyz"; "/live"; "/ready"; "/health/dependencies"].

Definition MUTATION_PERMISSIONS : list (string * string * Permission * string) :=
  [("POST", "/api/market-prefilter", run_testing_scan, "market_prefilter.run");
   ("POST", "/api/scans", run_testing_scan, "scan.create");
   ("POST", "/api/opportunities/", override_evidence, "opportunity.change");
   ("POST", "/api/scans/", run_testing_scan, "scan.change");
   ("POST", "/api/discovery-templates", change_production_limits, "template.create");
   ("PUT", "/api/discovery-templates/", change_production_limits, "template.update");
   ("DELETE", "/api/discovery-templates/", change_production_limits, "template.archive");
   ("POST", "/api/batch-scan-plans", run_testing_scan, "batch.create");
   ("POST", "/api/batch-scan-plans/", run_testing_scan, "batch.change");
   ("POST", "/scan", run_testing_scan, "scan.create")]%string.

Definition covers (prefix path : string) : bool :=
  String.eqb path prefix || py_endswith "/" prefix && String.prefix prefix path.

Definition special_policy (path : string) : option (Permission * string) :=
  if py_endswith "/promote" path then Some (run_full_scan, "scan.promote"%string)
  else if py_endswith "/rescore" path then Some (override_evidence, "opportunity.rescore"%string)
  else if py_endswith "/review/transition" path then Some (approve_opportunity, "opportunity.review.transition"%string)
  else if py_endswith "/review/owner" path then Some (approve_opportunity, "opportunity.review.owner"%string)
  else if contains "/overrides" path then Some (override_evidence, "opportunity.evidence_override"%string)
  else if py_endswith "/cancel" path then Some (run_testing_scan, "scan.cancel"%string)
  else if py_endswith "/retry" path then Some (run_testing_scan, "scan.retry"%string)
  else None.

Fixpoint policy_in (rows : list (string * string * Permission * string)) (method path : string)
    : option (Permission * string) :=
  match rows with
  | [] => None
  | (expected_method, prefix, permission, event_type) :: rows' =>
      if String.eqb method expected_method && covers prefix path
      then Some (default (permission, event_type) (special_policy path))
      else policy_in rows' method path
  end.
Definition _mutation_policy : string → string → option (Permission * string) := policy_in MUTATION_PERMISSIONS.

(** ** Correlation *)

Definition request_id_char (a : Ascii.ascii) : bool :=
  let n := Ascii.nat_of_ascii a in
  ((65 <=? n) && (n <=? 90) || (97 <=? n) && (n <=? 122) || (48 <=? n) && (n <=? 57)
   || (n =? 46) || (n =? 95) || (n =? 45))%nat.

(** [re.fullmatch(r"[A-Za-z0-9._-]{8,64}", s)] *)
Definition valid_request_id (s : string) : bool :=
  forallb request_id_char (String.list_ascii_of_string s)
  && (8 <=? String.length s)%nat && (String.length s <=? 64)%nat.

(** [CorrelationContext.from_traceparent] with the identifier it would draw *)
Definition from_traceparent (traceparent : option string) (new : string) : string :=
  match traceparent with
  | Some t =>
      match split_on "-" t with
      | [_; trace; _; _] =>
          if (String.length trace =? 32)%nat && bool_decide (is_Some (py_int 16 trace))
             && negb (String.eqb trace "00000000000000000000000000000000")
          then trace else new
      | _ => new
      end
  | None => new
  end.

(** ** The middleware *)

Inductive Body (B : Type) : Type :=
| ErrorBody (detail request_id : string)
| AppBody (b : B).
Arguments ErrorBody {B} detail request_id.
Arguments AppBody {B} b.

Record Response (B : Type) : Type := {
  rs_status : Z;
  rs_headers : gmap string string;
  rs_body : Body B
}.
Arguments Build_Response {B}.
Arguments rs_status {B} _.
Arguments rs_headers {B} _.
Arguments rs_body {B} _.

Inductive LogEvent : Type :=
| RateLimitBackendUnavailable
| RequestCompleted (method path : string) (status_code : Z).

(** The context variables request_id, trace_id and user_id *)
Record Correlation : Type := {
  cc_request_id : option string;
  cc_trace_id : option string;
  cc_user_id : option string
}.

(** The middleware of one process, its metrics and log, and the application. *)
Record Server (L W : Type) : Type := {
  sv_limiter : L;
  sv_app : W;
  sv_context : Correlation;
  sv_auth_failures : Z;
  sv_rate_limit_responses : Z;
  sv_log : list LogEvent
}.
Arguments Build_Server {L W}.
Arguments sv_limiter {L W} _.
Arguments sv_app {L W} _.
Arguments sv_context {L W} _.
Arguments sv_auth_failures {L W} _.
Arguments sv_rate_limit_responses {L W} _.
Arguments sv_log {L W} _.
#[export] Instance eta_Server (L W : Type) : Eta (Server L W) := λ r,
  Build_Server (sv_limiter r) (sv_app r) (sv_context r) (sv_auth_failures r) (sv_rate_limit_responses r) (sv_log r).

(** What the middleware leaves on the request and in the context for the application *)
Record RequestState : Type := {
  st_request : Request;
  st_request_id : string;
  st_principal : option Principal;
  st_context : Correlation
}.

Section middleware.
Context {L T W B : Type} `{RateLimiter L T}.
Context (decode_token : string → option dict) (py_str : json → string).
(** [call_next]: the application, which may raise *)
Context (call_next : RequestState → W → result security_error (Response B) * W).
Context (settings : SecuritySettings).
Abbreviation Handler := (M (Server L W) security_error).

Definition hsts : bool := bool_decide (ss_app_env settings ∈ ["staging"; "production"])%string.

Definition _security_headers (headers : gmap string string) : gmap string string :=
  let headers := <["content-security-policy" := ss_content_security_policy settings]> headers in
  let headers := <["x-content-type-options" := "nosniff"]> headers in
  let headers := <["referrer-policy" := "strict-origin-when-cross-origin"]> headers in
  let headers := <["x-frame-options" := "DENY"]> headers in
  let headers := <["permissions-policy" := "camera=(), microphone=(), geolocation=()"]> headers in
  let headers := <["cross-origin-opener-policy" := "same-origin"]> headers in
  let headers := if hsts then <["strict-transport-security" := "max-age=31536000; includeSubDomains"]> headers
                 else headers in
  <["cache-control" := "no-store"]> headers.

Definition _error (status : Z) (detail request_id : string) (headers : gmap string string) : Response B :=
  {| rs_status := status;
     rs_headers := <["x-request-id" := request_id]> (_security_headers headers);
     rs_body := ErrorBody detail request_id |}.

(** [principal = authenticate_request(...)], [None] for the AuthenticationError *)
Definition authenticate (request : Request) : Handler (option Principal) := λ s,
  match authenticate_request decode_token py_str request settings with
  | Ok p => (Ok (Some p), s <| sv_context ::= λ c, {| cc_request_id := cc_request_id c; cc_trace_id := cc_trace_id c;
                                                      cc_user_id := Some (pr_user_id p) |} |>)
  | Raise AuthenticationError => (Ok None, s)
  | Raise e => (Raise e, s)
  end.

(** [allowed, retry_after = await self.rate_limiter.allow(...)], [None] for the RedisError *)
Definition ask_limiter (principal : Principal) (now : T) : Handler (option (bool * Z)) := λ s,
  match limiter_allow (pr_user_id principal) now (sv_limiter s) with
  | (Ok v, l) => (Ok (Some v), s <| sv_limiter := l |>)
  | (Raise RedisError, l) => (Ok None, s <| sv_limiter := l |>)
  | (Raise e, l) => (Raise e, s <| sv_limiter := l |>)
  end.

Definition forbidden (request : Request) (principal : Principal) : bool :=
  match _mutation_policy (rq_method request) (rq_path request) with
  | Some (permission, _) => negb (permits principal permission)
  | None => false
  end.

(** The guards before the application: the principal, or the refusal *)
Definition admit_request (request : Request) (request_id : string) (now : T) : Handler (Response B + Principal) :=
  authenticate request ≫= λ authenticated,
  match authenticated with
  | None =>
      modify (λ s, s <| sv_auth_failures ::= Z.succ |>) ≫= λ _,
      mret (inl (_error 401 "Authentication is required." request_id {["www-authenticate" := "Bearer"]}))
  | Some principal =>
      if forbidden request principal
      then mret (inl (_error 403 "You do not have permission to perform this action." request_id ∅))
      else
        ask_limiter principal now ≫= λ verdict,
        match verdict with
        | None =>
            modify (λ s, s <| sv_log ::= λ l, l ++ [RateLimitBackendUnavailable] |>) ≫= λ _,
            mret (inl (_error 503 "Request security service is unavailable." request_id ∅))
        | Some (false, retry_after) =>
            modify (λ s, s <| sv_rate_limit_responses ::= Z.succ |>) ≫= λ _,
            mret (inl (_error 429 "Request rate limit exceeded." request_id {["retry-after" := pretty retry_after]}))
        | Some (true, _) => mret (inr principal)
        end
  end.

(** [content_length and int(content_length) > max_request_body_bytes] *)
Definition too_large (request : Request) : Handler bool := λ s,
  match rq_headers request !! "content-length"%string with
  | Some v =>
      if str_truthy v then
        match py_int 10 v with
        | Some n => (Ok (ss_max_request_body_bytes settings <? n), s)
        | None => (Raise ValueError, s)
        end
      else (Ok false, s)
  | None => (Ok false, s)
  end.

(** [await call_next(request)] *)
Definition run_app (request : Request) (request_id : string) (principal : option Principal)
    : Handler (Response B) := λ s,
  let '(r, app) := call_next {| st_request := request; st_request_id := request_id;
                                st_principal := principal; st_context := sv_context s |} (sv_app s) in
  (r, s <| sv_app := app |>).

Definition finish_response (request_id trace_id span : string) (response : Response B) : Response B :=
  {| rs_status := rs_status response;
     rs_headers := <["traceparent" := ("00-" +:+ trace_id +:+ "-" +:+ span +:+ "-01")%string]>
                     (<["x-request-id" := request_id]> (_security_headers (rs_headers response)));
     rs_body := rs_body response |}.

(** The body of the [try] of [dispatch] *)
Definition answer (request : Request) (request_id trace_id span : string) (now : T) : Handler (Response B) :=
  too_large request ≫= λ large : bool,
  if large then mret (_error 413 "Request body is too large." request_id ∅)
  else if bool_decide (rq_path request ∈ PUBLIC_HEALTH_PATHS)
  then run_app request request_id None ≫= λ response, mret (finish_response request_id trace_id span response)
  else
    admit_request request request_id now ≫= λ admitted,
    match admitted with
    | inl refusal => mret refusal
    | inr principal =>
        run_app request request_id (Some principal) ≫= λ response,
        mret (finish_response request_id trace_id span response)
    end.

(** [dispatch]; [new_id], [new_trace] and [span] are the identifiers it draws. *)
Definition dispatch (request : Request) (new_id new_trace span : string) (now : T) : Handler (Response B) :=
  λ s,
    let requested_id := default ""%string (rq_headers request !! "x-request-id"%string) in
    let request_id := if valid_request_id requested_id then requested_id else new_id in
    let trace_id := from_traceparent (rq_headers request !! "traceparent"%string) new_trace in
    let started : Server L W :=
      s <| sv_context := {| cc_request_id := Some request_id; cc_trace_id := Some trace_id;
                            cc_user_id := cc_user_id (sv_context s) |} |> in
    let answered := answer request request_id trace_id span now started in
    let outcome := match answered.1 with
                   | Raise ValueError | Raise AuthenticationError =>
                       Ok (_error 400 "Invalid request metadata." request_id ∅)
                   | r => r
                   end in
    let status_code := match outcome with Ok response => rs_status response | Raise _ => 500 end in
    (outcome, answered.2 <| sv_log ::= λ l, l ++ [RequestCompleted (rq_method request) (rq_path request) status_code] |>
                         <| sv_context := sv_context s |>).
End middleware.
