(* ===== verification/SecurityTheorems.v ===== *)
(** * SecurityTheorems: who reaches the application, and what every response carries

    The guards of [dispatch] and their order, the permissions of the discovery routes, the
    headers of every response, and the in-process rate limiter against the limiter that
    remembers every admitted request. *)
From stdpp Require Import pretty.
From Stdlib Require Import Strings.Ascii.
From S2P Require Import Prelude Binary64 Schema OpportunityReview BlobStorage ResponseCache Numbers MarketPrefilter Security.
From Stdlib Require Import QArith Lqa.
#[global] Open Scope Z_scope.

(** ** The gate *)
Section gate.
Context {L T W B : Type} `{RateLimiter L T}.
Context (decode_token : string → option dict) (py_str : json → string).
Context (call_next : RequestState → W → result security_error (Response B) * W).
Context (settings : SecuritySettings).
Implicit Types (request : Request) (s : Server L W) (p : Principal).

Abbreviation dispatch' := (dispatch decode_token py_str call_next settings).

(** The principal of a request: the subject of a valid token, with the first role the token
    grants, or the local user of a development environment. *)
Inductive identified request : Principal → Prop :=
| by_token rest claims role sub claim :
    ss_auth_mode settings = "oidc"%string →
    rq_headers request !! "authorization"%string = Some ("Bearer " +:+ rest)%string →
    decode_token (py_strip rest) = Some claims →
    claim = default (JList []) (dict_get (ss_oidc_roles_claim settings) claims) →
    first_role (match claim with JStr v => JList [JStr v] | v => v end) roles = Ok (Some role) →
    dict_get "sub" claims = Some sub →
    identified request {| pr_user_id := py_str sub; pr_role := role;
                          pr_email := optional_claim py_str "email" claims;
                          pr_token_id := optional_claim py_str "jti" claims; pr_auth_method := "oidc" |}
| by_local_adapter user role :
    ss_local_auth_enabled settings = true → development settings = true →
    role_of (default (ss_local_auth_default_role settings) (rq_headers request !! "x-local-role"%string)) = Some role →
    user = default (ss_local_auth_default_user settings) (rq_headers request !! "x-local-user"%string) →
    identified request {| pr_user_id := user; pr_role := role; pr_email := None; pr_token_id := None;
                          pr_auth_method := "local" |}.

Lemma prefix_of_app (a b : string) : String.prefix a (a +:+ b) = true.
Proof.
  induction a as [|x a IH]; [by destruct b|]. change (String x a +:+ b)%string with (String x (a +:+ b)).
  simpl. by destruct (Ascii.ascii_dec x x).
Qed.

Lemma substring_app (a b : string) : String.substring (String.length a) (String.length b) (a +:+ b) = b.
Proof.
  induction a as [|x a IH]; [|exact IH]. induction b as [|y b IH]; [done|].
  change (String y (String.substring 0 (String.length b) b) = String y b). f_equal. exact IH.
Qed.

Lemma string_length_app (a b : string) : String.length (a +:+ b) = (String.length a + String.length b)%nat.
Proof. induction a as [|x a IH]; [done|]. change (S (String.length (a +:+ b)) = S (String.length a + String.length b)). by rewrite IH. Qed.

Lemma removeprefix_app (a b : string) : removeprefix a (a +:+ b) = b.
Proof.
  unfold removeprefix. rewrite prefix_of_app, string_length_app.
  replace (String.length a + String.length b - String.length a)%nat with (String.length b) by lia.
  apply substring_app.
Qed.

Lemma prefix_app (a s : string) : String.prefix a s = true → ∃ b, s = (a +:+ b)%string.
Proof.
  revert s. induction a as [|x a IH]; intros s Hs; [by exists s|].
  destruct s as [|y s]; [done|]. cbn in Hs. destruct (Ascii.ascii_dec x y) as [->|]; [|done].
  destruct (IH s Hs) as [b ->]. by exists b.
Qed.

Lemma authenticated_identified request p :
  authenticate_request decode_token py_str request settings = Ok p → identified request p.
Proof.
  unfold authenticate_request. case_match eqn:Hb.
  - case_bool_decide as Hm; [|done]. destruct (rq_headers request !! "authorization"%string) as [v|] eqn:Hv; [|done].
    cbn in *. destruct (prefix_app _ _ Hb) as [rest ->]. rewrite removeprefix_app. unfold verify.
    destruct (decode_token (py_strip rest)) as [claims|] eqn:Hc; [|done].
    destruct (first_role _ _) as [[role|]|e] eqn:Hf; [|done..].
    destruct (dict_get "sub" claims) as [sub|] eqn:Hs; [|done]. intros [= <-]. by eapply by_token.
  - case_match eqn:Hl; [|done]. apply andb_true_iff in Hl as [Hl Hd].
    unfold local_principal. case_match eqn:Hr; [|done]. intros [= <-]. by eapply by_local_adapter.
Qed.

(** *** One pass through the guards *)

(** A refusal of the middleware itself *)
Definition refusal (response : Response B) : Prop :=
  rs_status response ∈ [400; 401; 403; 413; 429; 503] ∧ ∃ detail id, rs_body response = ErrorBody detail id.

(** The guards passed for a principal: the identity, the permission of the route and the
    limiter, which leaves its new state. *)
Definition admitted request (now : T) (limiter limiter' : L) p : Prop :=
  identified request p
  ∧ (∀ permission event, _mutation_policy (rq_method request) (rq_path request) = Some (permission, event) →
     permits p permission = true)
  ∧ ∃ wait, limiter_allow (pr_user_id p) now limiter = (Ok (true, wait), limiter').

(** What the log gains besides the record of the request *)
Definition incident (l : list LogEvent) : Prop := l = [] ∨ l = [RateLimitBackendUnavailable].

Lemma forbidden_false request p :
  forbidden request p = false ↔
  ∀ permission event, _mutation_policy (rq_method request) (rq_path request) = Some (permission, event) →
    permits p permission = true.
Proof.
  unfold forbidden. destruct (_mutation_policy _ _) as [[permission event]|]; [|naive_solver].
  rewrite negb_false_iff. split; [by intros Hp ? ? [= <- <-]|eauto].
Qed.

Lemma authenticate_run request s :
  (∃ p, identified request p ∧
     authenticate decode_token py_str settings request s =
       (Ok (Some p), s <| sv_context ::= λ c, {| cc_request_id := cc_request_id c; cc_trace_id := cc_trace_id c;
                                                 cc_user_id := Some (pr_user_id p) |} |>))
  ∨ authenticate decode_token py_str settings request s = (Ok None, s)
  ∨ ∃ e, authenticate decode_token py_str settings request s = (Raise e, s).
Proof.
  unfold authenticate. destruct (authenticate_request _ _ _ _) as [p|[]] eqn:Ha; eauto.
  left. exists p. split; [by apply authenticated_identified|done].
Qed.

Lemma error_refusal status detail id headers :
  status ∈ [400; 401; 403; 413; 429; 503] → refusal (_error settings status detail id headers).
Proof. intros Hs. split; [done|by do 2 eexists]. Qed.

Lemma admit_cases request id now s :
  let '(r, s') := admit_request decode_token py_str (B := B) settings request id now s in
  sv_app s' = sv_app s ∧ (∃ l, incident l ∧ sv_log s' = sv_log s ++ l)
  ∧ match r with
    | Ok (inl response) => refusal response ∧ ∃ status detail headers, response = _error settings status detail id headers
    | Ok (inr p) => admitted request now (sv_limiter s) (sv_limiter s') p
        ∧ cc_request_id (sv_context s') = cc_request_id (sv_context s) ∧ cc_user_id (sv_context s') = Some (pr_user_id p)
    | Raise _ => True
    end.
Proof.
  assert (∀ l : list LogEvent, ∃ l', incident l' ∧ l = l ++ l') as Hsame
    by (intros l; exists []; split; [by left|by rewrite app_nil_r]).
  unfold admit_request, mbind, M_bind. destruct (authenticate_run request s) as [(p & Hp & ->)|[->|[e ->]]]; cbn.
  - destruct (forbidden request p) eqn:Hf; cbn.
    { split_and!; [done|done|apply error_refusal; set_solver|by do 3 eexists]. }
    unfold ask_limiter. cbn. destruct (limiter_allow (pr_user_id p) now (sv_limiter s)) as [[[[] wait]|e] l] eqn:Hl; cbn.
    + split_and!; [done|done|split; [done|split; [by apply forbidden_false|by eexists]]|done|done].
    + split_and!; [done|done|apply error_refusal; set_solver|by do 3 eexists].
    + destruct e; cbn; try (split_and!; done).
      split_and!; [done|exists [RateLimitBackendUnavailable]; split; [by right|done]
        |apply error_refusal; set_solver|by do 3 eexists].
  - split_and!; [done|done|apply error_refusal; set_solver|by do 3 eexists].
  - done.
Qed.

(** A length the request declares for its body is an integer within the limit.  The body
    itself is not looked at: a request that declares no length meets this. *)
Definition declared_within_limit request : Prop :=
  ∀ v, rq_headers request !! "content-length"%string = Some v → v ≠ ""%string →
  ∃ n, py_int 10 v = Some n ∧ n ≤ ss_max_request_body_bytes settings.

Lemma too_large_cases request s :
  let '(r, s') := too_large settings request s in
  s' = s ∧ match r with
           | Ok true => True
           | Ok false => declared_within_limit request
           | Raise e => e = ValueError
           end.
Proof.
  unfold too_large. destruct (rq_headers request !! "content-length"%string) as [v|] eqn:Hv;
    [|split; [done|intros v'; congruence]].
  destruct (str_truthy v) eqn:Ht.
  - destruct (py_int 10 v) as [n|] eqn:Hn; [|done]. split; [done|].
    destruct (Z.ltb_spec (ss_max_request_body_bytes settings) n); [done|].
    intros v' Hv' _. exists n. split; [congruence|done].
  - split; [done|]. intros v' Hv' Hne. unfold str_truthy in Ht. case_bool_decide; [congruence|done].
Qed.

(** What the application was asked and what became of its answer *)
Definition reached request id trace span (now : T) s (r : result security_error (Response B)) s' : Prop :=
  ∃ principal answered context,
    call_next {| st_request := request; st_request_id := id; st_principal := principal; st_context := context |}
      (sv_app s) = (answered, sv_app s')
    ∧ cc_request_id context = Some id
    ∧ r = match answered with
          | Ok response => Ok (finish_response settings id trace span response)
          | Raise e => Raise e
          end
    ∧ declared_within_limit request
    ∧ match principal with
      | None => rq_path request ∈ PUBLIC_HEALTH_PATHS ∧ sv_limiter s' = sv_limiter s
      | Some p => admitted request now (sv_limiter s) (sv_limiter s') p ∧ cc_user_id context = Some (pr_user_id p)
      end.

(** The request was answered or broken off before the application. *)
Definition stopped s (id : string) (r : result security_error (Response B)) s' : Prop :=
  sv_app s' = sv_app s
  ∧ ∀ response, r = Ok response →
    refusal response ∧ ∃ status detail headers, response = _error settings status detail id headers.

Lemma answer_cases request id trace span now s :
  cc_request_id (sv_context s) = Some id →
  let '(r, s') := answer decode_token py_str call_next settings request id trace span now s in
  (∃ l, incident l ∧ sv_log s' = sv_log s ++ l)
  ∧ (stopped s id r s' ∨ reached request id trace span now s r s').
Proof.
  intros Hid. unfold answer, mbind, M_bind. pose proof (too_large_cases request s) as Hlarge.
  destruct (too_large settings request s) as [[[]|e] s1]; destruct Hlarge as [-> Hlarge].
  { split; [exists []; split; [by left|by rewrite app_nil_r]|]. left. split; [done|].
    intros response [= <-]. split; [apply error_refusal; set_solver|by do 3 eexists]. }
  2:{ split; [exists []; split; [by left|by rewrite app_nil_r]|]. by left. }
  case_bool_decide as Hpath.
  - unfold run_app. destruct (call_next _ _) as [r app] eqn:Hc. destruct r as [response|e]; cbn.
    all: split; [exists []; split; [by left|by rewrite app_nil_r]|]; right.
    all: exists None; eexists; exists (sv_context s); rewrite Hc; by split_and!.
  - pose proof (admit_cases request id now s) as Hadmit.
    destruct (admit_request _ _ _ _ _ _ s) as [[[response|p]|e] s1]; destruct Hadmit as (Happ & Hlog & Hr).
    + split; [done|]. left. split; [done|]. by intros ? [= <-].
    + destruct Hr as [Hr Hl]. unfold run_app. destruct (call_next _ _) as [r app] eqn:Hc. destruct r; cbn.
      all: split; [exact Hlog|]; right; rewrite Happ in Hc; destruct Hl as [Hrid Huser].
      all: exists (Some p); eexists; exists (sv_context s1); rewrite Hc, Hrid; by split_and!.
    + split; [done|]. by left.
Qed.

(** *** [dispatch] *)

Definition request_id_of request (new_id : string) : string :=
  let requested := default ""%string (rq_headers request !! "x-request-id"%string) in
  if valid_request_id requested then requested else new_id.

(** A ValueError of the application becomes a 400. *)
Definition answered_by (id trace span : string) (answered : result security_error (Response B))
    : result security_error (Response B) :=
  match answered with
  | Ok response => Ok (finish_response settings id trace span response)
  | Raise ValueError | Raise AuthenticationError => Ok (_error settings 400 "Invalid request metadata." id ∅)
  | Raise e => Raise e
  end.

Lemma dispatch_cases request new_id new_trace span now s :
  let '(r, s') := dispatch' request new_id new_trace span now s in
  let id := request_id_of request new_id in
  let trace := from_traceparent (rq_headers request !! "traceparent"%string) new_trace in
  sv_context s' = sv_context s
  ∧ (∃ l, incident l ∧ sv_log s' = sv_log s ++ l ++
       [RequestCompleted (rq_method request) (rq_path request)
          (match r with Ok response => rs_status response | Raise _ => 500 end)])
  ∧ (stopped s id r s'
     ∨ ∃ principal answered context,
         call_next {| st_request := request; st_request_id := id; st_principal := principal; st_context := context |}
           (sv_app s) = (answered, sv_app s')
         ∧ cc_request_id context = Some id
         ∧ r = answered_by id trace span answered
         ∧ declared_within_limit request
         ∧ match principal with
           | None => rq_path request ∈ PUBLIC_HEALTH_PATHS ∧ sv_limiter s' = sv_limiter s
           | Some p => admitted request now (sv_limiter s) (sv_limiter s') p ∧ cc_user_id context = Some (pr_user_id p)
           end).
Proof.
  unfold dispatch. cbv zeta. fold (request_id_of request new_id).
  set (id := request_id_of request new_id). set (trace := from_traceparent _ _).
  set (started := s <| sv_context := _ |>).
  pose proof (answer_cases request id trace span now started eq_refl) as Hans.
  destruct (answer _ _ _ _ _ _ _ _ _ started) as [r s1]. destruct Hans as [(l & Hl & Hlog) Hcases]. cbn.
  split_and!; [done| |].
  { exists l. split; [done|]. rewrite Hlog. cbn. by rewrite app_assoc. }
  destruct Hcases as [[Happ Hresp]|(principal & answered & context & Hc & Hid & -> & Hw & Hp)].
  - left. split; [done|]. intros response. destruct r as [response'|[]]; try done; intros [= <-]; [by apply Hresp|..].
    all: split; [apply error_refusal; set_solver|by do 3 eexists].
  - right. exists principal, answered, context. split_and!; try done. by destruct answered as [|[]].
Qed.

(** C32: Only admitted requests reach the application.  A request either stops at the middleware,
    and then the application's state is untouched and any response is one of the
    middleware's refusals; or the application is asked exactly once, and then any length the
    request declared for its body is within the limit, and the path is a health path, or the
    request is identified, its role has the permission the mutation policy wants, and the
    limiter let this user in.  The application sees the identity the guards established, and
    its answer is what is sent.  A request that declares no length is let through with a body
    of any size ([undeclared_length_passes]). *)
Theorem only_admitted_requests_reach_the_application request new_id new_trace span now s :
  let '(r, s') := dispatch' request new_id new_trace span now s in
  let id := request_id_of request new_id in
  (sv_app s' = sv_app s ∧ ∀ response, r = Ok response → refusal response)
  ∨ ∃ principal answered context,
      call_next {| st_request := request; st_request_id := id; st_principal := principal; st_context := context |}
        (sv_app s) = (answered, sv_app s')
      ∧ r = answered_by id (from_traceparent (rq_headers request !! "traceparent"%string) new_trace) span answered
      ∧ declared_within_limit request
      ∧ match principal with
        | None => rq_path request ∈ PUBLIC_HEALTH_PATHS
        | Some p => admitted request now (sv_limiter s) (sv_limiter s') p ∧ cc_user_id context = Some (pr_user_id p)
        end.
Proof.
  pose proof (dispatch_cases request new_id new_trace span now s) as Hcases.
  destruct (dispatch' _ _ _ _ _ s) as [r s']. destruct Hcases as (_ & _ & [[Happ Hr]|Hreached]).
  - left. split; [done|]. intros response Hresp. by apply Hr.
  - right. destruct Hreached as (principal & answered & context & Hc & _ & Hr & Hw & Hp).
    exists principal, answered, context. split_and!; try done. by destruct principal as [p|]; [|apply Hp].
Qed.

(** *** Headers *)

Definition required_headers : list (string * string) :=
  [("content-security-policy", ss_content_security_policy settings); ("x-content-type-options", "nosniff");
   ("referrer-policy", "strict-origin-when-cross-origin"); ("x-frame-options", "DENY");
   ("permissions-policy", "camera=(), microphone=(), geolocation=()");
   ("cross-origin-opener-policy", "same-origin"); ("cache-control", "no-store")]%string
  ++ if hsts settings then [("strict-transport-security", "max-age=31536000; includeSubDomains")]%string else [].

Ltac header :=
  repeat (rewrite lookup_insert_eq || rewrite lookup_insert_ne by done); reflexivity.

Lemma security_headers_set headers name value :
  (name, value) ∈ required_headers → _security_headers settings headers !! name = Some value.
Proof.
  unfold required_headers, _security_headers. intros Hin. destruct (hsts settings); cbn in Hin.
  all: repeat (apply elem_of_cons in Hin as [[= -> ->]|Hin]; [header|]); by apply elem_of_nil in Hin.
Qed.

Lemma required_header_names name value :
  (name, value) ∈ required_headers → name ≠ "x-request-id"%string ∧ name ≠ "traceparent"%string.
Proof.
  unfold required_headers. intros Hin. destruct (hsts settings); cbn in Hin.
  all: repeat (apply elem_of_cons in Hin as [[= -> ->]|Hin]; [done|]); by apply elem_of_nil in Hin.
Qed.

Definition hardened (id : string) (response : Response B) : Prop :=
  rs_headers response !! "x-request-id"%string = Some id
  ∧ ∀ name value, (name, value) ∈ required_headers → rs_headers response !! name = Some value.

Lemma error_hardened status detail id headers : hardened id (_error settings status detail id headers).
Proof.
  split; cbn; [by rewrite lookup_insert_eq|]. intros name value Hin. cbn.
  destruct (required_header_names _ _ Hin). rewrite lookup_insert_ne by done. by apply security_headers_set.
Qed.

Lemma finished_hardened id trace span response : hardened id (finish_response settings id trace span response).
Proof.
  split; cbn; [header|]. intros name value Hin. destruct (required_header_names _ _ Hin).
  rewrite !lookup_insert_ne by done. by apply security_headers_set.
Qed.

(** Every response is hardened and accounted for.  Whatever the request and the application
    do, a response carries the security headers with the middleware's values, also where
    the application set others, and one well-formed request id: the client's if it is
    well-formed, else a fresh one.  The log gains one record of the request, with the
    status that was sent (500 when an exception went through), and the correlation context
    is what it was before. *)
Theorem every_response_is_hardened request new_id new_trace span now s :
  valid_request_id new_id = true →
  let '(r, s') := dispatch' request new_id new_trace span now s in
  (∀ response, r = Ok response →
     ∃ id, valid_request_id id = true ∧ hardened id response
           ∧ ∀ v, rq_headers request !! "x-request-id"%string = Some v → valid_request_id v = true → id = v)
  ∧ (∃ l, incident l ∧ sv_log s' = sv_log s ++ l ++
       [RequestCompleted (rq_method request) (rq_path request)
          (match r with Ok response => rs_status response | Raise _ => 500 end)])
  ∧ sv_context s' = sv_context s.
Proof.
  intros Hnew. pose proof (dispatch_cases request new_id new_trace span now s) as Hcases.
  destruct (dispatch' _ _ _ _ _ s) as [r s']. destruct Hcases as (Hctx & Hlog & Hcases).
  split; [|done]. intros response Hresp. exists (request_id_of request new_id). split_and!.
  - unfold request_id_of. cbv zeta. by destruct (valid_request_id (default _ _)) eqn:Hv.
  - destruct Hcases as [[_ Hr]|(principal & answered & context & _ & _ & Hr & _)].
    + destruct (Hr _ Hresp) as [_ (status & detail & headers & ->)]. apply error_hardened.
    + subst r. destruct answered as [response'|[]]; try done; injection Hresp as <-.
      1: apply finished_hardened. all: apply error_hardened.
  - intros v Hv Hvalid. unfold request_id_of. rewrite Hv. cbn. by rewrite Hvalid.
Qed.
End gate.

(** ** The routes of the discovery API *)

(** The mutating routes of main.py and opportunity_review/api.py, with their path parameters *)
Inductive Route : Type :=
| rt_prefilter | rt_scan | rt_scan_form
| rt_rescore (opportunity : string) | rt_promote (opportunity : string)
| rt_cancel (scan : string) | rt_retry (scan : string)
| rt_transition (opportunity : string) | rt_owner (opportunity : string)
| rt_override (opportunity : string) | rt_revert (opportunity override_id : string)
| rt_create_template | rt_update_template (template : string) | rt_archive_template (template : string)
| rt_create_batch | rt_confirm_batch (batch : string) | rt_queue_batch (batch : string).

Definition route_method (rt : Route) : string :=
  match rt with rt_update_template _ => "PUT" | rt_archive_template _ => "DELETE" | _ => "POST" end.

Definition route_path (rt : Route) : string :=
  match rt with
  | rt_prefilter => "/api/market-prefilter"
  | rt_scan => "/api/scans"
  | rt_scan_form => "/scan"
  | rt_rescore o => "/api/opportunities/" +:+ o +:+ "/rescore"
  | rt_promote o => "/api/opportunities/" +:+ o +:+ "/promote"
  | rt_cancel i => "/api/scans/" +:+ i +:+ "/cancel"
  | rt_retry i => "/api/scans/" +:+ i +:+ "/retry"
  | rt_transition o => "/api/opportunities/" +:+ o +:+ "/review/transition"
  | rt_owner o => "/api/opportunities/" +:+ o +:+ "/review/owner"
  | rt_override o => "/api/opportunities/" +:+ o +:+ "/overrides"
  | rt_revert o v => "/api/opportunities/" +:+ o +:+ "/overrides/" +:+ v +:+ "/revert"
  | rt_create_template => "/api/discovery-templates"
  | rt_update_template t | rt_archive_template t => "/api/discovery-templates/" +:+ t
  | rt_create_batch => "/api/batch-scan-plans"
  | rt_confirm_batch b => "/api/batch-scan-plans/" +:+ b +:+ "/confirm"
  | rt_queue_batch b => "/api/batch-scan-plans/" +:+ b +:+ "/queue"
  end%string.

(** What each route asks for *)
Definition route_permission (rt : Route) : Permission :=
  match rt with
  | rt_promote _ => run_full_scan
  | rt_rescore _ | rt_override _ | rt_revert _ _ => override_evidence
  | rt_transition _ | rt_owner _ => approve_opportunity
  | rt_create_template | rt_update_template _ | rt_archive_template _ => change_production_limits
  | _ => run_testing_scan
  end.

(** The text of an integer: not empty, without a letter or a slash *)
Definition id_char (a : Ascii.ascii) : bool :=
  let n := Ascii.nat_of_ascii a in negb ((97 <=? n) && (n <=? 122) || (n =? 47))%nat.
Definition id_text (v : string) : bool :=
  str_truthy v && forallb id_char (String.list_ascii_of_string v).

Definition route_ids (rt : Route) : list string :=
  match rt with
  | rt_rescore i | rt_promote i | rt_cancel i | rt_retry i | rt_transition i | rt_owner i | rt_override i
  | rt_update_template i | rt_archive_template i | rt_confirm_batch i | rt_queue_batch i => [i]
  | rt_revert i v => [i; v]
  | _ => []
  end.

Lemma list_ascii_app (a b : string) :
  String.list_ascii_of_string (a +:+ b) = String.list_ascii_of_string a ++ String.list_ascii_of_string b.
Proof. induction a as [|x a IH]; [done|]. change (x :: String.list_ascii_of_string (a +:+ b) = x :: (String.list_ascii_of_string a ++ String.list_ascii_of_string b)). by rewrite IH. Qed.

(** The end of a path decides its suffixes. *)
Lemma endswith_app suffix a b :
  py_endswith suffix (a +:+ b) =
  list_prefixb (rev (String.list_ascii_of_string suffix))
    (rev (String.list_ascii_of_string b) ++ rev (String.list_ascii_of_string a)).
Proof. unfold py_endswith. by rewrite list_ascii_app, rev_app_distr. Qed.

Lemma id_text_rev v : id_text v = true → ∃ a l, rev (String.list_ascii_of_string v) = a :: l ∧ id_char a = true.
Proof.
  unfold id_text, str_truthy. intros [Hne Hall]%andb_true_iff. apply negb_true_iff, bool_decide_eq_false in Hne.
  destruct (rev (String.list_ascii_of_string v)) as [|a l] eqn:Hr.
  - destruct v; [done|]. cbn in Hr. by destruct (rev (String.list_ascii_of_string v)).
  - exists a, l. split; [done|]. rewrite forallb_forall in Hall. apply Hall, in_rev. rewrite Hr. by left.
Qed.

(** A path that ends in an id ends in no word. *)
Lemma endswith_id c suffix a v :
  id_char c = false → id_text v = true → rev (String.list_ascii_of_string suffix) = c :: tail (rev (String.list_ascii_of_string suffix)) →
  py_endswith suffix (a +:+ v) = false.
Proof.
  intros Hc Hv Hs. rewrite endswith_app, Hs. destruct (id_text_rev v Hv) as (b & l & -> & Hb). cbn.
  destruct (Ascii.eqb_spec c b); [congruence|done].
Qed.

Lemma forallb_ids_app v (t : string) : forallb id_char (String.list_ascii_of_string v) = true →
  contains "/overrides" (v +:+ t) = contains "/overrides" t.
Proof.
  induction v as [|a v IH]; [done|]. cbn [String.list_ascii_of_string forallb]. intros [Ha Hv]%andb_true_iff.
  change (String a v +:+ t)%string with (String a (v +:+ t)). cbn [contains String.prefix].
  destruct (Ascii.ascii_dec "/" a) as [<-|]; [done|]. by apply IH.
Qed.

(** An id is no override. *)
Lemma contains_id v t : id_text v = true → contains "/overrides" (String "/" (v +:+ t)) = contains "/overrides" t.
Proof.
  intros Hv. rewrite <- (forallb_ids_app v t) by (by apply andb_true_iff in Hv as [_ ?]).
  apply andb_true_iff in Hv as [Hne Hv]. destruct v as [|a v]; [done|].
  cbn [String.list_ascii_of_string forallb] in Hv. apply andb_true_iff in Hv as [Ha _].
  change (String a v +:+ t)%string with (String a (v +:+ t)). cbn [contains String.prefix].
  destruct (Ascii.ascii_dec "/" "/"); [|done]. by destruct (Ascii.ascii_dec "o" a) as [<-|].
Qed.

Lemma contains_after a t : contains "/overrides" t = true → contains "/overrides" (a +:+ t) = true.
Proof.
  intros Ht. induction a as [|x a IH]; [done|]. change (String x a +:+ t)%string with (String x (a +:+ t)).
  cbn [contains]. by rewrite IH, orb_true_r.
Qed.

Lemma contains_here t : contains "/overrides" ("/overrides" +:+ t) = true.
Proof. by destruct t. Qed.

Lemma policy_skip m prefix permission event rows method path :
  String.eqb method m && covers prefix path = false →
  policy_in ((m, prefix, permission, event) :: rows) method path = policy_in rows method path.
Proof. intros Hc. cbn. by rewrite Hc. Qed.

Lemma policy_hit m prefix permission event rows x :
  py_endswith "/" prefix = true →
  policy_in ((m, prefix, permission, event) :: rows) m (prefix +:+ x)
    = Some (default (permission, event) (special_policy (prefix +:+ x))).
Proof.
  intros Hp. cbn. unfold covers. by rewrite String.eqb_refl, Hp, prefix_of_app, orb_true_r.
Qed.

Lemma policy_opportunity x :
  _mutation_policy "POST" ("/api/opportunities/" +:+ x)
  = Some (default (override_evidence, "opportunity.change"%string) (special_policy ("/api/opportunities/" +:+ x))).
Proof. unfold _mutation_policy, MUTATION_PERMISSIONS. do 2 (rewrite policy_skip by reflexivity). by apply policy_hit. Qed.

Lemma policy_scan x :
  _mutation_policy "POST" ("/api/scans/" +:+ x)
  = Some (default (run_testing_scan, "scan.change"%string) (special_policy ("/api/scans/" +:+ x))).
Proof. unfold _mutation_policy, MUTATION_PERMISSIONS. do 3 (rewrite policy_skip by reflexivity). by apply policy_hit. Qed.

Lemma policy_batch x :
  _mutation_policy "POST" ("/api/batch-scan-plans/" +:+ x)
  = Some (default (run_testing_scan, "batch.change"%string) (special_policy ("/api/batch-scan-plans/" +:+ x))).
Proof. unfold _mutation_policy, MUTATION_PERMISSIONS. do 8 (rewrite policy_skip by reflexivity). by apply policy_hit. Qed.

Lemma special_id a v : id_text v = true →
  special_policy (a +:+ (String "/" v)) = if contains "/overrides" (a +:+ String "/" v) then Some (override_evidence, "opportunity.evidence_override"%string) else None.
Proof.
  intros Hv.
  assert (∀ suffix c, id_char c = false → rev (String.list_ascii_of_string suffix) = c :: tail (rev (String.list_ascii_of_string suffix)) →
            py_endswith suffix (a +:+ String "/" v) = false) as Hends.
  { intros suffix c Hc Hs. assert (a +:+ String "/" v = (a +:+ "/") +:+ v)%string as ->.
    { by rewrite append_assoc. }
    by apply (endswith_id c). }
  unfold special_policy.
  rewrite (Hends "/promote" "e"%char), (Hends "/rescore" "e"%char), (Hends "/review/transition" "n"%char),
    (Hends "/review/owner" "r"%char), (Hends "/cancel" "l"%char), (Hends "/retry" "y"%char) by reflexivity.
  by destruct (contains "/overrides" (a +:+ String "/" v)).
Qed.

Lemma special_word a v word :
  id_text v = true → (∀ x, contains "/overrides" (a +:+ x) = contains "/overrides" (String "/" x)) →
  (∀ suffix x, suffix ∈ ["/promote"; "/rescore"; "/review/transition"; "/review/owner"; "/cancel"; "/retry"]%string →
     list_prefixb (rev (String.list_ascii_of_string suffix)) (rev (String.list_ascii_of_string word) ++ x)
     = py_endswith suffix word) →
  special_policy (a +:+ (v +:+ word)) = special_policy word.
Proof.
  intros Hv Hc Hw. unfold special_policy. rewrite Hc, contains_id, <- append_assoc, !endswith_app by done.
  by rewrite !Hw by (repeat (left || right); done).
Qed.

Ltac word :=
  rewrite special_word; [reflexivity|done|reflexivity
    |intros suffix x Hin; repeat (apply elem_of_cons in Hin as [->|Hin]; [reflexivity|]); by apply elem_of_nil in Hin].

Lemma special_revert a v w :
  special_policy (a +:+ (v +:+ ("/overrides/" +:+ (w +:+ "/revert"))))
  = Some (override_evidence, "opportunity.evidence_override"%string).
Proof.
  assert (contains "/overrides" (a +:+ (v +:+ ("/overrides/" +:+ (w +:+ "/revert")))) = true) as Hc.
  { apply contains_after, contains_after. exact (contains_here (String "/" (w +:+ "/revert"))). }
  unfold special_policy. rewrite Hc, <- !append_assoc, !endswith_app. reflexivity.
Qed.

Lemma special_template v : id_text v = true → special_policy ("/api/discovery-templates/" +:+ v) = None.
Proof.
  intros Hv. change ("/api/discovery-templates/" +:+ v)%string with ("/api/discovery-templates" +:+ String "/" v)%string.
  rewrite special_id by done. change (contains "/overrides" ("/api/discovery-templates" +:+ String "/" v))
    with (contains "/overrides" (String "/" v)). pose proof (contains_id v "" Hv) as Hc.
  rewrite append_nil in Hc. by rewrite Hc.
Qed.

(** Every route has its policy. *)
Lemma policy_of_route rt :
  forallb id_text (route_ids rt) = true →
  ∃ event, _mutation_policy (route_method rt) (route_path rt) = Some (route_permission rt, event).
Proof.
  intros Hids. destruct rt; cbn [route_ids forallb route_method route_path route_permission] in *;
    rewrite ?andb_true_r in Hids; try (eexists; reflexivity).
  all: rewrite ?policy_opportunity, ?policy_scan, ?policy_batch.
  all: try (eexists; word).
  - eexists. by rewrite special_revert.
  - unfold _mutation_policy, MUTATION_PERMISSIONS. do 5 (rewrite policy_skip by reflexivity).
    rewrite policy_hit, special_template by done. by eexists.
  - unfold _mutation_policy, MUTATION_PERMISSIONS. do 6 (rewrite policy_skip by reflexivity).
    rewrite policy_hit, special_template by done. by eexists.
Qed.

Lemma route_not_public rt : route_path rt ∉ PUBLIC_HEALTH_PATHS.
Proof.
  unfold PUBLIC_HEALTH_PATHS. intros Hin.
  destruct rt; repeat (apply elem_of_cons in Hin as [[=]|Hin]); by apply elem_of_nil in Hin.
Qed.

Lemma read_only_permits_nothing rt p : permits p (route_permission rt) = true → pr_role p ≠ role_read_only.
Proof.
  unfold permits. intros Hp%bool_decide_eq_true Hr. rewrite Hr in Hp.
  destruct rt; apply elem_of_cons in Hp as [?|Hp]; try done; by apply elem_of_nil in Hp.
Qed.

Section authorization.
Context {L T W B : Type} `{RateLimiter L T}.
Context (decode_token : string → option dict) (py_str : json → string).
Context (call_next : RequestState → W → result security_error (Response B) * W).
Context (settings : SecuritySettings).

Lemma deployed_uses_tokens request p :
  hsts settings = true → identified decode_token py_str settings request p → pr_auth_method p = "oidc"%string.
Proof.
  unfold hsts. intros Hs%bool_decide_eq_true [|? ? _ Hd]; [done|].
  unfold development in Hd. apply bool_decide_eq_true in Hd.
  destruct settings as [env]; cbn in *. set_solver.
Qed.

(** C31: Discovery mutations are authorized.  A request to one of the mutating routes of the
    discovery API (any ids) changes the application only when it comes from an identified
    principal whose role has the permission the route needs; a read-only principal never
    changes anything there, and in staging and production the principal is always the
    subject of a validated token. *)
Theorem discovery_mutations_are_authorized rt request new_id new_trace span now (s : Server L W) :
  forallb id_text (route_ids rt) = true →
  rq_method request = route_method rt → rq_path request = route_path rt →
  let '(r, s') := dispatch decode_token py_str call_next settings request new_id new_trace span now s in
  sv_app s' ≠ sv_app s →
  ∃ p, identified decode_token py_str settings request p
       ∧ permits p (route_permission rt) = true ∧ pr_role p ≠ role_read_only
       ∧ (hsts settings = true → pr_auth_method p = "oidc"%string).
Proof.
  intros Hids Hmethod Hpath.
  pose proof (dispatch_cases decode_token py_str call_next settings request new_id new_trace span now s) as Hcases.
  destruct (dispatch _ _ _ _ _ _ _ _ _ s) as [r s']. intros Hchanged.
  destruct Hcases as (_ & _ & [[Happ _]|(principal & ? & ? & _ & _ & _ & _ & Hp)]); [done|].
  destruct principal as [p|]; [|by destruct Hp as [Hp _]; rewrite Hpath in Hp; apply route_not_public in Hp].
  destruct Hp as [(Hident & Hpermit & _) _]. destruct (policy_of_route rt Hids) as [event Hpolicy].
  rewrite <- Hmethod, <- Hpath in Hpolicy. specialize (Hpermit _ _ Hpolicy).
  exists p. split_and!; [done|done|by eapply read_only_permits_nothing|intros; by eapply deployed_uses_tokens].
Qed.
End authorization.

(** ** The in-process rate limiter *)
Section limiter.
Implicit Types (t now last threshold : Q) (l hist stored : list Q).

(** The reference: a call is admitted when fewer than [requests] admitted calls of its key
    lie in the window that ends now; nothing is ever forgotten. *)
Definition recent threshold l : list Q := List.filter (λ t, negb (Qle_bool t threshold)) l.
Definition times_of (key : string) (admitted : list (string * Q)) : list Q :=
  map snd (List.filter (λ '(k, _), bool_decide (k = key)) admitted).
Definition reference_allows (requests window : Z) key now (admitted : list (string * Q)) : bool :=
  Z.of_nat (length (recent (now - inject_Z window)%Q (times_of key admitted))) <? requests.

Fixpoint reference_run (requests window : Z) (calls : list (string * Q)) (admitted : list (string * Q)) : list bool :=
  match calls with
  | [] => []
  | (key, now) :: calls' =>
      let ok := reference_allows requests window key now admitted in
      ok :: reference_run requests window calls' (if ok then admitted ++ [(key, now)] else admitted)
  end.

Fixpoint limiter_run (calls : list (string * Q)) (w : FixedWindow Q) : list (result security_error (bool * Z)) :=
  match calls with
  | [] => []
  | (key, now) :: calls' => let '(r, w') := limiter_allow key now w in r :: limiter_run calls' w'
  end.

Fixpoint clock_forward last (calls : list (string * Q)) : Prop :=
  match calls with [] => True | (_, now) :: calls' => (last <= now)%Q ∧ clock_forward now calls' end.

Lemma drop_until_recent threshold l :
  StronglySorted Qle l → drop_until threshold l = recent threshold l.
Proof.
  induction 1 as [|t l _ IH Hall]; [done|]. cbn. destruct (Qle_bool t threshold) eqn:Ht; cbn; [done|].
  f_equal. symmetry. apply List.forallb_filter_id, forallb_forall. intros x Hx%list_elem_of_In.
  rewrite Forall_forall in Hall. specialize (Hall x Hx). apply negb_true_iff.
  destruct (Qle_bool x threshold) eqn:Hxt; [|done]. apply Qle_bool_iff in Hxt.
  assert (Qle_bool t threshold = true) by (apply Qle_bool_iff; lra). congruence.
Qed.

Lemma recent_recent threshold threshold' l :
  (threshold <= threshold')%Q → recent threshold' (recent threshold l) = recent threshold' l.
Proof.
  intros Hle. unfold recent. induction l as [|t l IH]; [done|]. cbn.
  destruct (Qle_bool t threshold) eqn:Ht; cbn; rewrite IH; [|done]. apply Qle_bool_iff in Ht. by assert (Qle_bool t threshold' = true) as -> by (apply Qle_bool_iff; lra).
Qed.

(** What the limiter keeps of a key is enough for every window that ends later. *)
Record window_ok (requests window : Z) last hist stored : Prop := {
  wo_recent threshold : (last - inject_Z window <= threshold)%Q → recent threshold stored = recent threshold hist;
  wo_sorted : StronglySorted Qle stored;
  wo_past : Forall (λ t, (t <= last)%Q) stored;
  wo_size : Z.of_nat (length stored) ≤ requests
}.

Lemma recent_app threshold l l' : recent threshold (l ++ l') = recent threshold l ++ recent threshold l'.
Proof. apply List.filter_app. Qed.

Lemma recent_forall (P : Q → Prop) threshold l : Forall P l → Forall P (recent threshold l).
Proof. rewrite !Forall_forall. intros Hl x Hx%list_elem_of_In%List.filter_In. apply Hl, list_elem_of_In, Hx. Qed.

Lemma recent_sorted threshold l : StronglySorted Qle l → StronglySorted Qle (recent threshold l).
Proof.
  induction 1 as [|t l Hs IH Hall]; [constructor|]. cbn. case_match; [|done]. constructor; [done|].
  by apply recent_forall.
Qed.

Lemma sorted_snoc l now : StronglySorted Qle l → Forall (λ t, (t <= now)%Q) l → StronglySorted Qle (l ++ [now]).
Proof.
  induction 1 as [|t l Hs IH Hall]; intros Hf; [repeat constructor|].
  apply Forall_cons in Hf as [Ht Hf]. constructor; [by apply IH|]. apply Forall_app. split; [done|by constructor].
Qed.

Lemma window_later requests window last now hist stored :
  (last <= now)%Q → window_ok requests window last hist stored → window_ok requests window now hist stored.
Proof.
  intros Hle [Hr Hs Hp Hn]. split; [|done| |done].
  - intros threshold Ht. apply Hr. lra.
  - eapply Forall_impl; [exact Hp|]. cbn. intros; lra.
Qed.

(** One call: the verdict of the reference, and the times kept for later. *)
Lemma fw_allow_run requests window key now last hist (w : FixedWindow Q) :
  1 ≤ requests → fw_requests w = requests → fw_window_seconds w = window → (last <= now)%Q →
  window_ok requests window last hist (default [] (fw_windows w !! key)) →
  let ok := Z.of_nat (length (recent (now - inject_Z window)%Q hist)) <? requests in
  ∃ wait stored, limiter_allow key now w = (Ok (ok, wait), fw_put key stored w)
    ∧ (if ok then wait = 0 else 1 ≤ wait)
    ∧ window_ok requests window now (if ok then hist ++ [now] else hist) stored.
Proof.
  intros Hreq Hr Hw Hle Hok. pose proof (window_later _ _ _ _ _ _ Hle Hok) as [Hrec Hsort Hpast Hsize].
  set (stored := default [] _) in *. unfold limiter_allow, FixedWindowRateLimiter, fw_allow. rewrite Hr, Hw. cbv zeta.
  change (num_ratio window 1) with (inject_Z window). change (num_sub now (inject_Z window)) with (now - inject_Z window)%Q.
  set (threshold := (now - inject_Z window)%Q) in *. fold stored.
  rewrite (drop_until_recent _ _ Hsort), (Hrec threshold) by lra.
  assert (window_ok requests window now hist (recent threshold hist)) as Hkept.
  { rewrite <- (Hrec threshold) by lra. split; [|by apply recent_sorted|by apply recent_forall|].
    2:{ unfold recent. pose proof (List.filter_length_le (λ t, negb (Qle_bool t threshold)) stored). lia. }
    intros threshold' Ht. rewrite recent_recent by (unfold threshold; lra). by apply Hrec. }
  destruct (Z.leb_spec requests (Z.of_nat (length (recent threshold hist)))) as [Hfull|Hfree].
  - rewrite (proj2 (Z.ltb_ge _ _)) by lia. destruct (recent threshold hist) as [|t l]; [cbn in Hfull; lia|].
    do 2 eexists. split_and!; [reflexivity|lia|done].
  - rewrite (proj2 (Z.ltb_lt _ _)) by lia. do 2 eexists. split_and!; [reflexivity|done|].
    destruct Hkept as [Hrec' Hsort' Hpast' _]. split.
    + intros threshold' Ht. by rewrite !recent_app, Hrec'.
    + by apply sorted_snoc.
    + apply Forall_app. split; [done|]. constructor; [lra|done].
    + rewrite List.length_app. cbn. lia.
Qed.

(** The limiter after a run of calls *)
Fixpoint limiter_after (calls : list (string * Q)) (w : FixedWindow Q) : FixedWindow Q :=
  match calls with [] => w | (key, now) :: calls' => limiter_after calls' (limiter_allow key now w).2 end.

Definition limiter_ok (requests window : Z) last admitted (w : FixedWindow Q) : Prop :=
  fw_requests w = requests ∧ fw_window_seconds w = window
  ∧ ∀ key, window_ok requests window last (times_of key admitted) (default [] (fw_windows w !! key)).

Definition new_limiter (requests window : Z) : FixedWindow Q :=
  {| fw_requests := requests; fw_window_seconds := window; fw_windows := ∅ |}.

Lemma new_limiter_ok requests window last : 1 ≤ requests → limiter_ok requests window last [] (new_limiter requests window).
Proof.
  intros Hr. split_and!; [done|done|]. intros key. cbn. rewrite lookup_empty.
  split; [done|constructor|constructor|cbn; lia].
Qed.

Lemma times_of_snoc key k now admitted :
  times_of key (admitted ++ [(k, now)]) = times_of key admitted ++ if bool_decide (k = key) then [now] else [].
Proof. unfold times_of. rewrite List.filter_app, List.map_app. cbn. by case_bool_decide. Qed.

Lemma limiter_step requests window key now last admitted w :
  1 ≤ requests → (last <= now)%Q → limiter_ok requests window last admitted w →
  let ok := reference_allows requests window key now admitted in
  ∃ wait w', limiter_allow key now w = (Ok (ok, wait), w') ∧ (if ok then wait = 0 else 1 ≤ wait)
    ∧ limiter_ok requests window now (if ok then admitted ++ [(key, now)] else admitted) w'.
Proof.
  intros Hreq Hle (Hr & Hw & Hkeys). cbv zeta.
  destruct (fw_allow_run requests window key now last (times_of key admitted) w Hreq Hr Hw Hle (Hkeys key))
    as (wait & stored & Hrun & Hwait & Hok).
  fold (reference_allows requests window key now admitted) in Hrun, Hwait, Hok.
  set (ok := reference_allows requests window key now admitted) in *.
  exists wait, (fw_put key stored w). split_and!; [done|done|]. split_and!; [done|done|].
  intros key'. cbn [fw_windows fw_put]. destruct (decide (key' = key)) as [->|Hne].
  - rewrite lookup_insert_eq. cbn. destruct ok; [|done]. by rewrite times_of_snoc, bool_decide_eq_true_2.
  - rewrite lookup_insert_ne by done. destruct ok.
    + rewrite times_of_snoc, bool_decide_eq_false_2, app_nil_r by done. by eapply window_later.
    + by eapply window_later.
Qed.

Lemma limiter_run_reference requests window calls : 1 ≤ requests → ∀ last admitted w,
  clock_forward last calls → limiter_ok requests window last admitted w →
  ∃ verdicts, limiter_run calls w = map Ok verdicts
    ∧ map fst verdicts = reference_run requests window calls admitted
    ∧ Forall (λ v : bool * Z, if v.1 then v.2 = 0 else 1 ≤ v.2) verdicts.
Proof.
  intros Hreq. induction calls as [|[key now] calls IH]; intros last admitted w Hclock Hok; [by exists []|].
  destruct Hclock as [Hle Hclock].
  destruct (limiter_step requests window key now last admitted w Hreq Hle Hok) as (wait & w' & Hrun & Hwait & Hok').
  destruct (IH now _ w' Hclock Hok') as (verdicts & Hl & Hfst & Hall).
  exists ((reference_allows requests window key now admitted, wait) :: verdicts). cbn. rewrite Hrun, Hl, Hfst.
  split_and!; [done|done|by constructor].
Qed.

(** The calls a run admitted *)
Fixpoint admitted_calls (calls : list (string * Q)) (verdicts : list bool) : list (string * Q) :=
  match calls, verdicts with
  | c :: calls', ok :: verdicts' => (if ok : bool then [c] else []) ++ admitted_calls calls' verdicts'
  | _, _ => []
  end.

(** Calls of a key in the window of [window] seconds that ends at [t] *)
Definition window_count (window : Z) (key : string) (t : Q) (admitted : list (string * Q)) : Z :=
  Z.of_nat (length (List.filter (λ x, Qle_bool x t) (recent (t - inject_Z window)%Q (times_of key admitted)))).

Lemma recent_length_anti threshold threshold' l :
  (threshold <= threshold')%Q → (length (recent threshold' l) ≤ length (recent threshold l))%nat.
Proof. intros Hle. rewrite <- (recent_recent threshold) by done. apply List.filter_length_le. Qed.

Lemma window_count_snoc requests window key k now t admitted :
  reference_allows requests window k now admitted = true → window_count window key t admitted ≤ requests →
  window_count window key t (admitted ++ [(k, now)]) ≤ requests.
Proof.
  unfold reference_allows, window_count. intros Hallow%Z.ltb_lt Hcount. rewrite times_of_snoc.
  case_bool_decide as Hk; [subst k|by rewrite app_nil_r].
  rewrite recent_app, List.filter_app, List.length_app. destruct (Qle_bool now t) eqn:Ht.
  - apply Qle_bool_iff in Ht.
    pose proof (recent_length_anti (now - inject_Z window) (t - inject_Z window) (times_of key admitted) ltac:(lra)).
    pose proof (List.filter_length_le (λ x, Qle_bool x t) (recent (t - inject_Z window)%Q (times_of key admitted))).
    pose proof (List.filter_length_le (λ x, Qle_bool x t) (recent (t - inject_Z window)%Q [now])).
    pose proof (List.filter_length_le (λ x, negb (Qle_bool x (t - inject_Z window)%Q)) [now]) as Hone.
    change (length [now]) with 1%nat in Hone. unfold recent in *. lia.
  - assert (List.filter (λ x, Qle_bool x t) (recent (t - inject_Z window)%Q [now]) = []) as ->;
      [|cbn; lia]. cbn. by case_match; cbn; rewrite ?Ht.
Qed.

Lemma reference_bound requests window key t calls : ∀ admitted,
  window_count window key t admitted ≤ requests →
  window_count window key t (admitted ++ admitted_calls calls (reference_run requests window calls admitted)) ≤ requests.
Proof.
  induction calls as [|[k now] calls IH]; intros admitted Hcount; cbn; [by rewrite app_nil_r|].
  destruct (reference_allows requests window k now admitted) eqn:Hallow; cbn; [|by apply IH].
  replace (admitted ++ (k, now) :: _) with ((admitted ++ [(k, now)]) ++ admitted_calls calls (reference_run requests window calls (admitted ++ [(k, now)])))
    by (by rewrite <- app_assoc). by apply IH, (window_count_snoc requests).
Qed.

(** C33: The rate limiter is exact.  While the clock does not go back, the limiter, which forgets
    the calls that left the window, gives on every interleaving of users exactly the
    verdicts of the reference, which forgets nothing; it never raises; a refusal names a
    wait of at least a second; and no window, wherever it ends, holds more admitted calls of
    a user than configured. *)
Theorem limiter_matches_the_reference requests window start calls :
  1 ≤ requests → clock_forward start calls →
  ∃ verdicts, limiter_run calls (new_limiter requests window) = map Ok verdicts
    ∧ map fst verdicts = reference_run requests window calls []
    ∧ Forall (λ v : bool * Z, if v.1 then v.2 = 0 else 1 ≤ v.2) verdicts
    ∧ ∀ key t, window_count window key t (admitted_calls calls (map fst verdicts)) ≤ requests.
Proof.
  intros Hreq Hclock.
  destruct (limiter_run_reference requests window calls Hreq start [] _ Hclock (new_limiter_ok _ _ _ Hreq))
    as (verdicts & Hrun & Hfst & Hall).
  exists verdicts. split_and!; [done..|]. intros key t. rewrite Hfst.
  apply (reference_bound requests window key t calls []). unfold window_count. cbn. lia.
Qed.

Lemma trunc_up (x : Q) : (x <= inject_Z (num_trunc x) + 1)%Q.
Proof.
  destruct x as [n d]. unfold num_trunc, Truncate_Q, inject_Z, Qplus, Qle. cbn.
  pose proof (Z.quot_rem' n (Zpos d)). pose proof (Z.rem_bound_abs n (Zpos d) ltac:(lia)). nia.
Qed.

Lemma inject_max a b : (inject_Z b <= inject_Z (Z.max a b))%Q.
Proof. rewrite <- Zle_Qle. lia. Qed.

(** A refused user who waits a second longer than told, and makes no other call, is let in. *)
Theorem waiting_is_enough requests window last admitted (w : FixedWindow Q) key now now' wait w' :
  1 ≤ requests → limiter_ok requests window last admitted w → (last <= now)%Q →
  limiter_allow key now w = (Ok (false, wait), w') → (now + inject_Z wait + 1 <= now')%Q →
  (limiter_allow key now' w').1 = Ok (true, 0).
Proof.
  intros Hreq (Hr & Hw & Hkeys) Hle. pose proof (window_later _ _ _ _ _ _ Hle (Hkeys key)) as [_ Hsort _ Hsize].
  unfold limiter_allow, FixedWindowRateLimiter, fw_allow. rewrite Hr, Hw. cbv zeta.
  set (stored := default [] _) in *. rewrite (drop_until_recent _ _ Hsort).
  set (kept := recent _ stored) in *.
  assert (StronglySorted Qle kept) as Hks by by apply recent_sorted.
  assert (Z.of_nat (length kept) ≤ requests) as Hkn.
  { unfold kept, recent. pose proof (List.filter_length_le (λ t, negb (Qle_bool t (num_sub now (num_ratio window 1)))) stored). lia. }
  destruct (Z.leb_spec requests (Z.of_nat (length kept))) as [Hfull|]; [|done].
  destruct kept as [|t l] eqn:Hkept; [done|]. intros [= <- <-] Hnow'. cbn [fw_put fw_windows fw_requests fw_window_seconds].
  rewrite Hr, Hw, lookup_insert_eq. unfold default, from_option, id.
  change (num_sub now' (num_ratio window 1)) with (now' - inject_Z window)%Q. set (threshold := (now' - inject_Z window)%Q).
  assert (num_leb t threshold = true) as Ht.
  { apply Qle_bool_iff. change (num_ratio window 1) with (inject_Z window) in *.
    pose proof (trunc_up (inject_Z window - (now - t))%Q) as Htrunc.
    change (Qmake window 1) with (inject_Z window) in Hnow'.
    pose proof (inject_max 1 (num_trunc (inject_Z window - (now - t))%Q)). unfold threshold. lra. }
  cbn [drop_until]. rewrite Ht, (drop_until_recent _ l) by (by inversion Hks).
  pose proof (List.filter_length_le (λ t, negb (Qle_bool t threshold)) l).
  cbn [length] in Hkn. rewrite (proj2 (Z.leb_gt _ _)); [done|]. unfold recent. lia.
Qed.
End limiter.

(** ** A day at the gate *)
Module GateRun.
#[local] Open Scope string_scope.

(** Tokens are their role; the application counts its requests. *)
Definition decode_token (token : string) : option dict :=
  if bool_decide (token = "bad") then None
  else if bool_decide (token = "nobody") then Some [("sub", JStr "u"); ("roles", JNull)]
  else Some [("sub", JStr ("user-" +:+ token)); ("roles", JList [JStr token])].
Definition py_str (v : json) : string := match v with JStr s => s | _ => "" end.
Definition application (_ : RequestState) (n : Z) : result security_error (Response unit) * Z :=
  (Ok {| rs_status := 200; rs_headers := {["x-frame-options" := "SAMEORIGIN"]}; rs_body := AppBody tt |}, (n + 1)%Z).

Definition production : SecuritySettings := {|
  ss_app_env := "production"; ss_auth_mode := "oidc"; ss_local_auth_enabled := false;
  ss_local_auth_default_user := "local-admin"; ss_local_auth_default_role := "admin";
  ss_oidc_roles_claim := "roles"; ss_max_request_body_bytes := 1048576;
  ss_content_security_policy := "default-src 'self'" |}.

Definition request (method path token : string) : Request := {|
  rq_method := method; rq_path := path;
  rq_headers := {["authorization" := "Bearer " +:+ token; "x-request-id" := "client-0001"]} |}.

Definition server : Server (FixedWindow Q) Z := {|
  sv_limiter := new_limiter 2 60; sv_app := 0;
  sv_context := {| cc_request_id := None; cc_trace_id := None; cc_user_id := None |};
  sv_auth_failures := 0; sv_rate_limit_responses := 0; sv_log := [] |}.

Definition serve (rq : Request) (now : Q) (s : Server (FixedWindow Q) Z) :=
  dispatch decode_token py_str application production rq "fresh-request-id" "trace" "span" now s.

Definition status_of (r : result security_error (Response unit) * Server (FixedWindow Q) Z) : option Z :=
  match r.1 with Ok response => Some (rs_status response) | Raise _ => None end.

Lemma served :
  status_of (serve (request "POST" "/api/opportunities/7/promote" "operator") 1 server) = Some 200%Z
  ∧ status_of (serve (request "POST" "/api/opportunities/7/promote" "read_only") 1 server) = Some 403%Z
  ∧ status_of (serve (request "GET" "/api/scans" "bad") 1 server) = Some 401%Z
  ∧ status_of (serve (request "GET" "/live" "bad") 1 server) = Some 200%Z.
Proof. by vm_compute. Qed.

Lemma every_response_is_hardened_witness :
  ∃ response, (serve (request "POST" "/api/scans" "read_only") 1 server).1 = Ok response
              ∧ rs_status response = 403%Z ∧ hardened production "client-0001" response.
Proof.
  pose proof (every_response_is_hardened decode_token py_str application production
    (request "POST" "/api/scans" "read_only") "fresh-request-id" "trace" "span" 1%Q server eq_refl) as Hall.
  unfold serve. destruct (dispatch _ _ _ _ _ _ _ _ _ server) as [r s'] eqn:Hrun.
  assert (status_of (r, s') = Some 403%Z) as Hstatus by (rewrite <- Hrun; by vm_compute).
  destruct Hall as [Hr _]. destruct r as [response|e]; [|done].
  destruct (Hr response eq_refl) as (id & _ & Hhard & Hid).
  specialize (Hid "client-0001" eq_refl eq_refl). subst id.
  exists response. split; [done|]. split; [by injection Hstatus|done].
Defined.

Lemma discovery_mutations_are_authorized_witness :
  sv_app (serve (request "POST" "/api/opportunities/7/promote" "operator") 1 server).2 = 1%Z
  ∧ ∃ p, identified decode_token py_str production (request "POST" "/api/opportunities/7/promote" "operator") p
         ∧ permits p run_full_scan = true ∧ pr_role p ≠ role_read_only
         ∧ (hsts production = true → pr_auth_method p = "oidc").
Proof.
  pose proof (discovery_mutations_are_authorized decode_token py_str application production (rt_promote "7")
    (request "POST" "/api/opportunities/7/promote" "operator") "fresh-request-id" "trace" "span" 1%Q server
    eq_refl eq_refl eq_refl) as Hall.
  assert (sv_app (serve (request "POST" "/api/opportunities/7/promote" "operator") 1 server).2 = 1%Z) as Happ
    by by vm_compute.
  unfold serve in *. destruct (dispatch _ _ _ _ _ _ _ _ _ server) as [r s']. cbn [snd] in Happ. split; [done|].
  apply Hall. rewrite Happ. discriminate.
Defined.

Definition calls : list (string * Q) := [("a", 0); ("a", 1 # 2); ("b", 1); ("a", 3 # 2); ("a", 60); ("a", 61)]%Q.

Lemma limiter_matches_the_reference_witness :
  reference_run 2 60 calls [] = [true; true; true; false; true; true]
  ∧ ∃ verdicts, limiter_run calls (new_limiter 2 60) = map Ok verdicts
      ∧ map fst verdicts = reference_run 2 60 calls []
      ∧ Forall (λ v : bool * Z, if v.1 then v.2 = 0%Z else (1 <= v.2)%Z) verdicts
      ∧ ∀ key t, (window_count 60 key t (admitted_calls calls (map fst verdicts)) <= 2)%Z.
Proof.
  split; [by vm_compute|]. apply (limiter_matches_the_reference 2 60 0 calls); [lia|]. cbn. lra.
Defined.

(** ** Observations *)

(** The routes of the property workflow have no policy: a read-only token passes, and acts as
    a reviewer. *)
Lemma property_routes_have_no_policy :
  _mutation_policy "POST" "/api/site-builds/7/compliance" = None
  ∧ status_of (serve (request "POST" "/api/site-builds/7/compliance" "read_only") 1 server) = Some 200%Z
  ∧ actor_role (review_actor {| pr_user_id := "u"; pr_role := role_read_only; pr_email := None;
                                pr_token_id := None; pr_auth_method := "oidc" |}) = reviewer.
Proof. by vm_compute. Qed.

(** The size limit is a limit on the declared length: without the header nothing is checked. *)
Lemma undeclared_length_passes (settings : SecuritySettings) (rq : Request) (s : Server (FixedWindow Q) Z) :
  rq_headers rq !! "content-length"%string = None → too_large settings rq s = (Ok false, s).
Proof. intros Hnone. unfold too_large. by rewrite Hnone. Qed.

(** A validated token whose roles claim is null is not refused: the TypeError goes through. *)
Lemma null_roles_break_the_request :
  (serve (request "GET" "/api/scans" "nobody") 1 server).1 = Raise TypeError
  ∧ sv_log (serve (request "GET" "/api/scans" "nobody") 1 server).2 = [RequestCompleted "GET" "/api/scans" 500].
Proof. by vm_compute. Qed.

(** Waiting the seconds of Retry-After can be too short. *)
Lemma retry_after_is_rounded_down :
  limiter_run [("a", 0); ("a", 1 # 2); ("a", 2 # 3); ("a", 179 # 3)]%Q (new_limiter 2 60)
  = [Ok (true, 0%Z); Ok (true, 0%Z); Ok (false, 59%Z); Ok (false, 1%Z)].
Proof. by vm_compute. Qed.

(** A trace id is any text [int(_, 16)] reads, not only 32 hexadecimal digits. *)
Lemma trace_id_need_not_be_hexadecimal :
  from_traceparent (Some "00-+0x_0000000000000000000000000001-b7ad6b7169203331-01") "fresh"
  = "+0x_0000000000000000000000000001".
Proof. by vm_compute. Qed.
End GateRun.
