(* ===== verification/AuditTrail.v ===== *)
(** * AuditTrail: the hash chain of audit events (security/audit.py)

    Every privileged action appends a row to audit_events that carries the hash of the row
    before it and the hash of its own content.  The table is shared: sessions append, flush,
    commit and roll back in any order, and the query for the head of the chain sees the
    committed rows and the session's own flushed rows.  The sessions of the application do
    not flush before a query (autoflush is off).

    Parameters: SHA-256 and the JSON text (class [JsonText]). *)
From S2P Require Import Prelude Binary64 Schema BlobStorage ResponseCache MarketPrefilter Security.
From Stdlib Require Import Strings.Byte.
#[global] Open Scope Z_scope.

(** ** Rows and sessions *)

(** [AuditEventORM]; the id is the row's place in the table *)
Record AuditEvent : Type := {
  ae_event_type : string;
  ae_actor_user_id : string;
  ae_actor_role : string;
  ae_target_type : string;
  ae_target_id : option string;
  ae_request_id : option string;
  ae_metadata : json;
  ae_occurred_at : Z;
  ae_previous_hash : string;
  ae_event_hash : string
}.

(** A row of the table in order of id, with the session that has not committed it yet. *)
Abbreviation AuditRow := (AuditEvent * option Z)%type.

(** The database: the table, the events each session added and has not flushed, the holder
    of the advisory lock. *)
Record AuditWorld : Type := {
  aw_rows : list AuditRow;
  aw_pending : gmap Z (list AuditEvent);
  aw_lock : option Z;
  aw_dialect : dialect
}.
#[export] Instance eta_AuditWorld : Eta AuditWorld := λ r,
  Build_AuditWorld (aw_rows r) (aw_pending r) (aw_lock r) (aw_dialect r).

Inductive audit_error : Type := ImmutableAuditRecordError | IntegrityError.

Definition is_postgresql (d : dialect) : bool := match d with postgresql _ => true | sqlite => false end.

(** What a session sees: the committed rows and its own *)
Definition sees (session : Z) (row : AuditRow) : bool :=
  match row.2 with None => true | Some owner => bool_decide (owner = session) end.
Definition visible (session : Z) (w : AuditWorld) : list AuditEvent :=
  (List.filter (sees session) (aw_rows w)).*1.
Definition committed (w : AuditWorld) : list AuditEvent :=
  (List.filter (λ row, bool_decide (row.2 = None)) (aw_rows w)).*1.
Definition pending (session : Z) (w : AuditWorld) : list AuditEvent := default [] (aw_pending w !! session).

Section audit.
Context `{JsonText} (sha256 : bytes → string).

Definition opt_json (v : option string) : json := match v with Some s => JStr s | None => JNull end.

(** [hash_content] *)
Definition hash_content (e : AuditEvent) : json :=
  JObj [("event_type", JStr (ae_event_type e)); ("actor_user_id", JStr (ae_actor_user_id e));
        ("actor_role", JStr (ae_actor_role e)); ("target_type", JStr (ae_target_type e));
        ("target_id", opt_json (ae_target_id e)); ("request_id", opt_json (ae_request_id e));
        ("metadata_payload", ae_metadata e); ("occurred_at", JStr (isoformat (ae_occurred_at e)));
        ("previous_hash", JStr (ae_previous_hash e))]%string.

(** [_canonical_payload] and its bytes *)
Definition event_text (e : AuditEvent) : bytes := utf8 (dumps (hash_content e)).
Definition event_digest (e : AuditEvent) : string := sha256 (event_text e).

(** The event a call describes, before the chain gives it its hashes *)
Record AuditInput : Type := {
  ai_event_type : string;
  ai_actor : Principal;
  ai_target_type : string;
  ai_target_id : option string;
  ai_request_id : option string;
  ai_metadata : option json
}.

Definition previous_hash_of (previous : option AuditEvent) : string :=
  match previous with Some row => ae_event_hash row | None => "GENESIS" end.

Definition seal (input : AuditInput) (occurred_at : Z) (previous : string) : AuditEvent :=
  let content := {|
    ae_event_type := ai_event_type input; ae_actor_user_id := pr_user_id (ai_actor input);
    ae_actor_role := role_value (pr_role (ai_actor input)); ae_target_type := ai_target_type input;
    ae_target_id := ai_target_id input; ae_request_id := ai_request_id input;
    ae_metadata := match ai_metadata input with
                   | Some m => if json_truthy m then m else JObj []
                   | None => JObj []
                   end;
    ae_occurred_at := occurred_at; ae_previous_hash := previous; ae_event_hash := "" |} in
  {| ae_event_type := ae_event_type content; ae_actor_user_id := ae_actor_user_id content;
     ae_actor_role := ae_actor_role content; ae_target_type := ae_target_type content;
     ae_target_id := ae_target_id content; ae_request_id := ae_request_id content;
     ae_metadata := ae_metadata content; ae_occurred_at := occurred_at;
     ae_previous_hash := previous; ae_event_hash := event_digest content |}.

(** [append_audit_event]; the advisory lock is taken where the dialect has it. *)
Definition append_audit_event (session : Z) (input : AuditInput) (now : Z) : M AuditWorld audit_error AuditEvent :=
  λ w,
    let w := if is_postgresql (aw_dialect w) then w <| aw_lock := Some session |> else w in
    let row := seal input now (previous_hash_of (last (visible session w))) in
    (Ok row, w <| aw_pending ::= <[session := pending session w ++ [row]]> |>).

(** ** The session *)

Definition rollback (session : Z) (w : AuditWorld) : AuditWorld :=
  w <| aw_rows ::= List.filter (λ row, bool_decide (row.2 ≠ Some session)) |>
    <| aw_pending ::= delete session |>
    <| aw_lock ::= λ l, if bool_decide (l = Some session) then None else l |>.

(** [_prevent_audit_mutation], the listener of every changed or deleted row *)
Definition _prevent_audit_mutation : M AuditWorld audit_error unit := raise ImmutableAuditRecordError.

Definition insert_row (session : Z) (e : AuditEvent) : M AuditWorld audit_error unit := λ w,
  if existsb (λ row : AuditRow, bool_decide (ae_event_hash row.1 = ae_event_hash e)) (aw_rows w)
  then (Raise IntegrityError, w)
  else (Ok tt, w <| aw_rows ::= λ rows, rows ++ [(e, Some session)] |>).

(** A flush writes the session's new rows; [changed] says whether the session also holds a
    changed or deleted audit row, which the listener refuses first.  A flush that fails
    rolls the session back. *)
Definition flush (session : Z) (changed : bool) : M AuditWorld audit_error unit := λ w,
  match (when changed _prevent_audit_mutation;; for_each (insert_row session) (pending session w)) w with
  | (Ok _, w') => (Ok tt, w' <| aw_pending ::= delete session |>)
  | (Raise e, _) => (Raise e, rollback session w)
  end.

Definition commit (session : Z) (changed : bool) : M AuditWorld audit_error unit := λ w,
  match flush session changed w with
  | (Ok _, w') =>
      (Ok tt, w' <| aw_rows ::= map (λ row : AuditRow, (row.1, if bool_decide (row.2 = Some session) then None else row.2)) |>
                 <| aw_lock ::= λ l, if bool_decide (l = Some session) then None else l |>)
  | (Raise e, w') => (Raise e, w')
  end.

(** ** Every order of the sessions' operations

    A statement that takes the advisory lock waits until it is free; [batched] says whether
    sessions append a second event before they flushed the first. *)
Inductive audit_step (batched : bool) (w : AuditWorld) : AuditWorld → Prop :=
| step_append session input now :
    (is_postgresql (aw_dialect w) = true → aw_lock w = None ∨ aw_lock w = Some session) →
    (batched = false → pending session w = []) →
    audit_step batched w (append_audit_event session input now w).2
| step_flush session changed : audit_step batched w (flush session changed w).2
| step_commit session changed : audit_step batched w (commit session changed w).2
| step_rollback session : audit_step batched w (rollback session w).

Definition audit_run (batched : bool) : relation AuditWorld := rtc (audit_step batched).

Definition new_audit_world (d : dialect) : AuditWorld :=
  {| aw_rows := []; aw_pending := ∅; aw_lock := None; aw_dialect := d |}.
End audit.
