(* ===== verification/AuditTrailTheorems.v ===== *)
(** * AuditTrailTheorems: the audit log is one chain, and its head pins all of it

    On PostgreSQL the committed events form one hash chain in every interleaving of sessions
    that flush between two events; on any database every committed event names an earlier
    one; and two logs with the same head agree event by event, unless two of their events
    have different texts with the same digest. *)
From stdpp Require Import relations.
From S2P Require Import Prelude Binary64 Schema BlobStorage ResponseCache ResponseCacheTheorems Security AuditTrail.
From S2P Require SecurityTheorems.
From Stdlib Require Import Strings.Byte.
#[global] Open Scope Z_scope.

Section trail.
Context `{HJ : JsonText} (sha256 : bytes → string).
Implicit Types (w : AuditWorld) (e : AuditEvent) (l : list AuditEvent) (s : Z).

(** A sequence of events that starts after [previous]: each names the hash of the one before
    and carries the digest of its own content. *)
Fixpoint chained (previous : string) l : Prop :=
  match l with
  | [] => True
  | e :: l' => ae_previous_hash e = previous ∧ ae_event_hash e = event_digest sha256 e
               ∧ chained (ae_event_hash e) l'
  end.

Definition head_hash (previous : string) l : string :=
  match last l with Some e => ae_event_hash e | None => previous end.

Lemma head_hash_cons previous e l : head_hash previous (e :: l) = head_hash (ae_event_hash e) l.
Proof. unfold head_hash. rewrite last_cons. by destruct (last l). Qed.

Lemma chained_app previous l l' : chained previous (l ++ l') ↔ chained previous l ∧ chained (head_hash previous l) l'.
Proof.
  revert previous. induction l as [|e l IH]; intros previous; [split; [intros ?; by split|by intros [_ ?]]|].
  cbn [app chained]. rewrite IH, head_hash_cons. tauto.
Qed.

Lemma chained_seal l input now :
  chained "GENESIS" l → chained "GENESIS" (l ++ [seal sha256 input now (previous_hash_of (last l))]).
Proof.
  intros Hl. apply chained_app. split; [done|]. cbn. split_and!; [|done|done].
  unfold head_hash. by destruct (last l).
Qed.

(** *** Flushes and commits *)

Definition owned s l : list AuditRow := map (λ e, (e, Some s)) l.
Definition released s (rows : list AuditRow) : list AuditRow :=
  map (λ row : AuditRow, (row.1, if bool_decide (row.2 = Some s) then None else row.2)) rows.

Lemma insert_rows_run s l w :
  match for_each (insert_row s) l w with
  | (Ok _, w') => w' = w <| aw_rows := aw_rows w ++ owned s l |>
  | (Raise _, _) => True
  end.
Proof.
  revert w. induction l as [|e l IH]; intros w; cbn [for_each].
  { cbn. rewrite app_nil_r. by destruct w. }
  unfold mbind, M_bind. unfold insert_row at 1. destruct (existsb _ _); [done|]. specialize (IH (w <| aw_rows ::= λ rows, rows ++ [(e, Some s)] |>)).
  destruct (for_each _ l _) as [[?|?] w']; [|done]. subst w'. cbn. by rewrite <- app_assoc.
Qed.

Lemma flush_cases s changed w :
  flush s changed w = (Ok tt, w <| aw_rows := aw_rows w ++ owned s (pending s w) |> <| aw_pending ::= delete s |>)
  ∨ ∃ err, flush s changed w = (Raise err, rollback s w).
Proof.
  unfold flush, mbind, M_bind. destruct changed; cbn; [by right; eexists|].
  pose proof (insert_rows_run s (pending s w) w) as Hrun.
  destruct (for_each _ _ w) as [[[]|err] w']; [|by right; eexists]. left. by subst w'.
Qed.

Lemma commit_cases s changed w :
  (commit s changed w).2 =
    w <| aw_rows := released s (aw_rows w ++ owned s (pending s w)) |> <| aw_pending ::= delete s |>
      <| aw_lock ::= λ h, if bool_decide (h = Some s) then None else h |>
  ∨ (commit s changed w).2 = rollback s w.
Proof.
  unfold commit. destruct (flush_cases s changed w) as [->|[err ->]]; [|by right]. left. by destruct w.
Qed.

(** *** One chain

    The rows are the committed events, then those the holder of the lock has flushed; what
    it has not flushed continues the chain, and no one else has anything. *)
Record one_chain w : Prop := {
  oc_postgresql : is_postgresql (aw_dialect w) = true;
  oc_rows : ∃ c u, aw_rows w = map (λ e, (e, None)) c
                   ++ match aw_lock w with Some s => owned s u | None => [] end
            ∧ chained "GENESIS" (c ++ match aw_lock w with Some s => u ++ pending s w | None => [] end);
  oc_pending s : aw_lock w ≠ Some s → pending s w = []
}.

Definition none_rows (c : list AuditEvent) : list AuditRow := map (λ e, (e, None)) c.

Lemma kept_none s c : List.filter (λ row : AuditRow, bool_decide (row.2 ≠ Some s)) (none_rows c) = none_rows c.
Proof. unfold none_rows. induction c as [|e c IH]; [done|]. cbn [map List.filter]. by rewrite bool_decide_eq_true_2, IH by done. Qed.

Lemma kept_owned s u : List.filter (λ row : AuditRow, bool_decide (row.2 ≠ Some s)) (owned s u) = [].
Proof. unfold owned. induction u as [|e u IH]; [done|]. cbn [map List.filter]. by rewrite bool_decide_eq_false_2 by naive_solver. Qed.

Lemma kept_other s s' u : s ≠ s' →
  List.filter (λ row : AuditRow, bool_decide (row.2 ≠ Some s)) (owned s' u) = owned s' u.
Proof. intros Hne. unfold owned. induction u as [|e u IH]; [done|]. cbn [map List.filter]. by rewrite bool_decide_eq_true_2, IH by naive_solver. Qed.

Lemma seen_none s c : (List.filter (sees s) (none_rows c)).*1 = c.
Proof. unfold none_rows. induction c as [|e c IH]; [done|]. cbn [map List.filter sees snd]. by rewrite fmap_cons, IH. Qed.

Lemma seen_owned s u : (List.filter (sees s) (owned s u)).*1 = u.
Proof. unfold owned. induction u as [|e u IH]; [done|]. cbn [map List.filter]. unfold sees at 1. cbn [snd]. by rewrite bool_decide_eq_true_2, fmap_cons, IH. Qed.

Lemma released_none s c : released s (none_rows c) = none_rows c.
Proof. unfold released, none_rows. rewrite map_map. apply map_ext. intros e. cbn. by case_bool_decide. Qed.

Lemma released_owned s u : released s (owned s u) = none_rows u.
Proof. unfold released, owned, none_rows. rewrite map_map. apply map_ext. intros e. cbn. by rewrite bool_decide_eq_true_2. Qed.

Lemma released_other s s' u : s ≠ s' → released s (owned s' u) = owned s' u.
Proof.
  intros Hne. unfold released, owned. rewrite map_map. apply map_ext. intros e. cbn.
  by rewrite bool_decide_eq_false_2 by naive_solver.
Qed.

Lemma pending_delete s t w : pending t (w <| aw_pending ::= delete s |>) = if bool_decide (t = s) then [] else pending t w.
Proof.
  unfold pending. cbn. case_bool_decide as Ht; [subst t; by rewrite lookup_delete_eq|by rewrite lookup_delete_ne].
Qed.

(** Committed events of the described table *)
Lemma committed_none_owned c (rows : list AuditRow) :
  Forall (λ row : AuditRow, row.2 ≠ None) rows →
  (List.filter (λ row : AuditRow, bool_decide (row.2 = None)) (none_rows c ++ rows)).*1 = c.
Proof.
  intros Hrows. rewrite List.filter_app, fmap_app.
  assert (List.filter (λ row : AuditRow, bool_decide (row.2 = None)) rows = []) as ->.
  { induction Hrows as [|row rows Hrow _ IH]; [done|]. cbn. by rewrite bool_decide_eq_false_2. }
  rewrite app_nil_r. unfold none_rows. induction c as [|e c IH]; [done|]. cbn [map List.filter].
  by rewrite bool_decide_eq_true_2, fmap_cons, IH.
Qed.

Lemma owned_some s u : Forall (λ row : AuditRow, row.2 ≠ None) (owned s u).
Proof. by induction u; constructor. Qed.

(** The same invariant, with its parts named *)
Lemma one_chain_parts w : one_chain w →
  is_postgresql (aw_dialect w) = true
  ∧ (∀ s, aw_lock w ≠ Some s → pending s w = [])
  ∧ ((aw_lock w = None ∧ ∃ c, aw_rows w = none_rows c ∧ chained "GENESIS" c)
     ∨ ∃ s c u, aw_lock w = Some s ∧ aw_rows w = none_rows c ++ owned s u ∧ chained "GENESIS" (c ++ u ++ pending s w)).
Proof.
  intros [Hd (c & u & Hrows & Hchain) Hp]. split_and!; [done|done|].
  destruct (aw_lock w) as [s|] eqn:Hl.
  - right. by exists s, c, u.
  - left. split; [done|]. exists c. by rewrite !app_nil_r in *.
Qed.

Lemma free_chain w c :
  is_postgresql (aw_dialect w) = true → aw_lock w = None → aw_rows w = none_rows c → chained "GENESIS" c →
  (∀ s, pending s w = []) → one_chain w.
Proof.
  intros Hd Hl Hr Hc Hp. split; [done| |auto]. exists c, []. by rewrite Hl, !app_nil_r.
Qed.

Lemma held_chain w s c u :
  is_postgresql (aw_dialect w) = true → aw_lock w = Some s → aw_rows w = none_rows c ++ owned s u →
  chained "GENESIS" (c ++ u ++ pending s w) → (∀ t, t ≠ s → pending t w = []) → one_chain w.
Proof.
  intros Hd Hl Hr Hc Hp. split; [done| |intros t Ht; apply Hp; congruence]. exists c, u. by rewrite Hl.
Qed.

Lemma rollback_one_chain s w : one_chain w → one_chain (rollback s w) ∧ committed (rollback s w) = committed w.
Proof.
  intros (Hd & Hp & [(Hl & c & Hr & Hc)|(t & c & u & Hl & Hr & Hc)])%one_chain_parts.
  - split.
    + apply (free_chain _ c); cbn; rewrite ?Hl, ?Hr, ?kept_none; [done|by case_bool_decide|done|done|].
      intros t. change (pending t (w <| aw_pending ::= delete s |>) = []). rewrite pending_delete.
      case_bool_decide; [done|]. apply Hp. congruence.
    + unfold committed. cbn. by rewrite Hr, kept_none.
  - destruct (decide (t = s)) as [->|Hne].
    + split.
      * apply (free_chain _ c); cbn; rewrite ?Hl, ?Hr, ?List.filter_app, ?kept_none, ?kept_owned, ?app_nil_r; [done|by rewrite bool_decide_eq_true_2|done|by apply chained_app in Hc as [? _]|].
        intros t. change (pending t (w <| aw_pending ::= delete s |>) = []). rewrite pending_delete.
        case_bool_decide; [done|]. apply Hp. congruence.
      * unfold committed. cbn. rewrite Hr, List.filter_app, kept_none, kept_owned.
        rewrite !committed_none_owned; [done|apply owned_some|constructor].
    + split.
      * apply (held_chain _ t c u); cbn; rewrite ?Hl, ?Hr, ?List.filter_app, ?kept_none, ?kept_other by done;
          [done|rewrite bool_decide_eq_false_2; congruence|done| |].
        -- change (pending t (rollback s w)) with (pending t (w <| aw_pending ::= delete s |>)).
           by rewrite pending_delete, bool_decide_eq_false_2.
        -- intros t' Ht'. change (pending t' (w <| aw_pending ::= delete s |>) = []). rewrite pending_delete.
           case_bool_decide; [done|]. apply Hp. congruence.
      * unfold committed. cbn. by rewrite Hr, List.filter_app, kept_none, kept_other.
Qed.

(** What the holder's session sees is the whole table. *)
Lemma visible_none_owned w s c u : aw_rows w = none_rows c ++ owned s u → visible s w = c ++ u.
Proof. intros Hr. unfold visible. by rewrite Hr, List.filter_app, fmap_app, seen_none, seen_owned. Qed.

Lemma append_one_chain s input now w :
  one_chain w → aw_lock w = None ∨ aw_lock w = Some s → pending s w = [] →
  let w' := (append_audit_event sha256 s input now w).2 in one_chain w' ∧ committed w' = committed w.
Proof.
  intros (Hd & Hp & Hcases)%one_chain_parts Hlock Hs.
  assert (∃ c u, aw_rows w = none_rows c ++ owned s u ∧ chained "GENESIS" (c ++ u)) as (c & u & Hr & Hc).
  { destruct Hcases as [(_ & c & Hr & Hc)|(t & c & u & Hl & Hr & Hc)].
    - exists c, []. by rewrite !app_nil_r.
    - assert (t = s) as -> by (destruct Hlock; congruence). exists c, u. by rewrite Hs, app_nil_r in Hc. }
  assert (visible s (w <| aw_lock := Some s |>) = c ++ u) as Hvis by by apply visible_none_owned.
  unfold append_audit_event. rewrite Hd. cbv zeta. cbn [snd]. rewrite Hvis. split; [|done].
  apply (held_chain _ s c u); [done|done|done| |].
  - unfold pending at 1. cbn. rewrite lookup_insert_eq. unfold pending. cbn. unfold pending in Hs. rewrite Hs. cbn.
    rewrite app_assoc. by apply chained_seal.
  - intros t Ht. unfold pending. cbn. rewrite lookup_insert_ne by done. apply Hp.
    destruct Hlock as [->| ->]; congruence.
Qed.

Definition flushed s w : AuditWorld :=
  w <| aw_rows := aw_rows w ++ owned s (pending s w) |> <| aw_pending ::= delete s |>.

Lemma pending_flushed s t w : pending t (flushed s w) = if bool_decide (t = s) then [] else pending t w.
Proof. apply (pending_delete s t w). Qed.

Lemma committed_owned w s u : committed (w <| aw_rows := aw_rows w ++ owned s u |>) = committed w.
Proof.
  change ((List.filter (λ row : AuditRow, bool_decide (row.2 = None)) (aw_rows w ++ owned s u)).*1 = committed w).
  rewrite List.filter_app, fmap_app.
  assert (List.filter (λ row : AuditRow, bool_decide (row.2 = None)) (owned s u) = []) as ->; [|apply app_nil_r].
  unfold owned. induction u as [|e u IH]; [done|]. cbn [map List.filter]. by rewrite bool_decide_eq_false_2.
Qed.

Lemma flushed_one_chain s w : one_chain w → one_chain (flushed s w) ∧ committed (flushed s w) = committed w.
Proof.
  intros Hw. split; [|exact (committed_owned w s (pending s w))].
  destruct (one_chain_parts w Hw) as (Hd & Hp & [(Hl & c & Hr & Hc)|(t & c & u & Hl & Hr & Hc)]).
  - apply (free_chain _ c); [done|done| |done|].
    + cbn. rewrite Hp, app_nil_r by congruence. done.
    + intros t. rewrite pending_flushed. case_bool_decide; [done|]. apply Hp. congruence.
  - destruct (decide (t = s)) as [->|Hne].
    + apply (held_chain _ s c (u ++ pending s w)); [done|done| | |].
      * cbn. rewrite Hr. unfold owned. by rewrite map_app, app_assoc.
      * rewrite pending_flushed, bool_decide_eq_true_2, app_nil_r by done. done.
      * intros t Ht. rewrite pending_flushed, bool_decide_eq_false_2 by done. apply Hp. congruence.
    + apply (held_chain _ t c u); [done|done| | |].
      * cbn. by rewrite Hr, (Hp s), app_nil_r by congruence.
      * by rewrite pending_flushed, bool_decide_eq_false_2.
      * intros t' Ht'. rewrite pending_flushed. case_bool_decide; [done|]. apply Hp. congruence.
Qed.

Lemma flush_one_chain s changed w :
  one_chain w → let w' := (flush s changed w).2 in one_chain w' ∧ committed w' = committed w.
Proof.
  intros Hw. destruct (flush_cases s changed w) as [->|[err ->]].
  - by apply flushed_one_chain.
  - by apply rollback_one_chain.
Qed.

Lemma released_app s rows rows' : released s (rows ++ rows') = released s rows ++ released s rows'.
Proof. apply map_app. Qed.

Lemma committed_rows c u : (List.filter (λ row : AuditRow, bool_decide (row.2 = None)) (none_rows c ++ none_rows u)).*1 = c ++ u.
Proof.
  unfold none_rows. rewrite <- map_app. pose proof (committed_none_owned (c ++ u) [] (Forall_nil_2 _)) as Hc.
  by rewrite app_nil_r in Hc.
Qed.

(** Releasing a session's rows *)
Lemma release_one_chain s w :
  one_chain w → pending s w = [] →
  let w' := w <| aw_rows ::= released s |> <| aw_lock ::= λ h, if bool_decide (h = Some s) then None else h |> in
  one_chain w' ∧ committed w `prefix_of` committed w'.
Proof.
  intros Hw Hs. destruct (one_chain_parts w Hw) as (Hd & Hp & [(Hl & c & Hr & Hc)|(t & c & u & Hl & Hr & Hc)]).
  - split.
    + apply (free_chain _ c); cbn; rewrite ?Hl, ?Hr, ?released_none; [done|by case_bool_decide|done|done|].
      intros t. apply Hp. congruence.
    + unfold committed. cbn. by rewrite Hr, released_none.
  - destruct (decide (t = s)) as [->|Hne].
    + rewrite Hs, app_nil_r in Hc. split.
      * apply (free_chain _ (c ++ u)); cbn; [done|by rewrite Hl, bool_decide_eq_true_2| |done|].
        -- rewrite Hr, released_app, released_none, released_owned. unfold none_rows. by rewrite map_app.
        -- intros t. destruct (decide (t = s)) as [->|]; [done|]. apply Hp. congruence.
      * unfold committed. cbn. rewrite Hr, released_app, released_none, released_owned, committed_rows.
        rewrite committed_none_owned by apply owned_some. by exists u.
    + split.
      * apply (held_chain _ t c u); cbn; [done| | |done|].
        -- rewrite Hl, bool_decide_eq_false_2; congruence.
        -- by rewrite Hr, released_app, released_none, released_other.
        -- intros t' Ht'. apply Hp. congruence.
      * unfold committed. cbn. by rewrite Hr, released_app, released_none, released_other.
Qed.

Lemma commit_one_chain s changed w :
  one_chain w → let w' := (commit s changed w).2 in one_chain w' ∧ committed w `prefix_of` committed w'.
Proof.
  intros Hw. destruct (commit_cases s changed w) as [->| ->].
  - destruct (flushed_one_chain s w Hw) as [Hf Hcf]. rewrite <- Hcf.
    apply (release_one_chain s (flushed s w) Hf). by rewrite pending_flushed, bool_decide_eq_true_2.
  - destruct (rollback_one_chain s w Hw) as [Hr Hc]. cbv zeta. rewrite Hc. done.
Qed.

Lemma step_one_chain w w' :
  audit_step sha256 false w w' → one_chain w → one_chain w' ∧ committed w `prefix_of` committed w'.
Proof.
  intros Hstep Hw. destruct Hstep as [s input now Hlock Hs|s changed|s changed|s].
  - destruct (append_one_chain s input now w Hw) as [? Hc]; [apply Hlock, Hw|by apply Hs|]. by rewrite Hc.
  - destruct (flush_one_chain s changed w Hw) as [? Hc]. by rewrite Hc.
  - by apply commit_one_chain.
  - destruct (rollback_one_chain s w Hw) as [? Hc]. by rewrite Hc.
Qed.

Lemma run_one_chain w w' :
  audit_run sha256 false w w' → one_chain w → one_chain w' ∧ committed w `prefix_of` committed w'.
Proof.
  induction 1 as [w|w w1 w' Hstep _ IH]; intros Hw; [done|].
  destruct (step_one_chain _ _ Hstep Hw) as [Hw1 Hc1]. destruct (IH Hw1) as [Hw' Hc]. split; [done|by etrans].
Qed.

Lemma new_world_one_chain d : is_postgresql d = true → one_chain (new_audit_world d).
Proof. intros Hd. by apply (free_chain _ []). Qed.

(** The events a session without the table's lock sees *)
Lemma one_chain_committed w : one_chain w → chained "GENESIS" (committed w).
Proof.
  intros (_ & _ & [(_ & c & Hr & Hc)|(s & c & u & _ & Hr & Hc)])%one_chain_parts; unfold committed; rewrite Hr.
  - by rewrite <- (app_nil_r (none_rows c)), (committed_none_owned c []) by constructor.
  - rewrite committed_none_owned by apply owned_some. by apply chained_app in Hc as [? _].
Qed.

(** C34: The audit log is one append-only chain.  On PostgreSQL, however sessions append, flush,
    commit, roll back and are refused a change, as long as a session flushes one event before
    it appends the next, the committed events in order of id start at GENESIS, each names the
    hash of the one before it and carries the digest of its own content, and what is
    committed once stays where it is, unchanged. *)
Theorem audit_log_is_one_chain d w w' :
  is_postgresql d = true →
  audit_run sha256 false (new_audit_world d) w → audit_run sha256 false w w' →
  chained "GENESIS" (committed w') ∧ committed w `prefix_of` committed w'.
Proof.
  intros Hd Hw Hw'. destruct (run_one_chain _ _ Hw (new_world_one_chain d Hd)) as [Hok _].
  destruct (run_one_chain _ _ Hw' Hok) as [Hok' Hprefix]. split; [by apply one_chain_committed|done].
Qed.

(** *** Without the discipline: a tree *)

(** The event carries its digest and names GENESIS or a row that stands or falls with it. *)
Definition named (rows : list AuditRow) (row : AuditRow) : Prop :=
  ae_event_hash row.1 = event_digest sha256 row.1
  ∧ (ae_previous_hash row.1 = "GENESIS"%string
     ∨ ∃ parent, parent ∈ rows ∧ ae_event_hash parent.1 = ae_previous_hash row.1
                 ∧ (parent.2 = None ∨ parent.2 = row.2)).

Inductive rooted : list AuditRow → Prop :=
| rooted_nil : rooted []
| rooted_snoc rows row : rooted rows → named rows row → rooted (rows ++ [row]).

Lemma named_mono rows rows' row : rows ⊆ rows' → named rows row → named rows' row.
Proof. intros Hsub [Hd [Hg|(p & Hp & ?)]]; (split; [done|]); [by left|right]. exists p. split; [by apply Hsub|done]. Qed.

Lemma named_kept s rows row : row.2 ≠ Some s → named rows row →
  named (List.filter (λ row : AuditRow, bool_decide (row.2 ≠ Some s)) rows) row.
Proof.
  intros Hs [Hd [Hg|(p & Hp & Hh & Ho)]]; (split; [done|]); [by left|right]. exists p. split_and!; [|done|done].
  apply list_elem_of_In, List.filter_In. split; [by apply list_elem_of_In|].
  apply bool_decide_eq_true_2. destruct Ho as [->| ->]; done.
Qed.

Definition release1 s (row : AuditRow) : AuditRow := (row.1, if bool_decide (row.2 = Some s) then None else row.2).

Lemma named_released s rows row : named rows row → named (released s rows) (release1 s row).
Proof.
  intros [Hd [Hg|(p & Hp & Hh & Ho)]]; (split; [done|]); [by left|right]. exists (release1 s p). split_and!; [|done|].
  - apply list_elem_of_In, in_map_iff. exists p. split; [done|by apply list_elem_of_In].
  - cbn. destruct Ho as [->| ->]; [by left|by right].
Qed.

Lemma rooted_kept s rows : rooted rows → rooted (List.filter (λ row : AuditRow, bool_decide (row.2 ≠ Some s)) rows).
Proof.
  induction 1 as [|rows row _ IH Hn]; [constructor|]. rewrite List.filter_app. cbn [List.filter].
  case_bool_decide as Hs; [constructor; [done|by apply named_kept]|by rewrite app_nil_r].
Qed.

Lemma rooted_released s rows : rooted rows → rooted (released s rows).
Proof.
  induction 1 as [|rows row _ IH Hn]; [constructor|]. rewrite released_app. constructor; [done|by apply named_released].
Qed.

Lemma rooted_owned s rows l :
  rooted rows → Forall (λ e, named rows (e, Some s)) l → rooted (rows ++ owned s l).
Proof.
  intros Hr. induction l as [|e l IH] using rev_ind; intros Hl; [by rewrite app_nil_r|].
  apply Forall_app in Hl as [Hl He]. unfold owned. rewrite map_app, app_assoc. constructor; [by apply IH|].
  apply Forall_cons in He as [He _]. eapply named_mono; [|exact He]. intros x Hx. apply elem_of_app. by left.
Qed.

(** A rooted table whose sessions continue it *)
Definition tree_ok w : Prop :=
  rooted (aw_rows w) ∧ ∀ s, Forall (λ e, named (aw_rows w) (e, Some s)) (pending s w).

Lemma rollback_tree s w : tree_ok w → tree_ok (rollback s w).
Proof.
  intros [Hr Hp]. split; [by apply rooted_kept|]. intros t.
  change (pending t (rollback s w)) with (pending t (w <| aw_pending ::= delete s |>)). rewrite pending_delete.
  case_bool_decide; [constructor|]. eapply Forall_impl; [apply Hp|]. cbn. intros e He. apply named_kept; [cbn; congruence|done].
Qed.

Lemma flushed_tree s w : tree_ok w → tree_ok (flushed s w).
Proof.
  intros [Hr Hp]. split; [by apply rooted_owned|]. intros t. rewrite pending_flushed.
  case_bool_decide; [constructor|]. eapply Forall_impl; [apply Hp|]. cbn. intros e He.
  eapply named_mono; [|exact He]. intros x Hx. apply elem_of_app. by left.
Qed.

Lemma append_tree s input now w : tree_ok w → tree_ok (append_audit_event sha256 s input now w).2.
Proof.
  intros [Hr Hp]. unfold append_audit_event. set (w1 := if is_postgresql _ then _ else _).
  assert (aw_rows w1 = aw_rows w ∧ aw_pending w1 = aw_pending w) as [Hrows Hpend] by by (unfold w1; case_match).
  clearbody w1. split; cbn [snd]; [cbn; by rewrite Hrows|]. intros t. unfold pending. cbn. rewrite Hrows, Hpend.
  destruct (decide (t = s)) as [->|Hne]; [|rewrite lookup_insert_ne by done; apply Hp].
  rewrite lookup_insert_eq. cbn. apply Forall_app. split; [apply Hp|].
  constructor; [|constructor]. split; [done|]. cbn. unfold visible. rewrite Hrows.
  destruct (last _) as [e|] eqn:Hl; [right|by left].
  apply last_Some_elem_of in Hl. apply list_elem_of_fmap in Hl as (row & -> & Hrow).
  apply list_elem_of_In, List.filter_In in Hrow as [Hrow Hsees]. exists row. split_and!; [by apply list_elem_of_In|done|].
  unfold sees in Hsees. destruct row.2 as [owner|]; [|by left]. right. by apply bool_decide_eq_true in Hsees as ->.
Qed.

Lemma commit_tree s changed w : tree_ok w → tree_ok (commit s changed w).2.
Proof.
  intros Hw. destruct (commit_cases s changed w) as [->| ->]; [|by apply rollback_tree].
  destruct (flushed_tree s w Hw) as [Hr Hp]. split; [by apply rooted_released|]. intros t.
  change (Forall (λ e, named (released s (aw_rows (flushed s w))) (e, Some t)) (pending t (flushed s w))).
  destruct (decide (t = s)) as [->|Hne]; [rewrite pending_flushed, bool_decide_eq_true_2 by done; constructor|].
  eapply Forall_impl; [apply Hp|]. cbn. intros e He. apply (named_released s) in He.
  unfold release1 in He. cbn [fst snd] in He. by rewrite bool_decide_eq_false_2 in He by congruence.
Qed.

Lemma run_tree batched w w' : audit_run sha256 batched w w' → tree_ok w → tree_ok w'.
Proof.
  induction 1 as [w|w w1 w' Hstep _ IH]; [done|]. intros Hw. apply IH.
  destruct Hstep as [s input now _ _|s changed|s changed|s].
  - by apply append_tree.
  - destruct (flush_cases s changed w) as [->|[err ->]]; [by apply flushed_tree|by apply rollback_tree].
  - by apply commit_tree.
  - by apply rollback_tree.
Qed.

Lemma rooted_split (rows k k' : list AuditRow) row : rooted rows → rows = k ++ row :: k' → named k row.
Proof.
  intros Hr. revert k row k'. induction Hr as [|rows row' Hr IH Hn]; intros k row k' Heq; [by destruct k|].
  destruct k' as [|x k' _] using rev_ind; [by apply app_inj_tail in Heq as [-> ->]|].
  rewrite app_comm_cons, app_assoc in Heq. apply app_inj_tail in Heq as [-> _]. by eapply IH.
Qed.

Lemma filter_split {X} (f : X → bool) (l : list X) x r (rows : list X) :
  List.filter f rows = l ++ x :: r → ∃ a b, rows = a ++ x :: b ∧ List.filter f a = l.
Proof.
  revert l. induction rows as [|y rows IH]; intros l Heq; [by destruct l|]. cbn in Heq.
  destruct (f y) eqn:Hy.
  - destruct l as [|z l]; injection Heq as -> Heq; [by exists [], rows|].
    destruct (IH l Heq) as (a & b & -> & Ha). exists (z :: a), b. cbn. by rewrite Hy, Ha.
  - destruct (IH l Heq) as (a & b & -> & Ha). exists (y :: a), b. cbn. by rewrite Hy, Ha.
Qed.

(** On any database, and whatever the sessions batch, every committed event carries its digest
    and names GENESIS or an event committed before it. *)
Theorem committed_events_form_a_tree batched d w l e l' :
  audit_run sha256 batched (new_audit_world d) w → committed w = l ++ e :: l' →
  ae_event_hash e = event_digest sha256 e
  ∧ (ae_previous_hash e = "GENESIS"%string ∨ ∃ parent, parent ∈ l ∧ ae_event_hash parent = ae_previous_hash e).
Proof.
  intros Hrun Heq. assert (tree_ok w) as [Hr _].
  { apply (run_tree _ _ _ Hrun). split; [constructor|]. intros s. constructor. }
  unfold committed in Heq. apply fmap_app_inv in Heq as (k & k' & -> & Hk & Hrows).
  symmetry in Hk. apply fmap_cons_inv in Hk as ([e' owner] & k'' & -> & -> & ->).
  destruct (filter_split _ _ _ _ _ Hrows) as (a & b & Hab & <-).
  assert (owner = None) as ->.
  { assert ((e', owner) ∈ List.filter (λ row : AuditRow, bool_decide (row.2 = None)) (aw_rows w)) as Hin
      by (rewrite Hrows; set_solver).
    by apply list_elem_of_In, List.filter_In in Hin as [_ Hin%bool_decide_eq_true]. }
  destruct (rooted_split _ _ _ _ Hr Hab) as [Hd [Hg|(p & Hp & Hh & Ho)]]; (split; [done|]); [by left|right].
  exists p.1. split; [|done]. apply list_elem_of_fmap. exists p. split; [done|].
  apply list_elem_of_In, List.filter_In. split; [by apply list_elem_of_In|]. apply bool_decide_eq_true_2. by destruct Ho.
Qed.

(** *** The head pins the log *)

(** Equal in everything the hash covers; metadata up to the order of keys *)
Record same_event e e' : Prop := {
  sa_event_type : ae_event_type e = ae_event_type e';
  sa_actor : ae_actor_user_id e = ae_actor_user_id e' ∧ ae_actor_role e = ae_actor_role e';
  sa_target : ae_target_type e = ae_target_type e' ∧ ae_target_id e = ae_target_id e';
  sa_request_id : ae_request_id e = ae_request_id e';
  sa_metadata : canon (ae_metadata e) = canon (ae_metadata e');
  sa_occurred_at : isoformat (ae_occurred_at e) = isoformat (ae_occurred_at e');
  sa_hashes : ae_previous_hash e = ae_previous_hash e' ∧ ae_event_hash e = ae_event_hash e'
}.

Lemma canon_opt v : canon (opt_json v) = opt_json v.
Proof. by destruct v. Qed.

(** The object whose text is hashed, its keys sorted *)
Definition sorted_content (role user event at_ previous type : string) (metadata request target : json) : json :=
  JObj [("actor_role", JStr role); ("actor_user_id", JStr user); ("event_type", JStr event);
        ("metadata_payload", metadata); ("occurred_at", JStr at_); ("previous_hash", JStr previous);
        ("request_id", request); ("target_id", target); ("target_type", JStr type)]%string.

Lemma sorted_content_inj (a b c d e f : string) (g h i : json) (a' b' c' d' e' f' : string) (g' h' i' : json) :
  sorted_content a b c d e f g h i = sorted_content a' b' c' d' e' f' g' h' i' →
  (a = a' ∧ b = b' ∧ c = c') ∧ (d = d' ∧ e = e' ∧ f = f') ∧ (g = g' ∧ h = h' ∧ i = i').
Proof. intros Heq. injection Heq. by intros; simplify_eq. Qed.

Lemma canon_content e : canon (hash_content e) =
  sorted_content (ae_actor_role e) (ae_actor_user_id e) (ae_event_type e) (isoformat (ae_occurred_at e))
    (ae_previous_hash e) (ae_target_type e) (canon (ae_metadata e)) (opt_json (ae_request_id e)) (opt_json (ae_target_id e)).
Proof.
  unfold hash_content. cbn [canon map]. rewrite !canon_opt. f_equal.
Qed.

Lemma content_python e : python_value (ae_metadata e) → python_value (hash_content e).
Proof.
  intros Hm. split; [apply (proj1 (bool_decide_eq_true _)); by vm_compute|].
  cbn. split_and!; first [done | by destruct (ae_target_id e) | by destruct (ae_request_id e)].
Qed.

Lemma opt_json_inj v v' : opt_json v = opt_json v' → v = v'.
Proof. destruct v, v'; cbn; congruence. Qed.

Context {HJL : JsonTextLaws}.

Lemma text_pins_event e e' :
  python_value (ae_metadata e) → python_value (ae_metadata e') →
  event_text e = event_text e' → ae_event_hash e = ae_event_hash e' → same_event e e'.
Proof.
  intros Hm Hm' Htext Hhash. unfold event_text in Htext.
  pose proof (loads_dumps _ (content_python e Hm)) as Hl. rewrite Htext, (loads_dumps _ (content_python e' Hm')) in Hl.
  apply (inj Some) in Hl. rewrite !canon_content in Hl. symmetry in Hl.
  apply sorted_content_inj in Hl as ((H1 & H2 & H3) & (H4 & H5 & H6) & H7 & H8 & H9).
  apply opt_json_inj in H8, H9. by split.
Qed.

(** C35: The head pins the log.  Let two logs be chains of the audit trail (say, the table and a
    copy kept elsewhere) whose last events have the same hash.  Then they have the same
    number of events and agree event by event in everything the hash covers, unless an
    event of one and an event of the other have different texts with the same digest: an
    event cannot be changed, removed, inserted or moved without either changing the head or
    exhibiting that collision. *)
Theorem head_hash_pins_the_log l l' :
  (∀ text, String.length (sha256 text) = 64%nat) →
  Forall (λ e, python_value (ae_metadata e)) l → Forall (λ e, python_value (ae_metadata e)) l' →
  chained "GENESIS" l → chained "GENESIS" l' → head_hash "GENESIS" l = head_hash "GENESIS" l' →
  Forall2 same_event l l'
  ∨ ∃ e e', e ∈ l ∧ e' ∈ l' ∧ event_text e ≠ event_text e' ∧ event_digest sha256 e = event_digest sha256 e'.
Proof.
  intros Hlen. revert l'. induction l as [|e l IH] using rev_ind; intros l' Hv Hv' Hc Hc' Hhead.
  - destruct l' as [|e' l' _] using rev_ind; [by left|]. apply chained_app in Hc' as [_ (_ & Hd & _)].
    unfold head_hash in Hhead. rewrite last_snoc in Hhead. cbn in Hhead. rewrite Hd in Hhead.
    specialize (Hlen (event_text e')). unfold event_digest in Hhead. by rewrite <- Hhead in Hlen.
  - apply chained_app in Hc as [Hc (Hprev & Hd & _)].
    destruct l' as [|e' l' _] using rev_ind.
    { unfold head_hash in Hhead. rewrite last_snoc in Hhead. cbn in Hhead. rewrite Hd in Hhead.
      specialize (Hlen (event_text e)). unfold event_digest in Hhead. by rewrite Hhead in Hlen. }
    apply chained_app in Hc' as [Hc' (Hprev' & Hd' & _)].
    unfold head_hash in Hhead. rewrite !last_snoc in Hhead.
    apply Forall_app in Hv as [Hv [Hve _]%Forall_cons], Hv' as [Hv' [Hve' _]%Forall_cons].
    destruct (List.list_eq_dec Byte.byte_eq_dec (event_text e) (event_text e')) as [Htext|Hne].
    + pose proof (text_pins_event e e' Hve Hve' Htext Hhead) as Hsame.
      destruct (IH l' Hv Hv' Hc Hc') as [Hall|(x & x' & Hx & Hx' & ?)].
      * rewrite <- Hprev, <- Hprev'. apply Hsame.
      * left. by apply Forall2_app; [|constructor].
      * right. exists x, x'. set_solver.
    + right. exists e, e'. split_and!; [set_solver|set_solver|done|]. by rewrite <- Hd, <- Hd'.
Qed.
End trail.

(** ** Two sessions *)
Module TrailRun.
Import ResponseCacheTheorems.TextCodec.
#[local] Open Scope string_scope.

(** A stand-in for SHA-256: 64 digits of a polynomial of the bytes. *)
Definition sha (text : bytes) : string :=
  padded 64 (foldl (λ acc b, (acc * 257 + Z.of_N (Byte.to_N b) + 1) mod 1000000000039)%Z 0%Z text).

Lemma padded_length n z : String.length (padded n z) = n.
Proof.
  revert z. induction n as [|n IH]; intros z; [done|]. cbn [padded].
  rewrite SecurityTheorems.string_length_app, IH. cbn. lia.
Qed.

Definition desk : Principal := {| pr_user_id := "admin-1"; pr_role := role_admin; pr_email := None;
                                  pr_token_id := None; pr_auth_method := "oidc" |}.
Definition event (name : string) : AuditInput := {|
  ai_event_type := name; ai_actor := desk; ai_target_type := "scan_run"; ai_target_id := Some "12";
  ai_request_id := Some "request-1"; ai_metadata := Some (JObj [("async", JBool true)]) |}.

Definition run_append (s : Z) (name : string) (w : AuditWorld) : AuditWorld := (append_audit_event sha s (event name) 5 w).2.
Definition run_commit (s : Z) (w : AuditWorld) : AuditWorld := (commit s false w).2.

Definition empty : AuditWorld := new_audit_world (postgresql 0).
Definition logged : AuditWorld := run_commit 1 (run_append 1 "scan.create" empty).
Definition both : AuditWorld := run_commit 2 (run_append 2 "scan.cancel" logged).

Lemma appended batched s name w w' :
  aw_lock w = None → pending s w = [] → audit_run sha batched (run_commit s (run_append s name w)) w' →
  audit_run sha batched w w'.
Proof.
  intros Hlock Hp Hrun. eapply rtc_l; [apply (step_append _ _ _ s (event name) 5); auto|].
  eapply rtc_l; [apply (step_commit _ _ _ s false)|exact Hrun].
Qed.

Lemma logged_reached : audit_run sha false empty logged.
Proof. apply (appended false 1 "scan.create"); [done|done|apply rtc_refl]. Qed.

Lemma both_reached : audit_run sha false logged both.
Proof. apply (appended false 2 "scan.cancel"); [by vm_compute|by vm_compute|apply rtc_refl]. Qed.

Lemma audit_log_is_one_chain_witness :
  length (committed both) = 2%nat
  ∧ chained sha "GENESIS" (committed both) ∧ committed logged `prefix_of` committed both.
Proof.
  split; [by vm_compute|].
  exact (audit_log_is_one_chain sha (postgresql 0) logged both eq_refl logged_reached both_reached).
Defined.

(** The same events, the second with another target *)
Definition forge (l : list AuditEvent) : list AuditEvent :=
  match l with
  | [e1; e2] => [e1; seal sha {| ai_event_type := "scan.cancel"; ai_actor := desk; ai_target_type := "scan_run";
                                 ai_target_id := Some "13"; ai_request_id := Some "request-1";
                                 ai_metadata := None |} 5 (ae_event_hash e1)]
  | l => l
  end.
Definition forged : list AuditEvent := forge (committed both).

Lemma both_python : Forall (λ e, python_value (ae_metadata e)) (committed both).
Proof. vm_compute. repeat constructor; set_solver. Qed.

Lemma head_hash_pins_the_log_witness :
  head_hash "GENESIS" forged ≠ head_hash "GENESIS" (committed both)
  ∧ (Forall2 same_event (committed both) (committed both)
     ∨ ∃ e e', e ∈ committed both ∧ e' ∈ committed both ∧ event_text e ≠ event_text e'
               ∧ event_digest sha e = event_digest sha e').
Proof.
  split; [vm_compute; discriminate|].
  assert (chained sha "GENESIS" (committed both)) as Hc by (vm_compute; split_and!; done).
  exact (head_hash_pins_the_log sha (committed both) (committed both) (λ text, padded_length 64 _)
           both_python both_python Hc Hc eq_refl).
Defined.

(** ** Observations *)

(** Two events of one session, as the creation of a confirmed scan appends them, name the same
    predecessor: the committed log is no chain. *)
Lemma batched_events_fork :
  let w := run_commit 1 (run_append 1 "scan.cost_confirmed" (run_append 1 "scan.create" logged)) in
  map ae_previous_hash (committed w) = ["GENESIS"; head_hash "GENESIS" (committed logged); head_hash "GENESIS" (committed logged)]
  ∧ ae_event_type <$> committed w = ["scan.create"; "scan.create"; "scan.cost_confirmed"].
Proof. by vm_compute. Qed.
End TrailRun.
