(* ===== verification/ScanRequests.v ===== *)
(** * ScanRequests: how an operator starts, repeats, promotes and cancels a scan (main.py, repositories.py, runtime.py)

    The handlers of /api/scans and /api/opportunities/{id}/promote.  They plan a scan, check
    the mode, the budget, the permission and the confirmation, write the rows of service,
    market, opportunity and scan, and leave the scan to the worker (ScanWorker).

    [Front] holds the tables of DiscoveryBatches and the rows of services and markets by
    slug; a row is kept as the model that [service_from_orm] and [market_from_orm] read.
    [_queue_scan] commits, and the audit entry is committed after it: a handler is a
    sequence of [session]s.  The hash chain of the entries is AuditTrail's subject; here an
    entry is its type and its target.

    Parameters: the parsing and the dump of a service and of a market (pydantic), the texts
    of JSON values, the location search, the prefilter's assessment, and the synchronous run
    of the pipeline. *)
From S2P Require Import Prelude Security.
From S2P Require Import Text Services Binary64 Schema OpportunityReview ScanWorker Planning DiscoveryBatches.
From stdpp Require Import pretty.
From Stdlib Require Import QArith.
#[global] Open Scope Z_scope.

(** ** runtime.py *)

(** [None] is the ConfigurationError. *)
Definition resolve_data_mode (value : string) : option DataMode :=
  let normalized := py_lower (py_strip (if str_truthy value then value else "fixture")) in
  if bool_decide (normalized = "fixture"%string) then Some fixture
  else if bool_decide (normalized = "live"%string) then Some live
  else if bool_decide (normalized = "replay"%string) then Some replay
  else None.

Definition mode_value (mode : DataMode) : string :=
  match mode with fixture => "fixture" | live => "live" | replay => "replay" end.

(** What the handlers read of the settings *)
Record RequestSettings (USD : Type) : Type := {
  planning_settings : PlanningSettings USD;
  data_mode_setting : string;
  dataforseo_login : option string;
  dataforseo_password : option string
}.
Arguments planning_settings {USD}. Arguments data_mode_setting {USD}. Arguments dataforseo_login {USD}.
Arguments dataforseo_password {USD}.

(** The condition under which [validate_runtime_mode] does not raise for a mode *)
Definition runtime_mode_allowed {USD} (settings : RequestSettings USD) (mode : DataMode) : bool :=
  if negb (bool_decide (mode = live)) then true
  else
    let s := base_settings (planning_settings settings) in
    let environment := py_lower (py_strip (dataforseo_environment (planning_settings settings))) in
    bool_decide (environment ∈ ["sandbox"; "production"]%string)
    && allow_live_api_calls s
    && negb (paid_call_kill_switch s)
    && (negb (bool_decide (environment = "production"%string)) || allow_production_dataforseo s)
    && opt_truthy (dataforseo_login settings)
    && opt_truthy (dataforseo_password settings).

(** ** State, requests and answers *)

Record Front (USD C : Type) : Type := {
  front_desk : Desk USD C;
  service_rows : gmap Z ServiceFamily;
  market_rows : gmap Z Market;
  audit_entries : list (string * option Z)
}.
Arguments front_desk {USD C}. Arguments service_rows {USD C}. Arguments market_rows {USD C}.
Arguments audit_entries {USD C}. Arguments Build_Front {USD C}.
#[export] Instance eta_Front USD C : Eta (Front USD C) := λ r,
  Build_Front (front_desk r) (service_rows r) (market_rows r) (audit_entries r).

Inductive request_error : Type := Http (status_code : Z) | Internal (e : plan_error).

Record CancelAnswer : Type := { can_cancelled : bool; can_scan : Z }.

Inductive ScanAnswer : Type :=
| AlreadyActive (scan : Z)
| Queued (scan : Z) (plan : ScanPlan)
| DryRun (plan : ScanPlan)
| Ran (scan : Z).

Record PromoteScanRequest : Type := { pq_dry_run : bool; pq_confirm_live_cost : bool }.

Record ScanRequest : Type := {
  rq_service_id : option string;
  rq_service_text : string;
  rq_dry_run : bool;
  rq_async_run : bool;
  rq_confirm_live_cost : bool;
  rq_data_mode : option string;
  rq_scan_profile : option string
}.

(** [build_scan_plan] of given models *)
Class RequestPlanner (C : Type) : Type :=
  plan_request : DataMode → ServiceFamily → Market → string → Z → M C plan_error ScanPlan.
#[global] Hint Mode RequestPlanner ! : typeclass_instances.

Section requests.
Context {USD C : Type} `{Amount USD} `{DecimalMoney USD} `{RequestPlanner C}.
Context (plan_json : ScanPlan → json).
Context (dump_service : ServiceFamily → json) (parse_service : json → option ServiceFamily).
Context (dump_market : Market → json) (parse_market : json → option Market).
Context (py_str : json → string).
Abbreviation Handler T := (M (Front USD C) request_error T).
Implicit Types (f : Front USD C) (settings : RequestSettings USD).

(** ** Sessions *)

(** A request's session: what it committed, or nothing *)
Definition session {T} (m : Handler (bool * T)) : Handler T := λ f,
  match m f with
  | (Ok (true, a), f') => (Ok a, f')
  | (Ok (false, a), _) => (Ok a, f)
  | (Raise e, _) => (Raise e, f)
  end.

Definition in_front {T} (m : Session USD T) : Handler T := λ f,
  let '(r, db) := m (desk_db (front_desk f)) in
  (match r with Ok x => Ok x | Raise e => Raise (Internal (Failure e)) end,
   f <| front_desk ::= λ d, d <| desk_db := db |> |>).

Definition in_desk {T} (m : M (Desk USD C) plan_error T) : Handler T := λ f,
  let '(r, d) := m (front_desk f) in
  (match r with Ok x => Ok x | Raise e => Raise (Internal e) end, f <| front_desk := d |>).

Definition front_db f : Db USD := desk_db (front_desk f).

Definition _audit_request (event_type : string) (target_id : option Z) : Handler unit :=
  modify (λ f, f <| audit_entries ::= λ l, l ++ [(event_type, target_id)] |>).

Definition get_scan_row (scan_id : Z) : Handler ScanRun :=
  get_or_raise (λ f, scan_runs (front_db f) !! scan_id) (Http 404).

Definition plan_scan_request (mode : DataMode) (service : ServiceFamily) (market : Market) (profile : string) (now : Z)
    : Handler ScanPlan :=
  in_desk (in_catalog (plan_request mode service market profile now)).

(** ** repositories.py *)

(** [x.slug or x.id] *)
Definition service_slug (service : ServiceFamily) : string :=
  default "" (str_or (fam_slug service) (Some (fam_id service))).
Definition market_slug (market : Market) : string := default "" (str_or (mt_slug market) (Some (mt_id market))).

Definition service_row (service : ServiceFamily) : ServiceFamily :=
  service <| fam_id := service_slug service |> <| fam_slug := Some (service_slug service) |>.
Definition market_row (market : Market) : Market :=
  market <| mt_id := market_slug market |> <| mt_slug := Some (market_slug market) |>.

Definition row_of_slug {R} (slug : R → option string) (s : string) (t : gmap Z R) : option (Z * R) :=
  select_first (λ _ r, bool_decide (slug r = Some s)) t.

(** The columns the other tables' readers use are those of [service_families] and [markets]. *)
Definition upsert_service (service : ServiceFamily) : Handler Z :=
  gets (λ f, row_of_slug fam_slug (service_slug service) (service_rows f)) ≫= λ found,
  gets (λ f, match found with Some r => r.1 | None => next_id (service_rows f) end) ≫= λ i,
  modify (λ f, f <| service_rows ::= insert i (service_row service) |>
                 <| front_desk ::= λ d, d <| desk_db ::= λ db,
                      db <| service_families ::= insert i {| sf_display_name := fam_display_name service |} |> |> |>) ≫= λ _,
  mret i.

Definition json_opt {T} (g : T → json) (x : option T) : json := match x with Some v => g v | None => JNull end.

Definition market_columns (market : Market) : Schema.Market := {|
  mk_display_name := JStr (mt_display_name market);
  mk_state := json_opt JStr (mt_state market);
  mk_county := json_opt JStr (mt_county market);
  mk_metro := json_opt JStr (mt_metro market);
  mk_latitude := json_opt JFloat (mt_latitude market);
  mk_longitude := json_opt JFloat (mt_longitude market);
  mk_boundary_radius_km := json_opt JFloat (mt_boundary_radius_km market);
  mk_geography_id := json_opt JStr (mt_geography_id market);
  mk_cities := mt_cities market |}.

Definition upsert_market (market : Market) : Handler Z :=
  gets (λ f, row_of_slug mt_slug (market_slug market) (market_rows f)) ≫= λ found,
  gets (λ f, match found with Some r => r.1 | None => next_id (market_rows f) end) ≫= λ i,
  modify (λ f, f <| market_rows ::= insert i (market_row market) |>
                 <| front_desk ::= λ d, d <| desk_db ::= λ db,
                      db <| markets ::= insert i (market_columns market) |> |> |>) ≫= λ _,
  mret i.

Definition opportunity_for (service market : Z) (db : Db USD) : option (Z * Opportunity) :=
  select_first (λ _ o, bool_decide (opp_service_family_id o = service) && bool_decide (opp_market_id o = market))
    (opportunities db).

Definition new_opportunity (service market : Z) : Opportunity := {|
  opp_service_family_id := service; opp_market_id := market; opp_status := "discovered"; opp_latest_score := None;
  opp_score_version := None; opp_confidence := None; opp_missing_data_flags := []; opp_approved_at := None;
  opp_owner_user_id := None; opp_review_version := 0 |}.

Definition get_or_create_opportunity (service market : Z) : Handler Z :=
  gets (λ f, opportunity_for service market (front_db f)) ≫= λ found,
  match found with
  | Some r => mret r.1
  | None =>
      gets (λ f, next_id (opportunities (front_db f))) ≫= λ i,
      in_front (modify (λ db, db <| opportunities ::= insert i (new_opportunity service market) |>)) ≫= λ _,
      mret i
  end.
(** ** Queueing a scan *)

(** What a caller of [_queue_scan] chooses *)
Record QueueOptions : Type := {
  qo_source : string;
  qo_source_scan_run_id : option Z;
  qo_retry_count : Z;
  qo_prefilter : json;
  qo_telemetry : json
}.

(** [str(scan_plan.get("scan_profile") or "testing")] *)
Definition profile_of (plan : ScanPlan) : string :=
  if str_truthy (sp_scan_profile plan) then sp_scan_profile plan else "testing".

Definition queued_scan settings (opportunity : Z) (service : ServiceFamily) (market : Market) (data_mode : string)
    (plan : ScanPlan) (options : QueueOptions) : ScanRun := {|
  sc_opportunity_id := Some opportunity;
  sc_source := qo_source options;
  sc_status := SQueued;
  sc_started_at := None;
  sc_completed_at := None;
  sc_error_summary := None;
  sc_request_parameters := list_to_map
    [("service", json_opt JStr (fam_slug service)); ("market", json_opt JStr (mt_slug market));
     ("data_mode", JStr data_mode); ("scan_profile", JStr (profile_of plan)); ("scan_plan", plan_json plan);
     ("service_payload", dump_service service); ("market_payload", dump_market market);
     ("final_market_payload", dump_market market); ("public_data_prefilter", qo_prefilter options);
     ("telemetry", qo_telemetry options)]%string;
  sc_data_mode := data_mode;
  sc_scan_profile := profile_of plan;
  sc_source_scan_run_id := qo_source_scan_run_id options;
  sc_progress_stage := "queued";
  sc_partial_outputs := ∅;
  sc_retry_count := qo_retry_count options;
  sc_max_attempts := scan_worker_max_attempts (base_settings (planning_settings settings));
  sc_next_attempt_at := None;
  sc_cancel_requested := false;
  sc_worker_id := None;
  sc_lease_token := None;
  sc_claimed_at := None;
  sc_heartbeat_at := None;
  sc_lease_expires_at := None;
  sc_quarantined_at := None;
  sc_quarantine_reason := None |}.

Definition queued_scan_columns (data_mode : string) (plan : ScanPlan) : ScanColumns USD := {|
  scc_estimated_cost_usd := decimal_to_float (sp_estimated_uncached_cost_usd plan);
  scc_planned_cost_usd := decimal_to_float (sp_estimated_uncached_cost_usd plan);
  scc_cache_policy_version := "v2";
  scc_integration_versions :=
    [("data_mode", JStr data_mode); ("queued", JBool true); ("async_worker", JStr "separate_process")]%string |}.

Definition insert_scan (scan : Z) (row : ScanRun) (columns : ScanColumns USD) : Handler unit :=
  in_desk (modify (λ d, d <| desk_db ::= λ db, db <| scan_runs ::= insert scan row |> |>
                          <| scan_columns ::= insert scan columns |>)).

(** The scan is planned again, at [now], and that plan's calls are saved. *)
Definition _queue_scan settings (service : ServiceFamily) (market : Market) (data_mode : string) (plan : ScanPlan)
    (options : QueueOptions) (now : Z) : Handler Z :=
  upsert_service service ≫= λ service_id,
  upsert_market market ≫= λ market_id,
  get_or_create_opportunity service_id market_id ≫= λ opportunity,
  when (bool_decide (profile_of plan = "testing"%string))
    (in_front (transition_system opportunity testing_planned "testing_scan_queued"
                 "Testing scan was explicitly queued." now) ≫= λ _, mret tt) ≫= λ _,
  gets (λ f, next_id (scan_runs (front_db f))) ≫= λ scan,
  insert_scan scan (queued_scan settings opportunity service market data_mode plan options)
    (queued_scan_columns data_mode plan) ≫= λ _,
  get_or_raise (λ _, resolve_data_mode data_mode) (Internal (Failure ConfigurationError)) ≫= λ mode,
  plan_scan_request mode service market (profile_of plan) now ≫= λ saved,
  in_desk (save_scan_plan_calls scan saved) ≫= λ _,
  mret scan.

(** ** Cancelling *)

Definition finished (s : ScanRun) : bool := bool_decide (sc_status s ∈ [SCompleted; SFailed; SCancelled]).

Definition set_scan (scan_id : Z) (g : ScanRun → ScanRun) : Handler unit := in_front (update_scan scan_id g).

Definition api_cancel_scan (scan_id : Z) (now : Z) : Handler CancelAnswer :=
  session (
    get_scan_row scan_id ≫= λ scan,
    if finished scan then
      mret (false, {| can_cancelled := bool_decide (sc_status scan = SCancelled); can_scan := scan_id |})
    else
      set_scan scan_id (λ s, s <| sc_cancel_requested := true |>) ≫= λ _,
      when (bool_decide (sc_status scan = SQueued))
        (set_scan scan_id (cancel_queued now) ≫= λ _,
         match sc_opportunity_id scan with
         | None => mret tt
         | Some opportunity =>
             in_front (transition_system opportunity needs_more_evidence "queued_scan_cancelled"
                         ("Queued scan " +:+ pretty scan_id +:+ " was cancelled before execution.") now) ≫= λ _,
             mret tt
         end) ≫= λ _,
      _audit_request "scan.cancel" (Some scan_id) ≫= λ _,
      mret (true, {| can_cancelled := true; can_scan := scan_id |})).

(** ** Retrying *)

Definition stored (scan : ScanRun) (key : string) : json := default JNull (sc_request_parameters scan !! key).

(** [str(request.get(key) or column)] *)
Definition stored_text (scan : ScanRun) (key column : string) : string :=
  if json_truthy (stored scan key) then py_str (stored scan key) else column.

(** The two payloads as models; [e] when one is no object, a validation error when one does not parse *)
Definition stored_models (service market : json) (e : request_error) : Handler (ServiceFamily * Market) :=
  raise_if (negb (is_obj service) || negb (is_obj market)) e ≫= λ _,
  get_or_raise (λ _, parse_service service) (Internal (Failure (ValueError "ServiceFamily"))) ≫= λ service,
  get_or_raise (λ _, parse_market market) (Internal (Failure (ValueError "Market"))) ≫= λ market,
  mret (service, market).

Definition mode_of (value : string) : Handler DataMode :=
  get_or_raise (λ _, resolve_data_mode value) (Internal (Failure ConfigurationError)).

Definition retry_options (scan_id : Z) (scan : ScanRun) (telemetry : json) : QueueOptions := {|
  qo_source := "manual_async"; qo_source_scan_run_id := Some scan_id; qo_retry_count := sc_retry_count scan + 1;
  qo_prefilter := JNull; qo_telemetry := telemetry |}.

Definition api_retry_scan settings (scan_id : Z) (telemetry : json) (now : Z) : Handler ScanAnswer :=
  session (
    get_scan_row scan_id ≫= λ scan,
    raise_if (active_status (sc_status scan)) (Http 409) ≫= λ _,
    gets (λ f, active_retry_for_scan scan_id (front_db f)) ≫= λ existing,
    match existing with
    | Some r => mret (false, AlreadyActive r.1)
    | None =>
        stored_models (stored scan "service_payload") (stored scan "market_payload") (Http 400) ≫= λ models,
        let data_mode := stored_text scan "data_mode" (sc_data_mode scan) in
        mode_of data_mode ≫= λ mode,
        plan_scan_request mode models.1 models.2 (stored_text scan "scan_profile" (sc_scan_profile scan)) now ≫= λ plan,
        raise_if (sp_blocked plan) (Http 400) ≫= λ _,
        _queue_scan settings models.1 models.2 data_mode plan (retry_options scan_id scan telemetry) now ≫= λ retry,
        mret (true, Queued retry plan)
    end) ≫= λ answer,
  match answer with
  | Queued retry plan =>
      session (_audit_request "scan.retry" (Some retry) ≫= λ _, mret (true, answer))
  | _ => mret answer
  end.
(** ** Promoting a testing scan to a full one *)

Definition scans_where (opportunity : Z) (p : ScanRun → bool) f : option (Z * ScanRun) :=
  select_last (λ _ s, bool_decide (sc_opportunity_id s = Some opportunity) && p s) (scan_runs (front_db f)).

Definition completed_with (profile : string) (s : ScanRun) : bool :=
  bool_decide (sc_status s = SCompleted) && bool_decide (sc_scan_profile s = profile).

Definition evidence_failed (s : ScanRun) : bool :=
  match sc_partial_outputs s !! "evidence_quality"%string with
  | Some (JObj quality) => match dict_get "status" quality with
                           | Some (JStr status) => bool_decide (status = "fail"%string)
                           | _ => false
                           end
  | _ => false
  end.

(** [_service_catalog()]: [None] is a catalog that does not load *)
Definition with_catalog (catalog : option ServiceCatalog) : Handler ServiceCatalog :=
  get_or_raise (λ _, catalog) (Http 503).

Definition require_runtime settings (mode : DataMode) : Handler unit :=
  raise_if (negb (runtime_mode_allowed settings mode)) (Internal (Failure ConfigurationError)).

Definition costs_money (plan : ScanPlan) : bool := Q_ltb 0 (sp_estimated_uncached_cost_usd plan).

Definition promotion_approval : ReviewTransitionRequest := {|
  target_state := full_scan_approved; decision := "full_scan_approved";
  decision_reason := "Reviewer approved promotion from testing evidence to a full scan.";
  notes := ""; tags := []; owner_user_id := None; expected_review_version := None |}.

(** [except OpportunityReviewError: session.rollback(); raise HTTPException(409)] *)
Definition approve_promotion (opportunity_id : Z) (actor : ReviewActor) (now : Z) : Handler unit :=
  reraise (λ e, match e with Internal (Failure (OpportunityReviewError _)) => Http 409 | _ => e end)
    (in_front (transition opportunity_id promotion_approval actor now)) ≫= λ _, mret tt.

Definition promotion_options (source : Z) (scan : ScanRun) (telemetry : json) : QueueOptions := {|
  qo_source := "promotion_async"; qo_source_scan_run_id := Some source; qo_retry_count := 0;
  qo_prefilter := if is_obj (stored scan "public_data_prefilter") then stored scan "public_data_prefilter" else JNull;
  qo_telemetry := telemetry |}.

(** The service the catalog has now for the service of the scan *)
Definition current_service (catalog : ServiceCatalog) (service : ServiceFamily) : option ServiceFamily :=
  match resolve catalog (fam_id service) with
  | Some r => Some (res_service r)
  | None => res_service <$> resolve catalog (fam_display_name service)
  end.

Definition api_opportunity_promote settings (catalog : option ServiceCatalog) (opportunity_id : Z)
    (payload : PromoteScanRequest) (actor : ReviewActor) (telemetry : json) (now : Z) : Handler ScanAnswer :=
  session (
    get_or_raise (λ f, opportunities (front_db f) !! opportunity_id) (Http 404) ≫= λ _,
    gets (scans_where opportunity_id (λ s, active_status (sc_status s))) ≫= λ active,
    raise_if (bool_decide (is_Some active)) (Http 409) ≫= λ _,
    get_or_raise (scans_where opportunity_id (completed_with "testing")) (Http 409) ≫= λ source,
    raise_if (evidence_failed source.2) (Http 409) ≫= λ _,
    let market := if json_truthy (stored source.2 "final_market_payload") then stored source.2 "final_market_payload"
                  else stored source.2 "market_payload" in
    raise_if (negb (is_obj (stored source.2 "service_payload")) || negb (is_obj market)) (Http 400) ≫= λ _,
    mode_of (stored_text source.2 "data_mode" (sc_data_mode source.2)) ≫= λ mode,
    raise_if (negb (bool_decide (mode = live))) (Http 400) ≫= λ _,
    require_runtime settings mode ≫= λ _,
    get_or_raise (λ _, parse_service (stored source.2 "service_payload")) (Internal (Failure (ValueError "ServiceFamily")))
    ≫= λ source_service,
    with_catalog catalog ≫= λ catalog,
    get_or_raise (λ _, current_service catalog source_service) (Http 422) ≫= λ service,
    get_or_raise (λ _, parse_market market) (Internal (Failure (ValueError "Market"))) ≫= λ market,
    plan_scan_request mode service market "full" now ≫= λ plan,
    raise_if (sp_blocked plan) (Http 400) ≫= λ _,
    if pq_dry_run payload then mret (false, DryRun plan)
    else
      raise_if (costs_money plan && negb (pq_confirm_live_cost payload)) (Http 409) ≫= λ _,
      approve_promotion opportunity_id actor now ≫= λ _,
      _queue_scan settings service market (mode_value mode) plan (promotion_options source.1 source.2 telemetry) now
      ≫= λ queued,
      mret (true, Queued queued plan)) ≫= λ answer,
  match answer with
  | Queued queued _ =>
      session (_audit_request "scan.promote" (Some queued) ≫= λ _, mret (true, answer))
  | _ => mret answer
  end.

(** ** Starting a scan *)

(** The review state of the opportunity of a live full scan; an unknown one counts as
    needing more evidence. *)
Definition require_review_approval (service : ServiceFamily) (market : Market) : Handler unit :=
  upsert_service service ≫= λ service_id,
  upsert_market market ≫= λ market_id,
  get_or_create_opportunity service_id market_id ≫= λ opportunity,
  get_or_raise (λ f, opportunities (front_db f) !! opportunity) (Internal (Failure RuntimeError)) ≫= λ o,
  raise_if (negb (bool_decide (default needs_more_evidence (parse_state (opp_status o)) = full_scan_approved))) (Http 409).

(** [payload.scan_profile or settings.live_scan_depth], as it is written *)
Definition requested_profile settings (payload : ScanRequest) : string :=
  default "" (str_or (rq_scan_profile payload) (Some (live_scan_depth (planning_settings settings)))).

Definition scan_options (prefilter telemetry : json) : QueueOptions := {|
  qo_source := "manual_async"; qo_source_scan_run_id := None; qo_retry_count := 0; qo_prefilter := prefilter;
  qo_telemetry := telemetry |}.

(** The request up to the plan, the confirmation and the queue; the right side is a run that
    is to be made at once.  [market] is the answer of the location search and [prefilter]
    the assessment. *)
Definition admit_scan settings (catalog : option ServiceCatalog) (payload : ScanRequest) (principal : Principal)
    (market : option Market) (prefilter telemetry : json) (now : Z)
    : Handler (ScanAnswer + (DataMode * string * ServiceFamily * Market)) :=
  session (
    mode_of (data_mode_setting settings) ≫= λ configured,
    require_runtime settings configured ≫= λ _,
    match rq_data_mode payload with
    | Some value => if str_truthy value then mode_of value else mret configured
    | None => mret configured
    end ≫= λ mode,
    require_runtime settings mode ≫= λ _,
    let profile := requested_profile settings payload in
    let full := bool_decide (profile = "full"%string) in
    raise_if (negb (permits principal (if full then run_full_scan else run_testing_scan))) (Http 403) ≫= λ _,
    with_catalog catalog ≫= λ catalog,
    get_or_raise (λ _, _resolve_service catalog (rq_service_id payload) (rq_service_text payload) (negb full)) (Http 422)
    ≫= λ resolution,
    let service := res_service resolution in
    get_or_raise (λ _, market) (Http 422) ≫= λ market,
    when (bool_decide (mode = live) && full && negb (rq_dry_run payload)) (require_review_approval service market) ≫= λ _,
    plan_scan_request mode service market profile now ≫= λ plan,
    if rq_dry_run payload then mret (false, inl (DryRun plan))
    else
      raise_if (sp_blocked plan) (Http 400) ≫= λ _,
      raise_if (bool_decide (mode = live) && costs_money plan && negb (rq_confirm_live_cost payload)) (Http 409) ≫= λ _,
      if rq_async_run payload then
        _queue_scan settings service market (mode_value mode) plan (scan_options prefilter telemetry) now ≫= λ scan,
        mret (true, inl (Queued scan plan))
      else mret (true, inr (mode, profile, service, market))).

(** [run_pipeline] is the synchronous run, which commits what came before and then on its own. *)
Definition api_scan settings (catalog : option ServiceCatalog) (payload : ScanRequest) (principal : Principal)
    (market : option Market) (prefilter telemetry : json)
    (run_pipeline : DataMode → string → ServiceFamily → Market → Handler Z) (now : Z) : Handler ScanAnswer :=
  admit_scan settings catalog payload principal market prefilter telemetry now ≫= λ outcome,
  match outcome with
  | inl answer => mret answer
  | inr (mode, profile, service, market) => run_pipeline mode profile service market ≫= λ scan, mret (Ran scan)
  end ≫= λ answer,
  match answer with
  | Queued scan _ | Ran scan =>
      session (
        _audit_request "scan.create" (Some scan) ≫= λ _,
        when (rq_confirm_live_cost payload) (_audit_request "scan.cost_confirmed" (Some scan)) ≫= λ _,
        mret (true, answer))
  | _ => mret answer
  end.
End requests.
