(* ===== verification/ScanRequestsTheorems.v ===== *)
(** * ScanRequestsTheorems: what the requests for scans promise

    A scan whose cancellation an operator requested is never claimed again, whatever the
    workers do; a full scan is queued only for an approved opportunity and with a confirmed
    cost; a retry continues the counter of the scan it repeats.  [front_planner] shows that
    [build_scan_plan] is a planner the requests can rely on. *)
From S2P Require Import Prelude Security.
From S2P Require Import Text Services Binary64 Schema ScanLeases CostControls OpportunityReview OpportunityReviewProofs.
From S2P Require Import ScanWorker ScanWorkerProofs BlobStorage ResponseCache Planning PlanningTheorems DiscoveryBatches.
From S2P Require Import ServicesTheorems DiscoveryBatchesProofs DiscoveryBatchesTheorems ScanRequests.
From stdpp Require Import pretty.
From Stdlib Require Import QArith.
#[global] Open Scope Z_scope.

(** ** Cancelled scans in the queue *)

Section cancelled.
Context {USD : Type} `{Amount USD} (settings : Settings USD).
Implicit Types (db : Db USD) (s : ScanRun).

(** A scan that is to stop, or, when [halted], that has stopped for good *)
Definition stopping (halted : bool) s : Prop :=
  sc_cancel_requested s = true
  ∧ (halted = true → terminal_status (sc_status s) = true ∧ sc_lease_token s = None).

Lemma quiet_stopping halted s s' : quiet s s' → stopping halted s → stopping halted s'.
Proof.
  intros [_ _ _ Hc Ht Hst] [Hcan Hhalt]. split; [by apply Hc|]. intros Hh. destruct (Hhalt Hh) as [Hterm Hnone].
  split; [by destruct Hst as [-> | ?]|]. destruct Ht as [-> | ->]; done.
Qed.

Lemma one_row_stopping halted i j db db' s :
  one_row settings j db db' → scan_runs db !! i = Some s → stopping halted s →
  ∃ s', scan_runs db' !! i = Some s' ∧ stopping halted s'.
Proof.
  intros [->|(sj & sj' & Hj & -> & Hmove)] Hi Hs; [by exists s|].
  destruct (decide (i = j)) as [->|Hne]; [|exists s; by rewrite lookup_insert_ne].
  assert (sj = s) as -> by congruence. exists sj'. rewrite lookup_insert_eq. split; [done|].
  destruct Hmove as [Hq|([t Ht] & s1 & Hr & ->)]; [by eapply quiet_stopping|].
  destruct Hs as [Hcan Hhalt]. split; [cbn; by rewrite (rt_cancel _ _ _ Hr)|].
  intros Hh. destruct (Hhalt Hh) as [_ Hnone]. congruence.
Qed.

Lemma step_stopping halted i db c db' s :
  worker_step settings db c db' → scan_runs db !! i = Some s → stopping halted s →
  i ∉ c ∧ ∃ s', scan_runs db' !! i = Some s' ∧ stopping halted s'.
Proof.
  assert (∀ now s0 s1, swept now s0 s1 → stopping halted s0 → stopping halted s1) as Hswept.
  { intros now s0 s1 Hsw. apply quiet_stopping. by eapply swept_quiet. }
  intros Hstep Hi Hs. destruct Hstep as [w a t now l db' Hrun|w a t now db' Hrun
    |a dr now n db' Hrun|l a now b db' Hrun|l now r db' Hrun|l st now u db' Hrun
    |j o now u db' Hrun|j o m now u db' Hrun|dr l e now u db' Hrun|j f db' Hf Hdb
    |s0 db' Hq Hc Ha Hsrc Hdb]; try (split; [by intros ?%elem_of_nil|]).
  - unfold claim_next_scan in Hrun. rewrite bind_gets in Hrun. apply claim_from_ok in Hrun as [Hsw Hcl].
    destruct (Hcl l eq_refl) as (_ & _ & _ & sl & d & _ & Hsl & _ & Hcan & _).
    assert (i ≠ lease_scan_id l) as Hne. { intros ->. destruct Hs as [Hs _]. congruence. }
    split; [by intros ->%list_elem_of_singleton|]. specialize (Hsw i ltac:(by intros ? [= <-])). rewrite Hi in Hsw.
    destruct Hsw as (s' & Hs' & Hw). exists s'. eauto.
  - unfold claim_next_scan in Hrun. rewrite bind_gets in Hrun. apply claim_from_ok in Hrun as [Hsw _].
    specialize (Hsw i ltac:(done)). rewrite Hi in Hsw. destruct Hsw as (s' & Hs' & Hw). exists s'. eauto.
  - apply recover_ok in Hrun as (d & _ & Hsome & _). specialize (Hsome i s Hi).
    destruct (stale_scan (now - d) now s) eqn:Hst; [|by exists s]. destruct Hsome as (s' & Hs' & Hr). exists s'.
    split; [done|]. unfold stale_scan in Hst. bools. destruct Hs as [Hcan Hhalt]. split.
    + destruct Hr as [(_ & _ & _ & _ & _ & _ & _ & ?)|(s1 & Hr & ->)]; [done|]. cbn. by rewrite (rt_cancel _ _ _ Hr).
    + intros Hh. destruct (Hhalt Hh) as [Hterm _].
      match goal with Hrun : sc_status s = SRunning |- _ => by rewrite Hrun in Hterm end.
  - eapply one_row_stopping; [by eapply heartbeat_row|done..].
  - eapply one_row_stopping; [by eapply begin_row|done..].
  - eapply one_row_stopping; [by eapply set_stage_row|done..].
  - eapply one_row_stopping; [by eapply cancelled_row|done..].
  - eapply one_row_stopping; [by eapply failed_row|done..].
  - eapply one_row_stopping; [by eapply finish_row|done..].
  - eapply one_row_stopping; [by eapply one_row_update|done..].
  - exists s. rewrite Hdb, lookup_insert_ne; [done|]. intros <-. by rewrite next_id_fresh in Hi.
Qed.

Lemma reach_stopping halted i db cs db' s :
  worker_reach settings db cs db' → scan_runs db !! i = Some s → stopping halted s →
  i ∉ cs ∧ ∃ s', scan_runs db' !! i = Some s' ∧ stopping halted s'.
Proof.
  intros Hreach Hi Hs. induction Hreach as [|cs c db1 db2 _ IH Hstep].
  - split; [by intros ?%elem_of_nil|by exists s].
  - destruct IH as [Hout (s1 & Hs1 & Hst1)]. destruct (step_stopping _ _ _ _ _ _ Hstep Hs1 Hst1) as [Hout' ?].
    split; [|done]. rewrite not_elem_of_app. done.
Qed.
End cancelled.

(** ** What the handlers write *)

(** What a request relies on: the profile of a plan is the normalized profile asked for. *)
Class RequestPlannerLaws (C : Type) `{RequestPlanner C} : Prop :=
  plan_request_profile mode service market profile now (c : C) plan (c' : C) :
    plan_request mode service market profile now c = (Ok plan, c') → str_truthy profile = true →
    _scan_profile profile = Some (sp_scan_profile plan).

Section front_planner.
Context {S USD : Type} `{BlobStore S} `{JsonText} `{DecimalMoney USD}.
Context (sha256 : bytes → string) (format_6f format_g : binary64 → string) (parse_int : string → option Z)
  (index_get : string → option USGeographyRecord) (settings : PlanningSettings USD).

Definition front_planner : RequestPlanner (CacheState S) := λ mode service market profile now,
  build_scan_plan sha256 format_6f format_g parse_int index_get settings mode service market true (Some profile) now.

Lemma front_planner_laws : @RequestPlannerLaws (CacheState S) front_planner.
Proof.
  intros mode service market profile now c plan c' Hrun Ht. unfold plan_request, front_planner, build_scan_plan in Hrun.
  rewrite bind_get_or_raise in Hrun. unfold str_or in Hrun. cbn [opt_truthy] in Hrun. rewrite Ht in Hrun.
  change (default ""%string (Some profile)) with profile in Hrun. destruct (_scan_profile profile) as [p|]; [|done]. f_equal.
  destruct (negb (bool_decide (mode = live))); [by injection Hrun as <- _|].
  destruct (_live_switch_block_reason settings p); [by injection Hrun as <- _|].
  apply bind_ok in Hrun as (? & ? & _ & (? & ? & _ & [= <- _])%bind_ok). done.
Qed.
End front_planner.

Section requests.
Context {USD C : Type} `{Amount USD} `{DecimalMoney USD} `{!RequestPlanner C} `{!RequestPlannerLaws C}.
Context (plan_json : ScanPlan → json).
Context (dump_service : ServiceFamily → json) (parse_service : json → option ServiceFamily).
Context (dump_market : Planning.Market → json) (parse_market : json → option Planning.Market).
Context (py_str : json → string).
Implicit Types (f : Front USD C) (settings : RequestSettings USD).

Definition front_scans f : gmap Z ScanRun := scan_runs (front_db f).

Lemma session_ok {T} (m : M (Front USD C) request_error (bool * T)) f a f' :
  session m f = (Ok a, f') → (∃ f1, m f = (Ok (true, a), f1) ∧ f' = f1) ∨ (∃ f1, m f = (Ok (false, a), f1) ∧ f' = f).
Proof. unfold session. destruct (m f) as [[[[] x]|e] f1]; intros [= <- <-]; [left|right]; by eexists. Qed.

(** *** Parts of the state a step leaves alone *)

#[export] Instance in_front_keeps {T T'} (part : Db USD → T') (m : Session USD T) :
  Keeps part m → Keeps (λ f : Front USD C, part (front_db f)) (in_front m).
Proof.
  intros Hm f. unfold in_front. specialize (Hm (desk_db (front_desk f))).
  by destruct (m (desk_db (front_desk f))) as [r db].
Qed.

#[export] Instance in_front_keeps_audit {T} (m : Session USD T) : Keeps (audit_entries (USD := USD) (C := C)) (in_front m).
Proof. intros f. unfold in_front. by destruct (m (desk_db (front_desk f))). Qed.

#[export] Instance in_desk_keeps {T T'} (part : Desk USD C → T') (m : M (Desk USD C) plan_error T) :
  Keeps part m → Keeps (λ f : Front USD C, part (front_desk f)) (in_desk m).
Proof. intros Hm f. unfold in_desk. specialize (Hm (front_desk f)). by destruct (m (front_desk f)) as [r d]. Qed.

#[export] Instance in_desk_keeps_audit {T} (m : M (Desk USD C) plan_error T) :
  Keeps (audit_entries (USD := USD) (C := C)) (in_desk m).
Proof. intros f. unfold in_desk. by destruct (m (front_desk f)). Qed.

Lemma plan_keeps_db {T} (m : M C plan_error T) f r f' :
  in_desk (in_catalog m) f = (r, f') → front_db f' = front_db f ∧ audit_entries f' = audit_entries f
    ∧ service_rows f' = service_rows f ∧ market_rows f' = market_rows f.
Proof.
  unfold in_desk, in_catalog. destruct (m (catalog (front_desk f))) as [x c]. by intros [= _ <-].
Qed.

(** *** Cancelling *)

Definition flagged (s : ScanRun) : ScanRun := s <| sc_cancel_requested := true |>.

Lemma cancel_run scan now f a f' s :
  front_scans f !! scan = Some s → finished s = false → api_cancel_scan scan now f = (Ok a, f') →
  a = {| can_cancelled := true; can_scan := scan |}
  ∧ front_scans f' = <[scan := if bool_decide (sc_status s = SQueued) then cancel_queued now (flagged s) else flagged s]> (front_scans f)
  ∧ audit_entries f' = audit_entries f ++ [("scan.cancel"%string, Some scan)].
Proof.
  intros Hs Hfin. unfold api_cancel_scan, get_scan_row. intros [(f1 & Hrun & ->)|(f1 & Hrun & _)]%session_ok;
    rewrite bind_get_or_raise in Hrun; change (scan_runs (front_db f)) with (front_scans f) in Hrun; rewrite Hs, Hfin in Hrun.
  2: { apply bind_ok in Hrun as (? & ? & _ & (? & ? & _ & (? & ? & _ & [=])%bind_ok)%bind_ok). }
  apply bind_ok in Hrun as (u & f2 & [= _ <-] & Hrun).
  apply bind_ok in Hrun as (u' & f3 & Hwhen & (u2 & f4 & [= _ <-] & [= <- <-])%bind_ok).
  split; [done|]. enough (front_scans f3 = <[scan := if bool_decide (sc_status s = SQueued)
    then cancel_queued now (flagged s) else flagged s]> (front_scans f) ∧ audit_entries f3 = audit_entries f) as [He Ha].
  { split; [exact He|]. cbn. by rewrite Ha. } set (f2 := f <| front_desk ::= _ |>) in Hwhen.
  assert (front_scans f2 = <[scan := flagged s]> (front_scans f)) as H2.
  { change (front_scans f2) with (alter flagged scan (front_scans f)). by apply alter_as_insert. }
  apply when_ok in Hwhen as [[Hq Hwhen]|[Hq ->]]; rewrite Hq; [|by split].
  apply bind_ok in Hwhen as (u3 & f5 & [= _ <-] & Hwhen). set (f5 := f2 <| front_desk ::= _ |>) in Hwhen.
  assert (front_scans f5 = <[scan := cancel_queued now (flagged s)]> (front_scans f)) as H5.
  { change (front_scans f5) with (alter (cancel_queued now) scan (front_scans f2)). rewrite H2.
    rewrite (alter_as_insert _ _ scan (flagged s)) by apply lookup_insert_eq. apply insert_insert_eq. }
  assert (front_scans f3 = front_scans f5 ∧ audit_entries f3 = audit_entries f5) as [-> ->]; [|by rewrite H5].
  destruct (sc_opportunity_id s) as [o|]; [|by injection Hwhen as _ <-].
  apply bind_ok in Hwhen as (r & f6 & Ht & [= _ <-]). split.
  - exact (keeps_ok (λ f, scan_runs (front_db f)) _ _ _ _ Ht).
  - exact (keeps_ok audit_entries _ _ _ _ Ht).
Qed.

(** C10: A scan an operator cancelled is never worked on again.  Cancelling a scan that has
    not finished succeeds only by recording the request and its audit entry; from then on,
    in every history of claims, heartbeats, recoveries, failures and completions of the
    workers and of new scans, no worker claims the scan, and the request stays recorded; a
    scan that was still queued has stopped at once and stays stopped, without a lease. *)
Theorem cancelled_scan_is_never_claimed (worker : Settings USD) scan now f s a f' cs db :
  front_scans f !! scan = Some s → finished s = false → api_cancel_scan scan now f = (Ok a, f') →
  worker_reach worker (front_db f') cs db →
  can_cancelled a = true ∧ audit_entries f' = audit_entries f ++ [("scan.cancel"%string, Some scan)]
  ∧ scan ∉ cs
  ∧ ∃ s', scan_runs db !! scan = Some s' ∧ sc_cancel_requested s' = true
      ∧ (sc_status s = SQueued → terminal_status (sc_status s') = true ∧ sc_lease_token s' = None).
Proof.
  intros Hs Hfin Hrun Hreach. destruct (cancel_run _ _ _ _ _ _ Hs Hfin Hrun) as (-> & Hrows & Haudit).
  split; [done|]. split; [done|].
  destruct (reach_stopping worker (bool_decide (sc_status s = SQueued)) scan _ _ _
    (if bool_decide (sc_status s = SQueued) then cancel_queued now (flagged s) else flagged s) Hreach)
    as [Hout (s' & Hs' & Hcan & Hhalt)].
  - fold (front_scans f'). rewrite Hrows. apply lookup_insert_eq.
  - split; [by case_bool_decide|]. intros ->. done.
  - split; [done|]. exists s'. split_and!; [done..|]. intros Hq. apply Hhalt. by apply bool_decide_eq_true_2.
Qed.

(** *** Queueing *)

Definition service_id (service : ServiceFamily) f : Z :=
  match row_of_slug fam_slug (service_slug service) (service_rows f) with
  | Some r => r.1
  | None => next_id (service_rows f)
  end.
Definition market_id (market : Planning.Market) f : Z :=
  match row_of_slug mt_slug (market_slug market) (market_rows f) with
  | Some r => r.1
  | None => next_id (market_rows f)
  end.

(** The opportunity [_queue_scan] finds or creates for a service and a market *)
Definition target_opportunity (service : ServiceFamily) (market : Planning.Market) f : Z :=
  match opportunity_for (service_id service f) (market_id market f) (front_db f) with
  | Some r => r.1
  | None => next_id (opportunities (front_db f))
  end.

(** The columns of an opportunity that never change *)
Definition opportunity_key (o : Opportunity) : Z * Z := (opp_service_family_id o, opp_market_id o).

Lemma select_first_same {R T} (g : R → T) (p : T → bool) (t t' : gmap Z R) :
  g <$> t' = g <$> t → fst <$> select_first (λ _ r, p (g r)) t' = fst <$> select_first (λ _ r, p (g r)) t.
Proof.
  intros Hg. assert (prod_map id g <$> select (λ _ r, p (g r)) t' = prod_map id g <$> select (λ _ r, p (g r)) t) as Hs.
  { by rewrite !select_fmap, Hg. }
  unfold select_first. destruct (select _ t') as [|[i r] l], (select _ t) as [|[j r'] l']; simplify_eq/=; done.
Qed.

Lemma next_id_fmap {R T} (g : R → T) (t : gmap Z R) : next_id (g <$> t) = next_id t.
Proof. unfold next_id. by rewrite map_fold_fmap. Qed.

Lemma target_same service market f f' :
  service_rows f' = service_rows f → market_rows f' = market_rows f →
  opportunity_key <$> opportunities (front_db f') = opportunity_key <$> opportunities (front_db f) →
  target_opportunity service market f' = target_opportunity service market f.
Proof.
  intros Hs Hm Ho. unfold target_opportunity, service_id, market_id. rewrite Hs, Hm.
  pose proof (select_first_same opportunity_key (λ k, bool_decide (k.1 = match row_of_slug fam_slug (service_slug service) (service_rows f) with
    | Some r => r.1 | None => next_id (service_rows f) end) && bool_decide (k.2 = match row_of_slug mt_slug (market_slug market) (market_rows f) with
    | Some r => r.1 | None => next_id (market_rows f) end)) _ _ Ho) as Hsel.
  unfold opportunity_for, opportunity_key in *. cbn [fst snd] in Hsel.
  rewrite <- (next_id_fmap opportunity_key (opportunities (front_db f'))).
  unfold opportunity_key. rewrite Ho, (next_id_fmap (λ o, (opp_service_family_id o, opp_market_id o))).
  match type of Hsel with fst <$> ?x = fst <$> ?y => destruct x, y end; simplify_eq/=; done.
Qed.

Lemma upsert_service_run service f :
  ∃ f', upsert_service service f = (Ok (service_id service f), f')
    ∧ front_scans f' = front_scans f ∧ opportunities (front_db f') = opportunities (front_db f)
    ∧ market_rows f' = market_rows f ∧ audit_entries f' = audit_entries f
    ∧ opportunity_reviews (front_db f') = opportunity_reviews (front_db f).
Proof. unfold upsert_service. rewrite !bind_gets. by eexists. Qed.

Lemma upsert_market_run market f :
  ∃ f', upsert_market market f = (Ok (market_id market f), f')
    ∧ front_scans f' = front_scans f ∧ opportunities (front_db f') = opportunities (front_db f)
    ∧ audit_entries f' = audit_entries f ∧ opportunity_reviews (front_db f') = opportunity_reviews (front_db f).
Proof. unfold upsert_market. rewrite !bind_gets. by eexists. Qed.

Lemma get_or_create_run service market f o f' : get_or_create_opportunity service market f = (Ok o, f') →
  o = match opportunity_for service market (front_db f) with Some r => r.1 | None => next_id (opportunities (front_db f)) end
  ∧ front_scans f' = front_scans f ∧ audit_entries f' = audit_entries f
  ∧ opportunity_reviews (front_db f') = opportunity_reviews (front_db f)
  ∧ (∀ k row, opportunities (front_db f) !! k = Some row → opportunities (front_db f') !! k = Some row)
  ∧ ∃ row, opportunities (front_db f') !! o = Some row ∧ opp_service_family_id row = service ∧ opp_market_id row = market
      ∧ (opportunity_for service market (front_db f) = None → opp_status row = "discovered"%string).
Proof.
  unfold get_or_create_opportunity. rewrite bind_gets.
  destruct (opportunity_for service market (front_db f)) as [[k row]|] eqn:Hf.
  - intros [= <- <-]. split_and!; [done..|]. apply select_first_Some in Hf as [Hk Hp]. bools. by exists row.
  - rewrite bind_gets. intros (u & f1 & [= _ <-] & [= <- <-])%bind_ok. split_and!; [done..| |].
    + intros k row Hk. cbn. rewrite lookup_insert_ne; [done|]. intros <-. by rewrite next_id_fresh in Hk.
    + eexists. split; [apply lookup_insert_eq|]. done.
Qed.

#[export] Instance save_calls_keeps_scans scan plan :
  Keeps (λ d : Desk USD C, scan_runs (desk_db d)) (save_scan_plan_calls scan plan).
Proof. unfold save_scan_plan_calls, add_plan_call. apply _. Qed.
#[export] Instance save_calls_keeps_opportunities scan plan :
  Keeps (λ d : Desk USD C, (opportunities (desk_db d), opportunity_reviews (desk_db d))) (save_scan_plan_calls scan plan).
Proof. unfold save_scan_plan_calls, add_plan_call. apply _. Qed.

(** What [_queue_scan] leaves: one new queued scan for the target opportunity; unless it
    is a testing scan, no opportunity that was there changes, and no review is added. *)
Record queued_from settings service market data_mode plan options f (scan : Z) f' : Prop := {
  qf_fresh : front_scans f !! scan = None;
  qf_scans : front_scans f' = <[scan := queued_scan plan_json dump_service dump_market settings
    (target_opportunity service market f) service market data_mode plan options]> (front_scans f);
  qf_audit : audit_entries f' = audit_entries f;
  qf_row : ∃ row, opportunities (front_db f') !! target_opportunity service market f = Some row;
  qf_opportunities : profile_of plan ≠ "testing"%string →
    (∀ k row, opportunities (front_db f) !! k = Some row → opportunities (front_db f') !! k = Some row)
    ∧ opportunity_reviews (front_db f') = opportunity_reviews (front_db f);
  qf_mode : is_Some (resolve_data_mode data_mode)
}.

Lemma system_keeps_row (k : Z) target decision reason now (db : Db USD) r db' o :
  transition_system o target decision reason now db = (Ok r, db') → is_Some (opportunities db !! k) → is_Some (opportunities db' !! k).
Proof.
  unfold transition_system, _opportunity, canonical_state. rewrite bind_get_or_raise.
  destruct (opportunities db !! o) as [row|]; [|done]. rewrite bind_get_or_raise.
  destruct (canonical (opp_status row)) as [current|]; [|done]. case_bool_decide; [by intros [= _ <-]|].
  rewrite !bind_raise_if. destruct (negb (allowed current target)); [done|]. cbv zeta.
  destruct (negb (valid_request _)); [done|]. intros (rv & db1 & Ht & [= _ <-])%bind_ok.
  match type of Ht with transition ?i ?q ?a ?n ?d = _ => destruct (transition_run i q a n d) as [(x & c & _ & Hx)|(_ & e & Hx)] end;
    rewrite Hx in Ht; [|done]. injection Ht as _ <-. intros Hk. cbn. rewrite lookup_alter. case_decide; [|done].
  subst. by apply fmap_is_Some.
Qed.

Lemma queue_scan_ok settings service market data_mode plan options now f scan f' :
  _queue_scan plan_json dump_service dump_market settings service market data_mode plan options now f = (Ok scan, f') →
  queued_from settings service market data_mode plan options f scan f'.
Proof.
  unfold _queue_scan. destruct (upsert_service_run service f) as (f1 & Hr1 & Hs1 & Ho1 & Hm1 & Ha1 & Hv1).
  rewrite (bind_run _ _ _ _ _ Hr1). destruct (upsert_market_run market f1) as (f2 & Hr2 & Hs2 & Ho2 & Ha2 & Hv2).
  rewrite (bind_run _ _ _ _ _ Hr2). intros (o & f3 & Hget & Hrun)%bind_ok.
  apply get_or_create_run in Hget as (Ho & Hs3 & Ha3 & Hv3 & Hold & Hrow).
  assert (o = target_opportunity service market f) as ->.
  { rewrite Ho. unfold target_opportunity, market_id, opportunity_for. by rewrite Ho2, Ho1, Hm1. }
  apply bind_ok in Hrun as (u & f4 & Hwhen & Hrun). rewrite bind_gets in Hrun.
  assert (front_scans f4 = front_scans f3 ∧ audit_entries f4 = audit_entries f3
    ∧ is_Some (opportunities (front_db f4) !! target_opportunity service market f)
    ∧ (profile_of plan ≠ "testing"%string → f4 = f3)) as (Hs4 & Ha4 & Hrow4 & Hsame4).
  { destruct Hrow as (row & Hrow & _). apply when_ok in Hwhen as [[Hp Hwhen]|[Hp ->]]; bools.
    - apply bind_ok in Hwhen as (r & f5 & Ht & [= _ <-]). split_and!; [| | |done].
      + exact (keeps_ok (λ f, scan_runs (front_db f)) _ _ _ _ Ht).
      + exact (keeps_ok audit_entries _ _ _ _ Ht).
      + unfold in_front in Ht. destruct (transition_system _ _ _ _ _ _) as [[x|e] db] eqn:Hx; [|done].
        injection Ht as _ <-. eapply system_keeps_row; [exact Hx|by eexists].
    - split_and!; [done..|by eexists|done]. }
  apply bind_ok in Hrun as (u5 & f5 & Hins & Hrun). injection Hins as _ <-.
  rewrite bind_get_or_raise in Hrun. destruct (resolve_data_mode data_mode) as [mode|] eqn:Hmode; [|done].
  apply bind_ok in Hrun as (saved & f6 & Hplan & Hrun). apply plan_keeps_db in Hplan as (Hdb6 & Ha6 & _ & _).
  apply bind_ok in Hrun as (u7 & f7 & Hsave & [= <- <-]).
  pose proof (in_desk_keeps _ _ (save_calls_keeps_scans (next_id (scan_runs (front_db f4))) saved) f6) as Hs7.
  pose proof (in_desk_keeps _ _ (save_calls_keeps_opportunities (next_id (scan_runs (front_db f4))) saved) f6) as Ho7.
  rewrite Hsave in Hs7, Ho7.
  pose proof (keeps_ok audit_entries _ _ _ _ Hsave) as Ha7. cbn [snd] in Hs7, Ho7. injection Ho7 as Ho7 Hv7.
  unfold front_db in Hdb6. rewrite Hdb6 in Hs7, Ho7, Hv7. cbn in Hs7, Ho7, Hv7.
  assert (front_scans f4 = front_scans f) as Hs by congruence. unfold front_scans, front_db in *.
  split; unfold front_scans, front_db in *.
  - rewrite Hs. apply next_id_fresh.
  - rewrite Hs7, Hs. done.
  - rewrite Ha7, Ha6. cbn. congruence.
  - destruct Hrow4 as [row Hrow4]. exists row. by rewrite Ho7.
  - intros Hp. rewrite Ho7, Hv7, (Hsame4 Hp). split; [|congruence]. intros k row Hk. apply Hold. congruence.
  - by eexists.
Qed.

(** *** Promotion *)

(** One guard of a successful run: its condition was met and the state is the same. *)
Ltac pass H x :=
  let e := fresh in
  apply bind_ok in H as (x & ? & e & H);
  first [apply get_or_raise_ok in e as [e ->] | apply raise_if_ok in e as [e ->] | apply gets_ok in e as [e ->]].

Lemma approve_ok o actor now f u f' : approve_promotion o actor now f = (Ok u, f') →
  ∃ before current, may_move (front_db f) o promotion_approval actor now before current
    ∧ f' = f <| front_desk ::= λ d, d <| desk_db := moved_db o promotion_approval actor now before current (front_db f) |> |>.
Proof.
  unfold approve_promotion. intros (r & f1 & Hrun%reraise_ok & [= _ <-])%bind_ok. unfold in_front in Hrun.
  destruct (transition_run o promotion_approval actor now (front_db f)) as [(before & current & Hm & Ht)|(_ & e & Ht)];
    unfold front_db in Ht; rewrite Ht in Hrun; [|done]. injection Hrun as _ <-. by exists before, current.
Qed.

(** The state in which a promotion queues its scan *)
Record promotable settings (payload : PromoteScanRequest) (o source : Z) (s0 : ScanRun) (plan : ScanPlan) f : Prop := {
  pm_run : pq_dry_run payload = false;
  pm_plan : sp_blocked plan = false ∧ profile_of plan = "full"%string;
  pm_confirmed : costs_money plan = true → pq_confirm_live_cost payload = true;
  pm_mode : runtime_mode_allowed settings live = true;
  pm_idle : ∀ i s, front_scans f !! i = Some s → sc_opportunity_id s = Some o → active_status (sc_status s) = false;
  pm_source : front_scans f !! source = Some s0 ∧ sc_opportunity_id s0 = Some o;
  pm_evidence : sc_status s0 = SCompleted ∧ sc_scan_profile s0 = "testing"%string ∧ evidence_failed s0 = false
}.

Lemma promote_ok settings services o payload actor telemetry now f scan plan f' :
  api_opportunity_promote plan_json dump_service parse_service dump_market parse_market py_str settings services o payload
    actor telemetry now f = (Ok (Queued scan plan), f') →
  ∃ source s0 service market f1 f2, promotable settings payload o source s0 plan f
    ∧ approve_promotion o actor now f1 = (Ok tt, f2)
    ∧ (front_db f1 = front_db f ∧ service_rows f1 = service_rows f ∧ market_rows f1 = market_rows f
       ∧ audit_entries f1 = audit_entries f)
    ∧ ∃ f3, queued_from settings service market "live" plan (promotion_options source s0 telemetry) f2 scan f3
    ∧ f' = f3 <| audit_entries ::= λ l, l ++ [("scan.promote"%string, Some scan)] |>.
Proof.
  unfold api_opportunity_promote, mode_of, require_runtime, with_catalog. intros (answer & g & Hfirst & Hlast)%bind_ok.
  apply session_ok in Hfirst as [(g1 & Hrun & ->)|(g1 & Hrun & ->)].
  2: { exfalso. revert Hlast. pass Hrun row. pass Hrun act. pass Hrun u. pass Hrun source. pass Hrun u1.
       cbv zeta in Hrun. pass Hrun u2. apply bind_ok in Hrun as (mode & h & Hm & Hrun).
       apply get_or_raise_ok in Hm as [_ ->]. pass Hrun u3. pass Hrun u4. pass Hrun sv. pass Hrun cat. pass Hrun sv2.
       pass Hrun mk. apply bind_ok in Hrun as (p & h & _ & Hrun). pass Hrun u5.
       destruct (pq_dry_run payload); [by injection Hrun as <- _|].
       apply bind_ok in Hrun as (? & ? & _ & (? & ? & _ & (? & ? & _ & [=])%bind_ok)%bind_ok). }
  pass Hrun row. pass Hrun act. pass Hrun u. pass Hrun source. pass Hrun u1.
  cbv zeta in Hrun. pass Hrun u2. apply bind_ok in Hrun as (mode & h & Hm & Hrun).
  apply get_or_raise_ok in Hm as [_ ->]. pass Hrun u3. pass Hrun u4. pass Hrun sv. pass Hrun cat. pass Hrun sv2.
  pass Hrun mk. apply bind_ok in Hrun as (p & h & Hplan & Hrun). pass Hrun u5.
  destruct (pq_dry_run payload) eqn:Hdry; [done|]. pass Hrun u6.
  apply bind_ok in Hrun as (u7 & h2 & Happrove & Hrun). apply bind_ok in Hrun as (k & h3 & Hqueue & [= <- <-]).
  apply session_ok in Hlast as [(h4 & Hlast & ->)|(h4 & Hlast & ->)];
    apply bind_ok in Hlast as (u8 & h5 & [= _ <-] & Hlast); [injection Hlast as -> -> <-|done].
  bools. subst mode. pose proof Hplan as Hprofile. apply plan_keeps_db in Hplan. destruct source as [source s0].
  destruct u7. exists source, s0, sv2, mk, h, h2. split_and!; try apply Hplan; [|done|].
  - assert (profile_of plan = "full"%string) as Hp.
    { unfold plan_scan_request, in_desk, in_catalog in Hprofile.
      destruct (plan_request live sv2 mk "full" now (catalog (front_desk f))) as [[x|e] c] eqn:Hr; [|done].
      injection Hprofile as -> _. apply plan_request_profile in Hr; [|done].
      unfold _scan_profile in Hr. change (py_lower (py_strip "full")) with "full"%string in Hr.
      rewrite bool_decide_eq_true_2 in Hr by (right; by left). injection Hr as Hr. unfold profile_of. by rewrite <- Hr. }
    match goal with Hsrc : scans_where o (completed_with "testing") f = Some _ |- _ =>
      unfold scans_where in Hsrc; apply select_last_Some in Hsrc as [Hrow0 Hsrc] end.
    unfold completed_with in *. cbn [fst snd] in *. bools.
    split; try done.
    + intros Hc. by destruct (pq_confirm_live_cost payload); [|rewrite Hc in *].
    + intros i s Hi Ho. match goal with Hact : ¬ is_Some act, He : act = _ |- _ =>
        rewrite He in Hact; apply eq_None_not_Some in Hact; unfold scans_where in Hact;
        pose proof (proj1 (select_last_None _ _) Hact i s Hi) as Hf end.
      cbn beta in Hf. rewrite Ho, bool_decide_eq_true_2 in Hf by done. exact Hf.
  - exists h3. split; [|done]. by eapply queue_scan_ok.
Qed.

Lemma moved_same_keys o request actor now before current (db : Db USD) :
  opportunity_key <$> opportunities (moved_db o request actor now before current db) = opportunity_key <$> opportunities db.
Proof.
  apply map_eq. intros k. rewrite !lookup_fmap. cbn. rewrite lookup_alter. case_decide as Hk; [|done]. subst k.
  destruct (opportunities db !! o) as [row|]; [|done]. simpl. unfold moved, opportunity_key. by repeat case_bool_decide.
Qed.

(** C8: A scan is promoted only by approval and with a confirmed cost.  When the promotion
    of an opportunity queues a full scan, the request was no dry run and its plan within the
    budget; a plan that costs anything was confirmed; live scans are switched on; the
    opportunity had no queued or running scan and a completed testing scan whose evidence
    did not fail; the reviewer was allowed to approve it in its state, which is now
    approved for a full scan, with one review row that names them; and exactly one scan was
    added, live, full, from that testing scan, with one audit entry. *)
Theorem promotion_is_approved_and_confirmed settings services o payload actor telemetry now f scan plan f' :
  api_opportunity_promote plan_json dump_service parse_service dump_market parse_market py_str settings services o payload
    actor telemetry now f = (Ok (Queued scan plan), f') →
  ∃ source s0 service market before current,
    promotable settings payload o source s0 plan f
    ∧ may_move (front_db f) o promotion_approval actor now before current
    ∧ opp_status <$> opportunities (front_db f') !! o = Some (state_value full_scan_approved)
    ∧ opportunity_reviews (front_db f') = <[next_id (opportunity_reviews (front_db f)) :=
        review_row o promotion_approval actor now before current]> (opportunity_reviews (front_db f))
    ∧ front_scans f !! scan = None
    ∧ front_scans f' = <[scan := queued_scan plan_json dump_service dump_market settings (target_opportunity service market f)
        service market "live" plan (promotion_options source s0 telemetry)]> (front_scans f)
    ∧ audit_entries f' = audit_entries f ++ [("scan.promote"%string, Some scan)].
Proof.
  intros (source & s0 & service & market & f1 & f2 & Hpm & Happ & (Hdb & Hs & Hm & Ha) & f3 & Hq & ->)%promote_ok.
  apply approve_ok in Happ as (before & current & Hmove & ->).
  exists source, s0, service, market, before, current. rewrite Hdb in Hmove.
  destruct Hq as [Hfresh Hscans Haudit _ Hopps _].
  destruct Hopps as [Hopps Hrev]. { destruct (pm_plan _ _ _ _ _ _ _ Hpm) as [_ ->]. done. }
  assert (target_opportunity service market (f1 <| front_desk ::= λ d, d <| desk_db :=
    moved_db o promotion_approval actor now before current (front_db f1) |> |>) = target_opportunity service market f) as Ht.
  { apply target_same; [done..|]. cbn -[moved_db]. rewrite Hdb. apply moved_same_keys. }
  rewrite Ht in Hscans. unfold front_scans in *. cbn -[moved_db] in Hfresh, Hscans, Hopps, Hrev. rewrite Hdb in Hfresh, Hscans, Hopps, Hrev.
  split_and!; [done|done| |exact Hrev|exact Hfresh|exact Hscans|by cbn; rewrite Haudit; cbn; rewrite Ha].
  pose proof (mm_row _ _ _ _ _ _ _ Hmove) as Hrow. cbn -[moved]. erewrite Hopps.
  2: { cbn. rewrite lookup_alter_eq, Hrow. done. }
  simpl. unfold moved. by repeat case_bool_decide.
Qed.

(** *** Starting *)

(** An upserted row is found again under its slug. *)
Lemma row_of_slug_again {R} (slug : R → option string) s (t : gmap Z R) row :
  slug row = Some s →
  let i := match row_of_slug slug s t with Some r => r.1 | None => next_id t end in
  fst <$> row_of_slug slug s (<[i := row]> t) = Some i.
Proof.
  intros Hs i. unfold i, row_of_slug. destruct (select_first _ t) as [[k r]|] eqn:Hf.
  - assert (slug <$> <[k := row]> t = slug <$> t) as Hg.
    { apply select_first_Some in Hf as [Hk Hp]. bools. apply map_eq. intros j. rewrite !lookup_fmap, lookup_insert.
      case_decide as Hj; [|done]. subst j. rewrite Hk. simpl. congruence. }
    pose proof (select_first_same slug (λ x, bool_decide (x = Some s)) t (<[k := row]> t) Hg) as Hsel.
    cbn beta in Hsel. rewrite Hf in Hsel. exact Hsel.
  - destruct (select_first (λ _ r, bool_decide (slug r = Some s)) (<[next_id t := row]> t)) as [[k r]|] eqn:Hg.
    + apply select_first_Some in Hg as [Hk Hp]. simpl. f_equal. apply lookup_insert_Some in Hk as [[<- _]|[_ Hk]]; [done|].
      by rewrite (proj1 (select_first_None _ _) Hf k r Hk) in Hp.
    + pose proof (proj1 (select_first_None _ _) Hg (next_id t) row (lookup_insert_eq _ _ _)) as Hp. cbn beta in Hp.
      by rewrite bool_decide_eq_true_2 in Hp.
Qed.

(** The review check passes for an approved opportunity that was there before. *)
Lemma review_approval_ok service market f u f' : require_review_approval service market f = (Ok u, f') →
  (∃ row, opportunities (front_db f) !! target_opportunity service market f = Some row
     ∧ parse_state (opp_status row) = Some full_scan_approved)
  ∧ front_scans f' = front_scans f ∧ audit_entries f' = audit_entries f
  ∧ target_opportunity service market f' = target_opportunity service market f.
Proof.
  unfold require_review_approval.
  set (f1 := (upsert_service service f).2). set (f2 := (upsert_market market f1).2).
  rewrite (bind_run (upsert_service service) _ f (service_id service f) f1 eq_refl).
  rewrite (bind_run (upsert_market market) _ f1 (market_id market f) f2 eq_refl).
  intros (o & f3 & Hget & Hrun)%bind_ok. unfold get_or_create_opportunity in Hget. rewrite bind_gets in Hget.
  change (opportunity_for (service_id service f) (market_id market f) (front_db f2))
    with (opportunity_for (service_id service f) (market_id market f) (front_db f)) in Hget.
  pass Hrun row. apply raise_if_ok in Hrun as [Hst ->]. bools.
  destruct (opportunity_for (service_id service f) (market_id market f) (front_db f)) as [[k r]|] eqn:Hf.
  2: { exfalso. rewrite bind_gets in Hget. apply bind_ok in Hget as (? & ? & [= _ <-] & [= <- <-]).
       match goal with Hrow : opportunities _ !! _ = Some row |- _ =>
         cbn in Hrow; rewrite lookup_insert_eq in Hrow; injection Hrow as <- end. by vm_compute in Hst. }
  injection Hget as <- <-. assert (target_opportunity service market f = k) as Ht. { unfold target_opportunity. by rewrite Hf. }
  rewrite Ht. split_and!; [|done|done|].
  - exists row. split; [assumption|]. by destruct (parse_state (opp_status row)) as [[]|].
  - assert (service_id service f2 = service_id service f) as Hs2.
    { pose proof (row_of_slug_again fam_slug (service_slug service) (service_rows f) (service_row service) eq_refl) as Hs.
      unfold service_id at 1. change (service_rows f2) with (<[service_id service f := service_row service]> (service_rows f)).
      unfold service_id in *. cbn zeta in Hs. by destruct (row_of_slug _ _ (insert _ _ _)); simplify_eq/=. }
    assert (market_id market f2 = market_id market f) as Hm2.
    { pose proof (row_of_slug_again mt_slug (market_slug market) (market_rows f) (market_row market) eq_refl) as Hs.
      unfold market_id at 1. change (market_rows f2) with (<[market_id market f := market_row market]> (market_rows f)).
      unfold market_id in *. cbn zeta in Hs. by destruct (row_of_slug _ _ (insert _ _ _)); simplify_eq/=. }
    unfold target_opportunity. rewrite Hs2, Hm2.
    change (opportunity_for (service_id service f) (market_id market f) (front_db f2))
      with (opportunity_for (service_id service f) (market_id market f) (front_db f)). by rewrite Hf.
Qed.

(** The plan has the profile that was asked for, when that is written in lower case. *)
Definition plain_profile (profile : string) : Prop := profile = "testing"%string ∨ profile = "full"%string.

Lemma plan_has_profile mode service market profile now f plan h :
  plan_scan_request mode service market profile now f = (Ok plan, h) → plain_profile profile →
  profile_of plan = profile.
Proof.
  unfold plan_scan_request, in_desk, in_catalog. intros Hplan Hp.
  destruct (plan_request mode service market profile now _) as [[x|e] c] eqn:Hr; [|done].
  injection Hplan as -> _. apply plan_request_profile in Hr; [|by destruct Hp as [-> | ->]].
  unfold profile_of. by destruct Hp as [-> | ->]; injection Hr as <-.
Qed.

(** The gates of a scan that is started, queued or run at once *)
Record scan_admitted settings (payload : ScanRequest) (principal : Principal) f (mode : DataMode)
    (service : ServiceFamily) (m : Planning.Market) (plan : ScanPlan) : Prop := {
  sa_runtime : runtime_mode_allowed settings mode = true;
  sa_budget : sp_blocked plan = false;
  sa_confirmed : mode = live → costs_money plan = true → rq_confirm_live_cost payload = true;
  sa_permitted : plain_profile (requested_profile settings payload) →
    permits principal (if bool_decide (profile_of plan = "full"%string) then run_full_scan else run_testing_scan) = true;
  sa_approved : plain_profile (requested_profile settings payload) →
    mode = live → profile_of plan = "full"%string →
    ∃ row, opportunities (front_db f) !! target_opportunity service m f = Some row
      ∧ parse_state (opp_status row) = Some full_scan_approved
}.

(** Neither the scans nor the log changed, and the scan would be of the same opportunity. *)
Definition same_requests service m f h : Prop :=
  front_scans h = front_scans f ∧ audit_entries h = audit_entries f
  ∧ target_opportunity service m h = target_opportunity service m f.

Lemma admit_scan_ok settings services payload principal market prefilter telemetry now f outcome g :
  admit_scan plan_json dump_service dump_market settings services payload principal market prefilter telemetry now f
    = (Ok outcome, g) →
  (∃ plan, outcome = inl (DryRun plan) ∧ g = f)
  ∨ ∃ mode service m plan h, scan_admitted settings payload principal f mode service m plan ∧ same_requests service m f h
    ∧ ((outcome = inr (mode, requested_profile settings payload, service, m) ∧ g = h)
       ∨ ∃ scan, outcome = inl (Queued scan plan)
           ∧ queued_from settings service m (mode_value mode) plan (scan_options prefilter telemetry) h scan g).
Proof.
  unfold admit_scan, mode_of, require_runtime, with_catalog. set (profile := requested_profile _ _).
  intros Hrun%session_ok.
  destruct Hrun as [(g1 & Hrun & ->)|(g1 & Hrun & ->)]; pass Hrun configured; pass Hrun u1;
    apply bind_ok in Hrun as (mode & h & Hmode & Hrun);
    (assert (h = f) as -> by (destruct (rq_data_mode payload) as [value|]; [destruct (str_truthy value)|];
      [by apply get_or_raise_ok in Hmode as [_ ->]|by injection Hmode|by injection Hmode]));
    pass Hrun u2; cbv zeta in Hrun; pass Hrun u3; pass Hrun cat; pass Hrun res; pass Hrun mk;
    apply bind_ok in Hrun as (u4 & h & Hreview & Hrun); apply bind_ok in Hrun as (p & h2 & Hplan & Hrun);
    destruct (rq_dry_run payload); try done.
  2: { left. exists p. by injection Hrun as <- _. }
  2: { exfalso. pass Hrun u5. pass Hrun u6. destruct (rq_async_run payload); [|done].
       by apply bind_ok in Hrun as (? & ? & _ & ?). }
  right. pass Hrun u5. pass Hrun u6. bools. exists mode, (res_service res), mk, p, h2.
  pose proof (plan_has_profile _ _ _ _ _ _ _ _ Hplan) as Hprofile. apply plan_keeps_db in Hplan as (Hdb & Ha & Hs & Hm).
  assert (target_opportunity (res_service res) mk h2 = target_opportunity (res_service res) mk h) as Ht.
  { apply target_same; [done..|]. by rewrite Hdb. }
  assert (same_requests (res_service res) mk f h ∧
    (mode = live → profile = "full"%string → ∃ row, opportunities (front_db f) !! target_opportunity (res_service res) mk f = Some row
         ∧ parse_state (opp_status row) = Some full_scan_approved)) as [Hsame Happ].
  { apply when_ok in Hreview as [[Hc Hreview]|[Hc ->]].
    - apply review_approval_ok in Hreview as (Hrow & ? & ? & ?). by split_and!.
    - split; [done|]. intros -> Hp. rewrite !bool_decide_eq_true_2 in Hc by done. done. }
  split_and!.
  - split; [done|done| | |].
    + intros -> Hc. match goal with Hg : _ && negb (rq_confirm_live_cost payload) = false |- _ =>
        rewrite Hc, bool_decide_eq_true_2 in Hg by done; by destruct (rq_confirm_live_cost payload) end.
    + intros Hp. by rewrite (Hprofile Hp).
    + intros Hp Hlive Hfull. apply Happ; [done|]. by rewrite <- (Hprofile Hp).
  - destruct Hsame as (Hs1 & Ha1 & Ht1). unfold same_requests, front_scans in *. rewrite Hdb. split_and!; congruence.
  - destruct (rq_async_run payload); [right|left; by injection Hrun as <- <-].
    apply bind_ok in Hrun as (k & h3 & Hqueue & [= <- <-]). exists k. split; [done|]. by eapply queue_scan_ok.
Qed.

(** What is recorded of a scan that was started *)
Definition start_entries (payload : ScanRequest) (scan : Z) : list (string * option Z) :=
  ("scan.create"%string, Some scan)
  :: (if rq_confirm_live_cost payload then [("scan.cost_confirmed"%string, Some scan)] else []).

Lemma start_audit_ok (payload : ScanRequest) (scan : Z) (answer answer' : ScanAnswer) f f' :
  session (_audit_request "scan.create" (Some scan) ≫= λ _,
    when (rq_confirm_live_cost payload) (_audit_request "scan.cost_confirmed" (Some scan)) ≫= λ _,
    mret (true, answer)) f = (Ok answer', f') →
  answer' = answer ∧ front_db f' = front_db f ∧ audit_entries f' = audit_entries f ++ start_entries payload scan.
Proof.
  intros [(h & Hl & ->)|(h & Hl & ->)]%session_ok; apply bind_ok in Hl as (u & h1 & [= _ <-] & Hl);
    apply bind_ok in Hl as (u' & h2 & Hwhen & Hl); [|done]. injection Hl as -> <-. unfold start_entries.
  by apply when_ok in Hwhen as [[-> [= _ <-]]|[-> ->]]; cbn; rewrite <- ?app_assoc.
Qed.

(** C9: A live scan is started only with a confirmed cost, and a live full one only for an
    approved opportunity, whether it is queued or run at once.  When a request starts a
    scan, the mode is switched on, the plan is within the budget and a live plan that costs
    anything was confirmed; and when the profile that was asked for, or the configured depth
    if none was, is written as testing or full, the caller may run a scan of the plan's
    profile, and the opportunity of a live plan of the full profile was there and approved
    for it.  (A depth written another way is planned as a full scan without this check:
    [capitalized_depth_skips_the_review].)  A queued scan is the one scan that was added, for
    the opportunity of the service and the market; a run of the pipeline starts from the
    scans there were; and the creation, and the confirmation if there was one, are recorded. *)
Theorem started_scan_is_confirmed settings services payload principal market prefilter telemetry run now f answer f' :
  api_scan plan_json dump_service dump_market settings services payload principal market prefilter telemetry
    run now f = (Ok answer, f') →
  (∃ plan, answer = DryRun plan ∧ f' = f)
  ∨ ∃ mode service m plan, scan_admitted settings payload principal f mode service m plan
    ∧ match answer with
      | Queued scan plan' => plan' = plan ∧ front_scans f !! scan = None
          ∧ front_scans f' = <[scan := queued_scan plan_json dump_service dump_market settings
              (target_opportunity service m f) service m (mode_value mode) plan (scan_options prefilter telemetry)]>
              (front_scans f)
          ∧ audit_entries f' = audit_entries f ++ start_entries payload scan
      | Ran scan => ∃ g g', same_requests service m f g
          ∧ run mode (requested_profile settings payload) service m g = (Ok scan, g')
          ∧ front_db f' = front_db g' ∧ audit_entries f' = audit_entries g' ++ start_entries payload scan
      | _ => False
      end.
Proof.
  unfold api_scan. intros (outcome & g & Hadmit & Hlast)%bind_ok. apply bind_ok in Hlast as (answer' & g2 & Hmid & Hlast).
  apply admit_scan_ok in Hadmit as [(plan & -> & ->)|(mode & service & m & plan & h & Hgates & Hsame & Hcase)].
  { injection Hmid as <- <-. left. exists plan. by injection Hlast as <- <-. }
  right. exists mode, service, m, plan. split; [done|].
  destruct Hcase as [[-> ->]|(scan & -> & Hqueue)].
  - apply bind_ok in Hmid as (scan & g3 & Hrun & [= <- <-]). apply start_audit_ok in Hlast as (-> & Hdb & Ha).
    by exists h, g3.
  - injection Hmid as <- <-. apply start_audit_ok in Hlast as (-> & Hdb & Ha).
    destruct Hqueue as [Hfresh Hscans Hlog _ _ _]. destruct Hsame as (Hs & Hal & Ht).
    rewrite Ht in Hscans. unfold front_scans in *. rewrite Hdb, Ha, Hscans, Hlog, Hs, Hal. rewrite Hs in Hfresh. done.
Qed.

(** *** Retrying *)

(** A retry of a scan that has stopped queues one new scan that continues its counter and
    names it as its source, with the plan made now; while such a retry is queued or running,
    the request answers with it and changes nothing. *)
Theorem retry_continues_the_count settings scan telemetry now f answer f' :
  api_retry_scan plan_json dump_service parse_service dump_market parse_market py_str settings scan telemetry now f
    = (Ok answer, f') →
  ∃ s, front_scans f !! scan = Some s ∧ active_status (sc_status s) = false
  ∧ match answer with
    | AlreadyActive r => f' = f ∧ ∃ row, front_scans f !! r = Some row ∧ sc_source_scan_run_id row = Some scan
        ∧ active_status (sc_status row) = true
    | Queued retry plan => sp_blocked plan = false ∧ active_retry_for_scan scan (front_db f) = None
        ∧ front_scans f !! retry = None
        ∧ ∃ service m, front_scans f' = <[retry := queued_scan plan_json dump_service dump_market settings
            (target_opportunity service m f) service m (stored_text py_str s "data_mode" (sc_data_mode s)) plan
            (retry_options scan s telemetry)]> (front_scans f)
        ∧ audit_entries f' = audit_entries f ++ [("scan.retry"%string, Some retry)]
    | _ => False
    end.
Proof.
  unfold api_retry_scan, get_scan_row, stored_models, mode_of. intros (answer' & g & Hfirst & Hlast)%bind_ok.
  apply session_ok in Hfirst as [(g1 & Hrun & ->)|(g1 & Hrun & ->)]; pass Hrun s; pass Hrun u; rewrite bind_gets in Hrun;
    exists s; (split; [done|]); (split; [done|]);
    destruct (active_retry_for_scan scan (front_db f)) as [[r row]|] eqn:Hretry; try done.
  - apply bind_ok in Hrun as (models & h & Hmodels & Hrun). pass Hmodels u1. pass Hmodels sv. pass Hmodels mk.
    injection Hmodels as <- <-. cbv zeta in Hrun. pass Hrun mode.
    apply bind_ok in Hrun as (p & h & Hplan & Hrun). pass Hrun u2. apply bind_ok in Hrun as (k & h2 & Hqueue & [= <- <-]).
    apply queue_scan_ok in Hqueue as [Hfresh Hscans Hlog _ _ _]. apply plan_keeps_db in Hplan as (Hdb & Ha & Hs & Hm).
    unfold front_scans in *. rewrite Hdb in Hfresh, Hscans.
    rewrite (target_same _ _ f) in Hscans by (first [done|by rewrite Hdb]).
    apply session_ok in Hlast as [(h3 & Hl & ->)|(h3 & Hl & ->)]; apply bind_ok in Hl as (u3 & h4 & [= _ <-] & Hl);
      [injection Hl as <- <-|done].
    split_and!; [done..|]. exists sv, mk. split; [exact Hscans|]. cbn. by rewrite Hlog, Ha.
  - injection Hrun as <- _. injection Hlast as <- <-. split; [done|]. exists row.
    unfold active_retry_for_scan in Hretry. apply select_last_Some in Hretry as [Hr Hp]. split; [done|].
    apply andb_true_iff in Hp as [Hp Hact]. split; [|done]. apply orb_true_iff in Hp as [Hp|Hp]; bools; [|done].
    subst r. unfold front_db in *. congruence.
  - exfalso. apply bind_ok in Hrun as (models & h & _ & Hrun). cbv zeta in Hrun. pass Hrun mode.
    apply bind_ok in Hrun as (? & ? & _ & (? & ? & _ & (? & ? & _ & [=])%bind_ok)%bind_ok).
Qed.
End requests.

(** ** Requests at a front with one opportunity *)
Module FrontRun.
Import CatalogRun.

(** A planner with one paid call, in the profile [build_scan_plan] reads *)
#[global] Instance one_plan : RequestPlanner unit := λ _ _ _ profile _ c,
  match _scan_profile profile with
  | Some p => (Ok (plan_of p 1 10 [DeskRun.call]), c)
  | None => (Raise (Failure (ValueError "scan_profile")), c)
  end.

#[global] Instance one_plan_laws : RequestPlannerLaws unit.
Proof.
  intros mode service market profile now c plan c'. unfold plan_request, one_plan.
  destruct (_scan_profile profile); [|done]. by intros [= <- _] _.
Qed.

Definition family : ServiceFamily :=
  match load "2026.1" [gutters] with
  | Ok c => match sct_services c with d :: _ => to_service_family d | [] => default_slug PlanRun.service end
  | Raise _ => PlanRun.service
  end.
Definition market : Planning.Market := PlanRun.market.
Definition json_of (_ : ScanPlan) : json := JNull.
Definition dump_family (_ : ServiceFamily) : json := JObj [].
Definition dump_place (_ : Planning.Market) : json := JObj [].
Definition text_of (v : json) : string := match v with JStr s => s | _ => "" end.
Definition read_family (service : ServiceFamily) (_ : json) : option ServiceFamily := Some service.
Definition read_place (_ : json) : option Planning.Market := Some market.

Definition settings : RequestSettings Z := {|
  planning_settings := PlanRun.settings; data_mode_setting := "live"; dataforseo_login := Some "user"%string;
  dataforseo_password := Some "env:DATAFORSEO_PASSWORD"%string |}.

Definition options : QueueOptions := {|
  qo_source := "manual_async"; qo_source_scan_run_id := None; qo_retry_count := 0; qo_prefilter := JNull;
  qo_telemetry := JNull |}.

(** A testing scan of opportunity 7, still queued and completed *)
Definition queued : ScanRun :=
  queued_scan json_of dump_family dump_place settings 7 family market "live" (plan_of "testing" 1 10 [DeskRun.call]) options.
Definition completed : ScanRun := queued <| sc_status := SCompleted |>.

Definition front_with (service : ServiceFamily) (scan : ScanRun) : Front Z unit := {|
  front_desk := {|
    desk_db := empty_db <| opportunities := {[7 := DeskRun.opportunity]} |> <| scan_runs := {[1 := scan]} |>;
    discovery_templates := ∅; batch_scan_plans := ∅; batch_scan_plan_items := ∅; scan_plans := ∅; scan_columns := ∅;
    catalog := () |};
  service_rows := {[1 := service_row service]};
  market_rows := {[1 := market_row market]};
  audit_entries := [] |}.

Definition services : option ServiceCatalog := Some (loaded [gutters; pools]).
Abbreviation promote service confirm :=
  (api_opportunity_promote json_of dump_family (read_family service) dump_place read_place text_of settings
    services 7 {| pq_dry_run := false; pq_confirm_live_cost := confirm |} DeskRun.actor JNull 50
    (front_with service completed)).

Definition promoted_plan : ScanPlan := plan_of "full" 1 10 [DeskRun.call].

Lemma promote_run : promote family true = (Ok (Queued 2 promoted_plan), (promote family true).2).
Proof. apply run_pair. vm_compute. reflexivity. Qed.

(** Without the confirmation nothing happens. *)
Example promote_unconfirmed : promote family false = (Raise (Http 409), front_with family completed).
Proof. vm_compute. reflexivity. Qed.

Lemma promotion_is_approved_and_confirmed_witness :
  promote family true = (Ok (Queued 2 promoted_plan), (promote family true).2)
  ∧ costs_money promoted_plan = true
  ∧ opp_status <$> opportunities (front_db (promote family true).2) !! 7 = Some (state_value full_scan_approved)
  ∧ audit_entries (promote family true).2 = [("scan.promote"%string, Some 2)].
Proof.
  destruct (promotion_is_approved_and_confirmed json_of dump_family (read_family family) dump_place read_place text_of
    settings services 7 {| pq_dry_run := false; pq_confirm_live_cost := true |} DeskRun.actor JNull
    50 (front_with family completed) 2 promoted_plan (promote family true).2 promote_run)
    as (? & ? & ? & ? & ? & ? & _ & _ & Hst & _ & _ & _ & Ha).
  split; [exact promote_run|]. split; [vm_compute; reflexivity|]. split; [exact Hst|exact Ha].
Defined.

(** The scan of a draft service is promoted to the service the catalog has for its name:
    the opportunity that was approved is not the one that is scanned. *)
Definition draft : ServiceFamily := family <| fam_id := "draft-gutter-cleaning" |> <| fam_slug := Some "draft-gutters"%string |>.

Lemma promotion_of_a_draft_scans_another_opportunity :
  opp_status <$> opportunities (front_db (promote draft true).2) !! 7 = Some "full_scan_approved"%string
  ∧ (sc_opportunity_id <$> scan_runs (front_db (promote draft true).2) !! 2) = Some (Some 8)
  ∧ opp_status <$> opportunities (front_db (promote draft true).2) !! 8 = Some "discovered"%string.
Proof. split_and!; vm_compute; reflexivity. Qed.

(** *** Starting *)

Definition operator : Principal := {|
  pr_user_id := "ola"; pr_role := role_operator; pr_email := None; pr_token_id := None; pr_auth_method := "local" |}.
Definition scan_request (profile : option string) (confirm : bool) : ScanRequest := {|
  rq_service_id := Some "gutter_cleaning"%string; rq_service_text := ""; rq_dry_run := false; rq_async_run := true;
  rq_confirm_live_cost := confirm; rq_data_mode := None; rq_scan_profile := profile |}.
Abbreviation start profile confirm :=
  (api_scan json_of dump_family dump_place settings services (scan_request profile confirm)
    operator (Some market) JNull JNull (λ _ _ _ _, raise (Http 500)) 50 (front_with family completed)).

(** The opportunity is approved for a full scan. *)
Definition approved_front : Front Z unit :=
  (front_with family completed) <| front_desk ::= λ d, d <| desk_db ::= λ db,
    db <| opportunities := {[7 := DeskRun.opportunity <| opp_status := "full_scan_approved" |>]} |> |> |>.
Definition start_full := api_scan json_of dump_family dump_place settings services (scan_request (Some "full"%string) true)
  operator (Some market) JNull JNull (λ _ _ _ _, raise (Http 500)) 50 approved_front.
Lemma start_run : start_full = (Ok (Queued 2 promoted_plan), start_full.2).
Proof. apply run_pair. vm_compute. reflexivity. Qed.

Lemma started_scan_is_confirmed_witness :
  start (Some "testing"%string) false = (Raise (Http 409), front_with family completed)
  ∧ audit_entries start_full.2 = [("scan.create"%string, Some 2); ("scan.cost_confirmed"%string, Some 2)]
  ∧ ∃ o row, opportunities (front_db approved_front) !! o = Some row
      ∧ parse_state (opp_status row) = Some full_scan_approved.
Proof.
  split; [vm_compute; reflexivity|].
  destruct (started_scan_is_confirmed json_of dump_family dump_place settings services
    (scan_request (Some "full"%string) true) operator (Some market) JNull JNull (λ _ _ _ _, raise (Http 500)) 50
    approved_front (Queued 2 promoted_plan) start_full.2 start_run)
    as [(plan & Hdry & _)|(mode & service & m & plan & Hgates & Hplan & _ & Hscans & Ha)]; [discriminate Hdry|].
  split; [exact Ha|]. subst plan.
  assert (mode = live) as Hlive.
  { assert ((sc_data_mode <$> front_scans start_full.2 !! 2) = Some "live"%string) as Hmode by (vm_compute; reflexivity).
    rewrite Hscans, lookup_insert_eq in Hmode. by destruct mode. }
  destruct (sa_approved _ _ _ _ _ _ _ _ Hgates (or_intror eq_refl) Hlive eq_refl) as (row & Hrow).
  eexists. exists row. exact Hrow.
Defined.

(** A full live scan of an opportunity no one approved is refused.  But the configured
    default depth is compared as it is written, and planned in lower case: with "Full" in
    the settings the same request passes as something else and queues a full scan. *)
Lemma capitalized_depth_skips_the_review :
  start (Some "full"%string) true = (Raise (Http 409), front_with family completed)
  ∧ (start None true).1 = Ok (Queued 2 (plan_of "full" 1 10 [DeskRun.call])).
Proof. split; vm_compute; reflexivity. Qed.

(** *** Retrying *)

Definition failed_full : ScanRun :=
  (queued_scan json_of dump_family dump_place settings 7 family market "live" (plan_of "full" 1 10 [DeskRun.call]) options)
    <| sc_status := SFailed |>.
Definition retried_front := api_retry_scan json_of dump_family (read_family family) dump_place read_place text_of settings 1 JNull 50
  (front_with family failed_full).

(** A retry of a full live scan asks for no confirmation of the cost and looks at no review
    state: the opportunity here is in preliminary review. *)
Lemma retry_needs_no_confirmation :
  retried_front.1 = Ok (Queued 2 promoted_plan) ∧ costs_money promoted_plan = true
  ∧ (sc_retry_count <$> scan_runs (front_db retried_front.2) !! 2) = Some 1
  ∧ (sc_source_scan_run_id <$> scan_runs (front_db retried_front.2) !! 2) = Some (Some 1)
  ∧ opp_status <$> opportunities (front_db retried_front.2) !! 7 = Some "preliminary_review"%string.
Proof. split_and!; vm_compute; reflexivity. Qed.

(** *** Cancelling *)

Definition cancelled := api_cancel_scan (USD := Z) (C := unit) 1 50 (front_with family queued).
Definition idle := claim_next_scan (USD := Z) "w" (F64.of_Z 30) (λ _, "t"%string) 60 (front_db cancelled.2).

Lemma cancelled_run : cancelled = (Ok {| can_cancelled := true; can_scan := 1 |}, cancelled.2).
Proof. apply run_pair. vm_compute. reflexivity. Qed.
Lemma idle_run : idle = (Ok None, idle.2).
Proof. apply run_pair. vm_compute. reflexivity. Qed.

Lemma cancelled_scan_is_never_claimed_witness :
  can_cancelled <$> (match cancelled.1 with Ok a => Some a | Raise _ => None end) = Some true
  ∧ ∃ s', scan_runs idle.2 !! 1 = Some s' ∧ sc_cancel_requested s' = true ∧ terminal_status (sc_status s') = true.
Proof.
  split; [vm_compute; reflexivity|].
  destruct (cancelled_scan_is_never_claimed (base_settings PlanRun.settings) 1 50 (front_with family queued) queued
    {| can_cancelled := true; can_scan := 1 |} cancelled.2 ([] ++ []) idle.2)
    as (_ & _ & _ & s' & Hs' & Hc & Hq).
  - vm_compute. reflexivity.
  - vm_compute. reflexivity.
  - exact cancelled_run.
  - exact (wr_step _ _ _ _ _ _ (wr_refl _ _) (ws_idle _ _ "w" (F64.of_Z 30) (λ _, "t"%string) 60 _ idle_run)).
  - exists s'. split; [exact Hs'|]. split; [exact Hc|]. apply Hq. reflexivity.
Defined.

(** Cancelling the queued scan of an opportunity that was rejected meanwhile fails: the
    review forbids the transition, and the scan stays queued. *)
Definition rejected_front : Front Z unit :=
  (front_with family queued) <| front_desk ::= λ d, d <| desk_db ::= λ db,
    db <| opportunities := {[7 := DeskRun.opportunity <| opp_status := "rejected" |>]} |> |> |>.

Lemma cancelling_a_rejected_scan_fails :
  api_cancel_scan (C := unit) 1 50 rejected_front
  = (Raise (Internal (Failure (OpportunityReviewError "invalid_system_opportunity_transition"))), rejected_front).
Proof. vm_compute. reflexivity. Qed.
End FrontRun.
