(* ===== verification/Similarity.v ===== *)
(** * Similarity: the ratio of two texts (difflib.SequenceMatcher)

    services/keywords.py merges keywords whose [SequenceMatcher(None, a, b).ratio()] is
    high.  The ratio is twice the number of matched characters over the number of all; the
    matched characters are those of the longest common block, the one that starts first in
    [a] and then in [b], and of the blocks found in the same way to its left and to its
    right.  In a text [b] of at least 200 characters, a character that fills more than a
    hundredth of it (plus one) starts no block, it only extends one. *)
From S2P Require Import Prelude.
#[global] Open Scope Z_scope.

Abbreviation chars := (list Ascii.ascii).

(** [b2j] without the popular characters: may a block grow through [x]? *)
Definition popular (b : chars) (x : Ascii.ascii) : bool :=
  (200 <=? length b)%nat && (length b / 100 + 1 <? length (List.filter (Ascii.eqb x) b))%nat.

(** One round of the loop over [a]: [prev] is [j2len], the lengths of the blocks that end
    with the previous character of [a]; [left] is its entry for the previous index. *)
Fixpoint next_lengths (is_popular : Ascii.ascii → bool) (x : Ascii.ascii) (left : nat) (prev : list nat) (b : chars)
    : list nat :=
  match b, prev with
  | y :: b', k :: prev' =>
      (if Ascii.eqb x y && negb (is_popular y) then S left else 0%nat) :: next_lengths is_popular x k prev' b'
  | _, _ => []
  end.

(** The best block so far: its end in [a] and in [b], and its size *)
Definition block : Type := (nat * nat * nat)%type.

Fixpoint better (i j : nat) (lengths : list nat) (best : block) : block :=
  match lengths with
  | [] => best
  | k :: lengths' => better i (S j) lengths' (if (best.2 <? k)%nat then (S i, S j, k) else best)
  end.

Fixpoint longest_from (is_popular : Ascii.ascii → bool) (i : nat) (prev : list nat) (a b : chars) (best : block) : block :=
  match a with
  | [] => best
  | x :: a' =>
      let lengths := next_lengths is_popular x 0 prev b in
      longest_from is_popular (S i) lengths a' b (better i 0 lengths best)
  end.

Fixpoint common_prefix (a b : chars) : nat :=
  match a, b with
  | x :: a', y :: b' => if Ascii.eqb x y then S (common_prefix a' b') else 0%nat
  | _, _ => 0%nat
  end.

(** [find_longest_match]: where the block starts in [a] and in [b], and its size *)
Definition find_longest_match (is_popular : Ascii.ascii → bool) (a b : chars) : block :=
  let '(i, j, k) := longest_from is_popular 0 (map (λ _, 0%nat) b) a b (0, 0, 0)%nat in
  let '(i, j) := (i - k, j - k)%nat in
  let before := common_prefix (rev (take i a)) (rev (take j b)) in
  let after := common_prefix (drop (i + k) a) (drop (j + k) b) in
  (i - before, j - before, before + k + after)%nat.

(** The sizes of [get_matching_blocks], summed; each block shortens what is left of [a]. *)
Fixpoint matched (fuel : nat) (is_popular : Ascii.ascii → bool) (a b : chars) : nat :=
  match fuel with
  | O => 0%nat
  | S fuel =>
      let '(i, j, k) := find_longest_match is_popular a b in
      if (k =? 0)%nat then 0%nat
      else (matched fuel is_popular (take i a) (take j b) + k
            + matched fuel is_popular (drop (i + k) a) (drop (j + k) b))%nat
  end.

Definition matches (a b : string) : nat :=
  let a := String.list_ascii_of_string a in
  let b := String.list_ascii_of_string b in
  matched (length a) (popular b) a b.

(** ** Longest blocks *)

(** [a] and [b] share the block of size [k] that starts at [i] and [j]. *)
Definition shared (a b : chars) (i j k : nat) : Prop :=
  (i + k ≤ length a)%nat ∧ (j + k ≤ length b)%nat ∧ take k (drop i a) = take k (drop j b).

Lemma common_prefix_spec a b :
  take (common_prefix a b) a = take (common_prefix a b) b
  ∧ (common_prefix a b ≤ length a)%nat ∧ (common_prefix a b ≤ length b)%nat.
Proof.
  revert b. induction a as [|x a IH]; intros [|y b]; simpl; try (split_and!; [done|lia|lia]).
  destruct (Ascii.eqb_spec x y) as [->|]; simpl; [|split_and!; [done|lia|lia]].
  destruct (IH b) as (-> & ? & ?). split_and!; [done|lia|lia].
Qed.

(** How far the common block that ends before [i] and [j] reaches back *)
Fixpoint common_suffix (is_popular : Ascii.ascii → bool) (ra rb : chars) : nat :=
  match ra, rb with
  | x :: ra', y :: rb' => if Ascii.eqb x y && negb (is_popular y) then S (common_suffix is_popular ra' rb') else 0%nat
  | _, _ => 0%nat
  end.

Section blocks.
Context (is_popular : Ascii.ascii → bool).
Implicit Types (a b pa pb : chars).

(** The entries of [j2len] after the prefix [pa] of [a]: one for each prefix of [b] *)
Fixpoint lengths_of (ra : chars) (rb : chars) (b : chars) : list nat :=
  match b with
  | [] => []
  | y :: b' => common_suffix is_popular ra (y :: rb) :: lengths_of ra (y :: rb) b'
  end.

Lemma next_lengths_spec x ra rb b :
  next_lengths is_popular x (common_suffix is_popular ra rb) (lengths_of ra rb b) b = lengths_of (x :: ra) rb b.
Proof. revert rb. induction b as [|y b IH]; intros rb; simpl; [done|]. by rewrite IH. Qed.

Lemma lengths_of_nil rb b : lengths_of [] rb b = map (λ _, 0%nat) b.
Proof. revert rb. induction b as [|y b IH]; intros rb; simpl; [done|]. by rewrite IH. Qed.

Lemma common_suffix_spec ra rb :
  let k := common_suffix is_popular ra rb in take k ra = take k rb ∧ (k ≤ length ra)%nat ∧ (k ≤ length rb)%nat.
Proof.
  revert rb. induction ra as [|x ra IH]; intros [|y rb]; simpl; try (split_and!; [done|lia|lia]).
  destruct (Ascii.eqb_spec x y) as [->|]; simpl; [|split_and!; [done|lia|lia]].
  destruct (is_popular y); simpl; [split_and!; [done|lia|lia]|]. destruct (IH rb) as (-> & ? & ?). split_and!; [done|lia|lia].
Qed.

Lemma common_suffix_longest ra rb k :
  (∀ x, is_popular x = false) → (k ≤ length ra)%nat → (k ≤ length rb)%nat → take k ra = take k rb →
  (k ≤ common_suffix is_popular ra rb)%nat.
Proof.
  intros Hpop. revert ra rb. induction k as [|k IH]; intros [|x ra] [|y rb] ??; simpl in *; try lia.
  intros [= -> Hk]. rewrite Ascii.eqb_refl, Hpop. simpl. apply le_n_S, IH; [lia..|done].
Qed.

Section ends.
Context (a b : chars).

(** The longest block that ends after [i] characters of [a] and [j] of [b] *)
Definition ending (i j : nat) : nat := common_suffix is_popular (rev (take i a)) (rev (take j b)).

Lemma shared_suffix i j k :
  (i ≤ length a)%nat → (j ≤ length b)%nat → (k ≤ i)%nat → (k ≤ j)%nat →
  take k (rev (take i a)) = take k (rev (take j b)) ↔ shared a b (i - k) (j - k) k.
Proof.
  intros Hi Hj Hk Hk'. rewrite !firstn_rev, !length_take, !Nat.min_l, !skipn_firstn_comm by lia.
  replace (i - (i - k))%nat with k by lia. replace (j - (j - k))%nat with k by lia.
  unfold shared. split; [|by intros (_ & _ & ->)].
  intros Heq%(f_equal (rev (A := _))). rewrite !rev_involutive in Heq. split_and!; [lia|lia|done].
Qed.

Lemma ending_bound i j : (ending i j ≤ i)%nat ∧ (ending i j ≤ j)%nat.
Proof.
  destruct (common_suffix_spec (rev (take i a)) (rev (take j b))) as (_ & H1 & H2).
  rewrite !length_rev, !length_take in H1, H2. unfold ending. lia.
Qed.

Lemma ending_shared i j :
  (i ≤ length a)%nat → (j ≤ length b)%nat → shared a b (i - ending i j) (j - ending i j) (ending i j).
Proof.
  intros Hi Hj. destruct (ending_bound i j). apply shared_suffix; [done..|].
  apply (common_suffix_spec (rev (take i a)) (rev (take j b))).
Qed.

Lemma shared_ending i j k :
  (∀ x, is_popular x = false) → shared a b i j k → (k ≤ ending (i + k) (j + k))%nat.
Proof.
  intros Hpop Hs. pose proof Hs as (? & ? & _). apply common_suffix_longest; [done|..].
  - rewrite length_rev, length_take. lia.
  - rewrite length_rev, length_take. lia.
  - apply shared_suffix; [lia..|]. by replace (i + k - k)%nat with i by lia; replace (j + k - k)%nat with j by lia.
Qed.

(** What a search that has looked at [i] characters of [a] has found *)
Definition best_until (i : nat) (best : block) : Prop :=
  (best.1.1 ≤ length a)%nat ∧ (best.1.2 ≤ length b)%nat ∧ best.2 = ending best.1.1 best.1.2
  ∧ ∀ i' j', (i' ≤ i)%nat → (j' ≤ length b)%nat → (ending i' j' ≤ best.2)%nat.

Lemma better_spec i lengths j best :
  (S i ≤ length a)%nat → (j + length lengths = length b)%nat →
  (∀ t k, lengths !! t = Some k → k = ending (S i) (S (j + t))) →
  (best.1.1 ≤ length a)%nat → (best.1.2 ≤ length b)%nat → best.2 = ending best.1.1 best.1.2 →
  let best' := better i j lengths best in
  (best'.1.1 ≤ length a)%nat ∧ (best'.1.2 ≤ length b)%nat ∧ best'.2 = ending best'.1.1 best'.1.2
  ∧ (best.2 ≤ best'.2)%nat ∧ ∀ j', (j < j')%nat → (j' ≤ length b)%nat → (ending (S i) j' ≤ best'.2)%nat.
Proof.
  intros Hi. revert j best. induction lengths as [|k lengths IH]; intros j best Hlen Hk Ha Hb He; simpl.
  - split_and!; try done. intros j' ??. simpl in Hlen. lia.
  - pose proof (Hk 0%nat k eq_refl) as ->. rewrite Nat.add_0_r.
    set (k := ending (S i) (S j)). set (next := if (best.2 <? k)%nat then (S i, S j, k) else best).
    simpl in Hlen. destruct (IH (S j) next) as (H1 & H2 & H3 & H4 & H5).
    + lia.
    + intros t k' Ht. rewrite (Hk (S t) k' Ht). f_equal. lia.
    + subst next. destruct (Nat.ltb_spec best.2 k); simpl; lia.
    + subst next. destruct (Nat.ltb_spec best.2 k); simpl; lia.
    + subst next. destruct (Nat.ltb_spec best.2 k); [done|]. done.
    + assert ((best.2 ≤ next.2)%nat ∧ (k ≤ next.2)%nat) as [Hn1 Hn2].
      { subst next. destruct (Nat.ltb_spec best.2 k); simpl; lia. }
      split_and!; [exact H1|exact H2|exact H3|exact (Nat.le_trans _ _ _ Hn1 H4)|].
      intros j' Hj' Hb'. destruct (decide (j' = S j)) as [->|]; [exact (Nat.le_trans _ _ _ Hn2 H4)|].
      apply H5; lia.
Qed.

Lemma lengths_of_lookup i j t k :
  lengths_of (rev (take i a)) (rev (take j b)) (drop j b) !! t = Some k → k = ending i (S (j + t)).
Proof.
  revert j. induction t as [|t IH]; intros j; destruct (drop j b) as [|y b'] eqn:Hd; simpl; try done;
    assert (y :: rev (take j b) = rev (take (S j) b)) as Hy
      by (rewrite (take_S_r b j y), rev_unit; [done|]; by rewrite <- (Nat.add_0_r j), <- lookup_drop, Hd);
    rewrite Hy.
  - intros [= <-]. by rewrite Nat.add_0_r.
  - replace b' with (drop (S j) b) by (by rewrite <- Nat.add_1_r, <- drop_drop, Hd).
    intros ->%IH. f_equal. lia.
Qed.

Lemma length_lengths_of ra rb c : length (lengths_of ra rb c) = length c.
Proof. revert rb. induction c as [|y c IH]; intros rb; simpl; [done|]. by rewrite IH. Qed.

Lemma longest_from_spec c i best :
  drop i a = c → (i ≤ length a)%nat → best_until i best →
  best_until (length a) (longest_from is_popular i (lengths_of (rev (take i a)) [] b) c b best).
Proof.
  revert i best. induction c as [|x c IH]; intros i best Hd Hi Hbest; simpl.
  - assert (length a - i = 0)%nat as Hl by (by rewrite <- length_drop, Hd). by replace (length a) with i by lia.
  - assert (a !! i = Some x) as Hx by (by rewrite <- (Nat.add_0_r i), <- lookup_drop, Hd).
    pose proof (lookup_lt_Some _ _ _ Hx) as Hlt.
    pose proof (next_lengths_spec x (rev (take i a)) [] b) as Hn.
    replace (common_suffix is_popular (rev (take i a)) []) with 0%nat in Hn by (by destruct (rev (take i a))).
    rewrite Hn. replace (x :: rev (take i a)) with (rev (take (S i) a)) by (by rewrite (take_S_r a i x), rev_unit).
    destruct Hbest as (H1 & H2 & H3 & H4).
    destruct (better_spec i (lengths_of (rev (take (S i) a)) [] b) 0 best) as (G1 & G2 & G3 & G4 & G5); try done.
    + by rewrite length_lengths_of.
    + intros t k Ht. exact (lengths_of_lookup (S i) 0 t k Ht).
    + apply IH; [|lia|].
      * by rewrite <- Nat.add_1_r, <- drop_drop, Hd.
      * split_and!; [done..|]. intros i' j' Hi' Hj'. destruct (decide (i' = S i)) as [->|].
        -- destruct (decide (j' = 0%nat)) as [->|]; [|apply G5; lia].
           pose proof (ending_bound (S i) 0). lia.
        -- specialize (H4 i' j'). lia.
Qed.
End ends.

Lemma shared_app a b i j k n : shared a b i j k → shared a b (i + k) (j + k) n → shared a b i j (k + n).
Proof.
  intros (? & ? & H1) (? & ? & H2). split_and!; [lia|lia|].
  by rewrite <- !take_take_drop, H1, !drop_drop, H2.
Qed.

(** The block that is found is shared, and without popular characters no shared block is
    longer. *)
Lemma find_longest_match_spec a b :
  let '(i, j, k) := find_longest_match is_popular a b in
  shared a b i j k
  ∧ ((∀ x, is_popular x = false) → ∀ i' j' k', shared a b i' j' k' → (k' ≤ k)%nat).
Proof.
  unfold find_longest_match.
  assert (best_until a b 0 (0, 0, 0)%nat) as H0.
  { split_and!; simpl; [lia|lia|done|]. intros i' j' Hi' _. pose proof (ending_bound a b i' j'). lia. }
  pose proof (longest_from_spec a b a 0 (0, 0, 0)%nat eq_refl ltac:(lia) H0) as Hbest.
  cbn [take rev] in Hbest. rewrite lengths_of_nil in Hbest.
  destruct (longest_from _ 0 _ a b _) as [[i j] k]. destruct Hbest as (Hi & Hj & Hk & Hmax). cbn [fst snd] in Hi, Hj, Hk, Hmax.
  pose proof (ending_shared a b i j Hi Hj) as Hs. rewrite <- Hk in Hs. pose proof (ending_bound a b i j) as [Hki Hkj].
  rewrite <- Hk in Hki, Hkj.
  set (before := common_prefix _ _). set (after := common_prefix (drop _ _) _).
  destruct (common_prefix_spec (rev (take (i - k) a)) (rev (take (j - k) b))) as (B1 & B2 & B3). fold before in B1, B2, B3.
  rewrite length_rev, length_take in B2, B3.
  destruct (common_prefix_spec (drop (i - k + k) a) (drop (j - k + k) b)) as (A1 & A2 & A3). fold after in A1, A2, A3.
  rewrite length_drop in A2, A3. split.
  - apply shared_suffix in B1; [|lia..].
    replace (before + k + after)%nat with (before + (k + after))%nat by lia. apply shared_app; [done|].
    replace (i - k - before + before)%nat with (i - k)%nat by lia. replace (j - k - before + before)%nat with (j - k)%nat by lia.
    apply shared_app; [done|]. split_and!; [lia|lia|done].
  - intros Hpop i' j' k' Hs'. pose proof (shared_ending a b i' j' k' Hpop Hs') as Hle. destruct Hs' as (? & ? & _).
    specialize (Hmax (i' + k') (j' + k'))%nat. lia.
Qed.

(** ** The number of matched characters *)

Lemma matched_spec fuel a b :
  (length a ≤ fuel)%nat →
  matched fuel is_popular a b = matched (length a) is_popular a b
  ∧ (matched fuel is_popular a b ≤ length a)%nat ∧ (matched fuel is_popular a b ≤ length b)%nat.
Proof.
  assert (∀ n f g a b, (length a ≤ n)%nat → (length a ≤ f)%nat → (length a ≤ g)%nat →
    matched f is_popular a b = matched g is_popular a b
    ∧ (matched f is_popular a b ≤ length a)%nat ∧ (matched f is_popular a b ≤ length b)%nat) as Hall.
  { intros n. induction n as [|n IH]; intros f g c d Hn Hf Hg.
    - destruct c; [|simpl in Hn; lia]. destruct f, g; split_and!; simpl; lia.
    - destruct c as [|x c]; [destruct f, g; split_and!; simpl; lia|].
      destruct f as [|f], g as [|g]; [simpl in *; lia..|]. simpl.
      pose proof (find_longest_match_spec (x :: c) d) as Hm. destruct (find_longest_match _ (x :: c) d) as [[i j] k].
      destruct Hm as [(Hi & Hj & _) _]. destruct (Nat.eqb_spec k 0); [split_and!; lia|].
      cbn [length] in Hn, Hf, Hg, Hi.
      destruct (IH f g (take i (x :: c)) (take j d)) as (E1 & L1 & L1'); [rewrite length_take; cbn [length]; lia..|].
      destruct (IH f g (drop (i + k) (x :: c)) (drop (j + k) d)) as (E2 & L2 & L2'); [rewrite length_drop; cbn [length]; lia..|].
      rewrite length_take in L1, L1'. rewrite length_drop in L2, L2'. cbn [length] in L1, L2.
      split_and!; [congruence|lia|lia]. }
  intros Hf. by apply (Hall (length a)).
Qed.
End blocks.

(** The length of [a] is fuel enough, and no more characters match than there are. *)
Lemma matches_bound a b :
  (matches a b ≤ String.length a)%nat ∧ (matches a b ≤ String.length b)%nat.
Proof.
  assert (∀ s, length (String.list_ascii_of_string s) = String.length s) as Hlen
    by (induction s; simpl; congruence).
  unfold matches. destruct (matched_spec (popular (String.list_ascii_of_string b)) _
    (String.list_ascii_of_string a) (String.list_ascii_of_string b) (le_n _)) as (_ & H1 & H2).
  by rewrite !Hlen in *.
Qed.
