(* ===== verification/Keywords.v ===== *)
(** * Keywords: which keywords a scan keeps, groups and looks up (services/keywords.py)

    [plan_keyword_candidates] filters the provider's suggestions.
    [rank_and_cluster_keyword_metrics] groups the metrics of close variants, so that the
    demand of a group is counted once, ranks the groups' representatives, and selects the
    queries whose result pages the scan pays for; every keyword gets a decision that is
    stored with the scan.

    Python's sets of tokens are [gset]s, its dictionary of groups a list in insertion order.
    The printing of floats in a decision's reason is a parameter.  Prices are finite. *)
From S2P Require Import Prelude Text Services Binary64 Numbers Demand Planning Similarity.
From stdpp Require Import pretty.
#[global] Open Scope Z_scope.

Definition TRANSACTIONAL_INTENTS : list string := ["transactional"; "commercial"]%string.
Definition LOCAL_MODIFIER_TOKENS : gset string := list_to_set ["near"; "me"; "nearby"; "local"; "in"]%string.

Record KeywordCandidate : Type := {
  kc_keyword : string;
  kc_source : string;
  kc_included : bool;
  kc_excluded_reason : option string
}.
#[export] Instance eta_KeywordCandidate : Eta KeywordCandidate := λ r,
  Build_KeywordCandidate (kc_keyword r) (kc_source r) (kc_included r) (kc_excluded_reason r).

Record KeywordCluster : Type := {
  kl_representative_keyword : string;
  kl_keywords : list string;
  kl_dedupe_method : string;
  kl_combined_volume : option Z
}.

Section records.
Context (A : Type).

Record KeywordDecision : Type := {
  kd_keyword : string;
  kd_canonical_keyword : string;
  kd_decision : string;
  kd_reason : option string;
  kd_rank : option Z;
  kd_representative : bool;
  kd_cluster_id : option string;
  kd_intent : option string;
  kd_search_volume : option Z;
  kd_cpc : option A;
  kd_granularity : option string;
  kd_ranking_score : option A
}.

Record KeywordCandidatePlan : Type := {
  cp_candidates : list KeywordCandidate;
  cp_included_keywords : list string;
  cp_decisions : list KeywordDecision
}.

Record KeywordMetricPlan : Type := {
  mp_metrics : list (KeywordMetric A);
  mp_scoring_metrics : list (KeywordMetric A);
  mp_selected_serp_keywords : list string;
  mp_clusters : list KeywordCluster;
  mp_decisions : list KeywordDecision
}.
End records.
Arguments kd_keyword {A}. Arguments kd_canonical_keyword {A}. Arguments kd_decision {A}. Arguments kd_reason {A}.
Arguments kd_rank {A}. Arguments kd_representative {A}. Arguments kd_cluster_id {A}. Arguments kd_intent {A}.
Arguments kd_search_volume {A}. Arguments kd_cpc {A}. Arguments kd_granularity {A}. Arguments kd_ranking_score {A}.
Arguments cp_candidates {A}. Arguments cp_included_keywords {A}. Arguments cp_decisions {A}.
Arguments mp_metrics {A}. Arguments mp_scoring_metrics {A}. Arguments mp_selected_serp_keywords {A}.
Arguments mp_clusters {A}. Arguments mp_decisions {A}.

(** ** Words of a keyword *)

Definition dash_to_space (a : Ascii.ascii) : Ascii.ascii := if Ascii.eqb a dash then space else a.

(** [slugify(value).replace("-", " ")] *)
Definition spaced_slug (value : string) : string := map_string dash_to_space (slugify value).

Definition _normalize_keyword (value : string) : string := squash (spaced_slug value).

Definition token_set (value : string) : gset string := list_to_set (py_split value).

Definition service_keyword_terms (service : ServiceFamily) : list string * list string :=
  (match fam_intent_modifiers service with [] => DEFAULT_AD_HOC_INTENT_MODIFIERS | l => l end,
   fam_negative_terms service
     ++ match fam_negative_product_terms service with [] => DEFAULT_NEGATIVE_PRODUCT_TERMS | l => l end).

(** The first term that occurs in the keyword as whole words *)
Fixpoint _matching_negative (canonical : string) (negative_terms : list string) : option string :=
  match negative_terms with
  | [] => None
  | term :: negative_terms' =>
      if py_contains (" " +:+ term +:+ " ") (" " +:+ canonical +:+ " ") then Some term
      else _matching_negative canonical negative_terms'
  end.

Definition _market_tokens (market : Planning.Market) : gset string :=
  list_to_set (flat_map (λ value, py_split (_normalize_keyword value))
    (mt_display_name market :: default "" (mt_state market) :: mt_country_code market :: mt_cities market)).

(** [token.endswith(suffix)], and the token without its last [n] characters *)
Definition ends_with (suffix token : string) : bool :=
  let n := (String.length token - String.length suffix)%nat in
  (String.length suffix <=? String.length token)%nat
  && String.eqb (String.substring n (String.length suffix) token) suffix.
Definition drop_last (n : nat) (token : string) : string := String.substring 0 (String.length token - n) token.

Definition _singularize (token : string) : string :=
  if (4 <? String.length token)%nat && ends_with "ies" token then drop_last 3 token +:+ "y"
  else if (3 <? String.length token)%nat && ends_with "s" token then drop_last 1 token
  else token.

Definition _cluster_tokens (keyword : string) (market : Planning.Market) : list string :=
  map _singularize
    (List.filter (λ token, negb (bool_decide (token ∈ LOCAL_MODIFIER_TOKENS) || bool_decide (token ∈ _market_tokens market)))
       (py_split (_normalize_keyword keyword))).

Definition _cluster_key (keyword : string) (market : Planning.Market) : string := join_words (_cluster_tokens keyword market).

Definition _cluster_id (keyword : string) : string := "kw:" +:+ slugify keyword.

(** ** Candidates *)

Section keywords.
Context {A : Type} `{Num A}.
Open Scope num_scope.

Definition candidate_decision (keyword canonical decision reason : string) : KeywordDecision A := {|
  kd_keyword := keyword; kd_canonical_keyword := canonical; kd_decision := decision; kd_reason := Some reason;
  kd_rank := None; kd_representative := false; kd_cluster_id := None; kd_intent := None; kd_search_volume := None;
  kd_cpc := None; kd_granularity := None; kd_ranking_score := None |}.

Definition excluded (candidate : KeywordCandidate) (canonical decision reason : string)
    : KeywordCandidate * KeywordDecision A :=
  (candidate <| kc_included := false |> <| kc_excluded_reason := Some reason |>,
   candidate_decision (kc_keyword candidate) canonical decision reason).

(** The loop over the candidates; [seen] holds the canonical keywords that were included. *)
Fixpoint plan_candidates (negatives seen : list string) (candidates : list KeywordCandidate)
    : list (KeywordCandidate * KeywordDecision A) :=
  match candidates with
  | [] => []
  | candidate :: candidates' =>
      let canonical := _normalize_keyword (kc_keyword candidate) in
      if negb (str_truthy canonical) then
        excluded candidate canonical "excluded_negative" "empty_keyword" :: plan_candidates negatives seen candidates'
      else match str_or (_matching_negative canonical negatives) None with
      | Some negative =>
          excluded candidate canonical "excluded_negative" ("negative_term:" +:+ negative)
          :: plan_candidates negatives seen candidates'
      | None =>
          if bool_decide (canonical ∈ seen) then
            excluded candidate canonical "excluded_duplicate" "duplicate_exact" :: plan_candidates negatives seen candidates'
          else
            (candidate <| kc_included := true |> <| kc_excluded_reason := None |>,
             candidate_decision (kc_keyword candidate) canonical "candidate" "included_candidate")
            :: plan_candidates negatives (canonical :: seen) candidates'
      end
  end.

Definition plan_keyword_candidates (candidates : list KeywordCandidate) (negative_terms : list string)
    : KeywordCandidatePlan A :=
  let negatives := map _normalize_keyword (List.filter (λ term, str_truthy (py_strip term)) negative_terms) in
  let output := plan_candidates negatives [] candidates in
  {| cp_candidates := output.*1;
     cp_included_keywords := map kc_keyword (List.filter kc_included output.*1);
     cp_decisions := output.*2 |}.

Definition dedupe_and_filter_keywords (candidates : list KeywordCandidate) (negative_terms : list string)
    : list KeywordCandidate :=
  cp_candidates (plan_keyword_candidates candidates negative_terms).

(** ** The value of a metric *)

(** [metric.canonical_keyword or metric.keyword] *)
Definition canonical_of (metric : KeywordMetric A) : string := or_str (km_canonical_keyword metric) (km_keyword metric).

Definition volume_or_zero (metric : KeywordMetric A) : Z := default 0%Z (km_search_volume metric).

Definition _local_modifier_quality (canonical : string) (market : Planning.Market) : A :=
  let tokens := token_set canonical in
  if bool_decide ("near"%string ∈ tokens) && bool_decide ("me"%string ∈ tokens) then num_ratio 8 10
  else if negb (bool_decide (tokens ∩ _market_tokens market = ∅)) then 1
  else num_ratio 45 100.

Definition _metric_value_score (metric : KeywordMetric A) (service : ServiceFamily) (market : Planning.Market) : A :=
  let canonical := _normalize_keyword (canonical_of metric) in
  let service_tokens := token_set (_normalize_keyword (fam_display_name service)) in
  let relevance := num_ratio (Z.of_nat (size (token_set canonical ∩ service_tokens)))
                             (Z.max 1 (Z.of_nat (size service_tokens))) in
  let intent := if bool_decide (km_intent metric ∈ TRANSACTIONAL_INTENTS) then 1 else num_ratio 25 100 in
  let cpc := py_min (or_zero (km_cpc metric) / num_Z 30) 1 in
  let volume := py_min (num_ratio (volume_or_zero metric) 1000) 1 in
  let local_quality := _local_modifier_quality canonical market in
  relevance * num_Z 40 + intent * num_Z 25 + cpc * num_Z 18 + volume * num_Z 12 + local_quality * num_Z 5.

(** ** Groups *)

(** [SequenceMatcher(None, a, b).ratio()] *)
Definition ratio (a b : string) : A :=
  let length := Z.of_nat (String.length a + String.length b) in
  if (length =? 0)%Z then 1 else num_ratio (2 * Z.of_nat (matches a b)) length.

Definition _token_overlap (left right : gset string) : A :=
  num_ratio (Z.of_nat (size (left ∩ right))) (Z.max 1 (Z.max (Z.of_nat (size left)) (Z.of_nat (size right)))).

Definition close_variant (key existing : string) : bool :=
  let key_tokens := token_set key in
  let existing_tokens := token_set existing in
  bool_decide (key_tokens = existing_tokens)
  || (negb (bool_decide (key_tokens = ∅)) && negb (bool_decide (existing_tokens = ∅))
      && (num_ratio 9 10 <=? _token_overlap key_tokens existing_tokens))
  || (num_ratio 92 100 <=? ratio key existing).

Abbreviation groups := (list (string * list (KeywordMetric A))).

(** The first key of the dictionary that is a close variant *)
Definition _matching_cluster_key (key : string) (grouped : groups) : option string :=
  head (List.filter (close_variant key) grouped.*1).

(** [grouped.setdefault(key, []).append(metric)] *)
Fixpoint add_to_group (key : string) (metric : KeywordMetric A) (grouped : groups) : groups :=
  match grouped with
  | [] => [(key, [metric])]
  | (k, l) :: grouped' =>
      if bool_decide (k = key) then (k, l ++ [metric]) :: grouped' else (k, l) :: add_to_group key metric grouped'
  end.

Definition group_metric (market : Planning.Market) (grouped : groups) (metric : KeywordMetric A) : groups :=
  let key := _cluster_key (canonical_of metric) market in
  add_to_group (or_str (default ""%string (_matching_cluster_key key grouped)) key) metric grouped.

Definition group_metrics (market : Planning.Market) (metrics : list (KeywordMetric A)) : groups :=
  foldl (group_metric market) [] metrics.

(** ** Ranking *)

Context (fixed_1 py_float : A → string).

Section ranking.
Context (service : ServiceFamily) (market : Planning.Market).

Definition value (metric : KeywordMetric A) : A := _metric_value_score metric service market.

(** [sorted(..., key=value, reverse=True)] *)
Definition by_value : list (KeywordMetric A) → list (KeywordMetric A) := sort_by (λ x y, value y <=? value x).

(** [f"{metric.cpc or 0}"] *)
Definition show_cpc (cpc : option A) : string :=
  match cpc with Some x => if num_truthy x then py_float x else "0" | None => "0" end.

Definition _decision_reason (metric : KeywordMetric A) : string :=
  "value_score:" +:+ fixed_1 (value metric) +:+ "; intent:" +:+ km_intent metric +:+ "; cpc:" +:+ show_cpc (km_cpc metric)
  +:+ "; volume:" +:+ pretty (volume_or_zero metric).

Definition metric_decision (metric : KeywordMetric A) (decision reason cluster : string) (rank : option Z)
    (representative : bool) : KeywordDecision A := {|
  kd_keyword := km_keyword metric; kd_canonical_keyword := _normalize_keyword (km_canonical_keyword metric);
  kd_decision := decision; kd_reason := Some reason; kd_rank := rank; kd_representative := representative;
  kd_cluster_id := Some (_cluster_id cluster); kd_intent := Some (km_intent metric);
  kd_search_volume := km_search_volume metric; kd_cpc := km_cpc metric;
  kd_granularity := Some (km_market_granularity metric); kd_ranking_score := Some (num_round 2 (value metric)) |}.

(** What one group contributes *)
Record GroupResult : Type := {
  gr_cluster : KeywordCluster;
  gr_scoring : KeywordMetric A;
  gr_grouped : list (KeywordMetric A);
  gr_decisions : list (KeywordDecision A)
}.

(** [max(..., default=0)] of the volumes *)
Definition cluster_volume (ranked_cluster : list (KeywordMetric A)) : Z :=
  match map volume_or_zero ranked_cluster with [] => 0%Z | v :: l => foldl Z.max v l end.

(** [None]: an empty group, which has no representative. *)
Definition group_result (cluster_metrics : list (KeywordMetric A)) : option GroupResult :=
  match by_value cluster_metrics with
  | [] => None
  | representative :: duplicates =>
      let volume := cluster_volume (representative :: duplicates) in
      let reason := "grouped_with:" +:+ km_keyword representative in
      Some {|
        gr_cluster := {|
          kl_representative_keyword := km_keyword representative;
          kl_keywords := map km_keyword (representative :: duplicates);
          kl_dedupe_method := match duplicates with [] => "exact" | _ => "close_variant" end;
          kl_combined_volume := Some volume |};
        gr_scoring := representative <| km_included := true |> <| km_search_volume := Some volume |>;
        gr_grouped := map (λ duplicate, duplicate <| km_included := false |> <| km_excluded_reason := Some reason |>) duplicates;
        gr_decisions :=
          map (λ duplicate, metric_decision duplicate "grouped_variant" reason (km_keyword representative) None false)
            duplicates |}
  end.

(** The decisions of the ranked representatives, from rank [rank] on *)
Fixpoint ranked_decisions (selected_keywords : list string) (rank : Z) (ranked_scoring : list (KeywordMetric A))
    : list (KeywordDecision A) :=
  match ranked_scoring with
  | [] => []
  | metric :: ranked_scoring' =>
      let is_representative := bool_decide (km_keyword metric ∈ selected_keywords) in
      metric_decision metric (if is_representative then "representative" else "included_scoring") (_decision_reason metric)
        (km_keyword metric) (Some rank) is_representative
      :: ranked_decisions selected_keywords (rank + 1)%Z ranked_scoring'
  end.

Definition by_representative (x y : KeywordCluster) : bool :=
  str_leb (kl_representative_keyword x) (kl_representative_keyword y).

Definition rank_and_cluster_keyword_metrics (metrics : list (KeywordMetric A)) (selected_limit : Z)
    (existing_decisions : list (KeywordDecision A)) : KeywordMetricPlan A :=
  let results := omap (λ g, group_result g.2) (group_metrics market metrics) in
  let ranked_scoring := by_value (map gr_scoring results) in
  let selected := take (Z.to_nat (Z.max 0 selected_limit)) ranked_scoring in
  let selected_keywords := map km_keyword selected in
  {| mp_metrics := map (λ metric, metric <| km_included := true |>) ranked_scoring ++ flat_map gr_grouped results;
     mp_scoring_metrics := ranked_scoring;
     mp_selected_serp_keywords := selected_keywords;
     mp_clusters := sort_by by_representative (map gr_cluster results);
     mp_decisions := existing_decisions ++ flat_map gr_decisions results
                     ++ ranked_decisions selected_keywords 1 ranked_scoring |}.
End ranking.
End keywords.
