(* ===== verification/KeywordsTheorems.v ===== *)
(** * KeywordsTheorems: every keyword is accounted for

    The filter keeps exactly the first of the keywords that mean the same and match no
    negative term.  The grouping is a partition: each metric is in one group, each group is
    counted once, with its best member and its largest volume, and each metric gets one
    decision. *)
From S2P Require Import Prelude Text Services Binary64 Numbers Demand Planning Similarity Keywords.
From Stdlib Require Import QArith Lqa.
#[global] Open Scope Z_scope.

(** ** Candidates *)

Section candidates.
Context {A : Type} `{Num A}.
Implicit Types (candidates : list KeywordCandidate).

Definition matches_negative (negatives : list string) (canonical : string) : Prop :=
  ∃ term, term ∈ negatives ∧ term ≠ ""%string ∧ py_contains (" " +:+ term +:+ " ") (" " +:+ canonical +:+ " ") = true.

(** The negative terms the filter compares with *)
Definition negatives_of (negative_terms : list string) : list string :=
  map _normalize_keyword (List.filter (λ term, str_truthy (py_strip term)) negative_terms).

Lemma normalized_negatives negative_terms term :
  term ∈ negatives_of negative_terms → ∃ raw, term = _normalize_keyword raw.
Proof. unfold negatives_of. intros (raw & -> & _)%list_elem_of_fmap. by exists raw. Qed.

(** A normalized keyword has single blanks between its words, so an empty term, whose
    padding is two blanks, occurs in none. *)
Fixpoint double_space (s : string) : bool :=
  match s with
  | String a ((String b _) as s') => Ascii.eqb a space && Ascii.eqb b space || double_space s'
  | _ => false
  end.

Lemma contains_double_space s : py_contains "  " s = double_space s.
Proof.
  unfold py_contains. induction s as [|a s IH]; [done|]. cbn [double_space].
  assert (String.index 0 "  " (String a s)
    = if String.prefix "  " (String a s) then Some 0%nat
      else match String.index 0 "  " s with Some n => Some (S n) | None => None end) as -> by done.
  assert (String.prefix "  " (String a s)
    = match s with String b _ => Ascii.eqb a space && Ascii.eqb b space | EmptyString => false end) as ->.
  { cbn [String.prefix]. destruct (Ascii.ascii_dec _ a) as [<-|Ha].
    - rewrite Ascii.eqb_refl. destruct s as [|b s]; [done|]. cbn [String.prefix].
      destruct (Ascii.ascii_dec _ b) as [<-|Hb]; [by rewrite Ascii.eqb_refl; destruct s|].
      symmetry. by apply andb_false_iff; right; apply Ascii.eqb_neq; intros ->.
    - destruct s as [|b s]; [done|]. symmetry. by apply andb_false_iff; left; apply Ascii.eqb_neq; intros ->. }
  destruct s as [|b s]; [done|]. destruct (_ && _); [done|]. rewrite orb_false_l, <- IH. by destruct (String.index _ _ _).
Qed.

Lemma double_space_word w s : all_chars (λ a, negb (is_space a)) w = true → double_space (w +:+ s) = double_space s.
Proof.
  induction w as [|a w IH]; intros Hw; [done|]. apply andb_true_iff in Hw as [Ha Hw].
  change (String a w +:+ s) with (String a (w +:+ s)). rewrite <- (IH Hw).
  destruct (w +:+ s) as [|b t] eqn:E; [done|]. cbn [double_space].
  destruct (Ascii.eqb_spec a space) as [->|]; [done|]. done.
Qed.

Lemma double_space_padded l s : Forall (λ w, plain_word w = true) l → l ≠ [] →
  double_space (String space (join_words l +:+ s)) = double_space s.
Proof.
  intros Hl. induction Hl as [|w l Hw Hl IH]; [done|]. intros _. apply andb_true_iff in Hw as [Ht Hw].
  assert (∀ t, double_space (String space (w +:+ t)) = double_space t) as Hone.
  { intros t. rewrite <- (double_space_word w t Hw). destruct w as [|a w]; [done|].
    change (String a w +:+ t) with (String a (w +:+ t)). apply andb_true_iff in Hw as [Ha _]. cbn [double_space].
    destruct (Ascii.eqb_spec a space) as [->|]; [done|]. by rewrite andb_false_r. }
  destruct l as [|w' l]; [apply Hone|].
  change (join_words (w :: w' :: l)) with (w +:+ String space (join_words (w' :: l))).
  rewrite append_assoc, Hone. by apply IH.
Qed.

Lemma empty_term_nowhere s : str_truthy (_normalize_keyword s) = true →
  py_contains (" " +:+ "" +:+ " ") (" " +:+ _normalize_keyword s +:+ " ") = false.
Proof.
  intros Ht. change (" " +:+ "" +:+ " ") with "  "%string. rewrite contains_double_space.
  unfold _normalize_keyword, squash in *.
  change (" " +:+ join_words (py_split (spaced_slug s)) +:+ " ")
    with (String space (join_words (py_split (spaced_slug s)) +:+ " ")).
  rewrite double_space_padded; [done|apply split_plain|]. intros Hn. by rewrite Hn in Ht.
Qed.

Lemma matching_negative_spec canonical negatives :
  match _matching_negative canonical negatives with
  | Some term => term ∈ negatives ∧ py_contains (" " +:+ term +:+ " ") (" " +:+ canonical +:+ " ") = true
  | None => ∀ term, term ∈ negatives → py_contains (" " +:+ term +:+ " ") (" " +:+ canonical +:+ " ") = false
  end.
Proof.
  induction negatives as [|t negatives IH]; cbn [_matching_negative]; [set_solver|].
  destruct (py_contains (" " +:+ t +:+ " ") _) eqn:Ht; [split; [set_solver|done]|].
  destruct (_matching_negative canonical negatives) as [u|]; [destruct IH; split; [set_solver|done]|].
  intros u [->|Hu]%elem_of_cons; [done|by apply IH].
Qed.

(** A keyword stays in when it has a word, no negative term occurs in it, and no keyword
    before it means the same. *)
Definition keeps (negatives seen : list string) (before : list KeywordCandidate) (c : KeywordCandidate) : Prop :=
  let canonical := _normalize_keyword (kc_keyword c) in
  str_truthy canonical = true
  ∧ (∀ term, term ∈ negatives → py_contains (" " +:+ term +:+ " ") (" " +:+ canonical +:+ " ") = false)
  ∧ canonical ∉ seen ∧ canonical ∉ map (λ c, _normalize_keyword (kc_keyword c)) before.

Lemma no_negative_spec raw negatives : str_truthy (_normalize_keyword raw) = true →
  str_or (_matching_negative (_normalize_keyword raw) negatives) None = None
  ↔ ∀ term, term ∈ negatives → py_contains (" " +:+ term +:+ " ") (" " +:+ _normalize_keyword raw +:+ " ") = false.
Proof.
  intros Ht. pose proof (matching_negative_spec (_normalize_keyword raw) negatives) as Hm.
  destruct (_matching_negative _ negatives) as [term|]; [|done]. destruct Hm as [Hin Hc]. split.
  - destruct (str_truthy term) eqn:E; unfold str_or, opt_truthy; rewrite E; [done|]. intros _. exfalso.
    destruct term; [|done]. by rewrite empty_term_nowhere in Hc.
  - intros Hall. by rewrite Hall in Hc.
Qed.

(** What the loop says of one candidate *)
Definition judged (c : KeywordCandidate) (P : Prop) (output : KeywordCandidate * KeywordDecision A) : Prop :=
  kc_keyword output.1 = kc_keyword c ∧ kc_source output.1 = kc_source c ∧ kd_keyword output.2 = kc_keyword c
  ∧ (kc_included output.1 = true ↔ P) ∧ (kd_decision output.2 = "candidate"%string ↔ P)
  ∧ (kc_excluded_reason output.1 = None ↔ P).

Lemma plan_candidates_spec negatives seen candidates i c :
  candidates !! i = Some c →
  ∃ output, plan_candidates (A := A) negatives seen candidates !! i = Some output
    ∧ judged c (keeps negatives seen (take i candidates) c) output.
Proof.
  revert seen i. induction candidates as [|c0 candidates IH]; intros seen i; [done|].
  cbn [plan_candidates]. cbv zeta. set (canonical := _normalize_keyword (kc_keyword c0)).
  assert (∀ decision reason, decision ≠ "candidate"%string → (¬ keeps negatives seen [] c0) →
    (∀ before, keeps negatives seen before c ↔ keeps negatives seen (c0 :: before) c) →
    (c0 :: candidates) !! i = Some c →
    ∃ output, (excluded c0 canonical decision reason :: plan_candidates (A := A) negatives seen candidates) !! i = Some output
      ∧ judged c (keeps negatives seen (take i (c0 :: candidates)) c) output) as Hout.
  { intros decision reason Hd Hno Hkeep Hi. destruct i as [|i]; simplify_eq/=.
    - eexists. split; [done|]. split_and!; simpl; try done; split; intros Hk; by try apply Hno in Hk.
    - destruct (IH seen i Hi) as (output & Ho & Hj). exists output. split; [done|]. unfold judged in *. by rewrite Hkeep in Hj. }
  destruct (str_truthy canonical) eqn:Ht; cbn [negb].
  2: { apply Hout; [done|..]; [intros (Hk & _); by change (str_truthy canonical = true) in Hk; rewrite Hk in Ht|]. intros before. unfold keeps. cbn [map].
       split; intros (K1 & K2 & K3 & K4); split_and!; try done; [|set_solver]. intros [Hc|]%elem_of_cons; [|done].
       unfold canonical in Ht. congruence. }
  pose proof (no_negative_spec (kc_keyword c0) negatives Ht) as Hneg. fold canonical in Hneg.
  destruct (str_or _ None) as [negative|].
  { apply Hout; [done|..]; [intros (_ & Hk & _); by apply Hneg in Hk|]. intros before. unfold keeps. cbn [map].
    split; intros (K1 & K2 & K3 & K4); split_and!; try done; [|set_solver]. intros [Hc|]%elem_of_cons; [|done].
    rewrite Hc in K2. by apply Hneg in K2. }
  pose proof (proj1 Hneg eq_refl) as Hall.
  case_bool_decide as Hseen.
  { apply Hout; [done|..]; [intros (_ & _ & Hk & _); by apply Hk|]. intros before. unfold keeps. cbn [map].
    split; intros (K1 & K2 & K3 & K4); split_and!; try done; [|set_solver]. intros [Hc|]%elem_of_cons; [|done].
    rewrite Hc in K3. by apply K3. }
  intros Hi. destruct i as [|i]; simplify_eq/=.
  - eexists. split; [done|]. assert (keeps negatives seen [] c) by (by split_and!; [..|apply not_elem_of_nil]).
    unfold judged. simpl. tauto.
  - destruct (IH (canonical :: seen) i Hi) as (output & Ho & Hj). exists output. split; [done|].
    assert (∀ before, keeps negatives (canonical :: seen) before c ↔ keeps negatives seen (c0 :: before) c) as Hk.
    { intros before. unfold keeps. cbn [map]. fold canonical. rewrite !not_elem_of_cons. tauto. }
    unfold judged in *. by rewrite Hk in Hj.
Qed.
End candidates.

(** ** Groups *)

Section groups.
Context {A : Type} `{Num A}.
Context (market : Planning.Market).
Implicit Types (grouped : list (string * list (KeywordMetric A))) (m : KeywordMetric A).

Definition key_of m : string := _cluster_key (canonical_of m) market.

(** The group a key goes to *)
Definition target grouped (key : string) : string := or_str (default ""%string (_matching_cluster_key key grouped)) key.

Lemma close_variant_refl key : close_variant key key = true.
Proof. unfold close_variant. by rewrite bool_decide_eq_true_2. Qed.

Lemma add_to_group_keys key m grouped :
  (add_to_group key m grouped).*1 = grouped.*1 ++ (if bool_decide (key ∈ grouped.*1) then [] else [key]).
Proof.
  induction grouped as [|[k l] grouped IH]; [done|]. cbn [add_to_group].
  destruct (bool_decide (k = key)) eqn:Hk; bools; rewrite ?fmap_cons; cbn [fst].
  - subst k. rewrite bool_decide_eq_true_2 by set_solver. by rewrite app_nil_r.
  - rewrite IH, <- app_comm_cons. do 2 f_equal. case_bool_decide; case_bool_decide; set_solver.
Qed.

Lemma add_to_group_perm key m grouped : concat (add_to_group key m grouped).*2 ≡ₚ m :: concat grouped.*2.
Proof.
  induction grouped as [|[k l] grouped IH]; simpl; [done|]. case_bool_decide; simpl.
  - rewrite <- app_assoc. simpl. by rewrite <- Permutation_middle.
  - rewrite IH. by rewrite <- Permutation_middle.
Qed.

Lemma add_to_group_elem key m grouped k l :
  (k, l) ∈ add_to_group key m grouped → l ≠ [] ∧ (∀ x, x ∈ l → (x = m ∧ k = key) ∨ ∃ l', (k, l') ∈ grouped ∧ x ∈ l')
  ∨ (k, l) ∈ grouped.
Proof.
  induction grouped as [|[k0 l0] grouped IH]; cbn [add_to_group].
  - intros [= -> ->]%list_elem_of_singleton. left. split; [done|]. intros x ->%list_elem_of_singleton. by left.
  - case_bool_decide as Hk.
    + intros [[= -> ->]|Hin]%elem_of_cons; [|right; set_solver]. left. split; [by destruct l0|].
      intros x [Hx| ->%list_elem_of_singleton]%elem_of_app; [|by left]. right. exists l0. set_solver.
    + intros [[= -> ->]|Hin]%elem_of_cons; [right; set_solver|].
      destruct (IH Hin) as [[Hne Hx]|]; [|right; set_solver]. left. split; [done|]. intros x Hxl.
      destruct (Hx x Hxl) as [|(l' & ? & ?)]; [by left|]. right. exists l'. set_solver.
Qed.

(** Every metric of a group would be sent to that group again. *)
Definition settled grouped : Prop :=
  NoDup grouped.*1 ∧ (∀ k l, (k, l) ∈ grouped → l ≠ [])
  ∧ ∀ k l m, (k, l) ∈ grouped → m ∈ l → target grouped (key_of m) = k.

Lemma target_stable grouped grouped' new key :
  grouped'.*1 = grouped.*1 ++ new → target grouped key ∈ grouped.*1 → target grouped' key = target grouped key.
Proof.
  unfold target, _matching_cluster_key. intros ->. rewrite List.filter_app.
  destruct (List.filter (close_variant key) grouped.*1) as [|k rest] eqn:Hf; [|done]. simpl. intros Hin. exfalso.
  apply list_elem_of_In in Hin. assert (In key []) as []. rewrite <- Hf. apply filter_In. by rewrite close_variant_refl.
Qed.

Lemma first_again (p : string → bool) keys key :
  let t := or_str (default ""%string (head (List.filter p keys))) key in
  or_str (default ""%string (head (List.filter p (keys ++ [t])))) key = t.
Proof.
  cbv zeta. rewrite List.filter_app. destruct (List.filter p keys) as [|k rest]; [|done].
  cbn [List.filter app]. destruct (p _); [|done].
  destruct key; reflexivity.
Qed.

Lemma group_metric_settled grouped m : settled grouped → settled (group_metric market grouped m).
Proof.
  intros (Hnd & Hne & Ht). unfold group_metric. fold (key_of m) (target grouped (key_of m)).
  set (key := target grouped (key_of m)). pose proof (add_to_group_keys key m grouped) as Hkeys.
  split_and!.
  - rewrite Hkeys. case_bool_decide; [by rewrite app_nil_r|]. apply NoDup_app.
    split_and!; [done| |apply NoDup_singleton]. by intros x Hx ->%list_elem_of_singleton.
  - intros k l Hin. by destruct (add_to_group_elem _ _ _ _ _ Hin) as [[? _]|?%Hne].
  - intros k l x Hin Hx.
    assert ((x = m ∧ k = key) ∨ ∃ l', (k, l') ∈ grouped ∧ x ∈ l') as [[-> ->]|(l' & Hl' & Hx')].
    { destruct (add_to_group_elem _ _ _ _ _ Hin) as [[_ Hl]|Hg]; [by apply Hl|right; by exists l]. }
    + subst key. destruct (decide (target grouped (key_of m) ∈ grouped.*1)) as [Hin'|Hnot]; [by eapply target_stable|].
      unfold target, _matching_cluster_key in *. rewrite Hkeys, bool_decide_eq_false_2 by exact Hnot.
      apply first_again.
    + rewrite (target_stable _ _ _ _ Hkeys); rewrite (Ht _ _ _ Hl' Hx'); [done|].
      exact (list_elem_of_fmap_2 fst _ _ Hl').
Qed.

Lemma group_metrics_settled metrics : settled (group_metrics market metrics).
Proof.
  unfold group_metrics. assert (∀ g, settled g → settled (foldl (group_metric market) g metrics)) as Hfold.
  { induction metrics as [|m metrics IH]; intros g Hg; [done|]. by apply IH, group_metric_settled. }
  apply Hfold. split_and!; [constructor|set_solver|set_solver].
Qed.

Lemma group_metrics_perm metrics : concat (group_metrics market metrics).*2 ≡ₚ metrics.
Proof.
  unfold group_metrics.
  assert (∀ g, concat (foldl (group_metric market) g metrics).*2 ≡ₚ concat g.*2 ++ metrics) as Hfold; [|apply (Hfold [])].
  induction metrics as [|m metrics IH]; intros g; simpl; [by rewrite app_nil_r|].
  rewrite IH. unfold group_metric. rewrite add_to_group_perm. simpl. apply Permutation_middle.
Qed.

(** Metrics with the same key are in the same group. *)
Lemma same_key_same_group metrics i j g g' x y :
  (group_metrics market metrics).*2 !! i = Some g → (group_metrics market metrics).*2 !! j = Some g' →
  x ∈ g → y ∈ g' → key_of x = key_of y → i = j.
Proof.
  destruct (group_metrics_settled metrics) as (Hnd & _ & Ht).
  rewrite !list_lookup_fmap, !fmap_Some. intros ([k l] & Hi & ->) ([k' l'] & Hj & ->) Hx Hy Hk.
  apply (NoDup_lookup _ _ _ k Hnd); rewrite list_lookup_fmap, fmap_Some.
  - by exists (k, l).
  - exists (k', l'). split; [done|]. rewrite <- (Ht k l x), <- (Ht k' l' y), Hk; try done; by eapply list_elem_of_lookup_2.
Qed.
End groups.

(** ** What becomes of the metrics *)

Lemma sorted_weaken {T} (R R' : T → T → Prop) l : (∀ x y, R x y → R' x y) → StronglySorted R l → StronglySorted R' l.
Proof. intros HR. induction 1 as [|x l _ IH Hall]; constructor; [done|]. eapply Forall_impl; [exact Hall|]. apply HR. Qed.

Section ranking.
Context {A : Type} `{Num A}.
Context (fixed_1 py_float : A → string) (service : ServiceFamily) (market : Planning.Market).
Implicit Types (m r : KeywordMetric A) (g : list (KeywordMetric A)).
Abbreviation value := (value service market).
Abbreviation group_result := (group_result service market).

(** A metric without what the grouping writes *)
Definition bare m : KeywordMetric A :=
  m <| km_included := true |> <| km_excluded_reason := None |> <| km_search_volume := None |>.

(** [m] stands for the group [g]: it is a member of it that no member surpasses, with the
    largest volume of a member. *)
Definition represents g m : Prop :=
  ∃ r volume, r ∈ g ∧ (∀ x, x ∈ g → (value x <=? value r)%num = true)
  ∧ m = r <| km_included := true |> <| km_search_volume := Some volume |>
  ∧ (∀ x, x ∈ g → volume_or_zero x ≤ volume) ∧ ∃ x, x ∈ g ∧ volume_or_zero x = volume.

Lemma cluster_volume_max g : g ≠ [] →
  (∀ x, x ∈ g → volume_or_zero x ≤ cluster_volume g) ∧ ∃ x, x ∈ g ∧ volume_or_zero x = cluster_volume g.
Proof.
  assert (∀ l v, v ≤ foldl Z.max v l ∧ (∀ x, x ∈ l → x ≤ foldl Z.max v l) ∧ (foldl Z.max v l = v ∨ foldl Z.max v l ∈ l))
    as Hmax.
  { induction l as [|y l IH]; intros v; simpl; [split_and!; [done|set_solver|by left]|].
    destruct (IH (Z.max v y)) as (H1 & H2 & H3). split_and!; [lia| |].
    - intros x [->|Hx]%elem_of_cons; [lia|by apply H2].
    - destruct H3 as [->|H3]; [|right; set_solver]. destruct (Z.max_spec v y) as [[_ ->]|[_ ->]]; [right; set_solver|by left]. }
  destruct g as [|m g]; [done|]. intros _. unfold cluster_volume. simpl.
  destruct (Hmax (map volume_or_zero g) (volume_or_zero m)) as (H1 & H2 & H3). split.
  - intros x [->|Hx]%elem_of_cons; [done|]. apply H2, list_elem_of_In, in_map, list_elem_of_In, Hx.
  - destruct H3 as [->|(x & -> & Hx)%list_elem_of_fmap]; [exists m|exists x]; set_solver.
Qed.

Definition cluster_for g m : KeywordCluster := {|
  kl_representative_keyword := km_keyword m;
  kl_keywords := map km_keyword (by_value service market g);
  kl_dedupe_method := match g with [_] => "exact" | _ => "close_variant" end;
  kl_combined_volume := km_search_volume m |}.

(** The order of the values, where it is one: without rounding *)
Class ValueOrder : Prop := {
  value_total : ∀ m m', (value m <=? value m')%num = true ∨ (value m' <=? value m)%num = true;
  value_trans : ∀ m m' m'', (value m <=? value m')%num = true → (value m' <=? value m'')%num = true →
    (value m <=? value m'')%num = true
}.
Context `{!ValueOrder}.

Lemma by_value_sorted g : StronglySorted (λ x y, (value y <=? value x)%num = true) (by_value service market g).
Proof.
  apply sort_by_sorted; [intros m m'; by destruct (value_total m m'); auto|]. intros m m' m'' H1 H2. by eapply value_trans.
Qed.

Lemma group_result_ok g : g ≠ [] →
  ∃ result, group_result g = Some result ∧ represents g (gr_scoring result)
  ∧ gr_cluster result = cluster_for g (gr_scoring result)
  ∧ bare (gr_scoring result) :: map bare (gr_grouped result) ≡ₚ map bare g
  ∧ km_keyword (gr_scoring result) :: map kd_keyword (gr_decisions result) ≡ₚ map km_keyword g
  ∧ (∀ d, d ∈ gr_decisions result → kd_decision d = "grouped_variant"%string
       ∧ kd_cluster_id d = Some (_cluster_id (km_keyword (gr_scoring result)))
       ∧ kd_rank d = None ∧ kd_representative d = false).
Proof.
  intros Hne. unfold Keywords.group_result. pose proof (sort_by_perm (λ x y, value y <=? value x)%num g) as Hperm.
  fold (by_value service market g) in Hperm. pose proof (by_value_sorted g) as Hsort.
  destruct (by_value service market g) as [|r l] eqn:Hg; [by apply Permutation_nil in Hperm|].
  eexists. split; [reflexivity|]. cbn [gr_scoring gr_cluster gr_grouped gr_decisions].
  destruct (cluster_volume_max (r :: l)) as [Hv1 Hv2]; [done|]. split_and!.
  - exists r, (cluster_volume (r :: l)). split_and!; [rewrite <- Hperm; set_solver| |done| |].
    + intros x Hx. rewrite <- Hperm in Hx. apply elem_of_cons in Hx as [->|Hx].
      * by destruct (value_total r r).
      * apply StronglySorted_inv in Hsort as [_ Hall]. by eapply (proj1 (Forall_forall _ _) Hall).
    + intros x Hx. apply Hv1. by rewrite Hperm.
    + destruct Hv2 as (x & Hx & <-). exists x. by rewrite <- Hperm.
  - unfold cluster_for. rewrite Hg. f_equal. destruct l as [|m l]; [by apply Permutation_singleton_l in Hperm as <-|].
    destruct g as [|m1 [|m2 g]]; try done.
  - rewrite <- Hperm. cbn [map]. rewrite map_map. done.
  - rewrite <- Hperm. cbn [map]. rewrite map_map. done.
  - intros d Hd. apply list_elem_of_fmap in Hd as (x & -> & _). done.
Qed.

Abbreviation plan metrics limit existing := (rank_and_cluster_keyword_metrics fixed_1 py_float service market metrics limit existing).

(** The results of the groups, in their order *)
Definition results_of (groups : list (list (KeywordMetric A))) : list (GroupResult (A := A)) := omap group_result groups.

Lemma results_ok groups : Forall (λ g, g ≠ []) groups →
  Forall2 (λ g result, group_result g = Some result) groups (results_of groups).
Proof.
  induction 1 as [|g groups Hg _ IH]; [constructor|]. destruct (group_result_ok g Hg) as (result & Hr & _).
  unfold results_of. cbn [omap list_omap]. rewrite Hr. by constructor.
Qed.

(** What each group contributes, put together *)
Lemma results_permute {T} (f : GroupResult → list T) (h : KeywordMetric A → T) groups :
  Forall (λ g, g ≠ []) groups →
  (∀ g result, group_result g = Some result → f result ≡ₚ map h g) →
  flat_map f (results_of groups) ≡ₚ map h (concat groups).
Proof.
  intros Hg Hf. pose proof (results_ok groups Hg) as Hr. rewrite concat_map.
  induction Hr as [|g result groups results Hgr Hr IH]; [done|]. simpl. inversion Hg. by rewrite (Hf _ _ Hgr), IH.
Qed.

Lemma flat_map_cons_perm {T U} (f : T → U) (h : T → list U) l :
  flat_map (λ x, f x :: h x) l ≡ₚ map f l ++ flat_map h l.
Proof.
  induction l as [|x l IH]; simpl; [done|]. rewrite IH. constructor. rewrite !app_assoc.
  by rewrite (Permutation_app_comm (h x)).
Qed.

Lemma ranked_decisions_keywords selected rank l :
  map kd_keyword (ranked_decisions fixed_1 py_float service market selected rank l) = map km_keyword l.
Proof. revert rank. induction l as [|m l IH]; intros rank; simpl; [done|]. by rewrite IH. Qed.

(** The decision of the representative at place [i], [selected] being the paid queries *)
Definition ranked_decision (selected : list string) (i : nat) (m : KeywordMetric A) (d : KeywordDecision A) : Prop :=
  kd_keyword d = km_keyword m ∧ kd_rank d = Some (1 + Z.of_nat i)
  ∧ kd_cluster_id d = Some (_cluster_id (km_keyword m)) ∧ kd_search_volume d = km_search_volume m
  ∧ (kd_representative d = true ↔ km_keyword m ∈ selected)
  ∧ kd_decision d = if bool_decide (km_keyword m ∈ selected) then "representative"%string else "included_scoring"%string.

Lemma ranked_decisions_lookup selected rank l i m : l !! i = Some m →
  ranked_decisions fixed_1 py_float service market selected rank l !! i
  = Some (metric_decision service market m
      (if bool_decide (km_keyword m ∈ selected) then "representative" else "included_scoring")
      (_decision_reason fixed_1 py_float service market m) (km_keyword m) (Some (rank + Z.of_nat i))
      (bool_decide (km_keyword m ∈ selected))).
Proof.
  revert rank i. induction l as [|m' l IH]; intros rank [|i]; simpl; try done.
  - intros [= ->]. do 3 f_equal. lia.
  - intros Hi. rewrite (IH (rank + 1) i Hi). do 3 f_equal. lia.
Qed.

(** The groups of a plan *)
Definition groups_of (metrics : list (KeywordMetric A)) : list (list (KeywordMetric A)) := (group_metrics market metrics).*2.

Lemma groups_nonempty metrics : Forall (λ g, g ≠ []) (groups_of metrics).
Proof.
  apply Forall_forall. intros g ([k l] & -> & Hin)%list_elem_of_fmap.
  by apply (group_metrics_settled market metrics) in Hin.
Qed.

Lemma plan_results metrics limit existing :
  let results := results_of (groups_of metrics) in
  mp_scoring_metrics (plan metrics limit existing) = by_value service market (map gr_scoring results)
  ∧ mp_clusters (plan metrics limit existing) ≡ₚ map gr_cluster results
  ∧ mp_metrics (plan metrics limit existing)
    = map (λ m, m <| km_included := true |>) (mp_scoring_metrics (plan metrics limit existing)) ++ flat_map gr_grouped results
  ∧ mp_decisions (plan metrics limit existing)
    = existing ++ flat_map gr_decisions results
      ++ ranked_decisions fixed_1 py_float service market (mp_selected_serp_keywords (plan metrics limit existing)) 1
           (mp_scoring_metrics (plan metrics limit existing)).
Proof.
  cbv zeta.
  assert (results_of (groups_of metrics) = omap (λ kl, group_result kl.2) (group_metrics market metrics)) as ->.
  { unfold results_of, groups_of. induction (group_metrics market metrics) as [|[k l] grouped IH]; [done|].
    cbn [fmap list_fmap map omap list_omap snd]. by rewrite <- IH. }
  split_and!; [done| |done|done]. apply sort_by_perm.
Qed.
Lemma plan_groups_count metrics limit existing :
  let groups := groups_of metrics in
  length (mp_scoring_metrics (plan metrics limit existing)) = length groups
  ∧ length (mp_clusters (plan metrics limit existing)) = length groups
  ∧ ∀ g, g ∈ groups → ∃ m, m ∈ mp_scoring_metrics (plan metrics limit existing) ∧ represents g m
      ∧ cluster_for g m ∈ mp_clusters (plan metrics limit existing).
Proof.
  cbv zeta. destruct (plan_results metrics limit existing) as (Hs & Hc & _). rewrite Hs, Hc.
  assert (by_value service market (map gr_scoring (results_of (groups_of metrics)))
    ≡ₚ map gr_scoring (results_of (groups_of metrics))) as Hsp by apply sort_by_perm.
  pose proof (results_ok _ (groups_nonempty metrics)) as Hr. rewrite Hsp, !length_map.
  split_and!; [symmetry; by eapply Forall2_length..|].
  intros g Hg. apply list_elem_of_lookup in Hg as [i Hi]. destruct (Forall2_lookup_l _ _ _ _ _ Hr Hi) as (result & Hres & Hgr).
  destruct (group_result_ok g) as (result' & Hgr' & Hrep & Hcl & _); [by intros ->|].
  assert (result' = result) as -> by congruence. exists (gr_scoring result). apply list_elem_of_lookup_2 in Hres.
  rewrite Hsp, Hc, <- Hcl. split_and!; [by apply list_elem_of_fmap_2|done|by apply list_elem_of_fmap_2].
Qed.

Lemma plan_metrics_kept metrics limit existing :
  map bare (mp_metrics (plan metrics limit existing)) ≡ₚ map bare metrics.
Proof.
  destruct (plan_results metrics limit existing) as (Hs & _ & Hm & _). rewrite Hm, Hs, map_app, map_map.
  set (results := results_of (groups_of metrics)).
  assert (by_value service market (map gr_scoring results) ≡ₚ map gr_scoring results) as -> by apply sort_by_perm.
  rewrite map_map. etransitivity; [|by apply Permutation_map, (group_metrics_perm market)].
  rewrite <- (results_permute (λ res, bare (gr_scoring res) :: map bare (gr_grouped res)) bare (groups_of metrics));
    [|apply groups_nonempty|].
  - rewrite (flat_map_cons_perm (λ res, bare (gr_scoring res)) (λ res, map bare (gr_grouped res))). fold results.
    by rewrite !flat_map_concat_map, concat_map, map_map.
  - intros g result Hgr. destruct (group_result_ok g) as (result' & Hgr' & _ & _ & Hb & _); [by intros ->|].
    by assert (result' = result) as <- by congruence.
Qed.

Lemma plan_decisions_kept metrics limit existing :
  let scoring := mp_scoring_metrics (plan metrics limit existing) in
  ∃ others ranked, mp_decisions (plan metrics limit existing) = existing ++ others ++ ranked
  ∧ map kd_keyword (others ++ ranked) ≡ₚ map km_keyword metrics
  ∧ Forall (λ d, kd_rank d = None ∧ kd_representative d = false ∧ kd_decision d = "grouped_variant"%string) others
  ∧ length ranked = length scoring
  ∧ ∀ i m, scoring !! i = Some m → ∃ d, ranked !! i = Some d
      ∧ ranked_decision (mp_selected_serp_keywords (plan metrics limit existing)) i m d.
Proof.
  destruct (plan_results metrics limit existing) as (Hs & _ & _ & Hd).
  eexists _, _. split; [exact Hd|]. split_and!.
  - rewrite map_app, ranked_decisions_keywords, Hs. set (results := results_of (groups_of metrics)).
    assert (by_value service market (map gr_scoring results) ≡ₚ map gr_scoring results) as -> by apply sort_by_perm.
    rewrite map_map, Permutation_app_comm. etransitivity; [|by apply Permutation_map, (group_metrics_perm market)].
    rewrite <- (results_permute (λ res, km_keyword (gr_scoring res) :: map kd_keyword (gr_decisions res)) km_keyword
      (groups_of metrics)); [|apply groups_nonempty|].
    + rewrite (flat_map_cons_perm (λ res, km_keyword (gr_scoring res)) (λ res, map kd_keyword (gr_decisions res))). fold results.
      by rewrite !flat_map_concat_map, concat_map, map_map.
    + intros g result Hgr. destruct (group_result_ok g) as (result' & Hgr' & _ & _ & _ & Hk & _); [by intros ->|].
      by assert (result' = result) as <- by congruence.
  - apply Forall_forall. intros d Hd'. apply list_elem_of_In, in_flat_map in Hd' as (result & Hin & Hd').
    apply list_elem_of_In, list_elem_of_omap in Hin as (g & Hg & Hgr).
    assert (g ≠ []) as Hne. { pose proof (groups_nonempty metrics) as Hf. rewrite Forall_forall in Hf. by apply Hf. }
    destruct (group_result_ok g Hne) as (result' & Hgr' & _ & _ & _ & _ & Hall).
    assert (result' = result) as -> by congruence. apply list_elem_of_In, Hall in Hd'. naive_solver.
  - by rewrite <- (length_map kd_keyword), ranked_decisions_keywords, length_map.
  - intros i m Hi. eexists. split; [by apply ranked_decisions_lookup|].
    unfold ranked_decision. cbn. split_and!; try done. apply bool_decide_eq_true.
Qed.
End ranking.

(** ** Theorems *)

#[export] Instance value_order_Q (service : ServiceFamily) (market : Planning.Market) : ValueOrder (A := Q) service market.
Proof.
  split; cbn [num_leb Num_Q].
  - intros m m'. rewrite !Qle_bool_iff. destruct (Qlt_le_dec (value service market m) (value service market m')); [left|right]; lra.
  - intros m m' m''. rewrite !Qle_bool_iff. lra.
Qed.

(** Every suggestion gets one verdict, and the filter keeps exactly what it should: a
    keyword stays in when it has a word, no negative term occurs in it as whole words, and
    no keyword before it has the same normal form.  The verdict is stored as a decision for
    that keyword, in the order of the suggestions. *)
Theorem candidates_are_filtered_exactly {A} `{Num A} (candidates : list KeywordCandidate) (negative_terms : list string) :
  let plan := plan_keyword_candidates (A := A) candidates negative_terms in
  length (cp_candidates plan) = length candidates ∧ length (cp_decisions plan) = length candidates
  ∧ cp_included_keywords plan = map kc_keyword (List.filter kc_included (cp_candidates plan))
  ∧ ∀ i c, candidates !! i = Some c →
    ∃ c' d, cp_candidates plan !! i = Some c' ∧ cp_decisions plan !! i = Some d
      ∧ kc_keyword c' = kc_keyword c ∧ kc_source c' = kc_source c ∧ kd_keyword d = kc_keyword c
      ∧ (kc_included c' = true ↔ keeps (negatives_of negative_terms) [] (take i candidates) c)
      ∧ (kd_decision d = "candidate"%string ↔ kc_included c' = true)
      ∧ (kc_excluded_reason c' = None ↔ kc_included c' = true).
Proof.
  cbv zeta. unfold plan_keyword_candidates. cbn [cp_candidates cp_decisions cp_included_keywords].
  fold (negatives_of negative_terms).
  assert (∀ negatives seen, length (plan_candidates (A := A) negatives seen candidates) = length candidates) as Hlen.
  { intros negatives. induction candidates as [|c l IH]; intros seen; [done|]. cbn [plan_candidates].
    repeat case_match; simpl; by rewrite IH. }
  split_and!; [by rewrite length_fmap|by rewrite length_fmap|done|].
  intros i c Hi. destruct (plan_candidates_spec (A := A) (negatives_of negative_terms) [] candidates i c Hi)
    as ([c' d] & Ho & H1 & H2 & H3 & H4 & H5 & H6).
  exists c', d. rewrite !list_lookup_fmap, Ho. cbn in *. split_and!; try done; tauto.
Qed.

(** C23: In exact arithmetic, grouping and ranking lose no keyword and count none twice.  The groups partition
    the metrics, and metrics with the same key are in one group; each group is represented
    in the score by a member no other surpasses, with the largest volume of the group, and
    stored as one cluster; the metrics that are handed on are the given ones up to what the
    grouping notes in them; each metric gets one new decision.  The representatives are
    ranked by their value, the first [limit] of them are the queries that are paid for; the
    decision at place [i] among the ranked ones is that of the representative at place [i],
    with its keyword, its rank, its volume and whether it was selected, and the other new
    decisions, of the keywords that were grouped, have no rank. *)
Theorem keywords_are_partitioned fixed_1 py_float service market (metrics : list (KeywordMetric Q)) limit existing :
  let plan := rank_and_cluster_keyword_metrics fixed_1 py_float service market metrics limit existing in
  let scoring := mp_scoring_metrics plan in
  ∃ groups others ranked,
    concat groups ≡ₚ metrics
    ∧ (∀ i j g g' x y, groups !! i = Some g → groups !! j = Some g' → x ∈ g → y ∈ g' →
         key_of market x = key_of market y → i = j)
    ∧ length scoring = length groups ∧ length (mp_clusters plan) = length groups
    ∧ (∀ g, g ∈ groups → ∃ m, m ∈ scoring ∧ represents service market g m
         ∧ cluster_for service market g m ∈ mp_clusters plan)
    ∧ map bare (mp_metrics plan) ≡ₚ map bare metrics
    ∧ mp_decisions plan = existing ++ others ++ ranked
    ∧ map kd_keyword (others ++ ranked) ≡ₚ map km_keyword metrics
    ∧ Forall (λ d, kd_rank d = None ∧ kd_representative d = false ∧ kd_decision d = "grouped_variant"%string) others
    ∧ StronglySorted (λ x y, value service market y <= value service market x)%Q scoring
    ∧ mp_selected_serp_keywords plan = map km_keyword (take (Z.to_nat limit) scoring)
    ∧ length ranked = length scoring
    ∧ ∀ i m, scoring !! i = Some m → ∃ d, ranked !! i = Some d
        ∧ ranked_decision (mp_selected_serp_keywords plan) i m d.
Proof.
  cbv zeta. set (plan := rank_and_cluster_keyword_metrics _ _ _ _ _ _ _).
  destruct (plan_groups_count fixed_1 py_float service market metrics limit existing) as (H1 & H2 & H3).
  destruct (plan_decisions_kept fixed_1 py_float service market metrics limit existing)
    as (others & ranked & H4 & H5 & H6 & H7 & H8).
  exists (groups_of market metrics), others, ranked. split_and!; try done.
  - apply group_metrics_perm.
  - exact (same_key_same_group market metrics).
  - exact (plan_metrics_kept fixed_1 py_float service market metrics limit existing).
  - apply (sorted_weaken (λ x y, (value service market y <=? value service market x)%num = true)).
    + intros x y. apply Qle_bool_iff.
    + exact (by_value_sorted service market _).
  - unfold plan, rank_and_cluster_keyword_metrics. cbn [mp_selected_serp_keywords mp_scoring_metrics]. do 2 f_equal. lia.
Qed.
