(* ===== verification/EvidenceQuality.v ===== *)
(** * EvidenceQuality: is the evidence of a scan about the service at all? (services/evidence_quality.py)

    Before a score is stored, the share of keywords, queries and providers that concern the
    configured service is compared with the limits of the configuration.  An assessment with
    an error makes the score unusable: it is capped and its confidence is insufficient; one
    with warnings lowers a high confidence.  The messages for the reader are left out. *)
From S2P Require Import Prelude Text Services Binary64 Numbers Demand Scoring Planning Keywords.
#[global] Open Scope Z_scope.

Section config.
Context (A : Type).

Record EvidenceQualityConfig : Type := {
  minimum_keyword_service_relevance_share : A;
  minimum_representative_query_relevance_share : A;
  minimum_provider_service_relevance_share : A;
  minimum_provider_geographic_relevance_share : A;
  minimum_full_competitor_count : Z;
  maximum_unknown_serp_share : A;
  unusable_score_cap : A;
  generic_service_tokens : list string
}.

(** [observed] and [required]: a number, a count or a word *)
Inductive IssueValue : Type := INumber (x : A) | ICount (n : Z) | IWord (s : string).

Inductive Severity : Type := warning | error.

Record EvidenceQualityIssue : Type := {
  qi_code : string;
  qi_stage : string;
  qi_severity : Severity;
  qi_observed : IssueValue;
  qi_required : IssueValue
}.

Inductive QualityStatus : Type := q_pass | q_warning | q_fail.

Record QualityMeasurements : Type := {
  keyword_service_relevance_share : A;
  representative_query_relevance_share : A;
  provider_service_relevance_share : A;
  provider_geographic_relevance_share : A;
  unknown_serp_share : A;
  competitor_count : Z;
  provider_count : Z;
  organic_result_count : Z;
  service_configured : bool
}.

Record EvidenceQualityAssessment : Type := {
  qa_status : QualityStatus;
  qa_service_relevance_tokens : gset string;
  qa_measurements : QualityMeasurements;
  qa_issues : list EvidenceQualityIssue
}.
End config.
Arguments minimum_keyword_service_relevance_share {A}. Arguments minimum_representative_query_relevance_share {A}.
Arguments minimum_provider_service_relevance_share {A}. Arguments minimum_provider_geographic_relevance_share {A}.
Arguments minimum_full_competitor_count {A}. Arguments maximum_unknown_serp_share {A}.
Arguments unusable_score_cap {A}. Arguments generic_service_tokens {A}.
Arguments INumber {A}. Arguments ICount {A}. Arguments IWord {A}.
Arguments qi_code {A}. Arguments qi_stage {A}. Arguments qi_severity {A}. Arguments qi_observed {A}. Arguments qi_required {A}.
Arguments keyword_service_relevance_share {A}. Arguments representative_query_relevance_share {A}.
Arguments provider_service_relevance_share {A}. Arguments provider_geographic_relevance_share {A}.
Arguments unknown_serp_share {A}. Arguments competitor_count {A}. Arguments provider_count {A}.
Arguments organic_result_count {A}. Arguments service_configured {A}.
Arguments qa_status {A}. Arguments qa_service_relevance_tokens {A}. Arguments qa_measurements {A}. Arguments qa_issues {A}.
#[export] Instance Severity_eq_dec : EqDecision Severity.
Proof. solve_decision. Defined.
#[export] Instance QualityStatus_eq_dec : EqDecision QualityStatus.
Proof. solve_decision. Defined.

Section quality.
Context {A : Type} `{Num A}.
Open Scope num_scope.

(** The bounds of the fields *)
Definition valid_quality_config (config : EvidenceQualityConfig A) : bool :=
  let share x := (0 <=? x) && (x <=? 1) in
  share (minimum_keyword_service_relevance_share config)
  && share (minimum_representative_query_relevance_share config)
  && share (minimum_provider_service_relevance_share config)
  && share (minimum_provider_geographic_relevance_share config)
  && (1 <=? minimum_full_competitor_count config)%Z
  && share (maximum_unknown_serp_share config)
  && (0 <=? unusable_score_cap config) && (unusable_score_cap config <=? num_Z 100).

(** [slugify(value).replace("-", " ").split()] *)
Definition slug_tokens (value : string) : list string := py_split (spaced_slug value).

Definition long_token (token : string) : bool := (3 <=? String.length token)%nat.

Definition _service_tokens (service : ServiceFamily) (generic_tokens : list string) : gset string :=
  let values := fam_display_name service :: fam_description service :: fam_seed_queries service
                ++ fam_provider_categories service in
  let tokens : gset string := list_to_set
    (List.filter (λ token, long_token token && negb (bool_decide (token ∈ generic_tokens))) (flat_map slug_tokens values)) in
  if bool_decide (tokens = ∅) then list_to_set (List.filter long_token (slug_tokens (fam_display_name service)))
  else tokens.

Definition is_relevant (tokens : gset string) (value : string) : bool :=
  negb (bool_decide ((list_to_set (slug_tokens value) : gset string) ∩ tokens = ∅)).

(** [sum(...) / len(...)]: how many of a non-empty list have the property *)
Definition share_of {T} (p : T → bool) (l : list T) : A :=
  num_ratio (Z.of_nat (length (List.filter p l))) (Z.of_nat (length l)).

Definition _text_relevance_share (values : list string) (tokens : gset string) : A :=
  if is_empty values || bool_decide (tokens = ∅) then 0 else share_of (is_relevant tokens) values.

(** The first entry of that name, as [dict.get] of a payload without repeated keys *)
Definition signal_of (signal : string) (provider : ProviderCandidate A) : option (Signal A) :=
  snd <$> head (List.filter (λ kv, bool_decide (kv.1 = signal)) (pc_suitability_signals provider)).

Definition signal_at_least (signal : string) (minimum : A) (provider : ProviderCandidate A) : bool :=
  match signal_of signal provider ≫= sg_normalized with Some x => minimum <=? x | None => false end.

Definition _provider_signal_share (providers : list (ProviderCandidate A)) (signal : string) (minimum : A) : A :=
  if is_empty providers then 0 else share_of (signal_at_least signal minimum) providers.

Definition _minimum_share_issue (code stage : string) (observed required : A) (severity : Severity)
    : list (EvidenceQualityIssue A) :=
  if required <=? observed then []
  else [{| qi_code := code; qi_stage := stage; qi_severity := severity;
           qi_observed := INumber (num_round 4 observed); qi_required := INumber required |}].

Definition organic_of (serp_snapshots : list SerpSnapshot) : list SerpResult :=
  List.filter (λ r, bool_decide (sr_result_type r = "organic"%string)) (flat_map ss_results serp_snapshots).

Definition unknown_share (organic_results : list SerpResult) : A :=
  if is_empty organic_results then 1
  else share_of (λ r, bool_decide (sr_classification r = "unknown"%string)) organic_results.

Definition status_of_issues (issues : list (EvidenceQualityIssue A)) : QualityStatus :=
  if existsb (λ issue, bool_decide (qi_severity issue = error)) issues then q_fail
  else if is_empty issues then q_pass else q_warning.

Definition serp_issue (config : EvidenceQualityConfig A) (unknown : A) : list (EvidenceQualityIssue A) :=
  if maximum_unknown_serp_share config <? unknown then
    [{| qi_code := "serp_classification_coverage"; qi_stage := "serp"; qi_severity := warning;
        qi_observed := INumber (num_round 4 unknown); qi_required := INumber (maximum_unknown_serp_share config) |}]
  else [].

Definition competitor_issue (config : EvidenceQualityConfig A) (assessment_type : string) (competitors : Z)
    : list (EvidenceQualityIssue A) :=
  if bool_decide (assessment_type = "full"%string) && (competitors <? minimum_full_competitor_count config)%Z then
    [{| qi_code := "competitor_sample_coverage"; qi_stage := "competitors"; qi_severity := error;
        qi_observed := ICount competitors; qi_required := ICount (minimum_full_competitor_count config) |}]
  else [].

Definition service_issue (assessment_type : string) (configured : bool) : list (EvidenceQualityIssue A) :=
  if bool_decide (assessment_type = "full"%string) && negb configured then
    [{| qi_code := "unconfigured_service"; qi_stage := "service_resolution"; qi_severity := error;
        qi_observed := IWord "draft"; qi_required := IWord "configured" |}]
  else [].

Definition assess (config : EvidenceQualityConfig A) (service : ServiceFamily) (metrics : list (KeywordMetric A))
    (serp_snapshots : list SerpSnapshot) (competitors : list (CompetitorMetric A))
    (providers : list (ProviderCandidate A)) (assessment_type : string) (configured : bool)
    : EvidenceQualityAssessment A :=
  let tokens := _service_tokens service (generic_service_tokens config) in
  let metric_share := _text_relevance_share (map km_keyword (List.filter km_included metrics)) tokens in
  let query_share := _text_relevance_share (map ss_query serp_snapshots) tokens in
  let provider_service_share := _provider_signal_share providers "service_fit" (num_ratio 35 100) in
  let provider_geography_share := _provider_signal_share providers "geographic_fit" (num_ratio 50 100) in
  let organic_results := organic_of serp_snapshots in
  let unknown := unknown_share organic_results in
  let competitors := Z.of_nat (length competitors) in
  let issues :=
    _minimum_share_issue "keyword_service_relevance" "keyword_metrics" metric_share
      (minimum_keyword_service_relevance_share config) error
    ++ _minimum_share_issue "representative_query_relevance" "serp" query_share
         (minimum_representative_query_relevance_share config) error
    ++ (if is_empty providers then [] else
          _minimum_share_issue "provider_service_relevance" "provider_discovery" provider_service_share
            (minimum_provider_service_relevance_share config) error
          ++ _minimum_share_issue "provider_geographic_relevance" "provider_discovery" provider_geography_share
               (minimum_provider_geographic_relevance_share config) warning)
    ++ serp_issue config unknown ++ competitor_issue config assessment_type competitors
    ++ service_issue assessment_type configured in
  {| qa_status := status_of_issues issues;
     qa_service_relevance_tokens := tokens;
     qa_measurements := {|
       keyword_service_relevance_share := num_round 4 metric_share;
       representative_query_relevance_share := num_round 4 query_share;
       provider_service_relevance_share := num_round 4 provider_service_share;
       provider_geographic_relevance_share := num_round 4 provider_geography_share;
       unknown_serp_share := num_round 4 unknown;
       competitor_count := competitors;
       provider_count := Z.of_nat (length providers);
       organic_result_count := Z.of_nat (length organic_results);
       service_configured := configured |};
     qa_issues := issues |}.

(** [score.score_cap or cap] *)
Definition cap_or (cap : A) (score_cap : option A) : A :=
  match score_cap with Some c => if num_truthy c then c else cap | None => cap end.

Definition with_quality (total : A) (cap : option A) (status : EvidenceStatus) (level : Confidence)
    (score : OpportunityScore (A := A)) : OpportunityScore (A := A) :=
  {| total_score := total; uncapped_total_score := uncapped_total_score score; evidence_status := status;
     score_cap := cap; component_details := component_details score;
     missing_data_penalties := missing_data_penalties score; confidence := level;
     confidence_model := confidence_model score; missing_fields := missing_fields score |}.

Definition apply_to_score (config : EvidenceQualityConfig A) (score : OpportunityScore (A := A))
    (assessment : EvidenceQualityAssessment A) : OpportunityScore (A := A) :=
  match qa_status assessment with
  | q_pass => score
  | q_warning =>
      with_quality (total_score score) (score_cap score) (evidence_status score)
        (if bool_decide (confidence score = high) then medium else confidence score) score
  | q_fail =>
      let cap := unusable_score_cap config in
      with_quality (num_round 2 (py_min (total_score score) cap)) (Some (py_min (cap_or cap (score_cap score)) cap))
        unusable insufficient score
  end.
End quality.
