(* ===== verification/EvidenceQualityTheorems.v ===== *)
(** * EvidenceQualityTheorems: what the evidence check decides and what it does to a score *)
From S2P Require Import Prelude Text Services Binary64 Numbers Demand Scoring ScoringProofs ScoringTheorems Planning.
From S2P Require Import Keywords EvidenceQuality.
From Stdlib Require Import QArith Lqa.
#[global] Open Scope Z_scope.

(** ** The verdict *)

Section verdict.
Context {A : Type} `{Num A}.
Context (config : EvidenceQualityConfig A) (service : ServiceFamily) (metrics : list (KeywordMetric A))
  (serp_snapshots : list SerpSnapshot) (competitors : list (CompetitorMetric A)) (providers : list (ProviderCandidate A))
  (assessment_type : string) (configured : bool).
Open Scope num_scope.

Definition relevance_tokens : gset string := _service_tokens service (generic_service_tokens config).

(** The conditions that make the evidence fail, and those that only warn *)
Definition off_topic : bool :=
  negb (minimum_keyword_service_relevance_share config
        <=? _text_relevance_share (map km_keyword (List.filter km_included metrics)) relevance_tokens)
  || negb (minimum_representative_query_relevance_share config
           <=? _text_relevance_share (map ss_query serp_snapshots) relevance_tokens)
  || negb (is_empty providers)
     && negb (minimum_provider_service_relevance_share config
              <=? _provider_signal_share providers "service_fit" (num_ratio 35 100)).

Definition too_thin : bool :=
  bool_decide (assessment_type = "full"%string)
  && ((Z.of_nat (length competitors) <? minimum_full_competitor_count config)%Z || negb configured).

Definition doubtful : bool :=
  negb (is_empty providers)
  && negb (minimum_provider_geographic_relevance_share config
           <=? _provider_signal_share providers "geographic_fit" (num_ratio 50 100))
  || (maximum_unknown_serp_share config <? unknown_share (organic_of serp_snapshots)).

(** The verdict on the evidence of a scan is exactly what the configuration asks for,
    for every input and whatever the arithmetic.  It fails when too few keywords, queries
    or providers concern the service, and for a full assessment also when there are too few
    competitors or the service is not configured; otherwise it warns when the providers'
    places or the classification of the results are doubtful, and passes when nothing is;
    it passes exactly when it lists no issue. *)
Theorem evidence_verdict_is_exact :
  let assessment := assess config service metrics serp_snapshots competitors providers assessment_type configured in
  qa_status assessment = (if off_topic || too_thin then q_fail else if doubtful then q_warning else q_pass)
  ∧ (qa_issues assessment = [] ↔ qa_status assessment = q_pass)
  ∧ qa_service_relevance_tokens assessment = relevance_tokens.
Proof.
  cbv zeta. cbn [qa_status qa_issues qa_service_relevance_tokens assess].
  fold relevance_tokens. unfold off_topic, too_thin, doubtful, _minimum_share_issue, serp_issue, competitor_issue, service_issue.
  destruct (minimum_keyword_service_relevance_share config <=? _), (minimum_representative_query_relevance_share config <=? _),
    (is_empty providers), (minimum_provider_service_relevance_share config <=? _),
    (minimum_provider_geographic_relevance_share config <=? _), (maximum_unknown_serp_share config <? _),
    (bool_decide (assessment_type = "full"%string)), (_ <? minimum_full_competitor_count config)%Z, configured; by split_and!.
Qed.
End verdict.

(** ** The effect on the score *)

Section effect.
Open Scope Q_scope.
Implicit Types (score : OpportunityScore (A := Q)) (config : EvidenceQualityConfig Q) (q : EvidenceQualityAssessment Q).

Lemma total_is_rounded c est metrics serps competitors providers market mode kind now score :
  Scoring.score c est metrics serps competitors providers market mode kind now = Ok score →
  hundredths (total_score score).
Proof.
  intros (_ & _ & _ & _ & Hu & Ht & _)%score_inv. rewrite Ht. destruct (score_cap score); [apply round2_hundredths|].
  rewrite Hu. apply round2_hundredths.
Qed.

(** C25: In exact arithmetic, the evidence check never raises a score or its confidence, and
    a score on failed evidence cannot be used: its total is at most the configured cap rounded
    to cents, its cap at most the configured cap, its status is unusable, so it is never
    complete, and its confidence is insufficient.  A warning makes a high confidence medium
    and changes nothing else, and a check that passes changes nothing; the
    components that explain the score stay. *)
Theorem failed_evidence_makes_a_score_unusable config q c est metrics serps competitors providers market mode kind now score :
  Scoring.score c est metrics serps competitors providers market mode kind now = Ok score →
  let score' := apply_to_score config score q in
  total_score score' <= total_score score
  ∧ (CONFIDENCE_RANK (confidence score') ≤ CONFIDENCE_RANK (confidence score))%Z
  ∧ component_details score' = component_details score
  ∧ match qa_status q with
    | q_pass => score' = score
    | q_warning => score' = with_quality (total_score score) (score_cap score) (evidence_status score)
        (match confidence score with high => medium | level => level end) score
    | q_fail => total_score score' <= round2 (unusable_score_cap config)
        ∧ evidence_status score' = unusable ∧ confidence score' = insufficient
        ∧ ∃ cap, score_cap score' = Some cap ∧ cap <= unusable_score_cap config
    end.
Proof.
  intros Hs%total_is_rounded. cbv zeta. unfold apply_to_score. destruct (qa_status q); cbn.
  - split_and!; [apply Qle_refl|lia|done|done].
  - assert ((if bool_decide (confidence score = high) then medium else confidence score)
      = match confidence score with high => medium | level => level end) as -> by by destruct (confidence score).
    split_and!; try done; [apply Qle_refl|]. destruct (confidence score); cbn; lia.
  - split_and!; try done.
    + apply round2_le; [done|]. apply py_min_lb.
    + by destruct (confidence score).
    + apply round2_mono, py_min_lb.
    + eexists. split; [done|]. apply py_min_lb.
Qed.
End effect.

(** ** A check of one scan *)
Module QualityRun.

Definition config : EvidenceQualityConfig Q := {|
  minimum_keyword_service_relevance_share := 6 # 10; minimum_representative_query_relevance_share := 6 # 10;
  minimum_provider_service_relevance_share := 3 # 10; minimum_provider_geographic_relevance_share := 3 # 10;
  minimum_full_competitor_count := 3; maximum_unknown_serp_share := 5 # 10; unusable_score_cap := 24 # 1;
  generic_service_tokens := ["repair"; "service"]%string |}.

Definition roofing : ServiceFamily :=
  default_slug {| fam_id := "roofing"; fam_slug := None; fam_display_name := "Roof Repair"; fam_description := "";
    fam_seed_queries := ["roof repair"; "roofer"]%string; fam_negative_terms := []; fam_intent_modifiers := [];
    fam_negative_product_terms := []; fam_provider_categories := ["Roofing contractor"]%string; fam_regulated := false;
    fam_enabled := true |}.

(** The sample scan of the scorer is about roofs, but its providers carry no rating. *)
Definition verdict : EvidenceQualityAssessment Q :=
  assess config roofing Sample.keywords Sample.serps Sample.competitors Sample.providers "full" true.

Example providers_without_signals_fail :
  qa_status verdict = q_fail ∧ map qi_code (qa_issues verdict)
    = ["provider_service_relevance"; "provider_geographic_relevance"]%string.
Proof. vm_compute. done. Qed.

Lemma failed_evidence_makes_a_score_unusable_witness :
  match Sample.run (A := Q) default_config with
  | Ok s => total_score (apply_to_score config s verdict) <= 24 # 1
            ∧ evidence_status (apply_to_score config s verdict) = unusable
  | Raise _ => False
  end%Q.
Proof.
  destruct (Sample.run default_config) as [s|e] eqn:E; [|by vm_compute in E]. unfold Sample.run in E.
  destruct (failed_evidence_makes_a_score_unusable config verdict _ _ _ _ _ _ _ _ _ _ s E) as (_ & _ & _ & Hv).
  rewrite (proj1 providers_without_signals_fail) in Hv. destruct Hv as (Ht & Hst & _). split; [|exact Hst].
  exact (Qle_trans _ _ _ Ht (round2_le (24 # 1) (24 # 1) (ex_intro _ 2400%Z eq_refl) (Qle_refl _))).
Defined.
End QualityRun.
