(* ===== verification/ProviderRating.v ===== *)
(** * ProviderRating: how suitable a provider is (services/providers.py)

    Five signals between zero and one, weighted: does the provider do this service, is it
    near, is it in business, can it be reached, is it well reviewed.  The score is what the
    scorer's provider component, the evidence check and the report read.

    The trigonometric functions are the C library's and parameters here, with the
    conversion of a market's coordinates; the distance of points on opposite sides of the
    earth, where rounding can leave the domain of [asin], is left out.  The reasons, which
    repeat the signals as text, are left out. *)
From S2P Require Import Prelude Text Services Binary64 Numbers Demand Scoring Planning Keywords EvidenceQuality.
#[global] Open Scope Z_scope.

Class Trig (A : Type) : Type := {
  num_radians : A → A;
  num_sin : A → A;
  num_cos : A → A;
  num_asin : A → A
}.

Record RatingConfig (A : Type) : Type := {
  status_config : ProviderConfig A;
  inactive_score_cap : A;
  signal_weights : list (string * A);
  full_credit_distance_km : A;
  max_distance_km : A;
  service_area_match_score : A;
  address_match_score : A;
  website_strength : A;
  phone_strength : A;
  email_strength : A;
  contact_form_strength : A;
  unknown_confidence : A;
  confidence_floor : A;
  rating_share : A;
  review_count_share : A;
  review_saturation_count : Z
}.
Arguments status_config {A}. Arguments inactive_score_cap {A}. Arguments signal_weights {A}.
Arguments full_credit_distance_km {A}. Arguments max_distance_km {A}. Arguments service_area_match_score {A}.
Arguments address_match_score {A}. Arguments website_strength {A}. Arguments phone_strength {A}.
Arguments email_strength {A}. Arguments contact_form_strength {A}. Arguments unknown_confidence {A}.
Arguments confidence_floor {A}. Arguments rating_share {A}. Arguments review_count_share {A}.
Arguments review_saturation_count {A}.

(** ** Text *)

Fixpoint unique_from (seen : list string) (values : list string) : list string :=
  match values with
  | [] => []
  | value :: values' =>
      let normalized := py_strip value in
      let key := py_lower normalized in
      if negb (str_truthy normalized) || bool_decide (key ∈ seen) then unique_from seen values'
      else normalized :: unique_from (key :: seen) values'
  end.
Definition _unique_strings (values : list string) : list string := unique_from [] values.

(** [_normalized_phrase] is [spaced_slug]. *)
Definition IGNORED_TOKENS : list string :=
  ["and"; "company"; "contractor"; "contractors"; "service"; "services"; "the"]%string.

Definition _meaningful_tokens (value : string) : gset string :=
  list_to_set (List.filter (λ token, (1 <? String.length token)%nat && negb (bool_decide (token ∈ IGNORED_TOKENS)))
                 (slug_tokens value)).

Section rating.
Context {A : Type} `{Num A} `{Stats A} `{Trig A}.
Context (of_float : binary64 → A).
Open Scope num_scope.
Implicit Types (provider : ProviderCandidate A) (config : RatingConfig A).

Definition _token_coverage (value expected : string) : A :=
  let value_tokens := _meaningful_tokens value in
  let expected_tokens := _meaningful_tokens expected in
  if bool_decide (value_tokens = ∅) || bool_decide (expected_tokens = ∅) then 0
  else num_ratio (Z.of_nat (size (value_tokens ∩ expected_tokens))) (Z.of_nat (size expected_tokens)).

(** An empty phrase occurs in every text. *)
Definition _market_text_match (value : string) (market : Planning.Market) : A :=
  let normalized := spaced_slug value in
  let display := spaced_slug (mt_display_name market) in
  if negb (str_truthy normalized) then 0
  else if existsb (λ phrase, py_contains (spaced_slug phrase) normalized) (mt_postal_codes market ++ mt_cities market) then 1
  else if str_truthy display && py_contains display normalized then 1
  else 0.

(** ** The signals: [normalized] and [method] *)

Definition _service_fit provider (service : ServiceFamily) : A * string :=
  let provider_categories := _unique_strings (default ""%string (pc_category provider) :: pc_categories provider) in
  let configured_categories := _unique_strings (fam_provider_categories service) in
  if existsb (λ category, bool_decide (spaced_slug category ∈ map spaced_slug configured_categories)) provider_categories
  then (1, "configured_provider_category_exact"%string)
  else
    let configured_similarity := max_default 0
      (flat_map (λ category, map (_token_coverage category) configured_categories) provider_categories) in
    let provider_text := join_words (pc_name provider :: provider_categories) in
    let fallback_similarity := max_default 0 (map (_token_coverage provider_text)
      (fam_display_name service :: fam_seed_queries service ++ configured_categories)) in
    let fallback := fallback_similarity * num_ratio 65 100 in
    (num_round 3 (py_min (py_max configured_similarity fallback) 1),
     if (fallback <=? configured_similarity) && (0 <? configured_similarity) then "configured_provider_category_overlap"%string
     else if 0 <? fallback_similarity then "service_language_overlap"%string
     else "no_service_evidence"%string).

(** The haversine formula; [x ** 2] is the product. *)
Definition haversine_km (latitude longitude market_latitude market_longitude : A) : A :=
  let square x := x * x in
  let lat1 := num_radians latitude in
  let lon1 := num_radians longitude in
  let lat2 := num_radians market_latitude in
  let lon2 := num_radians market_longitude in
  let haversine := square (num_sin ((lat2 - lat1) / num_Z 2))
                   + num_cos lat1 * num_cos lat2 * square (num_sin ((lon2 - lon1) / num_Z 2)) in
  num_ratio 63710088 10000 * num_Z 2 * num_asin (num_sqrt haversine).

Definition _distance_km provider (market : Planning.Market) : option A :=
  match pc_latitude provider, pc_longitude provider, mt_latitude market, mt_longitude market with
  | Some latitude, Some longitude, Some market_latitude, Some market_longitude =>
      Some (haversine_km latitude longitude (of_float market_latitude) (of_float market_longitude))
  | _, _, _, _ => None
  end.

Definition distance_score config (distance_km : A) : A :=
  let full_credit := full_credit_distance_km config in
  let maximum := py_max full_credit (max_distance_km config) in
  if distance_km <=? full_credit then 1
  else if maximum <=? distance_km then 0
  else 1 - (distance_km - full_credit) / (maximum - full_credit).

(** The comparison of two pairs of a number and a text *)
Definition pair_gtb (x y : A * string) : bool :=
  (y.1 <? x.1) || ((x.1 =? y.1) && negb (str_leb x.2 y.2)).

Definition max_pair (d : A * string) (l : list (A * string)) : A * string :=
  match l with [] => d | x :: l' => foldl (λ best y, if pair_gtb y best then y else best) x l' end.

Definition _geographic_fit provider (market : Planning.Market) config : A * string :=
  let service_area_match := _market_text_match (default ""%string (pc_service_area provider)) market in
  let address_match := _market_text_match (default ""%string (pc_address provider)) market in
  let candidates :=
    match _distance_km provider market with
    | Some distance_km => [(distance_score config distance_km, "coordinate_distance"%string)]
    | None => []
    end
    ++ (if num_truthy service_area_match
        then [(service_area_match * service_area_match_score config, "verified_service_area"%string)] else [])
    ++ (if num_truthy address_match then [(address_match * address_match_score config, "listing_address"%string)] else []) in
  let '(normalized, method) := max_pair (0, "no_geographic_evidence"%string) candidates in
  (num_round 3 (unit_factor normalized), method).

Definition _status_fit provider config : A * string :=
  let normalized := _status_value (pc_business_status provider) (status_config config) in
  (num_round 3 normalized,
   if 1 <=? normalized then "confirmed_operating"%string
   else if 0 <? normalized then "status_uncertain"%string else "inactive_or_closed"%string).

Definition _contactability provider config : A * string :=
  let channels := [(opt_truthy (pc_website provider), website_strength config);
                   (opt_truthy (pc_phone provider), phone_strength config);
                   (opt_truthy (pc_email provider), email_strength config);
                   (opt_truthy (pc_contact_form_url provider), contact_form_strength config)] in
  let channel_strength := max_default 0 (map snd (List.filter fst channels)) in
  let confidence := match pc_contact_confidence provider with
                    | Some c => unit_factor c
                    | None => unknown_confidence config
                    end in
  let floor := unit_factor (confidence_floor config) in
  let reliability_multiplier := floor + (1 - floor) * confidence in
  (num_round 3 (py_min (channel_strength * reliability_multiplier) 1),
   if num_truthy channel_strength then "strongest_channel_adjusted_by_confidence"%string else "no_contact_channel"%string).

Definition _reputation provider config : A * string :=
  let rating_score := match pc_rating provider with
                      | Some rating => py_min (py_max rating 0) (num_Z 5) / num_Z 5
                      | None => 0
                      end in
  let saturation := review_saturation_count config in
  let review_score := match pc_review_count provider with
                      | Some count => num_ratio (Z.min (Z.max count 0) saturation) (Z.max 1 saturation)
                      | None => 0
                      end in
  (num_round 3 (py_min (rating_score * rating_share config + review_score * review_count_share config) 1),
   if negb (is_none (pc_rating provider)) || negb (is_none (pc_review_count provider))
   then "rating_and_review_evidence"%string else "no_reputation_evidence"%string).

(** ** The score *)

(** [weights.get(name, 0)] of the weights raised to zero *)
Definition weight_of config (name : string) : A :=
  match assoc name (signal_weights config) with Some w => py_max 0 w | None => 0 end.

Definition signals_of provider (service : ServiceFamily) (market : Planning.Market) config : list (string * (A * string)) :=
  [("service_fit", _service_fit provider service); ("geographic_fit", _geographic_fit provider market config);
   ("status_certainty", _status_fit provider config); ("contactability", _contactability provider config);
   ("reputation", _reputation provider config)]%string.

Definition signal_payload config (named : string * (A * string)) : string * Signal A :=
  let '(name, (normalized, method)) := named in
  (name, {| sg_normalized := Some normalized; sg_method := method; sg_weight := weight_of config name;
            sg_weighted_score := num_round 2 (normalized * weight_of config name) |}).

Definition _score_provider (service : ServiceFamily) (market : Planning.Market) config provider : ProviderCandidate A :=
  let signals := signals_of provider service market config in
  let total := num_sum (map (λ '(name, (normalized, _)), normalized * weight_of config name) signals) in
  let total := if (_status_fit provider config).1 <=? 0 then py_min total (inactive_score_cap config) else total in
  provider <| pc_suitability_score := Some (num_round 2 (py_min (py_max total 0) (num_Z 100))) |>
           <| pc_suitability_signals := map (signal_payload config) signals |>.

Definition score_provider_suitability (providers : list (ProviderCandidate A)) (service : ServiceFamily)
    (market : Planning.Market) config : list (ProviderCandidate A) :=
  map (_score_provider service market config) providers.
End rating.
