(* ===== verification/ProviderRatingTheorems.v ===== *)
(** * ProviderRatingTheorems: ratings stay in range, and what the rest of a scan reads of them *)
From S2P Require Import Prelude Text Services Binary64 Numbers Demand Scoring ScoringProofs Planning.
From S2P Require Import Keywords EvidenceQuality ProviderRating.
From Stdlib Require Import QArith Lqa.
#[global] Open Scope Z_scope.

Section ranges.
Open Scope Q_scope.

(** The numbers a configuration of the rating may have *)
Record sensible_rating (config : RatingConfig Q) : Prop := {
  strengths_positive : 0 <= website_strength config ∧ 0 <= phone_strength config ∧ 0 <= email_strength config
    ∧ 0 <= contact_form_strength config;
  confidence_positive : 0 <= unknown_confidence config;
  shares_positive : 0 <= rating_share config ∧ 0 <= review_count_share config;
  saturation_positive : (0 ≤ review_saturation_count config)%Z
}.

Definition unit_range (x : Q) : Prop := 0 <= x <= 1.

Lemma round3_unit x : unit_range x → unit_range (num_round 3 x).
Proof.
  unfold unit_range. unfold_num. intros [H0 H1].
  pose proof (Q_round_mono 3 ltac:(lia) _ _ H0) as G0. pose proof (Q_round_mono 3 ltac:(lia) _ _ H1) as G1. by change (Q_round 3 0) with (0 # 1000) in G0; change (Q_round 3 1) with (1000 # 1000) in G1; split; lra.
Qed.

Lemma ratio_unit n d : (0 ≤ n ≤ d)%Z → (0 < d)%Z → unit_range (num_ratio n d).
Proof.
  intros Hn Hd. unfold unit_range. unfold_num. unfold Qle. cbn. rewrite Z2Pos.id by done. lia.
Qed.

Lemma max_of_ind (P : Q → Prop) x l : P x → Forall P l → P (max_of x l).
Proof.
  revert x. induction l as [|y l IH]; intros x Hx Hl; [done|]. inversion Hl as [|?? Hy Hl']. subst.
  change (P (max_of (py_max x y) l)). apply IH; [|done].
  unfold py_max. by destruct (_ <? _)%num.
Qed.

Lemma max_default_ind (P : Q → Prop) d l : P d → Forall P l → P (max_default d l).
Proof. intros Hd Hl. destruct l; [done|]. inversion Hl. cbn [max_default]. by apply max_of_ind. Qed.

Lemma token_coverage_unit value expected : unit_range (_token_coverage value expected).
Proof.
  unfold _token_coverage. destruct (bool_decide (_meaningful_tokens value = ∅)); [by split; vm_compute|].
  case_bool_decide as He; [by split; vm_compute|]. cbn [orb]. apply ratio_unit.
  - split; [lia|]. apply Nat2Z.inj_le, subseteq_size. set_solver.
  - assert (size (_meaningful_tokens expected) ≠ 0%nat) by (by intros Hz%size_empty_inv%leibniz_equiv). lia.
Qed.

Lemma min_one_unit x : 0 <= x → unit_range (py_min x 1%num).
Proof. intros Hx. unfold unit_range. pose proof (py_min_lb x 1%num). split; [|tauto]. apply py_min_glb; [done|by vm_compute]. Qed.

Lemma max_nonneg_l x y : 0 <= x → 0 <= py_max x y.
Proof. pose proof (py_max_ub x y). lra. Qed.

Lemma coverage_nonneg (l : list Q) d : 0 <= d → (∀ x, x ∈ l → 0 <= x) → 0 <= max_default d l.
Proof. intros Hd Hl. apply (max_default_ind (λ x, 0 <= x)); [done|]. by apply Forall_forall. Qed.

Lemma service_fit_unit provider service : unit_range (_service_fit provider service).1.
Proof.
  unfold _service_fit. destruct (existsb _ _); [by split; vm_compute|]. cbn [fst].
  apply round3_unit, min_one_unit, max_nonneg_l, coverage_nonneg; [by vm_compute|].
  intros x Hx. apply list_elem_of_In, in_flat_map in Hx as (c & _ & Hx). apply in_map_iff in Hx as (e & <- & _).
  apply token_coverage_unit.
Qed.

Lemma geographic_fit_unit `{Trig Q} (of_float : binary64 → Q) provider market config :
  unit_range (_geographic_fit of_float provider market config).1.
Proof.
  unfold _geographic_fit. destruct (max_pair _ _) as [normalized method]. apply round3_unit, unit_factor_range.
Qed.

Lemma status_fit_unit provider config : unit_range (_status_fit provider config).1.
Proof. unfold _status_fit, _status_value. apply round3_unit, unit_factor_range. Qed.

Lemma contactability_unit provider config : sensible_rating config → unit_range (_contactability provider config).1.
Proof.
  intros [(H1 & H2 & H3 & H4) Hc _ _]. unfold _contactability. cbn [fst]. apply round3_unit, min_one_unit.
  set (strength := max_default _ _). set (confidence := match pc_contact_confidence provider with Some _ => _ | None => _ end).
  assert (0 <= strength) as Hs.
  { apply coverage_nonneg; [by vm_compute|]. intros x Hx. apply list_elem_of_In, in_map_iff in Hx as ([b y] & <- & Hx).
    apply filter_In in Hx as [Hx _]. cbn in Hx. destruct Hx as [[= _ <-]|[[= _ <-]|[[= _ <-]|[[= _ <-]|[]]]]]; done. }
  assert (0 <= confidence) as Hcc by (subst confidence; destruct (pc_contact_confidence provider); [apply unit_factor_range|done]).
  pose proof (unit_factor_range (confidence_floor config)) as Hf. set (floor := unit_factor (confidence_floor config)) in *.
  unfold_num. apply Qmult_le_0_compat; [done|].
  pose proof (Qmult_le_0_compat (1 - floor) confidence). lra.
Qed.

Lemma reputation_unit provider config : sensible_rating config → unit_range (_reputation provider config).1.
Proof.
  intros [_ _ [H1 H2] Hsat]. unfold _reputation. cbn [fst]. apply round3_unit, min_one_unit.
  set (rating := match pc_rating provider with Some _ => _ | None => _ end).
  set (reviews := match pc_review_count provider with Some _ => _ | None => _ end).
  assert (0 <= rating) as Hr.
  { subst rating. destruct (pc_rating provider) as [r|]; [|by vm_compute].
    assert (0 <= py_min (py_max r 0%num) (num_Z 5)) by (apply py_min_glb; [apply py_max_ub|by vm_compute]).
    unfold_num. apply Qle_shift_div_l; [done|]. lra. }
  assert (0 <= reviews) as Hv.
  { subst reviews. destruct (pc_review_count provider) as [n|]; [|by vm_compute]. unfold_num. unfold Qle. cbn.
    destruct (Z.min_spec (Z.max n 0) (review_saturation_count config)) as [[? ->]|[? ->]]; [lia|]. lia. }
  unfold_num. pose proof (Qmult_le_0_compat _ _ Hr H1). pose proof (Qmult_le_0_compat _ _ Hv H2). lra.
Qed.

Lemma or_zero_some (x : Q) : or_zero (Some x) == x.
Proof.
  unfold or_zero, num_truthy. destruct (x =? num_Z 0)%num eqn:E; simpl; [|reflexivity].
  unfold_num. apply Qeq_bool_iff in E. by rewrite E.
Qed.

Lemma weight_nonneg (config : RatingConfig Q) name : 0 <= weight_of config name.
Proof. unfold weight_of. destruct (assoc _ _); [apply py_max_ub|by vm_compute]. Qed.

Lemma capped_range x : 0 <= num_round 2 (py_min (py_max x 0%num) (num_Z 100)) <= 100.
Proof.
  fold (round2 (py_min (py_max x 0%num) (num_Z 100))). split.
  - apply round2_nonneg, py_min_glb; [apply py_max_ub|by vm_compute].
  - apply round2_le; [by exists 10000%Z|]. apply py_min_lb.
Qed.

Context `{Trig Q} (of_float : binary64 → Q) (service : ServiceFamily) (market : Planning.Market).

(** The weighted sum of a rating, with the cap of a provider that is not in business *)
Definition rated_total (config : RatingConfig Q) (p : ProviderCandidate Q) : Q :=
  let total := num_sum (map (λ '(name, (normalized, _)), (normalized * weight_of config name)%num)
                          (signals_of of_float p service market config)) in
  if ((_status_fit p config).1 <=? 0)%num then py_min total (inactive_score_cap config) else total.

Lemma rated_suitability config p :
  suitability (_score_provider of_float service market config p)
  == num_round 2 (py_min (py_max (rated_total config p) 0%num) (num_Z 100)).
Proof. exact (or_zero_some _). Qed.

Lemma rated_signals config p :
  pc_suitability_signals (_score_provider of_float service market config p)
  = map (λ nf, (nf.1, {| sg_normalized := Some nf.2.1; sg_method := nf.2.2; sg_weight := weight_of config nf.1;
                          sg_weighted_score := num_round 2 (nf.2.1 * weight_of config nf.1)%num |}))
      (signals_of of_float p service market config).
Proof. apply map_ext. by intros (name & normalized & method). Qed.

Lemma signals_unit config p : sensible_rating config →
  Forall (λ nf, unit_range nf.2.1) (signals_of of_float p service market config).
Proof.
  intros Hc. unfold signals_of.
  constructor; [exact (service_fit_unit p service)|]. constructor; [exact (geographic_fit_unit of_float p market config)|].
  constructor; [exact (status_fit_unit p config)|]. constructor; [exact (contactability_unit p config Hc)|].
  constructor; [exact (reputation_unit p config Hc)|constructor].
Qed.

(** What the rating of a provider [p] is to be. *)
Definition rated_properly config (p p' : ProviderCandidate Q) : Prop :=
  p' = p <| pc_suitability_score := pc_suitability_score p' |> <| pc_suitability_signals := pc_suitability_signals p' |>
  ∧ 0 <= suitability p' <= 100
  ∧ (pc_suitability_signals p').*1
    = ["service_fit"; "geographic_fit"; "status_certainty"; "contactability"; "reputation"]%string
  ∧ (∀ name signal, (name, signal) ∈ pc_suitability_signals p' →
       0 <= sg_weight signal
       ∧ ∃ x, sg_normalized signal = Some x ∧ 0 <= x <= 1
           ∧ sg_weighted_score signal = num_round 2 (x * sg_weight signal)%num)
  ∧ (_status_value (pc_business_status p) (status_config config) <= 0 → 0 <= inactive_score_cap config →
       suitability p' <= round2 (inactive_score_cap config)).

Lemma provider_rated_properly config p :
  sensible_rating config → rated_properly config p (_score_provider of_float service market config p).
Proof.
  intros Hc. unfold rated_properly. split; [reflexivity|]. split.
  { rewrite rated_suitability. apply capped_range. }
  rewrite rated_signals. split; [done|]. split.
  - intros name signal (nf & [= -> ->] & Hin)%list_elem_of_fmap. split; [apply weight_nonneg|].
    exists nf.2.1. split; [done|]. split; [|done].
    exact (proj1 (Forall_forall _ _) (signals_unit config p Hc) _ Hin).
  - intros Hs Hcap. rewrite rated_suitability. unfold rated_total.
    assert (((_status_fit p config).1 <=? 0)%num = true) as ->.
    { unfold _status_fit. unfold_num. apply Qle_bool_iff. pose proof (Q_round_mono 3 ltac:(lia) _ _ Hs) as Hr.
      change (Q_round 3 0) with (0 # 1000) in Hr. cbn [fst]. lra. }
    apply round2_mono. eapply Qle_trans; [exact (proj1 (py_min_lb _ _))|]. apply py_max_lub; [exact (proj2 (py_min_lb _ _))|done].
Qed.

(** C26: In exact arithmetic, with a configuration whose strengths, shares, saturation count
    and confidence for unknown contacts are not negative, a rating stays in its range and
    says what it rests on.  Every provider gets one, in the order of the providers: a score
    between 0 and 100 and the five signals, each between 0 and 1, with a weight that is not
    negative and its weighted score; one that is not in business is capped, and nothing else
    of the provider changes.  So the ratings meet what the scorer asks of its providers. *)
Theorem ratings_stay_in_range config providers :
  sensible_rating config →
  Forall2 (rated_properly config) providers (score_provider_suitability of_float providers service market config).
Proof.
  intros Hc. unfold score_provider_suitability. induction providers as [|p providers IH]; constructor; [|done].
  by apply provider_rated_properly.
Qed.

(** A provider listed under a category of the service counts as relevant evidence: its
    service signal is 1, and the evidence check's limit lets it pass. *)
Theorem listed_category_is_relevant config provider category :
  category ∈ _unique_strings (default ""%string (pc_category provider) :: pc_categories provider) →
  spaced_slug category ∈ map spaced_slug (_unique_strings (fam_provider_categories service)) →
  signal_at_least "service_fit" (num_ratio 35 100) (_score_provider of_float service market config provider) = true.
Proof.
  intros Hc He. unfold signal_at_least, signal_of. rewrite rated_signals.
  change (default false ((λ x : Q, (num_ratio 35 100 <=? x)%num) <$> Some (_service_fit provider service).1) = true).
  assert ((_service_fit provider service).1 = 1%num) as ->; [|by vm_compute].
  unfold _service_fit. assert (existsb (λ category, bool_decide (spaced_slug category ∈ map spaced_slug
    (_unique_strings (fam_provider_categories service)))) (_unique_strings (default ""%string (pc_category provider)
    :: pc_categories provider)) = true) as ->; [|done].
  apply existsb_exists. exists category. split; [by apply list_elem_of_In|by apply bool_decide_eq_true].
Qed.
End ranges.

(** ** A rating *)
Module RatingRun.

(** The weights of the default configuration; the providers here carry no coordinates, so
    the trigonometric functions are never called. *)
Definition config : RatingConfig Q := {|
  status_config := {| suitable_threshold := 55 # 1; quality_sample_size := 5;
    status_scores := [("open", 1 # 1); ("unknown", 1 # 4); ("closed", 0 # 1)]%string;
    ideal_min := 2; ideal_max := 8; oversupply_count := 14 |};
  inactive_score_cap := 40 # 1;
  signal_weights := [("service_fit", 30 # 1); ("geographic_fit", 25 # 1); ("status_certainty", 15 # 1);
                     ("contactability", 20 # 1); ("reputation", 10 # 1)]%string;
  full_credit_distance_km := 25 # 1; max_distance_km := 100 # 1; service_area_match_score := 1 # 1;
  address_match_score := 85 # 100; website_strength := 3 # 10; phone_strength := 85 # 100; email_strength := 1 # 1;
  contact_form_strength := 9 # 10; unknown_confidence := 1 # 2; confidence_floor := 3 # 4; rating_share := 7 # 10;
  review_count_share := 3 # 10; review_saturation_count := 100 |}.

#[local] Instance no_trig : Trig Q := {|
  num_radians x := x; num_sin x := x; num_cos x := x; num_asin x := x |}.

Definition roofer (status : string) : ProviderCandidate Q := {|
  pc_name := "Peak Roofing"; pc_website := Some "https://peak.example"%string; pc_phone := Some "555-0100"%string;
  pc_email := None; pc_contact_form_url := None; pc_address := Some "12 Main St, Austin, TX"%string; pc_service_area := None;
  pc_category := Some "Roofing Contractor"%string; pc_categories := []; pc_latitude := None; pc_longitude := None;
  pc_rating := Some (45 # 10); pc_review_count := Some 40; pc_business_status := status; pc_contact_confidence := None;
  pc_suitability_score := None; pc_suitability_signals := [] |}.

Definition roofing : ServiceFamily :=
  default_slug {| fam_id := "roofing"; fam_slug := None; fam_display_name := "Roof Repair"; fam_description := "";
    fam_seed_queries := []; fam_negative_terms := []; fam_intent_modifiers := []; fam_negative_product_terms := [];
    fam_provider_categories := ["roofing contractor"]%string; fam_regulated := false; fam_enabled := true |}.

Definition market_of (display_name city : string) : Planning.Market := {|
  mt_id := "m"; mt_slug := None; mt_display_name := display_name; mt_type := "city"; mt_country_code := "US";
  mt_state := None; mt_cities := [city]; mt_postal_codes := []; mt_county := None; mt_county_fips := None;
  mt_metro := None; mt_metro_code := None; mt_latitude := None; mt_longitude := None; mt_population := None;
  mt_reference_population := None; mt_aliases := []; mt_boundary_radius_km := None; mt_geography_id := None;
  mt_geography_dataset_version := None; mt_provider_location_code := None; mt_provider_location_name := None;
  mt_resolution_metadata := [] |}.
Definition austin : Planning.Market := market_of "Austin, TX" "Austin".

Abbreviation rated status := (_score_provider (λ _, 0%Q) roofing austin config (roofer status)).

Example ratings : (suitability (rated "open") == 8863 # 100)%Q ∧ (suitability (rated "closed") == 40)%Q.
Proof. split; vm_compute; reflexivity. Qed.

Lemma config_sensible : sensible_rating config.
Proof. by split. Qed.

Lemma ratings_stay_in_range_witness :
  (0 <= suitability (rated "closed") <= 100)%Q ∧ (suitability (rated "closed") <= round2 (40 # 1))%Q.
Proof.
  pose proof (ratings_stay_in_range (λ _, 0%Q) roofing austin config [roofer "open"; roofer "closed"] config_sensible)
    as Hall. apply Forall2_cons_1 in Hall as [_ Hall]. apply Forall2_cons_1 in Hall as [Hrated _].
  destruct Hrated as (_ & Hr & _ & _ & Hcap). split; [exact Hr|].
  apply Hcap; vm_compute; discriminate.
Defined.

Lemma listed_category_is_relevant_witness :
  signal_at_least "service_fit" (num_ratio 35 100) (rated "open") = true.
Proof.
  apply (listed_category_is_relevant (λ _, 0%Q) roofing austin config (roofer "open") "Roofing Contractor");
    vm_compute; apply list_elem_of_here || apply list_elem_of_singleton; reflexivity.
Defined.

(** The text match is a match of substrings: a listing in Moreno Valley counts as one in
    Reno. *)
Example substring_of_another_city :
  _market_text_match (A := Q) "Moreno Valley, CA" (market_of "Reno, NV" "Reno") = 1%num.
Proof. vm_compute. reflexivity. Qed.
End RatingRun.
