(* ===== verification/SerpClassification.v ===== *)
(** * SerpClassification: what kind of site a search result is (scoring/serp.py)

    The rules of the configuration are tried in order and the first that applies decides;
    an operator's override comes before all.  The rule for local providers wants evidence of
    the service, of the market and of a business, the last from the provider listings of the
    scan or from the text.

    [url_path] is [urlparse(url).path]; [netloc] is Scoring's.  The evidence of a
    classification, which repeats the matched words for the reader, is left out. *)
From S2P Require Import Prelude Text Services Binary64 Numbers Demand Scoring Planning Keywords EvidenceQuality.
#[global] Open Scope Z_scope.

Record SerpRule : Type := {
  ru_id : string;
  ru_classification : string;
  ru_confidence : option binary64;
  ru_domains : list string;
  ru_domain_suffixes : list string;
  ru_text_contains : list string;
  ru_service_terms : list string;
  ru_business_identity_terms : list string
}.

Record SerpRules : Type := { rules_version : string; rules : list SerpRule }.

(** ** The parts of a URL *)

(** The schemes whose last path segment may carry parameters *)
Definition PARAMS_SCHEMES : list string :=
  [""; "ftp"; "hdl"; "prospero"; "http"; "https"; "shttp"; "rtsp"; "rtspu"; "sip"; "sips"; "mms"; "sftp"; "tel"]%string.

(** The scheme, and what follows it *)
Definition split_scheme (url : string) : string * string :=
  match url with
  | String c _ =>
      if is_alpha c then
        match after_scheme url with
        | Some rest => (py_lower (take_until (char_in [58]%nat) url), rest)
        | None => ("", url)
        end
      else ("", url)
  | EmptyString => ("", url)
  end.

Fixpoint drop_until (stop : Ascii.ascii → bool) (s : string) : string :=
  match s with
  | EmptyString => EmptyString
  | String c s' => if stop c then s else drop_until stop s'
  end.

(** The text after [//host], or all of it *)
Definition after_netloc (rest : string) : string :=
  match rest with
  | String c1 (String c2 host) =>
      if char_in [47]%nat c1 && char_in [47]%nat c2 then drop_until (char_in [47; 63; 35]%nat) host else rest
  | _ => rest
  end.

(** The path without the parameters of its last segment: up to the first semicolon after
    the last slash *)
Fixpoint has_char (p : Ascii.ascii → bool) (s : string) : bool :=
  match s with EmptyString => false | String c s' => p c || has_char p s' end.
Fixpoint strip_params (path : string) : string :=
  match path with
  | EmptyString => EmptyString
  | String c path' =>
      if char_in [59]%nat c && negb (has_char (char_in [47]%nat) path') then EmptyString else String c (strip_params path')
  end.

Definition url_path (url : string) : string :=
  let '(scheme, rest) := split_scheme (remove_chars (char_in [9; 10; 13]%nat) (strip_controls url)) in
  let path := take_until (char_in [63; 35]%nat) (after_netloc rest) in
  if bool_decide (scheme ∈ PARAMS_SCHEMES) then strip_params path else path.

Definition _normalize_domain (domain : string) : string := py_strip (remove_www (py_lower domain)).

(** ** Words *)

Definition STOP_TOKENS : list string :=
  ["a"; "and"; "at"; "best"; "for"; "in"; "near"; "of"; "the"; "to"; "us"; "usa"; "www"]%string.

Definition _important_tokens (value : string) : gset string :=
  list_to_set (List.filter (λ token, (1 <? String.length token)%nat && negb (bool_decide (token ∈ STOP_TOKENS)))
                 (slug_tokens value)).

Definition union_of (values : list string) : gset string := ⋃ map _important_tokens values.

Definition market_words (market : Planning.Market) : gset string :=
  union_of (mt_display_name market :: default "" (mt_state market) :: mt_country_code market
            :: mt_cities market ++ mt_postal_codes market).

Definition BUSINESS_TERMS : list string :=
  ["co"; "company"; "contractors"; "pros"; "service"; "services"; "plumbing"; "roofing"; "hvac"; "repair"]%string.

Definition dot_or_dash (a : Ascii.ascii) : Ascii.ascii :=
  if Ascii.eqb a (Ascii.ascii_of_nat 46) || Ascii.eqb a dash then space else a.

Definition _business_like_domain (domain : string) : bool :=
  existsb (λ token, bool_decide (token ∈ BUSINESS_TERMS)) (py_split (map_string dot_or_dash domain)).

(** [domain == item or domain.endswith(f".{item}")] *)
Definition within_domain (item domain : string) : bool :=
  String.eqb domain item || ends_with ("." +:+ item) domain.

Definition _rule_matches (rule : SerpRule) (domain text : string) : bool :=
  existsb (λ item, within_domain (py_lower item) domain) (ru_domains rule)
  || existsb (λ item, ends_with (py_lower item) domain) (ru_domain_suffixes rule)
  || existsb (λ term, py_contains (py_lower term) text) (ru_text_contains rule).

Section classify.
Context {A : Type}.
Context (config : SerpRules).

(** ** Local providers *)

Definition _provider_domain (provider : ProviderCandidate A) : option string :=
  if opt_truthy (pc_website provider) then
    let website := default ""%string (pc_website provider) in
    Some (_normalize_domain (or_str (netloc website) website))
  else None.

Inductive ListingMatch : Type := website_domain | business_name.

(** [len(result_tokens & name_tokens) / max(1, len(name_tokens)) >= 0.6] *)
Definition names_agree (result_tokens name_tokens : gset string) : bool :=
  negb (bool_decide (name_tokens = ∅))
  && (num_ratio 6 10 <=? num_ratio (A := binary64) (Z.of_nat (size (result_tokens ∩ name_tokens)))
                           (Z.max 1 (Z.of_nat (size name_tokens))))%num.

Definition listing_match (domain : string) (result_tokens : gset string) (provider : ProviderCandidate A)
    : option ListingMatch :=
  match str_or (_provider_domain provider) None with
  | Some provider_domain =>
      if within_domain provider_domain domain then Some website_domain
      else if names_agree result_tokens (_important_tokens (pc_name provider)) then Some business_name else None
  | None => if names_agree result_tokens (_important_tokens (pc_name provider)) then Some business_name else None
  end.

(** The first provider whose website or name agrees with the result *)
Definition _provider_listing_match (domain : string) (result : SerpResult) (providers : list (ProviderCandidate A))
    : option (ListingMatch * string) :=
  let result_tokens := _important_tokens (sr_title result +:+ " " +:+ sr_description result +:+ " " +:+ domain) in
  head (omap (λ provider, (λ m, (m, pc_name provider)) <$> listing_match domain result_tokens provider) providers).

Definition _local_provider_match (rule : SerpRule) (result : SerpResult) (domain text : string)
    (service : option ServiceFamily) (market : option Planning.Market) (providers : list (ProviderCandidate A)) : bool :=
  match service, market with
  | Some service, Some market =>
      let service_tokens := union_of (fam_display_name service :: fam_seed_queries service) in
      let result_tokens := _important_tokens text in
      let configured_service_terms : gset string :=
        list_to_set (map py_lower (List.filter (λ term, str_truthy (py_strip term)) (ru_service_terms rule))) in
      let has_service_relevance := negb (bool_decide (result_tokens ∩ service_tokens = ∅))
                                   || negb (bool_decide (result_tokens ∩ configured_service_terms = ∅)) in
      let has_market_relevance := negb (bool_decide (result_tokens ∩ market_words market = ∅)) in
      let clear_business_identity := existsb (λ term, py_contains (py_lower term) text) (ru_business_identity_terms rule)
                                     || _business_like_domain domain in
      has_service_relevance && has_market_relevance
      && (negb (is_none (_provider_listing_match domain result providers)) || clear_business_identity)
  | _, _ => false
  end.

(** ** Classification *)

(** [round(confidence, 2)] and the flags *)
Definition _with_classification (result : SerpResult) (classification : string) (confidence : binary64)
    (matched_rules : list string) : SerpResult :=
  result <| sr_classification := classification |>
         <| sr_is_local_provider := bool_decide (classification = "local_provider"%string) |>
         <| sr_is_directory := bool_decide (classification = "directory"%string) |>
         <| sr_is_national_brand := bool_decide (classification = "national_brand"%string) |>
         <| sr_is_lead_generation_site := bool_decide (classification = "lead_generator"%string) |>
         <| sr_classification_confidence := Some (F64.round_dec 2 confidence) |>
         <| sr_matched_rules := matched_rules |>.

(** [float(rule.get("confidence") or 0.5)] *)
Definition rule_confidence (rule : SerpRule) : binary64 :=
  match ru_confidence rule with Some c => if num_truthy c then c else F64.lit 5 10 | None => F64.lit 5 10 end.

Definition is_local_rule (rule : SerpRule) : bool := bool_decide (ru_classification rule = "local_provider"%string).

Definition result_domain (result : SerpResult) : string :=
  _normalize_domain (or_str (sr_domain result) (netloc (sr_url result))).

Definition result_text (result : SerpResult) : string :=
  py_lower (join_words [sr_title result; sr_description result; py_lower (url_path (sr_url result)); result_domain result]).

(** Does the loop stop at this rule? *)
Definition rule_applies (service : option ServiceFamily) (market : option Planning.Market)
    (providers : list (ProviderCandidate A)) (result : SerpResult) (rule : SerpRule) : bool :=
  if is_local_rule rule then
    _local_provider_match rule result (result_domain result) (result_text result) service market providers
  else _rule_matches rule (result_domain result) (result_text result).

Definition classify_result (service : option ServiceFamily) (market : option Planning.Market)
    (providers : list (ProviderCandidate A)) (result : SerpResult) : SerpResult :=
  match str_or (sr_manual_override result) None with
  | Some classification => _with_classification result classification (F64.of_Z 1) ["manual_override"%string]
  | None =>
      match List.find (rule_applies service market providers result) (rules config) with
      | Some rule => _with_classification result (ru_classification rule) (rule_confidence rule) [ru_id rule]
      | None => _with_classification result "unknown" (F64.lit 35 100) []
      end
  end.
End classify.
