(* ===== verification/SerpClassificationTheorems.v ===== *)
(** * SerpClassificationTheorems: the first rule that applies decides, every time *)
From S2P Require Import Prelude Text Services Binary64 Numbers Demand Scoring Planning Keywords EvidenceQuality.
From S2P Require Import SerpClassification.
#[global] Open Scope Z_scope.

Section theorems.
Context {A : Type}.
Implicit Types (providers : list (ProviderCandidate A)) (result : SerpResult) (config : SerpRules).

(** The flags say what the classification says. *)
Definition flags_agree result : Prop :=
  (sr_is_local_provider result = true ↔ sr_classification result = "local_provider"%string)
  ∧ (sr_is_directory result = true ↔ sr_classification result = "directory"%string)
  ∧ (sr_is_national_brand result = true ↔ sr_classification result = "national_brand"%string)
  ∧ (sr_is_lead_generation_site result = true ↔ sr_classification result = "lead_generator"%string).

Lemma find_first {T} (p : T → bool) l :
  match List.find p l with
  | Some x => ∃ before after, l = before ++ x :: after ∧ p x = true ∧ ∀ y, y ∈ before → p y = false
  | None => ∀ y, y ∈ l → p y = false
  end.
Proof.
  induction l as [|y l IH]; simpl; [set_solver|]. destruct (p y) eqn:Hy.
  - exists [], l. split_and!; [done|done|set_solver].
  - destruct (List.find p l) as [x|].
    + destruct IH as (before & after & -> & Hx & Hb). exists (y :: before), after. split_and!; [done|done|].
      intros z [->|Hz]%elem_of_cons; [done|by apply Hb].
    + intros z [->|Hz]%elem_of_cons; [done|by apply IH].
Qed.

(** What is written does not matter to the next classification. *)
Lemma written_ignored service market providers result classification confidence matched rule :
  rule_applies service market providers (_with_classification result classification confidence matched) rule
  = rule_applies service market providers result rule.
Proof. done. Qed.

(** C27: The classification of a search result is the override of the operator, when there
    is one, or that of the first rule of the configuration that applies to it, or unknown
    when none does; the flags agree with it, and the result is otherwise what it was.
    Classifying again, as the pipeline does when it knows the providers, gives what it
    would have given at first: the earlier verdict leaves no trace. *)
Theorem first_matching_rule_decides config service market providers result :
  let classified := classify_result config service market providers result in
  (sr_url classified, sr_domain classified, sr_title classified, sr_order classified, sr_result_type classified,
   sr_manual_override classified)
  = (sr_url result, sr_domain result, sr_title result, sr_order result, sr_result_type result, sr_manual_override result)
  ∧ flags_agree classified
  ∧ match str_or (sr_manual_override result) None with
    | Some override => sr_classification classified = override ∧ sr_matched_rules classified = ["manual_override"%string]
    | None =>
        (∃ before rule after, rules config = before ++ rule :: after
           ∧ rule_applies service market providers result rule = true
           ∧ (∀ r, r ∈ before → rule_applies service market providers result r = false)
           ∧ sr_classification classified = ru_classification rule ∧ sr_matched_rules classified = [ru_id rule])
        ∨ ((∀ r, r ∈ rules config → rule_applies service market providers result r = false)
           ∧ sr_classification classified = "unknown"%string ∧ sr_matched_rules classified = [])
    end
  ∧ ∀ service' market' providers',
      classify_result config service' market' providers' classified = classify_result config service' market' providers' result.
Proof.
  cbv zeta. unfold classify_result. destruct (str_or (sr_manual_override result) None) as [override|] eqn:Ho.
  - split_and!; [done|by split_and!; apply bool_decide_eq_true|done|done|].
    intros service' market' providers'.
    change (sr_manual_override (_with_classification result override (F64.of_Z 1) ["manual_override"%string]))
      with (sr_manual_override result). by rewrite Ho.
  - pose proof (find_first (rule_applies service market providers result) (rules config)) as Hf.
    destruct (List.find _ (rules config)) as [rule|].
    + destruct Hf as (before & after & Hr & Happ & Hb).
      split_and!; [done|by split_and!; apply bool_decide_eq_true| |].
      * left. by exists before, rule, after.
      * intros service' market' providers'.
        change (sr_manual_override (_with_classification result (ru_classification rule) (rule_confidence rule) [ru_id rule]))
          with (sr_manual_override result). by rewrite Ho.
    + split_and!; [done|by split_and!; apply bool_decide_eq_true|by right|].
      intros service' market' providers'.
      change (sr_manual_override (_with_classification result "unknown" (F64.lit 35 100) [])) with (sr_manual_override result).
      by rewrite Ho.
Qed.
End theorems.

(** ** Results of a search *)
Module SerpRun.

Definition defaults : SerpRules := {|
  rules_version := "v2";
  rules :=
    [{| ru_id := "directory_known_domain"; ru_classification := "directory"; ru_confidence := Some (F64.lit 96 100);
        ru_domains := ["yelp.com"; "angi.com"]; ru_domain_suffixes := []; ru_text_contains := []; ru_service_terms := [];
        ru_business_identity_terms := [] |};
     {| ru_id := "informational_language"; ru_classification := "informational_publisher";
        ru_confidence := Some (F64.lit 72 100); ru_domains := []; ru_domain_suffixes := [];
        ru_text_contains := ["how to"; "guide"; "diy"]; ru_service_terms := []; ru_business_identity_terms := [] |};
     {| ru_id := "local_provider_language"; ru_classification := "local_provider"; ru_confidence := Some (F64.lit 68 100);
        ru_domains := []; ru_domain_suffixes := []; ru_text_contains := [];
        ru_service_terms := ["repair"; "service"]; ru_business_identity_terms := ["licensed"; "insured"] |}]%string |}.

Definition found (url title : string) : SerpResult := {|
  sr_order := 1; sr_result_type := "organic"; sr_url := url; sr_domain := ""; sr_title := title; sr_description := "";
  sr_classification := "unknown"; sr_is_local_provider := false; sr_is_directory := false; sr_is_national_brand := false;
  sr_is_lead_generation_site := false; sr_classification_confidence := None; sr_matched_rules := [];
  sr_manual_override := None |}.

Definition gutters : ServiceFamily :=
  default_slug {| fam_id := "gutters"; fam_slug := None; fam_display_name := "Gutter Cleaning"; fam_description := "";
    fam_seed_queries := []; fam_negative_terms := []; fam_intent_modifiers := []; fam_negative_product_terms := [];
    fam_provider_categories := []; fam_regulated := false; fam_enabled := true |}.

Definition boise : Planning.Market := {|
  mt_id := "m"; mt_slug := None; mt_display_name := "Boise, ID"; mt_type := "city"; mt_country_code := "US";
  mt_state := Some "ID"%string; mt_cities := ["Boise"%string]; mt_postal_codes := []; mt_county := None;
  mt_county_fips := None; mt_metro := None; mt_metro_code := None; mt_latitude := None; mt_longitude := None;
  mt_population := None; mt_reference_population := None; mt_aliases := []; mt_boundary_radius_km := None;
  mt_geography_id := None; mt_geography_dataset_version := None; mt_provider_location_code := None;
  mt_provider_location_name := None; mt_resolution_metadata := [] |}.

Abbreviation kind url title :=
  (sr_classification (classify_result (A := binary64) defaults (Some gutters) (Some boise) [] (found url title))).

Example kinds :
  kind "https://www.yelp.com/biz/x;p?q" "Gutters" = "directory"%string
  ∧ kind "https://boise-gutters.example/" "Licensed gutter cleaning in Boise" = "local_provider"%string
  ∧ kind "https://notyelp.com/" "Gutters" = "unknown"%string
  ∧ url_path "https://www.yelp.com/biz/x;p?q#f" = "/biz/x"%string.
Proof. split_and!; vm_compute; reflexivity. Qed.

(** The terms of a rule are searched for inside words, and in the domain: a business called
    Guidepost counts as an informational publisher because of [guide]. *)
Example term_inside_a_word :
  kind "https://guidepost-gutters.example/" "Licensed gutter cleaning in Boise" = "informational_publisher"%string.
Proof. vm_compute. reflexivity. Qed.
End SerpRun.
