(* ===== verification/Competitors.v ===== *)
(** * Competitors: which ranking sites are compared, and how (services/competitors.py)

    The organic results of a scan are grouped by domain; [select_competitor_urls] pays for
    the metrics of the best placed domains, and [enrich_competitors] joins the metrics with
    the results: one entry per domain, with its classification, its relevance to the service
    and the market, and every place it was seen at.  The dictionary of the domains is a list
    in insertion order; the time of an observation and the relevance signals, which repeat the
    result, are left out, and results are counted from one, as the validator of an
    observation demands. *)
From S2P Require Import Prelude Text Services Binary64 Numbers Demand Scoring Planning Keywords EvidenceQuality.
From S2P Require Import SerpClassification.
#[global] Open Scope Z_scope.

Definition COMPETITOR_ARCHETYPES : list string :=
  ["directory"; "marketplace"; "lead_generator"; "national_brand"; "local_provider"; "informational_publisher";
   "government_or_nonprofit"]%string.

Abbreviation by_domain := (list (string * list CompetitorSerpObservation)).

Definition is_organic_result (result : SerpResult) : bool := bool_decide (sr_result_type result = "organic"%string).

Definition observation_of (query : string) (result : SerpResult) : CompetitorSerpObservation :=
  {| ob_query := query; ob_position := sr_order result; ob_url := sr_url result |}.

(** [by_domain.setdefault(domain, []).append(observation)] *)
Fixpoint add_observation (domain : string) (o : CompetitorSerpObservation) (grouped : by_domain) : by_domain :=
  match grouped with
  | [] => [(domain, [o])]
  | (d, l) :: grouped' =>
      if bool_decide (d = domain) then (d, l ++ [o]) :: grouped' else (d, l) :: add_observation domain o grouped'
  end.

(** The state of the loops: the keys seen, which are a domain and an observation, and the
    groups *)
Definition observe (query : string) (state : list (string * CompetitorSerpObservation) * by_domain) (result : SerpResult)
    : list (string * CompetitorSerpObservation) * by_domain :=
  if negb (is_organic_result result) then state
  else
    let domain := result_domain result in
    let o := observation_of query result in
    if negb (str_truthy domain) || bool_decide ((domain, o) ∈ state.1) then state
    else ((domain, o) :: state.1, add_observation domain o state.2).

Definition observe_all (serp_snapshots : list SerpSnapshot) : list (string * CompetitorSerpObservation) * by_domain :=
  foldl (λ state snapshot, foldl (observe (ss_query snapshot)) state (ss_results snapshot)) ([], []) serp_snapshots.

Definition _serp_observations_by_domain (serp_snapshots : list SerpSnapshot) : by_domain :=
  map (λ group, (group.1, sort_by observation_leb group.2)) (observe_all serp_snapshots).2.

(** [min(observations, key=...)]: the first of the smallest *)
Definition best_observation (observations : list CompetitorSerpObservation) : option CompetitorSerpObservation :=
  head (sort_by observation_leb observations).

Definition select_competitor_urls (serp_snapshots : list SerpSnapshot) (limit : nat) : list string :=
  let representatives := omap (λ group, best_observation group.2) (_serp_observations_by_domain serp_snapshots) in
  map ob_url (take limit (sort_by observation_leb representatives)).

(** The last result for a key of the comprehension *)
Definition result_for (serp_snapshots : list SerpSnapshot) (o : CompetitorSerpObservation) : option SerpResult :=
  snd <$> last (List.filter (λ kv, bool_decide (kv.1 = o))
    (flat_map (λ snapshot, map (λ result, (observation_of (ss_query snapshot) result, result))
                             (List.filter is_organic_result (ss_results snapshot))) serp_snapshots)).

Section enrich.
Context {A : Type} `{Num A}.
Context (serp_snapshots : list SerpSnapshot) (service : ServiceFamily) (market : Planning.Market).
Open Scope num_scope.

(** [len(tokens & expected) / max(1, len(expected))] *)
Definition token_match (tokens expected : gset string) : A :=
  num_ratio (Z.of_nat (size (tokens ∩ expected))) (Z.max 1 (Z.of_nat (size expected))).

Definition service_words : gset string := list_to_set (slug_tokens (fam_display_name service)).
Definition market_names : gset string :=
  list_to_set (slug_tokens (mt_display_name market) ++ flat_map slug_tokens (mt_cities market)).

Definition competitor_domain (competitor : CompetitorMetric A) : string :=
  SerpClassification._normalize_domain (or_str (cm_domain competitor) (netloc (cm_url competitor))).

(** The page type from the result, kept when the result is unknown *)
Definition enriched_page_type (competitor : CompetitorMetric A) (result : option SerpResult) : string :=
  let page_type := match result with Some r => sr_classification r | None => cm_page_type competitor end in
  if negb (bool_decide (cm_page_type competitor = "unknown"%string)) && bool_decide (page_type = "unknown"%string)
  then cm_page_type competitor else page_type.

Definition enrich (observations : list CompetitorSerpObservation) (competitor : CompetitorMetric A) : CompetitorMetric A :=
  let representative := best_observation observations in
  let result := representative ≫= result_for serp_snapshots in
  let text := join_words [cm_url competitor; cm_domain competitor; from_option sr_title ""%string result;
                          from_option sr_description ""%string result] in
  let tokens : gset string := list_to_set (slug_tokens text) in
  let service_match := token_match tokens service_words in
  let market_match := token_match tokens market_names in
  let page_type := enriched_page_type competitor result in
  {| cm_url := cm_url competitor; cm_domain := cm_domain competitor;
     cm_referring_domains := cm_referring_domains competitor;
     cm_page_relevance_score := Some (num_round 3 (py_max (or_zero (cm_page_relevance_score competitor)) service_match));
     cm_local_relevance := Some (num_round 3 (py_max (or_zero (cm_local_relevance competitor)) market_match));
     cm_page_type := page_type;
     cm_archetype := Some (if bool_decide (page_type ∈ COMPETITOR_ARCHETYPES) then page_type else "unknown"%string);
     cm_representative_query := ob_query <$> representative;
     cm_serp_position := ob_position <$> representative;
     cm_serp_observations := observations |}.

Fixpoint enrich_from (observations_by_domain : by_domain) (seen_domains : list string)
    (competitors : list (CompetitorMetric A)) : list (CompetitorMetric A) :=
  match competitors with
  | [] => []
  | competitor :: competitors' =>
      let domain := competitor_domain competitor in
      if negb (str_truthy domain) || bool_decide (domain ∈ seen_domains)
      then enrich_from observations_by_domain seen_domains competitors'
      else enrich (default [] (assoc domain observations_by_domain)) competitor
           :: enrich_from observations_by_domain (domain :: seen_domains) competitors'
  end.

Definition enrich_competitors (competitors : list (CompetitorMetric A)) : list (CompetitorMetric A) :=
  enrich_from (_serp_observations_by_domain serp_snapshots) [] competitors.
End enrich.
