(* ===== verification/CompetitorsTheorems.v ===== *)
(** * CompetitorsTheorems: one lookup per domain, for the best placed domains *)
From S2P Require Import Prelude Text Services Binary64 Numbers Demand Scoring ScoringProofs Planning Keywords EvidenceQuality.
From S2P Require Import SerpClassification Competitors.
From Stdlib Require Import QArith Lqa.
#[global] Open Scope Z_scope.

(** ** The order of observations *)

Lemma string_lt_trans s t u : String.compare s t = Lt → String.compare t u = Lt → String.compare s u = Lt.
Proof.
  revert t u. induction s as [|a s IH]; intros [|b t] [|c u]; simpl; try done.
  unfold Ascii.compare.
  destruct (N.compare_spec (Ascii.N_of_ascii a) (Ascii.N_of_ascii b)) as [Hab|Hab|Hab]; try done;
    destruct (N.compare_spec (Ascii.N_of_ascii b) (Ascii.N_of_ascii c)) as [Hbc|Hbc|Hbc]; try done; intros H1 H2.
  - rewrite (proj2 (N.compare_eq_iff _ _)) by congruence. by apply (IH t).
  - by rewrite (proj2 (N.compare_lt_iff _ _)) by (rewrite Hab; done).
  - by rewrite (proj2 (N.compare_lt_iff _ _)) by (rewrite <- Hbc; done).
  - by rewrite (proj2 (N.compare_lt_iff _ _)) by (etransitivity; done).
Qed.

Lemma string_leb_trans s t u : String.leb s t = true → String.leb t u = true → String.leb s u = true.
Proof.
  unfold String.leb. destruct (String.compare s t) eqn:Hst; [apply String.compare_eq_iff in Hst as ->; done| |done].
  destruct (String.compare t u) eqn:Htu; [apply String.compare_eq_iff in Htu as <-; by rewrite Hst| |done].
  by rewrite (string_lt_trans s t u).
Qed.

Lemma observation_leb_total x y : observation_leb x y = true ∨ observation_leb y x = true.
Proof.
  unfold observation_leb. rewrite (Z.compare_antisym (ob_position x) (ob_position y)).
  destruct (Z.compare _ _); simpl; [|by left|by right]. rewrite (String.compare_antisym (ob_query y) (ob_query x)).
  destruct (String.compare (ob_query x) (ob_query y)); simpl; [|by left|by right].
  unfold String.leb. rewrite (String.compare_antisym (ob_url y) (ob_url x)).
  destruct (String.compare (ob_url x) (ob_url y)); simpl; auto.
Qed.

Lemma observation_leb_trans x y z :
  observation_leb x y = true → observation_leb y z = true → observation_leb x z = true.
Proof.
  unfold observation_leb.
  destruct (Z.compare_spec (ob_position x) (ob_position y)) as [Hxy|Hxy|Hxy]; try done;
    destruct (Z.compare_spec (ob_position y) (ob_position z)) as [Hyz|Hyz|Hyz]; try done; intros H1 H2.
  - rewrite Hxy, Hyz, Z.compare_refl.
    destruct (String.compare (ob_query x) (ob_query y)) eqn:E1; [apply String.compare_eq_iff in E1 as -> | |done].
    + destruct (String.compare (ob_query y) (ob_query z)); [|done|done]. by apply (string_leb_trans _ (ob_url y)).
    + destruct (String.compare (ob_query y) (ob_query z)) eqn:E2; [apply String.compare_eq_iff in E2 as <-; by rewrite E1| |done].
      by rewrite (string_lt_trans _ _ _ E1 E2).
  - rewrite (proj2 (Z.compare_lt_iff _ _)) by lia. done.
  - rewrite (proj2 (Z.compare_lt_iff _ _)) by lia. done.
  - rewrite (proj2 (Z.compare_lt_iff _ _)) by lia. done.
Qed.

Lemma sorted_observations l : StronglySorted (λ x y, observation_leb x y = true) (sort_by observation_leb l).
Proof. apply sort_by_sorted; [apply observation_leb_total|apply observation_leb_trans]. Qed.

Lemma best_observation_spec l :
  match best_observation l with
  | Some o => o ∈ l ∧ ∀ o', o' ∈ l → observation_leb o o' = true
  | None => l = []
  end.
Proof.
  unfold best_observation. pose proof (sorted_observations l) as Hs. pose proof (sort_by_perm observation_leb l) as Hp.
  destruct (sort_by observation_leb l) as [|o l']; simpl; [by apply Permutation_nil in Hp|].
  split; [rewrite <- Hp; by left|]. intros o'. rewrite <- Hp. apply StronglySorted_inv in Hs as [_ Hs].
  intros [->|Ho]%elem_of_cons; [by destruct (observation_leb_total o o)|]. by eapply (proj1 (Forall_forall _ _) Hs).
Qed.

Lemma NoDup_fst_unique {K T} (l : list (K * T)) k x y : NoDup l.*1 → (k, x) ∈ l → (k, y) ∈ l → x = y.
Proof.
  induction l as [|[k' z] l IH]; [by intros _ ?%not_elem_of_nil|]. rewrite fmap_cons, NoDup_cons. cbn [fst].
  intros [Hk Hnd]. assert (∀ t, (k', t) ∈ l → False) as Hno by (intros t Ht; apply Hk, (list_elem_of_fmap_2 fst _ _ Ht)).
  rewrite !elem_of_cons. intros [Hx|Hx] [Hy|Hy]; simplify_eq; [done|exfalso; by eapply Hno..|by apply IH].
Qed.

(** A sort of images is the image of the sort. *)
Lemma sort_by_map {T U} (f : T → U) (leb : U → U → bool) l :
  sort_by leb (map f l) = map f (sort_by (λ x y, leb (f x) (f y)) l).
Proof.
  unfold sort_by. induction l as [|x l IH]; [done|]. simpl. rewrite IH.
  generalize (foldr (insert_by (λ x y, leb (f x) (f y))) [] l). intros k.
  induction k as [|y k IHk]; simpl; [done|]. destruct (leb (f x) (f y)); [done|]. simpl. by rewrite IHk.
Qed.

(** ** Observations by domain *)

(** The organic results of a scan that have a domain *)
Definition observed (serp_snapshots : list SerpSnapshot) (domain : string) (o : CompetitorSerpObservation) : Prop :=
  ∃ snapshot result, snapshot ∈ serp_snapshots ∧ result ∈ ss_results snapshot ∧ is_organic_result result = true
  ∧ domain = result_domain result ∧ str_truthy domain = true ∧ o = observation_of (ss_query snapshot) result.

(** The groups hold what was seen. *)
Definition groups_hold (state : list (string * CompetitorSerpObservation) * by_domain) : Prop :=
  NoDup state.2.*1 ∧ (∀ d l, (d, l) ∈ state.2 → l ≠ []) ∧
  ∀ d o, (∃ l, (d, l) ∈ state.2 ∧ o ∈ l) ↔ (d, o) ∈ state.1.

Lemma add_observation_keys d o grouped :
  (add_observation d o grouped).*1 = grouped.*1 ++ (if bool_decide (d ∈ grouped.*1) then [] else [d]).
Proof.
  induction grouped as [|[k l] grouped IH]; [done|]. cbn [add_observation].
  destruct (bool_decide (k = d)) eqn:Hk; bools; rewrite ?fmap_cons; cbn [fst].
  - subst k. rewrite bool_decide_eq_true_2 by set_solver. by rewrite app_nil_r.
  - rewrite IH, <- app_comm_cons. do 2 f_equal. case_bool_decide; case_bool_decide; set_solver.
Qed.

Lemma add_observation_elem d o grouped d' l :
  (d', l) ∈ add_observation d o grouped →
  (d', l) ∈ grouped ∨ d' = d ∧ l ≠ [] ∧ ∀ o', o' ∈ l → o' = o ∨ ∃ l', (d, l') ∈ grouped ∧ o' ∈ l'.
Proof.
  induction grouped as [|[k l0] grouped IH]; cbn [add_observation].
  - intros [= -> ->]%list_elem_of_singleton. right. split_and!; [done|done|]. intros o' ->%list_elem_of_singleton. by left.
  - case_bool_decide as Hk.
    + intros [[= -> ->]|Hin]%elem_of_cons; [|left; by right]. right. subst k. split_and!; [done|by destruct l0|].
      intros o' [Ho| ->%list_elem_of_singleton]%elem_of_app; [|by left]. right. exists l0. split; [by left|done].
    + intros [[= -> ->]|Hin]%elem_of_cons; [left; by left|].
      destruct (IH Hin) as [|(-> & Hne & Ho)]; [left; by right|]. right. split_and!; [done|done|].
      intros o' Ho'. destruct (Ho o' Ho') as [|(l' & ? & ?)]; [by left|]. right. exists l'. split; [by right|done].
Qed.

Lemma add_observation_has d o grouped d' o' :
  (d' = d ∧ o' = o) ∨ (∃ l, (d', l) ∈ grouped ∧ o' ∈ l) → ∃ l, (d', l) ∈ add_observation d o grouped ∧ o' ∈ l.
Proof.
  induction grouped as [|[k l0] grouped IH]; cbn [add_observation].
  - intros [[-> ->]|(l & Hl%not_elem_of_nil & _)]; [|done]. exists [o]. split; by apply list_elem_of_singleton.
  - case_bool_decide as Hk.
    + subst k. intros [[-> ->]|(l & [[= -> ->]|Hl]%elem_of_cons & Ho)].
      * exists (l0 ++ [o]). split; [by left|]. apply elem_of_app. right. by apply list_elem_of_singleton.
      * exists (l0 ++ [o]). split; [by left|]. apply elem_of_app. by left.
      * exists l. split; [by right|done].
    + intros [Heq|(l & [[= -> ->]|Hl]%elem_of_cons & Ho)].
      * destruct (IH (or_introl Heq)) as (l & ? & ?). exists l. split; [by right|done].
      * exists l0. split; [by left|done].
      * destruct IH as (l' & ? & ?); [right; by exists l|]. exists l'. split; [by right|done].
Qed.

Lemma groups_hold_add d o seen grouped :
  groups_hold (seen, grouped) → groups_hold ((d, o) :: seen, add_observation d o grouped).
Proof.
  intros (Hnd & Hne & Hiff). cbn [fst snd] in *. split_and!; cbn [fst snd].
  - rewrite add_observation_keys. case_bool_decide as Hd; [by rewrite app_nil_r|].
    apply NoDup_app. split_and!; [done| |apply NoDup_singleton]. by intros x Hx ->%list_elem_of_singleton.
  - intros d' l [Hl|(_ & ? & _)]%add_observation_elem; [by apply (Hne d')|done].
  - intros d' o'. split.
    + intros (l & [Hl|(-> & _ & Ho)]%add_observation_elem & Hin).
      * right. apply Hiff. by exists l.
      * destruct (Ho o' Hin) as [->|(l' & ? & ?)]; [by left|]. right. apply Hiff. by exists l'.
    + intros [[= -> ->]|Hin]%elem_of_cons; apply add_observation_has; [by left|]. right. by apply Hiff.
Qed.

Lemma observe_holds query state result : groups_hold state → groups_hold (observe query state result).
Proof.
  intros Hg. unfold observe. destruct (negb _); [done|]. destruct (_ || _); [done|].
  destruct state. by apply groups_hold_add.
Qed.

Lemma observe_seen query state result d o :
  (d, o) ∈ (observe query state result).1 ↔
  (d, o) ∈ state.1 ∨ is_organic_result result = true ∧ d = result_domain result ∧ str_truthy d = true
                     ∧ o = observation_of query result.
Proof.
  unfold observe. destruct (is_organic_result result); cbn [negb]; [|split; [by left|by intros [|(? & _)]]].
  destruct (str_truthy (result_domain result)) eqn:Ht; cbn [negb orb].
  - case_bool_decide as Hs; cbn [fst]; [split; [by left|]; by intros [|(_ & -> & _ & ->)]|].
    rewrite elem_of_cons, pair_equal_spec. split; [intros [[-> ->]|]; auto|intros [|(_ & -> & _ & ->)]; auto].
  - split; [by left|]. intros [|(_ & -> & Hd & _)]; congruence.
Qed.

Lemma observe_results_hold query results state :
  groups_hold state → groups_hold (foldl (observe query) state results).
Proof. revert state. induction results as [|r results IH]; intros state Hg; [done|]. by apply IH, observe_holds. Qed.

Lemma observe_results_seen query results state d o :
  (d, o) ∈ (foldl (observe query) state results).1 ↔
  (d, o) ∈ state.1 ∨ ∃ r, r ∈ results ∧ is_organic_result r = true ∧ d = result_domain r ∧ str_truthy d = true
                          ∧ o = observation_of query r.
Proof.
  revert state. induction results as [|r results IH]; intros state; cbn [foldl].
  - split; [by left|]. intros [|(r & ?%not_elem_of_nil & _)]; done.
  - rewrite IH, observe_seen. setoid_rewrite elem_of_cons. naive_solver.
Qed.

Lemma observe_all_hold serp_snapshots : groups_hold (observe_all serp_snapshots).
Proof.
  unfold observe_all. assert (groups_hold ([], [])) as H0.
  { split_and!; [constructor|intros ? ? []%not_elem_of_nil|]. intros d o. cbn [fst snd].
    split; [by intros (l & []%not_elem_of_nil & _)|by intros []%not_elem_of_nil]. }
  revert H0. generalize (@nil (string * CompetitorSerpObservation), @nil (string * list CompetitorSerpObservation)).
  induction serp_snapshots as [|s l IH]; intros state Hg; [done|]. by apply IH, observe_results_hold.
Qed.

Lemma observe_all_seen serp_snapshots d o : (d, o) ∈ (observe_all serp_snapshots).1 ↔ observed serp_snapshots d o.
Proof.
  unfold observe_all, observed.
  enough (∀ state, (d, o) ∈ (foldl (λ state snapshot, foldl (observe (ss_query snapshot)) state (ss_results snapshot))
                                   state serp_snapshots).1
          ↔ (d, o) ∈ state.1 ∨ observed serp_snapshots d o) as Hs.
  { rewrite Hs. cbn [fst]. split; [intros [?%not_elem_of_nil|]; done|by right]. }
  induction serp_snapshots as [|s l IH]; intros state; cbn [foldl].
  - split; [by left|]. intros [|(s & r & ?%not_elem_of_nil & _)]; done.
  - rewrite IH, observe_results_seen. unfold observed. setoid_rewrite elem_of_cons. split.
    + intros [[Hs|(r & ? & ? & ? & ? & ?)]|(s' & r & ? & ?)]; [by left| |]; right; [exists s, r|exists s', r]; auto 8.
    + intros [|(s' & r & [->|] & ? & ? & ? & ? & ?)]; [by left; left|left; right; by exists r|].
      right. exists s', r. auto 8.
Qed.

(** The groups a caller sees: one for each domain, its observations in the order of the place *)
Lemma by_domain_spec serp_snapshots :
  let groups := _serp_observations_by_domain serp_snapshots in
  NoDup groups.*1
  ∧ (∀ d l, (d, l) ∈ groups → l ≠ [] ∧ StronglySorted (λ x y, observation_leb x y = true) l
                              ∧ ∀ o, o ∈ l ↔ observed serp_snapshots d o)
  ∧ ∀ d o, observed serp_snapshots d o → ∃ l, (d, l) ∈ groups.
Proof.
  cbv zeta. unfold _serp_observations_by_domain. destruct (observe_all_hold serp_snapshots) as (Hnd & Hne & Hiff).
  split_and!.
  - replace (map _ _).*1 with (observe_all serp_snapshots).2.*1; [done|].
    rewrite <- list_fmap_compose. by apply list_fmap_ext.
  - intros d l ([d' l'] & [= -> ->] & Hin)%list_elem_of_fmap. cbn [fst snd] in *. split_and!.
    + intros E. apply (Hne _ _ Hin). apply Permutation_nil. by rewrite <- E, sort_by_perm.
    + apply sorted_observations.
    + intros o. rewrite sort_by_perm, <- observe_all_seen, <- Hiff. split; [intros ?; by exists l'|].
      intros (l2 & Hl2 & Ho). enough (l2 = l') as -> by done.
      exact (NoDup_fst_unique _ _ _ _ Hnd Hl2 Hin).
  - intros d o Ho. apply observe_all_seen, Hiff in Ho as (l & Hl & _).
    exists (sort_by observation_leb l). apply list_elem_of_fmap. by exists (d, l).
Qed.

(** ** The representatives *)

Definition representatives (serp_snapshots : list SerpSnapshot) : list (string * CompetitorSerpObservation) :=
  omap (λ group, pair group.1 <$> best_observation group.2) (_serp_observations_by_domain serp_snapshots).
Definition placed_before (x y : string * CompetitorSerpObservation) : bool := observation_leb x.2 y.2.

(** The best place a domain was seen at *)
Definition best_of (serp_snapshots : list SerpSnapshot) (x : string * CompetitorSerpObservation) : Prop :=
  observed serp_snapshots x.1 x.2 ∧ ∀ o, observed serp_snapshots x.1 o → observation_leb x.2 o = true.

Lemma representatives_domains serp_snapshots :
  (representatives serp_snapshots).*1 = (_serp_observations_by_domain serp_snapshots).*1.
Proof.
  destruct (by_domain_spec serp_snapshots) as (_ & Hg & _). revert Hg. unfold representatives.
  induction (_serp_observations_by_domain serp_snapshots) as [|[d l] groups IH]; intros Hg; [done|]. cbn.
  destruct (Hg d l) as [Hne _]; [by left|].
  pose proof (best_observation_spec l) as Hb. destruct (best_observation l) as [o|]; [|done]. cbn. f_equal.
  apply IH. intros d' l' Hin. apply Hg. by right.
Qed.

Lemma representatives_spec serp_snapshots :
  NoDup (representatives serp_snapshots).*1
  ∧ (∀ x, x ∈ representatives serp_snapshots → best_of serp_snapshots x)
  ∧ ∀ d o, observed serp_snapshots d o → ∃ x, x ∈ representatives serp_snapshots ∧ x.1 = d.
Proof.
  rewrite representatives_domains. destruct (by_domain_spec serp_snapshots) as (Hnd & Hg & Hall). split_and!; [done| |].
  - intros x ([d l] & Hin & Hx)%list_elem_of_omap. cbn [fst snd] in *. destruct (Hg d l Hin) as (_ & _ & Hl).
    pose proof (best_observation_spec l) as Hb. destruct (best_observation l) as [o|]; [|done].
    cbn in Hx. injection Hx as <-. destruct Hb as [Ho Hmin]. split; cbn [fst snd]; [by apply Hl|].
    intros o' Ho'. by apply Hmin, Hl.
  - intros d o Ho. destruct (Hall d o Ho) as (l & Hl).
    apply (list_elem_of_fmap_2 fst) in Hl. cbn [fst] in Hl. rewrite <- representatives_domains in Hl.
    apply list_elem_of_fmap in Hl as (x & -> & Hx). by exists x.
Qed.

Lemma selected_representatives serp_snapshots limit :
  select_competitor_urls serp_snapshots limit
  = map (λ x, ob_url x.2) (take limit (sort_by placed_before (representatives serp_snapshots))).
Proof.
  unfold select_competitor_urls, placed_before.
  replace (omap _ _) with (map snd (representatives serp_snapshots)).
  - rewrite sort_by_map, firstn_map, map_map. done.
  - unfold representatives. induction (_serp_observations_by_domain serp_snapshots) as [|[d l] groups IH]; [done|].
    cbn. destruct (best_observation l); cbn; [f_equal|]; done.
Qed.

Lemma sorted_split {T} (leb : T → T → bool) n (l : list T) x y :
  StronglySorted (λ a b, leb a b = true) l → x ∈ take n l → y ∈ drop n l → leb x y = true.
Proof.
  revert n. induction l as [|z l IH]; intros [|n] Hs; cbn [take drop].
  1-3: by intros ?%not_elem_of_nil.
  apply StronglySorted_inv in Hs as [Hs Hz]. intros [->|Hx]%elem_of_cons Hy; [|by eapply IH].
  eapply (proj1 (Forall_forall _ _) Hz). rewrite <- (take_drop n). apply elem_of_app. by right.
Qed.

Lemma sorted_take {T} (leb : T → T → bool) n (l : list T) :
  StronglySorted (λ a b, leb a b = true) l → StronglySorted (λ a b, leb a b = true) (take n l).
Proof.
  revert n. induction l as [|z l IH]; intros [|n] Hs; cbn [take]; [constructor..|].
  apply StronglySorted_inv in Hs as [Hs Hz]. constructor; [by apply IH|].
  apply Forall_forall. intros x Hx. apply (proj1 (Forall_forall _ _) Hz). rewrite <- (take_drop n). apply elem_of_app. by left.
Qed.

(** C24: The pages [select_competitor_urls] pays for are those of the best placed domains.
    They belong to pairwise different domains, at most [limit] of them; each is the best
    place at which an organic result of its domain was seen, in the order of the place, the
    query and the address; the list is in that order; and a domain that was seen is left out
    only when [limit] domains placed no worse are chosen. *)
Theorem best_placed_domains_are_selected serp_snapshots limit :
  ∃ chosen : list (string * CompetitorSerpObservation),
    select_competitor_urls serp_snapshots limit = map (λ x, ob_url x.2) chosen
    ∧ (length chosen ≤ limit)%nat ∧ NoDup chosen.*1
    ∧ (∀ x, x ∈ chosen → best_of serp_snapshots x)
    ∧ StronglySorted (λ x y, observation_leb x.2 y.2 = true) chosen
    ∧ ∀ d o, observed serp_snapshots d o →
        d ∈ chosen.*1 ∨ length chosen = limit ∧ ∀ x, x ∈ chosen → observation_leb x.2 o = true.
Proof.
  exists (take limit (sort_by placed_before (representatives serp_snapshots))).
  destruct (representatives_spec serp_snapshots) as (Hnd & Hbest & Hall).
  assert (StronglySorted (λ x y, placed_before x y = true) (sort_by placed_before (representatives serp_snapshots))) as Hs.
  { apply sort_by_sorted; [intros; apply observation_leb_total|intros x y z; apply observation_leb_trans]. }
  pose proof (sort_by_perm placed_before (representatives serp_snapshots)) as Hp.
  set (sorted := sort_by placed_before _) in *. split_and!.
  - apply selected_representatives.
  - rewrite length_take. lia.
  - rewrite <- Hp in Hnd. rewrite <- (take_drop limit sorted), fmap_app in Hnd. by apply NoDup_app in Hnd as [? _].
  - intros x Hx. apply Hbest. rewrite <- Hp, <- (take_drop limit sorted). apply elem_of_app. by left.
  - by apply sorted_take.
  - intros d o Ho. destruct (Hall d o Ho) as (x & Hx & <-). rewrite <- Hp, <- (take_drop limit sorted) in Hx.
    apply elem_of_app in Hx as [Hx|Hx]; [left; by apply list_elem_of_fmap_2|]. right. split.
    + rewrite length_take. enough (limit ≤ length sorted)%nat by lia.
      assert (drop limit sorted ≠ []) as Hne by (intros E; rewrite E in Hx; by apply not_elem_of_nil in Hx).
      destruct (decide (limit ≤ length sorted)%nat); [done|]. destruct Hne. apply drop_ge. lia.
    + intros y Hy. apply (observation_leb_trans _ x.2); [by apply (sorted_split placed_before limit sorted)|].
      apply Hbest; [|done]. rewrite <- Hp, <- (take_drop limit sorted). apply elem_of_app. by right.
Qed.

(** ** Enrichment *)

Section enriched.
Context {A : Type} `{Num A}.
Context (serp_snapshots : list SerpSnapshot) (service : ServiceFamily) (market : Planning.Market).

(** A domain is compared once, and the order of the provider is kept. *)
Lemma enriched_domains observations_by_domain seen competitors :
  let out := enrich_from serp_snapshots service market observations_by_domain seen competitors in
  NoDup (map competitor_domain out) ∧ (∀ d, d ∈ map competitor_domain out → d ∉ seen ∧ str_truthy d = true)
  ∧ map competitor_domain out `sublist_of` map (competitor_domain (A := A)) competitors.
Proof.
  cbv zeta. revert seen. induction competitors as [|c competitors IH]; intros seen; cbn [enrich_from map].
  { split_and!; [constructor|by intros ? ?%not_elem_of_nil|constructor]. }
  destruct (negb _ || _) eqn:Hc.
  - destruct (IH seen) as (? & ? & ?). split_and!; [done|done|by apply sublist_cons].
  - destruct (IH (competitor_domain c :: seen)) as (Hnd & Hin & Hsub). apply orb_false_iff in Hc as [Ht Hs]. bools.
    cbn [map]. change (competitor_domain (enrich _ _ _ _ c)) with (competitor_domain c).
    split_and!.
    + apply NoDup_cons. split; [intros Hd; apply Hin in Hd as [[]%not_elem_of_cons _]; done|done].
    + intros d [->|Hd]%elem_of_cons; [done|]. destruct (Hin d Hd) as [[_ ?]%not_elem_of_cons ?]. done.
    + by apply sublist_skip.
Qed.
End enriched.

Module CompetitorRun.
Definition organic (order : Z) (url : string) : SerpResult := {|
  sr_order := order; sr_result_type := "organic"; sr_url := url; sr_domain := ""; sr_title := ""; sr_description := "";
  sr_classification := "unknown"; sr_is_local_provider := false; sr_is_directory := false; sr_is_national_brand := false;
  sr_is_lead_generation_site := false; sr_classification_confidence := None; sr_matched_rules := [];
  sr_manual_override := None |}.
Definition page (query : string) (results : list SerpResult) : SerpSnapshot := {|
  ss_query := query; ss_captured_at := Aware 0 0; ss_features_present := []; ss_results := results |}.
Definition pages : list SerpSnapshot :=
  [page "boise gutters" [organic 1 "https://www.yelp.com/a"; organic 2 "https://a.example/"; organic 3 "https://b.example/"];
   page "gutter repair" [organic 1 "https://b.example/repair"; organic 4 "https://yelp.com/b"]]%string.

(** Two addresses of a directory are one domain, and [b.example] is taken at its better place. *)
Example chosen_pages :
  select_competitor_urls pages 2 = ["https://www.yelp.com/a"; "https://b.example/repair"]%string
  ∧ select_competitor_urls pages 9
    = ["https://www.yelp.com/a"; "https://b.example/repair"; "https://a.example/"]%string
  ∧ select_competitor_urls pages 0 = [].
Proof. split_and!; vm_compute; reflexivity. Qed.
End CompetitorRun.
