(* ===== verification/ScanPipeline.v ===== *)
(** * ScanPipeline: a scan from its claim to its published result (services/scanner.py, services/records.py)

    [run] plans the scan, asks the research provider stage by stage, scores what it answered
    and publishes the result.  It ties the components together: the plan, the keywords, the
    classification of results, the competitors, the ratings of providers, the evidence check,
    the score, the review and the scan's row.

    The pipeline keeps one session open while it waits for the provider.  [wd_tables] is the
    database as this session sees it, [wd_base] the committed state, which is what a rollback
    returns to; they differ by what is not committed.  An answer of the provider is an
    arbitrary computation on the committed state and the clock ([Await]): it stands for what
    the provider writes and for everything other processes commit meanwhile.  Time passes
    only there.  Each question is recorded with its answer and the state it was asked in
    ([wd_asked]); the program keeps no such record.

    The session keeps the rows it has loaded ([expire_on_commit] is off): the opportunity is
    read once, and every later read and transition sees that copy ([wd_loaded]).  What is
    written are the columns that changed in the copy.  The row of the scan is read anew
    before it matters ([refresh]).

    Left out: [build_site], which no caller sets, with its domains, drafts and site; the
    payloads of the artifacts and the report for the reader; metrics and log events; the
    names and versions of the adapters.  A worker whose heartbeat loses the lease cancels the
    task; such a run ends at the question it waits for. *)
From S2P Require Import Prelude Security.
From S2P Require Import Text Services Binary64 Numbers Scoring Schema ScanLeases OpportunityReview ScanWorker Planning.
From S2P Require Import DiscoveryBatches ScanRequests Demand Keywords EvidenceQuality ProviderRating SerpClassification Competitors.
#[global] Open Scope Z_scope.

#[export] Instance spec_float_eq_dec : EqDecision SpecFloat.spec_float.
Proof. solve_decision. Defined.
#[export] Instance EvidenceStatus_eq_dec : EqDecision EvidenceStatus.
Proof. solve_decision. Defined.

(** ** Rows *)

(** What [save_scan_records] stores for a scan *)
Record SavedRecords (A : Type) : Type := {
  sv_clusters : list KeywordCluster;
  sv_decisions : list (KeywordDecision A);
  sv_metrics : list (KeywordMetric A);
  sv_serp_snapshots : list SerpSnapshot;
  sv_competitors : list (CompetitorMetric A);
  sv_providers : list (ProviderCandidate A)
}.
Arguments sv_clusters {A}. Arguments sv_decisions {A}. Arguments sv_metrics {A}. Arguments sv_serp_snapshots {A}.
Arguments sv_competitors {A}. Arguments sv_providers {A}.

Record JsonArtifact : Type := { ja_opportunity_id : Z; ja_scan_run_id : Z; ja_kind : string }.

Record PreliminaryAssessment : Type := {
  pa_scan_run_id : Z;
  pa_opportunity_id : Z;
  pa_scoring_version : string;
  pa_confidence : string;
  pa_missing_components : list string
}.

Record ScoreComponentRow (A : Type) : Type := {
  scr_scan_run_id : Z;
  scr_component : Component;
  scr_score : A
}.
Arguments Build_ScoreComponentRow {A}.

Record Tables (A USD C : Type) : Type := {
  tb_front : Front USD C;
  tb_records : gmap Z (SavedRecords A);
  tb_artifacts : list JsonArtifact;
  tb_preliminary_assessments : list PreliminaryAssessment;
  tb_score_components : list (ScoreComponentRow A)
}.
Arguments tb_front {A USD C}. Arguments tb_records {A USD C}. Arguments tb_artifacts {A USD C}.
Arguments tb_preliminary_assessments {A USD C}. Arguments tb_score_components {A USD C}. Arguments Build_Tables {A USD C}.
#[export] Instance eta_Tables A USD C : Eta (Tables A USD C) := λ r,
  Build_Tables (tb_front r) (tb_records r) (tb_artifacts r) (tb_preliminary_assessments r) (tb_score_components r).

(** ** The provider and the world *)

Inductive Call : Type :=
| DiscoverKeywords
| GetKeywordMetrics (keywords : list string)
| GetSerpSnapshot (keyword : string)
| GetCompetitorMetrics (urls : list string)
| FindProviders.

Inductive run_error : Type := Handled (e : request_error) | Arithmetic (e : score_error).
Definition failure (e : exn) : run_error := Handled (Internal (Failure e)).

Abbreviation Await USD C T := (M (Front USD C * Z) run_error T).

(** The protocol [MarketResearchProvider], without [resolve_location] *)
Record MarketResearchProvider (A USD C : Type) : Type := {
  discover_keywords : ServiceFamily → Planning.Market → Await USD C (list KeywordCandidate);
  get_keyword_metrics : list string → Planning.Market → Await USD C (list (KeywordMetric A));
  get_serp_snapshot : string → Planning.Market → Await USD C SerpSnapshot;
  get_competitor_metrics : list string → Await USD C (list (CompetitorMetric A));
  find_providers : ServiceFamily → Planning.Market → Await USD C (list (ProviderCandidate A))
}.
Arguments discover_keywords {A USD C}. Arguments get_keyword_metrics {A USD C}. Arguments get_serp_snapshot {A USD C}.
Arguments get_competitor_metrics {A USD C}. Arguments find_providers {A USD C}.

(** What the provider answered; [Refused] when it raised *)
Inductive Reply (A : Type) : Type :=
| Suggested (candidates : list KeywordCandidate)
| Measured (metrics : list (KeywordMetric A))
| Page (snapshot : SerpSnapshot)
| Compared (competitors : list (CompetitorMetric A))
| Listed (providers : list (ProviderCandidate A))
| Refused.
Arguments Suggested {A}. Arguments Measured {A}. Arguments Page {A}. Arguments Compared {A}. Arguments Listed {A}.
Arguments Refused {A}.

(** A question and its answer, the session and the committed state when it was asked, and
    the time *)
Record Asked (A USD C : Type) : Type := {
  aq_call : Call;
  aq_reply : Reply A;
  aq_tables : Tables A USD C;
  aq_base : Tables A USD C;
  aq_now : Z
}.
Arguments aq_call {A USD C}. Arguments aq_reply {A USD C}. Arguments aq_tables {A USD C}. Arguments aq_base {A USD C}. Arguments aq_now {A USD C}.

Record World (A USD C : Type) : Type := {
  wd_tables : Tables A USD C;
  wd_base : Tables A USD C;
  wd_loaded : gmap Z Opportunity;
  wd_now : Z;
  wd_asked : list (Asked A USD C)
}.
Arguments wd_tables {A USD C}. Arguments wd_base {A USD C}. Arguments wd_loaded {A USD C}. Arguments wd_now {A USD C}.
Arguments wd_asked {A USD C}. Arguments Build_World {A USD C}.
#[export] Instance eta_World A USD C : Eta (World A USD C) := λ r,
  Build_World (wd_tables r) (wd_base r) (wd_loaded r) (wd_now r) (wd_asked r).

(** ** The pipeline and what it is given *)

Record ScanPipeline : Type := {
  pp_data_mode : DataMode;
  pp_scan_profile : string;
  pp_execution_lease : option ScanExecutionLease
}.

(** Settings, configurations and the arguments of the model *)
Record Surroundings (A USD C : Type) : Type := {
  en_settings : RequestSettings USD;
  en_provider : MarketResearchProvider A USD C;
  en_provider_name : string;
  en_domain_provider_name : string;
  en_services : ServiceCatalog;
  en_scoring_version : string;
  en_scoring : ScoringConfig A;
  en_estimator : MarketDemandEstimator A;
  en_rating : RatingConfig A;
  en_quality : EvidenceQualityConfig A;
  en_serp_rules : SerpRules;
  en_prefilter : ServiceFamily → Planning.Market → json;
  en_plan_json : ScanPlan → json;
  en_dump_service : ServiceFamily → json;
  en_dump_market : Planning.Market → json;
  en_dump_score : OpportunityScore (A := A) → gmap string json;
  en_dump_quality : EvidenceQualityAssessment A → json;
  en_error_text : run_error → string;
  en_fixed_1 : A → string;
  en_py_float : A → string;
  en_of_float : binary64 → A;
  en_to_float : A → binary64
}.
Arguments en_settings {A USD C}. Arguments en_provider {A USD C}. Arguments en_provider_name {A USD C}.
Arguments en_domain_provider_name {A USD C}. Arguments en_services {A USD C}. Arguments en_scoring_version {A USD C}.
Arguments en_scoring {A USD C}. Arguments en_estimator {A USD C}. Arguments en_rating {A USD C}.
Arguments en_quality {A USD C}. Arguments en_serp_rules {A USD C}. Arguments en_prefilter {A USD C}.
Arguments en_plan_json {A USD C}. Arguments en_dump_service {A USD C}. Arguments en_dump_market {A USD C}.
Arguments en_dump_score {A USD C}. Arguments en_dump_quality {A USD C}. Arguments en_error_text {A USD C}.
Arguments en_fixed_1 {A USD C}. Arguments en_py_float {A USD C}. Arguments en_of_float {A USD C}.
Arguments en_to_float {A USD C}.

(** [ScanPipeline.__init__] *)
Definition new_pipeline {USD} (settings : RequestSettings USD) (data_mode scan_profile : option string)
    (lease : option ScanExecutionLease) : result exn ScanPipeline :=
  match resolve_data_mode (or_str (default ""%string data_mode) (data_mode_setting settings)) with
  | None => Raise ConfigurationError
  | Some mode =>
      match Planning._scan_profile (or_str (default ""%string scan_profile)
              (live_scan_depth (planning_settings settings))) with
      | None => Raise (Schema.ValueError "scan_profile must be 'testing' or 'full'.")
      | Some profile => Ok {| pp_data_mode := mode; pp_scan_profile := profile; pp_execution_lease := lease |}
      end
  end.

(** ** The properties of the pipeline *)

Implicit Types (p : ScanPipeline).

Definition is_live p : bool := bool_decide (pp_data_mode p = live).
Definition testing_profile p : bool := bool_decide (pp_scan_profile p = "testing"%string).
Definition is_preliminary_assessment p : bool := is_live p && testing_profile p.
Definition assessment_type_of p : string := if is_preliminary_assessment p then "preliminary" else "full".
Definition serp_keyword_limit p : Z := if negb (is_live p) then 3 else if testing_profile p then 1 else 3.
Definition backlink_competitor_limit p : nat := if negb (is_live p) then 5 else if testing_profile p then 0 else 5.
Definition unavailable_components p : list string :=
  if is_preliminary_assessment p then ["backlink_competitor_metrics"; "full_serp_sample"]%string else [].

(** [profile.title()] of a lower-case word *)
Definition title_word (word : string) : string :=
  match word with
  | String c rest => String (upper_ascii c) rest
  | EmptyString => EmptyString
  end.

Section pipeline.
Context {A USD C : Type} `{Num A} `{Stats A} `{Trig A} `{Amount USD} `{DecimalMoney USD} `{RequestPlanner C}.
Abbreviation Front := (Front USD C).
Abbreviation World := (World A USD C).
Abbreviation Run T := (M World run_error T).
Implicit Types (w : World) (env : Surroundings A USD C).

(** ** The session *)

Definition wd_db w : Db USD := front_db (tb_front (wd_tables w)).
Definition base_db w : Db USD := front_db (tb_front (wd_base w)).

Definition with_error {T} {E E' : Type} (f : E → E') (r : result E T) : result E' T :=
  match r with Ok a => Ok a | Raise e => Raise (f e) end.

Definition on_front {T} (m : M Front request_error T) : Run T := λ w,
  let '(r, f) := m (tb_front (wd_tables w)) in
  (with_error Handled r, w <| wd_tables ::= λ t, t <| tb_front := f |> |>).

Definition set_db (db : Db USD) (t : Tables A USD C) : Tables A USD C :=
  t <| tb_front ::= λ f, f <| front_desk ::= λ d, d <| desk_db := db |> |> |>.

(** A column after the flush: the copy's value where the copy changed, else what is stored *)
Definition flushed_column {T} `{EqDecision T} (old new stored : T) : T := if decide (new = old) then stored else new.

(** The [UPDATE] of a loaded row: [old] as it was, [new] as the session left it *)
Definition flushed_row (old new stored : Opportunity) : Opportunity := {|
  opp_service_family_id := flushed_column (opp_service_family_id old) (opp_service_family_id new) (opp_service_family_id stored);
  opp_market_id := flushed_column (opp_market_id old) (opp_market_id new) (opp_market_id stored);
  opp_status := flushed_column (opp_status old) (opp_status new) (opp_status stored);
  opp_latest_score := flushed_column (opp_latest_score old) (opp_latest_score new) (opp_latest_score stored);
  opp_score_version := flushed_column (opp_score_version old) (opp_score_version new) (opp_score_version stored);
  opp_confidence := flushed_column (opp_confidence old) (opp_confidence new) (opp_confidence stored);
  opp_missing_data_flags :=
    flushed_column (opp_missing_data_flags old) (opp_missing_data_flags new) (opp_missing_data_flags stored);
  opp_approved_at := flushed_column (opp_approved_at old) (opp_approved_at new) (opp_approved_at stored);
  opp_owner_user_id := flushed_column (opp_owner_user_id old) (opp_owner_user_id new) (opp_owner_user_id stored);
  opp_review_version := flushed_column (opp_review_version old) (opp_review_version new) (opp_review_version stored) |}.

(** The stored rows after a session that had [loaded] left [seen] *)
Definition flushed (loaded seen stored : gmap Z Opportunity) : gmap Z Opportunity :=
  map_imap (λ i new, match loaded !! i with
                     | Some old => flushed_row old new <$> stored !! i
                     | None => Some new
                     end) seen.

(** A handler in the open session: it sees the loaded copies *)
Definition in_session {T} (m : Session USD T) : Run T := λ w,
  let db := wd_db w in
  let '(r, db') := m (db <| opportunities := wd_loaded w ∪ opportunities db |>) in
  (with_error failure r,
   w <| wd_tables ::= set_db (db' <| opportunities := flushed (wd_loaded w) (opportunities db') (opportunities db) |>) |>
     <| wd_loaded := map_imap (λ i _, opportunities db' !! i) (wd_loaded w) |>).

Definition load_opportunity (i : Z) : Run unit :=
  modify (λ w, match wd_loaded w !! i, opportunities (wd_db w) !! i with
               | None, Some o => w <| wd_loaded ::= insert i o |>
               | _, _ => w
               end).

Definition commit_session : Run unit := modify (λ w, w <| wd_base := wd_tables w |>).
Definition rollback_session : Run unit := modify (λ w, w <| wd_tables := wd_base w |> <| wd_loaded := ∅ |>).

(** A question to the provider *)
Definition ask {T} (call : Call) (reply : T → Reply A) (m : Await USD C T) : Run T := λ w,
  let '(r, (f, now)) := m (tb_front (wd_base w), wd_now w) in
  let t := (wd_base w) <| tb_front := f |> in
  let answer := match r with Ok a => reply a | Raise _ => Refused end in
  (r, w <| wd_asked ::= λ l, l ++ [{| aq_call := call; aq_reply := answer; aq_tables := wd_tables w;
                                     aq_base := wd_base w; aq_now := wd_now w |}] |>
        <| wd_tables := t |> <| wd_base := t |> <| wd_now := now |>).

(** ** Stages *)

(** [with_for_update] changes nothing in an atomic handler. *)
Definition _ensure_lease p : Run unit :=
  gets wd_now ≫= λ now, in_session (assert_optional_lease (pp_execution_lease p) now).

Definition _ensure_not_cancelled p (scan : Z) : Run unit :=
  _ensure_lease p ≫= λ _,
  in_session (get_scan scan) ≫= λ row,
  raise_if (sc_cancel_requested row) (failure ScanCancelled).

(** The update of the stage, which raises [ScanLeaseLost] when the lease does not match *)
Definition write_stage p (scan : Z) (stage : string) (now : Z) : Session USD unit :=
  match pp_execution_lease p with
  | Some lease => ScanWorker.set_stage lease stage now
  | None => update_scan scan (λ s, s <| sc_progress_stage := stage |>
              <| sc_partial_outputs ::= outputs [("last_successful_stage", JStr stage)]%string |>)
  end.

Definition or_rollback {T} (m : Run T) : Run T := λ w,
  match m w with
  | (Raise e, w') => (Raise e, (rollback_session w').2)
  | r => r
  end.

Definition _set_stage p (scan : Z) (stage : string) : Run unit :=
  gets wd_now ≫= λ now,
  or_rollback (in_session (write_stage p scan stage now)) ≫= λ _,
  commit_session.

(** ** Starting *)

Record Started : Type := { st_opportunity : Z; st_scan : Z; st_plan : ScanPlan }.

Definition evidence_source_mode p env : string :=
  match pp_data_mode p with
  | live =>
      if bool_decide (py_lower (py_strip (dataforseo_environment (planning_settings (en_settings env)))) = "production"%string)
      then "live" else "sandbox"
  | mode => mode_value mode
  end.

(** The row of a scan that was not queued, before its columns are set *)
Definition new_scan (opportunity : Z) (source : string) : ScanRun := {|
  sc_opportunity_id := Some opportunity; sc_source := source; sc_status := SPending; sc_started_at := None;
  sc_completed_at := None; sc_error_summary := None; sc_request_parameters := ∅; sc_data_mode := "fixture";
  sc_scan_profile := "testing"; sc_source_scan_run_id := None; sc_progress_stage := "queued"; sc_partial_outputs := ∅;
  sc_retry_count := 0; sc_max_attempts := 4; sc_next_attempt_at := None; sc_cancel_requested := false;
  sc_worker_id := None; sc_lease_token := None; sc_claimed_at := None; sc_heartbeat_at := None;
  sc_lease_expires_at := None; sc_quarantined_at := None; sc_quarantine_reason := None |}.

Definition live_environment p env : json :=
  if is_live p then JStr (dataforseo_environment (planning_settings (en_settings env))) else JNull.
Definition live_depth p : json := if is_live p then JStr (pp_scan_profile p) else JNull.

Definition request_parameters_of p env (service : ServiceFamily) (market : Planning.Market) (plan : ScanPlan)
    : gmap string json := list_to_map
  [("service", json_opt JStr (fam_slug service)); ("market", json_opt JStr (mt_slug market));
   ("data_mode", JStr (mode_value (pp_data_mode p))); ("scan_profile", JStr (pp_scan_profile p));
   ("evidence_source_mode", JStr (evidence_source_mode p env)); ("dataforseo_environment", live_environment p env);
   ("live_scan_depth", live_depth p); ("scan_plan", en_plan_json env plan);
   ("service_payload", en_dump_service env service); ("market_payload", en_dump_market env market);
   ("final_market_payload", en_dump_market env market);
   ("public_data_prefilter", en_prefilter env service market)]%string.

Definition prepared_scan p env (opportunity : Z) (source : string) (service : ServiceFamily) (market : Planning.Market)
    (plan : ScanPlan) (now : Z) (scan : ScanRun) : ScanRun :=
  scan <| sc_opportunity_id := Some opportunity |> <| sc_source := source |> <| sc_status := SRunning |>
       <| sc_data_mode := mode_value (pp_data_mode p) |> <| sc_scan_profile := pp_scan_profile p |>
       <| sc_progress_stage := "planning"%string |> <| sc_started_at := Some now |> <| sc_completed_at := None |>
       <| sc_error_summary := None |> <| sc_request_parameters := request_parameters_of p env service market plan |>.

Definition prepared_columns p env (plan : ScanPlan) : ScanColumns USD := {|
  scc_estimated_cost_usd := decimal_to_float (sp_estimated_uncached_cost_usd plan);
  scc_planned_cost_usd := decimal_to_float (sp_estimated_uncached_cost_usd plan);
  scc_cache_policy_version := "v2";
  scc_integration_versions :=
    [("data_mode", JStr (mode_value (pp_data_mode p))); ("evidence_source_mode", JStr (evidence_source_mode p env));
     ("dataforseo_environment", live_environment p env); ("market_research_provider", JStr (en_provider_name env));
     ("domain_provider", JStr (en_domain_provider_name env)); ("live_scan_depth", live_depth p);
     ("cache_policy_version", JStr "v2")]%string |}.

(** [session.get(ScanRunORM, existing_scan_id) if existing_scan_id else None] *)
Definition existing_scan (existing_scan_id : option Z) (db : Db USD) : option (Z * ScanRun) :=
  match existing_scan_id with
  | Some i => if i =? 0 then None else pair i <$> scan_runs db !! i
  | None => None
  end.

Definition _prepare_scan_run p env (existing_scan_id : option Z) (opportunity : Z) (source : string)
    (service : ServiceFamily) (market : Planning.Market) (plan : ScanPlan) : Run Z :=
  _ensure_lease p ≫= λ _,
  gets wd_now ≫= λ now,
  gets (λ w, default (next_id (scan_runs (wd_db w)), new_scan opportunity source)
               (existing_scan existing_scan_id (wd_db w))) ≫= λ '(scan, row),
  on_front (insert_scan scan (prepared_scan p env opportunity source service market plan now row)
              (prepared_columns p env plan)) ≫= λ _,
  in_session (modify (λ db, db <| scan_actual_costs ::= insert scan amt_zero |>)) ≫= λ _,
  mret scan.

(** What [run] does before its [try] *)
Definition start p env (service : ServiceFamily) (market : Planning.Market) (source : string)
    (existing_scan_id : option Z) : Run Started :=
  _ensure_lease p ≫= λ _,
  gets wd_now ≫= λ now,
  on_front (plan_scan_request (pp_data_mode p) service market (pp_scan_profile p) now) ≫= λ plan,
  raise_if (sp_blocked plan) (failure RuntimeError) ≫= λ _,
  on_front (upsert_service service) ≫= λ service_id,
  on_front (upsert_market market) ≫= λ market_id,
  on_front (ScanRequests.get_or_create_opportunity service_id market_id) ≫= λ opportunity,
  load_opportunity opportunity ≫= λ _,
  in_session (transition_system opportunity
    (if is_preliminary_assessment p then testing_running else full_running) "scan_started"
    (title_word (pp_scan_profile p) +:+ " scan execution started.") now) ≫= λ _,
  _prepare_scan_run p env existing_scan_id opportunity source service market plan ≫= λ scan,
  on_front (in_desk (save_scan_plan_calls scan plan)) ≫= λ _,
  mret {| st_opportunity := opportunity; st_scan := scan; st_plan := plan |}.

(** ** Gathering the evidence *)

Record Gathered : Type := {
  ga_keyword_metrics : KeywordMetricPlan A;
  ga_serp_snapshots : list SerpSnapshot;
  ga_competitors : list (CompetitorMetric A);
  ga_providers : list (ProviderCandidate A)
}.

Definition classify_snapshot env (service : ServiceFamily) (market : Planning.Market)
    (providers : list (ProviderCandidate A)) (snapshot : SerpSnapshot) : SerpSnapshot := {|
  ss_query := ss_query snapshot; ss_captured_at := ss_captured_at snapshot;
  ss_features_present := ss_features_present snapshot;
  ss_results := map (classify_result (en_serp_rules env) (Some service) (Some market) providers) (ss_results snapshot) |}.

Fixpoint fetch_serps p env (scan : Z) (service : ServiceFamily) (market : Planning.Market) (keywords : list string)
    : Run (list SerpSnapshot) :=
  match keywords with
  | [] => mret []
  | keyword :: keywords' =>
      _ensure_not_cancelled p scan ≫= λ _,
      ask (GetSerpSnapshot keyword) Page (get_serp_snapshot (en_provider env) keyword market) ≫= λ snapshot,
      fetch_serps p env scan service market keywords' ≫= λ snapshots,
      mret (classify_snapshot env service market [] snapshot :: snapshots)
  end.

Definition enter_stage p (scan : Z) (stage : string) : Run unit :=
  _ensure_not_cancelled p scan ≫= λ _, _set_stage p scan stage.

Definition gather p env (scan : Z) (service : ServiceFamily) (market : Planning.Market) : Run Gathered :=
  let provider := en_provider env in
  enter_stage p scan "discovering_keywords" ≫= λ _,
  ask DiscoverKeywords Suggested (discover_keywords provider service market) ≫= λ candidates,
  let keyword_candidates : KeywordCandidatePlan A :=
    plan_keyword_candidates candidates (service_keyword_terms service).2 in
  let included_keywords := cp_included_keywords keyword_candidates in
  enter_stage p scan "fetching_metrics" ≫= λ _,
  ask (GetKeywordMetrics included_keywords) Measured (get_keyword_metrics provider included_keywords market) ≫= λ raw_metrics,
  let keyword_metrics := rank_and_cluster_keyword_metrics (en_fixed_1 env) (en_py_float env) service market raw_metrics
                           (serp_keyword_limit p) (cp_decisions keyword_candidates) in
  enter_stage p scan "fetching_serps" ≫= λ _,
  fetch_serps p env scan service market (mp_selected_serp_keywords keyword_metrics) ≫= λ serp_snapshots,
  let competitor_urls := select_competitor_urls serp_snapshots (backlink_competitor_limit p) in
  enter_stage p scan "fetching_competitors" ≫= λ _,
  match competitor_urls with
  | [] => mret []
  | _ => ask (GetCompetitorMetrics competitor_urls) Compared (get_competitor_metrics provider competitor_urls)
  end ≫= λ raw_competitors,
  let competitors := enrich_competitors serp_snapshots service market raw_competitors in
  enter_stage p scan "fetching_providers" ≫= λ _,
  ask FindProviders Listed (find_providers provider service market) ≫= λ found,
  let providers := score_provider_suitability (en_of_float env) found service market (en_rating env) in
  mret {| ga_keyword_metrics := keyword_metrics;
          ga_serp_snapshots := map (classify_snapshot env service market providers) serp_snapshots;
          ga_competitors := competitors; ga_providers := providers |}.

(** ** services/records.py *)

Definition serp_result_row (snapshot_id : Z) (r : SerpResult) : Schema.SerpResult :=
  {| sr_serp_snapshot_id := snapshot_id; Schema.sr_classification := JStr (sr_classification r) |}.

Definition provider_row env (scan opportunity : Z) (c : ProviderCandidate A) : Schema.ProviderCandidate := {|
  pc_scan_run_id := Some scan; pc_opportunity_id := Some opportunity;
  Schema.pc_suitability_score := json_opt (λ x, JFloat (en_to_float env x)) (pc_suitability_score c);
  Schema.pc_business_status := JStr (pc_business_status c); Schema.pc_categories := JList (map JStr (pc_categories c)) |}.

(** [session.add] of rows in order *)
Definition add_rows {R} (rows : list R) (t : gmap Z R) : gmap Z R := foldl (λ t row, <[next_id t := row]> t) t rows.

Definition drop_owned {R} (scan_of : R → option Z) (scan : Z) (t : gmap Z R) : gmap Z R :=
  filter (λ kr, scan_of kr.2 ≠ Some scan) t.

Definition add_snapshot (scan opportunity : Z) (db : Db USD) (snapshot : SerpSnapshot) : Db USD :=
  let i := next_id (serp_snapshots db) in
  db <| serp_snapshots ::= insert i {| snap_scan_run_id := Some scan; snap_opportunity_id := Some opportunity |} |>
     <| serp_results ::= add_rows (map (serp_result_row i) (ss_results snapshot)) |>.

(** The results go first, with the snapshots they belong to. *)
Definition _clear_scan_records (scan : Z) (db : Db USD) : Db USD :=
  let own i := match serp_snapshots db !! i with
               | Some s => bool_decide (snap_scan_run_id s = Some scan)
               | None => false
               end in
  db <| serp_results ::= λ t, filter (λ kr, own (sr_serp_snapshot_id kr.2) = false) t |>
     <| serp_snapshots ::= drop_owned snap_scan_run_id scan |>
     <| keyword_decisions ::= drop_owned ev_scan_run_id scan |>
     <| competitor_metrics ::= drop_owned ev_scan_run_id scan |>
     <| provider_candidates ::= drop_owned pc_scan_run_id scan |>.

Definition evidence_row (scan : Z) : ScanEvidence := {| ev_scan_run_id := Some scan |}.

Definition saved_of (g : Gathered) : SavedRecords A := {|
  sv_clusters := mp_clusters (ga_keyword_metrics g); sv_decisions := mp_decisions (ga_keyword_metrics g);
  sv_metrics := mp_metrics (ga_keyword_metrics g); sv_serp_snapshots := ga_serp_snapshots g;
  sv_competitors := ga_competitors g; sv_providers := ga_providers g |}.

(** The rows the review reads are written in [Db]; all of them are kept as they were given
    in [tb_records], under their scan. *)
Definition save_scan_records env (scan opportunity : Z) (g : Gathered) : Run unit :=
  in_session (modify (λ db,
    let db := _clear_scan_records scan db in
    let db := db <| keyword_decisions ::= add_rows (map (λ _, evidence_row scan) (mp_decisions (ga_keyword_metrics g))) |> in
    let db := foldl (add_snapshot scan opportunity) db (ga_serp_snapshots g) in
    db <| competitor_metrics ::= add_rows (map (λ _, evidence_row scan) (ga_competitors g)) |>
       <| provider_candidates ::= add_rows (map (provider_row env scan opportunity) (ga_providers g)) |>)) ≫= λ _,
  modify (λ w, w <| wd_tables ::= λ t, t <| tb_records ::= insert scan (saved_of g) |> |>).

(** ** Scoring *)

Definition meta_value env (v : json) : MetadataValue A :=
  match v with JInt n => MetaNumber (num_Z n) | JFloat x => MetaNumber (en_of_float env x) | _ => MetaOther end.

(** The columns of the market that the scorer reads *)
Definition scored_market env (market : Planning.Market) : Demand.Market A := {|
  mk_population := mt_population market;
  mk_reference_population := mt_reference_population market;
  mk_resolution_metadata := λ key, meta_value env <$> dict_get key (mt_resolution_metadata market) |}.

Definition _service_is_configured env (service : ServiceFamily) : bool :=
  negb (is_none (resolve (en_services env) (fam_id service)))
  || negb (is_none (resolve (en_services env) (fam_display_name service))).

Definition assess_evidence p env (service : ServiceFamily) (g : Gathered) : EvidenceQualityAssessment A :=
  EvidenceQuality.assess (en_quality env) service (mp_scoring_metrics (ga_keyword_metrics g)) (ga_serp_snapshots g)
    (ga_competitors g) (ga_providers g) (assessment_type_of p) (_service_is_configured env service).

Definition score_evidence p env (market : Planning.Market) (g : Gathered) (now : Z)
    : Scoring.E (OpportunityScore (A := A)) :=
  Scoring.score (en_scoring env) (en_estimator env) (mp_scoring_metrics (ga_keyword_metrics g)) (ga_serp_snapshots g)
    (ga_competitors g) (ga_providers g) (scored_market env market) (Some (evidence_source_mode p env))
    (assessment_type_of p) now.

(** ** Publishing *)

Definition missing_value (m : MissingField) : string :=
  match m with
  | keyword_metrics => "keyword_metrics"
  | local_demand => "local_demand"
  | Scoring.serp_snapshots => "serp_snapshots"
  | Scoring.competitor_metrics => "competitor_metrics"
  | Scoring.provider_candidates => "provider_candidates"
  | keyword_cpc => "keyword_cpc"
  | Scoring.serp_results => "serp_results"
  end.

Definition confidence_value (c : Confidence) : string :=
  match c with high => "high" | medium => "medium" | low => "low" | insufficient => "insufficient" end.

(** The evidence needs work before a reviewer sees it. *)
Definition needs_remediation p (q : EvidenceQualityAssessment A) (score : OpportunityScore (A := A)) : bool :=
  bool_decide (qa_status q = q_fail)
  || negb (is_preliminary_assessment p) && negb (bool_decide (evidence_status score = Scoring.complete)).

Definition completed_state p q score : OpportunityState :=
  if needs_remediation p q score then needs_more_evidence
  else if is_preliminary_assessment p then preliminary_review else full_review.

Definition completed_reason p q score : string :=
  if needs_remediation p q score then "Scan completed but evidence requires remediation."
  else (if is_preliminary_assessment p then "Preliminary" else "Full") +:+ " evidence is ready for review.".

Definition published p env (q : EvidenceQualityAssessment A) (score : OpportunityScore (A := A)) (o : Opportunity)
    : Opportunity :=
  let version o := o <| opp_score_version := Some (en_scoring_version env) |> in
  let rated := confidence_value (confidence score) in
  let o :=
    if is_preliminary_assessment p then
      if is_none (opp_latest_score o) then
        version (o <| opp_confidence := Some (if bool_decide (qa_status q = q_fail) then "insufficient"
                                              else "preliminary")%string |>)
      else o
    else if bool_decide (evidence_status score = Scoring.complete) then
      version o <| opp_latest_score := Some (en_to_float env (total_score score)) |> <| opp_confidence := Some rated |>
    else if is_none (opp_latest_score o) then version o <| opp_confidence := Some rated |>
    else o in
  o <| opp_missing_data_flags := map missing_value (missing_fields score) |>.

Definition add_artifact (opportunity scan : Z) (kind : string) : Run unit :=
  modify (λ w, w <| wd_tables ::= λ t, t <| tb_artifacts ::= λ l, l ++
    [{| ja_opportunity_id := opportunity; ja_scan_run_id := scan; ja_kind := kind |}] |> |>).

Definition _save_assessment_records p env (st : Started) (score : OpportunityScore (A := A)) : Run unit :=
  gets wd_now ≫= λ now,
  (if is_preliminary_assessment p then
     modify (λ w, w <| wd_tables ::= λ t, t <| tb_preliminary_assessments ::= λ l, l ++
       [{| pa_scan_run_id := st_scan st; pa_opportunity_id := st_opportunity st;
           pa_scoring_version := en_scoring_version env; pa_confidence := "preliminary";
           pa_missing_components := unavailable_components p ++ map missing_value (missing_fields score) |}] |> |>)
   else
     in_session (modify (λ db, db <| full_opportunity_scores ::= λ t,
       <[next_id t := {| fs_scan_run_id := st_scan st; fs_opportunity_id := st_opportunity st;
                         fs_payload := en_dump_score env score; fs_created_at := now |}]> t |>))) ≫= λ _,
  modify (λ w, w <| wd_tables ::= λ t, t <| tb_score_components ::= λ l, l ++
    map (λ '(c, x), {| scr_scan_run_id := st_scan st; scr_component := c; scr_score := x |}) (component_scores score) |> |>).

Record Answer : Type := {
  an_opportunity : Z;
  an_scan : Z;
  an_score : OpportunityScore (A := A);
  an_assessment_type : string;
  an_evidence_quality : EvidenceQualityAssessment A
}.

Definition publish p env (st : Started) (g : Gathered) (q : EvidenceQualityAssessment A)
    (score : OpportunityScore (A := A)) : Run Answer :=
  let scan := st_scan st in
  let opportunity := st_opportunity st in
  save_scan_records env scan opportunity g ≫= λ _,
  _ensure_not_cancelled p scan ≫= λ _,
  gets wd_now ≫= λ now,
  in_session (transition_system opportunity (completed_state p q score) "scan_completed" (completed_reason p q score) now)
    ≫= λ _,
  in_session (update_opportunity opportunity (published p env q score)) ≫= λ _,
  in_session (update_scan scan (λ s, s <| sc_status := SCompleted |> <| sc_progress_stage := "completed"%string |>
    <| sc_completed_at := Some now |>)) ≫= λ _,
  in_session (record_actual_cost scan) ≫= λ _,
  add_artifact opportunity scan (if is_preliminary_assessment p then "preliminary_assessment" else "scan_result") ≫= λ _,
  add_artifact opportunity scan "discovery_report" ≫= λ _,
  _save_assessment_records p env st score ≫= λ _,
  _ensure_lease p ≫= λ _,
  commit_session ≫= λ _,
  mret {| an_opportunity := opportunity; an_scan := scan; an_score := score;
          an_assessment_type := assessment_type_of p; an_evidence_quality := q |}.

(** Everything after the last answer of the provider *)
Definition conclude p env (st : Started) (service : ServiceFamily) (market : Planning.Market) (g : Gathered) : Run Answer :=
  let scan := st_scan st in
  enter_stage p scan "scoring" ≫= λ _,
  gets wd_now ≫= λ now,
  let q := assess_evidence p env service g in
  match score_evidence p env market g now with
  | Raise e => raise (Arithmetic e)
  | Ok raw =>
      let score := apply_to_score (en_quality env) raw q in
      in_session (update_scan scan (λ s,
        s <| sc_partial_outputs ::= outputs [("evidence_quality", en_dump_quality env q)]%string |>)) ≫= λ _,
      _set_stage p scan "persisting_results" ≫= λ _,
      publish p env st g q score
  end.

(** ** A run *)

(** The [except] clauses *)
Definition except_clauses env (st : Started) (e : run_error) : Run unit :=
  gets wd_now ≫= λ now,
  match e with
  | Handled (Internal (Failure ScanLeaseLost)) => rollback_session
  | Handled (Internal (Failure ScanCancelled)) =>
      in_session (pipeline_cancelled (st_scan st) (st_opportunity st) now) ≫= λ _, commit_session
  | _ => in_session (pipeline_failed (st_scan st) (st_opportunity st) (en_error_text env e) now) ≫= λ _, commit_session
  end.

Definition run_body p env (st : Started) (service : ServiceFamily) (market : Planning.Market) : Run Answer := λ w,
  match (gather p env (st_scan st) service market ≫= conclude p env st service market) w with
  | (Raise e, w') => (except_clauses env st e ≫= λ _, raise e) w'
  | r => r
  end.

(** The session is closed with the run: what is not committed is lost when it raises. *)
Definition run p env (service : ServiceFamily) (market : Planning.Market) (source : string)
    (existing_scan_id : option Z) : Run Answer :=
  or_rollback (start p env service market source existing_scan_id ≫= λ st, run_body p env st service market).
End pipeline.
