(* ===== verification/ScanPipelineTheorems.v ===== *)
(** * ScanPipelineTheorems: what a run asks, and what it publishes *)
From S2P Require Import Prelude Security.
From S2P Require Import Text Services Binary64 Numbers Scoring Schema ScanLeases OpportunityReview OpportunityReviewProofs.
From S2P Require Import ScanWorker ScanWorkerProofs Planning DiscoveryBatches ScanRequests Demand Keywords EvidenceQuality ProviderRating.
From S2P Require Import SerpClassification Competitors CompetitorsTheorems ScanPipeline.
From S2P Require Import ServicesTheorems ScoringTheorems PlanningTheorems DiscoveryBatchesTheorems ScanRequestsTheorems.
From S2P Require Import EvidenceQualityTheorems ProviderRatingTheorems SerpClassificationTheorems.
From Stdlib Require Import QArith.
#[global] Open Scope Z_scope.

Section pipeline.
Context {A USD C : Type} `{Num A} `{Stats A} `{Trig A} `{Amount USD} `{DecimalMoney USD} `{RequestPlanner C}.
Abbreviation World := (World A USD C).
Abbreviation Run T := (M World run_error T).
Implicit Types (w : World) (env : Surroundings A USD C) (db : Db USD).

(** ** The session *)

Lemma flushed_row_same (o stored : Opportunity) : flushed_row o o stored = stored.
Proof. unfold flushed_row, flushed_column. rewrite !decide_True by done. by destruct stored. Qed.

Lemma flushed_seen (loaded stored : gmap Z Opportunity) : flushed loaded (loaded ∪ stored) stored = stored.
Proof.
  apply map_eq. intros i. unfold flushed. rewrite map_lookup_imap, lookup_union.
  destruct (loaded !! i) as [o|] eqn:Hl; destruct (stored !! i) as [o'|]; simpl; rewrite ?Hl; simpl; try done.
  by rewrite flushed_row_same.
Qed.

Lemma loaded_seen (loaded stored : gmap Z Opportunity) : map_imap (λ i _, (loaded ∪ stored) !! i) loaded = loaded.
Proof.
  apply map_eq. intros i. rewrite map_lookup_imap, lookup_union. destruct (loaded !! i); [|done]. simpl. by destruct (stored !! i).
Qed.

(** What a handler in the session sees *)
Definition session_view w : Db USD := (wd_db w) <| opportunities := wd_loaded w ∪ opportunities (wd_db w) |>.

Lemma in_session_read {T} (m : Session USD T) w : ReadOnly m →
  in_session m w = (with_error failure (m (session_view w)).1, w).
Proof.
  intros Hm. unfold in_session. fold (session_view w). specialize (Hm (session_view w)).
  destruct (m (session_view w)) as [r db'] eqn:Hr. cbn in Hm |- *. subst db'. unfold session_view.
  destruct w as [[[[db] ? ? ?] ? ? ? ?] base loaded now asked]. cbn. rewrite flushed_seen, loaded_seen. by destruct db.
Qed.

Lemma in_session_parts {T} (m : Session USD T) w r w' : in_session m w = (r, w') →
  wd_base w' = wd_base w ∧ wd_now w' = wd_now w ∧ wd_asked w' = wd_asked w
  ∧ scan_runs (wd_db w') = scan_runs (m (session_view w)).2 ∧ db_dialect (wd_db w') = db_dialect (m (session_view w)).2
  ∧ r = with_error failure (m (session_view w)).1.
Proof.
  unfold in_session. fold (session_view w). destruct (m (session_view w)) as [r0 db']. by intros [= <- <-].
Qed.

(** ** Questions *)

(** A question asked as it should be: nothing is left uncommitted, the lease is held and no
    cancellation is requested *)
Definition asked_properly p (scan : Z) (a : Asked A USD C) : Prop :=
  aq_tables a = aq_base a
  ∧ (∀ lease, pp_execution_lease p = Some lease → holds_lease (front_db (tb_front (aq_base a))) lease (aq_now a))
  ∧ ∃ row, scan_runs (front_db (tb_front (aq_base a))) !! scan = Some row ∧ sc_cancel_requested row = false.

Definition clean w : Prop := wd_tables w = wd_base w.
Definition may_ask p (scan : Z) w : Prop :=
  (∀ lease, pp_execution_lease p = Some lease → holds_lease (wd_db w) lease (wd_now w))
  ∧ ∃ row, scan_runs (wd_db w) !! scan = Some row ∧ sc_cancel_requested row = false.

(** ** What is to be asked next *)

(** The suggestions that stay in, in the spelling of the provider *)
Definition wanted_keywords (service : ServiceFamily) (candidates : list KeywordCandidate) : list string :=
  cp_included_keywords (plan_keyword_candidates (A := A) candidates (service_keyword_terms service).2).

(** The representatives of the best groups, up to the profile's limit *)
Definition wanted_queries p env service market (metrics : list (KeywordMetric A)) : list string :=
  mp_selected_serp_keywords (rank_and_cluster_keyword_metrics (en_fixed_1 env) (en_py_float env) service market metrics
    (serp_keyword_limit p) []).

(** The addresses of the best placed competing domains, up to the profile's limit *)
Definition wanted_urls p env service market (pages : list SerpSnapshot) : list string :=
  select_competitor_urls (map (classify_snapshot env service market []) pages) (backlink_competitor_limit p).

(** The result pages that come first, and the rest *)
Fixpoint leading_pages (replies : list (Reply A)) : list SerpSnapshot * list (Reply A) :=
  match replies with
  | Page snapshot :: replies' => let '(pages, rest) := leading_pages replies' in (snapshot :: pages, rest)
  | _ => ([], replies)
  end.

(** The question that the answers so far lead to *)
Definition next_question p env service market (replies : list (Reply A)) : option Call :=
  match replies with
  | [] => Some DiscoverKeywords
  | [Suggested candidates] => Some (GetKeywordMetrics (wanted_keywords service candidates))
  | Suggested _ :: Measured metrics :: replies' =>
      let '(pages, rest) := leading_pages replies' in
      let queries := wanted_queries p env service market metrics in
      match queries !! length pages, rest with
      | Some query, [] => Some (GetSerpSnapshot query)
      | Some _, _ => None
      | None, _ =>
          if bool_decide (length pages = length queries) then
            match wanted_urls p env service market pages, rest with
            | url :: urls, [] => Some (GetCompetitorMetrics (url :: urls))
            | [], [] | _ :: _, [Compared _] => Some FindProviders
            | _, _ => None
            end
          else None
      end
  | _ => None
  end.

Lemma leading_pages_app pages rest : match rest with Page _ :: _ => False | _ => True end →
  leading_pages (map Page pages ++ rest) = (pages, rest).
Proof.
  intros Hr. induction pages as [|page pages IH]; simpl; [by destruct rest as [|[] ?]|]. by rewrite IH.
Qed.

Lemma leading_pages_spec replies pages rest : leading_pages replies = (pages, rest) →
  replies = map Page pages ++ rest.
Proof.
  revert pages. induction replies as [|r replies IH]; intros pages; simpl; [by intros [= <- <-]|].
  destruct r as [| |snapshot| | |]; try (by intros [= <- <-]). destruct (leading_pages replies) as [ps rs].
  intros [= <- <-]. simpl. by rewrite <- (IH ps).
Qed.

Lemma queries_limit p env service market metrics :
  (length (wanted_queries p env service market metrics) ≤ Z.to_nat (serp_keyword_limit p))%nat.
Proof.
  unfold wanted_queries, rank_and_cluster_keyword_metrics. cbn [mp_selected_serp_keywords]. rewrite length_map, length_take.
  unfold serp_keyword_limit. repeat case_match; lia.
Qed.

Lemma urls_limit serps limit : (length (select_competitor_urls serps limit) ≤ limit)%nat.
Proof. unfold select_competitor_urls. rewrite length_map, length_take. lia. Qed.

(** The limits of the profile on what is asked after [replies] *)
Lemma next_within p env service market replies call : next_question p env service market replies = Some call →
  match call with
  | DiscoverKeywords => length replies = 0%nat
  | GetKeywordMetrics _ => length replies = 1%nat
  | GetSerpSnapshot _ => (2 ≤ length replies < 2 + Z.to_nat (serp_keyword_limit p))%nat
  | GetCompetitorMetrics urls => (0 < length urls ≤ backlink_competitor_limit p)%nat
      ∧ (length replies ≤ 2 + Z.to_nat (serp_keyword_limit p))%nat
  | FindProviders => (length replies ≤ 3 + Z.to_nat (serp_keyword_limit p))%nat
  end.
Proof.
  unfold next_question. destruct replies as [|[candidates| | | | |] [|[|metrics| | | |] replies]]; try done.
  - by intros [= <-].
  - by intros [= <-].
  - destruct (leading_pages replies) as [pages rest] eqn:Hl. apply leading_pages_spec in Hl as ->.
    pose proof (queries_limit p env service market metrics) as Hq. cbn [length]. rewrite length_app, length_map.
    cbv zeta. destruct (wanted_queries p env service market metrics !! length pages) as [query|] eqn:Hw.
    + destruct rest; [|done]. intros [= <-]. apply lookup_lt_Some in Hw. simpl. lia.
    + case_bool_decide as Hlen; [|done].
      pose proof (urls_limit (map (classify_snapshot env service market []) pages) (backlink_competitor_limit p)) as Hlimit.
      fold (wanted_urls p env service market pages) in Hlimit.
      destruct (wanted_urls p env service market pages) as [|url urls], rest as [|[] [|]]; try done;
        intros [= <-]; cbn [length] in *; lia.
Qed.

(** ** Questions asked *)

(** [asked] follows the answers: each question is the next one after [replies] and the
    answers to the ones before it. *)
Fixpoint follows (next : list (Reply A) → option Call) (replies : list (Reply A)) (asked : list (Asked A USD C)) : Prop :=
  match asked with
  | [] => True
  | a :: asked' => next replies = Some (aq_call a) ∧ follows next (replies ++ [aq_reply a]) asked'
  end.

Lemma follows_app next replies l1 l2 :
  follows next replies l1 → follows next (replies ++ map aq_reply l1) l2 → follows next replies (l1 ++ l2).
Proof.
  revert replies. induction l1 as [|a l1 IH]; intros replies; simpl; [by rewrite app_nil_r|].
  intros [Ha Hl1] Hl2. split; [done|]. apply IH; [done|]. by rewrite <- app_assoc.
Qed.

Lemma follows_lookup next replies l i a : follows next replies l → l !! i = Some a →
  next (replies ++ map aq_reply (take i l)) = Some (aq_call a).
Proof.
  revert replies i. induction l as [|b l IH]; intros replies i; [done|]. intros [Hb Hl]. destruct i as [|i]; simpl.
  - intros [= <-]. by rewrite app_nil_r.
  - intros Ha. specialize (IH _ _ Hl Ha). by rewrite <- app_assoc in IH.
Qed.

Section questions.
Context (p : ScanPipeline) (env : Surroundings A USD C) (service : ServiceFamily) (market : Planning.Market) (scan : Z).

(** Between [w] and [w'] questions were asked, all properly and as the answers since
    [replies] led to; [replies'] are the answers by now. *)
Definition asks w w' (replies replies' : list (Reply A)) : Prop :=
  ∃ new, wd_asked w' = wd_asked w ++ new ∧ Forall (asked_properly p scan) new
    ∧ follows (next_question p env service market) replies new ∧ replies' = replies ++ map aq_reply new.

Definition asks_some w w' (replies : list (Reply A)) : Prop := ∃ replies', asks w w' replies replies'.

Lemma asks_none w w' replies : wd_asked w' = wd_asked w → asks w w' replies replies.
Proof. intros E. exists []. by rewrite !app_nil_r. Qed.

Lemma some_none w w' replies : wd_asked w' = wd_asked w → asks_some w w' replies.
Proof. intros E. exists replies. by apply asks_none. Qed.

Lemma asks_app w w1 w' h h1 h' : asks w w1 h h1 → asks w1 w' h1 h' → asks w w' h h'.
Proof.
  intros (n1 & E1 & F1 & L1 & ->) (n2 & E2 & F2 & L2 & ->). exists (n1 ++ n2).
  rewrite E2, E1, map_app, !app_assoc. split_and!; [done|by apply Forall_app|by apply follows_app|done].
Qed.

Lemma some_app w w1 w' h h1 : asks w w1 h h1 → asks_some w1 w' h1 → asks_some w w' h.
Proof. intros Hw1 (h2 & Hw2). exists h2. by eapply asks_app. Qed.
End questions.

#[export] Instance in_session_asked {T} (m : Session USD T) : Keeps (S := World) wd_asked (in_session m).
Proof. intros w. unfold in_session. by destruct (m _). Qed.
#[export] Instance on_front_asked {T} (m : M (Front USD C) request_error T) : Keeps (S := World) wd_asked (on_front m).
Proof. intros w. unfold on_front. by destruct (m _). Qed.
#[export] Instance or_rollback_asked {T} (m : Run T) : Keeps wd_asked m → Keeps wd_asked (or_rollback m).
Proof. intros Hm w. unfold or_rollback. specialize (Hm w). by destruct (m w) as [[|] ?]. Qed.
#[export] Instance load_asked i : Keeps (S := World) wd_asked (load_opportunity i).
Proof. intros w. cbn. by repeat case_match. Qed.
#[export] Instance commit_asked : Keeps (S := World) wd_asked commit_session.
Proof. by intros w. Qed.
#[export] Instance rollback_asked : Keeps (S := World) wd_asked rollback_session.
Proof. by intros w. Qed.

Lemma ask_once {T} call reply (m : Await USD C T) p env service market scan replies w r w' :
  clean w → may_ask p scan w → next_question p env service market replies = Some call →
  ask call reply m w = (r, w') →
  asks p env service market scan w w' replies (replies ++ [match r with Ok a => reply a | Raise _ => Refused end]) ∧ clean w'.
Proof.
  intros Hc (Hl & Hs) Hn. unfold ask. cbn. destruct (m _) as [r0 [f now]]. intros [= <- <-]. split; [|done].
  eexists [_]. split_and!; [done| |by split|done]. apply Forall_singleton. split_and!; cbn; [done| |].
  - unfold wd_db in Hl. by rewrite Hc in Hl.
  - unfold wd_db in Hs. by rewrite Hc in Hs.
Qed.

#[export] Instance ensure_lease_asked p : Keeps (S := World) wd_asked (_ensure_lease p).
Proof. unfold _ensure_lease. apply _. Qed.
#[export] Instance ensure_not_cancelled_asked p scan : Keeps (S := World) wd_asked (_ensure_not_cancelled p scan).
Proof. unfold _ensure_not_cancelled. apply _. Qed.
#[export] Instance set_stage_asked p scan stage : Keeps (S := World) wd_asked (_set_stage p scan stage).
Proof. unfold _set_stage. apply _. Qed.
#[export] Instance enter_stage_asked p scan stage : Keeps (S := World) wd_asked (enter_stage p scan stage).
Proof. unfold enter_stage. apply _. Qed.
#[export] Instance assert_optional_read lease now : ReadOnly (S := Db USD) (assert_optional_lease lease now).
Proof. destruct lease; [|apply _]. intros db. apply assert_lease_state. Qed.

Lemma ensure_lease_ok p w u w' : _ensure_lease p w = (Ok u, w') ↔
  w' = w ∧ ∀ lease, pp_execution_lease p = Some lease → holds_lease (wd_db w) lease (wd_now w).
Proof.
  unfold _ensure_lease. rewrite bind_gets, in_session_read by apply _.
  destruct (assert_optional_lease (pp_execution_lease p) (wd_now w) (session_view w)) as [[v|e] db'] eqn:Hr; cbn.
  - apply assert_optional_ok in Hr as [Hr _]. destruct u, v. split; [intros [= <-]; by split|by intros [-> _]].
  - split; [done|]. intros [-> Hl]. exfalso.
    enough (assert_optional_lease (pp_execution_lease p) (wd_now w) (session_view w) = (Ok tt, session_view w)) by congruence.
    by apply assert_optional_ok.
Qed.

Lemma ensure_not_cancelled_ok p scan w u w' : _ensure_not_cancelled p scan w = (Ok u, w') → w' = w ∧ may_ask p scan w.
Proof.
  unfold _ensure_not_cancelled. intros (? & ? & [-> Hl]%ensure_lease_ok & Hr)%bind_ok.
  apply bind_ok in Hr as (row & w1 & Hg & [Hc ->]%raise_if_ok).
  rewrite in_session_read in Hg by (unfold get_scan; apply _). unfold get_scan, get_or_raise in Hg.
  change (scan_runs (session_view w)) with (scan_runs (wd_db w)) in Hg.
  destruct (scan_runs (wd_db w) !! scan) as [s|] eqn:Hs; [|done]. injection Hg as <- <-. split; [done|]. split; [done|by exists s].
Qed.

Definition staged (stage : string) (s : ScanRun) : ScanRun :=
  s <| sc_progress_stage := stage |> <| sc_partial_outputs ::= outputs [("last_successful_stage", JStr stage)]%string |>.

Lemma write_stage_ok p scan stage now db u db' : write_stage p scan stage now db = (Ok u, db') →
  ∃ j, scan_runs db' = alter (staged stage) j (scan_runs db).
Proof.
  unfold write_stage. destruct (pp_execution_lease p) as [lease|]; [|intros [= _ <-]; by exists scan].
  unfold ScanWorker.set_stage. rewrite bind_gets. destruct (scan_runs db !! lease_scan_id lease) as [s|]; [|done].
  destruct (_ && _); [|done]. intros [= _ <-]. by exists (lease_scan_id lease).
Qed.

Lemma staged_lookup stage j (t : gmap Z ScanRun) i s : t !! i = Some s →
  ∃ s', alter (staged stage) j t !! i = Some s' ∧ sc_status s' = sc_status s ∧ sc_worker_id s' = sc_worker_id s
    ∧ sc_lease_token s' = sc_lease_token s ∧ sc_lease_expires_at s' = sc_lease_expires_at s
    ∧ sc_cancel_requested s' = sc_cancel_requested s.
Proof. intros Hi. rewrite lookup_alter. case_decide; [subst j|]; rewrite Hi; eexists; split_and!; reflexivity. Qed.

Lemma set_stage_ok p scan stage w u w' : _set_stage p scan stage w = (Ok u, w') →
  clean w' ∧ (may_ask p scan w → may_ask p scan w').
Proof.
  unfold _set_stage. rewrite bind_gets. intros (v & w1 & Hw & [= _ <-])%bind_ok. split; [reflexivity|].
  unfold or_rollback in Hw. destruct (in_session _ w) as [[[]|e] w2] eqn:Hi; [|done]. injection Hw as _ ->.
  apply in_session_parts in Hi as (_ & Hnow & _ & Hruns & _ & Hr).
  destruct (write_stage p scan stage (wd_now w) (session_view w)) as [[[]|e] db'] eqn:Hs; [|done].
  apply write_stage_ok in Hs as (j & Hj). cbn in Hruns. rewrite Hj in Hruns.
  change (scan_runs (session_view w)) with (scan_runs (wd_db w)) in Hruns.
  intros [Hl (row & Hrow & Hc)]. split.
  - intros lease Hlease. destruct (Hl lease Hlease) as (s & e & Hrow' & Hst & Hw' & Ht & He & Hlt).
    destruct (staged_lookup stage j _ _ _ Hrow') as (s' & Hs' & E1 & E2 & E3 & E4 & _).
    exists s', e. change (wd_db _) with (wd_db w1). change (wd_now _) with (wd_now w1). rewrite Hruns, Hs', Hnow. by rewrite E1, E2, E3, E4.
  - destruct (staged_lookup stage j _ _ _ Hrow) as (s' & Hs' & _ & _ & _ & _ & E). exists s'.
    change (wd_db _) with (wd_db w1). rewrite Hruns, Hs', E. done.
Qed.

Lemma enter_stage_ok p scan stage w u w' : enter_stage p scan stage w = (Ok u, w') → clean w' ∧ may_ask p scan w'.
Proof.
  unfold enter_stage. intros (? & ? & [-> Hm]%ensure_not_cancelled_ok & Hs)%bind_ok.
  apply set_stage_ok in Hs as [? Hm']. split; [done|by apply Hm'].
Qed.

(** A step of a run, by what it returns *)
Lemma bind_cases {T B} (m : Run T) (k : T → Run B) w r w' : (m ≫= k) w = (r, w') →
  (∃ e, m w = (Raise e, w') ∧ r = Raise e) ∨ ∃ a w1, m w = (Ok a, w1) ∧ k a w1 = (r, w').
Proof. unfold mbind, M_bind. destruct (m w) as [[a|e] w1]; [intros ?; right; by exists a, w1|intros [= <- <-]; left; by exists e]. Qed.

(** After the metrics and some result pages *)
Definition page_replies candidates (metrics : list (KeywordMetric A)) (pages : list SerpSnapshot) : list (Reply A) :=
  Suggested candidates :: Measured metrics :: map Page pages.

Lemma page_replies_snoc candidates metrics pages page :
  page_replies candidates metrics pages ++ [Page page] = page_replies candidates metrics (pages ++ [page]).
Proof. unfold page_replies. by rewrite map_app. Qed.

Lemma next_after_pages p env service market candidates metrics pages :
  next_question p env service market (page_replies candidates metrics pages)
  = match wanted_queries p env service market metrics !! length pages with
    | Some query => Some (GetSerpSnapshot query)
    | None => if bool_decide (length pages = length (wanted_queries p env service market metrics)) then
                match wanted_urls p env service market pages with
                | [] => Some FindProviders
                | urls => Some (GetCompetitorMetrics urls)
                end
              else None
    end.
Proof.
  unfold next_question, page_replies. pose proof (leading_pages_app pages [] I) as Hl. rewrite app_nil_r in Hl. rewrite Hl.
  cbv zeta. by repeat case_match.
Qed.

Lemma fetch_serps_asks p env scan service market candidates metrics keywords pages w r w' : clean w →
  drop (length pages) (wanted_queries p env service market metrics) = keywords →
  fetch_serps p env scan service market keywords w = (r, w') →
  match r with
  | Raise _ => asks_some p env service market scan w w' (page_replies candidates metrics pages)
  | Ok l => ∃ new, asks p env service market scan w w' (page_replies candidates metrics pages)
                     (page_replies candidates metrics (pages ++ new))
      ∧ l = map (classify_snapshot env service market []) new ∧ length new = length keywords ∧ clean w'
  end.
Proof.
  revert pages w r w'. induction keywords as [|k keywords IH]; intros pages w r w' Hc Hdrop; cbn [fetch_serps].
  { intros [= <- <-]. exists []. rewrite app_nil_r. split; [by apply asks_none|done]. }
  assert (wanted_queries p env service market metrics !! length pages = Some k) as Hk.
  { rewrite <- (Nat.add_0_r (length pages)), <- lookup_drop, Hdrop. done. }
  intros [(e & He & ->)|([] & w1 & He & Hr)]%bind_cases.
  { apply some_none. by eapply keeps_ok; [|exact He]; apply _. }
  apply ensure_not_cancelled_ok in He as [-> Hm].
  assert (next_question p env service market (page_replies candidates metrics pages) = Some (GetSerpSnapshot k)) as Hn.
  { by rewrite next_after_pages, Hk. }
  apply bind_cases in Hr as [(e & Ha & ->)|(snapshot & w2 & Ha & Hr)];
    apply (ask_once _ _ _ p env service market scan _ _ _ _ Hc Hm Hn) in Ha as [Ha Hc2].
  { by eexists. }
  rewrite page_replies_snoc in Ha.
  assert (drop (length (pages ++ [snapshot])) (wanted_queries p env service market metrics) = keywords) as Hdrop2.
  { rewrite length_app, <- drop_drop, Hdrop. done. }
  apply bind_cases in Hr as [(e & Hf & ->)|(l & w3 & Hf & [= <- <-])]; specialize (IH _ _ _ _ Hc2 Hdrop2 Hf).
  - by eapply some_app.
  - destruct IH as (new & Hasks & -> & Hlen & Hc3). exists (snapshot :: new). rewrite <- app_assoc in Hasks.
    split; [by eapply asks_app|]. simpl. by rewrite Hlen.
Qed.

Section gathering.
Context (p : ScanPipeline) (env : Surroundings A USD C) (service : ServiceFamily) (market : Planning.Market) (scan : Z).
Abbreviation some := (asks_some p env service market scan).
Abbreviation next := (next_question p env service market).

Lemma enter_some {T} stage (k : unit → Run T) replies w r w' :
  (∀ w1, clean w1 → may_ask p scan w1 → k tt w1 = (r, w') → some w1 w' replies) →
  (enter_stage p scan stage ≫= k) w = (r, w') → some w w' replies.
Proof.
  intros Hk [(e & He & ->)|([] & w1 & He & Hr)]%bind_cases;
    (assert (wd_asked _ = wd_asked w) as Ha by (by eapply keeps_ok; [|exact He]; apply _)).
  - by apply some_none.
  - destruct (enter_stage_ok _ _ _ _ _ _ He) as [Hc Hm]. eapply some_app; [by apply asks_none|]. by apply Hk.
Qed.

Lemma ask_some {T U} call reply (m : Await USD C T) (k : T → Run U) replies w r w' :
  clean w → may_ask p scan w → next replies = Some call →
  (∀ a w1, clean w1 → k a w1 = (r, w') → some w1 w' (replies ++ [reply a])) →
  (ask call reply m ≫= k) w = (r, w') → some w w' replies.
Proof.
  intros Hc Hm Hn Hk [(e & Ha & ->)|(a & w1 & Ha & Hr)]%bind_cases;
    apply (ask_once _ _ _ p env service market scan _ _ _ _ Hc Hm Hn) in Ha as [Ha Hc1].
  - by eexists.
  - eapply some_app; [exact Ha|]. by apply Hk.
Qed.

Lemma gather_asks w r w' : gather p env scan service market w = (r, w') → some w w' [].
Proof.
  unfold gather. cbv zeta. apply enter_some. intros w1 C1 M1. apply ask_some; [done|done|done|]. intros candidates w2 C2.
  apply enter_some. intros w3 C3 M3. apply ask_some; [done|done|done|]. intros metrics w4 C4.
  apply enter_some. intros w5 C5 M5. change (([] ++ [Suggested candidates]) ++ [Measured metrics])
    with (page_replies candidates metrics []).
  intros [(e & Hf & ->)|(l & w6 & Hf & Hr)]%bind_cases;
    apply (fetch_serps_asks _ _ _ _ _ candidates metrics _ [] _ _ _ C5 eq_refl) in Hf; [done|].
  destruct Hf as (pages & Hasks & -> & Hlen & C6). eapply some_app; [exact Hasks|]. clear Hasks. revert Hr. cbn [app].
  pose proof (next_after_pages p env service market candidates metrics pages) as Hn.
  change (length pages = length (wanted_queries p env service market metrics)) in Hlen.
  rewrite (proj2 (lookup_ge_None _ _)), bool_decide_eq_true_2 in Hn by lia.
  fold (wanted_urls p env service market pages). apply enter_some. intros w7 C7 M7.
  destruct (wanted_urls p env service market pages) as [|url urls] eqn:Hu.
  - rewrite (bind_ret (S := World)). apply enter_some. intros w9 C9 M9.
    apply ask_some; [done|done|done|]. intros found w10 C10 [= _ <-]. by apply some_none.
  - apply ask_some; [done|done|done|]. intros competitors w8 C8. apply enter_some. intros w9 C9 M9.
    apply ask_some; [done|done| |].
    + unfold page_replies. cbn [app]. unfold next_question. rewrite (leading_pages_app pages [Compared competitors] I). cbv zeta.
      by rewrite (proj2 (lookup_ge_None _ _)), bool_decide_eq_true_2, Hu by lia.
    + intros found w10 C10 [= _ <-]. by apply some_none.
Qed.
End gathering.

(** The search for instances compares these by name. *)
#[local] Typeclasses Opaque in_session on_front or_rollback load_opportunity commit_session rollback_session _ensure_lease
  _ensure_not_cancelled _set_stage enter_stage _prepare_scan_run start add_artifact save_scan_records
  _save_assessment_records publish conclude except_clauses.

(** One step of a sequence that asks nothing *)
Ltac keeps_step :=
  lazymatch goal with |- Keeps _ (_ ≫= _) => apply keeps_bind; [apply _|intros ?] end.

#[export] Instance prepare_asked p env existing opportunity source service market plan :
  Keeps (S := World) wd_asked (_prepare_scan_run p env existing opportunity source service market plan).
Proof. unfold _prepare_scan_run. apply keeps_bind; [apply _|]. intros []. apply keeps_bind; [apply _|]. intros now.
  apply keeps_bind; [apply _|]. intros [scan row]. apply _. Qed.
#[export] Instance start_asked p env service market source existing :
  Keeps (S := World) wd_asked (start p env service market source existing).
Proof. unfold start. repeat keeps_step. apply _. Qed.
#[export] Instance artifact_asked opportunity scan kind : Keeps (S := World) wd_asked (add_artifact opportunity scan kind).
Proof. intros w. reflexivity. Qed.
#[export] Instance records_asked env scan opportunity g : Keeps (S := World) wd_asked (save_scan_records env scan opportunity g).
Proof. unfold save_scan_records. apply _. Qed.
#[export] Instance assessments_asked p env st score : Keeps (S := World) wd_asked (_save_assessment_records p env st score).
Proof.
  unfold _save_assessment_records. apply keeps_bind; [apply _|]. intros now. apply keeps_bind.
  - destruct (is_preliminary_assessment p); [intros w; reflexivity|apply in_session_asked].
  - intros _ w. reflexivity.
Qed.
#[export] Instance publish_asked p env st g q score : Keeps (S := World) wd_asked (publish p env st g q score).
Proof. unfold publish. repeat keeps_step. apply _. Qed.
#[export] Instance conclude_asked p env st service market g : Keeps (S := World) wd_asked (conclude p env st service market g).
Proof. unfold conclude. cbv zeta. apply keeps_bind; [apply _|]. intros _. apply keeps_bind; [apply _|]. intros now.
  destruct (score_evidence p env market g now); [|apply _]. repeat keeps_step; apply _. Qed.
#[export] Instance except_asked env st e : Keeps (S := World) wd_asked (except_clauses env st e).
Proof. unfold except_clauses. apply keeps_bind; [apply _|]. intros now. repeat case_match; apply _. Qed.

Lemma some_then p env service market scan w w1 w' h :
  asks_some p env service market scan w w1 h → wd_asked w' = wd_asked w1 → asks_some p env service market scan w w' h.
Proof. intros (h1 & Hw1) Ha. exists h1. eapply asks_app; [exact Hw1|by apply asks_none]. Qed.

Lemma body_asks p env st service market w r w' :
  run_body p env st service market w = (r, w') → asks_some p env service market (st_scan st) w w' [].
Proof.
  unfold run_body.
  destruct ((gather p env (st_scan st) service market ≫= conclude p env st service market) w) as [r1 w1] eqn:Hb. intros Hr.
  assert (asks_some p env service market (st_scan st) w w1 []) as Hsome.
  { apply bind_cases in Hb as [(e & Hg & ->)|(g & w2 & Hg & Hc)]; apply gather_asks in Hg; [done|].
    eapply some_then; [done|]. by eapply keeps_ok; [|exact Hc]; apply _. }
  destruct r1 as [a|e].
  - by injection Hr as _ <-.
  - eapply some_then; [done|]. by eapply keeps_ok; [|exact Hr]; apply _.
Qed.

Lemma run_asks p env service market source existing w :
  ∃ scan, asks_some p env service market scan w (run p env service market source existing w).2 [].
Proof.
  unfold run, or_rollback.
  destruct ((start p env service market source existing ≫= λ st, run_body p env st service market) w) as [r w1] eqn:Hr.
  assert (∃ scan, asks_some p env service market scan w w1 []) as (scan & Hsome).
  { apply bind_cases in Hr as [(e & Hs & ->)|(st & w2 & Hs & Hb)];
      (assert (wd_asked _ = wd_asked w) as Ha by (by eapply keeps_ok; [|exact Hs]; apply _)).
    - exists 0. by apply some_none.
    - exists (st_scan st). apply body_asks in Hb. eapply some_app; [by apply asks_none|done]. }
  exists scan. destruct r as [a|e]; [done|]. by eapply some_then.
Qed.

(** C5: Whatever the provider answers, whatever other processes write meanwhile, and however
    the run ends, every question of a run is the one that the answers before it lead to:
    the suggestions; the metrics of the suggestions that were included; one result page for
    each query that ranking the metrics selected, in that order; the metrics of the pages
    that the classified results selected, unless there are none; the listings.  So a run
    asks for no more result pages than its profile allows, for no more competing pages than
    it allows, and at most four questions besides.  Each question is asked with nothing
    left uncommitted, by the holder of the lease when there is one, and with no
    cancellation requested. *)
Theorem run_asks_within_its_profile p env service market source existing w :
  let w' := (run p env service market source existing w).2 in
  ∃ scan new,
    wd_asked w' = wd_asked w ++ new ∧ Forall (asked_properly p scan) new
    ∧ ∀ i a, new !! i = Some a →
        next_question p env service market (map aq_reply (take i new)) = Some (aq_call a)
        ∧ (i < 4 + Z.to_nat (serp_keyword_limit p))%nat
        ∧ match aq_call a with
          | GetSerpSnapshot _ => (2 ≤ i < 2 + Z.to_nat (serp_keyword_limit p))%nat
          | GetCompetitorMetrics urls => (0 < length urls ≤ backlink_competitor_limit p)%nat
          | _ => True
          end.
Proof.
  cbv zeta. destruct (run_asks p env service market source existing w) as (scan & replies & new & Hnew & Hf & Hl & _).
  exists scan, new. split; [done|]. split; [done|]. intros i a Hi.
  pose proof (follows_lookup _ _ _ _ _ Hl Hi) as Hn. cbn [app] in Hn. split; [done|].
  apply next_within in Hn. apply lookup_lt_Some in Hi. rewrite length_map, length_take, Nat.min_l in Hn by lia.
  destruct (aq_call a); lia.
Qed.

(** ** The end of a run *)

Definition runs w : gmap Z ScanRun := scan_runs (wd_db w).

Lemma in_session_runs {T} (m : Session USD T) w r w' : in_session m w = (r, w') →
  Keeps scan_runs m → runs w' = runs w.
Proof.
  intros (_ & _ & _ & Hruns & _)%in_session_parts Hm. unfold runs. rewrite Hruns. exact (Hm (session_view w)).
Qed.

Lemma assessments_runs p env st score w r w' : _save_assessment_records p env st score w = (r, w') → runs w' = runs w.
Proof.
  unfold _save_assessment_records. rewrite bind_gets.
  intros [(e & Ha & ->)|([] & w1 & Ha & Hr)]%bind_cases; [|injection Hr as _ <-; change (runs w1 = runs w)];
    destruct (is_preliminary_assessment p); [done|apply (in_session_runs _ _ _ _ Ha); intros ?; reflexivity
      |by injection Ha as <-|apply (in_session_runs _ _ _ _ Ha); intros ?; reflexivity].
Qed.

(** The scan is written as completed before the lease is checked for the last time. *)
Lemma publish_sees_completed p env st g q score w a w' : publish p env st g q score w = (Ok a, w') →
  ∃ w1, (∀ lease, pp_execution_lease p = Some lease → holds_lease (wd_db w1) lease (wd_now w1))
    ∧ w' = w1 <| wd_base := wd_tables w1 |>
    ∧ ∃ s, runs w1 !! st_scan st = Some s ∧ sc_status s = SCompleted.
Proof.
  unfold publish. cbv zeta. intros ([] & w1 & _ & Hr)%bind_ok. apply bind_ok in Hr as ([] & w2 & Hn & Hr).
  apply ensure_not_cancelled_ok in Hn as [-> [_ (row & Hrow & _)]]. rewrite bind_gets in Hr.
  apply bind_ok in Hr as (v & w3 & Ht & Hr). apply bind_ok in Hr as ([] & w4 & Ho & Hr).
  apply bind_ok in Hr as ([] & w5 & Hs & Hr). apply bind_ok in Hr as ([] & w6 & Hcost & Hr).
  apply bind_ok in Hr as ([] & w7 & [= <-] & Hr). apply bind_ok in Hr as ([] & w8 & [= <-] & Hr).
  apply bind_ok in Hr as ([] & w9 & Ha & Hr). apply bind_ok in Hr as ([] & w10 & [-> Hl]%ensure_lease_ok & [= _ <-]).
  exists w9. split; [done|]. split; [done|].
  apply assessments_runs in Ha. change (runs w9 = runs w6) in Ha.
  apply in_session_runs in Hcost; [|by intros ?]. apply in_session_parts in Hs as (_ & _ & _ & Hs & _).
  apply in_session_runs in Ht; [|apply _]. apply in_session_runs in Ho; [|by intros ?].
  rewrite Ha, Hcost. unfold runs at 1. rewrite Hs. cbn. rewrite lookup_alter_eq.
  change (wd_db w4) with (wd_db w4). unfold runs in Ho, Ht. rewrite Ho, Ht, Hrow. by eexists.
Qed.

Lemma leased_publish_raises p env st g q score w lease :
  pp_execution_lease p = Some lease → st_scan st = lease_scan_id lease →
  ∀ a w', publish p env st g q score w ≠ (Ok a, w').
Proof.
  intros Hp Hs a w' (w1 & Hl & _ & s & Hrow & Hst)%publish_sees_completed.
  destruct (Hl lease Hp) as (s' & e & Hrow' & Hst' & _). unfold runs in Hrow. rewrite Hs in Hrow. congruence.
Qed.

(** ** The opportunity's score *)

Definition latest w (i : Z) : option (option binary64) := opp_latest_score <$> opportunities (wd_db w) !! i.
Definition copied w (i : Z) : option (option binary64) := opp_latest_score <$> wd_loaded w !! i.
Definition seen_score (t : gmap Z Opportunity) (i : Z) : option (option binary64) := opp_latest_score <$> t !! i.

Lemma in_session_opportunities {T} (m : Session USD T) w r w' : in_session m w = (r, w') →
  opportunities (wd_db w') = flushed (wd_loaded w) (opportunities (m (session_view w)).2) (opportunities (wd_db w)).
Proof. unfold in_session. fold (session_view w). destruct (m (session_view w)) as [r0 db']. by intros [= _ <-]. Qed.

(** What a handler leaves of the score it saw, the flush leaves of the stored one. *)
Lemma flushed_score (loaded seen stored : gmap Z Opportunity) i :
  seen_score seen i = seen_score (loaded ∪ stored) i → seen_score (flushed loaded seen stored) i = seen_score stored i.
Proof.
  unfold seen_score, flushed. rewrite map_lookup_imap, lookup_union.
  destruct (seen !! i) as [new|], (loaded !! i) as [old|], (stored !! i) as [row|]; simpl; try done.
  intros [= E]. unfold flushed_column. by rewrite decide_True.
Qed.

Lemma flushed_score_new (loaded seen stored : gmap Z Opportunity) i x :
  seen_score seen i = Some x →
  seen_score (flushed loaded seen stored) i = seen_score stored i ∨ seen_score (flushed loaded seen stored) i = Some x.
Proof.
  unfold seen_score, flushed. rewrite map_lookup_imap.
  destruct (seen !! i) as [new|]; [|done]. intros [= <-].
  destruct (loaded !! i) as [old|]; simpl; [|by right]. destruct (stored !! i) as [row|]; simpl; [|by left].
  unfold flushed_column. case_decide; [by left|by right].
Qed.

Lemma in_session_scores {T} (m : Session USD T) w r w' : in_session m w = (r, w') →
  (∀ i, seen_score (opportunities (m (session_view w)).2) i = seen_score (opportunities (session_view w)) i) →
  ∀ i, latest w' i = latest w i.
Proof.
  intros Ho%in_session_opportunities Hm i. change (latest w' i) with (seen_score (opportunities (wd_db w')) i).
  rewrite Ho. by apply flushed_score.
Qed.

Lemma kept_scores {T} (m : Session USD T) w r w' : Keeps opportunities m → in_session m w = (r, w') →
  ∀ i, latest w' i = latest w i.
Proof. intros Hm Hi. apply (in_session_scores _ _ _ _ Hi). intros i. by rewrite (Hm (session_view w)). Qed.

Lemma moved_score current target owner now o : opp_latest_score (moved current target owner now o) = opp_latest_score o.
Proof. unfold moved. by repeat case_bool_decide. Qed.

Lemma transition_scores i target decision reason now db j :
  seen_score (opportunities (transition_system i target decision reason now db).2) j = seen_score (opportunities db) j.
Proof.
  unfold transition_system, _opportunity, canonical_state. rewrite bind_get_or_raise.
  destruct (opportunities db !! i) as [o|] eqn:Hi; [|done]. rewrite bind_get_or_raise. destruct (canonical _) as [s|]; [|done].
  destruct (bool_decide (s = target)); [done|]. rewrite bind_raise_if. destruct (negb _); [done|].
  cbv zeta. rewrite bind_raise_if. destruct (negb _); [done|].
  set (request := Build_ReviewTransitionRequest _ _ _ _ _ _ _). unfold mbind, M_bind.
  destruct (transition_run i request system_actor now db) as [(o1 & current & _ & ->)|(_ & e & ->)]; [|done].
  transitivity (seen_score (alter (moved current (target_state request) (str_or (owner_user_id request) (opp_owner_user_id o1))
                                     now) i (opportunities db)) j); [reflexivity|].
  unfold seen_score. rewrite lookup_alter. case_decide; [|done].
  subst j. rewrite Hi. cbn [fmap option_fmap option_map]. by rewrite moved_score.
Qed.

Lemma published_score p env q score o :
  opp_latest_score (published p env q score o) = opp_latest_score o
  ∨ is_preliminary_assessment p = false ∧ evidence_status score = Scoring.complete
    ∧ opp_latest_score (published p env q score o) = Some (en_to_float env (total_score score)).
Proof.
  unfold published. cbv zeta. destruct (is_preliminary_assessment p); [left; by destruct (is_none _)|].
  case_bool_decide; [by right|left; by destruct (is_none _)].
Qed.

Lemma update_scores p env q score i w u w' : in_session (update_opportunity i (published p env q score)) w = (Ok u, w') →
  ∀ j, latest w' j = latest w j
    ∨ j = i ∧ is_preliminary_assessment p = false ∧ evidence_status score = Scoring.complete
      ∧ latest w' j = Some (Some (en_to_float env (total_score score))).
Proof.
  intros Ho%in_session_opportunities j. change (latest w' j) with (seen_score (opportunities (wd_db w')) j).
  cbn in Ho. rewrite Ho. change (latest w j) with (seen_score (opportunities (wd_db w)) j).
  change (opportunities (session_view w)) with (wd_loaded w ∪ opportunities (wd_db w)).
  set (V := wd_loaded w ∪ opportunities (wd_db w)). set (f := published p env q score).
  assert (seen_score (alter f i V) j = seen_score V j ∨ j = i ∧ is_preliminary_assessment p = false
    ∧ evidence_status score = Scoring.complete
    ∧ seen_score (alter f i V) j = Some (Some (en_to_float env (total_score score)))) as [E|(-> & Hp & Hc & E)].
  - unfold seen_score. rewrite lookup_alter. case_decide; [subst j|by left]. destruct (V !! i) as [o|]; [|by left].
    cbn [fmap option_fmap option_map]. destruct (published_score p env q score o) as [E|(? & ? & E)]; unfold f; rewrite E; auto 6.
  - left. by apply flushed_score.
  - destruct (flushed_score_new (wd_loaded w) (alter f i V) (opportunities (wd_db w)) i _ E); [by left|right; done].
Qed.

(** A handler that writes rows other than the opportunities keeps their scores. *)
Lemma read_only_scores {T} (m : Run T) w r w' : ReadOnly m → m w = (r, w') → ∀ i, latest w' i = latest w i.
Proof. intros Hm Hr i. specialize (Hm w). rewrite Hr in Hm. cbn in Hm. by subst. Qed.

Lemma write_stage_scores p scan stage now : Keeps opportunities (write_stage (USD := USD) p scan stage now).
Proof.
  unfold write_stage. destruct (pp_execution_lease p) as [lease|]; [|by intros db].
  intros db. unfold ScanWorker.set_stage. rewrite bind_gets. destruct (scan_runs db !! lease_scan_id lease); [|done].
  by destruct (_ && _).
Qed.

Lemma set_stage_scores p scan stage w u w' : _set_stage p scan stage w = (Ok u, w') →
  wd_now w' = wd_now w ∧ ∀ i, latest w' i = latest w i.
Proof.
  unfold _set_stage. rewrite bind_gets. intros (v & w1 & Hw & [= _ <-])%bind_ok.
  unfold or_rollback in Hw. destruct (in_session _ w) as [[[]|e] w2] eqn:Hi; [|done]. injection Hw as _ ->. split.
  - change (wd_now w1 = wd_now w). by apply in_session_parts in Hi as (_ & ? & _).
  - intros i. exact (kept_scores _ _ _ _ (write_stage_scores p scan stage (wd_now w)) Hi i).
Qed.

Lemma enter_stage_scores p scan stage w u w' : enter_stage p scan stage w = (Ok u, w') →
  wd_now w' = wd_now w ∧ ∀ i, latest w' i = latest w i.
Proof. unfold enter_stage. by intros (? & ? & [-> _]%ensure_not_cancelled_ok & ?%set_stage_scores)%bind_ok. Qed.

Lemma conclude_publishes p env st service market g w a w' : conclude p env st service market g w = (Ok a, w') →
  ∃ raw w1, score_evidence p env market g (wd_now w) = Ok raw ∧ (∀ i, latest w1 i = latest w i)
    ∧ publish p env st g (assess_evidence p env service g)
        (apply_to_score (en_quality env) raw (assess_evidence p env service g)) w1 = (Ok a, w').
Proof.
  unfold conclude. cbv zeta. intros ([] & w1 & [Hn He]%enter_stage_scores & Hr)%bind_ok. rewrite bind_gets, Hn in Hr.
  destruct (score_evidence p env market g (wd_now w)) as [raw|e]; [|done].
  apply bind_ok in Hr as ([] & w2 & Hu & Hr). apply bind_ok in Hr as ([] & w3 & [_ Hs]%set_stage_scores & Hr).
  exists raw, w3. split; [done|]. split; [|done]. intros i. rewrite Hs, <- He.
  apply (kept_scores _ _ _ _ (ltac:(by intros ?) : Keeps opportunities (update_scan (st_scan st) _)) Hu).
Qed.

Definition records w : gmap Z (SavedRecords A) := tb_records (wd_tables w).

#[export] Instance in_session_records {T} (m : Session USD T) : Keeps (S := World) records (in_session m).
Proof. intros w. unfold in_session. by destruct (m _). Qed.

(** What the last stage of a run does to what is stored *)
Lemma save_records_stores env scan opportunity g w u w' : save_scan_records env scan opportunity g w = (Ok u, w') →
  records w' !! scan = Some (saved_of g) ∧ ∀ i, latest w' i = latest w i.
Proof.
  unfold save_scan_records. intros ([] & w1 & Hs & [= _ <-])%bind_ok. split; [apply lookup_insert_eq|].
  intros i. change (latest w1 i = latest w i). apply (in_session_scores _ _ _ _ Hs). clear. intros i. unfold seen_score.
  do 2 f_equal. cbn [snd modify]. set (db := session_view w).
  assert (∀ l (db0 : Db USD), opportunities (foldl (add_snapshot scan opportunity) db0 l) = opportunities db0) as Hf.
  { induction l as [|s l IH]; intros db0; [done|]. cbn [foldl]. by rewrite IH. }
  exact (Hf (ga_serp_snapshots g) _).
Qed.

Lemma assessments_keep p env st score w u w' : _save_assessment_records p env st score w = (Ok u, w') →
  records w' = records w ∧ ∀ i, latest w' i = latest w i.
Proof.
  unfold _save_assessment_records. rewrite bind_gets. intros ([] & w1 & Ha & [= _ <-])%bind_ok.
  change (records w1 = records w ∧ ∀ i, latest w1 i = latest w i).
  destruct (is_preliminary_assessment p); [by injection Ha as <-|].
  split; [exact (keeps_ok records _ _ _ _ Ha)|]. exact (kept_scores _ _ _ _ _ Ha).
Qed.

Lemma publish_stores p env st g q score w a w' : publish p env st g q score w = (Ok a, w') →
  records w' !! st_scan st = Some (saved_of g) ∧ an_score a = score ∧ an_evidence_quality a = q
  ∧ ∀ i, latest w' i = latest w i
    ∨ i = st_opportunity st ∧ is_preliminary_assessment p = false ∧ evidence_status score = Scoring.complete
      ∧ latest w' i = Some (Some (en_to_float env (total_score score))).
Proof.
  unfold publish. cbv zeta. intros ([] & w1 & [R1 L1]%save_records_stores & Hr)%bind_ok.
  apply bind_ok in Hr as ([] & w2 & [-> _]%ensure_not_cancelled_ok & Hr). rewrite bind_gets in Hr.
  apply bind_ok in Hr as (v & w3 & Ht & Hr). apply bind_ok in Hr as ([] & w4 & Ho & Hr).
  apply bind_ok in Hr as ([] & w5 & Hs & Hr). apply bind_ok in Hr as ([] & w6 & Hcost & Hr).
  apply bind_ok in Hr as ([] & w7 & [= <-] & Hr). apply bind_ok in Hr as ([] & w8 & [= <-] & Hr).
  apply bind_ok in Hr as ([] & w9 & Ha & Hr). apply bind_ok in Hr as ([] & w10 & [-> _]%ensure_lease_ok & [= <- <-]).
  apply assessments_keep in Ha as [R9 L9]. change (records w9 = records w6) in R9. change (∀ i, latest w9 i = latest w6 i) in L9.
  pose proof (keeps_ok records _ _ _ _ Ht) as R3. pose proof (keeps_ok records _ _ _ _ Ho) as R4.
  pose proof (keeps_ok records _ _ _ _ Hs) as R5. pose proof (keeps_ok records _ _ _ _ Hcost) as R6.
  split; [change (records w9 !! st_scan st = Some (saved_of g)); by rewrite R9, R6, R5, R4, R3|].
  split; [done|]. split; [done|]. intros i. change (latest (w9 <| wd_base := wd_tables w9 |>) i) with (latest w9 i).
  pose proof (in_session_scores _ _ _ _ Ht (λ j, transition_scores _ _ _ _ _ _ j) i) as L3.
  pose proof (kept_scores _ _ _ _ (ltac:(by intros ?) : Keeps opportunities (update_scan (st_scan st) _)) Hs i) as L5.
  pose proof (kept_scores _ _ _ _ (ltac:(by intros ?) : Keeps opportunities (record_actual_cost (st_scan st))) Hcost i) as L6.
  destruct (update_scores _ _ _ _ _ _ _ _ Ho i) as [L4|(-> & ? & ? & L4)]; [left|right]; rewrite L9, L6, L5, L4;
    [by rewrite L3, L1|done].
Qed.

Lemma failed_is_not_complete config score q : qa_status q = q_fail →
  evidence_status (apply_to_score (A := A) config score q) ≠ Scoring.complete.
Proof. intros E. unfold apply_to_score. by rewrite E. Qed.

(** C6: What a finished run publishes.  The result is committed, the scan is completed, and
    everything the run gathered is stored under it; the verdict and the score are those of
    the gathered evidence.  The score of an opportunity changes only for the opportunity of
    the scan, only by a scan that is not a live scan with the testing profile, whose evidence
    passed the check and is complete, and then to the total of that score: a live testing
    scan, partial evidence or failed evidence never replaces it.  A testing scan of fixtures
    or replayed answers counts as a full scan here and does replace it, against the README
    (PipelineRun.fixture_testing_scan_replaces_the_score). *)
Theorem only_complete_full_scores_are_published p env st service market g w a w' :
  conclude p env st service market g w = (Ok a, w') →
  clean w'
  ∧ (∃ s, runs w' !! st_scan st = Some s ∧ sc_status s = SCompleted)
  ∧ records w' !! st_scan st = Some (saved_of g)
  ∧ an_evidence_quality a = assess_evidence p env service g
  ∧ (∃ raw, score_evidence p env market g (wd_now w) = Ok raw
       ∧ an_score a = apply_to_score (en_quality env) raw (an_evidence_quality a))
  ∧ ∀ i o o', opportunities (wd_db w) !! i = Some o → opportunities (wd_db w') !! i = Some o' →
      opp_latest_score o' = opp_latest_score o
      ∨ i = st_opportunity st ∧ is_preliminary_assessment p = false
        ∧ qa_status (an_evidence_quality a) ≠ q_fail ∧ evidence_status (an_score a) = Scoring.complete
        ∧ opp_latest_score o' = Some (en_to_float env (total_score (an_score a))).
Proof.
  intros (raw & w1 & Hraw & L1 & Hp)%conclude_publishes.
  destruct (publish_sees_completed _ _ _ _ _ _ _ _ _ Hp) as (w2 & _ & -> & Hcompleted).
  apply publish_stores in Hp as (Hrec & Hscore & Hq & HL).
  split; [reflexivity|]. split; [exact Hcompleted|]. split; [exact Hrec|]. split; [exact Hq|].
  split; [exists raw; split; [exact Hraw|by rewrite Hscore, Hq]|].
  intros i o o' Ho Ho'. assert (latest w i = Some (opp_latest_score o)) as E by (unfold latest; by rewrite Ho).
  rewrite Hscore, Hq. destruct (HL i) as [E'|(-> & Hpre & Hc & E')]; unfold latest in E' at 1; rewrite Ho' in E'; cbn in E'.
  - left. rewrite L1, E in E'. by injection E'.
  - right. split; [done|]. split; [done|]. split; [|split; [done|by injection E']].
    intros Hf. by apply (failed_is_not_complete (en_quality env) raw _ Hf).
Qed.

(** ** Runs under a lease *)

Lemma prepared_scan_id p env opportunity source service market plan lease w scan w' :
  pp_execution_lease p = Some lease → lease_scan_id lease ≠ 0 →
  _prepare_scan_run p env (Some (lease_scan_id lease)) opportunity source service market plan w = (Ok scan, w') →
  scan = lease_scan_id lease.
Proof.
  intros Hp Hne. unfold _prepare_scan_run. intros ([] & w1 & [-> Hl]%ensure_lease_ok & Hr)%bind_ok.
  destruct (Hl lease Hp) as (s & e & Hs & _). rewrite bind_gets in Hr.
  apply bind_ok in Hr as ([i row] & w2 & [Hi ->]%gets_ok & Hr).
  unfold existing_scan in Hi. rewrite (proj2 (Z.eqb_neq _ _) Hne), Hs in Hi. cbn in Hi. injection Hi as -> ->.
  apply bind_ok in Hr as ([] & w3 & _ & Hr). by apply bind_ok in Hr as ([] & w4 & _ & [= -> _]).
Qed.

Lemma started_scan_id p env service market source lease w st w' :
  pp_execution_lease p = Some lease → lease_scan_id lease ≠ 0 →
  start p env service market source (Some (lease_scan_id lease)) w = (Ok st, w') → st_scan st = lease_scan_id lease.
Proof.
  intros Hp Hne. unfold start. intros ([] & w1 & _ & Hr)%bind_ok. rewrite bind_gets in Hr.
  apply bind_ok in Hr as (plan & w2 & _ & Hr). apply bind_ok in Hr as ([] & w3 & _ & Hr).
  apply bind_ok in Hr as (service_id & w4 & _ & Hr). apply bind_ok in Hr as (market_id & w5 & _ & Hr).
  apply bind_ok in Hr as (opportunity & w6 & _ & Hr). apply bind_ok in Hr as ([] & w7 & _ & Hr).
  apply bind_ok in Hr as (row & w8 & _ & Hr). apply bind_ok in Hr as (scan & w9 & Hscan & Hr).
  apply bind_ok in Hr as ([] & w10 & _ & [= <- _]). by apply (prepared_scan_id _ _ _ _ _ _ _ _ _ _ _ Hp Hne) in Hscan.
Qed.

(** C7: A run for the scan whose lease it holds, which is how the worker runs every queued
    scan, never succeeds, whatever is planned, answered and scored: [run] writes the scan as
    completed and flushes, and the last check of the lease, which wants a running scan, then
    finds it lost.  The result is rolled back after all of it was paid for. *)
Theorem leased_run_never_completes p env service market source lease w :
  pp_execution_lease p = Some lease → lease_scan_id lease ≠ 0 →
  ∀ a w', run p env service market source (Some (lease_scan_id lease)) w ≠ (Ok a, w').
Proof.
  intros Hp Hne a w'. unfold run, or_rollback.
  destruct ((start p env service market source _ ≫= _) w) as [[a1|e] w1] eqn:Hr; [|done]. intros _.
  apply bind_ok in Hr as (st & w2 & Hs & Hb). apply (started_scan_id _ _ _ _ _ _ _ _ _ Hp Hne) in Hs.
  unfold run_body in Hb. destruct ((gather _ _ _ _ _ ≫= _) w2) as [[a2|e] w3] eqn:Hg.
  - apply bind_ok in Hg as (g & w4 & _ & Hc). apply conclude_publishes in Hc as (raw & w5 & _ & _ & Hpub).
    exact (leased_publish_raises _ _ _ _ _ _ _ _ Hp Hs _ _ Hpub).
  - by apply bind_ok in Hb as (? & ? & _ & ?).
Qed.
End pipeline.

(** ** Runs of a provider that answers *)

Module PipelineRun.
Import FrontRun CatalogRun.
#[local] Instance no_trig : Trig Q := {| num_radians x := x; num_sin x := x; num_cos x := x; num_asin x := x |}.

Definition roofs : CatalogServiceDefinition := {|
  cd_id := "roofing"; cd_slug := "roofing"; cd_display_name := "Roof Repair"; cd_aliases := []; cd_description := "";
  cd_seed_queries := ["roof repair"; "roofer"]; cd_negative_terms := []; cd_intent_modifiers := [];
  cd_negative_product_terms := []; cd_provider_categories := ["Roofing contractor"]; cd_regulated := false;
  cd_enabled := true |}%string.

Definition candidate (keyword : string) : KeywordCandidate := {|
  kc_keyword := keyword; kc_source := "fixture"; kc_included := true; kc_excluded_reason := None |}.
Definition page (query : string) : SerpSnapshot := {|
  ss_query := query; ss_captured_at := Aware 0 0; ss_features_present := [];
  ss_results := [SerpRun.found "https://www.yelp.com/roof" "Roof repair in Austin";
                 SerpRun.found "https://peak.example/roof" "Licensed roof repair in Austin, TX";
                 SerpRun.found "https://apex.example/roof" "Insured roof repair service in Austin, TX"]%string |}.
Definition metric (url : string) : CompetitorMetric Q := {|
  cm_url := url; cm_domain := String.substring 8 (String.length url - 13) url; cm_referring_domains := Some 75;
  cm_page_relevance_score := Some (cents 60); cm_local_relevance := Some (cents 60); cm_page_type := "directory";
  cm_archetype := None; cm_representative_query := None; cm_serp_position := None; cm_serp_observations := [] |}.

(** Before it lists the businesses, the provider lets [meanwhile] happen. *)
Definition provider (meanwhile : Session Z unit) : MarketResearchProvider Q Z unit := {|
  discover_keywords _ _ := mret [candidate "roof repair"; candidate "roofer"];
  get_keyword_metrics _ _ := mret Sample.keywords;
  get_serp_snapshot query _ := mret (page query);
  get_competitor_metrics urls := mret (map metric urls);
  find_providers _ _ := λ '(f, now),
    (Ok (replicate 3 (RatingRun.roofer "open")), (f <| front_desk ::= λ d, d <| desk_db ::= λ db, (meanwhile db).2 |> |>, now + 5)) |}.

Definition surroundings (meanwhile : Session Z unit) : Surroundings Q Z unit := {|
  en_settings := settings; en_provider := provider meanwhile; en_provider_name := "fixture";
  en_domain_provider_name := "fixture"; en_services := loaded [roofs]; en_scoring_version := "v2.12";
  en_scoring := default_config; en_estimator := PopulationShareDemandEstimator; en_rating := RatingRun.config;
  en_quality := QualityRun.config; en_serp_rules := SerpRun.defaults; en_prefilter _ _ := JNull; en_plan_json _ := JNull;
  en_dump_service _ := JNull; en_dump_market _ := JNull; en_dump_score _ := ∅; en_dump_quality _ := JNull;
  en_error_text _ := ""; en_fixed_1 _ := ""; en_py_float _ := ""; en_of_float _ := 0%Q;
  en_to_float x := F64.lit (Qnum x) (Zpos (Qden x)) |}.
Definition quiet : Surroundings Q Z unit := surroundings (mret tt).

Definition pipeline_with (lease : option ScanExecutionLease) : ScanPipeline :=
  {| pp_data_mode := fixture; pp_scan_profile := "full"; pp_execution_lease := lease |}.
Definition free : ScanPipeline := pipeline_with None.

Definition world_with (scans : gmap Z ScanRun) : World Q Z unit :=
  let tables := Build_Tables {|
    front_desk := {| desk_db := empty_db <| scan_runs := scans |>; discovery_templates := ∅; batch_scan_plans := ∅;
      batch_scan_plan_items := ∅; scan_plans := ∅; scan_columns := ∅; catalog := () |};
    service_rows := ∅; market_rows := ∅; audit_entries := [] |} ∅ [] [] [] in
  Build_World tables tables ∅ 50 [].

Abbreviation run_of p env id w := (ScanPipeline.run p env QualityRun.roofing RatingRun.austin "fixture" id w).
Definition finished : result run_error Answer * World Q Z unit := run_of free quiet None (world_with ∅).
Definition status_of (w : World Q Z unit) : option (string * Z) :=
  (λ o, (opp_status o, opp_review_version o)) <$> opportunities (base_db w) !! 1.

(** A full scan of fixtures, from the catalog to the score *)
Example full_run_publishes :
  map aq_call (wd_asked finished.2)
    = [DiscoverKeywords; GetKeywordMetrics ["roof repair"; "roofer"]; GetSerpSnapshot "roof repair"; GetSerpSnapshot "roofer";
       GetCompetitorMetrics ["https://apex.example/roof"; "https://peak.example/roof"; "https://www.yelp.com/roof"];
       FindProviders]
  ∧ status_of finished.2 = Some ("full_review", 2)
  ∧ (opportunities (base_db finished.2) !! 1 ≫= opp_latest_score) = Some (F64.lit 6875 100)%string.
Proof. split_and!; vm_compute; reflexivity. Qed.

(** A scan of fixtures with the profile "testing" is not preliminary either: when a reviewer
    wants more evidence, it replaces the score that the opportunity has. *)
Definition to_rescan : World Q Z unit :=
  let reviewed o := o <| opp_status := "needs_more_evidence" |> <| opp_latest_score := Some (F64.lit 1 1) |> in
  let t := set_db ((wd_db finished.2) <| opportunities ::= alter reviewed 1 |>) (wd_base finished.2) in
  Build_World t t ∅ 100 [].
Definition testing : ScanPipeline := {| pp_data_mode := fixture; pp_scan_profile := "testing"; pp_execution_lease := None |}.
Definition rescanned : result run_error Answer * World Q Z unit :=
  run_of testing quiet None to_rescan.
Definition score_of (w : World Q Z unit) : option binary64 := opportunities (base_db w) !! 1 ≫= opp_latest_score.

Example fixture_testing_scan_replaces_the_score :
  score_of to_rescan = Some (F64.lit 1 1)
  ∧ testing_profile testing = true ∧ is_preliminary_assessment testing = false
  ∧ score_of rescanned.2 = Some (F64.lit 6875 100).
Proof. split_and!; vm_compute; reflexivity. Qed.

Definition begun := ScanPipeline.start free quiet QualityRun.roofing RatingRun.austin "fixture" None (world_with ∅).
Definition st0 : Started := match begun.1 with Ok st => st | Raise _ => {| st_opportunity := 0; st_scan := 0;
  st_plan := plan_of "full" 0 0 [] |} end.
Definition gathering := gather free quiet (st_scan st0) QualityRun.roofing RatingRun.austin.
Definition concluding := conclude free quiet st0 QualityRun.roofing RatingRun.austin.

Lemma concluding_succeeds : ∃ g w a w', gathering begun.2 = (Ok g, w) ∧ concluding g w = (Ok a, w').
Proof.
  assert (match ((gathering ≫= concluding) begun.2).1 with Ok _ => true | Raise _ => false end = true) as Hok
    by (vm_compute; reflexivity).
  destruct ((gathering ≫= concluding) begun.2) as [[a|e] w'] eqn:Hr; [|discriminate Hok].
  apply bind_ok in Hr as (g & w & Hg & Hc). exists g, w, a, w'. exact (conj Hg Hc).
Qed.

Lemma only_complete_full_scores_are_published_witness : ∃ g w a w',
  gathering begun.2 = (Ok g, w) ∧ concluding g w = (Ok a, w') ∧ clean w' ∧ records w' !! st_scan st0 = Some (saved_of g)
  ∧ an_evidence_quality a = assess_evidence free quiet QualityRun.roofing g.
Proof.
  destruct concluding_succeeds as (g & w & a & w' & Hg & Hc). exists g, w, a, w'.
  destruct (only_complete_full_scores_are_published free quiet st0 QualityRun.roofing RatingRun.austin g w a w' Hc)
    as (Hclean & _ & Hrec & Hq & _).
  exact (conj Hg (conj Hc (conj Hclean (conj Hrec Hq)))).
Defined.

(** *** The scan of a worker *)

Definition lease : ScanExecutionLease := {| lease_scan_id := 1; lease_worker_id := "w"; lease_token := "t" |}.
Definition claimed : ScanRun := (new_scan 1 "manual_async") <| sc_status := SRunning |> <| sc_worker_id := Some "w"%string |>
  <| sc_lease_token := Some "t"%string |> <| sc_lease_expires_at := Some 1000 |>.
Definition leased := run_of (pipeline_with (Some lease)) quiet (Some 1) (world_with {[1 := claimed]}).

(** The run that succeeds without a lease loses it at the end: all questions were asked, and
    the scan is left running with nothing published. *)
Example leased_run_is_lost :
  leased.1 = Raise (failure ScanLeaseLost) ∧ length (wd_asked leased.2) = 6%nat
  ∧ status_of leased.2 = Some ("full_running", 1)
  ∧ (λ s, (sc_status s, sc_progress_stage s)) <$> scan_runs (base_db leased.2) !! 1 = Some (SRunning, "persisting_results"%string).
Proof. split_and!; vm_compute; reflexivity. Qed.

Lemma leased_run_never_completes_witness :
  holds_lease (wd_db (world_with {[1 := claimed]})) lease 50 ∧ ∀ a w', leased ≠ (Ok a, w').
Proof.
  split; [by exists claimed, 1000|].
  apply (leased_run_never_completes (pipeline_with (Some lease)) quiet QualityRun.roofing RatingRun.austin "fixture" lease
    (world_with {[1 := claimed]})); [reflexivity|discriminate].
Defined.

(** *** A decision taken during the run *)

Definition decide_as (target : OpportunityState) : Session Z OpportunityReview :=
  transition 1 {| target_state := target; decision := "reviewed"; decision_reason := "The market is not worth it.";
    notes := ""; tags := []; owner_user_id := None; expected_review_version := None |}
    {| actor_id := "ana"; actor_role := reviewer |} 52.
Definition archiving : Session Z unit := decide_as needs_more_evidence ≫= λ _, decide_as archived ≫= λ _, mret tt.
Definition overtaken := run_of free (surroundings archiving) None (world_with ∅).

(** A reviewer archives the opportunity while the run waits for the listings.  No transition
    leaves the archive, but the run ends on the copy it loaded before: the opportunity is in
    full review, and its history has the version 2 twice. *)
Example archiving_is_overwritten :
  map (λ i, (λ r, (rev_prior_state r, rev_review_state r, rev_review_version r))
              <$> opportunity_reviews (base_db overtaken.2) !! i) [1; 2; 3; 4]
    = [Some (Some "discovered", "full_running", 1); Some (Some "full_running", "needs_more_evidence", 2);
       Some (Some "needs_more_evidence", "archived", 3); Some (Some "full_running", "full_review", 2)]%string
  ∧ status_of overtaken.2 = Some ("full_review", 2)%string
  ∧ ALLOWED_TRANSITIONS archived = [].
Proof. split_and!; vm_compute; reflexivity. Qed.
End PipelineRun.
